(* ===== verification/_CoqProject ===== *)
-Q . S2P
Prelude.v
Bitmap.v
NetPack.v
Queues.v
IntStr.v
StrToLL.v
StrNum8.v
MyTime.v
StrTime.v
ThrLock.v
MultiLock.v
DynArray.v
MyList.v
Like.v
Wild8.v
Collate.v
Latin1.v
CtypeBin.v
CtypeSimple.v
Latin1De.v
UniCase.v
Utf8.v
Utf8Coll.v
UniLike.v
CtypeMb.v
MbLike.v
MbTwo.v
SjisTab.v
Sjis.v
GbkTab.v
Gbk.v
Hash.v
HashTable.v
HashUpdate.v
Tree.v
TreeRB.v
TreeMap.v
TreeScan.v
QSort.v
Uni8.v
Decimal.v
DecimalArith.v
DecimalSub.v
DecimalMul.v
DecimalInt.v
DecimalBin.v
DecimalPack.v
DecimalUnpack.v
DecimalRound.v
DecimalDiv.v
DecimalMod.v
DecimalShift.v
DecimalStr.v
MemRoot.v
