(* ===== verification/Prelude.v ===== *)
(** * MySQL 5.0.15: the C libraries below the server

    This development models parts of the C libraries that the MySQL server,
    its storage engines and its client share: [mysys] (data structures, locks,
    sorting), [strings] (character sets and conversions) and [sql-common]
    (dates, packet lengths), all under src/trunk/mysql-5.0.15.

    ** The parts and their files

    - Prelude (this file): machine integers, fallible operations, tactics,
      bytes and lists.
    - Bitmap: mysys/my_bitmap.c, mysys/my_bit.c.  A map is the record of the
      allocation and its size, as [MY_BITMAP]; one definition per function.
    - NetPack: sql-common/pack.c and the stores and loads of
      include/my_global.h that it uses.
    - Queues: mysys/queues.c, the binary heap in an array, with the field
      [max_at_top] as the mask the code uses.  [queue_fix] is in QSort.
    - QSort: mysys/mf_qsort.c, with its explicit stack of ranges, its pivots and
      pointers as indexes; [queue_fix] of mysys/queues.c, which calls it.
    - IntStr: strings/int2str.c, strings/longlong2str.c.  StrToLL:
      strings/my_strtoll10.c, one definition per label.
    - MyTime and StrTime: sql-common/my_time.c.  MyTime has the numbers and the
      calendar, StrTime the parsers and printers, which use the class table of
      strings/ctype-latin1.c.
    - ThrLock: mysys/thr_lock.c, the table locks.  A lock is the record of its
      four queues; each function that runs under the mutex of a lock is one
      definition that gives the new lock, the events and whether the caller
      waits; a step relation interleaves the calls of all threads.
    - MultiLock: [thr_multi_lock] and [thr_multi_unlock], as threads of a system
      of locks that take one step for each call of [thr_lock].
    - MemRoot: mysys/my_alloc.c and mysys/my_once.c, the memory roots, on the list
      of the blocks that malloc has given out.
    - DynArray: mysys/array.c.  MyList: mysys/list.c, on a heap of nodes.
    - Like: what a LIKE pattern means, for any weights of characters.  Wild8: the
      loops of LIKE that the 8-bit character sets share.
    - Collate: comparison by weights, with and without end spaces.
    - CtypeBin: strings/ctype-bin.c.
    - CtypeSimple, StrNum8, Uni8: strings/ctype-simple.c, the collations given by
      a table of weights with LIKE and its ranges, the reading and printing of
      integers, and the conversions from and to Unicode.  The class
      [SimpleCollation] is what is assumed of a table.
    - Latin1, Latin1De: strings/ctype-latin1.c, its tables and the German
      collation with characters that count as two.
    - UniCase, Utf8, Utf8Coll, UniLike: strings/ctype-utf8.c, the case tables,
      the codec and case conversion, the general collation with its sort keys
      and hashes, and LIKE, which the UCS-2 collations of strings/ctype-ucs2.c
      share.  The class [Charset] is what a character set promises to LIKE.
    - CtypeMb, MbLike: strings/ctype-mb.c, the functions that the multi-byte sets
      share, for any set of the class [MbCharset], and their LIKE.  MbTwo: the sets
      with characters of one and two bytes, compared in the two ways of sjis and
      gbk.  SjisTab, Sjis: the tables and functions of strings/ctype-sjis.c, and what
      strings/ctype-cp932.c does otherwise.  GbkTab, Gbk: strings/ctype-gbk.c and
      strings/ctype-big5.c, and the characters of strings/ctype-gb2312.c and
      strings/ctype-euc_kr.c.
    - Hash, HashTable, HashUpdate: mysys/hash.c.  Hash has the functions,
      HashTable the invariant and the proofs for insertion, deletion and search,
      HashUpdate [hash_update].  The class of collations in Hash is what the
      table needs of a character set.
    - Tree, TreeRB, TreeMap, TreeScan: mysys/tree.c, the red-black trees.  Tree
      has the functions, on subtrees and the frames of the stack of parents;
      TreeRB the red-black rules, TreeMap the sorted list a tree stands for,
      TreeScan the reading in order from a key or an edge.
    - Decimal, DecimalArith, DecimalSub, DecimalMul, DecimalInt, DecimalBin,
      DecimalPack, DecimalUnpack, DecimalRound, DecimalDiv, DecimalMod,
      DecimalShift, DecimalStr: strings/decimal.c, exact decimals as arrays of words of nine
      digits.  Decimal has the arithmetic, the next three files
      what it computes, DecimalInt the conversions from and to 64-bit integers,
      DecimalBin those from and to the stored form, the next two files what is
      written and read, DecimalRound the rounding, DecimalDiv and DecimalMod the
      long division and its remainder, DecimalShift the powers of ten,
      DecimalStr what is read and printed.

    ** What the theorems show

    - Table locks: conflicting locks are never held together, as long as an owner
      asks for its locks in descending order; a request waits only while some
      lock of the table is held (though not always one it conflicts with,
      [timed_out_writer_leaves_readers]); unlocking hands the lock over; the
      requests for an aborted table are refused while its writer keeps the lock;
      threads that lock several tables at once cannot deadlock, except when a call
      names a table twice, and share the status of the instances of a table.
    - Data structures: the hash table is a bag of records under any sequence of
      calls, and search with [hash_next] finds each matching record once; the
      heap operations keep the heap order, but for a removal from the middle, and
      draining gives a sorted list;
      quicksort ends with a sorted permutation inside its stack; a red-black
      tree is a sorted list of keys and counts under any sequence of calls, stays
      balanced within its stack of 64 pointers, and is read in order from any
      key; the bitmap is a finite set; lists and arrays keep their contents.
    - Memory roots: what is given out never overlaps and lies in memory of the
      root, and everything is freed exactly once, under sequences of calls whose
      sizes do not wrap 32 bits and in which a new first block is not refused.
    - Conversions: integers, packet lengths, dates and times come back as they
      were printed or stored; the parsers answer with numbers in their ranges
      and report overflow; day numbers are those of the calendar.
    - Character sets: the UTF-8 codec is a bijection; comparison is the order of
      the weights; sort keys compare as the strings do; equal strings hash
      alike; LIKE matches what the pattern stands for, and its range covers the
      strings that match, unless the collation is binary; the tables built for the
      way back from Unicode are those written by hand for latin1.  The same order,
      keys and LIKE hold for sjis, and order and keys for gbk; sjis and Unicode
      translate into each other without loss but for the backslash.
    - Decimals: addition, subtraction and multiplication are exact in the room
      that [decimal_result_size] computes (multiplication as far as its 32-bit
      sums allow) and give well-formed numbers; comparison is the order of the
      values; rounding gives the exact number cut off or rounded at its digit;
      quotients are exact to the words asked for, and remainders by a number
      that is at least one are those of the values; shifts multiply by the power
      of ten; a number that is printed and read again is the same; integers and
      stored numbers come back with their value; the stored forms of numbers
      that fit are ordered by [memcmp] like the numbers.
    - Several theorems and lemmas pin down where the code does something else
      than it means to; the names say what happens.

    ** Bounds and fuel

    C loops without a structural measure are fixpoints with fuel; [None] is fuel
    that runs out, an access outside an object or a failed assertion.  The
    functions start their loops with a fuel that depends on their input (the
    length of a string or array, the number of records), and the theorems show
    a result [Some], which means that the fuel was enough.  Integers have the
    width they have on x86-64 with gcc; where a theorem needs a bound on sizes
    (for instance that a length fits an int) it is a hypothesis.

    ** What is not modelled

    Memory allocation is a parameter that answers or fails; malloc is what the
    memory roots assume of it.  Mutexes are not
    modelled as such: the code between lock and unlock is one step.  Signals,
    files, sockets and the thread library are left out, and so are the
    debugging macros.  The server itself (sql/), the storage engines (myisam/,
    innobase/, heap/, bdb/, ndb/) and vendored code are outside.  Of the character
    sets, the Unicode collation algorithm (strings/ctype-uca.c), the three-byte
    Japanese sets and the collations of single languages are left out. *)

From stdpp Require Import base numbers list gmap sets sorting.
From Stdlib Require Import ZArith Lia.

(** ** Machine integers

    The C code is built for x86-64 (config.h: [SIZEOF_INT] 4, [SIZEOF_LONG] 8,
    little endian).  A [w]-bit integer is a [Z]; the functions below are the
    conversions the C casts and the wrap-around of unsigned arithmetic perform. *)

Declare Scope cint_scope.
Delimit Scope cint_scope with cint.

Definition u8 (x : Z) : Z := (x mod 2 ^ 8)%Z.
Definition u16 (x : Z) : Z := (x mod 2 ^ 16)%Z.
Definition u32 (x : Z) : Z := (x mod 2 ^ 32)%Z.
Definition u64 (x : Z) : Z := (x mod 2 ^ 64)%Z.
Definition s8 (x : Z) : Z := ((x + 2 ^ 7) mod 2 ^ 8 - 2 ^ 7)%Z.
Definition s32 (x : Z) : Z := ((x + 2 ^ 31) mod 2 ^ 32 - 2 ^ 31)%Z.
Definition s64 (x : Z) : Z := ((x + 2 ^ 63) mod 2 ^ 64 - 2 ^ 63)%Z.

Abbreviation is_u8 x := (0 <= x < 2 ^ 8)%Z (only parsing).
Abbreviation is_u32 x := (0 <= x < 2 ^ 32)%Z (only parsing).
Abbreviation is_u64 x := (0 <= x < 2 ^ 64)%Z (only parsing).
Abbreviation is_s32 x := (- 2 ^ 31 <= x < 2 ^ 31)%Z (only parsing).
Abbreviation is_s64 x := (- 2 ^ 63 <= x < 2 ^ 63)%Z (only parsing).

(** A C condition used as a value. *)
Definition b2z (b : bool) : Z := if b then 1%Z else 0%Z.

Local Open Scope Z_scope.

Create HintDb cint.

Lemma u8_range x : is_u8 (u8 x).
Proof. apply Z.mod_pos_bound. lia. Qed.

Lemma u32_range x : is_u32 (u32 x).
Proof. apply Z.mod_pos_bound. lia. Qed.

Lemma u64_range x : is_u64 (u64 x).
Proof. apply Z.mod_pos_bound. lia. Qed.

Lemma s64_range x : is_s64 (s64 x).
Proof. unfold s64. pose proof (Z.mod_pos_bound (x + 2 ^ 63) (2 ^ 64)). lia. Qed.

Lemma u8_small x : is_u8 x -> u8 x = x.
Proof. unfold u8. apply Z.mod_small. Qed.

Lemma u32_small x : is_u32 x -> u32 x = x.
Proof. unfold u32. apply Z.mod_small. Qed.

Lemma u64_small x : is_u64 x -> u64 x = x.
Proof. unfold u64. apply Z.mod_small. Qed.

Lemma s32_small x : is_s32 x -> s32 x = x.
Proof. unfold s32. intros H. rewrite Z.mod_small by lia. lia. Qed.

Lemma s64_small x : is_s64 x -> s64 x = x.
Proof. unfold s64. intros H. rewrite Z.mod_small by lia. lia. Qed.

Lemma u64_s64 x : u64 (s64 x) = u64 x.
Proof.
  unfold u64, s64. rewrite Zminus_mod_idemp_l. f_equal. lia.
Qed.

Lemma s64_u64 x : s64 (u64 x) = s64 x.
Proof. unfold u64, s64. rewrite Zplus_mod_idemp_l. reflexivity. Qed.

#[export] Hint Resolve u8_range u32_range u64_range s64_range : cint.
#[export] Hint Rewrite u64_s64 s64_u64 : cint.

(** A byte compared with an ASCII character as a signed [char]. *)
Lemma s8_eqb c w : is_u8 c -> 0 <= w < 128 -> (s8 c =? w) = (c =? w).
Proof.
  intros Hc Hw. apply eq_bool_prop_intro. rewrite !Is_true_true, !Z.eqb_eq. unfold s8.
  destruct (Z.ltb_spec c 128); [rewrite Z.mod_small by lia; lia|].
  replace (c + 2 ^ 7) with (c - 2 ^ 7 + 1 * 2 ^ 8) by lia. rewrite Z.mod_add, Z.mod_small by lia. lia.
Qed.

(** ** Fallible operations

    An operation whose C body can access memory outside its object, fail a
    [DBUG_ASSERT] or run past the fuel of a loop returns an [option]; [None]
    is that event, never an ordinary result of the code. *)

Definition assert_that (b : bool) : option unit := if b then Some () else None.

Lemma bind_Some_eq {A B} (x : A) (f : A -> option B) : (Some x ≫= f) = f x.
Proof. reflexivity. Qed.

Lemma bind_assert {A} b (k : unit -> option A) : b = true -> (assert_that b ≫= k) = k ().
Proof. intros ->. reflexivity. Qed.

Lemma bind_assert_inv {A} b (k : unit -> option A) r :
  (assert_that b ≫= k) = Some r -> b = true /\ k () = Some r.
Proof. destruct b; [auto|discriminate]. Qed.

(** ** Tactics *)

(** Linear arithmetic with division and remainder by constants. *)
Ltac dlia := Z.to_euclidean_division_equations; lia.

(** Appends to the right. *)
Ltac flat_app := repeat (rewrite <- app_assoc; cbn [app]).

(** Turn boolean comparisons of hypotheses and goal into propositions. *)
Ltac b2p :=
  repeat match goal with
  | H : _ && _ = true |- _ => apply andb_true_iff in H as [? ?]
  | H : _ || _ = false |- _ => apply orb_false_iff in H as [? ?]
  | H : negb _ = true |- _ => apply negb_true_iff in H
  | H : negb _ = false |- _ => apply negb_false_iff in H
  | H : (_ =? _) = true |- _ => apply Z.eqb_eq in H
  | H : (_ =? _) = false |- _ => apply Z.eqb_neq in H
  | H : (_ <? _) = true |- _ => apply Z.ltb_lt in H
  | H : (_ <? _) = false |- _ => apply Z.ltb_ge in H
  | H : (_ <=? _) = true |- _ => apply Z.leb_le in H
  | H : (_ <=? _) = false |- _ => apply Z.leb_gt in H
  end.

(** Split on every [if] of the goal whose condition is not itself an [if]. *)
Ltac case_if :=
  match goal with
  | |- context [if ?b then _ else _] =>
      lazymatch b with
      | context [if _ then _ else _] => fail
      | _ => let E := fresh "E" in destruct b eqn:E
      end
  end.

(** ** Bytes *)

Abbreviation bytes l := (Forall (fun b : Z => 0 <= b < 256) l) (only parsing).

(** Little-endian value of a byte string. *)
Fixpoint le_val (l : list Z) : Z :=
  match l with
  | [] => 0
  | b :: t => b + 256 * le_val t
  end.

(** The [n] low-order bytes of [v], least significant first. *)
Fixpoint le_bytes (n : nat) (v : Z) : list Z :=
  match n with
  | O => []
  | S n => u8 v :: le_bytes n (v / 256)
  end.

Lemma length_le_bytes n v : length (le_bytes n v) = n.
Proof. revert v. induction n; intros; simpl; auto. Qed.

Lemma bytes_le_bytes n v : bytes (le_bytes n v).
Proof.
  revert v. induction n; intros; simpl; constructor; [apply u8_range | auto].
Qed.

Lemma le_val_le_bytes n v : le_val (le_bytes n v) = v mod 2 ^ (8 * Z.of_nat n).
Proof.
  revert v. induction n as [|n IH]; intros v; simpl le_val.
  - rewrite Z.mod_1_r. reflexivity.
  - rewrite IH. unfold u8.
    replace (8 * Z.of_nat (S n)) with (8 + 8 * Z.of_nat n) by lia.
    rewrite Z.pow_add_r by lia.
    change (2 ^ 8) with 256.
    rewrite (Z.rem_mul_r v 256 (2 ^ (8 * Z.of_nat n))) by lia.
    lia.
Qed.

Lemma le_bytes_le_val l : bytes l -> le_bytes (length l) (le_val l) = l.
Proof.
  induction 1 as [|b l Hb _ IH]; simpl; [reflexivity|].
  assert ((b + 256 * le_val l) mod 2 ^ 8 = b) as Hm.
  { change (2 ^ 8) with 256. rewrite (Z.mul_comm 256), Z.mod_add by lia.
    apply Z.mod_small; lia. }
  assert ((b + 256 * le_val l) / 256 = le_val l) as Hd.
  { rewrite (Z.mul_comm 256), Z.div_add by lia. rewrite Z.div_small by lia. lia. }
  unfold u8. rewrite Hm, Hd, IH. reflexivity.
Qed.

Lemma le_val_bound l : bytes l -> 0 <= le_val l < 2 ^ (8 * Z.of_nat (length l)).
Proof.
  intros H. rewrite <- (le_bytes_le_val l H), le_val_le_bytes, length_le_bytes.
  apply Z.mod_pos_bound. lia.
Qed.

(** ** Lists *)

(** [while (to < end) { *to = f( *to, *from); to++; from++; }] for [n] rounds:
    the first [n] elements of [to] are combined with those of [from], the rest
    of [to] stays; [None] when either block is shorter than [n]. *)
Fixpoint map2_prefix {A B} (f : A -> B -> A) (n : nat) (to : list A) (from : list B)
  : option (list A) :=
  match n with
  | O => Some to
  | S n =>
      match to, from with
      | a :: to, b :: from => cons (f a b) <$> map2_prefix f n to from
      | _, _ => None
      end
  end.

Lemma map2_prefix_spec {A B} (f : A -> B -> A) n to from :
  (n <= length to)%nat -> (n <= length from)%nat ->
  exists l, map2_prefix f n to from = Some l /\ length l = length to /\
    forall i, l !! i = if decide (i < n)%nat then
                         a ← to !! i; b ← from !! i; Some (f a b)
                       else to !! i.
Proof.
  revert to from. induction n as [|n IH]; intros to from Ht Hf.
  - exists to. split; [done|]. split; [done|]. intros i. case_decide; [lia|done].
  - destruct to as [|a to]; [simpl in *; lia|].
    destruct from as [|b from]; [simpl in *; lia|].
    destruct (IH to from) as (l & Hl & Hlen & Hi); [simpl in *; lia..|].
    exists (f a b :: l). simpl. rewrite Hl. split; [done|]. split; [simpl; congruence|].
    intros [|i]; simpl; [reflexivity|]. rewrite Hi.
    repeat case_decide; auto; lia.
Qed.

(** [memset(buf, c, n)] / [bzero]: the first [n] elements are overwritten. *)
Definition fill_prefix {A} (c : A) (n : nat) (l : list A) : list A :=
  replicate (n `min` length l) c ++ drop n l.

Lemma lookup_fill_prefix {A} (c : A) n (l : list A) i :
  fill_prefix c n l !! i =
    if decide (i < n)%nat then (if decide (i < length l)%nat then Some c else None)
    else l !! i.
Proof.
  unfold fill_prefix. case_decide as Hi.
  - case_decide as Hl.
    + rewrite lookup_app_l by (rewrite length_replicate; lia).
      apply lookup_replicate_2. lia.
    + rewrite lookup_app_r by (rewrite length_replicate; lia).
      apply lookup_ge_None. rewrite length_drop, length_replicate. lia.
  - destruct (decide (i < length l)%nat).
    + rewrite lookup_app_r by (rewrite length_replicate; lia).
      rewrite length_replicate, lookup_drop. f_equal. lia.
    + rewrite !(proj2 (lookup_ge_None _ _)); auto; [lia|].
      rewrite length_app, length_replicate, length_drop. lia.
Qed.

Lemma length_fill_prefix {A} (c : A) n (l : list A) :
  length (fill_prefix c n l) = length l.
Proof. unfold fill_prefix. rewrite length_app, length_replicate, length_drop. lia. Qed.

Lemma Forall_lookup_Z (P : Z -> Prop) l i x : Forall P l -> l !! i = Some x -> P x.
Proof. rewrite Forall_lookup. eauto. Qed.

(** Sorted lists by positions. *)
Lemma sorted_lookup {A} (R : A -> A -> Prop) l i j x y : StronglySorted R l -> (i < j)%nat ->
  l !! i = Some x -> l !! j = Some y -> R x y.
Proof.
  intros Hs. revert i j. induction Hs as [|a l _ IH HF]; intros i j Hij Hx Hy; [done|].
  destruct i as [|i], j as [|j]; simplify_eq/=; [lia| |lia|eapply IH; [|done..]; lia].
  rewrite Forall_forall in HF. apply HF, list_elem_of_lookup. eauto.
Qed.

Lemma sorted_pairs {A} (R : A -> A -> Prop) l :
  (forall i j x y, (i < j)%nat -> l !! i = Some x -> l !! j = Some y -> R x y) -> StronglySorted R l.
Proof.
  induction l as [|a l IH]; intros H; constructor.
  - apply IH. intros i j x y Hij Hx Hy. by apply (H (S i) (S j) x y); [lia|..].
  - apply Forall_lookup. intros i x Hx. by apply (H 0%nat (S i) a x); [lia|..].
Qed.

(** ** What a comparison function has to be *)

Class Preordered {A} (cmp : A -> A -> Z) : Prop := {
  order_anti : forall a b, cmp a b < 0 <-> 0 < cmp b a;
  order_trans : forall a b c, cmp a b <= 0 -> cmp b c <= 0 -> cmp a c <= 0
}.

Section preorder.
Context {A : Type} (cmp : A -> A -> Z) `{!Preordered cmp}.

Lemma order_refl a : cmp a a = 0.
Proof. pose proof (order_anti a a). lia. Qed.

Lemma order_lt_le a b c : cmp a b < 0 -> cmp b c <= 0 -> cmp a c < 0.
Proof.
  intros H1 H2. pose proof (order_anti a c). pose proof (order_anti a b). pose proof (order_anti c a). pose proof (order_anti c b).
  pose proof (order_anti b c). pose proof (order_trans b c a). lia.
Qed.

Lemma order_le_lt a b c : cmp a b <= 0 -> cmp b c < 0 -> cmp a c < 0.
Proof.
  intros H1 H2. pose proof (order_anti a c). pose proof (order_anti a b). pose proof (order_anti c a). pose proof (order_anti b c).
  pose proof (order_anti b a). pose proof (order_trans c a b). lia.
Qed.
End preorder.

#[export] Instance sub_preordered : Preordered Z.sub.
Proof. split; lia. Qed.
