(* ===== verification/Bitmap.v ===== *)
(** * Bitmaps (mysys/my_bitmap.c, include/my_bitmap.h, mysys/my_bit.c)

    [MY_BITMAP] is a block of bytes with a size.  Every operation of
    my_bitmap.c is a definition below, over the bytes of the block; the
    abstract view of a map is the finite set of the bits that are set, and
    [bitmap_refines_set] shows that every operation acts on that set as its
    name says. *)

From stdpp Require Import base numbers list gmap sets.
From Stdlib Require Import ZArith Lia.
From S2P Require Import Prelude.

Local Open Scope Z_scope.

(** ** mysys/my_bit.c *)

(** Bits set in a byte, as the source's table. *)
Definition nbits : list Z :=
  [0; 1; 1; 2; 1; 2; 2; 3; 1; 2; 2; 3; 2; 3; 3; 4; 1; 2; 2; 3; 2; 3; 3; 4; 2; 3; 3; 4; 3; 4; 4; 5; 1; 2; 2; 3; 2;
   3; 3; 4; 2; 3; 3; 4; 3; 4; 4; 5; 2; 3; 3; 4; 3; 4; 4; 5; 3; 4; 4; 5; 4; 5; 5; 6; 1; 2; 2; 3; 2; 3; 3; 4; 2; 3;
   3; 4; 3; 4; 4; 5; 2; 3; 3; 4; 3; 4; 4; 5; 3; 4; 4; 5; 4; 5; 5; 6; 2; 3; 3; 4; 3; 4; 4; 5; 3; 4; 4; 5; 4; 5; 5;
   6; 3; 4; 4; 5; 4; 5; 5; 6; 4; 5; 5; 6; 5; 6; 6; 7; 1; 2; 2; 3; 2; 3; 3; 4; 2; 3; 3; 4; 3; 4; 4; 5; 2; 3; 3; 4;
   3; 4; 4; 5; 3; 4; 4; 5; 4; 5; 5; 6; 2; 3; 3; 4; 3; 4; 4; 5; 3; 4; 4; 5; 4; 5; 5; 6; 3; 4; 4; 5; 4; 5; 5; 6; 4;
   5; 5; 6; 5; 6; 6; 7; 2; 3; 3; 4; 3; 4; 4; 5; 3; 4; 4; 5; 4; 5; 5; 6; 3; 4; 4; 5; 4; 5; 5; 6; 4; 5; 5; 6; 5; 6;
   6; 7; 3; 4; 4; 5; 4; 5; 5; 6; 4; 5; 5; 6; 5; 6; 6; 7; 4; 5; 5; 6; 5; 6; 6; 7; 5; 6; 6; 7; 6; 7; 7; 8].

(** [my_count_bits_ushort(v)]: [v] is a [ushort], the table has 256 entries. *)
Definition my_count_bits_ushort (v : Z) : option Z := nbits !! Z.to_nat v.

(** [my_count_bits(v)] of an unsigned 64-bit value: eight table look-ups. *)
Definition my_count_bits (v : Z) : option Z :=
  let v2 := Z.shiftr v 32 in
  n0 ← nbits !! Z.to_nat (u8 v);
  n1 ← nbits !! Z.to_nat (u8 (Z.shiftr v 8));
  n2 ← nbits !! Z.to_nat (u8 (Z.shiftr v 16));
  n3 ← nbits !! Z.to_nat (u8 (Z.shiftr v 24));
  n4 ← nbits !! Z.to_nat (u8 v2);
  n5 ← nbits !! Z.to_nat (u8 (Z.shiftr v2 8));
  n6 ← nbits !! Z.to_nat (u8 (Z.shiftr v2 16));
  n7 ← nbits !! Z.to_nat (u8 (Z.shiftr v2 24));
  Some (u8 (n0 + n1 + n2 + n3 + n4 + n5 + n6 + n7)).

(** [my_bit_log2(value)]: halve until at most 1, counting; 64 rounds are
    enough for a 64-bit [ulong]. *)
Fixpoint my_bit_log2_loop (fuel : nat) (value bit : Z) : option Z :=
  match fuel with
  | O => None
  | S fuel =>
      if 1 <? value then my_bit_log2_loop fuel (Z.shiftr value 1) (u32 (bit + 1))
      else Some bit
  end.

Definition my_bit_log2 (value : Z) : option Z := my_bit_log2_loop 65 value 0.

(** ** The map *)

(** [bitmap] is the allocation [map->bitmap] points at ([None]: the null
    pointer), from the first byte of the map to the end of the allocation;
    [mutex] says whether [map->mutex] is set.  With a mutex the allocation of
    [bitmap_init] goes on after the [bitmap_size] bytes of the map. *)
Record MY_BITMAP := mkMap {
  bitmap : option (list Z);
  bitmap_size : Z;
  mutex : bool
}.

Definition with_bitmap (map : MY_BITMAP) (buf : list Z) : MY_BITMAP :=
  mkMap (Some buf) (bitmap_size map) (mutex map).

Definition MY_BIT_NONE : Z := 2 ^ 32 - 1.

(** [sizeof(pthread_mutex_t)]. *)
Definition sizeof_mutex : nat := 40.

(** [map->bitmap_size * 8] in [uint] arithmetic. *)
Definition size_bits (map : MY_BITMAP) : Z := u32 (bitmap_size map * 8).

(** The block a map designates; [DBUG_ASSERT(map->bitmap)]. *)
Definition buf_of (map : MY_BITMAP) : option (list Z) := bitmap map.

(** [bitmap_init]: [buf] is the caller's buffer or null; [malloc n] is the
    result of [my_malloc(n, MY_WME | MY_ZEROFILL)] ([None] when it fails).
    Returns the [my_bool] result with the map. *)
Definition bitmap_init (malloc : nat -> option (list Z)) (map : MY_BITMAP)
    (buf : option (list Z)) (size : Z) (thread_safe : bool) : option (MY_BITMAP * Z) :=
  _ ← assert_that (Z.land size 7 =? 0);
  let size := size / 8 in
  match (match buf with
         | Some b => Some b
         | None => malloc (Z.to_nat size + (if thread_safe then sizeof_mutex else 0))%nat
         end) with
  | None => Some (mkMap None (bitmap_size map) (mutex map), 1)
  | Some b => Some (mkMap (Some b) size thread_safe, 0)
  end.

Definition bitmap_free (map : MY_BITMAP) : MY_BITMAP :=
  match bitmap map with
  | Some _ => mkMap None (bitmap_size map) (mutex map)
  | None => map
  end.

(** *** Single bits *)

Definition bitmap_fast_set_bit (buf : list Z) (bit : Z) : option (list Z) :=
  let i := Z.to_nat (bit / 8) in
  b ← buf !! i;
  Some (<[i := u8 (Z.lor b (Z.shiftl 1 (Z.land bit 7)))]> buf).

Definition bitmap_fast_clear_bit (buf : list Z) (bit : Z) : option (list Z) :=
  let i := Z.to_nat (bit / 8) in
  b ← buf !! i;
  Some (<[i := u8 (Z.land b (Z.lnot (Z.shiftl 1 (Z.land bit 7))))]> buf).

Definition bitmap_fast_is_set (buf : list Z) (bit : Z) : option Z :=
  b ← buf !! Z.to_nat (bit / 8);
  Some (Z.land b (Z.shiftl 1 (Z.land bit 7))).

Definition bitmap_set_bit (map : MY_BITMAP) (bitmap_bit : Z) : option MY_BITMAP :=
  buf ← buf_of map;
  _ ← assert_that (bitmap_bit <? size_bits map);
  with_bitmap map <$> bitmap_fast_set_bit buf bitmap_bit.

Definition bitmap_clear_bit (map : MY_BITMAP) (bitmap_bit : Z) : option MY_BITMAP :=
  buf ← buf_of map;
  _ ← assert_that (bitmap_bit <? size_bits map);
  with_bitmap map <$> bitmap_fast_clear_bit buf bitmap_bit.

Definition bitmap_is_set (map : MY_BITMAP) (bitmap_bit : Z) : option Z :=
  buf ← buf_of map;
  _ ← assert_that (bitmap_bit <? size_bits map);
  s8 <$> bitmap_fast_is_set buf bitmap_bit.

Definition bitmap_fast_test_and_set (map : MY_BITMAP) (bitmap_bit : Z)
  : option (MY_BITMAP * Z) :=
  buf ← buf_of map;
  let i := Z.to_nat (bitmap_bit / 8) in
  byte ← buf !! i;
  let bit := u8 (Z.shiftl 1 (Z.land bitmap_bit 7)) in
  let res := u8 (Z.land byte bit) in
  Some (with_bitmap map (<[i := Z.lor byte bit]> buf), s8 res).

Definition bitmap_test_and_set (map : MY_BITMAP) (bitmap_bit : Z)
  : option (MY_BITMAP * Z) :=
  _ ← buf_of map;
  _ ← assert_that (bitmap_bit <? size_bits map);
  bitmap_fast_test_and_set map bitmap_bit.

(** *** Searching for a clear bit

    [for (b = 0;; b++) if (!( *bitmap & (1 << b))) ...]: an [uchar] that is not
    0xff has a clear bit among the first eight. *)
Fixpoint first_clear (fuel : nat) (byte b : Z) : option Z :=
  match fuel with
  | O => None
  | S fuel =>
      if Z.land byte (Z.shiftl 1 b) =? 0 then Some b else first_clear fuel byte (b + 1)
  end.

(** [for (i = 0; i < n; i++, bitmap++) if ( *bitmap != 0xff) ...]: the byte index
    and the bit found, [Some None] when the loop ends; [None] when [bitmap]
    leaves the allocation. *)
Fixpoint find_free (n : nat) (i : Z) (buf : list Z) : option (option (Z * Z)) :=
  match n with
  | O => Some None
  | S n =>
      match buf with
      | [] => None
      | byte :: buf =>
          if negb (byte =? 255) then
            b ← first_clear 8 byte 0;
            Some (Some (i, b))
          else find_free n (i + 1) buf
      end
  end.

Definition bitmap_set_next (map : MY_BITMAP) : option (MY_BITMAP * Z) :=
  buf ← buf_of map;
  r ← find_free (Z.to_nat (size_bits map)) 0 buf;
  match r with
  | None => Some (map, MY_BIT_NONE)
  | Some (i, b) =>
      byte ← buf !! Z.to_nat i;
      Some (with_bitmap map (<[Z.to_nat i := u8 (Z.lor byte (Z.shiftl 1 b))]> buf),
            u32 (i * 8 + b))
  end.

Definition bitmap_get_first (map : MY_BITMAP) : option Z :=
  buf ← buf_of map;
  r ← find_free (Z.to_nat (size_bits map)) 0 buf;
  match r with
  | None => Some MY_BIT_NONE
  | Some (i, b) => Some (u32 (i * 8 + b))
  end.

(** *** Prefixes *)

(** The [memset] of the whole bytes and the store of the byte the prefix ends
    in; also returns the final [prefix_bytes]. *)
Definition set_prefix_head (buf : list Z) (prefix_size : Z) : option (list Z * nat) :=
  let prefix_bytes := Z.to_nat (prefix_size / 8) in
  _ ← assert_that (bool_decide (prefix_bytes <= length buf)%nat);
  let buf := fill_prefix 255 prefix_bytes buf in
  let prefix_bits := Z.land prefix_size 7 in
  if prefix_bits =? 0 then Some (buf, prefix_bytes)
  else
    _ ← buf !! prefix_bytes;
    Some (<[prefix_bytes := u8 (Z.shiftl 1 prefix_bits - 1)]> buf, S prefix_bytes).

Definition bitmap_set_prefix (map : MY_BITMAP) (prefix_size : Z) : option MY_BITMAP :=
  buf ← buf_of map;
  _ ← assert_that ((prefix_size <=? size_bits map) || (prefix_size =? 2 ^ 32 - 1));
  let prefix_size := if size_bits map <? prefix_size then size_bits map else prefix_size in
  '(buf, prefix_bytes) ← set_prefix_head buf prefix_size;
  let n := Z.to_nat (bitmap_size map) in
  if bool_decide (prefix_bytes < n)%nat then
    _ ← assert_that (bool_decide (n <= length buf)%nat);
    Some (with_bitmap map (take prefix_bytes buf ++
                           fill_prefix 0 (n - prefix_bytes) (drop prefix_bytes buf)))
  else Some (with_bitmap map buf).

Definition bitmap_clear_all (map : MY_BITMAP) : option MY_BITMAP := bitmap_set_prefix map 0.
Definition bitmap_set_all (map : MY_BITMAP) : option MY_BITMAP :=
  bitmap_set_prefix map (2 ^ 32 - 1).

(** [while (m < end) if ( *m++ != c) goto ret;] over [n] bytes: [Some true] when
    the loop runs to its end, with the block after it. *)
Fixpoint scan_eq (c : Z) (n : nat) (m : list Z) : option (bool * list Z) :=
  match n with
  | O => Some (true, m)
  | S n =>
      match m with
      | [] => None
      | b :: m => if negb (b =? c) then Some (false, m) else scan_eq c n m
      end
  end.

Definition bitmap_is_prefix (map : MY_BITMAP) (prefix_size : Z) : option Z :=
  let prefix_bits := Z.land prefix_size 7 in
  buf ← buf_of map;
  _ ← assert_that (prefix_size <=? size_bits map);
  '(ok, m) ← scan_eq 255 (Z.to_nat (prefix_size / 8)) buf;
  if negb ok then Some 0 else
  '(ok, m, used) ←
    (if prefix_bits =? 0 then Some (true, m, 0%nat)
     else match m with
          | [] => None
          | b :: m => Some (b =? Z.shiftl 1 prefix_bits - 1, m, 1%nat)
          end);
  if negb ok then Some 0 else
  '(ok, _) ← scan_eq 0 (Z.to_nat (bitmap_size map) - (Z.to_nat (prefix_size / 8) + used)) m;
  Some (b2z ok).

Definition bitmap_is_clear_all (map : MY_BITMAP) : option Z := bitmap_is_prefix map 0.
Definition bitmap_is_set_all (map : MY_BITMAP) : option Z :=
  bitmap_is_prefix map (size_bits map).

(** *** Whole maps *)

(** [while (m1 < end) if (( *m1++) & ~( *m2++)) goto ret;] *)
Fixpoint subset_loop (n : nat) (m1 m2 : list Z) : option Z :=
  match n with
  | O => Some 1
  | S n =>
      match m1, m2 with
      | a :: m1, b :: m2 =>
          if negb (Z.land a (Z.lnot b) =? 0) then Some 0 else subset_loop n m1 m2
      | _, _ => None
      end
  end.

Definition bitmap_is_subset (map1 map2 : MY_BITMAP) : option Z :=
  m1 ← buf_of map1;
  m2 ← buf_of map2;
  _ ← assert_that (bitmap_size map1 =? bitmap_size map2);
  subset_loop (Z.to_nat (bitmap_size map1)) m1 m2.

(** [memcmp(m1, m2, n) == 0] *)
Fixpoint memcmp_eq (n : nat) (m1 m2 : list Z) : option bool :=
  match n with
  | O => Some true
  | S n =>
      match m1, m2 with
      | a :: m1, b :: m2 => if a =? b then memcmp_eq n m1 m2 else Some false
      | _, _ => None
      end
  end.

Definition bitmap_cmp (map1 map2 : MY_BITMAP) : option Z :=
  m1 ← buf_of map1;
  m2 ← buf_of map2;
  _ ← assert_that (bitmap_size map1 =? bitmap_size map2);
  b2z <$> memcmp_eq (Z.to_nat (bitmap_size map1)) m1 m2.

Definition bitmap_intersect (map map2 : MY_BITMAP) : option MY_BITMAP :=
  to ← buf_of map;
  from ← buf_of map2;
  let len := Z.to_nat (bitmap_size map) in
  let len2 := Z.to_nat (bitmap_size map2) in
  to ← map2_prefix (fun a b => u8 (Z.land a b)) (len `min` len2)%nat to from;
  if bool_decide (len2 < len)%nat then
    _ ← assert_that (bool_decide (len <= length to)%nat);
    Some (with_bitmap map (take len2 to ++ fill_prefix 0 (len - len2) (drop len2 to)))
  else Some (with_bitmap map to).

Definition bitmap_set_above (map : MY_BITMAP) (from_byte use_bit : Z) : option MY_BITMAP :=
  let use_byte := if use_bit =? 0 then 0 else 255 in
  buf ← buf_of map;
  let from := Z.to_nat from_byte in
  let n := Z.to_nat (bitmap_size map) in
  if bool_decide (from < n)%nat then
    _ ← assert_that (bool_decide (n <= length buf)%nat);
    Some (with_bitmap map (take from buf ++ fill_prefix use_byte (n - from) (drop from buf)))
  else Some map.

Definition bitmap_subtract (map map2 : MY_BITMAP) : option MY_BITMAP :=
  to ← buf_of map;
  from ← buf_of map2;
  _ ← assert_that (bitmap_size map =? bitmap_size map2);
  with_bitmap map <$>
    map2_prefix (fun a b => u8 (Z.land a (Z.lnot b))) (Z.to_nat (bitmap_size map)) to from.

Definition bitmap_union (map map2 : MY_BITMAP) : option MY_BITMAP :=
  to ← buf_of map;
  from ← buf_of map2;
  _ ← assert_that (bitmap_size map =? bitmap_size map2);
  with_bitmap map <$>
    map2_prefix (fun a b => u8 (Z.lor a b)) (Z.to_nat (bitmap_size map)) to from.

Fixpoint bits_set_loop (n : nat) (m : list Z) (res : Z) : option Z :=
  match n with
  | O => Some res
  | S n =>
      match m with
      | [] => None
      | b :: m => c ← my_count_bits_ushort b; bits_set_loop n m (u32 (res + c))
      end
  end.

Definition bitmap_bits_set (map : MY_BITMAP) : option Z :=
  m ← buf_of map;
  bits_set_loop (Z.to_nat (bitmap_size map)) m 0.

(** ** Theory *)

(** *** Bytes, by evaluation over the 256 values *)

Lemma byte_all (P : Z -> bool) :
  forallb P (seqZ 0 256) = true -> forall b, 0 <= b < 256 -> P b = true.
Proof.
  intros H b Hb. rewrite forallb_forall in H. apply H.
  apply list_elem_of_In, elem_of_seqZ. lia.
Qed.

Lemma nbits_spec b : 0 <= b < 256 ->
  nbits !! Z.to_nat b =
    Some (Z.of_nat (length (filter (fun i => Is_true (Z.testbit b i)) (seqZ 0 8)))).
Proof.
  intros Hb.
  apply (byte_all (fun b => bool_decide (nbits !! Z.to_nat b =
    Some (Z.of_nat (length (filter (fun i => Is_true (Z.testbit b i)) (seqZ 0 8))))))) in Hb.
  - by apply bool_decide_eq_true in Hb.
  - vm_compute. reflexivity.
Qed.

Lemma first_clear_spec byte : 0 <= byte < 256 -> byte <> 255 ->
  exists b, first_clear 8 byte 0 = Some b /\ 0 <= b < 8 /\ Z.testbit byte b = false /\
    forall j, 0 <= j < b -> Z.testbit byte j = true.
Proof.
  intros Hb Hne.
  pose proof (byte_all (fun byte => (byte =? 255) ||
    match first_clear 8 byte 0 with
    | Some b => (0 <=? b) && (b <? 8) && negb (Z.testbit byte b) &&
        forallb (fun j => implb (j <? b) (Z.testbit byte j)) (seqZ 0 8)
    | None => false
    end) ltac:(vm_compute; reflexivity) byte Hb) as H.
  cbv beta in H. apply orb_true_iff in H as [H|H]; [b2p; lia|].
  destruct (first_clear 8 byte 0) as [b|]; [|discriminate].
  exists b. b2p. rewrite forallb_forall in *. repeat split; try lia; auto.
  intros j Hj. specialize (H0 j).
  rewrite <- list_elem_of_In, elem_of_seqZ in H0. specialize (H0 ltac:(lia)).
  destruct (Z.ltb_spec j b); simpl in H0; [done|lia].
Qed.

Lemma byte_255 byte : 0 <= byte < 256 ->
  byte = 255 <-> forall j, 0 <= j < 8 -> Z.testbit byte j = true.
Proof.
  intros Hb. split.
  - intros -> j Hj. assert (j ∈ seqZ 0 8) as Hin by (apply elem_of_seqZ; lia).
    simpl in Hin. repeat (apply elem_of_cons in Hin as [->|Hin]; [reflexivity|]).
    by apply not_elem_of_nil in Hin.
  - intros H. destruct (decide (byte = 255)) as [|Hne]; [done|].
    destruct (first_clear_spec byte Hb Hne) as (b & _ & Hr & Hf & _).
    rewrite H in Hf by lia. discriminate.
Qed.

Lemma testbit_u8 x j : 0 <= j < 8 -> Z.testbit (u8 x) j = Z.testbit x j.
Proof. intros. unfold u8. apply Z.mod_pow2_bits_low. lia. Qed.

Lemma land_7 x : Z.land x 7 = x mod 8.
Proof. change 7 with (Z.ones 3). rewrite Z.land_ones by lia. reflexivity. Qed.

Lemma testbit_shl1 k j : 0 <= k -> 0 <= j -> Z.testbit (Z.shiftl 1 k) j = (j =? k).
Proof.
  intros. rewrite Z.shiftl_1_l, Z.pow2_bits_eqb by lia. apply Z.eqb_sym.
Qed.

Lemma testbit_mask k j : 0 <= k -> 0 <= j -> Z.testbit (Z.shiftl 1 k - 1) j = (j <? k).
Proof.
  intros. rewrite Z.shiftl_1_l.
  replace (2 ^ k - 1) with (Z.ones k) by (rewrite Z.ones_equiv; lia).
  destruct (Z.ltb_spec j k).
  - apply Z.ones_spec_low. lia.
  - apply Z.ones_spec_high. lia.
Qed.

Lemma byte_bits_inj a b : 0 <= a < 256 -> 0 <= b < 256 ->
  (forall j, 0 <= j < 8 -> Z.testbit a j = Z.testbit b j) -> a = b.
Proof.
  intros Ha Hb H. apply Z.bits_inj'. intros j Hj.
  destruct (decide (j < 8)); [apply H; lia|].
  rewrite <- (Z.mod_small a (2 ^ 8)), <- (Z.mod_small b (2 ^ 8)) by lia.
  rewrite !Z.mod_pow2_bits_high by lia. reflexivity.
Qed.

(** *** The abstract set *)

Definition tbit (buf : list Z) (i : Z) : bool :=
  match buf !! Z.to_nat (i / 8) with
  | Some b => Z.testbit b (i mod 8)
  | None => false
  end.

Record wf (map : MY_BITMAP) (buf : list Z) : Prop := {
  wf_buf : bitmap map = Some buf;
  wf_bytes : bytes buf;
  wf_size : 0 <= bitmap_size map;
  wf_room : (Z.to_nat (bitmap_size map) <= length buf)%nat;
  wf_max : 8 * bitmap_size map < 2 ^ 32 - 1
}.

Definition valid (map : MY_BITMAP) : Prop := exists buf, wf map buf.

(** The bits set in a map. *)
Definition bits (map : MY_BITMAP) : gset Z :=
  match bitmap map with
  | Some buf => list_to_set (filter (fun i => Is_true (tbit buf i)) (seqZ 0 (8 * bitmap_size map)))
  | None => ∅
  end.

Lemma elem_of_bits map buf i : bitmap map = Some buf ->
  i ∈ bits map <-> 0 <= i < 8 * bitmap_size map /\ tbit buf i = true.
Proof.
  intros Hb. unfold bits. rewrite Hb, elem_of_list_to_set, list_elem_of_filter, elem_of_seqZ.
  rewrite Is_true_true. intuition lia.
Qed.

Lemma size_bits_eq map buf : wf map buf -> size_bits map = 8 * bitmap_size map.
Proof. intros []. unfold size_bits. rewrite u32_small by lia. lia. Qed.

Lemma byte_index i n : 0 <= i < 8 * n -> (Z.to_nat (i / 8) < Z.to_nat n)%nat.
Proof. intros. apply Z2Nat.inj_lt; dlia. Qed.

Lemma wf_lookup map buf i : wf map buf -> 0 <= i < 8 * bitmap_size map ->
  exists b, buf !! Z.to_nat (i / 8) = Some b /\ 0 <= b < 256.
Proof.
  intros [] Hi. apply byte_index in Hi.
  destruct (lookup_lt_is_Some_2 buf (Z.to_nat (i / 8))) as [b Hb]; [lia|].
  exists b. split; [done|]. eapply Forall_lookup_Z in wf_bytes0; eauto.
Qed.

Lemma tbit_insert buf k v i : 0 <= i -> 0 <= k -> (Z.to_nat k < length buf)%nat ->
  tbit (<[Z.to_nat k := v]> buf) i = if decide (i / 8 = k) then Z.testbit v (i mod 8) else tbit buf i.
Proof.
  intros. unfold tbit. case_decide as Hk.
  - rewrite Hk, list_lookup_insert_eq by done. reflexivity.
  - rewrite list_lookup_insert_ne; [done|]. intros ?%Z2Nat.inj; try lia. apply Z.div_pos; lia.
Qed.

(** A map that keeps its header and replaces its block. *)
Lemma wf_with map buf buf' : wf map buf -> bytes buf' -> length buf' = length buf ->
  wf (with_bitmap map buf') buf'.
Proof. intros [] Hb Hl. constructor; simpl; auto. lia. Qed.

Lemma bits_with map buf buf' (s : gset Z) : wf map buf ->
  (forall i, 0 <= i < 8 * bitmap_size map -> tbit buf' i = true <-> i ∈ s) ->
  (forall i, i ∈ s -> 0 <= i < 8 * bitmap_size map) ->
  bits (with_bitmap map buf') = s.
Proof.
  intros Hwf H Hs. apply set_eq. intros i.
  rewrite (elem_of_bits _ buf') by reflexivity. simpl. split.
  - intros [Hi Hb]. by apply H.
  - intros Hi. split; [by apply Hs|]. apply H; auto.
Qed.

(** *** Operations on one bit *)

Lemma set_bit_buf map buf n : wf map buf -> 0 <= n < 8 * bitmap_size map ->
  exists buf', bitmap_fast_set_bit buf n = Some buf' /\ bytes buf' /\ length buf' = length buf /\
    forall i, 0 <= i -> tbit buf' i = tbit buf i || (i =? n).
Proof.
  intros Hwf Hn. destruct (wf_lookup map buf n Hwf Hn) as (b & Hb & Hr).
  unfold bitmap_fast_set_bit. rewrite Hb. simpl. eexists; split; [reflexivity|].
  assert (Z.to_nat (n / 8) < length buf)%nat by (eapply lookup_lt_Some; eauto).
  split; [|split; [apply length_insert|]].
  - apply Forall_insert; [apply Hwf|]. apply u8_range.
  - intros i Hi. rewrite tbit_insert by (try lia; apply Z.div_pos; lia).
    rewrite land_7. case_decide as Hd.
    + rewrite testbit_u8, Z.lor_spec, testbit_shl1 by dlia.
      unfold tbit. rewrite Hd, Hb. f_equal.
      destruct (Z.eqb_spec i n), (Z.eqb_spec (i mod 8) (n mod 8)); auto; dlia.
    + destruct (Z.eqb_spec i n); [subst; done|]. by rewrite orb_false_r.
Qed.

Lemma clear_bit_buf map buf n : wf map buf -> 0 <= n < 8 * bitmap_size map ->
  exists buf', bitmap_fast_clear_bit buf n = Some buf' /\ bytes buf' /\ length buf' = length buf /\
    forall i, 0 <= i -> tbit buf' i = tbit buf i && negb (i =? n).
Proof.
  intros Hwf Hn. destruct (wf_lookup map buf n Hwf Hn) as (b & Hb & Hr).
  unfold bitmap_fast_clear_bit. rewrite Hb. simpl. eexists; split; [reflexivity|].
  assert (Z.to_nat (n / 8) < length buf)%nat by (eapply lookup_lt_Some; eauto).
  split; [|split; [apply length_insert|]].
  - apply Forall_insert; [apply Hwf|]. apply u8_range.
  - intros i Hi. rewrite tbit_insert by (try lia; apply Z.div_pos; lia).
    rewrite land_7. case_decide as Hd.
    + rewrite testbit_u8, Z.land_spec, Z.lnot_spec, testbit_shl1 by dlia.
      unfold tbit. rewrite Hd, Hb. f_equal. f_equal.
      destruct (Z.eqb_spec i n), (Z.eqb_spec (i mod 8) (n mod 8)); auto; dlia.
    + destruct (Z.eqb_spec i n); [subst; done|]. by rewrite andb_true_r.
Qed.

Lemma land_bit_nonzero b k : 0 <= b < 256 -> 0 <= k < 8 ->
  Z.land b (Z.shiftl 1 k) = (if Z.testbit b k then 2 ^ k else 0).
Proof.
  intros Hb Hk. rewrite Z.shiftl_1_l. apply Z.bits_inj'. intros j Hj.
  rewrite Z.land_spec, Z.pow2_bits_eqb by lia.
  destruct (Z.eqb_spec k j) as [->|Hne].
  - destruct (Z.testbit b j); simpl; [rewrite Z.pow2_bits_true by lia; done|by rewrite Z.bits_0].
  - rewrite andb_false_r. destruct (Z.testbit b k); [|by rewrite Z.bits_0].
    symmetry. apply Z.pow2_bits_false. lia.
Qed.

(** The [my_bool] value of a bit test is non-zero exactly when the bit is set
    (128 becomes -128 as a [char]). *)
Lemma s8_bit k (t : bool) : 0 <= k < 8 -> s8 (if t then 2 ^ k else 0) <> 0 <-> t = true.
Proof.
  intros Hk. destruct t; [|split; [done|discriminate]]. split; [done|intros _].
  assert (k ∈ seqZ 0 8) as Hin by (apply elem_of_seqZ; lia).
  simpl in Hin. repeat (apply elem_of_cons in Hin as [->|Hin]; [vm_compute; congruence|]).
  by apply not_elem_of_nil in Hin.
Qed.

Lemma test_buf map buf n : wf map buf -> 0 <= n < 8 * bitmap_size map ->
  exists r, bitmap_fast_is_set buf n = Some r /\ r = (if tbit buf n then 2 ^ (n mod 8) else 0).
Proof.
  intros Hwf Hn. destruct (wf_lookup map buf n Hwf Hn) as (b & Hb & Hr).
  unfold bitmap_fast_is_set, tbit. rewrite Hb. simpl. eexists; split; [reflexivity|].
  rewrite land_7. apply land_bit_nonzero; dlia.
Qed.

(** *** Prefixes and whole maps *)

Lemma tbit_lookup_ext buf buf' i : buf !! Z.to_nat (i / 8) = buf' !! Z.to_nat (i / 8) ->
  tbit buf i = tbit buf' i.
Proof. unfold tbit. by intros ->. Qed.

Lemma tbit_const buf i c : buf !! Z.to_nat (i / 8) = Some c -> tbit buf i = Z.testbit c (i mod 8).
Proof. unfold tbit. by intros ->. Qed.

Lemma lookup_fill_tail {A} (c : A) k n (l : list A) j : (k <= n)%nat -> (n <= length l)%nat ->
  (take k l ++ fill_prefix c (n - k) (drop k l)) !! j =
    if decide (k <= j < n)%nat then Some c else l !! j.
Proof.
  intros Hk Hn. destruct (decide (j < k)%nat).
  - rewrite lookup_app_l by (rewrite length_take; lia).
    rewrite lookup_take_lt by done. case_decide; [lia|done].
  - rewrite lookup_app_r by (rewrite length_take; lia).
    rewrite length_take, lookup_fill_prefix, length_drop.
    replace (k `min` length l)%nat with k by lia.
    repeat case_decide; try lia; auto.
    rewrite lookup_drop. f_equal. lia.
Qed.

Lemma length_fill_tail {A} (c : A) k n (l : list A) :
  length (take k l ++ fill_prefix c n (drop k l)) = length l.
Proof. rewrite length_app, length_fill_prefix, length_take, length_drop. lia. Qed.

Lemma bytes_fill_prefix c n l : 0 <= c < 256 -> bytes l -> bytes (fill_prefix c n l).
Proof.
  intros. apply Forall_app. split; [by apply Forall_replicate|by apply Forall_drop].
Qed.

Lemma bytes_fill_tail c k n l : 0 <= c < 256 -> bytes l ->
  bytes (take k l ++ fill_prefix c n (drop k l)).
Proof.
  intros. apply Forall_app. split; [by apply Forall_take|].
  apply bytes_fill_prefix; [done|by apply Forall_drop].
Qed.

Lemma tbit_255 buf i : 0 <= i -> buf !! Z.to_nat (i / 8) = Some 255 -> tbit buf i = true.
Proof.
  intros Hi H. rewrite (tbit_const _ _ _ H). apply (proj1 (byte_255 255 ltac:(lia)) eq_refl). dlia.
Qed.

Lemma set_prefix_head_spec buf p n : bytes buf -> 0 <= p <= 8 * n -> (Z.to_nat n <= length buf)%nat ->
  exists buf' k, set_prefix_head buf p = Some (buf', k) /\ bytes buf' /\ length buf' = length buf /\
    (k <= Z.to_nat n)%nat /\ p <= 8 * Z.of_nat k /\
    forall i, 0 <= i < 8 * Z.of_nat k -> tbit buf' i = (i <? p).
Proof.
  intros Hby Hp Hn. unfold set_prefix_head.
  assert (Z.to_nat (p / 8) <= Z.to_nat n)%nat as Hpb by (apply Z2Nat.inj_le; dlia).
  rewrite bind_assert by (apply bool_decide_eq_true; lia). cbv zeta. rewrite land_7.
  set (buf1 := fill_prefix 255 (Z.to_nat (p / 8)) buf).
  assert (bytes buf1) as Hb1 by (apply bytes_fill_prefix; [lia|done]).
  assert (length buf1 = length buf) as Hl1 by apply length_fill_prefix.
  assert (forall i, 0 <= i < 8 * (p / 8) -> tbit buf1 i = true) as Hlow.
  { intros i Hi. apply tbit_255; [lia|]. unfold buf1. rewrite lookup_fill_prefix.
    pose proof (byte_index _ _ Hi). repeat case_decide; auto; lia. }
  destruct (Z.eqb_spec (p mod 8) 0) as [Hz|Hz].
  - exists buf1, (Z.to_nat (p / 8)). repeat (split; [solve [auto | dlia]|]).
    intros i Hi. rewrite Hlow by dlia. symmetry. apply Z.ltb_lt. dlia.
  - assert (Z.to_nat (p / 8) < Z.to_nat n)%nat as Hpb' by (apply Z2Nat.inj_lt; dlia).
    destruct (lookup_lt_is_Some_2 buf1 (Z.to_nat (p / 8))) as [b0 Hb0]; [lia|].
    rewrite Hb0, bind_Some_eq. do 2 eexists. split; [reflexivity|].
    split; [apply Forall_insert; [done|apply u8_range]|].
    split; [by rewrite length_insert|]. split; [lia|]. split; [dlia|].
    intros i Hi. rewrite tbit_insert by (try lia; apply Z.div_pos; lia). case_decide as Hd.
    + rewrite testbit_u8, testbit_mask by dlia.
      destruct (Z.ltb_spec (i mod 8) (p mod 8)), (Z.ltb_spec i p); auto; dlia.
    + rewrite Hlow by dlia. symmetry. apply Z.ltb_lt. dlia.
Qed.

Lemma set_prefix_buf map buf n : wf map buf ->
  (0 <= n <= 8 * bitmap_size map \/ n = 2 ^ 32 - 1) ->
  exists buf', bitmap_set_prefix map n = Some (with_bitmap map buf') /\ bytes buf' /\
    length buf' = length buf /\
    forall i, 0 <= i < 8 * bitmap_size map -> tbit buf' i = (i <? n).
Proof.
  intros Hwf Hn. unfold bitmap_set_prefix, buf_of.
  rewrite (wf_buf _ _ Hwf), (size_bits_eq _ _ Hwf), bind_Some_eq.
  pose proof Hwf as [_ Hby Hsz Hroom Hmax].
  rewrite bind_assert by (apply orb_true_iff; rewrite Z.leb_le, Z.eqb_eq; lia). cbv zeta.
  set (p := if 8 * bitmap_size map <? n then 8 * bitmap_size map else n).
  assert (0 <= p <= 8 * bitmap_size map /\
          forall i, 0 <= i < 8 * bitmap_size map -> (i <? n) = (i <? p)) as [Hp Hnp].
  { unfold p. destruct (Z.ltb_spec (8 * bitmap_size map) n); split; try lia; lia. }
  clearbody p.
  destruct (set_prefix_head_spec buf p (bitmap_size map) Hby Hp Hroom)
    as (buf1 & k & -> & Hb1 & Hl1 & Hk & Hpk & Hi1). rewrite bind_Some_eq.
  case_bool_decide as Hlt.
  - rewrite bind_assert by (apply bool_decide_eq_true; lia).
    eexists; split; [reflexivity|]. split; [apply bytes_fill_tail; [lia|done]|].
    split; [rewrite length_fill_tail; done|].
    intros i Hi. rewrite Hnp by done. pose proof (byte_index _ _ Hi) as Hx.
    destruct (decide (i < 8 * Z.of_nat k)) as [Hlow|Hhigh].
    + rewrite <- Hi1 by lia. apply tbit_lookup_ext. rewrite lookup_fill_tail by lia.
      case_decide; [|done]. pose proof (byte_index i (Z.of_nat k) ltac:(lia)). lia.
    + rewrite (tbit_const _ _ 0), Z.bits_0; [symmetry; apply Z.ltb_ge; lia|].
      rewrite lookup_fill_tail by lia. case_decide as Hc; [done|].
      exfalso. apply Hc. split; [|lia]. dlia.
  - eexists; split; [reflexivity|]. split; [done|]. split; [done|].
    intros i Hi. rewrite Hnp, Hi1; auto. lia.
Qed.

(** A bytewise loop over the two blocks acts bitwise. *)
Lemma map2_bits map buf map2 buf2 (f : Z -> Z -> Z) (g : bool -> bool -> bool) n :
  wf map buf -> wf map2 buf2 ->
  (forall a b, 0 <= f a b < 256) ->
  (forall a b j, 0 <= j < 8 -> Z.testbit (f a b) j = g (Z.testbit a j) (Z.testbit b j)) ->
  (n <= Z.to_nat (bitmap_size map))%nat -> (n <= Z.to_nat (bitmap_size map2))%nat ->
  exists buf', map2_prefix f n buf buf2 = Some buf' /\ bytes buf' /\ length buf' = length buf /\
    (forall i, 0 <= i < 8 * Z.of_nat n -> tbit buf' i = g (tbit buf i) (tbit buf2 i)) /\
    (forall i, 8 * Z.of_nat n <= i -> tbit buf' i = tbit buf i).
Proof.
  intros [_ Hb1 Hs1 Hr1 _] [_ Hb2 Hs2 Hr2 _] Hf Hg Hn1 Hn2.
  destruct (map2_prefix_spec f n buf buf2) as (l & Hl & Hlen & Hi); [lia..|].
  exists l. split; [done|]. split; [|split; [done|split]].
  - apply Forall_lookup. intros k x. rewrite Hi. case_decide.
    + intros (a & _ & (b & _ & [= <-])%bind_Some)%bind_Some. apply Hf.
    + intros Hx. by eapply Forall_lookup_Z in Hb1.
  - intros i Hr. unfold tbit. rewrite Hi. pose proof (byte_index _ _ Hr).
    case_decide; [|lia].
    destruct (lookup_lt_is_Some_2 buf (Z.to_nat (i / 8))) as [a Ha]; [lia|].
    destruct (lookup_lt_is_Some_2 buf2 (Z.to_nat (i / 8))) as [b Hb]; [lia|].
    rewrite Ha, Hb. simpl. apply Hg. dlia.
  - intros i Hr. apply tbit_lookup_ext. rewrite Hi. case_decide; [dlia|done].
Qed.

Lemma testbit_lnot_and a b j : 0 <= j < 8 ->
  Z.testbit (u8 (Z.land a (Z.lnot b))) j = Z.testbit a j && negb (Z.testbit b j).
Proof. intros. rewrite testbit_u8, Z.land_spec, Z.lnot_spec by lia. done. Qed.

Lemma union_buf map buf map2 buf2 : wf map buf -> wf map2 buf2 ->
  bitmap_size map = bitmap_size map2 ->
  exists buf', bitmap_union map map2 = Some (with_bitmap map buf') /\ bytes buf' /\
    length buf' = length buf /\
    forall i, 0 <= i < 8 * bitmap_size map -> tbit buf' i = tbit buf i || tbit buf2 i.
Proof.
  intros Hwf Hwf2 Hs. unfold bitmap_union, buf_of.
  rewrite (wf_buf _ _ Hwf), (wf_buf _ _ Hwf2), !bind_Some_eq, bind_assert by lia.
  destruct (map2_bits map buf map2 buf2 (fun a b => u8 (Z.lor a b)) orb (Z.to_nat (bitmap_size map)))
    as (l & -> & ? & ? & Hi & _); auto; [intros; apply u8_range| |lia|].
  - intros a b j Hj. rewrite testbit_u8, Z.lor_spec by lia. done.
  - exists l. repeat (split; [done|]). intros. apply Hi. destruct Hwf. lia.
Qed.

Lemma subtract_buf map buf map2 buf2 : wf map buf -> wf map2 buf2 ->
  bitmap_size map = bitmap_size map2 ->
  exists buf', bitmap_subtract map map2 = Some (with_bitmap map buf') /\ bytes buf' /\
    length buf' = length buf /\
    forall i, 0 <= i < 8 * bitmap_size map -> tbit buf' i = tbit buf i && negb (tbit buf2 i).
Proof.
  intros Hwf Hwf2 Hs. unfold bitmap_subtract, buf_of.
  rewrite (wf_buf _ _ Hwf), (wf_buf _ _ Hwf2), !bind_Some_eq, bind_assert by lia.
  destruct (map2_bits map buf map2 buf2 (fun a b => u8 (Z.land a (Z.lnot b)))
              (fun a b => a && negb b) (Z.to_nat (bitmap_size map)))
    as (l & -> & ? & ? & Hi & _); auto using testbit_lnot_and; [intros; apply u8_range|lia|].
  exists l. repeat (split; [done|]). intros. apply Hi. destruct Hwf. lia.
Qed.

(** [bitmap_intersect] accepts a second map of another size and clears what
    that map does not have. *)
Lemma intersect_buf map buf map2 buf2 : wf map buf -> wf map2 buf2 ->
  exists buf', bitmap_intersect map map2 = Some (with_bitmap map buf') /\ bytes buf' /\
    length buf' = length buf /\
    forall i, 0 <= i < 8 * bitmap_size map ->
      tbit buf' i = tbit buf i && (tbit buf2 i && (i <? 8 * bitmap_size map2)).
Proof.
  intros Hwf Hwf2. unfold bitmap_intersect, buf_of.
  rewrite (wf_buf _ _ Hwf), (wf_buf _ _ Hwf2), !bind_Some_eq. cbv zeta.
  set (len := Z.to_nat (bitmap_size map)). set (len2 := Z.to_nat (bitmap_size map2)).
  assert (bitmap_size map = Z.of_nat len /\ bitmap_size map2 = Z.of_nat len2 /\
          (len <= length buf)%nat) as (E1 & E2 & Hr) by (destruct Hwf, Hwf2; lia).
  destruct (map2_bits map buf map2 buf2 (fun a b => u8 (Z.land a b)) andb (len `min` len2)%nat)
    as (l & -> & Hb & Hl & Hi & Hi2); auto; [intros; apply u8_range| |lia..|].
  { intros a b j Hj. rewrite testbit_u8, Z.land_spec by lia. done. }
  rewrite bind_Some_eq, E1, E2. case_bool_decide as Hlt.
  - rewrite bind_assert by (apply bool_decide_eq_true; lia).
    eexists; split; [reflexivity|]. split; [apply bytes_fill_tail; [lia|done]|].
    split; [by rewrite length_fill_tail|]. intros i Hir.
    destruct (Z.ltb_spec i (8 * Z.of_nat len2)) as [Hs|Hs].
    + rewrite andb_true_r, <- Hi by lia. apply tbit_lookup_ext.
      rewrite lookup_fill_tail by lia. case_decide; [|done].
      pose proof (byte_index i (Z.of_nat len2) ltac:(lia)). lia.
    + rewrite (tbit_const _ _ 0), Z.bits_0, !andb_false_r; [done|].
      rewrite lookup_fill_tail by lia. case_decide; [done|]. dlia.
  - eexists; split; [reflexivity|]. repeat (split; [done|]). intros i Hir.
    rewrite Hi by lia. destruct (Z.ltb_spec i (8 * Z.of_nat len2)); [by rewrite andb_true_r|lia].
Qed.

Lemma set_above_buf map buf from use : wf map buf -> 0 <= from ->
  exists buf', bitmap_set_above map from use = Some (with_bitmap map buf') /\ bytes buf' /\
    length buf' = length buf /\
    forall i, 0 <= i < 8 * bitmap_size map ->
      tbit buf' i = if i <? 8 * from then tbit buf i else negb (use =? 0).
Proof.
  intros Hwf Hf. unfold bitmap_set_above, buf_of. rewrite (wf_buf _ _ Hwf), bind_Some_eq.
  pose proof Hwf as [Hbuf Hb Hs Hr _]. case_bool_decide as Hlt.
  - rewrite bind_assert by (apply bool_decide_eq_true; lia).
    eexists; split; [reflexivity|]. split; [apply bytes_fill_tail; [case_if; lia|done]|].
    split; [by rewrite length_fill_tail|]. intros i Hi.
    destruct (Z.ltb_spec i (8 * from)).
    + apply tbit_lookup_ext. rewrite lookup_fill_tail by lia. case_decide; [|done].
      pose proof (byte_index i from ltac:(lia)). lia.
    + erewrite tbit_const.
      2: { rewrite lookup_fill_tail by lia. pose proof (byte_index _ _ Hi).
           rewrite decide_True; [reflexivity|]. split; [|lia]. apply Z2Nat.inj_le; dlia. }
      destruct (use =? 0); [apply Z.bits_0|].
      apply (proj1 (byte_255 255 ltac:(lia)) eq_refl). dlia.
  - exists buf. unfold with_bitmap. rewrite <- Hbuf. split; [by destruct map|].
    repeat (split; [done|]). intros i Hi. destruct (Z.ltb_spec i (8 * from)); [done|lia].
Qed.

(** *** Queries *)

Lemma scan_eq_spec c n m : (n <= length m)%nat ->
  exists ok m', scan_eq c n m = Some (ok, m') /\
    (ok = true <-> forall k, (k < n)%nat -> m !! k = Some c) /\
    (ok = true -> m' = drop n m).
Proof.
  revert m. induction n as [|n IH]; intros m Hn; simpl.
  - do 2 eexists; split; [reflexivity|]. split; [split; [intros; lia|done]|]. by rewrite drop_0.
  - destruct m as [|b m]; simpl in Hn; [lia|].
    destruct (Z.eqb_spec b c) as [->|Hne]; simpl.
    + destruct (IH m) as (ok & m' & -> & H1 & H2); [lia|].
      do 2 eexists; split; [reflexivity|]. split; [|done]. rewrite H1. split.
      * intros H [|k] Hk; simpl; [done|]. apply H. lia.
      * intros H k Hk. apply (H (S k)). lia.
    + do 2 eexists; split; [reflexivity|]. split; [|done]. split; [done|].
      intros H. specialize (H 0%nat ltac:(lia)). simpl in H. congruence.
Qed.

(** The bytes [k .. n-1] are all 0xff (0) exactly when their bits are set (clear). *)
Lemma bytes_const_bits buf k n c (v : bool) : bytes buf ->
  (c = 255 /\ v = true \/ c = 0 /\ v = false) -> (n <= length buf)%nat ->
  (forall j, (k <= j < n)%nat -> buf !! j = Some c) <->
  (forall i, 8 * Z.of_nat k <= i < 8 * Z.of_nat n -> tbit buf i = v).
Proof.
  intros Hb Hc Hn. split.
  - intros H i Hi. rewrite (tbit_const _ _ c) by (apply H; dlia).
    destruct Hc as [[-> ->]|[-> ->]]; [|apply Z.bits_0].
    apply (proj1 (byte_255 255 ltac:(lia)) eq_refl). dlia.
  - intros H j Hj. destruct (lookup_lt_is_Some_2 buf j) as [b Hbj]; [lia|].
    assert (0 <= b < 256) as Hbr by (by eapply Forall_lookup_Z in Hb).
    assert (forall q, 0 <= q < 8 -> Z.testbit b q = v) as Hq.
    { intros q Hq. rewrite <- (H (8 * Z.of_nat j + q)) by lia.
      symmetry. erewrite tbit_const.
      2: { replace (Z.to_nat ((8 * Z.of_nat j + q) / 8)) with j by dlia. exact Hbj. }
      f_equal. dlia. }
    rewrite Hbj. f_equal. apply byte_bits_inj; [done|lia|]. intros q Hq'. rewrite Hq by done.
    destruct Hc as [[-> ->]|[-> ->]]; [|by rewrite Z.bits_0].
    by rewrite (proj1 (byte_255 255 ltac:(lia)) eq_refl) by done.
Qed.

Lemma head_drop {A} (l : list A) n x : l !! n = Some x -> drop n l = x :: drop (S n) l.
Proof. apply drop_S. Qed.

(** The byte the prefix ends in: its low bits are set, the others clear. *)
Lemma mask_byte_bits buf p b : bytes buf -> 0 <= p -> p mod 8 <> 0 ->
  buf !! Z.to_nat (p / 8) = Some b ->
  b = Z.shiftl 1 (p mod 8) - 1 <->
  (forall i, 8 * (p / 8) <= i < 8 * (p / 8) + 8 -> tbit buf i = (i <? p)).
Proof.
  intros Hb Hp Hz Hbj. assert (0 <= b < 256) as Hbr by (by eapply Forall_lookup_Z in Hb).
  assert (forall i, 8 * (p / 8) <= i < 8 * (p / 8) + 8 -> tbit buf i = Z.testbit b (i mod 8)) as Ht.
  { intros i Hi. apply tbit_const. replace (i / 8) with (p / 8) by dlia. done. }
  split.
  - intros -> i Hi. rewrite Ht, testbit_mask by dlia.
    destruct (Z.ltb_spec (i mod 8) (p mod 8)), (Z.ltb_spec i p); auto; dlia.
  - intros H. apply byte_bits_inj; [done| |].
    + rewrite Z.shiftl_1_l. assert (2 ^ 1 <= 2 ^ (p mod 8) <= 2 ^ 8); [|lia].
      split; apply Z.pow_le_mono_r; dlia.
    + intros j Hj. rewrite testbit_mask by dlia.
      specialize (H (8 * (p / 8) + j) ltac:(lia)). rewrite Ht in H by lia.
      replace ((8 * (p / 8) + j) mod 8) with j in H by dlia. rewrite H.
      destruct (Z.ltb_spec j (p mod 8)), (Z.ltb_spec (8 * (p / 8) + j) p); auto; dlia.
Qed.

(** The scan of the bytes [k .. n-1] of the block for 0xff or for 0. *)
Lemma scan_bits buf k n c (v : bool) : bytes buf ->
  (c = 255 /\ v = true \/ c = 0 /\ v = false) -> (k <= n <= length buf)%nat ->
  exists ok m, scan_eq c (n - k) (drop k buf) = Some (ok, m) /\ (ok = true -> m = drop n buf) /\
    (ok = true <-> forall i, 8 * Z.of_nat k <= i < 8 * Z.of_nat n -> tbit buf i = v).
Proof.
  intros Hb Hc Hk. destruct (scan_eq_spec c (n - k) (drop k buf)) as (ok & m & Hs & Hok & Hm).
  { rewrite length_drop. lia. }
  exists ok, m. split; [done|]. split.
  - intros Ht. rewrite (Hm Ht), drop_drop. f_equal. lia.
  - rewrite Hok, <- (bytes_const_bits buf k n c v) by (auto; lia). split; intros H j Hj.
    + specialize (H (j - k)%nat ltac:(lia)). rewrite lookup_drop in H. rewrite <- H. f_equal. lia.
    + rewrite lookup_drop. apply H. lia.
Qed.

Lemma is_prefix_spec map buf p : wf map buf -> 0 <= p <= 8 * bitmap_size map ->
  exists r, bitmap_is_prefix map p = Some (b2z r) /\
    (r = true <-> forall i, 0 <= i < 8 * bitmap_size map -> tbit buf i = (i <? p)).
Proof.
  intros Hwf Hp. unfold bitmap_is_prefix, buf_of.
  rewrite (wf_buf _ _ Hwf), bind_Some_eq, (size_bits_eq _ _ Hwf), bind_assert by lia.
  pose proof Hwf as [_ Hb Hs Hr _]. rewrite land_7. remember (Z.to_nat (p / 8)) as k eqn:Ek.
  assert (p / 8 = Z.of_nat k) as Hk by dlia.
  assert (k <= Z.to_nat (bitmap_size map))%nat as Hpb by dlia.
  destruct (scan_bits buf 0 k 255 true) as (ok1 & m1 & Hs1 & Hm1 & Hok1); [auto..|lia|].
  rewrite drop_0, Nat.sub_0_r in Hs1. rewrite Hs1, bind_Some_eq.
  destruct ok1; cbn [negb].
  2: { exists false. split; [done|]. split; [done|]. intros H. apply Hok1. intros i Hi.
       rewrite H by dlia. apply Z.ltb_lt. dlia. }
  rewrite (Hm1 eq_refl). assert (Hpre := proj1 Hok1 eq_refl). clear Hs1 Hm1 Hok1.
  destruct (Z.eqb_spec (p mod 8) 0) as [Hz|Hz].
  - rewrite bind_Some_eq. cbn [negb]. rewrite Nat.add_0_r.
    destruct (scan_bits buf k (Z.to_nat (bitmap_size map)) 0 false) as (ok2 & m2 & -> & _ & Hok2); [auto..|].
    exists ok2. split; [done|]. rewrite Hok2. split; intros H i Hi.
    + destruct (Z.ltb_spec i p); [apply Hpre; dlia|apply H; dlia].
    + rewrite H by dlia. apply Z.ltb_ge. dlia.
  - assert (k < Z.to_nat (bitmap_size map))%nat by dlia.
    destruct (lookup_lt_is_Some_2 buf k) as [b Hbj]; [lia|].
    pose proof (mask_byte_bits buf p b Hb ltac:(lia) Hz) as Hmask. rewrite <- Ek, Hk in Hmask.
    specialize (Hmask Hbj). rewrite (head_drop _ _ _ Hbj), bind_Some_eq.
    destruct (Z.eqb_spec b (Z.shiftl 1 (p mod 8) - 1)) as [Hm|Hm]; cbn [negb].
    2: { exists false. split; [done|]. split; [done|]. intros H'. exfalso. apply Hm, Hmask.
         intros i Hi. apply H'. dlia. }
    rewrite Nat.add_1_r.
    destruct (scan_bits buf (S k) (Z.to_nat (bitmap_size map)) 0 false) as (ok2 & m2 & -> & _ & Hok2); [auto; lia..|].
    exists ok2. split; [done|]. rewrite Hok2. split; intros H' i Hi.
    + destruct (decide (i < 8 * Z.of_nat k)); [rewrite Hpre by lia; symmetry; apply Z.ltb_lt; dlia|].
      destruct (decide (i < 8 * Z.of_nat k + 8)); [apply Hmask; auto; lia|].
      rewrite H' by dlia. symmetry. apply Z.ltb_ge. dlia.
    + rewrite H' by dlia. apply Z.ltb_ge. dlia.
Qed.

(** A loop over the bytes of two blocks that stops at the first pair that
    fails [p] answers the question about their bits. *)
Lemma bytes_pairs buf buf2 n (P : Z -> Z -> Prop) (Q : bool -> bool -> Prop) :
  bytes buf -> bytes buf2 -> (n <= length buf)%nat -> (n <= length buf2)%nat ->
  (forall a b, 0 <= a < 256 -> 0 <= b < 256 ->
     P a b <-> forall j, 0 <= j < 8 -> Q (Z.testbit a j) (Z.testbit b j)) ->
  (forall k a b, (k < n)%nat -> buf !! k = Some a -> buf2 !! k = Some b -> P a b) <->
  (forall i, 0 <= i < 8 * Z.of_nat n -> Q (tbit buf i) (tbit buf2 i)).
Proof.
  intros Hb Hb2 Hn Hn2 HPQ. split.
  - intros H i Hi. pose proof (byte_index _ _ Hi) as Hx.
    destruct (lookup_lt_is_Some_2 buf (Z.to_nat (i / 8))) as [a Ha]; [lia|].
    destruct (lookup_lt_is_Some_2 buf2 (Z.to_nat (i / 8))) as [b Hbb]; [lia|].
    rewrite (tbit_const _ _ _ Ha), (tbit_const _ _ _ Hbb).
    apply HPQ; [by eapply Forall_lookup_Z in Hb|by eapply Forall_lookup_Z in Hb2| |dlia].
    eapply H; eauto. lia.
  - intros H k a b Hk Ha Hbb.
    apply HPQ; [by eapply Forall_lookup_Z in Hb|by eapply Forall_lookup_Z in Hb2|].
    intros j Hj. specialize (H (8 * Z.of_nat k + j) ltac:(lia)).
    erewrite (tbit_const _ _ a), (tbit_const _ _ b) in H
      by (replace (Z.to_nat ((8 * Z.of_nat k + j) / 8)) with k by dlia; done).
    by replace ((8 * Z.of_nat k + j) mod 8) with j in H by dlia.
Qed.

Lemma subset_loop_spec n m1 m2 : (n <= length m1)%nat -> (n <= length m2)%nat ->
  exists r, subset_loop n m1 m2 = Some (b2z r) /\
    (r = true <-> forall k a b, (k < n)%nat -> m1 !! k = Some a -> m2 !! k = Some b ->
                    Z.land a (Z.lnot b) = 0).
Proof.
  revert m1 m2. induction n as [|n IH]; intros m1 m2 H1 H2; simpl.
  - exists true. split; [done|]. split; [intros; lia|done].
  - destruct m1 as [|a m1]; simpl in H1; [lia|]. destruct m2 as [|b m2]; simpl in H2; [lia|].
    destruct (Z.eqb_spec (Z.land a (Z.lnot b)) 0) as [He|He]; cbn [negb].
    + destruct (IH m1 m2) as (r & -> & Hr); [lia..|]. exists r. split; [done|]. rewrite Hr.
      split; intros H k; [|intros a' b' Hk; apply (H (S k)); lia].
      destruct k as [|k]; intros a' b' Hk; simpl; [congruence|]. apply H. lia.
    + exists false. split; [done|]. split; [done|]. intros H. exfalso. apply He.
      by apply (H 0%nat a b); [lia|..].
Qed.

Lemma memcmp_eq_spec n m1 m2 : (n <= length m1)%nat -> (n <= length m2)%nat ->
  exists r, memcmp_eq n m1 m2 = Some r /\
    (r = true <-> forall k a b, (k < n)%nat -> m1 !! k = Some a -> m2 !! k = Some b -> a = b).
Proof.
  revert m1 m2. induction n as [|n IH]; intros m1 m2 H1 H2; simpl.
  - exists true. split; [done|]. split; [intros; lia|done].
  - destruct m1 as [|a m1]; simpl in H1; [lia|]. destruct m2 as [|b m2]; simpl in H2; [lia|].
    destruct (Z.eqb_spec a b) as [->|He].
    + destruct (IH m1 m2) as (r & -> & Hr); [lia..|]. exists r. split; [done|]. rewrite Hr.
      split; intros H k; [|intros a' b' Hk; apply (H (S k)); lia].
      destruct k as [|k]; intros a' b' Hk; simpl; [congruence|]. apply H. lia.
    + exists false. split; [done|]. split; [done|]. intros H. exfalso. apply He.
      by apply (H 0%nat a b); [lia|..].
Qed.

Lemma land_lnot_zero a b : 0 <= a < 256 -> 0 <= b < 256 ->
  Z.land a (Z.lnot b) = 0 <-> forall j, 0 <= j < 8 -> Z.testbit a j = true -> Z.testbit b j = true.
Proof.
  intros Ha Hb. split.
  - intros H j Hj Hja. destruct (Z.testbit b j) eqn:E; [done|].
    assert (Z.testbit (Z.land a (Z.lnot b)) j = true) as Hx.
    { rewrite Z.land_spec, Z.lnot_spec, Hja, E by lia. done. }
    rewrite H, Z.bits_0 in Hx. done.
  - intros H. apply Z.bits_inj'. intros j Hj. rewrite Z.land_spec, Z.lnot_spec, Z.bits_0 by lia.
    destruct (decide (j < 8)) as [Hlt|Hge].
    + destruct (Z.testbit a j) eqn:E; [|done]. rewrite H by (auto; lia). done.
    + rewrite <- (Z.mod_small a (2 ^ 8)), Z.mod_pow2_bits_high by lia. done.
Qed.

Lemma is_subset_spec map buf map2 buf2 : wf map buf -> wf map2 buf2 ->
  bitmap_size map = bitmap_size map2 ->
  exists r, bitmap_is_subset map map2 = Some (b2z r) /\ (r = true <-> bits map ⊆ bits map2).
Proof.
  intros Hwf Hwf2 Hs. unfold bitmap_is_subset, buf_of.
  rewrite (wf_buf _ _ Hwf), (wf_buf _ _ Hwf2), !bind_Some_eq, bind_assert by lia.
  pose proof Hwf as [? ? ? ? _]. pose proof Hwf2 as [? ? ? ? _].
  destruct (subset_loop_spec (Z.to_nat (bitmap_size map)) buf buf2) as (r & -> & Hr); [lia..|].
  exists r. split; [done|]. rewrite Hr.
  rewrite (bytes_pairs buf buf2 _ _ (fun a b => a = true -> b = true)) by (auto using land_lnot_zero; lia).
  rewrite Z2Nat.id by lia. split.
  - intros H i. rewrite (elem_of_bits _ buf), (elem_of_bits _ buf2) by done.
    intros [Hi Ht]. split; [lia|auto].
  - intros H i Hi Ht. apply (elem_of_bits map2 buf2); [done|]. apply H.
    by apply (elem_of_bits map buf).
Qed.

Lemma cmp_spec map buf map2 buf2 : wf map buf -> wf map2 buf2 ->
  bitmap_size map = bitmap_size map2 ->
  exists r, bitmap_cmp map map2 = Some (b2z r) /\ (r = true <-> bits map = bits map2).
Proof.
  intros Hwf Hwf2 Hs. unfold bitmap_cmp, buf_of.
  rewrite (wf_buf _ _ Hwf), (wf_buf _ _ Hwf2), !bind_Some_eq, bind_assert by lia.
  pose proof Hwf as [? ? ? ? _]. pose proof Hwf2 as [? ? ? ? _].
  destruct (memcmp_eq_spec (Z.to_nat (bitmap_size map)) buf buf2) as (r & -> & Hr); [lia..|].
  exists r. split; [done|]. rewrite Hr.
  rewrite (bytes_pairs buf buf2 _ _ eq); [|done|done|lia|lia|].
  2: { intros a b Ha Hb. split; [by intros -> |]. by apply byte_bits_inj. }
  rewrite Z2Nat.id by lia. split.
  - intros H'. apply set_eq. intros i.
    rewrite (elem_of_bits _ buf), (elem_of_bits _ buf2), <- Hs by done.
    split; intros [Hi Ht]; (split; [done|]); by rewrite ?H' in * by lia.
  - intros H' i Hi. apply eq_true_iff_eq.
    assert (i ∈ bits map <-> i ∈ bits map2) as Hx by (by rewrite H').
    rewrite (elem_of_bits _ buf), (elem_of_bits _ buf2) in Hx by done.
    rewrite <- Hs in Hx. tauto.
Qed.

(** *** Counting *)

Lemma seqZ_app m n1 n2 : 0 <= n1 -> 0 <= n2 -> seqZ m (n1 + n2) = seqZ m n1 ++ seqZ (m + n1) n2.
Proof.
  intros. unfold seqZ. rewrite Z2Nat.inj_add, seq_app, fmap_app by lia. f_equal.
  simpl. replace (Z.to_nat n1) with (Z.to_nat n1 + 0)%nat at 1 by lia.
  rewrite <- fmap_add_seq, <- list_fmap_compose. apply list_fmap_ext.
  intros i x _. simpl. lia.
Qed.

Lemma filter_seqZ_shift (P Q : Z -> bool) a b n :
  (forall i, 0 <= i < n -> P (a + i) = Q (b + i)) ->
  length (filter (fun i => Is_true (P i)) (seqZ a n)) = length (filter (fun i => Is_true (Q i)) (seqZ b n)).
Proof.
  intros H. unfold seqZ.
  assert (forall m, (m <= Z.to_nat n)%nat ->
    length (filter (fun i => Is_true (P i)) ((fun i => Z.of_nat i + a) <$> seq (Z.to_nat n - m) m)) =
    length (filter (fun i => Is_true (Q i)) ((fun i => Z.of_nat i + b) <$> seq (Z.to_nat n - m) m))) as G.
  { induction m as [|m IH]; intros Hm; [done|]. cbn [seq fmap list_fmap].
    rewrite !filter_cons.
    rewrite (Z.add_comm _ a), (Z.add_comm _ b), H by lia.
    replace (S (Z.to_nat n - S m)) with (Z.to_nat n - m)%nat by lia.
    destruct (decide (Is_true (Q (b + Z.of_nat (Z.to_nat n - S m))))); simpl; rewrite IH by lia; done. }
  specialize (G (Z.to_nat n) ltac:(lia)). by rewrite Nat.sub_diag in G.
Qed.

Lemma bits_set_loop_spec n m res : bytes m -> (n <= length m)%nat -> 0 <= res ->
  res + 8 * Z.of_nat n < 2 ^ 32 ->
  bits_set_loop n m res =
    Some (res + Z.of_nat (length (filter (fun i => Is_true (tbit m i)) (seqZ 0 (8 * Z.of_nat n))))).
Proof.
  intros Hb. revert n res. induction Hb as [|b m Hr Hm IH]; intros n res Hn Hres Hmax.
  - destruct n; simpl in *; [f_equal; lia|lia].
  - destruct n as [|n]; [simpl; f_equal; lia|]. cbn [bits_set_loop]. unfold my_count_bits_ushort.
    rewrite nbits_spec, bind_Some_eq by done.
    replace (8 * Z.of_nat (S n)) with (8 + 8 * Z.of_nat n) by lia.
    rewrite seqZ_app, filter_app, length_app by lia.
    rewrite (filter_seqZ_shift (tbit (b :: m)) (Z.testbit b) 0 0 8).
    2: { intros i Hi. unfold tbit. rewrite !Z.add_0_l, Z.div_small, Z.mod_small by lia. done. }
    rewrite (filter_seqZ_shift (tbit (b :: m)) (tbit m) (0 + 8) 0).
    2: { intros i Hi. unfold tbit. rewrite !Z.add_0_l.
         replace (Z.to_nat ((8 + i) / 8)) with (S (Z.to_nat (i / 8))) by dlia.
         by replace ((8 + i) mod 8) with (i mod 8) by dlia. }
    set (c := length (filter _ (seqZ 0 8))).
    assert (c <= 8)%nat as Hc.
    { unfold c. etransitivity; [apply length_filter|]. rewrite length_seqZ. done. }
    simpl in Hn. rewrite u32_small by lia. rewrite IH by lia. f_equal. lia.
Qed.

Lemma bits_set_spec map buf : wf map buf ->
  bitmap_bits_set map = Some (Z.of_nat (size (bits map))).
Proof.
  intros Hwf. unfold bitmap_bits_set, buf_of, bits. rewrite (wf_buf _ _ Hwf), bind_Some_eq.
  destruct Hwf. rewrite bits_set_loop_spec by (auto; lia). f_equal.
  rewrite size_list_to_set; [|apply NoDup_filter, NoDup_seqZ]. rewrite Z2Nat.id by lia. lia.
Qed.

(** *** The first clear bit *)

Lemma find_free_spec n i buf : bytes buf -> (exists k b, (k < n)%nat /\ buf !! k = Some b /\ b <> 255) ->
  exists k byte b, find_free n i buf = Some (Some (i + Z.of_nat k, b)) /\
    buf !! k = Some byte /\ 0 <= b < 8 /\ Z.testbit byte b = false /\
    (forall j, 0 <= j < b -> Z.testbit byte j = true) /\
    (forall j, (j < k)%nat -> buf !! j = Some 255).
Proof.
  revert i buf. induction n as [|n IH]; intros i buf Hb (k & x & Hk & Hx & Hne); [lia|].
  destruct buf as [|byte buf]; [done|]. inversion_clear Hb as [|? ? Hr Hb']. cbn [find_free].
  destruct (Z.eqb_spec byte 255) as [->|Hn]; cbn [negb].
  - destruct k as [|k]; [simpl in Hx; congruence|].
    destruct (IH (i + 1) buf Hb') as (k' & y & b & -> & Hy & Hbr & Hc & Hj & Hl).
    { exists k, x. split; [lia|]. done. }
    exists (S k'), y, b. split; [do 3 f_equal; lia|]. repeat (split; [done|]).
    intros [|j] Hlt; [done|]. apply Hl. lia.
  - destruct (first_clear_spec byte Hr Hn) as (b & -> & Hbr & Hc & Hj).
    exists 0%nat, byte, b. split; [rewrite bind_Some_eq; do 3 f_equal; simpl; lia|]. repeat (split; [done|]).
    intros j ?. lia.
Qed.

(** A byte that is not 0xff among the bytes of the map when some bit is clear. *)
Lemma clear_bit_byte map buf i : wf map buf -> 0 <= i < 8 * bitmap_size map -> tbit buf i = false ->
  exists k b, (k < Z.to_nat (bitmap_size map))%nat /\ buf !! k = Some b /\ b <> 255.
Proof.
  intros Hwf Hi Ht. destruct (wf_lookup _ _ _ Hwf Hi) as (b & Hb & Hr).
  exists (Z.to_nat (i / 8)), b. split; [by apply byte_index|]. split; [done|]. intros ->.
  rewrite tbit_255 in Ht; [done|lia|done].
Qed.

(** [size_bits] rounds are at least the bytes of the map. *)
Lemma find_free_in_map map buf i : wf map buf -> 0 <= i < 8 * bitmap_size map -> tbit buf i = false ->
  exists k byte b, find_free (Z.to_nat (size_bits map)) 0 buf = Some (Some (Z.of_nat k, b)) /\
    (k < Z.to_nat (bitmap_size map))%nat /\ buf !! k = Some byte /\ 0 <= b < 8 /\
    tbit buf (8 * Z.of_nat k + b) = false /\
    (forall j, 0 <= j < 8 * Z.of_nat k + b -> tbit buf j = true).
Proof.
  intros Hwf Hi Ht. destruct (clear_bit_byte _ _ _ Hwf Hi Ht) as (k0 & x & Hk0 & Hx & Hne).
  rewrite (size_bits_eq _ _ Hwf).
  destruct (find_free_spec (Z.to_nat (8 * bitmap_size map)) 0 buf) as (k & byte & b & Hf & Hby & Hb & Hc & Hj & Hl).
  { apply Hwf. } { exists k0, x. split; [lia|done]. }
  assert (k <= k0)%nat as Hkk.
  { destruct (decide (k0 < k)%nat) as [Hlt|]; [|lia]. rewrite Hl in Hx by done. congruence. }
  exists k, byte, b. split; [done|]. split; [lia|]. split; [done|]. split; [lia|].
  assert (forall q, 0 <= q < 8 -> tbit buf (8 * Z.of_nat k + q) = Z.testbit byte q) as Hq.
  { intros q Hq. erewrite tbit_const.
    2: { replace (Z.to_nat ((8 * Z.of_nat k + q) / 8)) with k by dlia. exact Hby. }
    f_equal. dlia. }
  split; [by rewrite Hq by lia|]. intros j Hjr.
  destruct (decide (j < 8 * Z.of_nat k)).
  - apply tbit_255; [lia|]. apply Hl. dlia.
  - replace j with (8 * Z.of_nat k + (j - 8 * Z.of_nat k)) by lia. rewrite Hq by lia. apply Hj. lia.
Qed.

(** ** Refinement *)

(** The updating operations and the queries of the interface. *)
Inductive update :=
  | SetBit (n : Z) | ClearBit (n : Z) | TestAndSet (n : Z) | SetPrefix (n : Z)
  | SetAll | ClearAll | SetAbove (from use : Z) | SetNext
  | Union (map2 : MY_BITMAP) | Subtract (map2 : MY_BITMAP) | Intersect (map2 : MY_BITMAP).

Inductive query :=
  | IsSet (n : Z) | IsPrefix (n : Z) | IsClearAll | IsSetAll
  | IsSubset (map2 : MY_BITMAP) | IsEqual (map2 : MY_BITMAP).

Definition run_update (op : update) (map : MY_BITMAP) : option MY_BITMAP :=
  match op with
  | SetBit n => bitmap_set_bit map n
  | ClearBit n => bitmap_clear_bit map n
  | TestAndSet n => fst <$> bitmap_test_and_set map n
  | SetPrefix n => bitmap_set_prefix map n
  | SetAll => bitmap_set_all map
  | ClearAll => bitmap_clear_all map
  | SetAbove from use => bitmap_set_above map from use
  | SetNext => fst <$> bitmap_set_next map
  | Union map2 => bitmap_union map map2
  | Subtract map2 => bitmap_subtract map map2
  | Intersect map2 => bitmap_intersect map map2
  end.

Definition run_query (q : query) (map : MY_BITMAP) : option Z :=
  match q with
  | IsSet n => bitmap_is_set map n
  | IsPrefix n => bitmap_is_prefix map n
  | IsClearAll => bitmap_is_clear_all map
  | IsSetAll => bitmap_is_set_all map
  | IsSubset map2 => bitmap_is_subset map map2
  | IsEqual map2 => bitmap_cmp map map2
  end.

(** The set [{0, ..., n-1}]. *)
Definition below (n : Z) : gset Z := list_to_set (seqZ 0 n).

Lemma elem_of_below i n : i ∈ below n <-> 0 <= i < n.
Proof. unfold below. rewrite elem_of_list_to_set, elem_of_seqZ. lia. Qed.

(** The least number below [n] that is not in the set, 0 without one. *)
Definition first_free (n : Z) (s : gset Z) : Z :=
  default 0 (head (filter (fun i => i ∉ s) (seqZ 0 n))).

(** What each operation does to the set of a map of [n] bits. *)
Definition update_spec (op : update) (n : Z) (s : gset Z) : gset Z :=
  match op with
  | SetBit i | TestAndSet i => s ∪ {[ i ]}
  | ClearBit i => s ∖ {[ i ]}
  | SetPrefix p => below (Z.min p n)
  | SetAll => below n
  | ClearAll => ∅
  | SetAbove from use =>
      s ∩ below (8 * from) ∪ (if use =? 0 then ∅ else below n ∖ below (8 * from))
  | SetNext => s ∪ {[ first_free n s ]}
  | Union m => s ∪ bits m
  | Subtract m => s ∖ bits m
  | Intersect m => s ∩ bits m
  end.

Definition query_spec (q : query) (n : Z) (s : gset Z) : Prop :=
  match q with
  | IsSet i => i ∈ s
  | IsPrefix p => s = below p
  | IsClearAll => s = ∅
  | IsSetAll => s = below n
  | IsSubset m => s ⊆ bits m
  | IsEqual m => s = bits m
  end.

(** The preconditions the file's header comment states (asserted by the code),
    and for [bitmap_set_next] a bit that is clear: on a full map it leaves the
    map ([bitmap_set_next_overrun]). *)
Definition update_ok (op : update) (map : MY_BITMAP) : Prop :=
  match op with
  | SetBit i | ClearBit i | TestAndSet i => 0 <= i < 8 * bitmap_size map
  | SetPrefix p => 0 <= p <= 8 * bitmap_size map \/ p = 2 ^ 32 - 1
  | SetAll | ClearAll => True
  | SetAbove from _ => 0 <= from
  | SetNext => exists i, 0 <= i < 8 * bitmap_size map /\ i ∉ bits map
  | Union m | Subtract m => valid m /\ bitmap_size map = bitmap_size m
  | Intersect m => valid m
  end.

Definition query_ok (q : query) (map : MY_BITMAP) : Prop :=
  match q with
  | IsSet i => 0 <= i < 8 * bitmap_size map
  | IsPrefix p => 0 <= p <= 8 * bitmap_size map
  | IsClearAll | IsSetAll => True
  | IsSubset m | IsEqual m => valid m /\ bitmap_size map = bitmap_size m
  end.

(** A block with the right bits is the refinement of its set. *)
Lemma refine_with map buf buf' (s : gset Z) : wf map buf -> bytes buf' -> length buf' = length buf ->
  (forall i, 0 <= i < 8 * bitmap_size map -> tbit buf' i = true <-> i ∈ s) ->
  (forall i, i ∈ s -> 0 <= i < 8 * bitmap_size map) ->
  valid (with_bitmap map buf') /\ bitmap_size (with_bitmap map buf') = bitmap_size map /\
  bits (with_bitmap map buf') = s.
Proof.
  intros Hwf Hb Hl H1 H2. split; [eexists; by eapply wf_with|]. split; [done|].
  by eapply bits_with.
Qed.

Lemma test_and_set_buf map buf n : wf map buf -> 0 <= n < 8 * bitmap_size map ->
  exists buf' r, bitmap_test_and_set map n = Some (with_bitmap map buf', r) /\
    bitmap_fast_set_bit buf n = Some buf' /\ (r <> 0 <-> tbit buf n = true).
Proof.
  intros Hwf Hn. destruct (wf_lookup _ _ _ Hwf Hn) as (b & Hb & Hr).
  unfold bitmap_test_and_set, bitmap_fast_test_and_set, bitmap_fast_set_bit, buf_of.
  rewrite (wf_buf _ _ Hwf), !bind_Some_eq, (size_bits_eq _ _ Hwf), bind_assert by lia.
  cbv zeta. rewrite Hb, !bind_Some_eq, land_7.
  assert (u8 (Z.shiftl 1 (n mod 8)) = Z.shiftl 1 (n mod 8)) as ->.
  { apply u8_small. rewrite Z.shiftl_1_l. split; [lia|]. apply Z.pow_lt_mono_r; dlia. }
  assert (u8 (Z.lor b (Z.shiftl 1 (n mod 8))) = Z.lor b (Z.shiftl 1 (n mod 8))) as ->.
  { apply u8_small. split; [apply Z.lor_nonneg; rewrite Z.shiftl_1_l; lia|].
    rewrite Z.shiftl_1_l. apply Z.log2_lt_cancel. rewrite Z.log2_lor by lia.
    rewrite Z.log2_pow2 by dlia. change (Z.log2 (2 ^ 8)) with 8.
    apply Z.max_lub_lt; [|dlia]. destruct (decide (b = 0)) as [->|]; [simpl; lia|].
    apply Z.log2_lt_pow2; lia. }
  do 2 eexists. split; [reflexivity|]. split; [done|].
  rewrite land_bit_nonzero by dlia. unfold tbit. rewrite Hb.
  rewrite u8_small; [apply s8_bit; dlia|].
  destruct (Z.testbit b (n mod 8)); [|lia]. split; [lia|]. apply Z.pow_lt_mono_r; dlia.
Qed.

(** Every query of my_bitmap.c answers the question about the set of bits:
    the returned [my_bool] is non-zero exactly when the property of the set
    holds. *)
Theorem bitmap_queries_set q map : valid map -> query_ok q map ->
  exists r, run_query q map = Some r /\
    (r <> 0 <-> query_spec q (8 * bitmap_size map) (bits map)).
Proof.
  intros [buf Hwf] Hok. pose proof Hwf as [Hbuf _ Hsz _ _].
  assert (forall b : bool, b2z b <> 0 <-> b = true) as Hbz by (intros []; simpl; intuition lia).
  assert (forall p, 0 <= p <= 8 * bitmap_size map ->
    (forall i, 0 <= i < 8 * bitmap_size map -> tbit buf i = (i <? p)) <-> bits map = below p) as Hpre.
  { intros p Hp. split.
    - intros H. apply set_eq. intros i. rewrite (elem_of_bits _ buf), elem_of_below by done.
      split; [intros [Hi Ht]; rewrite H in Ht by done; lia|].
      intros Hi. split; [lia|]. rewrite H by lia. lia.
    - intros H i Hi. apply eq_true_iff_eq. rewrite Z.ltb_lt.
      assert (i ∈ bits map <-> i ∈ below p) as Hx by (by rewrite H).
      rewrite (elem_of_bits _ buf), elem_of_below in Hx by done. intuition lia. }
  assert (forall p, 0 <= p <= 8 * bitmap_size map ->
    exists r, bitmap_is_prefix map p = Some r /\ (r <> 0 <-> bits map = below p)) as Hq.
  { intros p Hp. destruct (is_prefix_spec _ _ _ Hwf Hp) as (r & -> & Hr).
    eexists; split; [reflexivity|]. by rewrite Hbz, Hr, Hpre. }
  destruct q; simpl in Hok |- *.
  - destruct (test_buf _ _ _ Hwf Hok) as (r & Hr & ->).
    unfold bitmap_is_set, buf_of. rewrite Hbuf, bind_Some_eq, (size_bits_eq _ _ Hwf), bind_assert, Hr by lia.
    eexists; split; [reflexivity|]. rewrite s8_bit, (elem_of_bits _ buf) by (done || dlia). intuition.
  - by apply Hq.
  - apply (Hq 0). lia.
  - unfold bitmap_is_set_all. rewrite (size_bits_eq _ _ Hwf). apply Hq. lia.
  - destruct Hok as [[buf2 Hwf2] Hs]. destruct (is_subset_spec _ _ _ _ Hwf Hwf2 Hs) as (r & -> & Hr).
    eexists; split; [reflexivity|]. by rewrite Hbz.
  - destruct Hok as [[buf2 Hwf2] Hs]. destruct (cmp_spec _ _ _ _ Hwf Hwf2 Hs) as (r & -> & Hr).
    eexists; split; [reflexivity|]. by rewrite Hbz.
Qed.

Lemma first_free_least n (s : gset Z) i : 0 <= i < n -> i ∉ s -> below i ⊆ s -> first_free n s = i.
Proof.
  intros Hi Hni Hs. unfold first_free. replace n with (i + (n - i)) by lia. rewrite seqZ_app, filter_app, Z.add_0_l by lia.
  assert (filter (fun j => j ∉ s) (seqZ 0 i) = []) as ->.
  { apply elem_of_nil_inv. intros j [Hj Hin]%list_elem_of_filter. apply Hj, Hs, elem_of_below. apply elem_of_seqZ in Hin. lia. }
  rewrite (seqZ_cons i) by lia. cbn [app]. rewrite filter_cons_True by done. done.
Qed.

(** When some bit of the map is clear, [bitmap_set_next] returns the least
    clear bit and sets it and only it; [bitmap_get_first] returns the same bit
    and [bitmap_bits_set] counts one more. *)
Theorem bitmap_set_next_least map i : valid map -> 0 <= i < 8 * bitmap_size map -> i ∉ bits map ->
  exists map' n, bitmap_set_next map = Some (map', n) /\ valid map' /\
    0 <= n <= i /\ n ∉ bits map /\ below n ⊆ bits map /\
    bits map' = bits map ∪ {[ n ]} /\ bitmap_size map' = bitmap_size map /\
    bitmap_get_first map = Some n /\
    bitmap_bits_set map' = Some (Z.of_nat (size (bits map)) + 1).
Proof.
  intros [buf Hwf] Hi Hni. pose proof Hwf as [Hbuf Hby Hsz Hroom Hmax].
  assert (tbit buf i = false) as Ht.
  { apply not_true_iff_false. intros Ht. apply Hni. by apply (elem_of_bits _ buf). }
  destruct (find_free_in_map _ _ _ Hwf Hi Ht) as (k & byte & b & Hf & Hk & Hb & Hbr & Hc & Hj).
  assert (8 * Z.of_nat k + b <= i) as Hle.
  { destruct (decide (i < 8 * Z.of_nat k + b)) as [Hlt|]; [|lia]. rewrite Hj in Ht by lia. done. }
  destruct (set_bit_buf map buf (8 * Z.of_nat k + b) Hwf) as (buf' & Hs & Hb' & Hl' & Ht'); [lia|].
  assert (u32 (Z.of_nat k * 8 + b) = 8 * Z.of_nat k + b) as Hu by (rewrite u32_small; lia).
  assert (bits (with_bitmap map buf') = bits map ∪ {[ 8 * Z.of_nat k + b ]}) as Hbits.
  { apply (bits_with _ buf); auto; intros j; rewrite elem_of_union, elem_of_singleton, (elem_of_bits _ buf) by done.
    - intros. rewrite Ht', orb_true_iff, Z.eqb_eq by lia. intuition.
    - intuition lia. }
  assert (8 * Z.of_nat k + b ∉ bits map) as Hnin.
  { rewrite (elem_of_bits _ buf) by done. rewrite Hc. intuition done. }
  exists (with_bitmap map buf'), (8 * Z.of_nat k + b).
  unfold bitmap_set_next, bitmap_get_first, buf_of. rewrite Hbuf, !bind_Some_eq, Hf, !bind_Some_eq, Nat2Z.id, Hu, Hb.
  unfold bitmap_fast_set_bit in Hs. rewrite land_7 in Hs.
  replace ((8 * Z.of_nat k + b) mod 8) with b in Hs by dlia.
  replace (Z.to_nat ((8 * Z.of_nat k + b) / 8)) with k in Hs by dlia.
  rewrite Hb, bind_Some_eq in Hs. injection Hs as Hs. rewrite bind_Some_eq, Hs.
  assert (wf (with_bitmap map buf') buf') as Hwf' by (by eapply wf_with).
  split; [done|]. split; [by exists buf'|]. split; [lia|]. split; [done|]. split; [|split; [done|split; [done|split; [done|]]]].
  - intros j. rewrite elem_of_below, (elem_of_bits _ buf) by done. intros. split; [lia|]. by apply Hj.
  - rewrite (bits_set_spec _ _ Hwf'), Hbits. f_equal.
    rewrite size_union by set_solver. rewrite size_singleton. lia.
Qed.

(** C35: Every updating operation of my_bitmap.c, called within its documented
    preconditions (and [bitmap_set_next] while some bit of the map is clear, which
    the file does not ask for but the function needs), succeeds without leaving
    its block, keeps the map valid and of the same size, and changes the set of
    bits as the set operation it is named after; [bitmap_set_next] adds the least
    bit that was clear. *)
Theorem bitmap_refines_set op map : valid map -> update_ok op map ->
  exists map', run_update op map = Some map' /\ valid map' /\
    bitmap_size map' = bitmap_size map /\
    bits map' = update_spec op (8 * bitmap_size map) (bits map).
Proof.
  intros [buf Hwf] Hok. pose proof Hwf as [Hbuf _ _ _ _].
  assert (forall i, i ∈ bits map <-> 0 <= i < 8 * bitmap_size map /\ tbit buf i = true) as Hel
    by (intros; by apply elem_of_bits).
  destruct op; simpl in Hok |- *.
  - destruct (set_bit_buf _ _ _ Hwf Hok) as (buf' & Hf & Hb & Hl & Ht).
    unfold bitmap_set_bit, buf_of. rewrite Hbuf, bind_Some_eq, (size_bits_eq _ _ Hwf), bind_assert, Hf by lia.
    eexists; split; [reflexivity|]. apply (refine_with _ buf); auto; set_unfold; intros i; rewrite Hel.
    + intros. rewrite Ht, orb_true_iff, Z.eqb_eq by lia. intuition.
    + intuition lia.
  - destruct (clear_bit_buf _ _ _ Hwf Hok) as (buf' & Hf & Hb & Hl & Ht).
    unfold bitmap_clear_bit, buf_of. rewrite Hbuf, bind_Some_eq, (size_bits_eq _ _ Hwf), bind_assert, Hf by lia.
    eexists; split; [reflexivity|]. apply (refine_with _ buf); auto; set_unfold; intros i; rewrite Hel.
    + intros. rewrite Ht, andb_true_iff, negb_true_iff, Z.eqb_neq by lia. intuition.
    + intuition lia.
  - destruct (test_and_set_buf _ _ _ Hwf Hok) as (buf' & r & -> & Hf & _).
    destruct (set_bit_buf _ _ _ Hwf Hok) as (buf'' & Hf' & Hb & Hl & Ht). simplify_eq.
    eexists; split; [reflexivity|]. apply (refine_with _ buf); auto; set_unfold; intros i; rewrite Hel.
    + intros. rewrite Ht, orb_true_iff, Z.eqb_eq by lia. intuition.
    + intuition lia.
  - destruct (set_prefix_buf _ _ _ Hwf Hok) as (buf' & -> & Hb & Hl & Ht).
    eexists; split; [reflexivity|]. destruct Hwf. apply (refine_with _ buf); auto; [done|..];
      intros i; rewrite elem_of_below; [|lia]. intros. rewrite Ht by lia. lia.
  - destruct (set_prefix_buf _ _ (2 ^ 32 - 1) Hwf) as (buf' & Hp & Hb & Hl & Ht); [lia|].
    unfold bitmap_set_all. rewrite Hp. eexists; split; [reflexivity|]. pose proof Hwf as [].
    apply (refine_with _ buf); auto; intros i; rewrite elem_of_below; [|lia].
    intros. rewrite Ht by lia. lia.
  - destruct (set_prefix_buf _ _ 0 Hwf) as (buf' & Hp & Hb & Hl & Ht); [left; destruct Hwf; lia|].
    unfold bitmap_clear_all. rewrite Hp. eexists; split; [reflexivity|].
    apply (refine_with _ buf); auto; set_unfold; [|done]. intros. rewrite Ht by lia. lia.
  - destruct (set_above_buf _ _ from use Hwf Hok) as (buf' & -> & Hb & Hl & Ht).
    eexists; split; [reflexivity|]. apply (refine_with _ buf); auto; intros i;
      rewrite elem_of_union, elem_of_intersection, elem_of_below, Hel.
    + intros Hi. rewrite Ht by done. destruct (Z.eqb_spec use 0); set_unfold; rewrite ?elem_of_below;
        destruct (Z.ltb_spec i (8 * from)); simpl; intuition (try lia; try congruence).
    + destruct (use =? 0); set_unfold; rewrite ?elem_of_below; intuition lia.
  - destruct Hok as (i & Hi & Hni).
    destruct (bitmap_set_next_least map i ltac:(by exists buf) Hi Hni) as (map' & n & E & Hv & Hn & Hnin & Hbel & Hb & Hs).
    rewrite E. exists map'. split; [done|]. split; [done|]. split; [apply Hs|]. by rewrite Hb, (first_free_least _ (bits map) n) by (done || lia).
  - destruct Hok as [[buf2 Hwf2] Hs]. destruct (union_buf _ _ _ _ Hwf Hwf2 Hs) as (buf' & -> & Hb & Hl & Ht).
    eexists; split; [reflexivity|]. apply (refine_with _ buf); auto; intros i;
      rewrite elem_of_union, Hel, (elem_of_bits _ buf2) by apply Hwf2.
    + intros. rewrite Ht, orb_true_iff by lia. intuition lia.
    + intuition lia.
  - destruct Hok as [[buf2 Hwf2] Hs]. destruct (subtract_buf _ _ _ _ Hwf Hwf2 Hs) as (buf' & -> & Hb & Hl & Ht).
    eexists; split; [reflexivity|]. apply (refine_with _ buf); auto; intros i;
      rewrite elem_of_difference, Hel, (elem_of_bits _ buf2) by apply Hwf2.
    + intros. rewrite Ht, andb_true_iff, negb_true_iff, <- not_true_iff_false by lia. rewrite <- Hs. tauto.
    + intuition lia.
  - destruct Hok as [buf2 Hwf2].
    destruct (intersect_buf _ _ _ _ Hwf Hwf2) as (buf' & -> & Hb & Hl & Ht).
    eexists; split; [reflexivity|]. apply (refine_with _ buf); auto; intros i;
      rewrite elem_of_intersection, Hel, (elem_of_bits _ buf2) by apply Hwf2.
    + intros. rewrite Ht, !andb_true_iff, Z.ltb_lt by lia. intuition lia.
    + intuition lia.
Qed.

(** On a full map the search does not stop at the end of the map: its loop
    counts bytes up to the number of bits.  A map of at least one byte that is
    the whole of its allocation is read past its end ([None]); if the
    allocation goes on with a byte that is not 0xff (as with the mutex of a
    thread-safe map), [bitmap_set_next] sets a bit of that byte and returns a
    bit number outside the map instead of [MY_BIT_NONE]. *)
Theorem bitmap_set_next_overrun map buf rest : wf map (buf ++ rest) ->
  length buf = Z.to_nat (bitmap_size map) -> 0 < bitmap_size map ->
  bits map = below (8 * bitmap_size map) ->
  match rest with
  | [] => bitmap_set_next map = None
  | byte :: _ => byte <> 255 ->
      exists byte' b, 0 <= b < 8 /\ Z.testbit byte b = false /\ byte' = u8 (Z.lor byte (Z.shiftl 1 b)) /\
        bitmap_set_next map =
          Some (with_bitmap map (<[length buf := byte']> (buf ++ rest)), 8 * bitmap_size map + b)
  end.
Proof.
  intros Hwf Hlen Hpos Hfull. pose proof Hwf as [Hbuf Hby Hsz _ Hmax].
  assert (forall j, (0 <= j < length buf)%nat -> (buf ++ rest) !! j = Some 255) as Hff.
  { apply (bytes_const_bits (buf ++ rest) 0 (length buf) 255 true); auto; [rewrite length_app; lia|].
    intros i Hi. assert (i ∈ bits map) as Hin by (rewrite Hfull, elem_of_below; lia).
    by apply (elem_of_bits _ (buf ++ rest)) in Hin as [_ ?]. }
  assert (forall m l i, (forall j, (j < length l)%nat -> l !! j = Some 255) ->
    find_free (length l + m) i (l ++ rest) = find_free m (i + Z.of_nat (length l)) rest) as Hskip.
  { intros m. induction l as [|x l IH]; intros i Hl; simpl length; simpl app; [f_equal; simpl; lia|].
    assert (x = 255) as -> by (specialize (Hl 0%nat ltac:(simpl; lia)); simpl in Hl; congruence).
    simpl. rewrite IH; [f_equal; lia|]. intros j Hj. apply (Hl (S j)). simpl. lia. }
  assert (exists m, Z.to_nat (size_bits map) = (length buf + S m)%nat) as [m Hm].
  { exists (Z.to_nat (7 * bitmap_size map) - 1)%nat. rewrite (size_bits_eq _ _ Hwf). lia. }
  assert (find_free (Z.to_nat (size_bits map)) 0 (buf ++ rest) = find_free (S m) (bitmap_size map) rest) as Hf.
  { rewrite Hm, Hskip; [f_equal; lia|]. intros j Hj. specialize (Hff j ltac:(lia)).
    by rewrite lookup_app_l in Hff. }
  unfold bitmap_set_next, buf_of. rewrite Hbuf, bind_Some_eq, Hf.
  destruct rest as [|byte rest]; [done|]. intros Hne.
  assert (0 <= byte < 256) as Hr by (apply Forall_app in Hby as [_ Hby]; by inversion Hby).
  destruct (first_clear_spec byte Hr Hne) as (b & Hfc & Hb & Hc & _).
  cbn [find_free]. rewrite (proj2 (Z.eqb_neq _ _) Hne). cbn [negb]. rewrite Hfc, !bind_Some_eq.
  exists (u8 (Z.lor byte (Z.shiftl 1 b))), b. split; [lia|]. split; [done|]. split; [done|].
  rewrite <- Hlen, list_lookup_middle, bind_Some_eq by done.
  rewrite u32_small by lia. do 2 f_equal. lia.
Qed.

Definition full_map : MY_BITMAP := mkMap (Some [255; 255; 0; 0]) 2 true.

(** A thread-safe map of 16 bits, full, with the mutex bytes after it. *)
Lemma bitmap_set_next_overrun_witness :
  exists byte' b, 0 <= b < 8 /\ Z.testbit 0 b = false /\ byte' = u8 (Z.lor 0 (Z.shiftl 1 b)) /\
    bitmap_set_next full_map =
      Some (with_bitmap full_map (<[2%nat := byte']> ([255; 255] ++ [0; 0])), 8 * 2 + b).
Proof.
  apply (bitmap_set_next_overrun full_map [255; 255] [0; 0]).
  - constructor; simpl; [done| |lia|lia|lia]. repeat constructor; lia.
  - done.
  - simpl. lia.
  - vm_compute. reflexivity.
  - lia.
Defined.

Definition sample_map : MY_BITMAP := mkMap (Some [7; 0]) 2 false.

Lemma sample_map_valid : valid sample_map.
Proof. exists [7; 0]. constructor; simpl; [done| |lia|lia|lia]. repeat constructor; lia. Qed.

Lemma bitmap_refines_set_witness :
  exists map', run_update (SetBit 9) sample_map = Some map' /\ valid map' /\
    bitmap_size map' = 2 /\ bits map' = bits sample_map ∪ {[ 9 ]}.
Proof. apply (bitmap_refines_set (SetBit 9) sample_map sample_map_valid). simpl. lia. Defined.

Lemma bitmap_queries_set_witness :
  exists r, run_query (IsPrefix 3) sample_map = Some r /\ (r <> 0 <-> bits sample_map = below 3).
Proof. apply (bitmap_queries_set (IsPrefix 3) sample_map sample_map_valid). simpl. lia. Defined.

Lemma bitmap_set_next_least_witness :
  exists map' n, bitmap_set_next sample_map = Some (map', n) /\ valid map' /\
    0 <= n <= 9 /\ n ∉ bits sample_map /\ below n ⊆ bits sample_map /\
    bits map' = bits sample_map ∪ {[ n ]} /\ bitmap_size map' = bitmap_size sample_map /\
    bitmap_get_first sample_map = Some n /\
    bitmap_bits_set map' = Some (Z.of_nat (size (bits sample_map)) + 1).
Proof.
  apply (bitmap_set_next_least sample_map 9 sample_map_valid); [simpl; lia|].
  apply (bool_decide_unpack _). vm_compute. exact I.
Defined.
