(* ===== verification/NetPack.v ===== *)
(** * Packed lengths of the client/server protocol (sql-common/pack.c)

    [net_store_length] writes a length as 1, 3, 4 or 9 bytes,
    [net_field_length] and [net_field_length_ll] read it back.  A packet is the
    list of the bytes from the read position on; a reader returns the value
    and the packet after the new position, [None] when it reads past the end. *)

From stdpp Require Import base numbers list.
From Stdlib Require Import ZArith Lia.
From S2P Require Import Prelude.

Local Open Scope Z_scope.

(** ** include/my_global.h: integers in packets (the portable versions) *)

Definition uint2korr (p : list Z) : option Z :=
  match p with
  | a :: b :: _ => Some (u16 (a + Z.shiftl b 8))
  | _ => None
  end.

Definition uint3korr (p : list Z) : option Z :=
  match p with
  | a :: b :: c :: _ => Some (u32 (a + Z.shiftl b 8 + Z.shiftl c 16))
  | _ => None
  end.

Definition uint4korr (p : list Z) : option Z :=
  match p with
  | a :: b :: c :: d :: _ => Some (u32 (a + Z.shiftl b 8 + Z.shiftl c 16 + Z.shiftl d 24))
  | _ => None
  end.

Definition uint8korr (p : list Z) : option Z :=
  lo ← uint4korr p;
  hi ← uint4korr (drop 4 p);
  Some (u64 (lo + Z.shiftl hi 32)).

Definition int2store (A : Z) : list Z :=
  let def_temp := u32 A in [u8 def_temp; u8 (Z.shiftr def_temp 8)].

Definition int3store (A : Z) : list Z :=
  [u8 A; u8 (Z.shiftr A 8); u8 (Z.shiftr A 16)].

Definition int4store (A : Z) : list Z :=
  [u8 A; u8 (Z.shiftr A 8); u8 (Z.shiftr A 16); u8 (Z.shiftr A 24)].

Definition int8store (A : Z) : list Z :=
  let def_temp := u32 A in
  let def_temp2 := u32 (Z.shiftr A 32) in
  int4store def_temp ++ int4store def_temp2.

(** ** sql-common/pack.c *)

(** [((unsigned long)~0)] *)
Definition NULL_LENGTH : Z := 2 ^ 64 - 1.

Definition net_field_length (packet : list Z) : option (Z * list Z) :=
  pos ← head packet;
  if pos <? 251 then Some (pos, drop 1 packet)
  else if pos =? 251 then Some (NULL_LENGTH, drop 1 packet)
  else if pos =? 252 then v ← uint2korr (drop 1 packet); Some (v, drop 3 packet)
  else if pos =? 253 then v ← uint3korr (drop 1 packet); Some (v, drop 4 packet)
  else v ← uint4korr (drop 1 packet); Some (v, drop 9 packet).

Definition net_field_length_ll (packet : list Z) : option (Z * list Z) :=
  pos ← head packet;
  if pos <? 251 then Some (pos, drop 1 packet)
  else if pos =? 251 then Some (NULL_LENGTH, drop 1 packet)
  else if pos =? 252 then v ← uint2korr (drop 1 packet); Some (v, drop 3 packet)
  else if pos =? 253 then v ← uint3korr (drop 1 packet); Some (v, drop 4 packet)
  else v ← uint8korr (drop 1 packet); Some (v, drop 9 packet).

(** The bytes [net_store_length] writes at [pkg]; it returns the position
    after them. *)
Definition net_store_length (length : Z) : list Z :=
  if length <? 251 then [u8 length]
  else if length <? 65536 then 252 :: int2store (u32 length)
  else if length <? 16777216 then 253 :: int3store length
  else 254 :: int8store length.

(** ** Theory *)

Lemma shiftr_div x k : 0 <= k -> Z.shiftr x k = x / 2 ^ k.
Proof. intros. by apply Z.shiftr_div_pow2. Qed.

Lemma shiftl_mul x k : 0 <= k -> Z.shiftl x k = x * 2 ^ k.
Proof. intros. by apply Z.shiftl_mul_pow2. Qed.

Lemma int4store_le A : int4store A = le_bytes 4 A.
Proof.
  unfold int4store, le_bytes. rewrite !shiftr_div by lia.
  rewrite !Z.div_div by lia. reflexivity.
Qed.

Lemma uint4korr_le l t : bytes l -> length l = 4%nat -> uint4korr (l ++ t) = Some (le_val l).
Proof.
  intros Hb Hl. pose proof (le_val_bound l Hb) as Hr. rewrite Hl in Hr.
  destruct l as [|a [|b [|c [|d [|]]]]]; try discriminate Hl.
  cbn [app uint4korr]. rewrite !shiftl_mul by lia. f_equal. simpl le_val in *.
  rewrite u32_small by lia. lia.
Qed.

Lemma le_val_mod4 A : le_val (le_bytes 4 A) = A mod 2 ^ 32.
Proof. rewrite le_val_le_bytes. reflexivity. Qed.

Lemma uint8korr_int8store A t : is_u64 A -> uint8korr (int8store A ++ t) = Some A.
Proof.
  intros HA. unfold uint8korr, int8store. rewrite !int4store_le, <- app_assoc.
  rewrite uint4korr_le by auto using bytes_le_bytes, length_le_bytes. rewrite bind_Some_eq.
  rewrite drop_app_ge, length_le_bytes, Nat.sub_diag, drop_0 by (rewrite length_le_bytes; lia).
  rewrite uint4korr_le by auto using bytes_le_bytes, length_le_bytes. rewrite bind_Some_eq.
  rewrite !le_val_mod4, shiftl_mul, shiftr_div by lia. unfold u32. rewrite !Z.mod_mod by lia.
  rewrite (Z.mod_small (A / 2 ^ 32)) by dlia. rewrite u64_small by dlia. f_equal. dlia.
Qed.

Lemma uint4korr_int8store A t : uint4korr (int8store A ++ t) = Some (A mod 2 ^ 32).
Proof.
  unfold int8store. rewrite !int4store_le, <- app_assoc.
  rewrite uint4korr_le by auto using bytes_le_bytes, length_le_bytes.
  rewrite le_val_mod4. unfold u32. by rewrite Z.mod_mod by lia.
Qed.

Lemma uint2korr_int2store A t : 0 <= A < 65536 -> uint2korr (int2store (u32 A) ++ t) = Some A.
Proof.
  intros HA. unfold int2store. rewrite !(u32_small A) by lia. cbn [app uint2korr].
  rewrite shiftl_mul, shiftr_div by lia. unfold u16, u8. f_equal. dlia.
Qed.

Lemma uint3korr_int3store A t : 0 <= A < 16777216 -> uint3korr (int3store A ++ t) = Some A.
Proof.
  intros HA. unfold int3store. cbn [app uint3korr].
  rewrite !shiftl_mul, !shiftr_div by lia. unfold u32, u8. f_equal. dlia.
Qed.

(** Reduce the dispatch on a literal first byte. *)
Ltac read_tag :=
  cbn [Z.ltb Z.eqb Z.compare Pos.compare Pos.compare_cont Pos.eqb]; rewrite drop_0.

Lemma drop_int8store A t : drop 8 (int8store A ++ t) = t.
Proof. reflexivity. Qed.

(** The four encodings, by the range of the length. *)
Lemma net_store_length_cases n : is_u64 n ->
  (n < 251 /\ net_store_length n = [n]) \/
  (251 <= n < 65536 /\ net_store_length n = 252 :: int2store (u32 n)) \/
  (65536 <= n < 16777216 /\ net_store_length n = 253 :: int3store n) \/
  (16777216 <= n /\ net_store_length n = 254 :: int8store n).
Proof.
  intros Hn. unfold net_store_length.
  destruct (Z.ltb_spec n 251); [left; rewrite u8_small by lia; auto|].
  destruct (Z.ltb_spec n 65536); [auto|].
  destruct (Z.ltb_spec n 16777216); auto with lia.
Qed.

(** C40: Round trip of the packed length: reading with [net_field_length_ll] what
    [net_store_length] wrote, whatever follows it in the packet, gives the
    length back and leaves the read position just after it, for every 64-bit
    length; the first byte is never 251, the mark of a NULL field. *)
Theorem net_length_roundtrip n t : is_u64 n ->
  net_field_length_ll (net_store_length n ++ t) = Some (n, t) /\
  head (net_store_length n) <> Some 251.
Proof.
  intros Hn. destruct (net_store_length_cases n Hn) as [[? ->]|[[? ->]|[[? ->]|[? ->]]]];
    split; try (simpl; congruence || (intros [= ->]; lia)); unfold net_field_length_ll;
    cbn [app head drop]; rewrite bind_Some_eq.
  - destruct (Z.ltb_spec n 251); [done|lia].
  - read_tag. rewrite uint2korr_int2store by lia. done.
  - read_tag. rewrite uint3korr_int3store by lia. done.
  - read_tag. rewrite uint8korr_int8store by lia. done.
Qed.

(** [net_field_length], whose result type [ulong] has 64 bits here, returns
    the length only modulo 2^32: the four high-order bytes of a 9-byte length
    are skipped, not read.  It agrees with [net_field_length_ll] on the lengths
    below 2^32 and, for a length of 2^32 or more, silently returns another one
    while still moving past the field. *)
Theorem net_field_length_truncates n t : is_u64 n ->
  net_field_length (net_store_length n ++ t) = Some (n mod 2 ^ 32, t).
Proof.
  intros Hn. destruct (net_store_length_cases n Hn) as [[? ->]|[[? ->]|[[? ->]|[? ->]]]];
    unfold net_field_length; cbn [app head drop]; rewrite bind_Some_eq.
  - rewrite Z.mod_small by lia. destruct (Z.ltb_spec n 251); [done|lia].
  - rewrite Z.mod_small by lia. read_tag. rewrite uint2korr_int2store by lia. done.
  - rewrite Z.mod_small by lia. read_tag. rewrite uint3korr_int3store by lia. done.
  - read_tag. rewrite uint4korr_int8store by lia. done.
Qed.

Lemma net_length_roundtrip_witness :
  net_field_length_ll (net_store_length (2 ^ 40) ++ [7]) = Some (2 ^ 40, [7]) /\
  head (net_store_length (2 ^ 40)) <> Some 251.
Proof. apply (net_length_roundtrip (2 ^ 40) [7]). lia. Defined.

Lemma net_field_length_truncates_witness :
  net_field_length (net_store_length (2 ^ 40 + 5) ++ [7]) = Some (5, [7]).
Proof. apply (net_field_length_truncates (2 ^ 40 + 5) [7]). lia. Defined.
