(* ===== verification/Queues.v ===== *)
(** * Priority queues (mysys/queues.c, include/queues.h)

    A [QUEUE] is a heap in an array of pointers; the heap proper is
    [root[1] .. root[elements]], [root[0]] is the sentinel of [queue_insert].
    The comparison is a function pointer of the queue, here the parameter
    [compare] of the section; what the code relies on is the class
    [Comparison]. *)

From stdpp Require Import base numbers list sorting.
From Stdlib Require Import ZArith Lia.
From S2P Require Import Prelude.

Local Open Scope Z_scope.

(** [root] is the allocated array ([None]: null pointer). *)
Record QUEUE := mkQueue {
  root : option (list Z);
  first_cmp_arg : Z;
  elements : Z;
  max_elements : Z;
  offset_to_key : Z;
  max_at_top : Z
}.

Definition with_heap (q : QUEUE) (r : list Z) (n : Z) : QUEUE :=
  mkQueue (Some r) (first_cmp_arg q) n (max_elements q) (offset_to_key q) (max_at_top q).

(** [a[i]] as a value and [a[i] = v], inside the array. *)
Definition rd (a : list Z) (i : Z) : option Z := if 0 <=? i then a !! Z.to_nat i else None.
Definition wr (a : list Z) (i v : Z) : option (list Z) :=
  if (0 <=? i) && (i <? Z.of_nat (length a)) then Some (<[Z.to_nat i := v]> a) else None.

(** [max_at_top ? (-1 ^ 1) : 0] *)
Definition top_mask (max_at_top : bool) : Z := if max_at_top then Z.lxor (-1) 1 else 0.

(** [alloc n] is the array [my_malloc] returns for [n] pointers. *)
Definition init_queue (alloc : Z -> option (list Z)) (q : QUEUE) (max offset : Z) (at_top : bool)
    (arg : Z) : QUEUE * Z :=
  match alloc (u32 (max + 1)) with
  | None => (mkQueue None (first_cmp_arg q) (elements q) (max_elements q) (offset_to_key q) (max_at_top q), 1)
  | Some r => (mkQueue (Some r) arg 0 max offset (top_mask at_top), 0)
  end.

(** [realloc r n] is the block [my_realloc] returns: the old contents as far as
    they fit. *)
Definition resize_queue (realloc : option (list Z) -> Z -> option (list Z)) (q : QUEUE) (max : Z)
  : QUEUE * Z :=
  if max_elements q =? max then (q, 0)
  else
    match realloc (root q) (u32 (max + 1)) with
    | None => (q, 1)
    | Some r =>
        let n := if max <? elements q then max else elements q in
        (mkQueue (Some r) (first_cmp_arg q) n max (offset_to_key q) (max_at_top q), 0)
    end.

Definition reinit_queue (realloc : option (list Z) -> Z -> option (list Z)) (q : QUEUE)
    (max offset : Z) (at_top : bool) (arg : Z) : QUEUE * Z :=
  let q := mkQueue (root q) arg 0 (max_elements q) offset (top_mask at_top) in
  (fst (resize_queue realloc q max), 0).

Definition delete_queue (q : QUEUE) : QUEUE :=
  match root q with
  | Some _ => mkQueue None (first_cmp_arg q) (elements q) (max_elements q) (offset_to_key q) (max_at_top q)
  | None => q
  end.

Section Queue.

(** [queue->compare(arg, key1, key2)] *)
Context (compare : Z -> Z -> Z -> Z).

Definition cmpq (q : QUEUE) (a b : Z) : Z :=
  compare (first_cmp_arg q) (a + offset_to_key q) (b + offset_to_key q).

(** The [while] of [queue_insert]: the array and the final [idx]. *)
Fixpoint insert_loop (fuel : nat) (q : QUEUE) (r : list Z) (element idx : Z)
  : option (list Z * Z) :=
  match fuel with
  | O => None
  | S fuel =>
      let next := Z.shiftr idx 1 in
      x ← rd r next;
      let cmp := cmpq q element x in
      if negb (cmp =? 0) && (Z.lxor cmp (max_at_top q) <? 0) then
        r ← wr r idx x;
        insert_loop fuel q r element next
      else Some (r, idx)
  end.

(** Fuel: [idx] at least halves in every round, so [idx] rounds are enough
    when [compare] finds an element equal to itself ([root[0]]). *)
Definition queue_insert (q : QUEUE) (element : Z) : option QUEUE :=
  if elements q <? max_elements q then
    r ← root q;
    r ← wr r 0 element;
    let idx := u32 (elements q + 1) in
    '(r, idx') ← insert_loop (S (Z.to_nat idx)) q r element idx;
    r ← wr r idx' element;
    Some (with_heap q r idx)
  else Some q.

Fixpoint downheap_loop (fuel : nat) (q : QUEUE) (r : list Z) (element idx : Z)
  : option (list Z * Z) :=
  match fuel with
  | O => None
  | S fuel =>
      if idx <=? Z.shiftr (elements q) 1 then
        let next := idx + idx in
        a ← rd r next;
        next ← (if next <? elements q then
                  b ← rd r (next + 1);
                  Some (if 0 <? Z.lxor (cmpq q a b) (max_at_top q) then next + 1 else next)
                else Some next);
        x ← rd r next;
        let cmp := cmpq q x element in
        if (cmp =? 0) || (0 <? Z.lxor cmp (max_at_top q)) then Some (r, idx)
        else
          r ← wr r idx x;
          downheap_loop fuel q r element next
      else Some (r, idx)
  end.

(** Fuel: [idx] grows in every round and stops above [elements / 2]. *)
Definition downheap (q : QUEUE) (idx : Z) : option QUEUE :=
  r ← root q;
  element ← rd r idx;
  '(r, idx) ← downheap_loop (S (Z.to_nat (elements q))) q r element idx;
  r ← wr r idx element;
  Some (with_heap q r (elements q)).

(** Returns the removed pointer, 0 when the index is out of range. *)
Definition queue_remove (q : QUEUE) (idx : Z) : option (QUEUE * Z) :=
  if max_elements q <=? idx then Some (q, 0)
  else
    r ← root q;
    let idx := idx + 1 in
    element ← rd r idx;
    last ← rd r (elements q);
    r ← wr r idx last;
    q ← downheap (with_heap q r (u32 (elements q - 1))) idx;
    Some (q, element).

Definition queue_replaced (q : QUEUE) : option QUEUE := downheap q 1.

Definition queue_top (q : QUEUE) : option Z := r ← root q; rd r 1.

(** ** What the heap relies on *)

(** The sign the code means: [cmp] itself, or reversed with the largest
    element at the top. *)
Definition dir (q : QUEUE) (a b : Z) : Z := if max_at_top q =? 0 then cmpq q a b else - cmpq q a b.

(** [a] may stand above [b]. *)
Definition above (q : QUEUE) (a b : Z) : Prop := dir q a b <= 0.

(** The comparison is a total preorder by its sign; with the largest element
    at the top it also never returns -2, the one value whose sign
    [cmp ^ max_at_top] does not reverse. *)
Class Comparison (q : QUEUE) : Prop := {
  cmp_refl : forall a, cmpq q a a = 0;
  cmp_sym : forall a b, Z.sgn (cmpq q b a) = - Z.sgn (cmpq q a b);
  cmp_trans : forall a b c, cmpq q a b <= 0 -> cmpq q b c <= 0 -> cmpq q a c <= 0;
  cmp_mask : max_at_top q = 0 \/ max_at_top q = -2 /\ forall a b, cmpq q a b <> -2
}.

(** [cmp ^ -2] reverses the sign of every [cmp] but -2 (and 0). *)
Lemma lxor_mask c : c <> 0 -> c <> -2 ->
  (Z.lxor c (-2) < 0 <-> 0 < c) /\ (0 < Z.lxor c (-2) <-> c < 0).
Proof.
  intros H0 H2. change (-2) with (Z.lnot 1). rewrite <- Z.lnot_lxor_r.
  pose proof (Z.lnot_nonneg (Z.lxor c 1)) as Hn. pose proof (Z.lxor_nonneg c 1) as Hx.
  assert (Z.lnot (Z.lxor c 1) <> 0).
  { intros He. apply H2. assert (Z.lxor c 1 = -1) as Hm by (unfold Z.lnot in He; lia).
    apply (f_equal (fun x => Z.lxor x 1)) in Hm.
    rewrite Z.lxor_assoc, Z.lxor_nilpotent, Z.lxor_0_r in Hm. exact Hm. }
  lia.
Qed.

Context (q : QUEUE) {C : Comparison q}.

Lemma test_lt a b :
  negb (cmpq q a b =? 0) && (Z.lxor (cmpq q a b) (max_at_top q) <? 0) = (dir q a b <? 0).
Proof.
  unfold dir. destruct cmp_mask as [->|[-> Hne]].
  - rewrite Z.lxor_0_r. simpl. lia.
  - simpl (-2 =? 0). cbn iota. destruct (Z.eqb_spec (cmpq q a b) 0) as [->|Hz]; [reflexivity|].
    pose proof (lxor_mask (cmpq q a b) Hz (Hne a b)). cbn [negb andb]. lia.
Qed.

Lemma test_gt a b : (0 <? Z.lxor (cmpq q a b) (max_at_top q)) = (0 <? dir q a b).
Proof.
  unfold dir. destruct cmp_mask as [->|[-> Hne]].
  - rewrite Z.lxor_0_r. reflexivity.
  - simpl (-2 =? 0). cbn iota. destruct (Z.eqb_spec (cmpq q a b) 0) as [->|Hz]; [reflexivity|].
    pose proof (lxor_mask (cmpq q a b) Hz (Hne a b)). lia.
Qed.

Lemma test_ge a b :
  (cmpq q a b =? 0) || (0 <? Z.lxor (cmpq q a b) (max_at_top q)) = (0 <=? dir q a b).
Proof.
  rewrite test_gt. unfold dir. destruct (max_at_top q =? 0), (Z.eqb_spec (cmpq q a b) 0); lia.
Qed.

Lemma dir_sym a b : Z.sgn (dir q b a) = - Z.sgn (dir q a b).
Proof. unfold dir. pose proof (cmp_sym a b). destruct (max_at_top q =? 0); lia. Qed.

#[global] Instance above_preorder : PreOrder (above q).
Proof.
  split.
  - intros a. unfold above, dir. rewrite cmp_refl. destruct (max_at_top q =? 0); lia.
  - intros a b c. unfold above, dir. destruct (max_at_top q =? 0); [apply cmp_trans|].
    intros H1 H2. pose proof (cmp_sym a b). pose proof (cmp_sym b c). pose proof (cmp_sym a c).
    pose proof (cmp_trans c b a). lia.
Qed.

Lemma above_total a b : dir q a b < 0 \/ above q b a.
Proof. unfold above. pose proof (dir_sym a b). lia. Qed.

Lemma above_lt a b : dir q a b < 0 -> above q a b.
Proof. unfold above. lia. Qed.

(** ** Arrays *)

(** The value at an index, 0 outside. *)
Definition get (a : list Z) (i : Z) : Z := default 0 (rd a i).

Lemma rd_get a i : 0 <= i < Z.of_nat (length a) -> rd a i = Some (get a i).
Proof.
  intros H. unfold get, rd. destruct (Z.leb_spec 0 i); [|lia].
  destruct (lookup_lt_is_Some_2 a (Z.to_nat i)) as [x Hx]; [lia|]. rewrite Hx. done.
Qed.

Lemma wr_some a i v : 0 <= i < Z.of_nat (length a) -> wr a i v = Some (<[Z.to_nat i := v]> a).
Proof. intros H. unfold wr. rewrite (proj2 (andb_true_iff _ _)); [done|lia]. Qed.

Lemma get_insert a i v j : 0 <= i < Z.of_nat (length a) -> 0 <= j ->
  get (<[Z.to_nat i := v]> a) j = if decide (i = j) then v else get a j.
Proof.
  intros Hi Hj. unfold get, rd. destruct (Z.leb_spec 0 j); [|lia]. case_decide as Hd.
  - subst. rewrite list_lookup_insert_eq by lia. done.
  - rewrite list_lookup_insert_ne by lia. done.
Qed.

(** The heap proper: [a[1] .. a[n]]. *)
Definition live (n : Z) (a : list Z) : list Z := take (Z.to_nat n) (drop 1 a).

Lemma live_lookup n a k : (Z.to_nat n < length a)%nat ->
  live n a !! k = if decide (k < Z.to_nat n)%nat then a !! S k else None.
Proof.
  intros H. unfold live. case_decide as Hk.
  - rewrite lookup_take_lt, lookup_drop by done. done.
  - apply lookup_ge_None. rewrite length_take. lia.
Qed.

Lemma live_get n a k : 0 <= n < Z.of_nat (length a) -> (k < Z.to_nat n)%nat ->
  live n a !! k = Some (get a (Z.of_nat k + 1)).
Proof.
  intros Hn Hk. rewrite live_lookup by lia. rewrite decide_True by done.
  pose proof (rd_get a (Z.of_nat k + 1) ltac:(lia)) as H. unfold rd in H.
  destruct (Z.leb_spec 0 (Z.of_nat k + 1)); [|lia]. rewrite <- H. f_equal. lia.
Qed.

Lemma length_live n a : 0 <= n < Z.of_nat (length a) -> length (live n a) = Z.to_nat n.
Proof. intros. unfold live. rewrite length_take, length_drop. lia. Qed.

(** Exchanging two elements of the heap permutes it. *)
Lemma live_swap n a i j : 0 <= n < Z.of_nat (length a) -> 1 <= i <= n -> 1 <= j <= n ->
  live n (<[Z.to_nat i := get a j]> (<[Z.to_nat j := get a i]> a)) ≡ₚ live n a.
Proof.
  intros Hn Hi Hj. symmetry.
  set (a' := <[Z.to_nat i := get a j]> (<[Z.to_nat j := get a i]> a)).
  assert (length a' = length a) as Hl by (unfold a'; by rewrite !length_insert).
  apply Permutation_inj. split; [by rewrite !length_live by lia|].
  set (f := fun k : nat => if decide (Z.of_nat k + 1 = i) then Z.to_nat (j - 1)
                   else if decide (Z.of_nat k + 1 = j) then Z.to_nat (i - 1) else k).
  exists f. split; [intros x y; unfold f; repeat case_decide; lia|].
  intros k. destruct (decide (k < Z.to_nat n)%nat) as [Hk|Hk].
  - rewrite (live_get n a), (live_get n a').
    2-5: try (rewrite Hl; lia); try done; unfold f; repeat case_decide; lia.
    f_equal. unfold a'. rewrite !get_insert by (rewrite ?length_insert; try lia; unfold f; repeat case_decide; lia).
    unfold f. repeat case_decide; f_equal; lia.
  - rewrite !(proj2 (lookup_ge_None _ _)); [done| |rewrite length_live; lia].
    rewrite length_live by lia. unfold f. repeat case_decide; lia.
Qed.

(** ** The heap invariant *)

Definition heap (V : Z -> Z) (n : Z) : Prop :=
  forall i, 2 <= i <= n -> above q (V (i / 2)) (V i).

(** A heap but for [idx], which may be smaller than its parent. *)
Definition heap_up (V : Z -> Z) (n idx : Z) : Prop :=
  (forall i, 2 <= i <= n -> i <> idx -> above q (V (i / 2)) (V i)) /\
  (forall i, 2 <= i <= n -> i / 2 = idx -> 2 <= idx -> above q (V (idx / 2)) (V i)).

(** A heap but for [idx], which may be larger than its children. *)
Definition heap_down (V : Z -> Z) (n idx : Z) : Prop :=
  (forall i, 2 <= i <= n -> i / 2 <> idx -> above q (V (i / 2)) (V i)) /\
  (forall i, 2 <= i <= n -> i / 2 = idx -> 2 <= idx -> above q (V (idx / 2)) (V i)).

Lemma heap_up_ext V V' n idx : (forall i, 1 <= i <= n -> V i = V' i) -> 1 <= idx <= n ->
  heap_up V n idx -> heap_up V' n idx.
Proof.
  intros He Hi [H1 H2]. split; intros i Hr ?; [|intros ?]; rewrite <- !He by dlia; auto.
Qed.

Lemma heap_down_ext V V' n idx : (forall i, 1 <= i <= n -> V i = V' i) -> 1 <= idx <= n ->
  heap_down V n idx -> heap_down V' n idx.
Proof.
  intros He Hi [H1 H2]. split; intros i Hr ?; [|intros ?]; rewrite <- !He by dlia; auto.
Qed.

Definition swapped (V : Z -> Z) (i j k : Z) : Z :=
  if decide (k = i) then V j else if decide (k = j) then V i else V k.

Lemma heap_up_step V n idx : 2 <= idx <= n -> heap_up V n idx -> dir q (V idx) (V (idx / 2)) < 0 ->
  heap_up (swapped V idx (idx / 2)) n (idx / 2).
Proof.
  intros Hr [H1 H2] Hlt. apply above_lt in Hlt. unfold swapped. split.
  - intros i Hi Hne. rewrite (decide_False (P := i = idx / 2)) by done.
    destruct (decide (i = idx)) as [->|Hni].
    + rewrite decide_False, decide_True by dlia. done.
    + destruct (decide (i / 2 = idx)) as [He|]; [apply H2; [done|done|lia]|].
      case_decide as He; [|by apply H1]. etransitivity; [exact Hlt|]. rewrite <- He. by apply H1.
  - intros i Hi Hi2 Hp. rewrite (decide_False (P := i = idx / 2)) by dlia.
    rewrite (decide_False (P := idx / 2 / 2 = idx)), (decide_False (P := idx / 2 / 2 = idx / 2)) by dlia.
    case_decide as He; [apply H1; dlia|].
    transitivity (V (idx / 2)); [apply H1; dlia|]. rewrite <- Hi2. by apply H1.
Qed.

Lemma heap_up_done V n idx : 1 <= idx <= n -> heap_up V n idx ->
  (2 <= idx -> above q (V (idx / 2)) (V idx)) -> heap V n.
Proof.
  intros Hr [H1 _] H i Hi. destruct (decide (i = idx)) as [->|]; [apply H; lia|by apply H1].
Qed.

Lemma heap_down_step V n idx c : 1 <= idx -> idx + idx <= c <= n -> c / 2 = idx ->
  heap_down V n idx -> dir q (V c) (V idx) < 0 ->
  (forall c', 2 <= c' <= n -> c' / 2 = idx -> above q (V c) (V c')) ->
  heap_down (swapped V idx c) n c.
Proof.
  intros Hr Hc Hci [H1 H2] Hlt Hmin. apply above_lt in Hlt. unfold swapped. split.
  - intros i Hi Hne. destruct (decide (i = idx)) as [->|Hni].
    + rewrite !decide_False by dlia. apply H2; dlia.
    + destruct (decide (i / 2 = idx)) as [He|He].
      * case_decide as Hic; [done|]. by apply Hmin.
      * rewrite (decide_False (P := i / 2 = c)) by done.
        rewrite (decide_False (P := i = c)) by congruence. by apply H1.
  - intros i Hi Hi2 Hp. rewrite (decide_True (P := c / 2 = idx)) by done.
    rewrite !decide_False by dlia. rewrite <- Hi2. apply H1; dlia.
Qed.

Lemma heap_down_done V n idx : 1 <= idx -> heap_down V n idx ->
  (forall c, 2 <= c <= n -> c / 2 = idx -> above q (V idx) (V c)) -> heap V n.
Proof.
  intros Hr [H1 _] H i Hi. destruct (decide (i / 2 = idx)) as [<-|]; [by apply H|by apply H1].
Qed.

(** The top of a heap is above every element. *)
Lemma heap_top V n i : heap V n -> 1 <= i <= n -> above q (V 1) (V i).
Proof.
  intros H Hi. assert (forall k : nat, forall i, 1 <= i <= n -> i <= Z.of_nat k -> above q (V 1) (V i)) as G.
  { induction k as [|k IH]; intros j Hj Hk; [lia|].
    destruct (decide (j = 1)) as [->|]; [reflexivity|].
    transitivity (V (j / 2)); [apply IH; dlia|apply H; lia]. }
  apply (G (Z.to_nat i)); lia.
Qed.

(** ** Correctness of the loops *)

Lemma shiftr_1 x : Z.shiftr x 1 = x / 2.
Proof. by rewrite Z.shiftr_div_pow2. Qed.

(** The array the code would have if it wrote [element] at [idx] now. *)
Definition filled (r : list Z) (idx element : Z) : list Z := <[Z.to_nat idx := element]> r.

(** Moving the parent (child) into the hole exchanges it with [element]. *)
Lemma filled_move r idx next element n : 0 <= n < Z.of_nat (length r) ->
  1 <= idx <= n -> 1 <= next <= n -> idx <> next ->
  live n (filled (<[Z.to_nat idx := get r next]> r) next element) ≡ₚ live n (filled r idx element) /\
  (forall k, 1 <= k <= n -> get (filled (<[Z.to_nat idx := get r next]> r) next element) k =
     swapped (get (filled r idx element)) idx next k).
Proof.
  intros Hn Hi Hj Hne. unfold filled, swapped. split.
  - pose proof (live_swap n (<[Z.to_nat idx := element]> r) next idx) as H.
    rewrite !length_insert, !get_insert in H by lia.
    rewrite decide_True, decide_False in H by done.
    rewrite list_insert_insert_eq in H. apply H; lia.
  - intros k Hk. rewrite !get_insert by (rewrite ?length_insert; lia).
    repeat case_decide; subst; auto; lia.
Qed.

Lemma insert_loop_spec fuel r element idx n :
  (Z.to_nat idx < fuel)%nat -> 0 <= n < Z.of_nat (length r) -> 1 <= idx <= n -> get r 0 = element ->
  heap_up (get (filled r idx element)) n idx ->
  exists r' idx', insert_loop fuel q r element idx = Some (r', idx') /\
    length r' = length r /\ 1 <= idx' <= n /\
    live n (filled r' idx' element) ≡ₚ live n (filled r idx element) /\
    heap (get (filled r' idx' element)) n.
Proof.
  revert r idx. induction fuel as [|fuel IH]; intros r idx Hf Hn Hi H0 Hup; [lia|].
  cbn [insert_loop]. rewrite shiftr_1, rd_get, bind_Some_eq, test_lt by dlia.
  assert (get (filled r idx element) idx = element) as Hg1
    by (unfold filled; rewrite get_insert by lia; by rewrite decide_True).
  assert (get (filled r idx element) (idx / 2) = get r (idx / 2)) as Hg2
    by (unfold filled; rewrite get_insert by dlia; rewrite decide_False by dlia; done).
  destruct (Z.ltb_spec (dir q element (get r (idx / 2))) 0) as [Hlt|Hge].
  - destruct (decide (idx = 1)) as [->|Hn1].
    { change (1 / 2) with 0 in Hlt. rewrite H0 in Hlt. pose proof (dir_sym element element). lia. }
    destruct (filled_move r idx (idx / 2) element n) as [Hp Hs]; [dlia..|].
    rewrite wr_some, bind_Some_eq by lia.
    destruct (IH (<[Z.to_nat idx := get r (idx / 2)]> r) (idx / 2)) as (r' & idx' & E & Hl & Hr & Hp' & Hh).
    + dlia.
    + by rewrite length_insert.
    + dlia.
    + rewrite get_insert by lia. by rewrite decide_False by lia.
    + eapply heap_up_ext; [|dlia|]. { intros k Hk. symmetry. by apply Hs. }
      apply heap_up_step; [lia|done|]. by rewrite Hg1, Hg2.
    + exists r', idx'. rewrite E, Hl, length_insert. repeat (split; [done|]). split; [|done].
      by rewrite Hp', Hp.
  - exists r, idx. repeat (split; [done|]). apply (heap_up_done _ _ idx); auto. intros _.
    rewrite Hg1, Hg2. destruct (above_total element (get r (idx / 2))); [lia|done].
Qed.

(** The child the code sinks to: the one above the other. *)
Lemma choose_child r idx n : 1 <= idx -> 2 * idx <= n -> 0 <= n < Z.of_nat (length r) ->
  exists c, (if idx + idx <? n then
               b ← rd r (idx + idx + 1);
               Some (if 0 <? Z.lxor (cmpq q (get r (idx + idx)) b) (max_at_top q)
                     then idx + idx + 1 else idx + idx)
             else Some (idx + idx)) = Some c /\
    idx + idx <= c <= n /\ c / 2 = idx /\
    forall c', 2 <= c' <= n -> c' / 2 = idx -> above q (get r c) (get r c').
Proof.
  intros Hi Hle Hn. destruct (Z.ltb_spec (idx + idx) n) as [Hlt|Hge].
  - rewrite rd_get, bind_Some_eq, test_gt by dlia.
    destruct (Z.ltb_spec 0 (dir q (get r (idx + idx)) (get r (idx + idx + 1)))) as [Hd|Hd].
    + exists (idx + idx + 1). split; [done|]. split; [dlia|]. split; [dlia|]. intros c' Hc' He.
      destruct (decide (c' = idx + idx)) as [->|]; [|replace c' with (idx + idx + 1) by dlia; reflexivity].
      unfold above. pose proof (dir_sym (get r (idx + idx)) (get r (idx + idx + 1))). lia.
    + exists (idx + idx). split; [done|]. split; [dlia|]. split; [dlia|]. intros c' Hc' He.
      destruct (decide (c' = idx + idx)) as [->|]; [reflexivity|].
      replace c' with (idx + idx + 1) by dlia. exact Hd.
  - exists (idx + idx). split; [done|]. split; [dlia|]. split; [dlia|]. intros c' Hc' He.
    replace c' with (idx + idx) by dlia. reflexivity.
Qed.

Lemma downheap_loop_spec fuel r element idx :
  (Z.to_nat (elements q) < fuel + Z.to_nat idx)%nat ->
  0 <= elements q < Z.of_nat (length r) -> 1 <= idx <= elements q ->
  heap_down (get (filled r idx element)) (elements q) idx ->
  exists r' idx', downheap_loop fuel q r element idx = Some (r', idx') /\
    length r' = length r /\ 1 <= idx' <= elements q /\
    live (elements q) (filled r' idx' element) ≡ₚ live (elements q) (filled r idx element) /\
    heap (get (filled r' idx' element)) (elements q).
Proof.
  revert r idx. induction fuel as [|fuel IH]; intros r idx Hf Hn Hi Hdown; [lia|].
  cbn [downheap_loop]. rewrite shiftr_1. set (n := elements q) in *.
  assert (get (filled r idx element) idx = element) as Hg1
    by (unfold filled; rewrite get_insert by lia; by rewrite decide_True).
  assert (forall k, 0 <= k -> k <> idx -> get (filled r idx element) k = get r k) as Hg2
    by (intros k ? ?; unfold filled; rewrite get_insert by dlia; rewrite decide_False by lia; done).
  destruct (Z.leb_spec idx (n / 2)) as [Hle|Hgt].
  2: { exists r, idx. repeat (split; [done|]). apply (heap_down_done _ _ idx); [lia|done|].
       intros c Hc He. dlia. }
  assert (2 * idx <= n) by dlia. rewrite (rd_get r (idx + idx)), bind_Some_eq by lia.
  destruct (choose_child r idx n) as (c & -> & Hc & Hci & Hmin); [lia..|].
  rewrite bind_Some_eq, rd_get, bind_Some_eq, test_ge by lia.
  destruct (Z.leb_spec 0 (dir q (get r c) element)) as [Hge|Hlt].
  - exists r, idx. repeat (split; [done|]). apply (heap_down_done _ _ idx); [lia|done|].
    intros c' Hc' He. rewrite Hg1, Hg2 by dlia. transitivity (get r c); [|by apply Hmin].
    unfold above. pose proof (dir_sym (get r c) element). lia.
  - destruct (filled_move r idx c element n) as [Hp Hs]; [dlia..|].
    rewrite wr_some, bind_Some_eq by lia.
    destruct (IH (<[Z.to_nat idx := get r c]> r) c) as (r' & idx' & E & Hl & Hr & Hp' & Hh).
    + dlia.
    + by rewrite length_insert.
    + dlia.
    + eapply heap_down_ext; [|dlia|]. { intros k Hk. symmetry. by apply Hs. }
      apply heap_down_step; try dlia; auto.
      * rewrite Hg1, Hg2 by dlia. done.
      * intros c' Hc' He. rewrite !Hg2 by dlia. by apply Hmin.
    + exists r', idx'. rewrite E, Hl, length_insert. repeat (split; [done|]). split; [|done].
      by rewrite Hp', Hp.
Qed.

End Queue.

(** ** Correctness of the operations *)

Section QueueTheorems.

Context (compare : Z -> Z -> Z -> Z).

#[local] Instance comparison_with_heap q r n :
  Comparison compare q -> Comparison compare (with_heap q r n).
Proof. intros []. by constructor. Qed.

(** A queue whose array [r] has room for [max_elements] and is a heap. *)
Record queue_wf (q : QUEUE) (r : list Z) : Prop := {
  q_root : root q = Some r;
  q_elements : 0 <= elements q <= max_elements q;
  q_room : max_elements q < Z.of_nat (length r);
  q_uint : max_elements q < 2 ^ 32 - 1;
  q_heap : heap compare q (get r) (elements q)
}.

(** The elements of a queue. *)
Definition contents (q : QUEUE) (r : list Z) : list Z := live (elements q) r.

Lemma get_filled_id r idx : 0 <= idx < Z.of_nat (length r) -> filled r idx (get r idx) = r.
Proof.
  intros H. unfold filled. apply list_insert_id. pose proof (rd_get r idx H) as Hr.
  unfold rd in Hr. by destruct (0 <=? idx) eqn:E; [|b2p; lia].
Qed.

Lemma live_snoc n r x : 0 <= n -> n + 1 < Z.of_nat (length r) ->
  live (n + 1) (filled r (n + 1) x) = live n r ++ [x].
Proof.
  intros Hn Hl. apply list_eq. intros k. unfold filled.
  rewrite live_lookup by (rewrite length_insert; lia).
  destruct (decide (k < Z.to_nat n)%nat) as [Hk|Hk].
  - rewrite decide_True, lookup_app_l, live_lookup, decide_True by (rewrite ?length_live; lia).
    rewrite list_lookup_insert_ne by lia. done.
  - rewrite lookup_app_r, length_live by (rewrite ?length_live; lia). case_decide.
    + replace (k - Z.to_nat n)%nat with 0%nat by lia. replace (S k) with (Z.to_nat (n + 1)) by lia.
      rewrite list_lookup_insert_eq by lia. done.
    + symmetry. apply lookup_ge_None. simpl. lia.
Qed.

(** Taking [a[i]] out and moving the last element there. *)
Lemma live_replace_last n r i : 1 <= i <= n -> n < Z.of_nat (length r) ->
  live n r ≡ₚ get r i :: live (n - 1) (filled r i (get r n)).
Proof.
  intros Hi Hn.
  assert (live n (filled (filled r i (get r n)) n (get r i)) ≡ₚ live n r) as <-.
  { unfold filled. rewrite <- (live_swap n r n i) by lia. reflexivity. }
  replace n with ((n - 1) + 1) at 1 3 by lia.
  rewrite live_snoc by (unfold filled; rewrite ?length_insert; lia).
  rewrite Permutation_app_comm. done.
Qed.

(** [queue_insert] on a queue with room adds the element, keeps every other
    one and restores the heap order: the loop ends, inside the array. *)
Theorem queue_insert_correct q r e : Comparison compare q -> queue_wf q r ->
  elements q < max_elements q ->
  exists q' r', queue_insert compare q e = Some q' /\ queue_wf q' r' /\
    elements q' = elements q + 1 /\ contents q' r' ≡ₚ e :: contents q r.
Proof.
  intros HC [Hr He Hroom Hmax Hh] Hlt. unfold queue_insert.
  destruct (Z.ltb_spec (elements q) (max_elements q)); [|lia].
  rewrite Hr, bind_Some_eq, wr_some, bind_Some_eq, u32_small by lia. cbv zeta.
  set (n := elements q + 1). set (r0 := <[Z.to_nat 0 := e]> r).
  assert (length r0 = length r) as Hl0 by (unfold r0; apply length_insert).
  destruct (insert_loop_spec compare q (S (Z.to_nat n)) r0 e n n) as (r1 & idx & -> & Hl1 & Hi & Hp & Hh1).
  - lia.
  - rewrite Hl0. lia.
  - lia.
  - unfold r0. rewrite get_insert by lia. by rewrite decide_True.
  - assert (forall k, 1 <= k < n -> get (filled r0 n e) k = get r k) as Hg.
    { intros k Hk. unfold filled, r0. rewrite !get_insert by (rewrite ?length_insert; lia).
      by rewrite !decide_False by lia. }
    split; intros i Hi Hne; [|dlia]. rewrite !Hg by dlia. apply Hh. lia.
  - rewrite bind_Some_eq, wr_some, bind_Some_eq by lia.
    eexists _, (filled r1 idx e). split; [reflexivity|].
    assert (contents (with_heap q (filled r1 idx e) n) (filled r1 idx e) ≡ₚ e :: contents q r) as Hc.
    { unfold contents. simpl. rewrite Hp. unfold n. rewrite live_snoc by lia.
      rewrite Permutation_app_comm. simpl. apply perm_skip. unfold live, r0. destruct r; done. }
    split; [|split; [done|exact Hc]].
    constructor; simpl; auto; try lia. unfold filled. rewrite length_insert. lia.
Qed.

Lemma downheap_correct q r idx : Comparison compare q -> root q = Some r ->
  0 <= elements q -> Z.max (elements q) idx < Z.of_nat (length r) -> 1 <= idx ->
  (idx <= elements q -> heap_down compare q (get r) (elements q) idx) ->
  (elements q < idx -> heap compare q (get r) (elements q)) ->
  exists r', downheap compare q idx = Some (with_heap q r' (elements q)) /\
    length r' = length r /\ live (elements q) r' ≡ₚ live (elements q) r /\
    heap compare q (get r') (elements q).
Proof.
  intros HC Hr Hn Hl Hi Hdown Hheap. unfold downheap.
  rewrite Hr, bind_Some_eq, rd_get, bind_Some_eq by lia.
  assert (filled r idx (get r idx) = r) as Hfill by (apply get_filled_id; lia).
  destruct (decide (idx <= elements q)) as [Hin|Hout].
  - destruct (downheap_loop_spec compare q (S (Z.to_nat (elements q))) r (get r idx) idx)
      as (r' & idx' & -> & Hl' & Hi' & Hp & Hh); [lia..| |].
    { rewrite Hfill. auto. }
    rewrite bind_Some_eq, wr_some, bind_Some_eq by lia. exists (filled r' idx' (get r idx)).
    split; [done|]. split; [unfold filled; by rewrite length_insert|]. split; [by rewrite Hp, Hfill|done].
  - cbn [downheap_loop]. rewrite shiftr_1. destruct (Z.leb_spec idx (elements q / 2)); [dlia|].
    rewrite bind_Some_eq, wr_some, bind_Some_eq by lia. fold (filled r idx (get r idx)). rewrite Hfill.
    exists r. repeat (split; [done|]). apply Hheap. lia.
Qed.

(** The removal of any element whose parent is above the last one. *)
Lemma queue_remove_spec q r idx : Comparison compare q -> queue_wf q r ->
  0 <= idx < elements q ->
  (idx = 0 \/ above compare q (get r ((idx + 1) / 2)) (get r (elements q))) ->
  exists q' r', queue_remove compare q idx = Some (q', get r (idx + 1)) /\ queue_wf q' r' /\
    elements q' = elements q - 1 /\ contents q r ≡ₚ get r (idx + 1) :: contents q' r'.
Proof.
  intros HC [Hr He Hroom Hmax Hh] Hidx Hpar. unfold queue_remove.
  destruct (Z.leb_spec (max_elements q) idx); [lia|].
  rewrite Hr, bind_Some_eq. rewrite (rd_get r (idx + 1)), bind_Some_eq by lia.
  rewrite (rd_get r (elements q)), bind_Some_eq by lia.
  rewrite wr_some, bind_Some_eq, u32_small by lia.
  set (n := elements q - 1). set (last := get r (elements q)).
  set (r1 := <[Z.to_nat (idx + 1) := last]> r).
  assert (length r1 = length r) as Hl1 by apply length_insert.
  assert (contents q r ≡ₚ get r (idx + 1) :: live n r1) as Hc by (apply live_replace_last; lia).
  assert (get r1 (idx + 1) = last) as Hg1 by (unfold r1; rewrite get_insert, decide_True by lia; done).
  assert (forall k, 0 <= k -> k <> idx + 1 -> get r1 k = get r k) as Hg
    by (intros k ? ?; unfold r1; rewrite get_insert, decide_False by lia; done).
  destruct (downheap_correct (with_heap q r1 n) r1 (idx + 1)) as (r' & -> & Hl' & Hp & Hh');
    [apply _|done|simpl; lia..| | |].
  - intros Hin. simpl in Hin |- *. split; intros i Hi Hne.
    + rewrite (Hg (i / 2)) by dlia. destruct (decide (i = idx + 1)) as [->|].
      * rewrite Hg1. destruct Hpar as [->|Hpar]; [lia|exact Hpar].
      * rewrite Hg by lia. apply Hh. lia.
    + intros Hp2. rewrite (Hg i), Hg by dlia. transitivity (get r (idx + 1)); [apply Hh; lia|].
      rewrite <- Hne. apply Hh. lia.
  - intros Hout i Hi. simpl in Hout, Hi. rewrite !Hg by dlia. apply Hh. lia.
  - rewrite bind_Some_eq. eexists _, r'. split; [reflexivity|]. split; [|split; [done|]].
    + constructor; simpl; auto; lia.
    + rewrite Hc. apply perm_skip. symmetry. exact Hp.
Qed.

(** [queue_remove] of any position returns the element there and keeps all
    the others; the heap order is kept when the position is the top or the
    last element, which takes the position over, is not above its parent. *)
Theorem queue_remove_correct q r idx : Comparison compare q -> queue_wf q r ->
  0 <= idx < elements q ->
  (idx = 0 \/ above compare q (get r ((idx + 1) / 2)) (get r (elements q))) ->
  exists q' r', queue_remove compare q idx = Some (q', get r (idx + 1)) /\ queue_wf q' r' /\
    elements q' = elements q - 1 /\ contents q r ≡ₚ get r (idx + 1) :: contents q' r'.
Proof. apply queue_remove_spec. Qed.

(** After the top element was replaced by any other one, [queue_replaced]
    restores the heap order and keeps the elements. *)
Theorem queue_replaced_correct q r e : Comparison compare q -> queue_wf q r -> 1 <= elements q ->
  exists r', queue_replaced compare (with_heap q (<[1%nat := e]> r) (elements q)) =
      Some (with_heap q r' (elements q)) /\
    queue_wf (with_heap q r' (elements q)) r' /\
    contents (with_heap q r' (elements q)) r' ≡ₚ live (elements q) (<[1%nat := e]> r).
Proof.
  intros HC [Hr He Hroom Hmax Hh] H1. set (r1 := <[1%nat := e]> r).
  assert (length r1 = length r) as Hl1 by apply length_insert.
  destruct (downheap_correct (with_heap q r1 (elements q)) r1 1) as (r' & E & Hl' & Hp & Hh');
    [apply _|done|simpl; lia..| |simpl; lia|].
  - intros _. assert (forall k, 2 <= k -> get r1 k = get r k) as Hg.
    { intros k ?. unfold r1. change 1%nat with (Z.to_nat 1). rewrite get_insert, decide_False by lia. done. }
    split; intros i Hi Hne; simpl in Hi; [|lia]. rewrite !Hg by dlia. apply Hh. lia.
  - exists r'. unfold queue_replaced. rewrite E. split; [done|]. split; [|exact Hp].
    constructor; simpl; auto; lia.
Qed.

(** The operations change only the array and the count. *)
Lemma queue_remove_params q i q' e : queue_remove compare q i = Some (q', e) ->
  first_cmp_arg q' = first_cmp_arg q /\ offset_to_key q' = offset_to_key q /\
  max_at_top q' = max_at_top q.
Proof.
  unfold queue_remove. case_if; [by intros [= <- _]|].
  intros (r & _ & (x & _ & (y & _ & (r1 & _ & (q1 & Hd & [= <- _])%bind_Some)%bind_Some)%bind_Some)%bind_Some)%bind_Some.
  unfold downheap in Hd.
  apply bind_Some in Hd as (r2 & _ & (z & _ & ([? ?] & _ & (? & _ & [= <-])%bind_Some)%bind_Some)%bind_Some).
  done.
Qed.

(** ** Draining a queue *)

(** Remove the top until the queue is empty: what came out, and the queue
    that is left. *)
Fixpoint drain (fuel : nat) (q : QUEUE) : option (list Z * QUEUE) :=
  match fuel with
  | O => Some ([], q)
  | S fuel =>
      if elements q =? 0 then Some ([], q)
      else
        '(q', e) ← queue_remove compare q 0;
        '(l, q'') ← drain fuel q';
        Some (e :: l, q'')
  end.

(** C25: Removing the top element of a valid queue as often as the queue has
    elements never fails, ends with the empty queue and yields all the elements
    of the queue, each one not below the next.  The comparison function has to
    be a total preorder ([Comparison]), and one that never returns -2 when
    [max_at_top] was asked for: the code then reverses an answer by an xor with
    -2, which makes "equal" of -2 ([queue_max_at_top_minus_two]). *)
Theorem queue_drain_sorted q r : Comparison compare q -> queue_wf q r ->
  exists l q', drain (Z.to_nat (elements q)) q = Some (l, q') /\ elements q' = 0 /\ l ≡ₚ contents q r /\
    StronglySorted (above compare q) l.
Proof.
  intros HC. remember (Z.to_nat (elements q)) as n eqn:Hn. revert q r HC Hn.
  induction n as [|n IH]; intros q r HC Hn Hwf; pose proof Hwf as [Hr He Hroom _ Hh].
  - exists [], q. split; [done|]. split; [lia|]. split; [|constructor]. unfold contents, live. by rewrite <- Hn.
  - destruct (queue_remove_spec q r 0 HC Hwf) as (q' & r' & E & Hwf' & Hn' & Hp); [lia|auto|].
    assert (first_cmp_arg q' = first_cmp_arg q /\ offset_to_key q' = offset_to_key q /\
            max_at_top q' = max_at_top q) as (E1 & E2 & E3).
    { by apply (queue_remove_params q 0 q' (get r (0 + 1))). }
    assert (above compare q' = above compare q) as Hab by (unfold above, dir, cmpq; by rewrite E1, E2, E3).
    assert (Comparison compare q') as HC'.
    { destruct HC as [C1 C2 C3 C4]. split; unfold cmpq in *; rewrite E1, E2, ?E3; auto. }
    destruct (IH q' r' HC' ltac:(lia) Hwf') as (l & q0 & Hl & He0 & Hpl & Hs).
    cbn [drain]. destruct (Z.eqb_spec (elements q) 0); [lia|].
    rewrite E, bind_Some_eq, Hl, bind_Some_eq. exists (get r (0 + 1) :: l), q0. split; [reflexivity|].
    split; [done|]. split; [by rewrite Hpl, Hp|]. constructor.
    + by rewrite <- Hab.
    + apply Forall_forall. intros x Hx. rewrite Hpl in Hx.
      assert (x ∈ contents q r) as Hx' by (rewrite Hp; by right).
      apply list_elem_of_lookup in Hx' as [k Hk]. unfold contents in Hk.
      assert (k < Z.to_nat (elements q))%nat as Hkn.
      { apply lookup_lt_Some in Hk. rewrite length_live in Hk by lia. done. }
      rewrite live_get in Hk by lia. injection Hk as <-. apply (heap_top compare q (get r) (elements q)); [done|lia].
Qed.

End QueueTheorems.

(** ** Examples and limits *)

(** Keys are the pointers themselves, compared by difference. *)
Definition cmp_diff (_ a b : Z) : Z := a - b.
Definition cmp_sgn (_ a b : Z) : Z := Z.sgn (a - b).

Definition queue_of (l : list Z) (mask : Z) : QUEUE :=
  mkQueue (Some (0 :: l ++ [0; 0])) 0 (Z.of_nat (length l)) (Z.of_nat (length l) + 1) 0 mask.

Lemma cmp_diff_ok l : Comparison cmp_diff (queue_of l 0).
Proof. split; unfold cmpq, cmp_diff; simpl; try lia. Qed.

Lemma cmp_sgn_ok l : Comparison cmp_sgn (queue_of l (-2)).
Proof. split; unfold cmpq, cmp_sgn; simpl; try lia. right. split; [done|]. intros. lia. Qed.

(** Whether the first [n] elements are a heap, decided. *)
Definition heapb (compare : Z -> Z -> Z -> Z) (q : QUEUE) (r : list Z) : bool :=
  forallb (fun i => dir compare q (get r (i / 2)) (get r i) <=? 0) (seqZ 2 (elements q - 1)).

Lemma heapb_heap compare q r : heapb compare q r = true <-> heap compare q (get r) (elements q).
Proof.
  unfold heapb, heap, above. rewrite forallb_forall. split.
  - intros H i Hi. apply Z.leb_le, H. apply list_elem_of_In, elem_of_seqZ. lia.
  - intros H i Hi%list_elem_of_In%elem_of_seqZ. apply Z.leb_le, H. lia.
Qed.

Lemma queue_of_wf compare l mask :
  heapb compare (queue_of l mask) (0 :: l ++ [0; 0]) = true -> (length l < 1000)%nat ->
  queue_wf compare (queue_of l mask) (0 :: l ++ [0; 0]).
Proof.
  intros H Hl. constructor; simpl; try (rewrite ?length_app; simpl; lia); auto. by apply heapb_heap.
Qed.

Definition heap7 : list Z := [1; 10; 2; 11; 12; 3; 4].

Definition heap15 : list Z := [1; 10; 2; 30; 12; 3; 4; 31; 32; 22; 23; 5; 6; 7; 8].

(** Removing an element that is not the top can break the heap: the last
    element is only moved down, never up, though it may come from another
    subtree.  Here 30 is removed, the last element 8 takes its place and is
    left below 10; draining the queue afterwards yields 10 before 8. *)
Theorem queue_remove_middle_breaks_heap :
  exists q' r', queue_wf cmp_diff (queue_of heap15 0) (0 :: heap15 ++ [0; 0]) /\
    queue_remove cmp_diff (queue_of heap15 0) 3 = Some (q', 30) /\ root q' = Some r' /\
    ~ heap cmp_diff q' (get r') (elements q') /\
    fst <$> drain cmp_diff 14 q' = Some [1; 2; 3; 4; 5; 6; 7; 10; 8; 12; 22; 23; 31; 32].
Proof.
  eexists _, _. split; [apply queue_of_wf; [reflexivity|simpl; lia]|].
  split; [vm_compute; reflexivity|]. split; [reflexivity|]. split; [|vm_compute; reflexivity].
  rewrite <- heapb_heap. vm_compute. discriminate.
Qed.

(** With the largest element at the top the code reverses the comparison by
    [cmp ^ max_at_top] with [max_at_top = -1 ^ 1 = -2], which maps -2 to 0:
    with a comparison that returns differences the queue 4,2 is taken for
    wrongly ordered when its top is put in place, and the smaller element
    moves to the top. *)
Theorem queue_max_at_top_minus_two :
  top_mask true = -2 /\ cmp_diff 0 2 4 = -2 /\
  queue_replaced cmp_diff (queue_of [4; 2] (top_mask true)) =
    Some (with_heap (queue_of [4; 2] (top_mask true)) [0; 2; 4; 0; 0] 2) /\
  queue_replaced cmp_sgn (queue_of [4; 2] (top_mask true)) =
    Some (with_heap (queue_of [4; 2] (top_mask true)) [0; 4; 2; 0; 0] 2).
Proof. vm_compute. repeat split. Qed.

Lemma queue_insert_correct_witness :
  exists q' r', queue_insert cmp_diff (queue_of heap7 0) 5 = Some q' /\ queue_wf cmp_diff q' r' /\
    elements q' = 8 /\ contents q' r' ≡ₚ 5 :: contents (queue_of heap7 0) (0 :: heap7 ++ [0; 0]).
Proof.
  apply (queue_insert_correct cmp_diff (queue_of heap7 0) (0 :: heap7 ++ [0; 0]) 5).
  - apply cmp_diff_ok.
  - apply queue_of_wf; [reflexivity|simpl; lia].
  - simpl. lia.
Defined.

Lemma queue_remove_correct_witness :
  exists q' r', queue_remove cmp_diff (queue_of heap7 0) 0 = Some (q', 1) /\ queue_wf cmp_diff q' r' /\
    elements q' = 6 /\
    contents (queue_of heap7 0) (0 :: heap7 ++ [0; 0]) ≡ₚ 1 :: contents q' r'.
Proof.
  apply (queue_remove_correct cmp_diff (queue_of heap7 0) (0 :: heap7 ++ [0; 0]) 0).
  - apply cmp_diff_ok.
  - apply queue_of_wf; [reflexivity|simpl; lia].
  - simpl. lia.
  - by left.
Defined.

Lemma queue_replaced_correct_witness :
  exists r', queue_replaced cmp_diff (with_heap (queue_of heap7 0) (0 :: 9 :: tail heap7 ++ [0; 0]) 7) =
      Some (with_heap (queue_of heap7 0) r' 7) /\
    queue_wf cmp_diff (with_heap (queue_of heap7 0) r' 7) r' /\
    contents (with_heap (queue_of heap7 0) r' 7) r' ≡ₚ live 7 (0 :: 9 :: tail heap7 ++ [0; 0]).
Proof.
  apply (queue_replaced_correct cmp_diff (queue_of heap7 0) (0 :: heap7 ++ [0; 0]) 9).
  - apply cmp_diff_ok.
  - apply queue_of_wf; [reflexivity|simpl; lia].
  - simpl. lia.
Defined.

Lemma queue_drain_sorted_witness :
  exists l q', drain cmp_diff 7 (queue_of heap7 0) = Some (l, q') /\ elements q' = 0 /\
    l ≡ₚ contents (queue_of heap7 0) (0 :: heap7 ++ [0; 0]) /\
    StronglySorted (above cmp_diff (queue_of heap7 0)) l.
Proof.
  apply (queue_drain_sorted cmp_diff (queue_of heap7 0) (0 :: heap7 ++ [0; 0])).
  - apply cmp_diff_ok.
  - apply queue_of_wf; [reflexivity|simpl; lia].
Defined.
