(* ===== verification/IntStr.v ===== *)
(** * Integers to strings (strings/int2str.c, strings/longlong2str.c)

    The four conversions write their digits backwards into a buffer of 65
    bytes and copy them to the destination.  A destination string is the list
    of the bytes written before the terminating NUL; [None] is a write outside
    the buffer or a loop out of fuel, [Some None] is the [NullS] of a bad
    radix.  All four are shown equal to one reference definition. *)

From stdpp Require Import base numbers list.
From Stdlib Require Import ZArith Lia.
From S2P Require Import Prelude.

Local Open Scope Z_scope.

(** ** The digit tables *)

Definition dig_vec_upper : list Z :=
  [48; 49; 50; 51; 52; 53; 54; 55; 56; 57; 65; 66; 67; 68; 69; 70; 71; 72; 73; 74; 75; 76; 77;
   78; 79; 80; 81; 82; 83; 84; 85; 86; 87; 88; 89; 90].
Definition dig_vec_lower : list Z :=
  [48; 49; 50; 51; 52; 53; 54; 55; 56; 57; 97; 98; 99; 100; 101; 102; 103; 104; 105; 106; 107;
   108; 109; 110; 111; 112; 113; 114; 115; 116; 117; 118; 119; 120; 121; 122].

Definition dig_vec (upcase : bool) : list Z := if upcase then dig_vec_upper else dig_vec_lower.

(** [*--p = c] with [p] inside [char buffer[65]], whose last byte is the NUL;
    [p] is the list of the characters from the pointer to the NUL. *)
Definition push (c : Z) (p : list Z) : option (list Z) :=
  if (length p <? 64)%nat then Some (c :: p) else None.

Definition minus_sign : Z := 45.
Definition char_0 : Z := 48.

(** ** The loops *)

(** [while (val != 0) { new_val = val / radix; *--p = dig_vec[(uchar)(val - new_val * radix)];
    val = new_val; }] on a signed long; C division truncates. *)
Fixpoint long_loop (fuel : nat) (vec : list Z) (radix val : Z) (p : list Z) : option (list Z) :=
  match fuel with
  | O => None
  | S fuel =>
      if val =? 0 then Some p
      else
        let new_val := Z.quot val radix in
        c ← vec !! Z.to_nat (u8 (val - new_val * radix));
        p ← push c p;
        long_loop fuel vec radix new_val p
  end.

(** The same with [*--p = '0' + (char)(val - new_val * 10)]. *)
Fixpoint long10_loop (fuel : nat) (val : Z) (p : list Z) : option (list Z) :=
  match fuel with
  | O => None
  | S fuel =>
      if val =? 0 then Some p
      else
        let new_val := Z.quot val 10 in
        p ← push (char_0 + s8 (val - new_val * 10)) p;
        long10_loop fuel new_val p
  end.

Definition LONG_MAX : Z := 2 ^ 63 - 1.

(** [while ((ulonglong)val > (ulonglong)LONG_MAX) ...]: the digits until the rest
    fits a signed long; returns that rest. *)
Fixpoint ull_loop (fuel : nat) (radix val : Z) (p : list Z) : option (Z * list Z) :=
  match fuel with
  | O => None
  | S fuel =>
      if LONG_MAX <? u64 val then
        let quo := u64 val / radix in
        let rem := u32 (val - quo * radix) in
        c ← dig_vec_upper !! Z.to_nat rem;
        p ← push c p;
        ull_loop fuel radix (s64 quo) p
      else Some (val, p)
  end.

(** Sign handling of the two general conversions: the sign written, the value
    and the radix to go on with; [None] for a bad radix. *)
Definition take_sign (val radix : Z) : option (list Z * Z * Z) :=
  if radix <? 0 then
    if (radix <? -36) || (-2 <? radix) then None
    else if val <? 0 then Some ([minus_sign], s64 (- val), - radix)
    else Some ([], val, - radix)
  else if (36 <? radix) || (radix <? 2) then None
  else Some ([], val, radix).

(** ** The conversions *)

(** Fuel: 64 digits at most, one more round to find the value 0. *)
Definition int2str (val radix : Z) (upcase : bool) : option (option (list Z)) :=
  match take_sign val radix with
  | None => Some None
  | Some (sign, val, radix) =>
      let new_val := s64 (u64 val / u64 radix) in
      c ← dig_vec upcase !! Z.to_nat (u8 (u64 val - u64 new_val * u64 radix));
      p ← push c [];
      p ← long_loop 65 (dig_vec upcase) radix new_val p;
      Some (Some (sign ++ p))
  end.

Definition int10_to_str (val radix : Z) : option (list Z) :=
  let '(sign, val) :=
    (if radix <? 0 then if val <? 0 then ([minus_sign], s64 (- val)) else ([], val)
     else ([], val)) in
  let new_val := s64 (u64 val / 10) in
  p ← push (char_0 + s8 (u64 val - u64 new_val * 10)) [];
  p ← long10_loop 65 new_val p;
  Some (sign ++ p).

Definition longlong2str (val radix : Z) : option (option (list Z)) :=
  match take_sign val radix with
  | None => Some None
  | Some (sign, val, radix) =>
      if val =? 0 then Some (Some (sign ++ [char_0]))
      else
        '(long_val, p) ← ull_loop 65 radix val [];
        p ← long_loop 65 dig_vec_upper radix long_val p;
        Some (Some (sign ++ p))
  end.

Definition longlong10_to_str (val radix : Z) : option (list Z) :=
  let '(sign, val) :=
    (if radix <? 0 then if val <? 0 then ([minus_sign], s64 (- val)) else ([], val)
     else ([], val)) in
  if val =? 0 then Some (sign ++ [char_0])
  else
    '(long_val, p) ← ull_loop 65 10 val [];
    p ← long_loop 65 dig_vec_upper 10 long_val p;
    Some (sign ++ p).

(** ** Reference definition *)

(** The digits of [n] in base [r], most significant first; none for 0. *)
Fixpoint to_digits (fuel : nat) (r n : Z) : list Z :=
  match fuel with
  | O => []
  | S fuel => if n =? 0 then [] else to_digits fuel r (n / r) ++ [n mod r]
  end.

(** The number a digit string denotes. *)
Definition value (r : Z) (ds : list Z) : Z := foldl (fun a d => a * r + d) 0 ds.

Definition digits (r n : Z) : list Z := if n =? 0 then [0] else to_digits 64 r n.

Definition dig_char (upcase : bool) (d : Z) : Z := default 0 (dig_vec upcase !! Z.to_nat d).

(** What is printed: the magnitude of a signed value, or the value as an
    unsigned 64-bit number, with its sign. *)
Definition render (upcase signed : bool) (r val : Z) : list Z :=
  if signed && (val <? 0) then minus_sign :: (dig_char upcase <$> digits r (- val))
  else dig_char upcase <$> digits r (u64 val).

(** ** Theory *)

Lemma value_app r l d : value r (l ++ [d]) = value r l * r + d.
Proof. unfold value. by rewrite foldl_app. Qed.

Lemma div_pow2 n r k : 2 <= r -> 0 <= n < 2 ^ Z.of_nat (S k) -> 0 <= n / r < 2 ^ Z.of_nat k.
Proof.
  intros Hr Hn. rewrite Nat2Z.inj_succ, Z.pow_succ_r in Hn by lia.
  split; [apply Z.div_pos; lia|]. apply Z.div_lt_upper_bound; [lia|]. nia.
Qed.

Lemma pow2_0 n : 0 <= n < 2 ^ Z.of_nat 0 -> n = 0.
Proof. simpl. lia. Qed.

Lemma to_digits_spec r k n : 2 <= r -> 0 <= n < 2 ^ Z.of_nat k ->
  value r (to_digits k r n) = n /\ (length (to_digits k r n) <= k)%nat /\
  Forall (fun d => 0 <= d < r) (to_digits k r n) /\
  (n <> 0 -> exists d ds, to_digits k r n = d :: ds /\ d <> 0).
Proof.
  intros Hr. revert n. induction k as [|k IH]; intros n Hn.
  - apply pow2_0 in Hn as ->. simpl. split; [done|]. split; [lia|]. split; [done|lia].
  - cbn [to_digits]. destruct (Z.eqb_spec n 0) as [->|Hz].
    { simpl. split; [done|]. split; [lia|]. split; [done|lia]. }
    destruct (IH (n / r)) as (Hv & Hl & Hf & Hd); [by apply div_pow2|].
    pose proof (Z.mod_pos_bound n r ltac:(lia)). pose proof (Z.div_mod n r ltac:(lia)).
    rewrite value_app, Hv, length_app. split; [lia|]. split; [simpl; lia|].
    split; [apply Forall_app; split; [done|constructor; [lia|constructor]]|].
    intros _. destruct (decide (n / r = 0)) as [He|He].
    + rewrite He. assert (to_digits k r 0 = []) as -> by (destruct k; done).
      eexists _, []. split; [reflexivity|]. lia.
    + destruct (Hd He) as (d & ds & -> & Hd0). eexists d, _. split; [reflexivity|]. done.
Qed.

(** More fuel than digits makes no difference. *)
Lemma to_digits_more r k k' n : 2 <= r -> 0 <= n < 2 ^ Z.of_nat k -> (k <= k')%nat ->
  to_digits k' r n = to_digits k r n.
Proof.
  intros Hr. revert k' n. induction k as [|k IH]; intros k' n Hn Hk.
  - apply pow2_0 in Hn as ->. destruct k'; done.
  - destruct k' as [|k']; [lia|]. cbn [to_digits]. destruct (n =? 0); [done|].
    rewrite IH; [done|by apply div_pow2|lia].
Qed.

Lemma dig_lookup up d : 0 <= d < 36 -> dig_vec up !! Z.to_nat d = Some (dig_char up d).
Proof.
  intros Hd. unfold dig_char.
  destruct (lookup_lt_is_Some_2 (dig_vec up) (Z.to_nat d)) as [c Hc]; [|by rewrite Hc].
  destruct up; simpl; lia.
Qed.

(** The digits of a non-negative value, written in front of what is there. *)
Lemma long_loop_spec up r k val p fuel : 2 <= r <= 36 -> 0 <= val < 2 ^ Z.of_nat k ->
  (length p + k <= 64)%nat -> (k < fuel)%nat ->
  long_loop fuel (dig_vec up) r val p = Some ((dig_char up <$> to_digits k r val) ++ p).
Proof.
  intros Hr. revert val p fuel. induction k as [|k IH]; intros val p fuel Hv Hp Hf;
    (destruct fuel as [|fuel]; [lia|]); cbn [long_loop to_digits].
  - apply pow2_0 in Hv as ->. done.
  - destruct (Z.eqb_spec val 0) as [->|Hz]; [done|].
    assert (val - Z.quot val r * r = val mod r) as Hm.
    { rewrite Z.quot_div_nonneg by lia. pose proof (Z.div_mod val r ltac:(lia)). lia. }
    pose proof (Z.mod_pos_bound val r ltac:(lia)).
    rewrite Hm, u8_small, dig_lookup, bind_Some_eq by lia.
    unfold push. destruct (Nat.ltb_spec (length p) 64); [|lia]. rewrite bind_Some_eq.
    rewrite Z.quot_div_nonneg by lia.
    rewrite IH; [|apply div_pow2; [lia|done]|simpl; lia|lia].
    by rewrite fmap_app, <- app_assoc.
Qed.

(** ['0' + d] is the table's character for a decimal digit. *)
Lemma char_dig d : 0 <= d < 10 -> char_0 + s8 d = dig_char true d.
Proof.
  intros Hd. assert (d ∈ seqZ 0 10) as Hin by (apply elem_of_seqZ; lia). simpl in Hin.
  repeat (apply elem_of_cons in Hin as [->|Hin]; [reflexivity|]). by apply not_elem_of_nil in Hin.
Qed.

(** The decimal loop is the general one at radix 10. *)
Lemma long10_long fuel val p : 0 <= val ->
  long10_loop fuel val p = long_loop fuel dig_vec_upper 10 val p.
Proof.
  revert val p. induction fuel as [|fuel IH]; intros val p Hv; [done|]. cbn [long10_loop long_loop].
  destruct (val =? 0); [done|].
  assert (val - Z.quot val 10 * 10 = val mod 10) as -> by (rewrite Z.quot_div_nonneg by lia; dlia).
  pose proof (Z.mod_pos_bound val 10 ltac:(lia)) as Hm. rewrite u8_small by lia.
  rewrite (dig_lookup true), bind_Some_eq by lia.
  rewrite char_dig by lia.
  destruct (push (dig_char true (val mod 10)) p); [|done]. rewrite !bind_Some_eq.
  apply IH. rewrite Z.quot_div_nonneg by lia. apply Z.div_pos; lia.
Qed.

(** The two unsigned steps of [ull_loop] at most, then a signed rest. *)
Lemma ull_loop_spec r val : 2 <= r <= 36 -> is_s64 val ->
  exists long_val p, ull_loop 65 r val [] = Some (long_val, p) /\ 0 <= long_val < 2 ^ 63 /\
    (length p <= 1)%nat /\
    forall ds, to_digits 64 r (u64 val) = ds ->
      dig_char true <$> ds = (dig_char true <$> to_digits 63 r long_val) ++ p.
Proof.
  intros Hr Hv. cbn [ull_loop]. unfold LONG_MAX. pose proof (u64_range val) as Hu.
  destruct (Z.ltb_spec (2 ^ 63 - 1) (u64 val)) as [Hbig|Hsmall].
  - assert (0 <= u64 val / r < 2 ^ 63) as Hq.
    { split; [apply Z.div_pos; lia|]. apply Z.div_lt_upper_bound; [lia|]. nia. }
    assert (u32 (val - u64 val / r * r) = u64 val mod r) as ->.
    { pose proof (Z.mod_pos_bound (u64 val) r ltac:(lia)). pose proof (Z.div_mod (u64 val) r ltac:(lia)).
      assert (val = u64 val - 2 ^ 64) by (unfold u64 in *; dlia).
      replace (val - u64 val / r * r) with (u64 val mod r + (- 2 ^ 32) * 2 ^ 32) by lia.
      unfold u32. rewrite Z.mod_add by lia. apply Z.mod_small. lia. }
    pose proof (Z.mod_pos_bound (u64 val) r ltac:(lia)).
    change dig_vec_upper with (dig_vec true). rewrite (dig_lookup true (u64 val mod r)) by lia. rewrite bind_Some_eq. unfold push. simpl length. cbn [Nat.ltb Nat.leb].
    rewrite bind_Some_eq, s64_small, (u64_small (u64 val / r)) by lia.
    destruct (Z.ltb_spec (2 ^ 63 - 1) (u64 val / r)); [lia|].
    eexists _, _. split; [reflexivity|]. split; [lia|]. split; [simpl; lia|]. intros ds <-.
    change 64%nat with (S 63). cbn [to_digits]. destruct (Z.eqb_spec (u64 val) 0); [lia|].
    by rewrite fmap_app.
  - assert (u64 val = val) as E by (unfold u64 in *; dlia).
    eexists _, _. split; [reflexivity|]. split; [lia|]. split; [simpl; lia|]. intros ds <-.
    rewrite E, app_nil_r, (to_digits_more r 63 64 val); [done|lia| |lia]. change (Z.of_nat 63) with 63. lia.
Qed.

Lemma digits_spec r n : 2 <= r -> is_u64 n ->
  value r (digits r n) = n /\ (1 <= length (digits r n) <= 64)%nat /\
  Forall (fun d => 0 <= d < r) (digits r n) /\
  (head (digits r n) = Some 0 -> digits r n = [0]).
Proof.
  intros Hr Hn. unfold digits. destruct (Z.eqb_spec n 0) as [->|Hz].
  - split; [done|]. split; [simpl; lia|]. split; [constructor; [lia|constructor]|done].
  - pose proof (to_digits_spec r 64 n Hr Hn) as H. revert H. generalize (to_digits 64 r n).
    intros l (Hv & Hl & Hf & Hd). destruct (Hd Hz) as (d & ds & -> & Hd0).
    split; [done|]. split; [simpl in Hl |- *; lia|]. split; [done|]. simpl. congruence.
Qed.

(** The first, unsigned, division and the signed loop after it. *)
Lemma int_core up r val : 2 <= r <= 36 -> is_s64 val ->
  (c ← dig_vec up !! Z.to_nat (u8 (u64 val - u64 (s64 (u64 val / u64 r)) * u64 r));
   p ← push c [];
   long_loop 65 (dig_vec up) r (s64 (u64 val / u64 r)) p) =
  Some (dig_char up <$> digits r (u64 val)).
Proof.
  intros Hr Hv. pose proof (u64_range val) as Hu. rewrite (u64_small r) by lia.
  assert (0 <= u64 val / r < 2 ^ Z.of_nat 63) as Hq by (apply div_pow2; [lia|exact Hu]).
  change (Z.of_nat 63) with 63 in Hq. rewrite s64_small, (u64_small (u64 val / r)) by lia.
  pose proof (Z.mod_pos_bound (u64 val) r ltac:(lia)). pose proof (Z.div_mod (u64 val) r ltac:(lia)).
  replace (u64 val - u64 val / r * r) with (u64 val mod r) by lia.
  rewrite u8_small, dig_lookup, bind_Some_eq by lia. unfold push. cbn [length Nat.ltb Nat.leb].
  rewrite bind_Some_eq, (long_loop_spec up r 63) by (simpl length; lia).
  unfold digits. destruct (Z.eqb_spec (u64 val) 0) as [->|Hz]; [done|].
  change 64%nat with (S 63). cbn [to_digits]. destruct (Z.eqb_spec (u64 val) 0); [lia|].
  by rewrite fmap_app.
Qed.

Lemma ll_core r val : 2 <= r <= 36 -> is_s64 val -> val <> 0 ->
  ('(long_val, p) ← ull_loop 65 r val [];
   long_loop 65 dig_vec_upper r long_val p) =
  Some (dig_char true <$> digits r (u64 val)).
Proof.
  intros Hr Hv Hz. destruct (ull_loop_spec r val Hr Hv) as (lv & p & -> & Hlv & Hp & Hd).
  rewrite bind_Some_eq, (long_loop_spec true r 63) by (try (change (Z.of_nat 63) with 63); lia).
  rewrite <- (Hd _ eq_refl). unfold digits. destruct (Z.eqb_spec (u64 val) 0) as [He|]; [|done].
  exfalso. unfold u64 in He. apply Hz. dlia.
Qed.

Lemma s64_opp val : is_s64 val -> val < 0 -> u64 (s64 (- val)) = - val.
Proof. intros Hv Hn. rewrite u64_s64. apply u64_small. lia. Qed.

(** The sign, the radix and the value the digits are taken from. *)
Lemma take_sign_ok val radix : is_s64 val -> 2 <= Z.abs radix <= 36 ->
  exists sign val', take_sign val radix = Some (sign, val', Z.abs radix) /\ is_s64 val' /\
    forall up, sign ++ (dig_char up <$> digits (Z.abs radix) (u64 val')) =
      render up (radix <? 0) (Z.abs radix) val.
Proof.
  intros Hv Hr. unfold take_sign, render.
  destruct (Z.ltb_spec radix 0) as [Hneg|Hpos]; cbn [andb].
  - destruct (Z.ltb_spec radix (-36)); [lia|]. destruct (Z.ltb_spec (-2) radix); [lia|]. cbn [orb].
    destruct (Z.ltb_spec val 0); (eexists _, _; split; [do 3 f_equal; lia|]).
    + split; [apply s64_range|]. intros up. rewrite s64_opp by lia. done.
    + split; [lia|]. intros up. done.
  - destruct (Z.ltb_spec 36 radix); [lia|]. destruct (Z.ltb_spec radix 2); [lia|]. cbn [orb].
    eexists _, _. split; [do 3 f_equal; lia|]. split; [lia|]. intros up. done.
Qed.

Lemma int2str_render val radix up : is_s64 val -> 2 <= Z.abs radix <= 36 ->
  int2str val radix up = Some (Some (render up (radix <? 0) (Z.abs radix) val)).
Proof.
  intros Hv Hr. unfold int2str. destruct (take_sign_ok val radix Hv Hr) as (sign & val' & -> & Hv' & Hren).
  pose proof (int_core up (Z.abs radix) val' Hr Hv') as Hc. rewrite <- Hren. cbv zeta.
  apply bind_Some in Hc as (c & Hc1 & (p & Hc2 & Hl)%bind_Some).
  by rewrite Hc1, bind_Some_eq, Hc2, bind_Some_eq, Hl.
Qed.

Lemma longlong2str_render val radix : is_s64 val -> 2 <= Z.abs radix <= 36 ->
  longlong2str val radix = Some (Some (render true (radix <? 0) (Z.abs radix) val)).
Proof.
  intros Hv Hr. unfold longlong2str. destruct (take_sign_ok val radix Hv Hr) as (sign & val' & -> & Hv' & Hren).
  rewrite <- Hren. destruct (Z.eqb_spec val' 0) as [->|Hz]; [done|].
  pose proof (ll_core (Z.abs radix) val' Hr Hv' Hz) as Hc.
  apply bind_Some in Hc as ([lv p] & -> & Hl). by rewrite bind_Some_eq, Hl.
Qed.

Lemma longlong10_to_str_render val radix : is_s64 val ->
  longlong10_to_str val radix = Some (render true (radix <? 0) 10 val).
Proof.
  intros Hv. unfold longlong10_to_str, render.
  assert (forall v sign, is_s64 v ->
    (if v =? 0 then Some (sign ++ [char_0]) else
      '(long_val, p) ← ull_loop 65 10 v [];
      p ← long_loop 65 dig_vec_upper 10 long_val p;
      Some (sign ++ p)) = Some (sign ++ (dig_char true <$> digits 10 (u64 v)))) as G.
  { intros v sign Hs. destruct (Z.eqb_spec v 0) as [->|Hz]; [done|].
    pose proof (ll_core 10 v ltac:(lia) Hs Hz) as Hc.
    apply bind_Some in Hc as ([lv p] & -> & Hl). by rewrite bind_Some_eq, Hl. }
  destruct (radix <? 0); cbn [andb]; [|by apply (G val [])].
  destruct (Z.ltb_spec val 0); [|by apply (G val [])].
  rewrite G by apply s64_range. rewrite s64_opp by lia. done.
Qed.

Lemma int10_to_str_render val radix : is_s64 val ->
  int10_to_str val radix = Some (render true (radix <? 0) 10 val).
Proof.
  intros Hv. unfold int10_to_str, render.
  assert (forall v sign, is_s64 v ->
    (p ← push (char_0 + s8 (u64 v - u64 (s64 (u64 v / 10)) * 10)) [];
     p ← long10_loop 65 (s64 (u64 v / 10)) p;
     Some (sign ++ p)) = Some (sign ++ (dig_char true <$> digits 10 (u64 v)))) as G.
  { intros v sign Hs. pose proof (int_core true 10 v ltac:(lia) Hs) as Hc.
    pose proof (u64_range v). rewrite (u64_small 10) in Hc by lia.
    assert (0 <= u64 v / 10 < 2 ^ 63) by dlia.
    rewrite s64_small, (u64_small (u64 v / 10)) in * by lia.
    replace (u64 v - u64 v / 10 * 10) with (u64 v mod 10) in * by dlia.
    pose proof (Z.mod_pos_bound (u64 v) 10 ltac:(lia)).
    rewrite u8_small, dig_lookup, bind_Some_eq in Hc by lia.
    rewrite char_dig by lia. apply bind_Some in Hc as (p & -> & Hl).
    rewrite bind_Some_eq, long10_long by lia. change dig_vec_upper with (dig_vec true). by rewrite Hl. }
  destruct (radix <? 0); cbn [andb]; [|by apply (G val [])].
  destruct (Z.ltb_spec val 0); [|by apply (G val [])].
  rewrite G by apply s64_range. rewrite s64_opp by lia. done.
Qed.

(** C39: [int2str] with a radix of absolute value 2 to 36 writes the sign and
    the digits, in that radix, of the value (signed for a negative radix,
    unsigned for a positive one, LONG_MIN included): the digits denote the
    value, there are 1 to 64 of them, so the buffer of 65 bytes is never
    exceeded, and there is no leading zero. *)
Theorem int2str_correct val radix up : is_s64 val -> 2 <= Z.abs radix <= 36 ->
  exists ds, let neg := (radix <? 0) && (val <? 0) in
    int2str val radix up =
      Some (Some ((if neg then [minus_sign] else []) ++ (dig_char up <$> ds))) /\
    value (Z.abs radix) ds = (if neg then - val else u64 val) /\
    (1 <= length ds <= 64)%nat /\ Forall (fun d => 0 <= d < Z.abs radix) ds /\
    (head ds = Some 0 -> ds = [0]).
Proof.
  intros Hv Hr. rewrite int2str_render by done. unfold render.
  destruct ((radix <? 0) && (val <? 0)) eqn:E.
  - b2p. exists (digits (Z.abs radix) (- val)). split; [done|]. apply digits_spec; lia.
  - exists (digits (Z.abs radix) (u64 val)). split; [done|]. apply digits_spec; [lia|apply u64_range].
Qed.

(** The other conversions agree with [int2str]: [longlong2str] at every good
    radix with upper-case digits, and the two routines optimised for base ten,
    which look only at the sign of their radix; a bad radix gives [NullS]
    from both general conversions and writes nothing. *)
Theorem int_conversions_agree val radix up : is_s64 val ->
  (2 <= Z.abs radix <= 36 -> longlong2str val radix = int2str val radix true) /\
  (Some <$> longlong10_to_str val radix) = int2str val (if radix <? 0 then -10 else 10) true /\
  (Some <$> int10_to_str val radix) = int2str val (if radix <? 0 then -10 else 10) true /\
  (~ 2 <= Z.abs radix <= 36 -> int2str val radix up = Some None /\ longlong2str val radix = Some None).
Proof.
  intros Hv. split; [|split; [|split]].
  - intros Hr. by rewrite longlong2str_render, int2str_render.
  - rewrite longlong10_to_str_render by done. rewrite int2str_render by (destruct (radix <? 0); done).
    by destruct (radix <? 0).
  - rewrite int10_to_str_render by done. rewrite int2str_render by (destruct (radix <? 0); done).
    by destruct (radix <? 0).
  - intros Hbad. unfold int2str, longlong2str, take_sign.
    destruct (Z.ltb_spec radix 0).
    + assert ((radix <? -36) || (-2 <? radix) = true) as -> by lia. done.
    + assert ((36 <? radix) || (radix <? 2) = true) as -> by lia. done.
Qed.

Lemma int2str_correct_witness :
  exists ds, int2str (- 2 ^ 63) (-10) false = Some (Some (minus_sign :: (dig_char false <$> ds))) /\
    value 10 ds = 2 ^ 63 /\ (1 <= length ds <= 64)%nat /\ Forall (fun d => 0 <= d < 10) ds /\
    (head ds = Some 0 -> ds = [0]).
Proof. apply (int2str_correct (- 2 ^ 63) (-10) false); [lia|simpl; lia]. Defined.

Lemma int_conversions_agree_witness :
  (2 <= 16 <= 36 -> longlong2str (-1) 16 = int2str (-1) 16 true) /\
  (Some <$> longlong10_to_str (-1) 16) = int2str (-1) 10 true /\
  (Some <$> int10_to_str (-1) 16) = int2str (-1) 10 true /\
  (~ 2 <= 16 <= 36 -> int2str (-1) 16 false = Some None /\ longlong2str (-1) 16 = Some None).
Proof. apply (int_conversions_agree (-1) 16 false). lia. Defined.
