(* ===== verification/StrToLL.v ===== *)
(** * Strings to integers (strings/my_strtoll10.c)

    A string is the list of its bytes; pointers into it are offsets.  The
    result of [my_strtoll10] is the returned value, the offset stored in
    [*endptr] and the error code; [None] is a read outside the string. *)

From stdpp Require Import base numbers list.
From Stdlib Require Import ZArith Lia.
From S2P Require Import Prelude IntStr.

Local Open Scope Z_scope.

(** ** Constants *)

Definition ULONGLONG_MAX : Z := 2 ^ 64 - 1.
Definition LONGLONG_MIN : Z := - 2 ^ 63.
Definition MAX_NEGATIVE_NUMBER : Z := 0x8000000000000000.
Definition INIT_CNT : Z := 9.
Definition LFACTOR : Z := 1000000000.
Definition LFACTOR1 : Z := 10000000000.
Definition LFACTOR2 : Z := 100000000000.
Definition lfactor : list Z := [1; 10; 100; 1000; 10000; 100000; 1000000; 10000000; 100000000].
Definition MY_ERRNO_EDOM : Z := 33.
Definition MY_ERRNO_ERANGE : Z := 34.

(** ** Pieces of the function *)

Definition ch (str : list Z) (s : Z) : option Z := str !! Z.to_nat s.

Definition is_blank (c : Z) : bool := (c =? 32) || (c =? 9).

(** [while (s != end && ( *s == ' ' || *s == '\t')) s++;] *)
Fixpoint skip_blank (fuel : nat) (str : list Z) (end_ : option Z) (s : Z) : option Z :=
  match fuel with
  | O => None
  | S fuel =>
      if (match end_ with Some e => s =? e | None => false end) then Some s
      else
        c ← ch str s;
        if is_blank c then skip_blank fuel str end_ (s + 1) else Some s
  end.

(** [do { if (++s == end) goto end_i; } while ( *s == '0');]: the offset, and
    whether the end was reached. *)
Fixpoint skip_zero (fuel : nat) (str : list Z) (end_ s : Z) : option (Z * bool) :=
  match fuel with
  | O => None
  | S fuel =>
      let s := s + 1 in
      if s =? end_ then Some (s, true)
      else
        c ← ch str s;
        if c =? 48 then skip_zero fuel str end_ s else Some (s, false)
  end.

(** [for (; s != n_end; s++) { if ((c = ( *s - '0')) > 9) goto ...; i = i * 10 + c; }]:
    the offset, the number and whether the loop left at a character that is no
    digit.  The [do ... while] over the second nine digits is entered with
    [s != n_end] and is the same loop. *)
Fixpoint read_digits (fuel : nat) (str : list Z) (n_end s acc : Z) : option (Z * Z * bool) :=
  match fuel with
  | O => None
  | S fuel =>
      if s =? n_end then Some (s, acc, false)
      else
        x ← ch str s;
        let c := u8 (x - 48) in
        if 9 <? c then Some (s, acc, true)
        else read_digits fuel str n_end (s + 1) (u64 (acc * 10 + c))
  end.

(** The exits of the function. *)
Definition negate_if (negative : bool) (li : Z) : Z :=
  if negative then s64 (- s64 li) else s64 li.
Definition err_of (negative : bool) : Z := if negative then -1 else 0.

Definition no_conv : option (Z * Z * Z) := Some (0, 0, MY_ERRNO_EDOM).
Definition overflow (negative : bool) (s : Z) : option (Z * Z * Z) :=
  Some (if negative then LONGLONG_MIN else s64 ULONGLONG_MAX, s, MY_ERRNO_ERANGE).
Definition end_i (negative : bool) (i s : Z) : option (Z * Z * Z) :=
  Some (negate_if negative i, s, err_of negative).
Definition end_i_and_j (negative : bool) (i j s start : Z) : option (Z * Z * Z) :=
  f ← lfactor !! Z.to_nat (u32 (s - start));
  Some (negate_if negative (u64 (i * f + j)), s, err_of negative).
Definition end3 (negative : bool) (i j s : Z) : option (Z * Z * Z) :=
  Some (negate_if negative (u64 (i * LFACTOR + j)), s, err_of negative).
Definition end4 (negative : bool) (i j k s : Z) : option (Z * Z * Z) :=
  let li := u64 (i * LFACTOR1 + j * 10 + k) in
  if negative then
    if MAX_NEGATIVE_NUMBER <? li then overflow negative s
    else Some (s64 (- s64 li), s, err_of negative)
  else Some (s64 li, s, err_of negative).

Definition cutoffs (negative : bool) : Z * Z * Z :=
  if negative then
    (MAX_NEGATIVE_NUMBER / LFACTOR2, (MAX_NEGATIVE_NUMBER mod LFACTOR2) / 100, MAX_NEGATIVE_NUMBER mod 100)
  else (ULONGLONG_MAX / LFACTOR2, ULONGLONG_MAX mod LFACTOR2 / 100, ULONGLONG_MAX mod 100).

(** After the second nine digits: the next one or two, and the overflow test. *)
Definition last_digits (str : list Z) (end_ : Z) (negative : bool) (i j s : Z) : option (Z * Z * Z) :=
  let '(cutoff, cutoff2, cutoff3) := cutoffs negative in
  x ← ch str s;
  let c := u8 (x - 48) in
  if 9 <? c then end3 negative i j s
  else
    let k := c in
    let s := s + 1 in
    if s =? end_ then end4 negative i j k s
    else
      x ← ch str s;
      let c := u8 (x - 48) in
      if 9 <? c then end4 negative i j k s
      else
        let k := u64 (k * 10 + c) in
        let s := s + 1 in
        more ← (if s =? end_ then Some false
                else x ← ch str s; Some (u8 (x - 48) <=? 9));
        if (more : bool) then overflow negative s
        else if (cutoff <? i) ||
                ((i =? cutoff) && (((cutoff2 <? j) || (j =? cutoff2)) && (cutoff3 <? k)))
        then overflow negative s
        else Some (s64 (u64 (i * LFACTOR2 + j * 100 + k)), s, err_of negative).

(** The second nine digits. *)
Definition next_digits (str : list Z) (end_ : Z) (negative : bool) (i s : Z) : option (Z * Z * Z) :=
  if s =? end_ then end_i negative i s
  else
    let start := s in
    let true_end := s + INIT_CNT in
    let n_end := if end_ <? true_end then end_ else true_end in
    '(s, j, stop) ← read_digits 10 str n_end s 0;
    if (stop : bool) then end_i_and_j negative i j s start
    else if s =? end_ then
      if negb (s =? true_end) then end_i_and_j negative i j s start else end3 negative i j s
    else last_digits str end_ negative i j s.

(** From the first character after the sign. *)
Definition after_sign (str : list Z) (end_ : Z) (negative : bool) (s : Z) : option (Z * Z * Z) :=
  x ← ch str s;
  r ← (if x =? 48 then
         '(s, at_end) ← skip_zero (S (length str)) str end_ s;
         Some (if (at_end : bool) then inl (end_i negative 0 s) else inr (0, s, s + INIT_CNT))
       else
         let c := u8 (x - 48) in
         if 9 <? c then Some (inl no_conv)
         else Some (inr (c, s + 1, s + 1 + INIT_CNT - 1)));
  match r with
  | inl result => result
  | inr (i, s, n_end) =>
      let n_end := if end_ <? n_end then end_ else n_end in
      '(s, i, stop) ← read_digits 10 str n_end s i;
      if (stop : bool) then end_i negative i s else next_digits str end_ negative i s
  end.

(** ** The function

    [endptr] is the offset of the end of a string of fixed length, or [None]
    for a NUL-terminated string. *)
Definition my_strtoll10 (str : list Z) (endptr : option Z) : option (Z * Z * Z) :=
  s ← skip_blank (S (length str)) str endptr 0;
  r ← (match endptr with
       | Some e => Some (if s =? e then None else Some e)
       | None => c ← ch str s; Some (if c =? 0 then None else Some (s + 65535))
       end);
  match r with
  | None => no_conv
  | Some end_ =>
      c ← ch str s;
      if c =? 45 then
        if s + 1 =? end_ then no_conv else after_sign str end_ true (s + 1)
      else if c =? 43 then
        if s + 1 =? end_ then no_conv else after_sign str end_ false (s + 1)
      else after_sign str end_ false s
  end.

Example strtoll10_ex1 : my_strtoll10 [32; 45; 48; 49; 50; 88] (Some 6) = Some (-12, 5, -1).
Proof. reflexivity. Qed.
Example strtoll10_ex2 :
  my_strtoll10 ([49; 56; 52; 52; 54; 55; 52; 52; 48; 55; 51; 55; 48; 57; 53; 53; 49; 54; 49; 53; 0]) None
    = Some (-1, 20, 0).
Proof. reflexivity. Qed.

(** ** Theory *)

(** The number read from digits [ds] after [a]. *)
Definition vfrom (a : Z) (ds : list Z) : Z := foldl (fun a d => a * 10 + d) a ds.

Definition is_digit (d : Z) : Prop := 0 <= d < 10.

Lemma vfrom_value a ds : vfrom a ds = a * 10 ^ Z.of_nat (length ds) + value 10 ds.
Proof.
  induction ds as [|d ds IH] using rev_ind; [simpl; unfold vfrom, value; simpl; lia|].
  unfold vfrom in *. rewrite foldl_app, value_app, IH, length_app. simpl foldl. simpl length.
  replace (length ds + 1)%nat with (S (length ds)) by lia.
  rewrite Nat2Z.inj_succ, Z.pow_succ_r by lia. lia.
Qed.

Lemma value_bound ds : Forall is_digit ds -> 0 <= value 10 ds < 10 ^ Z.of_nat (length ds).
Proof.
  induction ds as [|d ds IH] using rev_ind; [done|].
  intros [H1 H2]%Forall_app. inversion_clear H2 as [|? ? Hd _]. unfold is_digit in Hd.
  specialize (IH H1). rewrite value_app, length_app. simpl length.
  replace (length ds + 1)%nat with (S (length ds)) by lia.
  rewrite Nat2Z.inj_succ, Z.pow_succ_r by lia. lia.
Qed.

Lemma value_split l1 l2 : value 10 (l1 ++ l2) = value 10 l1 * 10 ^ Z.of_nat (length l2) + value 10 l2.
Proof. rewrite <- (vfrom_value (value 10 l1) l2). unfold value, vfrom. by rewrite foldl_app. Qed.

(** A value without leading zero has as many digits as it needs. *)
Lemma value_lower d ds : is_digit d -> d <> 0 -> Forall is_digit ds ->
  10 ^ Z.of_nat (length ds) <= value 10 (d :: ds).
Proof.
  intros Hd Hz Hds. change (d :: ds) with ([d] ++ ds). rewrite value_split.
  pose proof (value_bound ds Hds). unfold is_digit in Hd. unfold value at 1. simpl foldl. nia.
Qed.

(** The string has the digits [ds] at offset [s]. *)
Definition digs (str : list Z) (s : Z) (ds : list Z) : Prop :=
  Forall is_digit ds /\ forall k d, ds !! k = Some d -> ch str (s + Z.of_nat k) = Some (48 + d).

(** The digits end at [e]: the end of the string or another character. *)
Definition stops (str : list Z) (end_ e : Z) : Prop :=
  e = end_ \/ e < end_ /\ exists c, ch str e = Some c /\ 9 < u8 (c - 48) /\ c <> 48.

Lemma digs_app str s l1 l2 : digs str s (l1 ++ l2) <->
  digs str s l1 /\ digs str (s + Z.of_nat (length l1)) l2.
Proof.
  unfold digs. rewrite Forall_app. split.
  - intros [[F1 F2] H]. split; split; auto; intros k d Hk.
    + apply H. by apply lookup_app_l_Some.
    + specialize (H (length l1 + k)%nat d). rewrite lookup_app_r in H by lia.
      replace (length l1 + k - length l1)%nat with k in H by lia.
      rewrite <- H by done. f_equal. lia.
  - intros [[F1 H1] [F2 H2]]. split; [done|]. intros k d Hk.
    apply lookup_app_Some in Hk as [Hk|[Hl Hk]]; [by apply H1|].
    rewrite <- (H2 _ _ Hk). f_equal. lia.
Qed.

Lemma digs_cons str s d ds : digs str s (d :: ds) <->
  is_digit d /\ ch str s = Some (48 + d) /\ digs str (s + 1) ds.
Proof.
  change (d :: ds) with ([d] ++ ds). rewrite digs_app. simpl length. split.
  - intros [[F H] H2]. inversion_clear F. split; [done|]. split; [|done].
    specialize (H 0%nat d eq_refl). by rewrite Z.add_0_r in H.
  - intros (Hd & Hc & H2). split; [|done]. split; [by constructor|].
    intros [|k] d' Hk; [|done]. injection Hk as <-. by rewrite Z.add_0_r.
Qed.

Lemma digit_u8 d : is_digit d -> u8 (48 + d - 48) = d.
Proof. unfold is_digit. intros. rewrite u8_small; lia. Qed.

Lemma read_digits_spec str ds s n_end end_ acc fuel : 0 <= acc -> digs str s ds ->
  s + Z.of_nat (length ds) <= n_end <= end_ -> stops str end_ (s + Z.of_nat (length ds)) \/ s + Z.of_nat (length ds) = n_end ->
  (length ds < fuel)%nat -> vfrom acc ds < 2 ^ 64 ->
  read_digits fuel str n_end s acc =
    Some (s + Z.of_nat (length ds), vfrom acc ds, negb (s + Z.of_nat (length ds) =? n_end)).
Proof.
  revert s acc fuel. induction ds as [|d ds IH]; intros s acc fuel Ha Hd He Hs Hf Hv;
    (destruct fuel as [|fuel]; [lia|]); cbn [read_digits].
  - simpl length in *. rewrite !Z.add_0_r in *. destruct (Z.eqb_spec s n_end) as [|Hne]; [done|].
    destruct Hs as [[->|(Hlt & c & Hc & Hn & _)]|]; [lia| |lia].
    rewrite Hc, bind_Some_eq. destruct (Z.ltb_spec 9 (u8 (c - 48))); [done|lia].
  - apply digs_cons in Hd as (Hd & Hc & Hds). simpl length in *.
    destruct (Z.eqb_spec s n_end) as [|Hne]; [lia|].
    rewrite Hc, bind_Some_eq. cbv zeta. rewrite digit_u8 by done. unfold is_digit in Hd.
    destruct (Z.ltb_spec 9 d); [lia|].
    replace (s + Z.of_nat (S (length ds))) with (s + 1 + Z.of_nat (length ds)) in * by lia.
    assert (u64 (acc * 10 + d) = acc * 10 + d) as ->.
    { apply u64_small. split; [lia|]. eapply Z.le_lt_trans; [|exact Hv].
      unfold vfrom. simpl foldl. fold (vfrom (acc * 10 + d) ds). rewrite vfrom_value.
      pose proof (value_bound ds (proj1 Hds)). nia. }
    rewrite IH by (auto; lia). done.
Qed.

Lemma lfactor_pow k : (k < 9)%nat -> lfactor !! k = Some (10 ^ Z.of_nat k).
Proof. intros H. do 9 (destruct k as [|k]; [reflexivity|]). lia. Qed.

(** A character that ends the digits, where the string goes on. *)
Lemma stops_char str end_ e : stops str end_ e -> e <> end_ ->
  exists c, ch str e = Some c /\ (9 <? u8 (c - 48)) = true.
Proof. intros [->|(_ & c & Hc & Hn & _)] Hne; [lia|]. exists c. split; [done|]. lia. Qed.

(** What the second half of the function makes of nine digits [i] (or fewer
    with none after them) and the digits [ds] after them, ending at [e]. *)
Definition rest_result (negative : bool) (i : Z) (ds : list Z) (e : Z) : option (Z * Z * Z) :=
  let v := i * 10 ^ Z.of_nat (length ds) + value 10 ds in
  let '(cutoff, cutoff2, cutoff3) := cutoffs negative in
  if (length ds <=? 9)%nat then Some (negate_if negative v, e, err_of negative)
  else if (length ds =? 10)%nat then
    if negative && (MAX_NEGATIVE_NUMBER <? v) then overflow negative e
    else Some (negate_if negative v, e, err_of negative)
  else if (length ds =? 11)%nat then
    let j := value 10 (take 9 ds) in
    let k := value 10 (drop 9 ds) in
    if (cutoff <? i) || ((i =? cutoff) && (((cutoff2 <? j) || (j =? cutoff2)) && (cutoff3 <? k)))
    then overflow negative e
    else Some (s64 (u64 v), e, err_of negative)
  else overflow negative (e - Z.of_nat (length ds) + 11).

Lemma last_digits_spec str end_ negative i d9 tl s :
  0 <= i < 10 ^ 9 -> 0 <= s -> length d9 = 9%nat -> Forall is_digit d9 -> digs str (s + 9) tl ->
  s + 9 + Z.of_nat (length tl) <= end_ -> stops str end_ (s + 9 + Z.of_nat (length tl)) ->
  s + 9 <> end_ ->
  last_digits str end_ negative i (value 10 d9) (s + 9) =
    rest_result negative i (d9 ++ tl) (s + 9 + Z.of_nat (length tl)).
Proof.
  intros Hi Hs Hl9 Hd9 Htl Hle Hst Hne. unfold last_digits, rest_result.
  pose proof (value_bound d9 Hd9) as Hj. rewrite Hl9 in Hj. change (10 ^ Z.of_nat 9) with (10 ^ 9) in Hj.
  rewrite length_app, Hl9, value_split, take_app_length', drop_app_length' by done.
  destruct (cutoffs negative) as [[c1 c2] c3]. destruct tl as [|k1 [|k2 tl]]; simpl length in *.
  - rewrite Z.add_0_r in *. destruct (stops_char _ _ _ Hst Hne) as (c & -> & Hc).
    rewrite bind_Some_eq. cbv zeta. rewrite Hc. unfold end3. cbn [Nat.add Nat.leb].
    unfold LFACTOR. change (value 10 []) with 0. change (10 ^ Z.of_nat (9 + 0)) with 1000000000.
    change (10 ^ Z.of_nat 0) with 1. rewrite Z.mul_1_r, Z.add_0_r, u64_small by lia. done.
  - apply digs_cons in Htl as (Hk1 & -> & _). rewrite bind_Some_eq. cbv zeta. rewrite digit_u8 by done.
    unfold is_digit in Hk1. destruct (Z.ltb_spec 9 k1); [lia|]. cbn [Nat.add Nat.leb Nat.eqb].
    change (Z.of_nat 1) with 1 in *.
    assert (end4 negative i (value 10 d9) k1 (s + 9 + 1) =
      (if negative && (MAX_NEGATIVE_NUMBER <? i * 10 ^ Z.of_nat 10 + (value 10 d9 * 10 ^ Z.of_nat 1 + value 10 [k1]))
       then overflow negative (s + 9 + 1)
       else Some (negate_if negative (i * 10 ^ Z.of_nat 10 + (value 10 d9 * 10 ^ Z.of_nat 1 + value 10 [k1])),
                  s + 9 + 1, err_of negative))) as ->.
    { unfold end4, negate_if, LFACTOR1. cbv zeta. change (value 10 [k1]) with k1.
      change (10 ^ Z.of_nat 10) with 10000000000. change (10 ^ Z.of_nat 1) with 10.
      rewrite u64_small by lia. rewrite <- !Z.add_assoc. destruct negative; [|done]. cbn [andb]. by case_if. }
    destruct (Z.eqb_spec (s + 9 + 1) end_); [done|].
    destruct (stops_char _ _ _ Hst ltac:(done)) as (c & -> & Hc). by rewrite bind_Some_eq, Hc.
  - apply digs_cons in Htl as (Hk1 & -> & Htl). apply digs_cons in Htl as (Hk2 & Hc2 & Htl).
    rewrite bind_Some_eq. cbv zeta. rewrite digit_u8 by done.
    unfold is_digit in *. destruct (Z.ltb_spec 9 k1); [lia|].
    destruct (Z.eqb_spec (s + 9 + 1) end_); [lia|]. rewrite Hc2, bind_Some_eq, digit_u8 by done.
    destruct (Z.ltb_spec 9 k2); [lia|]. rewrite (u64_small (k1 * 10 + k2)) by lia.
    destruct tl as [|k3 tl]; simpl length in *.
    + cbn [Nat.add Nat.leb Nat.eqb]. change (Z.of_nat 2) with 2 in *.
      replace (s + 9 + 1 + 1) with (s + 9 + 2) by lia.
      assert ((if s + 9 + 2 =? end_ then Some false
               else x ← ch str (s + 9 + 2); Some (u8 (x - 48) <=? 9)) = Some false) as ->.
      { destruct (Z.eqb_spec (s + 9 + 2) end_) as [|Hn]; [done|].
        destruct (stops_char _ _ _ Hst Hn) as (c & -> & Hc). rewrite bind_Some_eq. f_equal. lia. }
      rewrite bind_Some_eq. change (value 10 [k1; k2]) with (k1 * 10 + k2). case_if; [done|].
      do 3 f_equal. f_equal. f_equal. unfold LFACTOR2. change (10 ^ Z.of_nat 11) with 100000000000.
      change (10 ^ Z.of_nat 2) with 100. lia.
    + apply digs_cons in Htl as (Hk3 & Hc3 & Htl).
      destruct (Z.eqb_spec (s + 9 + 1 + 1) end_); [lia|]. rewrite Hc3, !bind_Some_eq, digit_u8 by done.
      unfold is_digit in *. destruct (Z.leb_spec k3 9); [|lia]. cbn [Nat.add Nat.leb Nat.eqb].
      f_equal. lia.
Qed.

Lemma vfrom_0 ds : vfrom 0 ds = value 10 ds.
Proof. done. Qed.

Lemma value_lt_u64 a ds : 0 <= a < 10 -> Forall is_digit ds -> (length ds <= 9)%nat -> vfrom a ds < 2 ^ 64.
Proof.
  intros Ha Hd Hl. rewrite vfrom_value. pose proof (value_bound ds Hd).
  assert (10 ^ Z.of_nat (length ds) <= 10 ^ 9) by (apply Z.pow_le_mono_r; lia). nia.
Qed.

Lemma digs_digits str s ds : digs str s ds -> Forall is_digit ds.
Proof. by intros [? _]. Qed.

(** Fewer than nine digits after the first nine. *)
Lemma end_i_and_j_spec negative i ds s e :
  0 <= i < 10 ^ 9 -> Forall is_digit ds -> (length ds < 9)%nat -> e = s + Z.of_nat (length ds) ->
  end_i_and_j negative i (value 10 ds) e s = rest_result negative i ds e.
Proof.
  intros Hi Hd Hl ->. unfold end_i_and_j, rest_result.
  replace (s + Z.of_nat (length ds) - s) with (Z.of_nat (length ds)) by lia.
  rewrite u32_small, Nat2Z.id, lfactor_pow, bind_Some_eq by lia.
  destruct (cutoffs negative) as [[c1 c2] c3]. rewrite (proj2 (Nat.leb_le _ _)) by lia.
  pose proof (value_bound ds Hd).
  assert (10 ^ Z.of_nat (length ds) <= 10 ^ 9) by (apply Z.pow_le_mono_r; lia).
  rewrite u64_small by nia. done.
Qed.

Lemma next_digits_spec str end_ negative i ds s :
  0 <= i < 10 ^ 9 -> 0 <= s -> digs str s ds ->
  s + Z.of_nat (length ds) <= end_ -> stops str end_ (s + Z.of_nat (length ds)) ->
  next_digits str end_ negative i s = rest_result negative i ds (s + Z.of_nat (length ds)).
Proof.
  intros Hi Hs Hd Hle Hst. unfold next_digits, INIT_CNT. pose proof (digs_digits _ _ _ Hd) as Hdd.
  destruct (Z.eqb_spec s end_) as [->|Hne].
  { destruct ds as [|d ds]; [|simpl in Hle; lia]. unfold end_i, rest_result. simpl length.
    destruct (cutoffs negative) as [[c1 c2] c3]. cbn [Nat.leb]. change (10 ^ Z.of_nat 0) with 1.
    change (value 10 []) with 0. by rewrite Z.mul_1_r, !Z.add_0_r. }
  destruct (decide (length ds < 9)%nat) as [Hl|Hl].
  - remember (if end_ <? s + 9 then end_ else s + 9) as n_end eqn:En.
    assert (n_end = Z.min end_ (s + 9)) as -> by (subst n_end; case_if; lia). clear En.
    rewrite (read_digits_spec str ds s _ end_ 0) by
      (auto; try lia; apply value_lt_u64; auto; lia).
    rewrite vfrom_0, bind_Some_eq.
    destruct (Z.eqb_spec (s + Z.of_nat (length ds)) (Z.min end_ (s + 9))); cbn [negb];
      [|by apply end_i_and_j_spec].
    destruct (Z.eqb_spec (s + Z.of_nat (length ds)) end_); [|lia].
    destruct (Z.eqb_spec (s + Z.of_nat (length ds)) (s + 9)); [lia|]. by apply end_i_and_j_spec.
  - rewrite <- (take_drop 9 ds) in Hd. apply digs_app in Hd as [Hd1 Hd2].
    assert (length (take 9 ds) = 9%nat) as H9 by (rewrite length_take; lia). rewrite H9 in Hd2.
    assert (length (drop 9 ds) = (length ds - 9)%nat) as Hldrop by apply length_drop.
    destruct (Z.ltb_spec end_ (s + 9)); [lia|].
    rewrite (read_digits_spec str (take 9 ds) s (s + 9) end_ 0); rewrite ?H9; auto; try lia;
      [|apply value_lt_u64; [lia|exact (proj1 Hd1)|lia]].
    rewrite vfrom_0, bind_Some_eq. change (Z.of_nat 9) with 9. rewrite Z.eqb_refl. cbn [negb].
    destruct (Z.eqb_spec (s + 9) end_) as [He|He].
    + assert (take 9 ds = ds) as Ht by (apply take_ge; lia). rewrite Ht in *.
      unfold end3, rest_result. rewrite H9.
      destruct (cutoffs negative) as [[c1 c2] c3]. cbn [Nat.leb]. unfold LFACTOR.
      pose proof (value_bound _ Hdd) as Hb. rewrite H9 in Hb.
      change (10 ^ Z.of_nat 9) with 1000000000 in *. rewrite u64_small by lia. done.
    + change (Z.of_nat 9) with 9 in Hd2.
      rewrite (last_digits_spec str end_ negative i (take 9 ds) (drop 9 ds) s); auto;
        try exact (proj1 Hd1); try lia.
      * rewrite take_drop, Hldrop. f_equal. lia.
      * rewrite Hldrop. replace (s + 9 + Z.of_nat (length ds - 9)) with (s + Z.of_nat (length ds)) by lia. done.
Qed.

(** ** Leading zeros, the sign and blanks *)

Lemma ch_lt str s c : ch str s = Some c -> (Z.to_nat s < length str)%nat.
Proof. apply lookup_lt_Some. Qed.

Lemma skip_zero_spec str end_ z sig s fuel :
  digs str s (replicate (S z) 0 ++ sig) -> head sig <> Some 0 -> (z < fuel)%nat ->
  s + Z.of_nat (S z + length sig) <= end_ -> stops str end_ (s + Z.of_nat (S z + length sig)) ->
  skip_zero fuel str end_ s = Some (s + Z.of_nat (S z), s + Z.of_nat (S z) =? end_).
Proof.
  revert s fuel. induction z as [|z IH]; intros s fuel Hd Hh Hf Hle Hst;
    (destruct fuel as [|fuel]; [lia|]); cbn [skip_zero];
    apply digs_cons in Hd as (_ & _ & Hd).
  - change (Z.of_nat 1) with 1 in *. destruct (Z.eqb_spec (s + 1) end_) as [|Hne]; [done|].
    destruct sig as [|d sig].
    + simpl length in Hst. change (Z.of_nat (1 + 0)) with 1 in Hst.
      destruct Hst as [|(_ & c & -> & _ & Hc)]; [lia|]. rewrite bind_Some_eq.
      by rewrite (proj2 (Z.eqb_neq c 48)).
    + cbn [replicate app] in Hd. apply digs_cons in Hd as (Hd & -> & _). rewrite bind_Some_eq.
      destruct (Z.eqb_spec (48 + d) 48); [|done]. destruct Hh. simpl. f_equal. lia.
  - destruct (Z.eqb_spec (s + 1) end_) as [|Hne]; [lia|].
    pose proof Hd as Hd'. cbn [replicate app] in Hd'. apply digs_cons in Hd' as (_ & -> & _). rewrite bind_Some_eq.
    change (48 + 0 =? 48) with true. cbv iota.
    rewrite IH; auto; [| lia | lia |].
    + replace (s + 1 + Z.of_nat (S z)) with (s + Z.of_nat (S (S z))) by lia. done.
    + by replace (s + 1 + Z.of_nat (S z + length sig)) with (s + Z.of_nat (S (S z) + length sig)) by lia.
Qed.

(** At most nine digits, read by the first loop from [a], with the rest. *)
Lemma first_digits_spec str end_ negative a ds s : 0 <= a < 10 -> 0 <= s ->
  digs str s ds -> s + Z.of_nat (length ds) <= end_ -> stops str end_ (s + Z.of_nat (length ds)) ->
  forall m, (m <= 9)%nat -> vfrom a (take m ds) < 10 ^ 9 ->
  ('(s, i, stop) ← read_digits 10 str (if end_ <? s + Z.of_nat m then end_ else s + Z.of_nat m) s a;
   if (stop : bool) then end_i negative i s else next_digits str end_ negative i s) =
  rest_result negative (vfrom a (take m ds)) (drop m ds) (s + Z.of_nat (length ds)).
Proof.
  intros Ha Hs Hd Hle Hst m Hm Hv.
  assert ((if end_ <? s + Z.of_nat m then end_ else s + Z.of_nat m) = Z.min end_ (s + Z.of_nat m)) as ->
    by (case_if; lia).
  rewrite <- (take_drop m ds) in Hd. apply digs_app in Hd as [Hd1 Hd2].
  assert (length (take m ds) = (m `min` length ds)%nat) as Hlt by apply length_take.
  assert (length (drop m ds) = (length ds - m)%nat) as Hld by apply length_drop.
  assert (0 <= vfrom a (take m ds)).
  { rewrite vfrom_value. pose proof (value_bound _ (proj1 Hd1)). lia. }
  rewrite (read_digits_spec str (take m ds) s _ end_ a); auto; try lia.
  2:{ rewrite Hlt. destruct (decide (m <= length ds)%nat); [right; lia|left].
      by replace (m `min` length ds)%nat with (length ds) by lia. }
  rewrite bind_Some_eq. destruct (Z.eqb_spec (s + Z.of_nat (length (take m ds))) (Z.min end_ (s + Z.of_nat m))) as [He|He];
    cbn [negb].
  - replace (s + Z.of_nat (length ds)) with
      (s + Z.of_nat (length (take m ds)) + Z.of_nat (length (drop m ds))) in * by lia.
    apply next_digits_spec; auto; lia.
  - rewrite drop_ge by lia. unfold end_i, rest_result. destruct (cutoffs negative) as [[c1 c2] c3]. simpl length.
    cbn [Nat.leb]. change (10 ^ Z.of_nat 0) with 1. change (value 10 []) with 0.
    rewrite Z.mul_1_r, Z.add_0_r, Hlt. by replace (m `min` length ds)%nat with (length ds) by lia.
Qed.

Lemma value_take9 a ds : 0 <= a < 10 -> Forall is_digit ds -> vfrom a (take 8 ds) < 10 ^ 9.
Proof.
  intros Ha Hd. rewrite vfrom_value. pose proof (value_bound (take 8 ds) (Forall_take _ _ _ Hd)).
  assert (10 ^ Z.of_nat (length (take 8 ds)) <= 10 ^ 8) by
    (apply Z.pow_le_mono_r; [lia|rewrite length_take; lia]). nia.
Qed.

Lemma value_take9_0 ds : Forall is_digit ds -> vfrom 0 (take 9 ds) < 10 ^ 9.
Proof.
  intros Hd. rewrite vfrom_value. pose proof (value_bound (take 9 ds) (Forall_take _ _ _ Hd)).
  assert (10 ^ Z.of_nat (length (take 9 ds)) <= 10 ^ 9) by
    (apply Z.pow_le_mono_r; [lia|rewrite length_take; lia]). lia.
Qed.

Lemma after_sign_spec str end_ negative z sig s : 0 <= s ->
  digs str s (replicate z 0 ++ sig) -> head sig <> Some 0 -> (0 < z + length sig)%nat ->
  s + Z.of_nat (z + length sig) <= end_ -> stops str end_ (s + Z.of_nat (z + length sig)) ->
  after_sign str end_ negative s =
    rest_result negative (value 10 (take 9 sig)) (drop 9 sig) (s + Z.of_nat (z + length sig)).
Proof.
  intros Hs Hd Hh Hpos Hle Hst. unfold after_sign, INIT_CNT. destruct z as [|z].
  - destruct sig as [|d sig]; [simpl in Hpos; lia|]. simpl app in Hd.
    apply digs_cons in Hd as (Hdd & -> & Hd). rewrite bind_Some_eq.
    assert (d <> 0) by (intros ->; by apply Hh). unfold is_digit in Hdd.
    destruct (Z.eqb_spec (48 + d) 48); [lia|]. cbv zeta. rewrite digit_u8 by done.
    destruct (Z.ltb_spec 9 d); [lia|]. rewrite bind_Some_eq.
    replace (s + 1 + 9 - 1) with (s + 1 + Z.of_nat 8) by lia.
    replace (s + Z.of_nat (0 + length (d :: sig))) with (s + 1 + Z.of_nat (length sig)) in * by (simpl length; lia).
    rewrite (first_digits_spec str end_ negative d sig (s + 1)); auto; try lia.
    apply value_take9; [done|exact (proj1 Hd)].
  - pose proof Hd as Hd0. apply digs_cons in Hd0 as (_ & Hc0 & _). rewrite Hc0, bind_Some_eq.
    change (48 + 0 =? 48) with true. cbv iota.
    assert (z < S (length str))%nat as Hfuel.
    { destruct Hd as [_ Hd]. specialize (Hd z 0).
      rewrite lookup_app_l, lookup_replicate_2 in Hd by (rewrite ?length_replicate; lia).
      specialize (Hd eq_refl). apply ch_lt in Hd. lia. }
    rewrite (skip_zero_spec str end_ z sig), !bind_Some_eq by auto.
    apply digs_app in Hd as [_ Hd]. rewrite length_replicate in Hd.
    destruct (Z.eqb_spec (s + Z.of_nat (S z)) end_) as [He|He].
    + destruct sig as [|d sig]; [|simpl length in Hle; lia]. unfold end_i, rest_result.
      destruct (cutoffs negative) as [[c1 c2] c3]. simpl length. rewrite Nat.add_0_r. done.
    + cbv zeta. change 9 with (Z.of_nat 9).
      replace (s + Z.of_nat (S z + length sig)) with (s + Z.of_nat (S z) + Z.of_nat (length sig)) in * by lia.
      rewrite (first_digits_spec str end_ negative 0 sig (s + Z.of_nat (S z))); auto; try lia.
      apply value_take9_0. exact (proj1 Hd).
Qed.

(** *** What a numeral is worth *)

(** Splitting the leading zeros off. *)
Lemma strip_zeros (ds : list Z) : exists z sig, ds = replicate z 0 ++ sig /\ head sig <> Some 0.
Proof.
  induction ds as [|d ds (z & sig & -> & Hh)]; [by exists O, []|].
  destruct (Z.eq_dec d 0) as [->|Hd]; [by exists (S z), sig|].
  exists O, (d :: replicate z 0 ++ sig). split; [done|]. simpl. congruence.
Qed.

Lemma value_zeros z sig : value 10 (replicate z 0 ++ sig) = value 10 sig.
Proof. induction z as [|z IH]; [done|]. exact IH. Qed.

Lemma negate_if_s64 negative v : negate_if negative v = s64 (if negative then - v else v).
Proof. unfold negate_if. destruct negative; [|done]. unfold s64. dlia. Qed.

(** A numeral without leading zero is as large as its length says. *)
Lemma value_ge sig n : Forall is_digit sig -> head sig <> Some 0 -> (n < length sig)%nat ->
  10 ^ Z.of_nat n <= value 10 sig.
Proof.
  intros Hd Hh Hn. destruct sig as [|d ds]; [simpl in Hn; lia|]. apply Forall_cons_1 in Hd as [Hd Hds].
  etrans; [|apply value_lower; [done| |done]]; [|intros ->; by apply Hh].
  apply Z.pow_le_mono_r; simpl in Hn; lia.
Qed.

(** Twenty digits as the code holds them. *)
Lemma value_20 sig : length (drop 9 sig) = 11%nat ->
  value 10 sig = value 10 (take 9 sig) * 100000000000
                 + value 10 (take 9 (drop 9 sig)) * 100 + value 10 (drop 9 (drop 9 sig)).
Proof.
  intros Hl. rewrite <- (take_drop 9 sig) at 1. rewrite value_split, Hl.
  rewrite <- (take_drop 9 (drop 9 sig)) at 1. rewrite value_split, (length_drop (drop 9 sig)), Hl.
  change (10 ^ Z.of_nat 11) with 100000000000. change (10 ^ Z.of_nat (11 - 9)) with 100. lia.
Qed.

Lemma value_k sig : Forall is_digit sig -> length (drop 9 sig) = 11%nat ->
  0 <= value 10 (drop 9 (drop 9 sig)) < 100 /\ 0 <= value 10 (take 9 (drop 9 sig)) < 1000000000.
Proof.
  intros Hd Hl. split.
  - pose proof (value_bound (drop 9 (drop 9 sig))) as H. rewrite (length_drop (drop 9 sig)), Hl in H.
    apply H. by do 2 apply Forall_drop.
  - pose proof (value_bound (take 9 (drop 9 sig))) as H. rewrite length_take, Hl in H.
    apply H. by apply Forall_take, Forall_drop.
Qed.

(** The result for a value within the range of the type. *)
Lemma rest_result_fits (negative : bool) sig e : Forall is_digit sig -> head sig <> Some 0 ->
  (if negative then value 10 sig <= 2 ^ 63 else value 10 sig < 2 ^ 64) ->
  rest_result negative (value 10 (take 9 sig)) (drop 9 sig) e =
    Some (s64 (if negative then - value 10 sig else value 10 sig), e, err_of negative).
Proof.
  intros Hd Hh Hfit. unfold rest_result. rewrite <- value_split, take_drop, negate_if_s64.
  pose proof (value_bound sig Hd) as Hb.
  destruct (cutoffs negative) as [[c1 c2] c3] eqn:Ec. cbv zeta.
  destruct (Nat.leb_spec (length (drop 9 sig)) 9); [done|].
  assert (length (drop 9 sig) = length sig - 9)%nat as Hld by apply length_drop.
  destruct (Nat.eqb_spec (length (drop 9 sig)) 10).
  { destruct negative; [|done]. cbn [andb]. unfold MAX_NEGATIVE_NUMBER.
    destruct (Z.ltb_spec 0x8000000000000000 (value 10 sig)); [lia|done]. }
  destruct (Nat.eqb_spec (length (drop 9 sig)) 11) as [H11|].
  - destruct negative.
    + pose proof (value_ge sig 19 Hd Hh ltac:(lia)). change (10 ^ Z.of_nat 19) with 10000000000000000000 in *. lia.
    + injection Ec as <- <- <-. pose proof (value_20 sig H11). pose proof (value_k sig Hd H11).
      case_if; [|by rewrite s64_u64].
      change (ULONGLONG_MAX / LFACTOR2) with 184467440 in *.
      change (ULONGLONG_MAX mod LFACTOR2 / 100) with 737095516 in *.
      change (ULONGLONG_MAX mod 100) with 15 in *. lia.
  - pose proof (value_ge sig 20 Hd Hh ltac:(lia)). change (10 ^ Z.of_nat 20) with 100000000000000000000 in *.
    destruct negative; lia.
Qed.

(** Values the overflow tests catch: below the negative limit, or with more
    than twenty digits. *)
Lemma rest_result_overflow (negative : bool) sig e : Forall is_digit sig -> head sig <> Some 0 ->
  (if negative then 2 ^ 63 < value 10 sig else 10 ^ 20 <= value 10 sig) ->
  exists e', rest_result negative (value 10 (take 9 sig)) (drop 9 sig) e = overflow negative e' /\ e' <= e.
Proof.
  intros Hd Hh Hbig. unfold rest_result. rewrite <- value_split, take_drop, negate_if_s64.
  pose proof (value_bound sig Hd) as Hb.
  destruct (cutoffs negative) as [[c1 c2] c3] eqn:Ec. cbv zeta.
  assert (length (drop 9 sig) = length sig - 9)%nat as Hld by apply length_drop.
  assert (forall m, (length sig <= m)%nat -> value 10 sig < 10 ^ Z.of_nat m) as Hub.
  { intros m Hm. assert (10 ^ Z.of_nat (length sig) <= 10 ^ Z.of_nat m) by (apply Z.pow_le_mono_r; lia). lia. }
  destruct (Nat.leb_spec (length (drop 9 sig)) 9) as [Hl|].
  { specialize (Hub 18%nat ltac:(lia)). change (10 ^ Z.of_nat 18) with 1000000000000000000 in *. destruct negative; lia. }
  destruct (Nat.eqb_spec (length (drop 9 sig)) 10).
  { destruct negative; cbn [andb].
    - unfold MAX_NEGATIVE_NUMBER. destruct (Z.ltb_spec 0x8000000000000000 (value 10 sig)); [|lia].
      by exists e.
    - specialize (Hub 19%nat ltac:(lia)). change (10 ^ Z.of_nat 19) with 10000000000000000000 in *. lia. }
  destruct (Nat.eqb_spec (length (drop 9 sig)) 11) as [H11|]; [|eexists; split; [done|lia]].
  destruct negative.
  - injection Ec as <- <- <-. pose proof (value_20 sig H11). pose proof (value_k sig Hd H11).
    pose proof (value_ge sig 19 Hd Hh ltac:(lia)). change (10 ^ Z.of_nat 19) with 10000000000000000000 in *.
    exists e. split; [|lia]. rewrite (proj2 (Z.ltb_lt _ _)); [done|].
    change (MAX_NEGATIVE_NUMBER / LFACTOR2) with 92233720. lia.
  - specialize (Hub 20%nat ltac:(lia)). change (10 ^ Z.of_nat 20) with (10 ^ 20) in *. lia.
Qed.

(** *** Numerals *)

Inductive sign := NoSign | PlusSign | MinusSign.

Definition sign_chars (sg : sign) : list Z :=
  match sg with NoSign => [] | PlusSign => [43] | MinusSign => [45] end.

Definition is_minus (sg : sign) : bool := match sg with MinusSign => true | _ => false end.

(** Blanks, a sign and decimal digits. *)
Definition numeral (blanks : list Z) (sg : sign) (ds : list Z) : list Z :=
  blanks ++ sign_chars sg ++ (Z.add 48 <$> ds).

Definition nondigit_head (rest : list Z) : Prop :=
  exists c t, rest = c :: t /\ 9 < u8 (c - 48).

(** The numeral ends at the end pointer or before a character that is no
    digit; without an end pointer the code looks at 65535 characters at most. *)
Definition ends (blanks : list Z) (n : Z) (rest : list Z) (endptr : option Z) : Prop :=
  match endptr with
  | Some e => n = e \/ n < e /\ nondigit_head rest
  | None => nondigit_head rest /\ n - Z.of_nat (length blanks) < 65535
  end.

Definition well_formed (blanks : list Z) (sg : sign) (ds rest : list Z) (endptr : option Z) : Prop :=
  Forall (fun c => is_blank c = true) blanks /\ ds <> [] /\ Forall is_digit ds /\
  ends blanks (Z.of_nat (length (numeral blanks sg ds))) rest endptr.

Lemma skip_blank_spec str endptr b s fuel c :
  (forall k, (k < b)%nat -> exists x, ch str (s + Z.of_nat k) = Some x /\ is_blank x = true) ->
  ch str (s + Z.of_nat b) = Some c -> is_blank c = false -> (b < fuel)%nat ->
  (match endptr with Some e => s + Z.of_nat b < e | None => True end) ->
  skip_blank fuel str endptr s = Some (s + Z.of_nat b).
Proof.
  revert s fuel. induction b as [|b IH]; intros s fuel Hb Hc Hnb Hf He;
    (destruct fuel as [|fuel]; [lia|]); cbn [skip_blank].
  - rewrite Z.add_0_r in *. rewrite Hc, bind_Some_eq, Hnb.
    destruct endptr as [e|]; [rewrite (proj2 (Z.eqb_neq s e)) by lia|]; done.
  - destruct (Hb O) as (x & Hx & Hbx); [lia|]. rewrite Z.add_0_r in Hx. rewrite Hx, bind_Some_eq, Hbx.
    replace (s + Z.of_nat (S b)) with (s + 1 + Z.of_nat b) in * by lia.
    rewrite (IH (s + 1)); auto; [|intros k Hk|lia].
    + destruct endptr as [e|]; [rewrite (proj2 (Z.eqb_neq s e)) by lia|]; done.
    + destruct (Hb (S k)) as (y & Hy & Hby); [lia|]. exists y. split; [|done].
      rewrite <- Hy. f_equal. lia.
Qed.

Lemma ch_app str1 str2 (k : nat) : ch (str1 ++ str2) (Z.of_nat (length str1) + Z.of_nat k) = str2 !! k.
Proof. unfold ch. rewrite <- Nat2Z.inj_add, Nat2Z.id, lookup_app_r by lia. f_equal. lia. Qed.

Lemma digs_here pre ds rest : Forall is_digit ds ->
  digs (pre ++ (Z.add 48 <$> ds) ++ rest) (Z.of_nat (length pre)) ds.
Proof.
  intros Hd. split; [done|]. intros k d Hk. rewrite ch_app. apply lookup_app_l_Some.
  by rewrite list_lookup_fmap, Hk.
Qed.

Lemma stops_here pre rest end_ : Z.of_nat (length pre) = end_ \/
  Z.of_nat (length pre) < end_ /\ nondigit_head rest ->
  stops (pre ++ rest) end_ (Z.of_nat (length pre)).
Proof.
  intros [->|[Hlt (c & t & -> & Hc)]]; [by left|]. right. split; [done|]. exists c.
  pose proof (ch_app pre (c :: t) 0) as Hch. rewrite Z.add_0_r in Hch. rewrite Hch.
  repeat split; [done|]. intros ->. by unfold u8 in Hc.
Qed.

(** The first character after the blanks. *)
Lemma numeral_head blanks sg ds rest : ds <> [] -> Forall is_digit ds ->
  exists c, ch (numeral blanks sg ds ++ rest) (Z.of_nat (length blanks)) = Some c /\
    is_blank c = false /\ (c =? 0) = false /\
    match sg with
    | NoSign => (c =? 45) = false /\ (c =? 43) = false
    | PlusSign => (c =? 45) = false /\ (c =? 43) = true
    | MinusSign => (c =? 45) = true
    end.
Proof.
  intros Hne Hd. unfold numeral. rewrite <- !app_assoc.
  pose proof (ch_app blanks (sign_chars sg ++ (Z.add 48 <$> ds) ++ rest) 0) as Hch.
  rewrite Z.add_0_r in Hch. rewrite Hch. destruct sg; simpl sign_chars; [|by eexists..].
  destruct ds as [|d ds']; [done|]. apply Forall_cons_1 in Hd as [Hd _]. unfold is_digit in Hd.
  exists (48 + d). unfold is_blank. split; [done|]. repeat split; lia.
Qed.

(** From a numeral to its significant digits. *)
Lemma strtoll10_numeral blanks sg ds rest endptr : well_formed blanks sg ds rest endptr ->
  exists sig, Forall is_digit sig /\ head sig <> Some 0 /\ value 10 sig = value 10 ds /\
    my_strtoll10 (numeral blanks sg ds ++ rest) endptr =
      rest_result (is_minus sg) (value 10 (take 9 sig)) (drop 9 sig)
        (Z.of_nat (length (numeral blanks sg ds))).
Proof.
  intros (Hb & Hne & Hd & He). destruct (strip_zeros ds) as (z & sig & Hds & Hh).
  exists sig. split; [rewrite Hds in Hd; by apply Forall_app in Hd as [_ ?]|]. split; [done|].
  split; [by rewrite Hds, value_zeros|].
  set (str := numeral blanks sg ds ++ rest). set (n := Z.of_nat (length (numeral blanks sg ds))).
  assert (n = Z.of_nat (length blanks) + Z.of_nat (length (sign_chars sg)) + Z.of_nat (length ds)) as Hn
    by (unfold n, numeral; rewrite !length_app, length_fmap; lia).
  assert (length ds = z + length sig)%nat as Hlds by (rewrite Hds, length_app, length_replicate; done).
  assert (0 < length ds)%nat by (destruct ds; [done|simpl; lia]).
  set (p := Z.of_nat (length blanks) + Z.of_nat (length (sign_chars sg))).
  assert (digs str p (replicate z 0 ++ sig)) as Hdigs.
  { pose proof (digs_here (blanks ++ sign_chars sg) ds rest Hd) as H'. rewrite <- Hds.
    unfold str, numeral, p. rewrite length_app, Nat2Z.inj_add, <- !app_assoc in *. exact H'. }
  assert (forall end_, n = end_ \/ n < end_ /\ nondigit_head rest ->
            after_sign str end_ (is_minus sg) p =
              rest_result (is_minus sg) (value 10 (take 9 sig)) (drop 9 sig) n) as Hmain.
  { intros end_ Hend. rewrite (after_sign_spec _ _ _ z sig); auto; try (unfold p in *; lia).
    - f_equal. unfold p; lia.
    - pose proof (stops_here (numeral blanks sg ds) rest end_ Hend) as Hst. fold n str in Hst.
      by replace (p + Z.of_nat (z + length sig)) with n by (unfold p; lia). }
  destruct (numeral_head blanks sg ds rest Hne Hd) as (c & Hc & Hcb & Hc0 & Hcs). fold str in Hc.
  unfold my_strtoll10. rewrite (skip_blank_spec str endptr (length blanks) 0 _ c); auto.
  2:{ intros k Hk. destruct (lookup_lt_is_Some_2 blanks k Hk) as [x Hx]. exists x. split.
      - unfold ch. rewrite Z.add_0_l, Nat2Z.id. unfold str, numeral. rewrite <- app_assoc. by apply lookup_app_l_Some.
      - rewrite Forall_lookup in Hb. eauto. }
  2:{ unfold str, numeral. rewrite !length_app. lia. }
  2:{ destruct endptr as [e|]; [|done]. destruct He as [He|[He _]]; fold n in He; lia. }
  rewrite bind_Some_eq, Z.add_0_l.
  destruct endptr as [e|]; simpl in He; fold n in He.
  - destruct (Z.eqb_spec (Z.of_nat (length blanks)) e); [lia|]. rewrite bind_Some_eq, Hc, bind_Some_eq.
    specialize (Hmain e He). unfold p in Hmain.
    destruct sg; simpl sign_chars in *; simpl length in *; simpl is_minus in *; rewrite ?Z.add_0_r in *.
    + destruct Hcs as [-> ->]. done.
    + destruct Hcs as [-> ->]. rewrite (proj2 (Z.eqb_neq _ _)); [done|lia].
    + rewrite Hcs. rewrite (proj2 (Z.eqb_neq _ _)); [done|lia].
  - rewrite Hc, bind_Some_eq, Hc0, !bind_Some_eq.
    specialize (Hmain (Z.of_nat (length blanks) + 65535)). unfold p in Hmain.
    specialize (Hmain ltac:(right; split; [lia|apply He])). destruct He as [Hnd He].
    destruct sg; simpl sign_chars in *; simpl length in *; simpl is_minus in *; rewrite ?Z.add_0_r in *.
    + destruct Hcs as [-> ->]. exact Hmain.
    + destruct Hcs as [-> ->]. rewrite (proj2 (Z.eqb_neq _ _)) by lia. exact Hmain.
    + rewrite Hcs. rewrite (proj2 (Z.eqb_neq _ _)) by lia. exact Hmain.
Qed.

(** ** Properties *)

(** C28: every decimal numeral (blanks, an optional sign, any number of leading
    zeros, digits, then the end of the string or another character) whose
    value fits (below 2^64, or down to -2^63 with a minus sign) is converted
    exactly, with error 0, or -1 for a negative number, and the end pointer
    behind its last digit. *)
Theorem strtoll10_exact blanks sg ds rest endptr : well_formed blanks sg ds rest endptr ->
  (if is_minus sg then value 10 ds <= 2 ^ 63 else value 10 ds < 2 ^ 64) ->
  my_strtoll10 (numeral blanks sg ds ++ rest) endptr =
    Some (s64 (if is_minus sg then - value 10 ds else value 10 ds),
          Z.of_nat (length (numeral blanks sg ds)), if is_minus sg then -1 else 0).
Proof.
  intros Hwf Hfit. destruct (strtoll10_numeral _ _ _ _ _ Hwf) as (sig & Hd & Hh & Hv & ->).
  rewrite <- Hv in *. by apply rest_result_fits.
Qed.

(** A negative numeral below -2^63 and a positive one of 10^20 or more give
    ERANGE and the smallest signed or the largest unsigned 64-bit number. *)
Theorem strtoll10_erange blanks sg ds rest endptr : well_formed blanks sg ds rest endptr ->
  (if is_minus sg then 2 ^ 63 < value 10 ds else 10 ^ 20 <= value 10 ds) ->
  exists e, e <= Z.of_nat (length (numeral blanks sg ds)) /\
    my_strtoll10 (numeral blanks sg ds ++ rest) endptr =
      Some (if is_minus sg then - 2 ^ 63 else s64 (2 ^ 64 - 1), e, MY_ERRNO_ERANGE).
Proof.
  intros Hwf Hbig. destruct (strtoll10_numeral _ _ _ _ _ Hwf) as (sig & Hd & Hh & Hv & ->).
  rewrite <- Hv in *.
  destruct (rest_result_overflow (is_minus sg) sig (Z.of_nat (length (numeral blanks sg ds))) Hd Hh Hbig)
    as (e & -> & He). by exists e.
Qed.

(** Between 2^64 and 10^20 the overflow test looks at the last two digits
    whatever the digits before them are: a number above 18446744073709551699
    that starts with 184467440 and whose last two digits are at most 15 is
    returned modulo 2^64 with error 0. *)
Theorem strtoll10_wraps_20_digits blanks ds rest endptr : well_formed blanks NoSign ds rest endptr ->
  18446744073709551700 <= value 10 ds < 18446744100000000000 -> value 10 ds mod 100 <= 15 ->
  my_strtoll10 (numeral blanks NoSign ds ++ rest) endptr =
    Some (value 10 ds - 2 ^ 64, Z.of_nat (length (numeral blanks NoSign ds)), 0).
Proof.
  intros Hwf Hrng Hmod. destruct (strtoll10_numeral _ _ _ _ _ Hwf) as (sig & Hd & Hh & Hv & ->).
  rewrite <- Hv in *. simpl is_minus. pose proof (value_bound sig Hd) as Hb.
  assert (length (drop 9 sig) = length sig - 9)%nat as Hld by apply length_drop.
  assert (length sig = 20%nat) as Hls.
  { destruct (lt_eq_lt_dec (length sig) 20) as [[Hl| ]|Hl]; [|done|].
    - assert (10 ^ Z.of_nat (length sig) <= 10 ^ 19) by (apply Z.pow_le_mono_r; lia). lia.
    - pose proof (value_ge sig 20 Hd Hh Hl). change (10 ^ Z.of_nat 20) with 100000000000000000000 in *. lia. }
  assert (length (drop 9 sig) = 11%nat) as H11 by lia. unfold rest_result.
  rewrite <- value_split, take_drop, H11. cbn [cutoffs Nat.leb Nat.eqb].
  pose proof (value_20 sig H11). pose proof (value_k sig Hd H11).
  change (ULONGLONG_MAX / LFACTOR2) with 184467440. change (ULONGLONG_MAX mod LFACTOR2 / 100) with 737095516.
  change (ULONGLONG_MAX mod 100) with 15. case_if; [exfalso; dlia|].
  rewrite s64_u64. do 3 f_equal. unfold s64. dlia.
Qed.

(** Printing a signed 64-bit integer in decimal and reading it back gives
    the integer, reads every character and reports its sign. *)
Theorem longlong_strtoll10_roundtrip val : is_s64 val ->
  exists str, longlong10_to_str val (-10) = Some str /\
    my_strtoll10 str (Some (Z.of_nat (length str))) =
      Some (val, Z.of_nat (length str), if val <? 0 then -1 else 0).
Proof.
  intros Hv. rewrite longlong10_to_str_render by done. eexists. split; [done|]. unfold render. cbn [andb Z.ltb].
  change (-10 <? 0) with true. cbn [andb].
  set (m := if val <? 0 then - val else u64 val). set (sg := if val <? 0 then MinusSign else NoSign).
  assert (is_u64 m) as Hm by (unfold m; case_if; [lia|apply u64_range]).
  destruct (digits_spec 10 m ltac:(lia) Hm) as (Hval & Hlen & Hdig & _).
  assert ((if val <? 0 then minus_sign :: (dig_char true <$> digits 10 (- val))
           else dig_char true <$> digits 10 (u64 val)) = numeral [] sg (digits 10 m) ++ []) as ->.
  { rewrite app_nil_r. unfold numeral, sg, m.
    assert (forall ds, Forall is_digit ds -> dig_char true <$> ds = Z.add 48 <$> ds) as Hc.
    { intros ds Hds. apply list_fmap_ext. intros k d Hk. rewrite Forall_lookup in Hds. specialize (Hds _ _ Hk).
      rewrite <- char_dig by done. unfold char_0, s8. unfold is_digit in Hds. dlia. }
    revert Hdig. unfold m. destruct (val <? 0); intros Hdig; simpl; [f_equal|]; by apply Hc. }
  assert (well_formed [] sg (digits 10 m) [] (Some (Z.of_nat (length (numeral [] sg (digits 10 m) ++ []))))) as Hwf.
  { split; [done|]. split; [intros Hn; rewrite Hn in Hlen; simpl in Hlen; lia|]. split; [exact Hdig|].
    left. by rewrite app_nil_r. }
  destruct (strtoll10_numeral _ _ _ _ _ Hwf) as (sig & Hd & Hh & Hsv & ->).
  rewrite Hval in Hsv. rewrite rest_result_fits; auto.
  2:{ rewrite Hsv. unfold sg, m. destruct (Z.ltb_spec val 0); cbn [is_minus]; [lia|apply u64_range]. }
  rewrite Hsv, app_nil_r. unfold sg, m. destruct (Z.ltb_spec val 0); cbn [is_minus]; do 3 f_equal.
  - rewrite Z.opp_involutive. by apply s64_small.
  - rewrite s64_u64. by apply s64_small.
Qed.

Lemma strtoll10_exact_witness :
  my_strtoll10 (numeral [32; 9] MinusSign [0; 9; 2; 2; 3; 3; 7; 2; 0; 3; 6; 8; 5; 4; 7; 7; 5; 8; 0; 8] ++ [44]) None
    = Some (- 2 ^ 63, 23, -1).
Proof.
  rewrite strtoll10_exact; [reflexivity| |vm_compute; congruence].
  split; [repeat constructor|]. split; [done|]. split; [repeat constructor; unfold is_digit; lia|].
  split; [by exists 44, []|]. vm_compute; congruence.
Defined.

Lemma strtoll10_erange_witness :
  exists e, e <= Z.of_nat (length (numeral [] MinusSign [9; 2; 2; 3; 3; 7; 2; 0; 3; 6; 8; 5; 4; 7; 7; 5; 8; 0; 9])) /\
    my_strtoll10 (numeral [] MinusSign [9; 2; 2; 3; 3; 7; 2; 0; 3; 6; 8; 5; 4; 7; 7; 5; 8; 0; 9] ++ []) (Some 20)
      = Some (- 2 ^ 63, e, MY_ERRNO_ERANGE).
Proof.
  apply (strtoll10_erange [] MinusSign); [|vm_compute; congruence].
  split; [repeat constructor|]. split; [done|]. split; [repeat constructor; unfold is_digit; lia|].
  by left.
Defined.

Lemma strtoll10_wraps_20_digits_witness :
  my_strtoll10 (numeral [] NoSign [1; 8; 4; 4; 6; 7; 4; 4; 0; 8; 0; 0; 0; 0; 0; 0; 0; 0; 0; 0] ++ []) (Some 20)
    = Some (6290448384, 20, 0).
Proof.
  rewrite strtoll10_wraps_20_digits; [reflexivity| |split; [vm_compute; congruence|reflexivity]|vm_compute; congruence].
  split; [repeat constructor|]. split; [done|]. split; [repeat constructor; unfold is_digit; lia|].
  by left.
Defined.

Lemma longlong_strtoll10_roundtrip_witness :
  exists str, longlong10_to_str (- 2 ^ 63) (-10) = Some str /\
    my_strtoll10 str (Some (Z.of_nat (length str))) = Some (- 2 ^ 63, Z.of_nat (length str), -1).
Proof. apply (longlong_strtoll10_roundtrip (- 2 ^ 63)). lia. Defined.
