(* ===== verification/StrNum8.v ===== *)
(** * Numbers in the 8-bit character sets (strings/ctype-simple.c)

    [my_strntol_8bit], [my_strntoul_8bit], [my_strntoll_8bit] and
    [my_strntoull_8bit] read a number in a base of 2 to 36 from a string of
    given length; the four texts differ in the width of the accumulator and in
    the limits.  [my_long10_to_str_8bit] and [my_longlong10_to_str_8bit] print
    numbers. *)

From stdpp Require Import base numbers list.
From Stdlib Require Import ZArith Lia.
From S2P Require Import Prelude IntStr StrToLL.

Local Open Scope Z_scope.

Definition INT_MIN32 : Z := - 2 ^ 31.
Definition INT_MAX32 : Z := 2 ^ 31 - 1.
Definition LONGLONG_MAX : Z := 2 ^ 63 - 1.

(** ** Reading *)

Section reading.
(** [my_isspace(cs, c)]. *)
Variable isspace : Z -> bool.

Fixpoint skip_space (s : list Z) : list Z :=
  match s with
  | c :: s' => if isspace c then skip_space s' else s
  | [] => []
  end.

(** The value of the character as a digit of any base; [None] is the break. *)
Definition digit_of (c : Z) : option Z :=
  if (48 <=? c) && (c <=? 57) then Some (c - 48)
  else if (65 <=? c) && (c <=? 90) then Some (c - 65 + 10)
  else if (97 <=? c) && (c <=? 122) then Some (c - 97 + 10)
  else None.

(** The loop over the digits: [i], [overflow] and the rest of the string.
    [top] is the largest value of the accumulator. *)
Fixpoint number_loop (top base : Z) (s : list Z) (i : Z) (overflow : bool) : Z * bool * list Z :=
  let cutoff := top / base in
  let cutlim := top mod base in
  match s with
  | [] => (i, overflow, [])
  | c :: s' =>
      match digit_of c with
      | Some d =>
          if base <=? d then (i, overflow, s)
          else if (cutoff <? i) || ((i =? cutoff) && (cutlim <? d)) then number_loop top base s' i true
          else number_loop top base s' ((i * base + d) mod (top + 1)) overflow
      | None => (i, overflow, s)
      end
  end.

(** The sign and the digits; [None] is [noconv].  The number, [overflow] and the
    rest of the string. *)
Definition scan_number (top base : Z) (s : list Z) : option (bool * Z * bool * list Z) :=
  match skip_space s with
  | [] => None
  | c :: s' =>
      let '(negative, save) := if c =? 45 then (true, s') else if c =? 43 then (false, s') else (false, c :: s') in
      let '(i, overflow, rest) := number_loop top base save 0 false in
      if bool_decide (length rest = length save) then None else Some (negative, i, overflow, rest)
  end.

(** The number, the error and [*endptr - nptr]. *)
Definition my_strntol_8bit (s : list Z) (base : Z) : Z * Z * nat :=
  match scan_number (2 ^ 32 - 1) base s with
  | None => (0, MY_ERRNO_EDOM, O)
  | Some (negative, i, overflow, rest) =>
      let endptr := (length s - length rest)%nat in
      let overflow := overflow || (if negative then u32 INT_MIN32 <? i else INT_MAX32 <? i) in
      if overflow then (if negative then INT_MIN32 else INT_MAX32, MY_ERRNO_ERANGE, endptr)
      else (if negative then - i else i, 0, endptr)
  end.

Definition my_strntoul_8bit (s : list Z) (base : Z) : Z * Z * nat :=
  match scan_number (2 ^ 32 - 1) base s with
  | None => (0, MY_ERRNO_EDOM, O)
  | Some (negative, i, overflow, rest) =>
      let endptr := (length s - length rest)%nat in
      if overflow then (2 ^ 32 - 1, MY_ERRNO_ERANGE, endptr)
      else (u64 (if negative then - i else i), 0, endptr)
  end.

Definition my_strntoll_8bit (s : list Z) (base : Z) : Z * Z * nat :=
  match scan_number (2 ^ 64 - 1) base s with
  | None => (0, MY_ERRNO_EDOM, O)
  | Some (negative, i, overflow, rest) =>
      let endptr := (length s - length rest)%nat in
      let overflow := overflow || (if negative then u64 LONGLONG_MIN <? i else u64 LONGLONG_MAX <? i) in
      if overflow then (if negative then LONGLONG_MIN else LONGLONG_MAX, MY_ERRNO_ERANGE, endptr)
      else (if negative then s64 (- s64 i) else s64 i, 0, endptr)
  end.

Definition my_strntoull_8bit (s : list Z) (base : Z) : Z * Z * nat :=
  match scan_number (2 ^ 64 - 1) base s with
  | None => (0, MY_ERRNO_EDOM, O)
  | Some (negative, i, overflow, rest) =>
      let endptr := (length s - length rest)%nat in
      if overflow then (2 ^ 64 - 1, MY_ERRNO_ERANGE, endptr)
      else (u64 (if negative then s64 (- s64 i) else s64 i), 0, endptr)
  end.

(** The zeros behind a decimal point. *)
Fixpoint skip_zeros (s : list Z) : list Z :=
  match s with
  | c :: s' => if c =? 48 then skip_zeros s' else s
  | [] => []
  end.

Definition MY_SEQ_INTTAIL : Z := 1.
Definition MY_SEQ_SPACES : Z := 2.

(** The length of the sequence; the byte of an empty string is read too. *)
Definition my_scan_8bit (str : list Z) (sq : Z) : option Z :=
  if sq =? MY_SEQ_INTTAIL then
    match str with
    | [] => None
    | c :: str' => Some (if c =? 46 then Z.of_nat (length str - length (skip_zeros str')) else 0)
    end
  else if sq =? MY_SEQ_SPACES then Some (Z.of_nat (length str - length (skip_space str)))
  else Some 0.
End reading.

(** ** Printing *)

(** The bytes written to [dst] and the result; "Assume len >= 1". *)
Definition my_long10_to_str_8bit (len radix val : Z) : option (list Z * Z) :=
  let '(sign, val, len) := if (radix <? 0) && (val <? 0) then ([minus_sign], s64 (- val), u32 (len - 1)) else ([], val, len) in
  let new_val := s64 (u64 val / 10) in
  p ← push (char_0 + s8 (u64 val - u64 new_val * 10)) [];
  p ← long10_loop 65 new_val p;
  let len := Z.min len (Z.of_nat (length p)) in
  Some (sign ++ take (Z.to_nat len) p, len + Z.of_nat (length sign)).

(** [while ((ulonglong)val > (ulonglong)LONG_MAX)]. *)
Fixpoint ull10_loop (fuel : nat) (val : Z) (p : list Z) : option (Z * list Z) :=
  match fuel with
  | O => None
  | S fuel =>
      if LONG_MAX <? u64 val then
        let quo := u64 val / 10 in
        let rem := u32 (val - quo * 10) in
        p ← push (u8 (char_0 + rem)) p;
        ull10_loop fuel (s64 quo) p
      else Some (val, p)
  end.

Definition my_longlong10_to_str_8bit (len radix val : Z) : option (list Z * Z) :=
  let '(sign, val, len) := if (radix <? 0) && (val <? 0) then ([minus_sign], s64 (- val), u32 (len - 1)) else ([], val, len) in
  if val =? 0 then Some (sign ++ [char_0], 1 + Z.of_nat (length sign))
  else
    '(long_val, p) ← ull10_loop 65 val [];
    p ← long10_loop 65 long_val p;
    let len := Z.min len (Z.of_nat (length p)) in
    Some (sign ++ take (Z.to_nat len) p, len + Z.of_nat (length sign)).

(** ** Numerals *)

Section numerals.
Variable isspace : Z -> bool.
Variable base : Z.
Hypothesis base_ok : 2 <= base <= 36.

(** The rest of a string behind a number does not go on with a digit. *)
Definition stops (rest : list Z) : Prop :=
  match rest with
  | [] => True
  | c :: _ => match digit_of c with Some d => base <= d | None => True end
  end.

(** White space, a sign, digits and a rest: the digits and the length of what
    is before the rest. *)
Definition numeral (s : list Z) (negative : bool) (ds : list Z) (n : nat) : Prop :=
  exists sp sg l rest, s = sp ++ sg ++ l ++ rest /\ n = length (sp ++ sg ++ l) /\
    Forall (fun c => isspace c = true) sp /\ (if negative then sg = [45] else sg = [] \/ sg = [43]) /\
    Forall2 (fun c d => digit_of c = Some d) l ds /\ Forall (fun d => 0 <= d < base) ds /\ ds <> [] /\ stops rest.

(** Signs and digits are not white space. *)
Hypothesis isspace_ok : forall c, c = 45 \/ c = 43 \/ digit_of c <> None -> isspace c = false.

Lemma value_snoc_ge V d : 0 <= V -> 0 <= d < base -> V <= V * base + d.
Proof. nia. Qed.

Lemma number_loop_spec top l ds rest : 0 <= top -> Forall2 (fun c d => digit_of c = Some d) l ds ->
  Forall (fun d => 0 <= d < base) ds -> stops rest ->
  forall i overflow V, 0 <= V -> (if overflow : bool then top < V else i = V /\ V <= top) ->
  exists i' overflow', number_loop top base (l ++ rest) i overflow = (i', overflow', rest) /\
    let V' := foldl (fun a d => a * base + d) V ds in
    0 <= V' /\ (if overflow' then top < V' else i' = V' /\ V' <= top).
Proof.
  intros Htop Hl Hds Hr. induction Hl as [|c d l ds Hc Hl IH]; intros i overflow V HV Hov.
  - exists i, overflow. split; [|done]. cbn [app]. destruct rest as [|c rest]; [done|]. cbn [number_loop]. cbn in Hr.
    destruct (digit_of c) as [d|]; [|done]. by rewrite (proj2 (Z.leb_le _ _)).
  - apply Forall_cons in Hds as [Hd Hds]. cbn [app number_loop foldl]. rewrite Hc, (proj2 (Z.leb_gt _ _)) by lia.
    pose proof (value_snoc_ge V d HV Hd). pose proof (Z.div_mod top base ltac:(lia)). pose proof (Z.mod_pos_bound top base ltac:(lia)).
    destruct ((top / base <? i) || ((i =? top / base) && (top mod base <? d))) eqn:E.
    + apply IH; [done|lia|]. destruct overflow; [lia|]. destruct Hov as [-> _].
      apply orb_true_iff in E as [E|E]; b2p; [nia|]. subst V. lia.
    + apply orb_false_iff in E as [E1 E2]. b2p. apply IH; [done|lia|]. destruct overflow; [lia|]. destruct Hov as [-> _].
      assert (V * base + d <= top) as Hle.
      { apply andb_false_iff in E2 as [E2|E2]; b2p; [nia|]. destruct (Z.eq_dec V (top / base)) as [->|]; nia. }
      split; [|done]. apply Z.mod_small. lia.
Qed.

Lemma skip_space_app sp s : Forall (fun c => isspace c = true) sp -> skip_space isspace (sp ++ s) = skip_space isspace s.
Proof. induction 1 as [|c sp Hc _ IH]; [done|]. cbn. by rewrite Hc. Qed.

Lemma skip_space_stop c s : isspace c = false -> skip_space isspace (c :: s) = c :: s.
Proof. intros Hc. cbn. by rewrite Hc. Qed.

(** What is read from a numeral. *)
Lemma scan_number_spec top s negative ds n : 0 <= top -> numeral s negative ds n ->
  exists i overflow rest, scan_number isspace top base s = Some (negative, i, overflow, rest) /\
    (length s - length rest = n)%nat /\ 0 <= value base ds /\
    (if overflow : bool then top < value base ds else i = value base ds /\ value base ds <= top).
Proof.
  intros Htop (sp & sg & l & rest & -> & -> & Hsp & Hsg & Hl & Hds & Hne & Hr).
  destruct (number_loop_spec top l ds rest Htop Hl Hds Hr 0 false 0) as (i & overflow & Hloop & HV); [lia|lia|].
  exists i, overflow, rest. split; [|split; [|exact HV]].
  - unfold scan_number. rewrite skip_space_app by done.
    assert (exists c0 l0, l = c0 :: l0 /\ digit_of c0 <> None) as (c0 & l0 & El & Hc0).
    { destruct Hl as [|c d l ds Hc Hl]; [done|]. exists c, l. rewrite Hc. done. }
    assert (bool_decide (length rest = length (l ++ rest)) = false) as Hb.
    { apply bool_decide_eq_false_2. rewrite El, length_app. simpl. lia. }
    assert (c0 <> 45 /\ c0 <> 43) as [Hm Hp] by (split; intros ->; done).
    destruct negative; [subst sg|destruct Hsg as [-> | ->]]; cbn [app]; rewrite ?El; cbn [app];
      rewrite skip_space_stop by (apply isspace_ok; auto); rewrite <- ?El.
    + cbn [Z.eqb Pos.eqb]. change (c0 :: l0 ++ rest) with ((c0 :: l0) ++ rest). rewrite <- El, Hloop, Hb. done.
    + rewrite (proj2 (Z.eqb_neq c0 45)), (proj2 (Z.eqb_neq c0 43)) by done. change (c0 :: l0 ++ rest) with ((c0 :: l0) ++ rest).
      rewrite <- El, Hloop, Hb. done.
    + cbn [Z.eqb Pos.eqb]. change (c0 :: l0 ++ rest) with ((c0 :: l0) ++ rest). rewrite <- El, Hloop, Hb. done.
  - rewrite !length_app. lia.
Qed.
End numerals.

(** ** The results *)

(** The answer of a conversion with the range from [lo] to [hi]: the number and
    no error, or the nearer end of the range and [ERANGE]. *)
Definition in_range (lo hi x : Z) (n : nat) : Z * Z * nat :=
  if x <? lo then (lo, MY_ERRNO_ERANGE, n) else if hi <? x then (hi, MY_ERRNO_ERANGE, n) else (x, 0, n).

(** C27: reading numbers is exact: on white space, a sign and digits of the base
    the signed conversions give the number, or the end of their range with
    [ERANGE] when it does not fit, and the place behind the last digit; the
    unsigned ones do so for the digits, and give a negative number modulo 2^64. *)
Theorem strnto_exact isspace base s negative ds n :
  2 <= base <= 36 -> (forall c, c = 45 \/ c = 43 \/ digit_of c <> None -> isspace c = false) ->
  numeral isspace base s negative ds n ->
  let v := value base ds in
  let x := if negative then - v else v in
  my_strntol_8bit isspace s base = in_range INT_MIN32 INT_MAX32 x n /\
  my_strntoll_8bit isspace s base = in_range LONGLONG_MIN LONGLONG_MAX x n /\
  my_strntoul_8bit isspace s base = (if v <? 2 ^ 32 then (u64 x, 0, n) else (2 ^ 32 - 1, MY_ERRNO_ERANGE, n)) /\
  my_strntoull_8bit isspace s base = (if v <? 2 ^ 64 then (u64 x, 0, n) else (2 ^ 64 - 1, MY_ERRNO_ERANGE, n)).
Proof.
  intros Hb Hsp Hn v x.
  destruct (scan_number_spec isspace base Hb Hsp (2 ^ 32 - 1) s negative ds n ltac:(lia) Hn) as (i & o & rest & H32 & <- & Hv & Ho).
  destruct (scan_number_spec isspace base Hb Hsp (2 ^ 64 - 1) s negative ds _ ltac:(lia) Hn) as (j & p & rest' & H64 & El & _ & Hp).
  unfold my_strntol_8bit, my_strntoll_8bit, my_strntoul_8bit, my_strntoull_8bit. rewrite H32, H64, El. fold v in Hv, Ho, Hp.
  unfold in_range, INT_MIN32, INT_MAX32, LONGLONG_MIN, LONGLONG_MAX, x. clear H32 H64 Hn Hsp.
  assert (u32 (- 2 ^ 31) = 2 ^ 31 /\ u64 (- 2 ^ 63) = 2 ^ 63 /\ u64 (2 ^ 63 - 1) = 2 ^ 63 - 1) as (-> & -> & ->) by (by vm_compute).
  split_and!.
  - destruct o; [|destruct Ho as [-> Ho]]; cbn [orb]; destruct negative; repeat case_if; b2p; (done || lia).
  - destruct p; [|destruct Hp as [-> Hp]]; cbn [orb]; destruct negative; repeat case_if; b2p; try (done || lia).
    + rewrite <- s64_u64. do 2 f_equal. unfold s64, u64. dlia.
    + do 2 f_equal. apply s64_small. lia.
  - destruct o; [|destruct Ho as [-> Ho]]; destruct negative; repeat case_if; b2p; (done || lia).
  - destruct p; [|destruct Hp as [-> Hp]]; destruct negative; repeat case_if; b2p; try (done || lia).
    + do 2 f_equal. rewrite u64_s64. unfold s64, u64. dlia.
    + do 2 f_equal. by rewrite u64_s64.
Qed.

Lemma is_blank_ok c : c = 45 \/ c = 43 \/ digit_of c <> None -> is_blank c = false.
Proof.
  intros Hc. unfold is_blank. apply orb_false_iff. rewrite !Z.eqb_neq.
  destruct Hc as [-> |[-> |Hc]]; [lia|lia|]. split; intros ->; by apply Hc.
Qed.

(** "-80000000 apples" in base 16 and with a limit of 32 bits. *)
Lemma strnto_exact_witness :
  let s := [32; 45; 56; 48; 48; 48; 48; 48; 48; 48; 32; 97] in
  my_strntol_8bit is_blank s 16 = in_range INT_MIN32 INT_MAX32 (- 2 ^ 31) 10 /\
  my_strntoll_8bit is_blank s 16 = in_range LONGLONG_MIN LONGLONG_MAX (- 2 ^ 31) 10 /\
  my_strntoul_8bit is_blank s 16 = (u64 (- 2 ^ 31), 0, 10%nat) /\ my_strntoull_8bit is_blank s 16 = (u64 (- 2 ^ 31), 0, 10%nat).
Proof.
  apply (strnto_exact is_blank 16 [32; 45; 56; 48; 48; 48; 48; 48; 48; 48; 32; 97] true [8; 0; 0; 0; 0; 0; 0; 0] 10); [lia|exact is_blank_ok|].
  exists [32], [45], [56; 48; 48; 48; 48; 48; 48; 48], [32; 97]. split_and!; try done; repeat constructor; done || lia.
Defined.

Section errors.
Variable isspace : Z -> bool.
Variable base : Z.

Lemma digit_of_nonneg c d : digit_of c = Some d -> 0 <= d.
Proof. unfold digit_of. repeat case_if; intros [= <-]; b2p; lia. Qed.

Lemma number_loop_digits top s : forall i o i' o' rest, number_loop top base s i o = (i', o', rest) ->
  exists l ds, s = l ++ rest /\ Forall2 (fun c d => digit_of c = Some d) l ds /\ Forall (fun d => 0 <= d < base) ds /\ stops base rest.
Proof.
  induction s as [|c s IH]; intros i o i' o' rest E; cbn [number_loop] in E; [injection E as _ _ <-; by exists [], []|].
  destruct (digit_of c) as [d|] eqn:Ed; [|injection E as _ _ <-; exists [], []; cbn; by rewrite Ed].
  destruct (Z.leb_spec base d); [injection E as _ _ <-; exists [], []; cbn; by rewrite Ed|].
  assert (exists i o, number_loop top base s i o = (i', o', rest)) as (i2 & o2 & E2) by (destruct (_ || _); eauto).
  apply IH in E2 as (l & ds & -> & Hl & Hds & Hr). exists (c :: l), (d :: ds).
  split_and!; [done|by constructor| |done]. constructor; [|done]. by apply digit_of_nonneg in Ed.
Qed.

Lemma skip_space_spec s : exists sp, s = sp ++ skip_space isspace s /\ Forall (fun c => isspace c = true) sp.
Proof.
  induction s as [|c s (sp & E & Hsp)]; [by exists []|]. cbn. destruct (isspace c) eqn:Ec; [|by exists []].
  exists (c :: sp). cbn. rewrite <- E. split; [done|by constructor].
Qed.

Lemma scan_number_numeral top s r : scan_number isspace top base s = Some r -> exists negative ds n, numeral isspace base s negative ds n.
Proof.
  unfold scan_number. destruct (skip_space_spec s) as (sp & Es & Hsp). intros E. destruct (skip_space isspace s) as [|c s']; [done|].
  assert (exists negative sg save, (if c =? 45 then (true, s') else if c =? 43 then (false, s') else (false, c :: s')) = (negative, save) /\
    c :: s' = sg ++ save /\ if negative : bool then sg = [45] else sg = [] \/ sg = [43]) as (negative & sg & save & Ep & Esg & Hsg).
  { destruct (Z.eqb_spec c 45) as [->|]; [exists true, [45], s'; auto|]. destruct (Z.eqb_spec c 43) as [->|]; [exists false, [43], s'; auto|].
    exists false, [], (c :: s'). auto. }
  rewrite Ep in E. destruct (number_loop top base save 0 false) as [[i o] rest] eqn:El. case_bool_decide as Hlen; [done|].
  apply number_loop_digits in El as (l & ds & -> & Hl & Hds & Hr). exists negative, ds, (length (sp ++ sg ++ l)), sp, sg, l, rest.
  rewrite Es, Esg. split_and!; try done. intros ->. by inversion Hl; subst.
Qed.
End errors.

(** A string that does not start with a number after white space and a sign
    is refused: all four conversions return 0 with the error [EDOM] and leave
    the end pointer at the start. *)
Theorem strnto_edom isspace base s : ~ (exists negative ds n, numeral isspace base s negative ds n) ->
  my_strntol_8bit isspace s base = (0, MY_ERRNO_EDOM, O) /\ my_strntoul_8bit isspace s base = (0, MY_ERRNO_EDOM, O) /\
  my_strntoll_8bit isspace s base = (0, MY_ERRNO_EDOM, O) /\ my_strntoull_8bit isspace s base = (0, MY_ERRNO_EDOM, O).
Proof.
  intros Hn. assert (forall top, scan_number isspace top base s = None) as Hs.
  { intros top. destruct (scan_number isspace top base s) as [r|] eqn:E; [|done]. destruct Hn. by eapply scan_number_numeral. }
  unfold my_strntol_8bit, my_strntoll_8bit, my_strntoul_8bit, my_strntoull_8bit. by rewrite !Hs.
Qed.

Lemma strnto_edom_witness : let s := [32; 45; 32; 49] in
  my_strntol_8bit is_blank s 10 = (0, MY_ERRNO_EDOM, O) /\ my_strntoul_8bit is_blank s 10 = (0, MY_ERRNO_EDOM, O) /\
  my_strntoll_8bit is_blank s 10 = (0, MY_ERRNO_EDOM, O) /\ my_strntoull_8bit is_blank s 10 = (0, MY_ERRNO_EDOM, O).
Proof.
  apply (strnto_edom is_blank 10 [32; 45; 32; 49]). intros (negative & ds & n & Hn).
  destruct (scan_number_spec is_blank 10 ltac:(lia) is_blank_ok 100 _ _ _ _ ltac:(lia) Hn) as (i & overflow & rest & E & _).
  vm_compute in E. discriminate E.
Defined.

(** *** Printing *)

Lemma rem10 val : is_s64 val -> u32 (val - u64 val / 10 * 10) = u64 val mod 10.
Proof.
  intros Hv. pose proof (u64_range val). assert (val = u64 val \/ val = u64 val - 2 ^ 64) as [E|E] by (unfold u64 in *; dlia);
    rewrite E at 1; unfold u32; [|replace (u64 val - 2 ^ 64 - u64 val / 10 * 10) with (u64 val mod 10 + (- 2 ^ 32) * 2 ^ 32) by dlia; rewrite Z.mod_add by lia].
  - replace (u64 val - u64 val / 10 * 10) with (u64 val mod 10) by dlia. apply Z.mod_small. dlia.
  - apply Z.mod_small. dlia.
Qed.

Lemma ull10_ull fuel : forall val p, is_s64 val -> ull10_loop fuel val p = ull_loop fuel 10 val p.
Proof.
  induction fuel as [|fuel IH]; intros val p Hv; [done|]. cbn [ull10_loop ull_loop]. destruct (_ <? _); [|done].
  rewrite rem10 by done. pose proof (Z.mod_pos_bound (u64 val) 10 ltac:(lia)). change dig_vec_upper with (dig_vec true).
  rewrite (dig_lookup true) by lia. rewrite bind_Some_eq, <- char_dig by lia.
  assert (u8 (char_0 + u64 val mod 10) = char_0 + s8 (u64 val mod 10)) as ->.
  { generalize dependent (u64 val mod 10). intros d Hd. unfold char_0, s8. rewrite u8_small by lia. rewrite Z.mod_small by lia. lia. }
  destruct (push _ p); [|done]. rewrite !bind_Some_eq. apply IH, s64_range.
Qed.

Lemma digits_20 n : is_u64 n -> (length (digits 10 n) <= 20)%nat.
Proof.
  intros Hn. destruct (digits_spec 10 n ltac:(lia) Hn) as (Hv & Hl & Hd & Hh).
  destruct (Nat.le_gt_cases (length (digits 10 n)) 20) as [|Hgt]; [done|].
  destruct (decide (head (digits 10 n) = Some 0)) as [E|E]; [apply Hh in E; rewrite E in Hgt; simpl in Hgt; lia|].
  pose proof (value_ge (digits 10 n) 20 Hd E ltac:(lia)). rewrite Hv in *. lia.
Qed.

(** The digits that the loops leave in the buffer. *)
Lemma long10_digits v : is_s64 v -> let new_val := s64 (u64 v / 10) in
  (p ← push (char_0 + s8 (u64 v - u64 new_val * 10)) []; long10_loop 65 new_val p) = Some (dig_char true <$> digits 10 (u64 v)).
Proof.
  intros Hv. pose proof (int10_to_str_render v 10 Hv) as Hr. unfold int10_to_str, render in Hr. cbn [Z.ltb Z.compare andb app] in Hr.
  apply bind_Some in Hr as (p & Hp & (q & Hq & [= <-])%bind_Some). cbn zeta. by rewrite Hp, bind_Some_eq, Hq.
Qed.

Lemma longlong10_digits v : is_s64 v -> v <> 0 ->
  ('(long_val, p) ← ull10_loop 65 v []; long10_loop 65 long_val p) = Some (dig_char true <$> digits 10 (u64 v)).
Proof.
  intros Hv Hz. rewrite ull10_ull by done. destruct (ull_loop_spec 10 v ltac:(lia) Hv) as (lv & p & E & Hlv & _).
  pose proof (ll_core 10 v ltac:(lia) Hv Hz) as Hc. rewrite E, bind_Some_eq in *. by rewrite long10_long by lia.
Qed.

(** The sign, the magnitude and the room that is left. *)
Lemma sign_split len radix val : is_s64 val -> 21 <= len < 2 ^ 32 ->
  let '(sign, v, len') := if (radix <? 0) && (val <? 0) then ([minus_sign], s64 (- val), u32 (len - 1)) else ([], val, len) in
  is_s64 v /\ 20 <= len' /\ sign ++ (dig_char true <$> digits 10 (u64 v)) = render true (radix <? 0) 10 val /\
  (length (dig_char true <$> digits 10 (u64 v)) <= 20)%nat.
Proof.
  intros Hv Hlen. unfold render. destruct ((radix <? 0) && (val <? 0)) eqn:E.
  - b2p. split_and!; [apply s64_range..|rewrite u32_small; lia|by rewrite s64_opp by lia|rewrite length_fmap; apply digits_20, u64_range].
  - split_and!; [lia..|done|rewrite length_fmap; apply digits_20, u64_range].
Qed.

Lemma long10_8bit_render len radix val : is_s64 val -> 21 <= len < 2 ^ 32 ->
  my_long10_to_str_8bit len radix val =
    Some (render true (radix <? 0) 10 val, Z.of_nat (length (render true (radix <? 0) 10 val))).
Proof.
  intros Hv Hlen. unfold my_long10_to_str_8bit. pose proof (sign_split len radix val Hv Hlen) as Hs.
  destruct (if (radix <? 0) && (val <? 0) then _ else _) as [[sign v] len']. destruct Hs as (Hv' & Hl' & <- & H20).
  pose proof (long10_digits v Hv') as Hd. cbn zeta in *. apply bind_Some in Hd as (p & -> & Hq). rewrite bind_Some_eq, Hq. cbn [mbind option_bind].
  rewrite Z.min_r, Nat2Z.id, firstn_all, length_app by lia. do 2 f_equal. lia.
Qed.

Lemma longlong10_8bit_render len radix val : is_s64 val -> 21 <= len < 2 ^ 32 ->
  my_longlong10_to_str_8bit len radix val =
    Some (render true (radix <? 0) 10 val, Z.of_nat (length (render true (radix <? 0) 10 val))).
Proof.
  intros Hv Hlen. unfold my_longlong10_to_str_8bit. pose proof (sign_split len radix val Hv Hlen) as Hs.
  destruct (if (radix <? 0) && (val <? 0) then _ else _) as [[sign v] len']. destruct Hs as (Hv' & Hl' & <- & H20).
  destruct (Z.eqb_spec v 0) as [->|Hz]; [change (dig_char true <$> digits 10 (u64 0)) with [char_0]; rewrite length_app; cbn [length]; do 2 f_equal; lia|].
  pose proof (longlong10_digits v Hv' Hz) as Hd. apply bind_Some in Hd as ([lv p] & -> & Hq). rewrite bind_Some_eq, Hq. cbn [mbind option_bind].
  rewrite Z.min_r, Nat2Z.id, firstn_all, length_app by lia. do 2 f_equal. lia.
Qed.

Lemma digit_of_char d : 0 <= d < 10 -> digit_of (dig_char true d) = Some d.
Proof.
  intros Hd. assert (d ∈ seqZ 0 10) as Hin by (apply elem_of_seqZ; lia). simpl in Hin.
  repeat (apply elem_of_cons in Hin as [->|Hin]; [reflexivity|]). by apply not_elem_of_nil in Hin.
Qed.

(** What is printed is a numeral. *)
Lemma render_numeral isspace val : is_s64 val ->
  let m := if val <? 0 then - val else val in
  numeral isspace 10 (render true true 10 val) (val <? 0) (digits 10 m) (length (render true true 10 val)) /\ value 10 (digits 10 m) = m.
Proof.
  intros Hv m. assert (is_u64 m) as Hm by (unfold m; case_if; b2p; lia).
  destruct (digits_spec 10 m ltac:(lia) Hm) as (Hval & Hl & Hd & _). split; [|done].
  exists [], (if val <? 0 then [45] else []), (dig_char true <$> digits 10 m), []. rewrite app_nil_r. cbn [app].
  assert (render true true 10 val = (if val <? 0 then [45] else []) ++ (dig_char true <$> digits 10 m)) as ->.
  { unfold render, m. cbn [andb]. case_if; [done|]. b2p. by rewrite u64_small by lia. }
  split_and!; try done.
  - destruct (val <? 0); auto.
  - apply Forall2_fmap_l. clear -Hd. induction Hd as [|d ds Hd _ IH]; constructor; [by apply digit_of_char|done].
  - intros E. rewrite E in Hl. simpl in Hl. lia.
Qed.

(** What the two routines print for a signed number, [my_strntoll_8bit]
    reads back: the number, no error, and the end of the string; the length
    returned is the number of bytes written. *)
Theorem long10_8bit_roundtrip isspace len val : is_s64 val -> 21 <= len < 2 ^ 32 ->
  (forall c, c = 45 \/ c = 43 \/ digit_of c <> None -> isspace c = false) ->
  exists s, my_long10_to_str_8bit len (-10) val = Some (s, Z.of_nat (length s)) /\
    my_longlong10_to_str_8bit len (-10) val = Some (s, Z.of_nat (length s)) /\
    my_strntoll_8bit isspace s 10 = (val, 0, length s).
Proof.
  intros Hv Hlen Hsp. exists (render true true 10 val). split; [by rewrite long10_8bit_render|]. split; [by rewrite longlong10_8bit_render|].
  destruct (render_numeral isspace val Hv) as [Hn Hval].
  destruct (scan_number_spec isspace 10 ltac:(lia) Hsp (2 ^ 64 - 1) _ _ _ _ ltac:(lia) Hn) as (i & o & rest & Hs & El & _ & Ho).
  unfold my_strntoll_8bit. rewrite Hs, El. rewrite Hval in Ho.
  assert (u64 LONGLONG_MIN = 2 ^ 63 /\ u64 LONGLONG_MAX = 2 ^ 63 - 1) as (-> & ->) by (by vm_compute).
  destruct (Z.ltb_spec val 0); (destruct o; [lia|destruct Ho as [-> _]]); cbn [orb]; case_if; b2p; try lia; do 2 f_equal.
  - unfold s64. dlia.
  - by rewrite s64_small by lia.
Qed.

Lemma long10_8bit_roundtrip_witness :
  exists s, my_long10_to_str_8bit 21 (-10) (- 2 ^ 63) = Some (s, Z.of_nat (length s)) /\
    my_longlong10_to_str_8bit 21 (-10) (- 2 ^ 63) = Some (s, Z.of_nat (length s)) /\
    my_strntoll_8bit is_blank s 10 = (- 2 ^ 63, 0, length s).
Proof.
  apply (long10_8bit_roundtrip is_blank 21 (- 2 ^ 63)); [lia|lia|]. intros c Hc. unfold is_blank. apply orb_false_iff. rewrite !Z.eqb_neq.
  destruct Hc as [-> |[-> |Hc]]; [lia|lia|]. split; intros ->; by apply Hc.
Defined.
