(* ===== verification/MyTime.v ===== *)
(** * Dates and times (sql-common/my_time.c)

    The broken-down value [MYSQL_TIME] of include/mysql_time.h, the calendar,
    the check of a date, the conversions from and to numbers, and the
    conversion of local time to seconds since the epoch.  [localtime_r] of the
    C library is a parameter.  [None] is a read outside a table. *)

From stdpp Require Import base numbers list.
From Stdlib Require Import ZArith Lia.
From S2P Require Import Prelude.

Local Open Scope Z_scope.

(** ** Data *)

Inductive enum_mysql_timestamp_type :=
  | MYSQL_TIMESTAMP_NONE
  | MYSQL_TIMESTAMP_ERROR
  | MYSQL_TIMESTAMP_DATE
  | MYSQL_TIMESTAMP_DATETIME
  | MYSQL_TIMESTAMP_TIME.

#[export] Instance timestamp_type_eq_dec : EqDecision enum_mysql_timestamp_type.
Proof. solve_decision. Defined.

Record MYSQL_TIME := mkTime {
  year : Z; month : Z; day : Z; hour : Z; minute : Z; second : Z;
  second_part : Z;
  neg : bool;
  time_type : enum_mysql_timestamp_type }.

(** [bzero((char * ) l_time, sizeof( *l_time))]: the time type 0 is
    [MYSQL_TIMESTAMP_DATE]. *)
Definition bzero_time : MYSQL_TIME := mkTime 0 0 0 0 0 0 0 false MYSQL_TIMESTAMP_DATE.

Definition set_zero_time (ty : enum_mysql_timestamp_type) : MYSQL_TIME :=
  mkTime 0 0 0 0 0 0 0 false ty.

Definition YY_PART_YEAR : Z := 70.
Definition TIME_FUZZY_DATE : Z := 1.
Definition TIME_DATETIME_ONLY : Z := 2.
Definition TIME_NO_ZERO_IN_DATE : Z := 65536 * 2 * 2 * 2 * 2 * 2 * 2 * 2.
Definition TIME_NO_ZERO_DATE : Z := TIME_NO_ZERO_IN_DATE * 2.
Definition TIME_INVALID_DATES : Z := TIME_NO_ZERO_DATE * 2.

Definition log_10_int : list Z :=
  [1; 10; 100; 1000; 10000; 100000; 1000000; 10000000; 100000000; 1000000000; 10000000000;
   100000000000; 1000000000000; 10000000000000; 100000000000000; 1000000000000000;
   10000000000000000; 100000000000000000; 1000000000000000000; 10000000000000000000].

Definition days_in_month : list Z := [31; 28; 31; 30; 31; 30; 31; 31; 30; 31; 30; 31; 0].

Definition days_at_timestart : Z := 719528.

(** [if (flags & bit)]. *)
Definition has (flags bit : Z) : bool := negb (Z.land flags bit =? 0).

(** ** The calendar *)

Definition calc_days_in_year (year : Z) : Z :=
  if (Z.land year 3 =? 0) && (negb (year mod 100 =? 0) || ((year mod 400 =? 0) && negb (year =? 0)))
  then 366 else 365.

Definition calc_daynr (year month day : Z) : Z :=
  if (year =? 0) && (month =? 0) && (day =? 0) then 0
  else
    let year :=
      if year <? 200 then
        let year := u32 (year + 1900) in
        if year <? 1900 + YY_PART_YEAR then u32 (year + 100) else year
      else year in
    let delsum := 365 * year + u32 (31 * u32 (month - 1)) + day in
    let '(year, delsum) :=
      if month <=? 2 then (u32 (year - 1), delsum)
      else (year, delsum - Z.quot (u32 (month * 4 + 23)) 10) in
    let temp := Z.quot (s32 (u32 ((year / 100 + 1) * 3))) 4 in
    delsum + Z.quot (s32 year) 4 - temp.

(** ** The check of a date

    The result and the new [*was_cut]. *)
Definition check_date (ltime : MYSQL_TIME) (not_zero_date : bool) (flags was_cut : Z)
  : option (bool * Z) :=
  if not_zero_date then
    bad ← (if (has flags TIME_NO_ZERO_IN_DATE || negb (has flags TIME_FUZZY_DATE)) &&
              ((month ltime =? 0) || (day ltime =? 0))
           then Some true
           else if negb (has flags TIME_INVALID_DATES) && negb (month ltime =? 0) then
             d ← days_in_month !! Z.to_nat (month ltime - 1);
             Some ((d <? day ltime) &&
                   (negb (month ltime =? 2) || negb (calc_days_in_year (year ltime) =? 366) ||
                    negb (day ltime =? 29)))
           else Some false);
    Some (if (bad : bool) then (true, 2) else (false, was_cut))
  else if has flags TIME_NO_ZERO_DATE then Some (true, was_cut)
  else Some (false, was_cut).

(** ** Numbers *)

Definition TIME_to_ulonglong_datetime (time : MYSQL_TIME) : Z :=
  u64 (u64 (year time * 10000 + month time * 100 + day time) * 1000000 +
       u64 (hour time * 10000 + minute time * 100 + second time)).

Definition TIME_to_ulonglong_date (time : MYSQL_TIME) : Z :=
  u64 (year time * 10000 + month time * 100 + day time).

Definition TIME_to_ulonglong_time (time : MYSQL_TIME) : Z :=
  u64 (hour time * 10000 + minute time * 100 + second time).

Definition TIME_to_ulonglong (time : MYSQL_TIME) : Z :=
  match time_type time with
  | MYSQL_TIMESTAMP_DATETIME => TIME_to_ulonglong_datetime time
  | MYSQL_TIMESTAMP_DATE => TIME_to_ulonglong_date time
  | MYSQL_TIMESTAMP_TIME => TIME_to_ulonglong_time time
  | MYSQL_TIMESTAMP_NONE | MYSQL_TIMESTAMP_ERROR => 0
  end.

(** The tests before [ok:], with the number in YYYYMMDDHHMMSS form; [None] is
    [goto err]. *)
Definition datetime_number (nr : Z) : option Z :=
  if (nr =? 0) || (10000101000000 <=? nr) then Some nr
  else if nr <? 101 then None
  else if nr <=? (YY_PART_YEAR - 1) * 10000 + 1231 then Some ((nr + 20000000) * 1000000)
  else if nr <? YY_PART_YEAR * 10000 + 101 then None
  else if nr <=? 991231 then Some ((nr + 19000000) * 1000000)
  else if nr <? 10000101 then None
  else if nr <=? 99991231 then Some (nr * 1000000)
  else if nr <? 101000000 then None
  else if nr <=? (YY_PART_YEAR - 1) * 10000000000 + 1231235959 then Some (nr + 20000000000000)
  else if nr <? YY_PART_YEAR * 10000000000 + 101000000 then None
  else if nr <=? 991231235959 then Some (nr + 19000000000000)
  else Some nr.

(** The fields the function assigns; the others of [time_res] stay. *)
Definition split_number (nr : Z) (time_res : MYSQL_TIME) : MYSQL_TIME :=
  let part1 := Z.quot nr 1000000 in
  let part2 := nr - part1 * 1000000 in
  let y := u32 (s32 (Z.quot part1 10000)) in
  let part1 := s32 (Z.rem part1 10000) in
  let h := u32 (s32 (Z.quot part2 10000)) in
  let part2 := s32 (Z.rem part2 10000) in
  mkTime y (u32 (Z.quot part1 100)) (u32 (Z.rem part1 100))
         h (u32 (Z.quot part2 100)) (u32 (Z.rem part2 100))
         (second_part time_res) (neg time_res) (time_type time_res).

Definition in_ranges (t : MYSQL_TIME) : bool :=
  (year t <=? 9999) && (month t <=? 12) && (day t <=? 31) && (hour t <=? 23) &&
  (minute t <=? 59) && (second t <=? 59).

(** The returned number, [*time_res] and [*was_cut]. *)
Definition number_to_datetime (nr : Z) (time_res : MYSQL_TIME) (flags : Z)
  : option (Z * MYSQL_TIME * Z) :=
  match datetime_number nr with
  | None => Some (-1, time_res, 1)
  | Some nr =>
      let time_res := split_number nr time_res in
      r ← (if in_ranges time_res then check_date time_res (negb (nr =? 0)) flags 0
           else Some (true, 0));
      let '(bad, was_cut) := r in
      if negb bad then Some (nr, time_res, was_cut)
      else if (nr =? 0) && has flags TIME_NO_ZERO_DATE then Some (-1, time_res, was_cut)
      else Some (-1, time_res, 1)
  end.

Example number_ex1 :
  number_to_datetime 700101 bzero_time 0 =
    Some (19700101000000, mkTime 1970 1 1 0 0 0 0 false MYSQL_TIMESTAMP_DATE, 0).
Proof. reflexivity. Qed.
Example number_ex2 :
  number_to_datetime 20050229000000 bzero_time 0 =
    Some (-1, mkTime 2005 2 29 0 0 0 0 false MYSQL_TIMESTAMP_DATE, 1).
Proof. reflexivity. Qed.
Example daynr_epoch : calc_daynr 1970 1 1 = days_at_timestart.
Proof. reflexivity. Qed.

(** ** Local time *)

(** The fields of [struct tm] the code reads. *)
Record tm := mkTm {
  tm_year : Z; tm_mon : Z; tm_mday : Z; tm_hour : Z; tm_min : Z; tm_sec : Z }.

Section local_time.
(** [localtime_r] of the C library: the broken-down local time of a [time_t]. *)
Variable localtime_r : Z -> tm.

Definition same_clock (t : MYSQL_TIME) (l : tm) : bool :=
  (hour t =? u32 (tm_hour l)) && (minute t =? u32 (tm_min l)) && (second t =? u32 (tm_sec l)).

(** The difference in seconds between [t] and [l], which are at most a day
    apart. *)
Definition clock_diff (t : MYSQL_TIME) (l : tm) : Z :=
  let days := s32 (day t - tm_mday l) in
  let days := if days <? -1 then 1 else if 1 <? days then -1 else days in
  3600 * (days * 24 + (s32 (hour t) - tm_hour l)) +
  60 * (s32 (minute t) - tm_min l) + (s32 (second t) - tm_sec l).

(** [for (loop= 0; loop < 2 && ...; loop++)] with [n = 2 - loop]: the value
    of [2 - loop], [tmp], the time zone and the local time at the exit. *)
Fixpoint gmt_loop (n : nat) (t : MYSQL_TIME) (tmp current_timezone : Z) (l_time : tm)
  : nat * Z * Z * tm :=
  match n with
  | O => (O, tmp, current_timezone, l_time)
  | S n' =>
      if same_clock t l_time then (n, tmp, current_timezone, l_time)
      else
        let diff := clock_diff t l_time in
        let current_timezone := s64 (current_timezone + (diff + 3600)) in
        let tmp := s64 (tmp + diff) in
        gmt_loop n' t tmp current_timezone (localtime_r tmp)
  end.

(** The seconds since the epoch, the new [*my_timezone] and whether
    [*in_dst_time_gap] is set. *)
Definition my_system_gmt_sec (my_time_zone : Z) (t : MYSQL_TIME) : Z * Z * bool :=
  let tmp := s64 ((calc_daynr (year t) (month t) (day t) - days_at_timestart) * 86400 +
                  hour t * 3600 + u32 (minute t * 60 + second t) + my_time_zone - 3600) in
  let '(rounds_left, tmp, current_timezone, l_time) :=
    gmt_loop 2 t tmp my_time_zone (localtime_r tmp) in
  if (rounds_left =? 0)%nat && negb (hour t =? u32 (tm_hour l_time)) then
    let diff := clock_diff t l_time in
    let tmp :=
      if diff =? 3600 then s64 (tmp + u32 (3600 - minute t * 60 - second t))
      else if diff =? -3600 then s64 (tmp - u32 (minute t * 60 + second t))
      else tmp in
    (tmp, current_timezone, true)
  else (tmp, current_timezone, false).

(** The time zone [init_time] stores, at time [seconds]. *)
Definition init_time (seconds : Z) : Z :=
  let l_time := localtime_r seconds in
  let my_time :=
    mkTime (u32 (tm_year l_time + 1900)) (u32 (tm_mon l_time + 1)) (u32 (tm_mday l_time))
           (u32 (tm_hour l_time)) (u32 (tm_min l_time)) (u32 (tm_sec l_time)) 0 false
           MYSQL_TIMESTAMP_DATE in
  let '(_, my_time_zone, _) := my_system_gmt_sec 3600 my_time in
  my_time_zone.
End local_time.

(** ** Theory of the calendar *)

(** The length of a month of a given year. *)
Definition month_len (y m : Z) : Z :=
  if (m =? 2) && (calc_days_in_year y =? 366) then 29
  else default 0 (days_in_month !! Z.to_nat (m - 1)).

Definition valid_date (y m d : Z) : Prop := 1 <= m <= 12 /\ 1 <= d <= month_len y m.

(** The days of the years before [y], and of the months before [m]. *)
Definition days_before_year (y : Z) : Z := foldr Z.add 0 (calc_days_in_year <$> seqZ 0 y).
Definition days_before_month (y m : Z) : Z := foldr Z.add 0 (month_len y <$> seqZ 1 (m - 1)).

Lemma calc_days_in_year_mod y : calc_days_in_year y =
  if (y mod 4 =? 0) && (negb (y mod 100 =? 0) || ((y mod 400 =? 0) && negb (y =? 0))) then 366 else 365.
Proof. unfold calc_days_in_year. change 3 with (Z.ones 2). by rewrite Z.land_ones by lia. Qed.

Lemma foldr_add_app l x : foldr Z.add 0 (l ++ [x]) = foldr Z.add 0 l + x.
Proof. induction l as [|a l IH]; simpl; lia. Qed.

Lemma days_before_year_succ y : 0 <= y ->
  days_before_year (y + 1) = days_before_year y + calc_days_in_year y.
Proof.
  intros Hy. unfold days_before_year. rewrite seqZ_app by lia. rewrite fmap_app. simpl.
  by rewrite foldr_add_app, Z.add_0_l.
Qed.

(** The closed form of the count of days, for years from 1. *)
Lemma days_before_year_closed y : 1 <= y ->
  days_before_year y = 365 * y + (y - 1) / 4 - ((y - 1) / 100 + 1) * 3 / 4.
Proof.
  intros Hy. rewrite <- (Z2Nat.id y) in * by lia. set (n := Z.to_nat y) in *. clearbody n. clear y.
  destruct n as [|n]; [lia|]. induction n as [|n IH]; [reflexivity|].
  replace (Z.of_nat (S (S n))) with (Z.of_nat (S n) + 1) by lia.
  rewrite days_before_year_succ, IH by lia. set (k := Z.of_nat (S n)) in *.
  rewrite calc_days_in_year_mod. case_if; dlia.
Qed.

Lemma month_cases m : 1 <= m <= 12 ->
  m = 1 \/ m = 2 \/ m = 3 \/ m = 4 \/ m = 5 \/ m = 6 \/ m = 7 \/ m = 8 \/ m = 9 \/ m = 10 \/ m = 11 \/ m = 12.
Proof. lia. Qed.

Lemma month_len_bound y m : 1 <= m <= 12 -> 28 <= month_len y m <= 31.
Proof.
  intros Hm. unfold month_len. destruct (month_cases m Hm) as [H|H]; repeat destruct H as [H|H];
    subst m; simpl; try lia; case_if; lia.
Qed.

Lemma days_before_month_closed y m : 1 <= m <= 12 ->
  days_before_month y m =
    31 * (m - 1) - (if m <=? 2 then 0 else (m * 4 + 23) / 10 - (calc_days_in_year y - 365)).
Proof.
  intros Hm. unfold days_before_month, month_len.
  assert (calc_days_in_year y = 365 \/ calc_days_in_year y = 366) as Hy
    by (unfold calc_days_in_year; case_if; auto).
  destruct (month_cases m Hm) as [H|H]; repeat destruct H as [H|H]; subst m;
    destruct Hy as [-> | ->]; reflexivity.
Qed.

(** The year [calc_daynr] works with: years below 200 are taken as offsets
    from 1900, or from 2000 below [YY_PART_YEAR]. *)
Definition full_year (y : Z) : Z :=
  if y <? 70 then y + 2000 else if y <? 200 then y + 1900 else y.

Lemma calc_daynr_count y m d : 0 <= y < 2 ^ 20 -> valid_date (full_year y) m d ->
  calc_daynr y m d = days_before_year (full_year y) + days_before_month (full_year y) m + d.
Proof.
  intros Hy [Hm Hd]. pose proof (month_len_bound (full_year y) m Hm) as Hml.
  rewrite days_before_month_closed, days_before_year_closed by (auto; unfold full_year; repeat case_if; lia).
  unfold calc_daynr, YY_PART_YEAR. rewrite (proj2 (Z.eqb_neq m 0)), andb_false_r by lia. cbn [andb].
  set (y' := if y <? 200 then _ else y).
  assert (y' = full_year y) as ->.
  { unfold y', full_year. rewrite (u32_small (y + 1900)) by lia.
    repeat case_if; try rewrite u32_small; lia. }
  set (fy := full_year y) in *.
  assert (200 <= fy < 2 ^ 21) as Hfy by (unfold fy, full_year; repeat case_if; lia). clearbody fy. clear Hy y.
  rewrite (u32_small (m - 1)), (u32_small (31 * (m - 1))), (u32_small (m * 4 + 23)) by lia.
  rewrite (Z.quot_div_nonneg (m * 4 + 23)) by lia.
  destruct (Z.leb_spec m 2) as [H2|H2].
  - rewrite (u32_small (fy - 1)) by lia. rewrite (u32_small (((fy - 1) / 100 + 1) * 3)) by dlia.
    rewrite !s32_small by dlia. rewrite !Z.quot_div_nonneg by dlia. lia.
  - rewrite (u32_small ((fy / 100 + 1) * 3)) by dlia. rewrite !s32_small by dlia.
    rewrite !Z.quot_div_nonneg by dlia. rewrite calc_days_in_year_mod. case_if; dlia.
Qed.

Lemma days_before_month_succ y m : 1 <= m ->
  days_before_month y (m + 1) = days_before_month y m + month_len y m.
Proof.
  intros Hm. unfold days_before_month. replace (m + 1 - 1) with (m - 1 + 1) by lia.
  rewrite seqZ_app by lia. rewrite fmap_app. simpl. rewrite foldr_add_app.
  do 2 f_equal. lia.
Qed.

Lemma days_before_year_mono y y' : 1 <= y < y' ->
  days_before_year y + calc_days_in_year y <= days_before_year y'.
Proof.
  intros Hy. rewrite <- days_before_year_succ by lia.
  rewrite !days_before_year_closed by lia. dlia.
Qed.

Lemma days_before_month_mono y m m' : 1 <= m -> m < m' -> m' <= 12 ->
  days_before_month y m + month_len y m <= days_before_month y m'.
Proof.
  intros H1 H2 H3. rewrite <- days_before_month_succ by lia.
  destruct (Z.eq_dec (m + 1) m') as [<-|Hne]; [lia|].
  rewrite !days_before_month_closed by lia.
  unfold calc_days_in_year. repeat case_if; dlia.
Qed.

(** A date lies within its year. *)
Lemma day_of_year_bound y m d : valid_date y m d -> 0 < days_before_month y m + d <= calc_days_in_year y.
Proof.
  intros [Hm Hd]. pose proof (month_len_bound y m Hm).
  assert (0 <= days_before_month y m /\ days_before_month y m + month_len y m <= calc_days_in_year y); [|lia].
  rewrite days_before_month_closed by done. unfold month_len.
  destruct (month_cases m Hm) as [Hm'|Hm']; repeat destruct Hm' as [Hm'|Hm']; subst m; simpl;
    unfold calc_days_in_year; case_if; simpl; dlia.
Qed.

(** The count of days of a date, for the years the code does not reinterpret. *)
Abbreviation daynr y m d := (days_before_year y + days_before_month y m + d).

Definition date_lt (y m d y' m' d' : Z) : Prop :=
  y < y' \/ y = y' /\ (m < m' \/ m = m' /\ d < d').

Lemma daynr_mono y m d y' m' d' : 1 <= y -> 1 <= y' -> valid_date y m d -> valid_date y' m' d' ->
  date_lt y m d y' m' d' -> daynr y m d < daynr y' m' d'.
Proof.
  intros Hy Hy' Hv Hv' Hlt. pose proof (day_of_year_bound _ _ _ Hv). pose proof (day_of_year_bound _ _ _ Hv').
  destruct Hv as [Hm Hd], Hv' as [Hm' Hd'].
  destruct Hlt as [Hlt|[<- [Hlt|[<- Hlt]]]]; [|pose proof (days_before_month_mono y m m')|]; try lia.
  pose proof (days_before_year_mono y y' ltac:(lia)). lia.
Qed.

Lemma date_lt_trichotomy y m d y' m' d' :
  date_lt y m d y' m' d' \/ (y = y' /\ m = m' /\ d = d') \/ date_lt y' m' d' y m d.
Proof. unfold date_lt. lia. Qed.

Lemma daynr_lt_iff y m d y' m' d' : 1 <= y -> 1 <= y' -> valid_date y m d -> valid_date y' m' d' ->
  (daynr y m d < daynr y' m' d' <-> date_lt y m d y' m' d').
Proof.
  intros Hy Hy' Hv Hv'. split; [|by apply daynr_mono].
  destruct (date_lt_trichotomy y m d y' m' d') as [?|[(-> & -> & ->)|Hgt]]; [done|lia|].
  pose proof (daynr_mono _ _ _ _ _ _ Hy' Hy Hv' Hv Hgt). lia.
Qed.

Lemma daynr_inj y m d y' m' d' : 1 <= y -> 1 <= y' -> valid_date y m d -> valid_date y' m' d' ->
  daynr y m d = daynr y' m' d' -> y = y' /\ m = m' /\ d = d'.
Proof.
  intros Hy Hy' Hv Hv' E. destruct (date_lt_trichotomy y m d y' m' d') as [Hl|[?|Hl]]; [|done|];
    apply daynr_mono in Hl; auto; lia.
Qed.

(** The day after a date. *)
Definition next_day (y m d : Z) : Z * Z * Z :=
  if d <? month_len y m then (y, m, d + 1)
  else if m <? 12 then (y, m + 1, 1) else (y + 1, 1, 1).

Lemma next_day_daynr y m d y' m' d' : 1 <= y -> valid_date y m d -> next_day y m d = (y', m', d') ->
  valid_date y' m' d' /\ daynr y' m' d' = daynr y m d + 1.
Proof.
  intros Hy [Hm Hd] Hn. unfold next_day in Hn.
  destruct (Z.ltb_spec d (month_len y m)) as [Hl|Hl]; [injection Hn as <- <- <-; unfold valid_date; lia|].
  destruct (Z.ltb_spec m 12) as [H12|H12]; injection Hn as <- <- <-.
  - rewrite days_before_month_succ by lia. pose proof (month_len_bound y (m + 1)). unfold valid_date. lia.
  - assert (m = 12) as -> by lia. rewrite days_before_year_succ by lia.
    split; [split; [lia|reflexivity + (pose proof (month_len_bound (y + 1) 1); lia)]|].
    rewrite !days_before_month_closed by lia. simpl in *.
    change (month_len y 12) with 31 in *. change ((12 * 4 + 23) / 10) with 7. lia.
Qed.

(** The days of the month of two adjacent dates. *)
Lemma adjacent_days y m d y' m' d' : 1 <= y -> 1 <= y' -> valid_date y m d -> valid_date y' m' d' ->
  daynr y' m' d' = daynr y m d + 1 -> d' = d + 1 \/ d' = 1 /\ 28 <= d.
Proof.
  intros Hy Hy' Hv Hv' E. destruct (next_day y m d) as [[y2 m2] d2] eqn:Hn.
  pose proof (next_day_daynr _ _ _ _ _ _ Hy Hv Hn) as [Hv2 E2].
  assert (1 <= y2) by (unfold next_day in Hn; repeat case_match; simplify_eq; lia).
  destruct (daynr_inj y' m' d' y2 m2 d2) as (-> & -> & ->); auto; [lia|].
  pose proof (month_len_bound y m (proj1 Hv)). unfold next_day in Hn. destruct Hv as [Hm Hd].
  destruct (Z.ltb_spec d (month_len y m)); [simplify_eq; lia|]. case_match; simplify_eq; lia.
Qed.

(** ** Theory of the numbers *)

Definition time_ranges (t : MYSQL_TIME) : Prop :=
  0 <= year t <= 9999 /\ 0 <= month t <= 12 /\ 0 <= day t <= 31 /\
  0 <= hour t <= 23 /\ 0 <= minute t <= 59 /\ 0 <= second t <= 59.

(** [check_date] reads inside its table for every date within the ranges. *)
Lemma check_date_total t nz flags wc : 0 <= month t <= 12 ->
  exists r wc', check_date t nz flags wc = Some (r, wc') /\ (r = false -> wc' = wc).
Proof.
  intros Hm. unfold check_date. destruct nz; [|case_if; eauto].
  case_if; [eexists _, _; split; [done|discriminate]|]. case_if.
  - destruct (lookup_lt_is_Some_2 days_in_month (Z.to_nat (month t - 1))) as [d Hd]; [simpl; lia|].
    rewrite Hd, !bind_Some_eq. case_if; eexists _, _; split; try done.
  - rewrite bind_Some_eq. eauto.
Qed.

Lemma datetime_number_range nr n : is_s64 nr -> datetime_number nr = Some n -> 0 <= n < 2 ^ 63.
Proof.
  unfold datetime_number, YY_PART_YEAR. intros Hn. repeat case_if; intros; simplify_eq; lia.
Qed.

(** The split of a number that is not negative loses nothing. *)
Lemma split_number_spec nr t0 : 0 <= nr < 2 ^ 63 ->
  let t := split_number nr t0 in
  ((year t * 10000 + month t * 100 + day t) * 1000000 + hour t * 10000 + minute t * 100 + second t = nr) /\
  0 <= year t < 2 ^ 31 /\ 0 <= month t <= 99 /\ 0 <= day t <= 99 /\ 0 <= hour t <= 99 /\
  0 <= minute t <= 99 /\ 0 <= second t <= 99.
Proof.
  intros Hn. cbv zeta. unfold split_number. cbn [year month day hour minute second].
  rewrite !(Z.quot_div_nonneg nr 1000000) by lia.
  set (p1 := nr / 1000000). assert (0 <= p1 < 2 ^ 44) by (unfold p1; dlia).
  set (p2 := nr - p1 * 1000000). assert (0 <= p2 < 1000000) by (unfold p2, p1; dlia).
  assert (nr = p1 * 1000000 + p2) as E by (unfold p2; lia). clearbody p1 p2. subst nr.
  rewrite !(Z.quot_div_nonneg p1), !(Z.rem_mod_nonneg p1), !(Z.rem_mod_nonneg p2), !(Z.quot_div_nonneg p2) by lia.
  rewrite !(s32_small (p1 mod 10000)), !(s32_small (p2 mod 10000)) by dlia.
  rewrite !(Z.quot_div_nonneg (_ mod _)), !(Z.rem_mod_nonneg (_ mod _)) by dlia.
  rewrite !s32_small by dlia. rewrite !u32_small by dlia. dlia.
Qed.

Lemma split_number_pack t t0 : time_ranges t ->
  split_number ((year t * 10000 + month t * 100 + day t) * 1000000 + hour t * 10000 + minute t * 100 + second t) t0
  = mkTime (year t) (month t) (day t) (hour t) (minute t) (second t) (second_part t0) (neg t0) (time_type t0).
Proof.
  intros (Hy & Hm & Hd & Hh & Hi & Hs).
  set (nr := (year t * 10000 + month t * 100 + day t) * 1000000 + hour t * 10000 + minute t * 100 + second t).
  destruct (split_number_spec nr t0 ltac:(unfold nr; lia)) as (E & R).
  remember (split_number nr t0) as u. assert (second_part u = second_part t0 /\ neg u = neg t0 /\ time_type u = time_type t0)
    as (E1 & E2 & E3) by (subst u; done).
  destruct u as [y m d h i s sp ng ty]. cbn [year month day hour minute second second_part neg time_type] in *.
  unfold nr in E. subst sp ng ty. f_equal; lia.
Qed.

Lemma to_ulonglong_datetime_eq t : time_ranges t -> TIME_to_ulonglong_datetime t =
  (year t * 10000 + month t * 100 + day t) * 1000000 + hour t * 10000 + minute t * 100 + second t.
Proof.
  intros (Hy & Hm & Hd & Hh & Hi & Hs). unfold TIME_to_ulonglong_datetime.
  rewrite !u64_small by (rewrite ?u64_small; lia). lia.
Qed.

(** ** Theory of the local time *)

(** Seconds since the epoch of a clock reading, as if it were UTC. *)
Definition clock_seconds (y m d h i s : Z) : Z :=
  (daynr y m d - days_at_timestart) * 86400 + h * 3600 + i * 60 + s.

Definition valid_time (t : MYSQL_TIME) : Prop :=
  200 <= year t < 2 ^ 20 /\ valid_date (year t) (month t) (day t) /\
  0 <= hour t <= 23 /\ 0 <= minute t <= 59 /\ 0 <= second t <= 59.

Definition time_seconds (t : MYSQL_TIME) : Z :=
  clock_seconds (year t) (month t) (day t) (hour t) (minute t) (second t).

(** The reading of [struct tm] as a [MYSQL_TIME], as in [init_time]. *)
Definition tm_time (l : tm) : MYSQL_TIME :=
  mkTime (tm_year l + 1900) (tm_mon l + 1) (tm_mday l) (tm_hour l) (tm_min l) (tm_sec l) 0 false
         MYSQL_TIMESTAMP_DATE.

(** [localtime_r] in a zone [off] seconds east of UTC without daylight saving,
    for the times from [lo] to [hi]. *)
Definition fixed_zone (localtime_r : Z -> tm) (off lo hi : Z) : Prop :=
  forall x, lo <= x < hi ->
    valid_time (tm_time (localtime_r x)) /\ time_seconds (tm_time (localtime_r x)) = x + off.

Lemma calc_daynr_full y m d : 200 <= y < 2 ^ 20 -> valid_date y m d -> calc_daynr y m d = daynr y m d.
Proof.
  intros Hy Hv. assert (full_year y = y) as E by (unfold full_year; repeat case_if; lia).
  rewrite calc_daynr_count; rewrite ?E; auto; lia.
Qed.

(** Equal seconds, equal readings. *)
Lemma time_seconds_clock t u : valid_time t -> valid_time u ->
  (time_seconds t - time_seconds u) mod 86400 = 0 ->
  hour t = hour u /\ minute t = minute u /\ second t = second u.
Proof.
  intros (_ & _ & Ht) (_ & _ & Hu). unfold time_seconds, clock_seconds. intros E.
  set (a := daynr (year t) _ _) in *. set (b := daynr (year u) _ _) in *. clearbody a b. dlia.
Qed.

Lemma clock_diff_exact t l : valid_time t -> valid_time (tm_time l) ->
  -86400 < time_seconds t - time_seconds (tm_time l) < 86400 ->
  clock_diff t l = time_seconds t - time_seconds (tm_time l).
Proof.
  intros Ht Hl. pose proof (month_len_bound (year t) _ (proj1 (proj1 (proj2 Ht)))).
  pose proof (month_len_bound (year (tm_time l)) _ (proj1 (proj1 (proj2 Hl)))).
  unfold clock_diff, time_seconds, clock_seconds, valid_time in *.
  destruct Ht as (Hy & Hv & Ht), Hl as (Hy' & Hv' & Hl).
  assert (1 <= year t) as Hy1 by lia. assert (1 <= year (tm_time l)) as Hy2 by lia.
  pose proof (adjacent_days _ _ _ _ _ _ Hy1 Hy2 Hv Hv') as A1.
  pose proof (adjacent_days _ _ _ _ _ _ Hy2 Hy1 Hv' Hv) as A2.
  pose proof (daynr_inj _ _ _ _ _ _ Hy1 Hy2 Hv Hv') as A3.
  unfold valid_date in *. cbn [tm_time year month day hour minute second] in *.
  set (a := daynr (year t) _ _) in *. set (b := daynr (tm_year l + 1900) _ _) in *. clearbody a b.
  intros Hd. rewrite !s32_small by lia.
  assert (a = b \/ a = b + 1 \/ b = a + 1) as [E|[E|E]] by lia.
  - specialize (A3 E). repeat case_if; lia.
  - specialize (A2 E). repeat case_if; lia.
  - specialize (A1 E). repeat case_if; lia.
Qed.

Lemma same_clock_iff t l : valid_time t -> valid_time (tm_time l) ->
  same_clock t l = true <-> (time_seconds t - time_seconds (tm_time l)) mod 86400 = 0.
Proof.
  intros Ht Hl. pose proof (time_seconds_clock t (tm_time l) Ht Hl) as Hc. unfold same_clock.
  destruct Ht as (_ & _ & Ht), Hl as (_ & _ & Hl). unfold tm_time in *.
  unfold time_seconds, clock_seconds in *. cbn [hour minute second year month day] in *.
  rewrite !u32_small by lia. rewrite !andb_true_iff, !Z.eqb_eq.
  set (a := daynr (year t) _ _) in *. set (b := daynr (tm_year l + 1900) _ _) in *. clearbody a b.
  split; [intros [[-> ->] ->]; dlia | intros E; specialize (Hc E); lia].
Qed.

(** One correction is enough when the guess is less than a day off. *)
Lemma gmt_sec_fixed localtime_r off lo hi tz t :
  fixed_zone localtime_r off lo hi -> - 2 ^ 60 <= lo -> hi <= 2 ^ 60 -> valid_time t ->
  -86400 < tz + off - 3600 < 86400 -> is_s32 off ->
  lo <= time_seconds t + tz - 3600 < hi -> lo <= time_seconds t - off < hi ->
  my_system_gmt_sec localtime_r tz t =
    (time_seconds t - off, if tz + off =? 3600 then tz else 7200 - off, false).
Proof.
  intros Hz Hlo Hhi Ht He Hoff Hr1 Hr2. unfold my_system_gmt_sec.
  set (S0 := time_seconds t) in *.
  pose proof Ht as (Hy & Hv & Hck). rewrite calc_daynr_full by done. rewrite (u32_small (minute t * 60 + second t)) by lia.
  assert (s64 ((daynr (year t) (month t) (day t) - days_at_timestart) * 86400 + hour t * 3600 +
            (minute t * 60 + second t) + tz - 3600) = S0 + tz - 3600) as ->.
  { unfold S0, time_seconds, clock_seconds in *. rewrite s64_small; lia. }
  destruct (Hz (S0 + tz - 3600) Hr1) as (Hl0 & Hs0).
  destruct (Hz (S0 - off) Hr2) as (Hl1 & Hs1).
  pose proof (same_clock_iff t _ Ht Hl0) as Hsc. pose proof (same_clock_iff t _ Ht Hl1) as Hsc1.
  rewrite Hs0 in Hsc. rewrite Hs1 in Hsc1. fold S0 in Hsc, Hsc1. cbn [gmt_loop].
  destruct (same_clock t (localtime_r (S0 + tz - 3600))) eqn:E0.
  - assert (tz + off = 3600) as Etz by (pose proof (proj1 Hsc eq_refl) as E; clear -E He; dlia).
    rewrite (proj2 (Z.eqb_eq _ _) Etz). cbn [Nat.eqb andb]. do 2 f_equal. lia.
  - assert (tz + off <> 3600) as Etz.
    { intros E. apply diff_false_true. apply Hsc. replace (S0 - (S0 + tz - 3600 + off)) with 0 by lia. done. }
    rewrite (proj2 (Z.eqb_neq _ _) Etz).
    rewrite clock_diff_exact by (auto; rewrite Hs0; fold S0; lia). rewrite Hs0. fold S0.
    rewrite (s64_small (S0 + tz - 3600 + _)) by lia.
    replace (S0 + tz - 3600 + (S0 - (S0 + tz - 3600 + off))) with (S0 - off) by lia.
    rewrite (proj2 Hsc1) by (replace (S0 - (S0 - off + off)) with 0 by lia; done).
    cbn [Nat.eqb andb]. rewrite s64_small by lia. do 2 f_equal. lia.
Qed.

(** The zone [init_time] finds. *)
Lemma init_time_fixed localtime_r off lo hi now :
  fixed_zone localtime_r off lo hi -> - 2 ^ 60 <= lo -> hi <= 2 ^ 60 -> -86400 < off < 86400 ->
  lo <= now < hi -> lo <= now + off < hi ->
  init_time localtime_r now = if off =? 0 then 3600 else 7200 - off.
Proof.
  intros Hz Hlo Hhi Hoff Hr1 Hr2. unfold init_time.
  destruct (Hz now Hr1) as (Hv & Hs).
  assert (mkTime (u32 (tm_year (localtime_r now) + 1900)) (u32 (tm_mon (localtime_r now) + 1))
    (u32 (tm_mday (localtime_r now))) (u32 (tm_hour (localtime_r now))) (u32 (tm_min (localtime_r now)))
    (u32 (tm_sec (localtime_r now))) 0 false MYSQL_TIMESTAMP_DATE = tm_time (localtime_r now)) as ->.
  { pose proof (month_len_bound (year (tm_time (localtime_r now))) _ (proj1 (proj1 (proj2 Hv)))).
    unfold valid_time, valid_date, tm_time in *. cbn [year month day hour minute second] in *.
    rewrite !u32_small by lia. done. }
  rewrite (gmt_sec_fixed _ off lo hi) by (auto; rewrite ?Hs; lia).
  destruct (Z.eqb_spec (3600 + off) 3600), (Z.eqb_spec off 0); lia.
Qed.

(** A [localtime_r] for a fixed zone, counting days from the epoch. *)
Definition count_days (n : nat) : Z * Z * Z :=
  Nat.iter n (fun '(y, m, d) => next_day y m d) (1970, 1, 1).

Definition zone_localtime (off x : Z) : tm :=
  let x := x + off in
  let '(y, m, d) := count_days (Z.to_nat (x / 86400)) in
  mkTm (y - 1900) (m - 1) d (x mod 86400 / 3600) (x mod 3600 / 60) (x mod 60).

Lemma daynr_of_epoch : daynr 1970 1 1 = days_at_timestart + Z.of_nat 0.
Proof.
  rewrite (days_before_year_closed 1970), (days_before_month_closed 1970 1) by lia. vm_compute. reflexivity.
Qed.

Lemma count_days_spec n : let '(y, m, d) := count_days n in
  1970 <= y <= 1970 + Z.of_nat n /\ valid_date y m d /\ daynr y m d = days_at_timestart + Z.of_nat n.
Proof.
  induction n as [|n IH].
  - unfold count_days. cbn [Nat.iter nat_rect]. split; [lia|].
    split; [unfold valid_date; change (month_len 1970 1) with 31; lia|].
    exact daynr_of_epoch.
  - unfold count_days in *. rewrite Nat.iter_succ.
    destruct (Nat.iter n _ _) as [[y m] d]. destruct IH as (Hy & Hv & Hd).
    destruct (next_day y m d) as [[y' m'] d'] eqn:Hn.
    destruct (next_day_daynr y m d y' m' d' ltac:(lia) Hv Hn) as [Hv' Hd'].
    split; [|split; [done|lia]]. unfold next_day in Hn. repeat case_match; simplify_eq; lia.
Qed.

Lemma zone_localtime_fixed off lo hi : 0 <= lo + off -> hi + off <= 2 ^ 35 ->
  fixed_zone (zone_localtime off) off lo hi.
Proof.
  intros Hlo Hhi x Hx. unfold zone_localtime. pose proof (count_days_spec (Z.to_nat ((x + off) / 86400))) as H.
  destruct (count_days _) as [[y m] d]. destruct H as (Hy & Hv & Hd).
  rewrite Z2Nat.id in * by dlia.
  unfold valid_time, time_seconds, clock_seconds, tm_time. cbn [year month day hour minute second tm_year tm_mon tm_mday tm_hour tm_min tm_sec].
  rewrite !Z.sub_add. split; [split; [dlia|split; [done|dlia]]|]. rewrite Hd. dlia.
Qed.

(** ** Properties *)

(** C29: [calc_daynr] counts days.  For a valid date of a year from 200 on it is
    the sum of the lengths of the years and of the months before the date plus
    the day of the month, so it orders dates as the calendar does and the day
    after a date has the next number; 1970-01-01 is [days_at_timestart]. *)
Theorem calc_daynr_calendar y m d : 200 <= y < 2 ^ 20 -> valid_date y m d ->
  calc_daynr y m d = days_before_year y + days_before_month y m + d /\
  (forall y' m' d', 200 <= y' < 2 ^ 20 -> valid_date y' m' d' ->
     (calc_daynr y m d < calc_daynr y' m' d' <-> date_lt y m d y' m' d')) /\
  (y < 2 ^ 20 - 1 -> let '(y', m', d') := next_day y m d in calc_daynr y' m' d' = calc_daynr y m d + 1) /\
  calc_daynr 1970 1 1 = days_at_timestart.
Proof.
  intros Hy Hv. rewrite (calc_daynr_full y m d) by done. split; [done|]. split; [|split; [|reflexivity]].
  - intros y' m' d' Hy' Hv'. rewrite calc_daynr_full by done. apply daynr_lt_iff; auto; lia.
  - intros Hy1. destruct (next_day y m d) as [[y' m'] d'] eqn:Hn.
    destruct (next_day_daynr y m d y' m' d' ltac:(lia) Hv Hn) as [Hv' Hd].
    rewrite calc_daynr_full; [done| |done]. unfold next_day in Hn. repeat case_match; simplify_eq; lia.
Qed.

(** [number_to_datetime] answers for every 64-bit number.  A result other
    than -1 is the YYYYMMDDHHMMSS number of the fields it stores, which are
    within their ranges and pass [check_date]; [*was_cut] is then 0.  A result
    of -1 sets [*was_cut] to 1, except for the zero date where it is forbidden
    (0): it is never 2, not even for a date within ranges that is wrong. *)
Theorem number_to_datetime_sound nr t0 flags : is_s64 nr ->
  exists r t was_cut, number_to_datetime nr t0 flags = Some (r, t, was_cut) /\
    ((r = TIME_to_ulonglong_datetime t /\ time_ranges t /\ was_cut = 0 /\
      check_date t (negb (r =? 0)) flags 0 = Some (false, 0)) \/
     (r = -1 /\ (was_cut = 1 \/ was_cut = 0 /\ nr = 0 /\ has flags TIME_NO_ZERO_DATE = true))).
Proof.
  intros Hnr. unfold number_to_datetime.
  destruct (datetime_number nr) as [n|] eqn:En; [|eexists _, _, _; split; [done|right; auto]].
  pose proof (datetime_number_range nr n Hnr En) as Hn.
  destruct (split_number_spec n t0 Hn) as (Hpack & Hy & Hm & Hd & Hh & Hi & Hs).
  cbv zeta. set (t := split_number n t0) in *. destruct (in_ranges t) eqn:Hr.
  - unfold in_ranges in Hr. b2p. destruct (check_date_total t (negb (n =? 0)) flags 0) as (bad & wc & E & Hwc); [lia|].
    rewrite E, bind_Some_eq. destruct bad; cbn [negb].
    + destruct (Z.eqb_spec n 0) as [->|]; cbn [andb]; [|eexists _, _, _; split; [done|right; auto]].
      case_if; eexists _, _, _; (split; [done|right; split; [done|]]); [right|by left].
      repeat split.
      * unfold check_date in E. cbn [negb Z.eqb] in E. rewrite E0 in E. congruence.
      * revert En. unfold datetime_number, YY_PART_YEAR. repeat case_if; intros; simplify_eq; lia.
    + specialize (Hwc eq_refl) as ->. eexists _, _, _. split; [done|]. left.
      assert (time_ranges t) as Htr by (unfold time_ranges; lia). rewrite to_ulonglong_datetime_eq by done. auto with lia.
  - rewrite bind_Some_eq. cbn [negb]. assert (n <> 0).
    { intros ->. revert Hr. unfold in_ranges. lia. }
    rewrite (proj2 (Z.eqb_neq n 0)) by done. eexists _, _, _. split; [done|right; auto].
Qed.

(** A datetime within its ranges that [check_date] accepts and that is not
    before 1000-01-01 survives the conversion to a number and back. *)
Theorem number_datetime_roundtrip t t0 flags : time_ranges t ->
  check_date t true flags 0 = Some (false, 0) ->
  10000101000000 <= TIME_to_ulonglong_datetime t ->
  number_to_datetime (TIME_to_ulonglong_datetime t) t0 flags =
    Some (TIME_to_ulonglong_datetime t,
          mkTime (year t) (month t) (day t) (hour t) (minute t) (second t)
                 (second_part t0) (neg t0) (time_type t0), 0).
Proof.
  intros Ht Hc Hbig. unfold number_to_datetime, datetime_number. set (n := TIME_to_ulonglong_datetime t) in *.
  rewrite (proj2 (Z.leb_le _ _) Hbig), orb_true_r. cbv zeta.
  assert (split_number n t0 = mkTime (year t) (month t) (day t) (hour t) (minute t) (second t)
    (second_part t0) (neg t0) (time_type t0)) as E.
  { unfold n. rewrite to_ulonglong_datetime_eq by done. by apply split_number_pack. }
  rewrite E. assert (in_ranges (mkTime (year t) (month t) (day t) (hour t) (minute t) (second t)
    (second_part t0) (neg t0) (time_type t0)) = true) as -> by
    (unfold in_ranges, time_ranges in *; cbn [year month day hour minute second]; lia).
  rewrite (proj2 (Z.eqb_neq n 0)) by lia. cbn [negb].
  unfold check_date in *. cbn [year month day] in *. rewrite Hc, bind_Some_eq. done.
Qed.

(** The short forms YYMMDD and YYMMDDHHMMSS stand for the years 1970 to
    2069, and YYYYMMDD for midnight of its date. *)
Theorem number_short_forms y m d time t0 flags :
  1 <= m <= 12 -> 1 <= d <= 31 -> 0 <= time <= 235959 -> 1000 <= y <= 9999 ->
  let full := (y * 10000 + m * 100 + d) * 1000000 in
  number_to_datetime (y * 10000 + m * 100 + d) t0 flags = number_to_datetime full t0 flags /\
  (1970 <= y <= 2069 ->
    number_to_datetime (y mod 100 * 10000 + m * 100 + d) t0 flags = number_to_datetime full t0 flags /\
    number_to_datetime ((y mod 100 * 10000 + m * 100 + d) * 1000000 + time) t0 flags =
      number_to_datetime (full + time) t0 flags).
Proof.
  intros Hm Hd Ht Hy full.
  assert (forall a b, datetime_number a = datetime_number b ->
    number_to_datetime a t0 flags = number_to_datetime b t0 flags) as Hext
    by (intros a b E; unfold number_to_datetime; by rewrite E).
  assert (forall b, full <= b -> datetime_number b = Some b) as Hfull.
  { intros b Hb. unfold datetime_number. rewrite (proj2 (Z.leb_le 10000101000000 b)), orb_true_r by (unfold full in Hb; lia). done. }
  split; [|intros Hy2; set (yy := y mod 100); assert (y = if yy <? 70 then yy + 2000 else yy + 1900) as Eyy
            by (unfold yy; case_if; dlia); assert (0 <= yy < 100) by (unfold yy; dlia); clearbody yy; split];
    apply Hext; [rewrite (Hfull full) by lia..|rewrite (Hfull (full + time)) by lia]; unfold full, datetime_number, YY_PART_YEAR;
    try destruct (Z.ltb_spec yy 70); repeat case_if; try lia; f_equal; lia.
Qed.

(** In a time zone [off] seconds from UTC without daylight saving, once
    [init_time] has run at any time [now], [my_system_gmt_sec] is the inverse
    of [localtime_r]: it returns the time whose local reading is the argument,
    and reports no gap. *)
Theorem gmt_sec_inverse localtime_r off lo hi now t :
  fixed_zone localtime_r off lo hi -> - 2 ^ 60 <= lo -> hi <= 2 ^ 60 -> -86400 < off < 86400 ->
  lo <= now < hi -> lo <= now + off < hi -> valid_time t ->
  lo <= time_seconds t - off -> time_seconds t - off + 3600 < hi ->
  exists tz, my_system_gmt_sec localtime_r (init_time localtime_r now) t = (time_seconds t - off, tz, false) /\
    time_seconds (tm_time (localtime_r (time_seconds t - off))) = time_seconds t.
Proof.
  intros Hz Hlo Hhi Hoff Hn1 Hn2 Ht H1 H2. rewrite (init_time_fixed _ off lo hi) by done.
  rewrite (gmt_sec_fixed _ off lo hi) by (auto; try case_if; lia).
  eexists. split; [done|]. destruct (Hz (time_seconds t - off)) as [_ ->]; lia.
Qed.

Lemma calc_daynr_calendar_witness :
  calc_daynr 2000 2 29 = days_before_year 2000 + days_before_month 2000 2 + 29 /\
  (forall y' m' d', 200 <= y' < 2 ^ 20 -> valid_date y' m' d' ->
     (calc_daynr 2000 2 29 < calc_daynr y' m' d' <-> date_lt 2000 2 29 y' m' d')) /\
  (2000 < 2 ^ 20 - 1 -> let '(y', m', d') := next_day 2000 2 29 in calc_daynr y' m' d' = calc_daynr 2000 2 29 + 1) /\
  calc_daynr 1970 1 1 = days_at_timestart.
Proof.
  apply (calc_daynr_calendar 2000 2 29); [lia|]. split; [lia|]. vm_compute. split; congruence.
Defined.

Lemma number_to_datetime_sound_witness :
  exists r t was_cut, number_to_datetime 20050229000000 bzero_time 0 = Some (r, t, was_cut) /\
    ((r = TIME_to_ulonglong_datetime t /\ time_ranges t /\ was_cut = 0 /\
      check_date t (negb (r =? 0)) 0 0 = Some (false, 0)) \/
     (r = -1 /\ (was_cut = 1 \/ was_cut = 0 /\ 20050229000000 = 0 /\ has 0 TIME_NO_ZERO_DATE = true))).
Proof. apply (number_to_datetime_sound 20050229000000 bzero_time 0). lia. Defined.

Lemma number_datetime_roundtrip_witness :
  let t := mkTime 2004 2 29 23 59 58 0 false MYSQL_TIMESTAMP_DATETIME in
  number_to_datetime (TIME_to_ulonglong_datetime t) bzero_time 0 =
    Some (20040229235958, mkTime 2004 2 29 23 59 58 0 false MYSQL_TIMESTAMP_DATE, 0).
Proof.
  apply (number_datetime_roundtrip (mkTime 2004 2 29 23 59 58 0 false MYSQL_TIMESTAMP_DATETIME) bzero_time 0);
    [unfold time_ranges; simpl; lia|reflexivity|vm_compute; congruence].
Defined.

Lemma number_short_forms_witness :
  let full := (2005 * 10000 + 10 * 100 + 24) * 1000000 in
  number_to_datetime (2005 * 10000 + 10 * 100 + 24) bzero_time 0 = number_to_datetime full bzero_time 0 /\
  (1970 <= 2005 <= 2069 ->
    number_to_datetime (2005 mod 100 * 10000 + 10 * 100 + 24) bzero_time 0 = number_to_datetime full bzero_time 0 /\
    number_to_datetime ((2005 mod 100 * 10000 + 10 * 100 + 24) * 1000000 + 123456) bzero_time 0 =
      number_to_datetime (full + 123456) bzero_time 0).
Proof. apply (number_short_forms 2005 10 24 123456 bzero_time 0); lia. Defined.

Lemma gmt_sec_inverse_witness :
  let t := mkTime 1970 2 3 4 5 6 0 false MYSQL_TIMESTAMP_DATETIME in
  exists tz, my_system_gmt_sec (zone_localtime 7200) (init_time (zone_localtime 7200) 100000) t
      = (time_seconds t - 7200, tz, false) /\
    time_seconds (tm_time (zone_localtime 7200 (time_seconds t - 7200))) = time_seconds t.
Proof.
  apply (gmt_sec_inverse (zone_localtime 7200) 7200 0 10000000 100000); try lia.
  - apply zone_localtime_fixed; lia.
  - split; [simpl; lia|]. split; [split; [simpl; lia|vm_compute; split; congruence]|simpl; lia].
  - vm_compute. congruence.
  - vm_compute. reflexivity.
Defined.
