(* ===== verification/StrTime.v ===== *)
(** * Strings and times (sql-common/my_time.c)

    [str_to_datetime], [str_to_time] and the conversions to strings.  A pointer
    into the argument is the list of the characters from it to the end, so
    [str == end] is the empty list.  The static table
    [internal_format_positions] is never written, so [format_position[k]] is
    [k] for [k <= 6] and 255 (no AM/PM) for 7; the branches the code keeps for
    other tables (a year that is not first, AM/PM) are never taken. *)

From stdpp Require Import base numbers list.
From Stdlib Require Import ZArith Lia.
From S2P Require Import Prelude IntStr StrToLL MyTime.

Local Open Scope Z_scope.

(** ** Character classes (strings/ctype-latin1.c, include/m_ctype.h) *)

Definition ctype_latin1 : list Z :=
  [0; 32; 32; 32; 32; 32; 32; 32; 32; 32; 40; 40; 40; 40; 40; 32; 32; 32; 32; 32; 32; 32; 32;
   32; 32; 32; 32; 32; 32; 32; 32; 32; 32; 72; 16; 16; 16; 16; 16; 16; 16; 16; 16; 16; 16; 16;
   16; 16; 16; 132; 132; 132; 132; 132; 132; 132; 132; 132; 132; 16; 16; 16; 16; 16; 16; 16;
   129; 129; 129; 129; 129; 129; 1; 1; 1; 1; 1; 1; 1; 1; 1; 1; 1; 1; 1; 1; 1; 1; 1; 1; 1; 1;
   16; 16; 16; 16; 16; 16; 130; 130; 130; 130; 130; 130; 2; 2; 2; 2; 2; 2; 2; 2; 2; 2; 2; 2; 2;
   2; 2; 2; 2; 2; 2; 2; 16; 16; 16; 16; 32; 0; 0; 0; 0; 0; 0; 0; 0; 0; 0; 0; 0; 0; 0; 0; 0; 0;
   0; 0; 0; 0; 0; 0; 0; 0; 0; 0; 0; 0; 0; 0; 0; 72; 16; 16; 16; 16; 16; 16; 16; 16; 16; 16; 16;
   16; 16; 16; 16; 16; 16; 16; 16; 16; 16; 16; 16; 16; 16; 16; 16; 16; 16; 16; 16; 1; 1; 1; 1;
   1; 1; 1; 1; 1; 1; 1; 1; 1; 1; 1; 1; 1; 1; 1; 1; 1; 1; 1; 16; 1; 1; 1; 1; 1; 1; 1; 2; 2; 2;
   2; 2; 2; 2; 2; 2; 2; 2; 2; 2; 2; 2; 2; 2; 2; 2; 2; 2; 2; 2; 2; 16; 2; 2; 2; 2; 2; 2; 2; 2].

Definition MY_NMR : Z := 4.
Definition MY_SPC : Z := 8.
Definition MY_PNT : Z := 16.

(** [((s)->ctype + 1)[(uchar)(c)] & mask]. *)
Definition in_class (mask c : Z) : bool :=
  negb (Z.land (default 0 (ctype_latin1 !! S (Z.to_nat (u8 c)))) mask =? 0).
Definition my_isdigit : Z -> bool := in_class MY_NMR.
Definition my_isspace : Z -> bool := in_class MY_SPC.
Definition my_ispunct : Z -> bool := in_class MY_PNT.

Definition format_position : list Z := [0; 1; 2; 3; 4; 5; 6; 255].
Definition MAX_DATE_PARTS : Z := 8.
Definition char_T : Z := 84.
Definition char_dot : Z := 46.
Definition char_minus : Z := 45.
Definition time_separator : Z := 58.

(** ** Loops over the string *)

Fixpoint skip_space (s : list Z) : list Z :=
  match s with
  | c :: t => if my_isspace c then skip_space t else s
  | [] => []
  end.

(** Whether the string is only digits and 'T', and how many it starts with. *)
Fixpoint digits_or_T (s : list Z) : Z * bool :=
  match s with
  | [] => (0, true)
  | c :: t =>
      if my_isdigit c || (c =? char_T) then let '(n, e) := digits_or_T t in (n + 1, e)
      else (0, false)
  end.

(** [for (; str != end ; str++) if (!my_isspace( *str)) ...]. *)
Definition garbage (s : list Z) : bool := existsb (fun c => negb (my_isspace c)) s.

(** The inner loop over the digits of a part: the value, the field length left
    and the rest of the string.  [--field_length] is evaluated only in the
    internal format and only at a digit. *)
Fixpoint part_digits (is_internal : bool) (field_length tmp_value : Z) (s : list Z) : Z * Z * list Z :=
  match s with
  | c :: t =>
      if my_isdigit c then
        if is_internal then
          let field_length := u32 (field_length - 1) in
          if field_length =? 0 then (tmp_value, field_length, s)
          else part_digits is_internal field_length (u64 (tmp_value * 10 + u8 (c - 48))) t
        else part_digits is_internal field_length (u64 (tmp_value * 10 + u8 (c - 48))) t
      else (tmp_value, field_length, s)
  | [] => (tmp_value, field_length, s)
  end.

Definition allow_space : Z := Z.land (Z.lor (Z.shiftl 1 2) (Z.shiftl 1 6)) 15.

(** The delimiters after part [i]; [None] is a space where none is allowed.
    Returns the rest and the new [found_space] and [found_delimitier]. *)
Fixpoint delimiters (i : Z) (found_space found_delimitier : bool) (s : list Z)
  : option (list Z * bool * bool) :=
  match s with
  | c :: t =>
      if my_ispunct c || my_isspace c then
        if my_isspace c then
          if Z.land allow_space (Z.shiftl 1 i) =? 0 then None
          else delimiters i true true t
        else delimiters i found_space true t
      else Some (s, found_space, found_delimitier)
  | [] => Some (s, found_space, found_delimitier)
  end.

(** ** [str_to_datetime] *)

(** The variables of the loop over the parts. *)
Record parts := mkParts {
  p_i : Z;
  p_str : list Z;
  p_field_length : Z;
  p_date : list Z;
  p_date_len : list Z;
  p_not_zero : Z;
  p_delimitier : bool;
  p_space : bool;
  p_last : list Z }.

Inductive part_exit :=
  | Next (p : parts)      (** to the end of the body, with [i] not yet increased *)
  | Break (p : parts)
  | Cut.                  (** [*was_cut= 1; DBUG_RETURN(MYSQL_TIMESTAMP_NONE)] *)

(** The body of the loop, entered at a digit [c] followed by [t]. *)
Definition date_part (is_internal : bool) (p : parts) (c : Z) (t : list Z) : part_exit :=
  let i := p_i p in
  let '(tmp_value, _, str) :=
    part_digits is_internal (p_field_length p) (u8 (c - 48)) t in
  let len := Z.of_nat (length (p_str p)) - Z.of_nat (length str) in
  let date_len := <[Z.to_nat i := len]> (p_date_len p) in
  if 999999 <? tmp_value then Cut
  else
    let date := <[Z.to_nat i := tmp_value]> (p_date p) in
    let not_zero := Z.lor (p_not_zero p) tmp_value in
    let field_length := 2 in
    match str with
    | [] => Break (mkParts (i + 1) str field_length date date_len not_zero
                           (p_delimitier p) (p_space p) str)
    | x :: t' =>
        if (i =? 2) && (x =? char_T) then
          Next (mkParts i t' field_length date date_len not_zero (p_delimitier p) (p_space p) str)
        else if i =? 5 then
          if x =? char_dot then
            Next (mkParts i t' 6 date date_len not_zero (p_delimitier p) (p_space p) str)
          else Next (mkParts i str field_length date date_len not_zero (p_delimitier p) (p_space p) str)
        else
          match delimiters i (p_space p) (p_delimitier p) str with
          | None => Cut
          | Some (str, found_space, found_delimitier) =>
              let i := if i =? 6 then i + 1 else i in
              Next (mkParts i str field_length date date_len not_zero found_delimitier found_space str)
          end
    end.

(** The loop; [None] in the outer option is out of fuel, in the inner [Cut]. *)
Fixpoint date_parts (fuel : nat) (is_internal : bool) (p : parts) : option (option parts) :=
  match fuel with
  | O => None
  | S fuel =>
      if p_i p <? MAX_DATE_PARTS - 1 then
        match p_str p with
        | [] => Some (Some p)
        | c :: t =>
            if my_isdigit c then
              match date_part is_internal p c t with
              | Cut => Some None
              | Break p => Some (Some p)
              | Next p =>
                  date_parts fuel is_internal
                    (mkParts (p_i p + 1) (p_str p) (p_field_length p) (p_date p) (p_date_len p)
                             (p_not_zero p) (p_delimitier p) (p_space p) (p_last p))
              end
            else Some (Some p)
        end
      else Some (Some p)
  end.

(** [while (i < MAX_DATE_PARTS) { date_len[i]= 0; date[i++]= 0; }]. *)
Definition clear_from (i : Z) (l : list Z) : list Z :=
  take (Z.to_nat i) l ++ replicate (length l - Z.to_nat i) 0.

(** The fields from the parts, and the checks. *)
Definition finish_datetime (flags year_length : Z) (p : parts) : option (enum_mysql_timestamp_type * MYSQL_TIME * Z) :=
  let str := p_last p in
  let number_of_fields := p_i p in
  let date := clear_from (p_i p) (p_date p) in
  let date_len := clear_from (p_i p) (p_date_len p) in
  let part k := default 0 (date !! k) in
  let frac_len := default 0 (date_len !! 6%nat) in
  second_part ← (if frac_len <? 6 then
                   f ← log_10_int !! Z.to_nat (6 - frac_len); Some (u32 (part 6%nat * u32 f))
                 else Some (part 6%nat));
  let not_zero := negb (p_not_zero p =? 0) in
  let y := if (year_length =? 2) && not_zero
           then u32 (part 0%nat + (if part 0%nat <? YY_PART_YEAR then 2000 else 1900))
           else part 0%nat in
  let ty := if number_of_fields <=? 3 then MYSQL_TIMESTAMP_DATE else MYSQL_TIMESTAMP_DATETIME in
  let l_time := mkTime y (part 1%nat) (part 2%nat) (part 3%nat) (part 4%nat) (part 5%nat)
                       second_part false ty in
  if (number_of_fields <? 3) || negb (in_ranges l_time) then
    Some (MYSQL_TIMESTAMP_ERROR, bzero_time, b2z (not_zero || garbage str))
  else
    '(bad, was_cut) ← check_date l_time not_zero flags 0;
    if (bad : bool) then Some (MYSQL_TIMESTAMP_ERROR, bzero_time, was_cut)
    else Some (ty, l_time, if garbage str then 1 else was_cut).

(** The result, [*l_time] and [*was_cut]. *)
Definition str_to_datetime (str : list Z) (l_time : MYSQL_TIME) (flags : Z)
  : option (enum_mysql_timestamp_type * MYSQL_TIME * Z) :=
  match skip_space str with
  | [] => Some (MYSQL_TIMESTAMP_NONE, l_time, 1)
  | (c :: _) as str =>
      if negb (my_isdigit c) then Some (MYSQL_TIMESTAMP_NONE, l_time, 1)
      else
        let '(digits, is_internal) := digits_or_T str in
        let year_length := if (digits =? 4) || (digits =? 8) || (14 <=? digits) then 4 else 2 in
        let field_length := if (is_internal : bool) then year_length else 4 in
        r ← date_parts 8 is_internal
              (mkParts 0 str field_length (replicate 8 0) (replicate 8 0) 0 false false str);
        match r with
        | None => Some (MYSQL_TIMESTAMP_NONE, l_time, 1)
        | Some p =>
            if p_delimitier p && negb (p_space p) && has flags TIME_DATETIME_ONLY then
              Some (MYSQL_TIMESTAMP_NONE, l_time, 1)
            else
              let year_length :=
                if (is_internal : bool) then year_length
                else default 0 (clear_from (p_i p) (p_date_len p) !! 0%nat) in
              if negb is_internal && (year_length =? 0) then Some (MYSQL_TIMESTAMP_NONE, l_time, 1)
              else finish_datetime flags year_length p
        end
  end.



(** "2005-10-24 01:02:03.5" and "20051024010203". *)
Example datetime_ex1 :
  str_to_datetime [50;48;48;53;45;49;48;45;50;52;32;48;49;58;48;50;58;48;51;46;53] bzero_time 0 =
    Some (MYSQL_TIMESTAMP_DATETIME, mkTime 2005 10 24 1 2 3 500000 false MYSQL_TIMESTAMP_DATETIME, 0).
Proof. reflexivity. Qed.
Example datetime_ex2 :
  str_to_datetime [50;48;48;53;49;48;50;52;48;49;48;50;48;51] bzero_time 0 =
    Some (MYSQL_TIMESTAMP_DATETIME, mkTime 2005 10 24 1 2 3 0 false MYSQL_TIMESTAMP_DATETIME, 0).
Proof. reflexivity. Qed.

(** ** [str_to_time] *)

(** [for (value= 0; str != end && my_isdigit( *str) ; str++) value= value*10L + ...]. *)
Fixpoint time_digits (value : Z) (s : list Z) : Z * list Z :=
  match s with
  | c :: t => if my_isdigit c then time_digits (s64 (value * 10 + (c - 48))) t else (value, s)
  | [] => (value, s)
  end.

(** [(end - str) >= 2 && *str == sep && my_isdigit(str[1])]. *)
Definition at_separator (sep : Z) (s : list Z) : bool :=
  match s with
  | c :: c' :: _ => (c =? sep) && my_isdigit c'
  | _ => false
  end.

(** [for (;;)] over hours, minutes and seconds, from [date[state]]. *)
Fixpoint time_parts (fuel : nat) (state : nat) (date : list Z) (s : list Z)
  : option (nat * list Z * list Z) :=
  match fuel with
  | O => None
  | S fuel =>
      let '(value, s) := time_digits 0 s in
      let date := <[state := value]> date in
      let state := S state in
      if (state =? 4)%nat || negb (at_separator time_separator s) then Some (state, date, s)
      else time_parts fuel state date (drop 1 s)
  end.

(** [while (++str != end && my_isdigit(str[0]) && field_length--)], with [s]
    the characters after the first of the fraction. *)
Fixpoint fraction_digits (field_length value : Z) (s : list Z) : Z * Z * list Z :=
  match s with
  | c :: t =>
      if my_isdigit c then
        if field_length =? 0 then (value, u32 (field_length - 1), s)
        else fraction_digits (u32 (field_length - 1)) (s64 (value * 10 + u8 (c - 48))) t
      else (value, field_length, s)
  | [] => (value, field_length, s)
  end.

(** [log_10_int[k]], [None] outside the table. *)
Definition log_10 (k : Z) : option Z := if k <? 20 then log_10_int !! Z.to_nat k else None.

(** The part behind [fractional:]; [None] is a read outside [log_10_int]. *)
Definition fraction (s : list Z) : option (Z * list Z) :=
  match s with
  | c :: c' :: t =>
      if (c =? char_dot) && my_isdigit c' then
        let '(value, field_length, s) := fraction_digits 5 (u8 (c' - 48)) t in
        if field_length =? 0 then Some (value, s)
        else f ← log_10 field_length; Some (s64 (value * f), s)
      else Some (0, s)
  | _ => Some (0, s)
  end.

(** From the checks to the end; [date] holds days, hours, minutes, seconds. *)
Definition finish_time (l_time : MYSQL_TIME) (date : list Z) (s : list Z) : option (bool * MYSQL_TIME * Z) :=
  '(part, s) ← fraction s;
  let d k := default 0 (date !! k) in
  if (60 <=? d 2%nat) || (60 <=? d 3%nat) then Some (true, l_time, 1)
  else Some (false,
             mkTime 0 0 (u32 (d 0%nat)) (u32 (d 1%nat)) (u32 (d 2%nat)) (u32 (d 3%nat)) (u64 part)
                    (neg l_time) MYSQL_TIMESTAMP_TIME,
             b2z (garbage s)).

(** The part for a DAYS_TO_SECOND string.  The branch for neither days nor
    hours found is never taken: the code jumps to [fractional:] there. *)
Definition days_to_second (l_time : MYSQL_TIME) (s : list Z) : option (bool * MYSQL_TIME * Z) :=
  let '(value, end_of_days) := time_digits 0 s in
  let s := skip_space end_of_days in
  if (1 <? length s)%nat && negb (length s =? length end_of_days)%nat &&
     match s with c :: _ => my_isdigit c | [] => false end then
    '(state, date, s) ← time_parts 4 1 [value; 0; 0; 0] s;
    finish_time l_time (take state date ++ replicate (4 - state) 0) s
  else if at_separator time_separator s then
    '(state, date, s) ← time_parts 4 2 [0; value; 0; 0] (drop 1 s);
    finish_time l_time (take state date ++ replicate (4 - state) 0) s
  else
    finish_time l_time
      [0; Z.quot value 10000; Z.rem (Z.quot value 100) 100; Z.rem value 100] s.

(** The result, [*l_time] and [*was_cut]. *)
Definition str_to_time (str : list Z) (l_time : MYSQL_TIME) : option (bool * MYSQL_TIME * Z) :=
  let set_neg n := mkTime (year l_time) (month l_time) (day l_time) (hour l_time) (minute l_time)
                          (second l_time) (second_part l_time) n (time_type l_time) in
  let s := skip_space str in
  let '(s, l_time) :=
    match s with
    | c :: t => if c =? char_minus then (t, set_neg true) else (s, set_neg false)
    | [] => (s, set_neg false)
    end in
  match s with
  | [] => Some (true, l_time, 0)
  | _ =>
      if (12 <=? length s)%nat then
        r ← str_to_datetime s l_time (Z.lor TIME_FUZZY_DATE TIME_DATETIME_ONLY);
        let '(res, l_time, was_cut) := r in
        match res with
        | MYSQL_TIMESTAMP_NONE => days_to_second l_time s
        | MYSQL_TIMESTAMP_ERROR => Some (true, l_time, was_cut)
        | _ => Some (false, l_time, was_cut)
        end
      else days_to_second l_time s
  end.

(** ** To strings *)

(** [%0nd] of [sprintf]. *)
Definition fmt_d (width : nat) (v : Z) : list Z :=
  let v := s32 v in
  let ds := (Z.add 48) <$> digits 10 (Z.abs v) in
  let sign := if v <? 0 then [char_minus] else [] in
  sign ++ replicate (width - length sign - length ds) 48 ++ ds.

Definition my_time_to_str (l_time : MYSQL_TIME) : list Z :=
  (if neg l_time then [char_minus] else []) ++
  fmt_d 2 (hour l_time) ++ [58] ++ fmt_d 2 (minute l_time) ++ [58] ++ fmt_d 2 (second l_time).

Definition my_date_to_str (l_time : MYSQL_TIME) : list Z :=
  fmt_d 4 (year l_time) ++ [45] ++ fmt_d 2 (month l_time) ++ [45] ++ fmt_d 2 (day l_time).

Definition my_datetime_to_str (l_time : MYSQL_TIME) : list Z :=
  fmt_d 4 (year l_time) ++ [45] ++ fmt_d 2 (month l_time) ++ [45] ++ fmt_d 2 (day l_time) ++ [32] ++
  fmt_d 2 (hour l_time) ++ [58] ++ fmt_d 2 (minute l_time) ++ [58] ++ fmt_d 2 (second l_time).

Definition my_TIME_to_str (l_time : MYSQL_TIME) : list Z :=
  match time_type l_time with
  | MYSQL_TIMESTAMP_DATETIME => my_datetime_to_str l_time
  | MYSQL_TIMESTAMP_DATE => my_date_to_str l_time
  | MYSQL_TIMESTAMP_TIME => my_time_to_str l_time
  | MYSQL_TIMESTAMP_NONE | MYSQL_TIMESTAMP_ERROR => []
  end.

(** "-838:59:59", "1 10:20" and "1.1234567". *)
Example time_ex1 : str_to_time [45; 56; 51; 56; 58; 53; 57; 58; 53; 57] bzero_time =
  Some (false, mkTime 0 0 0 838 59 59 0 true MYSQL_TIMESTAMP_TIME, 0).
Proof. reflexivity. Qed.
Example time_ex2 : str_to_time [49; 32; 49; 48; 58; 50; 48] bzero_time =
  Some (false, mkTime 0 0 1 10 20 0 0 false MYSQL_TIMESTAMP_TIME, 0).
Proof. reflexivity. Qed.
Example time_ex3 : str_to_time [49; 46; 49; 50; 51; 52; 53; 54; 55] bzero_time = None.
Proof. vm_compute. reflexivity. Qed.
Example to_str_ex : my_TIME_to_str (mkTime 2005 1 2 3 4 5 0 false MYSQL_TIMESTAMP_DATETIME) =
  [50; 48; 48; 53; 45; 48; 49; 45; 48; 50; 32; 48; 51; 58; 48; 52; 58; 48; 53].
Proof. reflexivity. Qed.

(** ** Theory: every string gives an answer *)

Lemma u8_in c : u8 c ∈ seqZ 0 256.
Proof. apply elem_of_seqZ. pose proof (u8_range c). lia. Qed.

(** A property of the classes is checked on the 256 characters. *)
Lemma class_forall (P : Z -> bool) : forallb P (seqZ 0 256) = true -> forall c, P (u8 c) = true.
Proof. intros H c. rewrite forallb_forall in H. apply H, list_elem_of_In, u8_in. Qed.

Lemma in_class_u8 mask c : in_class mask c = in_class mask (u8 c).
Proof. unfold in_class. rewrite (u8_small (u8 c)) by apply u8_range. done. Qed.

Lemma isdigit_range c : my_isdigit c = true -> 0 <= u8 (c - 48) <= 9.
Proof.
  assert (u8 (c - 48) = u8 (u8 c - 48)) as -> by (unfold u8; dlia).
  unfold my_isdigit. rewrite in_class_u8. intros Hd.
  pose proof (class_forall (fun c => implb (in_class MY_NMR c) ((0 <=? u8 (c - 48)) && (u8 (c - 48) <=? 9)))
    ltac:(vm_compute; reflexivity) c) as H. cbv beta in H. rewrite Hd in H. cbn [implb] in H. lia.
Qed.

Lemma digit_classes d : 0 <= d <= 9 ->
  my_isdigit (48 + d) = true /\ my_isspace (48 + d) = false /\ my_ispunct (48 + d) = false /\
  u8 (48 + d - 48) = d.
Proof.
  intros Hd. split; [|split; [|split; [|rewrite u8_small; lia]]];
    assert (d ∈ seqZ 0 10) as Hin by (apply elem_of_seqZ; lia); simpl in Hin;
    repeat (apply elem_of_cons in Hin as [->|Hin]; [reflexivity|]); by apply not_elem_of_nil in Hin.
Qed.

Lemma part_digits_spec internal fl tmp s n v fl' s' :
  part_digits internal fl tmp s = (v, fl', s') -> 0 <= tmp -> 0 <= n -> (n < 6 -> tmp < 10 ^ n) ->
  exists m : nat, length s = (m + length s')%nat /\ 0 <= v /\ (n + Z.of_nat m < 6 -> v < 10 ^ (n + Z.of_nat m)).
Proof.
  revert fl tmp n. induction s as [|c s IH]; intros fl tmp n; cbn [part_digits].
  { intros [= <- <- <-] Ht Hn Hb. exists O. rewrite Z.add_0_r. auto. }
  assert (forall fl, part_digits internal fl (u64 (tmp * 10 + u8 (c - 48))) s = (v, fl', s') ->
    my_isdigit c = true -> 0 <= tmp -> 0 <= n -> (n < 6 -> tmp < 10 ^ n) ->
    exists m : nat, length (c :: s) = (m + length s')%nat /\ 0 <= v /\
      (n + Z.of_nat m < 6 -> v < 10 ^ (n + Z.of_nat m))) as Hrec.
  { intros fl0 E Hd Ht Hn Hb. pose proof (isdigit_range c Hd).
    destruct (IH fl0 (u64 (tmp * 10 + u8 (c - 48))) (n + 1)) as (m & Hl & Hv & Hvb); auto; [apply u64_range|lia| |].
    - intros H6. specialize (Hb ltac:(lia)). rewrite Z.pow_add_r by lia.
      assert (10 ^ n <= 10 ^ 5) by (apply Z.pow_le_mono_r; lia). rewrite u64_small; lia.
    - exists (S m). split; [simpl; lia|]. split; [done|].
      replace (n + Z.of_nat (S m)) with (n + 1 + Z.of_nat m) by lia. done. }
  assert (forall x y z, (x, y, z) = (v, fl', s') -> 0 <= x -> z = c :: s -> (n < 6 -> x < 10 ^ n) ->
    exists m : nat, length (c :: s) = (m + length s')%nat /\ 0 <= v /\ (n + Z.of_nat m < 6 -> v < 10 ^ (n + Z.of_nat m))) as Hstop.
  { intros x y z [= <- <- <-] Hx -> Hb. exists O. rewrite Z.add_0_r. auto. }
  destruct (my_isdigit c) eqn:Hd; [|intros; eapply Hstop; eauto].
  destruct internal; [|intros; eapply Hrec; eauto]. cbv zeta. case_if; intros; [eapply Hstop; eauto|eapply Hrec; eauto].
Qed.

(** A part of the date and its length. *)
Definition part_ok (zero : bool) (d len : Z) : Prop :=
  0 <= d <= 999999 /\ 0 <= len /\ (len < 6 -> d < 10 ^ len) /\ (zero = true -> d = 0).

Record parts_ok (p : parts) : Prop := {
  ok_i : 0 <= p_i p <= 8;
  ok_date : length (p_date p) = 8%nat;
  ok_len : length (p_date_len p) = 8%nat;
  ok_nz : 0 <= p_not_zero p;
  ok_part : forall k d len, p_date p !! k = Some d -> p_date_len p !! k = Some len ->
    part_ok (p_not_zero p =? 0) d len }.

Lemma lor_zero a b : 0 <= a -> 0 <= b -> (Z.lor a b =? 0) = true -> (a =? 0) = true /\ b = 0.
Proof. intros Ha Hb H. apply Z.eqb_eq, Z.lor_eq_0_iff in H as [-> ->]. done. Qed.

(** Storing a part. *)
Lemma parts_ok_store p i str fl d len del sp last : parts_ok p -> 0 <= i -> 0 <= p_i p < 8 -> i <= 8 ->
  0 <= d <= 999999 -> 0 <= len -> (len < 6 -> d < 10 ^ len) ->
  parts_ok (mkParts i str fl (<[Z.to_nat (p_i p) := d]> (p_date p)) (<[Z.to_nat (p_i p) := len]> (p_date_len p))
                    (Z.lor (p_not_zero p) d) del sp last).
Proof.
  intros [Hi Hd Hl Hn Hp] Hi0 Hpi Hi8 Hd9 Hl0 Hb. constructor; simpl; auto.
  - by rewrite length_insert.
  - by rewrite length_insert.
  - apply Z.lor_nonneg; lia.
  - intros k d' len' Hk Hk'. destruct (decide (Z.to_nat (p_i p) = k)) as [<-|Hne].
    + rewrite list_lookup_insert_eq in Hk, Hk' by lia. simplify_eq. repeat split; try lia; auto.
      intros Hz. apply (lor_zero _ _ Hn (proj1 Hd9) Hz).
    + rewrite list_lookup_insert_ne in Hk, Hk' by done. destruct (Hp k d' len' Hk Hk') as (? & ? & ? & Hz).
      repeat split; try lia; auto. intros Hz'. apply Hz, (lor_zero _ _ Hn (proj1 Hd9) Hz').
Qed.

Lemma date_part_ok internal p c t : parts_ok p -> p_i p < 7 -> p_str p = c :: t -> my_isdigit c = true ->
  match date_part internal p c t with
  | Cut => True
  | Break q => parts_ok q
  | Next q => parts_ok q /\ p_i p <= p_i q <= 7
  end.
Proof.
  intros Hp Hi Hs Hc. unfold date_part. pose proof (ok_i _ Hp) as Hi0.
  destruct (part_digits internal (p_field_length p) (u8 (c - 48)) t) as [[v fl] str] eqn:E.
  pose proof (isdigit_range c Hc) as Hr.
  destruct (part_digits_spec _ _ _ _ 1 _ _ _ E) as (m & Hlen & Hv & Hb); [lia..|].
  destruct (Z.ltb_spec 999999 v); [done|]. rewrite Hs. cbv zeta.
  set (len := Z.of_nat (length (c :: t)) - Z.of_nat (length str)).
  assert (len = 1 + Z.of_nat m) as El by (unfold len; simpl length; lia).
  assert (forall i str' fl' del sp last, 0 <= i <= 8 ->
    parts_ok (mkParts i str' fl' (<[Z.to_nat (p_i p) := v]> (p_date p)) (<[Z.to_nat (p_i p) := len]> (p_date_len p))
      (Z.lor (p_not_zero p) v) del sp last)) as Hst.
  { intros. apply parts_ok_store; auto; try lia. rewrite El. done. }
  destruct str as [|x str]; [apply Hst; lia|].
  case_if; [split; [apply Hst; lia|simpl; lia]|].
  case_if; [case_if; (split; [apply Hst; lia|simpl; lia])|].
  destruct (delimiters _ _ _ _) as [[[str' sp] del]|]; [|done].
  split; [apply Hst; case_if; lia|simpl; case_if; lia].
Qed.

Lemma date_parts_ok fuel internal p : parts_ok p -> 7 - p_i p < Z.of_nat fuel -> (0 < fuel)%nat ->
  exists r, date_parts fuel internal p = Some r /\ match r with None => True | Some q => parts_ok q end.
Proof.
  revert p. induction fuel as [|fuel IH]; intros p Hp Hf Hf0; [lia|]. cbn [date_parts]. unfold MAX_DATE_PARTS.
  destruct (Z.ltb_spec (p_i p) (8 - 1)) as [Hi|Hi]; [|eexists; split; done].
  destruct (p_str p) as [|c t] eqn:Hs; [eexists; split; done|].
  destruct (my_isdigit c) eqn:Hc; [|eexists; split; done].
  pose proof (date_part_ok internal p c t Hp ltac:(lia) Hs Hc) as Hbody.
  destruct (date_part internal p c t) as [q|q|]; [|eexists; split; done..].
  destruct Hbody as [Hq Hle]. apply IH; simpl; try lia. destruct Hq; constructor; simpl; auto; lia.
Qed.

Lemma lookup_clear_from i (l : list Z) k : 0 <= i -> (Z.to_nat i <= length l)%nat ->
  default 0 (clear_from i l !! k) = if decide (Z.of_nat k < i) then default 0 (l !! k) else 0.
Proof.
  intros Hi Hl. unfold clear_from. destruct (decide (Z.of_nat k < i)).
  - rewrite lookup_app_l by (rewrite length_take; lia). by rewrite lookup_take_lt by lia.
  - rewrite lookup_app_r by (rewrite length_take; lia). rewrite length_take.
    destruct (replicate (length l - Z.to_nat i) 0 !! _) as [x|] eqn:E; [|done].
    by apply lookup_replicate in E as [-> _].
Qed.

Lemma parts_ok_at p k : parts_ok p -> (k < 8)%nat ->
  part_ok (p_not_zero p =? 0) (default 0 (clear_from (p_i p) (p_date p) !! k))
          (default 0 (clear_from (p_i p) (p_date_len p) !! k)).
Proof.
  intros [Hi Hd Hl Hn Hp] Hk. rewrite !lookup_clear_from by lia. case_decide.
  - destruct (lookup_lt_is_Some_2 (p_date p) k) as [d Hd']; [lia|].
    destruct (lookup_lt_is_Some_2 (p_date_len p) k) as [len Hl']; [lia|].
    rewrite Hd', Hl'. simpl. eauto.
  - unfold part_ok. simpl. lia.
Qed.

Lemma log_10_int_pow k : (k < 20)%nat -> log_10_int !! k = Some (10 ^ Z.of_nat k).
Proof. intros H. do 20 (destruct k as [|k]; [reflexivity|]). lia. Qed.

(** What a result of [str_to_datetime] says of the time it stores. *)
Definition datetime_result (flags : Z) (l_time : MYSQL_TIME) (ty : enum_mysql_timestamp_type)
    (t : MYSQL_TIME) (was_cut : Z) : Prop :=
  match ty with
  | MYSQL_TIMESTAMP_NONE => t = l_time /\ was_cut = 1
  | MYSQL_TIMESTAMP_ERROR => t = bzero_time /\ 0 <= was_cut <= 2
  | MYSQL_TIMESTAMP_TIME => False
  | MYSQL_TIMESTAMP_DATE | MYSQL_TIMESTAMP_DATETIME =>
      time_ranges t /\ 0 <= second_part t <= 999999 /\ neg t = false /\ time_type t = ty /\
      0 <= was_cut <= 1 /\
      (ty = MYSQL_TIMESTAMP_DATE -> hour t = 0 /\ minute t = 0 /\ second t = 0 /\ second_part t = 0) /\
      exists nz, check_date t nz flags 0 = Some (false, 0) /\
        (nz = false -> t = mkTime 0 0 0 0 0 0 0 false ty)
  end.

(** The fraction is scaled to microseconds. *)
Lemma second_part_scaled p : parts_ok p ->
  let d := default 0 (clear_from (p_i p) (p_date p) !! 6%nat) in
  let len := default 0 (clear_from (p_i p) (p_date_len p) !! 6%nat) in
  exists sp, (if len <? 6 then f ← log_10_int !! Z.to_nat (6 - len); Some (u32 (d * u32 f)) else Some d) = Some sp /\
    0 <= sp <= 999999 /\ (d = 0 -> sp = 0).
Proof.
  intros Hp d len. destruct (parts_ok_at p 6 Hp ltac:(lia)) as (Hd & Hl & Hb & _). fold d in Hd, Hb. fold len in Hl, Hb.
  destruct (Z.ltb_spec len 6) as [H6|H6]; [|by exists d].
  rewrite log_10_int_pow, bind_Some_eq by lia. rewrite Z2Nat.id by lia. specialize (Hb H6).
  assert (10 ^ (6 - len) * 10 ^ len = 10 ^ 6) by (rewrite <- Z.pow_add_r by lia; f_equal; lia).
  assert (0 < 10 ^ (6 - len)) by lia. rewrite (u32_small (10 ^ (6 - len))) by nia.
  exists (u32 (d * 10 ^ (6 - len))). split; [done|]. rewrite u32_small by nia. split; [nia|].
  intros ->. lia.
Qed.

Lemma finish_datetime_ok flags yl p l_time : parts_ok p ->
  exists ty t wc, finish_datetime flags yl p = Some (ty, t, wc) /\ datetime_result flags l_time ty t wc.
Proof.
  intros Hp. unfold finish_datetime. destruct (second_part_scaled p Hp) as (sp & -> & Hsp & Hsp0).
  rewrite bind_Some_eq. cbv zeta.
  set (part := fun k => default 0 (clear_from (p_i p) (p_date p) !! k)).
  assert (forall k, (k < 8)%nat -> 0 <= part k <= 999999) as Hpart
    by (intros k Hk; by destruct (parts_ok_at p k Hp Hk)).
  assert (forall k, (k < 8)%nat -> p_not_zero p = 0 -> part k = 0) as Hzero.
  { intros k Hk Hz. destruct (parts_ok_at p k Hp Hk) as (_ & _ & _ & H). apply H. by rewrite Hz. }
  assert (forall k, (3 <= k < 8)%nat -> p_i p <= 3 -> part k = 0) as Hdate.
  { intros k Hk Hi. unfold part. rewrite lookup_clear_from by (destruct Hp; lia). case_decide; [lia|done]. }
  fold (part 0%nat) (part 1%nat) (part 2%nat) (part 3%nat) (part 4%nat) (part 5%nat) (part 6%nat) in *.
  set (y := if (yl =? 2) && negb (p_not_zero p =? 0) then _ else _).
  assert (0 <= y) as Hy0 by (unfold y; case_if; [apply u32_range|by apply Hpart; lia]).
  assert (p_not_zero p = 0 -> y = 0) as Hyz.
  { intros Hz. unfold y. rewrite Hz, andb_false_r. by apply Hzero; [lia|]. }
  set (ty := if p_i p <=? 3 then MYSQL_TIMESTAMP_DATE else MYSQL_TIMESTAMP_DATETIME).
  set (t := mkTime y _ _ _ _ _ _ _ _).
  destruct ((p_i p <? 3) || negb (in_ranges t)) eqn:Er.
  { eexists _, _, _. split; [done|]. split; [done|]. unfold b2z. case_if; lia. }
  b2p. assert (time_ranges t) as Htr.
  { unfold in_ranges in *. b2p. unfold time_ranges. subst t. cbn [year month day hour minute second] in *.
    repeat split; try lia; apply Hpart; lia. }
  destruct (check_date_total t (negb (p_not_zero p =? 0)) flags 0) as (bad & wc & Ec & Hwc).
  { unfold time_ranges in Htr. lia. }
  rewrite Ec, bind_Some_eq. destruct bad.
  - eexists _, _, _. split; [done|]. split; [done|].
    unfold check_date in Ec. destruct (negb (p_not_zero p =? 0)).
    + apply bind_Some in Ec as (b & _ & Ec). destruct b; simplify_eq; lia.
    + destruct (has flags TIME_NO_ZERO_DATE); simplify_eq; lia.
  - specialize (Hwc eq_refl) as ->. eexists _, _, _. split; [done|].
    assert (0 <= (if garbage (p_last p) then 1 else 0) <= 1) as Hg by (case_if; lia).
    assert (p_i p <= 3 -> hour t = 0 /\ minute t = 0 /\ second t = 0 /\ second_part t = 0) as Hd0.
    { intros Hi. subst t. cbn [hour minute second second_part]. repeat split; (apply Hdate || apply Hsp0, Hdate); lia. }
    assert (negb (p_not_zero p =? 0) = false -> t = mkTime 0 0 0 0 0 0 0 false ty) as Hall.
    { intros Hz. b2p. subst t. f_equal; [by apply Hyz|apply Hzero; lia..|]. apply Hsp0, Hzero; lia. }
    assert (time_type t = ty) as Hty by done.
    assert (ty = MYSQL_TIMESTAMP_DATE /\ p_i p <= 3 \/ ty = MYSQL_TIMESTAMP_DATETIME) as [[Ety Hi]|Ety]
      by (unfold ty; case_if; b2p; auto); rewrite Ety in *.
    + do 5 (split; [done|]). split; [by intros _; apply Hd0|]. by eexists.
    + do 5 (split; [done|]). split; [discriminate|]. by eexists.
Qed.

(** ** Theory: what is printed is read back *)

Abbreviation dchars ds := (Z.add 48 <$> ds).

(** [sprintf] writes the digits of a number, at least [w] of them. *)
Lemma fmt_d_spec (w n : nat) v : 0 <= v < 10 ^ Z.of_nat n -> (1 <= w <= n)%nat -> (n <= 9)%nat ->
  exists ds, fmt_d w v = dchars ds /\ (w <= length ds <= n)%nat /\ Forall is_digit ds /\ value 10 ds = v.
Proof.
  intros Hv Hw Hn. assert (10 ^ Z.of_nat n <= 10 ^ 9) by (apply Z.pow_le_mono_r; lia).
  unfold fmt_d. rewrite s32_small by lia. destruct (Z.ltb_spec v 0); [lia|]. rewrite Z.abs_eq by lia.
  destruct (digits_spec 10 v) as (Hval & Hlen & Hdig & Hz); [lia..|].
  assert (length (digits 10 v) <= n)%nat as Hl.
  { destruct (decide (length (digits 10 v) <= n)%nat); [done|].
    destruct (decide (head (digits 10 v) = Some 0)) as [Hh|Hh]; [rewrite (Hz Hh) in *; simpl in *; lia|].
    pose proof (value_ge (digits 10 v) n Hdig Hh ltac:(lia)). lia. }
  exists (replicate (w - length (digits 10 v)) 0 ++ digits 10 v).
  rewrite fmap_app, fmap_replicate, length_app, length_replicate, length_fmap, value_zeros. simpl length.
  rewrite Nat.sub_0_r. simpl app. split; [done|]. split; [lia|]. split; [|done].
  apply Forall_app. split; [apply Forall_replicate; unfold is_digit; lia|done].
Qed.

Definition no_digit_head (r : list Z) : Prop := match r with [] => True | c :: _ => my_isdigit c = false end.

Lemma part_digits_run fl ds tmp r : Forall is_digit ds -> no_digit_head r -> 0 <= tmp -> vfrom tmp ds < 2 ^ 64 ->
  part_digits false fl tmp (dchars ds ++ r) = (vfrom tmp ds, fl, r).
Proof.
  revert tmp. induction ds as [|d ds IH]; intros tmp Hd Hr Ht Hv.
  - simpl. destruct r as [|c r]; [done|]. simpl in *. by rewrite Hr.
  - apply Forall_cons_1 in Hd as [Hd Hds]. unfold is_digit in Hd. cbn [fmap list_fmap app part_digits].
    destruct (digit_classes d ltac:(lia)) as (-> & _ & _ & ->).
    assert (vfrom tmp (d :: ds) = vfrom (tmp * 10 + d) ds) as E by done. rewrite E in *.
    assert (tmp * 10 + d <= vfrom (tmp * 10 + d) ds).
    { rewrite vfrom_value. pose proof (value_bound ds Hds). nia. }
    rewrite u64_small by lia. apply IH; auto; lia.
Qed.

(** One part of at most six digits. *)
Lemma date_part_run p ds r d : Forall is_digit (d :: ds) -> (length ds <= 5)%nat -> no_digit_head r ->
  p_str p = dchars (d :: ds) ++ r ->
  part_digits false (p_field_length p) (u8 (48 + d - 48)) (dchars ds ++ r) =
    (value 10 (d :: ds), p_field_length p, r) /\
  (999999 <? value 10 (d :: ds)) = false /\
  Z.of_nat (length (p_str p)) - Z.of_nat (length r) = Z.of_nat (length (d :: ds)) /\ my_isdigit (48 + d) = true.
Proof.
  intros Hd Hl Hr Hs. pose proof (value_bound _ Hd) as Hb.
  assert (10 ^ Z.of_nat (length (d :: ds)) <= 10 ^ 6) by (apply Z.pow_le_mono_r; simpl length; lia).
  apply Forall_cons_1 in Hd as [Hd Hds]. unfold is_digit in Hd.
  destruct (digit_classes d ltac:(lia)) as (-> & _ & _ & ->).
  assert (vfrom d ds = value 10 (d :: ds)) as E by done.
  rewrite part_digits_run; auto; rewrite ?E; try lia. split; [done|]. split; [lia|]. split; [|done].
  rewrite Hs, length_app, length_fmap. lia.
Qed.

(** A separator between two parts. *)
Definition separates (i c : Z) : Prop :=
  my_isdigit c = false /\ c <> char_T /\ (my_ispunct c = true \/ my_isspace c = true) /\
  (my_isspace c = true -> i = 2).

Definition digit_head (s : list Z) : Prop := exists e s', s = 48 + e :: s' /\ 0 <= e <= 9.

Lemma date_parts_sep fuel i str fl date len nz del sp last ds c r :
  0 <= i <= 4 -> separates i c -> str = dchars ds ++ c :: r -> digit_head r ->
  Forall is_digit ds -> (1 <= length ds <= 6)%nat ->
  date_parts (S fuel) false (mkParts i str fl date len nz del sp last) =
    date_parts fuel false
      (mkParts (i + 1) r 2 (<[Z.to_nat i := value 10 ds]> date) (<[Z.to_nat i := Z.of_nat (length ds)]> len)
               (Z.lor nz (value 10 ds)) true (sp || my_isspace c) r).
Proof.
  intros Hi (Hnd & HT & Hps & Hsp) Hstr (e & s' & -> & He) Hds Hlen.
  destruct ds as [|d ds]; [simpl in Hlen; lia|]. simpl in Hlen.
  destruct (date_part_run (mkParts i str fl date len nz del sp last) ds (c :: 48 + e :: s') d Hds
    ltac:(lia) Hnd Hstr) as (E1 & E2 & E3 & E4).
  cbn [date_parts p_i p_str p_last]. unfold MAX_DATE_PARTS. rewrite (proj2 (Z.ltb_lt i (8 - 1))) by lia.
  rewrite Hstr at 1. cbn [fmap list_fmap app]. rewrite E4. unfold date_part. rewrite E1, E2.
  cbv zeta. rewrite E3. cbn [p_i p_date p_date_len p_not_zero p_delimitier p_space p_field_length].
  rewrite (proj2 (Z.eqb_neq c char_T)), andb_false_r by done. rewrite (proj2 (Z.eqb_neq i 5)) by lia.
  destruct (digit_classes e He) as (_ & Es & Ep & _). cbn [delimiters].
  assert (my_ispunct c || my_isspace c = true) as -> by (destruct Hps as [-> | ->]; auto using orb_true_r).
  rewrite (proj2 (Z.eqb_neq i 6)) by lia. destruct (my_isspace c) eqn:Esc; rewrite Es, Ep; cbn [orb].
  - rewrite (Hsp eq_refl). rewrite orb_true_r. done.
  - rewrite orb_false_r. done.
Qed.

(** The last part. *)
Lemma date_parts_end fuel i str fl date len nz del sp last ds :
  0 <= i <= 6 -> str = dchars ds -> Forall is_digit ds -> (1 <= length ds <= 6)%nat ->
  date_parts (S fuel) false (mkParts i str fl date len nz del sp last) =
    Some (Some (mkParts (i + 1) [] 2 (<[Z.to_nat i := value 10 ds]> date)
                        (<[Z.to_nat i := Z.of_nat (length ds)]> len) (Z.lor nz (value 10 ds)) del sp [])).
Proof.
  intros Hi Hstr Hds Hlen. destruct ds as [|d ds]; [simpl in Hlen; lia|]. simpl in Hlen.
  destruct (date_part_run (mkParts i str fl date len nz del sp last) ds [] d Hds
    ltac:(lia) I ltac:(by rewrite app_nil_r)) as (E1 & E2 & E3 & E4). rewrite app_nil_r in E1.
  cbn [date_parts p_i p_str p_last]. unfold MAX_DATE_PARTS. rewrite (proj2 (Z.ltb_lt i (8 - 1))) by lia.
  rewrite Hstr at 1. cbn [fmap list_fmap app]. rewrite E4. unfold date_part. rewrite E1, E2.
  cbv zeta. by rewrite E3.
Qed.

(** A printed date is not in the internal format. *)
Lemma digits_or_T_stop ds c r : Forall is_digit ds -> my_isdigit c = false -> c <> char_T ->
  digits_or_T (dchars ds ++ c :: r) = (Z.of_nat (length ds), false).
Proof.
  intros Hd Hc HT. induction Hd as [|d ds Hd _ IH].
  - cbn [fmap list_fmap app digits_or_T]. rewrite Hc. by rewrite (proj2 (Z.eqb_neq c char_T)).
  - cbn [fmap list_fmap app digits_or_T]. unfold is_digit in Hd.
    destruct (digit_classes d ltac:(lia)) as (-> & _). cbn [orb]. rewrite IH. simpl length. f_equal. lia.
Qed.

Lemma dchars_head ds r : Forall is_digit ds -> (1 <= length ds)%nat -> digit_head (dchars ds ++ r).
Proof.
  intros Hd Hl. destruct Hd as [|d ds Hd _]; [simpl in Hl; lia|]. unfold is_digit in Hd.
  exists d, (dchars ds ++ r). split; [done|lia].
Qed.

Lemma skip_space_digit s : digit_head s -> skip_space s = s.
Proof. intros (e & s' & -> & He). cbn [skip_space]. destruct (digit_classes e He) as (_ & -> & _). done. Qed.

(** The part before the loop, for a string that starts with a number and
    another character. *)
Lemma str_to_datetime_enter ds c r l_time flags : Forall is_digit ds -> (1 <= length ds)%nat ->
  my_isdigit c = false -> c <> char_T ->
  let str := dchars ds ++ c :: r in
  str_to_datetime str l_time flags =
    (r ← date_parts 8 false (mkParts 0 str 4 (replicate 8 0) (replicate 8 0) 0 false false str);
     match r with
     | None => Some (MYSQL_TIMESTAMP_NONE, l_time, 1)
     | Some p =>
         if p_delimitier p && negb (p_space p) && has flags TIME_DATETIME_ONLY then
           Some (MYSQL_TIMESTAMP_NONE, l_time, 1)
         else
           let year_length := default 0 (clear_from (p_i p) (p_date_len p) !! 0%nat) in
           if year_length =? 0 then Some (MYSQL_TIMESTAMP_NONE, l_time, 1)
           else finish_datetime flags year_length p
     end).
Proof.
  intros Hd Hl Hc HT str. unfold str_to_datetime.
  pose proof (dchars_head ds (c :: r) Hd Hl) as Hh. fold str in Hh. rewrite skip_space_digit by done.
  pose proof (digits_or_T_stop ds c r Hd Hc HT) as E. fold str in E.
  destruct Hh as (e & s' & Es & He). rewrite Es in *. destruct (digit_classes e He) as (-> & _).
  cbn [negb]. by rewrite E.
Qed.

Definition date_not_zero (t : MYSQL_TIME) : bool :=
  negb ((year t =? 0) && (month t =? 0) && (day t =? 0)).
Definition datetime_not_zero (t : MYSQL_TIME) : bool :=
  date_not_zero t || negb ((hour t =? 0) && (minute t =? 0) && (second t =? 0)).

Lemma lor_nonzero a b : negb (Z.lor a b =? 0) = negb (a =? 0) || negb (b =? 0).
Proof.
  destruct (Z.eqb_spec a 0) as [->|Ha], (Z.eqb_spec b 0) as [->|Hb]; try done.
  - by rewrite Z.lor_0_l, (proj2 (Z.eqb_neq b 0)).
  - by rewrite Z.lor_0_r, (proj2 (Z.eqb_neq a 0)).
  - destruct (Z.eqb_spec (Z.lor a b) 0) as [E|]; [|done]. by apply Z.lor_eq_0_iff in E as [? _].
Qed.

Lemma separates_punct i c : my_isdigit c = false -> c <> char_T -> my_ispunct c = true ->
  my_isspace c = false -> separates i c.
Proof. intros. split; [done|]. split; [done|]. split; [by left|congruence]. Qed.
Lemma separates_minus i : separates i 45.
Proof. by apply separates_punct. Qed.
Lemma separates_colon i : separates i 58.
Proof. by apply separates_punct. Qed.
Lemma separates_blank : separates 2 32.
Proof. split; [done|]. split; [done|]. split; [by right|done]. Qed.

(** The end of the function for parts that were read without a fraction. *)
Lemma finish_run flags p t : time_ranges t -> p_last p = [] -> 3 <= p_i p ->
  clear_from (p_i p) (p_date p) = [year t; month t; day t; hour t; minute t; second t; 0; 0] ->
  default 0 (clear_from (p_i p) (p_date_len p) !! 6%nat) = 0 ->
  check_date t (negb (p_not_zero p =? 0)) flags 0 = Some (false, 0) ->
  let ty := if p_i p <=? 3 then MYSQL_TIMESTAMP_DATE else MYSQL_TIMESTAMP_DATETIME in
  finish_datetime flags 4 p =
    Some (ty, mkTime (year t) (month t) (day t) (hour t) (minute t) (second t) 0 false ty, 0).
Proof.
  intros Ht Hl Hi Hd Hlen Hc ty. unfold finish_datetime. rewrite Hd, Hlen, Hl. fold ty.
  change (log_10_int !! Z.to_nat (6 - 0)) with (Some 1000000). cbv zeta. cbn [Z.ltb Z.compare].
  rewrite !bind_Some_eq. cbn [lookup list_lookup default from_option id Z.eqb andb Pos.eqb].
  assert (in_ranges (mkTime (year t) (month t) (day t) (hour t) (minute t) (second t)
    (u32 (0 * u32 1000000)) false ty) = true) as ->.
  { unfold in_ranges, time_ranges in *. cbn [year month day hour minute second]. lia. }
  destruct (Z.ltb_spec (p_i p) 3); [lia|]. cbn [orb negb].
  unfold check_date in *. cbn [year month day]. rewrite Hc. done.
Qed.

#[local] Hint Resolve separates_minus separates_colon separates_blank : cint.

(** C38: [str_to_datetime] answers for every string, even of bytes that are no
    text.  It stores a time only with the result DATE or DATETIME, and then
    every field is within its range, the date passes [check_date] under the
    flags (or all fields are zero), and a DATE has no time of day; with ERROR
    it stores the zero time, with NONE it leaves the time as it was. *)
Theorem str_to_datetime_answers str l_time flags :
  exists ty t was_cut, str_to_datetime str l_time flags = Some (ty, t, was_cut) /\
    datetime_result flags l_time ty t was_cut.
Proof.
  unfold str_to_datetime.
  assert (forall wc, wc = 1 -> exists ty t was_cut, Some (MYSQL_TIMESTAMP_NONE, l_time, wc) = Some (ty, t, was_cut) /\
    datetime_result flags l_time ty t was_cut) as Hnone by (intros wc ->; eexists _, _, _; split; done).
  destruct (skip_space str) as [|c s]; [by apply Hnone|].
  destruct (my_isdigit c); [|by apply Hnone]. cbn [negb].
  destruct (digits_or_T (c :: s)) as [dg internal]. cbv zeta.
  match goal with |- context [date_parts 8 internal ?p] =>
    destruct (date_parts_ok 8 internal p) as (r & -> & Hr); [|simpl; lia|lia|]
  end.
  { constructor; simpl; try lia; try done. intros k d len Hd Hl.
    change [0; 0; 0; 0; 0; 0; 0; 0] with (replicate 8 0) in *.
    apply lookup_replicate in Hd as [-> _], Hl as [-> _]. unfold part_ok. lia. }
  rewrite bind_Some_eq. destruct r as [p|]; [|by apply Hnone].
  case_if; [by apply Hnone|]. destruct (negb internal && _); [by apply Hnone|by apply finish_datetime_ok].
Qed.

(** C32: a datetime that [my_datetime_to_str] prints is read back by
    [str_to_datetime] with the same fields and nothing cut, if it is within its
    ranges and passes [check_date] under the flags. *)
Theorem datetime_str_roundtrip t l_time flags : time_ranges t ->
  check_date t (datetime_not_zero t) flags 0 = Some (false, 0) ->
  str_to_datetime (my_datetime_to_str t) l_time flags =
    Some (MYSQL_TIMESTAMP_DATETIME,
          mkTime (year t) (month t) (day t) (hour t) (minute t) (second t) 0 false MYSQL_TIMESTAMP_DATETIME, 0).
Proof.
  intros (Hy & Hm & Hd & Hh & Hi & Hs) Hc. unfold my_datetime_to_str.
  destruct (fmt_d_spec 4 4 (year t)) as (dy & -> & Ly & Fy & Vy); [lia..|].
  destruct (fmt_d_spec 2 2 (month t)) as (dm & -> & Lm & Fm & Vm); [lia..|].
  destruct (fmt_d_spec 2 2 (day t)) as (dd & -> & Ld & Fd & Vd); [lia..|].
  destruct (fmt_d_spec 2 2 (hour t)) as (dh & -> & Lh & Fh & Vh); [lia..|].
  destruct (fmt_d_spec 2 2 (minute t)) as (di & -> & Li & Fi & Vi); [lia..|].
  destruct (fmt_d_spec 2 2 (second t)) as (ds & -> & Ls & Fs & Vs); [lia..|].
  cbn [app]. rewrite str_to_datetime_enter by (auto; lia).
  assert (digit_head (dchars ds)) as Hhs by (rewrite <- (app_nil_r (dchars ds)); apply dchars_head; auto; lia).
  rewrite (date_parts_sep 7 0 _ _ _ _ _ _ _ _ dy 45 (dchars dm ++ 45 :: dchars dd ++ 32 :: dchars dh ++ 58 :: dchars di ++ 58 :: dchars ds)),
    (date_parts_sep 6 1 _ _ _ _ _ _ _ _ dm 45 (dchars dd ++ 32 :: dchars dh ++ 58 :: dchars di ++ 58 :: dchars ds)),
    (date_parts_sep 5 2 _ _ _ _ _ _ _ _ dd 32 (dchars dh ++ 58 :: dchars di ++ 58 :: dchars ds)),
    (date_parts_sep 4 3 _ _ _ _ _ _ _ _ dh 58 (dchars di ++ 58 :: dchars ds)),
    (date_parts_sep 3 4 _ _ _ _ _ _ _ _ di 58 (dchars ds)),
    (date_parts_end 2 5 _ _ _ _ _ _ _ _ ds)
    by (auto using dchars_head with cint lia; (lia || apply dchars_head; auto; lia)).
  rewrite bind_Some_eq, Vy, Vm, Vd, Vh, Vi, Vs.
  replace (length dy) with 4%nat by lia. change (my_isspace 45) with false. change (my_isspace 32) with true.
  cbn [p_delimitier p_space orb negb andb p_i]. cbv zeta.
  change (default 0 (clear_from _ _ !! 0%nat)) with 4. cbn [Z.eqb].
  rewrite (finish_run flags _ t); try done.
  rewrite <- Hc. f_equal. cbn [p_not_zero]. rewrite !lor_nonzero. unfold datetime_not_zero, date_not_zero.
  by destruct (year t =? 0), (month t =? 0), (day t =? 0), (hour t =? 0), (minute t =? 0), (second t =? 0).
Qed.

(** A date that [my_date_to_str] prints is read back by [str_to_datetime]
    as a DATE with the same fields, unless the caller asks for a full datetime. *)
Theorem date_str_roundtrip t l_time flags : time_ranges t ->
  check_date t (date_not_zero t) flags 0 = Some (false, 0) ->
  str_to_datetime (my_date_to_str t) l_time flags =
    if has flags TIME_DATETIME_ONLY then Some (MYSQL_TIMESTAMP_NONE, l_time, 1)
    else Some (MYSQL_TIMESTAMP_DATE,
               mkTime (year t) (month t) (day t) 0 0 0 0 false MYSQL_TIMESTAMP_DATE, 0).
Proof.
  intros (Hy & Hm & Hd & _) Hc. unfold my_date_to_str.
  destruct (fmt_d_spec 4 4 (year t)) as (dy & -> & Ly & Fy & Vy); [lia..|].
  destruct (fmt_d_spec 2 2 (month t)) as (dm & -> & Lm & Fm & Vm); [lia..|].
  destruct (fmt_d_spec 2 2 (day t)) as (dd & -> & Ld & Fd & Vd); [lia..|].
  cbn [app]. rewrite str_to_datetime_enter by (auto; lia).
  assert (digit_head (dchars dd)) as Hhs by (rewrite <- (app_nil_r (dchars dd)); apply dchars_head; auto; lia).
  rewrite (date_parts_sep 7 0 _ _ _ _ _ _ _ _ dy 45 (dchars dm ++ 45 :: dchars dd)),
    (date_parts_sep 6 1 _ _ _ _ _ _ _ _ dm 45 (dchars dd)), (date_parts_end 5 2 _ _ _ _ _ _ _ _ dd)
    by (auto using dchars_head with cint lia; (lia || apply dchars_head; auto; lia)).
  rewrite bind_Some_eq, Vy, Vm, Vd. replace (length dy) with 4%nat by lia. change (my_isspace 45) with false.
  cbn [p_delimitier p_space orb negb andb p_i]. cbv zeta. case_if; [done|].
  change (default 0 (clear_from _ _ !! 0%nat)) with 4. cbn [Z.eqb].
  rewrite (finish_run flags _ (mkTime (year t) (month t) (day t) 0 0 0 0 false MYSQL_TIMESTAMP_DATE)); try done.
  etrans; [|exact Hc]. change (check_date t) with (check_date (mkTime (year t) (month t) (day t) 0 0 0 0 false MYSQL_TIMESTAMP_DATE)).
  f_equal. cbn [p_not_zero]. rewrite !lor_nonzero. unfold date_not_zero.
  by destruct (year t =? 0), (month t =? 0), (day t =? 0).
Qed.

(** ** Times *)

Lemma time_digits_run ds v r : Forall is_digit ds -> no_digit_head r -> 0 <= v -> vfrom v ds < 2 ^ 63 ->
  time_digits v (dchars ds ++ r) = (vfrom v ds, r).
Proof.
  revert v. induction ds as [|d ds IH]; intros v Hd Hr Hv0 Hv.
  - simpl. destruct r as [|c r]; [done|]. simpl in *. by rewrite Hr.
  - apply Forall_cons_1 in Hd as [Hd Hds]. unfold is_digit in Hd. cbn [fmap list_fmap app time_digits].
    destruct (digit_classes d ltac:(lia)) as (-> & _ & _ & _). rewrite Z.add_simpl_l.
    assert (vfrom v (d :: ds) = vfrom (v * 10 + d) ds) as E by done. rewrite E in *.
    assert (v * 10 + d <= vfrom (v * 10 + d) ds).
    { rewrite vfrom_value. pose proof (value_bound ds Hds). nia. }
    rewrite s64_small by lia. apply IH; auto; lia.
Qed.

Lemma value_small ds : Forall is_digit ds -> (length ds <= 9)%nat -> value 10 ds < 2 ^ 63.
Proof.
  intros Hd Hl. pose proof (value_bound ds Hd).
  assert (10 ^ Z.of_nat (length ds) <= 10 ^ 9) by (apply Z.pow_le_mono_r; lia). lia.
Qed.

Lemma digit_head_no_minus s : digit_head s -> exists c t, s = c :: t /\ (c =? char_minus) = false.
Proof. intros (e & s' & -> & He). eexists _, _. split; [done|]. unfold char_minus. lia. Qed.

(** A string shorter than 12 characters, with the sign in front. *)
Lemma str_to_time_short ng s l_time : digit_head s -> (length s < 12)%nat ->
  str_to_time ((if ng : bool then [char_minus] else []) ++ s) l_time =
    days_to_second (mkTime (year l_time) (month l_time) (day l_time) (hour l_time) (minute l_time)
                           (second l_time) (second_part l_time) ng (time_type l_time)) s.
Proof.
  intros Hh Hl. pose proof (skip_space_digit s Hh) as Hsk. unfold str_to_time.
  destruct (digit_head_no_minus s Hh) as (c & t & -> & Hc).
  apply Nat.leb_gt in Hl. destruct ng; cbn [app].
  - change (skip_space (char_minus :: c :: t)) with (char_minus :: c :: t).
    cbv zeta iota beta. rewrite Z.eqb_refl. cbv zeta iota beta. rewrite Hl. done.
  - cbv zeta. rewrite Hsk. cbv iota beta. rewrite Hc, Hl. done.
Qed.

(** The digits up to a character that is neither a digit nor a space. *)
Lemma days_to_second_start l_time ds r : Forall is_digit ds -> (length ds <= 9)%nat -> no_digit_head r ->
  skip_space r = r ->
  days_to_second l_time (dchars ds ++ r) =
    (let v := value 10 ds in
     if at_separator time_separator r then
       '(state, date, s) ← time_parts 4 2 [0; v; 0; 0] (drop 1 r);
       finish_time l_time (take state date ++ replicate (4 - state) 0) s
     else finish_time l_time [0; Z.quot v 10000; Z.rem (Z.quot v 100) 100; Z.rem v 100] r).
Proof.
  intros Fd Hl Hr Hsk. unfold days_to_second.
  rewrite time_digits_run by (auto; try done; rewrite vfrom_0; apply value_small; auto).
  cbv zeta. rewrite Hsk, Nat.eqb_refl. cbn [negb]. rewrite andb_false_r. done.
Qed.

(** "H:M:S". *)
Lemma days_to_second_hms dh di ds l_time : Forall is_digit dh -> Forall is_digit di -> Forall is_digit ds ->
  (1 <= length dh <= 5)%nat -> length di = 2%nat -> length ds = 2%nat ->
  value 10 di < 60 -> value 10 ds < 60 ->
  days_to_second l_time (dchars dh ++ 58 :: dchars di ++ 58 :: dchars ds) =
  Some (false, mkTime 0 0 0 (value 10 dh) (value 10 di) (value 10 ds) 0 (neg l_time) MYSQL_TIMESTAMP_TIME, 0).
Proof.
  intros Fh Fi Fs Lh Li Ls Vi Vs. pose proof (value_bound dh Fh). pose proof (value_bound di Fi). pose proof (value_bound ds Fs).
  assert (10 ^ Z.of_nat (length dh) <= 10 ^ 5) by (apply Z.pow_le_mono_r; lia).
  rewrite days_to_second_start by (auto; try done; lia). cbv zeta.
  destruct (dchars_head di (58 :: dchars ds) Fi ltac:(lia)) as (e & s' & Edi & He).
  rewrite Edi. cbn [at_separator]. destruct (digit_classes e He) as (-> & _). change (58 =? time_separator) with true.
  cbn [andb drop]. rewrite <- Edi. cbn [time_parts].
  rewrite time_digits_run by (auto; try done; rewrite vfrom_0; apply value_small; auto; lia).
  destruct (dchars_head ds [] Fs ltac:(lia)) as (e2 & s2 & Eds & He2). rewrite app_nil_r in Eds.
  rewrite Eds. cbn [at_separator]. destruct (digit_classes e2 He2) as (-> & _). change (58 =? time_separator) with true.
  cbn [Nat.eqb orb negb andb drop]. rewrite <- Eds, <- (app_nil_r (dchars ds)).
  rewrite time_digits_run by (auto; try done; rewrite vfrom_0; apply value_small; auto; lia).
  cbn [Nat.eqb orb]. rewrite bind_Some_eq, !vfrom_0. unfold finish_time. cbn [fraction].
  rewrite bind_Some_eq. cbn.
  destruct (Z.leb_spec 60 (value 10 di)); [lia|]. destruct (Z.leb_spec 60 (value 10 ds)); [lia|]. cbn [orb].
  rewrite !u32_small by lia. done.
Qed.

(** The fraction loop stops with [field_length] 0 after six digits, and with
    the field length wrapped around when there is a seventh. *)
Lemma fraction_digits_run ds k v : Forall is_digit ds -> (length ds <= k)%nat -> (k <= 5)%nat ->
  0 <= v -> vfrom v ds < 2 ^ 63 ->
  fraction_digits (Z.of_nat k) v (dchars ds) = (vfrom v ds, Z.of_nat (k - length ds), []).
Proof.
  revert k v. induction ds as [|d ds IH]; intros k v Hd Hl Hk Hv0 Hv; [by rewrite Nat.sub_0_r|].
  apply Forall_cons_1 in Hd as [Hd Hds]. unfold is_digit in Hd. cbn [fmap list_fmap fraction_digits].
  destruct (digit_classes d ltac:(lia)) as (-> & _ & _ & ->). simpl length in *.
  destruct k as [|k]; [lia|]. destruct (Z.eqb_spec (Z.of_nat (S k)) 0); [lia|].
  rewrite u32_small by lia. replace (Z.of_nat (S k) - 1) with (Z.of_nat k) by lia.
  assert (vfrom v (d :: ds) = vfrom (v * 10 + d) ds) as E by done. rewrite E in *.
  assert (v * 10 + d <= vfrom (v * 10 + d) ds).
  { rewrite vfrom_value. pose proof (value_bound ds Hds). nia. }
  rewrite s64_small by lia. apply IH; auto; lia.
Qed.

Lemma fraction_digits_over ds k v : Forall is_digit ds -> (k < length ds)%nat -> (k <= 5)%nat ->
  exists v' s', fraction_digits (Z.of_nat k) v (dchars ds) = (v', 2 ^ 32 - 1, s').
Proof.
  revert k v. induction ds as [|d ds IH]; intros k v Hd Hl Hk; [simpl in Hl; lia|].
  apply Forall_cons_1 in Hd as [Hd Hds]. unfold is_digit in Hd. cbn [fmap list_fmap fraction_digits].
  destruct (digit_classes d ltac:(lia)) as (-> & _). simpl length in *.
  destruct k as [|k]; [eexists _, _; done|]. destruct (Z.eqb_spec (Z.of_nat (S k)) 0); [lia|].
  rewrite u32_small by lia. replace (Z.of_nat (S k) - 1) with (Z.of_nat k) by lia. apply IH; auto; lia.
Qed.

Lemma hundreds v : 0 <= v ->
  v = Z.quot v 10000 * 10000 + Z.rem (Z.quot v 100) 100 * 100 + Z.rem v 100 /\ 0 <= Z.quot v 10000 /\
  0 <= Z.rem (Z.quot v 100) 100 < 100 /\ 0 <= Z.rem v 100 < 100.
Proof.
  intros Hv. assert (0 <= Z.quot v 100) by (apply Z.quot_pos; lia).
  rewrite !Z.quot_div_nonneg, !Z.rem_mod_nonneg by (try lia; rewrite ?Z.quot_div_nonneg by lia; dlia). dlia.
Qed.

(** What [my_time_to_str] prints of a time, negative or not, of less than
    100000 hours is read back by [str_to_time] with the same sign and fields. *)
Theorem time_str_roundtrip t l_time : 0 <= hour t < 100000 -> 0 <= minute t < 60 -> 0 <= second t < 60 ->
  str_to_time (my_time_to_str t) l_time =
    Some (false, mkTime 0 0 0 (hour t) (minute t) (second t) 0 (neg t) MYSQL_TIMESTAMP_TIME, 0).
Proof.
  intros Hh Hi Hs. unfold my_time_to_str.
  destruct (fmt_d_spec 2 5 (hour t)) as (dh & -> & Lh & Fh & Vh); [lia..|].
  destruct (fmt_d_spec 2 2 (minute t)) as (di & -> & Li & Fi & Vi); [lia..|].
  destruct (fmt_d_spec 2 2 (second t)) as (ds & -> & Ls & Fs & Vs); [lia..|].
  cbn [app]. rewrite str_to_time_short.
  - rewrite days_to_second_hms by (auto; lia). by rewrite Vh, Vi, Vs.
  - apply dchars_head; [done|lia].
  - rewrite !length_app. cbn [length]. rewrite !length_app. cbn [length]. rewrite !length_fmap. lia.
Qed.

(** A time given as one number HHMMSS with a fraction of one to six digits
    is split into hours, minutes, seconds and microseconds; a minute or second
    of 60 or more is refused. *)
Theorem str_to_time_number dn df l_time : Forall is_digit dn -> Forall is_digit df ->
  (1 <= length dn)%nat -> (1 <= length df <= 6)%nat -> (length dn + length df <= 10)%nat ->
  exists h m s, value 10 dn = h * 10000 + m * 100 + s /\ 0 <= h /\ 0 <= m < 100 /\ 0 <= s < 100 /\
    str_to_time (dchars dn ++ char_dot :: dchars df) l_time =
      Some (if (60 <=? m) || (60 <=? s)
            then (true, mkTime (year l_time) (month l_time) (day l_time) (hour l_time) (minute l_time)
                               (second l_time) (second_part l_time) false (time_type l_time), 1)
            else (false, mkTime 0 0 0 h m s (value 10 df * 10 ^ (6 - Z.of_nat (length df))) false
                                MYSQL_TIMESTAMP_TIME, 0)).
Proof.
  intros Fn Ff Ln Lf Lt. pose proof (value_bound dn Fn) as Hn. pose proof (value_bound df Ff) as Hf.
  assert (10 ^ Z.of_nat (length dn) <= 10 ^ 9) by (apply Z.pow_le_mono_r; lia).
  destruct (hundreds (value 10 dn) ltac:(lia)) as (Ev & Hh & Hm & Hs).
  eexists _, _, _. split; [exact Ev|]. do 3 (split; [done|]).
  rewrite <- (app_nil_l (dchars dn ++ char_dot :: dchars df)).
  rewrite (str_to_time_short false); [|by apply dchars_head|rewrite length_app; cbn [length]; rewrite !length_fmap; lia].
  rewrite days_to_second_start by (auto; try done; lia). cbv zeta.
  destruct df as [|d df]; [simpl in Lf; lia|]. assert (is_digit d /\ Forall is_digit df) as [Hd Hdf] by (by apply Forall_cons).
  unfold is_digit in Hd. cbn [fmap list_fmap at_separator]. change (char_dot =? time_separator) with false. cbn [andb].
  destruct (digit_classes d ltac:(lia)) as (Ed & _ & _ & Eu). simpl length in *.
  assert (fraction (char_dot :: (48 + d) :: dchars df) =
    Some (value 10 (d :: df) * 10 ^ (6 - Z.of_nat (S (length df))), [])) as Efr.
  { cbn [fraction]. rewrite Ed. change (char_dot =? char_dot) with true. cbn [andb]. rewrite Eu.
    assert (10 ^ Z.of_nat (S (length df)) * 10 ^ (6 - Z.of_nat (S (length df))) = 10 ^ 6) as Epow
      by (rewrite <- Z.pow_add_r by lia; f_equal; lia).
    assert (10 ^ Z.of_nat (S (length df)) <= 10 ^ 6) by (apply Z.pow_le_mono_r; lia).
    change (fraction_digits 5) with (fraction_digits (Z.of_nat 5)).
    rewrite (fraction_digits_run df 5 d) by (auto; try lia; change (vfrom d df) with (value 10 (d :: df)); lia).
    change (vfrom d df) with (value 10 (d :: df)).
    destruct (Z.eqb_spec (Z.of_nat (5 - length df)) 0) as [E0|E0].
    - replace (6 - Z.of_nat (S (length df))) with 0 by lia. by rewrite Z.pow_0_r, Z.mul_1_r.
    - unfold log_10. destruct (Z.ltb_spec (Z.of_nat (5 - length df)) 20); [|lia].
      rewrite log_10_int_pow, bind_Some_eq by lia.
      replace (Z.of_nat (Z.to_nat (Z.of_nat (5 - length df)))) with (6 - Z.of_nat (S (length df))) by lia.
      rewrite s64_small by nia. done. }
  unfold finish_time. rewrite Efr, bind_Some_eq. cbn [lookup list_lookup default from_option id].
  case_if; [done|]. unfold garbage, b2z. cbn [existsb]. rewrite !u32_small by lia.
  rewrite u64_small; [done|].
  assert (10 ^ Z.of_nat (S (length df)) * 10 ^ (6 - Z.of_nat (S (length df))) = 10 ^ 6) as Epow
      by (rewrite <- Z.pow_add_r by lia; f_equal; lia). nia.
Qed.

(** With a fraction of seven digits or more [field_length--] is evaluated
    once more at 0 and wraps to 2^32 - 1, which then indexes the table
    [log_10_int] of 20 entries: the access is out of bounds. *)
Theorem str_to_time_fraction_overrun dn df l_time : Forall is_digit dn -> Forall is_digit df ->
  (1 <= length dn)%nat -> (7 <= length df)%nat -> (length dn + length df <= 10)%nat ->
  str_to_time (dchars dn ++ char_dot :: dchars df) l_time = None.
Proof.
  intros Fn Ff Ln Lf Lt.
  rewrite <- (app_nil_l (dchars dn ++ char_dot :: dchars df)).
  rewrite (str_to_time_short false); [|by apply dchars_head|rewrite length_app; cbn [length]; rewrite !length_fmap; lia].
  rewrite days_to_second_start by (auto; try done; lia). cbv zeta.
  destruct df as [|d df]; [simpl in Lf; lia|]. assert (is_digit d /\ Forall is_digit df) as [Hd Hdf] by (by apply Forall_cons).
  unfold is_digit in Hd. cbn [fmap list_fmap at_separator]. change (char_dot =? time_separator) with false. cbn [andb].
  destruct (digit_classes d ltac:(lia)) as (Ed & _). simpl length in *.
  unfold finish_time. cbn [fraction]. rewrite Ed. change (char_dot =? char_dot) with true. cbn [andb].
  destruct (fraction_digits_over df 5 (u8 (48 + d - 48)) Hdf ltac:(lia) ltac:(lia)) as (v' & s' & E).
  change (Z.of_nat 5) with 5 in E. rewrite E. done.
Qed.

(** A date part is compared with 999999 only after its digits were summed
    modulo 2^64: a year of twenty digits is read as year 2003 with nothing cut. *)
Theorem str_to_datetime_part_wraps :
  str_to_datetime (dchars [1; 8; 4; 4; 6; 7; 4; 4; 0; 7; 3; 7; 0; 9; 5; 5; 3; 6; 1; 9] ++
                   [45; 48; 49; 45; 48; 50]) bzero_time 0 =
    Some (MYSQL_TIMESTAMP_DATE, mkTime 2003 1 2 0 0 0 0 false MYSQL_TIMESTAMP_DATE, 0).
Proof. vm_compute. reflexivity. Qed.

Lemma datetime_str_roundtrip_witness :
  let t := mkTime 2004 2 29 23 59 58 7 true MYSQL_TIMESTAMP_DATETIME in
  str_to_datetime (my_datetime_to_str t) bzero_time TIME_NO_ZERO_IN_DATE =
    Some (MYSQL_TIMESTAMP_DATETIME, mkTime 2004 2 29 23 59 58 0 false MYSQL_TIMESTAMP_DATETIME, 0).
Proof.
  apply (datetime_str_roundtrip (mkTime 2004 2 29 23 59 58 7 true MYSQL_TIMESTAMP_DATETIME) bzero_time
    TIME_NO_ZERO_IN_DATE); [unfold time_ranges; simpl; lia|reflexivity].
Defined.

Lemma date_str_roundtrip_witness :
  let t := mkTime 5 1 31 0 0 0 0 false MYSQL_TIMESTAMP_DATE in
  str_to_datetime (my_date_to_str t) bzero_time TIME_FUZZY_DATE =
    Some (MYSQL_TIMESTAMP_DATE, mkTime 5 1 31 0 0 0 0 false MYSQL_TIMESTAMP_DATE, 0).
Proof.
  apply (date_str_roundtrip (mkTime 5 1 31 0 0 0 0 false MYSQL_TIMESTAMP_DATE) bzero_time TIME_FUZZY_DATE);
    [unfold time_ranges; simpl; lia|reflexivity].
Defined.

Lemma time_str_roundtrip_witness :
  let t := mkTime 0 0 0 838 59 59 0 true MYSQL_TIMESTAMP_TIME in
  str_to_time (my_time_to_str t) bzero_time =
    Some (false, mkTime 0 0 0 838 59 59 0 true MYSQL_TIMESTAMP_TIME, 0).
Proof.
  apply (time_str_roundtrip (mkTime 0 0 0 838 59 59 0 true MYSQL_TIMESTAMP_TIME) bzero_time); simpl; lia.
Defined.

Lemma str_to_time_number_witness :
  exists h m s, value 10 [1; 2; 3; 4; 5] = h * 10000 + m * 100 + s /\ 0 <= h /\ 0 <= m < 100 /\ 0 <= s < 100 /\
    str_to_time (dchars [1; 2; 3; 4; 5] ++ char_dot :: dchars [0; 2]) bzero_time =
      Some (if (60 <=? m) || (60 <=? s) then (true, bzero_time, 1)
            else (false, mkTime 0 0 0 h m s (value 10 [0; 2] * 10 ^ (6 - Z.of_nat 2)) false MYSQL_TIMESTAMP_TIME, 0)).
Proof.
  apply (str_to_time_number [1; 2; 3; 4; 5] [0; 2] bzero_time); try (simpl; lia);
    repeat constructor; unfold is_digit; lia.
Defined.

Lemma str_to_time_fraction_overrun_witness :
  str_to_time (dchars [1] ++ char_dot :: dchars [1; 2; 3; 4; 5; 6; 7]) bzero_time = None.
Proof.
  apply str_to_time_fraction_overrun; try (simpl; lia); repeat constructor; unfold is_digit; lia.
Defined.
