(* ===== verification/ThrLock.v ===== *)
(** * Table locks (mysys/thr_lock.c, include/thr_lock.h)

    A [THR_LOCK] holds four queues of lock instances.  Every function body runs
    under [lock->mutex], from which a thread departs only in
    [pthread_cond_wait], so the interleavings of threads are sequences of the
    operations below: [thr_lock] up to its return or its wait, the end of the
    wait ([wait_for_lock]), and the other functions as a whole.  The doubly
    linked intrusive queues are lists; a lock instance is found by its address
    [d_id].  The calls with effects outside (condition signals, the status
    functions of the storage engine, the statistics) are returned in order. *)

From stdpp Require Import base numbers list relations sorting.
From Stdlib Require Import ZArith Lia.
From S2P Require Import Prelude.

Local Open Scope Z_scope.

(** ** Data *)

Inductive thr_lock_type :=
  | TL_IGNORE | TL_UNLOCK
  | TL_READ | TL_READ_WITH_SHARED_LOCKS | TL_READ_HIGH_PRIORITY | TL_READ_NO_INSERT
  | TL_WRITE_ALLOW_WRITE | TL_WRITE_ALLOW_READ | TL_WRITE_CONCURRENT_INSERT | TL_WRITE_DELAYED
  | TL_WRITE_LOW_PRIORITY | TL_WRITE | TL_WRITE_ONLY.

#[export] Instance thr_lock_type_eq_dec : EqDecision thr_lock_type.
Proof. solve_decision. Defined.

(** The values of the enumeration, which the code compares. *)
Definition tl (t : thr_lock_type) : Z :=
  match t with
  | TL_IGNORE => -1 | TL_UNLOCK => 0
  | TL_READ => 1 | TL_READ_WITH_SHARED_LOCKS => 2 | TL_READ_HIGH_PRIORITY => 3 | TL_READ_NO_INSERT => 4
  | TL_WRITE_ALLOW_WRITE => 5 | TL_WRITE_ALLOW_READ => 6 | TL_WRITE_CONCURRENT_INSERT => 7
  | TL_WRITE_DELAYED => 8 | TL_WRITE_LOW_PRIORITY => 9 | TL_WRITE => 10 | TL_WRITE_ONLY => 11
  end.

Definition tle (a b : thr_lock_type) : bool := tl a <=? tl b.
Definition teq (a b : thr_lock_type) : bool := tl a =? tl b.

Inductive enum_thr_lock_result :=
  | THR_LOCK_SUCCESS | THR_LOCK_ABORTED | THR_LOCK_WAIT_TIMEOUT | THR_LOCK_DEADLOCK.

(** [THR_LOCK_OWNER] and the [THR_LOCK_INFO] it points at; addresses identify
    both. *)
Record THR_LOCK_OWNER := mkOwner { owner_addr : Z; info_addr : Z; info_thread : Z }.

Definition thr_lock_owner_equal (a b : THR_LOCK_OWNER) : bool := owner_addr a =? owner_addr b.

(** [d_cond] is whether [data->cond] is set. *)
Record THR_LOCK_DATA := mkData {
  d_id : Z; d_owner : THR_LOCK_OWNER; d_type : thr_lock_type; d_cond : bool }.

Definition set_type (t : thr_lock_type) (d : THR_LOCK_DATA) : THR_LOCK_DATA :=
  mkData (d_id d) (d_owner d) t (d_cond d).
Definition set_cond (c : bool) (d : THR_LOCK_DATA) : THR_LOCK_DATA :=
  mkData (d_id d) (d_owner d) (d_type d) c.

(** [has_check_status] is whether the function pointer is set. *)
Record THR_LOCK := mkLock {
  read_wait : list THR_LOCK_DATA;
  read : list THR_LOCK_DATA;
  write_wait : list THR_LOCK_DATA;
  write : list THR_LOCK_DATA;
  write_lock_count : Z;
  read_no_write_count : Z;
  has_check_status : bool }.

Definition thr_lock_init (check_status : bool) : THR_LOCK := mkLock [] [] [] [] 0 0 check_status.

(** Effects outside the lock. *)
Inductive call :=
  | Signal (id : Z)                          (** [pthread_cond_signal] *)
  | Get_status (id : Z) (concurrent : bool)
  | Update_status (id : Z)
  | Immediate | Waited.                      (** the statistics *)

(** What [thr_lock] did: it returned, or it entered [wait_for_lock]. *)
Inductive outcome := Returned (r : enum_thr_lock_result) | Waits.

(** ** The operations *)

Section operations.
(** The globals [thr_upgraded_concurrent_insert_lock] and
    [max_write_lock_count]. *)
Variable upgraded : thr_lock_type.
Variable max_write_lock_count : Z.

Definition set_read_wait l k := mkLock l (read k) (write_wait k) (write k) (write_lock_count k) (read_no_write_count k) (has_check_status k).
Definition set_read l k := mkLock (read_wait k) l (write_wait k) (write k) (write_lock_count k) (read_no_write_count k) (has_check_status k).
Definition set_write_wait l k := mkLock (read_wait k) (read k) l (write k) (write_lock_count k) (read_no_write_count k) (has_check_status k).
Definition set_write l k := mkLock (read_wait k) (read k) (write_wait k) l (write_lock_count k) (read_no_write_count k) (has_check_status k).
Definition set_write_count n k := mkLock (read_wait k) (read k) (write_wait k) (write k) n (read_no_write_count k) (has_check_status k).
Definition set_no_write_count n k := mkLock (read_wait k) (read k) (write_wait k) (write k) (write_lock_count k) n (has_check_status k).

Definition have_old_read_lock (l : list THR_LOCK_DATA) (owner : THR_LOCK_OWNER) : bool :=
  existsb (fun d => thr_lock_owner_equal (d_owner d) owner) l.
Definition have_specific_lock (l : list THR_LOCK_DATA) (type : thr_lock_type) : bool :=
  existsb (fun d => teq (d_type d) type) l.

(** [(( *data->prev)= data->next)] and the repair of the end of the queue. *)
Definition unlink (id : Z) (l : list THR_LOCK_DATA) : list THR_LOCK_DATA :=
  filter (fun d => d_id d ≠ id) l.

(** The end of [thr_lock]: a trivial deadlock with a cursor of the same
    connection, or the wait; [enqueue] puts the request on its queue. *)
Definition wait_or_deadlock (k : THR_LOCK) (owner : THR_LOCK_OWNER) (enqueue : THR_LOCK)
  : THR_LOCK * list call * outcome :=
  match head (read k ++ write k) with
  | Some lock_owner =>
      if info_addr (d_owner lock_owner) =? info_addr owner then (k, [], Returned THR_LOCK_DEADLOCK)
      else (enqueue, [], Waits)
  | None => (enqueue, [], Waits)
  end.

(** A read lock that is given at once. *)
Definition grant_read (k : THR_LOCK) (data : THR_LOCK_DATA) : THR_LOCK * list call * outcome :=
  let k := set_read (read k ++ [data]) k in
  let k := if teq (d_type data) TL_READ_NO_INSERT then set_no_write_count (u32 (read_no_write_count k + 1)) k else k in
  (k, [Get_status (d_id data) false; Immediate], Returned THR_LOCK_SUCCESS).

Definition thr_lock_read (k : THR_LOCK) (data : THR_LOCK_DATA) : THR_LOCK * list call * outcome :=
  let lock_type := d_type data in
  let wait := wait_or_deadlock k (d_owner data) (set_read_wait (read_wait k ++ [set_cond true data]) k) in
  match write k with
  | w :: _ =>
      if thr_lock_owner_equal (d_owner data) (d_owner w) ||
         (tle (d_type w) TL_WRITE_DELAYED &&
          (tle lock_type TL_READ_HIGH_PRIORITY ||
           (negb (teq (d_type w) TL_WRITE_CONCURRENT_INSERT) && negb (teq (d_type w) TL_WRITE_ALLOW_READ))))
      then grant_read k data
      else if teq (d_type w) TL_WRITE_ONLY then (k, [], Returned THR_LOCK_ABORTED)
      else wait
  | [] =>
      if match write_wait k with [] => true | ww :: _ => tle (d_type ww) TL_WRITE_LOW_PRIORITY end ||
         teq lock_type TL_READ_HIGH_PRIORITY || have_old_read_lock (read k) (d_owner data)
      then grant_read k data
      else wait
  end.

(** A write lock that is given at once. *)
Definition grant_write (k : THR_LOCK) (data : THR_LOCK_DATA) (concurrent_insert : bool)
  : THR_LOCK * list call * outcome :=
  (set_write (write k ++ [data]) k, [Get_status (d_id data) concurrent_insert; Immediate],
   Returned THR_LOCK_SUCCESS).

(** [check_status] is the answer of [lock->check_status] if it is called. *)
Definition thr_lock_write (k : THR_LOCK) (data : THR_LOCK_DATA) (check_status : bool)
  : THR_LOCK * list call * outcome :=
  let lock_type := d_type data in
  let only := match write k with w :: _ => teq (d_type w) TL_WRITE_ONLY | [] => false end in
  if teq lock_type TL_WRITE_DELAYED && only then (k, [], Returned THR_LOCK_ABORTED)
  else if teq lock_type TL_WRITE_DELAYED &&
          match write k with w :: _ => negb (teq (d_type w) TL_WRITE_ALLOW_READ) | [] => true end &&
          negb (have_specific_lock (write_wait k) TL_WRITE_ALLOW_READ) &&
          match write k ++ read k with [] => false | _ => true end
  then (set_write_wait (write_wait k ++ [set_cond true data]) k, [Immediate], Returned THR_LOCK_SUCCESS)
  else
    let data := if teq lock_type TL_WRITE_CONCURRENT_INSERT && negb (has_check_status k)
                then set_type upgraded data else data in
    let lock_type := d_type data in
    let wait data := wait_or_deadlock k (d_owner data) (set_write_wait (write_wait k ++ [set_cond true data]) k) in
    match write k with
    | w :: _ =>
        if teq (d_type w) TL_WRITE_ONLY then (k, [], Returned THR_LOCK_ABORTED)
        else if thr_lock_owner_equal (d_owner data) (d_owner w) ||
                (teq lock_type TL_WRITE_ALLOW_WRITE &&
                 match write_wait k with [] => true | _ => false end &&
                 teq (d_type w) TL_WRITE_ALLOW_WRITE)
        then grant_write k data false
        else wait data
    | [] =>
        match write_wait k with
        | [] =>
            let concurrent_insert := teq lock_type TL_WRITE_CONCURRENT_INSERT && negb check_status in
            let data := if teq lock_type TL_WRITE_CONCURRENT_INSERT && check_status
                        then set_type upgraded data else data in
            let lock_type := d_type data in
            if match read k with [] => true | _ => false end ||
               (tle lock_type TL_WRITE_DELAYED &&
                ((negb (teq lock_type TL_WRITE_CONCURRENT_INSERT) && negb (teq lock_type TL_WRITE_ALLOW_WRITE)) ||
                 (read_no_write_count k =? 0)))
            then grant_write k data concurrent_insert
            else wait data
        | _ => wait data
        end
    end.

(** [thr_lock] up to its return or its wait. *)
Definition thr_lock (k : THR_LOCK) (id : Z) (owner : THR_LOCK_OWNER) (lock_type : thr_lock_type)
    (check_status : bool) : THR_LOCK * list call * outcome :=
  let data := mkData id owner lock_type false in
  if tle lock_type TL_READ_NO_INSERT then thr_lock_read k data
  else thr_lock_write k data check_status.

(** The loop of [free_all_read_locks] over the instances that waited: those
    given a lock, those that go on waiting, the new [read_no_write_count]. *)
Fixpoint free_reads (using_concurrent_insert : bool) (l : list THR_LOCK_DATA) (count : Z)
  : list THR_LOCK_DATA * list THR_LOCK_DATA * Z * list call :=
  match l with
  | [] => ([], [], count, [])
  | data :: l =>
      if teq (d_type data) TL_READ_NO_INSERT && using_concurrent_insert then
        let '(given, kept, count, calls) := free_reads using_concurrent_insert l count in
        (given, data :: kept, count, calls)
      else
        let count := if teq (d_type data) TL_READ_NO_INSERT then u32 (count + 1) else count in
        let '(given, kept, count, calls) := free_reads using_concurrent_insert l count in
        (set_cond false data :: given, kept, count, Signal (d_id data) :: calls)
  end.

Definition free_all_read_locks (k : THR_LOCK) (using_concurrent_insert : bool) : THR_LOCK * list call :=
  let '(given, kept, count, calls) :=
    free_reads using_concurrent_insert (read_wait k) (read_no_write_count k) in
  (mkLock kept (read k ++ given) (write_wait k) (write k)
          (match kept with [] => 0 | _ => write_lock_count k end) count (has_check_status k), calls).

(** [if (lock->read_wait.data) free_all_read_locks(...)]. *)
Definition free_waiting_reads (k : THR_LOCK) (using_concurrent_insert : bool) : THR_LOCK * list call :=
  match read_wait k with [] => (k, []) | _ => free_all_read_locks k using_concurrent_insert end.

(** The loops that give write locks, from the queue [data :: rest]: the
    instances given, the last of them, and the queue left.  [upgrade] is the
    answer of [check_status] for a TL_WRITE_CONCURRENT_INSERT lock. *)
Fixpoint give_writes (upgrade : bool) (data : THR_LOCK_DATA) (rest : list THR_LOCK_DATA)
  : list THR_LOCK_DATA * THR_LOCK_DATA * list THR_LOCK_DATA :=
  let data := set_cond false
    (if teq (d_type data) TL_WRITE_CONCURRENT_INSERT && upgrade then set_type TL_WRITE data else data) in
  match rest with
  | next :: rest' =>
      if negb (teq (d_type data) TL_WRITE_ALLOW_WRITE) || negb (teq (d_type next) TL_WRITE_ALLOW_WRITE)
      then ([data], data, rest)
      else let '(given, last, rest) := give_writes upgrade next rest' in (data :: given, last, rest)
  | [] => ([data], data, [])
  end.

(** The part of [thr_unlock] after [if (!lock->write.data)] with no read lock
    in use. *)
Definition unlock_none_left (k : THR_LOCK) (check_status : bool) : THR_LOCK * list call :=
  match write_wait k with
  | data :: rest =>
      if negb (teq (d_type data) TL_WRITE_LOW_PRIORITY) ||
         match read_wait k with [] => true | r :: _ => negb (tle TL_READ_HIGH_PRIORITY (d_type r)) end
      then
        let too_many := max_write_lock_count <? write_lock_count k in
        let k := set_write_count (if too_many then 0 else u64 (write_lock_count k + 1)) k in
        match too_many, read_wait k with
        | true, _ :: _ => free_all_read_locks k false
        | _, _ =>
            let '(given, last, rest) := give_writes check_status data rest in
            let k := set_write (write k ++ given) (set_write_wait rest k) in
            let calls := (fun d => Signal (d_id d)) <$> given in
            if tle TL_WRITE_LOW_PRIORITY (d_type last) then (k, calls)
            else
              let '(k, calls') := free_waiting_reads k
                (teq (d_type last) TL_WRITE_CONCURRENT_INSERT || teq (d_type last) TL_WRITE_ALLOW_WRITE) in
              (k, calls ++ calls')
        end
      else free_waiting_reads k
             (teq (d_type data) TL_WRITE_CONCURRENT_INSERT || teq (d_type data) TL_WRITE_ALLOW_WRITE)
  | [] => free_waiting_reads k false
  end.

(** ... with read locks in use. *)
Definition unlock_reads_left (k : THR_LOCK) (check_status : bool) : THR_LOCK * list call :=
  match write_wait k with
  | data :: rest =>
      let lock_type := d_type data in
      let shares := teq lock_type TL_WRITE_CONCURRENT_INSERT || teq lock_type TL_WRITE_ALLOW_WRITE in
      if tle lock_type TL_WRITE_DELAYED && (negb shares || (read_no_write_count k =? 0)) then
        if teq lock_type TL_WRITE_CONCURRENT_INSERT && check_status then
          free_waiting_reads (set_write_wait (set_type TL_WRITE data :: rest) k) false
        else
          let '(given, _, rest) := give_writes false data rest in
          let k := set_write (write k ++ given) (set_write_wait rest k) in
          let '(k, calls) := free_waiting_reads k shares in
          (k, ((fun d => Signal (d_id d)) <$> given) ++ calls)
      else (k, [])
  | [] => free_waiting_reads k false
  end.

(** The queues after the removal of [data], an instance that holds a lock or
    a delayed write that waits. *)
Definition unlink_data (k : THR_LOCK) (data : THR_LOCK_DATA) : THR_LOCK :=
  if tle (d_type data) TL_READ_NO_INSERT then set_read (unlink (d_id data) (read k)) k
  else if teq (d_type data) TL_WRITE_DELAYED && d_cond data
  then set_write_wait (unlink (d_id data) (write_wait k)) k
  else set_write (unlink (d_id data) (write k)) k.

(** [thr_unlock] up to the check "after releasing lock". *)
Definition release (k : THR_LOCK) (data : THR_LOCK_DATA) : THR_LOCK :=
  let k := unlink_data k data in
  if teq (d_type data) TL_READ_NO_INSERT then set_no_write_count (u32 (read_no_write_count k - 1)) k else k.

Definition thr_unlock (k : THR_LOCK) (data : THR_LOCK_DATA) (check_status : bool) : THR_LOCK * list call :=
  let k := release k data in
  let calls := if tle TL_WRITE_CONCURRENT_INSERT (d_type data) then [Update_status (d_id data)] else [] in
  match write k, read k with
  | [], [] => let '(k, calls') := unlock_none_left k check_status in (k, calls ++ calls')
  | [], _ => let '(k, calls') := unlock_reads_left k check_status in (k, calls ++ calls')
  | _, _ => (k, calls)
  end.

(** The end of [wait_for_lock] for instance [id]: [timeout] is whether the
    wait timed out; an instance still queued leaves its queue. *)
Definition wait_for_lock_end (k : THR_LOCK) (id : Z) (timeout : bool)
  : THR_LOCK * list call * enum_thr_lock_result :=
  let mine := fun d => d_id d =? id in
  if existsb mine (read_wait k ++ write_wait k) then
    (set_read_wait (unlink id (read_wait k)) (set_write_wait (unlink id (write_wait k)) k), [],
     if timeout then THR_LOCK_WAIT_TIMEOUT else THR_LOCK_ABORTED)
  else if existsb mine (read k ++ write k) then (k, [Waited; Get_status id false], THR_LOCK_SUCCESS)
  else (k, [], THR_LOCK_ABORTED).

Definition thr_abort_locks (k : THR_LOCK) : THR_LOCK * list call :=
  (mkLock [] (read k) []
          (match write k with w :: l => set_type TL_WRITE_ONLY w :: l | [] => [] end)
          (write_lock_count k) (read_no_write_count k) (has_check_status k),
   (fun d => Signal (d_id d)) <$> (read_wait k ++ write_wait k)).

Definition thr_abort_locks_for_thread (k : THR_LOCK) (thread : Z) : THR_LOCK * list call * bool :=
  let of_thread := fun d => info_thread (d_owner d) = thread in
  let aborted := filter of_thread (read_wait k ++ write_wait k) in
  (set_read_wait (filter (fun d => ¬ of_thread d) (read_wait k))
     (set_write_wait (filter (fun d => ¬ of_thread d) (write_wait k)) k),
   (fun d => Signal (d_id d)) <$> aborted,
   match aborted with [] => false | _ => true end).

(** [thr_upgrade_write_delay_lock] up to its return or its wait;
    [data->type == TL_UNLOCK] is an instance that is in no queue. *)
Definition thr_upgrade_write_delay_lock (k : THR_LOCK) (id : Z) : THR_LOCK * list call * outcome :=
  match List.find (fun d => d_id d =? id) (write k ++ write_wait k) with
  | None => (k, [], Returned THR_LOCK_ABORTED)
  | Some data =>
      if tle TL_WRITE_LOW_PRIORITY (d_type data) then (k, [], Returned THR_LOCK_SUCCESS)
      else
        let upgrade := fun d => if d_id d =? id then set_type TL_WRITE d else d in
        if negb (d_cond data) then
          match read k with
          | [] => (set_write (upgrade <$> write k) k, [Get_status id false], Returned THR_LOCK_SUCCESS)
          | _ =>
              (set_write (unlink id (write k))
                 (set_write_wait (set_cond true (set_type TL_WRITE data) :: write_wait k) k), [], Waits)
          end
        else (set_write_wait (upgrade <$> write_wait k) k, [], Waits)
  end.

(** [thr_reschedule_write_lock] up to the call of
    [thr_upgrade_write_delay_lock]; [false] is a return of 0. *)
Definition thr_reschedule_write_lock (k : THR_LOCK) (data : THR_LOCK_DATA) : THR_LOCK * list call * bool :=
  match read_wait k with
  | [] => (k, [], false)
  | _ =>
      let k := set_write (unlink (d_id data) (write k))
                 (set_write_wait (set_cond true (set_type TL_WRITE_DELAYED data) :: write_wait k) k) in
      let '(k, calls) := free_all_read_locks k false in
      (k, Update_status (d_id data) :: calls, true)
  end.
End operations.

(** ** The consistency check of the debug build *)

Definition MAX_LOCKS : nat := 100.

(** The loop of [check_lock]; the links of the queue are right in a list. *)
Fixpoint check_run (first_owner : THR_LOCK_OWNER) (last_lock_type : thr_lock_type)
    (same_owner no_cond : bool) (l : list THR_LOCK_DATA) : bool :=
  match l with
  | [] => true
  | data :: l =>
      let last_lock_type := if teq (d_type data) last_lock_type then last_lock_type else TL_IGNORE in
      negb (same_owner && negb (thr_lock_owner_equal (d_owner data) first_owner) &&
            negb (teq last_lock_type TL_WRITE_ALLOW_WRITE)) &&
      negb (no_cond && d_cond data) &&
      check_run first_owner last_lock_type same_owner no_cond l
  end.

(** [true] is "no warning". *)
Definition check_lock (l : list THR_LOCK_DATA) (same_owner no_cond : bool) : bool :=
  match l with
  | [] => true
  | data :: _ =>
      check_run (d_owner data) (d_type data) same_owner no_cond l && (length l <=? MAX_LOCKS)%nat
  end.

Definition empty {A} (l : list A) : bool := match l with [] => true | _ => false end.

Definition no_insert_count (l : list THR_LOCK_DATA) : Z :=
  Z.of_nat (length (filter (fun d => d_type d = TL_READ_NO_INSERT) l)).

Definition check_locks (k : THR_LOCK) (allow_no_locks : bool) : bool :=
  check_lock (write k) true true && check_lock (write_wait k) false false &&
  check_lock (read k) false true && check_lock (read_wait k) false false &&
  (no_insert_count (read k) =? read_no_write_count k) &&
  match write k with
  | [] =>
      negb (negb allow_no_locks && empty (read k) && negb (empty (write_wait k) && empty (read_wait k))) &&
      match write_wait k with
      | [] => negb (negb allow_no_locks && negb (empty (read_wait k)))
      | ww :: _ =>
          negb (negb allow_no_locks &&
                (((teq (d_type ww) TL_WRITE_CONCURRENT_INSERT || teq (d_type ww) TL_WRITE_ALLOW_WRITE) &&
                  (read_no_write_count k =? 0)) ||
                 teq (d_type ww) TL_WRITE_ALLOW_READ ||
                 (teq (d_type ww) TL_WRITE_DELAYED && empty (read k))))
      end
  | w :: _ =>
      match write_wait k with
      | [] => true
      | ww :: _ => negb (negb allow_no_locks && teq (d_type w) TL_WRITE_ALLOW_WRITE &&
                         teq (d_type ww) TL_WRITE_ALLOW_WRITE)
      end &&
      match read k with
      | [] => true
      | r :: _ =>
          negb (negb (thr_lock_owner_equal (d_owner w) (d_owner r)) &&
                ((negb (tle (d_type w) TL_WRITE_DELAYED) && negb (teq (d_type w) TL_WRITE_ONLY)) ||
                 ((teq (d_type w) TL_WRITE_CONCURRENT_INSERT || teq (d_type w) TL_WRITE_ALLOW_WRITE) &&
                  negb (read_no_write_count k =? 0))))
      end &&
      match read_wait k with
      | [] => true
      | rw :: _ => negb (negb allow_no_locks && tle (d_type w) TL_WRITE_DELAYED &&
                         tle (d_type rw) TL_READ_HIGH_PRIORITY)
      end
  end.

(** ** The order of several locks *)

(** A request of [thr_multi_lock]: the addresses of the [THR_LOCK_DATA] and of
    its [THR_LOCK], and the type. *)
Record request := mkRequest { r_id : Z; r_lock : Z; r_type : thr_lock_type }.

Definition LOCK_CMP (a b : request) : bool := r_lock a - tl (r_type a) <? r_lock b - tl (r_type b).

(** One step of the insertion sort: [tmp] moves down in front of the sorted
    part, given from its end. *)
Fixpoint insert_down (tmp : request) (rev_sorted : list request) : list request :=
  match rev_sorted with
  | prev :: l => if LOCK_CMP tmp prev then prev :: insert_down tmp l else tmp :: rev_sorted
  | [] => [tmp]
  end.

Definition sort_locks (data : list request) : list request :=
  rev (foldl (fun acc tmp => insert_down tmp acc) [] data).

(** ** The invariant *)

Definition is_read (t : thr_lock_type) : Prop := 1 <= tl t <= 4.
Definition is_write (t : thr_lock_type) : Prop := 5 <= tl t <= 11.

Definition same_owner (a b : THR_LOCK_DATA) : Prop := owner_addr (d_owner a) = owner_addr (d_owner b).

(** Two write locks of different owners let each other write, or one of them
    was turned into TL_WRITE_ONLY by [thr_abort_locks]. *)
Definition shares_write (t : thr_lock_type) : Prop := t = TL_WRITE_ALLOW_WRITE \/ t = TL_WRITE_ONLY.
Definition ok_ww (a b : THR_LOCK_DATA) : Prop :=
  ~ same_owner a b -> shares_write (d_type a) /\ shares_write (d_type b).

(** A read lock beside a write lock of another owner. *)
Definition ok_rw (r w : THR_LOCK_DATA) : Prop :=
  ~ same_owner r w ->
  (tl (d_type w) <= 8 \/ d_type w = TL_WRITE_ONLY) /\
  (d_type r = TL_READ_NO_INSERT -> d_type w <> TL_WRITE_CONCURRENT_INSERT).

(** The order of the write locks held: nothing stronger behind a lock that
    lets others in, nothing at all behind a delayed one. *)
Definition before (a b : THR_LOCK_DATA) : Prop :=
  tl (d_type a) <= 8 -> d_type a <> TL_WRITE_DELAYED /\ tl (d_type b) <= tl (d_type a).

Definition holds_read (d : THR_LOCK_DATA) : Prop := is_read (d_type d) /\ d_cond d = false.
Definition waits_read (d : THR_LOCK_DATA) : Prop := is_read (d_type d) /\ d_cond d = true.
Definition holds_write (d : THR_LOCK_DATA) : Prop := is_write (d_type d) /\ d_cond d = false.
Definition waits_write (d : THR_LOCK_DATA) : Prop := is_write (d_type d) /\ d_cond d = true.

Definition instances (k : THR_LOCK) : list THR_LOCK_DATA :=
  read_wait k ++ read k ++ write_wait k ++ write k.

Record core (k : THR_LOCK) : Prop := {
  c_nodup : NoDup (d_id <$> instances k);
  c_size : Z.of_nat (length (instances k)) < 2 ^ 32;
  c_read_wait : Forall waits_read (read_wait k);
  c_read : Forall holds_read (read k);
  c_write_wait : Forall waits_write (write_wait k);
  c_write : Forall holds_write (write k);
  c_count : read_no_write_count k = no_insert_count (read k);
  c_ww : forall a b, a ∈ write k -> b ∈ write k -> ok_ww a b;
  c_before : StronglySorted before (write k);
  c_rw : forall r w, r ∈ read k -> w ∈ write k -> ok_rw r w;
  c_check : has_check_status k = false ->
    Forall (fun d => d_type d <> TL_WRITE_CONCURRENT_INSERT) (write_wait k ++ write k) }.

(** No instance waits for a lock that nobody holds. *)
Definition no_stall (k : THR_LOCK) : Prop :=
  read k = [] -> write k = [] -> read_wait k = [] /\ write_wait k = [].

Definition lock_inv (k : THR_LOCK) : Prop := core k /\ no_stall k.

(** *** Types *)

Lemma tl_inj a b : tl a = tl b -> a = b.
Proof. by destruct a, b. Qed.

Lemma teq_spec a b : reflect (a = b) (teq a b).
Proof.
  unfold teq. destruct (Z.eqb_spec (tl a) (tl b)) as [E|E]; constructor; [by apply tl_inj|congruence].
Qed.

Lemma teq_true a b : teq a b = true <-> a = b.
Proof. destruct (teq_spec a b); split; congruence. Qed.

Lemma teq_false a b : teq a b = false <-> a <> b.
Proof. destruct (teq_spec a b); split; congruence. Qed.

Lemma tle_spec a b : reflect (tl a <= tl b) (tle a b).
Proof. apply Z.leb_spec0. Qed.

Lemma owner_equal_spec a b : reflect (owner_addr a = owner_addr b) (thr_lock_owner_equal a b).
Proof. apply Z.eqb_spec. Qed.

(** *** Lists *)

Lemma StronglySorted_filter {A} (R : A -> A -> Prop) (P : A -> Prop) `{!forall x, Decision (P x)} l :
  StronglySorted R l -> StronglySorted R (filter P l).
Proof.
  induction 1 as [|x l Hs IH Hf]; [constructor|]. rewrite filter_cons. case_decide; [|done].
  constructor; [done|]. apply Forall_forall. intros y [_ Hy]%list_elem_of_filter.
  rewrite Forall_forall in Hf. auto.
Qed.

Lemma StronglySorted_snoc {A} (R : A -> A -> Prop) l x :
  StronglySorted R l -> Forall (fun a => R a x) l -> StronglySorted R (l ++ [x]).
Proof.
  induction 1 as [|y l Hs IH Hf]; intros Hx; simpl; [repeat constructor|].
  apply Forall_cons_1 in Hx as [Hy Hx]. constructor; [auto|]. apply Forall_app. auto.
Qed.

Lemma no_insert_count_app l1 l2 : no_insert_count (l1 ++ l2) = no_insert_count l1 + no_insert_count l2.
Proof. unfold no_insert_count. rewrite filter_app, length_app. lia. Qed.

Lemma no_insert_count_bound l : 0 <= no_insert_count l <= Z.of_nat (length l).
Proof. unfold no_insert_count. pose proof (length_filter (fun d => d_type d = TL_READ_NO_INSERT) l). lia. Qed.

Lemma no_insert_count_zero l d : no_insert_count l = 0 -> d ∈ l -> d_type d <> TL_READ_NO_INSERT.
Proof.
  unfold no_insert_count. intros H Hd E.
  assert (d ∈ filter (fun d => d_type d = TL_READ_NO_INSERT) l) as Hin by (by apply list_elem_of_filter).
  destruct (filter _ l); [by apply not_elem_of_nil in Hin|simpl in H; lia].
Qed.

(** Removing the only instance with an address. *)
Lemma unlink_permutation l d : NoDup (d_id <$> l) -> d ∈ l -> l ≡ₚ d :: unlink (d_id d) l.
Proof.
  induction l as [|x l IH]; intros Hn Hd; [by apply not_elem_of_nil in Hd|].
  rewrite fmap_cons in Hn. apply NoDup_cons in Hn as [Hx Hn]. unfold unlink. rewrite filter_cons.
  apply elem_of_cons in Hd as [->|Hd].
  - rewrite decide_False by (intros H; by apply H). f_equiv.
    assert (filter (fun d => d_id d ≠ d_id x) l = l) as ->; [|done].
    clear IH Hn. induction l as [|y l IH]; [done|]. rewrite filter_cons. rewrite fmap_cons in Hx.
    apply not_elem_of_cons in Hx as [Hxy Hx]. rewrite decide_True by congruence. f_equal. auto.
  - rewrite decide_True.
    + rewrite Permutation_swap. f_equiv. by apply IH.
    + intros E. apply Hx. rewrite E. by apply list_elem_of_fmap_2.
Qed.

Lemma unlink_sub id l : unlink id l ⊆+ l.
Proof. apply sublist_submseteq, sublist_filter. Qed.

Lemma elem_of_unlink d id l : d ∈ unlink id l -> d ∈ l.
Proof. by intros [_ ?]%list_elem_of_filter. Qed.

Lemma Forall_unlink P id l : Forall P l -> Forall P (unlink id l).
Proof. rewrite !Forall_forall. intros H d Hd. apply H. by eapply elem_of_unlink. Qed.

(** *** Addresses *)

Abbreviation ids k := (d_id <$> instances k).

Lemma NoDup_sub {A} (l k : list A) : l ⊆+ k -> NoDup k -> NoDup l.
Proof. intros [r Hr]%submseteq_Permutation Hk. rewrite Hr in Hk. by apply NoDup_app in Hk as [? _]. Qed.

Lemma ids_sub k k' : core k -> ids k' ⊆+ ids k ->
  NoDup (ids k') /\ Z.of_nat (length (instances k')) < 2 ^ 32.
Proof.
  intros Hc Hs. split; [by eapply NoDup_sub, Hc|]. apply submseteq_length in Hs.
  rewrite !length_fmap in Hs. pose proof (c_size _ Hc). lia.
Qed.

Lemma ids_add k k' id : core k -> ids k' ≡ₚ id :: ids k -> id ∉ ids k ->
  Z.of_nat (length (instances k)) + 1 < 2 ^ 32 ->
  NoDup (ids k') /\ Z.of_nat (length (instances k')) < 2 ^ 32.
Proof.
  intros Hc Hp Hf Hl. split; [rewrite Hp; constructor; [done|apply Hc]|].
  apply Permutation_length in Hp. simpl in Hp. rewrite !length_fmap in Hp. lia.
Qed.

(** *** Elementary changes *)

Ltac core_fields Hc :=
  constructor; cbn [read_wait read write_wait write write_lock_count read_no_write_count has_check_status
    set_read_wait set_read set_write_wait set_write set_write_count set_no_write_count];
  try exact (c_read_wait _ Hc); try exact (c_read _ Hc); try exact (c_write_wait _ Hc);
  try exact (c_write _ Hc); try exact (c_count _ Hc); try exact (c_ww _ Hc);
  try exact (c_before _ Hc); try exact (c_rw _ Hc); try exact (c_check _ Hc).

Lemma core_write_count k n : core k -> core (set_write_count n k).
Proof. intros Hc. core_fields Hc; [apply (c_nodup _ Hc)|apply (c_size _ Hc)]. Qed.

Section one_request.
Context (k : THR_LOCK) (data : THR_LOCK_DATA).
Hypothesis Hc : core k.
Hypothesis Hfresh : d_id data ∉ ids k.
Hypothesis Hsize : Z.of_nat (length (instances k)) + 1 < 2 ^ 32.

Lemma core_grant_read : holds_read data -> (forall w, w ∈ write k -> ok_rw data w) ->
  core (grant_read k data).1.1.
Proof.
  intros Hd Hw. unfold grant_read. cbn [fst].
  pose proof (no_insert_count_bound (read k)) as Hb.
  assert (length (read k) <= length (instances k))%nat as Hlen
    by (unfold instances; rewrite !length_app; lia).
  destruct (ids_add k (set_read (read k ++ [data]) k) (d_id data)) as [Hn Hs]; auto.
  { unfold instances. simpl. rewrite !fmap_app. simpl. solve_Permutation. }
  set (k' := if teq (d_type data) TL_READ_NO_INSERT then _ else _).
  assert (k' = set_no_write_count (no_insert_count (read k ++ [data])) (set_read (read k ++ [data]) k)) as ->.
  { unfold k', no_insert_count. rewrite filter_app, filter_cons, filter_nil, length_app. pose proof (c_count _ Hc) as Hcnt.
    unfold no_insert_count in *. destruct (teq_spec (d_type data) TL_READ_NO_INSERT) as [E|E].
    - rewrite decide_True by done. unfold set_no_write_count, set_read. simpl. rewrite u32_small by lia. f_equal. lia.
    - rewrite decide_False by done. unfold set_no_write_count, set_read. simpl. f_equal. lia. }
  core_fields Hc; auto.
  - apply Forall_app. split; [apply (c_read _ Hc)|]. by constructor.
  - intros r w Hr Hww. apply elem_of_app in Hr as [Hr|Hr]; [by apply (c_rw _ Hc)|].
    apply list_elem_of_singleton in Hr as ->. auto.
Qed.

Lemma core_grant_write c : holds_write data ->
  (has_check_status k = false -> d_type data <> TL_WRITE_CONCURRENT_INSERT) ->
  (forall w, w ∈ write k -> ok_ww data w /\ ok_ww w data /\ before w data) ->
  (forall r, r ∈ read k -> ok_rw r data) ->
  core (grant_write k data c).1.1.
Proof.
  intros Hd Hck Hw Hr. unfold grant_write. cbn [fst].
  destruct (ids_add k (set_write (write k ++ [data]) k) (d_id data)) as [Hn Hs]; auto.
  { unfold instances. simpl. rewrite !fmap_app. simpl. solve_Permutation. }
  core_fields Hc; auto.
  - apply Forall_app. split; [apply (c_write _ Hc)|]. by constructor.
  - intros a b Ha Hb. apply elem_of_app in Ha as [Ha|Ha], Hb as [Hb|Hb];
      try apply list_elem_of_singleton in Ha as ->; try apply list_elem_of_singleton in Hb as ->.
    + by apply (c_ww _ Hc). + by apply Hw. + by apply Hw. + by intros [].
  - apply StronglySorted_snoc; [apply (c_before _ Hc)|]. apply Forall_forall. intros a Ha. by apply Hw.
  - intros r w Hr' Hww. apply elem_of_app in Hww as [Hww|Hww]; [by apply (c_rw _ Hc)|].
    apply list_elem_of_singleton in Hww as ->. auto.
  - intros Hf. rewrite app_assoc. apply Forall_app. split; [by apply (c_check _ Hc)|]. constructor; auto.
Qed.

Lemma core_enqueue_read : is_read (d_type data) ->
  core (set_read_wait (read_wait k ++ [set_cond true data]) k).
Proof.
  intros Hd. destruct (ids_add k (set_read_wait (read_wait k ++ [set_cond true data]) k) (d_id data)) as [Hn Hs]; auto.
  { unfold instances. simpl. rewrite !fmap_app. simpl. solve_Permutation. }
  core_fields Hc; auto. apply Forall_app. split; [apply (c_read_wait _ Hc)|]. by constructor.
Qed.

Lemma core_enqueue_write : is_write (d_type data) ->
  (has_check_status k = false -> d_type data <> TL_WRITE_CONCURRENT_INSERT) ->
  core (set_write_wait (write_wait k ++ [set_cond true data]) k).
Proof.
  intros Hd Hck. destruct (ids_add k (set_write_wait (write_wait k ++ [set_cond true data]) k) (d_id data)) as [Hn Hs]; auto.
  { unfold instances. simpl. rewrite !fmap_app. simpl. solve_Permutation. }
  core_fields Hc; auto.
  - apply Forall_app. split; [apply (c_write_wait _ Hc)|]. by constructor.
  - intros Hf. pose proof (c_check _ Hc Hf) as H. apply Forall_app in H as [H1 H2].
    rewrite !Forall_app. split; [split; [done|by constructor; auto]|done].
Qed.

Lemma wait_or_deadlock_core q r : core q -> core (wait_or_deadlock k r q).1.1.
Proof. unfold wait_or_deadlock. intros Hq. destruct (head _); [case_if|]; done. Qed.
End one_request.

(** *** A request *)

(** What a connection asks for after it holds write locks of the table: no
    stronger ones, and nothing more after a delayed write.  [sort_locks]
    arranges the requests of one [thr_multi_lock] this way; the code says of
    other orders that they never happen within MySQL. *)
Definition descending (k : THR_LOCK) (owner : THR_LOCK_OWNER) (lock_type : thr_lock_type) : Prop :=
  forall w, w ∈ write k -> owner_addr (d_owner w) = owner_addr owner ->
    d_type w <> TL_WRITE_DELAYED /\ tl lock_type <= tl (d_type w).

Lemma not_same_owner_other a b c : same_owner a b -> ~ same_owner a c -> ~ same_owner b c.
Proof. unfold same_owner. congruence. Qed.

Lemma head_before k w0 l w : core k -> write k = w0 :: l -> w ∈ write k -> w = w0 \/ before w0 w.
Proof.
  intros Hc Hw Hin. pose proof (c_before _ Hc) as Hb. rewrite Hw in *.
  apply elem_of_cons in Hin as [->|Hin]; [by left|right].
  apply StronglySorted_inv in Hb as [_ Hb]. rewrite Forall_forall in Hb. auto.
Qed.

Ltac types := unfold is_read, is_write, shares_write in *; repeat match goal with
  | H : ?t = _ |- _ => is_var t; subst t
  end; simpl tl in *; try lia; try congruence.

(** Split on the condition of the operation in the goal. *)
Ltac outer_if E :=
  lazymatch goal with |- core (if ?b then _ else _).1.1 => destruct b eqn:E end.

Section requests.
Variable upgraded : thr_lock_type.
Hypothesis Hup : upgraded = TL_WRITE \/ upgraded = TL_WRITE_LOW_PRIORITY.

Lemma read_beside_writes k data w0 l : core k -> write k = w0 :: l -> is_read (d_type data) ->
  same_owner data w0 \/
  (tl (d_type w0) <= 8 /\
   (tl (d_type data) <= 3 \/ (d_type w0 <> TL_WRITE_CONCURRENT_INSERT /\ d_type w0 <> TL_WRITE_ALLOW_READ))) ->
  forall w, w ∈ write k -> ok_rw data w.
Proof.
  intros Hc Hw Hd Hcase w Hin Hne. assert (w0 ∈ write k) as Hin0 by (rewrite Hw; apply list_elem_of_here).
  destruct Hcase as [Hs|[H8 Hcase]].
  - destruct (c_ww _ Hc w0 w Hin0 Hin (not_same_owner_other _ _ _ Hs Hne)) as [_ [E|E]];
      rewrite E; (split; [auto|discriminate]). left. simpl. lia.
  - destruct (head_before k w0 l w Hc Hw Hin) as [->|Hb].
    + split; [by left|]. intros E. rewrite E in Hcase. destruct Hcase as [H3|[? _]]; [simpl in H3; lia|done].
    + destruct (Hb H8) as [Hnd Hle]. split; [left; lia|]. intros E E'. rewrite E, E' in *. simpl in *.
      destruct Hcase as [H3|[Hci Har]]; [lia|].
      pose proof (c_write _ Hc) as Hh. rewrite Forall_forall in Hh. destruct (Hh w0 Hin0) as [Hw0 _].
      destruct (d_type w0); types.
Qed.

Lemma thr_lock_read_core k data : core k -> d_id data ∉ ids k -> Z.of_nat (length (instances k)) + 1 < 2 ^ 32 ->
  holds_read data -> core (thr_lock_read k data).1.1.
Proof.
  intros Hc Hf Hs Hd. unfold thr_lock_read. cbv zeta.
  assert (core (wait_or_deadlock k (d_owner data) (set_read_wait (read_wait k ++ [set_cond true data]) k)).1.1)
    as Hwait by (apply wait_or_deadlock_core; [done|]; apply core_enqueue_read; auto; apply Hd).
  destruct (write k) as [|w0 l] eqn:Hw.
  - case_if; [|done]. apply core_grant_read; auto. rewrite Hw. by intros w ?%not_elem_of_nil.
  - destruct (owner_equal_spec (d_owner data) (d_owner w0)) as [E|E]; cbn [orb].
    { apply core_grant_read; auto. apply (read_beside_writes k data w0 l Hc Hw (proj1 Hd)). by left. }
    destruct (tle_spec (d_type w0) TL_WRITE_DELAYED) as [H8|H8]; cbn [andb]; [|by case_if].
    destruct (tle_spec (d_type data) TL_READ_HIGH_PRIORITY) as [H3|H3],
      (teq_spec (d_type w0) TL_WRITE_CONCURRENT_INSERT) as [H7|H7],
      (teq_spec (d_type w0) TL_WRITE_ALLOW_READ) as [H6|H6]; cbn [orb andb negb];
      try (apply core_grant_read; auto; apply (read_beside_writes k data w0 l Hc Hw (proj1 Hd)); right; auto);
      by case_if.
Qed.

(** A second write lock of the owner of the first. *)
Lemma write_beside_own k data w0 l : core k -> write k = w0 :: l -> d_type w0 <> TL_WRITE_ONLY ->
  is_write (d_type data) -> same_owner data w0 ->
  (forall w, w ∈ write k -> same_owner w data -> tl (d_type w) <= 8 ->
     d_type w <> TL_WRITE_DELAYED /\ tl (d_type data) <= tl (d_type w)) ->
  (forall w, w ∈ write k -> ok_ww data w /\ ok_ww w data /\ before w data) /\
  (forall r, r ∈ read k -> ok_rw r data).
Proof.
  intros Hc Hw Hno Hd Hs Hdesc. assert (w0 ∈ write k) as Hin0 by (rewrite Hw; apply list_elem_of_here).
  assert (same_owner w0 data) as Hs' by (unfold same_owner in *; congruence).
  (* an instance of another owner beside the first makes all of them TL_WRITE_ALLOW_WRITE *)
  assert (forall w, w ∈ write k -> ~ same_owner w0 w ->
    d_type w0 = TL_WRITE_ALLOW_WRITE /\ d_type data = TL_WRITE_ALLOW_WRITE /\ shares_write (d_type w)) as Hother.
  { intros w Hin Hne. destruct (c_ww _ Hc w0 w Hin0 Hin Hne) as [[E|E] Hsh]; [|done].
    destruct (Hdesc w0 Hin0 Hs') as [_ Hle]; [by rewrite E|]. rewrite E in Hle. split; [done|]. split; [|done].
    destruct (d_type data); types. }
  split.
  - intros w Hin.
    assert (ok_ww data w /\ ok_ww w data) as [H1 H2].
    { assert (~ same_owner w0 w -> shares_write (d_type data) /\ shares_write (d_type w)) as H.
      { intros Hne. destruct (Hother w Hin Hne) as (_ & E & Hsh). rewrite E. split; [by left|done]. }
      unfold ok_ww, same_owner in *. split; intros Hne; [apply H|apply and_comm, H]; congruence. }
    split; [done|]. split; [done|]. intros H8. destruct (decide (owner_addr (d_owner w) = owner_addr (d_owner data))) as [E|E].
    + by apply Hdesc.
    + destruct (Hother w Hin) as (_ & E' & [Hw'|Hw']); [unfold same_owner in *; congruence|rewrite Hw', E'; simpl; auto with lia|].
      rewrite Hw' in H8. simpl in H8. lia.
  - intros r Hr Hne. assert (~ same_owner r w0) as Hne0 by (unfold same_owner in *; congruence).
    destruct (c_rw _ Hc r w0 Hr Hin0 Hne0) as [[H8|H8] Hci]; [|done].
    destruct (Hdesc w0 Hin0 Hs' H8) as [Hnd Hle]. split; [left; lia|]. intros E E'. apply (Hci E).
    rewrite E' in Hle. destruct (d_type w0); types.
Qed.

(** A TL_WRITE_ALLOW_WRITE lock beside others. *)
Lemma write_beside_allow k data w0 l : core k -> write k = w0 :: l ->
  d_type w0 = TL_WRITE_ALLOW_WRITE -> d_type data = TL_WRITE_ALLOW_WRITE ->
  (forall w, w ∈ write k -> ok_ww data w /\ ok_ww w data /\ before w data) /\
  (forall r, r ∈ read k -> ok_rw r data).
Proof.
  intros Hc Hw E0 Ed. pose proof (c_write _ Hc) as Hh. rewrite Forall_forall in Hh.
  assert (forall w, w ∈ write k -> d_type w = TL_WRITE_ALLOW_WRITE) as Hall.
  { intros w Hin. destruct (head_before k w0 l w Hc Hw Hin) as [->|Hb]; [done|].
    destruct Hb as [_ Hle]; [rewrite E0; simpl; lia|]. destruct (Hh w Hin) as [Hw' _].
    rewrite E0 in Hle. destruct (d_type w); types. }
  split.
  - intros w Hin. unfold ok_ww, before, shares_write. rewrite (Hall w Hin), Ed. simpl.
    repeat split; auto; try discriminate; lia.
  - intros r Hr. unfold ok_rw. rewrite Ed. simpl. split; [left; lia|discriminate].
Qed.

Lemma upgraded_write : is_write upgraded.
Proof. destruct Hup as [-> | ->]; types. Qed.

Lemma wait_write_core k data : core k -> d_id data ∉ ids k -> Z.of_nat (length (instances k)) + 1 < 2 ^ 32 ->
  is_write (d_type data) -> (has_check_status k = false -> d_type data <> TL_WRITE_CONCURRENT_INSERT) ->
  core (wait_or_deadlock k (d_owner data) (set_write_wait (write_wait k ++ [set_cond true data]) k)).1.1.
Proof. intros. apply wait_or_deadlock_core; [done|]. by apply core_enqueue_write. Qed.

(** The request after the upgrade for engines without [check_status]. *)
Lemma prepared_request k data : core k -> holds_write data -> descending k (d_owner data) (d_type data) ->
  let data' := if teq (d_type data) TL_WRITE_CONCURRENT_INSERT && negb (has_check_status k)
               then set_type upgraded data else data in
  d_id data' = d_id data /\ d_owner data' = d_owner data /\ holds_write data' /\
  (has_check_status k = false -> d_type data' <> TL_WRITE_CONCURRENT_INSERT) /\
  (forall w, w ∈ write k -> same_owner w data' -> tl (d_type w) <= 8 ->
     d_type w <> TL_WRITE_DELAYED /\ tl (d_type data') <= tl (d_type w)).
Proof.
  intros Hc [Hd Hcond] Hdesc data'. unfold data'.
  destruct (teq_spec (d_type data) TL_WRITE_CONCURRENT_INSERT) as [E|E], (has_check_status k) eqn:Ek; cbn [andb negb];
    try (split; [done|]; split; [done|]; split; [done|]; split; [congruence|]; intros; by apply Hdesc).
  split; [done|]. split; [done|]. split; [split; [apply upgraded_write|done]|]. simpl.
  split; [intros _; destruct Hup as [-> | ->]; discriminate|].
  intros w Hin Hs H8. destruct (Hdesc w Hin Hs) as [Hnd Hle]. exfalso. rewrite E in Hle.
  pose proof (c_check _ Hc Ek) as Hck. rewrite Forall_app, !Forall_forall in Hck.
  apply (proj2 Hck w); [done|]. destruct (d_type w); types.
Qed.

Lemma thr_lock_write_core k data chk : core k -> d_id data ∉ ids k ->
  Z.of_nat (length (instances k)) + 1 < 2 ^ 32 -> holds_write data ->
  descending k (d_owner data) (d_type data) ->
  core (thr_lock_write upgraded k data chk).1.1.
Proof.
  intros Hc Hf Hs Hd Hdesc. unfold thr_lock_write. cbv zeta.
  outer_if E; [done|]. outer_if E0.
  { apply core_enqueue_write; auto; [apply Hd|]. intros _ E'. rewrite E' in E0. discriminate. }
  pose proof (prepared_request k data Hc Hd Hdesc) as Hp. cbv zeta in Hp.
  set (data' := if teq (d_type data) TL_WRITE_CONCURRENT_INSERT && negb (has_check_status k) then _ else _) in *.
  clearbody data'. destruct Hp as (Eid & Eow & Hd' & Hck & Hdesc').
  assert (core (wait_or_deadlock k (d_owner data') (set_write_wait (write_wait k ++ [set_cond true data']) k)).1.1)
    as Hwait by (apply wait_write_core; auto; [by rewrite Eid|apply Hd']).
  assert (d_id data' ∉ ids k) as Hf' by (by rewrite Eid).
  destruct (write k) as [|w0 l] eqn:Hw.
  - destruct (write_wait k) as [|ww lw] eqn:Hww; [|done].
    set (data'' := if teq (d_type data') TL_WRITE_CONCURRENT_INSERT && chk then _ else _).
    assert (d_id data'' = d_id data' /\ d_owner data'' = d_owner data' /\ holds_write data'' /\
      (has_check_status k = false -> d_type data'' <> TL_WRITE_CONCURRENT_INSERT)) as (Eid2 & Eow2 & Hd2 & Hck2).
    { unfold data''. case_if; [|auto]. split; [done|]. split; [done|]. split; [split; [apply upgraded_write|apply Hd']|].
      intros _. destruct Hup as [-> | ->]; discriminate. }
    clearbody data''. outer_if E1.
    + apply core_grant_write; auto; [by rewrite Eid2|rewrite Hw; by intros w ?%not_elem_of_nil|].
      intros r Hr Hne. destruct (read k) as [|r0 lr] eqn:Hrd; [by apply not_elem_of_nil in Hr|]. cbn [orb] in E1.
      apply andb_true_iff in E1 as [H8 Hci]. destruct (tle_spec (d_type data'') TL_WRITE_DELAYED) as [H8'|]; [|done].
      split; [by left|]. intros Er Ew. rewrite Ew in Hci. cbn in Hci. apply Z.eqb_eq in Hci.
      rewrite (c_count _ Hc), Hrd in Hci. by apply (no_insert_count_zero _ r Hci Hr).
    + pose proof (wait_write_core k data'') as Hq. rewrite Hww in Hq. apply Hq; auto; [by rewrite Eid2|apply Hd2].
  - destruct (teq_spec (d_type w0) TL_WRITE_ONLY) as [|Hno]; [done|].
    destruct (owner_equal_spec (d_owner data') (d_owner w0)) as [Eo|Eo]; cbn [orb].
    { destruct (write_beside_own k data' w0 l Hc Hw Hno (proj1 Hd') Eo) as [H1 H2]; [by rewrite Hw|].
      by apply core_grant_write. }
    destruct (teq_spec (d_type data') TL_WRITE_ALLOW_WRITE) as [Ea|], (write_wait k) as [|ww lw] eqn:Hww,
      (teq_spec (d_type w0) TL_WRITE_ALLOW_WRITE) as [Ew0|]; cbn [andb]; try done.
    destruct (write_beside_allow k data' w0 l Hc Hw Ew0 Ea) as [H1 H2]. by apply core_grant_write.
Qed.

(** Every request keeps the core of the invariant. *)
Lemma thr_lock_core k id owner lock_type chk : core k -> id ∉ ids k ->
  Z.of_nat (length (instances k)) + 1 < 2 ^ 32 -> is_read lock_type \/ is_write lock_type ->
  descending k owner lock_type -> core (thr_lock upgraded k id owner lock_type chk).1.1.
Proof.
  intros Hc Hf Hs Ht Hdesc. unfold thr_lock. cbv zeta.
  destruct (tle_spec lock_type TL_READ_NO_INSERT) as [H|H]; simpl in H; [apply thr_lock_read_core|apply thr_lock_write_core]; auto;
    (split; [|done]); types; simpl; lia.
Qed.

(** The queues of the locks held only grow. *)
Lemma thr_lock_grows k id owner lock_type chk :
  let k' := (thr_lock upgraded k id owner lock_type chk).1.1 in
  read k `prefix_of` read k' /\ write k `prefix_of` write k'.
Proof.
  cbv zeta. unfold thr_lock, thr_lock_read, thr_lock_write, grant_read, grant_write, wait_or_deadlock.
  destruct k as [rw r ww w wc nc hc]; cbn.
  repeat match goal with
  | |- context [match ?x with _ => _ end] => destruct x
  | |- context [if ?x then _ else _] => destruct x
  end; cbn; split; first [apply prefix_nil | done | by apply prefix_app_r | by apply prefix_cons, prefix_app_r].
Qed.

(** ... and never leaves a request waiting for nobody. *)
Lemma thr_lock_no_stall k id owner lock_type chk : no_stall k ->
  no_stall (thr_lock upgraded k id owner lock_type chk).1.1.
Proof.
  intros Hn Hr Hw. pose proof (thr_lock_grows k id owner lock_type chk) as [Pr Pw].
  rewrite Hr in Pr. rewrite Hw in Pw. apply prefix_nil_inv in Pr, Pw. destruct (Hn Pr Pw) as [E1 E2].
  exfalso. revert Hr Hw. destruct k as [rw r ww w wc nc hc]; cbn in *. subst.
  unfold thr_lock, thr_lock_read, thr_lock_write, grant_read, grant_write. cbn.
  destruct (tle lock_type TL_READ_NO_INSERT); cbn; [by case_if|].
  rewrite andb_false_r, !andb_false_r. cbn. discriminate.
Qed.
End requests.

(** *** Giving locks to those that wait *)

Definition is_no_insert (d : THR_LOCK_DATA) : Prop := d_type d = TL_READ_NO_INSERT.

Lemma free_reads_spec u l count : 0 <= count -> count + Z.of_nat (length l) < 2 ^ 32 ->
  exists given calls,
    free_reads u l count =
      (set_cond false <$> given, filter (fun d => is_no_insert d /\ u = true) l,
       count + no_insert_count given, calls) /\
    given = filter (fun d => ~ (is_no_insert d /\ u = true)) l.
Proof.
  revert count. induction l as [|d l IH]; intros count H0 Hl; [eexists [], _; cbn; by rewrite Z.add_0_r|].
  simpl length in Hl. cbn [free_reads]. rewrite !filter_cons. unfold is_no_insert in *.
  destruct (teq_spec (d_type d) TL_READ_NO_INSERT) as [E|E], u; cbn [andb].
  - destruct (IH count H0 ltac:(lia)) as (g & calls & -> & ->).
    rewrite decide_True by done. rewrite decide_False by tauto. eexists _, _. split; done.
  - rewrite u32_small by lia. destruct (IH (count + 1) ltac:(lia) ltac:(lia)) as (g & calls & -> & ->).
    rewrite decide_False by (intros [_ ?]; discriminate). rewrite decide_True by (intros [_ ?]; discriminate).
    eexists _, _. split; [|done]. rewrite fmap_cons. do 2 f_equal.
    unfold no_insert_count. rewrite filter_cons, decide_True by done. simpl length. lia.
  - destruct (IH count H0 ltac:(lia)) as (g & calls & -> & ->).
    rewrite decide_False by tauto. rewrite decide_True by tauto. eexists _, _. split; [|done].
    rewrite fmap_cons. do 2 f_equal. unfold no_insert_count. by rewrite filter_cons, decide_False.
  - destruct (IH count H0 ltac:(lia)) as (g & calls & -> & ->).
    rewrite decide_False by tauto. rewrite decide_True by tauto. eexists _, _. split; [|done].
    rewrite fmap_cons. do 2 f_equal. unfold no_insert_count. by rewrite filter_cons, decide_False.
Qed.

Lemma no_insert_count_set_cond c (l : list THR_LOCK_DATA) : no_insert_count (set_cond c <$> l) = no_insert_count l.
Proof.
  unfold no_insert_count. f_equal. induction l as [|d l IH]; [done|]. rewrite fmap_cons, !filter_cons. simpl.
  case_decide; simpl; congruence.
Qed.

Lemma ids_set_cond c (l : list THR_LOCK_DATA) : d_id <$> (set_cond c <$> l) = d_id <$> l.
Proof. by rewrite <- list_fmap_compose. Qed.

Lemma free_all_core k u : core k ->
  (forall r w, r ∈ read_wait k -> w ∈ write k -> (u = true -> d_type r <> TL_READ_NO_INSERT) ->
     ok_rw (set_cond false r) w) ->
  core (free_all_read_locks k u).1.
Proof.
  intros Hc Hrw. unfold free_all_read_locks. pose proof (no_insert_count_bound (read k)) as Hb.
  pose proof (c_count _ Hc) as Hcnt. pose proof (c_size _ Hc) as Hsz. unfold instances in Hsz. rewrite !length_app in Hsz.
  destruct (free_reads_spec u (read_wait k) (read_no_write_count k)) as (given & calls & -> & Eg); [lia..|].
  cbn [fst]. set (kept := filter (fun d => is_no_insert d /\ u = true) (read_wait k)).
  set (k' := mkLock _ _ _ _ _ _ _).
  assert (ids k' ⊆+ ids k) as Hsub.
  { unfold k', instances. simpl. rewrite !fmap_app, ids_set_cond, Eg. unfold kept.
    rewrite <- (filter_app_complement (fun d => is_no_insert d /\ u = true) (read_wait k)) at 3.
    rewrite fmap_app. solve_submseteq. }
  destruct (ids_sub k k' Hc Hsub) as [Hn Hs].
  constructor; try done; unfold k' in *; cbn [read_wait read write_wait write read_no_write_count has_check_status].
  - unfold kept. apply Forall_forall. intros d [_ Hd]%list_elem_of_filter. pose proof (c_read_wait _ Hc) as H.
    rewrite Forall_forall in H. auto.
  - apply Forall_app. split; [apply (c_read _ Hc)|]. rewrite Forall_fmap, Eg. apply Forall_forall.
    intros d [_ Hd]%list_elem_of_filter. pose proof (c_read_wait _ Hc) as H. rewrite Forall_forall in H.
    split; [apply (H _ Hd)|done].
  - apply (c_write_wait _ Hc).
  - apply (c_write _ Hc).
  - by rewrite no_insert_count_app, no_insert_count_set_cond, Hcnt.
  - apply (c_ww _ Hc).
  - apply (c_before _ Hc).
  - intros r w Hr Hw. apply elem_of_app in Hr as [Hr|Hr]; [by apply (c_rw _ Hc)|].
    apply list_elem_of_fmap in Hr as (r' & -> & Hr'). rewrite Eg in Hr'. apply list_elem_of_filter in Hr' as [Hu Hr'].
    apply Hrw; auto.
  - apply (c_check _ Hc).
Qed.

Lemma free_waiting_core k u : core k ->
  (forall r w, r ∈ read_wait k -> w ∈ write k -> (u = true -> d_type r <> TL_READ_NO_INSERT) ->
     ok_rw (set_cond false r) w) ->
  core (free_waiting_reads k u).1.
Proof. intros Hc H. unfold free_waiting_reads. destruct (read_wait k) eqn:E; [done|]. rewrite <- E in *. by apply free_all_core. Qed.

(** What the loops that give write locks give. *)
Definition give (upgrade : bool) (d : THR_LOCK_DATA) : THR_LOCK_DATA :=
  set_cond false
    (if teq (d_type d) TL_WRITE_CONCURRENT_INSERT && upgrade then set_type TL_WRITE d else d).

Lemma give_writes_spec upgrade rest data given last rest' :
  give_writes upgrade data rest = (given, last, rest') ->
  exists pre, data :: rest = (data :: pre) ++ rest' /\ given = give upgrade <$> (data :: pre) /\ last ∈ given /\
    (pre = [] /\ last = give upgrade data \/
     forall d, d ∈ given -> d_type d = TL_WRITE_ALLOW_WRITE).
Proof.
  revert data given last rest'. induction rest as [|next rest IH]; intros data given last rest'; cbn [give_writes]; fold (give upgrade data).
  - intros [= <- <- <-]. exists []. split; [done|]. split; [done|]. split; [apply list_elem_of_here|]. by left.
  - destruct (teq_spec (d_type (give upgrade data)) TL_WRITE_ALLOW_WRITE) as [E|E],
      (teq_spec (d_type next) TL_WRITE_ALLOW_WRITE) as [En|En]; cbn [negb orb];
      try (intros [= <- <- <-]; exists []; split; [done|]; split; [done|]; split; [apply list_elem_of_here|]; by left).
    destruct (give_writes upgrade next rest) as [[g la] re] eqn:Eg. intros [= <- <- <-].
    destruct (IH _ _ _ _ Eg) as (pre & E1 & -> & Hin & Hall). exists (next :: pre).
    rewrite E1. split; [done|]. split; [done|]. split; [by apply list_elem_of_further|]. right.
    intros d [->|Hd]%elem_of_cons; [done|]. destruct Hall as [[-> _]|Hall]; [|by apply Hall].
    apply list_elem_of_singleton in Hd as ->. unfold give. rewrite En. done.
Qed.

Lemma ids_give u (l : list THR_LOCK_DATA) : d_id <$> (give u <$> l) = d_id <$> l.
Proof.
  rewrite <- list_fmap_compose. apply list_fmap_ext. intros i d _. unfold compose, give. by case_if.
Qed.

(** Giving write locks when nobody holds one. *)
Lemma give_core k upgrade data rest given last rest' : core k -> write k = [] -> write_wait k = data :: rest ->
  give_writes upgrade data rest = (given, last, rest') ->
  (forall r d, r ∈ read k -> d ∈ given -> ok_rw r d) ->
  core (set_write (write k ++ given) (set_write_wait rest' k)).
Proof.
  intros Hc Hw Hww Hg Hrw. destruct (give_writes_spec _ _ _ _ _ _ Hg) as (pre & Eq & Egiven & Hlast & Hall).
  rewrite Hw. simpl app.
  assert (forall d, d ∈ given -> holds_write d /\ (has_check_status k = false -> d_type d <> TL_WRITE_CONCURRENT_INSERT)) as Hd.
  { intros d Hd. rewrite Egiven in Hd. apply list_elem_of_fmap in Hd as (d0 & -> & Hd0).
    assert (d0 ∈ write_wait k) as Hin by (rewrite Hww, Eq; apply elem_of_app; by left).
    pose proof (c_write_wait _ Hc) as H1. rewrite Forall_forall in H1. destruct (H1 d0 Hin) as [H _].
    unfold give. case_if; [split; [split; [types|done]|discriminate]|]. split; [by split|]. intros Hk.
    pose proof (c_check _ Hc Hk) as H2. apply Forall_app in H2 as [H2 _]. rewrite Forall_forall in H2. exact (H2 d0 Hin). }
  destruct (ids_sub k (set_write given (set_write_wait rest' k)) Hc) as [Hn Hs].
  { unfold instances. simpl. rewrite Hw, Hww, Eq, !fmap_app, Egiven, ids_give. simpl. solve_submseteq. }
  assert (forall d, d ∈ rest' -> d ∈ write_wait k) as Hrest by (intros d ?; rewrite Hww, Eq; apply elem_of_app; by right).
  core_fields Hc; auto.
  - apply Forall_forall. intros d Hin. pose proof (c_write_wait _ Hc) as H. rewrite Forall_forall in H. auto.
  - apply Forall_forall. intros d Hin. by apply Hd.
  - intros a b Ha Hb. destruct Hall as [[-> ->]|Hall].
    + rewrite Egiven in Ha, Hb. apply list_elem_of_singleton in Ha as ->. apply list_elem_of_singleton in Hb as ->. by intros [].
    + unfold ok_ww, shares_write. rewrite (Hall a Ha), (Hall b Hb). auto.
  - destruct Hall as [[-> ->]|Hall]; [rewrite Egiven; repeat constructor|].
    clear -Hall. induction given as [|d g IH]; [constructor|]. constructor; [apply IH; intros; apply Hall; by apply list_elem_of_further|].
    apply Forall_forall. intros b Hb. unfold before. rewrite (Hall d), (Hall b) by (apply list_elem_of_here || by apply list_elem_of_further).
    split; [discriminate|done].
  - intros Hk. apply Forall_app. split; apply Forall_forall; intros d Hin; [|by apply Hd].
    pose proof (c_check _ Hc Hk) as H. apply Forall_app in H as [H _]. rewrite Forall_forall in H. auto.
Qed.

(** *** Release *)

(** An instance that [thr_unlock] may be called for. *)
Definition can_unlock (k : THR_LOCK) (data : THR_LOCK_DATA) : Prop :=
  data ∈ read k \/ data ∈ write k \/ (data ∈ write_wait k /\ d_type data = TL_WRITE_DELAYED).

Lemma no_insert_count_perm l1 l2 : l1 ≡ₚ l2 -> no_insert_count l1 = no_insert_count l2.
Proof. unfold no_insert_count. by intros ->. Qed.

Lemma nodup_part {A B} (f : A -> B) l1 l2 l3 : NoDup (f <$> l1 ++ l2 ++ l3) -> NoDup (f <$> l2).
Proof. intros H. eapply NoDup_sub, H. rewrite !fmap_app. solve_submseteq. Qed.

Lemma fmap_unlink_sub id l : (d_id <$> unlink id l) ⊆+ (d_id <$> l).
Proof. apply fmap_submseteq, unlink_sub. Qed.

Lemma elem_part (P : THR_LOCK_DATA -> Prop) l d : Forall P l -> d ∈ l -> P d.
Proof. rewrite Forall_forall. auto. Qed.

Lemma release_core k data : core k -> can_unlock k data -> core (release k data).
Proof.
  intros Hc Hcan. unfold release, unlink_data. destruct Hcan as [Hin|[Hin|[Hin Hdel]]].
  - destruct (elem_part _ _ _ (c_read _ Hc) Hin) as [Ht _].
    destruct (tle_spec (d_type data) TL_READ_NO_INSERT) as [|H]; [|unfold is_read in Ht; simpl in H; lia].
    assert (NoDup (d_id <$> read k)) as Hnd by (eapply (nodup_part _ (read_wait k)), (c_nodup _ Hc)).
    pose proof (unlink_permutation _ _ Hnd Hin) as Hp. pose proof (no_insert_count_perm _ _ Hp) as Hcnt.
    destruct (ids_sub k (set_read (unlink (d_id data) (read k)) k) Hc) as [Hn Hs].
    { unfold instances. simpl. rewrite !fmap_app. pose proof (fmap_unlink_sub (d_id data) (read k)).
      by apply submseteq_app, submseteq_app; [|done|]. }
    assert (length (read k) <= length (instances k))%nat as Hlen by (unfold instances; rewrite !length_app; lia).
    pose proof (no_insert_count_bound (read k)). pose proof (c_size _ Hc).
    set (k' := if teq (d_type data) TL_READ_NO_INSERT then _ else _).
    assert (k' = set_no_write_count (no_insert_count (unlink (d_id data) (read k))) (set_read (unlink (d_id data) (read k)) k)) as ->.
    { unfold k', set_no_write_count, set_read. simpl. rewrite (c_count _ Hc).
      change (data :: unlink (d_id data) (read k)) with ([data] ++ unlink (d_id data) (read k)) in Hcnt.
      rewrite no_insert_count_app in Hcnt. unfold no_insert_count at 2 in Hcnt. rewrite filter_cons, filter_nil in Hcnt.
      destruct (teq_spec (d_type data) TL_READ_NO_INSERT) as [E|E].
      - rewrite decide_True in Hcnt by done. simpl in Hcnt. rewrite u32_small; [f_equal; lia|].
        pose proof (no_insert_count_bound (unlink (d_id data) (read k))). lia.
      - rewrite decide_False in Hcnt by done. simpl in Hcnt. f_equal. lia. }
    core_fields Hc; auto; [by apply Forall_unlink, Hc|].
    intros r w Hr Hw. apply (c_rw _ Hc); [by eapply elem_of_unlink|done].
  - destruct (elem_part _ _ _ (c_write _ Hc) Hin) as [Ht Hcond]. rewrite Hcond, andb_false_r.
    destruct (tle_spec (d_type data) TL_READ_NO_INSERT) as [H|_]; [unfold is_write in Ht; simpl in H; lia|].
    destruct (teq_spec (d_type data) TL_READ_NO_INSERT) as [E|_]; [rewrite E in Ht; unfold is_write in Ht; simpl in Ht; lia|].
    destruct (ids_sub k (set_write (unlink (d_id data) (write k)) k) Hc) as [Hn Hs].
    { unfold instances. simpl. rewrite !fmap_app. pose proof (fmap_unlink_sub (d_id data) (write k)).
      by repeat apply submseteq_app. }
    core_fields Hc; auto; [by apply Forall_unlink, Hc| | | |].
    + intros a b Ha Hb. apply (c_ww _ Hc); by eapply elem_of_unlink.
    + apply StronglySorted_filter, Hc.
    + intros r w Hr Hw. apply (c_rw _ Hc); [done|by eapply elem_of_unlink].
    + intros Hk. pose proof (c_check _ Hc Hk) as H. apply Forall_app in H as [H1 H2].
      apply Forall_app. split; [done|by apply Forall_unlink].
  - destruct (elem_part _ _ _ (c_write_wait _ Hc) Hin) as [Ht Hcond]. rewrite Hcond, Hdel. cbn [tle tl teq andb].
    destruct (ids_sub k (set_write_wait (unlink (d_id data) (write_wait k)) k) Hc) as [Hn Hs].
    { unfold instances. simpl. rewrite !fmap_app. pose proof (fmap_unlink_sub (d_id data) (write_wait k)).
      by repeat apply submseteq_app. }
    change (core (set_write_wait (unlink (d_id data) (write_wait k)) k)).
    core_fields Hc; auto; [by apply Forall_unlink, Hc|].
    intros Hk. pose proof (c_check _ Hc Hk) as H. apply Forall_app in H as [H1 H2].
    apply Forall_app. split; [by apply Forall_unlink|done].
Qed.

(** The locks given beside the write locks just given. *)
Lemma given_reads_ok upgrade data rest given last rest' (u : bool) :
  give_writes upgrade data rest = (given, last, rest') -> tl (d_type last) <= 8 ->
  u = teq (d_type last) TL_WRITE_CONCURRENT_INSERT || teq (d_type last) TL_WRITE_ALLOW_WRITE ->
  forall r w, w ∈ given -> (u = true -> d_type r <> TL_READ_NO_INSERT) -> ok_rw r w.
Proof.
  intros Hg H8 -> r w Hw Hu _. destruct (give_writes_spec _ _ _ _ _ _ Hg) as (pre & _ & Egiven & Hlast & Hall).
  assert (d_type w = TL_WRITE_ALLOW_WRITE \/ w = last) as [E| ->].
  { destruct Hall as [[-> ->]|Hall]; [|left; auto]. right. rewrite Egiven in Hw. by apply list_elem_of_singleton in Hw. }
  - rewrite E. split; [left; simpl; lia|discriminate].
  - split; [by left|]. intros Er Ew. apply Hu; [|done]. by rewrite Ew.
Qed.

Lemma free_waiting_nonempty k u : read k <> [] \/ write k <> [] ->
  read (free_waiting_reads k u).1 <> [] \/ write (free_waiting_reads k u).1 <> [].
Proof.
  unfold free_waiting_reads, free_all_read_locks. intros H. destruct (read_wait k); [done|].
  destruct (free_reads _ _ _) as [[[g kept] c] calls]. cbn. destruct H as [H|H]; [left|by right].
  by intros [? _]%app_eq_nil.
Qed.

Lemma active_no_stall k : read k <> [] \/ write k <> [] -> no_stall k.
Proof. intros H Hr Hw. tauto. Qed.

Lemma fst_let_pair {A B C} (x : A * B) (f : B -> C) : (let '(a, b) := x in (a, f b)).1 = x.1.
Proof. by destruct x. Qed.

(** Write locks are given, and read locks that fit beside them. *)
Lemma give_free_inv k upgrade data rest given last rest' : core k -> write k = [] -> write_wait k = data :: rest ->
  give_writes upgrade data rest = (given, last, rest') ->
  (forall r d, r ∈ read k -> d ∈ given -> ok_rw r d) ->
  let k2 := set_write (write k ++ given) (set_write_wait rest' k) in
  lock_inv k2 /\
  (tl (d_type last) <= 8 ->
   lock_inv (free_waiting_reads k2 (teq (d_type last) TL_WRITE_CONCURRENT_INSERT ||
                                    teq (d_type last) TL_WRITE_ALLOW_WRITE)).1).
Proof.
  intros Hc Hw Hww Hg Hrw k2. pose proof (give_core k upgrade data rest given last rest' Hc Hw Hww Hg Hrw) as Hc2.
  fold k2 in Hc2. assert (write k2 = given) as Ew by (unfold k2; simpl; by rewrite Hw).
  assert (given <> []) as Hne by (destruct (give_writes_spec _ _ _ _ _ _ Hg) as (pre & _ & -> & _); discriminate).
  split; [split; [done|apply active_no_stall; right; by rewrite Ew]|].
  intros H8. split; [|apply active_no_stall, free_waiting_nonempty; right; by rewrite Ew].
  apply free_waiting_core; [done|]. intros r w _ Hin Hu. rewrite Ew in Hin.
  by apply (given_reads_ok upgrade data rest given last rest' _ Hg H8 eq_refl).
Qed.

(** Without an upgrade all the locks given have the type of the first. *)
Lemma give_same_type rest given last rest' data : give_writes false data rest = (given, last, rest') ->
  d_type last = d_type data /\ forall d, d ∈ given -> d_type d = d_type data.
Proof.
  intros Hg. destruct (give_writes_spec _ _ _ _ _ _ Hg) as (pre & _ & Eg & Hlast & Hall).
  assert (forall d, d_type (give false d) = d_type d) as Hty by (intros d; unfold give; by rewrite andb_false_r).
  assert (forall d, d ∈ given -> d_type d = d_type data) as H; [|split; auto].
  intros d Hd. destruct Hall as [[-> ->]|Hall].
  - rewrite Eg in Hd. apply list_elem_of_singleton in Hd as ->. apply Hty.
  - rewrite (Hall d Hd). rewrite <- (Hty data). symmetry. apply Hall. rewrite Eg. apply list_elem_of_here.
Qed.

(** A waiting TL_WRITE_CONCURRENT_INSERT lock becomes TL_WRITE. *)
Lemma upgrade_head_core k data rest : core k -> write_wait k = data :: rest ->
  d_type data = TL_WRITE_CONCURRENT_INSERT -> core (set_write_wait (set_type TL_WRITE data :: rest) k).
Proof.
  intros Hc Hww E. destruct (ids_sub k (set_write_wait (set_type TL_WRITE data :: rest) k) Hc) as [Hn Hs].
  { unfold instances. cbn [read_wait read write_wait write set_write_wait]. rewrite Hww, !fmap_app. reflexivity. }
  pose proof (c_write_wait _ Hc) as Hf. rewrite Hww in Hf. apply Forall_cons_1 in Hf as [Hd Hf].
  core_fields Hc; auto.
  - constructor; [|done]. split; [unfold is_write; simpl; lia|apply Hd].
  - intros Hk. pose proof (c_check _ Hc Hk) as H. rewrite Hww in H. simpl in *. apply Forall_cons_1 in H as [_ H].
    constructor; [discriminate|done].
Qed.

Section release_steps.
Variable max_write_lock_count : Z.

Lemma free_none_held k : core k -> write k = [] -> core (free_waiting_reads k false).1.
Proof. intros Hc Hw. apply free_waiting_core; [done|]. intros r w _ H. rewrite Hw in H. by apply not_elem_of_nil in H. Qed.

(** Without readers and writers, everybody that may go on is served. *)
Lemma free_all_gives k : core k -> read_wait k <> [] -> read (free_all_read_locks k false).1 <> [].
Proof.
  intros Hc Hr. unfold free_all_read_locks. pose proof (no_insert_count_bound (read k)) as Hb.
  pose proof (c_count _ Hc) as Hcnt. pose proof (c_size _ Hc) as Hsz. unfold instances in Hsz. rewrite !length_app in Hsz.
  destruct (free_reads_spec false (read_wait k) (read_no_write_count k)) as (given & calls & -> & Eg); [lia..|].
  cbn. intros [_ E]%app_eq_nil. apply fmap_nil_inv in E. rewrite E in Eg.
  destruct (read_wait k) as [|d l]; [done|]. rewrite filter_cons, decide_True in Eg by (intros [_ ?]; discriminate). discriminate.
Qed.

Lemma unlock_none_left_inv k chk : core k -> write k = [] -> read k = [] ->
  lock_inv (unlock_none_left max_write_lock_count k chk).1.
Proof.
  intros Hc Hw Hr. unfold unlock_none_left.
  assert (write_wait k = [] \/ read_wait k <> [] -> lock_inv (free_waiting_reads k false).1) as Hfree.
  { intros Hcase. split; [by apply free_none_held|]. unfold free_waiting_reads.
    destruct (read_wait k) as [|rw lr] eqn:Hrw; [destruct Hcase; [by intros|done]|].
    apply active_no_stall. left. apply free_all_gives; [done|by rewrite Hrw]. }
  destruct (write_wait k) as [|data rest] eqn:Hww; [by apply Hfree; left|].
  match goal with |- lock_inv (if ?b then _ else _).1 => destruct b eqn:E end.
  2:{ apply orb_false_iff in E as [E1 E2]. apply negb_false_iff, teq_true in E1. rewrite E1. cbn [teq orb tl Z.eqb Pos.eqb].
      apply Hfree. right. destruct (read_wait k); [discriminate|done]. }
  cbv zeta. set (wc := if max_write_lock_count <? write_lock_count k then 0 else _).
  assert (core (set_write_count wc k)) as Hc' by (by apply core_write_count).
  assert (lock_inv (let '(given, last, rest) := give_writes chk data rest in
    let k := set_write (write (set_write_count wc k) ++ given) (set_write_wait rest (set_write_count wc k)) in
    let calls := (fun d => Signal (d_id d)) <$> given in
    if tle TL_WRITE_LOW_PRIORITY (d_type last) then (k, calls)
    else let '(k, calls') := free_waiting_reads k
           (teq (d_type last) TL_WRITE_CONCURRENT_INSERT || teq (d_type last) TL_WRITE_ALLOW_WRITE) in
         (k, calls ++ calls')).1) as Hgive.
  { destruct (give_writes chk data rest) as [[given last] rest'] eqn:Hg.
    destruct (give_free_inv (set_write_count wc k) chk data rest given last rest' Hc' Hw Hww Hg) as [H1 H2].
    { intros r d Hin. cbn [read set_write_count] in Hin. rewrite Hr in Hin. by apply not_elem_of_nil in Hin. }
    cbv zeta. destruct (tle_spec TL_WRITE_LOW_PRIORITY (d_type last)) as [H9|H9]; [done|].
    rewrite fst_let_pair. apply H2. simpl in H9. lia. }
  destruct (max_write_lock_count <? write_lock_count k), (read_wait (set_write_count wc k)) as [|rw lr] eqn:Hrw; try done.
  split; [|apply active_no_stall; left; apply free_all_gives; [done|by rewrite Hrw]].
  apply free_all_core; [done|]. intros r w _ Hin. simpl in Hin. rewrite Hw in Hin. by apply not_elem_of_nil in Hin.
Qed.

Lemma unlock_reads_left_inv k chk : core k -> write k = [] -> read k <> [] ->
  lock_inv (unlock_reads_left k chk).1.
Proof.
  intros Hc Hw Hr. unfold unlock_reads_left.
  assert (forall k, core k -> write k = [] -> read k <> [] -> lock_inv (free_waiting_reads k false).1) as Hfree.
  { intros k' Hc' Hw' Hr'. split; [by apply free_none_held|]. apply active_no_stall, free_waiting_nonempty. by left. }
  destruct (write_wait k) as [|data rest] eqn:Hww; [by apply Hfree|]. cbv zeta.
  set (shares := teq _ TL_WRITE_CONCURRENT_INSERT || _).
  destruct (tle_spec (d_type data) TL_WRITE_DELAYED) as [H8|]; cbn [andb];
    [|split; [done|apply active_no_stall; by left]].
  destruct (negb shares || (read_no_write_count k =? 0)) eqn:Es;
    [|split; [done|apply active_no_stall; by left]].
  destruct (teq (d_type data) TL_WRITE_CONCURRENT_INSERT && chk) eqn:Eu.
  { apply andb_true_iff in Eu as [Eci _]. apply teq_true in Eci. apply Hfree; [|done|done]. by apply upgrade_head_core. }
  destruct (give_writes false data rest) as [[given last] rest'] eqn:Hg.
  assert (d_type last = d_type data /\ forall d, d ∈ given -> d_type d = d_type data) as [El Ed] by (by apply (give_same_type rest given last rest')).
  destruct (give_free_inv k false data rest given last rest' Hc Hw Hww Hg) as [H1 H2].
  - intros r d Hin Hd. unfold ok_rw. intros _. rewrite (Ed d Hd). split; [by left|]. intros Er Eci.
    unfold shares in Es. rewrite Eci in Es. cbn in Es. apply Z.eqb_eq in Es. rewrite (c_count _ Hc) in Es.
    by apply (no_insert_count_zero _ r Es).
  - rewrite fst_let_pair. rewrite El in H2. by apply H2.
Qed.

Lemma thr_unlock_inv k data chk : lock_inv k -> can_unlock k data ->
  lock_inv (thr_unlock max_write_lock_count k data chk).1.
Proof.
  intros [Hc _] Hcan. pose proof (release_core k data Hc Hcan) as Hrel. unfold thr_unlock.
  cbv zeta. destruct (write (release k data)) as [|w lw] eqn:Hw.
  - destruct (read (release k data)) as [|r lr] eqn:Hr; rewrite fst_let_pair.
    + by apply unlock_none_left_inv.
    + apply unlock_reads_left_inv; auto. by rewrite Hr.
  - split; [done|]. apply active_no_stall. right. cbn [fst]. by rewrite Hw.
Qed.
End release_steps.

(** *** The other operations *)

Lemma filter_waits_core k (P Q : THR_LOCK_DATA -> Prop) `{!forall d, Decision (P d)} `{!forall d, Decision (Q d)} :
  core k -> core (set_read_wait (filter P (read_wait k)) (set_write_wait (filter Q (write_wait k)) k)).
Proof.
  intros Hc. set (k' := set_read_wait _ _). destruct (ids_sub k k' Hc) as [Hn Hs].
  { unfold k', instances. simpl. rewrite !fmap_app.
    repeat apply submseteq_app; try done; apply fmap_submseteq, sublist_submseteq, sublist_filter. }
  unfold k' in *. core_fields Hc; auto.
  - apply Forall_forall. intros d [_ Hd]%list_elem_of_filter. by apply (elem_part _ _ _ (c_read_wait _ Hc)).
  - apply Forall_forall. intros d [_ Hd]%list_elem_of_filter. by apply (elem_part _ _ _ (c_write_wait _ Hc)).
  - intros Hk. pose proof (c_check _ Hc Hk) as Hck. apply Forall_app in Hck as [H1 H2]. apply Forall_app.
    split; [|done]. apply Forall_forall. intros d [_ Hd]%list_elem_of_filter. by apply (elem_part _ _ _ H1).
Qed.

Lemma filter_waits_inv k (P Q : THR_LOCK_DATA -> Prop) `{!forall d, Decision (P d)} `{!forall d, Decision (Q d)} :
  lock_inv k -> lock_inv (set_read_wait (filter P (read_wait k)) (set_write_wait (filter Q (write_wait k)) k)).
Proof.
  intros [Hc Hn]. split; [by apply filter_waits_core|]. intros Hr Hw. simpl in *. by destruct (Hn Hr Hw) as [-> ->].
Qed.

Lemma thr_abort_locks_inv k : lock_inv k -> lock_inv (thr_abort_locks k).1.
Proof.
  intros [Hc Hn]. split; [|intros _ _; done]. cbn [thr_abort_locks fst].
  set (k' := mkLock _ _ _ _ _ _ _).
  assert (d_id <$> write k' = d_id <$> write k) as Eid by (unfold k'; simpl; by destruct (write k)).
  destruct (ids_sub k k' Hc) as [Hids Hs].
  { unfold instances. rewrite !fmap_app, Eid. simpl. solve_submseteq. }
  assert (forall w, w ∈ write k' -> exists w0, w0 ∈ write k /\ d_owner w = d_owner w0 /\ d_cond w = d_cond w0 /\
    (w = w0 \/ d_type w = TL_WRITE_ONLY)) as Hold.
  { unfold k'. simpl. destruct (write k) as [|w0 l]; intros w Hin; [by apply not_elem_of_nil in Hin|].
    apply elem_of_cons in Hin as [->|Hin]; [exists w0|exists w].
    - split; [apply list_elem_of_here|]. split; [done|]. split; [done|]. by right.
    - split; [by apply list_elem_of_further|]. split; [done|]. split; [done|]. by left. }
  constructor; [exact Hids|exact Hs|constructor|apply (c_read _ Hc)|constructor|..].
  - apply Forall_forall. intros w Hin. destruct (Hold w Hin) as (w0 & Hin0 & _ & Ec & Hty).
    destruct (elem_part _ _ _ (c_write _ Hc) Hin0) as [Ht Hcond]. split; [|congruence].
    destruct Hty as [->|E]; [done|]. rewrite E. unfold is_write; simpl; lia.
  - apply (c_count _ Hc).
  - intros a b Ha Hb. destruct (Hold a Ha) as (a0 & Ha0 & Ea & _ & Ta), (Hold b Hb) as (b0 & Hb0 & Eb & _ & Tb).
    pose proof (c_ww _ Hc a0 b0 Ha0 Hb0) as H. unfold ok_ww, same_owner, shares_write in *. rewrite Ea, Eb. intros Hne.
    destruct (H Hne) as [H1 H2]. destruct Ta as [-> | ->], Tb as [-> | ->]; auto.
  - pose proof (c_before _ Hc) as Hb. unfold k'. simpl. destruct (write k) as [|w0 l]; [constructor|].
    apply StronglySorted_inv in Hb as [Hb _]. constructor; [done|]. apply Forall_forall. intros b _. unfold before. simpl. lia.
  - intros r w Hr Hw. destruct (Hold w Hw) as (w0 & Hw0 & Ew & _ & Tw).
    pose proof (c_rw _ Hc r w0 Hr Hw0) as H. unfold ok_rw, same_owner in *. rewrite Ew. intros Hne.
    destruct Tw as [-> | ->]; [auto|]. split; [by right|discriminate].
  - intros Hk. pose proof (c_check _ Hc Hk) as H. apply Forall_app in H as [_ H].
    apply Forall_app. split; [constructor|]. apply Forall_forall. intros w Hin.
    destruct (Hold w Hin) as (w0 & Hin0 & _ & _ & [-> | ->]); [by apply (elem_part _ _ _ H)|discriminate].
Qed.

(** An instance that is the only write lock of its owner, of a type that
    excludes other writers, is alone. *)
Definition only_write (k : THR_LOCK) (data : THR_LOCK_DATA) : Prop :=
  data ∈ write k /\ (forall d, d ∈ write k -> same_owner data d -> d = data) /\
  d_type data <> TL_WRITE_ALLOW_WRITE /\ d_type data <> TL_WRITE_ONLY.

Lemma only_write_alone k data : core k -> only_write k data -> write k = [data].
Proof.
  intros Hc (Hin & Hown & H1 & H2).
  assert (forall d, d ∈ write k -> d = data) as Hall.
  { intros d Hd. destruct (decide (owner_addr (d_owner data) = owner_addr (d_owner d))) as [E|E]; [by apply Hown|].
    destruct (c_ww _ Hc data d Hin Hd E) as [[?|?] _]; done. }
  assert (NoDup (d_id <$> write k)) as Hnd.
  { eapply (nodup_part _ (read_wait k ++ read k ++ write_wait k) _ []). rewrite app_nil_r.
    pose proof (c_nodup _ Hc) as H. unfold instances in H. by rewrite <- !app_assoc. }
  destruct (write k) as [|a [|b l]]; [by apply not_elem_of_nil in Hin|f_equal; apply Hall, list_elem_of_here|].
  rewrite (Hall a), (Hall b) in Hnd by (repeat constructor). rewrite !fmap_cons in Hnd.
  apply NoDup_cons in Hnd as [Hn _]. destruct Hn. apply list_elem_of_here.
Qed.

(** Moving the only write lock in front of the queue. *)
Lemma requeue_core k data t : core k -> write k = [data] -> is_write t ->
  (has_check_status k = false -> t <> TL_WRITE_CONCURRENT_INSERT) ->
  core (set_write (unlink (d_id data) (write k))
          (set_write_wait (set_cond true (set_type t data) :: write_wait k) k)).
Proof.
  intros Hc Hw Ht Hck. set (k' := set_write _ _).
  assert (write k' = []) as Ew.
  { unfold k'. simpl. rewrite Hw. unfold unlink. rewrite filter_cons, decide_False by (intros H; by apply H). done. }
  destruct (ids_sub k k' Hc) as [Hids Hs].
  { unfold instances. rewrite Ew, Hw, !fmap_app. simpl. solve_submseteq. }
  constructor; [exact Hids|exact Hs|apply (c_read_wait _ Hc)|apply (c_read _ Hc)|..]; rewrite ?Ew;
    [constructor; [by split|apply (c_write_wait _ Hc)]|constructor|apply (c_count _ Hc)| |constructor|..].
  - intros a b Ha. by apply not_elem_of_nil in Ha.
  - intros r w _ Hin. by apply not_elem_of_nil in Hin.
  - intros Hk. rewrite app_nil_r. constructor; [by apply Hck|]. pose proof (c_check _ Hc Hk) as H. by apply Forall_app in H as [H _].
Qed.

Lemma thr_reschedule_inv k data : lock_inv k -> only_write k data ->
  lock_inv (thr_reschedule_write_lock k data).1.1.
Proof.
  intros [Hc Hn] Ho. unfold thr_reschedule_write_lock. pose proof (only_write_alone k data Hc Ho) as Hw.
  destruct (read_wait k) as [|rw lr] eqn:Hrw; [done|].
  set (k1 := set_write _ _). assert (core k1) as Hc1.
  { apply requeue_core; auto; try discriminate. unfold is_write; simpl; lia. }
  assert (write k1 = []) as Ew.
  { unfold k1. simpl. rewrite Hw. unfold unlink. rewrite filter_cons, decide_False by (intros H; by apply H). done. }
  destruct (free_all_read_locks k1 false) as [k2 calls] eqn:Ef. cbn [fst].
  assert (k2 = (free_all_read_locks k1 false).1) as -> by (by rewrite Ef). split.
  - apply free_all_core; [done|]. intros r w _ Hin. rewrite Ew in Hin. by apply not_elem_of_nil in Hin.
  - apply active_no_stall. left. apply free_all_gives; [done|]. unfold k1. simpl. by rewrite Hrw.
Qed.

Lemma upgrade_waiting_core k id : core k ->
  core (set_write_wait ((fun d => if d_id d =? id then set_type TL_WRITE d else d) <$> write_wait k) k).
Proof.
  intros Hc. set (up := fun d => _). assert (forall l : list THR_LOCK_DATA, d_id <$> (up <$> l) = d_id <$> l) as Eid.
  { intros l. rewrite <- list_fmap_compose. apply list_fmap_ext. intros i d _. unfold compose, up. by case_if. }
  destruct (ids_sub k (set_write_wait (up <$> write_wait k) k) Hc) as [Hn Hs].
  { unfold instances. cbn [read_wait read write_wait write set_write_wait]. rewrite !fmap_app, Eid. done. }
  core_fields Hc; auto.
  - apply Forall_fmap, Forall_forall. intros d Hd. destruct (elem_part _ _ _ (c_write_wait _ Hc) Hd) as [Ht Hcd].
    unfold compose, up. case_if; [split; [unfold is_write; simpl; lia|done]|done].
  - intros Hk. pose proof (c_check _ Hc Hk) as H. apply Forall_app in H as [H1 H2]. apply Forall_app. split; [|done].
    apply Forall_fmap, Forall_forall. intros d Hd. unfold compose, up. case_if; [discriminate|by apply (elem_part _ _ _ H1)].
Qed.

(** The lock that is upgraded is queued, or it is the only write lock of its
    owner, as the one of the delayed insert handler is. *)
Lemma thr_upgrade_inv k id : lock_inv k ->
  (forall d, d ∈ write k -> d_id d = id -> only_write k d) ->
  lock_inv (thr_upgrade_write_delay_lock k id).1.1.
Proof.
  intros [Hc Hn] Ho. unfold thr_upgrade_write_delay_lock.
  destruct (List.find (fun d => d_id d =? id) (write k ++ write_wait k)) as [data|] eqn:Ef; [|done].
  apply find_some in Ef as [Hin Eid]. apply Z.eqb_eq in Eid. apply list_elem_of_In, elem_of_app in Hin.
  case_if; [done|]. destruct Hin as [Hin|Hin].
  - destruct (elem_part _ _ _ (c_write _ Hc) Hin) as [Ht ->]. cbn [negb].
    pose proof (only_write_alone k data Hc (Ho data Hin Eid)) as Hw.
    destruct (read k) as [|r lr] eqn:Hr; cbn [fst].
    + split; [|apply active_no_stall; right; simpl; by rewrite Hw]. rewrite Hw. cbn [fmap list_fmap].
      rewrite Eid, Z.eqb_refl. destruct (ids_sub k (set_write [set_type TL_WRITE data] k) Hc) as [Hids Hs].
      { unfold instances. simpl. rewrite Hw, !fmap_app. done. }
      core_fields Hc; auto.
      * constructor; [|done]. split; [unfold is_write; simpl; lia|]. apply (elem_part _ _ _ (c_write _ Hc) Hin).
      * intros a b Ha%list_elem_of_singleton Hb%list_elem_of_singleton. subst. by intros [].
      * repeat constructor.
      * rewrite Hr. intros r w Hin'. by apply not_elem_of_nil in Hin'.
      * intros Hk. pose proof (c_check _ Hc Hk) as H. apply Forall_app in H as [H1 _]. apply Forall_app.
        split; [done|]. constructor; [discriminate|done].
    + split; [|apply active_no_stall; left; simpl; by rewrite Hr]. rewrite <- Eid.
      apply requeue_core; auto; try discriminate. unfold is_write; simpl; lia.
  - destruct (elem_part _ _ _ (c_write_wait _ Hc) Hin) as [Ht ->]. cbn [negb fst].
    split; [by apply upgrade_waiting_core|]. intros Hr Hw. simpl in *. destruct (Hn Hr Hw) as [-> ->]. done.
Qed.

(** ** The system: operations of any threads in any order *)

Section system.
Variable upgraded : thr_lock_type.
Variable max_write_lock_count : Z.

Inductive step (k : THR_LOCK) : THR_LOCK -> Prop :=
  | step_lock id owner lock_type check_status :
      id ∉ ids k -> Z.of_nat (length (instances k)) + 1 < 2 ^ 32 ->
      is_read lock_type \/ is_write lock_type -> descending k owner lock_type ->
      step k (thr_lock upgraded k id owner lock_type check_status).1.1
  | step_unlock data check_status :
      can_unlock k data -> step k (thr_unlock max_write_lock_count k data check_status).1
  | step_wait_end id timeout : step k (wait_for_lock_end k id timeout).1.1
  | step_abort : step k (thr_abort_locks k).1
  | step_abort_thread thread : step k (thr_abort_locks_for_thread k thread).1.1
  | step_upgrade id :
      (forall d, d ∈ write k -> d_id d = id -> only_write k d) ->
      step k (thr_upgrade_write_delay_lock k id).1.1
  | step_reschedule data : only_write k data -> step k (thr_reschedule_write_lock k data).1.1.

Definition reachable (k : THR_LOCK) : Prop := exists chk, rtc step (thr_lock_init chk) k.

(** A step after which the instance [id] holds a write lock. *)
Definition step_holding (id : Z) (k k' : THR_LOCK) : Prop := step k k' /\ id ∈ d_id <$> write k'.
End system.

Lemma init_inv chk : lock_inv (thr_lock_init chk).
Proof.
  split; [|done]. constructor; cbn.
  - apply NoDup_nil_2. - lia. - constructor. - constructor. - constructor. - constructor. - done.
  - intros a b Ha. by apply not_elem_of_nil in Ha.
  - constructor.
  - intros r w Hr. by apply not_elem_of_nil in Hr.
  - constructor.
Qed.

Lemma wait_for_lock_end_inv k id timeout : lock_inv k -> lock_inv (wait_for_lock_end k id timeout).1.1.
Proof. intros Hk. unfold wait_for_lock_end. case_if; [by apply filter_waits_inv|]. by case_if. Qed.

Lemma step_inv upgraded mx k k' : upgraded = TL_WRITE \/ upgraded = TL_WRITE_LOW_PRIORITY ->
  step upgraded mx k k' -> lock_inv k -> lock_inv k'.
Proof.
  intros Hup Hs Hk. destruct Hs.
  - split; [apply thr_lock_core; auto; apply Hk|by apply thr_lock_no_stall, Hk].
  - by apply thr_unlock_inv.
  - by apply wait_for_lock_end_inv.
  - by apply thr_abort_locks_inv.
  - by apply filter_waits_inv.
  - by apply thr_upgrade_inv.
  - by apply thr_reschedule_inv.
Qed.

Lemma reachable_inv upgraded mx k : upgraded = TL_WRITE \/ upgraded = TL_WRITE_LOW_PRIORITY ->
  reachable upgraded mx k -> lock_inv k.
Proof.
  intros Hup [chk Hr]. remember (thr_lock_init chk) as k0 eqn:E0. assert (lock_inv k0) as H0 by (subst; apply init_inv).
  clear E0. induction Hr as [|k0 k1 k2 Hs _ IH]; [done|]. apply IH. by eapply step_inv.
Qed.

Lemma same_owner_dec a b : same_owner a b \/ ~ same_owner a b.
Proof. unfold same_owner. destruct (decide (owner_addr (d_owner a) = owner_addr (d_owner b))); auto. Qed.

(** The check of a queue finds nothing to warn of. *)
Lemma check_run_ok o t so nc l : (nc = true -> Forall (fun d => d_cond d = false) l) ->
  (so = true -> Forall (fun d => owner_addr (d_owner d) = owner_addr o) l \/
                t = TL_WRITE_ALLOW_WRITE /\ Forall (fun d => d_type d = TL_WRITE_ALLOW_WRITE) l) ->
  check_run o t so nc l = true.
Proof.
  revert t. induction l as [|d l IH]; intros t Hn Hs; [done|]. cbn [check_run]. cbv zeta.
  assert (so = true -> thr_lock_owner_equal (d_owner d) o = true \/ t = TL_WRITE_ALLOW_WRITE /\ d_type d = TL_WRITE_ALLOW_WRITE) as H1.
  { intros H. destruct (Hs H) as [Hf|[-> Hf]]; apply Forall_cons_1 in Hf as [Hd _]; [left; by apply Z.eqb_eq|auto]. }
  assert (nc = true -> d_cond d = false) as H2 by (intros H; specialize (Hn H); by apply Forall_cons_1 in Hn as [? _]).
  rewrite IH, andb_true_r.
  - apply andb_true_iff. split; [|destruct nc; [by rewrite H2|done]].
    destruct so; [|done]. destruct (H1 eq_refl) as [->|[-> ->]]; [done|]. by rewrite andb_false_r.
  - intros H. specialize (Hn H). by apply Forall_cons_1 in Hn as [_ ?].
  - intros H. destruct (Hs H) as [Hf|[-> Hf]]; apply Forall_cons_1 in Hf as [Hd Hf]; [by left|]. right. rewrite Hd. done.
Qed.

(** The release of the only lock held. *)
Lemma singleton_release k data w rest : core k -> data ∈ read k \/ data ∈ write k -> read k ++ write k = [data] ->
  write_wait k = w :: rest ->
  read (release k data) = [] /\ write (release k data) = [] /\ write_wait (release k data) = w :: rest /\
  write_lock_count (release k data) = write_lock_count k.
Proof.
  intros Hc Hin Hone Hww.
  assert (unlink (d_id data) [data] = []) as Eu.
  { unfold unlink. rewrite filter_cons, decide_False by (intros H; by apply H). done. }
  assert (forall k' n, read (set_no_write_count n k') = read k' /\ write (set_no_write_count n k') = write k' /\
    write_wait (set_no_write_count n k') = write_wait k' /\ write_lock_count (set_no_write_count n k') = write_lock_count k') as Hset by done.
  unfold release, unlink_data. destruct Hin as [Hin|Hin].
  - destruct (elem_part _ _ _ (c_read _ Hc) Hin) as [Ht _].
    destruct (read k) as [|r l] eqn:Er; [by apply not_elem_of_nil in Hin|]. simpl in Hone. injection Hone as -> Hl.
    apply app_eq_nil in Hl as [-> Hw].
    destruct (tle_spec (d_type data) TL_READ_NO_INSERT) as [|H]; [|unfold is_read in Ht; simpl in H; lia].
    case_if; cbn; rewrite ?Er, ?Hw, ?Eu; auto.
  - destruct (elem_part _ _ _ (c_write _ Hc) Hin) as [Ht Hcond]. rewrite Hcond, andb_false_r.
    destruct (tle_spec (d_type data) TL_READ_NO_INSERT) as [H|_]; [unfold is_write in Ht; simpl in H; lia|].
    destruct (read k) as [|r l] eqn:Er; simpl in Hone; [|injection Hone as -> Hl; apply app_eq_nil in Hl as [_ Hw];
      rewrite Hw in Hin; by apply not_elem_of_nil in Hin].
    case_if; cbn; rewrite ?Er, ?Hone, ?Eu; auto.
Qed.

Lemma free_waiting_write k u : write (free_waiting_reads k u).1 = write k.
Proof.
  unfold free_waiting_reads, free_all_read_locks. destruct (read_wait k); [done|].
  by destruct (free_reads _ _ _) as [[[g kept] c] calls].
Qed.

(** *** A table whose locks were aborted *)

Section aborted.
Context (upgraded : thr_lock_type) (max_write_lock_count : Z).

(** No request gets a write lock beside TL_WRITE_ONLY, and one of another
    owner gets no lock at all. *)
Lemma thr_lock_write_only k w l id owner lock_type chk : write k = w :: l -> d_type w = TL_WRITE_ONLY ->
  write (thr_lock upgraded k id owner lock_type chk).1.1 = write k /\
  (owner_addr owner <> owner_addr (d_owner w) ->
   thr_lock upgraded k id owner lock_type chk = (k, [], Returned THR_LOCK_ABORTED)).
Proof.
  intros Hw Ht. unfold thr_lock, thr_lock_read, thr_lock_write, thr_lock_owner_equal. rewrite Hw, Ht. cbn.
  destruct (tle lock_type TL_READ_NO_INSERT); cbn.
  - destruct (Z.eqb_spec (owner_addr owner) (owner_addr (d_owner w))); cbn; [|done].
    split; [by unfold grant_read; case_if|done].
  - rewrite andb_true_r. by destruct (teq lock_type TL_WRITE_DELAYED).
Qed.

Lemma free_all_write k u : write (free_all_read_locks k u).1 = write k.
Proof. unfold free_all_read_locks. by destruct (free_reads _ _ _) as [[[g kept] c] calls]. Qed.

(** The write locks after [thr_unlock] are those that were left, or instances
    that waited. *)
Lemma thr_unlock_write k data chk : let k' := (thr_unlock max_write_lock_count k data chk).1 in
  match write (release k data) with
  | [] => forall id, id ∈ d_id <$> write k' -> id ∈ d_id <$> write_wait (release k data)
  | _ => write k' = write (release k data)
  end.
Proof.
  cbv zeta. unfold thr_unlock. cbv zeta. set (q := release k data). clearbody q.
  destruct (write q) as [|w l] eqn:Hw; [|done].
  assert (forall chk data rest given last rest' id, give_writes chk data rest = (given, last, rest') ->
    id ∈ d_id <$> given -> id ∈ d_id <$> data :: rest) as Hgiven.
  { intros u d rest given last rest' id Hg Hid. destruct (give_writes_spec _ _ _ _ _ _ Hg) as (pre & -> & -> & _).
    rewrite ids_give in Hid. rewrite fmap_app. apply elem_of_app. by left. }
  assert (forall id, id ∈ d_id <$> [] -> id ∈ d_id <$> write_wait q) as Hnone by (intros id H; by apply not_elem_of_nil in H).
  destruct (read q) as [|r lr] eqn:Hr; rewrite fst_let_pair.
  - unfold unlock_none_left. destruct (write_wait q) as [|d rest] eqn:Hww; [by rewrite free_waiting_write, Hw|].
    case_if; [|by rewrite free_waiting_write, Hw]. cbv zeta.
    assert (forall b, write (set_write_count b q) = []) as Hwc by done.
    destruct (give_writes chk d rest) as [[given last] rest'] eqn:Hg. destruct (max_write_lock_count <? write_lock_count q), (read_wait _);
      rewrite ?free_all_write, ?Hwc; try done; case_if; rewrite ?fst_let_pair, ?free_waiting_write; cbn; rewrite ?Hw; try done; eauto.
  - unfold unlock_reads_left. destruct (write_wait q) as [|d rest] eqn:Hww; [by rewrite free_waiting_write, Hw|].
    case_if; [|cbn; by rewrite Hw]. case_if; [rewrite free_waiting_write; cbn; by rewrite Hw|].
    destruct (give_writes false d rest) as [[given last] rest'] eqn:Hg. rewrite fst_let_pair, free_waiting_write. cbn. rewrite Hw. eauto.
Qed.

(** Behind [thr_abort_locks] the first write lock stays what it is until it is
    given back. *)
Definition aborted_by (w : THR_LOCK_DATA) (k : THR_LOCK) : Prop :=
  lock_inv k /\ head (write k) = Some w /\ d_type w = TL_WRITE_ONLY.

Lemma only_write_not_aborted w k d : aborted_by w k -> ~ only_write k d.
Proof.
  intros ([Hc _] & Hw & Ht) Ho. pose proof Ho as (_ & _ & _ & Hd). rewrite (only_write_alone k d Hc Ho) in Hw.
  simpl in Hw. congruence.
Qed.

Lemma write_waits_apart k w : core k -> w ∈ write k -> d_id w ∉ d_id <$> write_wait k.
Proof.
  intros Hc Hw Hin. pose proof (c_nodup _ Hc) as H. unfold instances in H. rewrite !fmap_app in H.
  apply NoDup_app in H as (_ & _ & H). apply NoDup_app in H as (_ & _ & H). apply NoDup_app in H as (_ & H & _).
  apply (H _ Hin). by apply list_elem_of_fmap_2.
Qed.

Lemma unlock_keeps_aborted w k data chk : aborted_by w k -> can_unlock k data ->
  d_id w ∈ d_id <$> write (thr_unlock max_write_lock_count k data chk).1 ->
  head (write (thr_unlock max_write_lock_count k data chk).1) = Some w.
Proof.
  intros ([Hc _] & Hw & Ht) Hcan Hid. pose proof (thr_unlock_write k data chk) as Hu. cbv zeta in Hu.
  destruct (write k) as [|w0 l] eqn:Hk; [done|]. injection Hw as ->.
  assert (w ∈ write k) as Hin by (rewrite Hk; apply list_elem_of_here).
  assert (write_wait (release k data) ⊆ write_wait k /\ (write (release k data) = write k \/
    write (release k data) = unlink (d_id data) (write k))) as [Hww Hrel].
  { unfold release, unlink_data. split; [repeat case_if; cbn; try done; intros d; apply elem_of_unlink|].
    repeat case_if; cbn; auto. }
  assert (write (release k data) <> []) as Hne.
  { intros E. rewrite E in Hu. apply Hu, list_elem_of_fmap in Hid as (d & Ed & Hd).
    apply (write_waits_apart k w Hc Hin). rewrite Ed. by apply list_elem_of_fmap_2, Hww. }
  assert (write (thr_unlock max_write_lock_count k data chk).1 = write (release k data)) as Hsame
    by (destruct (write (release k data)); [done|exact Hu]).
  rewrite Hsame in *. destruct Hrel as [->|E]; [by rewrite Hk|]. rewrite E, Hk in *. unfold unlink in *.
  rewrite filter_cons in *. case_decide as Hd; [done|].
  exfalso. apply list_elem_of_fmap in Hid as (d & Ed & Hd'). apply list_elem_of_filter in Hd' as [Hd' _].
  congruence.
Qed.

Lemma step_keeps_aborted w k k' : upgraded = TL_WRITE \/ upgraded = TL_WRITE_LOW_PRIORITY ->
  step_holding upgraded max_write_lock_count (d_id w) k k' -> aborted_by w k -> aborted_by w k'.
Proof.
  intros Hup [Hs Hid] Ha. pose proof Ha as (Hk & Hw & Ht). split; [by eapply step_inv|]. split; [|done].
  destruct (write k) as [|w0 l] eqn:Ew; [done|]. injection Hw as ->. destruct Hs as [id owner t chk _ _ _ _|data chk Hcan|id timeout| |thread|id Ho|data Ho].
  - destruct (thr_lock_write_only k w l id owner t chk Ew Ht) as [-> _]. by rewrite Ew.
  - by apply unlock_keeps_aborted.
  - unfold wait_for_lock_end. repeat case_if; cbn; by rewrite Ew.
  - cbn. rewrite Ew. cbn. f_equal. destruct w. cbn in Ht |- *. by rewrite Ht.
  - cbn. by rewrite Ew.
  - unfold thr_upgrade_write_delay_lock. destruct (List.find _ _) as [d|] eqn:Ef; [|cbn; by rewrite Ew].
    apply find_some in Ef as [Hin Eid]. apply Z.eqb_eq in Eid. apply list_elem_of_In, elem_of_app in Hin as [Hin|Hin].
    + exfalso. apply (only_write_not_aborted w k d Ha). by apply Ho.
    + case_if; [cbn; by rewrite Ew|]. destruct (elem_part _ _ _ (c_write_wait _ (proj1 Hk)) Hin) as [_ ->]. cbn. by rewrite Ew.
  - by destruct (only_write_not_aborted w k data Ha).
Qed.

Lemma abort_aborted k w l : lock_inv k -> write k = w :: l -> aborted_by (set_type TL_WRITE_ONLY w) (thr_abort_locks k).1.
Proof. intros Hk Hw. split; [by apply thr_abort_locks_inv|]. split; [|done]. cbn. by rewrite Hw. Qed.
End aborted.

(** ** Properties *)

Section properties.
Context (upgraded : thr_lock_type) (max_write_lock_count : Z).

(** C1: mutual exclusion, in every state that any number of threads (with fewer
    than 2^32 lock instances) reach from [thr_lock_init] by requests of instances
    that are in no queue, unlocks of locks that are held and of delayed locks
    that wait, ends of waits, aborts, upgrades and reschedules, one after another
    in an order that keeps two rules.  An owner that holds write locks on the table
    requests nothing stronger than any of them, and nothing beside a
    TL_WRITE_DELAYED lock of its own (the requests of one [thr_multi_lock] come
    this way); and only a lock that is queued, or the only write lock of its
    owner and neither TL_WRITE_ALLOW_WRITE nor TL_WRITE_ONLY, is upgraded, and
    only the latter kind is rescheduled.  [thr_upgraded_concurrent_insert_lock]
    is TL_WRITE or TL_WRITE_LOW_PRIORITY.
    Then under a TL_WRITE or TL_WRITE_LOW_PRIORITY lock every lock held belongs
    to its owner; two owners hold write locks together only as
    TL_WRITE_ALLOW_WRITE (or after [thr_abort_locks]); and no other owner
    reads without inserts during a concurrent insert. *)
Theorem thr_lock_exclusion k : upgraded = TL_WRITE \/ upgraded = TL_WRITE_LOW_PRIORITY ->
  reachable upgraded max_write_lock_count k ->
  (forall w d, w ∈ write k -> d ∈ read k ++ write k ->
     d_type w = TL_WRITE \/ d_type w = TL_WRITE_LOW_PRIORITY -> same_owner d w) /\
  (forall w w', w ∈ write k -> w' ∈ write k -> same_owner w w' \/
     (shares_write (d_type w) /\ shares_write (d_type w'))) /\
  (forall r w, r ∈ read k -> w ∈ write k -> d_type r = TL_READ_NO_INSERT ->
     d_type w = TL_WRITE_CONCURRENT_INSERT -> same_owner r w).
Proof.
  intros Hup Hr. destruct (reachable_inv _ _ _ Hup Hr) as [Hc _]. split; [|split].
  - intros w d Hw Hd Ht. destruct (same_owner_dec d w) as [|Hne]; [done|exfalso].
    apply elem_of_app in Hd as [Hd|Hd].
    + destruct (c_rw _ Hc d w Hd Hw Hne) as [[H8|H8] _]; destruct Ht as [E|E]; rewrite E in H8; simpl in H8; (lia || discriminate).
    + destruct (c_ww _ Hc d w Hd Hw Hne) as [_ [E'|E']]; destruct Ht; congruence.
  - intros w w' Hw Hw'. destruct (same_owner_dec w w') as [|Hne]; [by left|right]. by apply (c_ww _ Hc).
  - intros r w Hin Hw Er Ew. destruct (same_owner_dec r w) as [|Hne]; [done|exfalso].
    destruct (c_rw _ Hc r w Hin Hw Hne) as [_ H]. by apply H.
Qed.

(** C2: no lost wake-up.  In every reachable state a request waits only while
    some lock instance is held, so a release will look at the queues. *)
Theorem thr_lock_no_lost_wakeup k : upgraded = TL_WRITE \/ upgraded = TL_WRITE_LOW_PRIORITY ->
  reachable upgraded max_write_lock_count k ->
  read_wait k ++ write_wait k <> [] -> read k ++ write k <> [].
Proof.
  intros Hup Hr Hw E. destruct (reachable_inv _ _ _ Hup Hr) as [_ Hn]. apply app_eq_nil in E as [E1 E2].
  destruct (Hn E1 E2) as [E3 E4]. by rewrite E3, E4 in Hw.
Qed.

(** In every reachable state the queues pass the debug check of the code:
    the counter of TL_READ_NO_INSERT locks is exact, granted instances have
    no condition set, and (unless the first write lock was turned into
    TL_WRITE_ONLY) the write locks have one owner or all let others write;
    no instance is in two queues. *)
Theorem thr_lock_queues_checked k : upgraded = TL_WRITE \/ upgraded = TL_WRITE_LOW_PRIORITY ->
  reachable upgraded max_write_lock_count k -> (length (instances k) <= MAX_LOCKS)%nat ->
  NoDup (d_id <$> instances k) /\ no_insert_count (read k) = read_no_write_count k /\
  check_lock (read k) false true = true /\ check_lock (read_wait k) false false = true /\
  check_lock (write_wait k) false false = true /\
  (head (d_type <$> write k) <> Some TL_WRITE_ONLY -> check_lock (write k) true true = true).
Proof.
  intros Hup Hr Hlen. destruct (reachable_inv _ _ _ Hup Hr) as [Hc _].
  unfold instances in Hlen. rewrite !length_app in Hlen.
  assert (forall l so nc, (length l <= MAX_LOCKS)%nat ->
    (forall d l', l = d :: l' -> check_run (d_owner d) (d_type d) so nc l = true) -> check_lock l so nc = true) as Hck.
  { intros [|d l] so nc Hl H; [done|]. unfold check_lock. rewrite (H d l eq_refl). by apply Nat.leb_le. }
  assert (forall P l, (forall d, P d -> d_cond d = false) -> Forall P l -> Forall (fun d => d_cond d = false) l) as Himp
    by (intros P l H1 H2; eapply Forall_impl; eauto).
  split; [apply (c_nodup _ Hc)|]. split; [symmetry; apply (c_count _ Hc)|].
  split; [|split; [|split]]; try (apply Hck; [lia|]; intros d l' _; apply check_run_ok; try discriminate).
  - intros _. eapply Himp, (c_read _ Hc). by intros d' [_ ?].
  - intros Hh. apply Hck; [lia|]. intros w0 l Hw. apply check_run_ok.
    + intros _. eapply Himp, (c_write _ Hc). by intros d' [_ ?].
    + intros _. destruct (decide (Forall (fun d => owner_addr (d_owner d) = owner_addr (d_owner w0)) (write k))) as [Hall|Hex]; [by left|right].
      apply not_Forall_Exists, Exists_exists in Hex; [|intros ?; apply _]. destruct Hex as (w & Hin & Hne).
      assert (w0 ∈ write k) as Hin0 by (rewrite Hw; apply list_elem_of_here).
      destruct (c_ww _ Hc w w0 Hin Hin0 Hne) as [_ [E|E]]; [|rewrite Hw in Hh; simpl in Hh; congruence].
      split; [done|]. apply Forall_forall. intros d Hd. destruct (head_before k w0 l d Hc Hw Hd) as [->|Hb]; [done|].
      destruct Hb as [_ Hle]; [rewrite E; simpl; lia|]. destruct (elem_part _ _ _ (c_write _ Hc) Hd) as [Hd' _].
      rewrite E in Hle. destruct (d_type d); types.
Qed.

(** C36: [thr_abort_locks] on a write locked table, in a reachable state
    ([thr_upgraded_concurrent_insert_lock] is TL_WRITE or TL_WRITE_LOW_PRIORITY): every
    instance that waited has been signalled and is queued no more.  From then
    on, through any steps of the threads ([step]: requests, unlocks, ends of waits,
    aborts, upgrades and reschedules, with the rules it has for their order and
    for what may be upgraded), the first write lock
    stays at the head of its queue as TL_WRITE_ONLY for as long as its instance
    is among the write locks, and in all these states every request of another
    owner is refused with THR_LOCK_ABORTED and changes nothing. *)
Theorem thr_abort_locks_refuses k w l : upgraded = TL_WRITE \/ upgraded = TL_WRITE_LOW_PRIORITY ->
  reachable upgraded max_write_lock_count k -> write k = w :: l ->
  let '(k', calls) := thr_abort_locks k in
  read_wait k' = [] /\ write_wait k' = [] /\ read k' = read k /\
  (forall d, d ∈ read_wait k ++ write_wait k -> Signal (d_id d) ∈ calls) /\
  forall k2, rtc (step_holding upgraded max_write_lock_count (d_id w)) k' k2 ->
    head (write k2) = Some (set_type TL_WRITE_ONLY w) /\
    forall id owner lock_type chk, owner_addr owner <> owner_addr (d_owner w) ->
      thr_lock upgraded k2 id owner lock_type chk = (k2, [], Returned THR_LOCK_ABORTED).
Proof.
  intros Hup Hr Hw. pose proof (abort_aborted k w l (reachable_inv _ _ _ Hup Hr) Hw) as Ha. unfold thr_abort_locks in *.
  split; [done|]. split; [done|]. split; [done|]. split.
  { intros d Hd. apply list_elem_of_fmap. by exists d. }
  cbn [fst] in Ha. intros k2 Hsteps. assert (aborted_by (set_type TL_WRITE_ONLY w) k2) as (_ & Hh & _).
  { clear Hr Hw. induction Hsteps as [|k0 k1 k2 Hs _ IH]; [done|]. apply IH. by eapply step_keeps_aborted. }
  split; [done|]. intros id owner t chk Hne. destruct (write k2) as [|w2 l2] eqn:E2; [done|]. injection Hh as ->.
  by apply (thr_lock_write_only upgraded k2 (set_type TL_WRITE_ONLY w) l2).
Qed.

(** FIFO hand-over.  When the last lock held is released, the writer
    first in the queue gets the lock and is signalled, unless it has low
    priority, or the table was handed to writers more than
    [max_write_lock_count] times in a row. *)
Theorem thr_unlock_hands_over k data w rest chk :
  core k -> can_unlock k data -> read k ++ write k = [data] -> write_wait k = w :: rest ->
  d_type w <> TL_WRITE_LOW_PRIORITY -> write_lock_count k <= max_write_lock_count ->
  let '(k', calls) := thr_unlock max_write_lock_count k data chk in
  give chk w ∈ write k' /\ Signal (d_id w) ∈ calls.
Proof.
  intros Hc Hcan Hone Hww Hlow Hcnt.
  assert (data ∈ read k \/ data ∈ write k) as Hin.
  { assert (data ∈ read k ++ write k) as H by (rewrite Hone; apply list_elem_of_here). by apply elem_of_app in H. }
  assert (read (release k data) = [] /\ write (release k data) = [] /\ write_wait (release k data) = w :: rest /\
    write_lock_count (release k data) = write_lock_count k) as (Er & Ew & Eww & Ewc).
  { apply (singleton_release k data); auto. }
  unfold thr_unlock. cbv zeta. rewrite Er, Ew. unfold unlock_none_left. rewrite Eww.
  rewrite (proj2 (teq_false _ _) Hlow). cbn [negb orb]. rewrite Ewc. destruct (Z.ltb_spec max_write_lock_count (write_lock_count k)); [lia|].
  destruct (give_writes chk w rest) as [[given last] rest'] eqn:Hg.
  destruct (give_writes_spec _ _ _ _ _ _ Hg) as (pre & _ & Egiven & _).
  assert (give chk w ∈ given) as Hgw by (rewrite Egiven; apply list_elem_of_here).
  assert (Signal (d_id w) ∈ (fun d => Signal (d_id d)) <$> given) as Hsig.
  { rewrite Egiven. simpl. unfold give. case_if; apply list_elem_of_here. }
  cbn [write set_write_count]. rewrite Ew. cbn [app].
  case_if; cbn.
  - split; [done|]. apply elem_of_app. by right.
  - match goal with |- context [free_waiting_reads ?q ?u] => pose proof (free_waiting_write q u) as Ef;
      destruct (free_waiting_reads q u) as [k3 calls'] end.
    cbn in Ef |- *. rewrite Ef. split; [done|]. rewrite !elem_of_app. auto.
Qed.
End properties.

(** *** The order of several locks *)

Definition lock_key (r : request) : Z := r_lock r - tl (r_type r).

Lemma insert_down_spec tmp l : StronglySorted (fun a b => lock_key b <= lock_key a) l ->
  StronglySorted (fun a b => lock_key b <= lock_key a) (insert_down tmp l) /\ insert_down tmp l ≡ₚ tmp :: l.
Proof.
  induction 1 as [|p l Hs [IH1 IH2] Hf]; cbn [insert_down]; [by split; repeat constructor|].
  unfold LOCK_CMP. fold (lock_key tmp) (lock_key p). destruct (Z.ltb_spec (lock_key tmp) (lock_key p)) as [Hlt|Hge].
  - split; [|rewrite IH2; by apply Permutation_swap]. constructor; [done|]. rewrite IH2. constructor; [lia|done].
  - split; [|done]. constructor; [by constructor|]. constructor; [lia|]. eapply Forall_impl; [exact Hf|]. cbn. lia.
Qed.

Lemma StronglySorted_rev {A} (R : A -> A -> Prop) l :
  StronglySorted R l -> StronglySorted (fun a b => R b a) (rev l).
Proof.
  induction 1 as [|x l Hs IH Hf]; simpl; [constructor|]. apply StronglySorted_snoc; [done|].
  rewrite Forall_forall in *. intros y Hy. apply Hf. apply list_elem_of_In. apply list_elem_of_In in Hy. by apply in_rev.
Qed.

Lemma sort_locks_keys data : StronglySorted (fun a b => lock_key a <= lock_key b) (sort_locks data) /\ sort_locks data ≡ₚ data.
Proof.
  unfold sort_locks.
  assert (forall acc, StronglySorted (fun a b => lock_key b <= lock_key a) acc ->
    StronglySorted (fun a b => lock_key b <= lock_key a) (foldl (fun acc tmp => insert_down tmp acc) acc data) /\
    foldl (fun acc tmp => insert_down tmp acc) acc data ≡ₚ acc ++ data) as H.
  { induction data as [|d data IH]; intros acc Hacc; simpl; [by rewrite app_nil_r|].
    destruct (insert_down_spec d acc Hacc) as [Hs Hp]. destruct (IH _ Hs) as [H1 H2]. split; [done|].
    rewrite H2, Hp. solve_Permutation. }
  destruct (H [] ltac:(constructor)) as [H1 H2]. split; [by apply StronglySorted_rev in H1|].
  rewrite <- Permutation_rev. exact H2.
Qed.

(** The order of the sorted requests. *)
Lemma sort_locks_spec data :
  (forall a, a ∈ data -> 0 <= tl (r_type a)) ->
  (forall a b, a ∈ data -> b ∈ data -> r_lock a < r_lock b -> r_lock a + 12 <= r_lock b) ->
  sort_locks data ≡ₚ data /\
  StronglySorted (fun a b => r_lock a < r_lock b \/ r_lock a = r_lock b /\ tl (r_type b) <= tl (r_type a))
    (sort_locks data).
Proof.
  intros Ht Hgap. destruct (sort_locks_keys data) as [Hs Hp]. split; [done|].
  assert (forall a, a ∈ sort_locks data -> a ∈ data) as Hin by (intros a Ha; by rewrite <- Hp).
  assert (forall t, tl t <= 11) as H11 by (intros []; simpl; lia).
  clear Hp. revert Hin. induction Hs as [|a l _ IH Hf]; intros Hin; [constructor|].
  constructor; [apply IH; intros; apply Hin; by apply list_elem_of_further|].
  rewrite Forall_forall in *. intros b Hb. specialize (Hf b Hb). unfold lock_key in Hf.
  assert (a ∈ data) as Ha by (apply Hin, list_elem_of_here).
  assert (b ∈ data) as Hb' by (apply Hin; by apply list_elem_of_further).
  pose proof (Ht a Ha). pose proof (Ht b Hb'). pose proof (H11 (r_type a)). pose proof (Hgap b a Hb' Ha). lia.
Qed.

(** [sort_locks] permutes the requests of [thr_multi_lock] into one order
    for all threads: by the address of the lock, and for one lock the strongest
    type first (so that what a connection asks for after it holds a write lock
    is not stronger).  The locks need only be 12 bytes apart, which distinct
    [THR_LOCK] objects are. *)
Theorem sort_locks_order data :
  (forall a, a ∈ data -> 0 <= tl (r_type a)) ->
  (forall a b, a ∈ data -> b ∈ data -> r_lock a < r_lock b -> r_lock a + 12 <= r_lock b) ->
  sort_locks data ≡ₚ data /\
  StronglySorted (fun a b => r_lock a < r_lock b \/ r_lock a = r_lock b /\ tl (r_type b) <= tl (r_type a))
    (sort_locks data).
Proof. apply sort_locks_spec. Qed.

(** *** Deviations *)

(** Two connections. *)
Definition owner1 : THR_LOCK_OWNER := mkOwner 1 1 1.
Definition owner2 : THR_LOCK_OWNER := mkOwner 2 2 2.
Definition owner3 : THR_LOCK_OWNER := mkOwner 3 3 3.

(** A TL_READ_NO_INSERT lock is given while another connection holds
    TL_WRITE_ALLOW_WRITE, although the comment in [thr_lock] excludes it and
    the debug check [check_locks] then reports a table that is write and read
    locked. *)
Theorem read_no_insert_beside_allow_write :
  let '(k1, _, r1) := thr_lock TL_WRITE (thr_lock_init false) 1 owner1 TL_WRITE_ALLOW_WRITE false in
  let '(k2, _, r2) := thr_lock TL_WRITE k1 2 owner2 TL_READ_NO_INSERT false in
  r1 = Returned THR_LOCK_SUCCESS /\ check_locks k1 false = true /\
  r2 = Returned THR_LOCK_SUCCESS /\ check_locks k2 false = false.
Proof. vm_compute. auto. Qed.

(** The order of the requests matters: an owner that asks for TL_WRITE while it
    holds TL_WRITE_ALLOW_READ gets it at once, beside the reader of another
    owner.  The comment in [thr_lock] says of such an
    order that "this will never happen within MySQL". *)
Theorem rising_request_breaks_exclusion :
  let '(k1, _, r1) := thr_lock TL_WRITE (thr_lock_init false) 1 owner1 TL_WRITE_ALLOW_READ false in
  let '(k2, _, r2) := thr_lock TL_WRITE k1 2 owner2 TL_READ false in
  let '(k3, _, r3) := thr_lock TL_WRITE k2 3 owner1 TL_WRITE false in
  [r1; r2; r3] = [Returned THR_LOCK_SUCCESS; Returned THR_LOCK_SUCCESS; Returned THR_LOCK_SUCCESS] /\
  d_type <$> read k3 = [TL_READ] /\ d_type <$> write k3 = [TL_WRITE_ALLOW_READ; TL_WRITE].
Proof. vm_compute. auto. Qed.

(** When the wait of a writer ends without the lock (timeout or kill), the
    readers that queued behind it are not looked at: they go on waiting while
    no write lock is held or wanted, which [check_locks] reports. *)
Theorem timed_out_writer_leaves_readers :
  let '(k1, _, r1) := thr_lock TL_WRITE (thr_lock_init false) 1 owner1 TL_READ false in
  let '(k2, _, r2) := thr_lock TL_WRITE k1 2 owner2 TL_WRITE false in
  let '(k3, _, r3) := thr_lock TL_WRITE k2 3 owner3 TL_READ false in
  let '(k4, calls, r4) := wait_for_lock_end k3 2 true in
  r1 = Returned THR_LOCK_SUCCESS /\ r2 = Waits /\ r3 = Waits /\ check_locks k3 false = true /\
  r4 = THR_LOCK_WAIT_TIMEOUT /\ calls = [] /\ write k4 = [] /\ write_wait k4 = [] /\
  d_id <$> read_wait k4 = [3] /\ check_locks k4 false = false.
Proof. vm_compute. auto 20. Qed.

(** ** Witnesses *)

(** A reader and a writer that waits for it. *)
Definition demo : THR_LOCK :=
  mkLock [] [mkData 1 owner1 TL_READ false] [mkData 2 owner2 TL_WRITE true] [] 0 0 false.

Lemma demo_reachable : reachable TL_WRITE 10 demo.
Proof.
  exists false. eapply rtc_l.
  { apply (step_lock _ _ _ 1 owner1 TL_READ false); [apply not_elem_of_nil|simpl; lia|left; vm_compute; split; congruence|].
    intros w Hw. by apply not_elem_of_nil in Hw. }
  eapply rtc_l; [|apply rtc_refl].
  apply (step_lock TL_WRITE 10 (mkLock [] [mkData 1 owner1 TL_READ false] [] [] 0 0 false) 2 owner2 TL_WRITE false).
  - simpl. intros H. apply list_elem_of_singleton in H. discriminate.
  - simpl. lia.
  - right. vm_compute. split; congruence.
  - intros w Hw. by apply not_elem_of_nil in Hw.
Defined.

Lemma thr_lock_exclusion_witness :
  (forall w d, w ∈ write demo -> d ∈ read demo ++ write demo ->
     d_type w = TL_WRITE \/ d_type w = TL_WRITE_LOW_PRIORITY -> same_owner d w) /\
  (forall w w', w ∈ write demo -> w' ∈ write demo -> same_owner w w' \/
     (shares_write (d_type w) /\ shares_write (d_type w'))) /\
  (forall r w, r ∈ read demo -> w ∈ write demo -> d_type r = TL_READ_NO_INSERT ->
     d_type w = TL_WRITE_CONCURRENT_INSERT -> same_owner r w).
Proof. apply (thr_lock_exclusion TL_WRITE 10 demo); [by left|apply demo_reachable]. Defined.

Lemma thr_lock_no_lost_wakeup_witness : read demo ++ write demo <> [].
Proof. apply (thr_lock_no_lost_wakeup TL_WRITE 10 demo); [by left|apply demo_reachable|discriminate]. Defined.

Lemma thr_lock_queues_checked_witness :
  NoDup (d_id <$> instances demo) /\ no_insert_count (read demo) = read_no_write_count demo /\
  check_lock (read demo) false true = true /\ check_lock (read_wait demo) false false = true /\
  check_lock (write_wait demo) false false = true /\
  (head (d_type <$> write demo) <> Some TL_WRITE_ONLY -> check_lock (write demo) true true = true).
Proof.
  apply (thr_lock_queues_checked TL_WRITE 10 demo); [by left|apply demo_reachable|simpl; unfold MAX_LOCKS; lia].
Defined.

(** A writer and a reader that waits for it. *)
Definition demo_aborted : THR_LOCK :=
  mkLock [mkData 2 owner2 TL_READ true] [] [] [mkData 1 owner1 TL_WRITE false] 0 0 false.

Lemma demo_aborted_reachable : reachable TL_WRITE 10 demo_aborted.
Proof.
  exists false. eapply rtc_l.
  { apply (step_lock _ _ _ 1 owner1 TL_WRITE false); [apply not_elem_of_nil|simpl; lia|right; vm_compute; split; congruence|].
    intros w Hw. by apply not_elem_of_nil in Hw. }
  eapply rtc_l; [|apply rtc_refl].
  apply (step_lock TL_WRITE 10 (mkLock [] [] [] [mkData 1 owner1 TL_WRITE false] 0 0 false) 2 owner2 TL_READ false).
  - simpl. intros H. apply list_elem_of_singleton in H. discriminate.
  - simpl. lia.
  - left. vm_compute. split; congruence.
  - intros w Hw. apply list_elem_of_singleton in Hw as ->. discriminate.
Defined.

(** After the abort the reader leaves, and the owner of the write lock reads. *)
Lemma thr_abort_locks_refuses_witness :
  let k2 := mkLock [] [mkData 4 owner1 TL_READ false] [] [mkData 1 owner1 TL_WRITE_ONLY false] 0 0 false in
  thr_lock TL_WRITE k2 3 owner3 TL_READ_HIGH_PRIORITY false = (k2, [], Returned THR_LOCK_ABORTED).
Proof.
  destruct (thr_abort_locks_refuses TL_WRITE 10 demo_aborted (mkData 1 owner1 TL_WRITE false) []) as (_ & _ & _ & _ & H);
    [by left|apply demo_aborted_reachable|done|].
  apply H; [|discriminate]. set (k1 := mkLock [] [] [] [mkData 1 owner1 TL_WRITE_ONLY false] 0 0 false).
  eapply rtc_l; [split; [apply (step_wait_end TL_WRITE 10 k1 2 true)|apply list_elem_of_here]|].
  eapply rtc_l; [|apply rtc_refl]. split; [|apply list_elem_of_here].
  apply (step_lock TL_WRITE 10 k1 4 owner1 TL_READ false).
  - simpl. intros H'. apply list_elem_of_singleton in H'. discriminate.
  - simpl. lia.
  - left. vm_compute. split; congruence.
  - intros w Hw _. apply list_elem_of_singleton in Hw as ->. split; [discriminate|vm_compute; congruence].
Defined.

Lemma thr_unlock_hands_over_witness :
  let '(k', calls) := thr_unlock 10 demo (mkData 1 owner1 TL_READ false) false in
  give false (mkData 2 owner2 TL_WRITE true) ∈ write k' /\ Signal 2 ∈ calls.
Proof.
  apply (thr_unlock_hands_over 10 demo (mkData 1 owner1 TL_READ false) (mkData 2 owner2 TL_WRITE true) [] false);
    try done.
  - apply (reachable_inv TL_WRITE 10 demo); [by left|apply demo_reachable].
  - left. apply list_elem_of_here.
Defined.

Lemma sort_locks_order_witness :
  let data := [mkRequest 1 1000 TL_READ; mkRequest 2 200 TL_WRITE; mkRequest 3 1000 TL_WRITE] in
  sort_locks data ≡ₚ data /\
  StronglySorted (fun a b => r_lock a < r_lock b \/ r_lock a = r_lock b /\ tl (r_type b) <= tl (r_type a))
    (sort_locks data).
Proof.
  apply (sort_locks_order [mkRequest 1 1000 TL_READ; mkRequest 2 200 TL_WRITE; mkRequest 3 1000 TL_WRITE]).
  - intros a Ha%list_elem_of_In. simpl in Ha. intuition (subst; simpl; lia).
  - intros a b Ha%list_elem_of_In Hb%list_elem_of_In. simpl in Ha, Hb. intuition (subst; simpl in *; lia).
Defined.
