(* ===== verification/MultiLock.v ===== *)
(** * Several table locks at once (mysys/thr_lock.c: [thr_multi_lock],
      [thr_multi_unlock])

    A statement asks for all its table locks with one call.  The requests are
    sorted so that all threads take the locks in one order; the loop may wait
    in each [thr_lock], so a call is a thread of the system at the end of this
    file, which takes one step for each function call that holds the mutex of
    a lock.  When all locks are held the status of the instances of one table
    is copied among them. *)

From stdpp Require Import base numbers list gmap relations sorting.
From Stdlib Require Import ZArith Lia.
From S2P Require Import Prelude ThrLock.

Local Open Scope Z_scope.

(** ** The copies of the status *)

Section Status.

(** The requests as the array [data] after the locks were taken (a type may
    have been upgraded), and whether a lock has a [copy_status] function. *)
Context (data : list request) (copy_status : Z -> bool).

(** [for (; ( *pos)->type <= TL_READ_NO_INSERT && pos != data &&
    pos[-1]->lock == ( *pos)->lock; pos--)] *)
Fixpoint back_to_write (pos : nat) : option nat :=
  match pos with
  | O => Some O
  | S p =>
      x ← data !! pos; y ← data !! p;
      if tle (r_type x) TL_READ_NO_INSERT && (r_lock y =? r_lock x) then back_to_write p else Some pos
  end.

(** [do copy_status(( *read_lock)->status_param, from) while ( *(read_lock++) != last_lock)]:
    the pairs of target and source. *)
Fixpoint copy_reads (fuel : nat) (read_lock : nat) (from last : Z) : option (list (Z * Z)) :=
  match fuel with
  | O => None
  | S fuel =>
      x ← data !! read_lock;
      if r_id x =? last then Some [(r_id x, from)]
      else cons (r_id x, from) <$> copy_reads fuel (S read_lock) from last
  end.

(** The [do ... while (pos != data)]; [pos] is counted down at its start. *)
Fixpoint status_loop (fuel : nat) (pos : nat) (last_lock : request) : option (list (Z * Z)) :=
  match fuel, pos with
  | O, _ | _, O => None
  | S fuel, S pos =>
      x ← data !! pos;
      '(pos, last_lock, calls) ←
        (if (r_lock last_lock =? r_lock x) && copy_status (r_lock last_lock) then
           if tle (r_type last_lock) TL_READ_NO_INSERT then
             pos ← back_to_write pos;
             y ← data !! pos;
             calls ← copy_reads (length data) (S pos) (r_id y) (r_id last_lock);
             Some (pos, y, calls)
           else Some (pos, last_lock, [(r_id x, r_id last_lock)])
         else Some (pos, x, []));
      match pos with
      | O => Some calls
      | _ => app calls <$> status_loop fuel pos last_lock
      end
  end.

Definition copy_statuses : option (list (Z * Z)) :=
  match data with
  | [] | [_] => Some []
  | _ =>
      last_lock ← last data;
      status_loop (length data) (pred (length data)) last_lock
  end.

End Status.

(** The statuses after the calls, each [(to, from)]. *)
Definition copy1 (st : Z -> Z) (c : Z * Z) : Z -> Z := fun i => if i =? c.1 then st c.2 else st i.
Definition run_copies (st : Z -> Z) (calls : list (Z * Z)) : Z -> Z := foldl copy1 st calls.

Example status_of_three :
  copy_statuses [mkRequest 7 100 TL_WRITE; mkRequest 8 100 TL_WRITE; mkRequest 9 100 TL_READ; mkRequest 10 100 TL_READ]
    (fun _ => true) = Some [(9, 8); (10, 8); (7, 8)].
Proof. reflexivity. Qed.

(** *** All instances of a table get one status *)

Lemma copy_statuses_eq data copy_status :
  ((length data <= 1)%nat /\ copy_statuses data copy_status = Some []) \/
  ((1 < length data)%nat /\ copy_statuses data copy_status =
     last_lock ← last data; status_loop data copy_status (length data) (pred (length data)) last_lock).
Proof. destruct data as [|a [|b l]]; simpl; [left; auto with lia..|right; auto with lia]. Qed.

Section StatusProofs.

Context (data : list request) (copy_status : Z -> bool).

Abbreviation is_rd r := (tl (r_type r) <= 4) (only parsing).

(** The order of the requests: by lock, write locks first. *)
Definition lock_order (a b : request) : Prop :=
  r_lock a < r_lock b \/ r_lock a = r_lock b /\ (is_rd a -> is_rd b).

Hypothesis Hsorted : StronglySorted lock_order data.
Hypothesis Hids : NoDup (r_id <$> data).

Lemma order_at i j x y : (i < j)%nat -> data !! i = Some x -> data !! j = Some y -> lock_order x y.
Proof. by apply sorted_lookup. Qed.

Lemma id_at i j x y : data !! i = Some x -> data !! j = Some y -> r_id x = r_id y -> i = j.
Proof.
  intros Hx Hy E. eapply (NoDup_lookup _ i j (r_id x) Hids); rewrite list_lookup_fmap; [by rewrite Hx|by rewrite Hy, E].
Qed.

Lemma back_to_write_spec pos x : data !! pos = Some x -> exists p y, back_to_write data pos = Some p /\
  (p <= pos)%nat /\ data !! p = Some y /\
  (forall i z, (p <= i <= pos)%nat -> data !! i = Some z -> r_lock z = r_lock x) /\
  (is_rd y -> forall z, (0 < p)%nat -> data !! pred p = Some z -> r_lock z <> r_lock x).
Proof.
  revert x. induction pos as [|p IH]; intros x Hx; cbn [back_to_write].
  - exists 0%nat, x. split; [done|]. split; [lia|]. split; [done|]. split; [|intros; lia].
    intros i z Hi Hz. replace i with 0%nat in * by lia. by simplify_eq.
  - rewrite Hx, bind_Some_eq. assert (is_Some (data !! p)) as [y Hy].
    { apply lookup_lt_is_Some. apply lookup_lt_Some in Hx. lia. }
    rewrite Hy, bind_Some_eq. destruct (tle_spec (r_type x) TL_READ_NO_INSERT) as [Hr|Hr]; simpl in Hr; cbn [andb];
      [destruct (Z.eqb_spec (r_lock y) (r_lock x)) as [E|E]|].
    + destruct (IH y Hy) as (p' & y' & -> & Hle & Hy' & Hsame & Hstop). rewrite E in *.
      exists p', y'. split; [done|]. split; [lia|]. split; [done|]. split; [|done].
      intros i z Hi Hz. destruct (decide (i = S p)) as [->|]; [by simplify_eq|]. apply (Hsame i); [lia|done].
    + exists (S p), x. split; [done|]. split; [lia|]. split; [done|]. split.
      * intros i z Hi Hz. replace i with (S p) in * by lia. by simplify_eq.
      * intros _ z _ Hz. simpl in Hz. by simplify_eq.
    + exists (S p), x. split; [done|]. split; [lia|]. split; [done|]. split; [|lia].
      intros i z Hi Hz. replace i with (S p) in * by lia. by simplify_eq.
Qed.

Lemma copy_reads_spec fuel j a from last st : data !! j = Some last -> (a <= j)%nat -> (j - a < fuel)%nat ->
  (forall i z, (a <= i)%nat -> data !! i = Some z -> r_id z <> from) ->
  exists calls, copy_reads data fuel a from (r_id last) = Some calls /\
    forall i z, data !! i = Some z ->
      run_copies st calls (r_id z) = if decide (a <= i <= j)%nat then st from else st (r_id z).
Proof.
  revert a st. induction fuel as [|fuel IH]; intros a st Hj Haj Hf Hfrom; [lia|]. cbn [copy_reads].
  assert (is_Some (data !! a)) as [x Hx] by (apply lookup_lt_is_Some; apply lookup_lt_Some in Hj; lia).
  rewrite Hx, bind_Some_eq. destruct (Z.eqb_spec (r_id x) (r_id last)) as [E|E].
  - pose proof (id_at _ _ _ _ Hx Hj E) as ->. eexists. split; [reflexivity|]. intros i z Hz.
    unfold run_copies, copy1. cbn. destruct (Z.eqb_spec (r_id z) (r_id x)) as [E'|E'].
    + pose proof (id_at _ _ _ _ Hz Hx E') as ->. by rewrite decide_True by lia.
    + rewrite decide_False; [done|]. intros Hi. apply E'. replace i with j in Hz by lia. congruence.
  - assert (a <> j) as Hne by (intros ->; simplify_eq).
    destruct (IH (S a) (copy1 st (r_id x, from))) as (calls & -> & Hc); [done|lia|lia|intros i z Hi; apply Hfrom; lia|].
    eexists. split; [reflexivity|]. intros i z Hz. change (run_copies st ((r_id x, from) :: calls)) with (run_copies (copy1 st (r_id x, from)) calls).
    rewrite (Hc i z Hz). unfold copy1. cbn. destruct (Z.eqb_spec from (r_id x)) as [E2|_]; [by destruct (Hfrom a x)|].
    destruct (Z.eqb_spec (r_id z) (r_id x)) as [E'|E'].
    + pose proof (id_at _ _ _ _ Hz Hx E') as ->. rewrite decide_False by lia. by rewrite decide_True by lia.
    + assert (i <> a) by (intros ->; congruence). repeat case_decide; auto; lia.
Qed.

(** The instances from [pos] on have been seen. *)
Definition shared_from (pos : nat) (st : Z -> Z) : Prop :=
  forall i i' x y, (pos <= i)%nat -> (pos <= i')%nat -> data !! i = Some x -> data !! i' = Some y ->
    r_lock x = r_lock y -> copy_status (r_lock x) = true -> st (r_id x) = st (r_id y).

Record status_inv (pos : nat) (last : request) (st : Z -> Z) : Prop := {
  st_last : exists j, data !! j = Some last /\ (pos <= j)%nat /\
    (is_rd last -> copy_status (r_lock last) = true -> j = pos /\
      ((forall i x, (pos < i)%nat -> data !! i = Some x -> r_lock x <> r_lock last) \/
       (forall x, (0 < pos)%nat -> data !! pred pos = Some x -> r_lock x <> r_lock last)));
  st_lock : exists p, data !! pos = Some p /\ r_lock p = r_lock last;
  st_shared : shared_from pos st
}.

(** One round with a new lock, or one without status. *)
Lemma status_next p x last st : data !! p = Some x -> status_inv (S p) last st ->
  (r_lock last =? r_lock x) && copy_status (r_lock last) = false -> status_inv p x st.
Proof.
  intros Hx [(j & Hj & Hpj & _) (q & Hq & Eq) Hsh] Hc.
  assert (forall i z, (p < i)%nat -> data !! i = Some z -> copy_status (r_lock x) = true -> r_lock z <> r_lock x) as Hnew.
  { intros i z Hi Hz Hcp E. assert (r_lock q = r_lock x) as E'.
    { pose proof (order_at p (S p) x q ltac:(lia) Hx Hq) as [?|[? _]]; [|done].
      destruct (decide (i = S p)) as [->|]; [by simplify_eq|].
      pose proof (order_at (S p) i q z ltac:(lia) Hq Hz) as [?|[? _]]; lia. }
    rewrite <- Eq, E', Z.eqb_refl, Hcp in Hc. discriminate. }
  split.
  - exists p. split; [done|]. split; [lia|]. intros _ Hcp. split; [done|]. left. eauto.
  - eauto.
  - intros i i' a b Hi Hi' Ha Hb E Hcp. destruct (decide (i = p)) as [->|]; [|destruct (decide (i' = p)) as [->|]].
    + simplify_eq. destruct (decide (i' = p)) as [->|]; [by simplify_eq|]. destruct (Hnew i' b); [lia|done..].
    + simplify_eq. destruct (Hnew i a); [lia|done|by rewrite <- E|done].
    + apply (Hsh i i'); [lia..|done|done|done|done].
Qed.

(** ... behind a write lock. *)
Lemma status_write p x last st : data !! p = Some x -> status_inv (S p) last st ->
  r_lock last = r_lock x -> ~ is_rd last -> status_inv p last (copy1 st (r_id x, r_id last)).
Proof.
  intros Hx [(j & Hj & Hpj & _) _ Hsh] E Hw.
  assert (forall i z, (S p <= i)%nat -> data !! i = Some z -> copy1 st (r_id x, r_id last) (r_id z) = st (r_id z)) as Hold.
  { intros i z Hi Hz. unfold copy1. cbn. destruct (Z.eqb_spec (r_id z) (r_id x)) as [E'|]; [|done].
    pose proof (id_at _ _ _ _ Hz Hx E'). lia. }
  assert (copy1 st (r_id x, r_id last) (r_id x) = st (r_id last)) as Hxst by (unfold copy1; cbn; by rewrite Z.eqb_refl).
  split; [exists j; split; [done|]; split; [lia|done]|eauto|].
  intros i i' a b Hi Hi' Ha Hb Eab Hcp. destruct (decide (i = p)) as [->|], (decide (i' = p)) as [->|]; simplify_eq; auto.
  - rewrite Hxst, (Hold i' b) by (done || lia). apply (Hsh j i'); [lia..|done|done|congruence|congruence].
  - rewrite Hxst, (Hold i a) by (done || lia). apply (Hsh i j); [lia..|done|done|congruence|congruence].
  - rewrite (Hold i a), (Hold i' b) by (done || lia). apply (Hsh i i'); [lia..|done|done|done|done].
Qed.

(** ... behind read locks only. *)
Lemma status_read p x last st : data !! p = Some x -> status_inv (S p) last st ->
  r_lock last = r_lock x -> copy_status (r_lock last) = true -> is_rd last ->
  exists p' y calls, back_to_write data p = Some p' /\ data !! p' = Some y /\ (p' <= p)%nat /\
    copy_reads data (length data) (S p') (r_id y) (r_id last) = Some calls /\
    status_inv p' y (run_copies st calls).
Proof.
  intros Hx [(j & Hj & Hpj & Hrd) _ Hsh] E Hcp Hr. destruct (Hrd Hr Hcp) as [-> [Hnew|Hbad]].
  2:{ destruct (Hbad x); [lia|done..]. }
  destruct (back_to_write_spec p x Hx) as (p' & y & Eb & Hle & Hy & Hsame & Hstop).
  pose proof (lookup_lt_Some _ _ _ Hj) as Hlen.
  destruct (copy_reads_spec (length data) (S p) (S p') (r_id y) last st Hj) as (calls & Ec & Hst); [lia..| |].
  { intros i z Hi Hz Eid. pose proof (id_at _ _ _ _ Hz Hy Eid). lia. }
  exists p', y, calls. split; [done|]. split; [done|]. split; [lia|]. split; [done|].
  assert (r_lock y = r_lock x) as Ey by (apply (Hsame p'); [lia|done]).
  assert (forall i z, (p' <= i <= S p)%nat -> data !! i = Some z ->
    r_lock z = r_lock x /\ run_copies st calls (r_id z) = st (r_id y)) as Hin.
  { intros i z Hi Hz. rewrite (Hst i z Hz). split.
    - destruct (decide (i = S p)) as [->|]; [by simplify_eq|apply (Hsame i); [lia|done]].
    - case_decide; [done|]. replace i with p' in Hz by lia. by simplify_eq. }
  split; [exists p'|eauto|].
  - split; [done|]. split; [lia|]. intros Hry _. split; [done|]. right. rewrite Ey. auto.
  - intros i i' a b Hi Hi' Ha Hb Eab Hc.
    assert (forall i z, (p' <= i)%nat -> data !! i = Some z -> r_lock z = r_lock x -> (i <= S p)%nat) as Hin'.
    { intros k z Hk Hz Ez. destruct (decide (k <= S p)%nat); [done|]. destruct (Hnew k z); [lia|done|congruence]. }
    destruct (decide (r_lock a = r_lock x)) as [Ea|Ea].
    + rewrite (proj2 (Hin i a ltac:(split; [done|by eapply Hin']) Ha)).
      by rewrite (proj2 (Hin i' b ltac:(split; [done|eapply Hin'; [done..|congruence]]) Hb)).
    + assert (forall k z, (p' <= k)%nat -> data !! k = Some z -> r_lock z = r_lock a -> (S p < k)%nat) as Hout.
      { intros k z Hk Hz Ez. destruct (decide (S p < k)%nat); [done|]. destruct (Hin k z ltac:(lia) Hz). congruence. }
      pose proof (Hout i a Hi Ha eq_refl). pose proof (Hout i' b Hi' Hb (eq_sym Eab)).
      rewrite (Hst i a Ha), (Hst i' b Hb), !decide_False by lia. apply (Hsh i i'); [lia..|done|done|done|done].
Qed.

Lemma status_loop_spec fuel pos last st : (0 < pos <= fuel)%nat -> status_inv pos last st ->
  exists calls, status_loop data copy_status fuel pos last = Some calls /\ shared_from 0 (run_copies st calls).
Proof.
  revert pos last st. induction fuel as [|fuel IH]; intros pos last st Hp Hinv; [lia|].
  destruct pos as [|p]; [lia|]. cbn [status_loop].
  assert (is_Some (data !! p)) as [x Hx].
  { destruct (st_lock _ _ _ Hinv) as (q & Hq & _). apply lookup_lt_is_Some. apply lookup_lt_Some in Hq. lia. }
  rewrite Hx, bind_Some_eq.
  assert (exists p' last' calls, (if (r_lock last =? r_lock x) && copy_status (r_lock last) then
      if tle (r_type last) TL_READ_NO_INSERT then
        pos ← back_to_write data p; y ← data !! pos;
        calls ← copy_reads data (length data) (S pos) (r_id y) (r_id last); Some (pos, y, calls)
      else Some (p, last, [(r_id x, r_id last)])
    else Some (p, x, [])) = Some (p', last', calls) /\ (p' <= p)%nat /\
    status_inv p' last' (run_copies st calls)) as (p' & last' & calls & -> & Hle & Hinv').
  { destruct ((r_lock last =? r_lock x) && copy_status (r_lock last)) eqn:Ec.
    - b2p. destruct (tle_spec (r_type last) TL_READ_NO_INSERT) as [Hr|Hr]; simpl in Hr.
      + destruct (status_read p x last st) as (p' & y & calls & -> & Hy & Hle & E & Hi); [done..|].
        rewrite bind_Some_eq, Hy, bind_Some_eq, E. eauto 10.
      + eexists _, _, _. split; [reflexivity|]. split; [lia|]. by apply status_write.
    - eexists _, _, _. split; [reflexivity|]. split; [lia|]. by eapply status_next. }
  rewrite bind_Some_eq. destruct p' as [|p'].
  - exists calls. split; [done|]. apply Hinv'.
  - destruct (IH (S p') last' (run_copies st calls)) as (calls' & -> & Hs); [lia|done|].
    eexists. split; [reflexivity|]. unfold run_copies in *. by rewrite foldl_app.
Qed.

Lemma copy_statuses_spec st : exists calls, copy_statuses data copy_status = Some calls /\
  shared_from 0 (run_copies st calls).
Proof.
  destruct (copy_statuses_eq data copy_status) as [[Hl ->]|[Hl ->]].
  - exists []. split; [done|]. intros i i' x y _ _ Hx Hy. apply lookup_lt_Some in Hx as Hi. apply lookup_lt_Some in Hy as Hi'.
    replace i with 0%nat in Hx by lia. replace i' with 0%nat in Hy by lia. by simplify_eq.
  - assert (data !! pred (length data) = last data) as El by (by rewrite last_lookup).
    assert (is_Some (data !! pred (length data))) as [z Hz] by (apply lookup_lt_is_Some; lia).
    rewrite <- El, Hz, bind_Some_eq. apply status_loop_spec; [lia|].
    split; [|eauto|].
    + exists (pred (length data)). split; [done|]. split; [lia|]. intros _ _. split; [done|]. left.
      intros i x Hi Hx. apply lookup_lt_Some in Hx. lia.
    + intros i i' x y Hi Hi' Hx Hy. pose proof (lookup_lt_Some _ _ _ Hx). pose proof (lookup_lt_Some _ _ _ Hy).
      replace i with (pred (length data)) in Hx by lia. replace i' with (pred (length data)) in Hy by lia. by simplify_eq.
Qed.

End StatusProofs.

(** After [thr_multi_lock] all instances of one table share one status: for
    requests in any order, sorted as the code sorts them, and whatever upgrades
    the types got when the locks were taken, the copies stay inside the array,
    end, and leave every two instances of a lock with the same status. *)
Theorem multi_lock_status_shared data upd copy_status st :
  NoDup (r_id <$> data) -> (forall a, a ∈ data -> 0 <= tl (r_type a)) ->
  (forall a b, a ∈ data -> b ∈ data -> r_lock a < r_lock b -> r_lock a + 12 <= r_lock b) ->
  (forall a, r_id (upd a) = r_id a /\ r_lock (upd a) = r_lock a /\ (tl (r_type (upd a)) <= 4 <-> tl (r_type a) <= 4)) ->
  exists calls, copy_statuses (upd <$> sort_locks data) copy_status = Some calls /\
    forall a b, a ∈ data -> b ∈ data -> r_lock a = r_lock b -> copy_status (r_lock a) = true ->
      run_copies st calls (r_id a) = run_copies st calls (r_id b).
Proof.
  intros Hn Ht Hgap Hu. destruct (sort_locks_spec data Ht Hgap) as [Hp Hs].
  destruct (copy_statuses_spec (upd <$> sort_locks data) copy_status) with (st := st) as (calls & E & Hsh).
  - clear Hp. induction Hs as [|x l _ IH HF]; [constructor|]. rewrite fmap_cons. constructor; [done|].
    apply Forall_fmap. eapply Forall_impl; [exact HF|]. intros y Hy. unfold compose, lock_order.
    destruct (Hu x) as (_ & E2 & E3), (Hu y) as (_ & E5 & E6). rewrite E2, E5.
    destruct Hy as [Hy|[Hy Hty]]; [by left|right]. split; [done|]. rewrite E3, E6. lia.
  - rewrite <- list_fmap_compose. rewrite (list_fmap_ext (r_id ∘ upd) r_id (sort_locks data)), Hp; [done|].
    intros i x _. apply Hu.
  - exists calls. split; [done|]. intros a b Ha Hb Eab Hc. rewrite <- Hp in Ha, Hb.
    apply list_elem_of_lookup in Ha as [i Hi], Hb as [j Hj].
    destruct (Hu a) as (E1 & E2 & _), (Hu b) as (E3 & E4 & _). rewrite <- E1, <- E3.
    apply (Hsh i j); [lia|lia|by rewrite list_lookup_fmap, Hi|by rewrite list_lookup_fmap, Hj|congruence|by rewrite E2].
Qed.

Lemma multi_lock_status_shared_witness :
  exists calls, copy_statuses (id <$> sort_locks [mkRequest 1 1000 TL_READ; mkRequest 2 200 TL_WRITE; mkRequest 3 1000 TL_WRITE])
      (fun _ => true) = Some calls /\
    run_copies id calls 1 = run_copies id calls 3.
Proof.
  destruct (multi_lock_status_shared [mkRequest 1 1000 TL_READ; mkRequest 2 200 TL_WRITE; mkRequest 3 1000 TL_WRITE]
    id (fun _ => true) id) as (calls & E & H).
  - apply (bool_decide_unpack _). vm_compute. exact I.
  - intros a Ha%list_elem_of_In. simpl in Ha. intuition (subst; simpl; lia).
  - intros a b Ha%list_elem_of_In Hb%list_elem_of_In. simpl in Ha, Hb. intuition (subst; simpl in *; lia).
  - done.
  - exists calls. split; [exact E|].
    apply (H (mkRequest 1 1000 TL_READ) (mkRequest 3 1000 TL_WRITE)); [| |reflexivity|reflexivity];
      apply list_elem_of_In; simpl; auto.
Defined.

(** ** The threads *)

(** A call of [thr_multi_lock]: taking locks, waiting in [thr_lock] for one,
    or inside [thr_multi_unlock]. *)
Inductive phase :=
  | Locking (todo : list request)
  | Waiting (r : request) (todo : list request)
  | Releasing.

(** [t_held]: the requests that are locked, in the order of the array. *)
Record thread := mkThread { t_owner : THR_LOCK_OWNER; t_held : list request; t_phase : phase }.

(** The locks by their address, the threads by the address of their owner. *)
Record system := mkSystem { locks : gmap Z THR_LOCK; threads : gmap Z thread }.

Section System.
Context (upgraded : thr_lock_type) (max_write_lock_count : Z).

(** [if (count > 1) sort_locks(data, count)] *)
Definition multi_start (owner : THR_LOCK_OWNER) (data : list request) : thread :=
  mkThread owner [] (Locking (match data with [] | [_] => data | _ => sort_locks data end)).

(** One round of the loop that locks everything; a failure starts
    [thr_multi_unlock] of the locks before. *)
Definition multi_lock_next (k : THR_LOCK) (th : thread) (r : request) (todo : list request) (check_status : bool)
  : THR_LOCK * thread :=
  let '(k, _, out) := thr_lock upgraded k (r_id r) (t_owner th) (r_type r) check_status in
  (k, match out with
      | Returned THR_LOCK_SUCCESS => mkThread (t_owner th) (t_held th ++ [r]) (Locking todo)
      | Returned _ => mkThread (t_owner th) (t_held th) Releasing
      | Waits => mkThread (t_owner th) (t_held th) (Waiting r todo)
      end).

(** The return from the wait in that round. *)
Definition multi_lock_wake (k : THR_LOCK) (th : thread) (r : request) (todo : list request) (timeout : bool)
  : THR_LOCK * thread :=
  let '(k, _, result) := wait_for_lock_end k (r_id r) timeout in
  (k, match result with
      | THR_LOCK_SUCCESS => mkThread (t_owner th) (t_held th ++ [r]) (Locking todo)
      | _ => mkThread (t_owner th) (t_held th) Releasing
      end).

(** One round of [thr_multi_unlock]: an instance in no queue has the type
    TL_UNLOCK. *)
Definition multi_unlock_next (k : THR_LOCK) (th : thread) (r : request) (rest : list request) (check_status : bool)
  : THR_LOCK * thread :=
  (match List.find (fun d => d_id d =? r_id r) (instances k) with
   | Some d => (thr_unlock max_write_lock_count k d check_status).1
   | None => k
   end, mkThread (t_owner th) rest Releasing).

(** All requests of a call that are not released. *)
Definition requests_of (th : thread) : list request :=
  t_held th ++ match t_phase th with Locking todo => todo | Waiting r todo => r :: todo | Releasing => [] end.

Definition put_back (s : system) (a t : Z) (res : THR_LOCK * thread) : system :=
  mkSystem (<[a := res.1]> (locks s)) (<[t := res.2]> (threads s)).

(** What a call may ask for: types of locks (TL_WRITE_DELAYED is taken alone,
    by the delayed insert thread), each table once, for instances not in use. *)
Record good_call (s : system) (data : list request) : Prop := {
  gc_types : forall r, r ∈ data -> is_read (r_type r) \/ (is_write (r_type r) /\ r_type r <> TL_WRITE_DELAYED);
  gc_locks : forall r, r ∈ data -> is_Some (locks s !! r_lock r);
  gc_apart : forall a b, a ∈ data -> b ∈ data -> r_lock a < r_lock b -> r_lock a + 12 <= r_lock b;
  gc_once : NoDup (r_lock <$> data);
  gc_ids : NoDup (r_id <$> data);
  gc_fresh : forall t th r r', threads s !! t = Some th -> r ∈ data -> r' ∈ requests_of th -> r_id r <> r_id r'
}.

Inductive sys_step (s : system) : system -> Prop :=
  | sys_start owner data : threads s !! owner_addr owner = None -> good_call s data ->
      sys_step s (mkSystem (locks s) (<[owner_addr owner := multi_start owner data]> (threads s)))
  | sys_lock t th r todo k chk : threads s !! t = Some th -> t_phase th = Locking (r :: todo) ->
      locks s !! r_lock r = Some k -> Z.of_nat (length (instances k)) + 1 < 2 ^ 32 ->
      sys_step s (put_back s (r_lock r) t (multi_lock_next k th r todo chk))
  | sys_wake t th r todo k timeout : threads s !! t = Some th -> t_phase th = Waiting r todo ->
      locks s !! r_lock r = Some k ->
      sys_step s (put_back s (r_lock r) t (multi_lock_wake k th r todo timeout))
  | sys_all_locked t th : threads s !! t = Some th -> t_phase th = Locking [] ->
      sys_step s (mkSystem (locks s) (<[t := mkThread (t_owner th) (t_held th) Releasing]> (threads s)))
  | sys_unlock t th r rest k chk : threads s !! t = Some th -> t_phase th = Releasing -> t_held th = r :: rest ->
      locks s !! r_lock r = Some k ->
      sys_step s (put_back s (r_lock r) t (multi_unlock_next k th r rest chk))
  | sys_end t th : threads s !! t = Some th -> t_phase th = Releasing -> t_held th = [] ->
      sys_step s (mkSystem (locks s) (delete t (threads s)))
  | sys_abort a k : locks s !! a = Some k ->
      sys_step s (mkSystem (<[a := (thr_abort_locks k).1]> (locks s)) (threads s)).

(** From any locks that nobody uses. *)
Definition sys_reachable (s : system) : Prop :=
  exists s0, rtc sys_step s0 s /\ threads s0 = ∅ /\
    forall a k, locks s0 !! a = Some k -> exists chk, k = thr_lock_init chk.

End System.

(** The thread sleeps: its request is still queued. *)
Definition wids (k : THR_LOCK) : list Z := d_id <$> (read_wait k ++ write_wait k).

Definition blocked (s : system) (th : thread) (a : Z) : Prop :=
  exists r todo k, t_phase th = Waiting r todo /\ r_lock r = a /\ locks s !! a = Some k /\ r_id r ∈ wids k.

(** The requests that have reached their lock. *)
Definition active (th : thread) : list request :=
  t_held th ++ match t_phase th with Waiting r _ => [r] | _ => [] end.

(** [t] sleeps until a lock is released of which [t'] holds an instance. *)
Definition waits_for (s : system) (t t' : Z) : Prop :=
  exists th th' a k d r, threads s !! t = Some th /\ blocked s th a /\ locks s !! a = Some k /\
    d ∈ read k ++ write k /\ threads s !! t' = Some th' /\ r ∈ active th' /\ r_lock r = a /\ r_id r = d_id d.

(** ** What the operations of one lock do to its instances *)

Definition who (d : THR_LOCK_DATA) : Z * THR_LOCK_OWNER := (d_id d, d_owner d).

(** No instance comes in, and none goes back to a wait queue. *)
Definition evolves (k k' : THR_LOCK) : Prop :=
  (forall d', d' ∈ instances k' -> exists d, d ∈ instances k /\ who d = who d') /\
  (forall id, id ∈ wids k' -> id ∈ wids k).

#[export] Instance evolves_preorder : PreOrder evolves.
Proof.
  split; [split; eauto|]. intros k1 k2 k3 [H1 W1] [H2 W2]. split; [|auto].
  intros d' Hd. destruct (H2 d' Hd) as (d2 & Hd2 & E2). destruct (H1 d2 Hd2) as (d1 & Hd1 & E1).
  exists d1. split; [done|congruence].
Qed.

Lemma elem_of_instances d k :
  d ∈ instances k <-> d ∈ read_wait k \/ d ∈ read k \/ d ∈ write_wait k \/ d ∈ write k.
Proof. unfold instances. rewrite !elem_of_app. tauto. Qed.

Lemma elem_of_wids id k : id ∈ wids k <-> exists d, (d ∈ read_wait k \/ d ∈ write_wait k) /\ d_id d = id.
Proof. unfold wids. rewrite list_elem_of_fmap. setoid_rewrite elem_of_app. firstorder. Qed.

(** Enough to look at the queues one by one. *)
Lemma evolves_intro k k' :
  (forall d', d' ∈ read_wait k' -> exists d, d ∈ read_wait k /\ who d = who d') ->
  (forall d', d' ∈ write_wait k' -> exists d, d ∈ write_wait k /\ who d = who d') ->
  (forall d', d' ∈ read k' -> exists d, d ∈ instances k /\ who d = who d') ->
  (forall d', d' ∈ write k' -> exists d, d ∈ instances k /\ who d = who d') -> evolves k k'.
Proof.
  intros H1 H2 H3 H4. split.
  - intros d' [Hd|[Hd|[Hd|Hd]]]%elem_of_instances; auto.
    + destruct (H1 d' Hd) as (d & ? & ?). exists d. rewrite elem_of_instances. auto.
    + destruct (H2 d' Hd) as (d & ? & ?). exists d. rewrite elem_of_instances. auto.
  - intros id (d' & Hd & <-)%elem_of_wids. apply elem_of_wids.
    destruct Hd as [Hd|Hd]; [destruct (H1 d' Hd) as (d & ? & [= ? ?])|destruct (H2 d' Hd) as (d & ? & [= ? ?])]; eauto.
Qed.

Lemma free_reads_who u l count given kept c calls : free_reads u l count = (given, kept, c, calls) ->
  (forall d', d' ∈ kept -> d' ∈ l) /\ (forall d', d' ∈ given -> exists d, d ∈ l /\ who d = who d').
Proof.
  revert count given kept c calls. induction l as [|x l IH]; intros count given kept c calls; cbn [free_reads].
  - intros [= <- <- <- <-]. split; intros d' Hd; by apply not_elem_of_nil in Hd.
  - case_if.
    + destruct (free_reads u l count) as [[[g kp] c'] cl] eqn:Ef. intros [= <- <- <- <-].
      destruct (IH _ _ _ _ _ Ef) as [H1 H2]. split.
      * intros d' [->|Hd]%elem_of_cons; apply elem_of_cons; auto.
      * intros d' Hd. destruct (H2 d' Hd) as (d & ? & ?). exists d. rewrite elem_of_cons. auto.
    + set (n := if teq _ _ then _ else _). destruct (free_reads u l n) as [[[g kp] c'] cl] eqn:Ef. intros [= <- <- <- <-].
      destruct (IH _ _ _ _ _ Ef) as [H1 H2]. split; [intros d' Hd; apply elem_of_cons; auto|].
      intros d' [->|Hd]%elem_of_cons; [exists x; rewrite elem_of_cons; auto|].
      destruct (H2 d' Hd) as (d & ? & ?). exists d. rewrite elem_of_cons. auto.
Qed.

Lemma free_all_evolves k u : evolves k (free_all_read_locks k u).1.
Proof.
  unfold free_all_read_locks. destruct (free_reads _ _ _) as [[[given kept] c] calls] eqn:E.
  destruct (free_reads_who _ _ _ _ _ _ _ E) as [H1 H2]. apply evolves_intro; cbn; intros d' Hd.
  - eauto.
  - eauto.
  - apply elem_of_app in Hd as [Hd|Hd]; [exists d'; rewrite elem_of_instances; auto|].
    destruct (H2 d' Hd) as (d & ? & ?). exists d. rewrite elem_of_instances. auto.
  - exists d'. rewrite elem_of_instances. auto.
Qed.

Lemma free_waiting_evolves k u : evolves k (free_waiting_reads k u).1.
Proof. unfold free_waiting_reads. destruct (read_wait k); [done|apply free_all_evolves]. Qed.

Lemma give_evolves k upgrade data rest given last rest' : write_wait k = data :: rest ->
  give_writes upgrade data rest = (given, last, rest') ->
  evolves k (set_write (write k ++ given) (set_write_wait rest' k)).
Proof.
  intros Hw Hg. destruct (give_writes_spec _ _ _ _ _ _ Hg) as (pre & E & -> & _). apply evolves_intro; cbn; intros d' Hd.
  - eauto.
  - exists d'. split; [|done]. rewrite Hw, E. apply elem_of_app. by right.
  - exists d'. rewrite elem_of_instances. auto.
  - apply elem_of_app in Hd as [Hd|Hd]; [exists d'; rewrite elem_of_instances; auto|].
    change (d' ∈ give upgrade <$> (data :: pre)) in Hd.
    apply list_elem_of_fmap in Hd as (d & -> & Hd). exists d. rewrite elem_of_instances, Hw, E, elem_of_app.
    split; [auto|]. unfold give, who. by case_if.
Qed.

(** The instance released is gone from all queues. *)
Lemma release_perm k data : core k -> data ∈ read k \/ data ∈ write k ->
  instances k ≡ₚ data :: instances (release k data).
Proof.
  intros Hc Hin. pose proof (c_nodup _ Hc) as Hn. unfold release, unlink_data. destruct Hin as [Hin|Hin].
  - destruct (elem_part _ _ _ (c_read _ Hc) Hin) as [Ht _].
    destruct (tle_spec (d_type data) TL_READ_NO_INSERT) as [|H]; [|unfold is_read in Ht; simpl in H; lia].
    assert (NoDup (d_id <$> read k)) as Hnd by (eapply (nodup_part _ (read_wait k)), Hn).
    pose proof (unlink_permutation _ _ Hnd Hin) as Hp.
    case_if; unfold instances; cbn; rewrite Hp at 1; solve_Permutation.
  - destruct (elem_part _ _ _ (c_write _ Hc) Hin) as [Ht Hcond]. rewrite Hcond, andb_false_r.
    destruct (tle_spec (d_type data) TL_READ_NO_INSERT) as [H|_]; [unfold is_write in Ht; simpl in H; lia|].
    assert (NoDup (d_id <$> write k)) as Hnd.
    { eapply NoDup_sub, Hn. unfold instances. rewrite !fmap_app. solve_submseteq. }
    pose proof (unlink_permutation _ _ Hnd Hin) as Hp.
    case_if; unfold instances; cbn; rewrite Hp at 1; solve_Permutation.
Qed.

Lemma release_evolves k data : core k -> data ∈ read k \/ data ∈ write k ->
  evolves k (release k data) /\ forall d', d' ∈ instances (release k data) -> d_id d' <> d_id data.
Proof.
  intros Hc Hin. split.
  - unfold release, unlink_data. repeat case_if; (apply evolves_intro; cbn; intros d' Hd; try apply elem_of_unlink in Hd;
      exists d'; rewrite ?elem_of_instances; auto).
  - intros d' Hd E. pose proof (c_nodup _ Hc) as Hn. rewrite (release_perm k data Hc Hin), fmap_cons in Hn.
    apply NoDup_cons in Hn as [Hn _]. apply Hn. rewrite <- E. by apply list_elem_of_fmap_2.
Qed.

Lemma unlock_none_evolves mx k chk : evolves k (unlock_none_left mx k chk).1.
Proof.
  unfold unlock_none_left. destruct (write_wait k) as [|data rest] eqn:Hw; [apply free_waiting_evolves|].
  case_if; [|apply free_waiting_evolves]. cbv zeta. set (wc := if mx <? write_lock_count k then 0 else _).
  assert (evolves k (set_write_count wc k)) as H0 by (apply evolves_intro; cbn; intros d' Hd; exists d'; rewrite ?elem_of_instances; auto).
  assert (evolves k (let '(given, last, rest) := give_writes chk data rest in
    let k := set_write (write (set_write_count wc k) ++ given) (set_write_wait rest (set_write_count wc k)) in
    let calls := (fun d => Signal (d_id d)) <$> given in
    if tle TL_WRITE_LOW_PRIORITY (d_type last) then (k, calls)
    else let '(k, calls') := free_waiting_reads k
           (teq (d_type last) TL_WRITE_CONCURRENT_INSERT || teq (d_type last) TL_WRITE_ALLOW_WRITE) in
         (k, calls ++ calls')).1) as Hgive.
  { destruct (give_writes chk data rest) as [[given last] rest'] eqn:Hg. cbv zeta.
    assert (evolves k (set_write (write (set_write_count wc k) ++ given) (set_write_wait rest' (set_write_count wc k)))) as H1.
    { etrans; [exact H0|]. by eapply (give_evolves (set_write_count wc k)). }
    destruct (tle TL_WRITE_LOW_PRIORITY (d_type last)); [done|]. rewrite fst_let_pair. etrans; [exact H1|apply free_waiting_evolves]. }
  destruct (mx <? write_lock_count k), (read_wait (set_write_count wc k)); try done. etrans; [exact H0|apply free_all_evolves].
Qed.

Lemma unlock_reads_evolves k chk : evolves k (unlock_reads_left k chk).1.
Proof.
  unfold unlock_reads_left. destruct (write_wait k) as [|data rest] eqn:Hw; [apply free_waiting_evolves|]. cbv zeta.
  case_if; [|done]. case_if.
  - transitivity (set_write_wait (set_type TL_WRITE data :: rest) k); [|apply free_waiting_evolves].
    apply evolves_intro; cbn; intros d' Hd; [|rewrite Hw|..]; try (exists d'; rewrite ?elem_of_instances; by auto).
    apply elem_of_cons in Hd as [->|Hd]; [exists data|exists d']; rewrite elem_of_cons; auto.
  - destruct (give_writes false data rest) as [[given last] rest'] eqn:Hg. rewrite fst_let_pair.
    etrans; [exact (give_evolves k _ _ _ _ _ _ Hw Hg)|apply free_waiting_evolves].
Qed.

Lemma thr_unlock_evolves mx k data chk : core k -> data ∈ read k \/ data ∈ write k ->
  evolves k (thr_unlock mx k data chk).1 /\
  forall d', d' ∈ instances (thr_unlock mx k data chk).1 -> d_id d' <> d_id data.
Proof.
  intros Hc Hin. destruct (release_evolves k data Hc Hin) as [He Hid].
  assert (evolves (release k data) (thr_unlock mx k data chk).1) as Hu.
  { unfold thr_unlock. cbv zeta. destruct (write (release k data)), (read (release k data)); try done; rewrite fst_let_pair;
      [apply unlock_none_evolves|apply unlock_reads_evolves]. }
  split; [by etrans|]. intros d' Hd. destruct (proj1 Hu d' Hd) as (d & Hd0 & [= <- _]). auto.
Qed.

Lemma abort_evolves k : evolves k (thr_abort_locks k).1.
Proof.
  apply evolves_intro; cbn; intros d' Hd; try by apply not_elem_of_nil in Hd.
  - exists d'. rewrite elem_of_instances. auto.
  - destruct (write k) as [|w l] eqn:E; [by apply not_elem_of_nil in Hd|].
    apply elem_of_cons in Hd as [->|Hd]; [exists w|exists d']; rewrite elem_of_instances, E, elem_of_cons; auto 10.
Qed.

(** The end of a wait: with success the instance is no longer queued, else it
    is gone. *)
Lemma wait_end_evolves k id timeout : NoDup (d_id <$> instances k) ->
  evolves k (wait_for_lock_end k id timeout).1.1 /\
  match (wait_for_lock_end k id timeout).2 with
  | THR_LOCK_SUCCESS => id ∉ wids (wait_for_lock_end k id timeout).1.1
  | _ => forall d', d' ∈ instances (wait_for_lock_end k id timeout).1.1 -> d_id d' <> id
  end.
Proof.
  intros Hn. unfold wait_for_lock_end.
  assert (forall l, existsb (fun d => d_id d =? id) l = true <-> exists d, d ∈ l /\ d_id d = id) as Hex.
  { intros l. rewrite existsb_exists. setoid_rewrite list_elem_of_In. setoid_rewrite Z.eqb_eq. done. }
  destruct (existsb _ (read_wait k ++ write_wait k)) eqn:E1.
  - apply Hex in E1 as (d0 & Hd0 & E0). split.
    + apply evolves_intro; cbn; intros d' Hd; try apply elem_of_unlink in Hd; exists d'; rewrite ?elem_of_instances; auto.
    + assert (forall d', d' ∈ read k ++ write k -> d_id d' <> id) as Hother.
      { intros d' Hd E. unfold instances in Hn.
        assert (read_wait k ++ read k ++ write_wait k ++ write k ≡ₚ (read_wait k ++ write_wait k) ++ (read k ++ write k)) as Hp by solve_Permutation.
        rewrite Hp, fmap_app in Hn. apply NoDup_app in Hn as (_ & Hdis & _).
        apply (Hdis id); [rewrite <- E0|rewrite <- E]; by apply list_elem_of_fmap_2. }
      assert (forall d', d' ∈ instances (set_read_wait (unlink id (read_wait k)) (set_write_wait (unlink id (write_wait k)) k)) -> d_id d' <> id) as H.
      { intros d'. rewrite elem_of_instances. cbn. intros [Hd|[Hd|[Hd|Hd]]]; try (apply Hother; apply elem_of_app; by auto);
          by apply list_elem_of_filter in Hd as [? _]. }
      destruct timeout; exact H.
  - assert (id ∉ wids k) as Hw.
    { intros (d & Hd & E)%elem_of_wids. assert (existsb (fun d => d_id d =? id) (read_wait k ++ write_wait k) = true) as H; [|congruence].
      apply Hex. exists d. rewrite elem_of_app. auto. }
    destruct (existsb _ (read k ++ write k)) eqn:E2; cbn; (split; [done|]); [done|].
    intros d' Hd E. apply elem_of_instances in Hd.
    assert (exists l, existsb (fun d => d_id d =? id) l = true /\ (l = read_wait k ++ write_wait k \/ l = read k ++ write k)) as (l & Hl & [-> | ->]); [|congruence..].
    destruct Hd as [Hd|[Hd|[Hd|Hd]]];
      [exists (read_wait k ++ write_wait k)|exists (read k ++ write k)|exists (read_wait k ++ write_wait k)|exists (read k ++ write k)];
      (split; [|by auto]); apply Hex; exists d'; rewrite elem_of_app; auto.
Qed.

(** A request adds its instance, held or queued, or fails without a trace. *)
Definition request_effect (k : THR_LOCK) (id : Z) (owner : THR_LOCK_OWNER) (res : THR_LOCK * list call * outcome) : Prop :=
  let '(k', _, out) := res in
  match out with
  | Returned THR_LOCK_SUCCESS =>
      wids k' = wids k /\ forall d', d' ∈ instances k' -> d' ∈ instances k \/ who d' = (id, owner)
  | Waits =>
      (forall i, i ∈ wids k' -> i ∈ wids k \/ i = id) /\
      forall d', d' ∈ instances k' -> d' ∈ instances k \/ who d' = (id, owner)
  | Returned _ => k' = k
  end.

Section Effect.
Context (k : THR_LOCK) (data : THR_LOCK_DATA).
Abbreviation effect := (request_effect k (d_id data) (d_owner data)).

(** Split on the condition of the request. *)
Ltac outer_branch :=
  lazymatch goal with |- request_effect _ _ _ (if ?b then _ else _) => destruct b end.

Lemma grant_read_effect : effect (grant_read k data).
Proof.
  unfold grant_read. cbv zeta. split; [by case_if|]. intros d'. rewrite !elem_of_instances.
  case_if; cbn; rewrite elem_of_app, list_elem_of_singleton; intros Hd; intuition (subst; auto).
Qed.

Lemma grant_write_effect t c : effect (grant_write k (set_type t data) c).
Proof.
  unfold grant_write. split; [done|]. intros d'. rewrite !elem_of_instances.
  cbn. rewrite elem_of_app, list_elem_of_singleton. intros Hd; intuition (subst; auto).
Qed.

Lemma wait_effect owner enqueue : enqueue = set_read_wait (read_wait k ++ [set_cond true data]) k \/
    (exists t, enqueue = set_write_wait (write_wait k ++ [set_cond true (set_type t data)]) k) ->
  effect (wait_or_deadlock k owner enqueue).
Proof.
  intros H. assert (effect (enqueue, [], Waits)) as Hq.
  { unfold request_effect. setoid_rewrite elem_of_wids. setoid_rewrite elem_of_instances. split.
    - intros i (d & Hd & <-). destruct H as [-> |[t ->]]; cbn in Hd; rewrite elem_of_app, list_elem_of_singleton in Hd;
        intuition (subst; eauto).
    - intros d Hd. destruct H as [-> |[t ->]]; cbn in Hd; rewrite elem_of_app, list_elem_of_singleton in Hd;
        intuition (subst; eauto). }
  unfold wait_or_deadlock. destruct (head _); [case_if|]; done.
Qed.

Lemma set_type_id : set_type (d_type data) data = data.
Proof. by destruct data. Qed.

Lemma thr_lock_read_effect : effect (thr_lock_read k data).
Proof.
  unfold thr_lock_read. cbv zeta. destruct (write k).
  - outer_branch; [apply grant_read_effect|apply wait_effect; by left].
  - outer_branch; [apply grant_read_effect|]. outer_branch; [done|apply wait_effect; by left].
Qed.

Lemma thr_lock_write_effect upgraded chk : d_type data <> TL_WRITE_DELAYED -> effect (thr_lock_write upgraded k data chk).
Proof.
  intros Hty. unfold thr_lock_write. cbv zeta. destruct (teq_spec (d_type data) TL_WRITE_DELAYED) as [|_]; [done|].
  cbn [andb]. set (data1 := if teq (d_type data) TL_WRITE_CONCURRENT_INSERT && _ then _ else _).
  assert (exists t, data1 = set_type t data) as [t Et] by (unfold data1; case_if; [by eexists|exists (d_type data); by rewrite set_type_id]).
  clearbody data1. subst data1. destruct (write k).
  - destruct (write_wait k) eqn:Ew.
    + set (data2 := if teq _ TL_WRITE_CONCURRENT_INSERT && chk then _ else _).
      assert (exists t, data2 = set_type t data) as [t2 Et2] by (unfold data2; case_if; by eexists).
      clearbody data2. subst data2. outer_branch; [apply grant_write_effect|]. apply wait_effect. right. exists t2. by rewrite Ew.
    + apply wait_effect. right. exists t. by rewrite Ew.
  - outer_branch; [done|]. outer_branch; [apply grant_write_effect|]. apply wait_effect. right. by exists t.
Qed.

End Effect.

Lemma thr_lock_effect upgraded k id owner lock_type chk : lock_type <> TL_WRITE_DELAYED ->
  request_effect k id owner (thr_lock upgraded k id owner lock_type chk).
Proof.
  intros Hty. unfold thr_lock. cbv zeta. case_if.
  - apply (thr_lock_read_effect k (mkData id owner lock_type false)).
  - by apply (thr_lock_write_effect k (mkData id owner lock_type false)).
Qed.

(** ** The invariant of the system *)

Record sys_inv (s : system) : Prop := {
  i_locks : forall a k, locks s !! a = Some k -> lock_inv k;
  i_instance : forall a k d, locks s !! a = Some k -> d ∈ instances k ->
    exists t th r, threads s !! t = Some th /\ r ∈ active th /\ who d = (r_id r, t_owner th) /\ r_lock r = a;
  i_key : forall t th, threads s !! t = Some th -> owner_addr (t_owner th) = t;
  i_sorted : forall t th, threads s !! t = Some th -> StronglySorted (fun a b => r_lock a < r_lock b) (requests_of th);
  i_unique : forall t th r t' th' r', threads s !! t = Some th -> threads s !! t' = Some th' ->
    r ∈ requests_of th -> r' ∈ requests_of th' -> r_id r = r_id r' -> t = t' /\ r = r';
  i_types : forall t th r, threads s !! t = Some th -> r ∈ requests_of th ->
    is_read (r_type r) \/ (is_write (r_type r) /\ r_type r <> TL_WRITE_DELAYED);
  i_held : forall t th r k, threads s !! t = Some th -> r ∈ t_held th -> locks s !! r_lock r = Some k -> r_id r ∉ wids k
}.

Lemma sorted_sublist {A} (R : A -> A -> Prop) l l' : l' `sublist_of` l -> StronglySorted R l -> StronglySorted R l'.
Proof.
  induction 1 as [|x l l' Hs IH|x l l' Hs IH]; intros H; [done| |].
  - apply StronglySorted_inv in H as [H HF]. constructor; [auto|]. rewrite Forall_forall in *.
    intros y Hy. apply HF. by eapply elem_of_sublist.
  - apply StronglySorted_inv in H as [H _]. auto.
Qed.

Lemma active_requests th r : r ∈ active th -> r ∈ requests_of th.
Proof.
  unfold active, requests_of. rewrite !elem_of_app. intros [H|H]; [by left|right].
  destruct (t_phase th); [by apply not_elem_of_nil in H| |by apply not_elem_of_nil in H].
  apply list_elem_of_singleton in H as ->. left.
Qed.

Lemma held_active th r : r ∈ t_held th -> r ∈ active th.
Proof. unfold active. rewrite elem_of_app. auto. Qed.

(** A step of one thread at one lock keeps the invariant if the thread goes on
    with a part of its requests and the lock gains no foreign instance. *)
Lemma inv_step_at s a t k th k' th' : sys_inv s -> locks s !! a = Some k -> threads s !! t = Some th ->
  lock_inv k' -> t_owner th' = t_owner th -> requests_of th' `sublist_of` requests_of th ->
  (forall r, r ∈ active th -> r_lock r <> a -> r ∈ active th') ->
  (forall d', d' ∈ instances k' ->
     (exists d, d ∈ instances k /\ who d = who d' /\ forall r, r ∈ active th -> r_id r = d_id d' -> r ∈ active th') \/
     (exists r, r ∈ active th' /\ who d' = (r_id r, t_owner th) /\ r_lock r = a)) ->
  (forall id, id ∈ wids k' -> id ∈ wids k \/ exists r, r ∈ requests_of th /\ r_id r = id) ->
  (forall r, r ∈ t_held th' -> r_lock r = a -> r_id r ∉ wids k') ->
  (forall r, r ∈ t_held th' -> r_lock r <> a -> r ∈ t_held th) ->
  sys_inv (put_back s a t (k', th')).
Proof.
  intros Hi Hk Hth Hk' Ho Hsub Hact Hinst Hw Hh1 Hh2.
  assert (forall r, r ∈ requests_of th' -> r ∈ requests_of th) as Hreq.
  { intros r Hr. by eapply elem_of_sublist. }
  assert (forall t1 th1, <[t := th']> (threads s) !! t1 = Some th1 ->
    t1 = t /\ th1 = th' \/ t1 <> t /\ threads s !! t1 = Some th1) as Hcase.
  { intros t1 th1 H1. destruct (decide (t1 = t)) as [->|]; [rewrite lookup_insert_eq in H1|rewrite lookup_insert_ne in H1 by done];
      [left|right]; by simplify_eq. }
  split; unfold put_back; cbn [locks threads fst snd].
  - intros a1 k1. destruct (decide (a1 = a)) as [->|]; [rewrite lookup_insert_eq; by intros [= <-]|].
    rewrite lookup_insert_ne by done. apply Hi.
  - intros a1 k1 d'. destruct (decide (a1 = a)) as [->|Hne].
    + rewrite lookup_insert_eq. intros [= <-] Hd. destruct (Hinst d' Hd) as [(d & Hd0 & Ew & Hkeep)|(r & Hr & Ew & Ea)].
      * destruct (i_instance s Hi a k d Hk Hd0) as (t1 & th1 & r & Ht1 & Hr & E & Ea). rewrite Ew in E.
        destruct (decide (t1 = t)) as [->|Hne]; [simplify_eq|].
        -- exists t, th', r. rewrite lookup_insert_eq, Ho. split; [done|]. split; [|done]. apply Hkeep; [done|]. by injection E.
        -- exists t1, th1, r. by rewrite lookup_insert_ne.
      * exists t, th', r. by rewrite lookup_insert_eq, Ho.
    + rewrite lookup_insert_ne by done. intros Hk1 Hd.
      destruct (i_instance s Hi a1 k1 d' Hk1 Hd) as (t1 & th1 & r & Ht1 & Hr & E & Ea).
      destruct (decide (t1 = t)) as [->|]; [simplify_eq; exists t, th', r; rewrite lookup_insert_eq, Ho; auto 10|].
      exists t1, th1, r. by rewrite lookup_insert_ne.
  - intros t1 th1 [[-> ->]|[_ H1]]%Hcase; [rewrite Ho|]; by apply Hi.
  - intros t1 th1 [[-> ->]|[_ H1]]%Hcase; [|by eapply Hi]. pose proof (i_sorted s Hi t th Hth) as Hs.
    by eapply sorted_sublist.
  - intros t1 th1 r1 t2 th2 r2 H1 H2 Hr1 Hr2 E.
    destruct (Hcase _ _ H1) as [[-> ->]|[_ H1']], (Hcase _ _ H2) as [[-> ->]|[_ H2']];
      eapply (i_unique s Hi); eauto.
  - intros t1 th1 r [[-> ->]|[_ H1]]%Hcase Hr; eapply (i_types s Hi); eauto.
  - intros t1 th1 r k1 H1 Hr Hk1. destruct (decide (r_lock r = a)) as [Ea|Ea].
    + rewrite Ea, lookup_insert_eq in Hk1. injection Hk1 as <-. destruct (Hcase _ _ H1) as [[-> ->]|[Hne H1']]; [by apply Hh1|].
      intros Hin. destruct (Hw _ Hin) as [Hin'|(r' & Hr' & E)]; [eapply (i_held s Hi); eauto; by rewrite Ea|].
      assert (r ∈ requests_of th1) as Hr1 by (unfold requests_of; apply elem_of_app; by left).
      destruct (i_unique s Hi t th r' t1 th1 r Hth H1' Hr' Hr1 E). congruence.
    + rewrite lookup_insert_ne in Hk1 by done. destruct (Hcase _ _ H1) as [[-> ->]|[_ H1']]; eapply (i_held s Hi); eauto.
Qed.

(** A step that changes a lock only. *)
Lemma inv_lock_only s a k k' : sys_inv s -> locks s !! a = Some k -> lock_inv k' -> evolves k k' ->
  sys_inv (mkSystem (<[a := k']> (locks s)) (threads s)).
Proof.
  intros Hi Hk Hk' [He Hw]. split; cbn; try apply Hi.
  - intros a1 k1. destruct (decide (a1 = a)) as [->|]; [rewrite lookup_insert_eq; by intros [= <-]|].
    rewrite lookup_insert_ne by done. apply Hi.
  - intros a1 k1 d'. destruct (decide (a1 = a)) as [->|]; [|rewrite lookup_insert_ne by done; apply Hi].
    rewrite lookup_insert_eq. intros [= <-] Hd. destruct (He d' Hd) as (d & Hd0 & <-). by eapply Hi.
  - intros t th r k1 Ht Hr. destruct (decide (r_lock r = a)) as [Ea|]; [|rewrite lookup_insert_ne by done; by eapply Hi].
    rewrite Ea, lookup_insert_eq. intros [= <-] Hin. apply Hw in Hin. eapply (i_held s Hi); eauto. by rewrite Ea.
Qed.

(** A step of a thread that touches no lock. *)
Lemma inv_thread_only s t th th' : sys_inv s -> threads s !! t = Some th -> t_owner th' = t_owner th ->
  t_held th' = t_held th -> (forall r, r ∈ active th -> r ∈ active th') -> requests_of th' `sublist_of` requests_of th ->
  sys_inv (mkSystem (locks s) (<[t := th']> (threads s))).
Proof.
  intros Hi Hth Ho Hh Hact Hsub.
  assert (forall t1 th1, <[t := th']> (threads s) !! t1 = Some th1 -> exists th0, threads s !! t1 = Some th0 /\
    t_owner th1 = t_owner th0 /\ t_held th1 = t_held th0 /\ requests_of th1 `sublist_of` requests_of th0) as Hcase.
  { intros t1 th1 H1. destruct (decide (t1 = t)) as [->|]; [rewrite lookup_insert_eq in H1; simplify_eq; eauto|].
    rewrite lookup_insert_ne in H1 by done. exists th1. auto. }
  split; cbn; try apply Hi.
  - intros a k d Hk Hd. destruct (i_instance s Hi a k d Hk Hd) as (t1 & th1 & r & Ht1 & Hr & E & Ea).
    destruct (decide (t1 = t)) as [->|]; [simplify_eq; exists t, th', r; rewrite lookup_insert_eq, Ho; auto|].
    exists t1, th1, r. by rewrite lookup_insert_ne.
  - intros t1 th1 (th0 & H0 & -> & _)%Hcase. by apply Hi.
  - intros t1 th1 (th0 & H0 & _ & _ & Hs)%Hcase. eapply sorted_sublist; [done|]. by eapply Hi.
  - intros t1 th1 r1 t2 th2 r2 (th3 & H3 & _ & _ & Hs3)%Hcase (th4 & H4 & _ & _ & Hs4)%Hcase Hr1 Hr2.
    eapply (i_unique s Hi); eauto using elem_of_sublist.
  - intros t1 th1 r (th0 & H0 & _ & _ & Hs)%Hcase Hr. eapply (i_types s Hi); eauto using elem_of_sublist.
  - intros t1 th1 r k (th0 & H0 & _ & E & _)%Hcase. rewrite E. by apply (i_held s Hi t1).
Qed.

(** A thread that ends has no request at a lock. *)
Lemma inv_thread_end s t th : sys_inv s -> threads s !! t = Some th -> active th = [] ->
  sys_inv (mkSystem (locks s) (delete t (threads s))).
Proof.
  intros Hi Hth Ha. assert (forall t1 th1, delete t (threads s) !! t1 = Some th1 -> threads s !! t1 = Some th1) as Hd.
  { intros t1 th1. by intros [_ ?]%lookup_delete_Some. }
  split; cbn.
  - apply Hi.
  - intros a k d Hk Hdk. destruct (i_instance s Hi a k d Hk Hdk) as (t1 & th1 & r & Ht1 & Hr & E).
    exists t1, th1, r. split; [|done]. apply lookup_delete_Some. split; [|done]. intros ->. simplify_eq.
    rewrite Ha in Hr. by apply not_elem_of_nil in Hr.
  - intros t1 th1 H1. by apply (i_key s Hi), Hd.
  - intros t1 th1 H1. by eapply (i_sorted s Hi), Hd.
  - intros t1 th1 r1 t2 th2 r2 H1 H2. eapply (i_unique s Hi); by apply Hd.
  - intros t1 th1 r H1. eapply (i_types s Hi). by apply Hd.
  - intros t1 th1 r k H1. eapply (i_held s Hi). by apply Hd.
Qed.

(** A new call. *)
Lemma multi_start_requests owner data : (forall a, a ∈ data -> 0 <= tl (r_type a)) ->
  (forall a b, a ∈ data -> b ∈ data -> r_lock a < r_lock b -> r_lock a + 12 <= r_lock b) -> NoDup (r_lock <$> data) ->
  requests_of (multi_start owner data) ≡ₚ data /\
  StronglySorted (fun a b => r_lock a < r_lock b) (requests_of (multi_start owner data)).
Proof.
  intros Ht Hgap Hn. unfold requests_of, multi_start. cbn.
  assert (sort_locks data ≡ₚ data /\ StronglySorted (fun a b => r_lock a < r_lock b) (sort_locks data)) as H.
  { destruct (sort_locks_spec data Ht Hgap) as [Hp Hs]. split; [done|]. rewrite <- Hp in Hn. clear Hp.
    induction Hs as [|x l _ IH HF]; [constructor|]. rewrite fmap_cons in Hn. apply NoDup_cons in Hn as [Hx Hn].
    constructor; [auto|]. rewrite Forall_forall in *. intros y Hy. destruct (HF y Hy) as [|[E _]]; [done|].
    exfalso. apply Hx. rewrite E. by apply list_elem_of_fmap_2. }
  destruct data as [|x [|y l]]; [by repeat constructor..|done].
Qed.

Lemma inv_start s owner data : sys_inv s -> threads s !! owner_addr owner = None -> good_call s data ->
  sys_inv (mkSystem (locks s) (<[owner_addr owner := multi_start owner data]> (threads s))).
Proof.
  intros Hi Hnone [Hty _ Hap Honce Hids Hfresh].
  destruct (multi_start_requests owner data) as [Hp Hs]; [|done..|].
  { intros a Ha. destruct (Hty a Ha) as [H|[H _]]; unfold is_read, is_write in H; lia. }
  assert (forall r, r ∈ requests_of (multi_start owner data) -> r ∈ data) as Hin by (intros r Hr; by rewrite <- Hp).
  assert (forall t1 th1, <[owner_addr owner := multi_start owner data]> (threads s) !! t1 = Some th1 ->
    t1 = owner_addr owner /\ th1 = multi_start owner data \/ threads s !! t1 = Some th1) as Hcase.
  { intros t1 th1 H1. destruct (decide (t1 = owner_addr owner)) as [->|];
      [rewrite lookup_insert_eq in H1|rewrite lookup_insert_ne in H1 by done]; [left|right]; by simplify_eq. }
  split; cbn; try apply Hi.
  - intros a k d Hk Hd. destruct (i_instance s Hi a k d Hk Hd) as (t1 & th1 & r & Ht1 & Hr).
    exists t1, th1, r. rewrite lookup_insert_ne; [done|congruence].
  - intros t1 th1 [[-> ->]|H1]%Hcase; [done|by apply Hi].
  - intros t1 th1 [[-> ->]|H1]%Hcase; [done|by eapply Hi].
  - intros t1 th1 r1 t2 th2 r2 H1 H2 Hr1 Hr2 E.
    destruct (Hcase _ _ H1) as [[-> ->]|H1'], (Hcase _ _ H2) as [[-> ->]|H2'].
    + split; [done|]. apply Hin, list_elem_of_lookup in Hr1 as [i Hi1]. apply Hin, list_elem_of_lookup in Hr2 as [j Hj1].
      assert (i = j) as ->; [|congruence]. eapply (NoDup_lookup _ i j (r_id r1) Hids); rewrite list_lookup_fmap; [by rewrite Hi1|by rewrite Hj1, E].
    + by destruct (Hfresh t2 th2 r1 r2 H2' (Hin _ Hr1) Hr2).
    + by destruct (Hfresh t1 th1 r2 r1 H1' (Hin _ Hr2) Hr1).
    + by eapply (i_unique s Hi).
  - intros t1 th1 r [[-> ->]|H1]%Hcase Hr; [by apply Hty, Hin|by eapply (i_types s Hi)].
  - intros t1 th1 r k [[-> ->]|H1]%Hcase Hr; [by apply not_elem_of_nil in Hr|by eapply (i_held s Hi)].
Qed.

Section Steps.
Context (upgraded : thr_lock_type) (max_write_lock_count : Z).
Hypothesis Hup : upgraded = TL_WRITE \/ upgraded = TL_WRITE_LOW_PRIORITY.

Abbreviation Step := (sys_step upgraded max_write_lock_count).

(** The locks held are before the one asked for. *)
Lemma held_before held r todo x : StronglySorted (fun a b => r_lock a < r_lock b) (held ++ r :: todo) ->
  x ∈ held -> r_lock x < r_lock r.
Proof.
  intros Hs Hx. apply StronglySorted_app in Hs as (H & _ & _). apply H; [done|]. left.
Qed.

(** A thread that asks for a lock has no instance there. *)
Lemma asks_fresh s t th r todo k d : sys_inv s -> threads s !! t = Some th -> t_phase th = Locking (r :: todo) ->
  locks s !! r_lock r = Some k -> d ∈ instances k -> owner_addr (d_owner d) <> t /\ d_id d <> r_id r.
Proof.
  intros Hi Hth Hph Hk Hd. pose proof (i_sorted s Hi t th Hth) as Hs. unfold requests_of in Hs. rewrite Hph in Hs.
  destruct (i_instance s Hi _ k d Hk Hd) as (t1 & th1 & r1 & Ht1 & Hr1 & [= E1 E2] & Ea).
  assert (t1 <> t) as Hne.
  { intros ->. simplify_eq. unfold active in Hr1. rewrite Hph, app_nil_r in Hr1.
    pose proof (held_before _ _ _ _ Hs Hr1). lia. }
  split.
  - rewrite E2. rewrite (i_key s Hi t1 th1 Ht1). done.
  - rewrite E1. intros E. apply Hne. eapply (i_unique s Hi t1 th1 r1 t th r Ht1 Hth); [by apply active_requests| |done].
    unfold requests_of. rewrite Hph. apply elem_of_app. right. left.
Qed.

Lemma inv_lock s t th r todo k chk : sys_inv s -> threads s !! t = Some th -> t_phase th = Locking (r :: todo) ->
  locks s !! r_lock r = Some k -> Z.of_nat (length (instances k)) + 1 < 2 ^ 32 ->
  sys_inv (put_back s (r_lock r) t (multi_lock_next upgraded k th r todo chk)).
Proof.
  intros Hi Hth Hph Hk Hsz. pose proof (i_sorted s Hi t th Hth) as Hs. unfold requests_of in Hs. rewrite Hph in Hs.
  assert (requests_of th = t_held th ++ r :: todo) as Ereq by (unfold requests_of; by rewrite Hph).
  assert (active th = t_held th) as Eact by (unfold active; by rewrite Hph, app_nil_r).
  assert (r ∈ requests_of th) as Hr by (rewrite Ereq; apply elem_of_app; right; left).
  pose proof (i_types s Hi t th r Hth Hr) as Hty.
  assert (forall d, d ∈ instances k -> owner_addr (d_owner d) <> t /\ d_id d <> r_id r) as Hfr by (intros; by eapply asks_fresh).
  assert (r_id r ∉ d_id <$> instances k) as Hid by (intros (d & E & Hd)%list_elem_of_fmap; by destruct (Hfr d Hd)).
  assert (r_id r ∉ wids k) as Hwid.
  { intros (d & Hd & E)%elem_of_wids. destruct (Hfr d); [apply elem_of_instances; tauto|done]. }
  assert (lock_inv (thr_lock upgraded k (r_id r) (t_owner th) (r_type r) chk).1.1) as Hinv.
  { destruct (i_locks s Hi _ _ Hk) as [Hc Hn]. split; [|by apply thr_lock_no_stall].
    apply thr_lock_core; auto; [tauto|]. intros w Hw E. rewrite (i_key s Hi t th Hth) in E.
    destruct (Hfr w); [apply elem_of_instances; auto|done]. }
  assert (r_type r <> TL_WRITE_DELAYED) as Hnd.
  { destruct Hty as [H|[_ H]]; [|done]. intros E. rewrite E in H. unfold is_read in H. simpl in H. lia. }
  pose proof (thr_lock_effect upgraded k (r_id r) (t_owner th) (r_type r) chk Hnd) as He. unfold multi_lock_next.
  destruct (thr_lock upgraded k (r_id r) (t_owner th) (r_type r) chk) as [[k' calls] out]. cbn in Hinv, He.
  assert (forall x, x ∈ t_held th -> r_lock x < r_lock r) as Hbefore by (intros; by eapply held_before).
  assert (sys_inv (put_back s (r_lock r) t (k, mkThread (t_owner th) (t_held th) Releasing))) as Hfail.
  { unfold put_back. cbn. rewrite insert_id by done. apply (inv_thread_only s t th); auto.
    - intros x. rewrite Eact. intros Hx. by apply held_active.
    - rewrite Ereq. unfold requests_of. cbn. rewrite app_nil_r. by apply sublist_inserts_r. }
  destruct out as [[]|]; try (subst k'; exact Hfail); destruct He as [Ew He].
  - apply (inv_step_at s (r_lock r) t k th); auto; rewrite ?Eact.
    + rewrite Ereq. unfold requests_of. cbn. by rewrite <- app_assoc.
    + intros x Hx _. apply held_active. cbn. apply elem_of_app. by left.
    + intros d' Hd. destruct (He d' Hd) as [Hd0|E]; [left; exists d'; split; [done|]; split; [done|]|].
      * intros x Hx _. apply held_active. cbn. apply elem_of_app. by left.
      * right. exists r. split; [apply held_active; cbn; apply elem_of_app; right; left|done].
    + rewrite Ew. auto.
    + rewrite Ew. cbn. intros x [Hx| ->%list_elem_of_singleton]%elem_of_app Ea; [specialize (Hbefore x Hx); lia|done].
    + cbn. intros x [Hx| ->%list_elem_of_singleton]%elem_of_app Ea; done.
  - apply (inv_step_at s (r_lock r) t k th); auto; rewrite ?Eact; unfold active; cbn.
    + by rewrite Ereq.
    + intros x Hx _. apply elem_of_app. by left.
    + intros d' Hd. destruct (He d' Hd) as [Hd0|E]; [left; exists d'; split; [done|]; split; [done|]|].
      * intros x Hx _. apply elem_of_app. by left.
      * right. exists r. split; [apply elem_of_app; right; left|done].
    + intros id Hid'. destruct (Ew id Hid') as [?| ->]; [by left|right]. eauto.
    + intros x Hx Ea. specialize (Hbefore x Hx). lia.
Qed.

Lemma inv_wake s t th r todo k timeout : sys_inv s -> threads s !! t = Some th -> t_phase th = Waiting r todo ->
  locks s !! r_lock r = Some k -> sys_inv (put_back s (r_lock r) t (multi_lock_wake k th r todo timeout)).
Proof.
  intros Hi Hth Hph Hk. pose proof (i_sorted s Hi t th Hth) as Hs. unfold requests_of in Hs. rewrite Hph in Hs.
  assert (requests_of th = t_held th ++ r :: todo) as Ereq by (unfold requests_of; by rewrite Hph).
  assert (active th = t_held th ++ [r]) as Eact by (unfold active; by rewrite Hph).
  assert (forall x, x ∈ t_held th -> r_lock x < r_lock r) as Hbefore by (intros; by eapply held_before).
  pose proof (i_locks s Hi _ _ Hk) as Hinv.
  destruct (wait_end_evolves k (r_id r) timeout) as [[He Hw] Hres]; [apply Hinv|].
  pose proof (wait_for_lock_end_inv k (r_id r) timeout Hinv) as Hinv'. unfold multi_lock_wake.
  destruct (wait_for_lock_end k (r_id r) timeout) as [[k' calls] res]. cbn in *.
  assert ((forall d', d' ∈ instances k' -> d_id d' <> r_id r) ->
    sys_inv (put_back s (r_lock r) t (k', mkThread (t_owner th) (t_held th) Releasing))) as Hfail.
  { intros Hgone. apply (inv_step_at s (r_lock r) t k th); auto; rewrite ?Eact.
    - rewrite Ereq. unfold requests_of. cbn. rewrite app_nil_r. by apply sublist_inserts_r.
    - intros x [Hx| ->%list_elem_of_singleton]%elem_of_app Ea; [by apply held_active|done].
    - intros d' Hd. left. destruct (He d' Hd) as (d & Hd0 & E). exists d. split; [done|]. split; [done|].
      intros x [Hx| ->%list_elem_of_singleton]%elem_of_app Ex; [by apply held_active|]. by destruct (Hgone d').
    - cbn. intros x Hx Ea. specialize (Hbefore x Hx). lia. }
  destruct res; try exact (Hfail Hres). apply (inv_step_at s (r_lock r) t k th); auto; rewrite ?Eact.
  - rewrite Ereq. unfold requests_of. cbn. by rewrite <- app_assoc.
  - intros x Hx _. by apply held_active.
  - intros d' Hd. left. destruct (He d' Hd) as (d & Hd0 & E). exists d. split; [done|]. split; [done|].
    intros x Hx _. by apply held_active.
  - cbn. intros x [Hx| ->%list_elem_of_singleton]%elem_of_app Ea; [specialize (Hbefore x Hx); lia|done].
  - cbn. intros x [Hx| ->%list_elem_of_singleton]%elem_of_app Ea; done.
Qed.

Lemma inv_unlock s t th r rest k chk : sys_inv s -> threads s !! t = Some th -> t_phase th = Releasing ->
  t_held th = r :: rest -> locks s !! r_lock r = Some k ->
  sys_inv (put_back s (r_lock r) t (multi_unlock_next max_write_lock_count k th r rest chk)).
Proof.
  intros Hi Hth Hph Hh Hk. pose proof (i_sorted s Hi t th Hth) as Hs. unfold requests_of in Hs. rewrite Hph, Hh, app_nil_r in Hs.
  assert (requests_of th = r :: rest) as Ereq by (unfold requests_of; by rewrite Hph, Hh, app_nil_r).
  assert (active th = r :: rest) as Eact by (unfold active; by rewrite Hph, Hh, app_nil_r).
  pose proof (i_locks s Hi _ _ Hk) as Hinv. apply StronglySorted_inv in Hs as [_ Hs]. rewrite Forall_forall in Hs.
  assert (r_id r ∉ wids k) as Hwid by (eapply (i_held s Hi t th r); [done| |done]; rewrite Hh; left).
  unfold multi_unlock_next. set (k' := match List.find _ _ with Some d => _ | None => _ end).
  assert (lock_inv k' /\ evolves k k' /\ forall d', d' ∈ instances k' -> d_id d' <> r_id r) as (Hinv' & [He Hw] & Hgone).
  { unfold k'. destruct (List.find _ (instances k)) as [d|] eqn:Ef.
    - apply find_some in Ef as [Hd E]. apply list_elem_of_In in Hd. b2p. rewrite <- E.
      assert (d ∈ read k \/ d ∈ write k) as Hd'.
      { apply elem_of_instances in Hd. destruct Hd as [Hd|[Hd|[Hd|Hd]]]; auto;
          (exfalso; apply Hwid; apply elem_of_wids; exists d; auto). }
      destruct (thr_unlock_evolves max_write_lock_count k d chk (proj1 Hinv) Hd') as [H1 H2].
      split; [|done]. apply thr_unlock_inv; [done|]. unfold can_unlock. tauto.
    - split; [done|]. split; [done|]. intros d' Hd E.
      pose proof (find_none _ _ Ef d' (proj1 (list_elem_of_In _ _) Hd)) as Hno. cbn in Hno. by rewrite E, Z.eqb_refl in Hno. }
  clearbody k'. apply (inv_step_at s (r_lock r) t k th); auto; rewrite ?Eact.
  - rewrite Ereq. unfold requests_of. cbn. rewrite app_nil_r. by constructor.
  - intros x [->|Hx]%elem_of_cons Ea; [done|by apply held_active].
  - intros d' Hd. left. destruct (He d' Hd) as (d & Hd0 & E). exists d. split; [done|]. split; [done|].
    intros x [->|Hx]%elem_of_cons Ex; [by destruct (Hgone d')|by apply held_active].
  - cbn. intros x Hx Ea. specialize (Hs x Hx). lia.
  - cbn. intros x Hx _. rewrite Hh. by right.
Qed.

Lemma sys_step_inv s s' : Step s s' -> sys_inv s -> sys_inv s'.
Proof.
  intros Hst Hi. destruct Hst.
  - by apply inv_start.
  - by apply inv_lock.
  - by apply inv_wake.
  - eapply inv_thread_only; eauto; cbn.
    + intros r. unfold active. cbn. rewrite H0. done.
    + unfold requests_of. rewrite H0. done.
  - by apply inv_unlock.
  - eapply inv_thread_end; eauto. unfold active. by rewrite H0, H1.
  - eapply inv_lock_only; eauto; [by apply thr_abort_locks_inv, (i_locks s Hi a)|apply abort_evolves].
Qed.

Lemma sys_reachable_inv s : sys_reachable upgraded max_write_lock_count s -> sys_inv s.
Proof.
  intros (s0 & Hr & Ht & Hl). assert (sys_inv s0) as H0.
  { split; rewrite ?Ht; try (intros; by simplify_map_eq).
    - intros a k Hk. destruct (Hl a k Hk) as [chk ->]. apply init_inv.
    - intros a k d Hk Hd. destruct (Hl a k Hk) as [chk ->]. by apply not_elem_of_nil in Hd. }
  clear Ht Hl. induction Hr as [|s1 s2 s3 Hst _ IH]; [done|]. apply IH. by eapply sys_step_inv.
Qed.

(** A sleeping thread waits for another one, which does not sleep or sleeps at
    a lock with a higher address. *)
Lemma blocked_waits s t th a : sys_inv s -> threads s !! t = Some th -> blocked s th a ->
  exists t' th', threads s !! t' = Some th' /\ waits_for s t t' /\ forall a', blocked s th' a' -> a < a'.
Proof.
  intros Hi Hth Hb. pose proof Hb as (r & todo & k & Hph & Ea & Hk & Hq).
  pose proof (i_locks s Hi _ _ Hk) as [Hc Hn].
  assert (exists d, d ∈ read k ++ write k) as [d Hd].
  { destruct (read k ++ write k) as [|d l] eqn:E; [|exists d; left]. apply app_eq_nil in E as [E1 E2].
    destruct (Hn E1 E2) as [E3 E4]. unfold wids in Hq. rewrite E3, E4 in Hq. by apply not_elem_of_nil in Hq. }
  assert (d ∈ instances k) as Hdi by (apply elem_of_instances; apply elem_of_app in Hd; tauto).
  destruct (i_instance s Hi a k d Hk Hdi) as (t' & th' & r' & Ht' & Hr' & [= E1 E2] & Ea').
  exists t', th'. split; [done|]. split; [by exists th, th', a, k, d, r'|].
  intros a' (r2 & todo2 & k2 & Hph2 & Ea2 & Hk2 & Hq2). pose proof (i_sorted s Hi t' th' Ht') as Hs.
  unfold requests_of in Hs. rewrite Hph2 in Hs. unfold active in Hr'. rewrite Hph2 in Hr'.
  apply elem_of_app in Hr' as [Hr'|Hr'%list_elem_of_singleton]; [pose proof (held_before _ _ _ _ Hs Hr'); lia|].
  subst r2. assert (k2 = k) as -> by congruence. exfalso. apply elem_of_wids in Hq2 as (d2 & Hd2 & E3).
  pose proof (c_nodup _ Hc) as Hnd. unfold instances in Hnd.
  assert (read_wait k ++ read k ++ write_wait k ++ write k ≡ₚ (read_wait k ++ write_wait k) ++ (read k ++ write k)) as Hp by solve_Permutation.
  rewrite Hp, fmap_app in Hnd. apply NoDup_app in Hnd as (_ & Hdis & _).
  apply (Hdis (r_id r')); [rewrite <- E3|rewrite <- E1]; apply list_elem_of_fmap_2; [|done]. apply elem_of_app. tauto.
Qed.

Lemma blocked_dec s th : (exists a, blocked s th a) \/ forall a, ~ blocked s th a.
Proof.
  destruct (t_phase th) as [todo|r todo|] eqn:Hph;
    [right; intros a (r & todo' & k & H & _); congruence| |right; intros a (r & todo' & k & H & _); congruence].
  destruct (locks s !! r_lock r) as [k|] eqn:Hk.
  - destruct (decide (r_id r ∈ wids k)) as [Hin|Hin]; [left; by exists (r_lock r), r, todo, k|right].
    intros a (r2 & todo2 & k2 & H & <- & Hk2 & Hin2). congruence.
  - right. intros a (r2 & todo2 & k2 & H & <- & Hk2 & _). congruence.
Qed.

Lemma waits_end s n t th a : sys_inv s -> threads s !! t = Some th -> blocked s th a ->
  (forall t th a, threads s !! t = Some th -> blocked s th a -> a < n) ->
  exists t' th', rtc (waits_for s) t t' /\ threads s !! t' = Some th' /\ forall a', ~ blocked s th' a'.
Proof.
  intros Hi Hth Hb Hmax. remember (Z.to_nat (n - a)) as m eqn:Em. revert t th a Hth Hb Em.
  induction m as [m IH] using lt_wf_ind. intros t th a Hth Hb ->.
  destruct (blocked_waits s t th a Hi Hth Hb) as (t1 & th1 & Ht1 & Hw & Ha1).
  destruct (blocked_dec s th1) as [[a' Hb']|Hnb].
  - pose proof (Ha1 a' Hb'). pose proof (Hmax _ _ _ Ht1 Hb').
    destruct (IH (Z.to_nat (n - a')) ltac:(lia) t1 th1 a' Ht1 Hb' eq_refl) as (t' & th' & Hr & H').
    exists t', th'. split; [by eapply rtc_l|done].
  - exists t1, th1. split; [by apply rtc_once|done].
Qed.

Lemma bounded_set (X : gset Z) : exists n, forall a, a ∈ X -> a < n.
Proof.
  induction X as [|x X Hx [n Hn]] using set_ind_L; [exists 0; intros a; by rewrite elem_of_empty|].
  exists (Z.max n (x + 1)). intros a. rewrite elem_of_union, elem_of_singleton. intros [->|Ha]; [lia|].
  specialize (Hn a Ha). lia.
Qed.

End Steps.


(** Two calls for one table. *)
Definition ask (id a : Z) : request := mkRequest id a TL_WRITE.
Definition sys0 : system := mkSystem {[100 := thr_lock_init false]} ∅.
Definition started (s : system) (o : THR_LOCK_OWNER) (data : list request) : system :=
  mkSystem (locks s) (<[owner_addr o := multi_start o data]> (threads s)).
Definition sys1 : system := started sys0 owner1 [ask 1 100].
Definition sys2 : system := put_back sys1 100 1
  (multi_lock_next TL_WRITE (thr_lock_init false) (multi_start owner1 [ask 1 100]) (ask 1 100) [] false).
Definition sys3 : system := started sys2 owner2 [ask 2 100].
Definition lock3 : THR_LOCK := default (thr_lock_init false) (locks sys3 !! 100).
Definition sys4 : system := put_back sys3 100 2
  (multi_lock_next TL_WRITE lock3 (multi_start owner2 [ask 2 100]) (ask 2 100) [] false).
Definition sleeper : thread := mkThread owner2 [] (Waiting (ask 2 100) []).

Lemma one_request_good s r : is_write (r_type r) -> r_type r <> TL_WRITE_DELAYED -> is_Some (locks s !! r_lock r) ->
  (forall t th r', threads s !! t = Some th -> r' ∈ requests_of th -> r_id r <> r_id r') -> good_call s [r].
Proof.
  intros Hw Hd Hl Hf. split.
  - intros x ->%list_elem_of_singleton. auto.
  - by intros x ->%list_elem_of_singleton.
  - intros a b ->%list_elem_of_singleton ->%list_elem_of_singleton. lia.
  - apply NoDup_singleton.
  - apply NoDup_singleton.
  - intros t th x r' Ht ->%list_elem_of_singleton. by eapply Hf.
Qed.

Lemma sys4_reachable : sys_reachable TL_WRITE 10 sys4.
Proof.
  exists sys0. split; [|split; [done|]].
  - apply rtc_l with sys1.
    { apply (sys_start _ _ sys0 owner1 [ask 1 100]); [done|].
      apply one_request_good; [unfold is_write; simpl; lia|done|by eexists|]. intros t th r' Ht. by simplify_map_eq. }
    apply rtc_l with sys2.
    { by apply (sys_lock TL_WRITE 10 sys1 1 (multi_start owner1 [ask 1 100]) (ask 1 100) [] (thr_lock_init false) false). }
    apply rtc_l with sys3.
    { apply (sys_start _ _ sys2 owner2 [ask 2 100]); [done|].
      apply one_request_good; [unfold is_write; simpl; lia|done|by eexists|]. intros t th r' Ht Hr E.
      unfold sys2, put_back, sys1, started in Ht. cbn in Ht. destruct (decide (t = 1)) as [->|].
      - rewrite lookup_insert_eq in Ht. injection Ht as <-. apply list_elem_of_singleton in Hr as ->. discriminate.
      - rewrite !lookup_insert_ne in Ht by done. by simplify_map_eq. }
    apply rtc_once.
    by apply (sys_lock TL_WRITE 10 sys3 2 (multi_start owner2 [ask 2 100]) (ask 2 100) [] lock3 false).
  - intros a k. unfold sys0. cbn. intros [_ <-]%lookup_singleton_Some. by eexists.
Qed.


(** A call that names a table twice can deadlock.  Connections 1 and 2 hold
    TL_WRITE_ALLOW_WRITE; connection 3 asks for TL_WRITE and waits; the second
    TL_WRITE_ALLOW_WRITE request of connection 2, which comes next in its
    sorted array, waits behind it because the test for an old lock of the same
    owner looks at the first write lock only.  When connection 1 unlocks, only
    connection 2 holds the lock it waits for, and nobody is woken up. *)
Theorem multi_lock_twice_deadlocks :
  let requests := [mkRequest 2 100 TL_WRITE_ALLOW_WRITE; mkRequest 4 100 TL_WRITE_ALLOW_WRITE] in
  sort_locks requests = requests /\
  let '(k1, _, r1) := thr_lock TL_WRITE (thr_lock_init false) 1 owner1 TL_WRITE_ALLOW_WRITE false in
  let '(k2, _, r2) := thr_lock TL_WRITE k1 2 owner2 TL_WRITE_ALLOW_WRITE false in
  let '(k3, _, r3) := thr_lock TL_WRITE k2 3 owner3 TL_WRITE false in
  let '(k4, _, r4) := thr_lock TL_WRITE k3 4 owner2 TL_WRITE_ALLOW_WRITE false in
  let '(k5, calls) := thr_unlock 10 k4 (mkData 1 owner1 TL_WRITE_ALLOW_WRITE false) false in
  r1 = Returned THR_LOCK_SUCCESS /\ r2 = Returned THR_LOCK_SUCCESS /\ r3 = Waits /\ r4 = Waits /\
  calls = [] /\ read k5 = [] /\ d_owner <$> write k5 = [owner2] /\ d_id <$> write_wait k5 = [3; 4].
Proof. vm_compute. auto 10. Qed.
