(* ===== verification/DynArray.v ===== *)
(** * Arrays that grow (mysys/array.c)

    The elements are of any type; [zero] is the element of zero bytes that
    [bzero] writes, [junk] what fresh memory holds.  The buffer is the list of
    the elements that fit the bytes allocated, so a write behind it is [None].
    Each call that may allocate takes whether the allocation succeeds. *)

From stdpp Require Import base numbers list.
From Stdlib Require Import ZArith Lia.
From S2P Require Import Prelude.

Local Open Scope Z_scope.

(** Without [SAFEMALLOC]. *)
Definition MALLOC_OVERHEAD : Z := 8.

Section dynamic_array.
Context {A : Type} (zero junk : A).

Record DYNAMIC_ARRAY := mkArray {
  buffer : option (list A);
  elements : Z;
  max_element : Z;
  alloc_increment : Z;
  size_of_element : Z }.

(** [my_realloc] to a number of bytes: the old elements, then fresh memory.
    A null pointer is an empty buffer ([MY_ALLOW_ZERO_PTR]). *)
Definition realloc (ok : bool) (old : option (list A)) (bytes size : Z) : option (list A) :=
  if ok then
    let n := Z.to_nat (bytes / size) in
    let l := default [] old in
    Some (take n l ++ replicate (n - length l) junk)
  else None.

(** A write at an index of the buffer. *)
Definition put (buf : option (list A)) (i : Z) (x : A) : option (list A) :=
  l ← buf; if (0 <=? i) && (i <? Z.of_nat (length l)) then Some (<[Z.to_nat i := x]> l) else None.

(** The new array and [TRUE] for a failed allocation. *)
Definition init_dynamic_array (element_size init_alloc alloc_inc : Z) (ok : bool) : DYNAMIC_ARRAY * bool :=
  let alloc_inc :=
    if alloc_inc =? 0 then
      let a := Z.max ((8192 - MALLOC_OVERHEAD) / element_size) 16 in
      if (8 <? init_alloc) && (u32 (init_alloc * 2) <? a) then u32 (init_alloc * 2) else a
    else alloc_inc in
  let init_alloc := if init_alloc =? 0 then alloc_inc else init_alloc in
  match realloc ok None (u32 (element_size * init_alloc)) element_size with
  | Some b => (mkArray (Some b) 0 init_alloc alloc_inc element_size, false)
  | None => (mkArray None 0 0 alloc_inc element_size, true)
  end.

(** The index of the space for the next element, or [None] without memory. *)
Definition alloc_dynamic (array : DYNAMIC_ARRAY) (ok : bool) : DYNAMIC_ARRAY * option Z :=
  if elements array =? max_element array then
    match realloc ok (buffer array)
            (u32 (u32 (max_element array + alloc_increment array) * size_of_element array))
            (size_of_element array) with
    | None => (array, None)
    | Some b =>
        (mkArray (Some b) (u32 (elements array + 1)) (u32 (max_element array + alloc_increment array))
                 (alloc_increment array) (size_of_element array), Some (elements array))
    end
  else
    (mkArray (buffer array) (u32 (elements array + 1)) (max_element array) (alloc_increment array)
             (size_of_element array), Some (elements array)).

Definition set_buffer (b : list A) (array : DYNAMIC_ARRAY) : DYNAMIC_ARRAY :=
  mkArray (Some b) (elements array) (max_element array) (alloc_increment array) (size_of_element array).

(** The new array and whether the insert failed. *)
Definition insert_dynamic (array : DYNAMIC_ARRAY) (element : A) (ok : bool) : option (DYNAMIC_ARRAY * bool) :=
  '(array, r) ← Some (if elements array =? max_element array then alloc_dynamic array ok
                      else (mkArray (buffer array) (u32 (elements array + 1)) (max_element array)
                                    (alloc_increment array) (size_of_element array), Some (elements array)));
  match r with
  | None => Some (array, true)
  | Some i => b ← put (buffer array) i element; Some (set_buffer b array, false)
  end.

(** The new array and the index of the element popped. *)
Definition pop_dynamic (array : DYNAMIC_ARRAY) : DYNAMIC_ARRAY * option Z :=
  if elements array =? 0 then (array, None)
  else (mkArray (buffer array) (elements array - 1) (max_element array) (alloc_increment array)
                (size_of_element array), Some (elements array - 1)).

(** [bzero] of the elements from [i] on, [n] of them. *)
Fixpoint clear (n : nat) (i : Z) (buf : option (list A)) : option (list A) :=
  match n with
  | O => buf
  | S n => b ← put buf i zero; clear n (i + 1) (Some b)
  end.

(** The growth in [set_dynamic]; [None] without memory. *)
Definition room_for (array : DYNAMIC_ARRAY) (idx : Z) (ok : bool) : option DYNAMIC_ARRAY :=
  if max_element array <=? idx then
    let size := u32 (u32 (idx + alloc_increment array) / alloc_increment array * alloc_increment array) in
    match realloc ok (buffer array) (u32 (size * size_of_element array)) (size_of_element array) with
    | None => None
    | Some b => Some (mkArray (Some b) (elements array) size (alloc_increment array) (size_of_element array))
    end
  else Some array.

Definition set_dynamic (array : DYNAMIC_ARRAY) (element : A) (idx : Z) (ok : bool)
  : option (DYNAMIC_ARRAY * bool) :=
  if elements array <=? idx then
    match room_for array idx ok with
    | None => Some (array, true)
    | Some array =>
        b ← clear (Z.to_nat (idx - elements array)) (elements array) (buffer array);
        b ← put (Some b) idx element;
        Some (mkArray (Some b) (idx + 1) (max_element array) (alloc_increment array) (size_of_element array), false)
    end
  else b ← put (buffer array) idx element; Some (set_buffer b array, false).

Definition get_dynamic (array : DYNAMIC_ARRAY) (idx : Z) : option A :=
  if elements array <=? idx then Some zero
  else b ← buffer array; b !! Z.to_nat idx.

Definition delete_dynamic (array : DYNAMIC_ARRAY) : DYNAMIC_ARRAY :=
  match buffer array with
  | Some _ => mkArray None 0 0 (alloc_increment array) (size_of_element array)
  | None => array
  end.

(** [memmove(ptr, ptr + size, (elements - idx) * size)]. *)
Definition delete_dynamic_element (array : DYNAMIC_ARRAY) (idx : Z) : option DYNAMIC_ARRAY :=
  b ← buffer array;
  let n := u32 (elements array - 1) in
  let moved := Z.to_nat (u32 (n - idx)) in
  if (0 <=? idx) && (idx + Z.of_nat moved + 1 <=? Z.of_nat (length b)) then
    let i := Z.to_nat idx in
    Some (mkArray (Some (take i b ++ take moved (drop (S i) b) ++ drop (i + moved) b)) n
                  (max_element array) (alloc_increment array) (size_of_element array))
  else None.

Definition freeze_size (array : DYNAMIC_ARRAY) : DYNAMIC_ARRAY :=
  let n := Z.max (elements array) 1 in
  match buffer array with
  | Some b =>
      if max_element array =? n then array
      else mkArray (realloc true (Some b) (u32 (n * size_of_element array)) (size_of_element array))
                   (elements array) n (alloc_increment array) (size_of_element array)
  | None => array
  end.

(** ** The list an array stands for *)

Definition view (array : DYNAMIC_ARRAY) : list A := take (Z.to_nat (elements array)) (default [] (buffer array)).

(** [n] elements fit the 32-bit size of an allocation. *)
Definition fits (array : DYNAMIC_ARRAY) (n : Z) : Prop := n * size_of_element array < 2 ^ 32.

Record array_ok (array : DYNAMIC_ARRAY) : Prop := {
  a_buffer : length (default [] (buffer array)) = Z.to_nat (max_element array);
  a_elements : 0 <= elements array <= max_element array;
  a_increment : 0 < alloc_increment array < 2 ^ 32;
  a_size : 0 < size_of_element array < 2 ^ 32;
  a_max : fits array (max_element array) }.

Lemma fits_u32 array n : array_ok array -> 0 <= n -> fits array n -> n < 2 ^ 32.
Proof. intros [_ _ _ Hs _] Hn Hf. unfold fits in Hf. nia. Qed.

(** A reallocation to [n] elements that fit. *)
Lemma realloc_spec old n size : 0 < size -> 0 <= n -> n * size < 2 ^ 32 ->
  (length (default [] old) <= Z.to_nat n)%nat ->
  realloc true old (u32 (n * size)) size =
    Some (default [] old ++ replicate (Z.to_nat n - length (default [] old)) junk).
Proof.
  intros Hs Hn Hf Hl. unfold realloc. rewrite u32_small, Z.div_mul by nia. by rewrite take_ge by lia.
Qed.

Lemma put_spec l i x : 0 <= i < Z.of_nat (length l) -> put (Some l) i x = Some (<[Z.to_nat i := x]> l).
Proof. intros Hi. unfold put. rewrite bind_Some_eq. by rewrite (proj2 (andb_true_iff _ _)) by lia. Qed.

Lemma take_insert_snoc (l : list A) i x : (i < length l)%nat -> take (S i) (<[i := x]> l) = take i l ++ [x].
Proof.
  intros Hi. rewrite (take_S_r _ _ x) by (by apply list_lookup_insert_eq). by rewrite take_insert_ge by lia.
Qed.

Lemma length_view array : array_ok array -> length (view array) = Z.to_nat (elements array).
Proof. intros [Hb He _ _ _]. unfold view. rewrite length_take. lia. Qed.

Lemma replicate_le (n m : nat) : (m <= n)%nat -> (n - (n - m) = m)%nat.
Proof. lia. Qed.

(** An array with room for the element behind the last. *)
Lemma append_spec (array : DYNAMIC_ARRAY) x : array_ok array -> elements array < max_element array ->
  exists b, put (buffer array) (elements array) x = Some b /\
    let array' := mkArray (Some b) (elements array + 1) (max_element array) (alloc_increment array) (size_of_element array) in
    array_ok array' /\ view array' = view array ++ [x].
Proof.
  intros Hok Hlt. destruct Hok as [Hb He Hi Hs Hm]. destruct (buffer array) as [l|] eqn:El; simpl in Hb; [|lia].
  rewrite put_spec by lia. eexists. split; [done|]. split.
  - constructor; simpl; rewrite ?length_insert; auto; lia.
  - unfold view. simpl. rewrite El. simpl. replace (Z.to_nat (elements array + 1)) with (S (Z.to_nat (elements array))) by lia.
    apply take_insert_snoc. lia.
Qed.

(** Growing keeps the list. *)
Lemma grow_spec (array : DYNAMIC_ARRAY) n : array_ok array -> max_element array <= n -> fits array n ->
  let array' := mkArray (Some (default [] (buffer array) ++ replicate (Z.to_nat n - length (default [] (buffer array))) junk))
                        (elements array) n (alloc_increment array) (size_of_element array) in
  realloc true (buffer array) (u32 (n * size_of_element array)) (size_of_element array) = buffer array' /\
  array_ok array' /\ view array' = view array.
Proof.
  intros Hok Hn Hf. pose proof Hok as [Hb He Hi Hs Hm]. split; [|split].
  - apply realloc_spec; auto; lia.
  - constructor; simpl; rewrite ?length_app, ?length_replicate; auto; lia.
  - unfold view. simpl. by rewrite take_app_le by lia.
Qed.

Lemma insert_dynamic_spec array x : array_ok array -> fits array (max_element array + alloc_increment array) ->
  exists array', insert_dynamic array x true = Some (array', false) /\ array_ok array' /\
    view array' = view array ++ [x].
Proof.
  intros Hok Hf. pose proof Hok as [Hb He Hi Hs Hm]. pose proof (fits_u32 array (max_element array + alloc_increment array) Hok ltac:(lia) Hf) as Hmax.
  unfold insert_dynamic, alloc_dynamic. destruct (Z.eqb_spec (elements array) (max_element array)) as [E|E].
  - rewrite (u32_small (max_element array + _)), (u32_small (elements array + 1)) by lia.
    destruct (grow_spec array (max_element array + alloc_increment array) Hok ltac:(lia) Hf) as (-> & Hok' & Hv).
    cbn [buffer]. rewrite bind_Some_eq.
    destruct (append_spec _ x Hok') as (b & Hp & Hok2 & Hv2); [simpl; lia|]. cbn [buffer elements max_element alloc_increment size_of_element] in Hp, Hok2, Hv2 |- *.
    rewrite Hp, bind_Some_eq. eexists. split; [done|]. split; [done|]. unfold set_buffer. cbn. by rewrite Hv2, Hv.
  - rewrite (u32_small (elements array + 1)) by lia. rewrite bind_Some_eq. cbn [buffer].
    destruct (append_spec array x Hok ltac:(lia)) as (b & -> & Hok2 & Hv2). rewrite bind_Some_eq.
    eexists. split; [done|]. split; done.
Qed.

Lemma clear_spec n i l : 0 <= i -> i + Z.of_nat n <= Z.of_nat (length l) ->
  clear n i (Some l) = Some (take (Z.to_nat i) l ++ replicate n zero ++ drop (Z.to_nat i + n) l).
Proof.
  revert i l. induction n as [|n IH]; intros i l Hi Hl; cbn [clear].
  { rewrite Nat.add_0_r. simpl. by rewrite take_drop. }
  rewrite put_spec, bind_Some_eq by lia. rewrite IH by (rewrite ?length_insert; lia). f_equal.
  replace (Z.to_nat (i + 1)) with (S (Z.to_nat i)) by lia. rewrite take_insert_snoc by lia.
  rewrite <- app_assoc. f_equal. simpl. do 2 f_equal. rewrite drop_insert_lt by lia. f_equal. lia.
Qed.

(** Writing at [idx] an array with room for it. *)
Lemma set_room_spec (array : DYNAMIC_ARRAY) x idx : array_ok array -> 0 <= idx < max_element array ->
  elements array <= idx ->
  exists b b', clear (Z.to_nat (idx - elements array)) (elements array) (buffer array) = Some b /\
    put (Some b) idx x = Some b' /\
    let array' := mkArray (Some b') (idx + 1) (max_element array) (alloc_increment array) (size_of_element array) in
    array_ok array' /\
    view array' = view array ++ replicate (Z.to_nat (idx - elements array)) zero ++ [x].
Proof.
  intros [Hb He Hi Hs Hm] Hidx Hge. destruct (buffer array) as [l|] eqn:El; simpl in Hb; [|lia].
  rewrite clear_spec by lia. eexists _, _. split; [done|].
  set (l' := take _ l ++ _).
  assert (length l' = length l) as Hl' by (unfold l'; rewrite !length_app, length_take, length_replicate, length_drop; lia).
  split; [apply put_spec; lia|]. split.
  - constructor; simpl; rewrite ?length_insert; try fold l'; auto; lia.
  - unfold view. simpl. rewrite El. simpl. replace (Z.to_nat (idx + 1)) with (S (Z.to_nat idx)) by lia.
    rewrite take_insert_snoc by (fold l'; lia).
    rewrite (app_assoc (take (Z.to_nat (elements array)) l)), take_app_length'
      by (rewrite length_app, length_take, length_replicate; lia).
    by rewrite <- app_assoc.
Qed.

Definition grown_size (array : DYNAMIC_ARRAY) (idx : Z) : Z :=
  (idx + alloc_increment array) / alloc_increment array * alloc_increment array.

Lemma set_dynamic_spec array x idx : array_ok array -> 0 <= idx -> fits array (idx + alloc_increment array) ->
  exists array', set_dynamic array x idx true = Some (array', false) /\ array_ok array' /\
    view array' = if idx <? elements array then <[Z.to_nat idx := x]> (view array)
                  else view array ++ replicate (Z.to_nat (idx - elements array)) zero ++ [x].
Proof.
  intros Hok Hidx Hf. pose proof Hok as [Hb He Hi Hs Hm]. pose proof (fits_u32 array (idx + alloc_increment array) Hok ltac:(lia) Hf) as Hmax.
  unfold set_dynamic. destruct (Z.leb_spec (elements array) idx) as [Hge|Hlt].
  - rewrite (proj2 (Z.ltb_ge idx (elements array))) by done.
    assert (exists a1, room_for array idx true = Some a1 /\ array_ok a1 /\ view a1 = view array /\
      idx < max_element a1 /\ elements a1 = elements array) as (a1 & -> & Hok1 & Hv1 & Hroom & He1).
    { unfold room_for. destruct (Z.leb_spec (max_element array) idx) as [Hbig|]; [|by exists array].
      assert (idx < grown_size array idx <= idx + alloc_increment array) as Hg.
      { unfold grown_size. pose proof (Z.div_mod (idx + alloc_increment array) (alloc_increment array)).
        pose proof (Z.mod_pos_bound (idx + alloc_increment array) (alloc_increment array)). nia. }
      cbv zeta. rewrite (u32_small (idx + _)) by lia. fold (grown_size array idx). rewrite (u32_small (grown_size _ _)) by lia.
      assert (fits array (grown_size array idx)) as Hfg by (unfold fits in *; nia).
      destruct (grow_spec array (grown_size array idx) Hok ltac:(lia) Hfg) as (-> & Hok' & Hv). cbn [buffer].
      eexists. split; [done|]. split; [exact Hok'|]. split; [done|]. simpl. split; [lia|]. done. }
    destruct (set_room_spec a1 x idx Hok1 ltac:(lia) ltac:(lia)) as (b & b' & -> & Hp & Hok2 & Hv2).
    rewrite bind_Some_eq, Hp, bind_Some_eq. eexists. split; [done|]. split; [done|]. by rewrite Hv2, Hv1, He1.
  - rewrite (proj2 (Z.ltb_lt idx (elements array))) by done.
    destruct (buffer array) as [l|] eqn:El; simpl in Hb; [|lia]. rewrite put_spec, bind_Some_eq by lia.
    eexists. split; [done|]. split; [constructor; simpl; auto; by rewrite length_insert|].
    unfold view, set_buffer. simpl. rewrite El. simpl. by rewrite take_insert_lt by lia.
Qed.

(** ** Properties *)

(** An array is its list.  Inserting appends the element, [set_dynamic]
    replaces an element or extends the list with zero elements, as long as
    the allocation fits the 32-bit size the code computes; a failed
    allocation is reported and leaves the array unchanged. *)
Theorem dynamic_array_grows array x idx : array_ok array -> 0 <= idx ->
  (fits array (max_element array + alloc_increment array) ->
   exists array', insert_dynamic array x true = Some (array', false) /\ array_ok array' /\
     view array' = view array ++ [x]) /\
  (fits array (idx + alloc_increment array) ->
   exists array', set_dynamic array x idx true = Some (array', false) /\ array_ok array' /\
     view array' = if idx <? elements array then <[Z.to_nat idx := x]> (view array)
                   else view array ++ replicate (Z.to_nat (idx - elements array)) zero ++ [x]) /\
  (elements array = max_element array -> insert_dynamic array x false = Some (array, true)) /\
  (max_element array <= idx -> set_dynamic array x idx false = Some (array, true)).
Proof.
  intros Hok Hidx. split; [by apply insert_dynamic_spec|]. split; [by apply set_dynamic_spec|]. split.
  - intros E. unfold insert_dynamic, alloc_dynamic. rewrite E, Z.eqb_refl. done.
  - intros E. destruct Hok as [_ He _ _ _]. unfold set_dynamic, room_for.
    rewrite (proj2 (Z.leb_le (elements array) idx)), (proj2 (Z.leb_le (max_element array) idx)) by lia. done.
Qed.

(** [get_dynamic] reads the list (a zero element behind its end),
    [pop_dynamic] removes the last element, [delete_dynamic_element] the one
    at an index, and [freeze_size] keeps the list. *)
Theorem dynamic_array_reads array idx : array_ok array -> 0 <= idx ->
  get_dynamic array idx = Some (default zero (view array !! Z.to_nat idx)) /\
  (let '(array', r) := pop_dynamic array in
   array_ok array' /\ view array' = take (length (view array) - 1) (view array) /\
   r = if elements array =? 0 then None else Some (elements array - 1)) /\
  (idx < elements array -> exists array', delete_dynamic_element array idx = Some array' /\ array_ok array' /\
     view array' = delete (Z.to_nat idx) (view array)) /\
  (array_ok (freeze_size array) /\ view (freeze_size array) = view array).
Proof.
  intros Hok Hidx. pose proof Hok as [Hb He Hi Hs Hm]. pose proof (length_view array Hok) as Hlen.
  split; [|split; [|split]].
  - unfold get_dynamic, view. destruct (Z.leb_spec (elements array) idx) as [Hge|Hlt].
    + rewrite lookup_take_ge by lia. done.
    + destruct (buffer array) as [l|]; simpl in *; [|lia]. rewrite lookup_take_lt by lia.
      destruct (lookup_lt_is_Some_2 l (Z.to_nat idx)) as [y ->]; [lia|done].
  - unfold pop_dynamic. destruct (Z.eqb_spec (elements array) 0) as [E|E].
    + split; [done|]. split; [|done]. rewrite take_ge by lia. done.
    + split; [constructor; simpl; auto; lia|]. split; [|done]. rewrite Hlen. unfold view. simpl.
      rewrite take_take. f_equal. lia.
  - intros Hlt. unfold delete_dynamic_element, view in *.
    destruct (buffer array) as [l|] eqn:El; simpl in Hb; [|lia]. rewrite bind_Some_eq.
    pose proof (fits_u32 array (max_element array) Hok ltac:(lia) Hm).
    rewrite (u32_small (elements array - 1)), (u32_small (elements array - 1 - idx)) by lia.
    assert ((0 <=? idx) && (idx + Z.of_nat (Z.to_nat (elements array - 1 - idx)) + 1 <=? Z.of_nat (length l)) = true)
      as -> by (apply andb_true_iff; split; apply Z.leb_le; [done|clear Hlen; lia]).
    eexists. split; [done|]. split.
    + constructor; simpl; auto; [|lia]. rewrite !length_app, !length_take, !length_drop. lia.
    + simpl. rewrite delete_take_drop. rewrite app_assoc, take_app_le
        by (rewrite length_app, !length_take, length_drop; lia).
      rewrite take_ge by (rewrite length_app, !length_take, length_drop; lia).
      rewrite take_take. f_equal; [f_equal; lia|]. rewrite skipn_firstn_comm. f_equal. lia.
  - unfold freeze_size. destruct (buffer array) as [l|] eqn:El; [|done].
    destruct (Z.eqb_spec (max_element array) (Z.max (elements array) 1)) as [E|E]; [done|].
    unfold fits in Hm. unfold realloc. rewrite u32_small, Z.div_mul by nia. cbn [default].
    split; [constructor; simpl; auto; try lia; [rewrite length_app, length_take, length_replicate; simpl in Hb; lia|unfold fits; simpl; nia]|].
    unfold view. simpl. rewrite El. simpl. simpl in Hb.
    rewrite take_app_le by (rewrite length_take; lia). rewrite take_take. f_equal. lia.
Qed.
End dynamic_array.

Arguments DYNAMIC_ARRAY : clear implicits.

(** An array of two elements and room for two more. *)
Definition demo_array : DYNAMIC_ARRAY Z := mkArray (Some [5; 7; 0; 0]) 2 4 4 8.

Lemma demo_array_ok : array_ok demo_array.
Proof. constructor; simpl; unfold fits; simpl; lia. Qed.

Lemma dynamic_array_grows_witness :
  (fits demo_array (4 + 4) ->
   exists array', insert_dynamic 0 demo_array 9 true = Some (array', false) /\ array_ok array' /\
     view array' = view demo_array ++ [9]) /\
  (fits demo_array (6 + 4) ->
   exists array', set_dynamic 0 0 demo_array 9 6 true = Some (array', false) /\ array_ok array' /\
     view array' = view demo_array ++ replicate 4 0 ++ [9]) /\
  (2 = 4 -> insert_dynamic 0 demo_array 9 false = Some (demo_array, true)) /\
  (4 <= 6 -> set_dynamic 0 0 demo_array 9 6 false = Some (demo_array, true)).
Proof. apply (dynamic_array_grows 0 0 demo_array 9 6); [apply demo_array_ok|lia]. Defined.

Lemma dynamic_array_reads_witness :
  get_dynamic 0 demo_array 1 = Some 7 /\
  (let '(array', r) := pop_dynamic demo_array in
   array_ok array' /\ view array' = take (length (view demo_array) - 1) (view demo_array) /\ r = Some (2 - 1)) /\
  (1 < 2 -> exists array', delete_dynamic_element demo_array 1 = Some array' /\ array_ok array' /\
     view array' = delete 1%nat (view demo_array)) /\
  (array_ok (freeze_size 0 demo_array) /\ view (freeze_size 0 demo_array) = view demo_array).
Proof. apply (dynamic_array_reads 0 0 demo_array 1); [apply demo_array_ok|lia]. Defined.
