(* ===== verification/MyList.v ===== *)
(** * Doubly linked lists (mysys/list.c, include/my_list.h)

    Nodes live in a store that maps addresses to nodes and address 0 is the
    null pointer; every assignment through a pointer changes the store, so the
    sharing of nodes between the list and its callers is part of the model.
    [None] is the use of a null or dangling pointer. *)

From stdpp Require Import base numbers list gmap.
From Stdlib Require Import ZArith Lia.
From S2P Require Import Prelude.

Local Open Scope Z_scope.

Record LIST := mkNode { prev : Z; next : Z; data : Z }.

Abbreviation store := (gmap Z LIST).

Definition set_prev (p : Z) (n : LIST) : LIST := mkNode p (next n) (data n).
Definition set_next (p : Z) (n : LIST) : LIST := mkNode (prev n) p (data n).

(** [ptr->field = ...]. *)
Definition assign (f : LIST -> LIST) (ptr : Z) (h : store) : option store :=
  if ptr =? 0 then None else n ← h !! ptr; Some (<[ptr := f n]> h).

(** ** Operations *)

(** The store and the new root. *)
Definition list_add (h : store) (root element : Z) : option (store * Z) :=
  h ← (if negb (root =? 0) then
         r ← h !! root;
         h ← (if negb (prev r =? 0) then assign (set_next element) (prev r) h else Some h);
         r ← h !! root;
         h ← assign (set_prev (prev r)) element h;
         assign (set_prev element) root h
       else assign (set_prev 0) element h);
  h ← assign (set_next root) element h;
  Some (h, element).

Definition list_delete (h : store) (root element : Z) : option (store * Z) :=
  e ← h !! element;
  '(h, root) ← (if negb (prev e =? 0) then h ← assign (set_next (next e)) (prev e) h; Some (h, root)
                else Some (h, next e));
  e ← h !! element;
  h ← (if negb (next e =? 0) then assign (set_prev (prev e)) (next e) h else Some h);
  Some (h, root).

(** [list_cons]: [ptr] is the node [my_malloc] returns, 0 without memory, and
    [junk] what its bytes hold. *)
Definition list_cons (h : store) (d list ptr : Z) (junk : LIST) : option (store * Z) :=
  if ptr =? 0 then Some (h, 0)
  else list_add (<[ptr := mkNode (prev junk) (next junk) d]> h) list ptr.

(** [list_free]: every node is returned to the allocator, and with [free_data]
    its data before it; the result is the store and what was freed, in order. *)
Fixpoint list_free (fuel : nat) (free_data : bool) (h : store) (root : Z) : option (store * list Z) :=
  match fuel with
  | O => None
  | S fuel =>
      if root =? 0 then Some (h, [])
      else
        n ← h !! root;
        '(h, freed) ← list_free fuel free_data (delete root h) (next n);
        Some (h, (if free_data then [data n] else []) ++ root :: freed)
  end.

Fixpoint reverse_loop (fuel : nat) (h : store) (root last : Z) : option (store * Z) :=
  match fuel with
  | O => None
  | S fuel =>
      if root =? 0 then Some (h, last)
      else
        let last := root in
        n ← h !! root;
        let root := next n in
        h ← assign (set_next (prev n)) last h;
        h ← assign (set_prev root) last h;
        reverse_loop fuel h root last
  end.

Definition list_reverse (fuel : nat) (h : store) (root : Z) : option (store * Z) :=
  reverse_loop fuel h root root.

Fixpoint list_length (fuel : nat) (h : store) (list count : Z) : option Z :=
  match fuel with
  | O => None
  | S fuel => if list =? 0 then Some count else n ← h !! list; list_length fuel h (next n) (u32 (count + 1))
  end.

(** [action] is the callback on the data of a node; [arg] is the state behind
    its argument pointer. *)
Fixpoint list_walk {A} (fuel : nat) (action : Z -> A -> A * Z) (h : store) (list : Z) (arg : A) : option (A * Z) :=
  match fuel with
  | O => None
  | S fuel =>
      if list =? 0 then Some (arg, 0)
      else
        n ← h !! list;
        let '(arg, error) := action (data n) arg in
        if negb (error =? 0) then Some (arg, error) else list_walk fuel action h (next n) arg
  end.

(** ** What a list is *)

(** From [p], behind [before], the nodes at the addresses [l] up to null. *)
Fixpoint dll (h : store) (before p : Z) (l : list Z) : Prop :=
  match l with
  | [] => p = 0
  | a :: l => p = a /\ a <> 0 /\ exists n, h !! a = Some n /\ prev n = before /\ dll h a (next n) l
  end.

Definition is_list (h : store) (root : Z) (l : list Z) : Prop := NoDup l /\ dll h 0 root l.

(** The data of the nodes is never written. *)
Definition same_data (h h' : store) : Prop := forall a, data <$> h' !! a = data <$> h !! a.

Lemma assign_Some f p h n : p <> 0 -> h !! p = Some n -> assign f p h = Some (<[p := f n]> h).
Proof. intros Hp Hn. unfold assign. rewrite (proj2 (Z.eqb_neq p 0)) by done. by rewrite Hn, bind_Some_eq. Qed.

Lemma same_data_assign h p n f : h !! p = Some n -> data (f n) = data n -> same_data h (<[p := f n]> h).
Proof.
  intros Hn Hf a. destruct (decide (p = a)) as [<-|Hne].
  - rewrite lookup_insert_eq, Hn. simpl. by f_equal.
  - by rewrite lookup_insert_ne.
Qed.

Lemma same_data_trans h1 h2 h3 : same_data h1 h2 -> same_data h2 h3 -> same_data h1 h3.
Proof. intros H12 H23 a. by rewrite H23, H12. Qed.

(** Changes outside a list keep it. *)
Lemma dll_frame h h' l before p : dll h before p l -> (forall a, a ∈ l -> h' !! a = h !! a) -> dll h' before p l.
Proof.
  revert before p. induction l as [|a l IH]; intros before p; [done|]. intros (-> & Ha & n & Hn & Hp & Hl) Hf.
  split; [done|]. split; [done|]. exists n. rewrite Hf by apply list_elem_of_here.
  split; [done|]. split; [done|]. apply IH; [done|]. intros b Hb. apply Hf. by apply list_elem_of_further.
Qed.

Lemma dll_insert h l before p a n : dll h before p l -> a ∉ l -> dll (<[a := n]> h) before p l.
Proof.
  intros Hd Ha. eapply dll_frame; [done|]. intros b Hb. apply lookup_insert_ne. by intros ->.
Qed.

Lemma dll_nonzero h l before p a : dll h before p l -> a ∈ l -> a <> 0.
Proof.
  revert before p. induction l as [|b l IH]; intros before p; [by intros _ ?%not_elem_of_nil|].
  intros (_ & Hb & n & _ & _ & Hl) [->|Ha]%elem_of_cons; eauto.
Qed.

(** A list in two parts: [q] is the pointer between them, [z] the node before
    it (or [before]). *)
Lemma dll_app h l1 l2 before p : dll h before p (l1 ++ l2) ->
  dll h (default before (last l1)) (default 0 (head l2)) l2 /\
  (l1 <> [] -> exists n, h !! (default before (last l1)) = Some n /\ next n = default 0 (head l2)).
Proof.
  revert before p. induction l1 as [|a l1 IH]; intros before p H.
  - simpl. split; [|done]. destruct l2 as [|b l2]; [done|]. by destruct H as (-> & H).
  - destruct H as (-> & Ha & n & Hn & Hp & Hl). destruct (IH _ _ Hl) as [H1 H2].
    assert (default before (last (a :: l1)) = default a (last l1)) as ->.
    { destruct l1 as [|b l1]; [done|]. rewrite last_cons_cons. by destruct (last (b :: l1)) eqn:E; [|apply last_None in E]. }
    split; [done|]. intros _. destruct l1 as [|b l1].
    + simpl. exists n. split; [done|]. destruct l2 as [|c l2]; simpl in Hl; [done|]. by destruct Hl as (-> & _).
    + by apply H2.
Qed.

(** ** Insertion and removal *)

Lemma assign_alter f p h : p <> 0 -> is_Some (h !! p) -> assign f p h = Some (alter f p h).
Proof.
  intros Hp [n Hn]. rewrite (assign_Some _ _ _ n) by done. f_equal. apply map_eq. intros a.
  destruct (decide (p = a)) as [<-|Hne].
  - by rewrite lookup_insert_eq, lookup_alter_eq, Hn.
  - by rewrite lookup_insert_ne, lookup_alter_ne.
Qed.

Lemma same_data_alter h p f : (forall n, data (f n) = data n) -> same_data h (alter f p h).
Proof.
  intros Hf a. destruct (decide (p = a)) as [<-|Hne].
  - rewrite lookup_alter_eq. destruct (h !! p); simpl; [by rewrite Hf|done].
  - by rewrite lookup_alter_ne.
Qed.

Lemma dll_alter h l before p a f : dll h before p l -> a ∉ l -> dll (alter f a h) before p l.
Proof. intros Hd Ha. eapply dll_frame; [done|]. intros b Hb. apply lookup_alter_ne. by intros ->. Qed.

(** What the removal of the node between [l1] and [l2] does to the store. *)
Definition relinked (h : store) (before nxt : Z) (l1 l2 : list Z) : store :=
  let h := match last l1 with Some z => alter (set_next nxt) z h | None => h end in
  match l2 with b :: _ => alter (set_prev (default before (last l1))) b h | [] => h end.

Lemma dll_head h before p a l : dll h before p (a :: l) -> p = a.
Proof. by intros [-> _]. Qed.

(** Changing the back link of the first node. *)
Lemma dll_set_prev h before p b l z : dll h before p (b :: l) -> b ∉ l -> dll (alter (set_prev z) b h) z p (b :: l).
Proof.
  intros (-> & Hb & n & Hn & Hp & Hl) Hni. split; [done|]. split; [done|]. exists (set_prev z n).
  rewrite lookup_alter_eq, Hn. split; [done|]. split; [done|]. by apply dll_alter.
Qed.

Lemma dll_remove h before p l1 e l2 n : NoDup (l1 ++ e :: l2) -> dll h before p (l1 ++ e :: l2) ->
  h !! e = Some n ->
  dll (relinked h before (next n) l1 l2) before (match l1 with [] => next n | _ => p end) (l1 ++ l2).
Proof.
  revert before p. induction l1 as [|a l1 IH]; intros before p Hnd Hd He.
  - simpl in *. destruct Hd as (-> & _ & n' & Hn' & _ & Hl). rewrite He in Hn'. injection Hn' as <-.
    unfold relinked. simpl. apply NoDup_cons in Hnd as [He2 Hnd]. destruct l2 as [|b l2]; [done|].
    apply dll_set_prev with (before := e); [done|]. by apply NoDup_cons in Hnd as [? _].
  - simpl app in *. apply NoDup_cons in Hnd as [Ha Hnd]. destruct Hd as (-> & Ha0 & na & Hna & Hpa & Hl).
    specialize (IH a (next na) Hnd Hl He). destruct l1 as [|b l1].
    + cbn [app] in *. unfold relinked in *. cbn [last default from_option id] in *.
      apply not_elem_of_cons in Ha as [Hae Ha]. split; [done|]. split; [done|].
      exists (set_next (next n) na). destruct l2 as [|c l2].
      * rewrite lookup_alter_eq, Hna. split; [done|]. split; [done|]. done.
      * rewrite lookup_alter_ne by (intros ->; apply Ha, list_elem_of_here). rewrite lookup_alter_eq, Hna.
        split; [done|]. split; [done|]. change (next (set_next (next n) na)) with (next n).
        eapply dll_frame; [exact IH|]. intros d Hd. destruct (decide (c = d)) as [<-|Hne].
        -- rewrite !lookup_alter_eq. f_equal. apply lookup_alter_ne. intros ->. by apply Ha.
        -- rewrite !(lookup_alter_ne _ _ c) by done. apply lookup_alter_ne. intros ->. by apply Ha.
    + assert (relinked h before (next n) (a :: b :: l1) l2 = relinked h a (next n) (b :: l1) l2) as ->.
      { unfold relinked. rewrite last_cons_cons. destruct (last (b :: l1)) eqn:E; [done|]. by apply last_None in E. }
      split; [done|]. split; [done|]. exists na. split; [|split; [done|exact IH]].
      rewrite <- Hna. unfold relinked.
      assert (exists z, last (b :: l1) = Some z /\ z ∈ b :: l1) as (z & Hz & Hzin).
      { destruct (last (b :: l1)) as [z|] eqn:E; [exists z; split; [done|by apply last_Some_elem_of]|by apply last_None in E]. }
      rewrite Hz. destruct l2 as [|c l2]; [|rewrite lookup_alter_ne].
      * apply lookup_alter_ne. intros ->. apply Ha. apply (elem_of_app (b :: l1)). by left.
      * apply lookup_alter_ne. intros ->. apply Ha. apply (elem_of_app (b :: l1)). by left.
      * intros ->. apply Ha. apply (elem_of_app (b :: l1)). right. apply list_elem_of_further, list_elem_of_here.
Qed.

Lemma is_Some_alter (h : store) (f : LIST -> LIST) p a : is_Some (h !! a) -> is_Some (alter f p h !! a).
Proof.
  intros [n Hn]. destruct (decide (p = a)) as [<-|Hne].
  - rewrite lookup_alter_eq, Hn. by eexists.
  - rewrite lookup_alter_ne by done. by eexists.
Qed.

Lemma dll_is_Some h l before p a : dll h before p l -> a ∈ l -> is_Some (h !! a).
Proof.
  revert before p. induction l as [|b l IH]; intros before p; [by intros _ ?%not_elem_of_nil|].
  intros (_ & _ & n & Hn & _ & Hl) [->|Ha]%elem_of_cons; [by eexists|by eauto].
Qed.

(** What the insertion of [e] before [r] does to the store; [l1] is in front of
    [r] and [e]. *)
Definition added (h : store) (before e r : Z) (l1 : list Z) : store :=
  let h := alter (set_next r) e (alter (set_prev e) r (alter (set_prev (default before (last l1))) e h)) in
  match last l1 with Some z => alter (set_next e) z h | None => h end.

Lemma dll_add h before p l1 e r l2 : NoDup (l1 ++ r :: l2) -> e ∉ l1 ++ r :: l2 -> e <> 0 -> is_Some (h !! e) ->
  dll h before p (l1 ++ r :: l2) ->
  dll (added h before e r l1) before (match l1 with [] => e | _ => p end) (l1 ++ e :: r :: l2).
Proof.
  intros Hnd He He0 [ne Hne]. revert before p Hnd He. induction l1 as [|a l1 IH]; intros before p Hnd He Hd.
  - unfold added. cbn [app last default from_option id] in *. apply not_elem_of_cons in He as [Her He].
    apply NoDup_cons in Hnd as [Hr Hnd]. split; [done|]. split; [done|].
    exists (set_next r (set_prev before ne)). split.
    { rewrite lookup_alter_eq, lookup_alter_ne, lookup_alter_eq, Hne by done. done. }
    split; [done|]. apply dll_alter; [|by apply not_elem_of_cons].
    pose proof (dll_head _ _ _ _ _ Hd) as ->.
    apply dll_set_prev with (before := before); [|done]. apply dll_alter; [done|by apply not_elem_of_cons].
  - cbn [app] in *. apply NoDup_cons in Hnd as [Ha Hnd]. apply not_elem_of_cons in He as [Hea He].
    destruct Hd as (-> & Ha0 & na & Hna & Hpa & Hl). specialize (IH a (next na) Hnd He Hl).
    destruct l1 as [|b l1].
    + unfold added in *. cbn [app last default from_option id] in *. split; [done|]. split; [done|].
      apply not_elem_of_cons in Ha as [Har Ha].
      exists (set_next e na). rewrite lookup_alter_eq, !lookup_alter_ne, Hna by done.
      split; [done|]. split; [done|]. apply dll_alter; [exact IH|]. rewrite !not_elem_of_cons. done.
    + assert (added h before e r (a :: b :: l1) = added h a e r (b :: l1)) as ->.
      { unfold added. rewrite last_cons_cons. destruct (last (b :: l1)) eqn:E; [done|]. by apply last_None in E. }
      split; [done|]. split; [done|]. exists na. split; [|split; [done|exact IH]].
      rewrite <- Hna. unfold added.
      assert (a <> r) by (intros ->; apply Ha, (elem_of_app (b :: l1)); right; apply list_elem_of_here).
      destruct (last (b :: l1)) as [z|] eqn:E; rewrite !lookup_alter_ne; try done.
      intros ->. apply Ha, (elem_of_app (b :: l1)). left. by apply last_Some_elem_of.
Qed.

(** The calls, on a list with [l1] in front of the node they name. *)
Lemma list_add_spec h p l1 r l2 e : is_list h p (l1 ++ r :: l2) -> e ∉ l1 ++ r :: l2 -> e <> 0 -> is_Some (h !! e) ->
  exists h', list_add h r e = Some (h', e) /\ same_data h h' /\
    is_list h' (match l1 with [] => e | _ => p end) (l1 ++ e :: r :: l2).
Proof.
  intros [Hnd Hd] He He0 Hes. pose proof (dll_add _ _ _ _ _ _ _ Hnd He He0 Hes Hd) as Hadd.
  destruct (dll_app _ _ _ _ _ Hd) as [H2 _]. cbn [head default from_option id] in H2.
  assert (r <> 0) as Hr0 by apply H2.
  destruct H2 as (_ & _ & nr & Hnr & Hpr & _).
  assert (e <> r) as Her by (intros ->; apply He, elem_of_app; right; apply list_elem_of_here).
  exists (added h 0 e r l1). split; [|split].
  2: { unfold added. destruct (last l1); repeat (eapply same_data_trans; [|by apply same_data_alter]); done. }
  2: { split; [|done]. apply NoDup_app in Hnd as (N1 & N12 & N2). apply not_elem_of_app in He as [He1 He2].
       apply NoDup_app. split; [done|]. split; [|by constructor].
       intros x Hx [->|Hx']%elem_of_cons; [done|]. by apply (N12 x). }
  unfold list_add. rewrite (proj2 (Z.eqb_neq r 0)) by done. cbn [negb].
  rewrite Hnr, bind_Some_eq, Hpr. unfold added. destruct (last l1) as [z|] eqn:E; cbn [default from_option id].
  - apply last_Some_elem_of in E as Hz.
    assert (z ∈ l1 ++ r :: l2) as Hz' by (apply elem_of_app; by left).
    pose proof (dll_nonzero _ _ _ _ _ Hd Hz') as Hz0. pose proof (dll_is_Some _ _ _ _ _ Hd Hz') as Hzs.
    assert (z <> r) as Hzr.
    { intros ->. apply NoDup_app in Hnd as (_ & N12 & _). apply (N12 r Hz), list_elem_of_here. }
    assert (e <> z) as Hez by (by intros ->).
    rewrite (proj2 (Z.eqb_neq z 0)) by done. cbn [negb]. rewrite assign_alter by done. rewrite bind_Some_eq.
    rewrite lookup_alter_ne, Hnr by done. rewrite bind_Some_eq, Hpr.
    rewrite assign_alter by auto using is_Some_alter. rewrite bind_Some_eq.
    rewrite assign_alter by (try apply is_Some_alter, is_Some_alter; eauto). rewrite bind_Some_eq.
    rewrite assign_alter by auto using is_Some_alter. rewrite bind_Some_eq. do 2 f_equal.
    rewrite (alter_alter_ne _ _ _ z e), (alter_alter_ne _ _ _ z r), (alter_alter_ne _ _ _ z e) by done. done.
  - cbn [negb Z.eqb]. rewrite bind_Some_eq, Hnr, bind_Some_eq, Hpr.
    rewrite assign_alter by done. rewrite bind_Some_eq.
    rewrite assign_alter by (try apply is_Some_alter; eauto). rewrite bind_Some_eq.
    rewrite assign_alter by auto using is_Some_alter. by rewrite bind_Some_eq.
Qed.

(** Adding to the empty list. *)
Lemma list_add_empty h e n : e <> 0 -> h !! e = Some n ->
  exists h', list_add h 0 e = Some (h', e) /\ same_data h h' /\ is_list h' e [e].
Proof.
  intros He Hn. exists (alter (set_next 0) e (alter (set_prev 0) e h)). split; [|split].
  - unfold list_add. cbn [Z.eqb negb]. rewrite assign_alter by eauto. rewrite bind_Some_eq.
    rewrite assign_alter by eauto using is_Some_alter. by rewrite bind_Some_eq.
  - by repeat (eapply same_data_trans; [|by apply same_data_alter]).
  - split; [apply NoDup_singleton|]. split; [done|]. split; [done|]. exists (set_next 0 (set_prev 0 n)).
    by rewrite !lookup_alter_eq, Hn.
Qed.

Lemma list_delete_spec h p l1 e l2 : is_list h p (l1 ++ e :: l2) ->
  exists h' p', list_delete h p e = Some (h', p') /\ same_data h h' /\ h' !! e = h !! e /\ is_list h' p' (l1 ++ l2).
Proof.
  intros [Hnd Hd]. destruct (dll_app _ _ _ _ _ Hd) as [H2 _]. cbn [head default from_option id] in H2.
  destruct H2 as (_ & He0 & n & Hn & Hpn & H2). pose proof (dll_remove _ _ _ _ _ _ _ Hnd Hd Hn) as Hrem.
  apply NoDup_app in Hnd as (N1 & N12 & [He2 N2]%NoDup_cons).
  assert (e ∉ l1) as He1 by (intros Hin; apply (N12 e Hin), list_elem_of_here).
  assert (NoDup (l1 ++ l2)) as Hnd.
  { apply NoDup_app. split; [done|]. split; [|done]. intros x Hx Hx2. by apply (N12 x Hx), list_elem_of_further. }
  exists (relinked h 0 (next n) l1 l2), (match l1 with [] => next n | _ => p end).
  assert (forall b l2', l2 = b :: l2' -> next n = b /\ b <> 0 /\ b <> e /\ is_Some (h !! b)) as Hb.
  { intros b l2' ->. destruct H2 as (-> & ? & nb & ? & _). split; [done|]. split; [done|].
    split; [|by eexists]. intros ->. apply He2, list_elem_of_here. }
  assert (l2 = [] -> next n = 0) as H20 by (by intros ->).
  unfold relinked in *. unfold list_delete. rewrite Hn, bind_Some_eq, Hpn.
  split; [|split; [|split; [|done]]].
  - destruct (last l1) as [z|] eqn:E; cbn [default from_option id].
    + assert (z ∈ l1) as Hz by (by apply last_Some_elem_of).
      assert (z ∈ l1 ++ e :: l2) as Hz' by (apply elem_of_app; by left).
      pose proof (dll_nonzero _ _ _ _ _ Hd Hz') as Hz0. pose proof (dll_is_Some _ _ _ _ _ Hd Hz') as Hzs.
      rewrite (proj2 (Z.eqb_neq z 0)) by done. cbn [negb]. rewrite assign_alter by done. rewrite !bind_Some_eq.
      rewrite lookup_alter_ne, Hn by congruence. rewrite bind_Some_eq, Hpn.
      destruct l1 as [|a l1]; [done|]. destruct l2 as [|b l2].
      * by rewrite H20.
      * destruct (Hb b l2 eq_refl) as (-> & Hb0 & _ & Hbs). rewrite (proj2 (Z.eqb_neq b 0)) by done. cbn [negb].
        rewrite assign_alter by auto using is_Some_alter. by rewrite bind_Some_eq.
    + apply last_None in E as ->. cbn [Z.eqb negb]. rewrite bind_Some_eq, Hn, bind_Some_eq, Hpn.
      destruct l2 as [|b l2].
      * by rewrite H20.
      * destruct (Hb b l2 eq_refl) as (-> & Hb0 & _ & Hbs). rewrite (proj2 (Z.eqb_neq b 0)) by done. cbn [negb].
        rewrite assign_alter by done. by rewrite bind_Some_eq.
  - destruct (last l1), l2; repeat (eapply same_data_trans; [|by apply same_data_alter]); done.
  - destruct l2 as [|b l2]; [|destruct (Hb b l2 eq_refl) as (_ & _ & Hbe & _); rewrite lookup_alter_ne by done].
    all: destruct (last l1) as [z|] eqn:E; [|done]; rewrite lookup_alter_ne; [done|]; intros ->; by apply last_Some_elem_of in E.
Qed.

(** ** Reversal and the read only walks *)

Lemma reverse_loop_spec rest : forall fuel h z p done_l root_last,
  (length rest < fuel)%nat -> NoDup (rest ++ done_l) -> dll h z p rest -> dll h p z done_l ->
  (rest = [] -> root_last = z) ->
  exists h' q, reverse_loop fuel h p root_last = Some (h', q) /\ same_data h h' /\
    (forall a, a ∉ rest -> h' !! a = h !! a) /\ dll h' 0 q (rev rest ++ done_l).
Proof.
  induction rest as [|a rest IH]; intros fuel h z p done_l rl Hf Hnd Hr Hd Hl.
  all: destruct fuel as [|fuel]; [simpl in Hf; lia|]; cbn [reverse_loop].
  - rewrite Hr in *. exists h, z. cbn [Z.eqb]. rewrite (Hl eq_refl). by split.
  - destruct Hr as (-> & Ha & n & Hn & Hp & Hr). rewrite (proj2 (Z.eqb_neq a 0)) by done.
    cbn [app] in Hnd. apply NoDup_cons in Hnd as [Hni Hnd]. rewrite not_elem_of_app in Hni. destruct Hni as [Hni1 Hni2].
    rewrite Hn, bind_Some_eq, Hp. rewrite assign_alter by eauto. rewrite bind_Some_eq.
    rewrite assign_alter by eauto using is_Some_alter. rewrite bind_Some_eq.
    set (h1 := alter (set_prev (next n)) a (alter (set_next z) a h)).
    assert (dll h1 (next n) a (a :: done_l)) as Hd1.
    { split; [done|]. split; [done|]. exists (set_prev (next n) (set_next z n)). unfold h1.
      rewrite !lookup_alter_eq, Hn. split; [done|]. split; [done|]. by repeat apply dll_alter. }
    destruct (IH fuel h1 a (next n) (a :: done_l) a) as (h' & q & -> & Hdat & Hfr & Hres); simpl in Hf; try lia.
    + apply NoDup_app in Hnd as (N1 & N12 & N2). apply NoDup_app. split; [done|]. split; [|by constructor].
      intros x Hx [->|Hx']%elem_of_cons; [done|]. by apply (N12 x).
    + unfold h1. by repeat apply dll_alter.
    + exact Hd1.
    + exists h', q. split; [done|]. split; [|split].
      * eapply same_data_trans; [|exact Hdat]. unfold h1.
        repeat (eapply same_data_trans; [|by apply same_data_alter]); done.
      * intros b [Hb1 Hb2]%not_elem_of_cons. rewrite (Hfr b Hb2). unfold h1. by rewrite !lookup_alter_ne.
      * cbn [rev]. by rewrite <- app_assoc.
Qed.

Lemma list_length_spec l : forall fuel h before p c, (length l < fuel)%nat -> dll h before p l ->
  0 <= c -> c + Z.of_nat (length l) < 2 ^ 32 -> list_length fuel h p c = Some (c + Z.of_nat (length l)).
Proof.
  induction l as [|a l IH]; intros fuel h before p c Hf Hd Hc Hb; (destruct fuel as [|fuel]; [simpl in Hf; lia|]).
  all: cbn [list_length].
  - rewrite Hd. cbn [Z.eqb length]. f_equal. lia.
  - destruct Hd as (-> & Ha & n & Hn & _ & Hl). rewrite (proj2 (Z.eqb_neq a 0)) by done. rewrite Hn, bind_Some_eq.
    simpl length in *. rewrite (IH _ _ a) by (try done; unfold u32 in *; rewrite ?Z.mod_small; lia).
    unfold u32. rewrite Z.mod_small by lia. f_equal. lia.
Qed.

(** The walk over a Rocq list, up to the first error. *)
Fixpoint walk {A} (action : Z -> A -> A * Z) (ds : list Z) (arg : A) : A * Z :=
  match ds with
  | [] => (arg, 0)
  | d :: ds => let '(arg, error) := action d arg in if negb (error =? 0) then (arg, error) else walk action ds arg
  end.

Lemma list_walk_spec {A} (action : Z -> A -> A * Z) l : forall fuel h before p ds arg,
  (length l < fuel)%nat -> dll h before p l -> Forall2 (fun a d => data <$> h !! a = Some d) l ds ->
  list_walk fuel action h p arg = Some (walk action ds arg).
Proof.
  induction l as [|a l IH]; intros fuel h before p ds arg Hf Hd Hds; (destruct fuel as [|fuel]; [simpl in Hf; lia|]).
  all: inversion Hds as [|? d ? ds' Hda Hds']; subst; cbn [list_walk walk].
  - by rewrite Hd.
  - destruct Hd as (-> & Ha & n & Hn & _ & Hl). rewrite (proj2 (Z.eqb_neq a 0)) by done. rewrite Hn, bind_Some_eq.
    rewrite Hn in Hda. injection Hda as ->. destruct (action d arg) as [arg' err].
    destruct (err =? 0); cbn [negb]; [|done]. simpl in Hf. eapply IH; eauto. lia.
Qed.

Lemma list_free_spec l : forall fuel h before p, (length l < fuel)%nat -> NoDup l -> dll h before p l ->
  exists h', list_free fuel false h p = Some (h', l) /\ forall a, h' !! a = if decide (a ∈ l) then None else h !! a.
Proof.
  induction l as [|a l IH]; intros fuel h before p Hf Hnd Hd; (destruct fuel as [|fuel]; [simpl in Hf; lia|]).
  all: cbn [list_free].
  - exists h. by rewrite Hd.
  - destruct Hd as (-> & Ha & n & Hn & _ & Hl). apply NoDup_cons in Hnd as [Hni Hnd].
    rewrite (proj2 (Z.eqb_neq a 0)) by done. rewrite Hn, bind_Some_eq.
    destruct (IH fuel (delete a h) a (next n)) as (h' & -> & Hh'); [simpl in Hf; lia|done| |].
    { eapply dll_frame; [done|]. intros b Hb. apply lookup_delete_ne. by intros ->. }
    rewrite bind_Some_eq. exists h'. split; [done|]. intros b. rewrite Hh'.
    destruct (decide (b ∈ l)) as [Hbl|Hbl], (decide (b ∈ a :: l)) as [Hb|Hb]; try done.
    + exfalso. by apply Hb, list_elem_of_further.
    + apply elem_of_cons in Hb as [->|?]; [by apply lookup_delete_eq|done].
    + apply lookup_delete_ne. intros ->. apply Hb, list_elem_of_here.
Qed.

(** ** The lists as a whole *)

(** A node added before a node [r] of a list, with any nodes in front of
    it, stands before it, and deleting it again (through the root the code then
    has) gives the list that was there; no data is written. *)
Theorem list_add_delete h p l1 r l2 e : is_list h p (l1 ++ r :: l2) -> e ∉ l1 ++ r :: l2 -> e <> 0 ->
  is_Some (h !! e) ->
  exists h1 h2 p2,
    list_add h r e = Some (h1, e) /\ same_data h h1 /\
    is_list h1 (match l1 with [] => e | _ => p end) (l1 ++ e :: r :: l2) /\
    list_delete h1 (match l1 with [] => e | _ => p end) e = Some (h2, p2) /\ same_data h h2 /\
    is_list h2 p2 (l1 ++ r :: l2).
Proof.
  intros Hl He He0 Hes. destruct (list_add_spec _ _ _ _ _ _ Hl He He0 Hes) as (h1 & Ha & Hd1 & Hl1).
  destruct (list_delete_spec _ _ _ _ _ Hl1) as (h2 & p2 & Hd & Hd2 & _ & Hl2).
  exists h1, h2, p2. split_and!; eauto using same_data_trans.
Qed.

(** [list_reverse] ends and gives the list backwards, in place and with the
    data of every node kept; the lengths agree and a second reversal gives the
    first list again. *)
Theorem list_reverse_correct fuel h p l : is_list h p l -> (length l < fuel)%nat -> Z.of_nat (length l) < 2 ^ 32 ->
  exists h1 q h2 p2,
    list_reverse fuel h p = Some (h1, q) /\ is_list h1 q (rev l) /\ same_data h h1 /\
    list_length fuel h1 q 0 = Some (Z.of_nat (length l)) /\
    list_reverse fuel h1 q = Some (h2, p2) /\ is_list h2 p2 l /\ same_data h h2.
Proof.
  intros [Hnd Hd] Hf Hlen.
  assert (forall h p l, NoDup l -> dll h 0 p l -> (length l < fuel)%nat ->
    exists h1 q, list_reverse fuel h p = Some (h1, q) /\ same_data h h1 /\ is_list h1 q (rev l)) as Hrev.
  { intros h0 p0 l0 Hnd0 Hd0 Hf0. unfold list_reverse.
    destruct (reverse_loop_spec l0 fuel h0 0 p0 [] p0) as (h' & q & -> & Hdat & _ & Hr).
    - done.
    - by rewrite app_nil_r.
    - done.
    - destruct l0 as [|a l0]; [done|]. by destruct Hd0 as (-> & _).
    - intros ->. done.
    - rewrite app_nil_r in Hr. exists h', q. split; [done|]. split; [done|]. split; [|done].
      by apply NoDup_ListNoDup, NoDup_rev, NoDup_ListNoDup. }
  destruct (Hrev h p l) as (h1 & q & H1 & D1 & N1 & L1); [done..|].
  destruct (Hrev h1 q (rev l)) as (h2 & p2 & H2 & D2 & L2); [done|done|by rewrite length_rev|].
  exists h1, q, h2, p2. rewrite rev_involutive in L2.
  split_and!; eauto using same_data_trans; [by split|].
  rewrite (list_length_spec (rev l) fuel h1 0 q 0); rewrite ?length_rev; try done; lia.
Qed.

(** Two linked nodes and a third one outside. *)
Definition two_nodes : store :=
  <[1 := mkNode 0 2 10]> (<[2 := mkNode 1 0 20]> (<[3 := mkNode 7 8 30]> ∅)).

Lemma two_nodes_list : is_list two_nodes 1 [1; 2].
Proof.
  split; [apply (bool_decide_unpack _); by vm_compute|]. split; [done|]. split; [lia|].
  exists (mkNode 0 2 10). split; [done|]. split; [done|]. split; [done|]. split; [lia|].
  exists (mkNode 1 0 20). done.
Qed.

Lemma list_add_delete_witness : exists h1 h2 p2,
  list_add two_nodes 2 3 = Some (h1, 3) /\ same_data two_nodes h1 /\ is_list h1 1 [1; 3; 2] /\
  list_delete h1 1 3 = Some (h2, p2) /\ same_data two_nodes h2 /\ is_list h2 p2 [1; 2].
Proof.
  apply (list_add_delete two_nodes 1 [1] 2 [] 3); [apply two_nodes_list| |lia|by eexists].
  apply (bool_decide_unpack _); by vm_compute.
Defined.

Lemma list_reverse_correct_witness : exists h1 q h2 p2,
  list_reverse 3 two_nodes 1 = Some (h1, q) /\ is_list h1 q [2; 1] /\ same_data two_nodes h1 /\
  list_length 3 h1 q 0 = Some 2 /\ list_reverse 3 h1 q = Some (h2, p2) /\ is_list h2 p2 [1; 2] /\
  same_data two_nodes h2.
Proof. apply (list_reverse_correct 3 two_nodes 1 [1; 2]); [apply two_nodes_list|simpl; lia|simpl; lia]. Defined.
