(* ===== verification/Like.v ===== *)
(** * The meaning of LIKE

    The strings a pattern stands for, and what the comparison functions of the
    character sets may answer on the way.  It is shared by the binary
    collation and the Unicode ones, which differ in the weights of the
    characters. *)

From stdpp Require Import base numbers list.
From Stdlib Require Import ZArith Lia.
From S2P Require Import Prelude.

Local Open Scope Z_scope.

Section like.
Variables (weight : Z -> Z) (escape w_one w_many : Z).

(** A pattern and the strings it stands for: an escape character makes the
    next one, if there is one, an ordinary character, and characters are
    compared by their weights. *)
Inductive like : list Z -> list Z -> Prop :=
| like_nil : like [] []
| like_many s s' w : like s' w -> like (s ++ s') (w_many :: w)
| like_one c s w : like s w -> like (c :: s) (w_one :: w)
| like_escaped x c s w : weight x = weight c -> like s w -> like (x :: s) (escape :: c :: w)
| like_char x c s w : c <> w_many -> c <> w_one -> c <> escape \/ w = [] -> weight x = weight c -> like s w ->
    like (x :: s) (c :: w).

Hypothesis distinct : escape <> w_one /\ escape <> w_many /\ w_one <> w_many.

(** No part of [str] up to its end matches. *)
Definition hopeless (str w : list Z) : Prop := forall s1 s2, str = s1 ++ s2 -> ~ like s2 w.

(** The results of a comparison: 0 for a match, -1 when no later start helps. *)
Definition answers (str w : list Z) (r : Z) : Prop :=
  (r = 0 <-> like str w) /\ (r = -1 -> hopeless str w) /\ -1 <= r <= 1.

(** A token that takes one character takes it from every part. *)
Lemma hopeless_cons x str w w' : hopeless str w' ->
  (forall s, like s w -> exists y s', s = y :: s' /\ like s' w') -> hopeless (x :: str) w.
Proof.
  intros Hh Hone s1 s2 E Hl. destruct (Hone s2 Hl) as (y & s' & -> & Hl').
  destruct s1 as [|z s1]; simplify_eq/=; [by apply (Hh [] s')|].
  apply (Hh (s1 ++ [y]) s'); [by rewrite <- app_assoc|done].
Qed.

Lemma hopeless_nil w : ~ like [] w -> hopeless [] w.
Proof. intros Hn s1 s2 E Hl. symmetry in E. by apply app_nil in E as [-> ->]. Qed.

Lemma like_nil_inv s : like s [] -> s = [].
Proof. by inversion 1. Qed.

Lemma like_one_inv s w : like s (w_one :: w) -> exists y s', s = y :: s' /\ like s' w.
Proof. inversion 1; subst; try lia; eauto. Qed.

Lemma like_many_inv s w : like s (w_many :: w) -> exists s1 s2, s = s1 ++ s2 /\ like s2 w.
Proof. inversion 1; subst; try lia; eauto. Qed.

(** [lit] is the character that the pattern [c :: w] starts with and [rest]
    the pattern behind it. *)
Definition literal (c : Z) (w : list Z) (lit : Z) (rest : list Z) : Prop :=
  match w with
  | e :: w' => if c =? escape then lit = e /\ rest = w' else lit = c /\ rest = w
  | [] => lit = c /\ rest = []
  end.

Lemma like_literal c w lit rest s : c <> w_many -> c <> w_one -> literal c w lit rest ->
  like s (c :: w) <-> exists x s', s = x :: s' /\ weight x = weight lit /\ like s' rest.
Proof.
  intros Hm Ho Hl. unfold literal in Hl. split.
  - intros Hs. inversion Hs as [|? ? ? ? E1 E2|? ? ? ? E1 E2|x y s' w' Hw Hs' E1 E2|x y s' w' _ _ Hx Hw Hs' E1 E2]; subst; try done.
    + rewrite Z.eqb_refl in Hl. destruct Hl as [-> ->]. eauto.
    + destruct w as [|e w]; [destruct Hl as [-> ->]; eauto|].
      destruct (Z.eqb_spec c escape) as [E|E]; destruct Hl as [-> ->]; [|eauto]. by destruct Hx.
  - intros (x & s' & -> & Hw & Hs). destruct w as [|e w'].
    + destruct Hl as [-> ->]. apply like_char; auto.
    + destruct (Z.eqb_spec c escape) as [->|E]; destruct Hl as [-> ->]; [by apply like_escaped|apply like_char; auto].
Qed.

(** Taking the same token from the string and from the pattern. *)
Definition lift (str w str' w' : list Z) : Prop :=
  (like str w <-> like str' w') /\ (hopeless str' w' -> hopeless str w).

Lemma lift_refl s w : lift s w s w.
Proof. by split. Qed.

Lemma lift_trans s1 w1 s2 w2 s3 w3 : lift s1 w1 s2 w2 -> lift s2 w2 s3 w3 -> lift s1 w1 s3 w3.
Proof. intros [H1 H2] [H3 H4]. split; [by rewrite H1|auto]. Qed.

Lemma lift_answers s w s' w' r : lift s w s' w' -> answers s' w' r -> answers s w r.
Proof. intros [H1 H2] (H3 & H4 & H5). split_and!; try lia; [by rewrite H1|auto]. Qed.

Lemma lift_literal c w lit rest x str : c <> w_many -> c <> w_one -> literal c w lit rest -> weight x = weight lit ->
  lift (x :: str) (c :: w) str rest.
Proof.
  intros Hm Ho Hl Hx. pose proof (fun s => like_literal c w lit rest s Hm Ho Hl) as Hlike. split.
  - rewrite Hlike. split; [by intros (y & s' & [= <- <-] & _ & ?)|eauto].
  - intros Hh. eapply hopeless_cons; [done|]. intros s (y & s' & -> & _ & ?)%Hlike. eauto.
Qed.

Lemma lift_one x w str : lift (x :: str) (w_one :: w) str w.
Proof.
  split.
  - split; [|apply like_one]. by intros (y & s' & [= _ <-] & ?)%like_one_inv.
  - intros Hh. eapply hopeless_cons; [done|]. intros s Hs. by apply like_one_inv.
Qed.

(** The literal at the head of a pattern does not match. *)
Lemma answers_differs c w lit rest str : c <> w_many -> c <> w_one -> literal c w lit rest ->
  (forall x s, str = x :: s -> weight x <> weight lit) -> answers str (c :: w) 1.
Proof.
  intros Hm Ho Hl Hs. split_and!; try lia. rewrite (like_literal c w lit rest) by done.
  split; [lia|]. intros (x & s' & -> & Hx & _). by destruct (Hs x s').
Qed.

Lemma answers_end str : answers str [] (b2z (negb (bool_decide (str = [])))).
Proof.
  split_and!; [|case_bool_decide; simpl; lia..]. case_bool_decide as E; simpl.
  - subst. split; [constructor|done].
  - split; [lia|]. by intros ?%like_nil_inv.
Qed.

(** Some part of the string, up to its end, matches. *)
Definition somewhere (str w : list Z) : Prop := exists s1 s2, str = s1 ++ s2 /\ like s2 w.

Lemma like_many_somewhere str w : like str (w_many :: w) <-> somewhere str w.
Proof.
  split; [intros (s1 & s2 & -> & ?)%like_many_inv; by exists s1, s2|]. intros (s1 & s2 & -> & ?). by constructor.
Qed.

Lemma somewhere_many str w : somewhere str (w_many :: w) <-> somewhere str w.
Proof.
  split.
  - intros (s1 & s2 & -> & (s3 & s4 & -> & ?)%like_many_inv). exists (s1 ++ s3), s4. by rewrite <- app_assoc.
  - intros Hs%like_many_somewhere. by exists [], str.
Qed.

Lemma somewhere_one x str w : somewhere (x :: str) (w_one :: w) <-> somewhere str w.
Proof.
  split.
  - intros (s1 & s2 & E & (y & s' & -> & ?)%like_one_inv). destruct s1 as [|z s1]; simplify_eq/=; [by exists [], s'|].
    exists (s1 ++ [y]), s'. by rewrite <- app_assoc.
  - intros (s1 & s2 & -> & ?). destruct s1 as [|z s1] using rev_ind; [exists [], (x :: s2); split; [done|by constructor]|].
    clear IHs1. exists (x :: s1), (z :: s2). split; [by rewrite <- app_assoc|by constructor].
Qed.

Lemma somewhere_literal c w lit rest str : c <> w_many -> c <> w_one -> literal c w lit rest ->
  somewhere str (c :: w) <-> exists s1 x s2, str = s1 ++ x :: s2 /\ weight x = weight lit /\ like s2 rest.
Proof.
  intros Hm Ho Hl. unfold somewhere. setoid_rewrite (like_literal c w lit rest _ Hm Ho Hl). split.
  - intros (s1 & ? & -> & x & s2 & -> & ? & ?). by exists s1, x, s2.
  - intros (s1 & x & s2 & -> & ? & ?). exists s1, (x :: s2). split; [done|]. by exists x, s2.
Qed.

Lemma answers_many str w r : r = 0 \/ r = -1 -> (r = 0 <-> somewhere str w) -> answers str (w_many :: w) r.
Proof.
  intros Hr Hs. split_and!; try lia; [by rewrite like_many_somewhere|].
  intros -> s1 s2 -> Hl. assert (-1 = 0); [|lia]. apply Hs. apply like_many_inv in Hl as (s3 & s4 & -> & Hl).
  exists (s1 ++ s3), s4. by rewrite <- app_assoc.
Qed.

End like.
