(* ===== verification/Wild8.v ===== *)
(** * LIKE on strings of bytes (strings/ctype-simple.c, strings/ctype-bin.c)

    [my_wildcmp_8bit] and [my_wildcmp_bin] are the same text: [likeconv] is a
    look-up in the table of weights for the one and nothing for the other.
    The loops are here, with [likeconv] as a parameter. *)

From stdpp Require Import base numbers list.
From Stdlib Require Import ZArith Lia.
From S2P Require Import Prelude Like.

Local Open Scope Z_scope.

(** ** LIKE *)

Section wildcmp.
(** [past] is the byte the code reads behind the pattern. *)
Variables (likeconv : Z -> Z) (escape w_one w_many past : Z).

Inductive outcome := Ret (r : Z) | Go (str wild : list Z) (result : Z).

(** [while ( *wildstr != w_many && *wildstr != w_one)]. *)
Fixpoint anchors (wild str : list Z) (result : Z) : outcome :=
  match wild with
  | [] => Go str wild result
  | c :: w =>
      if (s8 c =? w_many) || (s8 c =? w_one) then Go str wild result
      else
        let one (lit : Z) (str : list Z) : option (list Z) :=
          match str with [] => None | x :: str => if likeconv x =? likeconv lit then Some str else None end in
        match w with
        | e :: w' =>
            if s8 c =? escape then
              match one e str with
              | None => Ret 1
              | Some str => match w' with [] => Ret (b2z (negb (bool_decide (str = [])))) | _ => anchors w' str 1 end
              end
            else match one c str with None => Ret 1 | Some str => anchors w str 1 end
        | [] => match one c str with None => Ret 1 | Some str => Ret (b2z (negb (bool_decide (str = [])))) end
        end
  end.

(** The loop over [w_one]; the pattern starts with one. *)
Fixpoint ones (wild str : list Z) (result : Z) : outcome :=
  match wild with
  | [] => Go str wild result
  | c :: w =>
      if s8 c =? w_one then match str with [] => Ret result | _ :: str => ones w str result end
      else Go str wild result
  end.

(** Remove any '%' and '_' from the wild search string. *)
Fixpoint skip_wild (wild str : list Z) : outcome :=
  match wild with
  | [] => Go str wild 0
  | c :: w =>
      if s8 c =? w_many then skip_wild w str
      else if s8 c =? w_one then match str with [] => Ret (-1) | _ :: str => skip_wild w str end
      else Go str wild 0
  end.

(** The loop that tries each place where [cmp] is. *)
Fixpoint find_cmp (rec : list Z -> option Z) (cmp : Z) (wild str : list Z) : option Z :=
  match str with
  | [] => Some (-1)
  | x :: str =>
      if negb (likeconv x =? cmp) then find_cmp rec cmp wild str
      else
        tmp ← rec str;
        if tmp <=? 0 then Some tmp
        else if negb (bool_decide (str = [])) && negb (s8 (default past (head wild)) =? w_many)
        then find_cmp rec cmp wild str
        else Some (-1)
  end.

(** The branch of [w_many]; [w] is the pattern behind it. *)
Definition many (rec : list Z -> list Z -> option Z) (str w : list Z) : option Z :=
  match skip_wild w str with
  | Ret r => Some r
  | Go _ [] _ => Some 0
  | Go [] _ _ => Some (-1)
  | Go str (c :: w) _ =>
      let '(cmp, w) := match w with e :: w' => if c =? escape then (e, w') else (c, w) | [] => (c, w) end in
      find_cmp (fun str => rec str w) (likeconv cmp) w str
  end.

(** The outer loop; [fuel] counts its rounds and the calls. *)
Fixpoint wildcmp_loop (fuel : nat) (result : Z) (str wild : list Z) : option Z :=
  match fuel with
  | O => None
  | S fuel =>
      match wild with
      | [] => Some (b2z (negb (bool_decide (str = []))))
      | _ =>
          match anchors wild str result with
          | Ret r => Some r
          | Go str wild result =>
              match ones wild str result with
              | Ret r => Some r
              | Go str wild result =>
                  match wild with
                  | [] => Some (b2z (negb (bool_decide (str = []))))
                  | c :: w =>
                      if s8 c =? w_many then many (fun str wild => wildcmp_loop fuel (-1) str wild) str w
                      else wildcmp_loop fuel result str wild
                  end
              end
          end
      end
  end.

Definition wildcmp_8bit (str wild : list Z) : option Z := wildcmp_loop (S (length wild)) (-1) str wild.
End wildcmp.

(** ** LIKE compares with the pattern *)

Section like.
Variables (likeconv : Z -> Z) (escape w_one w_many : Z).

Abbreviation like := (Like.like likeconv escape w_one w_many).
Abbreviation answers := (Like.answers likeconv escape w_one w_many).
Abbreviation lift := (Like.lift likeconv escape w_one w_many).
Abbreviation somewhere := (Like.somewhere likeconv escape w_one w_many).
Abbreviation literal := (Like.literal escape).

Variable past : Z.
Hypothesis chars : 0 <= escape < 128 /\ 0 <= w_one < 128 /\ 0 <= w_many < 128.
Hypothesis distinct : escape <> w_one /\ escape <> w_many /\ w_one <> w_many.
Hypothesis past_ok : s8 past <> w_many.

(** ** The loops *)

Abbreviation wild_head c := (c = w_many \/ c = w_one).

Lemma anchors_spec w : forall str result, bytes w -> w <> [] -> result = -1 \/ result = 1 ->
  match anchors likeconv escape w_one w_many w str result with
  | Ret r => answers str w r
  | Go str' w' result' => lift str w str' w' /\ bytes w' /\ (length w' <= length w)%nat /\
      (result' = -1 \/ result' = 1) /\ exists c w2, w' = c :: w2 /\ wild_head c
  end.
Proof.
  induction w as [w IH] using (induction_ltof1 _ (@length Z)). unfold ltof in IH. intros str result Hb Hne Hres.
  destruct w as [|c w]; [done|]. cbn [anchors]. pose proof Hb as Hb'. apply Forall_cons in Hb' as [Hc Hw].
  rewrite !s8_eqb by (done || lia). destruct (Z.eqb_spec c w_many) as [Em|Em]; [|destruct (Z.eqb_spec c w_one) as [Eo|Eo]]; cbn [orb].
  1,2: split_and!; try done; exists c, w; auto.
  destruct w as [|e w'].
  - assert (literal c [] c []) as Hl by done. destruct str as [|x str]; [by eapply answers_differs|].
    destruct (Z.eqb_spec (likeconv x) (likeconv c)) as [Hx|Hx]; [|eapply answers_differs; [done..|]; intros ? ? [= <- _]; done].
    eapply lift_answers; [by eapply lift_literal|]. apply answers_end.
  - apply Forall_cons in Hw as Hw2. destruct Hw2 as [He Hw'].
    destruct (Z.eqb_spec c escape) as [Ee|Ee].
    + assert (literal c (e :: w') e w') as Hl by (unfold literal; by rewrite (proj2 (Z.eqb_eq c escape))).
      destruct str as [|x str]; [by eapply answers_differs|].
      destruct (Z.eqb_spec (likeconv x) (likeconv e)) as [Hx|Hx]; [|eapply answers_differs; [done..|]; intros ? ? [= <- _]; done].
      pose proof (lift_literal likeconv escape w_one w_many c (e :: w') e w' x str Em Eo Hl Hx) as Hlift. destruct w' as [|e' w''].
      * eapply lift_answers; [exact Hlift|]. apply answers_end.
      * specialize (IH (e' :: w'') ltac:(simpl; lia) str 1 Hw' ltac:(done) ltac:(by right)).
        destruct (anchors _ _ _ _ (e' :: w'') str 1) as [r|str' w3 result']; [by eapply lift_answers|].
        destruct IH as (? & ? & ? & ? & ?). split_and!; [by eapply lift_trans|done|simpl in *; lia|done|done].
    + assert (literal c (e :: w') c (e :: w')) as Hl by (unfold literal; by rewrite (proj2 (Z.eqb_neq c escape))).
      destruct str as [|x str]; [by eapply answers_differs|].
      destruct (Z.eqb_spec (likeconv x) (likeconv c)) as [Hx|Hx]; [|eapply answers_differs; [done..|]; intros ? ? [= <- _]; done].
      pose proof (lift_literal likeconv escape w_one w_many c (e :: w') c (e :: w') x str Em Eo Hl Hx) as Hlift.
      specialize (IH (e :: w') ltac:(simpl; lia) str 1 Hw ltac:(done) ltac:(by right)).
      destruct (anchors _ _ _ _ (e :: w') str 1) as [r|str' w3 result']; [by eapply lift_answers|].
      destruct IH as (? & ? & ? & ? & ?). split_and!; [by eapply lift_trans|done|simpl in *; lia|done|done].
Qed.

Lemma ones_spec w : forall str result, bytes w -> result = -1 \/ result = 1 ->
  match ones w_one w str result with
  | Ret r => answers str w r
  | Go str' w' result' => lift str w str' w' /\ bytes w' /\ (length w' <= length w)%nat /\ result' = result /\
      (w' = w \/ (length w' < length w)%nat) /\ (forall c w2, w' = c :: w2 -> c <> w_one)
  end.
Proof.
  induction w as [|c w IH]; intros str result Hb Hres; cbn [ones].
  { split_and!; try done. by left. }
  pose proof Hb as Hb'. apply Forall_cons in Hb' as [Hc Hw]. rewrite s8_eqb by (done || lia).
  destruct (Z.eqb_spec c w_one) as [->|Eo].
  - destruct str as [|x str].
    + assert (~ like [] (w_one :: w)) as Hn by (by intros (? & ? & ? & _)%like_one_inv).
      split_and!; try lia; [split; [lia|done]|intros _; by apply hopeless_nil].
    + specialize (IH str result Hw Hres). destruct (ones w_one w str result) as [r|str' w' result'].
      * eapply lift_answers; [by apply lift_one|done].
      * destruct IH as (? & ? & ? & ? & ? & ?). split_and!; try done; [eapply lift_trans; [by apply lift_one|done]|simpl; lia|right; simpl; lia].
  - split_and!; try done; [by left|]. by intros ? ? [= <- <-].
Qed.

Lemma skip_wild_spec w : forall str, bytes w ->
  match skip_wild w_one w_many w str with
  | Ret r => r = -1 /\ ~ somewhere str w
  | Go str' w' _ => (somewhere str w <-> somewhere str' w') /\ bytes w' /\ (length w' <= length w)%nat /\
      (forall c w2, w' = c :: w2 -> c <> w_one /\ c <> w_many)
  end.
Proof.
  induction w as [|c w IH]; intros str Hb; cbn [skip_wild]; [done|].
  pose proof Hb as Hb'. apply Forall_cons in Hb' as [Hc Hw]. rewrite !s8_eqb by (done || lia).
  destruct (Z.eqb_spec c w_many) as [->|Em]; [|destruct (Z.eqb_spec c w_one) as [->|Eo]].
  - specialize (IH str Hw). destruct (skip_wild w_one w_many w str); rewrite somewhere_many by done; [done|].
    destruct IH as (? & ? & ? & ?). split_and!; try done. simpl. lia.
  - destruct str as [|x str].
    + split; [done|]. intros (s1 & s2 & E & (? & ? & -> & _)%like_one_inv); [by destruct s1|done].
    + specialize (IH str Hw). destruct (skip_wild w_one w_many w str); rewrite somewhere_one by done; [done|].
      destruct IH as (? & ? & ? & ?). split_and!; try done. simpl. lia.
  - split_and!; try done. by intros ? ? [= <- <-].
Qed.

(** The search for the places of the character behind [w_many]. *)
Lemma find_cmp_spec rec lit rest str :
  (forall s, exists t, rec s = Some t /\ answers s rest t /\ (head rest = Some w_many -> t <> 1)) -> bytes rest ->
  exists r, find_cmp likeconv w_many past rec (likeconv lit) rest str = Some r /\ (r = 0 \/ r = -1) /\
    (r = 0 <-> exists s1 x s2, str = s1 ++ x :: s2 /\ likeconv x = likeconv lit /\ like s2 rest).
Proof.
  intros Hrec Hb. induction str as [|x str IH]; cbn [find_cmp].
  - exists (-1). split_and!; [done|by right|]. split; [lia|]. intros (s1 & ? & s2 & E & _). by destruct s1.
  - destruct IH as (r & Hr & Hr01 & Hiff).
    assert ((exists s1 y s2, x :: str = s1 ++ y :: s2 /\ likeconv y = likeconv lit /\ like s2 rest) <->
      (likeconv x = likeconv lit /\ like str rest) \/ exists s1 y s2, str = s1 ++ y :: s2 /\ likeconv y = likeconv lit /\ like s2 rest) as Hcons.
    { split.
      - intros (s1 & y & s2 & E & Hy & Hl). destruct s1 as [|z s1]; injection E as -> ->; [by left|right; by exists s1, y, s2].
      - intros [[? ?]|(s1 & y & s2 & -> & ? & ?)]; [by exists [], x, str|by exists (x :: s1), y, s2]. }
    destruct (Z.eqb_spec (likeconv x) (likeconv lit)) as [Hx|Hx]; cbn [negb].
    + destruct (Hrec str) as (t & -> & (Ht0 & Htm & Htr) & Hhead). rewrite bind_Some_eq.
      destruct (Z.leb_spec t 0) as [Hle|Hgt].
      * exists t. split; [done|]. split; [lia|]. rewrite Hcons, Ht0. split; [by left|].
        intros [[_ ?]|(s1 & y & s2 & -> & _ & Hl)]; [done|].
        destruct (decide (t = -1)) as [Et|Et]; [|apply Ht0; lia]. by destruct (Htm Et (s1 ++ [y]) s2); [rewrite <- app_assoc|].
      * assert (~ like str rest) as Hn by (intros Hl%Ht0; lia).
        assert ((s8 (default past (head rest)) =? w_many) = false) as ->.
        { destruct rest as [|c rest]; simpl; [by apply Z.eqb_neq|]. apply Forall_cons in Hb as [Hc _].
          rewrite s8_eqb by (done || lia). apply Z.eqb_neq. intros ->. apply Hhead; [done|lia]. }
        case_bool_decide as Es; cbn [negb andb]; eexists; (split; [done|]).
        -- split; [by right|]. rewrite Hcons, <- Hiff. subst str. simpl in Hr. injection Hr as <-. split; [lia|]. by intros [[_ ?]|?].
        -- split; [done|]. rewrite Hcons, <- Hiff. split; [by right|]. by intros [[_ ?]|?].
    + exists r. split_and!; try done. rewrite Hcons, <- Hiff. split; [by right|]. by intros [[? _]|?].
Qed.

Lemma many_spec rec str w : bytes w ->
  (forall s w', bytes w' -> (length w' <= length w)%nat ->
     exists t, rec s w' = Some t /\ answers s w' t /\ (head w' = Some w_many -> t <> 1)) ->
  exists r, many likeconv escape w_one w_many past rec str w = Some r /\ answers str (w_many :: w) r /\ r <> 1.
Proof.
  intros Hb Hrec. unfold many. pose proof (skip_wild_spec w str Hb) as Hskip.
  destruct (skip_wild w_one w_many w str) as [r|str' w' res].
  { destruct Hskip as [-> Hn]. exists (-1). split_and!; try done. apply answers_many; [done|by right|]. split; [lia|done]. }
  destruct Hskip as (Hsome & Hb' & Hlen & Hhead). destruct w' as [|c w'].
  { exists 0. split; [by destruct str'|]. split; [|done]. apply answers_many; [done|by left|]. split; [intros _|done].
    apply Hsome. exists str', []. rewrite app_nil_r. split; [done|constructor]. }
  destruct (Hhead c w' eq_refl) as [Ho Hm]. apply Forall_cons in Hb' as Hb2. destruct Hb2 as [_ Hbw].
  set (p := match w' with e :: w'' => if c =? escape then (e, w'') else (c, w') | [] => (c, w') end).
  assert (literal c w' p.1 p.2 /\ bytes p.2 /\ (length p.2 <= length w')%nat) as (Hlit & Hbp & Hlp).
  { unfold p, literal. destruct w' as [|e w'']; [done|]. apply Forall_cons in Hbw as [? ?].
    destruct (c =? escape); split_and!; simpl; auto. }
  pose proof (somewhere_literal likeconv escape w_one w_many c w' p.1 p.2 str' Hm Ho Hlit) as Hany.
  destruct (find_cmp_spec (fun s => rec s p.2) p.1 p.2 str') as (r & Hr & Hr01 & Hiff).
  { intros s. apply Hrec; [done|simpl in Hlen; lia]. }
  { done. }
  assert (answers str (w_many :: w) r) as Hans by (apply answers_many; [done..|]; by rewrite Hsome, Hany).
  destruct str' as [|x str'].
  - exists (-1). split; [done|]. split; [|done]. assert (r <> 0) as Hr0.
    { intros (s1 & x & s2 & E & _)%Hiff. by destruct s1. }
    assert (r = -1) as <- by lia. done.
  - exists r. split; [|split; [done|lia]]. rewrite <- Hr. fold p. by destruct p.
Qed.

Lemma wildcmp_loop_spec fuel : forall result str w, bytes w -> (length w < fuel)%nat -> result = -1 \/ result = 1 ->
  exists r, wildcmp_loop likeconv escape w_one w_many past fuel result str w = Some r /\ answers str w r /\
    (head w = Some w_many -> r <> 1).
Proof.
  induction fuel as [|fuel IH]; intros result str w Hb Hf Hres; [lia|]. cbn [wildcmp_loop].
  destruct w as [|c0 w0]; [exists (b2z (negb (bool_decide (str = [])))); split_and!; [done|apply answers_end|done]|].
  assert (forall str1 w1, bytes (w_many :: w1) -> (length (w_many :: w1) <= length (c0 :: w0))%nat ->
    exists r, many likeconv escape w_one w_many past (fun str wild => wildcmp_loop likeconv escape w_one w_many past fuel (-1) str wild) str1 w1 = Some r /\
      answers str1 (w_many :: w1) r /\ r <> 1) as Hmany.
  { intros str1 w1 [_ Hb1]%Forall_cons Hl1. apply many_spec; [done|]. intros s w' Hb' Hl'. apply IH; [done|simpl in *; lia|by left]. }
  destruct (decide (c0 = w_many)) as [->|Hc0].
  { cbn [anchors]. apply Forall_cons in Hb as Hb'. destruct Hb' as [Hc _]. rewrite (s8_eqb w_many w_many), Z.eqb_refl by (done || lia).
    cbn [orb ones]. rewrite (s8_eqb w_many w_one), (proj2 (Z.eqb_neq w_many w_one)) by (done || lia).
    rewrite (s8_eqb w_many w_many), Z.eqb_refl by (done || lia). destruct (Hmany str w0 Hb) as (r & ? & ? & ?); [lia|]. eauto. }
  pose proof (anchors_spec (c0 :: w0) str result Hb ltac:(done) Hres) as Hanch.
  destruct (anchors likeconv escape w_one w_many (c0 :: w0) str result) as [r|str1 w1 result1].
  { exists r. split_and!; try done. simpl. congruence. }
  destruct Hanch as (Hlift1 & Hb1 & Hl1 & Hres1 & c & w2 & -> & Hwild).
  pose proof (ones_spec (c :: w2) str1 result1 Hb1 Hres1) as Hones.
  destruct (ones w_one (c :: w2) str1 result1) as [r|str3 w3 result3].
  { exists r. split_and!; [done|by eapply lift_answers|simpl; congruence]. }
  destruct Hones as (Hlift2 & Hb3 & Hl3 & -> & Hsame & Hhead). destruct w3 as [|c3 w3].
  { exists (b2z (negb (bool_decide (str3 = [])))). split_and!; [done| |simpl; congruence].
    eapply lift_answers; [exact Hlift1|]. eapply lift_answers; [exact Hlift2|]. apply answers_end. }
  apply Forall_cons in Hb3 as Hb3'. destruct Hb3' as [Hc3 Hbw3]. rewrite s8_eqb by (done || lia).
  assert (exists r, (if c3 =? w_many then many likeconv escape w_one w_many past (fun str wild => wildcmp_loop likeconv escape w_one w_many past fuel (-1) str wild) str3 w3
      else wildcmp_loop likeconv escape w_one w_many past fuel result1 str3 (c3 :: w3)) = Some r /\ answers str3 (c3 :: w3) r) as (r & -> & Hans).
  { destruct (Z.eqb_spec c3 w_many) as [->|Hc3m].
    - destruct (Hmany str3 w3 Hb3) as (r & ? & ? & _); [lia|]. eauto.
    - destruct (IH result1 str3 (c3 :: w3) Hb3) as (r & ? & ? & _); [|done|eauto].
      destruct Hsame as [[= -> ->]|Hlt]; [|lia]. specialize (Hhead c w2 eq_refl). destruct Hwild; congruence. }
  exists r. split_and!; [done| |simpl; congruence]. eapply lift_answers; [exact Hlift1|]. by eapply lift_answers.
Qed.
Lemma wildcmp_8bit_spec str w : bytes w ->
  exists r, wildcmp_8bit likeconv escape w_one w_many past str w = Some r /\ answers str w r /\ (head w = Some w_many -> r <> 1).
Proof. intros Hb. apply wildcmp_loop_spec; [done|lia|by left]. Qed.
End like.
