(* ===== verification/Collate.v ===== *)
(** * Order of strings

    What the comparison functions of the character sets are compared with: the
    lexicographic order of the weights, the order of strings extended with
    spaces, and strings without the spaces at their ends. *)

From stdpp Require Import base numbers list.
From Stdlib Require Import ZArith Lia.
From S2P Require Import Prelude.

Local Open Scope Z_scope.

(** [memcmp] of the first [len] bytes; only the sign of its result is defined,
    here the difference of the first two bytes that differ. *)
Fixpoint memcmp (len : nat) (s t : list Z) : Z :=
  match len, s, t with
  | S len, a :: s, b :: t => if a =? b then memcmp len s t else a - b
  | _, _, _ => 0
  end.

Fixpoint lex (a b : list Z) : comparison :=
  match a, b with
  | [], [] => Eq
  | [], _ :: _ => Lt
  | _ :: _, [] => Gt
  | x :: a, y :: b => match x ?= y with Eq => lex a b | c => c end
  end.

(** Characters of the strings extended with spaces, from the first on. *)
Fixpoint padded_cmp (n : nat) (a b : list Z) : comparison :=
  match n with
  | O => Eq
  | S n => match default 32 (head a) ?= default 32 (head b) with Eq => padded_cmp n (tail a) (tail b) | c => c end
  end.

Definition sign (x : Z) : comparison := x ?= 0.

Lemma lex_app p a b : lex (p ++ a) (p ++ b) = lex a b.
Proof. induction p as [|x p IH]; [done|]. cbn. by rewrite Z.compare_refl. Qed.

Lemma padded_app p a b n : padded_cmp (length p + n) (p ++ a) (p ++ b) = padded_cmp n a b.
Proof. induction p as [|x p IH]; [done|]. cbn. by rewrite Z.compare_refl. Qed.

(** [while (e > s && e[-1] == ' ') e--]; the string is given backwards. *)
Fixpoint skip_spaces (s : list Z) : list Z :=
  match s with
  | c :: s' => if c =? 32 then skip_spaces s' else s
  | [] => []
  end.

Definition remove_end_space (s : list Z) : list Z := reverse (skip_spaces (reverse s)).

(** Without the spaces at the end, from the front. *)
Fixpoint trim (s : list Z) : list Z :=
  match s with
  | [] => []
  | c :: s => match trim s with [] => if c =? 32 then [] else [c] | s' => c :: s' end
  end.

Lemma trim_app a b : trim (a ++ b) = if decide (trim b = []) then trim a else a ++ trim b.
Proof.
  induction a as [|c a IH]; cbn [app trim]; [case_decide as E; [by rewrite E|done]|].
  rewrite IH. case_decide as E; [done|]. destruct (a ++ trim b) eqn:Ea; [apply app_nil in Ea; tauto|done].
Qed.

Lemma remove_end_space_trim s : remove_end_space s = trim s.
Proof.
  unfold remove_end_space. induction s as [|x s IH] using rev_ind; [done|]. rewrite reverse_snoc, trim_app. cbn [skip_spaces trim].
  destruct (x =? 32); [exact IH|]. by rewrite reverse_cons, reverse_involutive.
Qed.

Lemma trim_map (f : Z -> Z) s : Forall (fun c => (f c =? 32) = (c =? 32)) s -> map f (trim s) = trim (map f s).
Proof.
  induction 1 as [|c s Hc Hs IH]; [done|]. cbn. rewrite <- IH, Hc. destruct (trim s); cbn; [by destruct (c =? 32)|done].
Qed.

(** Strings equal but for spaces at their ends. *)
Lemma padded_eq_trim a : forall b n, (length a <= n)%nat -> (length b <= n)%nat -> padded_cmp n a b = Eq -> trim a = trim b.
Proof.
  assert (forall a n, (length a <= n)%nat -> padded_cmp n a [] = Eq \/ padded_cmp n [] a = Eq -> trim a = []) as Hnil.
  { clear. induction a as [|x a IH]; intros [|n] Hn Hp; [done|done|simpl in Hn; lia|].
    cbn [length padded_cmp head default from_option id tail trim] in *.
    assert (x = 32) as ->.
    { destruct Hp as [Hp|Hp]; [destruct (x ?= 32) eqn:Ex|destruct (32 ?= x) eqn:Ex]; try done; by apply Z.compare_eq in Ex. }
    rewrite Z.compare_refl in Hp. by rewrite (IH n) by (lia || done). }
  induction a as [|x a IH]; intros [|y b] n Ha Hb Hp; [done|..].
  - symmetry. eapply Hnil; eauto.
  - eapply Hnil; eauto.
  - destruct n as [|n]; [simpl in Ha; lia|]. cbn in Hp. destruct (Z.compare_spec x y) as [->| |]; [|done..].
    cbn [trim]. by rewrite (IH b n) by (simpl in *; lia || done).
Qed.

(** A key of [n] bytes: the string, cut or filled up with [c]. *)
Definition pad (n : nat) (c : Z) (s : list Z) : list Z := take n s ++ replicate (n - length s) c.

Lemma pad_S n c s : pad (S n) c s = default c (head s) :: pad n c (tail s).
Proof. unfold pad. destruct s as [|x s]; cbn; [by rewrite Nat.sub_0_r, take_nil|done]. Qed.

Lemma memcmp_pad n : forall a b, sign (memcmp n (pad n 32 a) (pad n 32 b)) = padded_cmp n a b.
Proof.
  induction n as [|n IH]; intros a b; [done|]. rewrite !pad_S. cbn [memcmp padded_cmp].
  set (x := default 32 (head a)). set (y := default 32 (head b)). destruct (Z.eqb_spec x y) as [->|Hne].
  - by rewrite Z.compare_refl, IH.
  - unfold sign. rewrite <- Z.compare_sub. by destruct (Z.compare_spec x y).
Qed.

Lemma padded_refl n a : padded_cmp n a a = Eq.
Proof. revert a. induction n as [|n IH]; intros a; [done|]. cbn. by rewrite Z.compare_refl. Qed.
