(* ===== verification/CtypeBin.v ===== *)
(** * The binary character set (strings/ctype-bin.c)

    Comparison, hashing, substring search and LIKE on strings of bytes.  A
    string is the list of its bytes; the code's pointers into it are the
    remaining lists.  [None] is fuel that runs out. *)

From stdpp Require Import base numbers list.
From Stdlib Require Import ZArith Lia.
From S2P Require Import Prelude Like Wild8 Collate.

Local Open Scope Z_scope.

(** ** Comparison *)

Definition len32 (s : list Z) : Z := u32 (Z.of_nat (length s)).

Definition my_strnncoll_binary (s t : list Z) (t_is_prefix : bool) : Z :=
  let slen := len32 s in
  let tlen := len32 t in
  let len := Z.min slen tlen in
  let cmp := memcmp (Z.to_nat len) s t in
  if negb (cmp =? 0) then cmp else s32 ((if t_is_prefix then len else slen) - tlen).

Definition my_strnncollsp_binary (s t : list Z) : Z := my_strnncoll_binary s t false.

(** The second loop of [my_strnncollsp_8bit_bin]. *)
Fixpoint endspace (swap res : Z) (a : list Z) : Z :=
  match a with
  | [] => res
  | c :: a => if negb (c =? 32) then (if c <? 32 then - swap else swap) else endspace swap res a
  end.

(** [diff_if_only_endspace_difference] is overwritten with 0. *)
Fixpoint my_strnncollsp_8bit_bin (a b : list Z) : Z :=
  match a, b with
  | x :: a, y :: b => if negb (x =? y) then x - y else my_strnncollsp_8bit_bin a b
  | [], [] => 0
  | a, [] => endspace 1 0 a
  | [], b => endspace (-1) 0 b
  end.

Definition my_strnncoll_8bit_bin (s t : list Z) (t_is_prefix : bool) : Z := my_strnncoll_binary s t t_is_prefix.

Definition my_lengthsp_binary (s : list Z) : Z := len32 s.

(** Keys of [dstlen] bytes; in place or not, the bytes are the same. *)
Definition my_strnxfrm_bin (dstlen : nat) (src : list Z) : list Z := pad dstlen 0 src.

Definition my_strnxfrm_8bit_bin (dstlen : nat) (src : list Z) : list Z := pad dstlen 32 src.

(** ** Hashing *)

(** The accumulators [nr1] and [nr2] are 64 bits wide. *)
Definition hash_byte (nr : Z * Z) (c : Z) : Z * Z :=
  (Z.lxor (fst nr) (u64 (u64 ((Z.land (u32 (fst nr)) 63 + snd nr) * c) + u64 (Z.shiftl (fst nr) 8))),
   u64 (snd nr + 3)).

Fixpoint my_hash_sort_bin (key : list Z) (nr : Z * Z) : Z * Z :=
  match key with
  | [] => nr
  | c :: key => my_hash_sort_bin key (hash_byte nr c)
  end.

(** ** Substring search

    [my_instr_bin] and [my_instr_simple] are the same text but for the weights
    that the second compares; [weight] is that table or nothing. *)

(** Does the string start with [search]? *)
Fixpoint starts (weight : Z -> Z) (i j : list Z) : bool :=
  match j, i with
  | [], _ => true
  | b :: j, a :: i => (weight a =? weight b) && starts weight i j
  | _, [] => false
  end.

(** [rounds] is the number of places left to try, [pos] the place of [str]. *)
Fixpoint instr_loop (weight : Z -> Z) (rounds : nat) (str search : list Z) (pos : Z) : option Z :=
  match rounds, str with
  | S rounds, c :: str' => if starts weight str search then Some pos else instr_loop weight rounds str' search (pos + 1)
  | _, _ => None
  end.

Record my_match_t := mkMatch { beg : Z; end_ : Z; mblen : Z }.

(** The result and the matches written, at most [nmatch]. *)
Definition instr_8bit (weight : Z -> Z) (b s : list Z) (nmatch : Z) : Z * list my_match_t :=
  let b_length := Z.of_nat (length b) in
  let s_length := Z.of_nat (length s) in
  if s_length <=? b_length then
    if s_length =? 0 then (1, if negb (nmatch =? 0) then [mkMatch 0 0 0] else [])
    else
      match instr_loop weight (Z.to_nat (b_length - s_length + 1)) b s 0 with
      | Some e =>
          (2, (if 0 <? nmatch then [mkMatch 0 e e] else []) ++ (if 1 <? nmatch then [mkMatch e (e + s_length) s_length] else []))
      | None => (0, [])
      end
  else (0, []).

Definition my_instr_bin (b s : list Z) (nmatch : Z) : Z * list my_match_t := instr_8bit id b s nmatch.

(** ** LIKE *)

(** [likeconv(s, A)] is [(A)]. *)
Definition my_wildcmp_bin (escape w_one w_many past : Z) (str wild : list Z) : option Z :=
  wildcmp_8bit id escape w_one w_many past str wild.

(** ** The results *)

(** LIKE on binary strings is right: for escape and wildcard characters that
    are distinct ASCII characters, the comparison ends and returns 0 exactly
    for the strings the pattern stands for, as long as the byte behind the
    pattern in memory is not the character for any string. *)
Theorem wildcmp_like escape w_one w_many past str wild :
  0 <= escape < 128 /\ 0 <= w_one < 128 /\ 0 <= w_many < 128 ->
  escape <> w_one /\ escape <> w_many /\ w_one <> w_many -> s8 past <> w_many -> bytes wild ->
  exists r, my_wildcmp_bin escape w_one w_many past str wild = Some r /\ (r = 0 <-> like id escape w_one w_many str wild).
Proof.
  intros Hc Hd Hp Hb.
  destruct (wildcmp_8bit_spec id escape w_one w_many past Hc Hd Hp str wild Hb) as (r & Hr & [H0 _] & _). eauto.
Qed.

(** "axbxc" LIKE "a%x_". *)
Lemma wildcmp_like_witness :
  exists r, my_wildcmp_bin 92 95 37 0 [97; 120; 98; 120; 99] [97; 37; 120; 95] = Some r /\
    (r = 0 <-> like id 92 95 37 [97; 120; 98; 120; 99] [97; 37; 120; 95]).
Proof.
  apply (wildcmp_like 92 95 37 0 [97; 120; 98; 120; 99] [97; 37; 120; 95]); [lia|lia|by vm_compute|].
  repeat constructor; lia.
Defined.

(** The loop behind the wildcard for any string reads the byte behind the
    end of the pattern: "xax" LIKE "%x" holds, and the code says so when that
    byte is 0, but it says no match when the byte happens to be "%". *)
Theorem wildcmp_reads_past_pattern :
  like id 92 95 37 [120; 97; 120] [37; 120] /\
  my_wildcmp_bin 92 95 37 0 [120; 97; 120] [37; 120] = Some 0 /\
  my_wildcmp_bin 92 95 37 37 [120; 97; 120] [37; 120] = Some (-1).
Proof.
  split; [|split; by vm_compute]. apply (like_many id 92 95 37 [120; 97] [120] [120]).
  apply like_char; try lia. constructor.
Qed.

(** ** Comparison with padding *)

Lemma endspace_spec swap a : forall n, (swap = 1 \/ swap = -1) -> (length a <= n)%nat ->
  sign (endspace swap 0 a) = if swap =? 1 then padded_cmp n a [] else padded_cmp n [] a.
Proof.
  induction a as [|c a IH]; intros n Hs Hn; cbn [endspace].
  - assert (forall n, padded_cmp n [] [] = Eq) as E by (clear; intros n; by induction n). rewrite !E. by case_if.
  - destruct n as [|n]; [simpl in Hn; lia|]. cbn [padded_cmp head default from_option id tail].
    destruct (Z.eqb_spec c 32) as [->|Hc]; cbn [negb].
    + rewrite (IH n) by (done || (simpl in Hn; lia)). by rewrite !Z.compare_refl.
    + destruct (Z.ltb_spec c 32); destruct Hs as [-> | ->]; cbn [Z.eqb Pos.eqb Z.opp].
      * by rewrite (proj2 (Z.compare_lt_iff c 32)).
      * by rewrite (proj2 (Z.compare_gt_iff 32 c)).
      * by rewrite (proj2 (Z.compare_gt_iff c 32)) by lia.
      * by rewrite (proj2 (Z.compare_lt_iff 32 c)) by lia.
Qed.

Lemma strnncollsp_8bit_spec a b n : (length a <= n)%nat -> (length b <= n)%nat ->
  sign (my_strnncollsp_8bit_bin a b) = padded_cmp n a b.
Proof.
  revert b n. induction a as [|x a IH]; intros b n Ha Hb.
  - destruct b as [|y b]; cbn [my_strnncollsp_8bit_bin].
    + clear. induction n as [|n IH]; [done|exact IH].
    + rewrite (endspace_spec (-1) (y :: b) n); auto.
  - destruct b as [|y b]; cbn [my_strnncollsp_8bit_bin]; [rewrite (endspace_spec 1 (x :: a) n); auto|].
    destruct n as [|n]; [simpl in Ha; lia|]. cbn [padded_cmp head default from_option id tail].
    destruct (Z.eqb_spec x y) as [->|Hne]; cbn [negb].
    + rewrite Z.compare_refl. apply IH; simpl in *; lia.
    + unfold sign. rewrite <- Z.compare_sub. destruct (x ?= y) eqn:E; [apply Z.compare_eq in E; lia|done..].
Qed.

(** The comparison of character strings with a binary collation is the
    bytewise order of the strings extended with spaces. *)
Theorem strnncollsp_pads a b n : (length a <= n)%nat -> (length b <= n)%nat ->
  sign (my_strnncollsp_8bit_bin a b) = padded_cmp n a b.
Proof. apply strnncollsp_8bit_spec. Qed.

(** "a" and "a  ", and "a" and "a\001". *)
Lemma strnncollsp_pads_witness :
  sign (my_strnncollsp_8bit_bin [97] [97; 32; 32]) = Eq /\ sign (my_strnncollsp_8bit_bin [97] [97; 1]) = Gt.
Proof.
  rewrite (strnncollsp_pads [97] [97; 32; 32] 3) by (simpl; lia). rewrite (strnncollsp_pads [97] [97; 1] 2) by (simpl; lia).
  by vm_compute.
Defined.

(** ** Keys and hashes *)

(** The keys of character strings with a binary collation compare as the
    strings do. *)
Lemma strnxfrm_8bit_bin_order a b n : (length a <= n)%nat -> (length b <= n)%nat ->
  sign (memcmp n (my_strnxfrm_8bit_bin n a) (my_strnxfrm_8bit_bin n b)) = sign (my_strnncollsp_8bit_bin a b).
Proof. intros Ha Hb. unfold my_strnxfrm_8bit_bin. by rewrite memcmp_pad, strnncollsp_8bit_spec with (n := n). Qed.

(** The binary collations of the 8-bit character sets compare strings
    without the spaces at their ends, but hash them with [my_hash_sort_bin],
    which does not leave these out: "a" and "a " are equal and hash to different
    values. *)
Theorem hash_sort_bin_endspace :
  my_strnncollsp_8bit_bin [97] [97; 32] = 0 /\ my_hash_sort_bin [97] (1, 4) <> my_hash_sort_bin [97; 32] (1, 4).
Proof. split; by vm_compute. Qed.

(** ** Substring search *)

Section instr.
Variable weight : Z -> Z.

Lemma starts_spec j : forall i, starts weight i j = true <-> exists x k, i = x ++ k /\ map weight x = map weight j.
Proof.
  induction j as [|b j IH]; intros i.
  { split; [intros _; by exists [], i|by destruct i]. }
  destruct i as [|a i]; cbn [starts map].
  { split; [done|]. intros (x & k & E & Hx). symmetry in E. by apply app_nil in E as [-> ->]. }
  rewrite andb_true_iff, Z.eqb_eq, IH. split.
  - intros (Ha & x & k & -> & Hx). exists (a :: x), k. split; [done|]. cbn. by rewrite Ha, Hx.
  - intros (x & k & E & Hx). destruct x as [|y x]; [done|]. injection E as -> ->. injection Hx as Ha Hx. split; [done|eauto].
Qed.

(** A string with the weights of [s] stands in [b] behind [e] characters. *)
Definition occurs (b s : list Z) (e : nat) : Prop :=
  exists b1 x b2, b = b1 ++ x ++ b2 /\ length b1 = e /\ map weight x = map weight s.

Lemma occurs_cons c b s e : occurs (c :: b) s (S e) <-> occurs b s e.
Proof.
  split.
  - intros (b1 & x & b2 & E & Hl & Hx). destruct b1 as [|y b1]; [done|]. injection E as _ ->. exists b1, x, b2.
    split_and!; [done| |done]. simpl in Hl. lia.
  - intros (b1 & x & b2 & -> & Hl & Hx). exists (c :: b1), x, b2. split_and!; [done| |done]. simpl. lia.
Qed.

Lemma occurs_zero b s : occurs b s 0 <-> starts weight b s = true.
Proof.
  rewrite starts_spec. split.
  - intros (b1 & x & b2 & -> & Hl & Hx). destruct b1; [by exists x, b2|done].
  - intros (x & k & -> & Hx). by exists [], x, k.
Qed.

Lemma occurs_length b s e : occurs b s e -> (e + length s <= length b)%nat.
Proof. intros (b1 & x & b2 & -> & <- & Hx). rewrite !length_app, <- (length_map weight s), <- Hx, length_map. lia. Qed.

Lemma instr_loop_spec rounds : forall str search pos, (length str + 1 = rounds + length search)%nat -> search <> [] ->
  match instr_loop weight rounds str search pos with
  | Some e => exists k, e = pos + Z.of_nat k /\ occurs str search k /\ forall k', (k' < k)%nat -> ~ occurs str search k'
  | None => forall k, ~ occurs str search k
  end.
Proof.
  induction rounds as [|rounds IH]; intros str search pos Hr Hs; cbn [instr_loop].
  - intros k Hk%occurs_length. lia.
  - destruct str as [|c str].
    + intros k Hk%occurs_length. destruct search; [done|simpl in *; lia].
    + destruct (starts weight (c :: str) search) eqn:E.
      * exists 0%nat. split; [lia|]. split; [by apply occurs_zero|]. intros; lia.
      * specialize (IH str search (pos + 1) ltac:(simpl in Hr; lia) Hs).
        assert (~ occurs (c :: str) search 0) as H0 by (rewrite occurs_zero; congruence).
        destruct (instr_loop weight rounds str search (pos + 1)) as [e|].
        -- destruct IH as (k & -> & Hk & Hmin). exists (S k). split; [lia|]. split; [by apply occurs_cons|].
           intros [|k'] Hk'; [done|]. rewrite occurs_cons. apply Hmin. lia.
        -- intros [|k]; [done|]. by rewrite occurs_cons.
Qed.

(** The first place, with the part before it, or 0 when there is none. *)
Definition instr_answer (b s : list Z) (out : Z * list my_match_t) : Prop :=
  match out with
  | (2, [m; m']) => exists k, occurs b s k /\ (forall k', (k' < k)%nat -> ~ occurs b s k') /\
      m = mkMatch 0 (Z.of_nat k) (Z.of_nat k) /\ m' = mkMatch (Z.of_nat k) (Z.of_nat (k + length s)) (Z.of_nat (length s))
  | (r, _) => r = 0 /\ forall k, ~ occurs b s k
  end.

Lemma instr_8bit_first b s : s <> [] -> instr_answer b s (instr_8bit weight b s 2).
Proof.
  intros Hs. unfold instr_8bit. assert (Z.of_nat (length s) <> 0) by (destruct s; [done|simpl; lia]).
  rewrite (proj2 (Z.eqb_neq (Z.of_nat (length s)) 0)) by done. destruct (Z.leb_spec (Z.of_nat (length s)) (Z.of_nat (length b))) as [Hle|Hgt].
  - pose proof (instr_loop_spec (Z.to_nat (Z.of_nat (length b) - Z.of_nat (length s) + 1)) b s 0 ltac:(lia) Hs) as Hl.
    destruct (instr_loop _ _ b s 0) as [e|]; [|by cbn]. destruct Hl as (k & -> & Hk & Hmin). cbn. exists k.
    split_and!; try done. f_equal. lia.
  - split; [done|]. intros k Hk%occurs_length. lia.
Qed.
End instr.

(** [my_instr_bin] finds the first place of a string in another: it returns
    0 when there is none, and else the part before the place and the place. *)
Theorem instr_bin_first b s : s <> [] -> instr_answer id b s (my_instr_bin b s 2).
Proof. apply instr_8bit_first. Qed.

(** "ab" in "xaab". *)
Lemma instr_bin_first_witness : instr_answer id [120; 97; 97; 98] [97; 98] (my_instr_bin [120; 97; 97; 98] [97; 98] 2).
Proof. apply (instr_bin_first [120; 97; 97; 98] [97; 98]). done. Defined.
