(* ===== verification/CtypeSimple.v ===== *)
(** * The 8-bit character sets (strings/ctype-simple.c)

    Comparison, sort keys, hashing, case, search, LIKE and the ranges of LIKE
    for the collations that give each byte a weight.  A string is the list of
    its bytes. *)

From stdpp Require Import base numbers list.
From Stdlib Require Import ZArith Lia.
From S2P Require Import Prelude Like Wild8 Collate Latin1 CtypeBin.

Local Open Scope Z_scope.

(** ** The character set *)

(** The fields that the functions of this file use; [state_binsort] is the flag
    [MY_CS_BINSORT] of [state]. *)
Record CHARSET_INFO := mkCharset {
  to_lower : list Z;
  to_upper : list Z;
  sort_order : list Z;
  strxfrm_multiply : Z;
  mbmaxlen : Z;
  max_sort_char : Z;
  state_binsort : bool
}.

(** [map[c]]. *)
Definition tab (map : list Z) (c : Z) : Z := nth (Z.to_nat c) map 0.

Abbreviation weight cs := (tab (sort_order cs)).

(** The loop of [set_max_sort_char]: the largest weight so far and its
    character. *)
Definition max_sort_step (so : list Z) (acc : Z * Z) (i : Z) : Z * Z :=
  if acc.1 <? tab so i then (tab so i, i) else acc.

Definition set_max_sort_char (cs : CHARSET_INFO) : CHARSET_INFO :=
  let '(_, m) := foldl (max_sort_step (sort_order cs)) (tab (sort_order cs) (u8 (max_sort_char cs)), max_sort_char cs) (seqZ 0 256) in
  mkCharset (to_lower cs) (to_upper cs) (sort_order cs) (strxfrm_multiply cs) (mbmaxlen cs) m (state_binsort cs).

Definition my_coll_init_simple (cs : CHARSET_INFO) : CHARSET_INFO := set_max_sort_char cs.

(** ** Comparison, keys and hashes *)

Definition my_strnxfrmlen_simple (cs : CHARSET_INFO) (len : Z) : Z :=
  u32 (len * (if negb (strxfrm_multiply cs =? 0) then strxfrm_multiply cs else 1)).

(** The [dstlen] bytes of the key, which are the same in place or not. *)
Definition my_strnxfrm_simple (cs : CHARSET_INFO) (dstlen : nat) (src : list Z) : list Z :=
  let len := min dstlen (length src) in map (weight cs) (take len src) ++ replicate (dstlen - len) 32.

(** The difference of the first weights that differ, up to the end of one. *)
Fixpoint weight_diff (map : list Z) (s t : list Z) : option Z :=
  match s, t with
  | x :: s, y :: t => if negb (tab map x =? tab map y) then Some (tab map x - tab map y) else weight_diff map s t
  | _, _ => None
  end.

Definition my_strnncoll_simple (cs : CHARSET_INFO) (s t : list Z) (t_is_prefix : bool) : Z :=
  let slen := len32 s in
  let tlen := len32 t in
  let slen := if t_is_prefix && (tlen <? slen) then tlen else slen in
  match weight_diff (sort_order cs) s t with
  | Some d => d
  | None => s32 (slen - tlen)
  end.

(** [diff_if_only_endspace_difference] is overwritten with 0. *)
Definition my_strnncollsp_simple (cs : CHARSET_INFO) (a b : list Z) : Z :=
  match weight_diff (sort_order cs) a b with
  | Some d => d
  | None =>
      if negb (length a =? length b)%nat then
        if (length a <? length b)%nat then endspace (-1) 0 (drop (length a) b) else endspace 1 0 (drop (length b) a)
      else 0
  end.

Definition my_lengthsp_8bit (s : list Z) : Z := Z.of_nat (length (remove_end_space s)).

Definition my_hash_sort_simple (cs : CHARSET_INFO) (key : list Z) (nr : Z * Z) : Z * Z :=
  foldl (fun nr c => hash_byte nr (weight cs c)) nr (remove_end_space key).

(** ** Case *)

(** [while (( *str = map[ *str]) != 0) str++] on the memory from [str] on; [None]
    when it runs past the end of the memory. *)
Fixpoint case_str (map : list Z) (str : list Z) : option (list Z) :=
  match str with
  | [] => None
  | c :: str => if tab map c =? 0 then Some (tab map c :: str) else cons (tab map c) <$> case_str map str
  end.

Definition my_caseup_str_8bit (cs : CHARSET_INFO) (str : list Z) : option (list Z) := case_str (to_upper cs) str.

Definition my_casedn_str_8bit (cs : CHARSET_INFO) (str : list Z) : option (list Z) := case_str (to_lower cs) str.

(** The string is converted in place and keeps its length. *)
Definition my_caseup_8bit (cs : CHARSET_INFO) (src : list Z) : list Z := map (tab (to_upper cs)) src.

Definition my_casedn_8bit (cs : CHARSET_INFO) (src : list Z) : list Z := map (tab (to_lower cs)) src.

(** The strings are the memory from [s] and [t] on, with the zero bytes. *)
Fixpoint strcasecmp_8bit (map : list Z) (s t : list Z) : option Z :=
  match s, t with
  | x :: s, y :: t =>
      if tab map x =? tab map y then if x =? 0 then Some 0 else strcasecmp_8bit map s t
      else Some (tab map x - tab map y)
  | _, _ => None
  end.

Definition my_strcasecmp_8bit (cs : CHARSET_INFO) (s t : list Z) : option Z := strcasecmp_8bit (to_upper cs) s t.

(** ** Search and LIKE *)

Definition my_instr_simple (cs : CHARSET_INFO) (b s : list Z) (nmatch : Z) : Z * list my_match_t :=
  instr_8bit (weight cs) b s nmatch.

(** [likeconv(s, A)] is the weight; [past] is the byte behind the pattern. *)
Definition my_wildcmp_8bit (cs : CHARSET_INFO) (escape w_one w_many past : Z) (str wild : list Z) : option Z :=
  wildcmp_8bit (weight cs) escape w_one w_many past str wild.

(** [*min_str++ = lo; *max_str++ = hi] before the rest. *)
Definition range_put (lo hi : Z) (rest : list Z * list Z * nat * bool) : list Z * list Z * nat * bool :=
  let '(min_str, max_str, n, many) := rest in (lo :: min_str, hi :: max_str, S n, many).

(** The bytes of [min_str] and [max_str] from here to [min_end], [room] bytes;
    how many of them the loop wrote, and whether it stopped at [w_many]. *)
Fixpoint like_range_loop (cs : CHARSET_INFO) (escape w_one w_many : Z) (ptr : list Z) (room charlen : nat)
  : list Z * list Z * nat * bool :=
  match ptr, room, charlen with
  | c :: p, S room', S charlen' =>
      let plain :=
        if s8 c =? w_one then
          range_put 0 (u8 (max_sort_char cs)) (like_range_loop cs escape w_one w_many p room' charlen')
        else if s8 c =? w_many then (replicate room 0, replicate room (u8 (max_sort_char cs)), O, true)
        else range_put c c (like_range_loop cs escape w_one w_many p room' charlen') in
      match p with
      | e :: p' =>
          if s8 c =? escape then range_put e e (like_range_loop cs escape w_one w_many p' room' charlen') else plain
      | [] => plain
      end
  | _, _, _ => (replicate room 32, replicate room 32, O, false)
  end.

(** [min_str], [max_str], [min_length] and [max_length]; the function returns 0. *)
Definition my_like_range_simple (cs : CHARSET_INFO) (ptr : list Z) (escape w_one w_many : Z) (res_length : nat)
  : list Z * list Z * nat * nat :=
  let charlen := (res_length / Z.to_nat (mbmaxlen cs))%nat in
  let '(min_str, max_str, n, many) := like_range_loop cs escape w_one w_many ptr res_length charlen in
  if many then (min_str, max_str, if state_binsort cs then n else res_length, res_length)
  else (min_str, max_str, n, n).

(** ** Lengths *)

Definition my_numchars_8bit (s : list Z) : Z := len32 s.

Definition my_numcells_8bit (s : list Z) : Z := len32 s.

Definition my_charpos_8bit (pos : Z) : Z := pos.

(** The error is always 0. *)
Definition my_well_formed_len_8bit (s : list Z) (nchars : Z) : Z := Z.min (len32 s) nchars.

(** ** The order of the weights *)

(** What the theorems need of a table of weights: it has a weight for each
    byte, and a byte and its weight are on the same side of the space. *)
Class SimpleCollation (cs : CHARSET_INFO) : Prop := {
  so_bytes : forall c, is_u8 c -> is_u8 (weight cs c);
  so_space : forall c, is_u8 c -> (weight cs c ?= 32) = (c ?= 32)
}.

Section order.
Context (cs : CHARSET_INFO) `{!SimpleCollation cs}.
Let w := weight cs.

Lemma endspace_simple swap a : forall n, (swap = 1 \/ swap = -1) -> bytes a -> (length a <= n)%nat ->
  sign (endspace swap 0 a) = if swap =? 1 then padded_cmp n (map w a) [] else padded_cmp n [] (map w a).
Proof.
  intros n Hs Ha. revert n. induction Ha as [|c a Hc Ha IH]; intros n Hn; [by apply (endspace_spec swap [] n)|].
  destruct n as [|n]; [simpl in Hn; lia|]. cbn [map endspace padded_cmp head default from_option id tail].
  assert ((w c ?= 32) = (c ?= 32)) as Hsp by (by apply so_space).
  rewrite (Z.compare_antisym (w c)), Hsp. destruct (Z.eqb_spec c 32) as [->|Hne]; cbn [negb].
  - rewrite Z.compare_refl. apply IH. simpl in Hn. lia.
  - destruct (Z.ltb_spec c 32); [rewrite (proj2 (Z.compare_lt_iff c 32)) by lia|rewrite (proj2 (Z.compare_gt_iff c 32)) by lia];
      destruct Hs as [-> | ->]; done.
Qed.

Lemma strnncollsp_simple_spec a : forall b n, bytes a -> bytes b -> (length a <= n)%nat -> (length b <= n)%nat ->
  sign (my_strnncollsp_simple cs a b) = padded_cmp n (map w a) (map w b).
Proof.
  unfold my_strnncollsp_simple. induction a as [|x a IH]; intros b n Ha Hb Hn Hn2.
  - destruct b as [|y b]; cbn [weight_diff length Nat.eqb negb Nat.ltb Nat.leb drop].
    + clear. induction n as [|n IH]; [done|exact IH].
    + by rewrite (endspace_simple (-1) (y :: b) n) by auto.
  - destruct b as [|y b]; [cbn [weight_diff length Nat.eqb negb Nat.ltb Nat.leb drop]; by rewrite (endspace_simple 1 (x :: a) n) by auto|].
    destruct n as [|n]; [simpl in Hn; lia|]. apply Forall_cons in Ha as [Hx Ha], Hb as [Hy Hb].
    cbn [weight_diff map padded_cmp head default from_option id tail]. fold (w x) (w y).
    destruct (Z.eqb_spec (w x) (w y)) as [E|E]; cbn [negb].
    + rewrite E, Z.compare_refl. apply (IH b n Ha Hb); simpl in *; lia.
    + unfold sign. rewrite <- Z.compare_sub. by destruct (Z.compare_spec (w x) (w y)).
Qed.

Lemma strnxfrm_simple_pad n s : my_strnxfrm_simple cs n s = pad n 32 (map w s).
Proof.
  unfold my_strnxfrm_simple, pad. rewrite length_map, firstn_map. f_equal; [|f_equal; lia]. f_equal.
  destruct (Nat.le_ge_cases n (length s)); [by rewrite Nat.min_l|]. by rewrite Nat.min_r, !take_ge by lia.
Qed.

Lemma hash_sort_simple_trim s nr : bytes s -> my_hash_sort_simple cs s nr = foldl hash_byte nr (trim (map w s)).
Proof.
  intros Hs. unfold my_hash_sort_simple. rewrite remove_end_space_trim, <- trim_map.
  - generalize (trim s). intros t. revert nr. induction t as [|c t IH]; intros nr; [done|]. apply IH.
  - eapply Forall_impl; [exact Hs|]. intros c Hc. rewrite !Z.eqb_compare. unfold w. by rewrite so_space.
Qed.
End order.

(** *** The largest weight *)

Lemma max_sort_fold so l : forall acc, tab so (u8 acc.2) = acc.1 -> Forall (fun i => is_u8 i) l ->
  let acc' := foldl (max_sort_step so) acc l in
  tab so (u8 acc'.2) = acc'.1 /\ acc.1 <= acc'.1 /\ forall i, i ∈ l -> tab so i <= acc'.1.
Proof.
  induction l as [|i l IH]; intros acc Ha Hl; cbn [foldl].
  { split_and!; [done|lia|]. by intros i ?%not_elem_of_nil. }
  apply Forall_cons in Hl as [Hi Hl]. destruct (IH (max_sort_step so acc i)) as (H1 & H2 & H3); [|done|].
  { unfold max_sort_step. case_if; [|done]. cbn. by rewrite u8_small. }
  assert (acc.1 <= (max_sort_step so acc i).1 /\ tab so i <= (max_sort_step so acc i).1) as [H4 H5].
  { unfold max_sort_step. destruct (Z.ltb_spec acc.1 (tab so i)); cbn; lia. }
  split_and!; [done|lia|]. intros j [->|Hj]%elem_of_cons; [lia|auto].
Qed.

(** After the initialisation [max_sort_char] has the largest weight. *)
Lemma max_sort_char_max cs c : is_u8 c ->
  weight cs c <= weight cs (u8 (max_sort_char (my_coll_init_simple cs))).
Proof.
  intros Hc. unfold my_coll_init_simple, set_max_sort_char.
  destruct (max_sort_fold (sort_order cs) (seqZ 0 256) (tab (sort_order cs) (u8 (max_sort_char cs)), max_sort_char cs))
    as (H1 & H2 & H3); [done|apply Forall_forall; intros i Hi%elem_of_seqZ; lia|].
  destruct (foldl _ _ _) as [x m]. cbn in *. rewrite H1. apply H3, elem_of_seqZ. lia.
Qed.

(** *** The range of a pattern *)

(** Strings compared place by place, with spaces behind their ends. *)
Lemma padded_le n : forall a b, (forall i, (i < n)%nat -> default 32 (a !! i) <= default 32 (b !! i)) -> padded_cmp n a b <> Gt.
Proof.
  induction n as [|n IH]; intros a b Hab; [done|]. cbn [padded_cmp].
  assert (default 32 (head a) <= default 32 (head b)) as H0 by (specialize (Hab 0%nat ltac:(lia)); by destruct a, b).
  destruct (Z.compare_spec (default 32 (head a)) (default 32 (head b))); [|done|lia]. apply IH. intros i Hi.
  specialize (Hab (S i) ltac:(lia)). by destruct a, b.
Qed.

Section range.
Context (cs : CHARSET_INFO) (escape w_one w_many : Z).
Hypothesis ascii : 0 <= escape < 128 /\ 0 <= w_one < 128 /\ 0 <= w_many < 128.
Hypothesis distinct : escape <> w_one /\ escape <> w_many /\ w_one <> w_many.
Let w := weight cs.
Hypothesis w_zero : forall c, is_u8 c -> w 0 <= w c.
Hypothesis w_space : w 32 = 32.
Hypothesis w_max : forall c, is_u8 c -> w c <= w (u8 (max_sort_char cs)).

Abbreviation at_ s i := (default 32 (map w s !! i)) (only parsing).

Lemma at_cons c s i : at_ (c :: s) i = match i with O => w c | S i => at_ s i end.
Proof. by destruct i. Qed.

Lemma at_replicate c n i : (i < n)%nat -> at_ (replicate n c) i = w c.
Proof. intros Hi. by rewrite list_lookup_fmap, lookup_replicate_2. Qed.

Lemma at_byte s i : bytes s -> exists c, is_u8 c /\ at_ s i = w c.
Proof.
  intros Hs. rewrite list_lookup_fmap. destruct (s !! i) as [c|] eqn:E; cbn; [|exists 32; by rewrite w_space].
  exists c. split; [by apply (Forall_lookup_1 _ _ _ _ Hs E)|done].
Qed.

(** A string is between the two buffers, place by place. *)
Definition between (s : list Z) (room : nat) (out : list Z * list Z * nat * bool) : Prop :=
  let '(min_str, max_str, n, many) := out in
  length min_str = room /\ length max_str = room /\ bytes min_str /\ bytes max_str /\ (n <= room)%nat /\
  (many = false -> drop n min_str = replicate (room - n) 32 /\ drop n max_str = replicate (room - n) 32) /\
  forall i, (i < room)%nat -> at_ min_str i <= at_ s i <= at_ max_str i.

Lemma between_put x s room lo hi out : between s room out -> is_u8 lo -> is_u8 hi -> w lo <= w x <= w hi -> between (x :: s) (S room) (range_put lo hi out).
Proof.
  intros Hb Hlo Hhi Hw. destruct out as [[[mi ma] n] many]. destruct Hb as (? & ? & ? & ? & ? & ? & Hi). cbn [range_put].
  split_and!; cbn [length drop Nat.sub]; try lia; [by constructor..|done|]. intros [|i] Hlt; [done|]. apply Hi. lia.
Qed.

Lemma between_end room : between [] room (replicate room 32, replicate room 32, O, false).
Proof.
  split_and!; rewrite ?length_replicate; try lia; [by apply Forall_replicate..|by rewrite Nat.sub_0_r|].
  intros i Hi. rewrite at_replicate, w_space by done. cbn [map]. rewrite lookup_nil. cbn. lia.
Qed.

Lemma between_many s room : bytes s -> between s room (replicate room 0, replicate room (u8 (max_sort_char cs)), O, true).
Proof.
  intros Hs. split_and!; rewrite ?length_replicate; try (done || lia);
    [by apply Forall_replicate|apply Forall_replicate, u8_range|]. intros i Hi. rewrite !at_replicate by done.
  destruct (at_byte s i Hs) as (c & Hc & ->). auto.
Qed.

(** Every string of the pattern is between the two buffers. *)
Lemma like_range_between ptr : forall s room, bytes ptr -> bytes s -> (length s <= room)%nat ->
  like w escape w_one w_many s ptr -> between s room (like_range_loop cs escape w_one w_many ptr room room).
Proof.
  induction ptr as [ptr IH] using (induction_ltof1 _ (@length Z)). unfold ltof in IH. intros s room Hp Hs Hroom Hlike.
  destruct ptr as [|c p]; [apply like_nil_inv in Hlike as ->; apply between_end|].
  destruct room as [|room]; [cbn; split_and!; done || lia || constructor|]. apply Forall_cons in Hp as [Hc Hp].
  assert (c <> w_many -> c <> w_one -> forall lit rest, literal escape c p lit rest -> is_u8 lit -> bytes rest -> (length rest < length (c :: p))%nat ->
    between s (S room) (range_put lit lit (like_range_loop cs escape w_one w_many rest room room))) as Hlit.
  { intros Hm Ho lit rest Hl Hlb Hb Hlen. apply (like_literal w escape w_one w_many c p lit rest s Hm Ho Hl) in Hlike as (x & s' & -> & Hx & Hl').
    apply Forall_cons in Hs as [_ Hs]. apply between_put; [|done|done|lia]. apply IH; try done. simpl in Hroom. lia. }
  assert (c <> escape \/ p = [] -> between s (S room) (if c =? w_one then
      range_put 0 (u8 (max_sort_char cs)) (like_range_loop cs escape w_one w_many p room room)
    else if c =? w_many then (replicate (S room) 0, replicate (S room) (u8 (max_sort_char cs)), O, true)
    else range_put c c (like_range_loop cs escape w_one w_many p room room))) as Hplain.
  { intros He. destruct (Z.eqb_spec c w_one) as [->|Ho].
    - apply like_one_inv in Hlike as (x & s' & -> & Hl); [|done]. apply Forall_cons in Hs as [Hx Hs].
      apply between_put; [apply IH; try done; simpl in *; lia|done|apply u8_range|auto].
    - destruct (Z.eqb_spec c w_many) as [->|Hm]; [by apply between_many|]. apply Hlit; try done; [|simpl; lia].
      destruct p as [|e p]; [done|]. cbn. destruct (Z.eqb_spec c escape); [by destruct He|done]. }
  cbn [like_range_loop]. rewrite !s8_eqb by (done || lia). destruct p as [|e p]; [by apply Hplain; right|].
  destruct (Z.eqb_spec c escape) as [->|He]; [|by apply Hplain; left]. apply Forall_cons in Hp as [Hec Hp].
  apply Hlit; [lia|lia| |done|done|simpl; lia]. cbn. by rewrite Z.eqb_refl.
Qed.

(** The spaces at the end of a buffer do not matter. *)
Lemma at_take n buf room i : length buf = room -> drop n buf = replicate (room - n) 32 -> (i < room)%nat ->
  at_ (take n buf) i = at_ buf i.
Proof.
  clear ascii distinct. intros Hl Hd Hi. rewrite <- (take_drop n buf) at 2. rewrite Hd, !list_lookup_fmap.
  destruct (decide (i < length (take n buf))%nat) as [Hlt|Hge]; [by rewrite lookup_app_l|].
  rewrite lookup_app_r, lookup_ge_None_2, lookup_replicate_2 by (rewrite length_take in *; lia). cbn. by rewrite w_space.
Qed.

Lemma between_compare `{!SimpleCollation cs} s room out : between s room out -> bytes s -> (length s <= room)%nat ->
  let '(min_str, max_str, n, many) := out in
  forall k, k = (if many then room else n) ->
  my_strnncollsp_simple cs (take k min_str) s <= 0 /\ my_strnncollsp_simple cs s (take k max_str) <= 0.
Proof.
  clear ascii distinct. destruct out as [[[mi ma] n] many]. intros (Hmi & Hma & Hbi & Hba & Hn & Hd & Hi) Hs Hlen k ->.
  assert (forall x, sign x <> Gt -> x <= 0) as Hsign by (intros x; unfold sign; destruct (Z.compare_spec x 0); intros; (done || lia)).
  assert (forall buf, length buf = room -> (many = false -> drop n buf = replicate (room - n) 32) ->
    forall i, (i < room)%nat -> at_ (take (if many then room else n) buf) i = at_ buf i) as Htake.
  { intros buf Hb Hdrop i Hlt. destruct many; [by rewrite take_ge by lia|]. apply at_take with room; auto. }
  split; apply Hsign; rewrite (strnncollsp_simple_spec cs _ _ room) by
    (done || (by apply Forall_take) || (rewrite length_take; lia)); apply padded_le; intros i Hlt; fold w; rewrite Htake by (done || (intros Em; by destruct (Hd Em)));
    apply (Hi i Hlt).
Qed.
End range.

(** ** The results *)

(** [latin1_swedish_ci], the character set the server starts with. *)
Definition my_charset_latin1 : CHARSET_INFO := mkCharset to_lower_latin1 to_upper_latin1 sort_order_latin1 1 1 255 false.

(** A property of the bytes of a table. *)
Lemma bytes_all (P : Z -> bool) : forallb P (seqZ 0 256) = true -> forall c, is_u8 c -> P c = true.
Proof. rewrite forallb_forall. intros H c Hc. apply H, list_elem_of_In, elem_of_seqZ. lia. Qed.

#[export] Instance latin1_simple : SimpleCollation my_charset_latin1.
Proof.
  pose (ok c := let x := weight my_charset_latin1 c in
    (0 <=? x) && (x <? 256) && bool_decide ((x ?= 32) = (c ?= 32))).
  assert (forall c, is_u8 c -> ok c = true) as Hok by (apply bytes_all; by vm_compute).
  split; intros c [Hr Hs]%Hok%andb_true_iff; b2p; [done|by apply bool_decide_eq_true in Hs].
Qed.

(** Comparison of 8-bit strings by weights is the order of the weights, the
    shorter string extended with spaces, when bytes and weights are on the same
    side of the space; then the sort keys of at least the length of the strings
    compare byte by byte as the strings do. *)
Theorem strnxfrm_simple_order cs a b n : SimpleCollation cs -> bytes a -> bytes b -> (length a <= n)%nat -> (length b <= n)%nat ->
  sign (my_strnncollsp_simple cs a b) = padded_cmp n (map (weight cs) a) (map (weight cs) b) /\
  sign (memcmp n (my_strnxfrm_simple cs n a) (my_strnxfrm_simple cs n b)) = sign (my_strnncollsp_simple cs a b).
Proof.
  intros Hcs Ha Hb Hn Hn2. rewrite (strnncollsp_simple_spec cs a b n), !strnxfrm_simple_pad, memcmp_pad by done. done.
Qed.

Lemma strnxfrm_simple_order_witness :
  sign (my_strnncollsp_simple my_charset_latin1 [97] [65; 32]) =
    padded_cmp 2 (map (weight my_charset_latin1) [97]) (map (weight my_charset_latin1) [65; 32]) /\
  sign (memcmp 2 (my_strnxfrm_simple my_charset_latin1 2 [97]) (my_strnxfrm_simple my_charset_latin1 2 [65; 32])) =
    sign (my_strnncollsp_simple my_charset_latin1 [97] [65; 32]).
Proof.
  apply (strnxfrm_simple_order my_charset_latin1 [97] [65; 32] 2); [apply latin1_simple|repeat constructor; lia..].
Defined.

(** 8-bit strings that compare equal hash alike: case, accents and spaces at
    the end make no difference to the hash where they make none to the
    comparison. *)
Theorem hash_sort_simple_equal cs a b nr : SimpleCollation cs -> bytes a -> bytes b ->
  my_strnncollsp_simple cs a b = 0 -> my_hash_sort_simple cs a nr = my_hash_sort_simple cs b nr.
Proof.
  intros Hcs Ha Hb E. set (n := max (length a) (length b)).
  pose proof (strnncollsp_simple_spec cs a b n Ha Hb ltac:(lia) ltac:(lia)) as Hp. rewrite E in Hp.
  rewrite !hash_sort_simple_trim by done. f_equal. eapply padded_eq_trim; [..|by symmetry]; rewrite length_map; lia.
Qed.

Lemma hash_sort_simple_equal_witness :
  my_hash_sort_simple my_charset_latin1 [97; 98] (1, 4) = my_hash_sort_simple my_charset_latin1 [65; 66; 32] (1, 4).
Proof.
  apply (hash_sort_simple_equal my_charset_latin1); [apply latin1_simple|repeat constructor; lia..|by vm_compute].
Defined.

(** LIKE on 8-bit strings is right: for escape and wildcard characters that
    are distinct ASCII characters the comparison ends and returns 0 exactly for
    the strings the pattern stands for, characters being compared by their
    weights, as long as the byte behind the pattern in memory is not the
    character for any string. *)
Theorem wildcmp_simple_like cs escape w_one w_many past str wild :
  0 <= escape < 128 /\ 0 <= w_one < 128 /\ 0 <= w_many < 128 ->
  escape <> w_one /\ escape <> w_many /\ w_one <> w_many -> s8 past <> w_many -> bytes wild ->
  exists r, my_wildcmp_8bit cs escape w_one w_many past str wild = Some r /\
    (r = 0 <-> like (weight cs) escape w_one w_many str wild).
Proof.
  intros Hc Hd Hp Hb.
  destruct (wildcmp_8bit_spec (weight cs) escape w_one w_many past Hc Hd Hp str wild Hb) as (r & Hr & [H0 _] & _). eauto.
Qed.

(** "Axbxc" LIKE "a%X_". *)
Lemma wildcmp_simple_like_witness :
  exists r, my_wildcmp_8bit my_charset_latin1 92 95 37 0 [65; 120; 98; 120; 99] [97; 37; 88; 95] = Some r /\
    (r = 0 <-> like (weight my_charset_latin1) 92 95 37 [65; 120; 98; 120; 99] [97; 37; 88; 95]).
Proof.
  apply (wildcmp_simple_like my_charset_latin1 92 95 37 0 [65; 120; 98; 120; 99] [97; 37; 88; 95]); [lia|lia|by vm_compute|].
  repeat constructor; lia.
Defined.

Lemma init_fields cs :
  sort_order (my_coll_init_simple cs) = sort_order cs /\ mbmaxlen (my_coll_init_simple cs) = mbmaxlen cs /\
  state_binsort (my_coll_init_simple cs) = state_binsort cs.
Proof. unfold my_coll_init_simple, set_max_sort_char. by destruct (foldl _ _ _). Qed.

(** C26: the range of a LIKE pattern is right, for a single-byte character set
    ([mbmaxlen] 1) whose collation has weights that are bytes and compare with
    the space as the characters do ([SimpleCollation]), is not a binary one (no
    [MY_CS_BINSORT], see [like_range_binsort_misses]) and gives the zero byte
    the smallest weight; [max_sort_char] is the one that the initialisation of
    the collation looks up, and the escape character and the two wildcards are
    three different ASCII characters.  A string of at most the length of the
    buffers that the pattern stands for compares between [min_str] and
    [max_str], so an index scan of the range finds it. *)
Theorem like_range_covers cs0 escape w_one w_many ptr res_length s :
  SimpleCollation cs0 -> (forall c, is_u8 c -> weight cs0 0 <= weight cs0 c) -> state_binsort cs0 = false -> mbmaxlen cs0 = 1 ->
  0 <= escape < 128 /\ 0 <= w_one < 128 /\ 0 <= w_many < 128 ->
  escape <> w_one /\ escape <> w_many /\ w_one <> w_many ->
  bytes ptr -> bytes s -> (length s <= res_length)%nat -> like (weight cs0) escape w_one w_many s ptr ->
  let cs := my_coll_init_simple cs0 in
  let '(min_str, max_str, min_length, max_length) := my_like_range_simple cs ptr escape w_one w_many res_length in
  my_strnncollsp_simple cs (take min_length min_str) s <= 0 /\ my_strnncollsp_simple cs s (take max_length max_str) <= 0.
Proof.
  intros Hcs Hzero Hbin Hmb Hascii Hd Hp Hs Hlen Hlike cs. pose proof (init_fields cs0) as (Hso & Hmbl & Hbs). fold cs in Hso, Hmbl, Hbs.
  assert (SimpleCollation cs) as Hcs' by (split; rewrite Hso; apply Hcs).
  assert (weight cs 32 = 32) as H32 by (apply Z.compare_eq; by rewrite so_space).
  assert (between cs s res_length (like_range_loop cs escape w_one w_many ptr res_length res_length)) as Hb.
  { apply like_range_between; try done; [by rewrite Hso| |by rewrite Hso]. intros c Hc. rewrite Hso. by apply max_sort_char_max. }
  apply between_compare in Hb; [|done..]. unfold my_like_range_simple. rewrite Hmbl, Hbs, Hmb, Hbin, Nat.div_1_r.
  destruct (like_range_loop cs escape w_one w_many ptr res_length res_length) as [[[mi ma] n] many].
  destruct many; by apply Hb.
Qed.

(** "x" and "xyz" are between the strings for "X%". *)
Lemma like_range_covers_witness :
  let cs := my_coll_init_simple my_charset_latin1 in
  let '(min_str, max_str, min_length, max_length) := my_like_range_simple cs [88; 37] 92 95 37 5 in
  my_strnncollsp_simple cs (take min_length min_str) [120; 121; 122] <= 0 /\
  my_strnncollsp_simple cs [120; 121; 122] (take max_length max_str) <= 0.
Proof.
  apply (like_range_covers my_charset_latin1 92 95 37 [88; 37] 5 [120; 121; 122]);
    [apply latin1_simple| |done|done|lia|lia|repeat constructor; lia|repeat constructor; lia|simpl; lia|].
  - intros c Hc. apply Z.leb_le. revert c Hc. apply bytes_all. by vm_compute.
  - apply like_char; [lia|lia|lia|by vm_compute|]. apply (like_many _ _ _ _ [121; 122] [] []). constructor.
Defined.

(** With a binary sort order the lower end of the range is cut behind the
    part before the wildcard, and comparison fills it up with spaces: the
    string "a" and a tab is of the pattern "a%" but compares below the lower
    end "a" of its range. *)
Theorem like_range_binsort_misses :
  let cs := mkCharset to_lower_latin1 to_upper_latin1 [] 1 1 255 true in
  like id 92 95 37 [97; 9] [97; 37] /\
  let '(min_str, _, min_length, _) := my_like_range_simple cs [97; 37] 92 95 37 5 in
  0 < my_strnncollsp_8bit_bin (take min_length min_str) [97; 9].
Proof.
  split; [|by vm_compute]. apply like_char; try lia. apply (like_many _ _ _ _ [9] [] []). constructor.
Qed.

(** [my_instr_simple] finds the first place with the weights of the string. *)
Lemma instr_simple_first cs b s : s <> [] -> instr_answer (weight cs) b s (my_instr_simple cs b s 2).
Proof. apply instr_8bit_first. Qed.
