(* ===== verification/Latin1De.v ===== *)
(** * The German collation of latin1 (strings/ctype-latin1.c)

    [latin1_german2_ci] compares a letter with an umlaut as two letters.  The
    comment in the source asks that comparison works as if the sort keys had
    been compared; here is the proof. *)

From stdpp Require Import base numbers list.
From Stdlib Require Import ZArith Lia.
From S2P Require Import Prelude Collate Latin1 CtypeBin CtypeSimple.

Local Open Scope Z_scope.

(** ** The functions *)

(** The next character of a string and its extension: the character, the new
    extension and the rest. *)
Definition de_next (s : list Z) (extend : Z) : Z * Z * list Z :=
  if negb (extend =? 0) then (extend, 0, s)
  else match s with c :: s => (tab combo1map c, tab combo2map c, s) | [] => (0, 0, []) end.

(** The loop of the two comparisons: the value returned in it, or what is left
    of the strings and their extensions. *)
Fixpoint de_loop (fuel : nat) (a : list Z) (a_extend : Z) (b : list Z) (b_extend : Z)
  : option (Z + list Z * Z * list Z * Z) :=
  match fuel with
  | O => None
  | S fuel =>
      if (bool_decide (a <> []) || negb (a_extend =? 0)) && (bool_decide (b <> []) || negb (b_extend =? 0)) then
        let '(a_char, a_extend, a) := de_next a a_extend in
        let '(b_char, b_extend, b) := de_next b b_extend in
        if negb (a_char =? b_char) then Some (inl (a_char - b_char)) else de_loop fuel a a_extend b b_extend
      else Some (inr (a, a_extend, b, b_extend))
  end.

Definition de_fuel (a : list Z) : nat := S (2 * length a).

Definition my_strnncoll_latin1_de (a b : list Z) (b_is_prefix : bool) : option Z :=
  out ← de_loop (de_fuel a) a 0 b 0;
  match out with
  | inl r => Some r
  | inr (a, a_extend, b, b_extend) =>
      Some (if bool_decide (a <> []) || negb (a_extend =? 0) then (if b_is_prefix then 0 else 1)
            else if bool_decide (b <> []) || negb (b_extend =? 0) then -1 else 0)
  end.

(** [diff_if_only_endspace_difference] is overwritten with 0. *)
Definition my_strnncollsp_latin1_de (a b : list Z) : option Z :=
  out ← de_loop (de_fuel a) a 0 b 0;
  match out with
  | inl r => Some r
  | inr (a, a_extend, b, b_extend) =>
      if negb (a_extend =? 0) then Some 1
      else if negb (b_extend =? 0) then Some (-1)
      else if bool_decide (a <> []) || bool_decide (b <> []) then
        Some (if bool_decide (a = []) then endspace (-1) 0 b else endspace 1 0 a)
      else Some 0
  end.

(** The [room] bytes of the key from here on. *)
Fixpoint strnxfrm_de (src : list Z) (room : nat) : list Z :=
  match src, room with
  | c :: src, S room =>
      tab combo1map c ::
        match room with
        | S room' => if negb (tab combo2map c =? 0) then tab combo2map c :: strnxfrm_de src room' else strnxfrm_de src room
        | O => []
        end
  | _, _ => replicate room 32
  end.

Definition my_strnxfrm_latin1_de (len : nat) (src : list Z) : list Z := strnxfrm_de src len.

Definition hash_de (nr : Z * Z) (c : Z) : Z * Z :=
  let nr := hash_byte nr (tab combo1map c) in
  if negb (tab combo2map c =? 0) then hash_byte nr (tab combo2map c) else nr.

Definition my_hash_sort_latin1_de (key : list Z) (nr : Z * Z) : Z * Z := foldl hash_de nr (remove_end_space key).

(** ** Letters as two letters *)

Definition de_char (c : Z) : list Z :=
  tab combo1map c :: if negb (tab combo2map c =? 0) then [tab combo2map c] else [].

Fixpoint de_string (s : list Z) : list Z :=
  match s with
  | [] => []
  | c :: s => de_char c ++ de_string s
  end.

(** What is left of a string in the loop. *)
Definition de_rest (s : list Z) (extend : Z) : list Z := (if extend =? 0 then [] else [extend]) ++ de_string s.

Lemma de_rest_nil s extend : bool_decide (s <> []) || negb (extend =? 0) = true <-> de_rest s extend <> [].
Proof.
  unfold de_rest. destruct (Z.eqb_spec extend 0) as [->|He]; cbn [negb app].
  - rewrite orb_false_r, bool_decide_eq_true. by destruct s.
  - rewrite orb_true_r. done.
Qed.

(** The rounds that the rest of a string can take. *)
Definition de_size (s : list Z) (extend : Z) : nat := 2 * length s + if (extend =? 0)%Z then 0 else 1.

Lemma de_next_spec s extend : de_rest s extend <> [] ->
  let '(c, extend', s') := de_next s extend in
  de_rest s extend = c :: de_rest s' extend' /\ (length s' <= length s)%nat /\
  (de_size s' extend' < de_size s extend)%nat.
Proof.
  unfold de_next, de_rest, de_size. destruct (Z.eqb_spec extend 0) as [->|He]; cbn [negb app]; intros Hn.
  - destruct s as [|c s]; [done|]. cbn [de_string de_char length app]. destruct (Z.eqb_spec (tab combo2map c) 0); cbn [negb app]; split_and!; (done || lia).
  - change (0 =? 0) with true. split_and!; (done || lia).
Qed.

(** An extension is none or a letter. *)
Definition de_letter (e : Z) : Prop := e = 0 \/ 32 < e.

Lemma combo2map_letter c : de_letter (tab combo2map c).
Proof.
  unfold tab. destruct (nth_in_or_default (Z.to_nat c) combo2map 0) as [Hin| ->]; [|by left].
  assert (forallb (fun e => (e =? 0) || (32 <? e)) combo2map = true) as Hall by (by vm_compute).
  rewrite forallb_forall in Hall. specialize (Hall _ Hin). rewrite orb_true_iff, Z.eqb_eq, Z.ltb_lt in Hall. done.
Qed.

Lemma de_next_letter s extend : de_letter (de_next s extend).1.2.
Proof. unfold de_next. destruct (negb _); [by left|]. destruct s as [|c s]; [by left|]. apply combo2map_letter. Qed.

(** Behind a part with equal letters the first that differ decide, or one of
    the strings is at its end. *)
Definition de_outcome (a : list Z) (ea : Z) (b : list Z) (eb : Z) (out : Z + list Z * Z * list Z * Z) : Prop :=
  exists p x y, de_rest a ea = p ++ x /\ de_rest b eb = p ++ y /\
    match out with
    | inl r => exists c d x' y', x = c :: x' /\ y = d :: y' /\ c <> d /\ r = c - d
    | inr (a', ea', b', eb') =>
        x = de_rest a' ea' /\ y = de_rest b' eb' /\ (x = [] \/ y = []) /\ a' `suffix_of` a /\ b' `suffix_of` b /\
        de_letter ea' /\ de_letter eb'
    end.

Lemma de_next_suffix s extend : (de_next s extend).2 `suffix_of` s.
Proof. unfold de_next. destruct (negb _); [done|]. destruct s as [|c s]; [done|]. by apply suffix_cons_r. Qed.

Lemma de_loop_spec fuel : forall a ea b eb, de_letter ea -> de_letter eb -> (de_size a ea < fuel)%nat ->
  exists out, de_loop fuel a ea b eb = Some out /\ de_outcome a ea b eb out.
Proof.
  induction fuel as [|fuel IH]; intros a ea b eb Hla Hlb Hf; [lia|]. cbn [de_loop].
  pose proof (de_rest_nil a ea) as Ha. pose proof (de_rest_nil b eb) as Hb.
  destruct ((bool_decide (a <> []) || negb (ea =? 0)) && (bool_decide (b <> []) || negb (eb =? 0))) eqn:E.
  - apply andb_true_iff in E as [Ea%Ha Eb%Hb]. pose proof (de_next_spec a ea Ea) as Hna. pose proof (de_next_spec b eb Eb) as Hnb.
    pose proof (de_next_suffix a ea) as Hsa. pose proof (de_next_suffix b eb) as Hsb.
    pose proof (de_next_letter a ea) as Hla'. pose proof (de_next_letter b eb) as Hlb'.
    destruct (de_next a ea) as [[c ea'] a']. destruct (de_next b eb) as [[d eb'] b']. cbn [fst snd] in *.
    destruct Hna as (Era & _ & Hlt), Hnb as (Erb & _ & _). destruct (Z.eqb_spec c d) as [->|Hcd]; cbn [negb].
    + destruct (IH a' ea' b' eb') as (out & -> & q & x & y & Ex & Ey & Hout); [done|done|lia|]. exists out. split; [done|].
      exists (d :: q), x, y. rewrite Era, Erb, Ex, Ey. split_and!; try done. destruct out as [r|[[[a2 ea2] b2] eb2]]; [done|].
      destruct Hout as (? & ? & ? & ? & ? & ? & ?). split_and!; try done; by etrans.
    + eexists. split; [done|]. exists [], (de_rest a ea), (de_rest b eb). split_and!; try done.
      exists c, d, (de_rest a' ea'), (de_rest b' eb'). done.
  - eexists. split; [done|]. exists [], (de_rest a ea), (de_rest b eb). split_and!; try done.
    assert (de_rest a ea = [] \/ de_rest b eb = []); [|done].
    apply andb_false_iff in E as [E|E]; [left; destruct (de_rest a ea) eqn:Er|right; destruct (de_rest b eb) eqn:Er]; try done.
    + rewrite (proj2 Ha) in E; done.
    + rewrite (proj2 Hb) in E; done.
Qed.

Lemma de_fuel_enough a b : exists out, de_loop (de_fuel a) a 0 b 0 = Some out /\ de_outcome a 0 b 0 out.
Proof. apply de_loop_spec; [by left|by left|]. unfold de_fuel, de_size. cbn [Z.eqb]. lia. Qed.

(** *** The tables *)

Definition de_ok (c : Z) : bool :=
  (0 <=? tab combo1map c) && (tab combo1map c <? 256) && bool_decide ((tab combo1map c ?= 32) = (c ?= 32)).

Lemma de_ok_all c : is_u8 c -> de_ok c = true.
Proof. apply bytes_all. by vm_compute. Qed.

Lemma de_space c : is_u8 c -> (tab combo1map c ?= 32) = (c ?= 32).
Proof. intros Hc%de_ok_all. unfold de_ok in Hc. b2p. by eapply bool_decide_eq_true. Qed.

Lemma de_char_space : de_char 32 = [32].
Proof. by vm_compute. Qed.

Lemma endspace_de swap a : forall n, (swap = 1 \/ swap = -1) -> bytes a -> (length (de_string a) <= n)%nat ->
  sign (endspace swap 0 a) = if swap =? 1 then padded_cmp n (de_string a) [] else padded_cmp n [] (de_string a).
Proof.
  intros n Hs Ha. revert n. induction Ha as [|c a Hc Ha IH]; intros n Hn; [by apply (endspace_spec swap [] n)|].
  cbn [endspace de_string]. destruct (Z.eqb_spec c 32) as [->|Hne]; cbn [negb].
  - rewrite de_char_space in *. cbn [de_string] in Hn. rewrite de_char_space in Hn.
    destruct n as [|n]; [simpl in Hn; lia|]. cbn [app padded_cmp head default from_option id tail]. rewrite Z.compare_refl. apply IH.
    simpl in Hn. lia.
  - destruct n as [|n]; [simpl in Hn; lia|]. unfold de_char. cbn [app padded_cmp head default from_option id tail].
    rewrite (Z.compare_antisym (tab combo1map c)), de_space by done.
    destruct (Z.ltb_spec c 32); [rewrite (proj2 (Z.compare_lt_iff c 32)) by lia|rewrite (proj2 (Z.compare_gt_iff c 32)) by lia];
      destruct Hs as [-> | ->]; done.
Qed.

Lemma de_key len : forall s, my_strnxfrm_latin1_de len s = pad len 32 (de_string s).
Proof.
  unfold my_strnxfrm_latin1_de. induction len as [len IH] using lt_wf_ind. intros s. destruct s as [|c s].
  { unfold pad. cbn. by rewrite take_nil, Nat.sub_0_r. }
  destruct len as [|len]; [done|]. cbn [strnxfrm_de de_string de_char app]. rewrite pad_S. cbn [head default from_option id tail].
  f_equal. destruct len as [|len]; [by destruct (de_string s)|]. destruct (negb (tab combo2map c =? 0)).
  - cbn [app]. rewrite pad_S. cbn [head default from_option id tail]. f_equal. apply IH. lia.
  - cbn [app]. apply IH. lia.
Qed.

Lemma trim_de s : bytes s -> trim (de_string s) = de_string (trim s).
Proof.
  induction 1 as [|c s Hc Hs IH]; [done|]. cbn [de_string trim]. rewrite trim_app, IH.
  assert (trim (de_char c) = if c =? 32 then [] else de_char c) as Htc.
  { unfold de_char. assert ((tab combo1map c =? 32) = (c =? 32)) as E by (by rewrite !Z.eqb_compare, de_space).
    destruct (Z.eqb_spec c 32) as [->|Hne]; [by vm_compute|].
    destruct (combo2map_letter c) as [->|He]; cbn [negb Z.eqb trim]; [by rewrite E|].
    rewrite (proj2 (Z.eqb_neq _ 0)) by lia. cbn [negb trim]. by rewrite (proj2 (Z.eqb_neq _ 32)) by lia. }
  destruct (trim s) as [|d t]; cbn [de_string].
  - rewrite decide_True by done. rewrite Htc. destruct (c =? 32); cbn [de_string]; [done|by rewrite app_nil_r].
  - rewrite decide_False by done. done.
Qed.

Lemma de_hash_fold s : forall nr, foldl hash_de nr s = foldl hash_byte nr (de_string s).
Proof.
  induction s as [|c s IH]; intros nr; [done|]. cbn [foldl de_string de_char app]. rewrite IH. unfold hash_de.
  by destruct (negb (tab combo2map c =? 0)).
Qed.

Lemma de_collsp a b n : bytes a -> bytes b -> (length (de_string a) <= n)%nat -> (length (de_string b) <= n)%nat ->
  exists r, my_strnncollsp_latin1_de a b = Some r /\ sign r = padded_cmp n (de_string a) (de_string b).
Proof.
  intros Ha Hb Hn Hn2. unfold my_strnncollsp_latin1_de. destruct (de_fuel_enough a b) as (out & -> & p & x & y & Ea & Eb & Hout).
  unfold de_rest in Ea, Eb. cbn [Z.eqb app] in Ea, Eb. rewrite Ea, Eb in *. rewrite !length_app in *.
  replace n with (length p + (n - length p))%nat by lia. rewrite padded_app. cbn [mbind option_bind].
  destruct out as [r|[[[a' ea] b'] eb]].
  - destruct Hout as (c & d & x' & y' & -> & -> & Hcd & ->). exists (c - d). split; [done|].
    destruct (n - length p)%nat as [|m] eqn:En; [simpl in *; lia|]. cbn. unfold sign. rewrite <- Z.compare_sub.
    by destruct (Z.compare_spec c d).
  - destruct Hout as (-> & -> & Hend & Hsa & Hsb & Hla & Hlb).
    assert (bytes a' /\ bytes b') as [Ha' Hb'] by (destruct Hsa as [? ->], Hsb as [? ->]; by apply Forall_app in Ha as [_ ?], Hb as [_ ?]).
    assert (forall s, de_string s = [] <-> s = []) as Hnil by (intros [|? ?]; done).
    assert (forall e s, e <> 0 -> de_rest s e = e :: de_string s) as Hext by (intros; unfold de_rest; by rewrite (proj2 (Z.eqb_neq _ 0))).
    destruct (decide (ea = 0)) as [E|Hea]; [subst ea|].
    + destruct (decide (eb = 0)) as [E|Heb]; [subst eb|].
      * cbn [Z.eqb negb]. unfold de_rest in *. cbn [Z.eqb app] in *. rewrite !Hnil in Hend.
        destruct Hend as [-> | ->]; [destruct b' as [|d b']|destruct a' as [|c a']]; cbn [de_string] in *;
          try (exists 0; split; [done|]; by rewrite padded_refl);
          repeat (case_bool_decide; try done); cbn [orb]; (eexists; split; [done|]).
        -- by rewrite (endspace_de (-1) (d :: b') (n - length p)) by (auto; simpl in *; lia).
        -- by rewrite (endspace_de 1 (c :: a') (n - length p)) by (auto; simpl in *; lia).
      * rewrite (Hext eb b') in * by done. destruct Hend as [Hend|]; [|done]. rewrite Hend in *. cbn [Z.eqb negb]. rewrite (proj2 (Z.eqb_neq eb 0)) by done.
        exists (-1). split; [done|]. destruct (n - length p)%nat as [|m] eqn:En; [simpl in *; lia|].
        cbn [padded_cmp head default from_option id tail]. destruct Hlb as [|Hlb]; [done|]. by rewrite (proj2 (Z.compare_lt_iff 32 eb)).
    + rewrite (Hext ea a') in * by done. destruct Hend as [|Hend]; [done|]. rewrite Hend in *. rewrite (proj2 (Z.eqb_neq ea 0)) by done.
      exists 1. split; [done|]. destruct (n - length p)%nat as [|m] eqn:En; [simpl in *; lia|].
      cbn [padded_cmp head default from_option id tail]. destruct Hla as [|Hla]; [done|]. by rewrite (proj2 (Z.compare_gt_iff ea 32)).
Qed.

(** ** The results *)

(** The German collation keeps what its comment promises: comparison is the
    order of the letters after every umlaut is written as two, with spaces
    behind the shorter string; the sort keys are those letters, and comparing
    keys that hold all letters is comparing the strings. *)
Theorem latin1_de_as_keys a b n :
  bytes a -> bytes b -> (length (de_string a) <= n)%nat -> (length (de_string b) <= n)%nat ->
  exists r, my_strnncollsp_latin1_de a b = Some r /\ sign r = padded_cmp n (de_string a) (de_string b) /\
    sign (memcmp n (my_strnxfrm_latin1_de n a) (my_strnxfrm_latin1_de n b)) = sign r.
Proof.
  intros Ha Hb Hn Hn2. destruct (de_collsp a b n Ha Hb Hn Hn2) as (r & Hr & Hs). exists r. split; [done|]. split; [done|].
  by rewrite !de_key, memcmp_pad.
Qed.

(** "Ä" and "ae ". *)
Lemma latin1_de_as_keys_witness :
  exists r, my_strnncollsp_latin1_de [0xc4] [97; 101; 32] = Some r /\ sign r = padded_cmp 3 (de_string [0xc4]) (de_string [97; 101; 32]) /\
    sign (memcmp 3 (my_strnxfrm_latin1_de 3 [0xc4]) (my_strnxfrm_latin1_de 3 [97; 101; 32])) = sign r.
Proof. apply (latin1_de_as_keys [0xc4] [97; 101; 32] 3); vm_compute; repeat constructor; done. Defined.

(** Without the spaces the comparison is the lexicographic order of the
    letters. *)
Lemma strnncoll_latin1_de_order a b :
  exists r, my_strnncoll_latin1_de a b false = Some r /\ sign r = lex (de_string a) (de_string b).
Proof.
  unfold my_strnncoll_latin1_de. destruct (de_fuel_enough a b) as (out & -> & p & x & y & Ea & Eb & Hout).
  unfold de_rest in Ea, Eb. cbn [Z.eqb app] in Ea, Eb. rewrite Ea, Eb, lex_app. cbn [mbind option_bind].
  destruct out as [r|[[[a' ea] b'] eb]].
  - destruct Hout as (c & d & x' & y' & -> & -> & Hcd & ->). exists (c - d). split; [done|]. cbn. unfold sign. rewrite <- Z.compare_sub.
    by destruct (Z.compare_spec c d).
  - destruct Hout as (-> & -> & Hend & _). eexists. split; [done|].
    pose proof (de_rest_nil a' ea) as Ha. pose proof (de_rest_nil b' eb) as Hb.
    destruct (bool_decide (a' <> []) || negb (ea =? 0)); [|destruct (bool_decide (b' <> []) || negb (eb =? 0))].
    + apply proj1 in Ha. destruct Hend as [Hend|Hend]; [by destruct (Ha eq_refl)|]. rewrite Hend.
      destruct (de_rest a' ea); [by destruct (Ha eq_refl)|done].
    + apply proj1 in Hb. destruct (de_rest a' ea) eqn:E; [|by apply proj2 in Ha; discriminate Ha].
      destruct (de_rest b' eb); [by destruct (Hb eq_refl)|done].
    + destruct (de_rest a' ea) eqn:E; [|by apply proj2 in Ha; discriminate Ha].
      destruct (de_rest b' eb) eqn:E'; [done|by apply proj2 in Hb; discriminate Hb].
Qed.

(** Strings that compare equal hash alike. *)
Lemma hash_sort_latin1_de_equal a b nr : bytes a -> bytes b -> my_strnncollsp_latin1_de a b = Some 0 ->
  my_hash_sort_latin1_de a nr = my_hash_sort_latin1_de b nr.
Proof.
  intros Ha Hb E. set (n := max (length (de_string a)) (length (de_string b))).
  destruct (de_collsp a b n Ha Hb) as (r & Hr & Hs); [lia..|]. rewrite Hr in E. injection E as ->.
  unfold my_hash_sort_latin1_de. rewrite !remove_end_space_trim, !de_hash_fold, <- !trim_de by done. f_equal.
  eapply padded_eq_trim; [..|by symmetry]; lia.
Qed.
