(* ===== verification/UniCase.v ===== *)
(** * The case tables of Unicode (strings/ctype-utf8.c)

    Upper case, lower case and weight of the characters of the planes that
    have any, as the source lists them; a plane without a table maps every
    character to itself. *)

From stdpp Require Import base numbers list.
From Stdlib Require Import ZArith.

Local Open Scope Z_scope.

(** [toupper], [tolower] and [sort] of a character. *)
Definition MY_UNICASE_INFO : Type := Z * Z * Z.

Definition plane00 : list MY_UNICASE_INFO := [
  (0x0, 0x0, 0x0); (0x1, 0x1, 0x1); (0x2, 0x2, 0x2); (0x3, 0x3, 0x3); (0x4, 0x4, 0x4); (0x5, 0x5, 0x5); (0x6, 0x6, 0x6); (0x7, 0x7, 0x7);
  (0x8, 0x8, 0x8); (0x9, 0x9, 0x9); (0xa, 0xa, 0xa); (0xb, 0xb, 0xb); (0xc, 0xc, 0xc); (0xd, 0xd, 0xd); (0xe, 0xe, 0xe); (0xf, 0xf, 0xf);
  (0x10, 0x10, 0x10); (0x11, 0x11, 0x11); (0x12, 0x12, 0x12); (0x13, 0x13, 0x13); (0x14, 0x14, 0x14); (0x15, 0x15, 0x15); (0x16, 0x16, 0x16); (0x17, 0x17, 0x17);
  (0x18, 0x18, 0x18); (0x19, 0x19, 0x19); (0x1a, 0x1a, 0x1a); (0x1b, 0x1b, 0x1b); (0x1c, 0x1c, 0x1c); (0x1d, 0x1d, 0x1d); (0x1e, 0x1e, 0x1e); (0x1f, 0x1f, 0x1f);
  (0x20, 0x20, 0x20); (0x21, 0x21, 0x21); (0x22, 0x22, 0x22); (0x23, 0x23, 0x23); (0x24, 0x24, 0x24); (0x25, 0x25, 0x25); (0x26, 0x26, 0x26); (0x27, 0x27, 0x27);
  (0x28, 0x28, 0x28); (0x29, 0x29, 0x29); (0x2a, 0x2a, 0x2a); (0x2b, 0x2b, 0x2b); (0x2c, 0x2c, 0x2c); (0x2d, 0x2d, 0x2d); (0x2e, 0x2e, 0x2e); (0x2f, 0x2f, 0x2f);
  (0x30, 0x30, 0x30); (0x31, 0x31, 0x31); (0x32, 0x32, 0x32); (0x33, 0x33, 0x33); (0x34, 0x34, 0x34); (0x35, 0x35, 0x35); (0x36, 0x36, 0x36); (0x37, 0x37, 0x37);
  (0x38, 0x38, 0x38); (0x39, 0x39, 0x39); (0x3a, 0x3a, 0x3a); (0x3b, 0x3b, 0x3b); (0x3c, 0x3c, 0x3c); (0x3d, 0x3d, 0x3d); (0x3e, 0x3e, 0x3e); (0x3f, 0x3f, 0x3f);
  (0x40, 0x40, 0x40); (0x41, 0x61, 0x41); (0x42, 0x62, 0x42); (0x43, 0x63, 0x43); (0x44, 0x64, 0x44); (0x45, 0x65, 0x45); (0x46, 0x66, 0x46); (0x47, 0x67, 0x47);
  (0x48, 0x68, 0x48); (0x49, 0x69, 0x49); (0x4a, 0x6a, 0x4a); (0x4b, 0x6b, 0x4b); (0x4c, 0x6c, 0x4c); (0x4d, 0x6d, 0x4d); (0x4e, 0x6e, 0x4e); (0x4f, 0x6f, 0x4f);
  (0x50, 0x70, 0x50); (0x51, 0x71, 0x51); (0x52, 0x72, 0x52); (0x53, 0x73, 0x53); (0x54, 0x74, 0x54); (0x55, 0x75, 0x55); (0x56, 0x76, 0x56); (0x57, 0x77, 0x57);
  (0x58, 0x78, 0x58); (0x59, 0x79, 0x59); (0x5a, 0x7a, 0x5a); (0x5b, 0x5b, 0x5b); (0x5c, 0x5c, 0x5c); (0x5d, 0x5d, 0x5d); (0x5e, 0x5e, 0x5e); (0x5f, 0x5f, 0x5f);
  (0x60, 0x60, 0x60); (0x41, 0x61, 0x41); (0x42, 0x62, 0x42); (0x43, 0x63, 0x43); (0x44, 0x64, 0x44); (0x45, 0x65, 0x45); (0x46, 0x66, 0x46); (0x47, 0x67, 0x47);
  (0x48, 0x68, 0x48); (0x49, 0x69, 0x49); (0x4a, 0x6a, 0x4a); (0x4b, 0x6b, 0x4b); (0x4c, 0x6c, 0x4c); (0x4d, 0x6d, 0x4d); (0x4e, 0x6e, 0x4e); (0x4f, 0x6f, 0x4f);
  (0x50, 0x70, 0x50); (0x51, 0x71, 0x51); (0x52, 0x72, 0x52); (0x53, 0x73, 0x53); (0x54, 0x74, 0x54); (0x55, 0x75, 0x55); (0x56, 0x76, 0x56); (0x57, 0x77, 0x57);
  (0x58, 0x78, 0x58); (0x59, 0x79, 0x59); (0x5a, 0x7a, 0x5a); (0x7b, 0x7b, 0x7b); (0x7c, 0x7c, 0x7c); (0x7d, 0x7d, 0x7d); (0x7e, 0x7e, 0x7e); (0x7f, 0x7f, 0x7f);
  (0x80, 0x80, 0x80); (0x81, 0x81, 0x81); (0x82, 0x82, 0x82); (0x83, 0x83, 0x83); (0x84, 0x84, 0x84); (0x85, 0x85, 0x85); (0x86, 0x86, 0x86); (0x87, 0x87, 0x87);
  (0x88, 0x88, 0x88); (0x89, 0x89, 0x89); (0x8a, 0x8a, 0x8a); (0x8b, 0x8b, 0x8b); (0x8c, 0x8c, 0x8c); (0x8d, 0x8d, 0x8d); (0x8e, 0x8e, 0x8e); (0x8f, 0x8f, 0x8f);
  (0x90, 0x90, 0x90); (0x91, 0x91, 0x91); (0x92, 0x92, 0x92); (0x93, 0x93, 0x93); (0x94, 0x94, 0x94); (0x95, 0x95, 0x95); (0x96, 0x96, 0x96); (0x97, 0x97, 0x97);
  (0x98, 0x98, 0x98); (0x99, 0x99, 0x99); (0x9a, 0x9a, 0x9a); (0x9b, 0x9b, 0x9b); (0x9c, 0x9c, 0x9c); (0x9d, 0x9d, 0x9d); (0x9e, 0x9e, 0x9e); (0x9f, 0x9f, 0x9f);
  (0xa0, 0xa0, 0xa0); (0xa1, 0xa1, 0xa1); (0xa2, 0xa2, 0xa2); (0xa3, 0xa3, 0xa3); (0xa4, 0xa4, 0xa4); (0xa5, 0xa5, 0xa5); (0xa6, 0xa6, 0xa6); (0xa7, 0xa7, 0xa7);
  (0xa8, 0xa8, 0xa8); (0xa9, 0xa9, 0xa9); (0xaa, 0xaa, 0xaa); (0xab, 0xab, 0xab); (0xac, 0xac, 0xac); (0xad, 0xad, 0xad); (0xae, 0xae, 0xae); (0xaf, 0xaf, 0xaf);
  (0xb0, 0xb0, 0xb0); (0xb1, 0xb1, 0xb1); (0xb2, 0xb2, 0xb2); (0xb3, 0xb3, 0xb3); (0xb4, 0xb4, 0xb4); (0x39c, 0xb5, 0x39c); (0xb6, 0xb6, 0xb6); (0xb7, 0xb7, 0xb7);
  (0xb8, 0xb8, 0xb8); (0xb9, 0xb9, 0xb9); (0xba, 0xba, 0xba); (0xbb, 0xbb, 0xbb); (0xbc, 0xbc, 0xbc); (0xbd, 0xbd, 0xbd); (0xbe, 0xbe, 0xbe); (0xbf, 0xbf, 0xbf);
  (0xc0, 0xe0, 0x41); (0xc1, 0xe1, 0x41); (0xc2, 0xe2, 0x41); (0xc3, 0xe3, 0x41); (0xc4, 0xe4, 0x41); (0xc5, 0xe5, 0x41); (0xc6, 0xe6, 0xc6); (0xc7, 0xe7, 0x43);
  (0xc8, 0xe8, 0x45); (0xc9, 0xe9, 0x45); (0xca, 0xea, 0x45); (0xcb, 0xeb, 0x45); (0xcc, 0xec, 0x49); (0xcd, 0xed, 0x49); (0xce, 0xee, 0x49); (0xcf, 0xef, 0x49);
  (0xd0, 0xf0, 0xd0); (0xd1, 0xf1, 0x4e); (0xd2, 0xf2, 0x4f); (0xd3, 0xf3, 0x4f); (0xd4, 0xf4, 0x4f); (0xd5, 0xf5, 0x4f); (0xd6, 0xf6, 0x4f); (0xd7, 0xd7, 0xd7);
  (0xd8, 0xf8, 0xd8); (0xd9, 0xf9, 0x55); (0xda, 0xfa, 0x55); (0xdb, 0xfb, 0x55); (0xdc, 0xfc, 0x55); (0xdd, 0xfd, 0x59); (0xde, 0xfe, 0xde); (0xdf, 0xdf, 0xdf);
  (0xc0, 0xe0, 0x41); (0xc1, 0xe1, 0x41); (0xc2, 0xe2, 0x41); (0xc3, 0xe3, 0x41); (0xc4, 0xe4, 0x41); (0xc5, 0xe5, 0x41); (0xc6, 0xe6, 0xc6); (0xc7, 0xe7, 0x43);
  (0xc8, 0xe8, 0x45); (0xc9, 0xe9, 0x45); (0xca, 0xea, 0x45); (0xcb, 0xeb, 0x45); (0xcc, 0xec, 0x49); (0xcd, 0xed, 0x49); (0xce, 0xee, 0x49); (0xcf, 0xef, 0x49);
  (0xd0, 0xf0, 0xd0); (0xd1, 0xf1, 0x4e); (0xd2, 0xf2, 0x4f); (0xd3, 0xf3, 0x4f); (0xd4, 0xf4, 0x4f); (0xd5, 0xf5, 0x4f); (0xd6, 0xf6, 0x4f); (0xf7, 0xf7, 0xf7);
  (0xd8, 0xf8, 0xd8); (0xd9, 0xf9, 0x55); (0xda, 0xfa, 0x55); (0xdb, 0xfb, 0x55); (0xdc, 0xfc, 0x55); (0xdd, 0xfd, 0x59); (0xde, 0xfe, 0xde); (0x178, 0xff, 0x59)].

Definition plane01 : list MY_UNICASE_INFO := [
  (0x100, 0x101, 0x41); (0x100, 0x101, 0x41); (0x102, 0x103, 0x41); (0x102, 0x103, 0x41); (0x104, 0x105, 0x41); (0x104, 0x105, 0x41); (0x106, 0x107, 0x43); (0x106, 0x107, 0x43);
  (0x108, 0x109, 0x43); (0x108, 0x109, 0x43); (0x10a, 0x10b, 0x43); (0x10a, 0x10b, 0x43); (0x10c, 0x10d, 0x43); (0x10c, 0x10d, 0x43); (0x10e, 0x10f, 0x44); (0x10e, 0x10f, 0x44);
  (0x110, 0x111, 0x110); (0x110, 0x111, 0x110); (0x112, 0x113, 0x45); (0x112, 0x113, 0x45); (0x114, 0x115, 0x45); (0x114, 0x115, 0x45); (0x116, 0x117, 0x45); (0x116, 0x117, 0x45);
  (0x118, 0x119, 0x45); (0x118, 0x119, 0x45); (0x11a, 0x11b, 0x45); (0x11a, 0x11b, 0x45); (0x11c, 0x11d, 0x47); (0x11c, 0x11d, 0x47); (0x11e, 0x11f, 0x47); (0x11e, 0x11f, 0x47);
  (0x120, 0x121, 0x47); (0x120, 0x121, 0x47); (0x122, 0x123, 0x47); (0x122, 0x123, 0x47); (0x124, 0x125, 0x48); (0x124, 0x125, 0x48); (0x126, 0x127, 0x126); (0x126, 0x127, 0x126);
  (0x128, 0x129, 0x49); (0x128, 0x129, 0x49); (0x12a, 0x12b, 0x49); (0x12a, 0x12b, 0x49); (0x12c, 0x12d, 0x49); (0x12c, 0x12d, 0x49); (0x12e, 0x12f, 0x49); (0x12e, 0x12f, 0x49);
  (0x130, 0x69, 0x49); (0x49, 0x131, 0x49); (0x132, 0x133, 0x132); (0x132, 0x133, 0x132); (0x134, 0x135, 0x4a); (0x134, 0x135, 0x4a); (0x136, 0x137, 0x4b); (0x136, 0x137, 0x4b);
  (0x138, 0x138, 0x138); (0x139, 0x13a, 0x4c); (0x139, 0x13a, 0x4c); (0x13b, 0x13c, 0x4c); (0x13b, 0x13c, 0x4c); (0x13d, 0x13e, 0x4c); (0x13d, 0x13e, 0x4c); (0x13f, 0x140, 0x13f);
  (0x13f, 0x140, 0x13f); (0x141, 0x142, 0x141); (0x141, 0x142, 0x141); (0x143, 0x144, 0x4e); (0x143, 0x144, 0x4e); (0x145, 0x146, 0x4e); (0x145, 0x146, 0x4e); (0x147, 0x148, 0x4e);
  (0x147, 0x148, 0x4e); (0x149, 0x149, 0x149); (0x14a, 0x14b, 0x14a); (0x14a, 0x14b, 0x14a); (0x14c, 0x14d, 0x4f); (0x14c, 0x14d, 0x4f); (0x14e, 0x14f, 0x4f); (0x14e, 0x14f, 0x4f);
  (0x150, 0x151, 0x4f); (0x150, 0x151, 0x4f); (0x152, 0x153, 0x152); (0x152, 0x153, 0x152); (0x154, 0x155, 0x52); (0x154, 0x155, 0x52); (0x156, 0x157, 0x52); (0x156, 0x157, 0x52);
  (0x158, 0x159, 0x52); (0x158, 0x159, 0x52); (0x15a, 0x15b, 0x53); (0x15a, 0x15b, 0x53); (0x15c, 0x15d, 0x53); (0x15c, 0x15d, 0x53); (0x15e, 0x15f, 0x53); (0x15e, 0x15f, 0x53);
  (0x160, 0x161, 0x53); (0x160, 0x161, 0x53); (0x162, 0x163, 0x54); (0x162, 0x163, 0x54); (0x164, 0x165, 0x54); (0x164, 0x165, 0x54); (0x166, 0x167, 0x166); (0x166, 0x167, 0x166);
  (0x168, 0x169, 0x55); (0x168, 0x169, 0x55); (0x16a, 0x16b, 0x55); (0x16a, 0x16b, 0x55); (0x16c, 0x16d, 0x55); (0x16c, 0x16d, 0x55); (0x16e, 0x16f, 0x55); (0x16e, 0x16f, 0x55);
  (0x170, 0x171, 0x55); (0x170, 0x171, 0x55); (0x172, 0x173, 0x55); (0x172, 0x173, 0x55); (0x174, 0x175, 0x57); (0x174, 0x175, 0x57); (0x176, 0x177, 0x59); (0x176, 0x177, 0x59);
  (0x178, 0xff, 0x59); (0x179, 0x17a, 0x5a); (0x179, 0x17a, 0x5a); (0x17b, 0x17c, 0x5a); (0x17b, 0x17c, 0x5a); (0x17d, 0x17e, 0x5a); (0x17d, 0x17e, 0x5a); (0x53, 0x17f, 0x53);
  (0x180, 0x180, 0x180); (0x181, 0x253, 0x181); (0x182, 0x183, 0x182); (0x182, 0x183, 0x182); (0x184, 0x185, 0x184); (0x184, 0x185, 0x184); (0x186, 0x254, 0x186); (0x187, 0x188, 0x187);
  (0x187, 0x188, 0x187); (0x189, 0x256, 0x189); (0x18a, 0x257, 0x18a); (0x18b, 0x18c, 0x18b); (0x18b, 0x18c, 0x18b); (0x18d, 0x18d, 0x18d); (0x18e, 0x1dd, 0x18e); (0x18f, 0x259, 0x18f);
  (0x190, 0x25b, 0x190); (0x191, 0x192, 0x191); (0x191, 0x192, 0x191); (0x193, 0x260, 0x193); (0x194, 0x263, 0x194); (0x1f6, 0x195, 0x1f6); (0x196, 0x269, 0x196); (0x197, 0x268, 0x197);
  (0x198, 0x199, 0x198); (0x198, 0x199, 0x198); (0x19a, 0x19a, 0x19a); (0x19b, 0x19b, 0x19b); (0x19c, 0x26f, 0x19c); (0x19d, 0x272, 0x19d); (0x19e, 0x19e, 0x19e); (0x19f, 0x275, 0x19f);
  (0x1a0, 0x1a1, 0x4f); (0x1a0, 0x1a1, 0x4f); (0x1a2, 0x1a3, 0x1a2); (0x1a2, 0x1a3, 0x1a2); (0x1a4, 0x1a5, 0x1a4); (0x1a4, 0x1a5, 0x1a4); (0x1a6, 0x280, 0x1a6); (0x1a7, 0x1a8, 0x1a7);
  (0x1a7, 0x1a8, 0x1a7); (0x1a9, 0x283, 0x1a9); (0x1aa, 0x1aa, 0x1aa); (0x1ab, 0x1ab, 0x1ab); (0x1ac, 0x1ad, 0x1ac); (0x1ac, 0x1ad, 0x1ac); (0x1ae, 0x288, 0x1ae); (0x1af, 0x1b0, 0x55);
  (0x1af, 0x1b0, 0x55); (0x1b1, 0x28a, 0x1b1); (0x1b2, 0x28b, 0x1b2); (0x1b3, 0x1b4, 0x1b3); (0x1b3, 0x1b4, 0x1b3); (0x1b5, 0x1b6, 0x1b5); (0x1b5, 0x1b6, 0x1b5); (0x1b7, 0x292, 0x1b7);
  (0x1b8, 0x1b9, 0x1b8); (0x1b8, 0x1b9, 0x1b8); (0x1ba, 0x1ba, 0x1ba); (0x1bb, 0x1bb, 0x1bb); (0x1bc, 0x1bd, 0x1bc); (0x1bc, 0x1bd, 0x1bc); (0x1be, 0x1be, 0x1be); (0x1f7, 0x1bf, 0x1f7);
  (0x1c0, 0x1c0, 0x1c0); (0x1c1, 0x1c1, 0x1c1); (0x1c2, 0x1c2, 0x1c2); (0x1c3, 0x1c3, 0x1c3); (0x1c4, 0x1c6, 0x1c4); (0x1c4, 0x1c6, 0x1c4); (0x1c4, 0x1c6, 0x1c4); (0x1c7, 0x1c9, 0x1c7);
  (0x1c7, 0x1c9, 0x1c7); (0x1c7, 0x1c9, 0x1c7); (0x1ca, 0x1cc, 0x1ca); (0x1ca, 0x1cc, 0x1ca); (0x1ca, 0x1cc, 0x1ca); (0x1cd, 0x1ce, 0x41); (0x1cd, 0x1ce, 0x41); (0x1cf, 0x1d0, 0x49);
  (0x1cf, 0x1d0, 0x49); (0x1d1, 0x1d2, 0x4f); (0x1d1, 0x1d2, 0x4f); (0x1d3, 0x1d4, 0x55); (0x1d3, 0x1d4, 0x55); (0x1d5, 0x1d6, 0x55); (0x1d5, 0x1d6, 0x55); (0x1d7, 0x1d8, 0x55);
  (0x1d7, 0x1d8, 0x55); (0x1d9, 0x1da, 0x55); (0x1d9, 0x1da, 0x55); (0x1db, 0x1dc, 0x55); (0x1db, 0x1dc, 0x55); (0x18e, 0x1dd, 0x18e); (0x1de, 0x1df, 0x41); (0x1de, 0x1df, 0x41);
  (0x1e0, 0x1e1, 0x41); (0x1e0, 0x1e1, 0x41); (0x1e2, 0x1e3, 0xc6); (0x1e2, 0x1e3, 0xc6); (0x1e4, 0x1e5, 0x1e4); (0x1e4, 0x1e5, 0x1e4); (0x1e6, 0x1e7, 0x47); (0x1e6, 0x1e7, 0x47);
  (0x1e8, 0x1e9, 0x4b); (0x1e8, 0x1e9, 0x4b); (0x1ea, 0x1eb, 0x4f); (0x1ea, 0x1eb, 0x4f); (0x1ec, 0x1ed, 0x4f); (0x1ec, 0x1ed, 0x4f); (0x1ee, 0x1ef, 0x1b7); (0x1ee, 0x1ef, 0x1b7);
  (0x1f0, 0x1f0, 0x4a); (0x1f1, 0x1f3, 0x1f1); (0x1f1, 0x1f3, 0x1f1); (0x1f1, 0x1f3, 0x1f1); (0x1f4, 0x1f5, 0x47); (0x1f4, 0x1f5, 0x47); (0x1f6, 0x195, 0x1f6); (0x1f7, 0x1bf, 0x1f7);
  (0x1f8, 0x1f9, 0x4e); (0x1f8, 0x1f9, 0x4e); (0x1fa, 0x1fb, 0x41); (0x1fa, 0x1fb, 0x41); (0x1fc, 0x1fd, 0xc6); (0x1fc, 0x1fd, 0xc6); (0x1fe, 0x1ff, 0xd8); (0x1fe, 0x1ff, 0xd8)].

Definition plane02 : list MY_UNICASE_INFO := [
  (0x200, 0x201, 0x41); (0x200, 0x201, 0x41); (0x202, 0x203, 0x41); (0x202, 0x203, 0x41); (0x204, 0x205, 0x45); (0x204, 0x205, 0x45); (0x206, 0x207, 0x45); (0x206, 0x207, 0x45);
  (0x208, 0x209, 0x49); (0x208, 0x209, 0x49); (0x20a, 0x20b, 0x49); (0x20a, 0x20b, 0x49); (0x20c, 0x20d, 0x4f); (0x20c, 0x20d, 0x4f); (0x20e, 0x20f, 0x4f); (0x20e, 0x20f, 0x4f);
  (0x210, 0x211, 0x52); (0x210, 0x211, 0x52); (0x212, 0x213, 0x52); (0x212, 0x213, 0x52); (0x214, 0x215, 0x55); (0x214, 0x215, 0x55); (0x216, 0x217, 0x55); (0x216, 0x217, 0x55);
  (0x218, 0x219, 0x53); (0x218, 0x219, 0x53); (0x21a, 0x21b, 0x54); (0x21a, 0x21b, 0x54); (0x21c, 0x21d, 0x21c); (0x21c, 0x21d, 0x21c); (0x21e, 0x21f, 0x48); (0x21e, 0x21f, 0x48);
  (0x220, 0x220, 0x220); (0x221, 0x221, 0x221); (0x222, 0x223, 0x222); (0x222, 0x223, 0x222); (0x224, 0x225, 0x224); (0x224, 0x225, 0x224); (0x226, 0x227, 0x41); (0x226, 0x227, 0x41);
  (0x228, 0x229, 0x45); (0x228, 0x229, 0x45); (0x22a, 0x22b, 0x4f); (0x22a, 0x22b, 0x4f); (0x22c, 0x22d, 0x4f); (0x22c, 0x22d, 0x4f); (0x22e, 0x22f, 0x4f); (0x22e, 0x22f, 0x4f);
  (0x230, 0x231, 0x4f); (0x230, 0x231, 0x4f); (0x232, 0x233, 0x59); (0x232, 0x233, 0x59); (0x234, 0x234, 0x234); (0x235, 0x235, 0x235); (0x236, 0x236, 0x236); (0x237, 0x237, 0x237);
  (0x238, 0x238, 0x238); (0x239, 0x239, 0x239); (0x23a, 0x23a, 0x23a); (0x23b, 0x23b, 0x23b); (0x23c, 0x23c, 0x23c); (0x23d, 0x23d, 0x23d); (0x23e, 0x23e, 0x23e); (0x23f, 0x23f, 0x23f);
  (0x240, 0x240, 0x240); (0x241, 0x241, 0x241); (0x242, 0x242, 0x242); (0x243, 0x243, 0x243); (0x244, 0x244, 0x244); (0x245, 0x245, 0x245); (0x246, 0x246, 0x246); (0x247, 0x247, 0x247);
  (0x248, 0x248, 0x248); (0x249, 0x249, 0x249); (0x24a, 0x24a, 0x24a); (0x24b, 0x24b, 0x24b); (0x24c, 0x24c, 0x24c); (0x24d, 0x24d, 0x24d); (0x24e, 0x24e, 0x24e); (0x24f, 0x24f, 0x24f);
  (0x250, 0x250, 0x250); (0x251, 0x251, 0x251); (0x252, 0x252, 0x252); (0x181, 0x253, 0x181); (0x186, 0x254, 0x186); (0x255, 0x255, 0x255); (0x189, 0x256, 0x189); (0x18a, 0x257, 0x18a);
  (0x258, 0x258, 0x258); (0x18f, 0x259, 0x18f); (0x25a, 0x25a, 0x25a); (0x190, 0x25b, 0x190); (0x25c, 0x25c, 0x25c); (0x25d, 0x25d, 0x25d); (0x25e, 0x25e, 0x25e); (0x25f, 0x25f, 0x25f);
  (0x193, 0x260, 0x193); (0x261, 0x261, 0x261); (0x262, 0x262, 0x262); (0x194, 0x263, 0x194); (0x264, 0x264, 0x264); (0x265, 0x265, 0x265); (0x266, 0x266, 0x266); (0x267, 0x267, 0x267);
  (0x197, 0x268, 0x197); (0x196, 0x269, 0x196); (0x26a, 0x26a, 0x26a); (0x26b, 0x26b, 0x26b); (0x26c, 0x26c, 0x26c); (0x26d, 0x26d, 0x26d); (0x26e, 0x26e, 0x26e); (0x19c, 0x26f, 0x19c);
  (0x270, 0x270, 0x270); (0x271, 0x271, 0x271); (0x19d, 0x272, 0x19d); (0x273, 0x273, 0x273); (0x274, 0x274, 0x274); (0x19f, 0x275, 0x19f); (0x276, 0x276, 0x276); (0x277, 0x277, 0x277);
  (0x278, 0x278, 0x278); (0x279, 0x279, 0x279); (0x27a, 0x27a, 0x27a); (0x27b, 0x27b, 0x27b); (0x27c, 0x27c, 0x27c); (0x27d, 0x27d, 0x27d); (0x27e, 0x27e, 0x27e); (0x27f, 0x27f, 0x27f);
  (0x1a6, 0x280, 0x1a6); (0x281, 0x281, 0x281); (0x282, 0x282, 0x282); (0x1a9, 0x283, 0x1a9); (0x284, 0x284, 0x284); (0x285, 0x285, 0x285); (0x286, 0x286, 0x286); (0x287, 0x287, 0x287);
  (0x1ae, 0x288, 0x1ae); (0x289, 0x289, 0x289); (0x1b1, 0x28a, 0x1b1); (0x1b2, 0x28b, 0x1b2); (0x28c, 0x28c, 0x28c); (0x28d, 0x28d, 0x28d); (0x28e, 0x28e, 0x28e); (0x28f, 0x28f, 0x28f);
  (0x290, 0x290, 0x290); (0x291, 0x291, 0x291); (0x1b7, 0x292, 0x1b7); (0x293, 0x293, 0x293); (0x294, 0x294, 0x294); (0x295, 0x295, 0x295); (0x296, 0x296, 0x296); (0x297, 0x297, 0x297);
  (0x298, 0x298, 0x298); (0x299, 0x299, 0x299); (0x29a, 0x29a, 0x29a); (0x29b, 0x29b, 0x29b); (0x29c, 0x29c, 0x29c); (0x29d, 0x29d, 0x29d); (0x29e, 0x29e, 0x29e); (0x29f, 0x29f, 0x29f);
  (0x2a0, 0x2a0, 0x2a0); (0x2a1, 0x2a1, 0x2a1); (0x2a2, 0x2a2, 0x2a2); (0x2a3, 0x2a3, 0x2a3); (0x2a4, 0x2a4, 0x2a4); (0x2a5, 0x2a5, 0x2a5); (0x2a6, 0x2a6, 0x2a6); (0x2a7, 0x2a7, 0x2a7);
  (0x2a8, 0x2a8, 0x2a8); (0x2a9, 0x2a9, 0x2a9); (0x2aa, 0x2aa, 0x2aa); (0x2ab, 0x2ab, 0x2ab); (0x2ac, 0x2ac, 0x2ac); (0x2ad, 0x2ad, 0x2ad); (0x2ae, 0x2ae, 0x2ae); (0x2af, 0x2af, 0x2af);
  (0x2b0, 0x2b0, 0x2b0); (0x2b1, 0x2b1, 0x2b1); (0x2b2, 0x2b2, 0x2b2); (0x2b3, 0x2b3, 0x2b3); (0x2b4, 0x2b4, 0x2b4); (0x2b5, 0x2b5, 0x2b5); (0x2b6, 0x2b6, 0x2b6); (0x2b7, 0x2b7, 0x2b7);
  (0x2b8, 0x2b8, 0x2b8); (0x2b9, 0x2b9, 0x2b9); (0x2ba, 0x2ba, 0x2ba); (0x2bb, 0x2bb, 0x2bb); (0x2bc, 0x2bc, 0x2bc); (0x2bd, 0x2bd, 0x2bd); (0x2be, 0x2be, 0x2be); (0x2bf, 0x2bf, 0x2bf);
  (0x2c0, 0x2c0, 0x2c0); (0x2c1, 0x2c1, 0x2c1); (0x2c2, 0x2c2, 0x2c2); (0x2c3, 0x2c3, 0x2c3); (0x2c4, 0x2c4, 0x2c4); (0x2c5, 0x2c5, 0x2c5); (0x2c6, 0x2c6, 0x2c6); (0x2c7, 0x2c7, 0x2c7);
  (0x2c8, 0x2c8, 0x2c8); (0x2c9, 0x2c9, 0x2c9); (0x2ca, 0x2ca, 0x2ca); (0x2cb, 0x2cb, 0x2cb); (0x2cc, 0x2cc, 0x2cc); (0x2cd, 0x2cd, 0x2cd); (0x2ce, 0x2ce, 0x2ce); (0x2cf, 0x2cf, 0x2cf);
  (0x2d0, 0x2d0, 0x2d0); (0x2d1, 0x2d1, 0x2d1); (0x2d2, 0x2d2, 0x2d2); (0x2d3, 0x2d3, 0x2d3); (0x2d4, 0x2d4, 0x2d4); (0x2d5, 0x2d5, 0x2d5); (0x2d6, 0x2d6, 0x2d6); (0x2d7, 0x2d7, 0x2d7);
  (0x2d8, 0x2d8, 0x2d8); (0x2d9, 0x2d9, 0x2d9); (0x2da, 0x2da, 0x2da); (0x2db, 0x2db, 0x2db); (0x2dc, 0x2dc, 0x2dc); (0x2dd, 0x2dd, 0x2dd); (0x2de, 0x2de, 0x2de); (0x2df, 0x2df, 0x2df);
  (0x2e0, 0x2e0, 0x2e0); (0x2e1, 0x2e1, 0x2e1); (0x2e2, 0x2e2, 0x2e2); (0x2e3, 0x2e3, 0x2e3); (0x2e4, 0x2e4, 0x2e4); (0x2e5, 0x2e5, 0x2e5); (0x2e6, 0x2e6, 0x2e6); (0x2e7, 0x2e7, 0x2e7);
  (0x2e8, 0x2e8, 0x2e8); (0x2e9, 0x2e9, 0x2e9); (0x2ea, 0x2ea, 0x2ea); (0x2eb, 0x2eb, 0x2eb); (0x2ec, 0x2ec, 0x2ec); (0x2ed, 0x2ed, 0x2ed); (0x2ee, 0x2ee, 0x2ee); (0x2ef, 0x2ef, 0x2ef);
  (0x2f0, 0x2f0, 0x2f0); (0x2f1, 0x2f1, 0x2f1); (0x2f2, 0x2f2, 0x2f2); (0x2f3, 0x2f3, 0x2f3); (0x2f4, 0x2f4, 0x2f4); (0x2f5, 0x2f5, 0x2f5); (0x2f6, 0x2f6, 0x2f6); (0x2f7, 0x2f7, 0x2f7);
  (0x2f8, 0x2f8, 0x2f8); (0x2f9, 0x2f9, 0x2f9); (0x2fa, 0x2fa, 0x2fa); (0x2fb, 0x2fb, 0x2fb); (0x2fc, 0x2fc, 0x2fc); (0x2fd, 0x2fd, 0x2fd); (0x2fe, 0x2fe, 0x2fe); (0x2ff, 0x2ff, 0x2ff)].

Definition plane03 : list MY_UNICASE_INFO := [
  (0x300, 0x300, 0x300); (0x301, 0x301, 0x301); (0x302, 0x302, 0x302); (0x303, 0x303, 0x303); (0x304, 0x304, 0x304); (0x305, 0x305, 0x305); (0x306, 0x306, 0x306); (0x307, 0x307, 0x307);
  (0x308, 0x308, 0x308); (0x309, 0x309, 0x309); (0x30a, 0x30a, 0x30a); (0x30b, 0x30b, 0x30b); (0x30c, 0x30c, 0x30c); (0x30d, 0x30d, 0x30d); (0x30e, 0x30e, 0x30e); (0x30f, 0x30f, 0x30f);
  (0x310, 0x310, 0x310); (0x311, 0x311, 0x311); (0x312, 0x312, 0x312); (0x313, 0x313, 0x313); (0x314, 0x314, 0x314); (0x315, 0x315, 0x315); (0x316, 0x316, 0x316); (0x317, 0x317, 0x317);
  (0x318, 0x318, 0x318); (0x319, 0x319, 0x319); (0x31a, 0x31a, 0x31a); (0x31b, 0x31b, 0x31b); (0x31c, 0x31c, 0x31c); (0x31d, 0x31d, 0x31d); (0x31e, 0x31e, 0x31e); (0x31f, 0x31f, 0x31f);
  (0x320, 0x320, 0x320); (0x321, 0x321, 0x321); (0x322, 0x322, 0x322); (0x323, 0x323, 0x323); (0x324, 0x324, 0x324); (0x325, 0x325, 0x325); (0x326, 0x326, 0x326); (0x327, 0x327, 0x327);
  (0x328, 0x328, 0x328); (0x329, 0x329, 0x329); (0x32a, 0x32a, 0x32a); (0x32b, 0x32b, 0x32b); (0x32c, 0x32c, 0x32c); (0x32d, 0x32d, 0x32d); (0x32e, 0x32e, 0x32e); (0x32f, 0x32f, 0x32f);
  (0x330, 0x330, 0x330); (0x331, 0x331, 0x331); (0x332, 0x332, 0x332); (0x333, 0x333, 0x333); (0x334, 0x334, 0x334); (0x335, 0x335, 0x335); (0x336, 0x336, 0x336); (0x337, 0x337, 0x337);
  (0x338, 0x338, 0x338); (0x339, 0x339, 0x339); (0x33a, 0x33a, 0x33a); (0x33b, 0x33b, 0x33b); (0x33c, 0x33c, 0x33c); (0x33d, 0x33d, 0x33d); (0x33e, 0x33e, 0x33e); (0x33f, 0x33f, 0x33f);
  (0x340, 0x340, 0x340); (0x341, 0x341, 0x341); (0x342, 0x342, 0x342); (0x343, 0x343, 0x343); (0x344, 0x344, 0x344); (0x399, 0x345, 0x399); (0x346, 0x346, 0x346); (0x347, 0x347, 0x347);
  (0x348, 0x348, 0x348); (0x349, 0x349, 0x349); (0x34a, 0x34a, 0x34a); (0x34b, 0x34b, 0x34b); (0x34c, 0x34c, 0x34c); (0x34d, 0x34d, 0x34d); (0x34e, 0x34e, 0x34e); (0x34f, 0x34f, 0x34f);
  (0x350, 0x350, 0x350); (0x351, 0x351, 0x351); (0x352, 0x352, 0x352); (0x353, 0x353, 0x353); (0x354, 0x354, 0x354); (0x355, 0x355, 0x355); (0x356, 0x356, 0x356); (0x357, 0x357, 0x357);
  (0x358, 0x358, 0x358); (0x359, 0x359, 0x359); (0x35a, 0x35a, 0x35a); (0x35b, 0x35b, 0x35b); (0x35c, 0x35c, 0x35c); (0x35d, 0x35d, 0x35d); (0x35e, 0x35e, 0x35e); (0x35f, 0x35f, 0x35f);
  (0x360, 0x360, 0x360); (0x361, 0x361, 0x361); (0x362, 0x362, 0x362); (0x363, 0x363, 0x363); (0x364, 0x364, 0x364); (0x365, 0x365, 0x365); (0x366, 0x366, 0x366); (0x367, 0x367, 0x367);
  (0x368, 0x368, 0x368); (0x369, 0x369, 0x369); (0x36a, 0x36a, 0x36a); (0x36b, 0x36b, 0x36b); (0x36c, 0x36c, 0x36c); (0x36d, 0x36d, 0x36d); (0x36e, 0x36e, 0x36e); (0x36f, 0x36f, 0x36f);
  (0x370, 0x370, 0x370); (0x371, 0x371, 0x371); (0x372, 0x372, 0x372); (0x373, 0x373, 0x373); (0x374, 0x374, 0x374); (0x375, 0x375, 0x375); (0x376, 0x376, 0x376); (0x377, 0x377, 0x377);
  (0x378, 0x378, 0x378); (0x379, 0x379, 0x379); (0x37a, 0x37a, 0x37a); (0x37b, 0x37b, 0x37b); (0x37c, 0x37c, 0x37c); (0x37d, 0x37d, 0x37d); (0x37e, 0x37e, 0x37e); (0x37f, 0x37f, 0x37f);
  (0x380, 0x380, 0x380); (0x381, 0x381, 0x381); (0x382, 0x382, 0x382); (0x383, 0x383, 0x383); (0x384, 0x384, 0x384); (0x385, 0x385, 0x385); (0x386, 0x3ac, 0x391); (0x387, 0x387, 0x387);
  (0x388, 0x3ad, 0x395); (0x389, 0x3ae, 0x397); (0x38a, 0x3af, 0x399); (0x38b, 0x38b, 0x38b); (0x38c, 0x3cc, 0x39f); (0x38d, 0x38d, 0x38d); (0x38e, 0x3cd, 0x3a5); (0x38f, 0x3ce, 0x3a9);
  (0x390, 0x390, 0x399); (0x391, 0x3b1, 0x391); (0x392, 0x3b2, 0x392); (0x393, 0x3b3, 0x393); (0x394, 0x3b4, 0x394); (0x395, 0x3b5, 0x395); (0x396, 0x3b6, 0x396); (0x397, 0x3b7, 0x397);
  (0x398, 0x3b8, 0x398); (0x399, 0x3b9, 0x399); (0x39a, 0x3ba, 0x39a); (0x39b, 0x3bb, 0x39b); (0x39c, 0x3bc, 0x39c); (0x39d, 0x3bd, 0x39d); (0x39e, 0x3be, 0x39e); (0x39f, 0x3bf, 0x39f);
  (0x3a0, 0x3c0, 0x3a0); (0x3a1, 0x3c1, 0x3a1); (0x3a2, 0x3a2, 0x3a2); (0x3a3, 0x3c3, 0x3a3); (0x3a4, 0x3c4, 0x3a4); (0x3a5, 0x3c5, 0x3a5); (0x3a6, 0x3c6, 0x3a6); (0x3a7, 0x3c7, 0x3a7);
  (0x3a8, 0x3c8, 0x3a8); (0x3a9, 0x3c9, 0x3a9); (0x3aa, 0x3ca, 0x399); (0x3ab, 0x3cb, 0x3a5); (0x386, 0x3ac, 0x391); (0x388, 0x3ad, 0x395); (0x389, 0x3ae, 0x397); (0x38a, 0x3af, 0x399);
  (0x3b0, 0x3b0, 0x3a5); (0x391, 0x3b1, 0x391); (0x392, 0x3b2, 0x392); (0x393, 0x3b3, 0x393); (0x394, 0x3b4, 0x394); (0x395, 0x3b5, 0x395); (0x396, 0x3b6, 0x396); (0x397, 0x3b7, 0x397);
  (0x398, 0x3b8, 0x398); (0x399, 0x3b9, 0x399); (0x39a, 0x3ba, 0x39a); (0x39b, 0x3bb, 0x39b); (0x39c, 0x3bc, 0x39c); (0x39d, 0x3bd, 0x39d); (0x39e, 0x3be, 0x39e); (0x39f, 0x3bf, 0x39f);
  (0x3a0, 0x3c0, 0x3a0); (0x3a1, 0x3c1, 0x3a1); (0x3a3, 0x3c2, 0x3a3); (0x3a3, 0x3c3, 0x3a3); (0x3a4, 0x3c4, 0x3a4); (0x3a5, 0x3c5, 0x3a5); (0x3a6, 0x3c6, 0x3a6); (0x3a7, 0x3c7, 0x3a7);
  (0x3a8, 0x3c8, 0x3a8); (0x3a9, 0x3c9, 0x3a9); (0x3aa, 0x3ca, 0x399); (0x3ab, 0x3cb, 0x3a5); (0x38c, 0x3cc, 0x39f); (0x38e, 0x3cd, 0x3a5); (0x38f, 0x3ce, 0x3a9); (0x3cf, 0x3cf, 0x3cf);
  (0x392, 0x3d0, 0x392); (0x398, 0x3d1, 0x398); (0x3d2, 0x3d2, 0x3d2); (0x3d3, 0x3d3, 0x3d2); (0x3d4, 0x3d4, 0x3d2); (0x3a6, 0x3d5, 0x3a6); (0x3a0, 0x3d6, 0x3a0); (0x3d7, 0x3d7, 0x3d7);
  (0x3d8, 0x3d8, 0x3d8); (0x3d9, 0x3d9, 0x3d9); (0x3da, 0x3db, 0x3da); (0x3da, 0x3db, 0x3da); (0x3dc, 0x3dd, 0x3dc); (0x3dc, 0x3dd, 0x3dc); (0x3de, 0x3df, 0x3de); (0x3de, 0x3df, 0x3de);
  (0x3e0, 0x3e1, 0x3e0); (0x3e0, 0x3e1, 0x3e0); (0x3e2, 0x3e3, 0x3e2); (0x3e2, 0x3e3, 0x3e2); (0x3e4, 0x3e5, 0x3e4); (0x3e4, 0x3e5, 0x3e4); (0x3e6, 0x3e7, 0x3e6); (0x3e6, 0x3e7, 0x3e6);
  (0x3e8, 0x3e9, 0x3e8); (0x3e8, 0x3e9, 0x3e8); (0x3ea, 0x3eb, 0x3ea); (0x3ea, 0x3eb, 0x3ea); (0x3ec, 0x3ed, 0x3ec); (0x3ec, 0x3ed, 0x3ec); (0x3ee, 0x3ef, 0x3ee); (0x3ee, 0x3ef, 0x3ee);
  (0x39a, 0x3f0, 0x39a); (0x3a1, 0x3f1, 0x3a1); (0x3a3, 0x3f2, 0x3a3); (0x3f3, 0x3f3, 0x3f3); (0x3f4, 0x3f4, 0x3f4); (0x3f5, 0x3f5, 0x3f5); (0x3f6, 0x3f6, 0x3f6); (0x3f7, 0x3f7, 0x3f7);
  (0x3f8, 0x3f8, 0x3f8); (0x3f9, 0x3f9, 0x3f9); (0x3fa, 0x3fa, 0x3fa); (0x3fb, 0x3fb, 0x3fb); (0x3fc, 0x3fc, 0x3fc); (0x3fd, 0x3fd, 0x3fd); (0x3fe, 0x3fe, 0x3fe); (0x3ff, 0x3ff, 0x3ff)].

Definition plane04 : list MY_UNICASE_INFO := [
  (0x400, 0x450, 0x415); (0x401, 0x451, 0x415); (0x402, 0x452, 0x402); (0x403, 0x453, 0x413); (0x404, 0x454, 0x404); (0x405, 0x455, 0x405); (0x406, 0x456, 0x406); (0x407, 0x457, 0x406);
  (0x408, 0x458, 0x408); (0x409, 0x459, 0x409); (0x40a, 0x45a, 0x40a); (0x40b, 0x45b, 0x40b); (0x40c, 0x45c, 0x41a); (0x40d, 0x45d, 0x418); (0x40e, 0x45e, 0x423); (0x40f, 0x45f, 0x40f);
  (0x410, 0x430, 0x410); (0x411, 0x431, 0x411); (0x412, 0x432, 0x412); (0x413, 0x433, 0x413); (0x414, 0x434, 0x414); (0x415, 0x435, 0x415); (0x416, 0x436, 0x416); (0x417, 0x437, 0x417);
  (0x418, 0x438, 0x418); (0x419, 0x439, 0x419); (0x41a, 0x43a, 0x41a); (0x41b, 0x43b, 0x41b); (0x41c, 0x43c, 0x41c); (0x41d, 0x43d, 0x41d); (0x41e, 0x43e, 0x41e); (0x41f, 0x43f, 0x41f);
  (0x420, 0x440, 0x420); (0x421, 0x441, 0x421); (0x422, 0x442, 0x422); (0x423, 0x443, 0x423); (0x424, 0x444, 0x424); (0x425, 0x445, 0x425); (0x426, 0x446, 0x426); (0x427, 0x447, 0x427);
  (0x428, 0x448, 0x428); (0x429, 0x449, 0x429); (0x42a, 0x44a, 0x42a); (0x42b, 0x44b, 0x42b); (0x42c, 0x44c, 0x42c); (0x42d, 0x44d, 0x42d); (0x42e, 0x44e, 0x42e); (0x42f, 0x44f, 0x42f);
  (0x410, 0x430, 0x410); (0x411, 0x431, 0x411); (0x412, 0x432, 0x412); (0x413, 0x433, 0x413); (0x414, 0x434, 0x414); (0x415, 0x435, 0x415); (0x416, 0x436, 0x416); (0x417, 0x437, 0x417);
  (0x418, 0x438, 0x418); (0x419, 0x439, 0x419); (0x41a, 0x43a, 0x41a); (0x41b, 0x43b, 0x41b); (0x41c, 0x43c, 0x41c); (0x41d, 0x43d, 0x41d); (0x41e, 0x43e, 0x41e); (0x41f, 0x43f, 0x41f);
  (0x420, 0x440, 0x420); (0x421, 0x441, 0x421); (0x422, 0x442, 0x422); (0x423, 0x443, 0x423); (0x424, 0x444, 0x424); (0x425, 0x445, 0x425); (0x426, 0x446, 0x426); (0x427, 0x447, 0x427);
  (0x428, 0x448, 0x428); (0x429, 0x449, 0x429); (0x42a, 0x44a, 0x42a); (0x42b, 0x44b, 0x42b); (0x42c, 0x44c, 0x42c); (0x42d, 0x44d, 0x42d); (0x42e, 0x44e, 0x42e); (0x42f, 0x44f, 0x42f);
  (0x400, 0x450, 0x415); (0x401, 0x451, 0x415); (0x402, 0x452, 0x402); (0x403, 0x453, 0x413); (0x404, 0x454, 0x404); (0x405, 0x455, 0x405); (0x406, 0x456, 0x406); (0x407, 0x457, 0x406);
  (0x408, 0x458, 0x408); (0x409, 0x459, 0x409); (0x40a, 0x45a, 0x40a); (0x40b, 0x45b, 0x40b); (0x40c, 0x45c, 0x41a); (0x40d, 0x45d, 0x418); (0x40e, 0x45e, 0x423); (0x40f, 0x45f, 0x40f);
  (0x460, 0x461, 0x460); (0x460, 0x461, 0x460); (0x462, 0x463, 0x462); (0x462, 0x463, 0x462); (0x464, 0x465, 0x464); (0x464, 0x465, 0x464); (0x466, 0x467, 0x466); (0x466, 0x467, 0x466);
  (0x468, 0x469, 0x468); (0x468, 0x469, 0x468); (0x46a, 0x46b, 0x46a); (0x46a, 0x46b, 0x46a); (0x46c, 0x46d, 0x46c); (0x46c, 0x46d, 0x46c); (0x46e, 0x46f, 0x46e); (0x46e, 0x46f, 0x46e);
  (0x470, 0x471, 0x470); (0x470, 0x471, 0x470); (0x472, 0x473, 0x472); (0x472, 0x473, 0x472); (0x474, 0x475, 0x474); (0x474, 0x475, 0x474); (0x476, 0x477, 0x474); (0x476, 0x477, 0x474);
  (0x478, 0x479, 0x478); (0x478, 0x479, 0x478); (0x47a, 0x47b, 0x47a); (0x47a, 0x47b, 0x47a); (0x47c, 0x47d, 0x47c); (0x47c, 0x47d, 0x47c); (0x47e, 0x47f, 0x47e); (0x47e, 0x47f, 0x47e);
  (0x480, 0x481, 0x480); (0x480, 0x481, 0x480); (0x482, 0x482, 0x482); (0x483, 0x483, 0x483); (0x484, 0x484, 0x484); (0x485, 0x485, 0x485); (0x486, 0x486, 0x486); (0x487, 0x487, 0x487);
  (0x488, 0x488, 0x488); (0x489, 0x489, 0x489); (0x48a, 0x48a, 0x48a); (0x48b, 0x48b, 0x48b); (0x48c, 0x48d, 0x48c); (0x48c, 0x48d, 0x48c); (0x48e, 0x48f, 0x48e); (0x48e, 0x48f, 0x48e);
  (0x490, 0x491, 0x490); (0x490, 0x491, 0x490); (0x492, 0x493, 0x492); (0x492, 0x493, 0x492); (0x494, 0x495, 0x494); (0x494, 0x495, 0x494); (0x496, 0x497, 0x496); (0x496, 0x497, 0x496);
  (0x498, 0x499, 0x498); (0x498, 0x499, 0x498); (0x49a, 0x49b, 0x49a); (0x49a, 0x49b, 0x49a); (0x49c, 0x49d, 0x49c); (0x49c, 0x49d, 0x49c); (0x49e, 0x49f, 0x49e); (0x49e, 0x49f, 0x49e);
  (0x4a0, 0x4a1, 0x4a0); (0x4a0, 0x4a1, 0x4a0); (0x4a2, 0x4a3, 0x4a2); (0x4a2, 0x4a3, 0x4a2); (0x4a4, 0x4a5, 0x4a4); (0x4a4, 0x4a5, 0x4a4); (0x4a6, 0x4a7, 0x4a6); (0x4a6, 0x4a7, 0x4a6);
  (0x4a8, 0x4a9, 0x4a8); (0x4a8, 0x4a9, 0x4a8); (0x4aa, 0x4ab, 0x4aa); (0x4aa, 0x4ab, 0x4aa); (0x4ac, 0x4ad, 0x4ac); (0x4ac, 0x4ad, 0x4ac); (0x4ae, 0x4af, 0x4ae); (0x4ae, 0x4af, 0x4ae);
  (0x4b0, 0x4b1, 0x4b0); (0x4b0, 0x4b1, 0x4b0); (0x4b2, 0x4b3, 0x4b2); (0x4b2, 0x4b3, 0x4b2); (0x4b4, 0x4b5, 0x4b4); (0x4b4, 0x4b5, 0x4b4); (0x4b6, 0x4b7, 0x4b6); (0x4b6, 0x4b7, 0x4b6);
  (0x4b8, 0x4b9, 0x4b8); (0x4b8, 0x4b9, 0x4b8); (0x4ba, 0x4bb, 0x4ba); (0x4ba, 0x4bb, 0x4ba); (0x4bc, 0x4bd, 0x4bc); (0x4bc, 0x4bd, 0x4bc); (0x4be, 0x4bf, 0x4be); (0x4be, 0x4bf, 0x4be);
  (0x4c0, 0x4c0, 0x4c0); (0x4c1, 0x4c2, 0x416); (0x4c1, 0x4c2, 0x416); (0x4c3, 0x4c4, 0x4c3); (0x4c3, 0x4c4, 0x4c3); (0x4c5, 0x4c5, 0x4c5); (0x4c6, 0x4c6, 0x4c6); (0x4c7, 0x4c8, 0x4c7);
  (0x4c7, 0x4c8, 0x4c7); (0x4c9, 0x4c9, 0x4c9); (0x4ca, 0x4ca, 0x4ca); (0x4cb, 0x4cc, 0x4cb); (0x4cb, 0x4cc, 0x4cb); (0x4cd, 0x4cd, 0x4cd); (0x4ce, 0x4ce, 0x4ce); (0x4cf, 0x4cf, 0x4cf);
  (0x4d0, 0x4d1, 0x410); (0x4d0, 0x4d1, 0x410); (0x4d2, 0x4d3, 0x410); (0x4d2, 0x4d3, 0x410); (0x4d4, 0x4d5, 0x4d4); (0x4d4, 0x4d5, 0x4d4); (0x4d6, 0x4d7, 0x415); (0x4d6, 0x4d7, 0x415);
  (0x4d8, 0x4d9, 0x4d8); (0x4d8, 0x4d9, 0x4d8); (0x4da, 0x4db, 0x4d8); (0x4da, 0x4db, 0x4d8); (0x4dc, 0x4dd, 0x416); (0x4dc, 0x4dd, 0x416); (0x4de, 0x4df, 0x417); (0x4de, 0x4df, 0x417);
  (0x4e0, 0x4e1, 0x4e0); (0x4e0, 0x4e1, 0x4e0); (0x4e2, 0x4e3, 0x418); (0x4e2, 0x4e3, 0x418); (0x4e4, 0x4e5, 0x418); (0x4e4, 0x4e5, 0x418); (0x4e6, 0x4e7, 0x41e); (0x4e6, 0x4e7, 0x41e);
  (0x4e8, 0x4e9, 0x4e8); (0x4e8, 0x4e9, 0x4e8); (0x4ea, 0x4eb, 0x4e8); (0x4ea, 0x4eb, 0x4e8); (0x4ec, 0x4ed, 0x42d); (0x4ec, 0x4ed, 0x42d); (0x4ee, 0x4ef, 0x423); (0x4ee, 0x4ef, 0x423);
  (0x4f0, 0x4f1, 0x423); (0x4f0, 0x4f1, 0x423); (0x4f2, 0x4f3, 0x423); (0x4f2, 0x4f3, 0x423); (0x4f4, 0x4f5, 0x427); (0x4f4, 0x4f5, 0x427); (0x4f6, 0x4f6, 0x4f6); (0x4f7, 0x4f7, 0x4f7);
  (0x4f8, 0x4f9, 0x42b); (0x4f8, 0x4f9, 0x42b); (0x4fa, 0x4fa, 0x4fa); (0x4fb, 0x4fb, 0x4fb); (0x4fc, 0x4fc, 0x4fc); (0x4fd, 0x4fd, 0x4fd); (0x4fe, 0x4fe, 0x4fe); (0x4ff, 0x4ff, 0x4ff)].

Definition plane05 : list MY_UNICASE_INFO := [
  (0x500, 0x500, 0x500); (0x501, 0x501, 0x501); (0x502, 0x502, 0x502); (0x503, 0x503, 0x503); (0x504, 0x504, 0x504); (0x505, 0x505, 0x505); (0x506, 0x506, 0x506); (0x507, 0x507, 0x507);
  (0x508, 0x508, 0x508); (0x509, 0x509, 0x509); (0x50a, 0x50a, 0x50a); (0x50b, 0x50b, 0x50b); (0x50c, 0x50c, 0x50c); (0x50d, 0x50d, 0x50d); (0x50e, 0x50e, 0x50e); (0x50f, 0x50f, 0x50f);
  (0x510, 0x510, 0x510); (0x511, 0x511, 0x511); (0x512, 0x512, 0x512); (0x513, 0x513, 0x513); (0x514, 0x514, 0x514); (0x515, 0x515, 0x515); (0x516, 0x516, 0x516); (0x517, 0x517, 0x517);
  (0x518, 0x518, 0x518); (0x519, 0x519, 0x519); (0x51a, 0x51a, 0x51a); (0x51b, 0x51b, 0x51b); (0x51c, 0x51c, 0x51c); (0x51d, 0x51d, 0x51d); (0x51e, 0x51e, 0x51e); (0x51f, 0x51f, 0x51f);
  (0x520, 0x520, 0x520); (0x521, 0x521, 0x521); (0x522, 0x522, 0x522); (0x523, 0x523, 0x523); (0x524, 0x524, 0x524); (0x525, 0x525, 0x525); (0x526, 0x526, 0x526); (0x527, 0x527, 0x527);
  (0x528, 0x528, 0x528); (0x529, 0x529, 0x529); (0x52a, 0x52a, 0x52a); (0x52b, 0x52b, 0x52b); (0x52c, 0x52c, 0x52c); (0x52d, 0x52d, 0x52d); (0x52e, 0x52e, 0x52e); (0x52f, 0x52f, 0x52f);
  (0x530, 0x530, 0x530); (0x531, 0x561, 0x531); (0x532, 0x562, 0x532); (0x533, 0x563, 0x533); (0x534, 0x564, 0x534); (0x535, 0x565, 0x535); (0x536, 0x566, 0x536); (0x537, 0x567, 0x537);
  (0x538, 0x568, 0x538); (0x539, 0x569, 0x539); (0x53a, 0x56a, 0x53a); (0x53b, 0x56b, 0x53b); (0x53c, 0x56c, 0x53c); (0x53d, 0x56d, 0x53d); (0x53e, 0x56e, 0x53e); (0x53f, 0x56f, 0x53f);
  (0x540, 0x570, 0x540); (0x541, 0x571, 0x541); (0x542, 0x572, 0x542); (0x543, 0x573, 0x543); (0x544, 0x574, 0x544); (0x545, 0x575, 0x545); (0x546, 0x576, 0x546); (0x547, 0x577, 0x547);
  (0x548, 0x578, 0x548); (0x549, 0x579, 0x549); (0x54a, 0x57a, 0x54a); (0x54b, 0x57b, 0x54b); (0x54c, 0x57c, 0x54c); (0x54d, 0x57d, 0x54d); (0x54e, 0x57e, 0x54e); (0x54f, 0x57f, 0x54f);
  (0x550, 0x580, 0x550); (0x551, 0x581, 0x551); (0x552, 0x582, 0x552); (0x553, 0x583, 0x553); (0x554, 0x584, 0x554); (0x555, 0x585, 0x555); (0x556, 0x586, 0x556); (0x557, 0x557, 0x557);
  (0x558, 0x558, 0x558); (0x559, 0x559, 0x559); (0x55a, 0x55a, 0x55a); (0x55b, 0x55b, 0x55b); (0x55c, 0x55c, 0x55c); (0x55d, 0x55d, 0x55d); (0x55e, 0x55e, 0x55e); (0x55f, 0x55f, 0x55f);
  (0x560, 0x560, 0x560); (0x531, 0x561, 0x531); (0x532, 0x562, 0x532); (0x533, 0x563, 0x533); (0x534, 0x564, 0x534); (0x535, 0x565, 0x535); (0x536, 0x566, 0x536); (0x537, 0x567, 0x537);
  (0x538, 0x568, 0x538); (0x539, 0x569, 0x539); (0x53a, 0x56a, 0x53a); (0x53b, 0x56b, 0x53b); (0x53c, 0x56c, 0x53c); (0x53d, 0x56d, 0x53d); (0x53e, 0x56e, 0x53e); (0x53f, 0x56f, 0x53f);
  (0x540, 0x570, 0x540); (0x541, 0x571, 0x541); (0x542, 0x572, 0x542); (0x543, 0x573, 0x543); (0x544, 0x574, 0x544); (0x545, 0x575, 0x545); (0x546, 0x576, 0x546); (0x547, 0x577, 0x547);
  (0x548, 0x578, 0x548); (0x549, 0x579, 0x549); (0x54a, 0x57a, 0x54a); (0x54b, 0x57b, 0x54b); (0x54c, 0x57c, 0x54c); (0x54d, 0x57d, 0x54d); (0x54e, 0x57e, 0x54e); (0x54f, 0x57f, 0x54f);
  (0x550, 0x580, 0x550); (0x551, 0x581, 0x551); (0x552, 0x582, 0x552); (0x553, 0x583, 0x553); (0x554, 0x584, 0x554); (0x555, 0x585, 0x555); (0x556, 0x586, 0x556); (0x587, 0x587, 0x587);
  (0x588, 0x588, 0x588); (0x589, 0x589, 0x589); (0x58a, 0x58a, 0x58a); (0x58b, 0x58b, 0x58b); (0x58c, 0x58c, 0x58c); (0x58d, 0x58d, 0x58d); (0x58e, 0x58e, 0x58e); (0x58f, 0x58f, 0x58f);
  (0x590, 0x590, 0x590); (0x591, 0x591, 0x591); (0x592, 0x592, 0x592); (0x593, 0x593, 0x593); (0x594, 0x594, 0x594); (0x595, 0x595, 0x595); (0x596, 0x596, 0x596); (0x597, 0x597, 0x597);
  (0x598, 0x598, 0x598); (0x599, 0x599, 0x599); (0x59a, 0x59a, 0x59a); (0x59b, 0x59b, 0x59b); (0x59c, 0x59c, 0x59c); (0x59d, 0x59d, 0x59d); (0x59e, 0x59e, 0x59e); (0x59f, 0x59f, 0x59f);
  (0x5a0, 0x5a0, 0x5a0); (0x5a1, 0x5a1, 0x5a1); (0x5a2, 0x5a2, 0x5a2); (0x5a3, 0x5a3, 0x5a3); (0x5a4, 0x5a4, 0x5a4); (0x5a5, 0x5a5, 0x5a5); (0x5a6, 0x5a6, 0x5a6); (0x5a7, 0x5a7, 0x5a7);
  (0x5a8, 0x5a8, 0x5a8); (0x5a9, 0x5a9, 0x5a9); (0x5aa, 0x5aa, 0x5aa); (0x5ab, 0x5ab, 0x5ab); (0x5ac, 0x5ac, 0x5ac); (0x5ad, 0x5ad, 0x5ad); (0x5ae, 0x5ae, 0x5ae); (0x5af, 0x5af, 0x5af);
  (0x5b0, 0x5b0, 0x5b0); (0x5b1, 0x5b1, 0x5b1); (0x5b2, 0x5b2, 0x5b2); (0x5b3, 0x5b3, 0x5b3); (0x5b4, 0x5b4, 0x5b4); (0x5b5, 0x5b5, 0x5b5); (0x5b6, 0x5b6, 0x5b6); (0x5b7, 0x5b7, 0x5b7);
  (0x5b8, 0x5b8, 0x5b8); (0x5b9, 0x5b9, 0x5b9); (0x5ba, 0x5ba, 0x5ba); (0x5bb, 0x5bb, 0x5bb); (0x5bc, 0x5bc, 0x5bc); (0x5bd, 0x5bd, 0x5bd); (0x5be, 0x5be, 0x5be); (0x5bf, 0x5bf, 0x5bf);
  (0x5c0, 0x5c0, 0x5c0); (0x5c1, 0x5c1, 0x5c1); (0x5c2, 0x5c2, 0x5c2); (0x5c3, 0x5c3, 0x5c3); (0x5c4, 0x5c4, 0x5c4); (0x5c5, 0x5c5, 0x5c5); (0x5c6, 0x5c6, 0x5c6); (0x5c7, 0x5c7, 0x5c7);
  (0x5c8, 0x5c8, 0x5c8); (0x5c9, 0x5c9, 0x5c9); (0x5ca, 0x5ca, 0x5ca); (0x5cb, 0x5cb, 0x5cb); (0x5cc, 0x5cc, 0x5cc); (0x5cd, 0x5cd, 0x5cd); (0x5ce, 0x5ce, 0x5ce); (0x5cf, 0x5cf, 0x5cf);
  (0x5d0, 0x5d0, 0x5d0); (0x5d1, 0x5d1, 0x5d1); (0x5d2, 0x5d2, 0x5d2); (0x5d3, 0x5d3, 0x5d3); (0x5d4, 0x5d4, 0x5d4); (0x5d5, 0x5d5, 0x5d5); (0x5d6, 0x5d6, 0x5d6); (0x5d7, 0x5d7, 0x5d7);
  (0x5d8, 0x5d8, 0x5d8); (0x5d9, 0x5d9, 0x5d9); (0x5da, 0x5da, 0x5da); (0x5db, 0x5db, 0x5db); (0x5dc, 0x5dc, 0x5dc); (0x5dd, 0x5dd, 0x5dd); (0x5de, 0x5de, 0x5de); (0x5df, 0x5df, 0x5df);
  (0x5e0, 0x5e0, 0x5e0); (0x5e1, 0x5e1, 0x5e1); (0x5e2, 0x5e2, 0x5e2); (0x5e3, 0x5e3, 0x5e3); (0x5e4, 0x5e4, 0x5e4); (0x5e5, 0x5e5, 0x5e5); (0x5e6, 0x5e6, 0x5e6); (0x5e7, 0x5e7, 0x5e7);
  (0x5e8, 0x5e8, 0x5e8); (0x5e9, 0x5e9, 0x5e9); (0x5ea, 0x5ea, 0x5ea); (0x5eb, 0x5eb, 0x5eb); (0x5ec, 0x5ec, 0x5ec); (0x5ed, 0x5ed, 0x5ed); (0x5ee, 0x5ee, 0x5ee); (0x5ef, 0x5ef, 0x5ef);
  (0x5f0, 0x5f0, 0x5f0); (0x5f1, 0x5f1, 0x5f1); (0x5f2, 0x5f2, 0x5f2); (0x5f3, 0x5f3, 0x5f3); (0x5f4, 0x5f4, 0x5f4); (0x5f5, 0x5f5, 0x5f5); (0x5f6, 0x5f6, 0x5f6); (0x5f7, 0x5f7, 0x5f7);
  (0x5f8, 0x5f8, 0x5f8); (0x5f9, 0x5f9, 0x5f9); (0x5fa, 0x5fa, 0x5fa); (0x5fb, 0x5fb, 0x5fb); (0x5fc, 0x5fc, 0x5fc); (0x5fd, 0x5fd, 0x5fd); (0x5fe, 0x5fe, 0x5fe); (0x5ff, 0x5ff, 0x5ff)].

Definition plane1E : list MY_UNICASE_INFO := [
  (0x1e00, 0x1e01, 0x41); (0x1e00, 0x1e01, 0x41); (0x1e02, 0x1e03, 0x42); (0x1e02, 0x1e03, 0x42); (0x1e04, 0x1e05, 0x42); (0x1e04, 0x1e05, 0x42); (0x1e06, 0x1e07, 0x42); (0x1e06, 0x1e07, 0x42);
  (0x1e08, 0x1e09, 0x43); (0x1e08, 0x1e09, 0x43); (0x1e0a, 0x1e0b, 0x44); (0x1e0a, 0x1e0b, 0x44); (0x1e0c, 0x1e0d, 0x44); (0x1e0c, 0x1e0d, 0x44); (0x1e0e, 0x1e0f, 0x44); (0x1e0e, 0x1e0f, 0x44);
  (0x1e10, 0x1e11, 0x44); (0x1e10, 0x1e11, 0x44); (0x1e12, 0x1e13, 0x44); (0x1e12, 0x1e13, 0x44); (0x1e14, 0x1e15, 0x45); (0x1e14, 0x1e15, 0x45); (0x1e16, 0x1e17, 0x45); (0x1e16, 0x1e17, 0x45);
  (0x1e18, 0x1e19, 0x45); (0x1e18, 0x1e19, 0x45); (0x1e1a, 0x1e1b, 0x45); (0x1e1a, 0x1e1b, 0x45); (0x1e1c, 0x1e1d, 0x45); (0x1e1c, 0x1e1d, 0x45); (0x1e1e, 0x1e1f, 0x46); (0x1e1e, 0x1e1f, 0x46);
  (0x1e20, 0x1e21, 0x47); (0x1e20, 0x1e21, 0x47); (0x1e22, 0x1e23, 0x48); (0x1e22, 0x1e23, 0x48); (0x1e24, 0x1e25, 0x48); (0x1e24, 0x1e25, 0x48); (0x1e26, 0x1e27, 0x48); (0x1e26, 0x1e27, 0x48);
  (0x1e28, 0x1e29, 0x48); (0x1e28, 0x1e29, 0x48); (0x1e2a, 0x1e2b, 0x48); (0x1e2a, 0x1e2b, 0x48); (0x1e2c, 0x1e2d, 0x49); (0x1e2c, 0x1e2d, 0x49); (0x1e2e, 0x1e2f, 0x49); (0x1e2e, 0x1e2f, 0x49);
  (0x1e30, 0x1e31, 0x4b); (0x1e30, 0x1e31, 0x4b); (0x1e32, 0x1e33, 0x4b); (0x1e32, 0x1e33, 0x4b); (0x1e34, 0x1e35, 0x4b); (0x1e34, 0x1e35, 0x4b); (0x1e36, 0x1e37, 0x4c); (0x1e36, 0x1e37, 0x4c);
  (0x1e38, 0x1e39, 0x4c); (0x1e38, 0x1e39, 0x4c); (0x1e3a, 0x1e3b, 0x4c); (0x1e3a, 0x1e3b, 0x4c); (0x1e3c, 0x1e3d, 0x4c); (0x1e3c, 0x1e3d, 0x4c); (0x1e3e, 0x1e3f, 0x4d); (0x1e3e, 0x1e3f, 0x4d);
  (0x1e40, 0x1e41, 0x4d); (0x1e40, 0x1e41, 0x4d); (0x1e42, 0x1e43, 0x4d); (0x1e42, 0x1e43, 0x4d); (0x1e44, 0x1e45, 0x4e); (0x1e44, 0x1e45, 0x4e); (0x1e46, 0x1e47, 0x4e); (0x1e46, 0x1e47, 0x4e);
  (0x1e48, 0x1e49, 0x4e); (0x1e48, 0x1e49, 0x4e); (0x1e4a, 0x1e4b, 0x4e); (0x1e4a, 0x1e4b, 0x4e); (0x1e4c, 0x1e4d, 0x4f); (0x1e4c, 0x1e4d, 0x4f); (0x1e4e, 0x1e4f, 0x4f); (0x1e4e, 0x1e4f, 0x4f);
  (0x1e50, 0x1e51, 0x4f); (0x1e50, 0x1e51, 0x4f); (0x1e52, 0x1e53, 0x4f); (0x1e52, 0x1e53, 0x4f); (0x1e54, 0x1e55, 0x50); (0x1e54, 0x1e55, 0x50); (0x1e56, 0x1e57, 0x50); (0x1e56, 0x1e57, 0x50);
  (0x1e58, 0x1e59, 0x52); (0x1e58, 0x1e59, 0x52); (0x1e5a, 0x1e5b, 0x52); (0x1e5a, 0x1e5b, 0x52); (0x1e5c, 0x1e5d, 0x52); (0x1e5c, 0x1e5d, 0x52); (0x1e5e, 0x1e5f, 0x52); (0x1e5e, 0x1e5f, 0x52);
  (0x1e60, 0x1e61, 0x53); (0x1e60, 0x1e61, 0x53); (0x1e62, 0x1e63, 0x53); (0x1e62, 0x1e63, 0x53); (0x1e64, 0x1e65, 0x53); (0x1e64, 0x1e65, 0x53); (0x1e66, 0x1e67, 0x53); (0x1e66, 0x1e67, 0x53);
  (0x1e68, 0x1e69, 0x53); (0x1e68, 0x1e69, 0x53); (0x1e6a, 0x1e6b, 0x54); (0x1e6a, 0x1e6b, 0x54); (0x1e6c, 0x1e6d, 0x54); (0x1e6c, 0x1e6d, 0x54); (0x1e6e, 0x1e6f, 0x54); (0x1e6e, 0x1e6f, 0x54);
  (0x1e70, 0x1e71, 0x54); (0x1e70, 0x1e71, 0x54); (0x1e72, 0x1e73, 0x55); (0x1e72, 0x1e73, 0x55); (0x1e74, 0x1e75, 0x55); (0x1e74, 0x1e75, 0x55); (0x1e76, 0x1e77, 0x55); (0x1e76, 0x1e77, 0x55);
  (0x1e78, 0x1e79, 0x55); (0x1e78, 0x1e79, 0x55); (0x1e7a, 0x1e7b, 0x55); (0x1e7a, 0x1e7b, 0x55); (0x1e7c, 0x1e7d, 0x56); (0x1e7c, 0x1e7d, 0x56); (0x1e7e, 0x1e7f, 0x56); (0x1e7e, 0x1e7f, 0x56);
  (0x1e80, 0x1e81, 0x57); (0x1e80, 0x1e81, 0x57); (0x1e82, 0x1e83, 0x57); (0x1e82, 0x1e83, 0x57); (0x1e84, 0x1e85, 0x57); (0x1e84, 0x1e85, 0x57); (0x1e86, 0x1e87, 0x57); (0x1e86, 0x1e87, 0x57);
  (0x1e88, 0x1e89, 0x57); (0x1e88, 0x1e89, 0x57); (0x1e8a, 0x1e8b, 0x58); (0x1e8a, 0x1e8b, 0x58); (0x1e8c, 0x1e8d, 0x58); (0x1e8c, 0x1e8d, 0x58); (0x1e8e, 0x1e8f, 0x59); (0x1e8e, 0x1e8f, 0x59);
  (0x1e90, 0x1e91, 0x5a); (0x1e90, 0x1e91, 0x5a); (0x1e92, 0x1e93, 0x5a); (0x1e92, 0x1e93, 0x5a); (0x1e94, 0x1e95, 0x5a); (0x1e94, 0x1e95, 0x5a); (0x1e96, 0x1e96, 0x48); (0x1e97, 0x1e97, 0x54);
  (0x1e98, 0x1e98, 0x57); (0x1e99, 0x1e99, 0x59); (0x1e9a, 0x1e9a, 0x1e9a); (0x1e60, 0x1e9b, 0x53); (0x1e9c, 0x1e9c, 0x1e9c); (0x1e9d, 0x1e9d, 0x1e9d); (0x1e9e, 0x1e9e, 0x1e9e); (0x1e9f, 0x1e9f, 0x1e9f);
  (0x1ea0, 0x1ea1, 0x41); (0x1ea0, 0x1ea1, 0x41); (0x1ea2, 0x1ea3, 0x41); (0x1ea2, 0x1ea3, 0x41); (0x1ea4, 0x1ea5, 0x41); (0x1ea4, 0x1ea5, 0x41); (0x1ea6, 0x1ea7, 0x41); (0x1ea6, 0x1ea7, 0x41);
  (0x1ea8, 0x1ea9, 0x41); (0x1ea8, 0x1ea9, 0x41); (0x1eaa, 0x1eab, 0x41); (0x1eaa, 0x1eab, 0x41); (0x1eac, 0x1ead, 0x41); (0x1eac, 0x1ead, 0x41); (0x1eae, 0x1eaf, 0x41); (0x1eae, 0x1eaf, 0x41);
  (0x1eb0, 0x1eb1, 0x41); (0x1eb0, 0x1eb1, 0x41); (0x1eb2, 0x1eb3, 0x41); (0x1eb2, 0x1eb3, 0x41); (0x1eb4, 0x1eb5, 0x41); (0x1eb4, 0x1eb5, 0x41); (0x1eb6, 0x1eb7, 0x41); (0x1eb6, 0x1eb7, 0x41);
  (0x1eb8, 0x1eb9, 0x45); (0x1eb8, 0x1eb9, 0x45); (0x1eba, 0x1ebb, 0x45); (0x1eba, 0x1ebb, 0x45); (0x1ebc, 0x1ebd, 0x45); (0x1ebc, 0x1ebd, 0x45); (0x1ebe, 0x1ebf, 0x45); (0x1ebe, 0x1ebf, 0x45);
  (0x1ec0, 0x1ec1, 0x45); (0x1ec0, 0x1ec1, 0x45); (0x1ec2, 0x1ec3, 0x45); (0x1ec2, 0x1ec3, 0x45); (0x1ec4, 0x1ec5, 0x45); (0x1ec4, 0x1ec5, 0x45); (0x1ec6, 0x1ec7, 0x45); (0x1ec6, 0x1ec7, 0x45);
  (0x1ec8, 0x1ec9, 0x49); (0x1ec8, 0x1ec9, 0x49); (0x1eca, 0x1ecb, 0x49); (0x1eca, 0x1ecb, 0x49); (0x1ecc, 0x1ecd, 0x4f); (0x1ecc, 0x1ecd, 0x4f); (0x1ece, 0x1ecf, 0x4f); (0x1ece, 0x1ecf, 0x4f);
  (0x1ed0, 0x1ed1, 0x4f); (0x1ed0, 0x1ed1, 0x4f); (0x1ed2, 0x1ed3, 0x4f); (0x1ed2, 0x1ed3, 0x4f); (0x1ed4, 0x1ed5, 0x4f); (0x1ed4, 0x1ed5, 0x4f); (0x1ed6, 0x1ed7, 0x4f); (0x1ed6, 0x1ed7, 0x4f);
  (0x1ed8, 0x1ed9, 0x4f); (0x1ed8, 0x1ed9, 0x4f); (0x1eda, 0x1edb, 0x4f); (0x1eda, 0x1edb, 0x4f); (0x1edc, 0x1edd, 0x4f); (0x1edc, 0x1edd, 0x4f); (0x1ede, 0x1edf, 0x4f); (0x1ede, 0x1edf, 0x4f);
  (0x1ee0, 0x1ee1, 0x4f); (0x1ee0, 0x1ee1, 0x4f); (0x1ee2, 0x1ee3, 0x4f); (0x1ee2, 0x1ee3, 0x4f); (0x1ee4, 0x1ee5, 0x55); (0x1ee4, 0x1ee5, 0x55); (0x1ee6, 0x1ee7, 0x55); (0x1ee6, 0x1ee7, 0x55);
  (0x1ee8, 0x1ee9, 0x55); (0x1ee8, 0x1ee9, 0x55); (0x1eea, 0x1eeb, 0x55); (0x1eea, 0x1eeb, 0x55); (0x1eec, 0x1eed, 0x55); (0x1eec, 0x1eed, 0x55); (0x1eee, 0x1eef, 0x55); (0x1eee, 0x1eef, 0x55);
  (0x1ef0, 0x1ef1, 0x55); (0x1ef0, 0x1ef1, 0x55); (0x1ef2, 0x1ef3, 0x59); (0x1ef2, 0x1ef3, 0x59); (0x1ef4, 0x1ef5, 0x59); (0x1ef4, 0x1ef5, 0x59); (0x1ef6, 0x1ef7, 0x59); (0x1ef6, 0x1ef7, 0x59);
  (0x1ef8, 0x1ef9, 0x59); (0x1ef8, 0x1ef9, 0x59); (0x1efa, 0x1efa, 0x1efa); (0x1efb, 0x1efb, 0x1efb); (0x1efc, 0x1efc, 0x1efc); (0x1efd, 0x1efd, 0x1efd); (0x1efe, 0x1efe, 0x1efe); (0x1eff, 0x1eff, 0x1eff)].

Definition plane1F : list MY_UNICASE_INFO := [
  (0x1f08, 0x1f00, 0x391); (0x1f09, 0x1f01, 0x391); (0x1f0a, 0x1f02, 0x391); (0x1f0b, 0x1f03, 0x391); (0x1f0c, 0x1f04, 0x391); (0x1f0d, 0x1f05, 0x391); (0x1f0e, 0x1f06, 0x391); (0x1f0f, 0x1f07, 0x391);
  (0x1f08, 0x1f00, 0x391); (0x1f09, 0x1f01, 0x391); (0x1f0a, 0x1f02, 0x391); (0x1f0b, 0x1f03, 0x391); (0x1f0c, 0x1f04, 0x391); (0x1f0d, 0x1f05, 0x391); (0x1f0e, 0x1f06, 0x391); (0x1f0f, 0x1f07, 0x391);
  (0x1f18, 0x1f10, 0x395); (0x1f19, 0x1f11, 0x395); (0x1f1a, 0x1f12, 0x395); (0x1f1b, 0x1f13, 0x395); (0x1f1c, 0x1f14, 0x395); (0x1f1d, 0x1f15, 0x395); (0x1f16, 0x1f16, 0x1f16); (0x1f17, 0x1f17, 0x1f17);
  (0x1f18, 0x1f10, 0x395); (0x1f19, 0x1f11, 0x395); (0x1f1a, 0x1f12, 0x395); (0x1f1b, 0x1f13, 0x395); (0x1f1c, 0x1f14, 0x395); (0x1f1d, 0x1f15, 0x395); (0x1f1e, 0x1f1e, 0x1f1e); (0x1f1f, 0x1f1f, 0x1f1f);
  (0x1f28, 0x1f20, 0x397); (0x1f29, 0x1f21, 0x397); (0x1f2a, 0x1f22, 0x397); (0x1f2b, 0x1f23, 0x397); (0x1f2c, 0x1f24, 0x397); (0x1f2d, 0x1f25, 0x397); (0x1f2e, 0x1f26, 0x397); (0x1f2f, 0x1f27, 0x397);
  (0x1f28, 0x1f20, 0x397); (0x1f29, 0x1f21, 0x397); (0x1f2a, 0x1f22, 0x397); (0x1f2b, 0x1f23, 0x397); (0x1f2c, 0x1f24, 0x397); (0x1f2d, 0x1f25, 0x397); (0x1f2e, 0x1f26, 0x397); (0x1f2f, 0x1f27, 0x397);
  (0x1f38, 0x1f30, 0x399); (0x1f39, 0x1f31, 0x399); (0x1f3a, 0x1f32, 0x399); (0x1f3b, 0x1f33, 0x399); (0x1f3c, 0x1f34, 0x399); (0x1f3d, 0x1f35, 0x399); (0x1f3e, 0x1f36, 0x399); (0x1f3f, 0x1f37, 0x399);
  (0x1f38, 0x1f30, 0x399); (0x1f39, 0x1f31, 0x399); (0x1f3a, 0x1f32, 0x399); (0x1f3b, 0x1f33, 0x399); (0x1f3c, 0x1f34, 0x399); (0x1f3d, 0x1f35, 0x399); (0x1f3e, 0x1f36, 0x399); (0x1f3f, 0x1f37, 0x399);
  (0x1f48, 0x1f40, 0x39f); (0x1f49, 0x1f41, 0x39f); (0x1f4a, 0x1f42, 0x39f); (0x1f4b, 0x1f43, 0x39f); (0x1f4c, 0x1f44, 0x39f); (0x1f4d, 0x1f45, 0x39f); (0x1f46, 0x1f46, 0x1f46); (0x1f47, 0x1f47, 0x1f47);
  (0x1f48, 0x1f40, 0x39f); (0x1f49, 0x1f41, 0x39f); (0x1f4a, 0x1f42, 0x39f); (0x1f4b, 0x1f43, 0x39f); (0x1f4c, 0x1f44, 0x39f); (0x1f4d, 0x1f45, 0x39f); (0x1f4e, 0x1f4e, 0x1f4e); (0x1f4f, 0x1f4f, 0x1f4f);
  (0x1f50, 0x1f50, 0x3a5); (0x1f59, 0x1f51, 0x3a5); (0x1f52, 0x1f52, 0x3a5); (0x1f5b, 0x1f53, 0x3a5); (0x1f54, 0x1f54, 0x3a5); (0x1f5d, 0x1f55, 0x3a5); (0x1f56, 0x1f56, 0x3a5); (0x1f5f, 0x1f57, 0x3a5);
  (0x1f58, 0x1f58, 0x1f58); (0x1f59, 0x1f51, 0x3a5); (0x1f5a, 0x1f5a, 0x1f5a); (0x1f5b, 0x1f53, 0x3a5); (0x1f5c, 0x1f5c, 0x1f5c); (0x1f5d, 0x1f55, 0x3a5); (0x1f5e, 0x1f5e, 0x1f5e); (0x1f5f, 0x1f57, 0x3a5);
  (0x1f68, 0x1f60, 0x3a9); (0x1f69, 0x1f61, 0x3a9); (0x1f6a, 0x1f62, 0x3a9); (0x1f6b, 0x1f63, 0x3a9); (0x1f6c, 0x1f64, 0x3a9); (0x1f6d, 0x1f65, 0x3a9); (0x1f6e, 0x1f66, 0x3a9); (0x1f6f, 0x1f67, 0x3a9);
  (0x1f68, 0x1f60, 0x3a9); (0x1f69, 0x1f61, 0x3a9); (0x1f6a, 0x1f62, 0x3a9); (0x1f6b, 0x1f63, 0x3a9); (0x1f6c, 0x1f64, 0x3a9); (0x1f6d, 0x1f65, 0x3a9); (0x1f6e, 0x1f66, 0x3a9); (0x1f6f, 0x1f67, 0x3a9);
  (0x1fba, 0x1f70, 0x391); (0x1fbb, 0x1f71, 0x1fbb); (0x1fc8, 0x1f72, 0x395); (0x1fc9, 0x1f73, 0x1fc9); (0x1fca, 0x1f74, 0x397); (0x1fcb, 0x1f75, 0x1fcb); (0x1fda, 0x1f76, 0x399); (0x1fdb, 0x1f77, 0x1fdb);
  (0x1ff8, 0x1f78, 0x39f); (0x1ff9, 0x1f79, 0x1ff9); (0x1fea, 0x1f7a, 0x3a5); (0x1feb, 0x1f7b, 0x1feb); (0x1ffa, 0x1f7c, 0x3a9); (0x1ffb, 0x1f7d, 0x1ffb); (0x1f7e, 0x1f7e, 0x1f7e); (0x1f7f, 0x1f7f, 0x1f7f);
  (0x1f88, 0x1f80, 0x391); (0x1f89, 0x1f81, 0x391); (0x1f8a, 0x1f82, 0x391); (0x1f8b, 0x1f83, 0x391); (0x1f8c, 0x1f84, 0x391); (0x1f8d, 0x1f85, 0x391); (0x1f8e, 0x1f86, 0x391); (0x1f8f, 0x1f87, 0x391);
  (0x1f88, 0x1f80, 0x391); (0x1f89, 0x1f81, 0x391); (0x1f8a, 0x1f82, 0x391); (0x1f8b, 0x1f83, 0x391); (0x1f8c, 0x1f84, 0x391); (0x1f8d, 0x1f85, 0x391); (0x1f8e, 0x1f86, 0x391); (0x1f8f, 0x1f87, 0x391);
  (0x1f98, 0x1f90, 0x397); (0x1f99, 0x1f91, 0x397); (0x1f9a, 0x1f92, 0x397); (0x1f9b, 0x1f93, 0x397); (0x1f9c, 0x1f94, 0x397); (0x1f9d, 0x1f95, 0x397); (0x1f9e, 0x1f96, 0x397); (0x1f9f, 0x1f97, 0x397);
  (0x1f98, 0x1f90, 0x397); (0x1f99, 0x1f91, 0x397); (0x1f9a, 0x1f92, 0x397); (0x1f9b, 0x1f93, 0x397); (0x1f9c, 0x1f94, 0x397); (0x1f9d, 0x1f95, 0x397); (0x1f9e, 0x1f96, 0x397); (0x1f9f, 0x1f97, 0x397);
  (0x1fa8, 0x1fa0, 0x3a9); (0x1fa9, 0x1fa1, 0x3a9); (0x1faa, 0x1fa2, 0x3a9); (0x1fab, 0x1fa3, 0x3a9); (0x1fac, 0x1fa4, 0x3a9); (0x1fad, 0x1fa5, 0x3a9); (0x1fae, 0x1fa6, 0x3a9); (0x1faf, 0x1fa7, 0x3a9);
  (0x1fa8, 0x1fa0, 0x3a9); (0x1fa9, 0x1fa1, 0x3a9); (0x1faa, 0x1fa2, 0x3a9); (0x1fab, 0x1fa3, 0x3a9); (0x1fac, 0x1fa4, 0x3a9); (0x1fad, 0x1fa5, 0x3a9); (0x1fae, 0x1fa6, 0x3a9); (0x1faf, 0x1fa7, 0x3a9);
  (0x1fb8, 0x1fb0, 0x391); (0x1fb9, 0x1fb1, 0x391); (0x1fb2, 0x1fb2, 0x391); (0x1fbc, 0x1fb3, 0x391); (0x1fb4, 0x1fb4, 0x391); (0x1fb5, 0x1fb5, 0x1fb5); (0x1fb6, 0x1fb6, 0x391); (0x1fb7, 0x1fb7, 0x391);
  (0x1fb8, 0x1fb0, 0x391); (0x1fb9, 0x1fb1, 0x391); (0x1fba, 0x1f70, 0x391); (0x1fbb, 0x1f71, 0x1fbb); (0x1fbc, 0x1fb3, 0x391); (0x1fbd, 0x1fbd, 0x1fbd); (0x399, 0x1fbe, 0x399); (0x1fbf, 0x1fbf, 0x1fbf);
  (0x1fc0, 0x1fc0, 0x1fc0); (0x1fc1, 0x1fc1, 0x1fc1); (0x1fc2, 0x1fc2, 0x397); (0x1fcc, 0x1fc3, 0x397); (0x1fc4, 0x1fc4, 0x397); (0x1fc5, 0x1fc5, 0x1fc5); (0x1fc6, 0x1fc6, 0x397); (0x1fc7, 0x1fc7, 0x397);
  (0x1fc8, 0x1f72, 0x395); (0x1fc9, 0x1f73, 0x1fc9); (0x1fca, 0x1f74, 0x397); (0x1fcb, 0x1f75, 0x1fcb); (0x1fcc, 0x1fc3, 0x397); (0x1fcd, 0x1fcd, 0x1fcd); (0x1fce, 0x1fce, 0x1fce); (0x1fcf, 0x1fcf, 0x1fcf);
  (0x1fd8, 0x1fd0, 0x399); (0x1fd9, 0x1fd1, 0x399); (0x1fd2, 0x1fd2, 0x399); (0x1fd3, 0x1fd3, 0x1fd3); (0x1fd4, 0x1fd4, 0x1fd4); (0x1fd5, 0x1fd5, 0x1fd5); (0x1fd6, 0x1fd6, 0x399); (0x1fd7, 0x1fd7, 0x399);
  (0x1fd8, 0x1fd0, 0x399); (0x1fd9, 0x1fd1, 0x399); (0x1fda, 0x1f76, 0x399); (0x1fdb, 0x1f77, 0x1fdb); (0x1fdc, 0x1fdc, 0x1fdc); (0x1fdd, 0x1fdd, 0x1fdd); (0x1fde, 0x1fde, 0x1fde); (0x1fdf, 0x1fdf, 0x1fdf);
  (0x1fe8, 0x1fe0, 0x3a5); (0x1fe9, 0x1fe1, 0x3a5); (0x1fe2, 0x1fe2, 0x3a5); (0x1fe3, 0x1fe3, 0x1fe3); (0x1fe4, 0x1fe4, 0x3a1); (0x1fec, 0x1fe5, 0x3a1); (0x1fe6, 0x1fe6, 0x3a5); (0x1fe7, 0x1fe7, 0x3a5);
  (0x1fe8, 0x1fe0, 0x3a5); (0x1fe9, 0x1fe1, 0x3a5); (0x1fea, 0x1f7a, 0x3a5); (0x1feb, 0x1f7b, 0x1feb); (0x1fec, 0x1fe5, 0x3a1); (0x1fed, 0x1fed, 0x1fed); (0x1fee, 0x1fee, 0x1fee); (0x1fef, 0x1fef, 0x1fef);
  (0x1ff0, 0x1ff0, 0x1ff0); (0x1ff1, 0x1ff1, 0x1ff1); (0x1ff2, 0x1ff2, 0x3a9); (0x1ffc, 0x1ff3, 0x3a9); (0x1ff4, 0x1ff4, 0x3a9); (0x1ff5, 0x1ff5, 0x1ff5); (0x1ff6, 0x1ff6, 0x3a9); (0x1ff7, 0x1ff7, 0x3a9);
  (0x1ff8, 0x1f78, 0x39f); (0x1ff9, 0x1f79, 0x1ff9); (0x1ffa, 0x1f7c, 0x3a9); (0x1ffb, 0x1f7d, 0x1ffb); (0x1ffc, 0x1ff3, 0x3a9); (0x1ffd, 0x1ffd, 0x1ffd); (0x1ffe, 0x1ffe, 0x1ffe); (0x1fff, 0x1fff, 0x1fff)].

Definition plane21 : list MY_UNICASE_INFO := [
  (0x2100, 0x2100, 0x2100); (0x2101, 0x2101, 0x2101); (0x2102, 0x2102, 0x2102); (0x2103, 0x2103, 0x2103); (0x2104, 0x2104, 0x2104); (0x2105, 0x2105, 0x2105); (0x2106, 0x2106, 0x2106); (0x2107, 0x2107, 0x2107);
  (0x2108, 0x2108, 0x2108); (0x2109, 0x2109, 0x2109); (0x210a, 0x210a, 0x210a); (0x210b, 0x210b, 0x210b); (0x210c, 0x210c, 0x210c); (0x210d, 0x210d, 0x210d); (0x210e, 0x210e, 0x210e); (0x210f, 0x210f, 0x210f);
  (0x2110, 0x2110, 0x2110); (0x2111, 0x2111, 0x2111); (0x2112, 0x2112, 0x2112); (0x2113, 0x2113, 0x2113); (0x2114, 0x2114, 0x2114); (0x2115, 0x2115, 0x2115); (0x2116, 0x2116, 0x2116); (0x2117, 0x2117, 0x2117);
  (0x2118, 0x2118, 0x2118); (0x2119, 0x2119, 0x2119); (0x211a, 0x211a, 0x211a); (0x211b, 0x211b, 0x211b); (0x211c, 0x211c, 0x211c); (0x211d, 0x211d, 0x211d); (0x211e, 0x211e, 0x211e); (0x211f, 0x211f, 0x211f);
  (0x2120, 0x2120, 0x2120); (0x2121, 0x2121, 0x2121); (0x2122, 0x2122, 0x2122); (0x2123, 0x2123, 0x2123); (0x2124, 0x2124, 0x2124); (0x2125, 0x2125, 0x2125); (0x2126, 0x3c9, 0x2126); (0x2127, 0x2127, 0x2127);
  (0x2128, 0x2128, 0x2128); (0x2129, 0x2129, 0x2129); (0x212a, 0x6b, 0x212a); (0x212b, 0xe5, 0x212b); (0x212c, 0x212c, 0x212c); (0x212d, 0x212d, 0x212d); (0x212e, 0x212e, 0x212e); (0x212f, 0x212f, 0x212f);
  (0x2130, 0x2130, 0x2130); (0x2131, 0x2131, 0x2131); (0x2132, 0x2132, 0x2132); (0x2133, 0x2133, 0x2133); (0x2134, 0x2134, 0x2134); (0x2135, 0x2135, 0x2135); (0x2136, 0x2136, 0x2136); (0x2137, 0x2137, 0x2137);
  (0x2138, 0x2138, 0x2138); (0x2139, 0x2139, 0x2139); (0x213a, 0x213a, 0x213a); (0x213b, 0x213b, 0x213b); (0x213c, 0x213c, 0x213c); (0x213d, 0x213d, 0x213d); (0x213e, 0x213e, 0x213e); (0x213f, 0x213f, 0x213f);
  (0x2140, 0x2140, 0x2140); (0x2141, 0x2141, 0x2141); (0x2142, 0x2142, 0x2142); (0x2143, 0x2143, 0x2143); (0x2144, 0x2144, 0x2144); (0x2145, 0x2145, 0x2145); (0x2146, 0x2146, 0x2146); (0x2147, 0x2147, 0x2147);
  (0x2148, 0x2148, 0x2148); (0x2149, 0x2149, 0x2149); (0x214a, 0x214a, 0x214a); (0x214b, 0x214b, 0x214b); (0x214c, 0x214c, 0x214c); (0x214d, 0x214d, 0x214d); (0x214e, 0x214e, 0x214e); (0x214f, 0x214f, 0x214f);
  (0x2150, 0x2150, 0x2150); (0x2151, 0x2151, 0x2151); (0x2152, 0x2152, 0x2152); (0x2153, 0x2153, 0x2153); (0x2154, 0x2154, 0x2154); (0x2155, 0x2155, 0x2155); (0x2156, 0x2156, 0x2156); (0x2157, 0x2157, 0x2157);
  (0x2158, 0x2158, 0x2158); (0x2159, 0x2159, 0x2159); (0x215a, 0x215a, 0x215a); (0x215b, 0x215b, 0x215b); (0x215c, 0x215c, 0x215c); (0x215d, 0x215d, 0x215d); (0x215e, 0x215e, 0x215e); (0x215f, 0x215f, 0x215f);
  (0x2160, 0x2170, 0x2160); (0x2161, 0x2171, 0x2161); (0x2162, 0x2172, 0x2162); (0x2163, 0x2173, 0x2163); (0x2164, 0x2174, 0x2164); (0x2165, 0x2175, 0x2165); (0x2166, 0x2176, 0x2166); (0x2167, 0x2177, 0x2167);
  (0x2168, 0x2178, 0x2168); (0x2169, 0x2179, 0x2169); (0x216a, 0x217a, 0x216a); (0x216b, 0x217b, 0x216b); (0x216c, 0x217c, 0x216c); (0x216d, 0x217d, 0x216d); (0x216e, 0x217e, 0x216e); (0x216f, 0x217f, 0x216f);
  (0x2160, 0x2170, 0x2160); (0x2161, 0x2171, 0x2161); (0x2162, 0x2172, 0x2162); (0x2163, 0x2173, 0x2163); (0x2164, 0x2174, 0x2164); (0x2165, 0x2175, 0x2165); (0x2166, 0x2176, 0x2166); (0x2167, 0x2177, 0x2167);
  (0x2168, 0x2178, 0x2168); (0x2169, 0x2179, 0x2169); (0x216a, 0x217a, 0x216a); (0x216b, 0x217b, 0x216b); (0x216c, 0x217c, 0x216c); (0x216d, 0x217d, 0x216d); (0x216e, 0x217e, 0x216e); (0x216f, 0x217f, 0x216f);
  (0x2180, 0x2180, 0x2180); (0x2181, 0x2181, 0x2181); (0x2182, 0x2182, 0x2182); (0x2183, 0x2183, 0x2183); (0x2184, 0x2184, 0x2184); (0x2185, 0x2185, 0x2185); (0x2186, 0x2186, 0x2186); (0x2187, 0x2187, 0x2187);
  (0x2188, 0x2188, 0x2188); (0x2189, 0x2189, 0x2189); (0x218a, 0x218a, 0x218a); (0x218b, 0x218b, 0x218b); (0x218c, 0x218c, 0x218c); (0x218d, 0x218d, 0x218d); (0x218e, 0x218e, 0x218e); (0x218f, 0x218f, 0x218f);
  (0x2190, 0x2190, 0x2190); (0x2191, 0x2191, 0x2191); (0x2192, 0x2192, 0x2192); (0x2193, 0x2193, 0x2193); (0x2194, 0x2194, 0x2194); (0x2195, 0x2195, 0x2195); (0x2196, 0x2196, 0x2196); (0x2197, 0x2197, 0x2197);
  (0x2198, 0x2198, 0x2198); (0x2199, 0x2199, 0x2199); (0x219a, 0x219a, 0x219a); (0x219b, 0x219b, 0x219b); (0x219c, 0x219c, 0x219c); (0x219d, 0x219d, 0x219d); (0x219e, 0x219e, 0x219e); (0x219f, 0x219f, 0x219f);
  (0x21a0, 0x21a0, 0x21a0); (0x21a1, 0x21a1, 0x21a1); (0x21a2, 0x21a2, 0x21a2); (0x21a3, 0x21a3, 0x21a3); (0x21a4, 0x21a4, 0x21a4); (0x21a5, 0x21a5, 0x21a5); (0x21a6, 0x21a6, 0x21a6); (0x21a7, 0x21a7, 0x21a7);
  (0x21a8, 0x21a8, 0x21a8); (0x21a9, 0x21a9, 0x21a9); (0x21aa, 0x21aa, 0x21aa); (0x21ab, 0x21ab, 0x21ab); (0x21ac, 0x21ac, 0x21ac); (0x21ad, 0x21ad, 0x21ad); (0x21ae, 0x21ae, 0x21ae); (0x21af, 0x21af, 0x21af);
  (0x21b0, 0x21b0, 0x21b0); (0x21b1, 0x21b1, 0x21b1); (0x21b2, 0x21b2, 0x21b2); (0x21b3, 0x21b3, 0x21b3); (0x21b4, 0x21b4, 0x21b4); (0x21b5, 0x21b5, 0x21b5); (0x21b6, 0x21b6, 0x21b6); (0x21b7, 0x21b7, 0x21b7);
  (0x21b8, 0x21b8, 0x21b8); (0x21b9, 0x21b9, 0x21b9); (0x21ba, 0x21ba, 0x21ba); (0x21bb, 0x21bb, 0x21bb); (0x21bc, 0x21bc, 0x21bc); (0x21bd, 0x21bd, 0x21bd); (0x21be, 0x21be, 0x21be); (0x21bf, 0x21bf, 0x21bf);
  (0x21c0, 0x21c0, 0x21c0); (0x21c1, 0x21c1, 0x21c1); (0x21c2, 0x21c2, 0x21c2); (0x21c3, 0x21c3, 0x21c3); (0x21c4, 0x21c4, 0x21c4); (0x21c5, 0x21c5, 0x21c5); (0x21c6, 0x21c6, 0x21c6); (0x21c7, 0x21c7, 0x21c7);
  (0x21c8, 0x21c8, 0x21c8); (0x21c9, 0x21c9, 0x21c9); (0x21ca, 0x21ca, 0x21ca); (0x21cb, 0x21cb, 0x21cb); (0x21cc, 0x21cc, 0x21cc); (0x21cd, 0x21cd, 0x21cd); (0x21ce, 0x21ce, 0x21ce); (0x21cf, 0x21cf, 0x21cf);
  (0x21d0, 0x21d0, 0x21d0); (0x21d1, 0x21d1, 0x21d1); (0x21d2, 0x21d2, 0x21d2); (0x21d3, 0x21d3, 0x21d3); (0x21d4, 0x21d4, 0x21d4); (0x21d5, 0x21d5, 0x21d5); (0x21d6, 0x21d6, 0x21d6); (0x21d7, 0x21d7, 0x21d7);
  (0x21d8, 0x21d8, 0x21d8); (0x21d9, 0x21d9, 0x21d9); (0x21da, 0x21da, 0x21da); (0x21db, 0x21db, 0x21db); (0x21dc, 0x21dc, 0x21dc); (0x21dd, 0x21dd, 0x21dd); (0x21de, 0x21de, 0x21de); (0x21df, 0x21df, 0x21df);
  (0x21e0, 0x21e0, 0x21e0); (0x21e1, 0x21e1, 0x21e1); (0x21e2, 0x21e2, 0x21e2); (0x21e3, 0x21e3, 0x21e3); (0x21e4, 0x21e4, 0x21e4); (0x21e5, 0x21e5, 0x21e5); (0x21e6, 0x21e6, 0x21e6); (0x21e7, 0x21e7, 0x21e7);
  (0x21e8, 0x21e8, 0x21e8); (0x21e9, 0x21e9, 0x21e9); (0x21ea, 0x21ea, 0x21ea); (0x21eb, 0x21eb, 0x21eb); (0x21ec, 0x21ec, 0x21ec); (0x21ed, 0x21ed, 0x21ed); (0x21ee, 0x21ee, 0x21ee); (0x21ef, 0x21ef, 0x21ef);
  (0x21f0, 0x21f0, 0x21f0); (0x21f1, 0x21f1, 0x21f1); (0x21f2, 0x21f2, 0x21f2); (0x21f3, 0x21f3, 0x21f3); (0x21f4, 0x21f4, 0x21f4); (0x21f5, 0x21f5, 0x21f5); (0x21f6, 0x21f6, 0x21f6); (0x21f7, 0x21f7, 0x21f7);
  (0x21f8, 0x21f8, 0x21f8); (0x21f9, 0x21f9, 0x21f9); (0x21fa, 0x21fa, 0x21fa); (0x21fb, 0x21fb, 0x21fb); (0x21fc, 0x21fc, 0x21fc); (0x21fd, 0x21fd, 0x21fd); (0x21fe, 0x21fe, 0x21fe); (0x21ff, 0x21ff, 0x21ff)].

Definition plane24 : list MY_UNICASE_INFO := [
  (0x2400, 0x2400, 0x2400); (0x2401, 0x2401, 0x2401); (0x2402, 0x2402, 0x2402); (0x2403, 0x2403, 0x2403); (0x2404, 0x2404, 0x2404); (0x2405, 0x2405, 0x2405); (0x2406, 0x2406, 0x2406); (0x2407, 0x2407, 0x2407);
  (0x2408, 0x2408, 0x2408); (0x2409, 0x2409, 0x2409); (0x240a, 0x240a, 0x240a); (0x240b, 0x240b, 0x240b); (0x240c, 0x240c, 0x240c); (0x240d, 0x240d, 0x240d); (0x240e, 0x240e, 0x240e); (0x240f, 0x240f, 0x240f);
  (0x2410, 0x2410, 0x2410); (0x2411, 0x2411, 0x2411); (0x2412, 0x2412, 0x2412); (0x2413, 0x2413, 0x2413); (0x2414, 0x2414, 0x2414); (0x2415, 0x2415, 0x2415); (0x2416, 0x2416, 0x2416); (0x2417, 0x2417, 0x2417);
  (0x2418, 0x2418, 0x2418); (0x2419, 0x2419, 0x2419); (0x241a, 0x241a, 0x241a); (0x241b, 0x241b, 0x241b); (0x241c, 0x241c, 0x241c); (0x241d, 0x241d, 0x241d); (0x241e, 0x241e, 0x241e); (0x241f, 0x241f, 0x241f);
  (0x2420, 0x2420, 0x2420); (0x2421, 0x2421, 0x2421); (0x2422, 0x2422, 0x2422); (0x2423, 0x2423, 0x2423); (0x2424, 0x2424, 0x2424); (0x2425, 0x2425, 0x2425); (0x2426, 0x2426, 0x2426); (0x2427, 0x2427, 0x2427);
  (0x2428, 0x2428, 0x2428); (0x2429, 0x2429, 0x2429); (0x242a, 0x242a, 0x242a); (0x242b, 0x242b, 0x242b); (0x242c, 0x242c, 0x242c); (0x242d, 0x242d, 0x242d); (0x242e, 0x242e, 0x242e); (0x242f, 0x242f, 0x242f);
  (0x2430, 0x2430, 0x2430); (0x2431, 0x2431, 0x2431); (0x2432, 0x2432, 0x2432); (0x2433, 0x2433, 0x2433); (0x2434, 0x2434, 0x2434); (0x2435, 0x2435, 0x2435); (0x2436, 0x2436, 0x2436); (0x2437, 0x2437, 0x2437);
  (0x2438, 0x2438, 0x2438); (0x2439, 0x2439, 0x2439); (0x243a, 0x243a, 0x243a); (0x243b, 0x243b, 0x243b); (0x243c, 0x243c, 0x243c); (0x243d, 0x243d, 0x243d); (0x243e, 0x243e, 0x243e); (0x243f, 0x243f, 0x243f);
  (0x2440, 0x2440, 0x2440); (0x2441, 0x2441, 0x2441); (0x2442, 0x2442, 0x2442); (0x2443, 0x2443, 0x2443); (0x2444, 0x2444, 0x2444); (0x2445, 0x2445, 0x2445); (0x2446, 0x2446, 0x2446); (0x2447, 0x2447, 0x2447);
  (0x2448, 0x2448, 0x2448); (0x2449, 0x2449, 0x2449); (0x244a, 0x244a, 0x244a); (0x244b, 0x244b, 0x244b); (0x244c, 0x244c, 0x244c); (0x244d, 0x244d, 0x244d); (0x244e, 0x244e, 0x244e); (0x244f, 0x244f, 0x244f);
  (0x2450, 0x2450, 0x2450); (0x2451, 0x2451, 0x2451); (0x2452, 0x2452, 0x2452); (0x2453, 0x2453, 0x2453); (0x2454, 0x2454, 0x2454); (0x2455, 0x2455, 0x2455); (0x2456, 0x2456, 0x2456); (0x2457, 0x2457, 0x2457);
  (0x2458, 0x2458, 0x2458); (0x2459, 0x2459, 0x2459); (0x245a, 0x245a, 0x245a); (0x245b, 0x245b, 0x245b); (0x245c, 0x245c, 0x245c); (0x245d, 0x245d, 0x245d); (0x245e, 0x245e, 0x245e); (0x245f, 0x245f, 0x245f);
  (0x2460, 0x2460, 0x2460); (0x2461, 0x2461, 0x2461); (0x2462, 0x2462, 0x2462); (0x2463, 0x2463, 0x2463); (0x2464, 0x2464, 0x2464); (0x2465, 0x2465, 0x2465); (0x2466, 0x2466, 0x2466); (0x2467, 0x2467, 0x2467);
  (0x2468, 0x2468, 0x2468); (0x2469, 0x2469, 0x2469); (0x246a, 0x246a, 0x246a); (0x246b, 0x246b, 0x246b); (0x246c, 0x246c, 0x246c); (0x246d, 0x246d, 0x246d); (0x246e, 0x246e, 0x246e); (0x246f, 0x246f, 0x246f);
  (0x2470, 0x2470, 0x2470); (0x2471, 0x2471, 0x2471); (0x2472, 0x2472, 0x2472); (0x2473, 0x2473, 0x2473); (0x2474, 0x2474, 0x2474); (0x2475, 0x2475, 0x2475); (0x2476, 0x2476, 0x2476); (0x2477, 0x2477, 0x2477);
  (0x2478, 0x2478, 0x2478); (0x2479, 0x2479, 0x2479); (0x247a, 0x247a, 0x247a); (0x247b, 0x247b, 0x247b); (0x247c, 0x247c, 0x247c); (0x247d, 0x247d, 0x247d); (0x247e, 0x247e, 0x247e); (0x247f, 0x247f, 0x247f);
  (0x2480, 0x2480, 0x2480); (0x2481, 0x2481, 0x2481); (0x2482, 0x2482, 0x2482); (0x2483, 0x2483, 0x2483); (0x2484, 0x2484, 0x2484); (0x2485, 0x2485, 0x2485); (0x2486, 0x2486, 0x2486); (0x2487, 0x2487, 0x2487);
  (0x2488, 0x2488, 0x2488); (0x2489, 0x2489, 0x2489); (0x248a, 0x248a, 0x248a); (0x248b, 0x248b, 0x248b); (0x248c, 0x248c, 0x248c); (0x248d, 0x248d, 0x248d); (0x248e, 0x248e, 0x248e); (0x248f, 0x248f, 0x248f);
  (0x2490, 0x2490, 0x2490); (0x2491, 0x2491, 0x2491); (0x2492, 0x2492, 0x2492); (0x2493, 0x2493, 0x2493); (0x2494, 0x2494, 0x2494); (0x2495, 0x2495, 0x2495); (0x2496, 0x2496, 0x2496); (0x2497, 0x2497, 0x2497);
  (0x2498, 0x2498, 0x2498); (0x2499, 0x2499, 0x2499); (0x249a, 0x249a, 0x249a); (0x249b, 0x249b, 0x249b); (0x249c, 0x249c, 0x249c); (0x249d, 0x249d, 0x249d); (0x249e, 0x249e, 0x249e); (0x249f, 0x249f, 0x249f);
  (0x24a0, 0x24a0, 0x24a0); (0x24a1, 0x24a1, 0x24a1); (0x24a2, 0x24a2, 0x24a2); (0x24a3, 0x24a3, 0x24a3); (0x24a4, 0x24a4, 0x24a4); (0x24a5, 0x24a5, 0x24a5); (0x24a6, 0x24a6, 0x24a6); (0x24a7, 0x24a7, 0x24a7);
  (0x24a8, 0x24a8, 0x24a8); (0x24a9, 0x24a9, 0x24a9); (0x24aa, 0x24aa, 0x24aa); (0x24ab, 0x24ab, 0x24ab); (0x24ac, 0x24ac, 0x24ac); (0x24ad, 0x24ad, 0x24ad); (0x24ae, 0x24ae, 0x24ae); (0x24af, 0x24af, 0x24af);
  (0x24b0, 0x24b0, 0x24b0); (0x24b1, 0x24b1, 0x24b1); (0x24b2, 0x24b2, 0x24b2); (0x24b3, 0x24b3, 0x24b3); (0x24b4, 0x24b4, 0x24b4); (0x24b5, 0x24b5, 0x24b5); (0x24b6, 0x24d0, 0x24b6); (0x24b7, 0x24d1, 0x24b7);
  (0x24b8, 0x24d2, 0x24b8); (0x24b9, 0x24d3, 0x24b9); (0x24ba, 0x24d4, 0x24ba); (0x24bb, 0x24d5, 0x24bb); (0x24bc, 0x24d6, 0x24bc); (0x24bd, 0x24d7, 0x24bd); (0x24be, 0x24d8, 0x24be); (0x24bf, 0x24d9, 0x24bf);
  (0x24c0, 0x24da, 0x24c0); (0x24c1, 0x24db, 0x24c1); (0x24c2, 0x24dc, 0x24c2); (0x24c3, 0x24dd, 0x24c3); (0x24c4, 0x24de, 0x24c4); (0x24c5, 0x24df, 0x24c5); (0x24c6, 0x24e0, 0x24c6); (0x24c7, 0x24e1, 0x24c7);
  (0x24c8, 0x24e2, 0x24c8); (0x24c9, 0x24e3, 0x24c9); (0x24ca, 0x24e4, 0x24ca); (0x24cb, 0x24e5, 0x24cb); (0x24cc, 0x24e6, 0x24cc); (0x24cd, 0x24e7, 0x24cd); (0x24ce, 0x24e8, 0x24ce); (0x24cf, 0x24e9, 0x24cf);
  (0x24b6, 0x24d0, 0x24b6); (0x24b7, 0x24d1, 0x24b7); (0x24b8, 0x24d2, 0x24b8); (0x24b9, 0x24d3, 0x24b9); (0x24ba, 0x24d4, 0x24ba); (0x24bb, 0x24d5, 0x24bb); (0x24bc, 0x24d6, 0x24bc); (0x24bd, 0x24d7, 0x24bd);
  (0x24be, 0x24d8, 0x24be); (0x24bf, 0x24d9, 0x24bf); (0x24c0, 0x24da, 0x24c0); (0x24c1, 0x24db, 0x24c1); (0x24c2, 0x24dc, 0x24c2); (0x24c3, 0x24dd, 0x24c3); (0x24c4, 0x24de, 0x24c4); (0x24c5, 0x24df, 0x24c5);
  (0x24c6, 0x24e0, 0x24c6); (0x24c7, 0x24e1, 0x24c7); (0x24c8, 0x24e2, 0x24c8); (0x24c9, 0x24e3, 0x24c9); (0x24ca, 0x24e4, 0x24ca); (0x24cb, 0x24e5, 0x24cb); (0x24cc, 0x24e6, 0x24cc); (0x24cd, 0x24e7, 0x24cd);
  (0x24ce, 0x24e8, 0x24ce); (0x24cf, 0x24e9, 0x24cf); (0x24ea, 0x24ea, 0x24ea); (0x24eb, 0x24eb, 0x24eb); (0x24ec, 0x24ec, 0x24ec); (0x24ed, 0x24ed, 0x24ed); (0x24ee, 0x24ee, 0x24ee); (0x24ef, 0x24ef, 0x24ef);
  (0x24f0, 0x24f0, 0x24f0); (0x24f1, 0x24f1, 0x24f1); (0x24f2, 0x24f2, 0x24f2); (0x24f3, 0x24f3, 0x24f3); (0x24f4, 0x24f4, 0x24f4); (0x24f5, 0x24f5, 0x24f5); (0x24f6, 0x24f6, 0x24f6); (0x24f7, 0x24f7, 0x24f7);
  (0x24f8, 0x24f8, 0x24f8); (0x24f9, 0x24f9, 0x24f9); (0x24fa, 0x24fa, 0x24fa); (0x24fb, 0x24fb, 0x24fb); (0x24fc, 0x24fc, 0x24fc); (0x24fd, 0x24fd, 0x24fd); (0x24fe, 0x24fe, 0x24fe); (0x24ff, 0x24ff, 0x24ff)].

Definition planeFF : list MY_UNICASE_INFO := [
  (0xff00, 0xff00, 0xff00); (0xff01, 0xff01, 0xff01); (0xff02, 0xff02, 0xff02); (0xff03, 0xff03, 0xff03); (0xff04, 0xff04, 0xff04); (0xff05, 0xff05, 0xff05); (0xff06, 0xff06, 0xff06); (0xff07, 0xff07, 0xff07);
  (0xff08, 0xff08, 0xff08); (0xff09, 0xff09, 0xff09); (0xff0a, 0xff0a, 0xff0a); (0xff0b, 0xff0b, 0xff0b); (0xff0c, 0xff0c, 0xff0c); (0xff0d, 0xff0d, 0xff0d); (0xff0e, 0xff0e, 0xff0e); (0xff0f, 0xff0f, 0xff0f);
  (0xff10, 0xff10, 0xff10); (0xff11, 0xff11, 0xff11); (0xff12, 0xff12, 0xff12); (0xff13, 0xff13, 0xff13); (0xff14, 0xff14, 0xff14); (0xff15, 0xff15, 0xff15); (0xff16, 0xff16, 0xff16); (0xff17, 0xff17, 0xff17);
  (0xff18, 0xff18, 0xff18); (0xff19, 0xff19, 0xff19); (0xff1a, 0xff1a, 0xff1a); (0xff1b, 0xff1b, 0xff1b); (0xff1c, 0xff1c, 0xff1c); (0xff1d, 0xff1d, 0xff1d); (0xff1e, 0xff1e, 0xff1e); (0xff1f, 0xff1f, 0xff1f);
  (0xff20, 0xff20, 0xff20); (0xff21, 0xff41, 0xff21); (0xff22, 0xff42, 0xff22); (0xff23, 0xff43, 0xff23); (0xff24, 0xff44, 0xff24); (0xff25, 0xff45, 0xff25); (0xff26, 0xff46, 0xff26); (0xff27, 0xff47, 0xff27);
  (0xff28, 0xff48, 0xff28); (0xff29, 0xff49, 0xff29); (0xff2a, 0xff4a, 0xff2a); (0xff2b, 0xff4b, 0xff2b); (0xff2c, 0xff4c, 0xff2c); (0xff2d, 0xff4d, 0xff2d); (0xff2e, 0xff4e, 0xff2e); (0xff2f, 0xff4f, 0xff2f);
  (0xff30, 0xff50, 0xff30); (0xff31, 0xff51, 0xff31); (0xff32, 0xff52, 0xff32); (0xff33, 0xff53, 0xff33); (0xff34, 0xff54, 0xff34); (0xff35, 0xff55, 0xff35); (0xff36, 0xff56, 0xff36); (0xff37, 0xff57, 0xff37);
  (0xff38, 0xff58, 0xff38); (0xff39, 0xff59, 0xff39); (0xff3a, 0xff5a, 0xff3a); (0xff3b, 0xff3b, 0xff3b); (0xff3c, 0xff3c, 0xff3c); (0xff3d, 0xff3d, 0xff3d); (0xff3e, 0xff3e, 0xff3e); (0xff3f, 0xff3f, 0xff3f);
  (0xff40, 0xff40, 0xff40); (0xff21, 0xff41, 0xff21); (0xff22, 0xff42, 0xff22); (0xff23, 0xff43, 0xff23); (0xff24, 0xff44, 0xff24); (0xff25, 0xff45, 0xff25); (0xff26, 0xff46, 0xff26); (0xff27, 0xff47, 0xff27);
  (0xff28, 0xff48, 0xff28); (0xff29, 0xff49, 0xff29); (0xff2a, 0xff4a, 0xff2a); (0xff2b, 0xff4b, 0xff2b); (0xff2c, 0xff4c, 0xff2c); (0xff2d, 0xff4d, 0xff2d); (0xff2e, 0xff4e, 0xff2e); (0xff2f, 0xff4f, 0xff2f);
  (0xff30, 0xff50, 0xff30); (0xff31, 0xff51, 0xff31); (0xff32, 0xff52, 0xff32); (0xff33, 0xff53, 0xff33); (0xff34, 0xff54, 0xff34); (0xff35, 0xff55, 0xff35); (0xff36, 0xff56, 0xff36); (0xff37, 0xff57, 0xff37);
  (0xff38, 0xff58, 0xff38); (0xff39, 0xff59, 0xff39); (0xff3a, 0xff5a, 0xff3a); (0xff5b, 0xff5b, 0xff5b); (0xff5c, 0xff5c, 0xff5c); (0xff5d, 0xff5d, 0xff5d); (0xff5e, 0xff5e, 0xff5e); (0xff5f, 0xff5f, 0xff5f);
  (0xff60, 0xff60, 0xff60); (0xff61, 0xff61, 0xff61); (0xff62, 0xff62, 0xff62); (0xff63, 0xff63, 0xff63); (0xff64, 0xff64, 0xff64); (0xff65, 0xff65, 0xff65); (0xff66, 0xff66, 0xff66); (0xff67, 0xff67, 0xff67);
  (0xff68, 0xff68, 0xff68); (0xff69, 0xff69, 0xff69); (0xff6a, 0xff6a, 0xff6a); (0xff6b, 0xff6b, 0xff6b); (0xff6c, 0xff6c, 0xff6c); (0xff6d, 0xff6d, 0xff6d); (0xff6e, 0xff6e, 0xff6e); (0xff6f, 0xff6f, 0xff6f);
  (0xff70, 0xff70, 0xff70); (0xff71, 0xff71, 0xff71); (0xff72, 0xff72, 0xff72); (0xff73, 0xff73, 0xff73); (0xff74, 0xff74, 0xff74); (0xff75, 0xff75, 0xff75); (0xff76, 0xff76, 0xff76); (0xff77, 0xff77, 0xff77);
  (0xff78, 0xff78, 0xff78); (0xff79, 0xff79, 0xff79); (0xff7a, 0xff7a, 0xff7a); (0xff7b, 0xff7b, 0xff7b); (0xff7c, 0xff7c, 0xff7c); (0xff7d, 0xff7d, 0xff7d); (0xff7e, 0xff7e, 0xff7e); (0xff7f, 0xff7f, 0xff7f);
  (0xff80, 0xff80, 0xff80); (0xff81, 0xff81, 0xff81); (0xff82, 0xff82, 0xff82); (0xff83, 0xff83, 0xff83); (0xff84, 0xff84, 0xff84); (0xff85, 0xff85, 0xff85); (0xff86, 0xff86, 0xff86); (0xff87, 0xff87, 0xff87);
  (0xff88, 0xff88, 0xff88); (0xff89, 0xff89, 0xff89); (0xff8a, 0xff8a, 0xff8a); (0xff8b, 0xff8b, 0xff8b); (0xff8c, 0xff8c, 0xff8c); (0xff8d, 0xff8d, 0xff8d); (0xff8e, 0xff8e, 0xff8e); (0xff8f, 0xff8f, 0xff8f);
  (0xff90, 0xff90, 0xff90); (0xff91, 0xff91, 0xff91); (0xff92, 0xff92, 0xff92); (0xff93, 0xff93, 0xff93); (0xff94, 0xff94, 0xff94); (0xff95, 0xff95, 0xff95); (0xff96, 0xff96, 0xff96); (0xff97, 0xff97, 0xff97);
  (0xff98, 0xff98, 0xff98); (0xff99, 0xff99, 0xff99); (0xff9a, 0xff9a, 0xff9a); (0xff9b, 0xff9b, 0xff9b); (0xff9c, 0xff9c, 0xff9c); (0xff9d, 0xff9d, 0xff9d); (0xff9e, 0xff9e, 0xff9e); (0xff9f, 0xff9f, 0xff9f);
  (0xffa0, 0xffa0, 0xffa0); (0xffa1, 0xffa1, 0xffa1); (0xffa2, 0xffa2, 0xffa2); (0xffa3, 0xffa3, 0xffa3); (0xffa4, 0xffa4, 0xffa4); (0xffa5, 0xffa5, 0xffa5); (0xffa6, 0xffa6, 0xffa6); (0xffa7, 0xffa7, 0xffa7);
  (0xffa8, 0xffa8, 0xffa8); (0xffa9, 0xffa9, 0xffa9); (0xffaa, 0xffaa, 0xffaa); (0xffab, 0xffab, 0xffab); (0xffac, 0xffac, 0xffac); (0xffad, 0xffad, 0xffad); (0xffae, 0xffae, 0xffae); (0xffaf, 0xffaf, 0xffaf);
  (0xffb0, 0xffb0, 0xffb0); (0xffb1, 0xffb1, 0xffb1); (0xffb2, 0xffb2, 0xffb2); (0xffb3, 0xffb3, 0xffb3); (0xffb4, 0xffb4, 0xffb4); (0xffb5, 0xffb5, 0xffb5); (0xffb6, 0xffb6, 0xffb6); (0xffb7, 0xffb7, 0xffb7);
  (0xffb8, 0xffb8, 0xffb8); (0xffb9, 0xffb9, 0xffb9); (0xffba, 0xffba, 0xffba); (0xffbb, 0xffbb, 0xffbb); (0xffbc, 0xffbc, 0xffbc); (0xffbd, 0xffbd, 0xffbd); (0xffbe, 0xffbe, 0xffbe); (0xffbf, 0xffbf, 0xffbf);
  (0xffc0, 0xffc0, 0xffc0); (0xffc1, 0xffc1, 0xffc1); (0xffc2, 0xffc2, 0xffc2); (0xffc3, 0xffc3, 0xffc3); (0xffc4, 0xffc4, 0xffc4); (0xffc5, 0xffc5, 0xffc5); (0xffc6, 0xffc6, 0xffc6); (0xffc7, 0xffc7, 0xffc7);
  (0xffc8, 0xffc8, 0xffc8); (0xffc9, 0xffc9, 0xffc9); (0xffca, 0xffca, 0xffca); (0xffcb, 0xffcb, 0xffcb); (0xffcc, 0xffcc, 0xffcc); (0xffcd, 0xffcd, 0xffcd); (0xffce, 0xffce, 0xffce); (0xffcf, 0xffcf, 0xffcf);
  (0xffd0, 0xffd0, 0xffd0); (0xffd1, 0xffd1, 0xffd1); (0xffd2, 0xffd2, 0xffd2); (0xffd3, 0xffd3, 0xffd3); (0xffd4, 0xffd4, 0xffd4); (0xffd5, 0xffd5, 0xffd5); (0xffd6, 0xffd6, 0xffd6); (0xffd7, 0xffd7, 0xffd7);
  (0xffd8, 0xffd8, 0xffd8); (0xffd9, 0xffd9, 0xffd9); (0xffda, 0xffda, 0xffda); (0xffdb, 0xffdb, 0xffdb); (0xffdc, 0xffdc, 0xffdc); (0xffdd, 0xffdd, 0xffdd); (0xffde, 0xffde, 0xffde); (0xffdf, 0xffdf, 0xffdf);
  (0xffe0, 0xffe0, 0xffe0); (0xffe1, 0xffe1, 0xffe1); (0xffe2, 0xffe2, 0xffe2); (0xffe3, 0xffe3, 0xffe3); (0xffe4, 0xffe4, 0xffe4); (0xffe5, 0xffe5, 0xffe5); (0xffe6, 0xffe6, 0xffe6); (0xffe7, 0xffe7, 0xffe7);
  (0xffe8, 0xffe8, 0xffe8); (0xffe9, 0xffe9, 0xffe9); (0xffea, 0xffea, 0xffea); (0xffeb, 0xffeb, 0xffeb); (0xffec, 0xffec, 0xffec); (0xffed, 0xffed, 0xffed); (0xffee, 0xffee, 0xffee); (0xffef, 0xffef, 0xffef);
  (0xfff0, 0xfff0, 0xfff0); (0xfff1, 0xfff1, 0xfff1); (0xfff2, 0xfff2, 0xfff2); (0xfff3, 0xfff3, 0xfff3); (0xfff4, 0xfff4, 0xfff4); (0xfff5, 0xfff5, 0xfff5); (0xfff6, 0xfff6, 0xfff6); (0xfff7, 0xfff7, 0xfff7);
  (0xfff8, 0xfff8, 0xfff8); (0xfff9, 0xfff9, 0xfff9); (0xfffa, 0xfffa, 0xfffa); (0xfffb, 0xfffb, 0xfffb); (0xfffc, 0xfffc, 0xfffc); (0xfffd, 0xfffd, 0xfffd); (0xfffe, 0xfffe, 0xfffe); (0xffff, 0xffff, 0xffff)].

(** The table of a plane; the others are null pointers. *)
Definition my_unicase_default (plane : Z) : option (list MY_UNICASE_INFO) :=
  match plane with
  | 0x0 => Some plane00
  | 0x1 => Some plane01
  | 0x2 => Some plane02
  | 0x3 => Some plane03
  | 0x4 => Some plane04
  | 0x5 => Some plane05
  | 0x1e => Some plane1E
  | 0x1f => Some plane1F
  | 0x21 => Some plane21
  | 0x24 => Some plane24
  | 0xff => Some planeFF
  | _ => None
  end.
