(* ===== verification/Utf8.v ===== *)
(** * The UTF-8 character set (strings/ctype-utf8.c)

    Decoding and encoding of characters and the conversions of case, in the
    build without [UNICODE_32BIT]: characters up to U+FFFF in at most three
    bytes.  A string is the list of its bytes, the code's pointers into it the
    remaining lists.  The class at the end of the first part is what a
    character set promises to the functions that work on characters. *)

From stdpp Require Import base numbers list.
From Stdlib Require Import ZArith Lia.
From S2P Require Import Prelude UniCase.

Local Open Scope Z_scope.

(** ** Characters *)

Definition MY_CS_ILSEQ : Z := 0.
Definition MY_CS_ILUNI : Z := 0.
Definition MY_CS_TOOSMALL : Z := -1.
Definition MY_CS_TOOFEW (n : Z) : Z := -1 - n.

(** The result and the character, which is written only with a positive result. *)
Definition my_utf8_uni (s : list Z) : Z * Z :=
  let cont (b : Z) := Z.lxor b 0x80 <? 0x40 in
  match s with
  | [] => (MY_CS_TOOFEW 0, 0)
  | c :: s' =>
      if c <? 0x80 then (1, c)
      else if c <? 0xc2 then (MY_CS_ILSEQ, 0)
      else if c <? 0xe0 then
        match s' with
        | s1 :: _ =>
            if negb (cont s1) then (MY_CS_ILSEQ, 0)
            else (2, Z.lor (Z.shiftl (Z.land c 0x1f) 6) (Z.lxor s1 0x80))
        | _ => (MY_CS_TOOFEW 0, 0)
        end
      else if c <? 0xf0 then
        match s' with
        | s1 :: s2 :: _ =>
            if negb (cont s1 && cont s2 && ((0xe1 <=? c) || (0xa0 <=? s1))) then (MY_CS_ILSEQ, 0)
            else
              (3, Z.lor (Z.lor (Z.shiftl (Z.land c 0x0f) 12) (Z.shiftl (Z.lxor s1 0x80) 6)) (Z.lxor s2 0x80))
        | _ => (MY_CS_TOOFEW 0, 0)
        end
      else (MY_CS_ILSEQ, 0)
  end.

(** The result and the bytes written; [room] is [e - r]. *)
Definition my_uni_utf8 (wc room : Z) : Z * list Z :=
  if room <=? 0 then (MY_CS_TOOSMALL, [])
  else
    let count := if wc <? 0x80 then 1 else if wc <? 0x800 then 2 else if wc <? 0x10000 then 3 else 0 in
    if count =? 0 then (MY_CS_ILUNI, [])
    else if room <? count then (MY_CS_TOOSMALL, [])
    else
      let case1 wc := [u8 wc] in
      let case2 wc := case1 (Z.lor (Z.shiftr wc 6) 0xc0) ++ [Z.lor 0x80 (Z.land wc 0x3f)] in
      let case3 wc := case2 (Z.lor (Z.shiftr wc 6) 0x800) ++ [Z.lor 0x80 (Z.land wc 0x3f)] in
      (count, if count =? 3 then case3 wc else if count =? 2 then case2 wc else case1 wc).

Definition my_ismbchar_utf8 (s : list Z) : Z :=
  let res := (my_utf8_uni s).1 in if 1 <? res then res else 0.

Definition my_mbcharlen_utf8 (c : Z) : Z :=
  if c <? 0x80 then 1 else if c <? 0xc2 then 0 else if c <? 0xe0 then 2 else if c <? 0xf0 then 3 else 0.

(** ** Conversion of case *)

(** [uni_plane[plane] ? uni_plane[plane][wc & 0xFF].field : wc]. *)
Definition unicase (field : MY_UNICASE_INFO -> Z) (uni_plane : Z -> option (list MY_UNICASE_INFO)) (wc : Z) : Z :=
  match uni_plane (Z.land (Z.shiftr wc 8) 0xFF) with
  | Some plane => field (nth (Z.to_nat (Z.land wc 0xFF)) plane (0, 0, 0))
  | None => wc
  end.

Definition toupper : MY_UNICASE_INFO -> Z := fun i => i.1.1.
Definition tolower : MY_UNICASE_INFO -> Z := fun i => i.1.2.
Definition sort : MY_UNICASE_INFO -> Z := fun i => i.2.

Section casing.
Variable uni_plane : Z -> option (list MY_UNICASE_INFO).

(** The loop of the conversions on the memory [mem] that holds both strings,
    which may be the same; [src], [srcend], [dst] and [dstend] are places in
    it.  The result is the memory and the last [dst]. *)
Fixpoint casing_loop (field : MY_UNICASE_INFO -> Z) (fuel : nat) (mem : list Z) (src srcend dst dstend : nat)
  : option (list Z * nat) :=
  match fuel with
  | O => None
  | S fuel =>
      if (src <? srcend)%nat then
        let '(srcres, wc) := my_utf8_uni (take (srcend - src) (drop src mem)) in
        if 0 <? srcres then
          let '(dstres, bs) := my_uni_utf8 (unicase field uni_plane wc) (Z.of_nat dstend - Z.of_nat dst) in
          if dstres <=? 0 then Some (mem, dst)
          else casing_loop field fuel (list_inserts dst bs mem) (src + Z.to_nat srcres) srcend (dst + Z.to_nat dstres) dstend
        else Some (mem, dst)
      else Some (mem, dst)
  end.

(** The memory and the length of the result. *)
Definition my_caseup_utf8 (mem : list Z) (src srclen dst dstlen : nat) : option (list Z * nat) :=
  '(mem, d) ← casing_loop toupper (S srclen) mem src (src + srclen) dst (dst + dstlen); Some (mem, (d - dst)%nat).

Definition my_casedn_utf8 (mem : list Z) (src srclen dst dstlen : nat) : option (list Z * nat) :=
  '(mem, d) ← casing_loop tolower (S srclen) mem src (src + srclen) dst (dst + dstlen); Some (mem, (d - dst)%nat).

(** The bytes of a string that ends before the first zero. *)
Fixpoint strlen (s : list Z) : nat :=
  match s with
  | [] => O
  | c :: s => if c =? 0 then O else S (strlen s)
  end.

Definition my_caseup_str_utf8 (mem : list Z) : option (list Z) :=
  let len := strlen mem in '(mem, _) ← my_caseup_utf8 mem 0 len 0 len; Some mem.

Definition my_casedn_str_utf8 (mem : list Z) : option (list Z) :=
  let len := strlen mem in '(mem, _) ← my_casedn_utf8 mem 0 len 0 len; Some mem.
End casing.

(** ** The bytes of a character *)

(** The bytes of a character, from the definition of UTF-8. *)
Definition utf8 (c : Z) : list Z :=
  if c <? 0x80 then [c]
  else if c <? 0x800 then [0xc0 + c / 64; 0x80 + c mod 64]
  else [0xe0 + c / 4096; 0x80 + c / 64 mod 64; 0x80 + c mod 64].

Abbreviation bmp c := (0 <= c < 0x10000) (only parsing).

Lemma lor_disjoint hi lo n : 0 <= n -> 0 <= lo < 2 ^ n -> Z.lor (Z.shiftl hi n) lo = hi * 2 ^ n + lo.
Proof.
  intros Hn Hlo. rewrite <- Z.shiftl_mul_pow2 by done. rewrite Z.add_nocarry_lxor; [rewrite Z.lxor_lor; [done|]|];
    apply Z.bits_inj'; intros i Hi; rewrite Z.land_spec, Z.bits_0, Z.shiftl_spec by done;
    (destruct (Z.ltb_spec i n); [rewrite Z.testbit_neg_r by lia; done|]);
    rewrite <- (Z.mod_small lo (2 ^ n)), Z.mod_pow2_bits_high by lia; apply andb_false_r.
Qed.

(** A property of the bytes from [a] on, one by one. *)
Lemma bytewise (P : Z -> bool) a n : forallb P (seqZ a n) = true -> forall b, a <= b < a + n -> P b = true.
Proof. rewrite forallb_forall. intros H b Hb. apply H, list_elem_of_In, elem_of_seqZ. lia. Qed.

Lemma continuation b : 0 <= b < 256 -> (Z.lxor b 0x80 <? 0x40) = (0x80 <=? b) && (b <? 0xc0).
Proof.
  intros Hb. apply eqb_prop. revert b Hb.
  by apply (bytewise (fun b => Bool.eqb (Z.lxor b 0x80 <? 0x40) ((0x80 <=? b) && (b <? 0xc0))) 0 256).
Qed.

Lemma continuation_value b : 0x80 <= b < 0xc0 -> Z.lxor b 0x80 = b - 0x80.
Proof.
  intros Hb. apply Z.eqb_eq. revert b Hb. by apply (bytewise (fun b => Z.lxor b 0x80 =? b - 0x80) 0x80 0x40).
Qed.

Lemma lor_80 x : 0 <= x < 64 -> Z.lor 0x80 x = 0x80 + x.
Proof. intros Hx. by apply (lor_disjoint 2 x 6). Qed.

Lemma decode_two c b : 0xc2 <= c < 0xe0 -> 0x80 <= b < 0xc0 ->
  Z.lor (Z.shiftl (Z.land c 0x1f) 6) (Z.lxor b 0x80) = (c - 0xc0) * 64 + (b - 0x80).
Proof.
  intros Hc Hb. rewrite continuation_value, lor_disjoint by lia. change 0x1f with (Z.ones 5).
  rewrite Z.land_ones by lia. dlia.
Qed.

Lemma decode_three c b b' : 0xe0 <= c < 0xf0 -> 0x80 <= b < 0xc0 -> 0x80 <= b' < 0xc0 ->
  Z.lor (Z.lor (Z.shiftl (Z.land c 0x0f) 12) (Z.shiftl (Z.lxor b 0x80) 6)) (Z.lxor b' 0x80) =
    (c - 0xe0) * 4096 + (b - 0x80) * 64 + (b' - 0x80).
Proof.
  intros Hc Hb Hb'. rewrite !continuation_value by lia. replace 12 with (6 + 6) by done.
  rewrite <- Z.shiftl_shiftl, <- Z.shiftl_lor, !lor_disjoint by lia. change 0x0f with (Z.ones 4).
  rewrite Z.land_ones by lia. dlia.
Qed.

Lemma utf8_length c : 1 <= Z.of_nat (length (utf8 c)) <= 3.
Proof. unfold utf8. repeat case_if; simpl; lia. Qed.

Lemma utf8_bytes c : bmp c -> bytes (utf8 c).
Proof. intros Hc. unfold utf8. repeat case_if; b2p; repeat constructor; dlia. Qed.

(** Decoding a character at the start of a string. *)
Lemma my_utf8_uni_utf8 c r : bmp c -> my_utf8_uni (utf8 c ++ r) = (Z.of_nat (length (utf8 c)), c).
Proof.
  intros Hc. unfold utf8. destruct (Z.ltb_spec c 0x80) as [|H1]; [|destruct (Z.ltb_spec c 0x800) as [|H2]];
    cbn [app my_utf8_uni length Z.of_nat Pos.of_succ_nat Pos.succ].
  - by rewrite (proj2 (Z.ltb_lt c 0x80)).
  - rewrite !(proj2 (Z.ltb_ge _ 0x80)), (proj2 (Z.ltb_ge _ 0xc2)), (proj2 (Z.ltb_lt _ 0xe0)) by dlia.
    rewrite continuation by dlia. rewrite (proj2 (Z.leb_le _ _)), (proj2 (Z.ltb_lt _ _)) by dlia. cbn [negb andb].
    rewrite decode_two by dlia. f_equal. dlia.
  - rewrite !(proj2 (Z.ltb_ge _ 0x80)), (proj2 (Z.ltb_ge _ 0xc2)), (proj2 (Z.ltb_ge _ 0xe0)), (proj2 (Z.ltb_lt _ 0xf0)) by dlia.
    rewrite !continuation by dlia. rewrite !(proj2 (Z.leb_le 0x80 _)), !(proj2 (Z.ltb_lt _ 0xc0)) by dlia. cbn [andb].
    assert ((0xe1 <=? 0xe0 + c / 4096) || (0xa0 <=? 0x80 + c / 64 mod 64) = true) as ->.
    { apply orb_true_iff. rewrite !Z.leb_le. dlia. }
    cbn [negb]. rewrite decode_three by dlia. f_equal. dlia.
Qed.

(** What decodes starts with the bytes of the character. *)
Lemma my_utf8_uni_inv s n c : bytes s -> my_utf8_uni s = (n, c) -> 0 < n ->
  bmp c /\ n = Z.of_nat (length (utf8 c)) /\ exists r, s = utf8 c ++ r.
Proof.
  intros Hs E Hn. unfold my_utf8_uni, MY_CS_TOOFEW, MY_CS_ILSEQ in E.
  destruct s as [|c0 s]; [injection E; lia|]. apply Forall_cons in Hs as [Hc0 Hs].
  destruct (Z.ltb_spec c0 0x80).
  { injection E as <- <-. unfold utf8. rewrite (proj2 (Z.ltb_lt c0 0x80)) by done. split_and!; [simpl; lia..|]. by exists s. }
  destruct (Z.ltb_spec c0 0xc2); [injection E; lia|]. destruct (Z.ltb_spec c0 0xe0).
  - destruct s as [|s1 s]; [injection E; lia|]. apply Forall_cons in Hs as [Hs1 _]. rewrite continuation in E by done.
    destruct ((0x80 <=? s1) && (s1 <? 0xc0)) eqn:Ec; [|injection E; lia]. b2p. cbn [negb] in E. rewrite decode_two in E by lia.
    injection E as <- <-. unfold utf8. rewrite (proj2 (Z.ltb_ge _ 0x80)), (proj2 (Z.ltb_lt _ 0x800)) by lia.
    split_and!; [simpl; lia..|]. exists s. cbn [app]. repeat f_equal; dlia.
  - destruct (Z.ltb_spec c0 0xf0); [|injection E; lia].
    destruct s as [|s1 [|s2 s]]; [injection E; lia|injection E; lia|]. apply Forall_cons in Hs as [Hs1 [Hs2 _]%Forall_cons].
    rewrite !continuation in E by done.
    match type of E with (if negb ?b then _ else _) = _ => destruct b eqn:Ec end; [|injection E; lia]. cbn [negb] in E.
    apply andb_true_iff in Ec as [Ec Eo]. b2p. rewrite orb_true_iff, !Z.leb_le in Eo. rewrite decode_three in E by lia.
    injection E as <- <-. unfold utf8. rewrite (proj2 (Z.ltb_ge _ 0x80)), (proj2 (Z.ltb_ge _ 0x800)) by lia.
    split_and!; [simpl; lia..|]. exists s. cbn [app]. repeat f_equal; dlia.
Qed.

Lemma lor_high x hi n : 0 <= n -> 0 <= x < 2 ^ n -> Z.lor x (hi * 2 ^ n) = hi * 2 ^ n + x.
Proof. intros Hn Hx. rewrite <- lor_disjoint by done. by rewrite Z.shiftl_mul_pow2, Z.lor_comm by done. Qed.

Lemma encode_two c : 0x80 <= c < 0x800 -> u8 (Z.lor (Z.shiftr c 6) 0xc0) = 0xc0 + c / 64.
Proof.
  intros Hc. rewrite Z.shiftr_div_pow2 by lia. change 0xc0 with (3 * 2 ^ 6) at 1. rewrite lor_high by dlia. apply u8_small. dlia.
Qed.

Lemma encode_three c : 0x800 <= c < 0x10000 ->
  u8 (Z.lor (Z.shiftr (Z.lor (Z.shiftr c 6) 0x800) 6) 0xc0) = 0xe0 + c / 4096 /\
  Z.lor (Z.shiftr c 6) 0x800 mod 2 ^ 6 = c / 64 mod 64.
Proof.
  intros Hc. rewrite !Z.shiftr_div_pow2 by lia. change 0x800 with (2 * 2 ^ 10). change 0xc0 with (3 * 2 ^ 6) at 1.
  rewrite (lor_high (c / _)) by dlia. split; [|dlia]. rewrite lor_high by dlia. rewrite u8_small by dlia. dlia.
Qed.

(** Encoding a character when there is room for it, and when there is not. *)
Lemma my_uni_utf8_utf8 c room : bmp c ->
  my_uni_utf8 c room =
    if Z.of_nat (length (utf8 c)) <=? room then (Z.of_nat (length (utf8 c)), utf8 c) else (MY_CS_TOOSMALL, []).
Proof.
  intros Hc. pose proof (utf8_length c) as Hl. unfold my_uni_utf8. destruct (Z.leb_spec room 0).
  { by rewrite (proj2 (Z.leb_gt _ _)) by lia. }
  rewrite (proj2 (Z.ltb_lt c 0x10000)) by lia. change 0x3f with (Z.ones 6). rewrite !Z.land_ones, !lor_80 by dlia.
  rewrite Z.leb_antisym. unfold utf8 in *.
  destruct (Z.ltb_spec c 0x80) as [|H1]; [|destruct (Z.ltb_spec c 0x800) as [|H2]];
    cbn [length Z.of_nat Pos.of_succ_nat Pos.succ Z.eqb Pos.eqb app]; (destruct (room <? _); cbn [negb]; [done|]).
  - by rewrite u8_small by lia.
  - by rewrite encode_two by done.
  - destruct (encode_three c) as [-> ->]; [lia|done].
Qed.

(** *** What a character set promises *)

(** [mb_wc] takes apart what [enc] puts together, never runs past the end and
    finds nothing in an empty string. *)
Class Charset (mb_wc : list Z -> Z * Z) (enc : Z -> list Z) (valid : Z -> Prop) := {
  mb_wc_enc : forall c r, valid c -> mb_wc (enc c ++ r) = (Z.of_nat (length (enc c)), c);
  enc_some : forall c, valid c -> enc c <> [];
  mb_wc_nil : (mb_wc []).1 <= 0;
  mb_wc_length : forall s, (mb_wc s).1 <= Z.of_nat (length s)
}.

#[export] Instance utf8_charset : Charset my_utf8_uni utf8 (fun c => bmp c).
Proof.
  split.
  - apply my_utf8_uni_utf8.
  - intros c _ E. pose proof (utf8_length c). rewrite E in *. simpl in *. lia.
  - done.
  - intros s. unfold my_utf8_uni, MY_CS_TOOFEW, MY_CS_ILSEQ. destruct s as [|c [|s1 [|s2 s]]]; repeat case_if; simpl; lia.
Qed.

(** The bytes of a string of characters. *)
Definition encode (enc : Z -> list Z) (cs : list Z) : list Z := concat (map enc cs).

Lemma encode_app enc cs cs' : encode enc (cs ++ cs') = encode enc cs ++ encode enc cs'.
Proof. unfold encode. by rewrite map_app, concat_app. Qed.

Section charset.
Context `{Charset mb_wc enc valid}.

Lemma encode_nil_inv cs : Forall valid cs -> encode enc cs = [] <-> cs = [].
Proof.
  intros Hv. split; [|by intros ->]. destruct Hv as [|c cs Hc Hcs]; [done|]. intros [E _]%app_nil. by destruct (enc_some c Hc).
Qed.

Lemma encode_length cs : Forall valid cs -> (length cs <= length (encode enc cs))%nat.
Proof.
  induction 1 as [|c cs Hc Hcs IH]; [done|]. cbn. rewrite length_app. fold (encode enc cs).
  pose proof (enc_some c Hc). destruct (enc c); [done|simpl; lia].
Qed.

(** Reading the next character of a string. *)
Lemma mb_wc_encode c cs : valid c ->
  mb_wc (encode enc (c :: cs)) = (Z.of_nat (length (enc c)), c) /\ 0 < Z.of_nat (length (enc c)) /\
  drop (Z.to_nat (Z.of_nat (length (enc c)))) (encode enc (c :: cs)) = encode enc cs.
Proof.
  intros Hc. cbn. fold (encode enc cs). split_and!; [by apply mb_wc_enc| |by rewrite Nat2Z.id, drop_app_length].
  pose proof (enc_some c Hc). destruct (enc c); [done|simpl; lia].
Qed.
End charset.

(** C34: the UTF-8 codec is a bijection between the characters up to U+FFFF and
    their encodings: what [my_uni_utf8] writes, [my_utf8_uni] reads back,
    whatever follows; and from the bytes of any string it accepts only what
    [my_uni_utf8] writes, with the length that [my_mbcharlen_utf8] tells from
    the first byte, so no character has a second, longer encoding. *)
Theorem utf8_roundtrip :
  (forall c room r, 0 <= c < 0x10000 -> 3 <= room ->
     exists n bs, my_uni_utf8 c room = (n, bs) /\ 0 < n /\ bytes bs /\ my_utf8_uni (bs ++ r) = (n, c)) /\
  (forall b s n c, bytes (b :: s) -> my_utf8_uni (b :: s) = (n, c) -> 0 < n ->
     0 <= c < 0x10000 /\ n = my_mbcharlen_utf8 b /\ my_uni_utf8 c n = (n, take (Z.to_nat n) (b :: s))).
Proof.
  split.
  - intros c room r Hc Hr. pose proof (utf8_length c). exists (Z.of_nat (length (utf8 c))), (utf8 c).
    rewrite my_uni_utf8_utf8, (proj2 (Z.leb_le _ _)) by lia.
    split_and!; [done|lia|by apply utf8_bytes|by apply my_utf8_uni_utf8].
  - intros b s n c Hb E Hn. destruct (my_utf8_uni_inv _ _ _ Hb E Hn) as (Hc & -> & r & Es). split; [done|].
    rewrite my_uni_utf8_utf8, Z.leb_refl, Es, Nat2Z.id, take_app_length by done. split; [|done].
    clear - Es Hc. unfold utf8, my_mbcharlen_utf8 in *. repeat case_if; injection Es as -> _; b2p; simpl; repeat case_if; b2p; dlia.
Qed.

(** ** Conversion of case in place *)

Section casing_spec.
Variable uni_plane : Z -> option (list MY_UNICASE_INFO).
Variable field : MY_UNICASE_INFO -> Z.
Let f := unicase field uni_plane.
Hypothesis f_bmp : forall c, 0 <= c < 0x10000 -> 0 <= f c < 0x10000.
Hypothesis f_shrinks : forall c, 0 <= c < 0x10000 -> (length (utf8 (f c)) <= length (utf8 c))%nat.

Lemma encode_shrinks cs : Forall (fun c => 0 <= c < 0x10000) cs ->
  (length (encode utf8 (map f cs)) <= length (encode utf8 cs))%nat.
Proof.
  induction 1 as [|c cs Hc _ IH]; [done|]. cbn. rewrite !length_app. fold (encode utf8 cs) (encode utf8 (map f cs)).
  pose proof (f_shrinks c Hc). lia.
Qed.

Lemma list_inserts_at (pre old bs post : list Z) : length old = length bs ->
  list_inserts (length pre) bs (pre ++ old ++ post) = pre ++ bs ++ post.
Proof.
  intros Hl. rewrite <- (Nat.add_0_r (length pre)) at 1. by rewrite list_inserts_app_r, list_inserts_0_r.
Qed.

(** [gap] are the bytes between the two places, already read. *)
Lemma casing_loop_spec fuel : forall pre gap cs post, Forall (fun c => 0 <= c < 0x10000) cs -> (length cs < fuel)%nat ->
  casing_loop uni_plane field fuel (pre ++ gap ++ encode utf8 cs ++ post)
    (length pre + length gap) (length pre + length gap + length (encode utf8 cs))
    (length pre) (length pre + length gap + length (encode utf8 cs)) =
  Some (pre ++ encode utf8 (map f cs) ++ drop (length (encode utf8 (map f cs))) (gap ++ encode utf8 cs) ++ post,
        length pre + length (encode utf8 (map f cs)))%nat.
Proof.
  induction fuel as [|fuel IH]; intros pre gap cs post Hcs Hf; [lia|]. cbn [casing_loop].
  destruct Hcs as [|c cs Hc Hcs].
  { rewrite (proj2 (Nat.ltb_ge _ _)) by (cbn; lia). cbn [map encode concat length app drop]. by rewrite app_nil_r, Nat.add_0_r. }
  destruct (mb_wc_encode c cs Hc) as (Hread & Hpos & _).
  assert (length (encode utf8 (c :: cs)) = length (utf8 c) + length (encode utf8 cs))%nat as Hlen by apply length_app.
  rewrite (proj2 (Nat.ltb_lt _ _)) by lia.
  replace (drop _ (pre ++ gap ++ _)) with (encode utf8 (c :: cs) ++ post)
    by (rewrite app_assoc, <- length_app, drop_app_length; done).
  replace (_ - _)%nat with (length (encode utf8 (c :: cs))) by lia. rewrite take_app_length, Hread, (proj2 (Z.ltb_lt _ _)) by done.
  pose proof (f_shrinks c Hc) as Hs. fold f. rewrite my_uni_utf8_utf8 by auto. rewrite (proj2 (Z.leb_le _ _)) by lia.
  pose proof (utf8_length (f c)). rewrite (proj2 (Z.leb_gt _ _)), !Nat2Z.id by lia.
  set (gap' := drop (length (utf8 (f c))) (gap ++ utf8 c)).
  assert (list_inserts (length pre) (utf8 (f c)) (pre ++ gap ++ encode utf8 (c :: cs) ++ post) =
          (pre ++ utf8 (f c)) ++ gap' ++ encode utf8 cs ++ post) as ->.
  { replace (gap ++ _) with (take (length (utf8 (f c))) (gap ++ utf8 c) ++ gap' ++ encode utf8 cs ++ post).
    - rewrite list_inserts_at; [by rewrite app_assoc|]. rewrite length_take, length_app. lia.
    - unfold gap'. rewrite app_assoc, take_drop. cbn. by rewrite <- !app_assoc. }
  specialize (IH (pre ++ utf8 (f c)) gap' cs post Hcs ltac:(simpl in Hf; lia)).
  rewrite !length_app in IH. 
  assert (length gap' = length gap + length (utf8 c) - length (utf8 (f c)))%nat as Hg by (unfold gap'; rewrite length_drop, length_app; lia).
  replace (length pre + length gap + length (utf8 c))%nat with (length pre + length (utf8 (f c)) + length gap')%nat by lia.
  replace (length pre + length gap + length (encode utf8 (c :: cs)))%nat with
    (length pre + length (utf8 (f c)) + length gap' + length (encode utf8 cs))%nat by lia.
  rewrite IH. cbn. fold (encode utf8 cs) (encode utf8 (map f cs)).
  rewrite !length_app, <- drop_drop, (app_assoc gap), (drop_app_le (gap ++ utf8 c)) by (rewrite length_app; lia).
  f_equal. f_equal; [by rewrite <- !app_assoc|lia].
Qed.
End casing_spec.

(** ** The tables *)

(** What the tables say of a character. *)
Definition unicase_info (c : Z) : MY_UNICASE_INFO :=
  (unicase toupper my_unicase_default c, unicase tolower my_unicase_default c, unicase sort my_unicase_default c).

(** A property of every character of the tables. *)
Definition table_all (P : Z -> MY_UNICASE_INFO -> bool) : bool :=
  forallb (fun p =>
    match my_unicase_default p with
    | Some l => (length l =? 256)%nat && forallb (fun e => P (256 * p + e.1) e.2) (zip (seqZ 0 256) l)
    | None => true
    end) [0x0; 0x1; 0x2; 0x3; 0x4; 0x5; 0x1e; 0x1f; 0x21; 0x24; 0xff].

Lemma table_all_spec P : table_all P = true ->
  (forall c, 0 <= c < 0x10000 -> (forall field, unicase field my_unicase_default c = c) -> P c (c, c, c) = true) ->
  forall c, 0 <= c < 0x10000 -> P c (unicase_info c) = true.
Proof.
  intros Ht Hid c Hc. specialize (Hid c Hc).
  assert (forall field, unicase field my_unicase_default c =
    match my_unicase_default (c / 2 ^ 8) with Some l => field (nth (Z.to_nat (c mod 2 ^ 8)) l (0, 0, 0)) | None => c end) as Hu.
  { intros field. unfold unicase. change 0xFF with (Z.ones 8).
    by rewrite !Z.land_ones, Z.shiftr_div_pow2, (Z.mod_small (c / _)) by dlia. }
  unfold unicase_info. rewrite !Hu.
  destruct (my_unicase_default (c / 2 ^ 8)) as [l|] eqn:El; [|by apply Hid].
  clear Hid Hu. assert ((length l =? 256)%nat && forallb (fun e => P (256 * (c / 2 ^ 8) + e.1) e.2) (zip (seqZ 0 256) l) = true) as Hl.
  { unfold table_all in Ht. rewrite forallb_forall in Ht. specialize (Ht (c / 2 ^ 8)). rewrite El in Ht. apply Ht.
    unfold my_unicase_default in El. clear - El. generalize dependent (c / 2 ^ 8). intros p El.
    repeat case_match; simplify_eq; simpl; tauto. }
  apply andb_true_iff in Hl as [Hlen%Nat.eqb_eq Hl]. rewrite forallb_forall in Hl.
  assert (exists i, l !! Z.to_nat (c mod 2 ^ 8) = Some i) as (i & Hi) by (apply lookup_lt_is_Some_2; dlia).
  rewrite (nth_lookup_Some _ _ _ _ Hi). destruct i as [[u d] w]. cbn [toupper tolower sort fst snd].
  specialize (Hl (c mod 2 ^ 8, (u, d, w))). cbn [fst snd] in Hl.
  replace (256 * (c / 2 ^ 8) + c mod 2 ^ 8) with c in Hl by dlia. apply Hl.
  apply list_elem_of_In, list_elem_of_lookup. exists (Z.to_nat (c mod 2 ^ 8)). apply lookup_zip_with_Some.
  exists (c mod 2 ^ 8), (u, d, w). split_and!; [done| |done]. rewrite lookup_seqZ. dlia.
Qed.

(** The conversions stay among the characters and never lengthen one. *)
Definition case_ok (c : Z) (i : MY_UNICASE_INFO) : bool :=
  let fits x := (0 <=? x) && (x <? 0x10000) && (length (utf8 x) <=? length (utf8 c))%nat in
  fits (toupper i) && fits (tolower i).

Lemma case_ok_all c : 0 <= c < 0x10000 -> case_ok c (unicase_info c) = true.
Proof.
  apply table_all_spec; [by vm_compute|]. intros c' Hc' _. unfold case_ok. cbn.
  by rewrite (proj2 (Z.leb_le _ _)), (proj2 (Z.ltb_lt _ _)), (proj2 (Nat.leb_le _ _)) by lia.
Qed.

Lemma caseup_ok c : 0 <= c < 0x10000 ->
  0 <= unicase toupper my_unicase_default c < 0x10000 /\
  (length (utf8 (unicase toupper my_unicase_default c)) <= length (utf8 c))%nat.
Proof. intros Hc%case_ok_all. unfold case_ok in Hc. b2p. split; [done|]. by apply Nat.leb_le. Qed.

Lemma casedn_ok c : 0 <= c < 0x10000 ->
  0 <= unicase tolower my_unicase_default c < 0x10000 /\
  (length (utf8 (unicase tolower my_unicase_default c)) <= length (utf8 c))%nat.
Proof. intros Hc%case_ok_all. unfold case_ok in Hc. b2p. split; [done|]. by apply Nat.leb_le. Qed.

(** The memory after a conversion in place. *)
Definition converted (f : MY_UNICASE_INFO -> Z) (cs : list Z) : list Z :=
  encode utf8 (map (unicase f my_unicase_default) cs).

Definition mem_after (f : MY_UNICASE_INFO -> Z) (pre cs post : list Z) : list Z :=
  pre ++ converted f cs ++ drop (length (converted f cs)) (encode utf8 cs) ++ post.

Lemma casing_default f pre cs post :
  (forall c, 0 <= c < 0x10000 -> 0 <= unicase f my_unicase_default c < 0x10000 /\
     (length (utf8 (unicase f my_unicase_default c)) <= length (utf8 c))%nat) ->
  Forall (fun c => 0 <= c < 0x10000) cs -> let n := length (encode utf8 cs) in
  ('(mem, d) ← casing_loop my_unicase_default f (S n) (pre ++ encode utf8 cs ++ post) (length pre) (length pre + n) (length pre) (length pre + n);
   Some (mem, (d - length pre)%nat)) = Some (mem_after f pre cs post, length (converted f cs)).
Proof.
  intros Hf Hcs n.
  assert (length cs < S n)%nat as Hn by (pose proof (encode_length cs Hcs); unfold n; lia).
  pose proof (casing_loop_spec my_unicase_default f ltac:(apply Hf) ltac:(apply Hf) (S n) pre [] cs post Hcs Hn) as H.
  cbn [length app] in H. rewrite !Nat.add_0_r in H. fold n in H. rewrite H. cbn. do 2 f_equal. unfold converted. lia.
Qed.

Lemma caseup_in_place pre cs post : Forall (fun c => 0 <= c < 0x10000) cs -> let n := length (encode utf8 cs) in
  my_caseup_utf8 my_unicase_default (pre ++ encode utf8 cs ++ post) (length pre) n (length pre) n =
    Some (mem_after toupper pre cs post, length (converted toupper cs)).
Proof. apply casing_default, caseup_ok. Qed.

Lemma casedn_in_place pre cs post : Forall (fun c => 0 <= c < 0x10000) cs -> let n := length (encode utf8 cs) in
  my_casedn_utf8 my_unicase_default (pre ++ encode utf8 cs ++ post) (length pre) n (length pre) n =
    Some (mem_after tolower pre cs post, length (converted tolower cs)).
Proof. apply casing_default, casedn_ok. Qed.

(** Converting a string to upper or lower case in its own memory is safe:
    with the tables of the server a character never becomes longer, so that no
    byte is overwritten before it is read; the converted characters come
    first, the bytes left over and those around the string are as before, and
    the length of the converted string is returned. *)
Theorem casing_in_place pre cs post : Forall (fun c => 0 <= c < 0x10000) cs ->
  let n := length (encode utf8 cs) in
  my_caseup_utf8 my_unicase_default (pre ++ encode utf8 cs ++ post) (length pre) n (length pre) n =
    Some (mem_after toupper pre cs post, length (converted toupper cs)) /\
  my_casedn_utf8 my_unicase_default (pre ++ encode utf8 cs ++ post) (length pre) n (length pre) n =
    Some (mem_after tolower pre cs post, length (converted tolower cs)).
Proof. intros Hcs n. split; [by apply caseup_in_place|by apply casedn_in_place]. Qed.

(** "xé1" between other bytes. *)
Lemma casing_in_place_witness :
  my_caseup_utf8 my_unicase_default [7; 120; 0xc3; 0xa9; 49; 0] 1 4 1 4 = Some ([7; 88; 0xc3; 0x89; 49; 0], 4%nat).
Proof.
  refine (eq_trans (proj1 (casing_in_place [7] [120; 0xe9; 49] [0] _)) _); [|by vm_compute]. repeat constructor; lia.
Defined.

(** The conversion of a string that ends with a zero byte does not put the
    zero behind the converted string when that is shorter: of the dotless i
    the second byte stays. *)
Lemma caseup_str_leaves_tail :
  my_caseup_str_utf8 my_unicase_default [0xc4; 0xb1; 0] = Some [0x49; 0xb1; 0] /\ my_utf8_uni [0xb1] = (MY_CS_ILSEQ, 0).
Proof. split; by vm_compute. Qed.
