(* ===== verification/Utf8Coll.v ===== *)
(** * The general collation of UTF-8 (strings/ctype-utf8.c)

    Comparison, sort keys, hashing and the comparison of identifiers for
    [utf8_general_ci]: characters are compared by the weights of the tables.
    The theorems are about well-formed strings, given as the characters whose
    encoding they are; the code falls back on bytes for other strings. *)

From stdpp Require Import base numbers list.
From Stdlib Require Import ZArith Lia.
From S2P Require Import Prelude Collate CtypeBin UniCase Utf8.

Local Open Scope Z_scope.

(** ** The functions *)

Definition bincmp (s t : list Z) : Z :=
  let slen := s32 (Z.of_nat (length s)) in
  let tlen := s32 (Z.of_nat (length t)) in
  let cmp := memcmp (Z.to_nat (Z.min slen tlen)) s t in
  if negb (cmp =? 0) then cmp else slen - tlen.

Fixpoint strcmp (s t : list Z) : Z :=
  match s, t with
  | [], [] => 0
  | x :: _, [] => x
  | [], y :: _ => - y
  | x :: s, y :: t => if x =? y then strcmp s t else x - y
  end.

Section collation.
Variable uni_plane : Z -> option (list MY_UNICASE_INFO).

(** The loop of the two comparisons: the value returned in it, or the rests of
    the strings when one of them is at its end. *)
Fixpoint coll_loop (fuel : nat) (s t : list Z) : option (Z + list Z * list Z) :=
  match fuel with
  | O => None
  | S fuel =>
      if bool_decide (s <> []) && bool_decide (t <> []) then
        let '(s_res, s_wc) := my_utf8_uni s in
        let '(t_res, t_wc) := my_utf8_uni t in
        if (s_res <=? 0) || (t_res <=? 0) then Some (inl (bincmp s t))
        else
          let s_wc := unicase sort uni_plane s_wc in
          let t_wc := unicase sort uni_plane t_wc in
          if negb (s_wc =? t_wc) then Some (inl (if t_wc <? s_wc then 1 else -1))
          else coll_loop fuel (drop (Z.to_nat s_res) s) (drop (Z.to_nat t_res) t)
      else Some (inr (s, t))
  end.

Definition my_strnncoll_utf8 (s t : list Z) (t_is_prefix : bool) : option Z :=
  out ← coll_loop (S (length s)) s t;
  match out with
  | inl r => Some r
  | inr (s, t) =>
      Some (s32 (if t_is_prefix then - Z.of_nat (length t) else Z.of_nat (length s) - Z.of_nat (length t)))
  end.

(** [diff_if_only_endspace_difference] is overwritten with 0. *)
Definition my_strnncollsp_utf8 (s t : list Z) : option Z :=
  out ← coll_loop (S (length s)) s t;
  match out with
  | inl r => Some r
  | inr (s, t) =>
      let slen := u32 (Z.of_nat (length s)) in
      let tlen := u32 (Z.of_nat (length t)) in
      if negb (slen =? tlen) then Some (if slen <? tlen then endspace (-1) 0 t else endspace 1 0 s) else Some 0
  end.

Definition hash_step (nr : Z * Z) (x : Z) : Z * Z :=
  (Z.lxor nr.1 (u64 ((Z.land nr.1 63 + nr.2) * x + Z.shiftl nr.1 8)), u64 (nr.2 + 3)).

Definition hash_char (nr : Z * Z) (wc : Z) : Z * Z :=
  hash_step (hash_step nr (Z.land wc 0xFF)) (Z.shiftr wc 8).

Fixpoint hash_loop (fuel : nat) (s : list Z) (nr : Z * Z) : option (Z * Z) :=
  match fuel with
  | O => None
  | S fuel =>
      if bool_decide (s <> []) then
        let '(res, wc) := my_utf8_uni s in
        if 0 <? res then hash_loop fuel (drop (Z.to_nat res) s) (hash_char nr (unicase sort uni_plane wc)) else Some nr
      else Some nr
  end.

Definition my_hash_sort_utf8 (s : list Z) (nr : Z * Z) : option (Z * Z) :=
  let s := remove_end_space s in hash_loop (S (length s)) s nr.

Definition my_strnxfrmlen_utf8 (len : Z) : Z := u32 (len * 2 + 2) / 3.

(** The bytes written into the [room] bytes left: spaces, and a zero byte when
    the room is odd. *)
Fixpoint xfrm_fill (room : nat) : list Z :=
  match room with
  | S (S room) => 0x00 :: 0x20 :: xfrm_fill room
  | S O => [0x00]
  | O => []
  end.

Fixpoint xfrm_loop (room : nat) (src : list Z) : list Z :=
  match room with
  | S (S room') =>
      let '(res, wc) := my_utf8_uni src in
      if res <=? 0 then xfrm_fill room
      else
        let wc := unicase sort uni_plane wc in
        u8 (Z.shiftr wc 8) :: u8 (Z.land wc 0xFF) :: xfrm_loop room' (drop (Z.to_nat res) src)
  | _ => xfrm_fill room
  end.

(** The [dstlen] bytes of the key. *)
Definition my_strnxfrm_utf8 (dstlen : nat) (src : list Z) : list Z := xfrm_loop dstlen src.

(** The strings [s] and [t] end with a zero byte, which is not in the lists;
    [past] are the two bytes of memory behind it. *)
Definition strcase_char (past : Z * Z) (s : list Z) : option (Z * list Z) :=
  match s with
  | [] => None
  | c :: s' =>
      if c <? 128 then Some (tolower (nth (Z.to_nat c) plane00 (0, 0, 0)), s')
      else
        let '(res, wc) := my_utf8_uni (take 3 (s ++ [0; past.1; past.2])) in
        if res <=? 0 then None else Some (unicase tolower uni_plane wc, drop (Z.to_nat res) s)
  end.

Fixpoint strcasecmp_loop (past_s past_t : Z * Z) (fuel : nat) (s t : list Z) : option Z :=
  match fuel with
  | O => None
  | S fuel =>
      if bool_decide (s <> []) && bool_decide (t <> []) then
        match strcase_char past_s s with
        | None => Some (strcmp s t)
        | Some (s_wc, s) =>
            match strcase_char past_t t with
            | None => Some (strcmp s t)
            | Some (t_wc, t) =>
                if negb (s_wc =? t_wc) then Some (s32 s_wc - s32 t_wc) else strcasecmp_loop past_s past_t fuel s t
            end
        end
      else Some (default 0 (head s) - default 0 (head t))
  end.

Definition my_strcasecmp_utf8 (past_s past_t : Z * Z) (s t : list Z) : option Z :=
  strcasecmp_loop past_s past_t (S (length s)) s t.
End collation.

(** ** Order of the weights *)

Abbreviation chars cs := (Forall (fun c => 0 <= c < 0x10000) cs) (only parsing).

Section order.
Variable uni_plane : Z -> option (list MY_UNICASE_INFO).
Let w := unicase sort uni_plane.

(** Behind a part with equal weights, the first characters that differ decide,
    or one of the strings is at its end. *)
Definition coll_outcome (cs ct : list Z) (out : Z + list Z * list Z) : Prop :=
  exists p cs' ct', map w cs = p ++ map w cs' /\ map w ct = p ++ map w ct' /\ chars cs' /\ chars ct' /\
    (length (encode utf8 cs') <= length (encode utf8 cs))%nat /\ (length (encode utf8 ct') <= length (encode utf8 ct))%nat /\
    match out with
    | inl r => exists c d cs2 ct2, cs' = c :: cs2 /\ ct' = d :: ct2 /\ w c <> w d /\ sign r = (w c ?= w d)
    | inr (s, t) => s = encode utf8 cs' /\ t = encode utf8 ct' /\ (cs' = [] \/ ct' = [])
    end.

Lemma coll_outcome_cons c d cs ct out : w c = w d -> coll_outcome cs ct out -> coll_outcome (c :: cs) (d :: ct) out.
Proof.
  intros E (p & cs' & ct' & Hs & Ht & ? & ? & ? & ? & Hout). exists (w c :: p), cs', ct'. cbn. rewrite !length_app.
  split_and!; try done; [by rewrite Hs|by rewrite E, Ht|unfold encode in *; lia..].
Qed.

Lemma coll_loop_spec fuel : forall cs ct, chars cs -> chars ct -> (length cs < fuel)%nat ->
  exists out, coll_loop uni_plane fuel (encode utf8 cs) (encode utf8 ct) = Some out /\ coll_outcome cs ct out.
Proof.
  induction fuel as [|fuel IH]; intros cs ct Hcs Hct Hf; [lia|]. cbn [coll_loop].
  destruct Hcs as [|c cs Hc Hcs]; [eexists; split; [done|]; exists [], [], ct; split_and!; auto|].
  destruct Hct as [|d ct Hd Hct].
  { rewrite andb_false_r. eexists; split; [done|]. exists [], (c :: cs), []. split_and!; auto. }
  destruct (mb_wc_encode c cs Hc) as (Ec & Hpc & Ec'). destruct (mb_wc_encode d ct Hd) as (Ed & Hpd & Ed').
  rewrite !bool_decide_eq_true_2 by (rewrite encode_nil_inv; [done|by constructor]). cbn [andb]. rewrite Ec, Ed.
  rewrite !(proj2 (Z.leb_gt _ _)) by done. cbn [orb]. fold (w c) (w d). destruct (Z.eqb_spec (w c) (w d)) as [E|E]; cbn [negb].
  - rewrite Ec', Ed'. destruct (IH cs ct Hcs Hct) as (out & Hout & Hspec); [simpl in Hf; lia|]. exists out. split; [done|].
    by apply coll_outcome_cons.
  - eexists; split; [done|]. exists [], (c :: cs), (d :: ct). split_and!; auto. exists c, d, cs, ct. split_and!; try done.
    unfold sign. destruct (Z.ltb_spec (w d) (w c)); symmetry; [by apply Z.compare_gt_iff|apply Z.compare_lt_iff; lia].
Qed.

(** A character and its weight are on the same side of the space. *)
Hypothesis w_space : forall c, 0 <= c < 0x10000 -> (w c ?= 32) = (c ?= 32).

Lemma utf8_head c : 0 <= c < 0x10000 -> exists b r, utf8 c = b :: r /\ (b ?= 32) = (c ?= 32) /\ (c = 32 -> r = []).
Proof.
  intros Hc. unfold utf8. repeat case_if; b2p; eexists _, _; (split; [done|]); [done|..];
    (split; [|lia]); rewrite (proj2 (Z.compare_gt_iff c 32)), (proj2 (Z.compare_gt_iff _ 32)) by dlia; done.
Qed.

(** The first byte that is not a space decides as the first character. *)
Lemma endspace_weights swap cs : forall n, (swap = 1 \/ swap = -1) -> chars cs -> (length cs <= n)%nat ->
  sign (endspace swap 0 (encode utf8 cs)) = if swap =? 1 then padded_cmp n (map w cs) [] else padded_cmp n [] (map w cs).
Proof.
  intros n Hs Hcs. revert n. induction Hcs as [|c cs Hc Hcs IH]; intros n Hn.
  { apply (endspace_spec swap [] n Hs). simpl. lia. }
  destruct n as [|n]; [simpl in Hn; lia|]. cbn [encode map concat padded_cmp head default from_option id tail].
  fold (encode utf8 cs). destruct (utf8_head c Hc) as (b & r & -> & Hb & Hr).
  rewrite w_space by done. rewrite (Z.compare_antisym (w c)), w_space by done. rewrite <- Hb.
  cbn [app endspace]. destruct (Z.eqb_spec b 32) as [->|Hne]; cbn [negb].
  - symmetry in Hb. apply Z.compare_eq in Hb. rewrite Hr by done. cbn [app Z.compare Pos.compare Pos.compare_cont CompOpp].
    apply IH. simpl in Hn. lia.
  - destruct (Z.ltb_spec b 32); [rewrite (proj2 (Z.compare_lt_iff b 32)) by lia|rewrite (proj2 (Z.compare_gt_iff b 32)) by lia];
      destruct Hs as [-> | ->]; done.
Qed.

Lemma strnncollsp_spec cs ct n : chars cs -> chars ct ->
  Z.of_nat (length (encode utf8 cs)) < 2 ^ 32 -> Z.of_nat (length (encode utf8 ct)) < 2 ^ 32 ->
  (length cs <= n)%nat -> (length ct <= n)%nat ->
  exists r, my_strnncollsp_utf8 uni_plane (encode utf8 cs) (encode utf8 ct) = Some r /\
    sign r = padded_cmp n (map w cs) (map w ct).
Proof.
  intros Hcs Hct Hls Hlt Hn Hn2. unfold my_strnncollsp_utf8.
  destruct (coll_loop_spec (S (length (encode utf8 cs))) cs ct Hcs Hct) as (out & -> & p & cs' & ct' & Es & Et & Hcs' & Hct' & Hl & Hl' & Hout).
  { pose proof (encode_length cs Hcs). lia. }
  assert (length cs = length p + length cs' /\ length ct = length p + length ct')%nat as [Hp Hp'].
  { by rewrite <- (length_map w cs), <- (length_map w ct), Es, Et, !length_app, !length_map. }
  rewrite Es, Et. replace n with (length p + (n - length p))%nat by lia. rewrite padded_app.
  destruct out as [r|[s t]]; cbn [mbind option_bind].
  - destruct Hout as (c & d & cs2 & ct2 & -> & -> & Hw & Hr). exists r. split; [done|]. rewrite Hr.
    destruct (n - length p)%nat eqn:En; [simpl in *; lia|]. cbn.
    destruct (w c ?= w d) eqn:Ew; [by apply Z.compare_eq_iff in Ew|done..].
  - destruct Hout as (-> & -> & Hend). rewrite !u32_small by lia.
    pose proof (encode_length cs' Hcs'). pose proof (encode_length ct' Hct').
    destruct (Z.eqb_spec (Z.of_nat (length (encode utf8 cs'))) (Z.of_nat (length (encode utf8 ct')))) as [E|E]; cbn [negb].
    + exists 0. split; [done|]. assert (cs' = [] /\ ct' = []) as [-> ->].
      { destruct Hend as [-> | ->]; simpl in E; (split; [|done]) || (split; [done|]); apply encode_nil_inv, nil_length_inv; lia || done. }
      clear. generalize (n - length p)%nat. intros k. induction k as [|k IH]; [done|exact IH].
    + destruct Hend as [-> | ->]; (eexists; split; [done|]).
      * rewrite (proj2 (Z.ltb_lt _ _)) by (simpl in *; lia). by rewrite (endspace_weights (-1) ct' (n - length p)) by (auto; lia).
      * rewrite (proj2 (Z.ltb_ge _ _)) by (simpl in *; lia). by rewrite (endspace_weights 1 cs' (n - length p)) by (auto; lia).
Qed.

(** *** Sort keys *)

Hypothesis w_fits : forall c, 0 <= c < 0x10000 -> 0 <= w c < 0x10000.

Lemma chars_tail cs : chars cs -> chars (tail cs).
Proof. by destruct 1. Qed.

(** The key of the first character, or of a space behind the last. *)
Lemma xfrm_step room cs : chars cs ->
  let h := default 32 (head (map w cs)) in
  xfrm_loop uni_plane (S (S room)) (encode utf8 cs) = h / 256 :: h mod 256 :: xfrm_loop uni_plane room (encode utf8 (tail cs)) /\
  0 <= h < 0x10000.
Proof.
  intros Hcs. destruct Hcs as [|c cs Hc Hcs]; cbn [map head default from_option tail].
  - cbn. split; [|lia]. do 2 f_equal. destruct room as [|[|room]]; done.
  - pose proof (w_fits c Hc). split; [|done]. cbn [xfrm_loop]. destruct (mb_wc_encode c cs Hc) as (-> & Hpos & ->).
    rewrite (proj2 (Z.leb_gt _ _)) by done. fold (w c). change 0xFF with (Z.ones 8).
    rewrite Z.shiftr_div_pow2, Z.land_ones, !u8_small by dlia. done.
Qed.

Lemma strnxfrm_spec room : forall cs ct, chars cs -> chars ct ->
  sign (memcmp room (my_strnxfrm_utf8 uni_plane room (encode utf8 cs)) (my_strnxfrm_utf8 uni_plane room (encode utf8 ct))) =
  padded_cmp (Nat.div2 room) (map w cs) (map w ct).
Proof.
  unfold my_strnxfrm_utf8. induction room as [room IH] using lt_wf_ind. intros cs ct Hcs Hct.
  destruct room as [|[|room]]; [done|done|]. destruct (xfrm_step room cs Hcs) as [-> Hh]. destruct (xfrm_step room ct Hct) as [-> Hk].
  cbn [memcmp Nat.div2 padded_cmp]. set (h := default 32 (head (map w cs))) in *. set (k := default 32 (head (map w ct))) in *.
  destruct (Z.compare_spec h k) as [->|Hlt|Hgt].
  - rewrite !Z.eqb_refl, IH by (lia || by apply chars_tail). f_equal; [by destruct cs|by destruct ct].
  - destruct (Z.eqb_spec (h / 256) (k / 256)); [rewrite (proj2 (Z.eqb_neq (h mod 256) _)) by dlia|]; apply Z.compare_lt_iff; dlia.
  - destruct (Z.eqb_spec (h / 256) (k / 256)); [rewrite (proj2 (Z.eqb_neq (h mod 256) _)) by dlia|]; apply Z.compare_gt_iff; dlia.
Qed.

(** *** Hashing *)

Lemma trim_utf8 c : 0 <= c < 0x10000 -> trim (utf8 c) = if c =? 32 then [] else utf8 c.
Proof.
  intros Hc. unfold utf8. destruct (Z.ltb_spec c 0x80); [done|]. rewrite (proj2 (Z.eqb_neq c 32)) by lia.
  case_if; cbn [trim]; by rewrite (proj2 (Z.eqb_neq (0x80 + c mod 64) 32)) by dlia.
Qed.

Lemma trim_encode cs : chars cs -> trim (encode utf8 cs) = encode utf8 (trim cs) /\ chars (trim cs).
Proof.
  induction 1 as [|c cs Hc Hcs [IH IHv]]; [by repeat constructor|]. cbn [encode map concat trim]. fold (encode utf8 cs).
  rewrite trim_app, IH, trim_utf8 by done. destruct (trim cs) as [|d ds].
  - cbn. destruct (c =? 32); cbn; rewrite ?app_nil_r; auto.
  - case_decide as E; [|auto]. by apply (encode_nil_inv (d :: ds) IHv) in E.
Qed.

Lemma w_space_eq c : 0 <= c < 0x10000 -> (w c =? 32) = (c =? 32).
Proof. intros Hc. by rewrite !Z.eqb_compare, w_space. Qed.

Lemma trim_weights cs : chars cs -> map w (trim cs) = trim (map w cs).
Proof. intros Hcs. apply trim_map. eapply Forall_impl; [exact Hcs|]. apply w_space_eq. Qed.

Lemma hash_loop_spec fuel : forall cs nr, chars cs -> (length cs < fuel)%nat ->
  hash_loop uni_plane fuel (encode utf8 cs) nr = Some (foldl hash_char nr (map w cs)).
Proof.
  induction fuel as [|fuel IH]; intros cs nr Hcs Hf; [lia|]. cbn [hash_loop]. destruct Hcs as [|c cs Hc Hcs]; [done|].
  destruct (mb_wc_encode c cs Hc) as (-> & Hpos & ->).
  rewrite bool_decide_eq_true_2 by (rewrite encode_nil_inv; [done|by constructor]).
  rewrite (proj2 (Z.ltb_lt _ _)), IH by (done || (simpl in Hf; lia)). done.
Qed.

Lemma hash_sort_spec cs nr : chars cs ->
  my_hash_sort_utf8 uni_plane (encode utf8 cs) nr = Some (foldl hash_char nr (trim (map w cs))).
Proof.
  intros Hcs. unfold my_hash_sort_utf8. rewrite remove_end_space_trim. destruct (trim_encode cs Hcs) as [-> Ht].
  rewrite hash_loop_spec, trim_weights by (done || (pose proof (encode_length _ Ht); lia)). done.
Qed.
End order.

(** *** The weights of the tables *)

Definition general_ci : Z -> Z := unicase sort my_unicase_default.

Definition weight_ok (c : Z) (i : MY_UNICASE_INFO) : bool :=
  (0 <=? sort i) && (sort i <? 0x10000) && Bool.eqb (sort i <? 32) (c <? 32) && Bool.eqb (sort i =? 32) (c =? 32) &&
  (general_ci (toupper i) =? sort i) && (general_ci (sort i) =? sort i).

Lemma weight_ok_all c : 0 <= c < 0x10000 -> weight_ok c (unicase_info c) = true.
Proof.
  apply table_all_spec; [by vm_compute|]. intros c' Hc' Hid. unfold weight_ok, general_ci. cbn [toupper sort fst snd].
  rewrite !Hid, !eqb_reflx, Z.eqb_refl, (proj2 (Z.leb_le _ _)), (proj2 (Z.ltb_lt _ _)) by lia. done.
Qed.

Lemma general_ci_fits c : 0 <= c < 0x10000 -> 0 <= general_ci c < 0x10000.
Proof. intros Hc%weight_ok_all. unfold weight_ok in Hc. b2p. done. Qed.

Lemma general_ci_space c : 0 <= c < 0x10000 -> (general_ci c ?= 32) = (c ?= 32).
Proof.
  intros Hc%weight_ok_all. unfold weight_ok in Hc. b2p. repeat match goal with H : Bool.eqb _ _ = true |- _ => apply eqb_prop in H end.
  fold (general_ci c) in *. cbn [sort unicase_info snd] in *. fold (general_ci c) in *.
  destruct (Z.compare_spec (general_ci c) 32), (Z.compare_spec c 32); try done; exfalso; lia.
Qed.

Lemma general_ci_upper c : 0 <= c < 0x10000 -> general_ci (unicase toupper my_unicase_default c) = general_ci c.
Proof. intros Hc%weight_ok_all. unfold weight_ok in Hc. b2p. done. Qed.

Lemma general_ci_idem c : 0 <= c < 0x10000 -> general_ci (general_ci c) = general_ci c.
Proof. intros Hc%weight_ok_all. unfold weight_ok in Hc. b2p. done. Qed.

(** ** The results *)

Lemma prefix_app (p a b : list Z) : (exists k, p ++ a = (p ++ b) ++ k) <-> exists k, a = b ++ k.
Proof. split; intros (k & E); exists k; rewrite <- app_assoc in *; [by apply app_inv_head in E|by rewrite E]. Qed.

(** The general collation of UTF-8 orders well-formed strings
    lexicographically by the weights of their characters, whatever the lengths
    of their encodings; with [t_is_prefix] it tells whether the second string
    is a prefix of the first, character by character. *)
Theorem strnncoll_utf8_order cs ct :
  Forall (fun c => 0 <= c < 0x10000) cs -> Forall (fun c => 0 <= c < 0x10000) ct ->
  Z.of_nat (length (encode utf8 cs)) < 2 ^ 31 -> Z.of_nat (length (encode utf8 ct)) < 2 ^ 31 ->
  (exists r, my_strnncoll_utf8 my_unicase_default (encode utf8 cs) (encode utf8 ct) false = Some r /\
     sign r = lex (map general_ci cs) (map general_ci ct)) /\
  (exists r, my_strnncoll_utf8 my_unicase_default (encode utf8 cs) (encode utf8 ct) true = Some r /\
     (r = 0 <-> exists k, map general_ci cs = map general_ci ct ++ k)).
Proof.
  intros Hcs Hct Hls Hlt. unfold my_strnncoll_utf8.
  destruct (coll_loop_spec my_unicase_default (S (length (encode utf8 cs))) cs ct Hcs Hct)
    as (out & -> & p & cs' & ct' & Es & Et & Hcs' & Hct' & Hl & Hl' & Hout).
  { pose proof (encode_length cs Hcs). lia. }
  fold general_ci in *. rewrite Es, Et, lex_app. destruct out as [r|[s t]]; cbn [mbind option_bind].
  - destruct Hout as (c & d & cs2 & ct2 & -> & -> & Hw & Hr). split; exists r; (split; [done|]); [|rewrite prefix_app].
    + rewrite Hr. cbn. destruct (general_ci c ?= general_ci d) eqn:Ew; [by apply Z.compare_eq_iff in Ew|done..].
    + cbn. split; [|by intros (k & [= ? ?])]. intros ->. symmetry in Hr. by apply Z.compare_eq in Hr.
  - destruct Hout as (-> & -> & Hend). pose proof (encode_length cs' Hcs'). pose proof (encode_length ct' Hct').
    split; eexists; (split; [done|]); rewrite s32_small by lia; [|rewrite prefix_app].
    + destruct Hend as [-> | ->]; cbn [map]; [destruct ct' as [|d ct']|destruct cs' as [|c cs']]; try done;
        change (encode utf8 []) with (@nil Z) in *; cbn [length] in *; [apply Z.compare_lt_iff|apply Z.compare_gt_iff]; lia.
    + destruct Hend as [-> | ->]; cbn [map]; [destruct ct' as [|d ct']|]; cbn [map app].
      * split; [by exists []|done].
      * cbn [length] in *. split; [lia|by intros (k & ?)].
      * split; [eauto|done].
Qed.

(** "Éa" and "ea". *)
Lemma strnncoll_utf8_order_witness :
  lex (map general_ci [0xc9; 97]) (map general_ci [101; 97]) = Eq /\
  exists r, my_strnncoll_utf8 my_unicase_default (encode utf8 [0xc9; 97]) (encode utf8 [101; 97]) false = Some r /\
    sign r = lex (map general_ci [0xc9; 97]) (map general_ci [101; 97]).
Proof. split; [by vm_compute|]. apply (strnncoll_utf8_order [0xc9; 97] [101; 97]); by repeat constructor || vm_compute. Defined.

(** The comparison of columns in the general collation of UTF-8 is the
    order of the weights of the two strings, the shorter one extended with
    spaces: that the rest of the longer one is compared byte by byte with the
    space does not matter. *)
Theorem strnncollsp_utf8_pads cs ct n :
  Forall (fun c => 0 <= c < 0x10000) cs -> Forall (fun c => 0 <= c < 0x10000) ct ->
  Z.of_nat (length (encode utf8 cs)) < 2 ^ 32 -> Z.of_nat (length (encode utf8 ct)) < 2 ^ 32 ->
  (length cs <= n)%nat -> (length ct <= n)%nat ->
  exists r, my_strnncollsp_utf8 my_unicase_default (encode utf8 cs) (encode utf8 ct) = Some r /\
    sign r = padded_cmp n (map general_ci cs) (map general_ci ct).
Proof. apply strnncollsp_spec, general_ci_space. Qed.

(** "ab" and "AB  ". *)
Lemma strnncollsp_utf8_pads_witness :
  padded_cmp 4 (map general_ci [97; 98]) (map general_ci [65; 66; 32; 32]) = Eq /\
  exists r, my_strnncollsp_utf8 my_unicase_default (encode utf8 [97; 98]) (encode utf8 [65; 66; 32; 32]) = Some r /\
    sign r = padded_cmp 4 (map general_ci [97; 98]) (map general_ci [65; 66; 32; 32]).
Proof.
  split; [by vm_compute|]. apply (strnncollsp_utf8_pads [97; 98] [65; 66; 32; 32] 4); try (simpl; lia); by repeat constructor || vm_compute.
Defined.

(** C24: sort keys are right: the keys that [my_strnxfrm_utf8] makes with the
    length for columns of [n] characters compare byte by byte as the strings
    do, so sorting by keys is sorting by the collation. *)
Theorem strnxfrm_utf8_order cs ct n dstlen :
  Forall (fun c => 0 <= c < 0x10000) cs -> Forall (fun c => 0 <= c < 0x10000) ct ->
  (length cs <= n)%nat -> (length ct <= n)%nat -> Z.of_nat n < 2 ^ 29 ->
  my_strnxfrmlen_utf8 (3 * Z.of_nat n) <= Z.of_nat dstlen ->
  exists r, my_strnncollsp_utf8 my_unicase_default (encode utf8 cs) (encode utf8 ct) = Some r /\
    sign (memcmp dstlen (my_strnxfrm_utf8 my_unicase_default dstlen (encode utf8 cs))
                        (my_strnxfrm_utf8 my_unicase_default dstlen (encode utf8 ct))) = sign r.
Proof.
  intros Hcs Hct Hn Hn2 Hb Hd. unfold my_strnxfrmlen_utf8 in Hd. rewrite u32_small in Hd by lia.
  assert (forall cs, length (encode utf8 cs) <= 3 * length cs)%nat as Hlen.
  { clear. induction cs as [|c cs IH]; [done|]. cbn. rewrite length_app. fold (encode utf8 cs). pose proof (utf8_length c). lia. }
  pose proof (Hlen cs). pose proof (Hlen ct).
  assert (n <= Nat.div2 dstlen)%nat as Hdiv.
  { rewrite Nat.div2_div. apply Nat.div_le_lower_bound; [lia|]. zify. dlia. }
  destruct (strnncollsp_spec my_unicase_default general_ci_space cs ct (Nat.div2 dstlen) Hcs Hct) as (r & Hr & Hsign); [lia..|].
  exists r. split; [done|]. rewrite Hsign. by apply strnxfrm_spec; [apply general_ci_fits|..].
Qed.

(** "ab" and "AÇ" in a column of 4 characters. *)
Lemma strnxfrm_utf8_order_witness :
  my_strnxfrm_utf8 my_unicase_default 8 (encode utf8 [65; 0xc7]) = [0; 65; 0; 67; 0; 32; 0; 32] /\
  exists r, my_strnncollsp_utf8 my_unicase_default (encode utf8 [97; 98]) (encode utf8 [65; 0xc7]) = Some r /\
    sign (memcmp 8 (my_strnxfrm_utf8 my_unicase_default 8 (encode utf8 [97; 98]))
                   (my_strnxfrm_utf8 my_unicase_default 8 (encode utf8 [65; 0xc7]))) = sign r.
Proof.
  split; [by vm_compute|]. apply (strnxfrm_utf8_order [97; 98] [65; 0xc7] 4 8); try (simpl; lia); by repeat constructor || vm_compute.
Defined.

(** Strings that compare equal hash alike, as a hash index needs it: case,
    accents and spaces at the end make no difference to [my_hash_sort_utf8]
    where they make none to [my_strnncollsp_utf8]. *)
Theorem hash_sort_utf8_equal cs ct nr :
  Forall (fun c => 0 <= c < 0x10000) cs -> Forall (fun c => 0 <= c < 0x10000) ct ->
  Z.of_nat (length (encode utf8 cs)) < 2 ^ 32 -> Z.of_nat (length (encode utf8 ct)) < 2 ^ 32 ->
  my_strnncollsp_utf8 my_unicase_default (encode utf8 cs) (encode utf8 ct) = Some 0 ->
  exists h, my_hash_sort_utf8 my_unicase_default (encode utf8 cs) nr = Some h /\
            my_hash_sort_utf8 my_unicase_default (encode utf8 ct) nr = Some h.
Proof.
  intros Hcs Hct Hls Hlt E. set (n := max (length cs) (length ct)).
  destruct (strnncollsp_spec my_unicase_default general_ci_space cs ct n Hcs Hct Hls Hlt) as (r & Hr & Hsign); [lia..|].
  rewrite Hr in E. injection E as ->. eexists. rewrite !(hash_sort_spec my_unicase_default general_ci_space) by done.
  split; [done|]. do 2 f_equal. symmetry in Hsign |- *. eapply padded_eq_trim, Hsign; rewrite length_map; lia.
Qed.

(** "é" and "E ". *)
Lemma hash_sort_utf8_equal_witness :
  exists h, my_hash_sort_utf8 my_unicase_default (encode utf8 [0xe9]) (1, 4) = Some h /\
            my_hash_sort_utf8 my_unicase_default (encode utf8 [69; 32]) (1, 4) = Some h.
Proof. apply (hash_sort_utf8_equal [0xe9] [69; 32] (1, 4)); by repeat constructor || vm_compute. Defined.


(** The upper case of a string compares equal to it in the general
    collation of UTF-8. *)
Theorem caseup_compares_equal cs :
  Forall (fun c => 0 <= c < 0x10000) cs -> Z.of_nat (length (encode utf8 cs)) < 2 ^ 32 ->
  let n := length (encode utf8 cs) in
  exists mem len, my_caseup_utf8 my_unicase_default (encode utf8 cs) 0 n 0 n = Some (mem, len) /\
    my_strnncollsp_utf8 my_unicase_default (take len mem) (encode utf8 cs) = Some 0.
Proof.
  intros Hcs Hl n. pose proof (caseup_in_place [] cs [] Hcs) as Hup. cbn [app length] in Hup. rewrite app_nil_r in Hup.
  eexists _, _. split; [exact Hup|]. unfold mem_after. cbn [app]. rewrite take_app_length.
  assert (chars (map (unicase toupper my_unicase_default) cs)) as Hcs'.
  { apply Forall_map. eapply Forall_impl; [exact Hcs|]. apply caseup_ok. }
  destruct (strnncollsp_spec my_unicase_default general_ci_space (map (unicase toupper my_unicase_default) cs) cs (length cs) Hcs' Hcs)
    as (r & Hr & Hsign); [|done|by rewrite length_map|done|].
  { pose proof (encode_shrinks my_unicase_default toupper ltac:(apply caseup_ok) cs Hcs). lia. }
  unfold converted. rewrite Hr. f_equal. apply Z.compare_eq_iff. fold (sign r). rewrite Hsign, map_map. clear - Hcs.
  induction Hcs as [|c cs Hc Hcs IH]; [done|]. cbn [map length padded_cmp head default from_option id tail].
  change (unicase sort my_unicase_default) with general_ci in *. by rewrite general_ci_upper, Z.compare_refl by done.
Qed.

(** "ßé" *)
Lemma caseup_compares_equal_witness :
  exists mem len, my_caseup_utf8 my_unicase_default (encode utf8 [0xdf; 0xe9]) 0 4 0 4 = Some (mem, len) /\
    my_strnncollsp_utf8 my_unicase_default (take len mem) (encode utf8 [0xdf; 0xe9]) = Some 0.
Proof. apply (caseup_compares_equal [0xdf; 0xe9]); by repeat constructor || vm_compute. Defined.

(** The lower case of the Kelvin sign (U+212A) does not compare equal to it. *)
Lemma casedn_compares_different :
  my_casedn_utf8 my_unicase_default (utf8 0x212a) 0 3 0 3 = Some (0x6b :: drop 1 (utf8 0x212a), 1%nat) /\
  my_strnncollsp_utf8 my_unicase_default [0x6b] (utf8 0x212a) = Some (-1).
Proof. split; by vm_compute. Qed.

(** ** Identifiers *)

(** The lower case of the single bytes is that of the tables. *)
Lemma strcase_char_utf8 past c cs : 0 < c < 0x10000 ->
  strcase_char my_unicase_default past (encode utf8 (c :: cs)) = Some (unicase tolower my_unicase_default c, encode utf8 cs).
Proof.
  intros Hc. assert (0 <= c < 0x10000) as Hc' by lia. destruct (mb_wc_encode c cs Hc') as (_ & Hpos & Hdrop).
  destruct (Z.ltb_spec c 128) as [Hlt|Hge].
  - assert (encode utf8 (c :: cs) = c :: encode utf8 cs) as -> by (cbn; unfold utf8; by rewrite (proj2 (Z.ltb_lt c 0x80))).
    cbn [strcase_char]. rewrite (proj2 (Z.ltb_lt c 128)) by done. do 2 f_equal. unfold unicase.
    change 0xFF with (Z.ones 8). rewrite Z.shiftr_div_pow2, !Z.land_ones by lia. rewrite (Z.div_small c), (Z.mod_small c) by lia. done.
  - destruct (encode utf8 (c :: cs)) as [|b s] eqn:Es.
    { cbn in Es. apply app_nil in Es as [Es _]. rewrite Es in Hpos. done. }
    assert (128 <= b) as Hb. 
    { unfold encode, map, concat, utf8 in Es. destruct (Z.ltb_spec c 0x80); [lia|].
      destruct (Z.ltb_spec c 0x800); injection Es as <- _; dlia. }
    unfold strcase_char. rewrite (proj2 (Z.ltb_ge b 128)) by lia. rewrite <- Es in *. pose proof (utf8_length c).
    assert (exists r, take 3 (encode utf8 (c :: cs) ++ [0; past.1; past.2]) = utf8 c ++ r) as (r & ->).
    { cbn. rewrite <- app_assoc, take_app_ge by lia. eauto. }
    rewrite my_utf8_uni_utf8, (proj2 (Z.leb_gt _ _)), Hdrop by lia. done.
Qed.

Lemma strcasecmp_loop_spec ps pt fuel : forall cs ct,
  Forall (fun c => 0 < c < 0x10000) cs -> Forall (fun c => 0 < c < 0x10000) ct -> (length cs < fuel)%nat ->
  exists r, strcasecmp_loop my_unicase_default ps pt fuel (encode utf8 cs) (encode utf8 ct) = Some r /\
    sign r = lex (map (unicase tolower my_unicase_default) cs) (map (unicase tolower my_unicase_default) ct).
Proof.
  assert (forall cs, Forall (fun c => 0 < c < 0x10000) cs -> chars cs) as Hv
    by (intros cs Hcs; eapply Forall_impl; [exact Hcs|]; intros; simpl in *; lia).
  assert (forall c cs, 0 < c < 0x10000 -> 0 < default 0 (head (encode utf8 (c :: cs)))) as Hh.
  { intros c cs Hc. cbn. unfold utf8. repeat case_if; cbn; dlia. }
  induction fuel as [|fuel IH]; intros cs ct Hcs Hct Hf; [lia|]. cbn [strcasecmp_loop].
  destruct Hcs as [|c cs Hc Hcs].
  { cbn [encode map concat]. eexists. split; [done|]. destruct Hct as [|d ct Hd Hct]; [done|].
    apply Z.compare_lt_iff. specialize (Hh d ct Hd). change (concat _) with (encode utf8 (d :: ct)). cbn [head default from_option]. lia. }
  destruct Hct as [|d ct Hd Hct].
  { rewrite andb_false_r. eexists. split; [done|]. apply Z.compare_gt_iff. specialize (Hh c cs Hc).
    change (encode utf8 []) with (@nil Z). cbn [head default from_option] in *. lia. }
  rewrite !bool_decide_eq_true_2 by (rewrite encode_nil_inv; [done|apply Hv; by constructor]). cbn [andb].
  rewrite !strcase_char_utf8 by done. cbn [map lex].
  destruct (casedn_ok c) as [? _]; [lia|]. destruct (casedn_ok d) as [? _]; [lia|].
  destruct (Z.eqb_spec (unicase tolower my_unicase_default c) (unicase tolower my_unicase_default d)) as [E|E]; cbn [negb].
  - rewrite E, Z.compare_refl. apply IH; [done..|simpl in Hf; lia].
  - eexists. split; [done|]. rewrite !s32_small by lia. unfold sign. rewrite <- Z.compare_sub.
    destruct (_ ?= _) eqn:Ew; [by apply Z.compare_eq in Ew|done..].
Qed.

(** On well-formed strings without zero characters the comparison of
    identifiers is the lexicographic order of the lower case characters, and
    what stands in memory behind the strings does not matter. *)
Theorem strcasecmp_utf8_order ps pt cs ct :
  Forall (fun c => 0 < c < 0x10000) cs -> Forall (fun c => 0 < c < 0x10000) ct ->
  exists r, my_strcasecmp_utf8 my_unicase_default ps pt (encode utf8 cs) (encode utf8 ct) = Some r /\
    sign r = lex (map (unicase tolower my_unicase_default) cs) (map (unicase tolower my_unicase_default) ct).
Proof.
  intros Hcs Hct. apply strcasecmp_loop_spec; [done..|].
  assert (chars cs) as Hv by (eapply Forall_impl; [exact Hcs|]; intros; simpl in *; lia).
  pose proof (encode_length cs Hv). lia.
Qed.

(** When the second string is not well-formed the comparison of identifiers
    goes on with the bytes, but the first string is a character further: "a"
    and an illegal byte compares equal to the illegal byte alone. *)
Theorem strcasecmp_utf8_misaligned :
  my_strcasecmp_utf8 my_unicase_default (0, 0) (0, 0) [0x61; 0xff] [0xff] = Some 0.
Proof. by vm_compute. Qed.

(** "Tab" and "tAB" before other bytes. *)
Lemma strcasecmp_utf8_order_witness :
  exists r, my_strcasecmp_utf8 my_unicase_default (7, 8) (9, 10) (encode utf8 [84; 97; 98]) (encode utf8 [116; 65; 66]) = Some r /\
    sign r = lex (map (unicase tolower my_unicase_default) [84; 97; 98]) (map (unicase tolower my_unicase_default) [116; 65; 66]).
Proof. apply (strcasecmp_utf8_order (7, 8) (9, 10) [84; 97; 98] [116; 65; 66]); repeat constructor; lia. Defined.
