(* ===== verification/UniLike.v ===== *)
(** * LIKE for the Unicode character sets (strings/ctype-utf8.c, strings/ctype-ucs2.c)

    [my_wildcmp_unicode] compares a string with a pattern character by
    character.  It is shared by the UTF-8 and the UCS-2 collations: the
    function that reads a character and the table of weights are parameters,
    as they are in the code, and the theorems use only what a character set
    promises. *)

From stdpp Require Import base numbers list.
From Stdlib Require Import ZArith Lia.
From S2P Require Import Prelude Like UniCase Utf8 Utf8Coll.

Local Open Scope Z_scope.

Section wildcmp.
(** [cs->cset->mb_wc] and the arguments; [None] is a null pointer. *)
Variable mb_wc : list Z -> Z * Z.
Variables (escape w_one w_many : Z).
Variable weights : option (Z -> option (list MY_UNICASE_INFO)).

(** The weight of a character. *)
Definition weigh (wc : Z) : Z :=
  match weights with Some uni_plane => unicase sort uni_plane wc | None => wc end.

Inductive wild_outcome := WRet (r : Z) | WGo (str wild : list Z).

(** The character behind an escape character: whether it was escaped, the
    character and the rest; [None] when it is not well-formed. *)
Definition unescape (w_wc : Z) (wild : list Z) : option (bool * Z * list Z) :=
  if (w_wc =? u64 escape) && bool_decide (wild <> []) then
    let '(scan, w_wc) := mb_wc wild in
    if scan <=? 0 then None else Some (true, w_wc, drop (Z.to_nat scan) wild)
  else Some (false, w_wc, wild).

(** [while (1)]: up to [w_many], where [wild] is left. *)
Fixpoint tokens (fuel : nat) (str wild : list Z) : option wild_outcome :=
  match fuel with
  | O => None
  | S fuel =>
      let '(scan, w_wc) := mb_wc wild in
      if scan <=? 0 then Some (WRet 1)
      else if w_wc =? u64 w_many then Some (WGo str wild)
      else
        match unescape w_wc (drop (Z.to_nat scan) wild) with
        | None => Some (WRet 1)
        | Some (escaped, w_wc, wild) =>
            let '(scan, s_wc) := mb_wc str in
            if scan <=? 0 then Some (WRet 1)
            else
              let str := drop (Z.to_nat scan) str in
              if negb (negb escaped && (w_wc =? u64 w_one)) && negb (weigh s_wc =? weigh w_wc) then Some (WRet 1)
              else if bool_decide (wild = []) then Some (WRet (b2z (bool_decide (str <> []))))
              else tokens fuel str wild
        end
  end.

(** Remove any '%' and '_' from the wild search string. *)
Fixpoint skip_wilds (fuel : nat) (str wild : list Z) : option wild_outcome :=
  match fuel with
  | O => None
  | S fuel =>
      if bool_decide (wild = []) then Some (WGo str wild)
      else
        let '(scan, w_wc) := mb_wc wild in
        if scan <=? 0 then Some (WRet 1)
        else if w_wc =? u64 w_many then skip_wilds fuel str (drop (Z.to_nat scan) wild)
        else if w_wc =? u64 w_one then
          let wild := drop (Z.to_nat scan) wild in
          let '(scan, _) := mb_wc str in
          if scan <=? 0 then Some (WRet 1) else skip_wilds fuel (drop (Z.to_nat scan) str) wild
        else Some (WGo str wild)
  end.

(** The loop over the places where the character [w_wc] is; the code replaces
    [w_wc] by its weight in each round. *)
Fixpoint search (rec : list Z -> option Z) (fuel : nat) (w_wc : Z) (str : list Z) : option Z :=
  match fuel with
  | O => None
  | S fuel =>
      if bool_decide (str = []) then Some (-1)
      else
        let '(scan, s_wc) := mb_wc str in
        if scan <=? 0 then Some 1
        else
          let s_wc := weigh s_wc in
          let w_wc := weigh w_wc in
          let str := drop (Z.to_nat scan) str in
          if s_wc =? w_wc then
            result ← rec str; if result <=? 0 then Some result else search rec fuel w_wc str
          else search rec fuel w_wc str
  end.

(** [fuel] counts the calls; each is for a shorter pattern. *)
Fixpoint wildcmp_unicode (fuel : nat) (str wild : list Z) : option Z :=
  match fuel with
  | O => None
  | S fuel =>
      if bool_decide (wild = []) then Some (b2z (bool_decide (str <> [])))
      else
        out ← tokens (S (length wild)) str wild;
        match out with
        | WRet r => Some r
        | WGo str wild =>
            out ← skip_wilds (S (length wild)) str wild;
            match out with
            | WRet r => Some r
            | WGo str wild =>
                if bool_decide (wild = []) then Some 0
                else if bool_decide (str = []) then Some (-1)
                else
                  let '(scan, w_wc) := mb_wc wild in
                  if scan <=? 0 then Some 1
                  else
                    match unescape w_wc (drop (Z.to_nat scan) wild) with
                    | None => Some 1
                    | Some (_, w_wc, wild) => search (fun str => wildcmp_unicode fuel str wild) (S (length str)) w_wc str
                    end
            end
        end
  end.

Definition my_wildcmp_unicode (str wild : list Z) : option Z := wildcmp_unicode (S (length wild)) str wild.
End wildcmp.

Definition my_wildcmp_utf8 (uni_plane : Z -> option (list MY_UNICASE_INFO)) (str wild : list Z) (escape w_one w_many : Z) : option Z :=
  my_wildcmp_unicode my_utf8_uni escape w_one w_many (Some uni_plane) str wild.

Definition my_ucs2_uni (s : list Z) : Z * Z :=
  match s with
  | s0 :: s1 :: _ => (2, s0 * 256 + s1)
  | _ => (MY_CS_TOOFEW 0, 0)
  end.

Definition my_uni_ucs2 (wc room : Z) : Z * list Z :=
  if room <? 2 then (MY_CS_TOOSMALL, []) else (2, [u8 (Z.shiftr wc 8); u8 (Z.land wc 0xFF)]).

Definition my_wildcmp_ucs2_ci (uni_plane : Z -> option (list MY_UNICASE_INFO)) (str wild : list Z) (escape w_one w_many : Z) : option Z :=
  my_wildcmp_unicode my_ucs2_uni escape w_one w_many (Some uni_plane) str wild.

Definition my_wildcmp_ucs2_bin (str wild : list Z) (escape w_one w_many : Z) : option Z :=
  my_wildcmp_unicode my_ucs2_uni escape w_one w_many None str wild.

Definition ucs2 (c : Z) : list Z := [c / 256; c mod 256].

#[export] Instance ucs2_charset : Charset my_ucs2_uni ucs2 (fun c => 0 <= c < 0x10000).
Proof.
  split; [|done|done|].
  - intros c r Hc. cbn. f_equal. dlia.
  - intros [|s0 [|s1 s]]; unfold my_ucs2_uni, MY_CS_TOOFEW; simpl; lia.
Qed.

Lemma my_uni_ucs2_ucs2 c : 0 <= c < 0x10000 -> my_uni_ucs2 c 2 = (2, ucs2 c).
Proof.
  intros Hc. unfold my_uni_ucs2, ucs2. cbn [Z.ltb Z.compare Pos.compare Pos.compare_cont]. change 0xFF with (Z.ones 8).
  by rewrite Z.shiftr_div_pow2, Z.land_ones, !u8_small by dlia.
Qed.

(** ** LIKE compares with the pattern *)

Section like.
Context `{Charset mb_wc enc valid}.
Variables (escape w_one w_many : Z).
Variable weights : option (Z -> option (list MY_UNICASE_INFO)).
Hypothesis ints : 0 <= escape < 2 ^ 31 /\ 0 <= w_one < 2 ^ 31 /\ 0 <= w_many < 2 ^ 31.
Hypothesis distinct : escape <> w_one /\ escape <> w_many /\ w_one <> w_many.
Let w := weigh weights.
(** Weighing the weight of a character of the pattern again changes nothing. *)
Hypothesis w_idem : forall c, valid c -> w (w c) = w c.

Local Abbreviation like := (like w escape w_one w_many).
Local Abbreviation answers := (answers w escape w_one w_many).
Local Abbreviation lift := (lift w escape w_one w_many).
Local Abbreviation somewhere := (somewhere w escape w_one w_many).
Local Abbreviation str cs := (encode enc cs).

Lemma unescape_spec c cw : valid c -> Forall valid cw -> c <> w_many ->
  exists escaped lit rest, unescape mb_wc escape c (str cw) = Some (escaped, lit, str rest) /\
    Forall valid rest /\ valid lit /\ (length rest <= length cw)%nat /\
    (negb escaped && (lit =? w_one) = true -> c = w_one /\ rest = cw) /\
    (negb escaped && (lit =? w_one) = false -> c <> w_one /\ literal escape c cw lit rest).
Proof.
  intros Hc Hcw Hm. unfold unescape. rewrite u64_small by lia. destruct (Z.eqb_spec c escape) as [->|Hne]; cbn [andb].
  - destruct Hcw as [|e cw He Hcw].
    + cbn. exists false, escape, []. rewrite (proj2 (Z.eqb_neq escape w_one)) by lia. split_and!; auto; [done|].
      intros _. split; [lia|done].
    + rewrite bool_decide_eq_true_2 by (rewrite encode_nil_inv; [done|by constructor]).
      destruct (mb_wc_encode e cw He) as (-> & Hpos & ->). rewrite (proj2 (Z.leb_gt _ _)) by done.
      exists true, e, cw. cbn [negb andb length]. split_and!; try done; [lia|]. intros _. split; [lia|]. cbn. by rewrite Z.eqb_refl.
  - exists false, c, cw. cbn [negb andb]. split_and!; auto.
    + by intros ->%Z.eqb_eq.
    + intros Ho%Z.eqb_neq. split; [done|]. destruct cw; cbn; [done|]. by rewrite (proj2 (Z.eqb_neq c escape)).
Qed.

Lemma b2z_some cs : Forall valid cs -> bool_decide (str cs <> []) = negb (bool_decide (cs = [])).
Proof. intros Hcs. rewrite <- bool_decide_not. apply bool_decide_ext. by rewrite encode_nil_inv. Qed.

Lemma tokens_spec fuel : forall cs cw, Forall valid cs -> Forall valid cw -> cw <> [] -> (length cw < fuel)%nat ->
  exists out, tokens mb_wc escape w_one w_many weights fuel (str cs) (str cw) = Some out /\
    match out with
    | WRet r => answers cs cw r
    | WGo s wi => exists cs' cw', s = str cs' /\ wi = str (w_many :: cw') /\ Forall valid cs' /\ Forall valid (w_many :: cw') /\
        (length (w_many :: cw') <= length cw)%nat /\ lift cs cw cs' (w_many :: cw')
    end.
Proof.
  induction fuel as [|fuel IH]; intros cs cw Hcs Hcw Hne Hf; [lia|]. destruct Hcw as [|c cw Hc Hcw]; [done|]. cbn [tokens].
  destruct (mb_wc_encode c cw Hc) as (-> & Hpos & ->). rewrite (proj2 (Z.leb_gt _ _)), !u64_small by lia.
  destruct (Z.eqb_spec c w_many) as [->|Hm].
  { eexists. split; [done|]. exists cs, cw. split_and!; auto using lift_refl. }
  destruct (unescape_spec c cw Hc Hcw Hm) as (escaped & lit & rest & -> & Hrest & Hlit & Hlen & Hone & Hother).
  destruct Hcs as [|x cs Hx Hcs].
  { pose proof mb_wc_nil as Hnil. change (str []) with (@nil Z). destruct (mb_wc []) as [scan wc]. simpl in Hnil. rewrite (proj2 (Z.leb_le _ _)) by done.
    eexists; split; [done|]. cbn. destruct (negb escaped && (lit =? w_one)) eqn:Eo.
    - destruct (Hone eq_refl) as [-> _]. split_and!; try lia. split; [lia|]. by intros (y & s' & ? & _)%like_one_inv.
    - destruct (Hother eq_refl) as [Ho Hl]. by apply answers_differs with lit rest. }
  destruct (mb_wc_encode x cs Hx) as (-> & Hpx & ->). rewrite (proj2 (Z.leb_gt _ _)) by lia. fold (w x) (w lit).
  assert (lift (x :: cs) (c :: cw) cs rest \/ (negb escaped && (lit =? w_one) = false /\ w x <> w lit)) as Hstep.
  { destruct (negb escaped && (lit =? w_one)) eqn:Eo.
    - destruct (Hone eq_refl) as [-> ->]. left. by apply lift_one.
    - destruct (Hother eq_refl) as [Ho Hl]. destruct (Z.eq_dec (w x) (w lit)); [left; by apply lift_literal with lit|by right]. }
  destruct (negb (negb escaped && (lit =? w_one)) && negb (w x =? w lit)) eqn:Eret.
  { apply andb_true_iff in Eret as [Eo%negb_true_iff Ew%negb_true_iff%Z.eqb_neq]. destruct (Hother Eo) as [Ho Hl].
    eexists. split; [done|]. apply answers_differs with lit rest; try done. by intros ? ? [= <- <-]. }
  assert (lift (x :: cs) (c :: cw) cs rest) as Hlift.
  { destruct (negb escaped && (lit =? w_one)) eqn:Eo; [destruct (Hone eq_refl) as [-> ->]; by apply lift_one|].
    destruct (Hother eq_refl) as [Ho Hl]. cbn in Eret. b2p. by apply lift_literal with lit. }
  rewrite b2z_some by done. destruct (decide (rest = [])) as [->|Hr].
  - rewrite bool_decide_eq_true_2 by done. eexists. split; [done|]. eapply lift_answers; [exact Hlift|]. apply answers_end.
  - rewrite bool_decide_eq_false_2 by (by rewrite encode_nil_inv).
    destruct (IH cs rest Hcs Hrest Hr) as (out & -> & Hout); [simpl in Hf; lia|]. exists out. split; [done|].
    destruct out as [r|s wi]; [by eapply lift_answers|].
    destruct Hout as (cs' & cw' & -> & -> & ? & ? & ? & ?). exists cs', cw'. split_and!; try done; [simpl in *; lia|by eapply lift_trans].
Qed.

Lemma skip_wilds_spec fuel : forall cs cw, Forall valid cs -> Forall valid cw -> (length cw < fuel)%nat ->
  exists out, skip_wilds mb_wc w_one w_many fuel (str cs) (str cw) = Some out /\
    match out with
    | WRet r => r = 1 /\ ~ somewhere cs cw
    | WGo s wi => exists cs' cw', s = str cs' /\ wi = str cw' /\ Forall valid cs' /\ Forall valid cw' /\
        (length cw' <= length cw)%nat /\ (somewhere cs cw <-> somewhere cs' cw') /\
        forall c r, cw' = c :: r -> c <> w_one /\ c <> w_many
    end.
Proof.
  induction fuel as [|fuel IH]; intros cs cw Hcs Hcw Hf; [lia|]. cbn [skip_wilds]. destruct Hcw as [|c cw Hc Hcw].
  { cbn. eexists. split; [done|]. exists cs, []. split_and!; auto. }
  rewrite bool_decide_eq_false_2 by (rewrite encode_nil_inv; [done|by constructor]).
  destruct (mb_wc_encode c cw Hc) as (-> & Hpos & ->). rewrite (proj2 (Z.leb_gt _ _)), !u64_small by lia.
  destruct (Z.eqb_spec c w_many) as [->|Hm].
  { destruct (IH cs cw Hcs Hcw) as (out & -> & Hout); [simpl in Hf; lia|]. exists out. split; [done|].
    destruct out as [r|s wi]; [by rewrite somewhere_many|].
    destruct Hout as (cs' & cw' & -> & -> & ? & ? & ? & Hs & ?). exists cs', cw'. split_and!; try done; [simpl; lia|by rewrite somewhere_many]. }
  destruct (Z.eqb_spec c w_one) as [->|Ho].
  - destruct Hcs as [|x cs Hx Hcs].
    { pose proof mb_wc_nil as Hnil. change (str []) with (@nil Z). destruct (mb_wc []) as [scan wc]. simpl in Hnil.
      rewrite (proj2 (Z.leb_le _ _)) by done. eexists; split; [done|]. split; [done|].
      intros (s1 & s2 & E & (y & s' & -> & _)%like_one_inv); [|done]. by destruct s1. }
    destruct (mb_wc_encode x cs Hx) as (-> & Hpx & ->). rewrite (proj2 (Z.leb_gt _ _)) by lia.
    destruct (IH cs cw Hcs Hcw) as (out & -> & Hout); [simpl in Hf; lia|]. exists out. split; [done|].
    destruct out as [r|s wi]; [by rewrite somewhere_one|].
    destruct Hout as (cs' & cw' & -> & -> & ? & ? & ? & Hs & ?). exists cs', cw'. split_and!; try done; [simpl; lia|by rewrite somewhere_one].
  - eexists. split; [done|]. exists cs, (c :: cw). split_and!; auto. by intros ? ? [= <- <-].
Qed.

Lemma search_spec rec lit rest fuel : valid lit ->
  (forall cs, Forall valid cs -> exists r, rec (str cs) = Some r /\ answers cs rest r) ->
  forall cs wc, Forall valid cs -> w wc = w lit -> (length cs < fuel)%nat ->
  exists r, search mb_wc weights rec fuel wc (str cs) = Some r /\ (r = 0 \/ r = -1) /\
    (r = 0 <-> exists s1 x s2, cs = s1 ++ x :: s2 /\ w x = w lit /\ like s2 rest).
Proof.
  intros Hlit Hrec. induction fuel as [|fuel IH]; intros cs wc Hcs Hwc Hf; [lia|]. cbn [search]. destruct Hcs as [|x cs Hx Hcs].
  { cbn. exists (-1). split; [done|]. split; [by right|]. split; [lia|]. intros (s1 & x & s2 & E & _). by destruct s1. }
  rewrite bool_decide_eq_false_2 by (rewrite encode_nil_inv; [done|by constructor]).
  destruct (mb_wc_encode x cs Hx) as (-> & Hpos & ->). rewrite (proj2 (Z.leb_gt _ _)) by lia. fold (w x) (w wc). rewrite Hwc.
  destruct (IH cs (w lit) Hcs ltac:(by apply w_idem) ltac:(simpl in Hf; lia)) as (r & Hr & Hr01 & Hiff).
  assert ((exists s1 y s2, x :: cs = s1 ++ y :: s2 /\ w y = w lit /\ like s2 rest) <->
    (w x = w lit /\ like cs rest) \/ exists s1 y s2, cs = s1 ++ y :: s2 /\ w y = w lit /\ like s2 rest) as Hcons.
  { split.
    - intros (s1 & y & s2 & E & Hy & Hl). destruct s1 as [|z s1]; injection E as -> ->; [by left|right; by exists s1, y, s2].
    - intros [[? ?]|(s1 & y & s2 & -> & ? & ?)]; [by exists [], x, cs|by exists (x :: s1), y, s2]. }
  destruct (Z.eqb_spec (w x) (w lit)) as [E|E].
  - destruct (Hrec cs Hcs) as (t & -> & Ht0 & Htm & Htb). cbn [mbind option_bind]. destruct (Z.leb_spec t 0).
    + exists t. split; [done|]. split; [lia|]. rewrite Hcons, Ht0. split; [by left|]. intros [[_ ?]|(s1 & y & s2 & -> & _ & Hl)]; [done|].
      destruct (Z.eq_dec t (-1)) as [Et|Et]; [|apply Ht0; lia]. by destruct (Htm Et (s1 ++ [y]) s2); [rewrite <- app_assoc|].
    + exists r. split; [done|]. split; [done|]. rewrite Hcons, <- Hiff, <- Ht0. split; [by right|]. intros [[_ ?]|?]; [lia|done].
  - exists r. split; [done|]. split; [done|]. rewrite Hcons, <- Hiff. split; [by right|]. by intros [[? _]|?].
Qed.

Lemma wildcmp_unicode_spec fuel : forall cs cw, Forall valid cs -> Forall valid cw -> (length cw < fuel)%nat ->
  exists r, wildcmp_unicode mb_wc escape w_one w_many weights fuel (str cs) (str cw) = Some r /\ answers cs cw r.
Proof.
  induction fuel as [|fuel IH]; intros cs cw Hcs Hcw Hf; [lia|]. cbn [wildcmp_unicode]. destruct (decide (cw = [])) as [->|Hne].
  { cbn. rewrite b2z_some by done. eexists. split; [done|]. apply answers_end. }
  rewrite bool_decide_eq_false_2 by (by rewrite encode_nil_inv). pose proof (encode_length cw Hcw).
  destruct (tokens_spec (S (length (str cw))) cs cw Hcs Hcw Hne) as (out & -> & Hout); [lia|]. cbn [mbind option_bind].
  destruct out as [r|s wi]; [by exists r|]. destruct Hout as (cs1 & cw1 & -> & -> & Hcs1 & Hcw1 & Hl1 & Hlift).
  pose proof (encode_length _ Hcw1).
  destruct (skip_wilds_spec (S (length (str (w_many :: cw1)))) cs1 (w_many :: cw1) Hcs1 Hcw1) as (out & -> & Hout); [lia|].
  cbn [mbind option_bind].
  assert (forall r, answers cs1 (w_many :: cw1) r -> answers cs cw r) as Hdone by (intros r Hr; by eapply lift_answers).
  destruct out as [r|s wi].
  { destruct Hout as [-> Hn]. rewrite somewhere_many in Hn by done. exists 1. split; [done|]. apply Hdone. split_and!; try lia. rewrite like_many_somewhere by done.
    split; [lia|done]. }
  destruct Hout as (cs2 & cw2 & -> & -> & Hcs2 & Hcw2 & Hl2 & Hsome & Hhead).
  rewrite somewhere_many in Hsome by done. destruct Hcw2 as [|c cw2 Hc Hcw2].
  { cbn. exists 0. split; [done|]. apply Hdone, answers_many; [done|by left|]. split; [intros _|done].
    apply Hsome. exists cs2, []. rewrite app_nil_r. split; [done|constructor]. }
  rewrite bool_decide_eq_false_2 by (rewrite encode_nil_inv; [done|by constructor]).
  destruct (Hhead c cw2 eq_refl) as [Ho Hm].
  destruct (unescape_spec c cw2 Hc Hcw2 Hm) as (escaped & lit & rest & Hun & Hrest & Hlit & Hlen & Hone & Hother).
  destruct Hother as [_ Hl]; [apply not_true_iff_false; by intros [? _]%Hone|].
  rewrite (somewhere_literal w escape w_one w_many c cw2 lit rest cs2 Hm Ho Hl) in Hsome. destruct (decide (cs2 = [])) as [->|Hn].
  { cbn. exists (-1). split; [done|]. apply Hdone, answers_many; [done|by right|]. rewrite Hsome. split; [lia|].
    intros (s1 & x & s2 & E & _). by destruct s1. }
  rewrite bool_decide_eq_false_2 by (by rewrite encode_nil_inv).
  destruct (mb_wc_encode c cw2 Hc) as (-> & Hpos & ->). rewrite (proj2 (Z.leb_gt _ _)), Hun by lia.
  destruct (search_spec (fun s => wildcmp_unicode mb_wc escape w_one w_many weights fuel s (str rest)) lit rest (S (length (str cs2))) Hlit)
    with (cs := cs2) (wc := lit) as (r & Hr & Hr01 & Hiff); [|done|done|pose proof (encode_length cs2 Hcs2); lia|].
  { intros s Hs. apply IH; [done|done|simpl in *; lia]. }
  exists r. split; [done|]. apply Hdone, answers_many; [done|done|]. by rewrite Hsome, Hiff.
Qed.
End like.

(** ** The results *)

(** C23: LIKE on UTF-8 strings in the general collation is right: for escape and
    wildcard characters that are distinct, the comparison of a well-formed
    string with a well-formed pattern ends and returns 0 exactly for the strings
    the pattern stands for, characters being compared by their weights. *)
Theorem wildcmp_utf8_like escape w_one w_many cs cw :
  0 <= escape < 2 ^ 31 /\ 0 <= w_one < 2 ^ 31 /\ 0 <= w_many < 2 ^ 31 ->
  escape <> w_one /\ escape <> w_many /\ w_one <> w_many ->
  Forall (fun c => 0 <= c < 0x10000) cs -> Forall (fun c => 0 <= c < 0x10000) cw ->
  exists r, my_wildcmp_utf8 my_unicase_default (encode utf8 cs) (encode utf8 cw) escape w_one w_many = Some r /\
    (r = 0 <-> like general_ci escape w_one w_many cs cw).
Proof.
  intros Hi Hd Hcs Hcw.
  destruct (wildcmp_unicode_spec (enc := utf8) escape w_one w_many (Some my_unicase_default) Hi Hd general_ci_idem
    (S (length (encode utf8 cw))) cs cw Hcs Hcw)
    as (r & Hr & H0 & _); [pose proof (encode_length (enc := utf8) cw Hcw); lia|]. by exists r.
Qed.

(** "Éxa" LIKE "e%_A". *)
Lemma wildcmp_utf8_like_witness :
  my_wildcmp_utf8 my_unicase_default [0xc3; 0x89; 120; 97] [101; 37; 95; 65] 92 95 37 = Some 0 /\
  exists r, my_wildcmp_utf8 my_unicase_default (encode utf8 [0xc9; 120; 97]) (encode utf8 [101; 37; 95; 65]) 92 95 37 = Some r /\
    (r = 0 <-> like general_ci 92 95 37 [0xc9; 120; 97] [101; 37; 95; 65]).
Proof.
  split; [by vm_compute|]. apply (wildcmp_utf8_like 92 95 37 [0xc9; 120; 97] [101; 37; 95; 65]); try lia; by repeat constructor.
Defined.

(** LIKE on UCS-2 strings is right for both collations: the general one
    compares the characters by their weights, the binary one by their codes. *)
Theorem wildcmp_ucs2_like escape w_one w_many cs cw :
  0 <= escape < 2 ^ 31 /\ 0 <= w_one < 2 ^ 31 /\ 0 <= w_many < 2 ^ 31 ->
  escape <> w_one /\ escape <> w_many /\ w_one <> w_many ->
  Forall (fun c => 0 <= c < 0x10000) cs -> Forall (fun c => 0 <= c < 0x10000) cw ->
  (exists r, my_wildcmp_ucs2_ci my_unicase_default (encode ucs2 cs) (encode ucs2 cw) escape w_one w_many = Some r /\
     (r = 0 <-> like general_ci escape w_one w_many cs cw)) /\
  (exists r, my_wildcmp_ucs2_bin (encode ucs2 cs) (encode ucs2 cw) escape w_one w_many = Some r /\
     (r = 0 <-> like id escape w_one w_many cs cw)).
Proof.
  intros Hi Hd Hcs Hcw. pose proof (encode_length cw Hcw) as Hl. split.
  - destruct (wildcmp_unicode_spec (enc := ucs2) escape w_one w_many (Some my_unicase_default) Hi Hd general_ci_idem
      (S (length (encode ucs2 cw))) cs cw Hcs Hcw)
      as (r & Hr & H0 & _); [lia|]. by exists r.
  - destruct (wildcmp_unicode_spec (enc := ucs2) escape w_one w_many None Hi Hd ltac:(done) (S (length (encode ucs2 cw))) cs cw Hcs Hcw)
      as (r & Hr & H0 & _); [lia|]. by exists r.
Qed.

Lemma wildcmp_ucs2_like_witness :
  (exists r, my_wildcmp_ucs2_ci my_unicase_default (encode ucs2 [65; 120]) (encode ucs2 [97; 95]) 92 95 37 = Some r /\
     (r = 0 <-> like general_ci 92 95 37 [65; 120] [97; 95])) /\
  (exists r, my_wildcmp_ucs2_bin (encode ucs2 [65; 120]) (encode ucs2 [97; 95]) 92 95 37 = Some r /\
     (r = 0 <-> like id 92 95 37 [65; 120] [97; 95])).
Proof. apply (wildcmp_ucs2_like 92 95 37 [65; 120] [97; 95]); try lia; by repeat constructor. Defined.
