(* ===== verification/CtypeMb.v ===== *)
(** * The functions that the multi-byte character sets share (strings/ctype-mb.c)

    The function that says how many bytes a character has is a parameter, as it is
    in the code ([cs->cset->ismbchar]); a string is the list of its bytes, and a
    pointer into it the bytes from there to its end.  The class
    [MbCharset] is what the theorems ask of a character set; those with characters of
    one and two bytes implement it in MbTwo.v. *)

From stdpp Require Import base numbers list.
From Stdlib Require Import ZArith Lia.
From S2P Require Import Prelude Like Wild8 Collate CtypeBin CtypeSimple UniCase Utf8 Utf8Coll.

Local Open Scope Z_scope.

Section mb.
(** [my_ismbchar]: 0 for a character of one byte. *)
Variable ismbchar : list Z -> Z.

(** [(mblen = my_ismbchar(cs, pos, end)) ? mblen : 1] *)
Definition mb_step (s : list Z) : Z := let l := ismbchar s in if l =? 0 then 1 else l.

(** [INC_PTR] *)
Definition inc_ptr (s : list Z) : list Z := drop (Z.to_nat (mb_step s)) s.

(** ** Case *)

(** The loop of the four functions, on the memory from [src] on; they convert in
    place.  [srcend] is how much is left. *)
Fixpoint case_mb (fuel : nat) (map : list Z) (src : list Z) : option (list Z) :=
  match fuel with
  | O => None
  | S fuel =>
      match src with
      | [] => Some []
      | c :: src' =>
          let l := ismbchar src in
          if negb (l =? 0) then app (take (Z.to_nat l) src) <$> case_mb fuel map (drop (Z.to_nat l) src)
          else cons (tab map c) <$> case_mb fuel map src'
      end
  end.

Definition my_caseup_mb (cs : CHARSET_INFO) (src : list Z) : option (list Z) := case_mb (S (length src)) (to_upper cs) src.

Definition my_casedn_mb (cs : CHARSET_INFO) (src : list Z) : option (list Z) := case_mb (S (length src)) (to_lower cs) src.

(** On a string that ends with a zero byte; [left] is the distance to [end], which
    is computed first. *)
Fixpoint case_str_mb (fuel : nat) (map : list Z) (str : list Z) (left : Z) : option (list Z) :=
  match fuel with
  | O => None
  | S fuel =>
      match str with
      | [] => None
      | c :: str' =>
          if c =? 0 then Some str
          else
            let l := ismbchar (take (Z.to_nat left) str) in
            if negb (l =? 0) then app (take (Z.to_nat l) str) <$> case_str_mb fuel map (drop (Z.to_nat l) str) (left - l)
            else cons (tab map c) <$> case_str_mb fuel map str' (left - 1)
      end
  end.

Definition my_caseup_str_mb (cs : CHARSET_INFO) (str : list Z) : option (list Z) :=
  case_str_mb (S (length str)) (to_upper cs) str (Z.of_nat (strlen str)).

Definition my_casedn_str_mb (cs : CHARSET_INFO) (str : list Z) : option (list Z) :=
  case_str_mb (S (length str)) (to_lower cs) str (Z.of_nat (strlen str)).

(** [while (l--) if ( *s++ != *t++) return 1]; what is left of [t]. *)
Fixpoint same_bytes (l : nat) (s t : list Z) : option (option (list Z)) :=
  match l, s, t with
  | O, _, _ => Some (Some t)
  | S l, x :: s, y :: t => if negb (x =? y) then Some None else same_bytes l s t
  | S _, _, _ => None
  end.

(** [s] without its zero byte, [t] as the memory from it on. *)
Fixpoint strcasecmp_mb (mbcharlen : Z -> Z) (fuel : nat) (map : list Z) (s t : list Z) : option Z :=
  match fuel with
  | O => None
  | S fuel =>
      match s with
      | [] => t0 ← head t; Some (s8 t0)
      | x :: s' =>
          let l := ismbchar s in
          if negb (l =? 0) then
            r ← same_bytes (Z.to_nat l) s t;
            match r with None => Some 1 | Some t => strcasecmp_mb mbcharlen fuel map (drop (Z.to_nat l) s) t end
          else
            match t with
            | [] => None
            | y :: t => if 1 <? mbcharlen (u32 (s8 y)) then Some 1 else if negb (tab map x =? tab map y) then Some 1 else strcasecmp_mb mbcharlen fuel map s' t
            end
      end
  end.

Definition my_strcasecmp_mb (mbcharlen : Z -> Z) (cs : CHARSET_INFO) (s t : list Z) : option Z :=
  let s := take (strlen s) s in strcasecmp_mb mbcharlen (S (length s)) (to_upper cs) s t.

(** ** Lengths *)

Fixpoint numchars_mb (fuel : nat) (s : list Z) : option Z :=
  match fuel with
  | O => None
  | S fuel => match s with [] => Some 0 | _ => Z.add 1 <$> numchars_mb fuel (inc_ptr s) end
  end.

Definition my_numchars_mb (s : list Z) : option Z := numchars_mb (S (length s)) s.

(** [start] is the distance from the start of the string. *)
Fixpoint charpos_mb (fuel : nat) (s : list Z) (length0 start : Z) : option Z :=
  match fuel with
  | O => None
  | S fuel =>
      match s with
      | [] => Some (if length0 =? 0 then start else start + 2)
      | _ => if length0 =? 0 then Some start else charpos_mb fuel (inc_ptr s) (length0 - 1) (start + mb_step s)
      end
  end.

Definition my_charpos_mb (s : list Z) (length0 : Z) : option Z := charpos_mb (S (length s)) s length0 0.

(** ** LIKE

    [my_wildcmp_mb] and [my_wildcmp_mb_bin] are the same text but for the comparison of
    single bytes: [likeconv] in the first loop, and [found] for the byte behind
    [w_many]. *)
Section wildcmp.
Variables (likeconv : Z -> Z) (found : Z -> Z -> bool) (escape w_one w_many past : Z).

Definition same_prefix (l : Z) (str wild : list Z) : bool :=
  (l <=? Z.of_nat (length str)) && bool_decide (take (Z.to_nat l) str = take (Z.to_nat l) wild).

(** [while ( *wildstr != w_many && *wildstr != w_one)] *)
Fixpoint anchors_mb (fuel : nat) (str wild : list Z) (result : Z) : option outcome :=
  match fuel, wild with
  | S fuel, c :: w =>
      if (s8 c =? w_many) || (s8 c =? w_one) then Some (Go str wild result)
      else
        let wild := if (s8 c =? escape) && negb (bool_decide (w = [])) then w else wild in
        let l := ismbchar wild in
        match
          (if negb (l =? 0) then if same_prefix l str wild then Some (drop (Z.to_nat l) str, drop (Z.to_nat l) wild) else None
           else match str, wild with x :: str, y :: wild => if likeconv y =? likeconv x then Some (str, wild) else None | _, _ => None end)
        with
        | None => Some (Ret 1)
        | Some (str, []) => Some (Ret (b2z (negb (bool_decide (str = [])))))
        | Some (str, wild) => anchors_mb fuel str wild 1
        end
  | _, _ => None
  end.

Fixpoint ones_mb (wild str : list Z) (result : Z) : outcome :=
  match wild with
  | [] => Go str wild result
  | c :: w =>
      if s8 c =? w_one then match str with [] => Ret result | _ => ones_mb w (inc_ptr str) result end
      else Go str wild result
  end.

(** Remove any '%' and '_' from the wild search string. *)
Fixpoint skip_wild_mb (wild str : list Z) : outcome :=
  match wild with
  | [] => Go str wild 0
  | c :: w =>
      if s8 c =? w_many then skip_wild_mb w str
      else if s8 c =? w_one then match str with [] => Ret (-1) | _ => skip_wild_mb w (inc_ptr str) end
      else Go str wild 0
  end.

(** [mb] starts with the character behind [w_many], of [mblen] bytes if it is not a
    single one, else [cmp]; [wild] is the pattern behind it. *)
Fixpoint find_mb (rec : list Z -> option Z) (fuel : nat) (mb : list Z) (mblen cmp : Z) (wild str : list Z) : option Z :=
  match fuel with
  | O => None
  | S fuel =>
      match str with
      | [] => Some (-1)
      | x :: str' =>
          match
            (if negb (mblen =? 0) then if same_prefix mblen str mb then Some (drop (Z.to_nat mblen) str) else None
             else if (ismbchar str =? 0) && found x cmp then Some str' else None)
          with
          | Some str =>
              tmp ← rec str;
              if tmp <=? 0 then Some tmp
              else if negb (bool_decide (str = [])) && negb (s8 (default past (head wild)) =? w_many) then find_mb rec fuel mb mblen cmp wild str
              else Some (-1)
          | None => find_mb rec fuel mb mblen cmp wild (inc_ptr str)
          end
      end
  end.

Definition many_mb (rec : list Z -> list Z -> option Z) (str w : list Z) : option Z :=
  match skip_wild_mb w str with
  | Ret r => Some r
  | Go _ [] _ => Some 0
  | Go [] _ _ => Some (-1)
  | Go str (c :: w) _ =>
      let mb := if (c =? escape) && negb (bool_decide (w = [])) then w else c :: w in
      let wild := inc_ptr mb in
      cmp ← head mb;
      find_mb (fun str => rec str wild) (S (length str)) mb (ismbchar mb) cmp wild str
  end.

(** The outer loop; [fuel] counts its rounds and the calls. *)
Fixpoint wildcmp_mb (fuel : nat) (result : Z) (str wild : list Z) : option Z :=
  match fuel with
  | O => None
  | S fuel =>
      match wild with
      | [] => Some (b2z (negb (bool_decide (str = []))))
      | _ =>
          out ← anchors_mb (S (length wild)) str wild result;
          match out with
          | Ret r => Some r
          | Go str wild result =>
              match ones_mb wild str result with
              | Ret r => Some r
              | Go str wild result =>
                  match wild with
                  | [] => Some (b2z (negb (bool_decide (str = []))))
                  | c :: w =>
                      if s8 c =? w_many then many_mb (fun str wild => wildcmp_mb fuel (-1) str wild) str w
                      else wildcmp_mb fuel result str wild
                  end
              end
          end
      end
  end.
End wildcmp.

Definition my_wildcmp_mb (cs : CHARSET_INFO) (str wild : list Z) (escape w_one w_many past : Z) : option Z :=
  wildcmp_mb (weight cs) (fun x cmp => weight cs x =? weight cs cmp) escape w_one w_many past (S (length wild)) (-1) str wild.

(** [*str] is a signed character and [cmp] an unsigned one. *)
Definition my_wildcmp_mb_bin (str wild : list Z) (escape w_one w_many past : Z) : option Z :=
  wildcmp_mb id (fun x cmp => s8 x =? cmp) escape w_one w_many past (S (length wild)) (-1) str wild.

(** ** Substring search *)

(** [left] is [end - b], and [res] the number of the character. *)
Fixpoint instr_mb (strnncoll : list Z -> list Z -> Z) (fuel : nat) (s b : list Z) (left pos res : Z) : option (option (Z * Z)) :=
  match fuel with
  | O => None
  | S fuel =>
      if 0 <? left then
        if strnncoll (take (length s) b) s =? 0 then Some (Some (pos, res))
        else
          let mblen := mb_step (take (Z.to_nat left) b) in
          instr_mb strnncoll fuel s (drop (Z.to_nat mblen) b) (left - mblen) (pos + mblen) (res + 1)
      else Some None
  end.

(** The result and the matches written, at most [nmatch]. *)
Definition my_instr_mb (strnncoll : list Z -> list Z -> Z) (b s : list Z) (nmatch : Z) : option (Z * list my_match_t) :=
  let b_length := Z.of_nat (length b) in
  let s_length := Z.of_nat (length s) in
  if s_length <=? b_length then
    if s_length =? 0 then Some (1, if negb (nmatch =? 0) then [mkMatch 0 0 0] else [])
    else
      r ← instr_mb strnncoll (S (length b)) s b (b_length - s_length + 1) 0 0;
      match r with
      | Some (pos, res) =>
          Some (2, (if negb (nmatch =? 0) then [mkMatch 0 pos res] else []) ++ (if 1 <? nmatch then [mkMatch pos (pos + s_length) 0] else []))
      | None => Some (0, [])
      end
  else Some (0, []).
End mb.

(** ** The binary collations

    The comparison, its key and the hash are the text of the ones of the 8-bit binary
    collations. *)

Definition my_strnncoll_mb_bin (s t : list Z) (t_is_prefix : bool) : Z := my_strnncoll_binary s t t_is_prefix.

Definition my_strnncollsp_mb_bin (a b : list Z) : Z := my_strnncollsp_8bit_bin a b.

Definition my_strnxfrm_mb_bin (dstlen : nat) (src : list Z) : list Z := pad dstlen 32 src.

Definition my_strcasecmp_mb_bin (s t : list Z) : Z := strcmp s t.

Definition my_hash_sort_mb_bin (key : list Z) (nr : Z * Z) : Z * Z := foldl hash_byte nr key.

(** ** Well-formed strings *)

(** The number of bytes of the first [pos] characters, and the error. *)
Fixpoint my_well_formed_len_mb (mb_wc : list Z -> Z * Z) (b : list Z) (pos : nat) : Z * Z :=
  match pos with
  | O => (0, 0)
  | S pos =>
      let '(mblen, _) := mb_wc b in
      if mblen <=? 0 then (0, b2z (negb (bool_decide (b = []))))
      else let '(len, error) := my_well_formed_len_mb mb_wc (drop (Z.to_nat mblen) b) pos in (mblen + len, error)
  end.

(** ** The ranges of LIKE *)

(** The [room] bytes from [str] to [end], at least one; [buf] is the largest character. *)
Fixpoint pad_max_char (fuel room : nat) (buf : list Z) : list Z :=
  match fuel, room with
  | S fuel, S room' =>
      if (length buf <? room)%nat then buf ++ pad_max_char fuel (room - length buf) buf
      else 32 :: pad_max_char fuel room' buf
  | _, _ => []
  end.

(** The loop of [my_like_range_mb]: the bytes written, and whether it ended at a
    wildcard. *)
Fixpoint range_mb (escape w_one w_many : Z) (ptr : list Z) (room charlen : nat) : list Z * bool :=
  match ptr, room, charlen with
  | c :: p, S room, S charlen =>
      let plain :=
        if (s8 c =? w_one) || (s8 c =? w_many) then ([], true)
        else let '(bs, wild) := range_mb escape w_one w_many p room charlen in (c :: bs, wild) in
      match p with
      | e :: p' => if s8 c =? escape then let '(bs, wild) := range_mb escape w_one w_many p' room charlen in (e :: bs, wild) else plain
      | [] => plain
      end
  | _, _, _ => ([], false)
  end.

(** [min_str], [max_str], [min_length] and [max_length]; [min_sort_char] and the bytes of
    [max_sort_char] are given.  The function returns 0. *)
Definition my_like_range_mb (ismbchar : list Z -> Z) (cs : CHARSET_INFO) (min_sort_char : Z) (max_char : list Z)
    (ptr : list Z) (escape w_one w_many : Z) (res_length : nat) : option (list Z * list Z * nat * nat) :=
  let charlen := (res_length / Z.to_nat (mbmaxlen cs))%nat in
  let '(bs, wild) := range_mb escape w_one w_many ptr res_length charlen in
  let n := length bs in
  if wild then
    charlen ← my_charpos_mb ismbchar bs (Z.of_nat charlen);
    let k := if charlen <? Z.of_nat n then Z.to_nat charlen else n in
    Some (take k bs ++ replicate (res_length - k) (u8 min_sort_char), bs ++ pad_max_char (res_length - n) (res_length - n) max_char,
      if state_binsort cs then k else res_length, res_length)
  else Some (bs ++ replicate (res_length - n) 32, bs ++ replicate (res_length - n) 32, n, n).

(** ** What a multi-byte character set promises

    [enc] gives the bytes of a character.  A character of one byte is its byte, and
    [ismbchar] is 0 for it; the first byte of another is no ASCII character, and
    [ismbchar] tells their number. *)
Class MbCharset (ismbchar : list Z -> Z) (enc : Z -> list Z) (valid : Z -> Prop) := {
  ism_one : forall c r, valid c -> enc c = [c] -> ismbchar (c :: r) = 0;
  ism_more : forall c r, valid c -> enc c <> [c] -> ismbchar (enc c ++ r) = Z.of_nat (length (enc c));
  enc_more : forall c, valid c -> enc c <> [c] -> 128 <= c /\ exists h t, enc c = h :: t /\ 128 <= h /\ t <> [];
  enc_bytes : forall c, valid c -> bytes (enc c);
  enc_inj : forall c d, valid c -> valid d -> enc c = enc d -> c = d
}.

Section mb_charset.
Context `{MbCharset ismbchar enc valid}.
Local Abbreviation str cs := (encode enc cs).

Lemma encode_cons c cs : str (c :: cs) = enc c ++ str cs.
Proof. done. Qed.

Lemma enc_ne c : valid c -> enc c <> [].
Proof. intros Hc E. destruct (decide (enc c = [c])) as [Ec|Ec]; [congruence|]. destruct (enc_more c Hc Ec) as (_ & h & t & Eh & _). congruence. Qed.

Lemma mb_encode_nil cs : Forall valid cs -> str cs = [] <-> cs = [].
Proof.
  intros Hv. split; [|by intros ->]. destruct Hv as [|c cs Hc Hcs]; [done|]. intros [E _]%app_nil. by destruct (enc_ne c Hc).
Qed.

Lemma mb_encode_cons c cs : valid c -> str (c :: cs) <> [].
Proof. intros Hc [E _]%app_nil. by destruct (enc_ne c Hc). Qed.

Lemma mb_encode_length cs : Forall valid cs -> (length cs <= length (str cs))%nat.
Proof.
  induction 1 as [|c cs Hc Hcs IH]; [done|]. rewrite encode_cons, length_app. pose proof (enc_ne c Hc). destruct (enc c); [done|simpl; lia].
Qed.

Lemma ism_enc c r : valid c -> ismbchar (enc c ++ r) = if decide (enc c = [c]) then 0 else Z.of_nat (length (enc c)).
Proof. intros Hc. case_decide as E; [rewrite E; by apply ism_one|by apply ism_more]. Qed.

Lemma mb_step_enc c r : valid c -> mb_step ismbchar (enc c ++ r) = Z.of_nat (length (enc c)).
Proof.
  intros Hc. unfold mb_step. rewrite ism_enc by done. case_decide as E; [by rewrite E|]. pose proof (enc_ne c Hc).
  destruct (enc c); [done|]. by rewrite (proj2 (Z.eqb_neq _ _)) by (simpl; lia).
Qed.

Lemma inc_ptr_enc c r : valid c -> inc_ptr ismbchar (enc c ++ r) = r.
Proof. intros Hc. unfold inc_ptr. by rewrite mb_step_enc, Nat2Z.id, drop_app_length. Qed.

(** The first byte of a string tells whether its first character is a given ASCII
    character. *)
Lemma enc_head c r k : valid c -> 0 <= k < 128 -> exists h t, enc c ++ r = h :: t /\ (s8 h =? k) = (c =? k) /\ (h =? k) = (c =? k).
Proof.
  intros Hc Hk. pose proof (enc_bytes c Hc) as Hb. destruct (decide (enc c = [c])) as [E|E].
  - rewrite E in *. apply Forall_cons in Hb as [Hb _]. exists c, r. by rewrite s8_eqb.
  - destruct (enc_more c Hc E) as (Hc128 & h & t & Eh & Hh & _). rewrite Eh in *. apply Forall_cons in Hb as [Hb _].
    exists h, (t ++ r). rewrite s8_eqb, !(proj2 (Z.eqb_neq _ _)) by lia. done.
Qed.

Lemma enc_ascii c : valid c -> c < 128 -> enc c = [c].
Proof. intros Hc Hl. destruct (decide (enc c = [c])) as [E|E]; [done|]. destruct (enc_more c Hc E). lia. Qed.

(** No character starts with another. *)
Lemma enc_prefix c d r r' : valid c -> valid d -> enc c ++ r = enc d ++ r' -> c = d /\ r = r'.
Proof.
  intros Hc Hd E. assert (mb_step ismbchar (enc c ++ r) = mb_step ismbchar (enc d ++ r')) as El by by rewrite E.
  rewrite !mb_step_enc in El by done. apply app_inj_1 in E as [E ->]; [|lia]. split; [by apply enc_inj|done].
Qed.

(** [memcmp(str, wild, l)] at a character of [l] bytes. *)
Lemma same_prefix_enc c d r r' : valid c -> valid d ->
  same_prefix (Z.of_nat (length (enc c))) (enc d ++ r) (enc c ++ r') = bool_decide (d = c).
Proof.
  intros Hc Hd. unfold same_prefix. rewrite Nat2Z.id, take_app_length. case_bool_decide as E; [case_bool_decide as E2|case_bool_decide as E2].
  - rewrite andb_true_r. subst. apply Z.leb_le. rewrite length_app. lia.
  - exfalso. apply E2.
    assert (enc d ++ r = enc c ++ drop (length (enc c)) (enc d ++ r)) as E3 by (rewrite <- E at 1; by rewrite take_drop).
    by apply enc_prefix in E3 as [? _].
  - subst. by rewrite take_app_length in E.
  - by rewrite andb_false_r.
Qed.

(** *** Lengths *)

Lemma numchars_mb_spec fuel : forall cs, Forall valid cs -> (length cs < fuel)%nat ->
  numchars_mb ismbchar fuel (str cs) = Some (Z.of_nat (length cs)).
Proof.
  induction fuel as [|fuel IH]; intros cs Hcs Hf; [lia|]. cbn [numchars_mb]. destruct Hcs as [|c cs Hc Hcs]; [done|].
  destruct (str (c :: cs)) eqn:E; [by apply mb_encode_cons in E|]. rewrite <- E, encode_cons, inc_ptr_enc, IH by (done || (simpl in Hf; lia)).
  cbn [fmap option_fmap option_map length]. f_equal. lia.
Qed.

(** The place of the character number [k], or two bytes behind the end. *)
Lemma charpos_mb_spec fuel : forall cs k start, Forall valid cs -> (length cs < fuel)%nat ->
  charpos_mb ismbchar fuel (str cs) (Z.of_nat k) start =
  Some (start + if (k <=? length cs)%nat then Z.of_nat (length (str (take k cs))) else Z.of_nat (length (str cs)) + 2).
Proof.
  induction fuel as [|fuel IH]; intros cs k start Hcs Hf; [lia|]. cbn [charpos_mb]. destruct Hcs as [|c cs Hc Hcs].
  { unfold encode. destruct k; simpl; f_equal; lia. }
  destruct (str (c :: cs)) eqn:E; [by apply mb_encode_cons in E|]. rewrite <- E. clear E.
  destruct k as [|k]; [cbn; f_equal; lia|]. rewrite (proj2 (Z.eqb_neq _ _)) by lia. replace (Z.of_nat (S k) - 1) with (Z.of_nat k) by lia.
  rewrite encode_cons, inc_ptr_enc, mb_step_enc, IH by (done || (simpl in Hf; lia)).
  cbn [length Nat.leb take]. rewrite encode_cons. destruct (k <=? length cs)%nat; rewrite length_app; f_equal; lia.
Qed.

(** *** Case *)

(** The characters of one byte are converted by the table; the others stay. *)
Definition recase (map : list Z) (c : Z) : Z := if decide (enc c = [c]) then tab map c else c.

Lemma case_mb_spec map fuel : (forall c, valid c -> enc c = [c] -> valid (tab map c) /\ enc (tab map c) = [tab map c]) ->
  forall cs, Forall valid cs -> (length cs < fuel)%nat -> case_mb ismbchar fuel map (str cs) = Some (str (List.map (recase map) cs)).
Proof.
  intros Hmap. induction fuel as [|fuel IH]; intros cs Hcs Hf; [lia|]. cbn [case_mb]. destruct Hcs as [|c cs Hc Hcs]; [done|].
  pose proof (IH cs Hcs ltac:(simpl in Hf; lia)) as IHc. cbn [List.map]. rewrite !encode_cons. unfold recase at 1.
  pose proof (ism_enc c (str cs) Hc) as Hi. case_decide as E.
  - rewrite E in *. cbn [app] in *. rewrite Hi, Z.eqb_refl. cbn [negb]. rewrite IHc. by destruct (Hmap c Hc E) as [_ ->].
  - pose proof (enc_ne c Hc). destruct (enc c ++ str cs) eqn:Es; [apply app_nil in Es; tauto|]. rewrite Hi, <- Es.
    rewrite (proj2 (Z.eqb_neq _ _)) by (destruct (enc c); [done|simpl; lia]). cbn [negb].
    rewrite Nat2Z.id, take_app_length, drop_app_length, IHc. done.
Qed.
End mb_charset.
