(* ===== verification/MbLike.v ===== *)
(** * LIKE for the multi-byte character sets (strings/ctype-mb.c)

    [my_wildcmp_mb] and [my_wildcmp_mb_bin] compare with the pattern as the string it
    encodes: characters of one byte by their weights, the others by their bytes. *)

From stdpp Require Import base numbers list.
From Stdlib Require Import ZArith Lia.
From S2P Require Import Prelude Like Wild8 CtypeSimple Utf8 CtypeMb.

Local Open Scope Z_scope.

Section like.
Context `{MbCharset ismbchar enc valid}.
Variables (likeconv : Z -> Z) (found : Z -> Z -> bool) (escape w_one w_many past : Z).

(** The weight of a character: those of more than one byte are behind all the
    weights of bytes. *)
Definition mb_weight (c : Z) : Z := if decide (enc c = [c]) then likeconv c else 256 + c.

Abbreviation like := (Like.like mb_weight escape w_one w_many).
Abbreviation answers := (Like.answers mb_weight escape w_one w_many).
Abbreviation lift := (Like.lift mb_weight escape w_one w_many).
Abbreviation somewhere := (Like.somewhere mb_weight escape w_one w_many).
Abbreviation literal := (Like.literal escape).
Local Abbreviation str cs := (encode enc cs).
Local Abbreviation one c := (enc c%Z = [c%Z]).

Hypothesis ascii : 0 <= escape < 128 /\ 0 <= w_one < 128 /\ 0 <= w_many < 128.
Hypothesis distinct : escape <> w_one /\ escape <> w_many /\ w_one <> w_many.
Hypothesis past_ok : s8 past <> w_many.
(** Bytes have weights below 256, and a character of one byte never the weight of the
    first byte of another. *)
Hypothesis conv_byte : forall c, valid c -> one c -> likeconv c < 256.
Hypothesis conv_head : forall c d h t, valid c -> valid d -> one c -> ~ one d -> enc d = h :: t -> likeconv c <> likeconv h.
Hypothesis found_conv : forall x c, valid x -> valid c -> one x -> one c -> found x c = (likeconv x =? likeconv c).

Lemma mb_weight_one c : one c -> mb_weight c = likeconv c.
Proof. intros E. unfold mb_weight. by rewrite decide_True. Qed.

Lemma mb_weight_more c d : valid d -> ~ one d -> valid c -> mb_weight c = mb_weight d -> c = d.
Proof.
  intros Hd Hnd Hc E. unfold mb_weight in E. rewrite (decide_False (P := one d)) in E by done.
  destruct (enc_more d Hd Hnd) as (Hd128 & _). case_decide as Ec; [|lia]. pose proof (conv_byte c Hc Ec). lia.
Qed.

(** One character of the string against one of the pattern in the first loop. *)
Lemma anchor_step x lit cs rest : valid x -> valid lit ->
  (if negb (ismbchar (str (lit :: rest)) =? 0) then
     if same_prefix (ismbchar (str (lit :: rest))) (str (x :: cs)) (str (lit :: rest))
     then Some (drop (Z.to_nat (ismbchar (str (lit :: rest)))) (str (x :: cs)), drop (Z.to_nat (ismbchar (str (lit :: rest)))) (str (lit :: rest)))
     else None
   else match str (x :: cs), str (lit :: rest) with x :: s, y :: w => if likeconv y =? likeconv x then Some (s, w) else None | _, _ => None end) =
  if decide (mb_weight x = mb_weight lit) then Some (str cs, str rest) else None.
Proof.
  intros Hx Hl. rewrite !encode_cons, ism_enc by done. destruct (decide (one lit)) as [E|E].
  - cbn [Z.eqb negb]. rewrite E. cbn [app]. rewrite (mb_weight_one lit) by done.
    destruct (decide (one x)) as [Ex|Ex].
    + rewrite (mb_weight_one x), Ex by done. cbn [app]. rewrite Z.eqb_sym. destruct (Z.eqb_spec (likeconv x) (likeconv lit)); [by rewrite decide_True|by rewrite decide_False].
    + destruct (enc_more x Hx Ex) as (Hx128 & h & t & Eh & Hh & Ht). rewrite Eh. cbn [app].
      pose proof (conv_byte lit Hl E). pose proof (conv_head lit x h t Hl Hx E Ex Eh).
      rewrite (proj2 (Z.eqb_neq _ _)) by done. unfold mb_weight. rewrite (decide_False (P := one x)) by done.
      by rewrite decide_False by lia.
  - destruct (enc_more lit Hl E) as (_ & h & t & Eh & _). rewrite (proj2 (Z.eqb_neq _ _)) by (rewrite Eh; simpl; lia). cbn [negb].
    rewrite same_prefix_enc by done. case_bool_decide as Exl.
    + subst. rewrite Nat2Z.id, !drop_app_length. by rewrite decide_True.
    + rewrite decide_False; [done|]. intros Ew. by apply mb_weight_more in Ew.
Qed.

(** The literal the first loop compares, behind an escape character. *)
Lemma unescape_mb c w : valid c -> Forall valid w -> c <> w_many -> c <> w_one ->
  exists h r lit rest, str (c :: w) = h :: r /\ ((s8 h =? w_many) || (s8 h =? w_one)) = false /\
    (if (s8 h =? escape) && negb (bool_decide (r = [])) then r else h :: r) = str (lit :: rest) /\
    (if (h =? escape) && negb (bool_decide (r = [])) then r else h :: r) = str (lit :: rest) /\
    literal c w lit rest /\ valid lit /\ Forall valid rest /\ (length rest <= length w)%nat.
Proof.
  intros Hc Hw Hm Ho. destruct (enc_head c (str w) w_many Hc) as (h & r & E & Em & _); [lia|].
  destruct (enc_head c (str w) w_one Hc) as (h1 & r1 & E1 & Eo & _); [lia|].
  destruct (enc_head c (str w) escape Hc) as (h2 & r2 & E2 & Ee & Ee'); [lia|].
  rewrite E in E1, E2. injection E1 as <- <-. injection E2 as <- <-. exists h, r. rewrite Em, Eo, Ee, Ee', !(proj2 (Z.eqb_neq c _)) by done.
  rewrite encode_cons. destruct (Z.eqb_spec c escape) as [->|Hne]; cbn [andb].
  - rewrite enc_ascii in E by (done || lia). injection E as <- <-. destruct Hw as [|e w He Hw].
    + exists escape, []. rewrite bool_decide_eq_true_2 by done. cbn [negb]. rewrite encode_cons, enc_ascii by (done || lia).
      split_and!; try done; by constructor.
    + exists e, w. rewrite bool_decide_eq_false_2 by (by apply mb_encode_cons). rewrite enc_ascii by (done || lia).
      split_and!; try done; [|simpl; lia]. unfold literal. by rewrite Z.eqb_refl.
  - exists c, w. rewrite encode_cons. split_and!; try done. unfold literal. destruct w; [done|]. by rewrite (proj2 (Z.eqb_neq _ _)).
Qed.

Abbreviation wild_head c := (c = w_many \/ c = w_one).

Lemma end_answer cs : Forall valid cs -> b2z (negb (bool_decide (str cs = []))) = b2z (negb (bool_decide (cs = []))).
Proof. intros Hcs. do 2 f_equal. apply bool_decide_ext. by apply mb_encode_nil. Qed.

Lemma anchors_mb_spec fuel : forall cs w result, Forall valid cs -> Forall valid w -> w <> [] -> (length w < fuel)%nat ->
  result = -1 \/ result = 1 ->
  exists out, anchors_mb ismbchar likeconv escape w_one w_many fuel (str cs) (str w) result = Some out /\
  match out with
  | Ret r => answers cs w r
  | Go s wi result' => exists cs' w', s = str cs' /\ wi = str w' /\ Forall valid cs' /\ Forall valid w' /\ (length w' <= length w)%nat /\
      lift cs w cs' w' /\ (result' = -1 \/ result' = 1) /\ exists c w2, w' = c :: w2 /\ wild_head c
  end.
Proof.
  induction fuel as [|fuel IH]; intros cs w result Hcs Hw Hne Hf Hres; [lia|]. destruct Hw as [|c w Hc Hw]; [done|].
  destruct (decide (wild_head c)) as [Hwild|Hwild].
  { destruct (enc_head c (str w) w_many Hc) as (h & r & E & Em & _); [lia|].
    destruct (enc_head c (str w) w_one Hc) as (h1 & r1 & E1 & Eo & _); [lia|].
    rewrite encode_cons, E in *. injection E1 as <- <-. cbn [anchors_mb]. rewrite Em, Eo.
    assert (((c =? w_many) || (c =? w_one)) = true) as -> by (apply orb_true_iff; destruct Hwild; [left|right]; by apply Z.eqb_eq).
    eexists; split; [done|]. exists cs, (c :: w). rewrite encode_cons, E. split_and!; auto using lift_refl. by exists c, w. }
  destruct (unescape_mb c w Hc Hw) as (h & r & lit & rest & E & Ewild & Elit & _ & Hlit & Hvl & Hvr & Hlen); [tauto..|]. rewrite E. cbn [anchors_mb].
  rewrite Ewild, Elit.
  assert (c <> w_many /\ c <> w_one) as [Hm Ho] by tauto. destruct Hcs as [|x cs Hx Hcs].
  { exists (Ret 1). split; [|by eapply answers_differs]. rewrite encode_cons, ism_enc by done. change (str []) with (@nil Z).
    case_decide as El; [done|]. destruct (enc_more lit Hvl El) as (_ & h' & t & Eh & _).
    rewrite (proj2 (Z.eqb_neq _ _)) by (rewrite Eh; simpl; lia). cbn [negb].
    unfold same_prefix. rewrite (proj2 (Z.leb_gt _ _)) by (rewrite Eh; simpl; lia). done. }
  rewrite (anchor_step x lit cs rest) by done. case_decide as Hxl.
  - pose proof (lift_literal mb_weight escape w_one w_many c w lit rest x cs Hm Ho Hlit Hxl) as Hlift. destruct rest as [|e rest].
    + change (str []) with (@nil Z). eexists; split; [done|]. cbn. rewrite end_answer by done. eapply lift_answers; [exact Hlift|]. apply answers_end.
    + destruct (IH cs (e :: rest) 1 Hcs Hvr) as (out & Hout & Hspec); [done|simpl in *; lia|by right|].
      exists out. split.
      { apply Forall_cons in Hvr as [He _]. pose proof (mb_encode_cons e rest He). by destruct (str (e :: rest)). }
      destruct out as [q|s wi result']; [by eapply lift_answers|].
      destruct Hspec as (cs' & w' & -> & -> & ? & ? & ? & ? & ? & ?). exists cs', w'. split_and!; try done; [simpl in *; lia|by eapply lift_trans].
  - eexists; split; [done|]. cbn. eapply answers_differs; [done..|]. by intros ? ? [= <- _].
Qed.

(** The wildcard at the head of the pattern, or none. *)
Lemma enc_wild c w k : valid c -> 0 <= k < 128 ->
  (c = k /\ str (c :: w) = k :: str w) \/ (c <> k /\ exists h r, str (c :: w) = h :: r /\ (s8 h =? k) = false).
Proof.
  intros Hc Hk. rewrite encode_cons. destruct (decide (c = k)) as [->|Hne]; [left; split; [done|]; by rewrite enc_ascii by (done || lia)|].
  right. split; [done|]. destruct (enc_head c (str w) k Hc Hk) as (h & r & E & Ek & _). exists h, r. split; [done|].
  rewrite Ek. by apply Z.eqb_neq.
Qed.

Lemma ones_mb_spec w : forall cs result, Forall valid cs -> Forall valid w -> result = -1 \/ result = 1 ->
  match ones_mb ismbchar w_one (str w) (str cs) result with
  | Ret r => answers cs w r
  | Go s wi result' => exists cs' w', s = str cs' /\ wi = str w' /\ Forall valid cs' /\ Forall valid w' /\ (length w' <= length w)%nat /\
      lift cs w cs' w' /\ result' = result /\ (w' = w \/ (length w' < length w)%nat) /\ (forall c w2, w' = c :: w2 -> c <> w_one)
  end.
Proof.
  induction w as [|c w IH]; intros cs result Hcs Hw Hres.
  { exists cs, []. split_and!; auto using lift_refl. }
  apply Forall_cons in Hw as Hw'. destruct Hw' as [Hc Hw']. destruct (enc_wild c w w_one Hc) as [[-> E]|(Hne & h & r & E & Eh)]; [lia|..].
  - rewrite E. cbn [ones_mb]. rewrite (s8_eqb w_one w_one), Z.eqb_refl by lia. destruct Hcs as [|x cs Hx Hcs].
    + cbn. assert (~ like [] (w_one :: w)) as Hn by (by intros (? & ? & ? & _)%like_one_inv).
      split_and!; try lia; [split; [lia|done]|intros _; by apply hopeless_nil].
    + specialize (IH cs result Hcs Hw' Hres). pose proof (mb_encode_cons x cs Hx).
      assert (inc_ptr ismbchar (str (x :: cs)) = str cs) as Ei by (rewrite encode_cons; by apply inc_ptr_enc).
      destruct (str (x :: cs)) eqn:Ex; [done|]. rewrite Ei.
      destruct (ones_mb ismbchar w_one (str w) (str cs) result) as [q|s wi result'].
      * eapply lift_answers; [by apply lift_one|done].
      * destruct IH as (cs' & w' & -> & -> & ? & ? & ? & ? & ? & ? & ?). exists cs', w'.
        split_and!; try done; [simpl; lia|eapply lift_trans; [by apply lift_one|done]|right; simpl; lia].
  - rewrite E. cbn [ones_mb]. rewrite Eh. exists cs, (c :: w). rewrite E. split_and!; auto using lift_refl. by intros ? ? [= <- <-].
Qed.

Lemma skip_wild_mb_spec w : forall cs, Forall valid cs -> Forall valid w ->
  match skip_wild_mb ismbchar w_one w_many (str w) (str cs) with
  | Ret r => r = -1 /\ ~ somewhere cs w
  | Go s wi _ => exists cs' w', s = str cs' /\ wi = str w' /\ Forall valid cs' /\ Forall valid w' /\ (length w' <= length w)%nat /\
      (somewhere cs w <-> somewhere cs' w') /\ (forall c w2, w' = c :: w2 -> c <> w_one /\ c <> w_many)
  end.
Proof.
  induction w as [|c w IH]; intros cs Hcs Hw.
  { exists cs, []. split_and!; auto; done. }
  apply Forall_cons in Hw as Hw'. destruct Hw' as [Hc Hw'].
  destruct (enc_wild c w w_many Hc) as [[-> E]|(Hm & h & r & E & Eh)]; [lia|..].
  { rewrite E. cbn [skip_wild_mb]. rewrite (s8_eqb w_many w_many), Z.eqb_refl by lia. specialize (IH cs Hcs Hw').
    destruct (skip_wild_mb ismbchar w_one w_many (str w) (str cs)); [by rewrite somewhere_many|].
    destruct IH as (cs' & w' & -> & -> & ? & ? & ? & ? & ?). exists cs', w'. split_and!; try done; [simpl; lia|by rewrite somewhere_many]. }
  destruct (enc_wild c w w_one Hc) as [[-> E1]|(Ho & h1 & r1 & E1 & Eh1)]; [lia|..]; rewrite E1 in E; injection E as <- <-; rewrite E1; cbn [skip_wild_mb]; rewrite Eh.
  - rewrite (s8_eqb w_one w_one), Z.eqb_refl by lia. destruct Hcs as [|x cs Hx Hcs].
    + split; [done|]. intros (s1 & s2 & E & (? & ? & -> & _)%like_one_inv); [by destruct s1|done].
    + specialize (IH cs Hcs Hw'). pose proof (mb_encode_cons x cs Hx).
      assert (inc_ptr ismbchar (str (x :: cs)) = str cs) as Ei by (rewrite encode_cons; by apply inc_ptr_enc).
      destruct (str (x :: cs)) eqn:Ex; [done|]. rewrite Ei.
      destruct (skip_wild_mb ismbchar w_one w_many (str w) (str cs)); [by rewrite somewhere_one|].
      destruct IH as (cs' & w' & -> & -> & ? & ? & ? & ? & ?). exists cs', w'. split_and!; try done; [simpl; lia|by rewrite somewhere_one].
  - rewrite Eh1. exists cs, (c :: w). rewrite E1. split_and!; auto. by intros ? ? [= <- <-].
Qed.

(** One character of the string against the one behind [w_many]. *)
Lemma find_step x lit cs rest : valid x -> valid lit ->
  exists cmp more, str (lit :: rest) = cmp :: more /\
  (if negb (ismbchar (str (lit :: rest)) =? 0)
   then if same_prefix (ismbchar (str (lit :: rest))) (str (x :: cs)) (str (lit :: rest))
        then Some (drop (Z.to_nat (ismbchar (str (lit :: rest)))) (str (x :: cs))) else None
   else match str (x :: cs) with y :: s => if (ismbchar (str (x :: cs)) =? 0) && found y cmp then Some s else None | [] => None end) =
  if decide (mb_weight x = mb_weight lit) then Some (str cs) else None.
Proof.
  intros Hx Hl. pose proof (mb_encode_cons lit rest Hl). destruct (str (lit :: rest)) as [|cmp more] eqn:Elit; [done|]. exists cmp, more.
  split; [done|]. rewrite <- Elit. rewrite !encode_cons, !ism_enc in * by done. destruct (decide (one lit)) as [E|E].
  - rewrite E in Elit. injection Elit as <- <-. cbn [Z.eqb negb]. rewrite (mb_weight_one lit) by done.
    destruct (decide (one x)) as [Ex|Ex].
    + rewrite (mb_weight_one x), Ex by done. cbn [app Z.eqb andb]. rewrite found_conv by done.
      destruct (Z.eqb_spec (likeconv x) (likeconv lit)); [by rewrite decide_True|by rewrite decide_False].
    + destruct (enc_more x Hx Ex) as (Hx128 & h & t & Eh & Hh & Ht). pose proof (conv_byte lit Hl E).
      rewrite (proj2 (Z.eqb_neq _ _)) by (rewrite Eh; simpl; lia). rewrite Eh. cbn [app andb].
      unfold mb_weight. rewrite (decide_False (P := one x)) by done. by rewrite decide_False by lia.
  - destruct (enc_more lit Hl E) as (_ & h & t & Eh & _). rewrite (proj2 (Z.eqb_neq _ _)) by (rewrite Eh; simpl; lia). cbn [negb].
    rewrite same_prefix_enc by done. case_bool_decide as Exl.
    + subst. rewrite Nat2Z.id, !drop_app_length. by rewrite decide_True.
    + rewrite decide_False; [done|]. intros Ew. by apply mb_weight_more in Ew.
Qed.

Lemma past_head rest : Forall valid rest -> (s8 (default past (head (str rest))) =? w_many) = bool_decide (head rest = Some w_many).
Proof.
  intros Hr. destruct Hr as [|c w Hc Hw]; [by apply Z.eqb_neq|].
  destruct (enc_head c (str w) w_many Hc) as (h & r & E & Eh & _); [lia|]. rewrite encode_cons, E. cbn. rewrite Eh.
  destruct (Z.eqb_spec c w_many) as [->|Hne]; [by rewrite bool_decide_eq_true_2|rewrite bool_decide_eq_false_2; congruence].
Qed.

(** The search for the places of the character behind [w_many]. *)
Lemma find_mb_spec rec lit rest cmp more fuel : valid lit -> Forall valid rest -> str (lit :: rest) = cmp :: more ->
  (forall cs, Forall valid cs -> exists t, rec (str cs) = Some t /\ answers cs rest t /\ (head rest = Some w_many -> t <> 1)) ->
  forall cs, Forall valid cs -> (length cs < fuel)%nat ->
  exists r, find_mb ismbchar found w_many past rec fuel (str (lit :: rest)) (ismbchar (str (lit :: rest))) cmp (str rest) (str cs) = Some r /\
    (r = 0 \/ r = -1) /\ (r = 0 <-> exists s1 x s2, cs = s1 ++ x :: s2 /\ mb_weight x = mb_weight lit /\ like s2 rest).
Proof.
  intros Hlit Hrest Ecmp Hrec. induction fuel as [|fuel IH]; intros cs Hcs Hf; [lia|]. cbn [find_mb]. destruct Hcs as [|x cs Hx Hcs].
  { exists (-1). split_and!; [done|by right|]. split; [lia|]. intros (s1 & ? & s2 & E & _). by destruct s1. }
  destruct (IH cs Hcs) as (r & Hr & Hr01 & Hiff); [simpl in Hf; lia|].
  assert ((exists s1 y s2, x :: cs = s1 ++ y :: s2 /\ mb_weight y = mb_weight lit /\ like s2 rest) <->
    (mb_weight x = mb_weight lit /\ like cs rest) \/ exists s1 y s2, cs = s1 ++ y :: s2 /\ mb_weight y = mb_weight lit /\ like s2 rest) as Hcons.
  { split.
    - intros (s1 & y & s2 & E & Hy & Hl). destruct s1 as [|z s1]; injection E as -> ->; [by left|right; by exists s1, y, s2].
    - intros [[? ?]|(s1 & y & s2 & -> & ? & ?)]; [by exists [], x, cs|by exists (x :: s1), y, s2]. }
  destruct (find_step x lit cs rest Hx Hlit) as (cmp' & more' & E & Hstep). rewrite Ecmp in E. injection E as <- <-.
  pose proof (mb_encode_cons x cs Hx). assert (inc_ptr ismbchar (str (x :: cs)) = str cs) as Ei by (rewrite encode_cons; by apply inc_ptr_enc).
  destruct (str (x :: cs)) as [|y s] eqn:Ex; [done|]. rewrite Hstep, Ei. clear Hstep. case_decide as Hw.
  - destruct (Hrec cs Hcs) as (t & -> & (Ht0 & Htm & Htr) & Hhead). rewrite bind_Some_eq. destruct (Z.leb_spec t 0) as [Hle|Hgt].
    + exists t. split; [done|]. split; [lia|]. rewrite Hcons, Ht0. split; [by left|].
      intros [[_ ?]|(s1 & z & s2 & -> & _ & Hl)]; [done|].
      destruct (decide (t = -1)) as [Et|Et]; [|apply Ht0; lia]. by destruct (Htm Et (s1 ++ [z]) s2); [rewrite <- app_assoc|].
    + assert (~ like cs rest) as Hn by (intros Hl%Ht0; lia).
      rewrite past_head, (bool_decide_eq_false_2 (head rest = _)) by (done || (intros E%Hhead; lia)).
      case_bool_decide as Es; cbn [negb andb]; eexists; (split; [done|]).
      * apply (proj1 (mb_encode_nil cs Hcs)) in Es. split; [by right|]. rewrite Hcons, <- Hiff. subst cs.
        destruct fuel; [simpl in Hf; lia|]. injection Hr as <-. split; [lia|]. by intros [[_ ?]|?].
      * split; [done|]. rewrite Hcons, <- Hiff. split; [by right|]. by intros [[_ ?]|?].
  - exists r. split_and!; try done. rewrite Hcons, <- Hiff. split; [by right|]. by intros [[? _]|?].
Qed.

Lemma many_mb_spec rec cs w : Forall valid cs -> Forall valid w ->
  (forall cs w', Forall valid cs -> Forall valid w' -> (length w' <= length w)%nat ->
     exists t, rec (str cs) (str w') = Some t /\ answers cs w' t /\ (head w' = Some w_many -> t <> 1)) ->
  exists r, many_mb ismbchar found escape w_one w_many past rec (str cs) (str w) = Some r /\ answers cs (w_many :: w) r /\ r <> 1.
Proof.
  intros Hcs Hw Hrec. unfold many_mb. pose proof (skip_wild_mb_spec w cs Hcs Hw) as Hskip.
  destruct (skip_wild_mb ismbchar w_one w_many (str w) (str cs)) as [r|s wi res].
  { destruct Hskip as [-> Hn]. exists (-1). split_and!; try done. apply answers_many; [done|by right|]. split; [lia|done]. }
  destruct Hskip as (cs' & w' & -> & -> & Hcs' & Hw' & Hlen & Hsome & Hhead). destruct Hw' as [|c w' Hc Hw'].
  { exists 0. split; [by destruct (str cs')|]. split; [|done]. apply answers_many; [done|by left|]. split; [intros _|done].
    apply Hsome. exists cs', []. rewrite app_nil_r. split; [done|constructor]. }
  destruct (Hhead c w' eq_refl) as [Ho Hm].
  destruct (unescape_mb c w' Hc Hw' Hm Ho) as (h & r0 & lit & rest & E & _ & _ & Elit & Hlit & Hvl & Hvr & Hlr).
  rewrite E, Elit. assert (inc_ptr ismbchar (str (lit :: rest)) = str rest) as Ei by (rewrite encode_cons; by apply inc_ptr_enc). rewrite Ei.
  pose proof (somewhere_literal mb_weight escape w_one w_many c w' lit rest cs' Hm Ho Hlit) as Hany.
  pose proof (mb_encode_cons lit rest Hvl). destruct (str (lit :: rest)) as [|cmp more] eqn:Ecmp; [done|].
  destruct (find_mb_spec (fun s => rec s (str rest)) lit rest cmp more (S (length (str cs'))) Hvl Hvr Ecmp) with (cs := cs') as (r & Hr & Hr01 & Hiff).
  { intros s Hs. apply Hrec; [done..|simpl in Hlen; lia]. }
  { done. }
  { pose proof (mb_encode_length cs' Hcs'). lia. }
  assert (answers cs (w_many :: w) r) as Hans by (apply answers_many; [done..|]; by rewrite Hsome, Hany).
  destruct Hcs' as [|x cs' Hx Hcs'].
  - exists (-1). split; [done|]. split; [|done]. assert (r <> 0) as Hr0 by (intros (s1 & x & s2 & E' & _)%Hiff; by destruct s1).
    assert (r = -1) as <- by lia. done.
  - exists r. split; [|split; [done|lia]]. pose proof (mb_encode_cons x cs' Hx). rewrite Ecmp in Hr. destruct (str (x :: cs')); [done|exact Hr].
Qed.

Lemma wildcmp_mb_spec fuel : forall result cs w, Forall valid cs -> Forall valid w -> (length w < fuel)%nat -> result = -1 \/ result = 1 ->
  exists r, wildcmp_mb ismbchar likeconv found escape w_one w_many past fuel result (str cs) (str w) = Some r /\ answers cs w r /\
    (head w = Some w_many -> r <> 1).
Proof.
  induction fuel as [|fuel IH]; intros result cs w Hcs Hw Hf Hres; [lia|]. cbn [wildcmp_mb].
  destruct Hw as [|c0 w0 Hc0 Hw0].
  { exists (b2z (negb (bool_decide (str cs = [])))). rewrite end_answer by done. split_and!; [done|apply answers_end|done]. }
  assert (forall cs1 w1, Forall valid cs1 -> Forall valid w1 -> (S (length w1) <= length (c0 :: w0))%nat ->
    exists r, many_mb ismbchar found escape w_one w_many past
        (fun s wi => wildcmp_mb ismbchar likeconv found escape w_one w_many past fuel (-1) s wi) (str cs1) (str w1) = Some r /\
      answers cs1 (w_many :: w1) r /\ r <> 1) as Hmany.
  { intros cs1 w1 Hc1 Hw1 Hl1. apply many_mb_spec; [done..|]. intros s w' Hs Hw' Hl'. apply IH; [done..|simpl in *; lia|by left]. }
  destruct (str (c0 :: w0)) as [|h0 r0] eqn:E0; [by apply mb_encode_cons in E0|]. rewrite <- E0.
  destruct (decide (c0 = w_many)) as [->|Hc0m].
  { rewrite encode_cons, enc_ascii in E0 by (done || lia). injection E0 as <- <-. rewrite encode_cons, enc_ascii by (done || lia). cbn [app anchors_mb length].
    assert (s8 w_many =? w_many = true) as Em by (rewrite (s8_eqb w_many w_many), Z.eqb_refl by lia; done).
    rewrite Em. cbn [orb]. rewrite bind_Some_eq. cbn [ones_mb]. rewrite (s8_eqb w_many w_one), (proj2 (Z.eqb_neq w_many w_one)), Em by lia.
    destruct (Hmany cs w0 Hcs Hw0) as (r & ? & ? & ?); [done|]. eauto. }
  pose proof (mb_encode_length (c0 :: w0) ltac:(by constructor)) as Hlen0.
  destruct (anchors_mb_spec (S (length (str (c0 :: w0)))) cs (c0 :: w0) result Hcs) as (out & Hout & Hspec); [by constructor|done|lia|done|].
  rewrite Hout, bind_Some_eq. clear Hout E0 h0 r0. destruct out as [r|s wi result1].
  { exists r. split_and!; try done. simpl. congruence. }
  destruct Hspec as (cs1 & w1 & -> & -> & Hcs1 & Hw1 & Hl1 & Hlift1 & Hres1 & c & w2 & -> & Hwild).
  pose proof (ones_mb_spec (c :: w2) cs1 result1 Hcs1 Hw1 Hres1) as Hones.
  destruct (ones_mb ismbchar w_one (str (c :: w2)) (str cs1) result1) as [r|s wi result3].
  { exists r. split_and!; [done|by eapply lift_answers|simpl; congruence]. }
  destruct Hones as (cs3 & w3 & -> & -> & Hcs3 & Hw3 & Hl3 & Hlift2 & -> & Hsame & Hhead). destruct Hw3 as [|c3 w3 Hc3 Hw3].
  { change (str []) with (@nil Z). exists (b2z (negb (bool_decide (str cs3 = [])))). rewrite end_answer by done. split_and!; [done| |simpl; congruence].
    eapply lift_answers; [exact Hlift1|]. eapply lift_answers; [exact Hlift2|]. apply answers_end. }
  assert (forall r, answers cs3 (c3 :: w3) r -> answers cs (c0 :: w0) r) as Hdone.
  { intros r Hr. eapply lift_answers; [exact Hlift1|]. by eapply lift_answers. }
  assert (head (c0 :: w0) <> Some w_many) as Hnm by (simpl; congruence).
  destruct (enc_wild c3 w3 w_many Hc3) as [[-> E]|(Hne & h & r0 & E & Eh)]; [lia|..]; rewrite E.
  - rewrite (s8_eqb w_many w_many), Z.eqb_refl by lia. destruct (Hmany cs3 w3 Hcs3 Hw3) as (r & ? & ? & _); [simpl in *; lia|]. exists r. auto.
  - rewrite Eh, <- E. destruct (IH result1 cs3 (c3 :: w3) Hcs3) as (r & ? & ? & _); [by constructor| |done|exists r; auto].
    destruct Hsame as [[= -> ->]|Hlt]; [|simpl in *; lia]. specialize (Hhead c w2 eq_refl). destruct Hwild; congruence.
Qed.
End like.
