(* ===== verification/MbTwo.v ===== *)
(** * Character sets with characters of one and two bytes

    big5, gbk, gb2312, euckr, sjis and cp932 differ in which bytes start a character of
    two bytes and which end one ([head] and [tail]).  Their comparisons walk the strings
    in two ways: sjis and cp932 to the ends of the strings, big5 and gbk for the length
    of the shorter one.  The theorems reduce both to the order of the weights. *)

From stdpp Require Import base numbers list.
From Stdlib Require Import ZArith Lia.
From S2P Require Import Prelude Collate CtypeBin CtypeSimple Utf8 CtypeMb.

Local Open Scope Z_scope.

Section two.
Variables head2 tail2 : Z -> bool.

(** The [ismbchar] of these sets. *)
Definition two_ismbchar (s : list Z) : Z :=
  match s with c :: d :: _ => if head2 c && tail2 d then 2 else 0 | _ => 0 end.

Definition two_mbcharlen (c : Z) : Z := if head2 (u8 c) then 2 else 1.

(** A character is its byte, or the number of its two bytes. *)
Definition two_enc (c : Z) : list Z := if c <? 256 then [c] else [c / 256; c mod 256].

Definition two_char (c : Z) : bool :=
  (0 <=? c) && if c <? 256 then negb (head2 c) else (c <? 0x10000) && head2 (c / 256) && tail2 (c mod 256).

(** No ASCII character starts one of two bytes. *)
Class HighHead : Prop := { high_head : forall c, head2 c = true -> 128 <= c }.

Lemma two_one c : two_enc c = [c] <-> c < 256.
Proof. unfold two_enc. destruct (Z.ltb_spec c 256); split; done || lia. Qed.

Lemma two_char_two c : two_char c = true -> 256 <= c -> two_enc c = [c / 256; c mod 256] /\ head2 (c / 256) = true /\ tail2 (c mod 256) = true /\
  c < 0x10000.
Proof. intros Hc Hl. unfold two_char, two_enc in *. rewrite (proj2 (Z.ltb_ge c 256)) in * by done. b2p. done. Qed.

Lemma two_char_one c : two_char c = true -> c < 256 -> two_enc c = [c] /\ head2 c = false /\ 0 <= c.
Proof. intros Hc Hl. unfold two_char, two_enc in *. rewrite (proj2 (Z.ltb_lt c 256)) in * by done. b2p. done. Qed.

#[export] Instance two_charset `{HighHead} : MbCharset two_ismbchar two_enc (fun c => two_char c = true).
Proof.
  split.
  - intros c r Hc E%two_one. destruct (two_char_one c Hc E) as (_ & Hh & _). unfold two_ismbchar. rewrite Hh. by destruct r.
  - intros c r Hc E. assert (256 <= c) as Hl by (rewrite two_one in E; lia).
    destruct (two_char_two c Hc Hl) as (-> & Hh & Ht & _). cbn. by rewrite Hh, Ht.
  - intros c Hc E. assert (256 <= c) as Hl by (rewrite two_one in E; lia).
    destruct (two_char_two c Hc Hl) as (-> & Hh & Ht & _). split; [lia|]. eexists _, _. split; [done|]. split; [by apply high_head|done].
  - intros c Hc. destruct (Z.lt_ge_cases c 256) as [Hl|Hl].
    + destruct (two_char_one c Hc Hl) as (-> & _ & ?). repeat constructor; lia.
    + destruct (two_char_two c Hc Hl) as (-> & _ & _ & ?). repeat constructor; dlia.
  - intros c d Hc Hd E. unfold two_enc in E.
    destruct (Z.ltb_spec c 256), (Z.ltb_spec d 256); try done; [by injection E|]. injection E as E1 E2.
    rewrite (Z.div_mod c 256), (Z.div_mod d 256) by lia. congruence.
Qed.

(** ** Well-formed strings *)

(** [my_well_formed_len] of big5, gbk, sjis and cp932; [kana] are the bytes above ASCII
    that are characters. *)
Fixpoint two_well_formed_len (kana : Z -> bool) (fuel : nat) (b : list Z) (pos : nat) : Z * Z :=
  match fuel, pos, b with
  | S fuel, S pos, c :: b' =>
      let next n rest := let '(len, error) := two_well_formed_len kana fuel rest pos in (n + len, error) in
      if c <? 128 then next 1 b'
      else
        match b' with
        | d :: b'' => if head2 c && tail2 d then next 2 b'' else if kana c then next 1 b' else (0, 1)
        | [] => if kana c then next 1 b' else (0, 1)
        end
  | _, _, _ => (0, 0)
  end.
End two.

(** ** Comparison in two ways *)

(** The difference of the first two characters that differ, or the rests of the strings
    when one of them is at its end. *)
Fixpoint ends_internal (ismbchar : list Z -> Z) (so : list Z) (fuel : nat) (a b : list Z) : option (Z + list Z * list Z) :=
  match fuel with
  | O => None
  | S fuel =>
      match a, b with
      | x :: a', y :: b' =>
          match (if negb (ismbchar a =? 0) && negb (ismbchar b =? 0) then
                   match a', b' with
                   | x1 :: a'', y1 :: b'' =>
                       let a_char := x * 256 + x1 in
                       let b_char := y * 256 + y1 in
                       Some (if negb (a_char =? b_char) then inl (a_char - b_char) else inr (a'', b''))
                   | _, _ => None
                   end
                 else Some (if negb (tab so x =? tab so y) then inl (tab so x - tab so y) else inr (a', b')))
          with
          | None => None
          | Some (inl r) => Some (inl r)
          | Some (inr (a, b)) => ends_internal ismbchar so fuel a b
          end
      | _, _ => Some (inr (a, b))
      end
  end.

(** [diff] is the result for two characters of two bytes that differ. *)
Fixpoint length_internal (code : Z -> Z -> bool) (so : list Z) (diff : Z -> Z -> Z) (length : nat) (a b : list Z) : Z + list Z * list Z :=
  match length with
  | O => inr (a, b)
  | S length =>
      let one :=
        match a, b with
        | x :: a, y :: b => if negb (tab so x =? tab so y) then inl (tab so x - tab so y) else length_internal code so diff length a b
        | _, _ => inr (a, b)
        end in
      match length, a, b with
      | S length', x :: x1 :: a', y :: y1 :: b' =>
          if code x x1 && code y y1 then
            if negb (x =? y) || negb (x1 =? y1) then inl (diff (x * 256 + x1) (y * 256 + y1))
            else length_internal code so diff length' a' b'
          else one
      | _, _, _ => one
      end
  end.

(** [my_strnncoll] and [my_strnncollsp] of sjis; [diff_if_only_endspace_difference] is
    overwritten with 0. *)
Definition ends_strnncoll (ismbchar : list Z -> Z) (so : list Z) (a b : list Z) (b_is_prefix : bool) : option Z :=
  out ← ends_internal ismbchar so (S (length a)) a b;
  let res := match out with inl r => r | inr _ => 0 end in
  let a_length := if b_is_prefix && (len32 b <? len32 a) then len32 b else len32 a in
  Some (if negb (res =? 0) then res else s32 (a_length - len32 b)).

Definition ends_strnncollsp (ismbchar : list Z -> Z) (so : list Z) (a b : list Z) : option Z :=
  out ← ends_internal ismbchar so (S (length a)) a b;
  match out with
  | inl r => Some r
  | inr ([], []) => Some 0
  | inr (a, b) => Some (if bool_decide (a = []) then endspace (-1) 0 b else endspace 1 0 a)
  end.

(** The key of sjis and cp932, of [len] bytes. *)
Fixpoint ends_xfrm (ismbchar : list Z -> Z) (so : list Z) (len : nat) (src : list Z) : list Z :=
  match len, src with
  | S len, c :: s =>
      if negb (ismbchar src =? 0) then
        c :: match len, s with S len, d :: s => d :: ends_xfrm ismbchar so len s | _, _ => [] end
      else tab so c :: ends_xfrm ismbchar so len s
  | _, _ => []
  end.

Definition ends_strnxfrm (ismbchar : list Z -> Z) (so : list Z) (len : nat) (src : list Z) : list Z :=
  ends_xfrm ismbchar so len src ++ replicate (len - length src) 32.

(** The functions of big5 and gbk; the pointers stay when there is a difference. *)
Definition length_result (code : Z -> Z -> bool) (so : list Z) (diff : Z -> Z -> Z) (a b : list Z) : Z * list Z * list Z :=
  match length_internal code so diff (min (length a) (length b)) a b with inl r => (r, a, b) | inr (a', b') => (0, a', b') end.

Definition length_strnncoll (code : Z -> Z -> bool) (so : list Z) (diff : Z -> Z -> Z) (a b : list Z) (b_is_prefix : bool) : Z :=
  let '(res, _, _) := length_result code so diff a b in
  if negb (res =? 0) then res else s32 ((if b_is_prefix then Z.min (len32 a) (len32 b) else len32 a) - len32 b).

Definition length_strnncollsp (code : Z -> Z -> bool) (so : list Z) (diff : Z -> Z -> Z) (a b : list Z) : Z :=
  let '(res, a', b') := length_result code so diff a b in
  let n := min (length a) (length b) in
  if (res =? 0) && negb (length a =? length b)%nat then
    if (length a <? length b)%nat then endspace (-1) 0 (take (length b - n) b') else endspace 1 0 (take (length a - n) a')
  else res.

(** Their key has a weight of two bytes for a character of two bytes; all the bytes of
    [src] are written, whatever [dstlen] is. *)
Fixpoint length_xfrm (code : Z -> Z -> bool) (so : list Z) (weight2 : Z -> Z) (src : list Z) : list Z :=
  match src with
  | [] => []
  | c :: s =>
      match s with
      | d :: s' =>
          if code c d then let e := weight2 (c * 256 + d) in u8 (e / 256) :: u8 e :: length_xfrm code so weight2 s'
          else tab so c :: length_xfrm code so weight2 s
      | [] => [tab so c]
      end
  end.

Definition length_strnxfrm (code : Z -> Z -> bool) (so : list Z) (weight2 : Z -> Z) (dstlen : nat) (src : list Z) : list Z :=
  length_xfrm code so weight2 src ++ replicate (dstlen - length src) 32.

(** ** The order of the weights *)

Section order.
Variables head2 tail2 : Z -> bool.
Context `{!HighHead head2}.
Variables (so : list Z) (code2 : Z -> Z).
Local Abbreviation ismbchar := (two_ismbchar head2 tail2).
Local Abbreviation str cs := (encode two_enc cs).
Local Abbreviation chars cs := (Forall (fun c => two_char head2 tail2 c = true) cs).

(** The bytes of the key of a character. *)
Definition two_key (c : Z) : list Z := if c <? 256 then [tab so c] else [code2 c / 256; code2 c mod 256].

Local Abbreviation keys cs := (encode two_key cs).

Local Abbreviation is_char c := (two_char head2 tail2 c%Z = true).

(** A character of one byte compares with one of two bytes as with its first byte. *)
Hypothesis mixed : forall c d, is_char c -> is_char d -> c < 256 -> 256 <= d ->
  tab so c <> tab so (d / 256) /\ tab so c <> code2 d / 256 /\ (tab so c ?= tab so (d / 256)) = (tab so c ?= code2 d / 256).

Definition two_outcome (ca cb : list Z) (out : Z + list Z * list Z) : Prop :=
  match out with
  | inl r => exists p x y ka kb, keys ca = p ++ x :: ka /\ keys cb = p ++ y :: kb /\ x <> y /\ sign r = (x ?= y)
  | inr (s, t) => exists p ca' cb', keys ca = p ++ keys ca' /\ keys cb = p ++ keys cb' /\ s = str ca' /\ t = str cb' /\
      chars ca' /\ chars cb' /\ (ca' = [] \/ cb' = [])
  end.

Lemma two_outcome_cons c d ca cb out : two_key c = two_key d -> two_outcome ca cb out -> two_outcome (c :: ca) (d :: cb) out.
Proof.
  intros E. unfold two_outcome. rewrite !encode_cons, E. destruct out as [r|[s t]].
  - intros (p & x & y & ka & kb & -> & -> & ? & ?). exists (two_key d ++ p), x, y, ka, kb. by rewrite <- !app_assoc.
  - intros (p & ca' & cb' & -> & -> & ?). exists (two_key d ++ p), ca', cb'. by rewrite <- !app_assoc.
Qed.

Lemma sign_sub x y : sign (x - y) = (x ?= y).
Proof. unfold sign. by rewrite <- Z.compare_sub. Qed.

(** Two characters of two bytes with different weights. *)
Lemma two_outcome_codes c d ca cb r : 256 <= c -> 256 <= d -> code2 c <> code2 d -> sign r = (code2 c ?= code2 d) ->
  two_outcome (c :: ca) (d :: cb) (inl r).
Proof.
  intros Hc Hd Hne Hr. unfold two_outcome. rewrite !encode_cons. unfold two_key. rewrite !(proj2 (Z.ltb_ge _ 256)) by done.
  destruct (Z.eq_dec (code2 c / 256) (code2 d / 256)) as [E|E].
  - exists [code2 c / 256], (code2 c mod 256), (code2 d mod 256), (keys ca), (keys cb). rewrite Hr, E. split_and!; [done..| |].
    + intros E2. apply Hne. by rewrite (Z.div_mod (code2 c) 256), (Z.div_mod (code2 d) 256), E, E2 by lia.
    + destruct (Z.compare_spec (code2 c) (code2 d)); [done|symmetry; apply Z.compare_lt_iff; dlia|symmetry; apply Z.compare_gt_iff; dlia].
  - eexists [], (code2 c / 256), (code2 d / 256), _, _. split_and!; [done..|]. rewrite Hr.
    destruct (Z.compare_spec (code2 c) (code2 d)); [done|symmetry; apply Z.compare_lt_iff; dlia|symmetry; apply Z.compare_gt_iff; dlia].
Qed.

(** Two characters compared by the weights of their first bytes. *)
Lemma two_outcome_bytes c d ca cb x y a b : is_char c -> is_char d -> c < 256 \/ d < 256 ->
  str (c :: ca) = x :: a -> str (d :: cb) = y :: b ->
  if negb (tab so x =? tab so y) then two_outcome (c :: ca) (d :: cb) (inl (tab so x - tab so y))
  else two_key c = two_key d /\ a = str ca /\ b = str cb.
Proof.
  intros Hc Hd Hone Ea Eb. unfold two_outcome. rewrite !encode_cons in *. unfold two_key.
  destruct (Z.lt_ge_cases c 256) as [Lc|Lc], (Z.lt_ge_cases d 256) as [Ld|Ld]; [..|lia].
  - destruct (two_char_one _ _ c Hc Lc) as (E & _), (two_char_one _ _ d Hd Ld) as (E2 & _). rewrite E, E2 in *. injection Ea as <- <-. injection Eb as <- <-.
    rewrite !(proj2 (Z.ltb_lt _ 256)) by done. destruct (Z.eqb_spec (tab so c) (tab so d)) as [Ew|Ew]; cbn [negb].
    + by rewrite Ew.
    + eexists [], _, _, _, _. split_and!; [done..|apply sign_sub].
  - destruct (two_char_one _ _ c Hc Lc) as (E & _), (two_char_two _ _ d Hd Ld) as (E2 & _). rewrite E, E2 in *. injection Ea as <- <-. injection Eb as <- <-.
    rewrite (proj2 (Z.ltb_lt c 256)), (proj2 (Z.ltb_ge d 256)) by done. destruct (mixed c d) as (Hw & Hw2 & Hcmp); [done..|].
    rewrite (proj2 (Z.eqb_neq _ _)) by done. cbn [negb]. eexists [], _, _, _, _. split_and!; [done..|]. by rewrite sign_sub.
  - destruct (two_char_two _ _ c Hc Lc) as (E & _), (two_char_one _ _ d Hd Ld) as (E2 & _). rewrite E, E2 in *. injection Ea as <- <-. injection Eb as <- <-.
    rewrite (proj2 (Z.ltb_lt d 256)), (proj2 (Z.ltb_ge c 256)) by done. destruct (mixed d c) as (Hw & Hw2 & Hcmp); [done..|].
    rewrite (proj2 (Z.eqb_neq _ _)) by congruence. cbn [negb]. eexists [], _, _, _, _. split_and!; [done..|congruence|].
    rewrite sign_sub. by rewrite (Z.compare_antisym (tab so d)), Hcmp, <- Z.compare_antisym.
Qed.
Lemma two_cases c cs : is_char c ->
  (c < 256 /\ str (c :: cs) = c :: str cs /\ head2 c = false /\ ismbchar (str (c :: cs)) = 0) \/
  (256 <= c /\ str (c :: cs) = c / 256 :: c mod 256 :: str cs /\ head2 (c / 256) = true /\ tail2 (c mod 256) = true /\ ismbchar (str (c :: cs)) = 2).
Proof.
  intros Hc. rewrite encode_cons. destruct (Z.lt_ge_cases c 256) as [L|L].
  - left. destruct (two_char_one _ _ c Hc L) as (E & Hh & _). rewrite E. cbn. split_and!; try done. destruct (str cs); by rewrite ?Hh.
  - right. destruct (two_char_two _ _ c Hc L) as (E & Hh & Ht & _). rewrite E. cbn. by rewrite Hh, Ht.
Qed.

Lemma div_mod_256 c : c / 256 * 256 + c mod 256 = c.
Proof. pose proof (Z.div_mod c 256 ltac:(lia)). lia. Qed.

Lemma ends_internal_spec fuel : (forall c, code2 c = c) -> forall ca cb, chars ca -> chars cb -> (length ca < fuel)%nat ->
  exists out, ends_internal ismbchar so fuel (str ca) (str cb) = Some out /\ two_outcome ca cb out.
Proof.
  intros Hid. induction fuel as [|fuel IH]; intros ca cb Hca Hcb Hf; [lia|]. cbn [ends_internal]. destruct Hca as [|c ca Hc Hca].
  { eexists. split; [done|]. exists [], [], cb. split_and!; auto. }
  destruct Hcb as [|d cb Hd Hcb].
  { exists (inr (str (c :: ca), [])). split; [by destruct (str (c :: ca))|]. exists [], (c :: ca), []. split_and!; auto. }
  simpl in Hf. destruct (IH ca cb Hca Hcb) as (out & Hout & Hspec); [lia|].
  destruct (two_cases c ca Hc) as [(Lc & Ea & _ & Ia)|(Lc & Ea & _ & _ & Ia)], (two_cases d cb Hd) as [(Ld & Eb & _ & Ib)|(Ld & Eb & _ & _ & Ib)].
  all: rewrite <- Ea, <- Eb in Ia, Ib || idtac.
  1,2,3: rewrite Ea, Eb in *; rewrite Ia, Ib; cbn [Z.eqb negb andb];
    match goal with |- context [tab so ?x =? tab so ?y] =>
      pose proof (two_outcome_bytes c d ca cb x y _ _ Hc Hd ltac:(lia) Ea Eb) as Hstep; destruct (negb (tab so x =? tab so y)) end;
    [by eexists|destruct Hstep as (Hk & E1 & E2); rewrite ?E1, ?E2; exists out; split; [done|by apply two_outcome_cons]].
  rewrite Ea, Eb in *. rewrite Ia, Ib. cbn [Z.eqb negb andb]. rewrite !div_mod_256. destruct (Z.eqb_spec c d) as [->|Hne]; cbn [negb].
  - exists out. split; [done|]. by apply two_outcome_cons.
  - eexists. split; [done|]. apply two_outcome_codes; [done..|by rewrite !Hid|]. by rewrite sign_sub, !Hid.
Qed.

Lemma length_internal_spec diff :
  (forall c d, is_char c -> is_char d -> 256 <= c -> 256 <= d -> c <> d -> code2 c <> code2 d /\ sign (diff c d) = (code2 c ?= code2 d)) ->
  forall ca cb, chars ca -> chars cb ->
  two_outcome ca cb (length_internal (fun x y => head2 x && tail2 y) so diff (min (length (str ca)) (length (str cb))) (str ca) (str cb)).
Proof.
  intros Hdiff ca cb Hca. revert cb. induction Hca as [|c ca Hc Hca IH]; intros cb Hcb.
  { cbn. exists [], [], cb. split_and!; auto. }
  destruct Hcb as [|d cb Hd Hcb].
  { rewrite Nat.min_0_r. cbn [length_internal]. exists [], (c :: ca), []. split_and!; auto. }
  specialize (IH cb Hcb).
  destruct (two_cases c ca Hc) as [(Lc & Ea & Hh & _)|(Lc & Ea & Hh & Ht & _)], (two_cases d cb Hd) as [(Ld & Eb & Hh' & _)|(Ld & Eb & Hh' & Ht' & _)].
  1,2,3: rewrite Ea, Eb; cbn [length Nat.min length_internal];
    match goal with |- two_outcome _ _ (match _ with 0%nat => ?one | S _ => _ end) =>
      assert (two_outcome (c :: ca) (d :: cb) one) as Hone end;
    [match goal with |- context [tab so ?x =? tab so ?y] =>
      pose proof (two_outcome_bytes c d ca cb x y _ _ Hc Hd ltac:(lia) Ea Eb) as Hstep; destruct (negb (tab so x =? tab so y)) end;
      [done|destruct Hstep as (Hk & E1 & E2); first [apply two_outcome_cons; [done|exact IH] | apply (f_equal length) in E1, E2; simpl in E1, E2; lia]]|].
  4: { rewrite Ea, Eb. cbn [length Nat.min length_internal]. rewrite Hh, Ht, Hh', Ht', !div_mod_256. cbn [andb].
    destruct (Z.eq_dec c d) as [->|Hne].
    - rewrite !Z.eqb_refl. cbn [negb orb]. by apply two_outcome_cons.
    - destruct (Hdiff c d) as [Hw Hr]; [done..|].
      replace (negb (c / 256 =? d / 256) || negb (c mod 256 =? d mod 256)) with true; [by apply two_outcome_codes|].
      symmetry. apply orb_true_iff. destruct (Z.eqb_spec (c / 256) (d / 256)); [right|by left]. apply negb_true_iff, Z.eqb_neq. dlia. }
  all: clear -Hone Hh Hh'; repeat match goal with |- context [match ?x with _ => _ end] => destruct x eqn:?; try exact Hone end; b2p; congruence.
Qed.
(** *** What the comparisons return *)

Lemma length_keys cs : chars cs -> length (keys cs) = length (str cs).
Proof.
  induction 1 as [|c cs Hc Hcs IH]; [done|]. rewrite !encode_cons, !length_app, IH. f_equal. unfold two_key, two_enc. by destruct (c <? 256).
Qed.

Lemma two_outcome_lex ca cb out : chars ca -> chars cb -> two_outcome ca cb out ->
  match out with
  | inl r => r <> 0 /\ sign r = lex (keys ca) (keys cb) /\ ~ exists k, keys ca = keys cb ++ k
  | inr _ => lex (keys ca) (keys cb) = (Z.of_nat (length (str ca)) ?= Z.of_nat (length (str cb))) /\
      ((exists k, keys ca = keys cb ++ k) <-> (length (str cb) <= length (str ca))%nat)
  end.
Proof.
  intros Hca Hcb. rewrite <- !length_keys by done. destruct out as [r|[s t]].
  - intros (p & x & y & ka & kb & -> & -> & Hne & Hr). rewrite lex_app. cbn [lex].
    rewrite Hr. destruct (Z.compare_spec x y) as [E|E|E]; [done|..].
    all: split_and!; [intros ->; by vm_compute in Hr|done|].
    all: intros (k & Ek); rewrite <- app_assoc in Ek; apply app_inv_head in Ek; by injection Ek.
  - intros (p & ca' & cb' & -> & -> & _ & _ & _ & _ & He). rewrite lex_app, !length_app. split.
    + destruct He as [-> | ->]; [destruct (keys cb') as [|y kb]|destruct (keys ca') as [|x ka]]; cbn [lex encode map concat length]; symmetry;
        first [apply Z.compare_eq_iff; lia|apply Z.compare_lt_iff; lia|apply Z.compare_gt_iff; lia].
    + destruct He as [-> | ->]; cbn [encode map concat length].
      * split; [intros (k & E%(f_equal length)); rewrite !length_app in E; simpl in E; lia|].
        intros Hl. assert (keys cb' = []) as -> by (apply nil_length_inv; lia). exists []. by rewrite !app_nil_r.
      * split; [lia|]. intros _. exists (keys ca'). by rewrite app_nil_r.
Qed.

(** A character and its weight are on the same side of the space. *)
Hypothesis space_one : forall c, is_char c -> c < 256 -> (tab so c ?= 32) = (c ?= 32).
Hypothesis space_two : forall c, is_char c -> 256 <= c -> 32 < code2 c / 256.

Lemma endspace_keys swap cs : forall n, swap = 1 \/ swap = -1 -> chars cs -> (length (str cs) <= n)%nat ->
  sign (endspace swap 0 (str cs)) = if swap =? 1 then padded_cmp n (keys cs) [] else padded_cmp n [] (keys cs).
Proof.
  intros n Hs Hcs. revert n. induction Hcs as [|c cs Hc Hcs IH]; intros n Hn.
  { apply (endspace_spec swap [] n Hs). simpl. lia. }
  destruct (two_cases c cs Hc) as [(Lc & Ea & Hh & _)|(Lc & Ea & Hh & _)]; rewrite Ea in *; rewrite encode_cons; unfold two_key;
    (destruct n as [|n]; [simpl in Hn; lia|]); cbn [endspace].
  - rewrite (proj2 (Z.ltb_lt c 256)) by done. cbn [app padded_cmp head default from_option id tail].
    pose proof (space_one c Hc Lc) as Hsp. rewrite (Z.compare_antisym (tab so c)), Hsp. destruct (Z.eqb_spec c 32) as [->|Hne]; cbn [negb].
    + rewrite Z.compare_refl. apply IH. simpl in Hn. lia.
    + destruct (Z.ltb_spec c 32); [rewrite (proj2 (Z.compare_lt_iff c 32)) by lia|rewrite (proj2 (Z.compare_gt_iff c 32)) by lia];
        destruct Hs as [-> | ->]; done.
  - rewrite (proj2 (Z.ltb_ge c 256)) by done. cbn [app padded_cmp head default from_option id tail].
    pose proof (space_two c Hc Lc) as Hsp. pose proof (high_head _ _ Hh) as Hhigh. rewrite (Z.compare_antisym (code2 c / 256)), (proj2 (Z.compare_gt_iff _ _)) by done.
    rewrite (proj2 (Z.eqb_neq _ 32)), (proj2 (Z.ltb_ge _ 32)) by lia. by destruct Hs as [-> | ->].
Qed.

Lemma two_outcome_padded ca cb out n : chars ca -> chars cb -> (length (str ca) <= n)%nat -> (length (str cb) <= n)%nat ->
  two_outcome ca cb out ->
  padded_cmp n (keys ca) (keys cb) =
  match out with
  | inl r => sign r
  | inr (s, t) => sign (if bool_decide (s = []) then endspace (-1) 0 t else endspace 1 0 s)
  end.
Proof.
  intros Hca Hcb Hn Hn2. rewrite <- length_keys in Hn, Hn2 by done. destruct out as [r|[s t]].
  - intros (p & x & y & ka & kb & Ea & Eb & Hne & ->). rewrite Ea, Eb in *. rewrite !length_app in *. simpl in Hn.
    replace n with (length p + S (n - length p - 1))%nat by lia. rewrite padded_app. cbn [padded_cmp head default from_option id].
    by destruct (Z.compare_spec x y).
  - intros (p & ca' & cb' & Ea & Eb & -> & -> & Hca' & Hcb' & He). rewrite Ea, Eb, !length_app, !length_keys in * by done.
    replace n with (length p + (n - length p))%nat by lia. rewrite padded_app. case_bool_decide as E.
    + rewrite (endspace_keys (-1) cb' (n - length p)) by (auto; lia). apply (proj1 (mb_encode_nil _ Hca')) in E as ->. done.
    + destruct He as [-> | ->]; [done|]. by rewrite (endspace_keys 1 ca' (n - length p)) by (auto; lia).
Qed.

(** *** The two comparisons *)

Lemma lex_len32 (ca cb : list Z) : Z.of_nat (length ca) < 2 ^ 31 -> Z.of_nat (length cb) < 2 ^ 31 ->
  sign (s32 (len32 ca - len32 cb)) = (Z.of_nat (length ca) ?= Z.of_nat (length cb)).
Proof. intros Ha Hb. unfold len32. rewrite !u32_small, s32_small by lia. apply sign_sub. Qed.
Lemma ends_order ca cb n : (forall c, code2 c = c) -> chars ca -> chars cb ->
  Z.of_nat (length (str ca)) < 2 ^ 31 -> Z.of_nat (length (str cb)) < 2 ^ 31 -> (length (str ca) <= n)%nat -> (length (str cb) <= n)%nat ->
  (exists r, ends_strnncoll ismbchar so (str ca) (str cb) false = Some r /\ sign r = lex (keys ca) (keys cb)) /\
  (exists r, ends_strnncoll ismbchar so (str ca) (str cb) true = Some r /\ (r = 0 <-> exists k, keys ca = keys cb ++ k)) /\
  (exists r, ends_strnncollsp ismbchar so (str ca) (str cb) = Some r /\ sign r = padded_cmp n (keys ca) (keys cb)).
Proof.
  intros Hid Hca Hcb Hla Hlb Hn Hn2. unfold ends_strnncoll, ends_strnncollsp.
  destruct (ends_internal_spec (S (length (str ca))) Hid ca cb Hca Hcb) as (out & -> & Hout).
  { pose proof (mb_encode_length ca Hca). lia. }
  rewrite !bind_Some_eq. pose proof (two_outcome_lex ca cb out Hca Hcb Hout) as Hlex.
  rewrite (two_outcome_padded ca cb out n) by done. destruct out as [r|[s t]].
  - destruct Hlex as (Hr & Hs & Hp). rewrite (proj2 (Z.eqb_neq r 0)) by done. cbn [negb]. split_and!; exists r; [done| |done]. split; [done|]. tauto.
  - destruct Hlex as [Hs Hp]. cbn [Z.eqb negb]. split_and!; [eexists; split; [done|]..|].
    + cbn [andb]. rewrite Hs. by apply lex_len32.
    + rewrite Hp. cbn [andb]. unfold len32. rewrite !u32_small by lia.
      destruct (Z.ltb_spec (Z.of_nat (length (str cb))) (Z.of_nat (length (str ca)))); rewrite s32_small by lia; lia.
    + destruct s, t; by eexists.
Qed.

Lemma length_order diff ca cb n :
  (forall c d, is_char c -> is_char d -> 256 <= c -> 256 <= d -> c <> d -> code2 c <> code2 d /\ sign (diff c d) = (code2 c ?= code2 d)) ->
  chars ca -> chars cb -> Z.of_nat (length (str ca)) < 2 ^ 31 -> Z.of_nat (length (str cb)) < 2 ^ 31 ->
  (length (str ca) <= n)%nat -> (length (str cb) <= n)%nat ->
  let code x y := head2 x && tail2 y in
  sign (length_strnncoll code so diff (str ca) (str cb) false) = lex (keys ca) (keys cb) /\
  (length_strnncoll code so diff (str ca) (str cb) true = 0 <-> exists k, keys ca = keys cb ++ k) /\
  sign (length_strnncollsp code so diff (str ca) (str cb)) = padded_cmp n (keys ca) (keys cb).
Proof.
  intros Hdiff Hca Hcb Hla Hlb Hn Hn2 code. unfold length_strnncoll, length_strnncollsp, length_result.
  pose proof (length_internal_spec diff Hdiff ca cb Hca Hcb) as Hout. fold code in Hout.
  set (out := length_internal _ _ _ _ _ _) in *. clearbody out. pose proof (two_outcome_lex ca cb out Hca Hcb Hout) as Hlex.
  rewrite (two_outcome_padded ca cb out n) by done. destruct out as [r|[s t]].
  - destruct Hlex as (Hr & Hs & Hp). rewrite (proj2 (Z.eqb_neq r 0)) by done. cbn [negb andb]. tauto.
  - destruct Hlex as [Hs Hp]. cbn [Z.eqb negb andb]. split_and!.
    + rewrite Hs. by apply lex_len32.
    + rewrite Hp. unfold len32. rewrite !u32_small, s32_small by lia. lia.
    + destruct Hout as (p & ca' & cb' & Ea & Eb & -> & -> & Hca' & Hcb' & He).
      apply (f_equal length) in Ea, Eb. rewrite length_app, !length_keys in Ea, Eb by done.
      destruct (Nat.eqb_spec (length (str ca)) (length (str cb))) as [E|E]; cbn [negb].
      * assert (ca' = [] /\ cb' = []) as [-> ->]; [|done]. change (str []) with (@nil Z) in *.
        pose proof (mb_encode_length ca' Hca'). pose proof (mb_encode_length cb' Hcb').
        destruct He as [-> | ->]; change (length (str [])) with O in *; (split; [|done]) || (split; [done|]); apply nil_length_inv; lia.
      * destruct He as [-> | ->]; change (length (str [])) with O in *.
        -- rewrite bool_decide_eq_true_2 by done. rewrite (proj2 (Nat.ltb_lt _ _)) by lia. by rewrite take_ge by lia.
        -- rewrite bool_decide_eq_false_2, (proj2 (Nat.ltb_ge _ _)) by (lia || (intros E2; rewrite E2 in Ea; simpl in Ea; lia)). by rewrite take_ge by lia.
Qed.

(** *** Keys *)

Lemma two_key_one c : c < 256 -> two_key c = [tab so c].
Proof. intros Hc. unfold two_key. by rewrite (proj2 (Z.ltb_lt c 256)). Qed.

Lemma two_key_two c : 256 <= c -> two_key c = [code2 c / 256; code2 c mod 256].
Proof. intros Hc. unfold two_key. by rewrite (proj2 (Z.ltb_ge c 256)). Qed.

Lemma ends_strnxfrm_pad cs : (forall c, code2 c = c) -> chars cs -> forall n, ends_strnxfrm ismbchar so n (str cs) = pad n 32 (keys cs).
Proof.
  intros Hid Hcs n. unfold ends_strnxfrm, pad. rewrite length_keys by done. f_equal. revert n.
  induction Hcs as [|c cs Hc Hcs IH]; intros n; [by destruct n|]. destruct n as [|n]; [done|].
  destruct (two_cases c cs Hc) as [(Lc & Ea & Hh & Hi)|(Lc & Ea & Hh & Ht & Hi)]; rewrite Ea in *; rewrite encode_cons; cbn [ends_xfrm]; rewrite Hi; cbn [Z.eqb negb].
  - rewrite two_key_one by done. cbn [app take]. by rewrite IH.
  - rewrite two_key_two, Hid by done. cbn [app take]. destruct n as [|n]; [done|]. cbn [take]. by rewrite IH.
Qed.

Lemma length_strnxfrm_keys cs n : (forall c, is_char c -> 256 <= c -> 0 <= code2 c < 0x10000) -> chars cs ->
  length_strnxfrm (fun x y => head2 x && tail2 y) so code2 n (str cs) = keys cs ++ replicate (n - length (str cs)) 32.
Proof.
  intros Hfit Hcs. unfold length_strnxfrm. f_equal. clear n.
  induction Hcs as [|c cs Hc Hcs IH]; [done|].
  destruct (two_cases c cs Hc) as [(Lc & Ea & Hh & Hi)|(Lc & Ea & Hh & Ht & Hi)]; rewrite Ea in *; rewrite encode_cons.
  - rewrite two_key_one by done. cbn [app]. rewrite <- IH. cbn [length_xfrm]. rewrite Hh. cbn [andb]. by destruct (str cs).
  - rewrite two_key_two by done. cbn [app]. rewrite <- IH. cbn [length_xfrm]. rewrite Hh, Ht, div_mod_256. cbn [andb].
    pose proof (Hfit c Hc Lc). by rewrite u8_small by dlia.
Qed.
End order.

(** *** Tables of weights *)

(** ASCII characters have weights of ASCII characters, on the same side of the space, and
    every other byte is its own weight. *)
Definition ascii_order (so : list Z) (c : Z) : bool :=
  if c <? 128 then (0 <=? tab so c) && (tab so c <? 128) && Bool.eqb (tab so c <? 32) (c <? 32) && Bool.eqb (tab so c =? 32) (c =? 32)
  else tab so c =? c.

Class AsciiOrder (so : list Z) : Prop := { ascii_order_ok : forall c, 0 <= c < 256 -> ascii_order so c = true }.

Section tables.
Variables head2 tail2 : Z -> bool.
Context `{!HighHead head2} (so : list Z) `{!AsciiOrder so}.
Local Abbreviation is_char c := (two_char head2 tail2 c%Z = true).

Lemma so_high c : 128 <= c < 256 -> tab so c = c.
Proof. intros Hc. pose proof (ascii_order_ok c ltac:(lia)) as H. unfold ascii_order in H. rewrite (proj2 (Z.ltb_ge c 128)) in H by lia. by b2p. Qed.

Lemma so_low c : 0 <= c < 128 -> 0 <= tab so c < 128 /\ (tab so c ?= 32) = (c ?= 32).
Proof.
  intros Hc. pose proof (ascii_order_ok c ltac:(lia)) as H. unfold ascii_order in H. rewrite (proj2 (Z.ltb_lt c 128)) in H by lia. b2p.
  repeat match goal with H : Bool.eqb _ _ = true |- _ => apply eqb_prop in H end. split; [done|].
  destruct (Z.compare_spec (tab so c) 32), (Z.compare_spec c 32); try done; exfalso; lia.
Qed.

Lemma so_byte c : 0 <= c < 256 -> 0 <= tab so c < 256 /\ (tab so c ?= 32) = (c ?= 32).
Proof.
  intros Hc. destruct (Z.lt_ge_cases c 128); [destruct (so_low c); [lia|]; split; [lia|done]|]. by rewrite so_high by lia.
Qed.

Lemma two_head_range d : is_char d -> 256 <= d -> 128 <= d / 256 < 256.
Proof. intros Hd Hl. destruct (two_char_two _ _ d Hd Hl) as (_ & Hh & _ & ?). pose proof (high_head _ _ Hh). dlia. Qed.

(** Bytes against the first bytes of characters and of their weights. *)
Lemma so_mixed (code2 : Z -> Z) c d : is_char c -> is_char d -> c < 256 -> 256 <= d ->
  (forall h, 128 <= h < 256 -> head2 h = false -> h <> code2 d / 256 /\ (h ?= d / 256) = (h ?= code2 d / 256)) -> 128 <= code2 d / 256 ->
  tab so c <> tab so (d / 256) /\ tab so c <> code2 d / 256 /\ (tab so c ?= tab so (d / 256)) = (tab so c ?= code2 d / 256).
Proof.
  intros Hc Hd Lc Ld Hcode Hhigh. destruct (two_char_one _ _ c Hc Lc) as (_ & Hh & H0). destruct (two_char_two _ _ d Hd Ld) as (_ & Hh' & _).
  pose proof (two_head_range d Hd Ld). rewrite (so_high (d / 256)) by done. destruct (Z.lt_ge_cases c 128) as [L|L].
  - destruct (so_low c) as [? _]; [lia|]. rewrite !(proj2 (Z.compare_lt_iff (tab so c) _)) by lia. split_and!; lia || done.
  - rewrite so_high by lia. destruct (Hcode c) as [? ?]; [lia|done|]. split_and!; try done. intros ->. congruence.
Qed.

Lemma so_mixed_id c d : is_char c -> is_char d -> c < 256 -> 256 <= d ->
  tab so c <> tab so (d / 256) /\ tab so c <> d / 256 /\ (tab so c ?= tab so (d / 256)) = (tab so c ?= d / 256).
Proof.
  intros Hc Hd Lc Ld. pose proof (two_head_range d Hd Ld). apply (so_mixed id); try done; [|unfold id; lia].
  intros h _ Hh. unfold id. split; [|done]. intros ->. destruct (two_char_two _ _ d Hd Ld) as (_ & ? & _). congruence.
Qed.

Lemma so_space_one c : is_char c -> c < 256 -> (tab so c ?= 32) = (c ?= 32).
Proof. intros Hc L. destruct (two_char_one _ _ c Hc L) as (_ & _ & ?). apply so_byte. lia. Qed.

Lemma so_space_two c : is_char c -> 256 <= c -> 32 < c / 256.
Proof. intros Hc L. pose proof (two_head_range c Hc L). lia. Qed.
End tables.

(** ** Well-formed strings *)

Section well_formed.
Variables head2 tail2 kana : Z -> bool.
Context `{!HighHead head2}.
Hypothesis kana_head : forall c, kana c = true -> head2 c = false.
Local Abbreviation str cs := (encode two_enc cs).

(** ASCII, [kana] and the characters of two bytes. *)
Definition well_formed (c : Z) : bool := two_char head2 tail2 c && ((c <? 128) || kana c || (256 <=? c)).

(** The prefix the function measures, and why it ends there. *)
Definition measured (b : list Z) (pos : nat) (out : Z * Z) : Prop :=
  exists cs rest, b = str cs ++ rest /\ Forall (fun c => well_formed c = true) cs /\ out.1 = Z.of_nat (length (str cs)) /\ (length cs <= pos)%nat /\
    ((out.2 = 0 /\ (length cs = pos \/ rest = [])) \/
     (out.2 = 1 /\ (length cs < pos)%nat /\ rest <> [] /\ forall c r, well_formed c = true -> rest <> two_enc c ++ r)).

Lemma measured_cons c b pos out : well_formed c = true -> measured b pos out ->
  measured (two_enc c ++ b) (S pos) (Z.of_nat (length (two_enc c)) + out.1, out.2).
Proof.
  intros Hc (cs & rest & -> & Hcs & Hl & Hp & He). exists (c :: cs), rest. rewrite encode_cons, length_app, <- app_assoc. cbn [fst snd length].
  split_and!; [done|by constructor|lia|lia|]. destruct He as [[? [?|?]]|(? & ? & ?)]; [left; split; [done|left; lia]|left; auto|right; split_and!; tauto || lia].
Qed.

Lemma well_formed_one c : 0 <= c < 256 -> (c < 128 \/ kana c = true) -> well_formed c = true /\ two_enc c = [c].
Proof.
  intros Hc Hk. assert (head2 c = false) as Hh.
  { destruct Hk as [Hk|Hk]; [|by apply kana_head]. destruct (head2 c) eqn:E; [|done]. pose proof (high_head _ _ E). lia. }
  unfold well_formed, two_char, two_enc. rewrite (proj2 (Z.ltb_lt c 256)), (proj2 (Z.leb_le 0 c)), Hh by lia. split; [|done].
  destruct Hk as [Hk|Hk]; [by rewrite (proj2 (Z.ltb_lt c 128))|rewrite Hk, orb_true_r; done].
Qed.

Lemma well_formed_two c d : 0 <= c < 256 -> 0 <= d < 256 -> head2 c = true -> tail2 d = true ->
  well_formed (c * 256 + d) = true /\ two_enc (c * 256 + d) = [c; d].
Proof.
  intros Hc Hd Hh Ht. pose proof (high_head _ _ Hh). assert ((c * 256 + d) / 256 = c) as E by dlia. assert ((c * 256 + d) mod 256 = d) as E2 by dlia.
  unfold well_formed, two_char, two_enc. rewrite (proj2 (Z.ltb_ge (c * 256 + d) 256)), E, E2, Hh, Ht, (proj2 (Z.leb_le 0 _)), (proj2 (Z.ltb_lt _ 0x10000)), (proj2 (Z.leb_le 256 _)) by lia.
  by rewrite orb_true_r.
Qed.

Lemma ill_formed c b r d : 128 <= c -> kana c = false -> match b with d :: _ => head2 c && tail2 d = false | [] => True end ->
  well_formed d = true -> c :: b <> two_enc d ++ r.
Proof.
  intros Hc Hk Hb [Hd Hd2]%andb_true_iff E. destruct (Z.lt_ge_cases d 256) as [L|L].
  - destruct (two_char_one _ _ d Hd L) as (Ed & _). rewrite Ed in E. injection E as -> ->.
    by rewrite Hk, (proj2 (Z.ltb_ge d 128)), (proj2 (Z.leb_gt 256 d)) in Hd2 by lia.
  - destruct (two_char_two _ _ d Hd L) as (Ed & Hh & Ht & _). rewrite Ed in E. injection E as -> ->. by rewrite Hh, Ht in Hb.
Qed.

Lemma well_formed_len_spec fuel : forall b pos, bytes b -> (length b < fuel)%nat ->
  measured b pos (two_well_formed_len head2 tail2 kana fuel b pos).
Proof.
  induction fuel as [|fuel IH]; intros b pos Hb Hf; [lia|]. cbn [two_well_formed_len].
  destruct pos as [|pos]. { exists [], b. split_and!; auto. }
  destruct Hb as [|c b Hc Hb]. { exists [], []. split_and!; auto. simpl. lia. }
  assert (forall c', well_formed c' = true -> forall n rest, n = Z.of_nat (length (two_enc c')) -> c :: b = two_enc c' ++ rest -> bytes rest -> (length rest <= length b)%nat ->
    measured (c :: b) (S pos) (let '(len, error) := two_well_formed_len head2 tail2 kana fuel rest pos in (n + len, error))) as Hnext.
  { intros c' Hc' n rest -> -> Hr Hlr. pose proof (measured_cons c' rest pos _ Hc' (IH rest pos Hr ltac:(simpl in Hf; lia))) as Hm.
    by destruct (two_well_formed_len head2 tail2 kana fuel rest pos). }
  assert (0 <= c < 256 -> c < 128 \/ kana c = true -> measured (c :: b) (S pos) (let '(len, error) := two_well_formed_len head2 tail2 kana fuel b pos in (1 + len, error))) as Hone.
  { intros Hc' Hk. destruct (well_formed_one c Hc' Hk) as [Hw E]. apply (Hnext c Hw); [by rewrite E|by rewrite E|done|done]. }
  assert (128 <= c -> kana c = false -> match b with d :: _ => head2 c && tail2 d = false | [] => True end -> measured (c :: b) (S pos) (0, 1)) as Hbad.
  { intros H128 Hk Hb'. exists [], (c :: b). split_and!; [done|constructor|done|simpl; lia|]. right. split_and!; [done|simpl; lia|done|].
    intros d r Hd. by apply ill_formed. }
  destruct (Z.ltb_spec c 128) as [L|L]; [apply Hone; [done|by left]|].
  destruct Hb as [|d b Hd Hb]; [destruct (kana c) eqn:Hk; [apply Hone; auto|by apply Hbad]|].
  destruct (head2 c && tail2 d) eqn:Hcode.
  - apply andb_true_iff in Hcode as [Hh Ht]. destruct (well_formed_two c d Hc Hd Hh Ht) as [Hw E].
    apply (Hnext _ Hw); [by rewrite E|by rewrite E|done|simpl; lia].
  - destruct (kana c) eqn:Hk; [apply Hone; auto|by apply Hbad].
Qed.
End well_formed.
