(* ===== verification/Sjis.v ===== *)
(** * sjis and cp932 (strings/ctype-sjis.c, strings/ctype-cp932.c)

    Comparison, keys, well-formed strings, the ranges of LIKE and the Unicode values of
    sjis, and what cp932 does otherwise. *)

From stdpp Require Import base numbers list pmap.
From Stdlib Require Import ZArith Lia.
From S2P Require Import Prelude Like Wild8 Collate CtypeBin CtypeSimple Utf8 CtypeMb MbLike MbTwo SjisTab.

Local Open Scope Z_scope.

(** ** The functions *)

Definition my_charset_sjis_japanese_ci : CHARSET_INFO := mkCharset to_lower_sjis to_upper_sjis sort_order_sjis 1 2 255 false.

Definition issjishead (c : Z) : bool := ((0x81 <=? c) && (c <=? 0x9f)) || ((0xe0 <=? c) && (c <=? 0xfc)).

Definition issjistail (c : Z) : bool := ((0x40 <=? c) && (c <=? 0x7e)) || ((0x80 <=? c) && (c <=? 0xfc)).

Definition ismbchar_sjis : list Z -> Z := two_ismbchar issjishead issjistail.

Definition mbcharlen_sjis : Z -> Z := two_mbcharlen issjishead.

Definition my_strnncoll_sjis (a b : list Z) (b_is_prefix : bool) : option Z := ends_strnncoll ismbchar_sjis sort_order_sjis a b b_is_prefix.

Definition my_strnncollsp_sjis (a b : list Z) : option Z := ends_strnncollsp ismbchar_sjis sort_order_sjis a b.

Definition my_strnxfrm_sjis (len : nat) (src : list Z) : list Z := ends_strnxfrm ismbchar_sjis sort_order_sjis len src.

Definition is_kana (c : Z) : bool := (0xA1 <=? c) && (c <=? 0xDF).

(** The number of cells on a screen; a byte that starts a character of two bytes counts
    for two and takes the next byte with it. *)
Fixpoint my_numcells_sjis (b : list Z) : Z :=
  match b with
  | [] => 0
  | c :: b =>
      if is_kana c then 1 + my_numcells_sjis b
      else if 0x7F <? c then 2 + match b with [] => 0 | _ :: b => my_numcells_sjis b end
      else 1 + my_numcells_sjis b
  end.

Definition my_well_formed_len_sjis (b : list Z) (pos : nat) : Z * Z :=
  two_well_formed_len issjishead issjistail is_kana (S (length b)) b pos.

(** [*min_str++ = *max_str++] of the bytes [bs]. *)
Definition range_copy (bs : list Z) (rest : list Z * list Z * nat * bool) : list Z * list Z * nat * bool :=
  let '(min_str, max_str, n, many) := rest in (bs ++ min_str, bs ++ max_str, (length bs + n)%nat, many).

(** The bytes of [min_str] and [max_str] from here to [min_end], [room] bytes; how many of
    them the loop wrote, and whether it stopped at [w_many]. *)
Fixpoint range_sjis (escape w_one w_many : Z) (fuel : nat) (ptr : list Z) (room charlen : nat) : list Z * list Z * nat * bool :=
  match fuel, ptr, room, charlen with
  | S fuel, c :: p, S _, S charlen =>
      let go n ptr := range_copy (take (min n room) ptr) (range_sjis escape w_one w_many fuel (drop (min n room) ptr) (room - min n room) charlen) in
      if negb (ismbchar_sjis ptr =? 0) then go 2%nat ptr
      else if (s8 c =? escape) && negb (bool_decide (p = [])) then go (if negb (ismbchar_sjis p =? 0) then 2%nat else 1%nat) p
      else if s8 c =? w_one then range_put 0 255 (range_sjis escape w_one w_many fuel p (room - 1) charlen)
      else if s8 c =? w_many then (replicate room 0, replicate room 255, O, true)
      else go 1%nat ptr
  | _, _, _, _ => (replicate room 32, replicate room 32, O, false)
  end.

(** [min_str], [max_str], [min_length] and [max_length]; the function returns 0. *)
Definition my_like_range_sjis (cs : CHARSET_INFO) (ptr : list Z) (escape w_one w_many : Z) (res_length : nat)
  : list Z * list Z * nat * nat :=
  let charlen := (res_length / Z.to_nat (mbmaxlen cs))%nat in
  let '(min_str, max_str, n, many) := range_sjis escape w_one w_many (S (length ptr)) ptr res_length charlen in
  if many then (min_str, max_str, if state_binsort cs then n else res_length, res_length)
  else (min_str, max_str, n, n).

(** *** Unicode *)

Definition func_sjis_uni_onechar (code : Z) : Z :=
  if (0x00A1 <=? code) && (code <=? 0x00DF) then tab tab_sjis_uni0 (code - 0x00A1)
  else if (0x8140 <=? code) && (code <=? 0x84BE) then tab tab_sjis_uni1 (code - 0x8140)
  else if (0x889F <=? code) && (code <=? 0x9FFC) then tab tab_sjis_uni2 (code - 0x889F)
  else if (0xE040 <=? code) && (code <=? 0xEAA4) then tab tab_sjis_uni3 (code - 0xE040)
  else 0.

Definition func_uni_sjis_onechar (code : Z) : Z :=
  if (0x005C <=? code) && (code <=? 0x00F7) then tab tab_uni_sjis0 (code - 0x005C)
  else if (0x0391 <=? code) && (code <=? 0x0451) then tab tab_uni_sjis1 (code - 0x0391)
  else if (0x2010 <=? code) && (code <=? 0x2312) then tab tab_uni_sjis2 (code - 0x2010)
  else if (0x2500 <=? code) && (code <=? 0x266F) then tab tab_uni_sjis3 (code - 0x2500)
  else if (0x3000 <=? code) && (code <=? 0x30FE) then tab tab_uni_sjis4 (code - 0x3000)
  else if (0x4E00 <=? code) && (code <=? 0x9481) then tab tab_uni_sjis5 (code - 0x4E00)
  else if (0x9577 <=? code) && (code <=? 0x9FA0) then tab tab_uni_sjis6 (code - 0x9577)
  else if (0xFF01 <=? code) && (code <=? 0xFFE5) then tab tab_uni_sjis7 (code - 0xFF01)
  else 0.

(** The result and the bytes written; [room] is [e - s]. *)
Definition my_wc_mb_sjis (wc room : Z) : Z * list Z :=
  let mb code := if room <? 2 then (MY_CS_TOOSMALL, []) else (2, [u8 (Z.shiftr code 8); Z.land code 0xFF]) in
  if room <=? 0 then (MY_CS_TOOSMALL, [])
  else if s32 wc <? 0x80 then if wc =? 0x5c then mb 0x815f else (1, [u8 wc])
  else
    let code := func_uni_sjis_onechar (s32 wc) in
    if code =? 0 then (MY_CS_ILUNI, [])
    else if (0xA1 <=? code) && (code <=? 0xDF) then (1, [u8 code])
    else mb code.

Definition my_mb_wc_sjis (s : list Z) : Z * Z :=
  match s with
  | [] => (MY_CS_TOOFEW 0, 0)
  | hi :: s' =>
      if hi <? 0x80 then (1, hi)
      else if (0xA1 <=? hi) && (hi <=? 0xDF) then (1, func_sjis_uni_onechar hi)
      else
        match s' with
        | [] => (MY_CS_TOOFEW 0, 0)
        | s1 :: _ => let wc := func_sjis_uni_onechar (Z.shiftl hi 8 + s1) in if wc =? 0 then (MY_CS_ILSEQ, 0) else (2, wc)
        end
  end.

(** *** cp932 *)

Definition ismbchar_cp932 : list Z -> Z := two_ismbchar issjishead issjistail.

Definition mbcharlen_cp932 : Z -> Z := two_mbcharlen issjishead.

Definition my_strnncoll_cp932 (a b : list Z) (b_is_prefix : bool) : option Z := ends_strnncoll ismbchar_cp932 sort_order_cp932 a b b_is_prefix.

(** [return ((int) *a - (int) ' ') ^ swap] *)
Fixpoint endspace_cp932 (swap res : Z) (a : list Z) : Z :=
  match a with
  | [] => res
  | c :: a => if negb (c =? 32) then Z.lxor (c - 32) swap else endspace_cp932 swap res a
  end.

Definition my_strnncollsp_cp932 (a b : list Z) : option Z :=
  out ← ends_internal ismbchar_cp932 sort_order_cp932 (S (length a)) a b;
  match out with
  | inl r => Some r
  | inr ([], []) => Some 0
  | inr (a, b) => Some (if bool_decide (a = []) then endspace_cp932 (-1) 0 b else endspace_cp932 0 0 a)
  end.

Definition my_strnxfrm_cp932 (len : nat) (src : list Z) : list Z := ends_strnxfrm ismbchar_cp932 sort_order_cp932 len src.

Definition my_numcells_cp932 (b : list Z) : Z := my_numcells_sjis b.

(** [while (pos && b < e)]: [pos] is not counted down. *)
Fixpoint my_well_formed_len_cp932 (fuel : nat) (b : list Z) (pos : nat) : Z * Z :=
  match fuel, pos, b with
  | S fuel, S _, c :: b' =>
      let next n rest := let '(len, error) := my_well_formed_len_cp932 fuel rest pos in (n + len, error) in
      if 0 <=? s8 c then next 1 b'
      else
        match b' with
        | d :: b'' => if issjishead c && issjistail d then next 2 b'' else if is_kana c then next 1 b' else (0, 1)
        | [] => if is_kana c then next 1 b' else (0, 1)
        end
  | _, _, _ => (0, 0)
  end.

(** ** What the theorems use *)

#[export] Instance sjis_heads : HighHead issjishead.
Proof. split. intros c Hc. unfold issjishead in Hc. b2p. lia. Qed.

#[export] Instance sjis_order : AsciiOrder sort_order_sjis.
Proof. split. intros c Hc. revert c Hc. apply bytes_all. by vm_compute. Qed.

#[export] Instance cp932_order : AsciiOrder sort_order_cp932.
Proof. split. intros c Hc. revert c Hc. apply bytes_all. by vm_compute. Qed.

(** The characters of sjis: a byte that starts no character of two bytes, or the number of
    two bytes. *)
Definition sjis_char (c : Z) : bool := two_char issjishead issjistail c.

(** The bytes of the key of a character. *)
Definition sjis_key (c : Z) : list Z := two_key sort_order_sjis id c.

Section sjis.
Local Abbreviation str cs := (encode two_enc cs).
Local Abbreviation chars cs := (Forall (fun c => sjis_char c = true) cs).

Lemma sjis_comparison ca cb n : chars ca -> chars cb ->
  Z.of_nat (length (str ca)) < 2 ^ 31 -> Z.of_nat (length (str cb)) < 2 ^ 31 -> (length (str ca) <= n)%nat -> (length (str cb) <= n)%nat ->
  (exists r, my_strnncoll_sjis (str ca) (str cb) false = Some r /\ sign r = lex (encode sjis_key ca) (encode sjis_key cb)) /\
  (exists r, my_strnncoll_sjis (str ca) (str cb) true = Some r /\ (r = 0 <-> exists k, encode sjis_key ca = encode sjis_key cb ++ k)) /\
  (exists r, my_strnncollsp_sjis (str ca) (str cb) = Some r /\ sign r = padded_cmp n (encode sjis_key ca) (encode sjis_key cb)).
Proof.
  apply (ends_order issjishead issjistail sort_order_sjis id); [apply so_mixed_id; apply _|apply so_space_one; apply _|apply so_space_two; apply _|done].
Qed.

Lemma sjis_xfrm cs n : chars cs -> my_strnxfrm_sjis n (str cs) = pad n 32 (encode sjis_key cs).
Proof. intros Hcs. by apply (ends_strnxfrm_pad issjishead issjistail sort_order_sjis id). Qed.
(** *** The ranges of LIKE *)

Section range.
Variables (escape w_one w_many : Z).
Hypothesis ascii : 0 <= escape < 128 /\ 0 <= w_one < 128 /\ 0 <= w_many < 128.
Hypothesis distinct : escape <> w_one /\ escape <> w_many /\ w_one <> w_many.
Local Abbreviation keys cs := (encode sjis_key cs).

(** LIKE compares characters by these weights. *)
Definition sjis_weight : Z -> Z := mb_weight (enc := two_enc) (tab sort_order_sjis).

Lemma sjis_char_bytes c : sjis_char c = true -> bytes (two_enc c).
Proof. intros Hc. by apply enc_bytes. Qed.

Lemma sjis_weight_key x c : sjis_char x = true -> sjis_char c = true -> sjis_weight x = sjis_weight c -> sjis_key x = sjis_key c.
Proof.
  intros Hx Hc. unfold sjis_weight, mb_weight. pose proof (two_one x) as Ox. pose proof (two_one c) as Oc. unfold sjis_key.
  assert (forall y, sjis_char y = true -> y < 256 -> tab sort_order_sjis y < 256) as Hb.
  { intros y Hy L. destruct (two_char_one _ _ y Hy L) as (_ & _ & ?). apply so_byte; [apply _|lia]. }
  destruct (Z.lt_ge_cases x 256) as [Lx|Lx], (Z.lt_ge_cases c 256) as [Lc|Lc].
  - rewrite !decide_True by tauto. intros E. by rewrite !two_key_one, E.
  - rewrite decide_True, decide_False by (tauto || (rewrite Oc; lia)). specialize (Hb x Hx Lx). lia.
  - rewrite decide_False, decide_True by (tauto || (rewrite Ox; lia)). specialize (Hb c Hc Lc). lia.
  - rewrite !decide_False by (rewrite Ox || rewrite Oc; lia). intros E. by assert (x = c) as -> by lia.
Qed.

Lemma sjis_key_bytes c : sjis_char c = true -> bytes (sjis_key c).
Proof.
  intros Hc. unfold sjis_key, two_key, id. destruct (Z.ltb_spec c 256) as [L|L].
  - destruct (two_char_one _ _ c Hc L) as (_ & _ & ?). repeat constructor; apply (so_byte sort_order_sjis c); lia.
  - destruct (two_char_two _ _ c Hc L) as (_ & _ & _ & ?). repeat constructor; dlia.
Qed.

Lemma keys_bytes cs : chars cs -> bytes (keys cs).
Proof. induction 1 as [|c cs Hc _ IH]; [constructor|]. rewrite encode_cons. apply Forall_app. split; [by apply sjis_key_bytes|done]. Qed.

(** The two buffers are strings of characters between which the string is. *)
Definition ranged (cs : list Z) (room : nat) (out : list Z * list Z * nat * bool) : Prop :=
  let '(min_str, max_str, n, many) := out in
  let k := if many then room else n in
  exists cm cM, chars cm /\ chars cM /\ length (str cm) = k /\ length (str cM) = k /\ (k <= room)%nat /\
    min_str = str cm ++ replicate (room - k) 32 /\ max_str = str cM ++ replicate (room - k) 32 /\
    padded_cmp room (keys cm) (keys cs) <> Gt /\ padded_cmp room (keys cs) (keys cM) <> Gt.

Lemma ranged_end room : ranged [] room (replicate room 32, replicate room 32, O, false).
Proof. exists [], []. cbn. rewrite Nat.sub_0_r, padded_refl. split_and!; done || constructor || lia. Qed.

Lemma keys_padded c x cm cs n : sjis_key c = sjis_key x -> length (two_enc c) = length (sjis_key c) ->
  padded_cmp (length (two_enc c) + n) (keys (c :: cm)) (keys (x :: cs)) = padded_cmp n (keys cm) (keys cs).
Proof. intros E Hl. rewrite !encode_cons, <- E, Hl. apply padded_app. Qed.

Lemma length_key c : length (two_enc c) = length (sjis_key c).
Proof. unfold two_enc, sjis_key, two_key. by destruct (c <? 256). Qed.

Lemma ranged_copy c x cs room out : sjis_char c = true -> sjis_key c = sjis_key x -> ranged cs room out ->
  ranged (x :: cs) (length (two_enc c) + room) (range_copy (two_enc c) out).
Proof.
  intros Hc Hk. destruct out as [[[mi ma] n] many]. intros (cm & cM & Hcm & HcM & Hl & Hl2 & Hroom & -> & -> & Hmin & Hmax).
  exists (c :: cm), (c :: cM). rewrite !encode_cons, !length_app, Hl, Hl2, <- !app_assoc.
  pose proof (length_key c). rewrite <- !encode_cons, !keys_padded by done.
  assert (padded_cmp (length (two_enc c) + room) (keys (x :: cs)) (keys (c :: cM)) = padded_cmp room (keys cs) (keys cM)) as ->.
  { rewrite !encode_cons, Hk, length_key, Hk. apply padded_app. }
  split_and!; try done; try (by constructor); [by destruct many| by destruct many|destruct many; lia|..]; do 3 f_equal; destruct many; lia.
Qed.

Lemma ranged_one x cs room out : sjis_char x = true -> ranged cs room out -> ranged (x :: cs) (S room) (range_put 0 255 out).
Proof.
  intros Hx. destruct out as [[[mi ma] n] many]. intros (cm & cM & Hcm & HcM & Hl & Hl2 & Hroom & -> & -> & Hmin & Hmax).
  exists (0 :: cm), (255 :: cM). rewrite !encode_cons. change (two_enc 0) with [0]. change (two_enc 255) with [255].
  change (sjis_key 0) with [0]. change (sjis_key 255) with [255]. cbn [app length padded_cmp head default from_option id tail]. rewrite Hl, Hl2.
  split_and!; try (by constructor); try (destruct many; done || lia);
    try (by destruct many; cbn; do 2 f_equal; lia).
  - destruct (Z.lt_ge_cases x 256) as [L|L].
    + unfold sjis_key. rewrite two_key_one by done. cbn [app head default from_option id tail].
      destruct (two_char_one _ _ x Hx L) as (_ & _ & ?). destruct (so_byte sort_order_sjis x) as [? _]; [lia|].
      destruct (Z.compare_spec 0 (tab sort_order_sjis x)); [done|done|lia].
    + unfold sjis_key. rewrite two_key_two by done. cbn [app head default from_option id tail]. unfold id.
      pose proof (two_head_range _ _ x Hx L). by rewrite (proj2 (Z.compare_lt_iff 0 _)) by lia.
  - destruct (Z.lt_ge_cases x 256) as [L|L].
    + unfold sjis_key. rewrite two_key_one by done. cbn [app head default from_option id tail].
      destruct (two_char_one _ _ x Hx L) as (_ & _ & ?). destruct (so_byte sort_order_sjis x) as [? _]; [lia|].
      destruct (Z.compare_spec (tab sort_order_sjis x) 255); [done|done|lia].
    + unfold sjis_key. rewrite two_key_two by done. cbn [app head default from_option id tail]. unfold id.
      destruct (two_char_two _ _ x Hx L) as (_ & Hh & _). unfold issjishead in Hh. rewrite (proj2 (Z.compare_lt_iff _ 255)); [done|]. b2p. lia.
Qed.

Lemma encode_replicate c n : c < 256 -> str (replicate n c) = replicate n c.
Proof. intros Hc. induction n as [|n IH]; [done|]. cbn [replicate]. rewrite encode_cons, IH. unfold two_enc. by rewrite (proj2 (Z.ltb_lt c 256)). Qed.

Lemma keys_replicate c n : c < 256 -> keys (replicate n c) = replicate n (tab sort_order_sjis c).
Proof. intros Hc. induction n as [|n IH]; [done|]. cbn [replicate]. rewrite encode_cons, IH. unfold sjis_key. by rewrite two_key_one. Qed.

Lemma ranged_many cs room : chars cs -> ranged cs room (replicate room 0, replicate room 255, O, true).
Proof.
  intros Hcs. exists (replicate room 0), (replicate room 255). rewrite !encode_replicate, !keys_replicate, !length_replicate, Nat.sub_diag, !app_nil_r by lia.
  assert (forall i, 0 <= default 32 (keys cs !! i) <= 255) as Hb.
  { intros i. pose proof (keys_bytes cs Hcs) as Hk. destruct (keys cs !! i) as [b|] eqn:E; [|cbn; lia].
    cbn. pose proof (Forall_lookup_1 _ _ _ _ Hk E) as Hb. cbn in Hb. lia. }
  split_and!; try done; try (by apply Forall_replicate); apply padded_le; intros i Hi; rewrite lookup_replicate_2 by done; apply Hb.
Qed.
Lemma take_drop_enc lit rest room : sjis_char lit = true -> (length (two_enc lit) <= room)%nat ->
  take (min (length (two_enc lit)) room) (str (lit :: rest)) = two_enc lit /\
  drop (min (length (two_enc lit)) room) (str (lit :: rest)) = str rest.
Proof. intros Hl Hr. rewrite Nat.min_l by done. rewrite encode_cons. by rewrite take_app_length, drop_app_length. Qed.

(** What the loop does at the head of a pattern. *)
Lemma range_sjis_head fuel c cp room charlen :
  sjis_char c = true -> chars cp -> (2 <= room)%nat ->
  range_sjis escape w_one w_many (S fuel) (str (c :: cp)) room (S charlen) =
  if decide (c = w_one) then range_put 0 255 (range_sjis escape w_one w_many fuel (str cp) (room - 1) charlen)
  else if decide (c = w_many) then (replicate room 0, replicate room 255, O, true)
  else
    let '(lit, rest) := match cp with e :: cp' => if c =? escape then (e, cp') else (c, cp) | [] => (c, cp) end in
    range_copy (two_enc lit) (range_sjis escape w_one w_many fuel (str rest) (room - length (two_enc lit)) charlen).
Proof.
  intros Hc Hcp Hroom. destruct room as [|room]; [lia|].
  assert (forall lit rest n, sjis_char lit = true -> n = length (two_enc lit) ->
    range_copy (take (min n (S room)) (str (lit :: rest))) (range_sjis escape w_one w_many fuel (drop (min n (S room)) (str (lit :: rest))) (S room - min n (S room)) charlen) =
    range_copy (two_enc lit) (range_sjis escape w_one w_many fuel (str rest) (S room - length (two_enc lit)) charlen)) as Hgo.
  { intros lit rest n Hl ->. assert (length (two_enc lit) <= S room)%nat as Hle by (unfold two_enc; case_if; simpl; lia).
    destruct (take_drop_enc lit rest (S room) Hl Hle) as [-> ->]. by rewrite Nat.min_l. }
  destruct (two_cases issjishead issjistail c cp Hc) as [(Lc & Ea & Hh & Hi)|(Lc & Ea & Hh & Ht & Hi)].
  - pose proof Ea as Es. rewrite Es at 1. cbn [range_sjis]. rewrite <- Es at 1. unfold ismbchar_sjis at 1. rewrite Hi. cbn [Z.eqb negb].
    destruct (two_char_one _ _ c Hc Lc) as (Ec & _ & ?). rewrite !s8_eqb by lia.
    destruct (Z.eqb_spec c escape) as [->|Hne]; cbn [andb].
    + rewrite !decide_False by lia. destruct Hcp as [|e cp He Hcp].
      * cbn [negb]. rewrite bool_decide_eq_true_2 by done. cbn [negb]. rewrite !(proj2 (Z.eqb_neq escape _)) by lia. rewrite <- Es. apply Hgo; [done|by rewrite Ec].
      * rewrite bool_decide_eq_false_2 by (by apply mb_encode_cons). cbn [negb]. apply Hgo; [done|]. unfold ismbchar_sjis.
        destruct (two_cases issjishead issjistail e cp He) as [(Le & _ & _ & ->)|(Le & _ & _ & _ & ->)]; cbn [Z.eqb negb];
          unfold two_enc; [by rewrite (proj2 (Z.ltb_lt _ _))|by rewrite (proj2 (Z.ltb_ge _ _))].
    + destruct (Z.eqb_spec c w_one) as [->|Ho]; [by rewrite decide_True|]. rewrite (decide_False (P := c = w_one)) by done.
      destruct (Z.eqb_spec c w_many) as [->|Hm]; [by rewrite decide_True|]. rewrite (decide_False (P := c = w_many)) by done.
      rewrite <- Es. destruct cp; apply Hgo; done || by rewrite Ec.
  - pose proof Ea as Es. rewrite Es at 1. cbn [range_sjis]. rewrite <- Es. unfold ismbchar_sjis at 1. rewrite Hi. cbn [Z.eqb negb].
    rewrite !decide_False by lia. rewrite (proj2 (Z.eqb_neq c escape)) by lia.
    assert (2%nat = length (two_enc c)) as E2 by (unfold two_enc; by rewrite (proj2 (Z.ltb_ge _ _))).
    destruct cp; by apply Hgo.
Qed.

Lemma range_sjis_spec fuel : forall cp cs room charlen, chars cp -> chars cs -> (length cp < fuel)%nat -> (length cs <= charlen)%nat ->
  (2 * charlen <= room)%nat -> like sjis_weight escape w_one w_many cs cp ->
  ranged cs room (range_sjis escape w_one w_many fuel (str cp) room charlen).
Proof.
  induction fuel as [|fuel IH]; intros cp cs room charlen Hcp Hcs Hf Hlen Hroom Hlike; [lia|].
  destruct charlen as [|charlen].
  { assert (cs = []) as -> by (apply nil_length_inv; lia). cbn [range_sjis].
    replace (match str cp with [] => _ | _ => _ end) with (replicate room 32, replicate room 32, O, false) by (destruct (str cp), room; done). apply ranged_end. }
  destruct Hcp as [|c cp Hc Hcp].
  { apply like_nil_inv in Hlike as ->. apply ranged_end. }
  rewrite range_sjis_head by (done || lia). case_decide as Eo.
  { subst c. apply like_one_inv in Hlike as (x & cs' & -> & Hl); [|done]. apply Forall_cons in Hcs as [Hx Hcs].
    destruct room as [|room]; [lia|]. rewrite Nat.sub_0_r || idtac. replace (S room - 1)%nat with room by lia.
    apply ranged_one; [done|]. apply IH; simpl in *; done || lia. }
  case_decide as Em; [subst c; by apply ranged_many|].
  set (p := match cp with e :: cp' => if c =? escape then (e, cp') else (c, cp) | [] => (c, cp) end).
  assert (literal escape c cp p.1 p.2 /\ sjis_char p.1 = true /\ chars p.2 /\ (length p.2 <= length cp)%nat) as (Hlit & Hp1 & Hp2 & Hpl).
  { unfold p, literal. destruct Hcp as [|e cp' He Hcp']; [done|]. destruct (c =? escape); split_and!; simpl; auto. }
  apply (like_literal sjis_weight escape w_one w_many c cp p.1 p.2 cs Em Eo Hlit) in Hlike as (x & cs' & -> & Hx & Hl).
  apply Forall_cons in Hcs as [Hcx Hcs]. destruct p as [lit rest]. cbn [fst snd] in *.
  assert (1 <= length (two_enc lit) <= 2)%nat by (unfold two_enc; case_if; simpl; lia).
  replace room with (length (two_enc lit) + (room - length (two_enc lit)))%nat at 1 by lia.
  apply ranged_copy; [done|by apply sjis_weight_key|]. apply IH; simpl in *; done || lia.
Qed.
End range.
End sjis.

(** ** Unicode values *)

(** The places of the values of a table in a finite map, to look them up. *)
Fixpoint index_from (l : list Z) (p : positive) (m : Pmap Z) : Pmap Z :=
  match l with [] => m | x :: l => index_from l (Pos.succ p) (<[p := x]> m) end.

Definition index (l : list Z) : Pmap Z := index_from l 1 ∅.

Lemma index_from_lookup l : forall p m q, index_from l p m !! q = if bool_decide (Pos.to_nat p <= Pos.to_nat q < Pos.to_nat p + length l)%nat then l !! (Pos.to_nat q - Pos.to_nat p)%nat else m !! q.
Proof.
  induction l as [|x l IH]; intros p m q; cbn [index_from].
  { rewrite bool_decide_eq_false_2; [done|]. simpl. lia. }
  rewrite IH. cbn [length]. destruct (decide (p = q)) as [->|Hne].
  - rewrite bool_decide_eq_false_2, bool_decide_eq_true_2 by lia. by rewrite lookup_insert_eq, Nat.sub_diag.
  - rewrite lookup_insert_ne by done. destruct (decide (Pos.to_nat p < Pos.to_nat q < Pos.to_nat p + S (length l))%nat) as [H|H].
    + rewrite !bool_decide_eq_true_2 by lia. by replace (Pos.to_nat q - Pos.to_nat p)%nat with (S (Pos.to_nat q - Pos.to_nat (Pos.succ p))) by lia.
    + rewrite !bool_decide_eq_false_2 by lia. done.
Qed.

Definition find_at (m : Pmap Z) (i : Z) : Z := default 0 (m !! Z.to_pos (i + 1)).

Lemma find_at_index l i : 0 <= i -> find_at (index l) i = tab l i.
Proof.
  intros Hi. unfold find_at, index, tab. rewrite index_from_lookup.
  replace (Pos.to_nat (Z.to_pos (i + 1)) - Pos.to_nat 1)%nat with (Z.to_nat i) by lia. case_bool_decide as H.
  - symmetry. apply nth_lookup.
  - rewrite nth_overflow by lia. by rewrite lookup_empty.
Qed.

(** The first of the ranges that a code is in gives its value. *)
Fixpoint ranges_find {A} (find : A -> Z -> Z) (rs : list (Z * Z * A)) (code : Z) : Z :=
  match rs with
  | [] => 0
  | (lo, hi, t) :: rs => if (lo <=? code) && (code <=? hi) then find t (code - lo) else ranges_find find rs code
  end.

Definition sjis_tabs : list (Z * Z * list Z) :=
  [(0x00A1, 0x00DF, tab_sjis_uni0); (0x8140, 0x84BE, tab_sjis_uni1); (0x889F, 0x9FFC, tab_sjis_uni2); (0xE040, 0xEAA4, tab_sjis_uni3)].

Definition uni_tabs : list (Z * Z * list Z) :=
  [(0x005C, 0x00F7, tab_uni_sjis0); (0x0391, 0x0451, tab_uni_sjis1); (0x2010, 0x2312, tab_uni_sjis2); (0x2500, 0x266F, tab_uni_sjis3);
   (0x3000, 0x30FE, tab_uni_sjis4); (0x4E00, 0x9481, tab_uni_sjis5); (0x9577, 0x9FA0, tab_uni_sjis6); (0xFF01, 0xFFE5, tab_uni_sjis7)].

Lemma func_sjis_uni_ranges code : func_sjis_uni_onechar code = ranges_find tab sjis_tabs code.
Proof. done. Qed.

Lemma func_uni_sjis_ranges code : func_uni_sjis_onechar code = ranges_find tab uni_tabs code.
Proof. done. Qed.

Definition indexed (rs : list (Z * Z * list Z)) : list (Z * Z * Pmap Z) := map (fun '(r, t) => (r, index t)) rs.

Lemma ranges_indexed rs code : ranges_find find_at (indexed rs) code = ranges_find tab rs code.
Proof.
  induction rs as [|[[lo hi] t] rs IH]; [done|]. cbn [indexed map ranges_find]. fold (indexed rs). destruct (_ && _) eqn:E; [|exact IH].
  apply find_at_index. b2p. lia.
Qed.

(** [P] for the codes from [code] on and their values. *)
Fixpoint all_from (P : Z -> Z -> bool) (l : list Z) (code : Z) : bool :=
  match l with [] => true | v :: l => P code v && all_from P l (code + 1) end.

Lemma all_from_spec P l : forall code i, all_from P l code = true -> 0 <= i < Z.of_nat (length l) -> P (code + i) (tab l i) = true.
Proof.
  induction l as [|v l IH]; intros code i Ha Hi; [simpl in Hi; lia|]. cbn [all_from] in Ha. apply andb_true_iff in Ha as [Hv Ha].
  unfold tab. destruct (Z.eq_dec i 0) as [->|Hne]; [by rewrite Z.add_0_r|]. replace (Z.to_nat i) with (S (Z.to_nat (i - 1))) by lia. cbn [nth].
  replace (code + i) with (code + 1 + (i - 1)) by lia. apply IH; [done|]. cbn [length] in Hi. lia.
Qed.

(** Does [P] hold for every value other than 0? *)
Definition ranges_all (P : Z -> Z -> bool) (rs : list (Z * Z * list Z)) : bool :=
  forallb (fun '(lo, hi, t) => all_from (fun code v => (v =? 0) || P code v) t lo) rs.

Lemma ranges_all_spec P rs code : ranges_all P rs = true -> ranges_find tab rs code <> 0 -> P code (ranges_find tab rs code) = true.
Proof.
  unfold ranges_all. induction rs as [|[[lo hi] t] rs IH]; [done|]. cbn [forallb ranges_find]. intros [Ha Hr]%andb_true_iff Hne.
  destruct (_ && _) eqn:E; [|by apply IH]. destruct (Z.lt_ge_cases (code - lo) (Z.of_nat (length t))) as [L|L].
  - pose proof (all_from_spec _ t lo (code - lo) Ha) as Hp. cbv beta in Hp. replace (lo + (code - lo)) with code in Hp by lia.
    rewrite (proj2 (Z.eqb_neq _ 0)) in Hp by done. apply Hp. b2p. lia.
  - unfold tab in Hne. rewrite nth_overflow in Hne by lia. done.
Qed.

Definition sjis_shape (code : Z) : bool := sjis_char code && ((256 <=? code) || is_kana code).

Definition sjis_ok (uni : list (Z * Z * Pmap Z)) (code u : Z) : bool :=
  (ranges_find find_at uni u =? code) && sjis_shape code && (((0x80 <=? u) && (u <? 0x10000)) || ((u =? 0x5c) && (code =? 0x815f))).

Definition uni_ok (sjis : list (Z * Z * Pmap Z)) (u code : Z) : bool := (ranges_find find_at sjis code =? u) && sjis_shape code.

Lemma sjis_checked : (fun sjis uni => ranges_all (sjis_ok uni) sjis_tabs && ranges_all (uni_ok sjis) uni_tabs) (indexed sjis_tabs) (indexed uni_tabs) = true.
Proof. by vm_compute. Qed.

Lemma func_sjis_uni_ok code : func_sjis_uni_onechar code <> 0 -> sjis_ok (indexed uni_tabs) code (func_sjis_uni_onechar code) = true.
Proof.
  rewrite func_sjis_uni_ranges. apply ranges_all_spec. pose proof sjis_checked as H. cbv beta in H. by apply andb_true_iff in H as [H _].
Qed.

Lemma func_uni_sjis_ok u : func_uni_sjis_onechar u <> 0 -> uni_ok (indexed sjis_tabs) u (func_uni_sjis_onechar u) = true.
Proof.
  rewrite func_uni_sjis_ranges. apply ranges_all_spec. pose proof sjis_checked as H. cbv beta in H. by apply andb_true_iff in H as [_ H].
Qed.

Lemma kana_uni c : is_kana c = true -> func_sjis_uni_onechar c <> 0.
Proof.
  intros Hk. assert (forallb (fun c => negb (tab tab_sjis_uni0 (c - 0x00A1) =? 0)) (seqZ 0xA1 63) = true) as Ha by by vm_compute.
  rewrite forallb_forall in Ha. specialize (Ha c). unfold is_kana in Hk. unfold func_sjis_uni_onechar. rewrite Hk.
  assert (negb (tab tab_sjis_uni0 (c - 161) =? 0) = true) as Hn by (apply Ha, list_elem_of_In, elem_of_seqZ; b2p; lia). by b2p.
Qed.

(** A character of two bytes is written with its high and its low byte. *)
Lemma sjis_two_bytes c : sjis_char c = true -> 256 <= c -> [u8 (Z.shiftr c 8); Z.land c 0xFF] = two_enc c.
Proof.
  intros Hc L. destruct (two_char_two _ _ c Hc L) as (-> & _ & _ & Hlt). change 0xFF with (Z.ones 8).
  rewrite Z.shiftr_div_pow2, Z.land_ones by lia. by rewrite u8_small by dlia.
Qed.

(** ASCII, half-width kana and the characters of two bytes. *)
Definition sjis_formed (c : Z) : bool := well_formed issjishead issjistail is_kana c.

Lemma sjis_formed_shape c : 128 <= c -> sjis_formed c = sjis_shape c.
Proof.
  intros L. unfold sjis_formed, well_formed, sjis_shape, sjis_char. rewrite (proj2 (Z.ltb_ge c 128)) by done. cbn [orb].
  by rewrite (orb_comm (is_kana c)).
Qed.

Lemma mb_wc_sjis_two c r : sjis_char c = true -> 256 <= c -> my_mb_wc_sjis (two_enc c ++ r) =
  if func_sjis_uni_onechar c =? 0 then (MY_CS_ILSEQ, 0) else (2, func_sjis_uni_onechar c).
Proof.
  intros Hc L. destruct (two_char_two _ _ c Hc L) as (-> & Hh & _ & ?). cbn [app my_mb_wc_sjis]. unfold issjishead in Hh.
  assert (0x81 <= c / 256 <= 0x9f \/ 0xe0 <= c / 256 <= 0xfc) as Hr by (apply orb_true_iff in Hh as [Hh|Hh]; b2p; lia).
  rewrite (proj2 (Z.ltb_ge _ 0x80)) by lia.
  replace ((0xA1 <=? c / 256) && (c / 256 <=? 0xDF)) with false by (symmetry; apply andb_false_iff; rewrite !Z.leb_gt; lia).
  rewrite Z.shiftl_mul_pow2 by lia. change (2 ^ 8) with 256. by rewrite div_mod_256.
Qed.

Lemma wc_mb_mb c n u room r : sjis_formed c = true -> c <> 0x5c -> 2 <= room ->
  my_mb_wc_sjis (two_enc c ++ r) = (n, u) -> 0 < n -> my_wc_mb_sjis u room = (n, two_enc c).
Proof.
  intros Hf H5c Hroom Hr Hn. unfold my_wc_mb_sjis. rewrite (proj2 (Z.leb_gt room 0)), (proj2 (Z.ltb_ge room 2)) by lia.
  assert (0 <= c) as H0 by (unfold sjis_formed, well_formed, two_char in Hf; b2p; done).
  destruct (Z.lt_ge_cases c 128) as [L|L].
  { assert (two_enc c = [c]) as E by (by apply two_one; lia). rewrite E in *. cbn in Hr. rewrite (proj2 (Z.ltb_lt c 0x80)) in Hr by done. injection Hr as <- <-.
    by rewrite s32_small, (proj2 (Z.ltb_lt c 0x80)), (proj2 (Z.eqb_neq c 0x5c)), u8_small by lia. }
  rewrite sjis_formed_shape in Hf by done. apply andb_true_iff in Hf as [Hc Hshape].
  assert (func_sjis_uni_onechar c = u /\ u <> 0 /\ n = if c <? 256 then 1 else 2) as (Hu & Hne & ->).
  { destruct (Z.ltb_spec c 256) as [L2|L2].
    - rewrite (proj2 (Z.leb_gt 256 c)) in Hshape by done. cbn [orb] in Hshape. assert (two_enc c = [c]) as E by (by apply two_one).
      rewrite E in Hr. cbn in Hr. pose proof (kana_uni c Hshape). unfold is_kana in Hshape. rewrite (proj2 (Z.ltb_ge c 0x80)), Hshape in Hr by lia.
      by injection Hr as <- <-.
    - rewrite mb_wc_sjis_two in Hr by done. destruct (Z.eqb_spec (func_sjis_uni_onechar c) 0); injection Hr as <- <-; [by vm_compute in Hn|done]. }
  pose proof (func_sjis_uni_ok c ltac:(congruence)) as Hok. rewrite Hu in Hok. unfold sjis_ok in Hok. rewrite ranges_indexed, <- func_uni_sjis_ranges in Hok. b2p.
  match goal with H : (_ || _) = true |- _ => apply orb_true_iff in H as [H|H]; b2p end.
  - rewrite s32_small, (proj2 (Z.ltb_ge u 0x80)) by lia.
    match goal with H : func_uni_sjis_onechar u = c |- _ => rewrite H end. rewrite (proj2 (Z.eqb_neq c 0)) by lia.
    destruct (Z.ltb_spec c 256) as [L2|L2].
    + rewrite (proj2 (Z.leb_gt 256 c)) in Hshape by done. cbn [orb] in Hshape. unfold is_kana in Hshape. rewrite Hshape, u8_small by lia.
      by rewrite (proj2 (two_one c)).
    + rewrite (proj2 (Z.leb_gt c 0xDF)), andb_false_r by lia. by rewrite sjis_two_bytes.
  - subst. done.
Qed.

Lemma mb_wc_wc u room n bs r : 0 <= u < 2 ^ 31 -> my_wc_mb_sjis u room = (n, bs) -> 0 < n -> my_mb_wc_sjis (bs ++ r) = (n, u).
Proof.
  intros Hu. unfold my_wc_mb_sjis. rewrite s32_small by lia. destruct (Z.leb_spec room 0); [by intros [= <- _]|].
  destruct (Z.ltb_spec u 0x80).
  { destruct (Z.eqb_spec u 0x5c) as [->|Hne].
    - destruct (Z.ltb_spec room 2); [by intros [= <- _]|]. intros [= <- <-] _. by vm_compute.
    - rewrite u8_small by lia. intros [= <- <-] _. cbn. by rewrite (proj2 (Z.ltb_lt u 0x80)). }
  destruct (Z.eqb_spec (func_uni_sjis_onechar u) 0) as [|Hne]; [by intros [= <- _]|].
  pose proof (func_uni_sjis_ok u Hne) as Hok. unfold uni_ok in Hok. rewrite ranges_indexed, <- func_sjis_uni_ranges in Hok.
  set (c := func_uni_sjis_onechar u) in *. apply andb_true_iff in Hok as [Hback%Z.eqb_eq [Hc Hshape]%andb_true_iff].
  destruct ((0xA1 <=? c) && (c <=? 0xDF)) eqn:Hk.
  - rewrite u8_small by (b2p; lia). intros [= <- <-] _. cbn [app my_mb_wc_sjis]. rewrite Hk, Hback, (proj2 (Z.ltb_ge c 0x80)) by (b2p; lia). done.
  - destruct (Z.ltb_spec room 2); [by intros [= <- _]|]. unfold is_kana in Hshape. rewrite Hk, orb_false_r in Hshape. apply Z.leb_le in Hshape.
    rewrite sjis_two_bytes by done. intros [= <- <-] _. rewrite mb_wc_sjis_two, Hback by done. by rewrite (proj2 (Z.eqb_neq u 0)) by lia.
Qed.

(** ** The results *)

Lemma sjis_length cs : Forall (fun c => sjis_char c = true) cs -> (length (encode two_enc cs) <= 2 * length cs)%nat.
Proof.
  induction 1 as [|c cs _ _ IH]; [done|]. rewrite encode_cons, length_app. cbn [length]. assert (length (two_enc c) <= 2)%nat by (unfold two_enc; destruct (c <? 256); simpl; lia).
  lia.
Qed.

(** Conversion between sjis and Unicode loses nothing but the backslash: what
    [my_mb_wc_sjis] reads from a well-formed character other than 5C, [my_wc_mb_sjis]
    writes back, and what [my_wc_mb_sjis] writes for any code, [my_mb_wc_sjis] reads back,
    whatever follows. *)
Theorem sjis_unicode_roundtrip :
  (forall c n u room r, sjis_formed c = true -> c <> 0x5c -> 2 <= room -> my_mb_wc_sjis (two_enc c ++ r) = (n, u) -> 0 < n ->
     my_wc_mb_sjis u room = (n, two_enc c)) /\
  (forall u room n bs r, 0 <= u < 2 ^ 31 -> my_wc_mb_sjis u room = (n, bs) -> 0 < n -> my_mb_wc_sjis (bs ++ r) = (n, u)).
Proof. split; [apply wc_mb_mb|apply mb_wc_wc]. Qed.

(** Hiragana A is 82 A0 and U+3042. *)
Lemma sjis_unicode_roundtrip_witness :
  my_mb_wc_sjis ([0x82; 0xA0] ++ [65]) = (2, 0x3042) /\ my_wc_mb_sjis 0x3042 2 = (2, [0x82; 0xA0]).
Proof.
  split.
  - by apply (proj2 sjis_unicode_roundtrip 0x3042 2 2 [0x82; 0xA0] [65]); vm_compute.
  - by apply (proj1 sjis_unicode_roundtrip 0x82A0 2 0x3042 2 []); vm_compute.
Defined.

(** The backslash becomes the full-width one, which has the same Unicode value. *)
Theorem sjis_backslash_changes :
  my_mb_wc_sjis [0x5c] = (1, 0x5c) /\ my_wc_mb_sjis 0x5c 2 = (2, [0x81; 0x5f]) /\ my_mb_wc_sjis [0x81; 0x5f] = (2, 0x5c).
Proof. split_and!; by vm_compute. Qed.

(** The collation of sjis: for strings of characters, the comparison is the
    lexicographic order of the keys of the characters, the comparison of columns the same
    with the shorter string extended with spaces, and the sort keys of [n] bytes
    compare like that. *)
Theorem sjis_order_keys ca cb n :
  Forall (fun c => sjis_char c = true) ca -> Forall (fun c => sjis_char c = true) cb ->
  Z.of_nat n < 2 ^ 31 -> (length (encode two_enc ca) <= n)%nat -> (length (encode two_enc cb) <= n)%nat ->
  (exists r, my_strnncoll_sjis (encode two_enc ca) (encode two_enc cb) false = Some r /\ sign r = lex (encode sjis_key ca) (encode sjis_key cb)) /\
  (exists r, my_strnncollsp_sjis (encode two_enc ca) (encode two_enc cb) = Some r /\ sign r = padded_cmp n (encode sjis_key ca) (encode sjis_key cb) /\
     sign (memcmp n (my_strnxfrm_sjis n (encode two_enc ca)) (my_strnxfrm_sjis n (encode two_enc cb))) = sign r).
Proof.
  intros Ha Hb Hn Hla Hlb. destruct (sjis_comparison ca cb n) as (H1 & _ & r & Hr & Hs); try done; [lia..|]. split; [done|].
  exists r. split_and!; try done. rewrite !sjis_xfrm by done. by rewrite memcmp_pad, Hs.
Qed.

(** "a" and a kana, and "A" and spaces. *)
Lemma sjis_order_keys_witness :
  exists r, my_strnncollsp_sjis [97; 0xB1] [65; 0xB1; 32] = Some r /\ sign r = Eq.
Proof.
  destruct (sjis_order_keys [97; 0xB1] [65; 0xB1; 32] 3) as (_ & r & Hr & Hs & _); [by repeat constructor|by repeat constructor|by vm_compute|simpl; lia|simpl; lia|].
  exists r. split; [exact Hr|]. rewrite Hs. by vm_compute.
Defined.

(** The range of a LIKE pattern in sjis is right: a string of at most as many characters as
    the buffers have room for that the pattern stands for compares between [min_str] and
    [max_str]. *)
Theorem like_range_sjis_covers escape w_one w_many cp cs res_length :
  0 <= escape < 128 /\ 0 <= w_one < 128 /\ 0 <= w_many < 128 ->
  escape <> w_one /\ escape <> w_many /\ w_one <> w_many ->
  Forall (fun c => sjis_char c = true) cp -> Forall (fun c => sjis_char c = true) cs ->
  Z.of_nat res_length < 2 ^ 31 -> (2 * length cs <= res_length)%nat -> like sjis_weight escape w_one w_many cs cp ->
  let '(min_str, max_str, min_length, max_length) := my_like_range_sjis my_charset_sjis_japanese_ci (encode two_enc cp) escape w_one w_many res_length in
  (exists r, my_strnncollsp_sjis (take min_length min_str) (encode two_enc cs) = Some r /\ r <= 0) /\
  (exists r, my_strnncollsp_sjis (encode two_enc cs) (take max_length max_str) = Some r /\ r <= 0).
Proof.
  intros Hascii Hd Hcp Hcs Hres Hlen Hlike. unfold my_like_range_sjis. change (Z.to_nat (mbmaxlen my_charset_sjis_japanese_ci)) with 2%nat.
  pose proof (Nat.div_mod res_length 2 ltac:(lia)). pose proof (Nat.mod_upper_bound res_length 2 ltac:(lia)).
  pose proof (range_sjis_spec escape w_one w_many Hascii Hd (S (length (encode two_enc cp))) cp cs res_length (res_length / 2) Hcp Hcs) as Hr.
  pose proof (mb_encode_length cp Hcp). specialize (Hr ltac:(lia) ltac:(lia) ltac:(lia) Hlike).
  destruct (range_sjis _ _ _ _ _ _ _) as [[[mi ma] n] many]. destruct Hr as (cm & cM & Hcm & HcM & Hl & Hl2 & Hk & -> & -> & Hmin & Hmax).
  pose proof (sjis_length cs Hcs). cbn [state_binsort my_charset_sjis_japanese_ci].
  assert (forall x, sign x <> Gt -> x <= 0) as Hsign by (intros x; unfold sign; destruct (Z.compare_spec x 0); intros; (done || lia)).
  set (k := if many then res_length else n) in *.
  assert (take k (encode two_enc cm ++ replicate (res_length - k) 32) = encode two_enc cm) as Et by (rewrite <- Hl at 1; apply take_app_length).
  assert (take k (encode two_enc cM ++ replicate (res_length - k) 32) = encode two_enc cM) as EM by (rewrite <- Hl2 at 1; apply take_app_length).
  assert (forall min_length : nat, min_length = k ->
    (exists r, my_strnncollsp_sjis (take min_length (encode two_enc cm ++ replicate (res_length - k) 32)) (encode two_enc cs) = Some r /\ r <= 0) /\
    (exists r, my_strnncollsp_sjis (encode two_enc cs) (take min_length (encode two_enc cM ++ replicate (res_length - k) 32)) = Some r /\ r <= 0)) as Hgo.
  { intros ? ->. rewrite Et, EM.
    destruct (sjis_comparison cm cs res_length) as (_ & _ & r & Hr & Hs); try done; [lia..|].
    destruct (sjis_comparison cs cM res_length) as (_ & _ & r2 & Hr2 & Hs2); try done; [lia..|].
    split; [exists r|exists r2]; (split; [done|]); apply Hsign; congruence. }
  destruct many; by apply Hgo.
Qed.

(** "a", a hiragana and "z" are between the strings for "A_%". *)
Lemma like_range_sjis_covers_witness :
  let '(min_str, max_str, min_length, max_length) := my_like_range_sjis my_charset_sjis_japanese_ci [65; 95; 37] 92 95 37 8 in
  (exists r, my_strnncollsp_sjis (take min_length min_str) (encode two_enc [97; 0x82A0; 122]) = Some r /\ r <= 0) /\
  (exists r, my_strnncollsp_sjis (encode two_enc [97; 0x82A0; 122]) (take max_length max_str) = Some r /\ r <= 0).
Proof.
  apply (like_range_sjis_covers 92 95 37 [65; 95; 37] [97; 0x82A0; 122] 8); try lia; [by repeat constructor..|simpl; lia|].
  apply like_char; [lia|lia|lia|by vm_compute|]. apply like_one. apply (like_many _ _ _ _ [122] [] []). constructor.
Defined.

(** [my_well_formed_len_sjis] measures the longest prefix of at most [pos] well-formed characters, and
    the error tells whether anything else ended it. *)
Theorem well_formed_len_sjis b pos : bytes b -> measured issjishead issjistail is_kana b pos (my_well_formed_len_sjis b pos).
Proof.
  intros Hb. apply well_formed_len_spec; [apply _| |done|lia].
  intros c Hk. unfold is_kana, issjishead in *. apply orb_false_iff. rewrite !andb_false_iff, !Z.leb_gt. b2p. lia.
Qed.

Lemma well_formed_len_sjis_witness :
  my_well_formed_len_sjis [97; 0x82; 0xA0; 0x82] 5 = (3, 1) /\
  measured issjishead issjistail is_kana [97; 0x82; 0xA0; 0x82] 5 (my_well_formed_len_sjis [97; 0x82; 0xA0; 0x82] 5).
Proof. split; [by vm_compute|]. apply well_formed_len_sjis. repeat constructor; lia. Defined.

(** LIKE in sjis is right: for escape and wildcard characters that are distinct ASCII
    characters, the comparison of two strings of characters ends and returns 0 exactly for
    the strings the pattern stands for, as long as the byte behind the pattern in memory is
    not the character for any string.  No byte of a character of two bytes is taken for a
    wildcard or for an escape character. *)
Theorem wildcmp_sjis_like escape w_one w_many past cs cw :
  0 <= escape < 128 /\ 0 <= w_one < 128 /\ 0 <= w_many < 128 ->
  escape <> w_one /\ escape <> w_many /\ w_one <> w_many -> s8 past <> w_many ->
  Forall (fun c => sjis_char c = true) cs -> Forall (fun c => sjis_char c = true) cw ->
  exists r, my_wildcmp_mb ismbchar_sjis my_charset_sjis_japanese_ci (encode two_enc cs) (encode two_enc cw) escape w_one w_many past = Some r /\
    (r = 0 <-> like sjis_weight escape w_one w_many cs cw).
Proof.
  intros Ha Hd Hp Hcs Hcw.
  assert (forall c, sjis_char c = true -> c < 256 -> 0 <= tab sort_order_sjis c < 256) as Hb.
  { intros y Hy L. destruct (two_char_one _ _ y Hy L) as (_ & _ & ?). apply so_byte; [apply _|lia]. }
  destruct (wildcmp_mb_spec (ismbchar := ismbchar_sjis) (tab sort_order_sjis) (fun x c => tab sort_order_sjis x =? tab sort_order_sjis c)
    escape w_one w_many past Ha Hd Hp) with (fuel := S (length (encode two_enc cw))) (result := -1) (cs := cs) (w := cw) as (r & Hr & Hans & _); try done.
  - intros c Hc Hone%two_one. by apply Hb.
  - intros c d h t Hc Hd2 Hc1%two_one Hd1 Eh. assert (256 <= d) as Ld by (rewrite two_one in Hd1; lia).
    destruct (two_char_two _ _ d Hd2 Ld) as (E & _). rewrite E in Eh. injection Eh as <- <-.
    apply (so_mixed_id issjishead issjistail sort_order_sjis c d Hc Hd2 Hc1 Ld).
  - pose proof (mb_encode_length cw Hcw). lia.
  - by left.
  - exists r. split; [exact Hr|]. apply Hans.
Qed.

(** The second byte of 83 5C is a backslash, the one of 81 5F an underscore. *)
Lemma wildcmp_sjis_like_witness :
  my_wildcmp_mb ismbchar_sjis my_charset_sjis_japanese_ci [65; 0x83; 0x5C; 98] [97; 0x83; 0x5C; 37] 92 95 37 0 = Some 0 /\
  exists r, my_wildcmp_mb ismbchar_sjis my_charset_sjis_japanese_ci (encode two_enc [65; 0x815F; 98]) (encode two_enc [97; 0x815F; 37]) 92 95 37 0 = Some r /\
    (r = 0 <-> like sjis_weight 92 95 37 [65; 0x815F; 98] [97; 0x815F; 37]).
Proof.
  split; [by vm_compute|]. apply (wildcmp_sjis_like 92 95 37 0 [65; 0x815F; 98] [97; 0x815F; 37]); try lia; [by vm_compute|by repeat constructor..].
Defined.

(** ** What the code gets wrong *)

(** In the binary collation the byte behind a wildcard for any string is compared
    as an unsigned character with the signed characters of the string, so a half-width kana there is
    never found: B1 is LIKE "%B1", but the code says no. *)
Theorem wildcmp_sjis_bin_misses :
  like id 92 95 37 [0xB1] [37; 0xB1] /\
  my_wildcmp_mb_bin ismbchar_sjis [0xB1] [37; 0xB1] 92 95 37 0 = Some (-1) /\ my_wildcmp_mb_bin ismbchar_sjis [0xB1] [0xB1] 92 95 37 0 = Some 0.
Proof. split; [|split; by vm_compute]. apply (like_many _ _ _ _ [] [0xB1]). apply like_char; try lia. constructor. Qed.

(** sjis converts case with [my_caseup_8bit], which takes second bytes for letters:
    the upper case of 83 61 is 83 41, another katakana; [my_caseup_mb] leaves it. *)
Theorem caseup_sjis_corrupts :
  sjis_char 0x8361 = true /\ my_caseup_8bit my_charset_sjis_japanese_ci (two_enc 0x8361) = two_enc 0x8341 /\
  my_caseup_mb ismbchar_sjis my_charset_sjis_japanese_ci (two_enc 0x8361) = Some (two_enc 0x8361).
Proof. split_and!; by vm_compute. Qed.

(** [my_well_formed_len_cp932] does not count the characters down: it measures two of
    them when it is asked for one. *)
Theorem well_formed_len_cp932_ignores_pos :
  my_well_formed_len_cp932 5 [97; 98] 1 = (2, 0) /\ my_well_formed_len_sjis [97; 98] 1 = (1, 0).
Proof. split; by vm_compute. Qed.

(** cp932 changes the sign of a difference with [^ -1]: a string and the same with the byte
    1F are equal one way round and not the other. *)
Theorem strnncollsp_cp932_asymmetric :
  my_strnncollsp_cp932 [97] [97; 0x1F] = Some 0 /\ my_strnncollsp_cp932 [97; 0x1F] [97] = Some (-1).
Proof. split; by vm_compute. Qed.
