(* ===== verification/Gbk.v ===== *)
(** * gbk, gb2312, euckr and big5 (strings/ctype-gbk.c, ctype-gb2312.c, ctype-euc_kr.c, ctype-big5.c)

    The collations of gbk and big5, their sort keys and the ranges of LIKE; of gb2312 and
    euckr the functions that tell characters apart. *)

From stdpp Require Import base numbers list pmap.
From Stdlib Require Import ZArith Lia.
From S2P Require Import Prelude Like Wild8 Collate CtypeBin CtypeSimple Utf8 CtypeMb MbLike MbTwo GbkTab Sjis.

Local Open Scope Z_scope.

(** ** The functions *)

Definition isgbkhead (c : Z) : bool := (0x81 <=? c) && (c <=? 0xfe).

Definition isgbktail (c : Z) : bool := ((0x40 <=? c) && (c <=? 0x7e)) || ((0x80 <=? c) && (c <=? 0xfe)).

Definition isgbkcode (c d : Z) : bool := isgbkhead c && isgbktail d.

Definition ismbchar_gbk : list Z -> Z := two_ismbchar isgbkhead isgbktail.

Definition mbcharlen_gbk : Z -> Z := two_mbcharlen isgbkhead.

(** [gbkhead(i)] and [gbktail(i)] are the two bytes; the place in the table is in 32
    bits. *)
Definition gbksortorder (i : Z) : Z :=
  let idx := i mod 256 in
  let idx := if 0x7f <? idx then idx - 0x41 else idx - 0x40 in
  let idx := u32 (idx + (i / 256 - 0x81) * 0xbe) in
  u16 (0x8100 + tab gbk_order idx).

Definition gbk_diff (a_char b_char : Z) : Z := gbksortorder a_char - gbksortorder b_char.

Definition my_strnncoll_gbk_internal (a b : list Z) : Z * list Z * list Z := length_result isgbkcode sort_order_gbk gbk_diff a b.

Definition my_strnncoll_gbk (a b : list Z) (b_is_prefix : bool) : Z := length_strnncoll isgbkcode sort_order_gbk gbk_diff a b b_is_prefix.

Definition my_strnncollsp_gbk (a b : list Z) : Z := length_strnncollsp isgbkcode sort_order_gbk gbk_diff a b.

Definition my_strnxfrm_gbk (dstlen : nat) (src : list Z) : list Z := length_strnxfrm isgbkcode sort_order_gbk gbksortorder dstlen src.

Definition my_well_formed_len_gbk (b : list Z) (pos : nat) : Z * Z :=
  two_well_formed_len isgbkhead isgbktail (fun _ => false) (S (length b)) b pos.

(** The loop of [my_like_range_gbk]: behind an escape character the first byte of a
    character of two bytes is copied twice, and its second byte is left for the next
    round.  [past] is the byte behind the pattern. *)
Fixpoint range_gbk (escape w_one w_many past : Z) (ptr : list Z) (room charlen : nat) : list Z * list Z * nat * bool :=
  match ptr, room, charlen with
  | c :: p, S room', S charlen =>
      let plain :=
        if s8 c =? w_one then range_put 0 255 (range_gbk escape w_one w_many past p room' charlen)
        else if s8 c =? w_many then (replicate room 0, replicate room 255, O, true)
        else range_put c c (range_gbk escape w_one w_many past p room' charlen) in
      match p with
      | e :: p' =>
          if isgbkcode c e then range_put c c (range_put e e (range_gbk escape w_one w_many past p' (room' - 1) charlen))
          else if s8 c =? escape then
            match room' with
            | S room'' =>
                if isgbkcode e (default past (head p')) then range_put e e (range_put e e (range_gbk escape w_one w_many past p' room'' charlen))
                else range_put e e (range_gbk escape w_one w_many past p' room' charlen)
            | O => range_put e e (range_gbk escape w_one w_many past p' room' charlen)
            end
          else plain
      | [] => plain
      end
  | _, _, _ => (replicate room 32, replicate room 32, O, false)
  end.

(** [min_str], [max_str], [min_length] and [max_length]. *)
Definition my_like_range_gbk (cs : CHARSET_INFO) (ptr : list Z) (escape w_one w_many past : Z) (res_length : nat)
  : list Z * list Z * nat * nat :=
  let charlen := (res_length / Z.to_nat (mbmaxlen cs))%nat in
  let '(min_str, max_str, n, many) := range_gbk escape w_one w_many past ptr res_length charlen in
  if many then (min_str, max_str, if state_binsort cs then n else res_length, res_length)
  else (min_str, max_str, n, n).

(** *** gb2312 and euckr *)

Definition isgb2312head (c : Z) : bool := (0xa1 <=? c) && (c <=? 0xf7).

Definition isgb2312tail (c : Z) : bool := (0xa1 <=? c) && (c <=? 0xfe).

Definition ismbchar_gb2312 : list Z -> Z := two_ismbchar isgb2312head isgb2312tail.

Definition mbcharlen_gb2312 : Z -> Z := two_mbcharlen isgb2312head.

Definition iseuc_kr (c : Z) : bool := (0xa1 <=? c) && (c <=? 0xfe).

Definition ismbchar_euc_kr (s : list Z) : Z := match s with c :: _ => if c <? 0x80 then 0 else two_ismbchar iseuc_kr iseuc_kr s | [] => 0 end.

Definition mbcharlen_euc_kr : Z -> Z := two_mbcharlen iseuc_kr.

(** *** big5 *)

Definition isbig5head (c : Z) : bool := (0xa1 <=? c) && (c <=? 0xf9).

Definition isbig5tail (c : Z) : bool := ((0x40 <=? c) && (c <=? 0x7e)) || ((0xa1 <=? c) && (c <=? 0xfe)).

Definition isbig5code (c d : Z) : bool := isbig5head c && isbig5tail d.

Definition ismbchar_big5 : list Z -> Z := two_ismbchar isbig5head isbig5tail.

Definition mbcharlen_big5 : Z -> Z := two_mbcharlen isbig5head.

(** The first character with as many strokes. *)
Definition big5strokexfrm (i : Z) : Z :=
  if (i =? 0xA440) || (i =? 0xA441) then 0xA440
  else if ((0xA442 <=? i) && (i <=? 0xA453)) || ((0xC940 <=? i) && (i <=? 0xC944)) then 0xA442
  else if ((0xA454 <=? i) && (i <=? 0xA47E)) || ((0xC945 <=? i) && (i <=? 0xC94C)) then 0xA454
  else if ((0xA4A1 <=? i) && (i <=? 0xA4FD)) || ((0xC94D <=? i) && (i <=? 0xC962)) then 0xA4A1
  else if ((0xA4FE <=? i) && (i <=? 0xA5DF)) || ((0xC963 <=? i) && (i <=? 0xC9AA)) then 0xA4FE
  else if ((0xA5E0 <=? i) && (i <=? 0xA6E9)) || ((0xC9AB <=? i) && (i <=? 0xCA59)) then 0xA5E0
  else if ((0xA6EA <=? i) && (i <=? 0xA8C2)) || ((0xCA5A <=? i) && (i <=? 0xCBB0)) then 0xA6EA
  else if (i =? 0xA260) || ((0xA8C3 <=? i) && (i <=? 0xAB44)) || ((0xCBB1 <=? i) && (i <=? 0xCDDC)) then 0xA8C3
  else if (i =? 0xA259) || (i =? 0xF9DA) || ((0xAB45 <=? i) && (i <=? 0xADBB)) || ((0xCDDD <=? i) && (i <=? 0xD0C7)) then 0xAB45
  else if (i =? 0xA25A) || ((0xADBC <=? i) && (i <=? 0xB0AD)) || ((0xD0C8 <=? i) && (i <=? 0xD44A)) then 0xADBC
  else if (i =? 0xA25B) || (i =? 0xA25C) || ((0xB0AE <=? i) && (i <=? 0xB3C2)) || ((0xD44B <=? i) && (i <=? 0xD850)) then 0xB0AE
  else if (i =? 0xF9DB) || ((0xB3C3 <=? i) && (i <=? 0xB6C2)) || ((0xD851 <=? i) && (i <=? 0xDCB0)) then 0xB3C3
  else if (i =? 0xA25D) || (i =? 0xA25F) || (i =? 0xC6A1) || (i =? 0xF9D6) || (i =? 0xF9D8) || ((0xB6C3 <=? i) && (i <=? 0xB9AB)) || ((0xDCB1 <=? i) && (i <=? 0xE0EF)) then 0xB6C3
  else if (i =? 0xF9DC) || ((0xB9AC <=? i) && (i <=? 0xBBF4)) || ((0xE0F0 <=? i) && (i <=? 0xE4E5)) then 0xB9AC
  else if (i =? 0xA261) || ((0xBBF5 <=? i) && (i <=? 0xBEA6)) || ((0xE4E6 <=? i) && (i <=? 0xE8F3)) then 0xBBF5
  else if (i =? 0xA25E) || (i =? 0xF9D7) || (i =? 0xF9D9) || ((0xBEA7 <=? i) && (i <=? 0xC074)) || ((0xE8F4 <=? i) && (i <=? 0xECB8)) then 0xBEA7
  else if ((0xC075 <=? i) && (i <=? 0xC24E)) || ((0xECB9 <=? i) && (i <=? 0xEFB6)) then 0xC075
  else if ((0xC24F <=? i) && (i <=? 0xC35E)) || ((0xEFB7 <=? i) && (i <=? 0xF1EA)) then 0xC24F
  else if ((0xC35F <=? i) && (i <=? 0xC454)) || ((0xF1EB <=? i) && (i <=? 0xF3FC)) then 0xC35F
  else if ((0xC455 <=? i) && (i <=? 0xC4D6)) || ((0xF3FD <=? i) && (i <=? 0xF5BF)) then 0xC455
  else if ((0xC4D7 <=? i) && (i <=? 0xC56A)) || ((0xF5C0 <=? i) && (i <=? 0xF6D5)) then 0xC4D7
  else if ((0xC56B <=? i) && (i <=? 0xC5C7)) || ((0xF6D6 <=? i) && (i <=? 0xF7CF)) then 0xC56B
  else if ((0xC5C8 <=? i) && (i <=? 0xC5F0)) || ((0xF7D0 <=? i) && (i <=? 0xF8A4)) then 0xC5C8
  else if ((0xC5F1 <=? i) && (i <=? 0xC654)) || ((0xF8A5 <=? i) && (i <=? 0xF8ED)) then 0xC5F1
  else if ((0xC655 <=? i) && (i <=? 0xC664)) || ((0xF8EE <=? i) && (i <=? 0xF96A)) then 0xC655
  else if ((0xC665 <=? i) && (i <=? 0xC66B)) || ((0xF96B <=? i) && (i <=? 0xF9A1)) then 0xC665
  else if ((0xC66C <=? i) && (i <=? 0xC675)) || ((0xF9A2 <=? i) && (i <=? 0xF9B9)) then 0xC66C
  else if ((0xC676 <=? i) && (i <=? 0xC678)) || ((0xF9BA <=? i) && (i <=? 0xF9C5)) then 0xC676
  else if ((0xC679 <=? i) && (i <=? 0xC67C)) || ((0xF9C7 <=? i) && (i <=? 0xF9CB)) then 0xC679
  else if (i =? 0xC67D) || ((0xF9CC <=? i) && (i <=? 0xF9CF)) then 0xC67D
  else if (i =? 0xF9D0) then 0xF9D0
  else if (i =? 0xC67E) || (i =? 0xF9D1) then 0xC67E
  else if (i =? 0xF9C6) || (i =? 0xF9D2) then 0xF9C6
  else if (i =? 0xF9D3) then 0xF9D3
  else if (i =? 0xF9D4) then 0xF9D4
  else if (i =? 0xF9D5) then 0xF9D5
  else 0xA140.

Definition big5_diff (a_char b_char : Z) : Z := a_char - b_char.

Definition my_strnncoll_big5_internal (a b : list Z) : Z * list Z * list Z := length_result isbig5code sort_order_big5 big5_diff a b.

Definition my_strnncoll_big5 (a b : list Z) (b_is_prefix : bool) : Z := length_strnncoll isbig5code sort_order_big5 big5_diff a b b_is_prefix.

Definition my_strnncollsp_big5 (a b : list Z) : Z := length_strnncollsp isbig5code sort_order_big5 big5_diff a b.

Definition my_strnxfrm_big5 (dstlen : nat) (src : list Z) : list Z := length_strnxfrm isbig5code sort_order_big5 big5strokexfrm dstlen src.

Definition my_well_formed_len_big5 (b : list Z) (pos : nat) : Z * Z :=
  two_well_formed_len isbig5head isbig5tail (fun _ => false) (S (length b)) b pos.

(** ** What the theorems use *)

#[export] Instance gbk_heads : HighHead isgbkhead.
Proof. split. intros c Hc. unfold isgbkhead in Hc. b2p. lia. Qed.

#[export] Instance big5_heads : HighHead isbig5head.
Proof. split. intros c Hc. unfold isbig5head in Hc. b2p. lia. Qed.

#[export] Instance gb2312_heads : HighHead isgb2312head.
Proof. split. intros c Hc. unfold isgb2312head in Hc. b2p. lia. Qed.

#[export] Instance euc_kr_heads : HighHead iseuc_kr.
Proof. split. intros c Hc. unfold iseuc_kr in Hc. b2p. lia. Qed.

#[export] Instance gbk_order_ascii : AsciiOrder sort_order_gbk.
Proof. split. intros c Hc. revert c Hc. apply bytes_all. by vm_compute. Qed.

#[export] Instance big5_order_ascii : AsciiOrder sort_order_big5.
Proof. split. intros c Hc. revert c Hc. apply bytes_all. by vm_compute. Qed.

Definition gbk_char (c : Z) : bool := two_char isgbkhead isgbktail c.

(** The place of a character of two bytes in the table, and its weight. *)
Definition gbk_place (c : Z) : Z := (c / 256 - 0x81) * 0xbe + (c mod 256 - if 0x7f <? c mod 256 then 0x41 else 0x40).

Lemma gbk_place_range c : gbk_char c = true -> 256 <= c -> 0 <= gbk_place c < 23940.
Proof.
  intros Hc L. destruct (two_char_two _ _ c Hc L) as (_ & Hh & Ht & _). unfold isgbkhead, isgbktail, gbk_place in *.
  apply orb_true_iff in Ht. set (h := c / 256) in *. set (l := c mod 256) in *. clearbody h l. b2p.
  destruct (Z.ltb_spec 0x7f l); destruct Ht; b2p; lia.
Qed.

Lemma gbk_place_inj c d : gbk_char c = true -> gbk_char d = true -> 256 <= c -> 256 <= d -> gbk_place c = gbk_place d -> c = d.
Proof.
  intros Hc Hd L L2 E. destruct (two_char_two _ _ c Hc L) as (_ & Hh & Ht & _). destruct (two_char_two _ _ d Hd L2) as (_ & Hh2 & Ht2 & _).
  unfold isgbkhead, isgbktail, gbk_place in *. rewrite <- (div_mod_256 c), <- (div_mod_256 d). apply orb_true_iff in Ht, Ht2.
  set (h := c / 256) in *. set (l := c mod 256) in *. set (h2 := d / 256) in *. set (l2 := d mod 256) in *. clearbody h l h2 l2. b2p.
  destruct (Z.ltb_spec 0x7f l), (Z.ltb_spec 0x7f l2); destruct Ht, Ht2; b2p; lia.
Qed.

(** The places of the values of a table. *)
Fixpoint inverse (l : list Z) (i : Z) (inv : Pmap Z) : Pmap Z :=
  match l with [] => inv | v :: l => inverse l (i + 1) (<[Z.to_pos (v + 1) := i]> inv) end.

(** The table is a permutation of the places. *)
Lemma gbk_order_permutes :
  (fun inv => all_from (fun i v => (0 <=? v) && (v <? 23940) && (find_at inv v =? i)) gbk_order 0) (inverse gbk_order 0 ∅) = true.
Proof. by vm_compute. Qed.

Lemma gbk_order_length : Z.of_nat (length gbk_order) = 23940.
Proof. by vm_compute. Qed.

Lemma gbk_order_place : exists inv : Z -> Z, forall i, 0 <= i < 23940 -> 0 <= tab gbk_order i < 23940 /\ inv (tab gbk_order i) = i.
Proof.
  exists (find_at (inverse gbk_order 0 ∅)). intros i Hi. pose proof gbk_order_permutes as H. cbv beta in H. pose proof gbk_order_length as Hl.
  pose proof (all_from_spec _ gbk_order 0 i H) as Hp. cbv beta in Hp. rewrite Z.add_0_l, Hl in Hp. specialize (Hp Hi). clear H. b2p. auto.
Qed.

Lemma gbk_weight c : gbk_char c = true -> 256 <= c -> gbksortorder c = 0x8100 + tab gbk_order (gbk_place c) /\ 0x8100 <= gbksortorder c <= 0xDE83.
Proof.
  intros Hc L. pose proof (gbk_place_range c Hc L) as Hp. destruct gbk_order_place as (inv & Hinv). destruct (Hinv _ Hp) as [Ho _]. clear inv Hinv.
  assert (gbksortorder c = 0x8100 + tab gbk_order (gbk_place c)) as E; [|rewrite E; split; [done|lia]].
  unfold gbksortorder. replace (if 0x7f <? c mod 256 then c mod 256 - 0x41 else c mod 256 - 0x40) with (c mod 256 - if 0x7f <? c mod 256 then 0x41 else 0x40)
    by (by destruct (0x7f <? c mod 256)).
  rewrite (Z.add_comm (c mod 256 - _)). fold (gbk_place c). unfold u32, u16. rewrite (Z.mod_small (gbk_place c)), Z.mod_small by lia. done.
Qed.

(** Different characters of two bytes never have the same weight. *)
Lemma gbksortorder_injective c d : gbk_char c = true -> gbk_char d = true -> 256 <= c -> 256 <= d -> gbksortorder c = gbksortorder d -> c = d.
Proof.
  intros Hc Hd Lc Ld. rewrite (proj1 (gbk_weight c Hc Lc)), (proj1 (gbk_weight d Hd Ld)). intros E. apply gbk_place_inj; try done.
  destruct gbk_order_place as (inv & Hinv). destruct (Hinv _ (gbk_place_range c Hc Lc)) as [_ Ec]. destruct (Hinv _ (gbk_place_range d Hd Ld)) as [_ Ed].
  revert E Ec Ed. generalize (tab gbk_order (gbk_place c)) (tab gbk_order (gbk_place d)). intros x y E <- <-. f_equal. lia.
Qed.

(** The bytes of the key of a character. *)
Definition gbk_key (c : Z) : list Z := two_key sort_order_gbk gbksortorder c.

Section gbk.
Local Abbreviation str cs := (encode two_enc cs).
Local Abbreviation chars cs := (Forall (fun c => gbk_char c = true) cs).

Lemma gbk_comparison ca cb n : chars ca -> chars cb ->
  Z.of_nat (length (str ca)) < 2 ^ 31 -> Z.of_nat (length (str cb)) < 2 ^ 31 -> (length (str ca) <= n)%nat -> (length (str cb) <= n)%nat ->
  sign (my_strnncoll_gbk (str ca) (str cb) false) = lex (encode gbk_key ca) (encode gbk_key cb) /\
  (my_strnncoll_gbk (str ca) (str cb) true = 0 <-> exists k, encode gbk_key ca = encode gbk_key cb ++ k) /\
  sign (my_strnncollsp_gbk (str ca) (str cb)) = padded_cmp n (encode gbk_key ca) (encode gbk_key cb).
Proof.
  apply (length_order isgbkhead isgbktail sort_order_gbk gbksortorder).
  - intros c d Hc Hd Lc Ld. destruct (gbk_weight d Hd Ld) as [_ Hw]. apply (so_mixed isgbkhead isgbktail sort_order_gbk gbksortorder c d Hc Hd Lc Ld); [|dlia].
    pose proof (two_head_range isgbkhead isgbktail d Hd Ld). destruct (two_char_two _ _ d Hd Ld) as (_ & Hh & _ & _).
    intros h Hr Hn. unfold isgbkhead in *. apply andb_false_iff in Hn. rewrite !Z.leb_gt in Hn. b2p.
    assert (0x81 <= gbksortorder d / 256 <= 0xDE) by dlia. split; [lia|]. destruct Hn.
    + by rewrite !(proj2 (Z.compare_lt_iff h _)) by lia.
    + by rewrite !(proj2 (Z.compare_gt_iff h _)) by lia.
  - apply so_space_one; apply _.
  - intros c Hc L. destruct (gbk_weight c Hc L) as [_ Hw]. dlia.
  - intros c d Hc Hd Lc Ld Hne. split; [intros E; by apply Hne, gbksortorder_injective|]. apply sign_sub.
Qed.

Lemma gbk_xfrm cs n : chars cs -> (length (str cs) <= n)%nat -> my_strnxfrm_gbk n (str cs) = pad n 32 (encode gbk_key cs).
Proof.
  intros Hcs Hn. unfold my_strnxfrm_gbk, pad. rewrite <- (length_keys isgbkhead isgbktail sort_order_gbk gbksortorder) in * by done.
  change (length (encode (two_key sort_order_gbk gbksortorder) cs)) with (length (encode gbk_key cs)) in Hn.
  rewrite (take_ge (encode gbk_key cs)) by done. unfold isgbkcode.
  rewrite (length_strnxfrm_keys isgbkhead isgbktail sort_order_gbk gbksortorder) by (done || (intros c Hc L; pose proof (gbk_weight c Hc L); lia)).
  by rewrite <- (length_keys isgbkhead isgbktail sort_order_gbk gbksortorder) by done.
Qed.
End gbk.

(** ** The results *)

(** The Chinese collation of gbk: for strings of characters, the comparison is the
    lexicographic order of the keys of the characters, the comparison of columns the same
    with the shorter string extended with spaces, and the sort keys of [n] bytes
    compare like that. *)
Theorem gbk_order_keys ca cb n :
  Forall (fun c => gbk_char c = true) ca -> Forall (fun c => gbk_char c = true) cb ->
  Z.of_nat n < 2 ^ 31 -> (length (encode two_enc ca) <= n)%nat -> (length (encode two_enc cb) <= n)%nat ->
  sign (my_strnncoll_gbk (encode two_enc ca) (encode two_enc cb) false) = lex (encode gbk_key ca) (encode gbk_key cb) /\
  sign (my_strnncollsp_gbk (encode two_enc ca) (encode two_enc cb)) = padded_cmp n (encode gbk_key ca) (encode gbk_key cb) /\
  sign (memcmp n (my_strnxfrm_gbk n (encode two_enc ca)) (my_strnxfrm_gbk n (encode two_enc cb))) =
    sign (my_strnncollsp_gbk (encode two_enc ca) (encode two_enc cb)).
Proof.
  intros Ha Hb Hn Hla Hlb. destruct (gbk_comparison ca cb n) as (H1 & _ & H2); try done; [lia..|]. split; [done|]. split; [done|].
  rewrite !gbk_xfrm by done. by rewrite memcmp_pad, H2.
Qed.

(** "a" and a character, and "A", the character and a space. *)
Lemma gbk_order_keys_witness :
  sign (memcmp 4 (my_strnxfrm_gbk 4 [97; 0xB0; 0xA1]) (my_strnxfrm_gbk 4 [65; 0xB0; 0xA1; 32])) =
    sign (my_strnncollsp_gbk [97; 0xB0; 0xA1] [65; 0xB0; 0xA1; 32]) /\
  my_strnncollsp_gbk [97; 0xB0; 0xA1] [65; 0xB0; 0xA1; 32] = 0.
Proof.
  split; [|by vm_compute].
  apply (gbk_order_keys [97; 0xB0A1] [65; 0xB0A1; 32] 4); [by repeat constructor|by repeat constructor|by vm_compute|simpl; lia|simpl; lia].
Defined.

(** ** What the code gets wrong *)

(** The sort keys of big5 order characters by their strokes, the comparison by their
    codes: A4FE has more strokes than C940. *)
Theorem big5_keys_disagree :
  my_strnncoll_big5 [0xA4; 0xFE] [0xC9; 0x40] false < 0 /\
  0 < memcmp 2 (my_strnxfrm_big5 2 [0xA4; 0xFE]) (my_strnxfrm_big5 2 [0xC9; 0x40]).
Proof. split; by vm_compute. Qed.

(** The key is as long as the string when the buffer is shorter. *)
Theorem strnxfrm_gbk_overrun : length (my_strnxfrm_gbk 2 [97; 98; 99]) = 3%nat.
Proof. by vm_compute. Qed.

(** Behind an escape character a character of two bytes is copied as its first byte
    twice, so the range of a pattern misses the string it is. *)
Theorem like_range_gbk_misses :
  let cs := mkCharset [] [] sort_order_gbk 1 2 255 false in
  like (mb_weight (enc := two_enc) (tab sort_order_gbk)) 92 95 37 [0xB0A1] [92; 0xB0A1] /\
  let '(min_str, max_str, min_length, max_length) := my_like_range_gbk cs (two_enc 92 ++ two_enc 0xB0A1) 92 95 37 0 4 in
  take min_length min_str = [0xB0; 0xB0; 0xA1] /\ my_strnncollsp_gbk (two_enc 0xB0A1) (take min_length min_str) < 0.
Proof. split; [|by vm_compute]. by apply like_escaped, like_nil. Qed.

(** The tilde has the weight of another character: "~" compares equal to "y" in gbk and
    big5. *)
Theorem tilde_equals_y :
  my_strnncollsp_gbk [126] [121] = 0 /\ my_strnncollsp_big5 [126] [121] = 0.
Proof. split; by vm_compute. Qed.
