(* ===== verification/Hash.v ===== *)
(** * Hash tables (mysys/hash.c, include/hash.h)

    The table is a growing array of links; a record's home slot is [hash_mask]
    of its hash value, and the records with one home form a chain of slot
    numbers that starts at the home.  The array only ever holds as many slots
    as records, so an insertion splits one chain and a deletion merges two.

    The array is a map from slot numbers to links: [None] results are uses of a
    slot that is not there.  Records are addresses; what they hold is the
    function [record_bytes].  The collation is a parameter. *)

From stdpp Require Import base numbers list gmap.
From Stdlib Require Import ZArith Lia.
From S2P Require Import Prelude.

Local Open Scope Z_scope.

(** The calls of [CHARSET_INFO] the table makes: [hash_sort] with the two
    accumulators, and [my_strnncoll]. *)
Class Collation := {
  hash_sort : list Z -> Z * Z -> Z * Z;
  my_strnncoll : list Z -> list Z -> Z }.

(** Keys the collation takes for equal have one hash value; lengths are 32 bits
    wide. *)
Class CollationLaws (c : Collation) := {
  coll_hash : forall a b nr, Z.of_nat (length a) < 2 ^ 32 -> Z.of_nat (length b) < 2 ^ 32 ->
    my_strnncoll a b = 0 -> hash_sort a nr = hash_sort b nr }.

Definition NO_RECORD : Z := u32 (-1).
Definition LOWFIND : Z := 1.
Definition LOWUSED : Z := 2.
Definition HIGHFIND : Z := 4.
Definition HIGHUSED : Z := 8.

Record HASH_LINK := mkLink { next : Z; data : Z }.

Abbreviation links := (gmap Z HASH_LINK).

Record HASH := mkHash {
  key_offset : Z;
  key_length : Z;
  records : Z;
  blength : Z;
  current_record : Z;
  flags : Z;
  array : links;
  get_key : option (Z -> bool -> list Z);  (** the key of a record, with its length *)
  free : bool                              (** is there a free function? *) }.

(** [pos->next = ...] and [pos[0] = ...]. *)
Definition put (d : links) (i : Z) (l : HASH_LINK) : option links :=
  _ ← d !! i; Some (<[i := l]> d).

Definition put_next (d : links) (i n : Z) : option links :=
  l ← d !! i; Some (<[i := mkLink n (data l)]> d).

(** Change link from pos to new_link. *)
Fixpoint movelink (fuel : nat) (d : links) (find next_link newlink : Z) : option links :=
  match fuel with
  | O => None
  | S fuel =>
      old_link ← d !! next_link;
      if next old_link =? find then put_next d next_link newlink
      else movelink fuel d find (next old_link) newlink
  end.

Definition hash_mask (hashnr buffmax maxlength : Z) : Z :=
  if Z.land hashnr (u32 (buffmax - 1)) <? maxlength then Z.land hashnr (u32 (buffmax - 1))
  else Z.land hashnr (u32 (Z.shiftr buffmax 1 - 1)).

Definition set_current (c : Z) (h : HASH) : HASH :=
  mkHash (key_offset h) (key_length h) (records h) (blength h) c (flags h) (array h) (get_key h) (free h).

(** [records], [blength] and the links after an update; no current record. *)
Definition set_table (n b : Z) (d : links) (h : HASH) : HASH :=
  mkHash (key_offset h) (key_length h) n b NO_RECORD (flags h) d (get_key h) (free h).

Definition set_array (d : links) (h : HASH) : HASH :=
  mkHash (key_offset h) (key_length h) (records h) (blength h) (current_record h) (flags h) d (get_key h) (free h).

(** [ok]: did [my_init_dynamic_array] get its memory?  Without it only
    [records] and [free] of the structure are written. *)
Definition hash_init (old : HASH) (k_offset k_length : Z) (getkey : option (Z -> bool -> list Z)) (free_element : bool)
    (fl : Z) (ok : bool) : HASH * bool :=
  if ok then (mkHash k_offset k_length 0 1 NO_RECORD fl ∅ getkey free_element, false)
  else (mkHash (key_offset old) (key_length old) 0 (blength old) (current_record old) (flags old) (array old)
               (get_key old) false, true).

(** The records of the slots [i], [i + 1], ... *)
Fixpoint elements_from (d : links) (i : Z) (n : nat) : option (list Z) :=
  match n with
  | O => Some []
  | S n => l ← d !! i; rest ← elements_from d (i + 1) n; Some (data l :: rest)
  end.

(** The freed records in order, and the table without them. *)
Definition hash_free_elements (h : HASH) : option (HASH * list Z) :=
  freed ← (if free h then elements_from (array h) 0 (Z.to_nat (records h)) else Some []);
  Some (mkHash (key_offset h) (key_length h) 0 (blength h) (current_record h) (flags h) (array h) (get_key h) (free h),
        freed).

Definition hash_free (h : HASH) : option (HASH * list Z) :=
  '(h, freed) ← hash_free_elements h;
  Some (mkHash (key_offset h) (key_length h) (records h) (blength h) (current_record h) (flags h) ∅ (get_key h) false,
        freed).

Definition my_hash_reset (h : HASH) : option (HASH * list Z) :=
  '(h, freed) ← hash_free_elements h;
  Some (set_table (records h) 1 ∅ h, freed).

Definition hash_element (h : HASH) (idx : Z) : option Z :=
  if idx <? records h then l ← array h !! idx; Some (data l) else Some 0.

Definition hash_replace (h : HASH) (idx new_row : Z) : option HASH :=
  if negb (idx =? NO_RECORD) then l ← array h !! idx; Some (set_array (<[idx := mkLink (next l) new_row]> (array h)) h)
  else Some h.

Section hash.
Context {coll : Collation}.
(** The bytes at the address of a record. *)
Variable record_bytes : Z -> list Z.

Definition calc_hash (key : list Z) : Z := u32 (fst (hash_sort key (1, 4))).

Definition hash_key (h : HASH) (record : Z) (first : bool) : list Z :=
  match get_key h with
  | Some f => f record first
  | None => take (Z.to_nat (key_length h)) (drop (Z.to_nat (key_offset h)) (record_bytes record))
  end.

Definition rec_hashnr (h : HASH) (record : Z) : Z := calc_hash (hash_key h record false).

Definition hash_rec_mask (h : HASH) (pos : HASH_LINK) (buffmax maxlength : Z) : Z :=
  hash_mask (rec_hashnr h (data pos)) buffmax maxlength.

(** Is the result zero?  [key] is the memory the caller's pointer leads to. *)
Definition hashcmp (h : HASH) (pos : HASH_LINK) (key : list Z) (length : Z) : bool :=
  let rec_key := hash_key h (data pos) true in
  let rec_keylength := Z.of_nat (List.length rec_key) in
  negb ((negb (length =? 0) && negb (length =? rec_keylength)) ||
        negb (my_strnncoll rec_key (take (Z.to_nat rec_keylength) key) =? 0)).

(** The key [calc_hash] sees: [length ? length : hash->key_length] bytes. *)
Definition search_key (h : HASH) (key : list Z) (length : Z) : list Z :=
  take (Z.to_nat (if negb (length =? 0) then length else key_length h)) key.

Fixpoint search_loop (fuel : nat) (h : HASH) (key : list Z) (length : Z) (flag : bool) (idx : Z)
  : option (HASH * Z) :=
  match fuel with
  | O => None
  | S fuel =>
      pos ← array h !! idx;
      if hashcmp h pos key length then Some (set_current idx h, data pos)
      else if flag && negb (hash_rec_mask h pos (blength h) (records h) =? idx) then Some (set_current NO_RECORD h, 0)
      else if negb (next pos =? NO_RECORD) then search_loop fuel h key length false (next pos)
      else Some (set_current NO_RECORD h, 0)
  end.

(** The table with its new current record, and the record or 0. *)
Definition hash_search (h : HASH) (key : list Z) (length : Z) : option (HASH * Z) :=
  if negb (records h =? 0) then
    search_loop (S (Z.to_nat (records h))) h key length true
      (hash_mask (calc_hash (search_key h key length)) (blength h) (records h))
  else Some (set_current NO_RECORD h, 0).

Fixpoint next_loop (fuel : nat) (h : HASH) (key : list Z) (length : Z) (idx : Z) : option (HASH * Z) :=
  match fuel with
  | O => None
  | S fuel =>
      if negb (idx =? NO_RECORD) then
        pos ← array h !! idx;
        if hashcmp h pos key length then Some (set_current idx h, data pos)
        else next_loop fuel h key length (next pos)
      else Some (set_current NO_RECORD h, 0)
  end.

Definition hash_next (h : HASH) (key : list Z) (length : Z) : option (HASH * Z) :=
  if negb (current_record h =? NO_RECORD) then
    cur ← array h !! current_record h;
    next_loop (S (Z.to_nat (records h))) h key length (next cur)
  else Some (h, 0).

(** ** Insertion *)

(** The variables of the loop that splits a chain: [gpos] and [ptr_to_rec]
    are where and what of the last record that stays, [gpos2] and
    [ptr_to_rec2] of the last one that moves to the new home. *)
Record split := mkSplit {
  flag : Z;
  gpos : Z;
  ptr_to_rec : Z;
  gpos2 : Z;
  ptr_to_rec2 : Z;
  empty_pos : Z;
  sdata : links }.

Definition has (fl bit : Z) : bool := negb (Z.land fl bit =? 0).

(** One round of the loop at the slot [idx] that holds [pos]. *)
Definition split_step (halfbuff hash_nr idx : Z) (pos : HASH_LINK) (s : split) : option split :=
  if Z.land hash_nr halfbuff =? 0 then
    if negb (has (flag s) LOWFIND) then
      if has (flag s) HIGHFIND then
        Some (mkSplit (Z.lor LOWFIND HIGHFIND) (empty_pos s) (data pos) (gpos2 s) (ptr_to_rec2 s) idx (sdata s))
      else
        Some (mkSplit (Z.lor LOWFIND LOWUSED) idx (data pos) (gpos2 s) (ptr_to_rec2 s) (empty_pos s) (sdata s))
    else
      '(fl, d) ← (if negb (has (flag s) LOWUSED) then
                    d ← put (sdata s) (gpos s) (mkLink idx (ptr_to_rec s));
                    Some (Z.lor (Z.land (flag s) HIGHFIND) (Z.lor LOWFIND LOWUSED), d)
                  else Some (flag s, sdata s));
      Some (mkSplit fl idx (data pos) (gpos2 s) (ptr_to_rec2 s) (empty_pos s) d)
  else
    if negb (has (flag s) HIGHFIND) then
      Some (mkSplit (Z.lor (Z.land (flag s) LOWFIND) HIGHFIND) (gpos s) (ptr_to_rec s) (empty_pos s) (data pos) idx
                    (sdata s))
    else
      '(fl, d) ← (if negb (has (flag s) HIGHUSED) then
                    d ← put (sdata s) (gpos2 s) (mkLink idx (ptr_to_rec2 s));
                    Some (Z.lor (Z.land (flag s) LOWFIND) (Z.lor HIGHFIND HIGHUSED), d)
                  else Some (flag s, sdata s));
      Some (mkSplit fl (gpos s) (ptr_to_rec s) idx (data pos) (empty_pos s) d).

Fixpoint split_loop (fuel : nat) (h : HASH) (halfbuff first_index idx : Z) (s : split) : option split :=
  match fuel with
  | O => None
  | S fuel =>
      pos ← sdata s !! idx;
      let hash_nr := rec_hashnr h (data pos) in
      if (flag s =? 0) && negb (hash_mask hash_nr (blength h) (records h) =? first_index) then Some s
      else
        s' ← split_step halfbuff hash_nr idx pos s;
        if negb (next pos =? NO_RECORD) then split_loop fuel h halfbuff first_index (next pos) s' else Some s'
  end.

(** The two writes behind the loop. *)
Definition split_end (s : split) : option links :=
  d ← (if Z.land (flag s) (Z.lor LOWFIND LOWUSED) =? LOWFIND then put (sdata s) (gpos s) (mkLink NO_RECORD (ptr_to_rec s))
       else Some (sdata s));
  if Z.land (flag s) (Z.lor HIGHFIND HIGHUSED) =? HIGHFIND then put d (gpos2 s) (mkLink NO_RECORD (ptr_to_rec2 s))
  else Some d.

(** The record to its home: the slot [empty] is free. *)
Definition place (fuel : nat) (h : HASH) (record : Z) (d : links) (empty : Z) : option links :=
  let idx := hash_mask (rec_hashnr h record) (blength h) (u32 (records h + 1)) in
  if idx =? empty then put d idx (mkLink NO_RECORD record)
  else
    pos ← d !! idx;
    d ← put d empty pos;
    let g := hash_rec_mask h pos (blength h) (u32 (records h + 1)) in
    if idx =? g then put d idx (mkLink empty record)
    else d ← put d idx (mkLink NO_RECORD record); movelink fuel d idx g empty.

(** [ok]: did [alloc_dynamic] get memory?  [junk] is what the new slot holds.
    The result is the table and [TRUE] for a failure. *)
Definition my_hash_insert (h : HASH) (record : Z) (ok : bool) (junk : HASH_LINK) : option (HASH * bool) :=
  if negb ok then Some (h, true)
  else
    let fuel := S (S (Z.to_nat (records h))) in
    let d := <[records h := junk]> (array h) in
    let halfbuff := Z.shiftr (blength h) 1 in
    let first_index := u32 (records h - halfbuff) in
    '(d, empty) ← (if negb (first_index =? records h) then
                     s ← split_loop fuel h halfbuff first_index first_index (mkSplit 0 0 0 0 0 (records h) d);
                     d ← split_end s;
                     Some (d, empty_pos s)
                   else Some (d, records h));
    d ← place fuel h record d empty;
    let n := u32 (records h + 1) in
    Some (set_table n (if n =? blength h then u32 (blength h + blength h) else blength h) d h, false).

(** ** Deletion *)

(** The slot of the record and the one before it in the chain; [Some None]
    when the record is not there. *)
Fixpoint find_record (fuel : nat) (d : links) (record : Z) (g : option Z) (idx : Z) : option (option (option Z * Z)) :=
  match fuel with
  | O => None
  | S fuel =>
      pos ← d !! idx;
      if negb (data pos =? record) then
        if next pos =? NO_RECORD then Some None else find_record fuel d record (Some idx) (next pos)
      else Some (Some (g, idx))
  end.

(** Take the slot [idx] out of its chain: the links and the slot that is
    free then. *)
Definition unlink (d : links) (g : option Z) (idx : Z) : option (links * Z) :=
  pos ← d !! idx;
  match g with
  | Some g => d ← put_next d g (next pos); Some (d, idx)
  | None =>
      if negb (next pos =? NO_RECORD) then
        e ← d !! next pos; d ← put d idx e; Some (d, next pos)
      else Some (d, idx)
  end.

(** Move the record of the last slot, [n], to where it belongs; [b] is the
    new [blength], [blen] the one before. *)
Definition move_last (fuel : nat) (h : HASH) (blen b n : Z) (d : links) (empty : Z) : option links :=
  if empty =? n then Some d
  else
    lastpos ← d !! n;
    let lastpos_hashnr := rec_hashnr h (data lastpos) in
    let p := hash_mask lastpos_hashnr b n in
    if p =? empty then put d empty lastpos
    else
      pos ← d !! p;
      let pos_hashnr := rec_hashnr h (data pos) in
      let pos3 := hash_mask pos_hashnr b n in
      if negb (p =? pos3) then
        d ← put d empty pos; d ← put d p lastpos; movelink fuel d p pos3 empty
      else
        let pos2 := hash_mask lastpos_hashnr blen (u32 (n + 1)) in
        let same := pos2 =? hash_mask pos_hashnr blen (u32 (n + 1)) in
        if same && negb (pos2 =? n) then
          d ← put d empty lastpos; movelink fuel d n p empty
        else
          let idx := if same then p else NO_RECORD in
          d ← put d empty lastpos;
          pos ← d !! p;
          d ← movelink fuel d idx empty (next pos);
          put_next d p empty.

(** The table, whether the record was missing, and the freed record. *)
Definition hash_delete (h : HASH) (record : Z) : option (HASH * bool * list Z) :=
  if records h =? 0 then Some (h, true, [])
  else
    let fuel := S (S (Z.to_nat (records h))) in
    found ← find_record fuel (array h) record None (hash_mask (rec_hashnr h record) (blength h) (records h));
    match found with
    | None => Some (h, true, [])
    | Some (g, idx) =>
        let n := u32 (records h - 1) in
        let b := if n <? Z.shiftr (blength h) 1 then Z.shiftr (blength h) 1 else blength h in
        '(d, empty) ← unlink (array h) g idx;
        d ← move_last fuel h (blength h) b n d empty;
        Some (set_table n b (delete n d) h, false, if free h then [record] else [])
    end.

(** ** Change of a key *)

Definition hash_update (h : HASH) (record : Z) (old_key : list Z) (old_key_length : Z) : option (HASH * bool) :=
  let fuel := S (S (Z.to_nat (records h))) in
  let d := array h in
  let idx := hash_mask (calc_hash (search_key h old_key old_key_length)) (blength h) (records h) in
  let new_index := hash_mask (rec_hashnr h record) (blength h) (records h) in
  if idx =? new_index then Some (h, false)
  else
    found ← find_record fuel d record None idx;
    match found with
    | None => Some (h, true)
    | Some (previous, idx) =>
        org_link ← d !! idx;
        '(d, empty) ← unlink d previous idx;
        pos ← d !! new_index;
        let new_pos_index := hash_rec_mask h pos (blength h) (records h) in
        d ← (if negb (new_index =? new_pos_index) then
               d ← put d empty pos;
               d ← movelink fuel d new_index new_pos_index empty;
               put d new_index (mkLink NO_RECORD (data org_link))
             else
               l ← d !! new_index;
               d ← put d empty (mkLink (next l) (data org_link));
               put_next d new_index empty);
        Some (set_table (records h) (blength h) d h, false)
    end.

(** ** The check of the debug library *)

Fixpoint check_links (fuel : nat) (h : HASH) (i idx found : Z) (error : bool) : option (Z * bool) :=
  match fuel with
  | O => None
  | S fuel =>
      if negb (idx =? NO_RECORD) && (found <? u32 (records h + 1)) then
        let error := error || (records h <=? idx) in
        hash_info ← array h !! idx;
        if negb (hash_rec_mask h hash_info (blength h) (records h) =? i) then
          check_links fuel h i (next hash_info) found true
        else check_links fuel h i (next hash_info) (u32 (found + 1)) error
      else Some (found, error)
  end.

Fixpoint check_slots (n : nat) (fuel : nat) (h : HASH) (i found : Z) (error : bool) : option (Z * bool) :=
  match n with
  | O => Some (found, error)
  | S n =>
      l ← array h !! i;
      if hash_rec_mask h l (blength h) (records h) =? i then
        '(found, error) ← check_links fuel h i (next l) (u32 (found + 1)) error;
        check_slots n fuel h (i + 1) found error
      else check_slots n fuel h (i + 1) found error
  end.

Definition hash_check (h : HASH) : option bool :=
  '(found, error) ← check_slots (Z.to_nat (records h)) (S (S (Z.to_nat (records h)))) h 0 0 false;
  Some (error || negb (found =? records h)).
End hash.
