(* ===== verification/HashTable.v ===== *)
(** * The hash table is a table (mysys/hash.c)

    The invariant of [Hash.v]'s tables, that every operation keeps it, and what
    the operations do to the records a table holds.  A chain is a list of
    slots; [family d f j] says that the slots whose record has the home [j] (by
    the home function [f]) form one chain from [j]. *)

From stdpp Require Import gmultiset base numbers list gmap.
From Stdlib Require Import ZArith Lia.
From S2P Require Import Prelude Hash.

Local Open Scope Z_scope.

(** ** Chains *)

(** From the slot number [i] through the slots [c] to the slot number [e]. *)
Fixpoint seg (d : links) (i : Z) (c : list Z) (e : Z) : Prop :=
  match c with
  | [] => i = e
  | a :: c => i = a /\ exists l, d !! a = Some l /\ seg d (next l) c e
  end.

Definition relink (n : Z) (l : HASH_LINK) : HASH_LINK := mkLink n (data l).

Lemma seg_frame d d' c i e : seg d i c e -> (forall a, a ∈ c -> d' !! a = d !! a) -> seg d' i c e.
Proof.
  revert i. induction c as [|a c IH]; intros i; [done|]. intros (-> & l & Hl & Hs) Hf.
  split; [done|]. exists l. split; [rewrite Hf; [done|apply list_elem_of_here]|].
  apply IH; [done|]. intros b Hb. by apply Hf, list_elem_of_further.
Qed.

Lemma seg_insert d c i e a l : seg d i c e -> a ∉ c -> seg (<[a := l]> d) i c e.
Proof. intros Hs Ha. eapply seg_frame; [done|]. intros b Hb. apply lookup_insert_ne. by intros ->. Qed.

Lemma seg_alter d c i e a f : seg d i c e -> a ∉ c -> seg (alter f a d) i c e.
Proof. intros Hs Ha. eapply seg_frame; [done|]. intros b Hb. apply lookup_alter_ne. by intros ->. Qed.

Lemma seg_delete d c i e a : seg d i c e -> a ∉ c -> seg (delete a d) i c e.
Proof. intros Hs Ha. eapply seg_frame; [done|]. intros b Hb. apply lookup_delete_ne. by intros ->. Qed.

Lemma seg_app d c1 c2 i e : seg d i (c1 ++ c2) e <-> exists m, seg d i c1 m /\ seg d m c2 e.
Proof.
  revert i. induction c1 as [|a c1 IH]; intros i; simpl.
  - split; [by eauto|]. by intros (m & -> & ?).
  - split.
    + intros (-> & l & Hl & (m & H1 & H2)%IH). exists m. eauto 10.
    + intros (m & (-> & l & Hl & H1) & H2). split; [done|]. exists l. split; [done|]. apply IH. eauto.
Qed.

Lemma seg_is_Some d c i e a : seg d i c e -> a ∈ c -> is_Some (d !! a).
Proof.
  revert i. induction c as [|b c IH]; intros i; [by intros _ ?%not_elem_of_nil|].
  intros (_ & l & Hl & Hs) [->|Ha]%elem_of_cons; [by eexists|eauto].
Qed.

(** Changing the link of the last slot. *)
Lemma seg_relink_last d c z i e n : seg d i (c ++ [z]) e -> z ∉ c -> seg (alter (relink n) z d) i (c ++ [z]) n.
Proof.
  intros (m & H1 & -> & l & Hl & He)%seg_app Hz. apply seg_app. exists z. split; [by apply seg_alter|].
  split; [done|]. exists (relink n l). by rewrite lookup_alter_eq, Hl.
Qed.

Lemma put_Some d i l : is_Some (d !! i) -> put d i l = Some (<[i := l]> d).
Proof. intros [x Hx]. unfold put. by rewrite Hx, bind_Some_eq. Qed.

Lemma put_next_Some d i n : is_Some (d !! i) -> put_next d i n = Some (alter (relink n) i d).
Proof.
  intros [x Hx]. unfold put_next. rewrite Hx, bind_Some_eq. f_equal. apply map_eq. intros a.
  destruct (decide (i = a)) as [<-|Hne].
  - by rewrite lookup_insert_eq, lookup_alter_eq, Hx.
  - by rewrite lookup_insert_ne, lookup_alter_ne.
Qed.

Lemma movelink_spec d find newlink c z : forall fuel i, seg d i (c ++ [z]) find -> find ∉ c ++ [z] ->
  (length c < fuel)%nat -> movelink fuel d find i newlink = Some (alter (relink newlink) z d).
Proof.
  induction c as [|a c IH]; intros fuel i Hs Hni Hf; (destruct fuel as [|fuel]; [simpl in Hf; lia|]); cbn [movelink].
  - destruct Hs as (-> & l & Hl & He). simpl in He. rewrite Hl, bind_Some_eq, He, Z.eqb_refl.
    by apply put_next_Some.
  - destruct Hs as (-> & l & Hl & Hs). rewrite Hl, bind_Some_eq.
    cbn [app] in Hni. apply not_elem_of_cons in Hni as [_ Hni].
    rewrite (proj2 (Z.eqb_neq (next l) find)).
    + apply IH; [done|done|]. simpl in Hf. lia.
    + intros E. rewrite E in Hs. apply Hni. destruct c as [|b c]; destruct Hs as [-> _]; apply list_elem_of_here.
Qed.

(** ** The records of a table *)

Definition contents (d : links) : list Z := (map_to_list (data <$> d)).*2.

Lemma contents_data d d' : data <$> d = data <$> d' -> contents d = contents d'.
Proof. unfold contents. by intros ->. Qed.

Lemma contents_relink d i n : contents (alter (relink n) i d) = contents d.
Proof.
  apply contents_data, map_eq. intros a. rewrite !lookup_fmap. destruct (decide (i = a)) as [<-|Hne].
  - rewrite lookup_alter_eq. by destruct (d !! i).
  - by rewrite lookup_alter_ne.
Qed.

Lemma contents_insert d i l : d !! i = None -> contents (<[i := l]> d) ≡ₚ data l :: contents d.
Proof.
  intros Hi. unfold contents. rewrite fmap_insert, map_to_list_insert; [done|]. by rewrite lookup_fmap, Hi.
Qed.

Lemma contents_delete d i l : d !! i = Some l -> contents d ≡ₚ data l :: contents (delete i d).
Proof.
  intros Hi. rewrite <- contents_insert by apply lookup_delete_eq. by rewrite insert_delete_eq, insert_id.
Qed.

(** A record moves to a free slot. *)
Lemma contents_move d i j l : d !! i = Some l -> d !! j = None ->
  contents (<[j := l]> (delete i d)) ≡ₚ contents d.
Proof.
  intros Hi Hj. rewrite contents_insert; [by rewrite <- contents_delete|].
  rewrite lookup_delete_ne; [done|]. by intros ->; rewrite Hi in Hj.
Qed.

Lemma elem_of_contents d r : r ∈ contents d <-> exists i l, d !! i = Some l /\ data l = r.
Proof.
  unfold contents. rewrite list_elem_of_fmap. split.
  - intros ([i x] & -> & Hx%elem_of_map_to_list). rewrite lookup_fmap in Hx.
    destruct (d !! i) as [l|] eqn:E; [|done]. injection Hx as <-. eauto.
  - intros (i & l & Hl & <-). exists (i, data l). split; [done|]. apply elem_of_map_to_list.
    by rewrite lookup_fmap, Hl.
Qed.

(** ** Families *)

Definition member (d : links) (f : Z -> Z) (j i : Z) : Prop := exists l, d !! i = Some l /\ f (data l) = j.

Definition family (d : links) (f : Z -> Z) (j : Z) : Prop :=
  exists c, NoDup c /\ (forall i, i ∈ c <-> member d f j i) /\ (c = [] \/ seg d j c NO_RECORD).

(** A change that leaves the members alone. *)
Lemma family_frame d d' f j : family d f j ->
  (forall i, member d f j i -> d' !! i = d !! i) -> (forall i, member d' f j i -> member d f j i) -> family d' f j.
Proof.
  intros (c & Hnd & Hc & Hs) Hf Hm. exists c. split; [done|]. split.
  - intros i. rewrite Hc. split; [|apply Hm]. intros Hi. destruct (Hi) as (l & Hl & E). exists l. by rewrite Hf.
  - destruct Hs as [->|Hs]; [by left|right]. eapply seg_frame; [done|]. intros a Ha. by apply Hf, Hc.
Qed.

Lemma family_insert_other d f j i l : family d f j -> ~ member d f j i -> f (data l) <> j -> family (<[i := l]> d) f j.
Proof.
  intros Hfam Hi Hl. eapply family_frame; [done|..].
  - intros a Ha. apply lookup_insert_ne. by intros ->.
  - intros a (l' & Hl' & E). destruct (decide (i = a)) as [<-|Hne].
    + rewrite lookup_insert_eq in Hl'. congruence.
    + rewrite lookup_insert_ne in Hl' by done. by exists l'.
Qed.

Lemma family_relink_other d f j i n : family d f j -> ~ member d f j i -> family (alter (relink n) i d) f j.
Proof.
  intros Hfam Hi. eapply family_frame; [done|..].
  - intros a Ha. apply lookup_alter_ne. by intros ->.
  - intros a (l' & Hl' & E). destruct (decide (i = a)) as [<-|Hne].
    + exfalso. rewrite lookup_alter_eq in Hl'. destruct (d !! i) as [l|] eqn:Ed; [|done].
      injection Hl' as <-. apply Hi. by exists l.
    + rewrite lookup_alter_ne in Hl' by done. by exists l'.
Qed.

Lemma family_delete_other d f j i : family d f j -> ~ member d f j i -> family (delete i d) f j.
Proof.
  intros Hfam Hi. eapply family_frame; [done|..].
  - intros a Ha. apply lookup_delete_ne. by intros ->.
  - intros a (l' & Hl' & E). destruct (decide (i = a)) as [<-|Hne]; [by rewrite lookup_delete_eq in Hl'|].
    rewrite lookup_delete_ne in Hl' by done. by exists l'.
Qed.

(** Another home function with the same records for this home. *)
Lemma family_ext d f f' j : (forall r, f r = j <-> f' r = j) -> family d f j -> family d f' j.
Proof.
  intros Hf (c & Hnd & Hc & Hs). exists c. split; [done|]. split; [|done]. intros i. rewrite Hc. unfold member.
  split; intros (l & Hl & E); exists l; (split; [done|]); by apply Hf.
Qed.

(** With its home free, or taken by another family, a family is empty. *)
Lemma family_empty d f j : family d f j -> ~ member d f j j -> forall i, ~ member d f j i.
Proof.
  intros (c & _ & Hc & Hs) Hj i Hi%Hc. destruct Hs as [->|Hs]; [by apply not_elem_of_nil in Hi|].
  apply Hj, Hc. destruct c as [|a c]; [by apply not_elem_of_nil in Hi|]. destruct Hs as [-> _]. apply list_elem_of_here.
Qed.

Lemma family_none d f j : (forall i, ~ member d f j i) -> family d f j.
Proof.
  intros H. exists []. split; [constructor|]. split; [|by left]. intros i. split; [by intros ?%not_elem_of_nil|].
  intros Hi. by destruct (H i).
Qed.

(** The chain of a family that has a member. *)
Lemma family_chain d f j i : family d f j -> member d f j i ->
  exists c, NoDup (j :: c) /\ (forall a, a ∈ j :: c <-> member d f j a) /\ seg d j (j :: c) NO_RECORD.
Proof.
  intros (c & Hnd & Hc & Hs) Hi%Hc. destruct c as [|a c]; [by apply not_elem_of_nil in Hi|].
  destruct Hs as [?|Hs]; [done|]. destruct (Hs) as [-> _]. by exists c.
Qed.

Lemma family_insert_home d f j l : family d f j -> d !! j = None -> f (data l) = j -> next l = NO_RECORD ->
  family (<[j := l]> d) f j.
Proof.
  intros Hfam Hj Hl Hn.
  assert (forall i, ~ member d f j i) as Hno.
  { apply family_empty; [done|]. intros (l' & Hl' & _). by rewrite Hj in Hl'. }
  exists [j]. split; [apply NoDup_singleton|]. split.
  - intros i. rewrite list_elem_of_singleton. split.
    + intros ->. exists l. by rewrite lookup_insert_eq.
    + intros (l' & Hl' & E). destruct (decide (j = i)) as [->|Hne]; [done|].
      rewrite lookup_insert_ne in Hl' by done. destruct (Hno i). by exists l'.
  - right. split; [done|]. exists l. by rewrite lookup_insert_eq.
Qed.

(** ** Moving the record of a slot that is not its home *)

Lemma chain_pred d f g p pos : family d f g -> d !! p = Some pos -> f (data pos) = g -> p <> g ->
  exists c1 z c2, NoDup ((c1 ++ [z]) ++ p :: c2) /\ (forall i, i ∈ (c1 ++ [z]) ++ p :: c2 <-> member d f g i) /\
    seg d g (c1 ++ [z]) p /\ seg d (next pos) c2 NO_RECORD.
Proof.
  intros Hfam Hp Hg Hne. assert (member d f g p) as Hm by (by exists pos).
  destruct (family_chain _ _ _ _ Hfam Hm) as (c & Hnd & Hc & Hs). apply Hc in Hm.
  apply elem_of_cons in Hm as [?|Hm]; [done|]. apply list_elem_of_split in Hm as (c1 & c2 & ->).
  rewrite (app_comm_cons c1) in Hnd, Hc, Hs. apply seg_app in Hs as (m & Hs1 & -> & l & Hl & Hs2).
  rewrite Hp in Hl. injection Hl as <-.
  destruct (exists_last (l := g :: c1)) as (c1' & z & E); [done|]. rewrite E in *. exists c1', z, c2. done.
Qed.

(** The record of the slot [p] moves to the free slot [e]; [z] is the slot in
    front of [p] in the chain. *)
Lemma family_move d f g p e pos c1 z c2 : d !! p = Some pos -> f (data pos) = g -> d !! e = None ->
  NoDup ((c1 ++ [z]) ++ p :: c2) -> (forall i, i ∈ (c1 ++ [z]) ++ p :: c2 <-> member d f g i) ->
  seg d g (c1 ++ [z]) p -> seg d (next pos) c2 NO_RECORD ->
  forall j, family d f j -> family (alter (relink e) z (<[e := pos]> (delete p d))) f j.
Proof.
  intros Hp Hg He Hnd Hc Hs1 Hs2 j Hfam.
  assert (forall i, i ∈ (c1 ++ [z]) ++ p :: c2 -> i <> e) as Hie.
  { intros i (l & Hl & _)%Hc ->. by rewrite He in Hl. }
  apply NoDup_app in Hnd as (N1 & N12 & [Np N2]%NoDup_cons).
  assert (z ∈ c1 ++ [z]) as Hz by (apply elem_of_app; right; apply list_elem_of_here).
  assert (p ∉ c1 ++ [z]) as Hp1 by (intros Hin; apply (N12 p Hin), list_elem_of_here).
  assert (z <> p) as Hzp by (by intros ->).
  assert (z <> e) as Hze by (apply Hie, elem_of_app; by left).
  assert (e ∉ c1 ++ [z]) as He1 by (intros Hin; apply (Hie e); [apply elem_of_app; by left|done]).
  assert (e ∉ c2) as He2.
  { intros Hin. apply (Hie e); [|done]. apply elem_of_app; right. by apply list_elem_of_further. }
  assert (z ∉ c2) as Hz2 by (intros Hin; apply (N12 z Hz); by apply list_elem_of_further).
  assert (z ∉ c1) as Hz1.
  { apply NoDup_app in N1 as (_ & N1 & _). intros Hin. apply (N1 z Hin), list_elem_of_here. }
  destruct (decide (j = g)) as [->|Hjg].
  - exists ((c1 ++ [z]) ++ e :: c2). split; [|split; [|right]].
    + apply NoDup_app. split; [done|]. split; [|by constructor].
      intros x Hx [->|Hx2]%elem_of_cons; [done|]. apply (N12 x Hx). by apply list_elem_of_further.
    + intros i. transitivity ((i <> p /\ member d f g i) \/ i = e).
      * rewrite <- Hc, (elem_of_app (c1 ++ [z]) (e :: c2)), (elem_of_app (c1 ++ [z]) (p :: c2)), !elem_of_cons. split.
        -- intros [Hi|[->|Hi]]; [left; split; [by intros ->|tauto]|tauto|].
           left. split; [by intros ->|tauto].
        -- intros [(Hip & [Hi|[?|Hi]])|?]; tauto.
      * unfold member. destruct (decide (z = i)) as [<-|Hzi]; [|rewrite lookup_alter_ne by done].
        -- rewrite lookup_alter_eq, lookup_insert_ne, lookup_delete_ne by congruence.
           split.
           ++ intros [(_ & l & Hl & E)|?]; [|done]. rewrite Hl. by exists (relink e l).
           ++ intros (l' & Hl' & E). left. split; [done|]. destruct (d !! z) as [l|]; [|done].
              exists l. split; [done|]. by injection Hl' as <-.
        -- destruct (decide (e = i)) as [<-|Hei].
           ++ rewrite lookup_insert_eq. split; [intros _; by exists pos|]. by right.
           ++ rewrite lookup_insert_ne by done. destruct (decide (p = i)) as [<-|Hpi].
              ** rewrite lookup_delete_eq. split; [|by intros (? & ? & _)]. by intros [[]|].
              ** rewrite lookup_delete_ne by done. split; [|by left]. by intros [[]|].
    + apply seg_app. exists e. split.
      * apply seg_relink_last with (e := p); [|done]. apply seg_insert; [|done]. by apply seg_delete.
      * split; [done|]. exists pos. rewrite lookup_alter_ne, lookup_insert_eq by done. split; [done|].
        apply seg_alter; [|done]. apply seg_insert; [|done]. by apply seg_delete.
  - assert (~ member d f j p) as Hjp by (intros (l & Hl & E); rewrite Hp in Hl; injection Hl as <-; congruence).
    assert (~ member (delete p d) f j e) as Hje.
    { intros (l & Hl & _). by apply lookup_delete_Some in Hl as [_ Hl]; rewrite He in Hl. }
    assert (member d f g z) as (lz & Hlz & Ez) by (apply Hc, elem_of_app; by left).
    apply family_relink_other; [apply family_insert_other; [by apply family_delete_other|done|congruence]|].
    intros (l & Hl & E). rewrite lookup_insert_ne, lookup_delete_ne in Hl by congruence. congruence.
Qed.

(** A record goes to its home [i], whose record of the same family moves to
    the free slot [e], second in the chain. *)
Lemma family_push d f i e pos r : d !! e = None -> d !! i = Some pos -> f (data pos) = i -> f r = i ->
  forall j, family d f j -> family (<[i := mkLink e r]> (<[e := pos]> d)) f j.
Proof.
  intros He Hpos Hown Hr j Hfam. assert (i <> e) as Hie by congruence.
  assert (forall j, ~ member d f j e) as Hne by (intros ? (l & Hl & _); by rewrite He in Hl).
  destruct (decide (j = i)) as [->|Hji].
  - destruct (family_chain d f i i) as (c & Hnd & Hc & Hs); [done|by exists pos|].
    apply NoDup_cons in Hnd as [Hni Hnd]. destruct Hs as (_ & l & Hl & Hs). rewrite Hpos in Hl. injection Hl as <-.
    assert (e ∉ i :: c) as [_ Hec]%not_elem_of_cons by (by intros ?%Hc%Hne).
    exists (i :: e :: c). split; [|split; [|right]].
    + constructor; [by apply not_elem_of_cons|]. by constructor.
    + intros a. rewrite !elem_of_cons. unfold member. destruct (decide (i = a)) as [<-|Hia].
      { rewrite lookup_insert_eq. split; [intros _; by exists (mkLink e r)|tauto]. }
      rewrite lookup_insert_ne by done. destruct (decide (e = a)) as [<-|Hea].
      { rewrite lookup_insert_eq. split; [intros _; by exists pos|tauto]. }
      rewrite lookup_insert_ne by done. fold (member d f i a). rewrite <- Hc, elem_of_cons.
      split; [intros [?|[?|?]]; [congruence..|tauto]|tauto].
    + split; [done|]. exists (mkLink e r). rewrite lookup_insert_eq. split; [done|]. split; [done|].
      exists pos. rewrite lookup_insert_ne, lookup_insert_eq by done. split; [done|].
      apply seg_insert, Hni. by apply seg_insert.
  - apply family_insert_other; [apply family_insert_other; [done|done|congruence]|..|simpl; congruence].
    intros (l & Hl & E). rewrite lookup_insert_ne, Hpos in Hl by congruence. injection Hl as <-. congruence.
Qed.

(** ** Home slots *)

Lemma land_low a k : 0 <= k -> Z.land a (2 ^ k - 1) = a mod 2 ^ k.
Proof. intros Hk. rewrite <- Z.land_ones by done. f_equal. rewrite Z.ones_equiv. lia. Qed.

Lemma hash_mask_eq hv k n : 0 <= k < 32 -> 1 <= k \/ 1 <= n ->
  hash_mask hv (2 ^ k) n = if hv mod 2 ^ k <? n then hv mod 2 ^ k else hv mod 2 ^ (k - 1).
Proof.
  intros Hk Hn. unfold hash_mask. assert (0 < 2 ^ k < 2 ^ 32) by (split; [|apply Z.pow_lt_mono_r]; lia).
  rewrite (u32_small (2 ^ k - 1)), land_low by lia. case_if; [done|].
  destruct (decide (k = 0)) as [->|Hk0].
  - change (hv mod 2 ^ 0) with (hv mod 1) in E. rewrite Z.mod_1_r in E. b2p. lia.
  - rewrite Z.shiftr_div_pow2 by lia. replace (2 ^ k / 2 ^ 1) with (2 ^ (k - 1)).
    2: { rewrite <- Z.pow_sub_r by lia. done. }
    assert (2 ^ (k - 1) < 2 ^ k) by (apply Z.pow_lt_mono_r; lia).
    rewrite u32_small by (split; [|lia]; assert (0 < 2 ^ (k - 1)) by lia; lia). apply land_low. lia.
Qed.

(** The bit that a split of a chain looks at. *)
Lemma mod_split a k : 1 <= k -> a mod 2 ^ k = a mod 2 ^ (k - 1) + (if Z.land a (2 ^ (k - 1)) =? 0 then 0 else 2 ^ (k - 1)).
Proof.
  intros Hk. replace (2 ^ k) with (2 ^ (k - 1) * 2).
  2: { rewrite Z.mul_comm, <- Z.pow_succ_r by lia. f_equal. lia. }
  rewrite Z.rem_mul_r by lia. f_equal.
  rewrite <- Z.testbit_spec' by lia. case_if; b2p.
  - replace (Z.testbit a (k - 1)) with false; [simpl; lia|].
    symmetry. apply (f_equal (fun x => Z.testbit x (k - 1))) in E. rewrite Z.land_spec, Z.pow2_bits_true, andb_true_r, Z.bits_0 in E by lia. done.
  - destruct (Z.testbit a (k - 1)) eqn:Et; [simpl; lia|]. exfalso. apply E. apply Z.bits_inj_0. intros m.
    rewrite Z.land_spec. destruct (decide (m = k - 1)) as [->|Hm]; [by rewrite Et|].
    rewrite Z.pow2_bits_false by lia. apply andb_false_r.
Qed.

(** [k] and [n] are the exponent of [blength] and [records] of a table. *)
Definition shape (k n : Z) : Prop := 0 <= k < 31 /\ 2 ^ k / 2 <= n < 2 ^ k.

Lemma pow2_half k : 1 <= k -> 2 ^ k / 2 = 2 ^ (k - 1) /\ 2 ^ k = 2 * 2 ^ (k - 1) /\ 0 < 2 ^ (k - 1).
Proof.
  intros Hk. assert (2 ^ k = 2 * 2 ^ (k - 1)) as E by (rewrite <- Z.pow_succ_r by lia; f_equal; lia).
  split; [|split; [done|lia]]. rewrite E, Z.mul_comm. apply Z.div_mul. lia.
Qed.

Lemma shape_bounds k n : shape k n -> 0 <= n < 2 ^ 30 /\ (k = 0 /\ n = 0 \/ 1 <= k /\ 1 <= n).
Proof.
  intros [Hk Hn]. assert (2 ^ k <= 2 ^ 30) by (apply Z.pow_le_mono_r; lia).
  destruct (decide (k = 0)) as [->|Hk0]; [change (2 ^ 0) with 1 in Hn; change (1 / 2) with 0 in Hn; lia|].
  destruct (pow2_half k) as (E & _ & _); [lia|]. rewrite E in Hn. lia.
Qed.

Lemma hash_mask_range hv k n : 0 <= k < 32 -> 1 <= n <= 2 ^ k -> 2 ^ k / 2 <= n -> 0 <= hash_mask hv (2 ^ k) n < n.
Proof.
  intros Hk Hn Hh. rewrite hash_mask_eq by lia. pose proof (Z.mod_pos_bound hv (2 ^ k)).
  case_if; b2p; [lia|]. destruct (decide (k = 0)) as [->|Hk0]; [change (2 ^ 0) with 1 in *; lia|].
  destruct (pow2_half k) as (E' & _ & ?); [lia|]. pose proof (Z.mod_pos_bound hv (2 ^ (k - 1))). lia.
Qed.

(** One more slot: the records of the chain at [n - 2 ^ (k - 1)] with the bit
    set get the new home. *)
Lemma hash_mask_step hv k n : shape k n -> 1 <= k ->
  hash_mask hv (2 ^ k) (n + 1) =
    if (hash_mask hv (2 ^ k) n =? n - 2 ^ (k - 1)) && negb (Z.land hv (2 ^ (k - 1)) =? 0) then n
    else hash_mask hv (2 ^ k) n.
Proof.
  intros [Hk Hn] Hk1. rewrite !hash_mask_eq by lia. rewrite (mod_split hv k) by lia.
  destruct (pow2_half k Hk1) as (E1 & E2 & E3). rewrite E1 in Hn.
  pose proof (Z.mod_pos_bound hv (2 ^ (k - 1)) E3) as Hq.
  destruct (Z.land hv (2 ^ (k - 1)) =? 0); cbn [negb]; rewrite ?andb_true_r, ?andb_false_r.
  - destruct (Z.ltb_spec (hv mod 2 ^ (k - 1) + 0) (n + 1)), (Z.ltb_spec (hv mod 2 ^ (k - 1) + 0) n); lia.
  - destruct (Z.ltb_spec (hv mod 2 ^ (k - 1) + 2 ^ (k - 1)) (n + 1)),
      (Z.ltb_spec (hv mod 2 ^ (k - 1) + 2 ^ (k - 1)) n); case_if; b2p; lia.
Qed.

(** Doubling [blength] when the table is full moves nothing. *)
Lemma hash_mask_double hv k : 0 <= k < 31 -> hash_mask hv (2 ^ (k + 1)) (2 ^ k) = hash_mask hv (2 ^ k) (2 ^ k).
Proof.
  intros Hk. assert (1 <= 2 ^ k) by lia. rewrite !hash_mask_eq by lia.
  replace (k + 1 - 1) with k by lia. pose proof (Z.mod_pos_bound hv (2 ^ k)).
  rewrite (proj2 (Z.ltb_lt (hv mod 2 ^ k) (2 ^ k))) by lia. case_if; b2p; [|done].
  pose proof (mod_split hv (k + 1)) as Hs. replace (k + 1 - 1) with k in Hs by lia. rewrite Hs in * by lia.
  case_if; lia.
Qed.

(** One slot less, with [blength] halved when it is too large. *)
Lemma hash_mask_shrink k n : shape k (n + 1) -> 1 <= n ->
  let k' := if n <? 2 ^ k / 2 then k - 1 else k in
  shape k' n /\ 1 <= k' /\ 0 <= n - 2 ^ (k' - 1) < n /\
  forall hv, hash_mask hv (2 ^ k') n = if hash_mask hv (2 ^ k) (n + 1) =? n then n - 2 ^ (k' - 1) else hash_mask hv (2 ^ k) (n + 1).
Proof.
  intros Hsh Hn k'. destruct (shape_bounds _ _ Hsh) as [Hb Hk1]. assert (1 <= k) as Hk by lia.
  destruct (Hsh) as [Hk31 Hnb]. destruct (pow2_half k Hk) as (E1 & E2 & E3).
  assert (shape k' n /\ 1 <= k' /\ forall hv, hash_mask hv (2 ^ k) (n + 1) = hash_mask hv (2 ^ k') (n + 1)) as (Hsh' & Hk' & Heq).
  { unfold k'. destruct (Z.ltb_spec n (2 ^ k / 2)) as [Hlt|Hge].
    - assert (n + 1 = 2 ^ (k - 1)) as En by lia. assert (2 <= k) as Hk2.
      { destruct (decide (k = 1)) as [->|]; [|lia]. change (2 ^ (1 - 1)) with 1 in En. lia. }
      destruct (pow2_half (k - 1)) as (E4 & E5 & E6); [lia|].
      split; [split; [lia|rewrite E4; lia]|]. split; [lia|]. intros hv. rewrite En.
      rewrite <- hash_mask_double by lia. by replace (k - 1 + 1) with k by lia.
    - split; [split; [lia|lia]|]. split; [lia|done]. }
  destruct (pow2_half k' Hk') as (E4 & E5 & E6). destruct (Hsh') as [Hk'31 Hn']. rewrite E4 in Hn'.
  split; [done|]. split; [done|]. split; [lia|]. intros hv. rewrite Heq, (hash_mask_step hv k' n Hsh' Hk').
  pose proof (hash_mask_range hv k' n ltac:(lia) ltac:(lia) ltac:(lia)) as Hr.
  destruct (Z.eqb_spec (hash_mask hv (2 ^ k') n) (n - 2 ^ (k' - 1))) as [E|E]; cbn [andb].
  - destruct (Z.land hv (2 ^ (k' - 1)) =? 0); cbn [negb]; [|by rewrite Z.eqb_refl].
    rewrite (proj2 (Z.eqb_neq _ n)) by lia. done.
  - rewrite (proj2 (Z.eqb_neq _ n)) by lia. done.
Qed.

(** ** Splitting a chain

    The loop of [my_hash_insert] writes the link of a slot when it has found
    the slot behind it.  [D] is the array with the writes that are due done:
    the records that stay form the chain [L], the ones that move the chain
    [H], and [R] is what is left of the chain at [p]. *)

(** [D] has, of the records with home [p], exactly the slots [M]; the others and
    the records as a whole are as in [d0]. *)
Definition parted (d0 : links) (f : Z -> Z) (p : Z) (D : links) (M : list Z) (e : Z) : Prop :=
  NoDup M /\ (forall i, i ∈ M <-> member D f p i) /\ contents D ≡ₚ contents d0 /\
  (forall j, j <> p -> family d0 f j -> family D f j) /\ D !! e = None.

Lemma parted_perm d0 f p D M M' e : M ≡ₚ M' -> parted d0 f p D M e -> parted d0 f p D M' e.
Proof.
  intros Hp (Hnd & Hm & Hc & Ho & He). split_and!; try done; [by rewrite <- Hp|]. intros i. by rewrite <- Hp.
Qed.

Lemma member_relink D f p i x a : member (alter (relink x) i D) f p a <-> member D f p a.
Proof.
  unfold member. destruct (decide (i = a)) as [<-|Hne]; [|by rewrite lookup_alter_ne].
  rewrite lookup_alter_eq. split.
  - intros (l & Hl & E). destruct (D !! i) as [l'|]; [|done]. injection Hl as <-. by exists l'.
  - intros (l & -> & E). by exists (relink x l).
Qed.

Lemma parted_relink d0 f p D M e i x : parted d0 f p D M e -> i ∈ M -> parted d0 f p (alter (relink x) i D) M e.
Proof.
  intros (Hnd & Hm & Hc & Ho & He) Hi. apply Hm in Hi as Hmi. split_and!; [done|..].
  - intros a. by rewrite member_relink.
  - by rewrite contents_relink.
  - intros j Hj Hfam. apply family_relink_other; [by apply Ho|].
    intros (l & Hl & E). destruct Hmi as (l' & Hl' & E'). congruence.
  - rewrite lookup_alter_ne; [done|]. intros ->. destruct Hmi as (l' & Hl' & _). congruence.
Qed.

Lemma parted_move d0 f p D M e x l : parted d0 f p D (x :: M) e -> D !! x = Some l ->
  parted d0 f p (<[e := mkLink NO_RECORD (data l)]> (delete x D)) (e :: M) x.
Proof.
  intros (Hnd & Hm & Hc & Ho & He) Hx. apply NoDup_cons in Hnd as [Hxm Hnd].
  assert (x <> e) as Hxe by congruence.
  assert (f (data l) = p) as Hfl.
  { destruct (proj1 (Hm x) (list_elem_of_here _ _)) as (l' & Hl' & <-). congruence. }
  assert (e ∉ M) as HeM.
  { intros Hin. destruct (proj1 (Hm e) (list_elem_of_further _ _ _ Hin)) as (l' & Hl' & _). congruence. }
  split_and!.
  - by constructor.
  - intros i. rewrite elem_of_cons. unfold member. destruct (decide (e = i)) as [<-|Hei].
    { rewrite lookup_insert_eq. split; [intros _; by eexists|by left]. }
    rewrite lookup_insert_ne by done. destruct (decide (x = i)) as [<-|Hxi].
    { rewrite lookup_delete_eq. split; [intros [?|?]; congruence|intros (? & [=] & _)]. }
    rewrite lookup_delete_ne by done. fold (member D f p i). rewrite <- Hm, elem_of_cons.
    split; intros [?|?]; try (by right); congruence.
  - rewrite <- Hc. rewrite contents_insert; [symmetry; exact (contents_delete D x l Hx)|].
    rewrite lookup_delete_ne by done. done.
  - intros j Hj Hfam. apply family_insert_other; [apply family_delete_other; [by apply Ho|]|..|simpl; congruence].
    + intros (l' & Hl' & E). congruence.
    + intros (l' & Hl' & _). rewrite lookup_delete_ne in Hl' by done. congruence.
  - by rewrite lookup_insert_ne, lookup_delete_eq.
Qed.

(** One of the two chains: the slots [K] from [start], the last of them [g]
    with the record [ptr]; [d] is the array, in which the link of [g] is only
    right while [used]. *)
Definition part (d D : links) (P : Z -> Prop) (idx start : Z) (K : list Z) (g ptr : Z) (used : bool) : Prop :=
  (forall i, i ∈ K -> exists l, D !! i = Some l /\ P (data l)) /\
  (K <> [] -> exists K', K = K' ++ [g] /\ seg D start K NO_RECORD /\ D !! g = Some (mkLink NO_RECORD ptr) /\
    (used = true -> d !! g = Some (mkLink idx ptr))).

Lemma part_nil d D P idx start g ptr used : part d D P idx start [] g ptr used.
Proof. split; [by intros i ?%not_elem_of_nil|done]. Qed.

(** A change elsewhere. *)
Lemma part_frame d D d' D' P idx idx' start K g ptr used : part d D P idx start K g ptr used ->
  (forall i, i ∈ K -> D' !! i = D !! i) -> part d' D' P idx' start K g ptr false.
Proof.
  intros [Hp Hk] Hf. split; [intros i Hi; rewrite Hf by done; by apply Hp|].
  intros Hne. destruct (Hk Hne) as (K' & E & Hs & Hg & _). exists K'. split; [done|].
  split; [by eapply seg_frame|]. split; [|done]. rewrite Hf; [done|]. rewrite E. apply elem_of_app. right. apply list_elem_of_here.
Qed.

Lemma part_start d D (P : Z -> Prop) idx s r : D !! s = Some (mkLink NO_RECORD r) -> P r ->
  part d D P idx s [s] s r false.
Proof.
  intros Hs Hr. split.
  - intros i ->%list_elem_of_singleton. by eexists.
  - intros _. exists []. split; [done|]. split; [|done]. split; [done|]. by eexists.
Qed.

(** The chain gets the slot [x], the next one of the old chain. *)
Lemma part_append d D d' P start K g ptr used x l : part d D P x start K g ptr used -> K <> [] -> NoDup K -> x ∉ K ->
  D !! x = Some l -> d' !! x = Some l -> P (data l) ->
  part d' (alter (relink NO_RECORD) x (alter (relink x) g D)) P (next l) start (K ++ [x]) x (data l) true.
Proof.
  intros [Hp Hk] Hne Hnd Hx HD Hd HP. destruct (Hk Hne) as (K' & E & Hs & Hg & _).
  assert (x <> g) as Hxg by (intros ->; apply Hx; rewrite E; apply elem_of_app; right; apply list_elem_of_here).
  assert (g ∉ K') as HgK.
  { rewrite E in Hnd. apply NoDup_app in Hnd as (_ & N & _). intros Hin. apply (N g Hin), list_elem_of_here. }
  assert (alter (relink NO_RECORD) x (alter (relink x) g D) !! x = Some (mkLink NO_RECORD (data l))) as Hxx.
  { rewrite lookup_alter_eq, lookup_alter_ne, HD by done. done. }
  split.
  - intros i [Hi| ->%list_elem_of_singleton]%elem_of_app; [|rewrite Hxx; by eexists].
    assert (x <> i) by (by intros ->). rewrite lookup_alter_ne by done. destruct (Hp i Hi) as (l' & Hl' & HP').
    destruct (decide (g = i)) as [<-|Hgi].
    + rewrite lookup_alter_eq, Hl'. by exists (relink x l').
    + rewrite lookup_alter_ne by done. by exists l'.
  - intros _. exists K. split; [done|]. split; [|split; [done|intros _; rewrite Hd; by destruct l]].
    apply seg_app. exists x. split; [|split; [done|]; rewrite Hxx; by eexists].
    apply seg_alter; [|done]. rewrite E. apply seg_relink_last with (e := NO_RECORD); [by rewrite <- E|done].
Qed.

Lemma chain_length c n : NoDup c -> (forall i, i ∈ c -> 0 <= i < n) -> (length c <= Z.to_nat n)%nat.
Proof.
  intros Hnd Hc. destruct (decide (0 <= n)) as [Hn|Hn].
  - rewrite <- (length_seqZ 0 n). apply submseteq_length, NoDup_submseteq; [done|].
    intros i Hi%Hc. apply elem_of_seqZ. lia.
  - destruct c as [|a c]; [simpl; lia|]. specialize (Hc a (list_elem_of_here _ _)). lia.
Qed.

(** The slots [0], ..., [n - 1] are there. *)
Definition slots (d : links) (n : Z) : Prop := forall i, is_Some (d !! i) <-> 0 <= i < n.

Lemma slots_insert d n i l : slots d n -> 0 <= i < n -> slots (<[i := l]> d) n.
Proof.
  intros Hd Hi a. rewrite <- (Hd a). destruct (decide (i = a)) as [<-|Hne].
  - rewrite lookup_insert_eq. split; [by intros _; apply Hd|by eauto].
  - by rewrite lookup_insert_ne.
Qed.

Lemma slots_relink d n i x : slots d n -> slots (alter (relink x) i d) n.
Proof.
  intros Hd a. rewrite <- (Hd a). destruct (decide (i = a)) as [<-|Hne].
  - rewrite lookup_alter_eq. by rewrite fmap_is_Some.
  - by rewrite lookup_alter_ne.
Qed.

Lemma NO_RECORD_out d n : slots d n -> n < 2 ^ 30 -> d !! NO_RECORD = None.
Proof.
  intros Hd Hn. destruct (d !! NO_RECORD) eqn:E; [|done]. assert (is_Some (d !! NO_RECORD)) as H by eauto.
  apply Hd in H. change NO_RECORD with 4294967295 in H. lia.
Qed.

(** A chain [K] from [start] and a chain [O] from [start2], the rest [R] of the
    old chain from [idx], and the free slot [e]. *)
Record parts (d0 : links) (f : Z -> Z) (p N : Z) (d D : links) (P : Z -> Prop) (start : Z) (K : list Z) (g ptr : Z) (used : bool)
    (Q : Z -> Prop) (start2 : Z) (O : list Z) (g2 ptr2 : Z) (used2 : bool) (R : list Z) (idx e : Z) : Prop := {
  pa_one : part d D P idx start K g ptr used;
  pa_two : part d D Q idx start2 O g2 ptr2 used2;
  pa_seg : seg d idx R NO_RECORD;
  pa_rest : forall i, i ∈ R -> D !! i = d !! i;
  pa_parted : parted d0 f p D (K ++ O ++ R) e;
  pa_agree : forall i, i <> e -> K = [] \/ i <> g -> O = [] \/ i <> g2 -> D !! i = d !! i;
  pa_slots : slots d N;
  pa_range : forall i, is_Some (D !! i) -> 0 <= i < N;
  pa_free : 0 <= e < N }.

Lemma parts_sym d0 f p N d D P start K g ptr used Q start2 O g2 ptr2 used2 R idx e :
  parts d0 f p N d D P start K g ptr used Q start2 O g2 ptr2 used2 R idx e ->
  parts d0 f p N d D Q start2 O g2 ptr2 used2 P start K g ptr used R idx e.
Proof.
  intros [H1 H2 H3 H4 H5 H6 H7 H8 H9]. constructor; auto. revert H5. apply parted_perm.
  rewrite !app_assoc. f_equiv. apply Permutation_app_comm.
Qed.

Lemma part_last d D P idx start K g ptr used : part d D P idx start K g ptr used -> K <> [] -> g ∈ K.
Proof.
  intros [_ Hk] Hne. destruct (Hk Hne) as (K' & -> & _). apply elem_of_app. right. apply list_elem_of_here.
Qed.

Lemma is_Some_relink (D : links) i x a : is_Some (alter (relink x) i D !! a) <-> is_Some (D !! a).
Proof. destruct (decide (i = a)) as [<-|Hne]; [by rewrite lookup_alter_eq, fmap_is_Some|by rewrite lookup_alter_ne]. Qed.

(** The next slot of the old chain joins [K]. *)
Lemma parts_append d0 f p N d D P start K g ptr used Q start2 O g2 ptr2 used2 R idx e pos :
  parts d0 f p N d D P start K g ptr used Q start2 O g2 ptr2 used2 (idx :: R) idx e -> K <> [] ->
  d !! idx = Some pos -> P (data pos) ->
  is_Some (d !! g) /\
  parts d0 f p N (if used then d else <[g := mkLink idx ptr]> d) (alter (relink NO_RECORD) idx (alter (relink idx) g D))
    P start (K ++ [idx]) idx (data pos) true Q start2 O g2 ptr2 false R (next pos) e.
Proof.
  intros [H1 H2 H3 H4 H5 H6 H7 H8 H9] HK Hpos HP. pose proof (part_last _ _ _ _ _ _ _ _ _ H1 HK) as Hg.
  destruct (H5) as (Hnd & Hm & _). apply NoDup_app in Hnd as (N1 & N2 & N3).
  apply NoDup_app in N3 as (N3 & N4 & [N5 N6]%NoDup_cons).
  assert (D !! idx = Some pos) as HD by (rewrite H4; [done|apply list_elem_of_here]).
  assert (idx ∉ K) as HiK by (intros Hin; apply (N2 idx Hin), elem_of_app; right; apply list_elem_of_here).
  assert (idx ∉ O) as HiO by (intros Hin; apply (N4 idx Hin), list_elem_of_here).
  assert (g ∉ O) as HgO by (intros Hin; apply (N2 g Hg), elem_of_app; by left).
  assert (g ∉ R) as HgR by (intros Hin; apply (N2 g Hg), elem_of_app; right; by apply list_elem_of_further).
  assert (g <> idx) as Hgi by (by intros ->).
  destruct (H1) as [H1a H1b]. destruct (H1b HK) as (K' & HKK & HKs & HDg & HKu).
  assert (0 <= g < N) as HgN by (apply H8; by eexists). split; [by apply H7|].
  set (d' := if used then d else <[g := mkLink idx ptr]> d).
  assert (forall i, i <> g -> d' !! i = d !! i) as Hd' by (intros i Hi; unfold d'; destruct used; [done|by apply lookup_insert_ne]).
  assert (d' !! g = Some (mkLink idx ptr)) as Hdg by (unfold d'; destruct used; [by apply HKu|apply lookup_insert_eq]).
  constructor.
  - eapply part_append; eauto. by rewrite Hd'.
  - eapply part_frame; [exact H2|]. intros i Hi. rewrite !lookup_alter_ne; [done|congruence..].
  - destruct H3 as (_ & l & Hl & Hs). rewrite Hpos in Hl. injection Hl as <-. eapply seg_frame; [done|].
    intros a Ha. apply Hd'. by intros ->.
  - intros i Hi. rewrite !lookup_alter_ne, Hd' by congruence. apply H4. by apply list_elem_of_further.
  - apply parted_perm with (M := K ++ O ++ idx :: R).
    { rewrite <- !app_assoc. f_equiv. simpl. by rewrite Permutation_middle. }
    apply parted_relink; [apply parted_relink; [done|]|]; rewrite !elem_of_app; [by left|]. do 2 right. apply list_elem_of_here.
  - intros i Hie [?|Hii] HiO2; [by destruct K|]. rewrite lookup_alter_ne by done.
    destruct (decide (g = i)) as [<-|Hgi'].
    + rewrite lookup_alter_eq, HDg, Hdg. done.
    + rewrite lookup_alter_ne, Hd' by done. apply H6; auto.
  - unfold d'. destruct used; [done|]. by apply slots_insert.
  - intros i. rewrite !is_Some_relink. apply H8.
  - done.
Qed.

(** The first slot of [K] is the free one. *)
Lemma parts_move d0 f p N d D P g ptr used Q start2 O g2 ptr2 used2 R idx e pos :
  parts d0 f p N d D P e [] g ptr used Q start2 O g2 ptr2 used2 (idx :: R) idx e ->
  d !! idx = Some pos -> P (data pos) ->
  parts d0 f p N d (<[e := mkLink NO_RECORD (data pos)]> (delete idx D))
    P e [e] e (data pos) false Q start2 O g2 ptr2 false R (next pos) idx.
Proof.
  intros [H1 H2 H3 H4 H5 H6 H7 H8 H9] Hpos HP.
  assert (D !! idx = Some pos) as HD by (rewrite H4; [done|apply list_elem_of_here]).
  destruct (H5) as (Hnd & Hm & _ & _ & He). cbn [app] in *. apply NoDup_app in Hnd as (N1 & N2 & [N3 N4]%NoDup_cons).
  assert (forall i, i ∈ O ++ idx :: R -> i <> e) as Hie.
  { intros i (l & Hl & _)%Hm ->. by rewrite He in Hl. }
  assert (forall i, i ∈ O \/ i ∈ R -> i <> e /\ i <> idx) as Hior.
  { intros i Hi. split; [apply Hie; rewrite elem_of_app, elem_of_cons; tauto|]. intros ->. destruct Hi as [Hi|Hi]; [|done].
    apply (N2 idx Hi), list_elem_of_here. }
  assert (is_Some (d !! idx)) as Hidx by by eexists.
  constructor.
  - apply part_start; [apply lookup_insert_eq|done].
  - eapply part_frame; [exact H2|]. intros i Hi. destruct (Hior i) as [? ?]; [by left|].
    by rewrite lookup_insert_ne, lookup_delete_ne by congruence.
  - destruct H3 as (_ & l & Hl & Hs). rewrite Hpos in Hl. by injection Hl as <-.
  - intros i Hi. destruct (Hior i) as [? ?]; [by right|]. rewrite lookup_insert_ne, lookup_delete_ne by congruence.
    apply H4. by apply list_elem_of_further.
  - cbn [app]. apply parted_move; [|done]. revert H5. apply parted_perm. by rewrite Permutation_middle.
  - intros i Hii [?|Hie'] HiO; [done|]. rewrite lookup_insert_ne, lookup_delete_ne by congruence. apply H6; auto.
  - done.
  - intros i. destruct (decide (e = i)) as [<-|?]; [done|]. rewrite lookup_insert_ne by done.
    intros [l [_ Hl]%lookup_delete_Some]. apply H8. by eexists.
  - by apply H7.
Qed.

(** The first slot of the old chain stays. *)
Lemma parts_place d0 f p N d D P g ptr used Q start2 g2 ptr2 used2 R idx e pos :
  parts d0 f p N d D P idx [] g ptr used Q start2 [] g2 ptr2 used2 (idx :: R) idx e ->
  d !! idx = Some pos -> P (data pos) ->
  parts d0 f p N d (alter (relink NO_RECORD) idx D)
    P idx [idx] idx (data pos) true Q start2 [] g2 ptr2 used2 R (next pos) e.
Proof.
  intros [H1 H2 H3 H4 H5 H6 H7 H8 H9] Hpos HP.
  assert (D !! idx = Some pos) as HD by (rewrite H4; [done|apply list_elem_of_here]).
  destruct (H5) as (Hnd & Hm & _ & _ & He). cbn [app] in *. apply NoDup_cons in Hnd as [Hni Hnd].
  assert (alter (relink NO_RECORD) idx D !! idx = Some (mkLink NO_RECORD (data pos))) as HDi by (by rewrite lookup_alter_eq, HD).
  constructor.
  - destruct (part_start d (alter (relink NO_RECORD) idx D) P (next pos) idx (data pos) HDi HP) as [Ha Hb].
    split; [done|]. intros HK. destruct (Hb HK) as (K' & ? & ? & ? & _). exists K'. split_and!; try done.
    intros _. rewrite Hpos. by destruct pos.
  - apply part_nil.
  - destruct H3 as (_ & l & Hl & Hs). rewrite Hpos in Hl. by injection Hl as <-.
  - intros i Hi. rewrite lookup_alter_ne by congruence. apply H4. by apply list_elem_of_further.
  - cbn [app]. apply parted_relink; [done|apply list_elem_of_here].
  - intros i Hie [?|Hii] _; [done|]. rewrite lookup_alter_ne by done. apply H6; auto.
  - done.
  - intros i. rewrite is_Some_relink. apply H8.
  - done.
Qed.

(** The record [pos] at [idx] is not at its home: it moves to the free slot [e],
    and a record [r] with the home [idx] takes the slot.  The link that led to
    [idx] is the one of the slot [z], whether or not [idx] is written first. *)
Lemma displace fuel d f N e idx pos r : slots d N -> 0 <= e < N -> 0 <= idx < N -> idx <> e -> (Z.to_nat N <= fuel)%nat ->
  0 <= f (data pos) < N -> (forall j, 0 <= j < N -> family (delete e d) f j) ->
  d !! idx = Some pos -> f (data pos) <> idx -> f r = idx ->
  exists z, z <> idx /\
    movelink fuel (<[e := pos]> d) idx (f (data pos)) e = Some (alter (relink e) z (<[e := pos]> d)) /\
    (forall l, movelink fuel (<[idx := l]> (<[e := pos]> d)) idx (f (data pos)) e = Some (alter (relink e) z (<[idx := l]> (<[e := pos]> d)))) /\
    let d' := <[idx := mkLink NO_RECORD r]> (alter (relink e) z (<[e := pos]> d)) in
    slots d' N /\ (forall j, 0 <= j < N -> family d' f j) /\ contents d' ≡ₚ r :: contents (delete e d).
Proof.
  intros Hd He Hidx Hie Hfuel Hg Hfam Hpos Hother Hr. set (g := f (data pos)) in *.
  assert (delete e d !! idx = Some pos) as Hpos' by by rewrite lookup_delete_ne.
  destruct (chain_pred (delete e d) f g idx pos) as (c1 & z & c2 & Hnd & Hc & Hs1 & Hs2); [by apply Hfam|done..|].
  assert (forall i, i ∈ c1 ++ [z] -> i <> e /\ i <> idx /\ 0 <= i < N) as Hci.
  { intros i Hi. assert (i <> idx) as Hii.
    { intros ->. apply NoDup_app in Hnd as (_ & N12 & _). apply (N12 idx Hi), list_elem_of_here. }
    assert (i ∈ (c1 ++ [z]) ++ idx :: c2) as (l & Hl & _)%Hc by (apply elem_of_app; by left).
    apply lookup_delete_Some in Hl as [? Hl]. split; [done|]. split; [done|]. apply Hd. by exists l. }
  assert (z ∈ c1 ++ [z]) as Hz by (apply elem_of_app; right; apply list_elem_of_here).
  destruct (Hci z Hz) as (Hze & Hzi & _).
  assert (length c1 < fuel)%nat as Hlen.
  { apply NoDup_app in Hnd as (Hnd1 & _). pose proof (chain_length _ N Hnd1 (fun i Hi => proj2 (proj2 (Hci i Hi)))) as Hlen.
    rewrite length_app in Hlen. simpl in Hlen. lia. }
  assert (seg (<[e := pos]> d) g (c1 ++ [z]) idx) as Hs.
  { rewrite <- insert_delete_eq. apply seg_insert; [done|]. by intros (? & _)%Hci. }
  assert (idx ∉ c1 ++ [z]) as Hni by (by intros (_ & ? & _)%Hci).
  exists z. split; [done|]. split; [by apply movelink_spec with (c := c1)|].
  split; [intros l; apply movelink_spec with (c := c1); [by apply seg_insert|done|done]|].
  set (D := alter (relink e) z (<[e := pos]> (delete idx (delete e d)))).
  assert (<[idx := mkLink NO_RECORD r]> (alter (relink e) z (<[e := pos]> d)) = <[idx := mkLink NO_RECORD r]> D) as ->.
  { unfold D. rewrite <- (insert_delete_eq d e).
    rewrite <- insert_delete_eq. f_equal. rewrite delete_alter_ne, delete_insert_ne by done. done. }
  assert (D !! idx = None) as HDi by (unfold D; by rewrite lookup_alter_ne, lookup_insert_ne, lookup_delete_eq).
  assert (delete e d !! e = None) as He' by apply lookup_delete_eq.
  split_and!.
  - intros i. destruct (decide (idx = i)) as [<-|Hi]; [rewrite lookup_insert_eq; split; [done|by eexists]|].
    rewrite lookup_insert_ne by done. unfold D. rewrite is_Some_relink. destruct (decide (e = i)) as [<-|Hei].
    { rewrite lookup_insert_eq. split; [done|by eexists]. }
    rewrite lookup_insert_ne, !lookup_delete_ne by done. apply Hd.
  - intros j Hj. assert (family D f j) as HDj by (eapply family_move; eauto). destruct (decide (j = idx)) as [->|Hne].
    + by apply family_insert_home.
    + apply family_insert_other; [done| |simpl; congruence]. intros (l & Hl & _). by rewrite HDi in Hl.
  - rewrite contents_insert by done. simpl. f_equiv. unfold D. rewrite contents_relink. by apply contents_move.
Qed.

Section splitting.
Variables (d0 : links) (f hv : Z -> Z) (p n half : Z).

Definition low (r : Z) : Prop := f r = p /\ Z.land (hv r) half = 0.
Definition high (r : Z) : Prop := f r = p /\ Z.land (hv r) half <> 0.

(** The bits of [flag], and the values they take together. *)
Definition bits (lf lu hf hu : bool) : Z := b2z lf + 2 * b2z lu + 4 * b2z hf + 8 * b2z hu.
Definition bits_ok (lf lu hf hu : bool) : bool :=
  negb (lu && hu) && implb lu lf && implb hu hf && implb (lf && negb hf) lu.

Record split_inv (s : split) (D : links) (L H R : list Z) (idx : Z) (lf lu hf hu : bool) : Prop := {
  si_flag : flag s = bits lf lu hf hu;
  si_ok : bits_ok lf lu hf hu = true;
  si_lf : lf = false <-> L = [];
  si_hf : hf = false <-> H = [];
  si_parts : parts d0 f p (n + 1) (sdata s) D low p L (gpos s) (ptr_to_rec s) lu
               high n H (gpos2 s) (ptr_to_rec2 s) hu R idx (empty_pos s);
  si_empty : (H = [] -> empty_pos s = n) /\ (H <> [] -> L = [] -> empty_pos s = p) /\ (L = [] -> H = [] -> idx = p) }.

(** One round, for a record that stays and for one that moves. *)
Lemma split_step_low s D L H R idx pos lf lu hf hu : split_inv s D L H (idx :: R) idx lf lu hf hu ->
  sdata s !! idx = Some pos -> low (data pos) ->
  exists s' D' L' lu', split_step half (hv (data pos)) idx pos s = Some s' /\
    split_inv s' D' L' H R (next pos) true lu' hf false.
Proof.
  intros [Hfl Hok Hlf Hhf Hpa (Hem1 & Hem2 & Hem3)] Hpos Hlow. unfold split_step.
  rewrite (proj2 (Z.eqb_eq _ _) (proj2 Hlow)), Hfl. destruct lf.
  - assert (L <> []) as HL by (intros E; by apply Hlf in E).
    destruct (parts_append _ _ _ _ _ _ _ _ _ _ _ _ _ _ _ _ _ _ _ _ _ _ Hpa HL Hpos Hlow) as [Hgs Hpa'].
    do 3 eexists. exists true. split.
    { instantiate (1 := mkSplit (bits true true hf false) idx (data pos) (gpos2 s) (ptr_to_rec2 s) (empty_pos s)
                          (if lu then sdata s else <[gpos s := mkLink idx (ptr_to_rec s)]> (sdata s))).
      destruct lu, hf, hu; try discriminate Hok; cbn; by rewrite ?put_Some. }
    constructor; [done|by destruct hf| | |exact Hpa'|].
    + split; [done|]. by destruct L.
    + done.
    + split; [done|]. split; by destruct L.
  - assert (L = []) as -> by by apply Hlf. destruct hf.
    + assert (H <> []) as HH by (intros E; by apply Hhf in E). specialize (Hem2 HH eq_refl).
      rewrite <- Hem2 in Hpa at 2. pose proof (parts_move _ _ _ _ _ _ _ _ _ _ _ _ _ _ _ _ _ _ _ _ Hpa Hpos Hlow) as Hpa'.
      do 3 eexists. exists false. split.
      { instantiate (1 := mkSplit 5 (empty_pos s) (data pos) (gpos2 s) (ptr_to_rec2 s) idx (sdata s)).
        by destruct lu, hu. }
      rewrite Hem2 in Hpa' at 2. econstructor; [done|done| | |exact Hpa'|]; done.
    + assert (H = []) as -> by by apply Hhf. rewrite (Hem3 eq_refl eq_refl) in *.
      pose proof (parts_place _ _ _ _ _ _ _ _ _ _ _ _ _ _ _ _ _ _ _ Hpa Hpos Hlow) as Hpa'.
      do 3 eexists. exists true. split.
      { instantiate (1 := mkSplit 3 p (data pos) (gpos2 s) (ptr_to_rec2 s) (empty_pos s) (sdata s)).
        by destruct lu, hu. }
      destruct hu; [by destruct lu|]. econstructor; [done|done| | |exact Hpa'|]; try done.
Qed.

Lemma split_step_high s D L H R idx pos lf lu hf hu : split_inv s D L H (idx :: R) idx lf lu hf hu ->
  sdata s !! idx = Some pos -> high (data pos) ->
  exists s' D' H' hu', split_step half (hv (data pos)) idx pos s = Some s' /\
    split_inv s' D' L H' R (next pos) lf false true hu'.
Proof.
  intros [Hfl Hok Hlf Hhf Hpa (Hem1 & Hem2 & Hem3)] Hpos Hhigh. unfold split_step.
  rewrite (proj2 (Z.eqb_neq _ _) (proj2 Hhigh)), Hfl. apply parts_sym in Hpa. destruct hf.
  - assert (H <> []) as HH by (intros E; by apply Hhf in E).
    destruct (parts_append _ _ _ _ _ _ _ _ _ _ _ _ _ _ _ _ _ _ _ _ _ _ Hpa HH Hpos Hhigh) as [Hgs Hpa'].
    do 3 eexists. exists true. split.
    { instantiate (1 := mkSplit (bits lf false true true) (gpos s) (ptr_to_rec s) idx (data pos) (empty_pos s)
                          (if hu then sdata s else <[gpos2 s := mkLink idx (ptr_to_rec2 s)]> (sdata s))).
      destruct lu, lf, hu; try discriminate Hok; cbn; by rewrite ?put_Some. }
    constructor; [done|by destruct lf| | |apply parts_sym; exact Hpa'|].
    + done.
    + split; [done|]. by destruct H.
    + split; [by destruct H|]. split; [|by destruct H]. intros _ HL. by apply Hem2.
  - assert (H = []) as -> by by apply Hhf. specialize (Hem1 eq_refl). rewrite <- Hem1 in Hpa at 2.
    pose proof (parts_move _ _ _ _ _ _ _ _ _ _ _ _ _ _ _ _ _ _ _ _ Hpa Hpos Hhigh) as Hpa'.
    do 3 eexists. exists false. split.
    { instantiate (1 := mkSplit (bits lf false true false) (gpos s) (ptr_to_rec s) (empty_pos s) (data pos) idx (sdata s)).
      by destruct lf, lu, hu. }
    rewrite Hem1 in Hpa' at 2. econstructor; [done|by destruct lf| | |apply parts_sym; exact Hpa'|]; try done.
    split; [done|]. split; [|done]. intros _ HL. simpl. by apply Hem3.
Qed.
(** One round of the loop. *)
Lemma split_step_spec s D L H R idx lf lu hf hu : split_inv s D L H (idx :: R) idx lf lu hf hu ->
  exists pos, sdata s !! idx = Some pos /\ f (data pos) = p /\
    exists s' D' L' H' lf' lu' hf' hu', split_step half (hv (data pos)) idx pos s = Some s' /\
      split_inv s' D' L' H' R (next pos) lf' lu' hf' hu'.
Proof.
  intros Hi. destruct (Hi) as [_ _ _ _ [_ _ (_ & pos & Hpos & _) Hrest (_ & Hm & _) _ _ _ _] _].
  assert (f (data pos) = p) as Hfp.
  { destruct (proj1 (Hm idx)) as (l & Hl & <-); [rewrite !elem_of_app; do 2 right; apply list_elem_of_here|].
    rewrite (Hrest idx (list_elem_of_here _ _)) in Hl. congruence. }
  exists pos. split; [done|]. split; [done|]. destruct (decide (Z.land (hv (data pos)) half = 0)) as [Hb|Hb].
  - destruct (split_step_low _ _ _ _ _ _ _ _ _ _ _ Hi Hpos (conj Hfp Hb)) as (? & ? & ? & ? & ? & ?). by do 8 eexists.
  - destruct (split_step_high _ _ _ _ _ _ _ _ _ _ _ Hi Hpos (conj Hfp Hb)) as (? & ? & ? & ? & ? & ?). by do 8 eexists.
Qed.

(** Only the end of the chain has no next slot. *)
Lemma split_rest s D L H R idx lf lu hf hu : split_inv s D L H R idx lf lu hf hu -> n < 2 ^ 30 - 1 ->
  idx = NO_RECORD /\ R = [] \/ idx <> NO_RECORD /\ exists R', R = idx :: R'.
Proof.
  intros [_ _ _ _ [_ _ Hseg _ _ _ Hsl _ _] _] Hn. destruct R as [|x R]; [by left|right].
  destruct Hseg as (-> & l & Hl & _). split; [|by eexists]. intros ->.
  rewrite (NO_RECORD_out _ _ Hsl) in Hl; [done|lia].
Qed.

(** The writes behind the loop make the array [D]. *)
Lemma split_end_spec s D L H lf lu hf hu : split_inv s D L H [] NO_RECORD lf lu hf hu ->
  exists d, split_end s = Some d /\ slots d (n + 1) /\ delete (empty_pos s) d = D.
Proof.
  intros [Hfl Hok Hlf Hhf [[_ H1] [_ H2] _ _ (_ & _ & _ & _ & He) Hag Hsl Hra _] _]. unfold split_end. rewrite Hfl.
  set (d1 := if lf && negb lu then <[gpos s := mkLink NO_RECORD (ptr_to_rec s)]> (sdata s) else sdata s).
  set (d2 := if hf && negb hu then <[gpos2 s := mkLink NO_RECORD (ptr_to_rec2 s)]> d1 else d1).
  assert (lf = true -> D !! gpos s = Some (mkLink NO_RECORD (ptr_to_rec s)) /\ 0 <= gpos s < n + 1 /\
            d1 !! gpos s = Some (mkLink NO_RECORD (ptr_to_rec s))) as Hl.
  { intros ->. destruct H1 as (K' & _ & _ & Hg & Hu); [intros E; by apply Hlf in E|]. split; [done|].
    split; [apply Hra; by eexists|]. unfold d1. destruct lu; [by apply Hu|apply lookup_insert_eq]. }
  assert (hf = true -> D !! gpos2 s = Some (mkLink NO_RECORD (ptr_to_rec2 s)) /\ 0 <= gpos2 s < n + 1 /\
            (hu = true -> sdata s !! gpos2 s = Some (mkLink NO_RECORD (ptr_to_rec2 s)))) as Hh.
  { intros ->. destruct H2 as (K' & _ & _ & Hg & Hu); [intros E; by apply Hhf in E|]. split; [done|].
    split; [apply Hra; by eexists|done]. }
  assert (slots d1 (n + 1)) as Hs1.
  { unfold d1. destruct lf, lu; try done. apply slots_insert; [done|by apply Hl]. }
  assert (slots d2 (n + 1)) as Hs2.
  { unfold d2. destruct hf, hu; try done. apply slots_insert; [done|by apply Hh]. }
  exists d2. split; [|split; [done|]].
  - assert (forall (b : bool) d i l, (b = true -> is_Some (d !! i)) ->
      (if b then put d i l else Some d) = Some (if b then <[i := l]> d else d)) as Hput.
    { intros [] d i l Hi; [apply put_Some; auto|done]. }
    replace (Z.land (bits lf lu hf hu) (Z.lor LOWFIND LOWUSED) =? LOWFIND) with (lf && negb lu) by by destruct lf, lu, hf, hu.
    replace (Z.land (bits lf lu hf hu) (Z.lor HIGHFIND HIGHUSED) =? HIGHFIND) with (hf && negb hu) by by destruct lf, lu, hf, hu.
    rewrite Hput, bind_Some_eq; [fold d1; rewrite Hput; [done|]|].
    + intros [-> _]%andb_true_iff. by apply Hs1, Hh.
    + intros [-> _]%andb_true_iff. by apply Hsl, Hl.
  - apply map_eq. intros i. destruct (decide (empty_pos s = i)) as [<-|Hei]; [by rewrite lookup_delete_eq|].
    rewrite lookup_delete_ne by done. destruct hf.
    + destruct Hh as (Hg2 & _ & Hu2); [done|]. destruct (decide (gpos2 s = i)) as [<-|Hgi].
      { rewrite Hg2. unfold d2. destruct hu; [|by cbn [andb negb]; rewrite lookup_insert_eq]. cbn [andb negb]. unfold d1.
        destruct lf, lu; try discriminate Hok; cbn [andb negb]; try (by apply Hu2).
        destruct (decide (gpos s = gpos2 s)) as [E|E]; [|rewrite lookup_insert_ne by done; by apply Hu2].
        rewrite E, lookup_insert_eq. destruct Hl as (Hg & _); [done|]. rewrite E, Hg2 in Hg. congruence. }
      assert (d2 !! i = d1 !! i) as -> by (unfold d2; destruct hu; [done|by apply lookup_insert_ne]).
      destruct lf.
      * destruct Hl as (Hg1 & _ & Hd1); [done|]. destruct (decide (gpos s = i)) as [<-|Hgi']; [by rewrite Hd1|].
        rewrite Hag; auto. unfold d1. destruct lu; [done|]. by apply lookup_insert_ne.
      * rewrite Hag; auto. left. by apply Hlf.
    + unfold d2. cbn [andb]. destruct lf.
      * destruct Hl as (Hg1 & _ & Hd1); [done|]. destruct (decide (gpos s = i)) as [<-|Hgi']; [by rewrite Hd1|].
        rewrite Hag; auto; [|left; by apply Hhf]. unfold d1. destruct lu; [done|]. by apply lookup_insert_ne.
      * rewrite Hag; [done|done|left; by apply Hlf|left; by apply Hhf].
Qed.

(** The array [D] has the families of the table with one slot more. *)
Lemma split_families s D L H lf lu hf hu (f' : Z -> Z) : split_inv s D L H [] NO_RECORD lf lu hf hu -> p <> n ->
  (forall r, f r <> n) -> (forall r, f' r = if (f r =? p) && negb (Z.land (hv r) half =? 0) then n else f r) ->
  (forall j, 0 <= j < n -> family d0 f j) -> forall j, 0 <= j < n + 1 -> family D f' j.
Proof.
  intros [_ _ _ _ [H1 H2 _ _ (Hnd & Hm & _ & Ho & _) _ _ _ _] _] Hpn Hfn Hf' Hfam j Hj.
  rewrite app_nil_r in Hnd. apply NoDup_app in Hnd as (N1 & N2 & N3).
  assert (forall r, f' r = p <-> low r) as Hlow.
  { intros r. rewrite Hf'. unfold low. specialize (Hfn r). destruct (Z.eqb_spec (f r) p), (Z.eqb_spec (Z.land (hv r) half) 0);
      cbn [andb negb]; lia. }
  assert (forall r, f' r = n <-> high r) as Hhigh.
  { intros r. rewrite Hf'. unfold high. specialize (Hfn r). destruct (Z.eqb_spec (f r) p), (Z.eqb_spec (Z.land (hv r) half) 0);
      cbn [andb negb]; lia. }
  assert (forall i, i ∈ L \/ i ∈ H <-> member D f p i) as HM.
  { intros i. rewrite <- Hm, !elem_of_app. rewrite (elem_of_nil i). tauto. }
  destruct (decide (j = p)) as [->|Hjp]; [|destruct (decide (j = n)) as [->|Hjn]].
  - exists L. split; [done|]. split.
    + intros i. split; [intros Hi; destruct (proj1 H1 i Hi) as (l & Hl & Hlo); exists l; by rewrite Hlow|].
      intros (l & Hl & [Hfl Hbit]%Hlow). destruct (proj2 (HM i)) as [?|Hi]; [by exists l|done|].
      destruct (proj1 H2 i Hi) as (l' & Hl' & [_ ?]). congruence.
    + destruct (decide (L = [])) as [?|HL]; [by left|right]. by destruct (proj2 H1 HL) as (K' & _ & ? & _).
  - exists H. split; [done|]. split.
    + intros i. split; [intros Hi; destruct (proj1 H2 i Hi) as (l & Hl & Hlo); exists l; by rewrite Hhigh|].
      intros (l & Hl & [Hfl Hbit]%Hhigh). destruct (proj2 (HM i)) as [Hi|?]; [by exists l| |done].
      destruct (proj1 H1 i Hi) as (l' & Hl' & [_ ?]). congruence.
    + destruct (decide (H = [])) as [?|HL]; [by left|right]. by destruct (proj2 H2 HL) as (K' & _ & ? & _).
  - apply family_ext with (f := f); [|apply Ho; [done|apply Hfam; lia]]. intros r. rewrite Hf'.
    destruct (Z.eqb_spec (f r) p) as [->|?], (Z.land (hv r) half =? 0); cbn [andb negb]; lia.
Qed.
End splitting.

(** ** Removing a record from its chain *)

Lemma find_record_spec d r c : forall fuel g idx, seg d idx c NO_RECORD -> c <> [] -> d !! NO_RECORD = None ->
  (length c <= fuel)%nat ->
  (find_record fuel d r g idx = Some None /\ forall i l, i ∈ c -> d !! i = Some l -> data l <> r) \/
  exists c1 x c2 l, c = c1 ++ x :: c2 /\ d !! x = Some l /\ data l = r /\
    find_record fuel d r g idx = Some (Some (match last c1 with Some z => Some z | None => g end, x)).
Proof.
  induction c as [|a c IH]; intros fuel g idx Hs Hne Hno Hf; [done|].
  destruct fuel as [|fuel]; [simpl in Hf; lia|]. destruct Hs as (-> & l & Hl & Hs). cbn [find_record].
  rewrite Hl, bind_Some_eq. destruct (Z.eqb_spec (data l) r) as [E|E]; cbn [negb].
  { right. by exists [], a, c, l. }
  destruct c as [|b c].
  - simpl in Hs. rewrite Hs, Z.eqb_refl. left. split; [done|]. intros i l' ->%list_elem_of_singleton Hl'. congruence.
  - destruct (Z.eqb_spec (next l) NO_RECORD) as [En|En].
    { destruct Hs as (E' & l' & Hl' & _). congruence. }
    destruct (IH fuel (Some a) (next l) Hs) as [[Hr Ha]|(c1 & x & c2 & l' & -> & Hx & Hr & Hfr)]; [done|done|simpl in Hf |- *; lia|..].
    + left. split; [done|]. intros i l' [->|Hi]%elem_of_cons Hl'; [congruence|by eapply Ha].
    + right. exists (a :: c1), x, c2, l'. split_and!; try done. rewrite Hfr. do 3 f_equal.
      destruct c1 as [|y c1]; [done|]. rewrite last_cons_cons. destruct (last (y :: c1)) eqn:El; [done|]. by apply last_None in El.
Qed.

(** The slot [x] behind [z] leaves the chain. *)
Lemma family_unlink d f j c1 z x c2 pos : d !! x = Some pos -> NoDup ((c1 ++ [z]) ++ x :: c2) ->
  (forall i, i ∈ (c1 ++ [z]) ++ x :: c2 <-> member d f j i) -> seg d j (c1 ++ [z]) x -> seg d (next pos) c2 NO_RECORD ->
  forall j', family d f j' -> family (delete x (alter (relink (next pos)) z d)) f j'.
Proof.
  intros Hx Hnd Hm Hs1 Hs2 j' Hfam. apply NoDup_app in Hnd as (N1 & N2 & [N3 N4]%NoDup_cons).
  assert (z ∈ c1 ++ [z]) as Hz by (apply elem_of_app; right; apply list_elem_of_here).
  assert (x ∉ c1 ++ [z]) as Hx1 by (intros Hin; apply (N2 x Hin), list_elem_of_here).
  assert (z ∉ c2) as Hz2 by (intros Hin; apply (N2 z Hz); by apply list_elem_of_further).
  assert (z ∉ c1) as Hz1.
  { apply NoDup_app in N1 as (_ & N1 & _). intros Hin. apply (N1 z Hin), list_elem_of_here. }
  destruct (decide (j' = j)) as [->|Hj].
  - exists ((c1 ++ [z]) ++ c2). split; [|split; [|right]].
    + apply NoDup_app. split; [done|]. split; [|done]. intros a Ha Ha2. apply (N2 a Ha). by apply list_elem_of_further.
    + intros i. transitivity (i <> x /\ member d f j i).
      * rewrite <- Hm, !(elem_of_app (c1 ++ [z])), elem_of_cons. split; [|tauto].
        intros [Hi|Hi]; (split; [by intros ->|tauto]).
      * destruct (decide (x = i)) as [<-|Hxi].
        { split; [by intros [? _]|]. intros (l & Hl & _). by rewrite lookup_delete_eq in Hl. }
        rewrite <- (member_relink d f j z (next pos) i). unfold member. rewrite lookup_delete_ne by done.
        split; [by intros [_ ?]|done].
    + apply seg_app. exists (next pos). split; apply seg_delete; try done.
      * by apply seg_relink_last with (e := x).
      * by apply seg_alter.
  - assert (member d f j z) as (lz & Hlz & Ez) by (apply Hm, elem_of_app; by left).
    assert (member d f j x) as (lx & Hlx & Ex) by (apply Hm, elem_of_app; right; apply list_elem_of_here).
    apply family_delete_other; [apply family_relink_other; [done|]|rewrite member_relink]; intros (l & Hl & E); congruence.
Qed.

(** The home slot leaves the chain: the second record, if there is one, takes it. *)
Lemma family_unlink_head d f j m c pos pm : d !! j = Some pos -> next pos = m -> d !! m = Some pm ->
  NoDup (j :: m :: c) -> (forall i, i ∈ j :: m :: c <-> member d f j i) -> seg d (next pm) c NO_RECORD ->
  forall j', family d f j' -> family (delete m (<[j := pm]> d)) f j'.
Proof.
  intros Hj Hn Hpm Hnd Hm Hs j' Hfam. apply NoDup_cons in Hnd as [N1 [N2 N3]%NoDup_cons].
  apply not_elem_of_cons in N1 as [N1 N1']. assert (member d f j m) as (l & Hl & Em) by (apply Hm, list_elem_of_further, list_elem_of_here).
  rewrite Hpm in Hl. injection Hl as <-.
  assert (member d f j j) as (l & Hl & Ej) by (apply Hm, list_elem_of_here). rewrite Hj in Hl. injection Hl as <-.
  destruct (decide (j' = j)) as [->|Hjj].
  - exists (j :: c). split; [by constructor|]. split; [|right].
    + intros i. unfold member. destruct (decide (m = i)) as [<-|Hmi].
      { rewrite lookup_delete_eq, elem_of_cons. split; [intros [?|?]; congruence|by intros (? & [=] & _)]. }
      rewrite lookup_delete_ne by done. destruct (decide (j = i)) as [<-|Hji].
      { rewrite lookup_insert_eq. split; [intros _; by exists pm|intros _; apply list_elem_of_here]. }
      rewrite lookup_insert_ne by done. fold (member d f j i). rewrite <- Hm, !elem_of_cons.
      split; [intros [?|?]; tauto|]. intros [?|[?|?]]; [congruence..|tauto].
    + split; [done|]. exists pm. rewrite lookup_delete_ne, lookup_insert_eq by congruence. split; [done|].
      apply seg_delete; [|done]. by apply seg_insert.
  - apply family_delete_other; [apply family_insert_other; [done| |congruence]|].
    + intros (l & Hl & E). congruence.
    + intros (l & Hl & E). rewrite lookup_insert_ne in Hl by congruence. congruence.
Qed.

(** The slots of a chain are in the array, and so are few. *)
Lemma chain_in d f j n c : slots d n -> NoDup c -> (forall i, i ∈ c -> member d f j i) ->
  (length c <= Z.to_nat n)%nat /\ forall i, i ∈ c -> 0 <= i < n.
Proof.
  intros Hsl Hnd Hc. assert (forall i, i ∈ c -> 0 <= i < n) as Hr.
  { intros i (l & Hl & _)%Hc. apply Hsl. by eexists. }
  split; [by apply chain_length|done].
Qed.

Lemma unlink_spec d f j N c1 x c2 l : slots d N -> N < 2 ^ 30 -> d !! x = Some l -> NoDup (c1 ++ x :: c2) ->
  (forall i, i ∈ c1 ++ x :: c2 <-> member d f j i) -> seg d j (c1 ++ x :: c2) NO_RECORD ->
  exists d' e, unlink d (last c1) x = Some (d', e) /\ slots d' N /\ (0 <= e < N /\ member d f j e) /\
    (forall j', family d f j' -> family (delete e d') f j') /\ contents d ≡ₚ data l :: contents (delete e d').
Proof.
  intros Hsl HN Hx Hnd Hm Hs.
  destruct (chain_in d f j N (c1 ++ x :: c2) Hsl Hnd (fun i => proj1 (Hm i))) as [_ Hin].
  assert (0 <= x < N) as HxN by (apply Hin, elem_of_app; right; apply list_elem_of_here).
  apply seg_app in Hs as (m & Hs1 & -> & l' & Hl' & Hs2). rewrite Hx in Hl'. injection Hl' as <-.
  unfold unlink. rewrite Hx, bind_Some_eq. destruct c1 as [|a c1] using rev_ind.
  - simpl in Hs1. subst j. cbn [last app] in *. destruct c2 as [|y c2].
    + simpl in Hs2. rewrite Hs2, Z.eqb_refl. cbn [negb]. exists d, x. split; [done|]. split; [done|]. split; [split; [done|apply Hm, list_elem_of_here]|].
      split; [|by apply contents_delete].
      intros j' Hj'. destruct (decide (j' = x)) as [->|Hne].
      * apply family_none. intros i (l' & [? Hl']%lookup_delete_Some & E).
        assert (member d f x i) as Hi%Hm by by exists l'. apply list_elem_of_singleton in Hi. congruence.
      * apply family_delete_other; [done|]. intros Hi. destruct (proj1 (Hm x)) as (l1 & Hl1 & E1); [apply list_elem_of_here|].
        destruct Hi as (l2 & Hl2 & E2). congruence.
    + destruct Hs2 as (Hy & ly & Hly & Hs2). assert (0 <= y < N) as HyN by (apply Hin, list_elem_of_further, list_elem_of_here).
      rewrite (proj2 (Z.eqb_neq (next l) NO_RECORD)) by (rewrite Hy; intros ->; by rewrite (NO_RECORD_out d N) in Hly).
      cbn [negb]. rewrite Hy, Hly, bind_Some_eq, put_Some, bind_Some_eq by by eexists.
      assert (x <> y) as Hxy by (intros ->; by apply NoDup_cons in Hnd as [[]%not_elem_of_cons _]).
      exists (<[x := ly]> d), y. split; [done|]. split; [by apply slots_insert|].
      split; [split; [done|apply Hm, list_elem_of_further, list_elem_of_here]|]. split.
      * intros j' Hj'. by apply (family_unlink_head d f x y c2 l ly).
      * rewrite (contents_delete d x l) by done. f_equiv.
        rewrite <- (contents_move (delete x d) y x ly); [|by rewrite lookup_delete_ne|by rewrite lookup_delete_eq].
        by rewrite delete_insert_ne, (delete_delete d), insert_delete_eq by done.
  - clear IHc1. rewrite last_snoc. assert (0 <= a < N) as HaN.
    { apply Hin, elem_of_app. left. apply elem_of_app. right. apply list_elem_of_here. }
    rewrite put_next_Some, bind_Some_eq by by apply Hsl. exists (alter (relink (next l)) a d), x.
    split; [done|]. split; [by apply slots_relink|]. split; [split; [done|apply Hm, elem_of_app; right; apply list_elem_of_here]|]. split.
    + intros j' Hj'. by apply (family_unlink d f j c1 a x c2 l).
    + rewrite <- (contents_relink d a (next l)) at 1. apply contents_delete.
      rewrite lookup_alter_ne; [done|]. intros ->. apply NoDup_app in Hnd as (_ & N2 & _).
      apply (N2 x); [apply elem_of_app; right; apply list_elem_of_here|apply list_elem_of_here].
Qed.

(** ** Giving up the slot [n]

    [f] are the homes with the slot, [f'] without: the records of the chain at
    [n] join the ones at [q]. *)

Section merging.
Variables (f f' : Z -> Z) (n q : Z).
Hypothesis homes : forall r, f' r = if f r =? n then q else f r.
Hypothesis parent : 0 <= q < n.

Lemma home_other j : j <> q -> j <> n -> forall r, f r = j <-> f' r = j.
Proof. intros Hq Hn r. rewrite homes. destruct (Z.eqb_spec (f r) n); lia. Qed.

Lemma home_parent r : f' r = q <-> f r = n \/ f r = q.
Proof. rewrite homes. destruct (Z.eqb_spec (f r) n); lia. Qed.

(** A family whose home is taken by another record, or free, is empty. *)
Lemma no_member D j : family D f j -> (forall l, D !! j = Some l -> f (data l) <> j) -> forall i, ~ member D f j i.
Proof. intros Hfam Hj. apply family_empty; [done|]. intros (l & Hl & E). by apply (Hj l). Qed.

(** Nothing is in the slot. *)
Lemma merge_free D : D !! n = None -> (forall j, 0 <= j <= n -> family D f j) -> forall j, 0 <= j < n -> family D f' j.
Proof.
  intros Hn Hfam j Hj. assert (forall i, ~ member D f n i) as Hno.
  { apply no_member; [apply Hfam; lia|]. by intros l ?; rewrite Hn in *. }
  destruct (Hfam j) as (c & Hnd & Hc & Hs); [lia|]. exists c. split; [done|]. split; [|done].
  intros i. rewrite Hc. split; intros (l & Hl & E); exists l; (split; [done|]).
  - rewrite homes. destruct (Z.eqb_spec (f (data l)) n); [lia|done].
  - rewrite homes in E. destruct (Z.eqb_spec (f (data l)) n) as [En|]; [|done]. destruct (Hno i). by exists l.
Qed.

(** The slot holds the head of the chain, and the slot [q] is free. *)
Lemma merge_head D l : D !! q = None -> D !! n = Some l -> f (data l) = n ->
  (forall j, 0 <= j <= n -> family D f j) -> forall j, 0 <= j < n -> family (<[q := l]> (delete n D)) f' j.
Proof.
  intros Hq Hn Hl Hfam j Hj. assert (forall i, ~ member D f q i) as Hno.
  { apply no_member; [apply Hfam; lia|]. by intros l' ?; rewrite Hq in *. }
  destruct (decide (j = q)) as [->|Hjq].
  - destruct (family_chain D f n n) as (c & Hnd & Hc & Hs); [apply Hfam; lia|by exists l|].
    apply NoDup_cons in Hnd as [Hni Hnd]. destruct Hs as (_ & l' & Hl' & Hs). rewrite Hn in Hl'. injection Hl' as <-.
    assert (q ∉ c) as Hqc.
    { intros Hin. destruct (proj1 (Hc q)) as (l' & Hl' & _); [by apply list_elem_of_further|congruence]. }
    exists (q :: c). split; [by constructor|]. split; [|right].
    + intros i. rewrite elem_of_cons. unfold member. destruct (decide (q = i)) as [<-|Hqi].
      { rewrite lookup_insert_eq. split; [|by left]. intros _. exists l. split; [done|]. apply home_parent. by left. }
      rewrite lookup_insert_ne by done. destruct (decide (n = i)) as [<-|Hni'].
      { rewrite lookup_delete_eq. split; [intros [?|?]; [congruence|done]|by intros (? & [=] & _)]. }
      rewrite lookup_delete_ne by done. split.
      * intros [?|Hi]; [congruence|]. destruct (proj1 (Hc i)) as (l' & Hl' & E); [by apply list_elem_of_further|].
        exists l'. split; [done|]. apply home_parent. by left.
      * intros (l' & Hl' & [E|E]%home_parent); [|destruct (Hno i); by exists l'].
        right. assert (i ∈ n :: c) as [?|?]%elem_of_cons by (apply Hc; by exists l'); [congruence|done].
    + split; [done|]. exists l. rewrite lookup_insert_eq. split; [done|]. apply seg_insert; [|done]. by apply seg_delete.
  - apply family_ext with (f := f); [apply home_other; lia|].
    apply family_insert_other; [apply family_delete_other; [apply Hfam; lia|]|..|lia].
    + intros (l' & Hl' & E). rewrite Hn in Hl'. injection Hl' as <-. lia.
    + intros (l' & Hl' & _). rewrite lookup_delete_ne in Hl' by lia. congruence.
Qed.

(** The head [l] of the chain at [n] moves to the free slot [e] and comes second
    after the record at [q]: [c1] is what followed the head, [c2] what
    followed the slot [q]. *)
Lemma merge_join D e l P c1 c2 m c1' z : D !! e = None -> D !! n = Some l -> D !! q = Some P ->
  seg D (next l) c1 m -> seg D (next P) c2 NO_RECORD -> NoDup (n :: q :: c1 ++ c2) ->
  (forall i, i ∈ n :: q :: c1 ++ c2 <-> member D f' q i) -> e :: c1 = c1' ++ [z] ->
  (forall j, 0 <= j < n -> family D f j) ->
  forall j, 0 <= j < n -> family (alter (relink e) q (alter (relink (next P)) z (<[e := l]> (delete n D)))) f' j.
Proof.
  intros He Hn Hq Hs1 Hs2 Hnd Hm Hz Hfam j Hj.
  assert (forall i, i ∈ n :: q :: c1 ++ c2 -> i <> e) as Hie by (intros i (l' & Hl' & _)%Hm ->; congruence).
  assert (f' (data l) = q) as Hfl by (destruct (proj1 (Hm n) (list_elem_of_here _ _)) as (l' & Hl' & ?); congruence).
  apply NoDup_cons in Hnd as [N1 [N2 Hnd]%NoDup_cons]. apply NoDup_app in Hnd as (N3 & N4 & N5).
  rewrite not_elem_of_cons, not_elem_of_app in N1. rewrite not_elem_of_app in N2.
  destruct N1 as (Hnq & Hn1 & Hn2), N2 as [Hq1 Hq2].
  assert (e ∉ c1 /\ e ∉ c2 /\ e <> q /\ e <> n) as (He1 & He2 & Heq & Hen).
  { split_and!; intros Hin; (apply (Hie e); [|done]); rewrite !elem_of_cons, elem_of_app; tauto. }
  assert (z ∈ e :: c1) as Hze by (rewrite Hz; apply elem_of_app; right; apply list_elem_of_here).
  assert (NoDup (e :: c1)) as Hnd by by constructor.
  assert (z ∉ c1') as Hz1.
  { rewrite Hz in Hnd. apply NoDup_app in Hnd as (_ & N & _). intros Hin. apply (N z Hin), list_elem_of_here. }
  assert (z <> q /\ z ∉ c2) as [Hzq Hz2].
  { apply elem_of_cons in Hze as [->|Hze]; [done|]. split; [by intros ->|]. by apply N4. }
  set (X0 := <[e := l]> (delete n D)).
  assert (seg X0 e (e :: c1) m) as HX0.
  { split; [done|]. exists l. unfold X0. rewrite lookup_insert_eq. split; [done|]. apply seg_insert; [|done]. by apply seg_delete. }
  assert (forall g i, i <> e -> i <> n -> member X0 g q i <-> member D g q i) as HX0m.
  { intros g i Hi Hi'. unfold member, X0. by rewrite lookup_insert_ne, lookup_delete_ne by congruence. }
  destruct (decide (j = q)) as [->|Hjq].
  - exists (q :: e :: c1 ++ c2). split; [|split; [|right]].
    + constructor; [rewrite not_elem_of_cons, not_elem_of_app; auto|]. constructor; [by rewrite not_elem_of_app|].
      by apply NoDup_app.
    + intros i. rewrite !member_relink. destruct (decide (i = e)) as [->|Hi].
      { rewrite !elem_of_cons. split; [|tauto]. intros _. exists l. unfold X0. by rewrite lookup_insert_eq. }
      destruct (decide (i = n)) as [->|Hi'].
      { rewrite !elem_of_cons, elem_of_app. split; [tauto|]. intros (l' & Hl' & _). unfold X0 in Hl'.
        by rewrite lookup_insert_ne, lookup_delete_eq in Hl'. }
      rewrite HX0m, <- Hm, !elem_of_cons by done. tauto.
    + split; [done|]. exists (relink e P).
      rewrite lookup_alter_eq, lookup_alter_ne by done. unfold X0. rewrite lookup_insert_ne, lookup_delete_ne, Hq by done.
      split; [done|]. fold X0. change (next (relink e P)) with e.
      apply (seg_alter _ (e :: c1 ++ c2)); [|rewrite not_elem_of_cons, not_elem_of_app; auto].
      apply (seg_app _ (e :: c1) c2). exists (next P). split.
      * rewrite Hz. apply seg_relink_last with (e := m); [by rewrite <- Hz|done].
      * apply seg_alter; [|done]. unfold X0. apply seg_insert; [|done]. by apply seg_delete.
  - apply family_ext with (f := f); [apply home_other; lia|].
    assert (forall i, member D f' q i -> ~ member D f j i) as Hoth.
    { intros i (l1 & Hl1 & E1%home_parent) (l2 & Hl2 & E2). rewrite Hl1 in Hl2. injection Hl2 as <-. lia. }
    assert (forall i, i ∈ n :: q :: c1 ++ c2 -> ~ member D f j i) as Hoth' by (intros i Hi%Hm; by apply Hoth).
    assert (~ member X0 f j e) as HeX.
    { intros (l' & Hl' & E). unfold X0 in Hl'. rewrite lookup_insert_eq in Hl'. injection Hl' as <-.
      apply home_parent in Hfl. lia. }
    assert (forall i, i ∈ q :: c1 -> ~ member X0 f j i) as HcX.
    { intros i Hi (l' & Hl' & E). apply (Hoth' i); [rewrite !elem_of_cons, elem_of_app in *; tauto|]. exists l'.
      split; [|done]. revert Hl'. unfold X0. rewrite lookup_insert_ne, lookup_delete_ne; [done|..].
      - intros <-. apply elem_of_cons in Hi as [?|?]; congruence.
      - intros <-. apply elem_of_cons in Hi as [?|?]; congruence. }
    apply family_relink_other; [apply family_relink_other|rewrite member_relink; apply HcX, list_elem_of_here].
    + apply family_insert_other; [apply family_delete_other; [apply Hfam; lia|apply Hoth', list_elem_of_here]|..].
      * intros (l' & Hl' & _). rewrite lookup_delete_ne in Hl' by done. congruence.
      * apply home_parent in Hfl. lia.
    + apply elem_of_cons in Hze as [->|Hze]; [done|]. apply HcX. by apply list_elem_of_further.
Qed.

(** The record of the slot [n] is the head of the chain at [n] when no record of
    its new home [p] is at [p]. *)
Lemma merge_lone D l p : D !! n = Some l -> f' (data l) = p -> (forall j, 0 <= j <= n -> family D f j) -> 0 <= p < n ->
  (forall P, D !! p = Some P -> f (data P) <> p) -> f (data l) = n /\ p = q.
Proof.
  intros Hn Hp Hfam Hpn Hno. rewrite homes in Hp. destruct (Z.eqb_spec (f (data l)) n) as [E|E]; [by subst|].
  exfalso. apply (no_member D p) with (i := n); [apply Hfam; lia|done|by exists l].
Qed.

(** Some slot is free, [n] holds [l], and [P] is at [l]'s new home [p], not
    at [P]'s own: [P] moves to the free slot, [l] to [p]. *)
Lemma merge_swap D e l p P : D !! n = Some l -> D !! e = None -> f' (data l) = p -> D !! p = Some P -> f' (data P) <> p ->
  (forall j, 0 <= j <= n -> family D f j) -> 0 <= p < n -> 0 <= f' (data P) < n ->
  exists c1 z c2, NoDup ((c1 ++ [z]) ++ p :: c2) /\ (forall i, i ∈ (c1 ++ [z]) ++ p :: c2 <-> member D f (f' (data P)) i) /\
    seg D (f' (data P)) (c1 ++ [z]) p /\ z <> n /\
    forall j, 0 <= j < n -> family (<[p := l]> (delete n (alter (relink e) z (<[e := P]> (delete p D))))) f' j.
Proof.
  intros Hn He Hl HP HPp Hfam Hp Hp3.
  destruct (merge_lone D l p) as [Hln ->]; [done..| |].
  { intros P' HP' E. rewrite HP in HP'. injection HP' as <-. apply HPp. rewrite homes, E. destruct (Z.eqb_spec p n); [lia|done]. }
  assert (f (data P) = f' (data P)) as HfP.
  { rewrite homes. destruct (Z.eqb_spec (f (data P)) n) as [E|E]; [|done]. destruct HPp. apply home_parent. by left. }
  destruct (chain_pred D f (f' (data P)) q P) as (c1 & z & c2 & Hnd & Hm & Hs1 & Hs2); [apply Hfam; lia|done|done|lia|].
  assert (z ∈ (c1 ++ [z]) ++ q :: c2) as Hz by (rewrite !elem_of_app; left; right; apply list_elem_of_here).
  assert (z <> n) as Hzn.
  { intros ->. apply Hm in Hz as (l' & Hl' & E). rewrite Hn in Hl'. injection Hl' as <-. lia. }
  assert (z <> q /\ z <> e) as [Hzq Hze].
  { split; [|intros ->; apply Hm in Hz as (? & ? & _); congruence]. intros ->.
    apply NoDup_app in Hnd as (_ & N & _). apply (N q); [apply elem_of_app; right|]; apply list_elem_of_here. }
  exists c1, z, c2. split_and!; try done. apply merge_head.
  - rewrite lookup_alter_ne, lookup_insert_ne, lookup_delete_eq by congruence. done.
  - rewrite lookup_alter_ne, lookup_insert_ne, lookup_delete_ne by (congruence || lia). done.
  - done.
  - intros j Hj. eapply family_move; eauto.
Qed.

(** [l] and the record [P] at its new home are of one family before: [l] moves
    to the free slot. *)
Lemma merge_same D e l p P : D !! n = Some l -> D !! e = None -> f (data l) = p -> D !! p = Some P -> 
  (forall j, 0 <= j <= n -> family D f j) -> 0 <= p < n ->
  exists c1 z c2, NoDup ((c1 ++ [z]) ++ n :: c2) /\ (forall i, i ∈ (c1 ++ [z]) ++ n :: c2 <-> member D f p i) /\
    seg D p (c1 ++ [z]) n /\
    forall j, 0 <= j < n -> family (alter (relink e) z (<[e := l]> (delete n D))) f' j.
Proof.
  intros Hn He Hl HP Hfam Hp.
  destruct (chain_pred D f p n l) as (c1 & z & c2 & Hnd & Hm & Hs1 & Hs2); [apply Hfam; lia|done|done|lia|].
  assert (z ∈ (c1 ++ [z]) ++ n :: c2) as Hz by (rewrite !elem_of_app; left; right; apply list_elem_of_here).
  assert (z <> n) as Hzn.
  { intros ->. apply NoDup_app in Hnd as (_ & N & _). apply (N n); [apply elem_of_app; right|]; apply list_elem_of_here. }
  exists c1, z, c2. split_and!; try done. apply merge_free.
  - rewrite lookup_alter_ne, lookup_insert_ne, lookup_delete_eq by congruence. done.
  - intros j Hj. eapply family_move; eauto.
Qed.

(** The chains that [merge_join] joins: [m] is where the first one ends. *)
Lemma merge_chains D l p P : D !! n = Some l -> f' (data l) = p -> D !! p = Some P -> f' (data P) = p ->
  (forall j, 0 <= j <= n -> family D f j) -> 0 <= p < n -> f (data l) <> f (data P) \/ f (data l) = n ->
  p = q /\ exists c1 c2, seg D (next l) c1 (if f (data l) =? f (data P) then p else NO_RECORD) /\
    seg D (next P) c2 NO_RECORD /\ NoDup (n :: q :: c1 ++ c2) /\ forall i, i ∈ n :: q :: c1 ++ c2 <-> member D f' q i.
Proof.
  intros Hn Hl HP HPp Hfam Hp Hcase.
  assert (f (data l) = n) as Hln.
  { destruct Hcase as [Hne|?]; [|done]. destruct (decide (f (data l) = n)) as [|Hln]; [done|]. exfalso.
    assert (f (data P) = n) as HPn by (rewrite homes in Hl, HPp; destruct (Z.eqb_spec (f (data l)) n), (Z.eqb_spec (f (data P)) n); lia).
    apply (no_member D n) with (i := p); [apply Hfam; lia| |by exists P]. intros l' Hl' E. congruence. }
  assert (p = q) as -> by (rewrite homes, Hln, Z.eqb_refl in Hl; congruence). split; [done|].
  destruct (family_chain D f n n) as (c & Hnd & Hc & Hs); [apply Hfam; lia|by exists l|].
  destruct Hs as (_ & l' & Hl' & Hs). rewrite Hn in Hl'. injection Hl' as <-. apply NoDup_cons in Hnd as [Hnc Hnd].
  apply home_parent in HPp as HP'. rewrite Hln. destruct (Z.eqb_spec n (f (data P))) as [E|E].
  - assert (q ∈ c) as Hqc.
    { assert (q ∈ n :: c) as [?|?]%elem_of_cons by (apply Hc; by exists P); [lia|done]. }
    apply list_elem_of_split in Hqc as (c1 & c2 & ->). apply seg_app in Hs as (m & Hs1 & -> & P' & HP1 & Hs2).
    rewrite HP in HP1. injection HP1 as <-. exists c1, c2. split; [done|]. split; [done|].
    assert (n :: q :: c1 ++ c2 ≡ₚ n :: c1 ++ q :: c2) as Hperm by (f_equiv; by rewrite Permutation_middle).
    split; [rewrite Hperm; by constructor|]. intros i. rewrite Hperm, Hc. unfold member.
    split; intros (l' & Hl' & E'); exists l'; (split; [done|]); [apply home_parent; by left|].
    apply home_parent in E' as [?|E']; [done|]. exfalso.
    apply (no_member D q) with (i := i); [apply Hfam; lia| |by exists l']. intros l2 Hl2. rewrite HP in Hl2. injection Hl2 as <-. lia.
  - destruct HP' as [?|HPq]; [congruence|].
    destruct (family_chain D f q q) as (c2 & Hnd2 & Hc2 & Hs2); [apply Hfam; lia|by exists P|].
    destruct Hs2 as (_ & P' & HP1 & Hs2). rewrite HP in HP1. injection HP1 as <-. exists c, c2. split; [done|]. split; [done|].
    assert (n :: q :: c ++ c2 ≡ₚ (n :: c) ++ q :: c2) as Hperm by (simpl; f_equiv; by rewrite Permutation_middle).
    split.
    + rewrite Hperm. apply NoDup_app. split; [by constructor|]. split; [|done].
      intros i (l1 & Hl1 & E1)%Hc (l2 & Hl2 & E2)%Hc2. rewrite Hl1 in Hl2. injection Hl2 as <-. lia.
    + intros i. rewrite Hperm, elem_of_app, Hc, Hc2. unfold member. split.
      * intros [(l' & Hl' & E')|(l' & Hl' & E')]; exists l'; (split; [done|]); apply home_parent; tauto.
      * intros (l' & Hl' & [E'|E']%home_parent); [left|right]; by exists l'.
Qed.
End merging.

Section table.
Context {coll : Collation} (record_bytes : Z -> list Z).

(** The home of a record in a table of [2 ^ k] and [n]. *)
Definition home (h : HASH) (k n : Z) (r : Z) : Z := hash_mask (rec_hashnr record_bytes h r) (2 ^ k) n.

(** ** The invariant *)

Definition wf (h : HASH) : Prop :=
  exists k, blength h = 2 ^ k /\ shape k (records h) /\ slots (array h) (records h) /\
    forall j, 0 <= j < records h -> family (array h) (home h k (records h)) j.

(** The record goes to its home while the slot [e] is free. *)
Lemma place_spec fuel h k r d e N : blength h = 2 ^ k -> u32 (records h + 1) = N -> (Z.to_nat N <= fuel)%nat ->
  0 <= k < 31 -> 1 <= N <= 2 ^ k -> 2 ^ k / 2 <= N -> slots d N -> 0 <= e < N ->
  (forall j, 0 <= j < N -> family (delete e d) (home h k N) j) ->
  exists d', place record_bytes fuel h r d e = Some d' /\ slots d' N /\
    (forall j, 0 <= j < N -> family d' (home h k N) j) /\ contents d' ≡ₚ r :: contents (delete e d).
Proof.
  intros Hb HN Hfuel Hk HN1 Hhalf Hd He Hfam. unfold place, hash_rec_mask. rewrite Hb, HN.
  fold (home h k N r). set (f := home h k N) in *. set (idx := f r).
  assert (forall x, 0 <= f x < N) as Hf by (intros x; apply hash_mask_range; lia).
  destruct (Z.eqb_spec idx e) as [Hie|Hie].
  - exists (<[e := mkLink NO_RECORD r]> d). rewrite Hie. split; [by apply put_Some, Hd|]. split; [by apply slots_insert|].
    rewrite <- (insert_delete_eq d e). split; [|by apply contents_insert, lookup_delete_eq].
    intros j Hj. destruct (decide (j = e)) as [->|Hne].
    + apply family_insert_home; [by apply Hfam|apply lookup_delete_eq|done|done].
    + apply family_insert_other; [by apply Hfam| |simpl; fold idx; congruence].
      intros (l & Hl & _). by rewrite lookup_delete_eq in Hl.
  - destruct (proj2 (Hd idx)) as [pos Hpos]; [apply Hf|]. rewrite Hpos, bind_Some_eq, put_Some, bind_Some_eq by by apply Hd.
    change (hash_mask (rec_hashnr record_bytes h (data pos)) (2 ^ k) N) with (f (data pos)). assert (delete e d !! idx = Some pos) as Hpos' by by rewrite lookup_delete_ne.
    assert (delete e d !! e = None) as He' by apply lookup_delete_eq.
    destruct (Z.eqb_spec idx (f (data pos))) as [Hown|Hother].
    + rewrite put_Some by (apply slots_insert with (n := N); [done|done|apply Hf]). eexists. split; [reflexivity|].
      split; [apply slots_insert; [by apply slots_insert|apply Hf]|].
      rewrite <- (insert_delete_eq d e). split.
      * intros j Hj. apply family_push; auto.
      * rewrite <- (insert_delete_id (<[e := pos]> _) idx pos) at 1 by (by rewrite lookup_insert_ne).
        rewrite insert_insert_eq, contents_insert by apply lookup_delete_eq. simpl. f_equiv.
        rewrite delete_insert_ne by done. by apply contents_move.
    + destruct (displace fuel d f N e idx pos r) as (z & Hz & _ & Hmove & Hres); try done; try apply Hf.
      rewrite put_Some by (apply slots_insert with (n := N); [done|done|apply Hf]). rewrite bind_Some_eq, Hmove.
      eexists. split; [done|]. by rewrite alter_insert_ne.
Qed.

(** ** Insertion *)

Lemma split_loop_spec h k half p d0 : blength h = 2 ^ k -> records h < 2 ^ 30 - 1 ->
  forall R fuel idx s D L H lf lu hf hu,
    split_inv d0 (home h k (records h)) (rec_hashnr record_bytes h) p (records h) half s D L H (idx :: R) idx lf lu hf hu ->
    (length R < fuel)%nat ->
    exists s' D' L' H' lf' lu' hf' hu',
      split_loop record_bytes fuel h half p idx s = Some s' /\
      split_inv d0 (home h k (records h)) (rec_hashnr record_bytes h) p (records h) half s' D' L' H' [] NO_RECORD lf' lu' hf' hu'.
Proof.
  intros Hb Hn R. induction R as [|x R IH]; intros fuel idx s D L H lf lu hf hu Hi Hf.
  all: destruct fuel as [|fuel]; [simpl in Hf; lia|]; cbn [split_loop].
  all: destruct (split_step_spec _ _ _ _ _ _ _ _ _ _ _ _ _ _ _ _ Hi) as
    (pos & Hpos & Hp & s' & D' & L' & H' & lf' & lu' & hf' & hu' & Hst & Hi').
  all: rewrite Hpos, bind_Some_eq, Hb; unfold home in Hp; rewrite Hp, Z.eqb_refl; cbn [negb]; rewrite andb_false_r.
  all: rewrite Hst, bind_Some_eq.
  all: destruct (split_rest _ _ _ _ _ _ _ _ _ _ _ _ _ _ _ _ Hi' Hn) as [[E ?]|(E & R' & E')]; try done.
  - rewrite E in *. cbn [negb Z.eqb]. rewrite Z.eqb_refl. cbn [negb]. by do 8 eexists.
  - rewrite (proj2 (Z.eqb_neq _ _) E). cbn [negb]. injection E' as -> <-. eapply IH; [exact Hi'|]. simpl in Hf. lia.
Qed.

(** The split of the chain at [p] makes room for the new slot. *)
Lemma split_spec h k junk p : wf h -> blength h = 2 ^ k -> 1 <= k -> records h < 2 ^ 30 - 1 -> p = records h - 2 ^ (k - 1) ->
  let n := records h in let half := 2 ^ (k - 1) in
  exists s d, split_loop record_bytes (S (S (Z.to_nat n))) h half p p (mkSplit 0 0 0 0 0 n (<[n := junk]> (array h))) = Some s /\
    split_end s = Some d /\ slots d (n + 1) /\ 0 <= empty_pos s < n + 1 /\
    (forall j, 0 <= j < n + 1 -> family (delete (empty_pos s) d) (home h k (n + 1)) j) /\
    contents (delete (empty_pos s) d) ≡ₚ contents (array h).
Proof.
  intros (k' & Hb' & Hsh & Hsl & Hfam) Hb Hk Hn30 Hp n half.
  assert (k' = k) as -> by (apply (Z.pow_inj_r 2); destruct Hsh; lia).
  destruct (pow2_half k Hk) as (E1 & E2 & E3). destruct (Hsh) as [Hk31 Hn]. rewrite E1 in Hn.
  fold n in Hsl, Hfam, Hn, Hn30, Hp. fold half in E3, Hn, E2.
  assert (array h !! n = None) as Hdn.
  { destruct (array h !! n) eqn:E; [|done]. assert (is_Some (array h !! n)) as Hs by by eexists. apply Hsl in Hs. lia. }
  assert (slots (<[n := junk]> (array h)) (n + 1)) as Hsl1.
  { intros i. destruct (decide (n = i)) as [<-|Hne].
    - rewrite lookup_insert_eq. split; [lia|by eauto].
    - rewrite lookup_insert_ne, (Hsl i) by done. lia. }
  set (f := home h k n) in *.
  assert (forall r, home h k (n + 1) r = if (f r =? p) && negb (Z.land (rec_hashnr record_bytes h r) half =? 0) then n else f r) as Hf'.
  { intros r. rewrite Hp. by apply hash_mask_step. }
  assert (forall r, f r <> n) as Hfn.
  { intros r. assert (0 <= f r < n); [|lia]. apply hash_mask_range; [lia..|]. rewrite E1. fold half. lia. }
  assert (is_Some (array h !! p)) as [pos Hpos] by (apply Hsl; lia).
  destruct (decide (f (data pos) = p)) as [Hown|Hown].
  - destruct (family_chain (array h) f p p) as (c & Hnd & Hc & Hs); [apply Hfam; lia|by exists pos|].
    assert (split_inv (array h) f (rec_hashnr record_bytes h) p n half (mkSplit 0 0 0 0 0 n (<[n := junk]> (array h)))
      (array h) [] [] (p :: c) p false false false false) as Hinv.
    { assert (forall i, i ∈ p :: c -> i <> n) as Hcn.
      { intros i (l & Hl & _)%Hc ->. congruence. }
      constructor; [done|done|done|done| |done]. constructor; cbn; try apply part_nil.
      - eapply (seg_insert _ (p :: c)); [exact Hs|]. intros Hin. by apply (Hcn n).
      - intros i Hi. rewrite lookup_insert_ne; [done|]. intros <-. by apply (Hcn n).
      - split_and!; try done.
      - intros i Hi _ _. by rewrite lookup_insert_ne.
      - done.
      - intros i Hi%Hsl. lia.
      - lia. }
    destruct (split_loop_spec h k half p (array h) Hb Hn30 c (S (S (Z.to_nat n))) _ _ _ _ _ _ _ _ _ Hinv)
      as (s & D & L & H & lf & lu & hf & hu & Hloop & Hi').
    { apply NoDup_cons in Hnd as [_ Hnd]. assert (length c <= Z.to_nat n)%nat; [|lia]. apply chain_length; [done|].
      intros i Hi. apply Hsl. destruct (proj1 (Hc i)) as (l & Hl & _); [by apply list_elem_of_further|by eexists]. }
    destruct (split_end_spec _ _ _ _ _ _ _ _ _ _ _ _ _ _ Hi') as (d & Hend & Hsd & HD).
    exists s, d. rewrite HD. destruct (Hi') as [_ _ _ _ [_ _ _ _ (_ & _ & Hcont & _) _ _ _ Hfree] _].
    split; [done|]. split; [done|]. split; [done|]. split; [done|]. split; [|done].
    eapply split_families; [exact Hi'|lia|done|done|exact Hfam].
  - exists (mkSplit 0 0 0 0 0 n (<[n := junk]> (array h))), (<[n := junk]> (array h)).
    cbn [split_loop sdata empty_pos flag]. rewrite lookup_insert_ne, Hpos, bind_Some_eq, Hb by lia.
    change (hash_mask (rec_hashnr record_bytes h (data pos)) (2 ^ k) (records h)) with (f (data pos)).
    rewrite (proj2 (Z.eqb_neq _ _) Hown). rewrite delete_insert_id by done. split_and!; try done; [lia..|].
    assert (forall i, ~ member (array h) f p i) as Hno.
    { apply family_empty; [apply Hfam; lia|]. intros (l & Hl & E). congruence. }
    intros j Hj. destruct (decide (j = n)) as [->|Hjn].
    + apply family_none. intros i (l & Hl & E). rewrite Hf' in E. apply (Hno i). exists l. split; [done|].
      destruct (Z.eqb_spec (f (data l)) p) as [->|?]; [done|]. cbn [andb] in E. by apply Hfn in E.
    + eapply family_frame with (d := array h) (f := home h k (n + 1)); try done.
      destruct (Hfam j) as (c & Hnd & Hc & Hs); [lia|]. exists c. split; [done|]. split; [|done].
      intros i. rewrite Hc. split; intros (l & Hl & E); exists l; (split; [done|]); rewrite Hf' in *.
      all: destruct (Z.eqb_spec (f (data l)) p) as [Ep|?]; [destruct (Hno i); by exists l|done].
Qed.

(** The loop, or nothing in a table without records, leaves a free slot. *)
Lemma make_room h k junk : wf h -> blength h = 2 ^ k -> 0 <= k -> records h < 2 ^ 30 - 1 ->
  let n := records h in let first := u32 (n - Z.shiftr (blength h) 1) in
  exists d e,
    (if negb (first =? n) then
       s ← split_loop record_bytes (S (S (Z.to_nat n))) h (Z.shiftr (blength h) 1) first first
             (mkSplit 0 0 0 0 0 n (<[n := junk]> (array h)));
       d ← split_end s;
       Some (d, empty_pos s)
     else Some (<[n := junk]> (array h), n)) = Some (d, e) /\
    slots d (n + 1) /\ 0 <= e < n + 1 /\ (forall j, 0 <= j < n + 1 -> family (delete e d) (home h k (n + 1)) j) /\
    contents (delete e d) ≡ₚ contents (array h).
Proof.
  intros Hwf Hb Hk0 Hn30 n first. destruct (Hwf) as (k' & Hb' & Hsh & Hsl & Hfam).
  assert (k' = k) as ->.
  { destruct Hsh. apply (Z.pow_inj_r 2); [lia..|]. rewrite <- Hb', Hb. done. }
  fold n in Hsh, Hsl, Hn30. destruct (shape_bounds k n Hsh) as [Hn0 [[-> Hn]|[Hk Hn]]].
  - exists (<[n := junk]> (array h)), n. unfold first. rewrite Hb, Hn. cbn [negb Z.eqb]. 
    assert (forall i, array h !! i = None) as Hnone.
    { intros i. destruct (array h !! i) eqn:E; [|done]. assert (is_Some (array h !! i)) as Hs by by eexists. apply Hsl in Hs. lia. }
    split; [done|]. rewrite delete_insert_id by apply Hnone. split; [|split; [lia|split; [|done]]].
    + intros i. destruct (decide (0 = i)) as [<-|Hne]; [rewrite lookup_insert_eq; split; [lia|by eauto]|].
      rewrite lookup_insert_ne, Hnone by done. split; [by intros [? ?]|lia].
    + intros j _. apply family_none. intros i (l & Hl & _). by rewrite Hnone in Hl.
  - destruct (pow2_half k Hk) as (E1 & E2 & E3). destruct (Hsh) as [Hk31 Hnb].
    assert (2 ^ k <= 2 ^ 30) by (apply Z.pow_le_mono_r; lia).
    assert (Z.shiftr (blength h) 1 = 2 ^ (k - 1)) as Hshift by (rewrite Hb, Z.shiftr_div_pow2 by lia; exact E1).
    assert (first = n - 2 ^ (k - 1)) as Hfirst by (unfold first; rewrite Hshift; apply u32_small; lia).
    rewrite Hshift, (proj2 (Z.eqb_neq first n)) by lia. cbn [negb].
    destruct (split_spec h k junk first) as (s & d & Hloop & Hend & Hsd & He & Hfd & Hcd); [done..|].
    exists d, (empty_pos s). fold n in Hloop. by rewrite Hloop, bind_Some_eq, Hend, bind_Some_eq.
Qed.

Lemma wf_intro h k n b d : blength h = 2 ^ k -> 0 <= k < 31 -> 1 <= n < 2 ^ 30 -> 2 ^ k / 2 <= n <= 2 ^ k ->
  slots d n -> (forall j, 0 <= j < n -> family d (home h k n) j) ->
  b = (if n =? blength h then u32 (blength h + blength h) else blength h) -> wf (set_table n b d h).
Proof.
  intros Hb Hk Hn Hnb Hsl Hfam ->. rewrite Hb. destruct (Z.eqb_spec n (2 ^ k)) as [E|E].
  - assert (k < 30) by (apply (Z.pow_lt_mono_r_iff 2); lia).
    assert (2 ^ (k + 1) = 2 ^ k + 2 ^ k) as E2 by (rewrite Z.pow_add_r by lia; lia).
    exists (k + 1). cbn. rewrite u32_small, E2 by (assert (2 ^ k < 2 ^ 30) by lia; lia). split; [done|].
    split; [split; [lia|]; rewrite E2; replace (2 ^ k + 2 ^ k) with (2 ^ k * 2) by lia; rewrite Z.div_mul by lia; lia|].
    split; [done|]. intros j Hj. apply family_ext with (f := home h k n); [|by apply Hfam].
    intros r. unfold home. rewrite E, hash_mask_double by lia. done.
  - exists k. cbn. split; [done|]. split; [split; [lia|lia]|]. split; [done|]. exact Hfam.
Qed.

Lemma hash_insert_spec h r junk : wf h -> records h < 2 ^ 30 - 1 ->
  exists d b, my_hash_insert record_bytes h r true junk = Some (set_table (records h + 1) b d h, false) /\
    wf (set_table (records h + 1) b d h) /\ contents d ≡ₚ r :: contents (array h).
Proof.
  intros Hwf Hn. destruct (Hwf) as (k & Hb & Hsh & _). destruct (shape_bounds _ _ Hsh) as [Hn0 Hk0].
  destruct (Hsh) as [Hk Hnb]. destruct (make_room h k junk Hwf Hb ltac:(lia) Hn) as (d1 & e & Hroom & Hs1 & He & Hf1 & Hc1).
  assert (u32 (records h + 1) = records h + 1) as Hu by (apply u32_small; lia).
  destruct (place_spec (S (S (Z.to_nat (records h)))) h k r d1 e (records h + 1)) as (d & Hplace & Hs & Hf & Hc); try done; try lia.
  exists d, (if records h + 1 =? blength h then u32 (blength h + blength h) else blength h).
  unfold my_hash_insert. cbn [negb]. rewrite Hroom, bind_Some_eq, Hplace, bind_Some_eq, Hu. split; [done|].
  split; [|by rewrite Hc, Hc1]. apply wf_intro with (k := k); try done; lia.
Qed.

(** ** Deletion *)

Lemma slots_delete_last d n : slots d (n + 1) -> slots (delete n d) n.
Proof.
  intros Hd i. destruct (decide (n = i)) as [<-|Hne].
  - rewrite lookup_delete_eq. split; [by intros [? ?]|lia].
  - rewrite lookup_delete_ne, (Hd i) by done. lia.
Qed.

(** The slot [n] of the array [d] is given up while the slot [e] is free: its
    record [l] goes to its home [p] without the slot. *)
Section last_slot.
Variables (fuel : nat) (n q e p : Z) (d : links) (f f' : Z -> Z) (l : HASH_LINK).
Hypothesis homes : forall r, f' r = if f r =? n then q else f r.
Hypothesis parent : 0 <= q < n.
Hypothesis range : forall r, 0 <= f' r < n.
Hypothesis d_slots : slots d (n + 1).
Hypothesis n_small : n < 2 ^ 30 - 1.
Hypothesis e_slot : 0 <= e < n.
Hypothesis enough : (Z.to_nat (n + 1) <= fuel)%nat.
Hypothesis fam : forall j, 0 <= j <= n -> family (delete e d) f j.
Hypothesis at_n : delete e d !! n = Some l.
Hypothesis l_home : f' (data l) = p.

(** What is to show of the links [r] an operation gives. *)
Definition given_up (r : option links) : Prop :=
  exists d', r = Some d' /\ slots d' (n + 1) /\ (forall j, 0 <= j < n -> family (delete n d') f' j) /\
    contents (delete n d') ≡ₚ contents (delete e d).

Lemma chain_of_free j c : NoDup c -> (forall i, i ∈ c -> member (delete e d) f j i) -> (length c <= fuel)%nat /\ e ∉ c.
Proof.
  intros Hnd Hc. assert (forall i, i ∈ c -> i <> e /\ 0 <= i < n + 1) as Hi.
  { intros i (l' & [? Hl']%lookup_delete_Some & _)%Hc. split; [done|]. apply d_slots. by eexists. }
  split; [|intros Hin; by destruct (Hi e Hin)]. etransitivity; [|exact enough].
  apply chain_length; [done|]. intros i Hin. by apply Hi.
Qed.

Lemma move_to_free : delete n (<[e := l]> d) = <[e := l]> (delete n (delete e d)).
Proof. rewrite delete_insert_ne, (delete_delete d n e), insert_delete_eq by lia. done. Qed.

Lemma give_up_home : p = e -> given_up (put d e l).
Proof.
  intros Hpe. exists (<[e := l]> d). rewrite put_Some by (apply d_slots; lia).
  split; [done|]. split; [apply slots_insert; [done|lia]|]. rewrite move_to_free.
  split; [|apply contents_move; [done|apply lookup_delete_eq]].
  destruct (merge_lone f f' n q homes parent (delete e d) l p) as [Hln Hpq]; try done; [lia|by rewrite Hpe, lookup_delete_eq|].
  assert (e = q) as Heq by congruence. 
  assert (<[e := l]> (delete n (delete e d)) = <[q := l]> (delete n (delete e d))) as -> by congruence.
  apply (merge_head f f' n q homes parent); [rewrite <- Heq; apply lookup_delete_eq|done..].
Qed.

Lemma give_up_swap P : p <> e -> delete e d !! p = Some P -> f' (data P) <> p ->
  given_up (d ← put d e P; d ← put d p l; movelink fuel d p (f' (data P)) e).
Proof.
  intros Hpe HP HPp. assert (0 <= p < n) as Hp by (rewrite <- l_home; apply range).
  destruct (merge_swap f f' n q homes parent (delete e d) e l p P) as (c1 & z & c2 & Hnd & Hm & Hs & Hzn & Hfam');
    try done; [apply lookup_delete_eq|].
  apply NoDup_app in Hnd as (N1 & N2 & _).
  destruct (chain_of_free (f' (data P)) (c1 ++ [z])) as [Hlen Hec]; [done|intros i Hi; apply Hm, elem_of_app; by left|].
  assert (p ∉ c1 ++ [z]) as Hpc by (intros Hin; apply (N2 p Hin), list_elem_of_here).
  assert (z <> p /\ z <> e) as [Hzp Hze].
  { split; intros E; [apply Hpc|apply Hec]; rewrite <- E; apply elem_of_app; right; apply list_elem_of_here. }
  rewrite put_Some, bind_Some_eq by (apply d_slots; lia).
  rewrite put_Some, bind_Some_eq by (apply (slots_insert _ (n + 1)); [done|lia..]).
  rewrite (movelink_spec _ _ _ c1 z); [| |done|rewrite length_app in Hlen; simpl in Hlen; lia].
  2: { apply seg_insert; [|done]. rewrite <- insert_delete_eq. by apply seg_insert. }
  eexists. split; [done|]. split; [apply slots_relink, slots_insert; [apply slots_insert; [done|lia]|lia]|].
  assert (delete n (alter (relink e) z (<[p := l]> (<[e := P]> d))) =
    <[p := l]> (delete n (alter (relink e) z (<[e := P]> (delete p (delete e d)))))) as ->.
  { apply map_eq. intros i. repeat (rewrite lookup_delete || rewrite lookup_alter || rewrite lookup_insert).
    repeat case_decide; simplify_eq; done || lia. }
  split; [exact Hfam'|]. rewrite contents_insert.
  2: { rewrite lookup_delete_ne, lookup_alter_ne, lookup_insert_ne, lookup_delete_eq by (done || lia). done. }
  rewrite <- contents_delete.
  2: { rewrite lookup_alter_ne, lookup_insert_ne, lookup_delete_ne by (done || lia). done. }
  rewrite contents_relink. apply contents_move; [done|apply lookup_delete_eq].
Qed.

Lemma give_up_same P : p <> e -> delete e d !! p = Some P -> f (data l) = p ->
  given_up (d ← put d e l; movelink fuel d n p e).
Proof.
  intros Hpe HP Hlp. assert (0 <= p < n) as Hp by (rewrite <- l_home; apply range).
  destruct (merge_same f f' n q homes parent (delete e d) e l p P) as (c1 & z & c2 & Hnd & Hm & Hs & Hfam');
    try done; [apply lookup_delete_eq|].
  apply NoDup_app in Hnd as (N1 & N2 & _).
  destruct (chain_of_free p (c1 ++ [z])) as [Hlen Hec]; [done|intros i Hi; apply Hm, elem_of_app; by left|].
  assert (n ∉ c1 ++ [z]) as Hnc by (intros Hin; apply (N2 n Hin), list_elem_of_here).
  assert (z <> n) as Hzn by (intros E; apply Hnc; rewrite <- E; apply elem_of_app; right; apply list_elem_of_here).
  rewrite put_Some, bind_Some_eq by (apply d_slots; lia).
  rewrite (movelink_spec _ _ _ c1 z); [| |done|rewrite length_app in Hlen; simpl in Hlen; lia].
  2: { rewrite <- insert_delete_eq. by apply seg_insert. }
  eexists. split; [done|]. split; [apply slots_relink, slots_insert; [done|lia]|].
  rewrite delete_alter_ne, move_to_free by done. split; [exact Hfam'|].
  rewrite contents_relink. apply contents_move; [done|apply lookup_delete_eq].
Qed.

Lemma give_up_join P : p <> e -> delete e d !! p = Some P -> f' (data P) = p ->
  f (data l) <> f (data P) \/ f (data l) = n ->
  given_up (d ← put d e l; pos ← d !! p;
            d ← movelink fuel d (if f (data l) =? f (data P) then p else NO_RECORD) e (next pos); put_next d p e).
Proof.
  intros Hpe HP HPp Hcase. assert (0 <= p < n) as Hp by (rewrite <- l_home; apply range).
  destruct (merge_chains f f' n q homes parent (delete e d) l p P) as (Hpq & c1 & c2 & Hs1 & Hs2 & Hnd & Hm); try done.
  set (m := if f (data l) =? f (data P) then p else NO_RECORD) in *.
  destruct (exists_last (l := e :: c1)) as (c1' & z & Hz); [done|].
  assert (forall i, i ∈ n :: q :: c1 ++ c2 -> i <> e /\ 0 <= i < n + 1) as Hin.
  { intros i (l' & [? Hl']%lookup_delete_Some & _)%Hm. split; [done|]. apply d_slots. by eexists. }
  destruct (proj1 (NoDup_cons _ _) Hnd) as [N1 N2]. apply NoDup_cons in N2 as [N2 N3].
  rewrite not_elem_of_cons, not_elem_of_app in N1. rewrite not_elem_of_app in N2. apply NoDup_app in N3 as (N3 & _ & _).
  assert (e ∉ c1) as Hec.
  { intros Hi. destruct (Hin e); [|done]. rewrite !elem_of_cons, elem_of_app. tauto. }
  assert (m ∉ e :: c1) as Hmc.
  { rewrite not_elem_of_cons. unfold m. destruct (f (data l) =? f (data P)); [rewrite Hpq in *; split; [done|tauto]|].
    change NO_RECORD with 4294967295. split; [lia|]. intros Hi. destruct (Hin 4294967295); [|lia].
    rewrite !elem_of_cons, elem_of_app. tauto. }
  assert (z ∈ e :: c1) as Hze by (rewrite Hz; apply elem_of_app; right; apply list_elem_of_here).
  assert (z <> n) as Hzn by (intros ->; apply elem_of_cons in Hze as [?|?]; [lia|tauto]).
  pose proof (chain_length _ (n + 1) Hnd (fun i Hi => proj2 (Hin i Hi))) as Hlen.
  simpl in Hlen. rewrite length_app in Hlen.
  rewrite put_Some, bind_Some_eq by (apply d_slots; lia).
  rewrite <- (insert_delete_eq d e), lookup_insert_ne, HP, bind_Some_eq by done. rewrite insert_delete_eq.
  rewrite (movelink_spec _ _ _ c1' z); cycle 1.
  { rewrite <- Hz. split; [done|]. exists l. rewrite lookup_insert_eq. split; [done|].
    rewrite <- insert_delete_eq. by apply seg_insert. }
  { by rewrite <- Hz. }
  { apply (f_equal length) in Hz. rewrite length_app in Hz. simpl in Hz. lia. }
  rewrite bind_Some_eq, put_next_Some by (apply slots_relink with (n := n + 1); [apply slots_insert; [done|lia]|lia]).
  eexists. split; [done|]. split; [apply slots_relink, slots_relink, slots_insert; [done|lia]|].
  rewrite !delete_alter_ne, move_to_free by (done || lia). split.
  - rewrite Hpq. apply merge_join with (f := f) (n := n) (c1 := c1) (c2 := c2) (m := m) (c1' := c1'); try done.
    + apply lookup_delete_eq.
    + by rewrite <- Hpq.
    + intros j Hj. apply fam. lia.
  - rewrite !contents_relink. apply contents_move; [done|apply lookup_delete_eq].
Qed.
End last_slot.

Lemma move_last_spec fuel h blen k n q d e f f' :
  (forall r, hash_mask (rec_hashnr record_bytes h r) (2 ^ k) n = f' r) ->
  (forall r, hash_mask (rec_hashnr record_bytes h r) blen (u32 (n + 1)) = f r) ->
  (forall r, f' r = if f r =? n then q else f r) -> 0 <= q < n -> (forall r, 0 <= f' r < n) ->
  slots d (n + 1) -> n < 2 ^ 30 - 1 -> 0 <= e < n + 1 -> (Z.to_nat (n + 1) <= fuel)%nat ->
  (forall j, 0 <= j <= n -> family (delete e d) f j) ->
  given_up n e d f' (move_last record_bytes fuel h blen (2 ^ k) n d e).
Proof.
  intros Hf' Hf homes parent Hr Hsl Hn30 He Hfuel Hfam. unfold move_last. destruct (Z.eqb_spec e n) as [->|Hen].
  { exists d. split_and!; try done. apply (merge_free f f' n q homes parent); [apply lookup_delete_eq|done]. }
  destruct (proj2 (Hsl n)) as [l Hl]; [lia|]. rewrite Hl, bind_Some_eq, !Hf', !Hf.
  assert (delete e d !! n = Some l) as Hl' by by rewrite lookup_delete_ne.
  destruct (Z.eqb_spec (f' (data l)) e) as [Hpe|Hpe].
  { eapply give_up_home; eauto. lia. }
  destruct (proj2 (Hsl (f' (data l)))) as [P HP]; [specialize (Hr (data l)); lia|]. rewrite HP, bind_Some_eq, !Hf', !Hf.
  assert (delete e d !! f' (data l) = Some P) as HP' by by rewrite lookup_delete_ne.
  destruct (Z.eqb_spec (f' (data l)) (f' (data P))) as [Hown|Hown]; cbn [negb].
  - destruct ((f (data l) =? f (data P)) && negb (f (data l) =? n)) eqn:Ecase; b2p.
    + eapply give_up_same; eauto; [lia|]. rewrite homes, (proj2 (Z.eqb_neq _ n)); done.
    + eapply give_up_join; eauto; [lia|]. destruct (Z.eqb_spec (f (data l)) (f (data P))); [right|by left].
      destruct (Z.eqb_spec (f (data l)) n); done.
  - eapply give_up_swap; eauto. lia.
Qed.

(** The search for the slot of a record. *)
Lemma find_record_wf h k r : wf h -> blength h = 2 ^ k -> shape k (records h) -> 1 <= records h ->
  let f := home h k (records h) in
  let found := find_record (S (S (Z.to_nat (records h)))) (array h) r None (f r) in
  (found = Some None /\ r ∉ contents (array h)) \/
  exists c1 x c2 l, found = Some (Some (last c1, x)) /\ array h !! x = Some l /\ data l = r /\
    NoDup (c1 ++ x :: c2) /\ (forall i, i ∈ c1 ++ x :: c2 <-> member (array h) f (f r) i) /\
    seg (array h) (f r) (c1 ++ x :: c2) NO_RECORD.
Proof.
  intros (k' & Hb' & Hsh' & Hsl & Hfam) Hb Hsh Hn f found.
  assert (k' = k) as -> by (apply (Z.pow_inj_r 2); [lia|apply Hsh'|apply Hsh|congruence]).
  destruct (Hsh) as [Hk Hnb]. destruct (shape_bounds _ _ Hsh) as [Hn30 _].
  assert (0 <= f r < records h) as Hfr by (apply hash_mask_range; lia).
  pose proof (NO_RECORD_out _ _ Hsl ltac:(lia)) as Hno.
  destruct (proj2 (Hsl (f r)) Hfr) as [pos Hpos]. destruct (decide (f (data pos) = f r)) as [Hown|Hown].
  - destruct (family_chain (array h) f (f r) (f r)) as (c & Hnd & Hc & Hs); [by apply Hfam|by exists pos|].
    destruct (chain_in _ _ _ _ _ Hsl Hnd (fun i => proj1 (Hc i))) as [Hlen _].
    destruct (find_record_spec (array h) r (f r :: c) (S (S (Z.to_nat (records h)))) None (f r) Hs) as
      [[Hr Hall]|(c1 & x & c2 & l & E & Hx & Hl & Hfound)]; [done|done|lia|..].
    + left. split; [done|]. intros (i & l & Hl & Hdl)%elem_of_contents. apply (Hall i l); [|done|done].
      apply Hc. exists l. by rewrite Hdl.
    + right. exists c1, x, c2, l. rewrite <- E. split_and!; try done. unfold found. rewrite Hfound.
      by destruct (last c1).
  - left. set (g := f (data pos)) in *. assert (0 <= g < records h) as Hg by (apply hash_mask_range; lia).
    destruct (chain_pred (array h) f g (f r) pos) as (c1 & z & c2 & Hnd & Hm & Hs1 & Hs2); [by apply Hfam|done|done|congruence|].
    assert (forall i, i ∈ f r :: c2 -> member (array h) f g i) as Hm2 by (intros i Hi; apply Hm, elem_of_app; by right).
    apply NoDup_app in Hnd as (_ & _ & Hnd).
    destruct (chain_in _ _ _ _ _ Hsl Hnd Hm2) as [Hlen _].
    assert (r ∉ contents (array h)) as Hr.
    { intros (i & l & Hl & Hdl)%elem_of_contents. apply (family_empty (array h) f (f r)) with (i := i); [by apply Hfam| |].
      - intros (l' & Hl' & E). rewrite Hpos in Hl'. by injection Hl' as <-.
      - exists l. by rewrite Hdl. }
    split; [|done].
    destruct (find_record_spec (array h) r (f r :: c2) (S (S (Z.to_nat (records h)))) None (f r)) as
      [[? _]|(c1' & x & c2' & l & E & Hx & Hl & Hfound)]; [by split; [done|exists pos]|done|done|lia|done|].
    destruct Hr. apply elem_of_contents. eauto.
Qed.

Lemma hash_delete_spec h r : wf h ->
  (r ∉ contents (array h) -> hash_delete record_bytes h r = Some (h, true, [])) /\
  (r ∈ contents (array h) -> exists b d,
     hash_delete record_bytes h r = Some (set_table (records h - 1) b d h, false, if free h then [r] else []) /\
     wf (set_table (records h - 1) b d h) /\ contents (array h) ≡ₚ r :: contents d).
Proof.
  intros Hwf. destruct (Hwf) as (k & Hb & Hsh & Hsl & Hfam). destruct (shape_bounds _ _ Hsh) as [Hn30 Hk0].
  unfold hash_delete. destruct (Z.eqb_spec (records h) 0) as [E0|E0].
  { split; [done|]. intros (i & l & Hl & _)%elem_of_contents. assert (is_Some (array h !! i)) as Hi%Hsl by by eexists. lia. }
  rewrite Hb. fold (home h k (records h) r).
  destruct (find_record_wf h k r Hwf Hb Hsh ltac:(lia)) as [[-> Hno]|(c1 & x & c2 & l & -> & Hx & Hl & Hnd & Hm & Hs)].
  { rewrite bind_Some_eq. by split. }
  split; [intros Hno; destruct Hno; apply elem_of_contents; eauto|]. intros _. rewrite bind_Some_eq.
  destruct (unlink_spec _ _ _ _ _ _ _ _ Hsl ltac:(lia) Hx Hnd Hm Hs) as (d1 & e & -> & Hsl1 & [He _] & Hfam1 & Hcont).
  rewrite bind_Some_eq, u32_small by lia. remember (records h - 1) as n eqn:Hdef.
  assert (records h = n + 1) as HN by lia. rewrite HN in *. clear Hdef.
  set (k' := if n <? 2 ^ k / 2 then k - 1 else k).
  destruct (Hsh) as [Hk31 Hnb]. destruct (pow2_half k) as (E1 & E2 & E3); [lia|].
  assert ((if n <? Z.shiftr (2 ^ k) 1 then Z.shiftr (2 ^ k) 1 else 2 ^ k) = 2 ^ k') as ->.
  { rewrite Z.shiftr_div_pow2 by lia. change (2 ^ 1) with 2. unfold k'. rewrite E1. by case_if. }
  assert (exists d', move_last record_bytes (S (S (Z.to_nat (n + 1)))) h (2 ^ k) (2 ^ k') n d1 e = Some d' /\
    slots d' (n + 1) /\ contents (delete n d') ≡ₚ contents (delete e d1) /\ wf (set_table n (2 ^ k') (delete n d') h)) as
    (d' & Hmove & Hsl' & Hcont' & Hwf').
  { destruct (decide (n = 0)) as [Hn0|Hn0].
    - assert (e = n) as -> by lia. exists d1. unfold move_last. rewrite Z.eqb_refl. split; [done|]. split; [done|]. split; [done|].
      rewrite Hn0 in *. assert (k' = 0) as ->.
      { assert (k = 1) as Hk1; [|unfold k'; by rewrite Hk1, Hn0]. destruct (decide (2 <= k)); [|lia].
        assert (2 ^ 1 <= 2 ^ (k - 1)) by (apply Z.pow_le_mono_r; lia). lia. }
      exists 0. cbn. split; [done|]. split; [split; [lia|done]|]. split; [by apply slots_delete_last|]. intros j Hj. lia.
    - destruct (hash_mask_shrink k n Hsh ltac:(lia)) as (Hsh' & Hk' & Hq & Hmask). fold k' in Hsh', Hk', Hq, Hmask.
      destruct (Hsh') as [Hk'31 Hn'].
      destruct (move_last_spec (S (S (Z.to_nat (n + 1)))) h (2 ^ k) k' n (n - 2 ^ (k' - 1)) d1 e (home h k (n + 1)) (home h k' n))
        as (d' & ? & ? & Hf' & ?); try done; try lia.
      + intros r'. by rewrite u32_small by lia.
      + intros r'. apply Hmask.
      + intros r'. apply hash_mask_range; lia.
      + intros j Hj. apply Hfam1, Hfam. lia.
      + exists d'. split_and!; try done. exists k'. cbn. split; [done|]. split; [done|]. split; [by apply slots_delete_last|]. exact Hf'. }
  rewrite Hmove, bind_Some_eq. exists (2 ^ k'), (delete n d'). split; [done|]. split; [done|]. by rewrite Hcont, Hcont', Hl.
Qed.

(** ** Search *)

Section searching.
Context {laws : CollationLaws coll}.
Variables (h : HASH) (key : list Z) (length : Z).

(** Does the record have the key? *)
Definition matches (r : Z) : bool := hashcmp record_bytes h (mkLink 0 r) key length.

(** A key function must not depend on its flag, and a search without a
    length is for tables with keys of one length. *)
Definition keys_ok : Prop :=
  (forall r b, hash_key record_bytes h r b = hash_key record_bytes h r false) /\
  (forall r, Z.of_nat (List.length (hash_key record_bytes h r false)) < 2 ^ 32) /\
  (length <> 0 \/ forall r, Z.of_nat (List.length (hash_key record_bytes h r false)) = key_length h).

Lemma matches_hash r : keys_ok -> matches r = true ->
  rec_hashnr record_bytes h r = calc_hash (search_key h key length).
Proof.
  intros (Hfirst & Hwidth & Hlen) Hm. unfold matches, hashcmp in Hm. cbn [data] in Hm. rewrite Hfirst in Hm.
  set (k := hash_key record_bytes h r false) in *. b2p. unfold rec_hashnr. fold k. unfold calc_hash. f_equal. f_equal.
  assert (search_key h key length = take (Z.to_nat (Z.of_nat (List.length k))) key) as ->.
  2: { specialize (Hwidth r). fold k in Hwidth. apply coll_hash; [done| |done]. rewrite length_take. lia. }
  unfold search_key. f_equal. f_equal. destruct (Z.eqb_spec length 0) as [E|E]; cbn [negb andb] in *.
  - destruct Hlen as [?|Hlen]; [done|]. symmetry. apply Hlen.
  - by b2p.
Qed.

(** The records of a chain that have the key, in its order. *)
Definition hits (d : links) (c : list Z) : list Z := filter (fun r => matches r = true) (omap (fun i => data <$> d !! i) c).

Lemma hits_cons d i l c : d !! i = Some l -> hits d (i :: c) = (if matches (data l) then [data l] else []) ++ hits d c.
Proof. intros Hi. unfold hits. simpl. rewrite Hi. simpl. rewrite filter_cons. by destruct (matches (data l)). Qed.

Lemma next_loop_spec c : forall fuel idx, seg (array h) idx c NO_RECORD -> array h !! NO_RECORD = None -> (List.length c < fuel)%nat ->
  (hits (array h) c = [] /\ next_loop record_bytes fuel h key length idx = Some (set_current NO_RECORD h, 0)) \/
  (exists x l c2, array h !! x = Some l /\ seg (array h) (next l) c2 NO_RECORD /\ (List.length c2 < List.length c)%nat /\
    hits (array h) c = data l :: hits (array h) c2 /\ next_loop record_bytes fuel h key length idx = Some (set_current x h, data l)).
Proof.
  induction c as [|a c IH]; intros fuel idx Hs Hno Hf; (destruct fuel as [|fuel]; [simpl in Hf; lia|]); cbn [next_loop].
  - simpl in Hs. rewrite Hs, Z.eqb_refl. by left.
  - destruct Hs as (-> & l & Hl & Hs). rewrite (proj2 (Z.eqb_neq a NO_RECORD)) by congruence. cbn [negb].
    rewrite Hl, bind_Some_eq. change (hashcmp record_bytes h l key length) with (matches (data l)).
    rewrite (hits_cons _ _ _ _ Hl). destruct (matches (data l)) eqn:Em.
    + right. exists a, l, c. split_and!; try done. simpl. lia.
    + destruct (IH fuel (next l) Hs Hno) as [?|(x & l' & c2 & ? & ? & ? & ? & ?)]; [simpl in Hf; lia|by left|].
      right. exists x, l', c2. split_and!; try done. simpl. lia.
Qed.
End searching.

(** The records that [hash_next] gives after a search, and all records of a
    search. *)
Fixpoint all_next (fuel : nat) (h : HASH) (key : list Z) (length : Z) : option (list Z) :=
  match fuel with
  | O => None
  | S fuel =>
      '(h, r) ← hash_next record_bytes h key length;
      if current_record h =? NO_RECORD then Some [] else rest ← all_next fuel h key length; Some (r :: rest)
  end.

Definition find_all (h : HASH) (key : list Z) (length : Z) : option (list Z) :=
  '(h, r) ← hash_search record_bytes h key length;
  if current_record h =? NO_RECORD then Some []
  else rest ← all_next (S (Z.to_nat (records h))) h key length; Some (r :: rest).

Lemma all_next_spec key length m : forall fuel h x l c, (List.length c <= m)%nat -> array h !! x = Some l -> x <> NO_RECORD ->
  seg (array h) (next l) c NO_RECORD -> array h !! NO_RECORD = None -> (List.length c < fuel)%nat ->
  (List.length c <= Z.to_nat (records h))%nat -> all_next fuel (set_current x h) key length = Some (hits h key length (array h) c).
Proof.
  induction m as [|m IH]; intros fuel h x l c Hm Hx Hxn Hs Hno Hf Hlen.
  all: destruct fuel as [|fuel]; [lia|]; cbn [all_next]; unfold hash_next; cbn [current_record set_current array records].
  all: rewrite (proj2 (Z.eqb_neq x NO_RECORD)) by done; cbn [negb]; rewrite Hx, bind_Some_eq.
  all: destruct (next_loop_spec (set_current x h) key length c (S (Z.to_nat (records h))) (next l) Hs Hno) as
    [[Hh ->]|(y & l' & c2 & Hy & Hs2 & Hc2 & Hh & ->)]; [lia|rewrite bind_Some_eq; cbn; by rewrite <- Hh|].
  - lia.
  - rewrite bind_Some_eq. cbn [current_record set_current].
    change (array (set_current x h)) with (array h) in *.
    rewrite (proj2 (Z.eqb_neq y NO_RECORD)) by congruence.
    change (set_current y (set_current x h)) with (set_current y h).
    rewrite (IH fuel h y l' c2), bind_Some_eq by (try done; try lia; congruence). f_equal. symmetry. exact Hh.
Qed.

Lemma hits_delete h key length d a c : a ∉ c -> hits h key length (delete a d) c = hits h key length d c.
Proof.
  intros Ha. unfold hits. f_equal. induction c as [|b c IH]; [done|]. apply not_elem_of_cons in Ha as [Hab Ha].
  simpl. rewrite lookup_delete_ne by done. destruct (data <$> d !! b); [f_equal|]; by apply IH.
Qed.

(** A chain that has every slot with the key has all the records with it. *)
Lemma contents_hits h key length c : forall d, NoDup c -> (forall i, i ∈ c -> is_Some (d !! i)) ->
  (forall i l, d !! i = Some l -> matches h key length (data l) = true -> i ∈ c) ->
  filter (fun r => matches h key length r = true) (contents d) ≡ₚ hits h key length d c.
Proof.
  induction c as [|a c IH]; intros d Hnd Hin Hall.
  - destruct (filter _ (contents d)) as [|r rs] eqn:E; [done|].
    assert (r ∈ filter (fun r => matches h key length r = true) (contents d)) as Hr by (rewrite E; apply list_elem_of_here).
    apply list_elem_of_filter in Hr as [Hr (i & l & Hl & <-)%elem_of_contents]. by apply Hall, not_elem_of_nil in Hl.
  - apply NoDup_cons in Hnd as [Ha Hnd]. destruct (Hin a) as [l Hl]; [apply list_elem_of_here|].
    rewrite (contents_delete d a l Hl), filter_cons, (hits_cons _ _ _ _ _ _ _ Hl), <- (hits_delete _ _ _ d a c) by done.
    assert (filter (fun r => matches h key length r = true) (contents (delete a d)) ≡ₚ hits h key length (delete a d) c) as IH'.
    { apply IH; [done|..].
      - intros i Hi. rewrite lookup_delete_ne by (by intros ->). by apply Hin, list_elem_of_further.
      - intros i l' [? Hl']%lookup_delete_Some Hm. specialize (Hall i l' Hl' Hm). apply elem_of_cons in Hall as [?|?]; congruence. }
    case_decide as Hm; [rewrite Hm; simpl; by f_equiv|]. destruct (matches h key length (data l)); [done|exact IH'].
Qed.

Lemma search_next key length c : forall fuel h a, seg (array h) a (a :: c) NO_RECORD -> array h !! NO_RECORD = None ->
  (List.length c < fuel)%nat ->
  search_loop record_bytes fuel h key length false a = next_loop record_bytes (S fuel) h key length a.
Proof.
  induction c as [|b c IH]; intros fuel h a (_ & l & Hl & Hs) Hno Hf; (destruct fuel as [|fuel]; [simpl in Hf; lia|]).
  all: cbn [search_loop next_loop andb]; rewrite (proj2 (Z.eqb_neq a NO_RECORD)) by congruence; cbn [negb].
  all: rewrite Hl, !bind_Some_eq; destruct (hashcmp _ _ _ _ _); [done|].
  - simpl in Hs. rewrite Hs, Z.eqb_refl. done.
  - destruct (Hs) as (E & l' & Hl' & _). rewrite E in *. rewrite (proj2 (Z.eqb_neq b NO_RECORD)) by congruence. cbn [negb].
    rewrite IH; [|done|done|simpl in Hf; lia]. cbn [next_loop]. by rewrite (proj2 (Z.eqb_neq b NO_RECORD)) by congruence.
Qed.

Lemma find_all_spec `{!CollationLaws coll} h key length : wf h -> keys_ok h length ->
  exists found, find_all h key length = Some found /\
    found ≡ₚ filter (fun r => matches h key length r = true) (contents (array h)).
Proof.
  intros (k & Hb & Hsh & Hsl & Hfam) Hkeys. destruct (Hsh) as [Hk Hnb]. destruct (shape_bounds _ _ Hsh) as [Hn30 _].
  pose proof (NO_RECORD_out _ _ Hsl ltac:(lia)) as Hno. unfold find_all, hash_search.
  destruct (Z.eqb_spec (records h) 0) as [E0|E0]; cbn [negb].
  { exists []. split; [done|]. rewrite (contents_hits h key length [] (array h)); [done|constructor|..].
    - intros i Hi. by apply not_elem_of_nil in Hi.
    - intros i l Hl _. assert (is_Some (array h !! i)) as Hi%Hsl by by eexists. lia. }
  set (f := home h k (records h)) in *. rewrite Hb.
  set (j := hash_mask (calc_hash (search_key h key length)) (2 ^ k) (records h)).
  assert (0 <= j < records h) as Hj by (apply hash_mask_range; lia).
  assert (forall r, matches h key length r = true -> f r = j) as Hmj.
  { intros r Hr. unfold f, home. by rewrite (matches_hash h key length r Hkeys Hr). }
  destruct (proj2 (Hsl j) Hj) as [pos Hpos]. cbn [search_loop]. rewrite Hpos, bind_Some_eq.
  change (hashcmp record_bytes h pos key length) with (matches h key length (data pos)).
  unfold hash_rec_mask. rewrite Hb. change (hash_mask (rec_hashnr record_bytes h (data pos)) (2 ^ k) (records h)) with (f (data pos)).
  destruct (Z.eqb_spec (f (data pos)) j) as [Hown|Hown].
  - destruct (family_chain (array h) f j j) as (c & Hnd & Hc & Hs); [by apply Hfam|by exists pos|].
    destruct (chain_in _ _ _ _ _ Hsl Hnd (fun i => proj1 (Hc i))) as [Hlen _]. simpl in Hlen.
    exists (hits h key length (array h) (j :: c)). split.
    2: { symmetry. apply contents_hits; [done|..].
         - intros i (l & Hl & _)%Hc. by eexists.
         - intros i l Hl Hm. apply Hc. exists l. split; [done|]. by apply Hmj. }
    pose proof (search_next key length c (S (Z.to_nat (records h))) h j Hs Hno ltac:(lia)) as Hnext.
    cbn [search_loop] in Hnext. rewrite Hpos, bind_Some_eq in Hnext.
    change (hashcmp record_bytes h pos key length) with (matches h key length (data pos)) in Hnext.
    cbn [andb negb] in Hnext |- *. rewrite Hnext. clear Hnext.
    destruct (next_loop_spec h key length (j :: c) (S (S (Z.to_nat (records h)))) j Hs Hno) as
      [[-> ->]|(x & l & c2 & Hx & Hs2 & Hc2 & -> & ->)]; [simpl; lia|done|].
    rewrite bind_Some_eq. cbn [current_record set_current records]. rewrite (proj2 (Z.eqb_neq x NO_RECORD)) by congruence.
    fold (set_current x h). simpl in Hc2. rewrite (all_next_spec key length (List.length c2) _ h x l c2) by (try done; try lia; congruence). done.
  - exists []. destruct (matches h key length (data pos)) eqn:Em; [by apply Hmj in Em|]. cbn [andb negb].
    split; [done|]. rewrite (contents_hits h key length [] (array h)); [done|constructor|..].
    + intros i Hi. by apply not_elem_of_nil in Hi.
    + intros i l Hl Hm%Hmj. exfalso. apply (family_empty (array h) f j) with (i := i); [by apply Hfam| |by exists l].
      intros (l' & Hl' & E). congruence.
Qed.

(** ** The table as a bag of records *)

Definition bag (h : HASH) : gmultiset Z := list_to_set_disj (contents (array h)).

Inductive call := Insert (record : Z) (ok : bool) (junk : HASH_LINK) | Delete (record : Z) | Reset.

(** The table after a call, and the code's result. *)
Definition do_call (h : HASH) (c : call) : option (HASH * bool) :=
  match c with
  | Insert r ok junk => my_hash_insert record_bytes h r ok junk
  | Delete r => '(h, missing, _) ← hash_delete record_bytes h r; Some (h, missing)
  | Reset => '(h, _) ← my_hash_reset h; Some (h, false)
  end.

(** The same on bags. *)
Definition bag_call (b : gmultiset Z) (c : call) : gmultiset Z * bool :=
  match c with
  | Insert r ok _ => if ok then ({[+ r +]} ⊎ b, false) else (b, true)
  | Delete r => (b ∖ {[+ r +]}, bool_decide (r ∉ b))
  | Reset => (∅, false)
  end.

Fixpoint run (h : HASH) (cs : list call) : option (HASH * list bool) :=
  match cs with
  | [] => Some (h, [])
  | c :: cs => '(h, r) ← do_call h c; '(h, rs) ← run h cs; Some (h, r :: rs)
  end.

Fixpoint bag_run (b : gmultiset Z) (cs : list call) : gmultiset Z * list bool :=
  match cs with
  | [] => (b, [])
  | c :: cs => let '(b, r) := bag_call b c in let '(b, rs) := bag_run b cs in (b, r :: rs)
  end.

Lemma elem_of_bag h r : r ∈ bag h <-> r ∈ contents (array h).
Proof. unfold bag. apply elem_of_list_to_set_disj. Qed.

Lemma bag_cons h h' r : contents (array h') ≡ₚ r :: contents (array h) -> bag h' = {[+ r +]} ⊎ bag h.
Proof. unfold bag. by intros ->. Qed.

Lemma elements_from_Some d i n m : slots d n -> 0 <= i -> i + Z.of_nat m <= n -> is_Some (elements_from d i m).
Proof.
  intros Hd. revert i. induction m as [|m IH]; intros i Hi Hm; cbn [elements_from]; [by eexists|].
  destruct (proj2 (Hd i)) as [l ->]; [lia|]. rewrite bind_Some_eq.
  destruct (IH (i + 1)) as [rest ->]; [lia..|]. rewrite bind_Some_eq. by eexists.
Qed.

Lemma wf_empty h : records h = 0 -> blength h = 1 -> array h = ∅ -> wf h /\ bag h = ∅.
Proof.
  intros Hr Hb Ha. split.
  - exists 0. rewrite Hr, Hb, Ha. split; [done|]. split; [split; [lia|done]|]. split; [|intros j Hj; lia].
    intros i. rewrite lookup_empty. split; [by intros [? ?]|lia].
  - unfold bag, contents. rewrite Ha, fmap_empty, map_to_list_empty. done.
Qed.

Lemma do_call_spec h c : wf h -> records h < 2 ^ 30 - 1 ->
  exists h' r, do_call h c = Some (h', r) /\ wf h' /\ bag_call (bag h) c = (bag h', r) /\ records h' <= records h + 1.
Proof.
  intros Hwf Hn. destruct c as [r ok junk|r|]; cbn [do_call bag_call].
  - destruct ok.
    + destruct (hash_insert_spec h r junk Hwf Hn) as (d & b & -> & Hwf' & Hc). eexists _, _. split; [done|].
      split; [done|]. split; [|cbn; lia]. f_equal. symmetry. by apply bag_cons.
    + exists h, true. split_and!; try done. lia.
  - destruct (hash_delete_spec h r Hwf) as [Hno Hyes]. destruct (decide (r ∈ contents (array h))) as [Hin|Hin].
    + destruct (Hyes Hin) as (b & d & -> & Hwf' & Hc). rewrite bind_Some_eq. eexists _, _. split; [done|]. split; [done|].
      split; [|cbn; lia]. rewrite bool_decide_false by (by rewrite elem_of_bag; intros []). f_equal.
      rewrite (bag_cons (set_table (records h - 1) b d h) h r Hc). multiset_solver.
    + rewrite (Hno Hin), bind_Some_eq. eexists _, _. split; [done|]. split; [done|]. split; [|lia].
      rewrite <- elem_of_bag in Hin. rewrite bool_decide_true by done. f_equal. multiset_solver.
  - unfold my_hash_reset, hash_free_elements. destruct (Hwf) as (k & _ & Hsh & Hsl & _).
    destruct (shape_bounds _ _ Hsh) as [Hn0 _].
    destruct (elements_from_Some (array h) 0 (records h) (Z.to_nat (records h)) Hsl) as [l Hl]; [lia..|].
    assert (exists freed, (if free h then elements_from (array h) 0 (Z.to_nat (records h)) else Some []) = Some freed) as [freed ->].
    { destruct (free h); eauto. }
    rewrite !bind_Some_eq. eexists _, _. split; [done|].
    destruct (wf_empty (set_table 0 1 ∅ h)) as [? Hbag]; [done..|]. split; [done|]. split; [by rewrite <- Hbag|cbn; lia].
Qed.

(** C3: however inserts, deletes and resets follow each other, a hash table
    keeps its invariant (every record on the chain of its home slot, no
    record lost, no access outside the array, every loop ends), the codes the
    calls return are those of a bag of records, and the records in the table
    are that bag. *)
Theorem hash_refines_bag cs h : wf h -> records h + Z.of_nat (List.length cs) < 2 ^ 30 ->
  exists h' rs, run h cs = Some (h', rs) /\ wf h' /\ bag_run (bag h) cs = (bag h', rs).
Proof.
  revert h. induction cs as [|c cs IH]; intros h Hwf Hn; cbn [run bag_run List.length] in *.
  - by exists h, [].
  - destruct (do_call_spec h c Hwf) as (h1 & r & -> & Hwf1 & -> & Hn1); [lia|].
    destruct (IH h1 Hwf1) as (h2 & rs & Hrun & Hwf2 & Hbag); [lia|].
    rewrite bind_Some_eq, Hrun, bind_Some_eq. rewrite Hbag. eauto.
Qed.

(** C33: [hash_search] followed by [hash_next] until it finds nothing gives
    each record of the table that has the key, once, and no other. *)
Theorem hash_search_complete `{!CollationLaws coll} h key length : wf h -> keys_ok h length ->
  exists found, find_all h key length = Some found /\
    found ≡ₚ filter (fun r => matches h key length r = true) (contents (array h)).
Proof. apply find_all_spec. Qed.
End table.
