(* ===== verification/HashUpdate.v ===== *)
(** * Changing keys in a hash table (hash_update of mysys/hash.c)

    A record of the table gets a new key: [rb] are the bytes of the records
    before, [rb'] after.  The table is right again when the slot that is the new
    home does not belong to the record's old chain; when it does, the code
    breaks the table.  The examples use the binary collation. *)

From stdpp Require Import gmultiset base numbers list gmap.
From Stdlib Require Import ZArith Lia.
From S2P Require Import Prelude Collate CtypeBin Hash HashTable.

Local Open Scope Z_scope.

(** A record goes second in the chain of its home [i], whose first record is
    [pos], through the free slot [e]. *)
Lemma family_second d f i e pos r : d !! e = None -> d !! i = Some pos -> f (data pos) = i -> f r = i ->
  forall j, family d f j -> family (alter (relink e) i (<[e := mkLink (next pos) r]> d)) f j.
Proof.
  intros He Hpos Hown Hr j Hfam. assert (i <> e) as Hie by congruence.
  assert (forall j, ~ member d f j e) as Hne by (intros ? (l & Hl & _); by rewrite He in Hl).
  destruct (decide (j = i)) as [->|Hji].
  - destruct (family_chain d f i i) as (c & Hnd & Hc & Hs); [done|by exists pos|].
    apply NoDup_cons in Hnd as [Hni Hnd]. destruct Hs as (_ & l & Hl & Hs). rewrite Hpos in Hl. injection Hl as <-.
    assert (e ∉ i :: c) as [_ Hec]%not_elem_of_cons by (by intros ?%Hc%Hne).
    exists (i :: e :: c). split; [|split; [|right]].
    + constructor; [by apply not_elem_of_cons|]. by constructor.
    + intros a. rewrite member_relink, !elem_of_cons. unfold member. destruct (decide (e = a)) as [<-|Hea].
      { rewrite lookup_insert_eq. split; [intros _; by eexists|tauto]. }
      rewrite lookup_insert_ne by done. fold (member d f i a). rewrite <- Hc, elem_of_cons.
      split; [intros [?|[?|?]]; [tauto|congruence|tauto]|tauto].
    + split; [done|]. exists (relink e pos). rewrite lookup_alter_eq, lookup_insert_ne, Hpos by done. split; [done|].
      split; [done|]. exists (mkLink (next pos) r). rewrite lookup_alter_ne, lookup_insert_eq by done. split; [done|].
      apply seg_alter, Hni. by apply seg_insert.
  - apply family_relink_other; [apply family_insert_other; [done|done|simpl; congruence]|].
    intros (l & Hl & E). rewrite lookup_insert_ne, Hpos in Hl by congruence. injection Hl as <-. congruence.
Qed.

(** The home function only matters on the records there are. *)
Lemma family_congr d f f' j : (forall r, r ∈ contents d -> f r = f' r) -> family d f j -> family d f' j.
Proof.
  intros Hf (c & Hnd & Hc & Hs). exists c. split; [done|]. split; [|done]. intros i. rewrite Hc. unfold member.
  split; intros (l & Hl & E); exists l; (split; [done|]); rewrite <- E; [symmetry|]; apply Hf, elem_of_contents; eauto.
Qed.

Section update.
Context {coll : Collation} (rb rb' : Z -> list Z).

Lemma hash_update_spec h r others old_key old_len l : wf rb h -> contents (array h) ≡ₚ r :: others -> r ∉ others ->
  calc_hash (search_key h old_key old_len) = rec_hashnr rb h r ->
  (forall x, x <> r -> rec_hashnr rb' h x = rec_hashnr rb h x) ->
  let old_home := hash_mask (rec_hashnr rb h r) (blength h) (records h) in
  let new_home := hash_mask (rec_hashnr rb' h r) (blength h) (records h) in
  array h !! new_home = Some l -> hash_mask (rec_hashnr rb h (data l)) (blength h) (records h) <> old_home \/ old_home = new_home ->
  exists h', hash_update rb' h r old_key old_len = Some (h', false) /\ wf rb' h' /\ contents (array h') ≡ₚ contents (array h).
Proof.
  intros Hwf Hcont Hoth Hold Hsame old_home new_home Hl Hcase.
  destruct (Hwf) as (k & Hb & Hsh & Hsl & Hfam). destruct (Hsh) as [Hk Hnb]. destruct (shape_bounds _ _ Hsh) as [Hn30 _].
  set (f := home rb h k (records h)) in *. set (f' := home rb' h k (records h)).
  assert (forall x, x <> r -> f' x = f x) as Hff by (intros x Hx; unfold f', f, home; by rewrite Hsame).
  assert (r ∈ contents (array h)) as Hrin by (rewrite Hcont; apply list_elem_of_here).
  assert (1 <= records h) as Hn1.
  { apply elem_of_contents in Hrin as (i & x & Hx & _). assert (is_Some (array h !! i)) as Hi%Hsl by by eexists. lia. }
  assert (forall x, 0 <= f' x < records h) as Hf'r by (intros x; apply hash_mask_range; lia).
  unfold hash_update. rewrite Hold. fold old_home. fold new_home.
  assert (old_home = f r) as Ho by (unfold old_home; by rewrite Hb). assert (new_home = f' r) as Hn by (unfold new_home; by rewrite Hb).
  destruct (Z.eqb_spec old_home new_home) as [Heq|Hneq].
  { exists h. split; [done|]. split; [|done]. exists k. split; [done|]. split; [done|]. split; [done|].
    intros j Hj. apply family_congr with (f := f); [|by apply Hfam]. intros x _.
    change (f x = f' x). destruct (decide (x = r)) as [->|Hx]; [congruence|]. symmetry. by apply Hff. }
  destruct (find_record_wf rb h k r Hwf Hb Hsh Hn1) as [[_ Hno]|(c1 & x & c2 & lx & Hfind & Hx & Hlx & Hnd & Hm & Hs)]; [done|].
  change (home rb h k (records h)) with f in Hfind, Hm, Hs. rewrite Ho, Hfind, bind_Some_eq, Hx, bind_Some_eq.
  destruct (unlink_spec _ _ _ _ _ _ _ _ Hsl ltac:(lia) Hx Hnd Hm Hs) as (d1 & e & -> & Hsl1 & (He & le & Hle & Hfe) & Hfam1 & Hcont1).
  rewrite bind_Some_eq, Hn. rewrite Hn in Hl.
  assert (f' r <> e) as Hne.
  { intros E. destruct Hcase as [Hcase|]; [|done]. apply Hcase. rewrite Hb. change (f (data l) = old_home). rewrite Ho.
    rewrite E, Hle in Hl. by injection Hl as <-. }
  assert (contents (delete e d1) ≡ₚ others) as Hrest by (apply (Permutation_cons_inv (a := r)); by rewrite <- Hcont, <- Hlx).
  assert (forall y, y ∈ contents (delete e d1) -> f' y = f y) as Hfy.
  { intros y Hy. apply Hff. rewrite Hrest in Hy. by intros ->. }
  assert (forall j, 0 <= j < records h -> family (delete e d1) f' j) as Hfam'.
  { intros j Hj. apply family_congr with (f := f); [intros y Hy; symmetry; by apply Hfy|]. by apply Hfam1, Hfam. }
  destruct (proj2 (Hsl1 (f' r))) as [pos Hpos]; [apply Hf'r|]. rewrite Hpos, bind_Some_eq.
  unfold hash_rec_mask. rewrite Hb. change (hash_mask (rec_hashnr rb' h (data pos)) (2 ^ k) (records h)) with (f' (data pos)).
  assert (forall d, slots d (records h) -> (forall j, 0 <= j < records h -> family d f' j) ->
    wf rb' (set_table (records h) (2 ^ k) d h)) as Hwf' by (intros d Hd1 Hd2; by exists k).
  destruct (Z.eqb_spec (f' r) (f' (data pos))) as [Hown|Hown]; cbn [negb].
  - rewrite bind_Some_eq, put_Some, bind_Some_eq, put_next_Some by
      (try (apply slots_insert with (n := records h); [done..|apply Hf'r]); by apply Hsl1).
    rewrite bind_Some_eq, Hlx. eexists. split; [done|]. split.
    + apply Hwf'; [apply slots_relink; by apply slots_insert|]. intros j Hj. rewrite <- (insert_delete_eq d1 e).
      apply family_second; auto; [apply lookup_delete_eq|by rewrite lookup_delete_ne].
    + cbn [array set_table]. rewrite contents_relink, <- (insert_delete_eq d1 e), contents_insert by apply lookup_delete_eq.
      cbn [data]. by rewrite Hrest, Hcont.
  - destruct (displace (S (S (Z.to_nat (records h)))) d1 f' (records h) e (f' r) pos r) as (z & _ & Hmove & _ & Hs' & Hf'' & Hc'); try done; try lia; try apply Hf'r.
    rewrite put_Some, bind_Some_eq, Hmove, bind_Some_eq by by apply Hsl1.
    rewrite put_Some, bind_Some_eq, Hlx by (apply slots_relink with (n := records h); [by apply slots_insert|apply Hf'r]).
    eexists. split; [done|]. split; [by apply Hwf'|]. cbn [array set_table]. by rewrite Hc', Hrest, Hcont.
Qed.
End update.

(** ** The binary collation *)

#[export] Instance bin_collation : Collation := {
  hash_sort := my_hash_sort_bin;
  my_strnncoll := fun a b => my_strnncoll_binary a b false }.

Lemma memcmp_eq a : forall b, length a = length b -> memcmp (length a) a b = 0 -> a = b.
Proof.
  induction a as [|x a IH]; intros [|y b] Hl Hc; try done. cbn [memcmp length] in Hc.
  destruct (Z.eqb_spec x y) as [->|Hne]; [|lia]. f_equal. apply IH; [simpl in Hl; lia|done].
Qed.

#[export] Instance bin_collation_laws : CollationLaws bin_collation.
Proof.
  constructor. intros a b nr Ha Hb Hc. f_equal. revert Hc. cbn [my_strnncoll bin_collation].
  unfold my_strnncoll_binary, len32. rewrite !u32_small by lia.
  destruct (memcmp _ a b =? 0) eqn:E; cbn [negb]; b2p; [|done]. intros Hs.
  assert (length a = length b) as Hl.
  { unfold s32 in Hs. assert ((Z.of_nat (length a) - Z.of_nat (length b)) mod 2 ^ 32 = 0) as Hm by
      (Z.to_euclidean_division_equations; lia). Z.to_euclidean_division_equations. lia. }
  apply memcmp_eq; [done|]. rewrite <- E. f_equal. lia.
Qed.

(** ** Examples *)

(** A table of records with the one byte keys 1, 3, 2 at the addresses 100,
    200, 300. *)
Definition bytes_of (l : list (Z * Z)) (r : Z) : list Z :=
  omap (fun p => if p.1 =? r then Some p.2 else None) l.

Lemma bytes_of_cons a b l r : bytes_of ((a, b) :: l) r = if a =? r then b :: bytes_of l r else bytes_of l r.
Proof. unfold bytes_of. cbn. by destruct (a =? r). Qed.

Definition keys0 : Z -> list Z := bytes_of [(100, 1); (200, 3); (300, 2)].

Definition table0 : HASH := fst (hash_init (mkHash 0 0 0 0 0 0 ∅ None false) 0 1 None false 0 true).

Definition add (h : HASH) (r : Z) : HASH :=
  match my_hash_insert keys0 h r true (mkLink 0 0) with Some (h, _) => h | None => h end.

Lemma table0_wf : wf keys0 table0.
Proof. by apply wf_empty. Qed.

Lemma add_wf h r : wf keys0 h -> records h < 2 ^ 30 - 1 -> wf keys0 (add h r) /\ records (add h r) = records h + 1 /\
  contents (array (add h r)) ≡ₚ r :: contents (array h).
Proof.
  intros Hwf Hn. destruct (hash_insert_spec keys0 h r (mkLink 0 0) Hwf Hn) as (d & b & E & ? & ?).
  unfold add. rewrite E. done.
Qed.

Definition table3 : HASH := add (add (add table0 100) 200) 300.

Lemma table3_wf : wf keys0 table3 /\ records table3 = 3 /\ contents (array table3) ≡ₚ [300; 200; 100].
Proof.
  destruct (add_wf table0 100 table0_wf) as (H1 & R1 & C1); [vm_compute; done|].
  destruct (add_wf _ 200 H1) as (H2 & R2 & C2); [rewrite R1; vm_compute; done|].
  destruct (add_wf _ 300 H2) as (H3 & R3 & C3); [rewrite R2, R1; vm_compute; done|].
  split; [done|]. unfold table3. rewrite R3, R2, R1. split; [done|]. by rewrite C3, C2, C1.
Qed.

Lemma hash_refines_bag_witness : exists h' rs,
  run keys0 table3 [Delete 200; Delete 200; Insert 200 true (mkLink 9 9); Delete 100; Reset; Delete 300] = Some (h', rs) /\
  wf keys0 h' /\
  bag_run (bag table3) [Delete 200; Delete 200; Insert 200 true (mkLink 9 9); Delete 100; Reset; Delete 300] = (bag h', rs).
Proof.
  apply (hash_refines_bag keys0 [Delete 200; Delete 200; Insert 200 true (mkLink 9 9); Delete 100; Reset; Delete 300] table3);
    [apply table3_wf|by vm_compute].
Defined.

Lemma keys0_ok h len : get_key h = None -> key_length h = 1 -> len <> 0 -> keys_ok keys0 h len.
Proof.
  intros Hg Hk Hl. unfold keys_ok, hash_key. rewrite Hg, Hk. split_and!; [done| |by left].
  intros r. rewrite length_take. lia.
Qed.

Lemma hash_search_complete_witness : exists found, find_all keys0 table3 [3] 1 = Some found /\
  found ≡ₚ filter (fun r => matches keys0 table3 [3] 1 r = true) (contents (array table3)).
Proof. apply (hash_search_complete keys0 table3 [3] 1); [apply table3_wf|by apply keys0_ok]. Defined.

(** C37: when the key of one record of a table has changed and the slot of the
    new home is not one of the record's old chain, [hash_update] makes the
    table right for the new keys and keeps its records. *)
Theorem hash_update_correct `{Collation} rb rb' h r others old_key old_len l :
  wf rb h -> contents (array h) ≡ₚ r :: others -> r ∉ others ->
  calc_hash (search_key h old_key old_len) = rec_hashnr rb h r ->
  (forall x, x <> r -> rec_hashnr rb' h x = rec_hashnr rb h x) ->
  array h !! hash_mask (rec_hashnr rb' h r) (blength h) (records h) = Some l ->
  hash_mask (rec_hashnr rb h (data l)) (blength h) (records h) <> hash_mask (rec_hashnr rb h r) (blength h) (records h) \/
  hash_mask (rec_hashnr rb h r) (blength h) (records h) = hash_mask (rec_hashnr rb' h r) (blength h) (records h) ->
  exists h', hash_update rb' h r old_key old_len = Some (h', false) /\ wf rb' h' /\ contents (array h') ≡ₚ contents (array h).
Proof. apply hash_update_spec. Qed.

(** The record at 100 gets the key 4. *)
Definition keys1 : Z -> list Z := bytes_of [(100, 4); (200, 3); (300, 2)].

Lemma hash_update_correct_witness : exists h', hash_update keys1 table3 100 [1] 1 = Some (h', false) /\ wf keys1 h' /\
  contents (array h') ≡ₚ contents (array table3).
Proof.
  destruct table3_wf as (Hwf & _ & Hc).
  apply (hash_update_correct keys0 keys1 table3 100 [300; 200] [1] 1 (mkLink NO_RECORD 300)).
  - done.
  - rewrite Hc. by rewrite (Permutation_app_comm [300; 200] [100]).
  - apply (bool_decide_unpack _). by vm_compute.
  - by vm_compute.
  - intros x Hx. assert (keys1 x = keys0 x) as E; [|unfold rec_hashnr, hash_key; by rewrite E].
    unfold keys1, keys0. by rewrite !bytes_of_cons, (proj2 (Z.eqb_neq 100 x)) by congruence.
  - by vm_compute.
  - left. by vm_compute.
Defined.

(** A table of the records at 100 and 200 with the keys 1 and 3: both have the
    home 0, and the record at 100 is in the slot 1. *)
Definition table2 : HASH := add (add table0 100) 200.

(** The record at 100, or the one at 200, gets the key 2, whose home is 1. *)
Definition keys2 : Z -> list Z := bytes_of [(100, 2); (200, 3)].
Definition keys3 : Z -> list Z := bytes_of [(100, 1); (200, 2)].

Lemma search_cycle h : array h !! 1 = Some (mkLink 1 100) -> get_key h = None -> key_length h = 1 -> key_offset h = 0 ->
  hash_rec_mask keys2 h (mkLink 1 100) (blength h) (records h) = 1 ->
  forall fuel flag, search_loop keys2 fuel h [4] 1 flag 1 = None.
Proof.
  intros Ha Hg Hk Ho Hm fuel. induction fuel as [|fuel IH]; intros flag; [done|]. cbn [search_loop].
  rewrite Ha, bind_Some_eq, Hm. assert (hashcmp keys2 h (mkLink 1 100) [4] 1 = false) as ->.
  { unfold hashcmp, hash_key. rewrite Hg, Hk, Ho. by vm_compute. }
  rewrite andb_false_r. cbn [next]. apply IH.
Qed.

(** When the slot of the new home belongs to the record's old chain,
    [hash_update] breaks the table: for a record in that slot the link then
    leads back to the slot, and a search for a key that is not there never
    ends; for the first record of the chain, with the next one in that slot,
    [movelink] runs off the chain and out of the array. *)
Theorem hash_update_breaks_table :
  wf keys0 table2 /\
  (exists h, hash_update keys2 table2 100 [1] 1 = Some (h, false) /\ array h !! 1 = Some (mkLink 1 100) /\
     forall fuel, search_loop keys2 fuel h [4] 1 true (hash_mask (calc_hash (search_key h [4] 1)) (blength h) (records h)) = None) /\
  hash_update keys3 table2 200 [3] 1 = None.
Proof.
  split; [|split].
  - destruct (add_wf table0 100 table0_wf) as (H1 & R1 & _); [vm_compute; done|].
    apply (add_wf _ 200 H1). rewrite R1. by vm_compute.
  - destruct (hash_update keys2 table2 100 [1] 1) as [[h r]|] eqn:E; [|by vm_compute in E].
    vm_compute in E. injection E as <- <-. eexists. split; [reflexivity|]. split; [by vm_compute|].
    intros fuel. apply search_cycle; by vm_compute.
  - by vm_compute.
Qed.
