(* ===== verification/Tree.v ===== *)
(** * Balanced trees (mysys/tree.c, include/my_tree.h)

    A red-black tree whose operations go down from the root and keep on a stack,
    [tree->parents], the addresses of the pointers they went through; the
    rebalancing goes up again along this stack.  An entry of the stack stands
    for the element it is in: here a frame holds the element without the child
    below it, so that stack and subtree together are the whole tree.

    [tree->null_element] is the one element that ends every branch; it is black
    and its children are null pointers.  An element has an address, the one that
    the allocator gave; reading a child of [null_element] and writing behind the
    end of the stack are [None].  Keys are values: where their bytes are kept
    ([offset_to_key]) does not matter to the operations. *)

From stdpp Require Import base numbers list.
From Stdlib Require Import ZArith Lia.
From S2P Require Import Prelude.

Local Open Scope Z_scope.

(** ** Elements *)

Inductive colour := RED | BLACK.

#[export] Instance colour_eq_dec : EqDecision colour.
Proof. solve_decision. Defined.

Inductive side := Left | Right.

#[export] Instance side_eq_dec : EqDecision side.
Proof. solve_decision. Defined.

Definition opposite (d : side) : side := match d with Left => Right | Right => Left end.

Definition MAX_TREE_HEIGHT : nat := 64.
Definition TREE_NO_DUPS : Z := 1.
Definition DEFAULT_ALLOC_SIZE : Z := 8192.
Definition DEFAULT_ALIGN_SIZE : Z := 8192.
Definition sizeof_TREE_ELEMENT : Z := 24.
Definition sizeof_pointer : Z := 8.

Inductive TREE_FREE := free_init | free_free | free_end.

(** ** Positions

    The caller has its own stack of elements, from [null_element] below the root
    to the current one, which is the first here. *)

Inductive ha_rkey_function :=
  | HA_READ_KEY_EXACT
  | HA_READ_KEY_OR_NEXT
  | HA_READ_KEY_OR_PREV
  | HA_READ_AFTER_KEY
  | HA_READ_BEFORE_KEY
  | HA_READ_PREFIX
  | HA_READ_PREFIX_LAST
  | HA_READ_PREFIX_LAST_OR_PREV
  | HA_READ_MBR_CONTAIN
  | HA_READ_MBR_INTERSECT
  | HA_READ_MBR_WITHIN
  | HA_READ_MBR_DISJOINT
  | HA_READ_MBR_EQUAL.

Section tree.
Context {K : Type}.

(** What an element holds beside its children and its colour; [count] has 31
    bits. *)
Record cell := mkCell { addr : Z; key : K; count : Z }.

Inductive TREE_ELEMENT :=
  | null_element
  | element (left right : TREE_ELEMENT) (c : colour) (e : cell).

Definition is_null (t : TREE_ELEMENT) : bool := match t with null_element => true | _ => false end.

Definition colour_of (t : TREE_ELEMENT) : colour := match t with null_element => BLACK | element _ _ c _ => c end.

(** [t->colour = c]; [null_element] is only ever given the colour it has. *)
Definition paint (c : colour) (t : TREE_ELEMENT) : TREE_ELEMENT :=
  match t with null_element => null_element | element l r _ e => element l r c e end.

Definition ELEMENT_CHILD (t : TREE_ELEMENT) (d : side) : option TREE_ELEMENT :=
  match t with null_element => None | element l r _ _ => Some (match d with Left => l | Right => r end) end.

(** What an element holds, its child on side [d] and the other one. *)
Definition view (t : TREE_ELEMENT) (d : side) : option (cell * TREE_ELEMENT * TREE_ELEMENT) :=
  match t, d with
  | null_element, _ => None
  | element l r _ e, Left => Some (e, l, r)
  | element l r _ e, Right => Some (e, r, l)
  end.

(** An element with the child [near] on side [d]. *)
Definition node (d : side) (c : colour) (e : cell) (near far : TREE_ELEMENT) : TREE_ELEMENT :=
  match d with Left => element near far c e | Right => element far near c e end.

(** ** The stack of the pointers on the way *)

Record frame := mkFrame { fside : side; fcolour : colour; fcell : cell; fother : TREE_ELEMENT }.

Definition fill (f : frame) (t : TREE_ELEMENT) : TREE_ELEMENT := node (fside f) (fcolour f) (fcell f) t (fother f).

(** The tree from its root; the innermost frame is the first. *)
Fixpoint zip (path : list frame) (t : TREE_ELEMENT) : TREE_ELEMENT :=
  match path with
  | [] => t
  | f :: path => zip path (fill f t)
  end.

(** [*++parent = ...]; [parents[0]] is the address of the root. *)
Definition push (f : frame) (path : list frame) : option (list frame) :=
  if (S (length path) <? MAX_TREE_HEIGHT)%nat then Some (f :: path) else None.

(** The way to the element that compares equal, or to [null_element]. *)
Fixpoint descend (cmp : K -> Z) (path : list frame) (t : TREE_ELEMENT) : option (list frame * TREE_ELEMENT) :=
  match t with
  | null_element => Some (path, t)
  | element l r c e =>
      let v := cmp (key e) in
      if v =? 0 then Some (path, t)
      else if v <? 0 then path ← push (mkFrame Right c e l) path; descend cmp path r
      else path ← push (mkFrame Left c e r) path; descend cmp path l
  end.

(** ** Rotations *)

Definition left_rotate (leaf : TREE_ELEMENT) : option TREE_ELEMENT :=
  match leaf with
  | element a (element b g cy y) c e => Some (element (element a b c e) g cy y)
  | _ => None
  end.

Definition right_rotate (leaf : TREE_ELEMENT) : option TREE_ELEMENT :=
  match leaf with
  | element (element g b cx x) a c e => Some (element g (element b a c e) cx x)
  | _ => None
  end.

Definition rotate (d : side) : TREE_ELEMENT -> option TREE_ELEMENT :=
  match d with Left => left_rotate | Right => right_rotate end.

(** ** Insertion *)

(** The loop of [rb_insert].  The two branches for the sides of the
    grandparent are the two values of [d]. *)
Fixpoint rb_insert_loop (path : list frame) (leaf : TREE_ELEMENT) : option TREE_ELEMENT :=
  match path with
  | [] => Some leaf
  | par :: up =>
      match fcolour par, up with
      | BLACK, _ => Some (zip path leaf)
      | RED, [] => None
      | RED, par2 :: rest =>
          let d := fside par2 in
          let y := fother par2 in
          match colour_of y with
          | RED =>
              rb_insert_loop rest (node d RED (fcell par2) (paint BLACK (fill par leaf)) (paint BLACK y))
          | BLACK =>
              p ← (if decide (fside par = opposite d) then rotate d (fill par leaf) else Some (fill par leaf));
              t ← rotate (opposite d) (paint RED (fill par2 (paint BLACK p)));
              Some (zip rest t)
          end
      end
  end.

Definition rb_insert (path : list frame) (leaf : TREE_ELEMENT) : option TREE_ELEMENT :=
  root ← rb_insert_loop path (paint RED leaf); Some (paint BLACK root).

(** ** Deletion *)

(** One round of [rb_delete_fixup] with the sibling [w] of [x] not red: where the
    loop goes on, or the new root.  [x == par->left] holds too when both children
    of [par] are [null_element]: then [w] is it on either side. *)
Definition fixup_sibling (par : frame) (up : list frame) (x : TREE_ELEMENT)
  : option (list frame * TREE_ELEMENT + TREE_ELEMENT) :=
  let d := fside par in
  let w := fother par in
  '(we, near, far) ← view w d;
  if decide (colour_of near = BLACK /\ colour_of far = BLACK) then
    Some (inl (up, node d (fcolour par) (fcell par) x (paint RED w)))
  else
    w ← (if decide (colour_of far = BLACK) then rotate (opposite d) (node d RED we (paint BLACK near) far) else Some w);
    '(we, near, far) ← view w d;
    t ← rotate d (node d BLACK (fcell par) x (node d (fcolour par) we near (paint BLACK far)));
    Some (inr (paint BLACK (zip up t))).

(** A red sibling is rotated above [par] first, and the stack gets longer. *)
Definition fixup_step (path : list frame) (x : TREE_ELEMENT) : option (list frame * TREE_ELEMENT + TREE_ELEMENT) :=
  match path, colour_of x with
  | [], _ => Some (inr (paint BLACK x))
  | _, RED => Some (inr (zip path (paint BLACK x)))
  | par :: up, BLACK =>
      let d := fside par in
      match colour_of (fother par) with
      | RED =>
          '(we, near, far) ← view (fother par) d;
          up ← (if (S (length path) <? MAX_TREE_HEIGHT)%nat then Some (mkFrame d BLACK we far :: up) else None);
          fixup_sibling (mkFrame d RED (fcell par) near) up x
      | BLACK => fixup_sibling par up x
      end
  end.

Fixpoint fixup_loop (fuel : nat) (path : list frame) (x : TREE_ELEMENT) : option TREE_ELEMENT :=
  match fuel with
  | O => None
  | S fuel =>
      r ← fixup_step path x;
      match r with
      | inl (path, x) => fixup_loop fuel path x
      | inr root => Some root
      end
  end.

Definition rb_delete_fixup (path : list frame) (x : TREE_ELEMENT) : option TREE_ELEMENT :=
  fixup_loop (S (S (length path))) path x.

(** The first element of a subtree: the stack down to it, its colour, what it
    holds and its right child. *)
Fixpoint leftmost (path : list frame) (nod : TREE_ELEMENT) : option (list frame * colour * cell * TREE_ELEMENT) :=
  match nod with
  | null_element => None
  | element null_element r c e => Some (path, c, e, r)
  | element l r c e => path ← push (mkFrame Left c e r) path; leftmost path l
  end.

(** The element is taken out: the stack, the subtree in its place and
    [remove_colour].  With two children the next element, [nod], gets its
    place. *)
Definition unlink (path : list frame) (t : TREE_ELEMENT) : option (list frame * TREE_ELEMENT * colour) :=
  match t with
  | null_element => None
  | element null_element r c e => Some (path, r, c)
  | element l null_element c e => Some (path, l, c)
  | element l r c e =>
      path' ← push (mkFrame Right c e l) path;
      '(path', remove_colour, nod, x) ← leftmost path' r;
      let inner := take (length path' - length path - 1) path' in
      Some (inner ++ mkFrame Right c nod l :: path, x, remove_colour)
  end.

(** ** The tree *)

(** What the functions do outside the tree: calls of [tree->free], [my_free] of
    an element, and [free_root] with the flag MY_MARK_BLOCKS_FREE or without. *)
Inductive event :=
  | call_free (k : option K) (what : TREE_FREE)
  | my_free (a : Z)
  | free_root (mark : bool).

(** [mem_root] is the block size and the [min_malloc] it was set up with;
    [has_free] tells whether there is a [tree->free]. *)
Record TREE := mkTree {
  root : TREE_ELEMENT;
  offset_to_key : Z;
  elements_in_tree : Z;
  size_of_element : Z;
  memory_limit : Z;
  allocated : Z;
  mem_root : option (Z * Z);
  with_delete : bool;
  has_free : bool;
  flag : Z
}.

Definition MY_ALIGN (A L : Z) : Z := Z.land (u32 (A + L - 1)) (Z.lnot (L - 1)).

Definition init_tree (default_alloc_size memory_limit size : Z) (with_delete free_element : bool) : TREE :=
  let default_alloc_size := if default_alloc_size <? DEFAULT_ALLOC_SIZE then DEFAULT_ALLOC_SIZE else default_alloc_size in
  let default_alloc_size := MY_ALIGN default_alloc_size DEFAULT_ALIGN_SIZE in
  let size_of_element := if 0 <? size then size else 0 in
  let combined := negb free_element && (0 <=? size) &&
    ((u32 size <=? sizeof_pointer) || negb (Z.land (u32 size) (sizeof_pointer - 1) =? 0)) in
  let '(offset_to_key, default_alloc_size, size_of_element) :=
    if combined then
      let n := default_alloc_size / (sizeof_TREE_ELEMENT + size) in
      let n := if n =? 0 then 1 else n in
      (sizeof_TREE_ELEMENT, u32 (n * (sizeof_TREE_ELEMENT + size)), size_of_element)
    else (0, default_alloc_size, u32 (size_of_element + sizeof_pointer)) in
  mkTree null_element offset_to_key 0 size_of_element memory_limit 0
    (if with_delete then None else Some (default_alloc_size, u32 (sizeof_TREE_ELEMENT + size_of_element)))
    with_delete free_element 0.

Definition set_root (t : TREE) (r : TREE_ELEMENT) (elements alloc : Z) : TREE :=
  mkTree r (offset_to_key t) elements (size_of_element t) (memory_limit t) alloc (mem_root t) (with_delete t) (has_free t) (flag t).

Fixpoint delete_tree_element (t : TREE) (el : TREE_ELEMENT) : list event :=
  match el with
  | null_element => []
  | element l r _ e =>
      delete_tree_element t l ++
      (if has_free t then [call_free (Some (key e)) free_free] else []) ++
      delete_tree_element t r ++
      (if with_delete t then [my_free (addr e)] else [])
  end.

Definition free_tree (t : TREE) (mark : bool) : TREE * list event :=
  (set_root t null_element 0 0,
   if with_delete t then delete_tree_element t (root t)
   else
     (if has_free t then
        (if memory_limit t =? 0 then [] else [call_free None free_init]) ++
        delete_tree_element t (root t) ++
        (if memory_limit t =? 0 then [] else [call_free None free_end])
      else []) ++ [free_root mark]).

Definition delete_tree (t : TREE) : TREE * list event := free_tree t false.

Definition reset_tree (t : TREE) : TREE * list event := free_tree t true.

(** [element->count++], which does not wrap. *)
Definition incr_count (c : Z) : Z :=
  let c := (c + 1) mod 2 ^ 31 in if c =? 0 then (c - 1) mod 2 ^ 31 else c.

Context (compare : K -> K -> Z).

(** One call of [tree_insert] up to its own recursive call, which is the first
    case; else the tree and the element, if any.  [alloc] is the answer of
    [my_malloc] or [alloc_root]. *)
Definition insert_once (t : TREE) (k : K) (key_size : Z) (alloc : option Z) : option (TREE + TREE * option Z) :=
  '(path, el) ← descend (fun x => compare x k) [] (root t);
  match el with
  | null_element =>
      let alloc_size := u32 (sizeof_TREE_ELEMENT + key_size + size_of_element t) in
      let total := u32 (allocated t + alloc_size) in
      if negb (memory_limit t =? 0) && negb (elements_in_tree t =? 0) && (memory_limit t <? total) then
        Some (inl (set_root t (root t) (elements_in_tree t) total))
      else
        match alloc with
        | None => Some (inr (set_root t (root t) (elements_in_tree t) total, None))
        | Some a =>
            r ← rb_insert path (element null_element null_element RED (mkCell a k 1));
            Some (inr (set_root t r (u32 (elements_in_tree t + 1)) total, Some a))
        end
  | element l r c e =>
      if negb (Z.land (flag t) TREE_NO_DUPS =? 0) then Some (inr (t, None))
      else
        let e := mkCell (addr e) (key e) (incr_count (count e)) in
        Some (inr (set_root t (zip path (element l r c e)) (elements_in_tree t) (allocated t), Some (addr e)))
  end.

Definition tree_insert (t : TREE) (k : K) (key_size : Z) (alloc : option Z) : option (TREE * option Z * list event) :=
  r ← insert_once t k key_size alloc;
  match r with
  | inr (t, a) => Some (t, a, [])
  | inl t =>
      let '(t, ev) := reset_tree t in
      r ← insert_once t k key_size alloc;
      match r with
      | inr (t, a) => Some (t, a, ev)
      | inl _ => None
      end
  end.

(** The result is 1 when nothing was deleted. *)
Definition tree_delete (t : TREE) (k : K) : option (TREE * Z * list event) :=
  if negb (with_delete t) then Some (t, 1, [])
  else
    '(path, el) ← descend (fun x => compare x k) [] (root t);
    match el with
    | null_element => Some (t, 1, [])
    | element _ _ _ e =>
        '(path, x, remove_colour) ← unlink path el;
        r ← (if decide (remove_colour = BLACK) then rb_delete_fixup path x else Some (zip path x));
        Some (set_root t r (u32 (elements_in_tree t - 1)) (u32 (allocated t - u32 (sizeof_TREE_ELEMENT + size_of_element t))), 0,
              (if has_free t then [call_free (Some (key e)) free_free] else []) ++ [my_free (addr e)])
    end.

(** ** Searching *)

Fixpoint search_loop (cmp : K -> Z) (el : TREE_ELEMENT) : option cell :=
  match el with
  | null_element => None
  | element l r _ e =>
      let v := cmp (key e) in
      if v =? 0 then Some e else if v <? 0 then search_loop cmp r else search_loop cmp l
  end.

Definition tree_search (t : TREE) (k : K) : option K := key <$> search_loop (fun x => compare x k) (root t).

(** ** Reading in order *)

(** The loop of [tree_search_key]: [last_left_step_parent],
    [last_right_step_parent] and [last_equal_element]; [None] is the [return] of
    the default case. *)
Fixpoint search_key_loop (cmp : K -> Z) (fl : ha_rkey_function) (parents : list TREE_ELEMENT) (el : TREE_ELEMENT)
  (last_left last_right last_equal : option (list TREE_ELEMENT))
  : option (option (list TREE_ELEMENT) * option (list TREE_ELEMENT) * option (list TREE_ELEMENT)) :=
  match el with
  | null_element => Some (last_left, last_right, last_equal)
  | element l r _ e =>
      let parents := el :: parents in
      '(v, last_equal) ←
        (if cmp (key e) =? 0 then
           match fl with
           | HA_READ_KEY_EXACT | HA_READ_KEY_OR_NEXT | HA_READ_BEFORE_KEY => Some (1, Some parents)
           | HA_READ_AFTER_KEY => Some (-1, last_equal)
           | HA_READ_PREFIX_LAST | HA_READ_PREFIX_LAST_OR_PREV => Some (-1, Some parents)
           | _ => None
           end
         else Some (cmp (key e), last_equal));
      if v <? 0 then search_key_loop cmp fl parents r last_left (Some parents) last_equal
      else search_key_loop cmp fl parents l (Some parents) last_right last_equal
  end.

(** The new [*last_pos], whose element is the result; [None] is a null pointer. *)
Definition tree_search_key (t : TREE) (k : K) (fl : ha_rkey_function) : option (list TREE_ELEMENT) :=
  '(last_left, last_right, last_equal) ← search_key_loop (fun x => compare x k) fl [null_element] (root t) None None None;
  match fl with
  | HA_READ_KEY_EXACT | HA_READ_PREFIX_LAST => last_equal
  | HA_READ_KEY_OR_NEXT => if last_equal is Some _ then last_equal else last_left
  | HA_READ_AFTER_KEY => last_left
  | HA_READ_PREFIX_LAST_OR_PREV => if last_equal is Some _ then last_equal else last_right
  | HA_READ_BEFORE_KEY => last_right
  | _ => None
  end.

Fixpoint to_edge (d : side) (parents : list TREE_ELEMENT) (el : TREE_ELEMENT) : list TREE_ELEMENT :=
  match el with
  | null_element => parents
  | element l r _ _ => to_edge d (el :: parents) (match d with Left => l | Right => r end)
  end.

Definition tree_search_edge (t : TREE) (child_offs : side) : list TREE_ELEMENT := to_edge child_offs [null_element] (root t).

(** The comparison of two pointers. *)
Definition same_element (x y : TREE_ELEMENT) : bool :=
  match x, y with
  | null_element, null_element => true
  | element _ _ _ e, element _ _ _ e' => addr e =? addr e'
  | _, _ => false
  end.

(** [y = *--*last_pos] while [x] is the child on side [r_offs] of [y]. *)
Fixpoint step_up (r_offs : side) (x : TREE_ELEMENT) (last_pos : list TREE_ELEMENT) : option (list TREE_ELEMENT) :=
  match last_pos with
  | [] => None
  | y :: rest =>
      match ELEMENT_CHILD y r_offs with
      | Some c => if same_element x c then step_up r_offs y rest else Some last_pos
      | None => Some last_pos
      end
  end.

Definition tree_search_next (last_pos : list TREE_ELEMENT) (l_offs r_offs : side) : option (list TREE_ELEMENT) :=
  match last_pos with
  | [] => None
  | x :: rest =>
      c ← ELEMENT_CHILD x r_offs;
      if is_null c then step_up r_offs x rest else Some (to_edge l_offs last_pos c)
  end.

(** What is returned for a position. *)
Definition position (last_pos : list TREE_ELEMENT) : option cell :=
  match last_pos with element _ _ _ e :: _ => Some e | _ => None end.

(** ** Walking *)

Inductive TREE_WALK := left_root_right | right_root_left.

(** The action gets the key and the count; [S] is what it works on. *)
Section walk.
Context {S : Type} (action : K -> Z -> S -> Z * S).

Fixpoint tree_walk_left_root_right (el : TREE_ELEMENT) (s : S) : Z * S :=
  match el with
  | null_element => (0, s)
  | element l r _ e =>
      let '(error, s) := tree_walk_left_root_right l s in
      if error =? 0 then
        let '(error, s) := action (key e) (count e) s in
        if error =? 0 then tree_walk_left_root_right r s else (error, s)
      else (error, s)
  end.

Fixpoint tree_walk_right_root_left (el : TREE_ELEMENT) (s : S) : Z * S :=
  match el with
  | null_element => (0, s)
  | element l r _ e =>
      let '(error, s) := tree_walk_right_root_left r s in
      if error =? 0 then
        let '(error, s) := action (key e) (count e) s in
        if error =? 0 then tree_walk_right_root_left l s else (error, s)
      else (error, s)
  end.

Definition tree_walk (t : TREE) (visit : TREE_WALK) (s : S) : Z * S :=
  match visit with
  | left_root_right => tree_walk_left_root_right (root t) s
  | right_root_left => tree_walk_right_root_left (root t) s
  end.
End walk.

(** The check of a debugging build: the number of black elements on the way to
    the end, or -1. *)
Fixpoint test_rb_tree (el : TREE_ELEMENT) : Z :=
  match el with
  | null_element => 0
  | element l r c _ =>
      if decide (c = RED /\ (colour_of l = RED \/ colour_of r = RED)) then -1
      else
        let count_l := test_rb_tree l in
        let count_r := test_rb_tree r in
        if (0 <=? count_l) && (0 <=? count_r) && (count_l =? count_r) then
          count_l + (if decide (c = BLACK) then 1 else 0)
        else -1
  end.
End tree.

Arguments cell : clear implicits.
Arguments TREE_ELEMENT : clear implicits.
Arguments frame : clear implicits.
Arguments event : clear implicits.
Arguments TREE : clear implicits.
