(* ===== verification/TreeRB.v ===== *)
(** * The red-black rules of mysys/tree.c

    The elements of a tree in order are what the operations are about; the
    rotations do not change them.  Every branch has the same number of black
    elements and a red element has black children: insertion and deletion keep
    this, and it bounds the stack of 64 pointers. *)

From stdpp Require Import base numbers list sorting.
From Stdlib Require Import ZArith Lia.
From S2P Require Import Prelude Tree.

Local Open Scope Z_scope.

Section rb.
Context {K : Type}.
Notation tree := (TREE_ELEMENT K).
Notation frame := (frame K).

Implicit Types (t x : tree) (path : list frame).

(** ** Elements in order *)

Fixpoint inorder (t : tree) : list (cell K) :=
  match t with
  | null_element => []
  | element l r _ e => inorder l ++ e :: inorder r
  end.

Fixpoint before (path : list frame) : list (cell K) :=
  match path with
  | [] => []
  | f :: path => before path ++ match fside f with Left => [] | Right => inorder (fother f) ++ [fcell f] end
  end.

Fixpoint after (path : list frame) : list (cell K) :=
  match path with
  | [] => []
  | f :: path => match fside f with Left => fcell f :: inorder (fother f) | Right => [] end ++ after path
  end.

Lemma inorder_zip path : forall t, inorder (zip path t) = before path ++ inorder t ++ after path.
Proof.
  induction path as [|[d c e o] path IH]; intros t; cbn; [by rewrite app_nil_r|].
  rewrite IH. destruct d; cbn; by rewrite ?app_nil_r, <- ?app_assoc.
Qed.

Lemma inorder_paint c t : inorder (paint c t) = inorder t.
Proof. by destruct t. Qed.

Lemma before_app p q : before (p ++ q) = before q ++ before p.
Proof. induction p as [|f p IH]; cbn; [by rewrite app_nil_r|]. by rewrite IH, <- app_assoc. Qed.

Lemma after_app p q : after (p ++ q) = after p ++ after q.
Proof. induction p as [|f p IH]; cbn; [done|]. by rewrite IH, <- app_assoc. Qed.

(** ** The sides *)

Lemma opposite_involutive d : opposite (opposite d) = d.
Proof. by destruct d. Qed.

Lemma node_opposite d c e (a b : tree) : node (opposite d) c e a b = node d c e b a.
Proof. by destruct d. Qed.

(** Every element is a node of either side. *)
Lemma node_view d t : t <> null_element -> exists c e near far, t = node d c e near far.
Proof. destruct t as [|l r c e]; [done|]. intros _. exists c, e. destruct d; eauto. Qed.

Lemma paint_node d c c' e (a b : tree) : paint c (node d c' e a b) = node d c e a b.
Proof. by destruct d. Qed.

Lemma colour_of_node d c e (a b : tree) : colour_of (node d c e a b) = c.
Proof. by destruct d. Qed.

Lemma view_node d c e (a b : tree) : view (node d c e a b) d = Some (e, a, b).
Proof. by destruct d. Qed.

Lemma rotate_node d c e c' e' (a b g : tree) :
  rotate d (node d c e a (node d c' e' b g)) = Some (node d c' e' (node d c e a b) g).
Proof. by destruct d. Qed.

Lemma rotate_node_opposite d c e c' e' (a b g : tree) :
  rotate (opposite d) (node d c e (node d c' e' g b) a) = Some (node d c' e' g (node d c e b a)).
Proof. by destruct d. Qed.

Lemma inorder_rotate d t t' : rotate d t = Some t' -> inorder t' = inorder t.
Proof.
  destruct d; cbn; destruct t as [|l r c e]; try done; cbn;
    [destruct r as [|rl rr rc re] | destruct l as [|ll lr lc le]]; try done; intros [= <-]; cbn; by rewrite <- ?app_assoc.
Qed.

(** The elements of a node as seen from a side. *)
Definition along (d : side) (l : list (cell K)) : list (cell K) := match d with Left => l | Right => reverse l end.

Lemma along_inj d l l' : along d l = along d l' -> l = l'.
Proof. destruct d; cbn [along]; [done|]. intros E. by apply (inj reverse). Qed.

Lemma inorder_node d c e a b : along d (inorder (node d c e a b)) = along d (inorder a) ++ e :: along d (inorder b).
Proof. destruct d; cbn [along node inorder]; [done|]. by rewrite reverse_app, reverse_cons, <- app_assoc. Qed.

Local Ltac along_app d := apply (along_inj d); rewrite ?inorder_node; flat_app.

(** ** The rules *)

(** [rb c n t]: the root of [t] has colour [c] and [n] elements are black on
    every branch. *)
Inductive rb : colour -> nat -> tree -> Prop :=
  | rb_null : rb BLACK 0 null_element
  | rb_red l r e n : rb BLACK n l -> rb BLACK n r -> rb RED n (element l r RED e)
  | rb_black l r e cl cr n : rb cl n l -> rb cr n r -> rb BLACK (S n) (element l r BLACK e).

Lemma rb_colour c n t : rb c n t -> colour_of t = c.
Proof. by destruct 1. Qed.

Lemma rb_node_red d n e a b : rb BLACK n a -> rb BLACK n b -> rb RED n (node d RED e a b).
Proof. destruct d; by constructor. Qed.

Lemma rb_node_black d n e a b ca cb : rb ca n a -> rb cb n b -> rb BLACK (S n) (node d BLACK e a b).
Proof. destruct d; econstructor; eauto. Qed.

Lemma rb_node_inv d c n c' e a b : rb c n (node d c' e a b) -> c' = c /\
  match c with
  | RED => rb BLACK n a /\ rb BLACK n b
  | BLACK => exists n' ca cb, n = S n' /\ rb ca n' a /\ rb cb n' b
  end.
Proof. destruct d; inversion 1; subst; naive_solver. Qed.

Lemma rb_paint c n t : rb c n t -> exists n', rb BLACK n' (paint BLACK t).
Proof. destruct 1; [exists O | exists (S n) | exists (S n)]; cbn; econstructor; eauto. Qed.

(** A subtree with [n] black elements on its branches fits; it may be red when
    the parent is black. *)
Definition parent_colour path : colour := match path with [] => BLACK | f :: _ => fcolour f end.

Fixpoint path_ok (path : list frame) (n : nat) : Prop :=
  match path with
  | [] => True
  | f :: up =>
      (exists c, rb c n (fother f)) /\
      match fcolour f with
      | RED => colour_of (fother f) = BLACK /\ up <> [] /\ parent_colour up = BLACK /\ path_ok up n
      | BLACK => path_ok up (S n)
      end
  end.

Lemma zip_rb path : forall n c t, path_ok path n -> rb c n t -> (c = RED -> parent_colour path = BLACK) ->
  exists c' n', rb c' n' (zip path t) /\ (path <> [] -> c' = BLACK).
Proof.
  induction path as [|[d cf e o] up IH]; intros n c t Hp Ht Hc; [by exists c, n|].
  cbn in Hp. destruct Hp as [[co Ho] Hp]. cbn. unfold fill. cbn.
  destruct cf.
  - destruct Hp as (Hco & Hup & Hpc & Hp). rewrite (rb_colour _ _ _ Ho) in Hco. subst co.
    assert (c = BLACK) as -> by (destruct c; [by specialize (Hc eq_refl)|done]).
    destruct (IH n RED (node d RED e t o)) as (c' & n' & Hrb & Hb); [done|by apply rb_node_red|done|].
    exists c', n'. auto.
  - destruct (IH (S n) BLACK (node d BLACK e t o)) as (c' & n' & Hrb & Hb); [done|by eapply rb_node_black|done|].
    exists c', n'. split; [done|]. intros _. destruct up; [by rewrite <- (rb_colour _ _ _ Hrb); destruct d|]. by apply Hb.
Qed.

(** ** Insertion *)

(** Two frames of the stack around a subtree. *)
Definition wrap (f : frame) (l : list (cell K)) : list (cell K) :=
  match fside f with Left => l ++ fcell f :: inorder (fother f) | Right => inorder (fother f) ++ fcell f :: l end.

Lemma wrap_fill f t : inorder (fill f t) = wrap f (inorder t).
Proof. unfold fill, wrap. by destruct (fside f). Qed.

Lemma around_cons f path l : before (f :: path) ++ l ++ after (f :: path) = before path ++ wrap f l ++ after path.
Proof. unfold wrap. cbn. destruct (fside f); cbn; by rewrite ?app_nil_r, <- ?app_assoc. Qed.

(** The one or two rotations that end the loop. *)
Lemma zip_top ds d n leaf os es y e : rb RED n leaf -> rb BLACK n os -> rb BLACK n y ->
  exists p t, (if decide (ds = opposite d) then rotate d (node ds RED es leaf os) else Some (node ds RED es leaf os)) = Some p /\
    rotate (opposite d) (node d RED e (paint BLACK p) y) = Some t /\ rb BLACK (S n) t /\
    inorder t = inorder (node d BLACK e (node ds RED es leaf os) y).
Proof.
  intros Hl Ho Hy. destruct (node_view d leaf) as (c & el & a & b & ->); [by inversion Hl|].
  apply rb_node_inv in Hl as [-> [Ha Hb]].
  case_decide as Hd.
  - subst ds. rewrite node_opposite, rotate_node. eexists _, _. split; [done|]. rewrite paint_node, rotate_node_opposite. split; [done|].
    split; [eapply rb_node_black; by apply rb_node_red|]. by along_app d.
  - assert (ds = d) as -> by (by destruct ds, d). eexists _, _. split; [done|]. rewrite paint_node, rotate_node_opposite. split; [done|].
    split; [eapply rb_node_black; [|by apply rb_node_red]; by apply rb_node_red|].
    by along_app d.
Qed.

Lemma rb_insert_loop_spec path : forall n leaf, path_ok path n -> rb RED n leaf ->
  exists r c n', rb_insert_loop path leaf = Some r /\ rb c n' r /\ inorder r = before path ++ inorder leaf ++ after path.
Proof.
  induction path as [path IH] using (induction_ltof1 _ length). intros n leaf Hp Hl.
  destruct path as [|[ds cs es os] up]; [exists leaf, RED, n; cbn; rewrite app_nil_r; by split_and!|].
  destruct Hp as [[co Ho] Hp]. cbn in Ho, Hp. destruct cs; last first.
  { destruct (zip_rb (mkFrame ds BLACK es os :: up) n RED leaf) as (c' & n' & Hrb & _); [by split; [exists co|]|done|done|].
    eexists _, c', n'. split; [done|]. split; [done|]. apply inorder_zip. }
  destruct Hp as (Hco & Hup & Hpc & Hp). rewrite (rb_colour _ _ _ Ho) in Hco. subst co.
  destruct up as [|[d c e y] rest]; [done|]. cbn in Hpc. subst c. destruct Hp as [[cy Hy] Hp]. cbn in Hy, Hp.
  rewrite !around_cons, <- !wrap_fill. cbn [fside fcolour fcell fother rb_insert_loop]. unfold fill. cbn [fside fcolour fcell fother]. rewrite (rb_colour _ _ _ Hy).
  destruct cy.
  - destruct (IH rest ltac:(unfold ltof; cbn; lia) (S n) (node d RED e (paint BLACK (node ds RED es leaf os)) (paint BLACK y)))
      as (r & c' & n' & E & Hrb & Hin); [done| |].
    { apply rb_node_red; [rewrite paint_node; by eapply rb_node_black|]. inversion Hy; subst. cbn. econstructor; eauto. }
    exists r, c', n'. split; [done|]. split; [done|]. rewrite Hin. f_equal. f_equal. destruct d; cbn; by rewrite !inorder_paint.
  - destruct (zip_top ds d n leaf os es y e Hl Ho Hy) as (p & t & -> & Ht & Hrb & Hin).
    cbn [mbind option_bind]. unfold fill. cbn [fside fcolour fcell fother]. rewrite paint_node, Ht. cbn [mbind option_bind].
    destruct (zip_rb rest (S n) BLACK t) as (c' & n' & Hz & _); [done..|].
    exists (zip rest t), c', n'. split; [done|]. split; [done|]. by rewrite inorder_zip, Hin.
Qed.

Lemma rb_insert_spec path n leaf : path_ok path n -> rb RED n (paint RED leaf) ->
  exists r n', rb_insert path leaf = Some r /\ rb BLACK n' r /\ inorder r = before path ++ inorder leaf ++ after path.
Proof.
  intros Hp Hl. destruct (rb_insert_loop_spec path n (paint RED leaf) Hp Hl) as (r & c & n' & E & Hr & Hin).
  destruct (rb_paint c n' r Hr) as [m Hm]. exists (paint BLACK r), m. unfold rb_insert. rewrite E. split; [done|].
  split; [done|]. by rewrite !inorder_paint in *.
Qed.

(** ** Deletion *)

(** The colour of [par] goes to the root of the rotated subtree. *)
Lemma zip_par par up n t : path_ok (par :: up) n ->
  match fcolour par with RED => rb RED n t | BLACK => rb BLACK (S n) t end ->
  exists n', rb BLACK n' (paint BLACK (zip up t)).
Proof.
  intros [_ Hp] Ht. assert (exists c m, rb c m (zip up t)) as (c & m & Hz); [|by eapply rb_paint].
  destruct (fcolour par).
  - destruct Hp as (_ & _ & Hpc & Hp). destruct (zip_rb up n RED t) as (c & m & ? & _); [done..|]. eauto.
  - destruct (zip_rb up (S n) BLACK t) as (c & m & ? & _); [done..|]. eauto.
Qed.

(** Where the loop goes on: [x] is red, or the branches through it lack a black
    element. *)
Definition lacking (path : list frame) (x : tree) : Prop :=
  (colour_of x = RED /\ exists n, rb BLACK n (paint BLACK x) /\ path_ok path n) \/
  (exists n, rb BLACK n x /\ path_ok path (S n)).

Lemma fixup_sibling_spec par up n x : path_ok (par :: up) (S n) -> colour_of (fother par) = BLACK -> rb BLACK n x ->
  exists out, fixup_sibling par up x = Some out /\
    match out with
    | inl (path, x') => path = up /\ lacking path x' /\ colour_of x' = fcolour par /\ inorder x' = wrap par (inorder x)
    | inr r => (exists n', rb BLACK n' r) /\ inorder r = before (par :: up) ++ inorder x ++ after (par :: up)
    end.
Proof.
  intros Hp Hw Hx. pose proof Hp as [[cw Ho] _]. pose proof (rb_colour _ _ _ Ho) as Hcw. rewrite Hw in Hcw. subst cw.
  pose proof (zip_par par up (S n)) as Hzip. rewrite around_cons, <- wrap_fill. unfold fill.
  destruct par as [d pc pe w]. cbn [fside fcolour fcell fother] in *. unfold fixup_sibling. cbn [fside fcolour fcell fother].
  destruct (node_view d w) as (c & we & near & far & ->); [by inversion Ho|].
  apply rb_node_inv in Ho as (-> & n0 & cn & cf & [= <-] & Hn & Hf).
  rewrite view_node. cbn [mbind option_bind]. rewrite (rb_colour _ _ _ Hn), (rb_colour _ _ _ Hf).
  case_decide as Hb; [|case_decide as Hfb].
  - destruct Hb as [-> ->]. eexists (inl _). split; [done|]. rewrite paint_node, colour_of_node. split_and!; [done| |done|].
    + destruct Hp as [_ Hp]. cbn in Hp. destruct pc.
      * left. rewrite colour_of_node, paint_node. split; [done|]. exists (S n). split; [|apply Hp].
        eapply rb_node_black; [done|]. by apply rb_node_red.
      * right. exists (S n). split; [|done]. eapply rb_node_black; [done|]. by apply rb_node_red.
    + unfold wrap. by destruct d.
  - subst cf. destruct cn; [|naive_solver]. destruct (node_view d near) as (c & ne & a & b & ->); [by inversion Hn|].
    apply rb_node_inv in Hn as (-> & Ha & Hb'). rewrite paint_node, rotate_node_opposite. cbn [mbind option_bind].
    rewrite view_node. cbn [mbind option_bind]. rewrite paint_node, rotate_node. eexists (inr _). split; [done|].
    split; [apply Hzip; [done|]; destruct pc; [apply rb_node_red|eapply rb_node_black]; by eapply rb_node_black|].
    rewrite inorder_paint, inorder_zip. do 2 f_equal. by along_app d.
  - destruct cf; [|done]. destruct (node_view d far) as (c & fe & a & b & ->); [by inversion Hf|].
    apply rb_node_inv in Hf as (-> & Ha & Hb'). cbn [mbind option_bind]. rewrite view_node. cbn [mbind option_bind].
    rewrite paint_node, rotate_node. eexists (inr _). split; [done|].
    split; [apply Hzip; [done|]; destruct pc; [apply rb_node_red|eapply rb_node_black]; by eapply rb_node_black|].
    rewrite inorder_paint, inorder_zip. do 2 f_equal. by along_app d.
Qed.


(** A red sibling changes places with [par], and both stay on the stack. *)
Lemma red_sibling par up n : path_ok (par :: up) (S n) -> colour_of (fother par) = RED ->
  exists we near far, view (fother par) (fside par) = Some (we, near, far) /\
    colour_of near = BLACK /\
    path_ok (mkFrame (fside par) RED (fcell par) near :: mkFrame (fside par) BLACK we far :: up) (S n) /\
    forall l, wrap (mkFrame (fside par) BLACK we far) (wrap (mkFrame (fside par) RED (fcell par) near) l) = wrap par l.
Proof.
  destruct par as [d pc pe w]. intros [[cw Ho] Hp] Hw. cbn in Ho, Hp, Hw. cbn [fside fcell fother]. rewrite (rb_colour _ _ _ Ho) in Hw. subst cw.
  destruct pc; [destruct Hp as [E _]; by rewrite (rb_colour _ _ _ Ho) in E|].
  destruct (node_view d w) as (c & we & near & far & ->); [by inversion Ho|]. apply rb_node_inv in Ho as (-> & Hn & Hf).
  exists we, near, far. rewrite view_node, (rb_colour _ _ _ Hn). split_and!; [done..| |].
  - cbn. rewrite (rb_colour _ _ _ Hn). eauto 10.
  - intros l. unfold wrap. destruct d; cbn; by rewrite <- ?app_assoc.
Qed.

Lemma fixup_loop_spec fuel : forall path x, lacking path x -> (0 < fuel)%nat ->
  colour_of x = RED \/ (length path < fuel /\ S (length path) < MAX_TREE_HEIGHT)%nat ->
  exists r n, fixup_loop fuel path x = Some r /\ rb BLACK n r /\ inorder r = before path ++ inorder x ++ after path.
Proof.
  induction fuel as [|fuel IH]; intros path x Hx Hfuel Hroom; [lia|]. cbn [fixup_loop]. unfold fixup_step.
  destruct path as [|par up].
  { assert (exists n, rb BLACK n (paint BLACK x)) as [n Hn]
      by (destruct Hx as [(_ & n & Hn & _)|(n & Hn & _)]; [eauto|by eapply rb_paint]).
    exists (paint BLACK x), n. cbn. by rewrite inorder_paint, app_nil_r. }
  destruct (colour_of x) eqn:Ec.
  { destruct Hx as [(_ & n & Hn & Hp)|(n & Hn & _)]; [|apply rb_colour in Hn; congruence].
    destruct (zip_rb _ n BLACK _ Hp Hn) as (c & m & Hz & Hc); [done|]. rewrite Hc in Hz by done.
    exists (zip (par :: up) (paint BLACK x)), m. by rewrite inorder_zip, inorder_paint. }
  destruct Hx as [[? _]|(n & Hn & Hp)]; [congruence|]. destruct Hroom as [|[Hlen Hroom]]; [congruence|].
  destruct (colour_of (fother par)) eqn:Ew; cbn [mbind option_bind].
  - destruct (red_sibling par up n Hp Ew) as (we & near & far & -> & Hnear & Hp' & Hwrap). cbn [mbind option_bind].
    rewrite (proj2 (Nat.ltb_lt _ _) Hroom). cbn [mbind option_bind].
    destruct (fixup_sibling_spec _ _ _ _ Hp' Hnear Hn) as (out & -> & Hout). cbn [mbind option_bind].
    destruct out as [[path x']|r].
    + destruct Hout as (-> & Hl & Hc & Hin). cbn [fcolour] in Hc.
      destruct (IH _ x' Hl) as (r & m & -> & Hr & Hinr); [cbn in *; lia|by left|].
      exists r, m. split_and!; [done..|]. by rewrite Hinr, Hin, !around_cons, Hwrap.
    + destruct Hout as [[m Hm] Hin]. exists r, m. split_and!; [done..|]. by rewrite Hin, !around_cons, Hwrap.
  - destruct (fixup_sibling_spec _ _ _ _ Hp Ew Hn) as (out & -> & Hout). cbn [mbind option_bind].
    destruct out as [[path x']|r].
    + destruct Hout as (-> & Hl & Hc & Hin).
      destruct (IH up x' Hl) as (r & m & -> & Hr & Hinr); [cbn in *; lia|right; cbn in *; lia|].
      exists r, m. split_and!; [done..|]. by rewrite Hinr, Hin, around_cons.
    + destruct Hout as [[m Hm] Hin]. by exists r, m.
Qed.

(** [x] took the place of an element of colour [c]; its branches lack a black
    element if [c] is BLACK. *)
Definition taken_out (c : colour) (path : list frame) (x : tree) : Prop :=
  exists n cx, rb cx n x /\
    match c with
    | RED => path_ok path n /\ cx = BLACK
    | BLACK => path_ok path (S n)
    end.

Lemma rb_delete_fixup_spec path x : taken_out BLACK path x -> (S (length path) < MAX_TREE_HEIGHT)%nat ->
  exists r n, rb_delete_fixup path x = Some r /\ rb BLACK n r /\ inorder r = before path ++ inorder x ++ after path.
Proof.
  intros (n & cx & Hx & Hp) Hlen. apply fixup_loop_spec; [|lia|right; lia].
  destruct cx; [left|right; eauto]. split; [by eapply rb_colour|]. exists (S n). split; [|done].
  inversion Hx; subst. cbn. econstructor; eauto.
Qed.

(** ** Heights *)

Fixpoint height (t : tree) : nat :=
  match t with null_element => 0 | element l r _ _ => S (height l `max` height r) end.

Lemma height_fill f t : (S (height t) <= height (fill f t))%nat.
Proof. unfold fill. destruct (fside f); cbn; lia. Qed.

Lemma height_zip path : forall t, (length path + height t <= height (zip path t))%nat.
Proof.
  induction path as [|f path IH]; intros t; cbn; [lia|]. specialize (IH (fill f t)). pose proof (height_fill f t). lia.
Qed.

Lemma rb_height c n t : rb c n t -> (height t <= 2 * n + match c with RED => 1 | BLACK => 0 end)%nat.
Proof. induction 1; cbn [height]; repeat case_match; lia. Qed.

Lemma rb_size c n t : rb c n t -> (2 ^ n <= S (length (inorder t)))%nat.
Proof. induction 1; cbn [inorder]; rewrite ?length_app; cbn; lia. Qed.

(** The stack is large enough for every tree the counter can count. *)
Lemma height_bound n t : rb BLACK n t -> Z.of_nat (length (inorder t)) < 2 ^ 32 - 1 -> (height t <= 62)%nat.
Proof.
  intros Ht Hlen. pose proof (rb_height _ _ _ Ht) as Hh. pose proof (rb_size _ _ _ Ht) as Hs. cbn in Hh.
  assert (~ (32 <= n)%nat); [|lia]. intros Hn. assert (2 ^ 32 <= Z.of_nat (2 ^ n)%nat); [|lia].
  rewrite Nat2Z.inj_pow. apply (Z.pow_le_mono_r 2 32); lia.
Qed.

(** ** The way down *)

Lemma push_room f path : (S (length path) < MAX_TREE_HEIGHT)%nat -> push f path = Some (f :: path).
Proof. intros H. unfold push. by rewrite (proj2 (Nat.ltb_lt _ _) H). Qed.

Lemma descend_spec cmp t : forall path, (length path + height t < MAX_TREE_HEIGHT)%nat ->
  exists path' s, descend cmp path t = Some (path', s) /\ zip path' s = zip path t /\
    match s with null_element => True | element _ _ _ e => cmp (key e) = 0 end.
Proof.
  induction t as [|l IHl r IHr c e]; intros path Hh; cbn [descend]; [by exists path, null_element|]. cbn [height] in Hh.
  destruct (Z.eqb_spec (cmp (key e)) 0) as [E|Hne]; [by exists path, (element l r c e)|].
  destruct (Z.ltb_spec (cmp (key e)) 0); rewrite push_room by lia; cbn [mbind option_bind];
    [destruct (IHr (mkFrame Right c e l :: path)) as (path' & s & -> & Hz & Hs)
    |destruct (IHl (mkFrame Left c e r :: path)) as (path' & s & -> & Hz & Hs)]; try (cbn; lia); by exists path', s.
Qed.

(** The comparison with a key goes from negative over 0 to positive along the
    elements. *)
Definition mono (cmp : K -> Z) (l : list (cell K)) : Prop :=
  StronglySorted (fun a b => (cmp (key b) < 0 -> cmp (key a) < 0) /\ (0 < cmp (key a) -> 0 < cmp (key b))) l.

Lemma mono_split cmp l e l' : mono cmp (l ++ e :: l') ->
  mono cmp l /\ mono cmp l' /\ (cmp (key e) < 0 -> Forall (fun a => cmp (key a) < 0) l) /\ (0 < cmp (key e) -> Forall (fun a => 0 < cmp (key a)) l').
Proof.
  unfold mono. rewrite StronglySorted_app. intros (H3 & H1 & H2).
  apply StronglySorted_inv in H2 as [H2 H4]. split_and!; [done..| |].
  - intros Hlt. apply Forall_forall. intros a Ha. by apply (H3 a e Ha ltac:(left)).
  - intros Hlt. eapply Forall_impl; [exact H4|]. naive_solver.
Qed.

Lemma descend_order cmp t : forall path path' s, mono cmp (inorder t) ->
  Forall (fun a => cmp (key a) < 0) (before path) -> Forall (fun a => 0 < cmp (key a)) (after path) ->
  descend cmp path t = Some (path', s) ->
  Forall (fun a => cmp (key a) < 0) (before path') /\ Forall (fun a => 0 < cmp (key a)) (after path').
Proof.
  induction t as [|l IHl r IHr c e]; intros path path' s Hm Hb Ha; cbn [descend]; [by intros [= <- <-]|].
  cbn [inorder] in Hm. apply mono_split in Hm as (Hml & Hmr & Hlt & Hgt).
  destruct (Z.eqb_spec (cmp (key e)) 0); [by intros [= <- <-]|].
  unfold push. destruct (Z.ltb_spec (cmp (key e)) 0); case_if; try done; cbn [mbind option_bind];
    [apply IHr|apply IHl]; try done; cbn; rewrite ?app_nil_r; try done.
  - rewrite !Forall_app, Forall_singleton. auto.
  - rewrite Forall_cons, Forall_app. assert (0 < cmp (key e)) by lia. auto.
Qed.

(** The rules for the whole tree are those for stack and subtree. *)
Lemma unzip_rb path : forall n t, rb BLACK n (zip path t) -> exists m c, path_ok path m /\ rb c m t /\ (c = RED -> path <> [] /\ parent_colour path = BLACK).
Proof.
  induction path as [|[d c e o] path IH]; intros n t H; [by exists n, BLACK|].
  destruct (IH _ _ H) as (m & cf & Hp & Hf & Hc). unfold fill in Hf. cbn in Hf. apply rb_node_inv in Hf as [-> Hf]. destruct cf.
  - destruct Hf as [Ht Ho]. exists m, BLACK. split_and!; [|done|done]. cbn. rewrite (rb_colour _ _ _ Ho).
    destruct (Hc eq_refl). by split_and!; [exists BLACK|..].
  - destruct Hf as (m' & ct & co & -> & Ht & Ho). exists m', ct. split_and!; [|done|done]. cbn. by split; [exists co|].
Qed.

(** ** The element that goes *)

Lemma zip_app p q t : zip (p ++ q) t = zip q (zip p t).
Proof. revert t. induction p as [|f p IH]; intros t; [done|]. apply IH. Qed.

Lemma leftmost_spec t : forall path, t <> null_element -> (length path + height t < MAX_TREE_HEIGHT)%nat ->
  exists inner c e x, leftmost path t = Some (inner ++ path, c, e, x) /\ zip inner (element null_element x c e) = t /\ before inner = [].
Proof.
  induction t as [|l IHl r _ c e]; intros path Ht Hh; [done|]. cbn [height] in Hh.
  destruct l as [|ll lr lc le]; [by exists [], c, e, r|].
  set (l := element ll lr lc le) in *. change (leftmost path (element l r c e)) with (path ← push (mkFrame Left c e r) path; leftmost path l).
  rewrite push_room by (cbn in Hh; lia). cbn [mbind option_bind].
  destruct (IHl (mkFrame Left c e r :: path)) as (inner & c' & e' & x & -> & Hz & Hb); [done|cbn [length]; lia|].
  exists (inner ++ [mkFrame Left c e r]), c', e', x. split; [by rewrite <- app_assoc|]. split; [by rewrite zip_app, Hz|].
  by rewrite before_app, Hb.
Qed.

(** The rules do not look at what the elements hold. *)
Lemma path_ok_cell inner d c e e' o path : forall n, path_ok (inner ++ mkFrame d c e o :: path) n -> path_ok (inner ++ mkFrame d c e' o :: path) n.
Proof.
  induction inner as [|f inner IH]; intros n; cbn; [done|].
  assert (parent_colour (inner ++ mkFrame d c e' o :: path) = parent_colour (inner ++ mkFrame d c e o :: path)) as -> by (by destruct inner).
  destruct (fcolour f); [|naive_solver]. intros (? & ? & _ & ? & ?). split_and!; auto. by destruct inner.
Qed.

Lemma unlink_one path m c l r e : path_ok path m -> rb c m (element l r c e) -> l = null_element \/ r = null_element ->
  taken_out c path (if is_null l then r else l).
Proof.
  intros Hp Ht Hn. unfold taken_out. inversion Ht; subst.
  - exists m, BLACK. by destruct (is_null l).
  - destruct (is_null l); eexists _, _; by split.
Qed.

Lemma tree_unlink_spec path n l r c e : let t := element l r c e in rb BLACK n (zip path t) -> (height (zip path t) < pred MAX_TREE_HEIGHT)%nat ->
  exists path' x rc, unlink path t = Some (path', x, rc) /\ taken_out rc path' x /\ (S (length path') < MAX_TREE_HEIGHT)%nat /\
    before path' ++ inorder x ++ after path' = before path ++ (inorder l ++ inorder r) ++ after path.
Proof.
  intros t Hrb Hh. pose proof (height_zip path t) as Hlen. destruct (unzip_rb path n t Hrb) as (m & ct & Hp & Ht & _).
  assert (c = ct) as -> by apply (rb_colour _ _ _ Ht). subst t.
  pose proof (unlink_one path m ct l r e Hp Ht) as Hone. cbn [height] in Hlen.
  destruct l as [|ll lr lc le]; [exists path, r, ct; split_and!; [done|by apply Hone; left|lia|done]|].
  destruct r as [|rl rr rc re]; [exists path, (element ll lr lc le), ct; split_and!; [done|by apply Hone; right|lia|by rewrite app_nil_r]|].
  set (l := element ll lr lc le) in *. set (r := element rl rr rc re) in *. clear Hone.
  change (unlink path (element l r ct e)) with (path' ← push (mkFrame Right ct e l) path; '(path', remove_colour, nod, x) ← leftmost path' r;
    let inner := take (length path' - length path - 1) path' in Some (inner ++ mkFrame Right ct nod l :: path, x, remove_colour)).
  rewrite push_room by lia. cbn [mbind option_bind].
  destruct (leftmost_spec r (mkFrame Right ct e l :: path)) as (inner & nc & nod & x & -> & Hz & Hb); [done|cbn [length]; lia|].
  cbn [mbind option_bind]. cbv zeta.
  replace (length (inner ++ mkFrame Right ct e l :: path) - length path - 1)%nat with (length inner) by (rewrite length_app; cbn [length]; lia).
  rewrite take_app_length. eexists _, _, _. split; [done|].
  pose proof (height_zip (inner ++ mkFrame Right ct e l :: path) (element null_element x nc nod)) as Hlen'.
  assert (zip (inner ++ mkFrame Right ct e l :: path) (element null_element x nc nod) = zip path (element l r ct e)) as Hzip
    by (by rewrite zip_app, Hz).
  rewrite Hzip in Hlen'. rewrite length_app in *. cbn [length height] in *. split_and!; [|lia|].
  - rewrite <- Hzip in Hrb. destruct (unzip_rb _ _ _ Hrb) as (m' & c' & Hp' & Hx & _).
    assert (nc = c') as <- by apply (rb_colour _ _ _ Hx).
    apply (path_ok_cell _ _ _ _ nod) in Hp'. apply (unlink_one _ _ _ _ _ _ Hp' Hx). by left.
  - rewrite before_app, after_app, Hb, app_nil_r. cbn [before after fside fcell fother].
    rewrite <- Hz, inorder_zip, Hb. cbn [app inorder]. by flat_app.
Qed.

Lemma rb_zip_cell path l r c e e' : forall co n, rb co n (zip path (element l r c e)) -> rb co n (zip path (element l r c e')).
Proof.
  assert (forall t t', (forall co n, rb co n t -> rb co n t') -> forall co n, rb co n (zip path t) -> rb co n (zip path t')) as H.
  { induction path as [|[d cf ef o] path IH]; intros t t' H; [done|]. apply IH. unfold fill. intros co n Hf. cbn in *.
    apply rb_node_inv in Hf as [-> Hf]. destruct co; [destruct Hf; apply rb_node_red; auto|].
    destruct Hf as (m & ca & cb & -> & ? & ?). eapply rb_node_black; eauto. }
  apply H. intros co n Ht. inversion Ht; subst; econstructor; eauto.
Qed.
End rb.
