(* ===== verification/TreeMap.v ===== *)
(** * The trees of mysys/tree.c as sorted lists

    What a tree promises: the keys with their counts in order.  Every operation
    of Tree.v does to the tree what a few lines say about this list, and keeps
    the tree well-formed. *)

From stdpp Require Import base numbers list sets sorting.
From Stdlib Require Import ZArith Lia.
From S2P Require Import Prelude Tree TreeRB.

Local Open Scope Z_scope.

Section map.
Context {K : Type} (compare : K -> K -> Z).

(** ** The specification *)

Fixpoint spec_insert (k : K) (l : list (K * Z)) : list (K * Z) :=
  match l with
  | [] => [(k, 1)]
  | (k', c) :: l' =>
      if compare k' k =? 0 then (k', Z.min (c + 1) (2 ^ 31 - 1)) :: l'
      else if compare k' k <? 0 then (k', c) :: spec_insert k l'
      else (k, 1) :: l
  end.

Definition spec_find (k : K) (l : list (K * Z)) : option (K * Z) :=
  head (filter (fun p => compare p.1 k = 0) l).

Definition spec_delete (k : K) (l : list (K * Z)) : list (K * Z) :=
  filter (fun p => compare p.1 k <> 0) l.

(** What the calls depend on beside the elements. *)
Record config := mkConfig { c_limit : Z; c_size : Z; c_no_dups : bool; c_delete : bool }.

Definition config_of (t : TREE K) : config :=
  mkConfig (memory_limit t) (size_of_element t) (negb (Z.land (flag t) TREE_NO_DUPS =? 0)) (with_delete t).

(** The list and the bytes counted as allocated; [granted] tells whether there
    was memory.  A tree that would get too large is emptied first. *)
Definition spec_tree_insert (cfg : config) (l : list (K * Z)) (alloc : Z) (k : K) (key_size : Z) (granted : bool)
  : list (K * Z) * Z * option (K * Z) :=
  match spec_find k l with
  | Some _ =>
      if c_no_dups cfg then (l, alloc, None)
      else (spec_insert k l, alloc, spec_find k (spec_insert k l))
  | None =>
      let size := u32 (sizeof_TREE_ELEMENT + key_size + c_size cfg) in
      let too_large := negb (c_limit cfg =? 0) && negb (bool_decide (l = [])) && (c_limit cfg <? u32 (alloc + size)) in
      let '(l, total) := if too_large then ([], size) else (l, u32 (alloc + size)) in
      if granted then (spec_insert k l, total, Some (k, 1)) else (l, total, None)
  end.

Definition spec_tree_delete (cfg : config) (l : list (K * Z)) (alloc : Z) (k : K) : list (K * Z) * Z * Z :=
  match spec_find k l with
  | Some _ =>
      if c_delete cfg then (spec_delete k l, u32 (alloc - u32 (sizeof_TREE_ELEMENT + c_size cfg)), 0) else (l, alloc, 1)
  | None => (l, alloc, 1)
  end.

(** ** Well-formed trees *)

Definition entry (e : cell K) : K * Z := (key e, count e).

Definition contents (t : TREE K) : list (K * Z) := entry <$> inorder (root t).

Record wf (t : TREE K) : Prop := {
  wf_rb : exists n, rb BLACK n (root t);
  wf_sorted : StronglySorted (fun a b => compare (key a) (key b) < 0) (inorder (root t));
  wf_addr : NoDup (addr <$> inorder (root t));
  wf_count : Forall (fun e => 1 <= count e < 2 ^ 31) (inorder (root t));
  wf_elements : elements_in_tree t = Z.of_nat (length (inorder (root t)));
  wf_room : Z.of_nat (length (inorder (root t))) < 2 ^ 32 - 1
}.

Context `{!Preordered compare}.

Lemma sorted_mono k l : StronglySorted (fun a b => compare (key a) (key b) < 0) l -> mono (fun x => compare x k) l.
Proof.
  unfold mono. induction 1 as [|a l _ IH HF]; constructor; [done|]. eapply Forall_impl; [exact HF|]. intros b Hab. cbn in Hab |- *. split; intros H.
  - apply (order_lt_le compare _ (key b)); [done|lia].
  - apply order_anti in H. apply order_anti. apply (order_lt_le compare _ (key a) _ H). lia.
Qed.

(** Where a key is: the elements before and after it, and the one that is
    equal. *)
Record located (k : K) (l A : list (cell K)) (m : option (cell K)) (B : list (cell K)) : Prop := {
  loc_eq : l = A ++ option_list m ++ B;
  loc_before : Forall (fun e => compare (key e) k < 0) A;
  loc_after : Forall (fun e => 0 < compare (key e) k) B;
  loc_found : if m is Some e then compare (key e) k = 0 else True
}.

Lemma spec_insert_located k l A m B : located k l A m B ->
  spec_insert k (entry <$> l) = (entry <$> A) ++ (if m is Some e then (key e, Z.min (count e + 1) (2 ^ 31 - 1)) else (k, 1)) :: (entry <$> B).
Proof.
  intros [-> HA HB Hm]. induction HA as [|a A Ha _ IH]; cbn.
  - destruct m as [e|]; cbn; [by rewrite Hm|]. destruct HB as [|b B Hb _]; [done|]. cbn.
    by rewrite (proj2 (Z.eqb_neq _ _)), (proj2 (Z.ltb_ge _ _)) by lia.
  - rewrite (proj2 (Z.eqb_neq _ _)), (proj2 (Z.ltb_lt _ _)) by lia. f_equal. exact IH.
Qed.

Lemma filter_all {A} (P : A -> Prop) `{!forall x, Decision (P x)} l : Forall P l -> filter P l = l.
Proof. induction 1; [done|]. by rewrite filter_cons_True, IHForall. Qed.

Lemma filter_none {A} (P : A -> Prop) `{!forall x, Decision (P x)} l : Forall (fun x => ~ P x) l -> filter P l = [].
Proof. induction 1; [done|]. by rewrite filter_cons_False. Qed.

Lemma spec_delete_located k l A m B : located k l A m B -> spec_delete k (entry <$> l) = entry <$> A ++ B.
Proof.
  intros [-> HA HB Hm]. unfold spec_delete. rewrite !fmap_app, !filter_app.
  rewrite (filter_all _ (entry <$> A)), (filter_all _ (entry <$> B)) by (apply Forall_fmap; eapply Forall_impl; [eassumption|cbn; lia]).
  destruct m as [e|]; [|done]. change (entry <$> option_list (Some e)) with [entry e]. by rewrite filter_cons_False by (cbn; lia).
Qed.

Lemma spec_find_located k l A m B : located k l A m B -> spec_find k (entry <$> l) = entry <$> m.
Proof.
  intros [-> HA HB Hm]. unfold spec_find. rewrite !fmap_app, !filter_app.
  rewrite (filter_none _ (entry <$> A)), (filter_none _ (entry <$> B)) by (apply Forall_fmap; eapply Forall_impl; [eassumption|cbn; lia]).
  destruct m as [e|]; [|done]. change (entry <$> option_list (Some e)) with [entry e]. by rewrite filter_cons_True by done.
Qed.

Lemma order_eq_sym a b : compare a b = 0 -> compare b a = 0.
Proof. intros H. pose proof (order_anti (cmp := compare) a b). pose proof (order_anti (cmp := compare) b a). lia. Qed.

(** ** Finding the place *)

Lemma locate t k : wf t -> exists path s, descend (fun x => compare x k) [] (root t) = Some (path, s) /\ zip path s = root t /\
  match s with
  | null_element => located k (inorder (root t)) (before path) None (after path)
  | element l r _ e => located k (inorder (root t)) (before path ++ inorder l) (Some e) (inorder r ++ after path)
  end.
Proof.
  intros [[n Hrb] Hs _ _ _ Hroom]. pose proof (height_bound _ _ Hrb Hroom) as Hh.
  destruct (descend_spec (fun x => compare x k) (root t) []) as (path & s & E & Hz & Hf); [unfold MAX_TREE_HEIGHT; cbn [length]; lia|].
  cbn [zip] in Hz. exists path, s. split; [done|]. split; [done|].
  destruct (descend_order _ _ [] path s (sorted_mono k _ Hs) (Forall_nil_2 _) (Forall_nil_2 _) E) as [HA HB].
  rewrite <- Hz in *. clear E. rewrite inorder_zip in *. destruct s as [|l r c e]; [by split|]. cbn [inorder] in *.
  apply StronglySorted_app in Hs as (_ & _ & Hs). apply StronglySorted_app_1_l in Hs. apply StronglySorted_app in Hs as (Hl & _ & Hs).
  apply StronglySorted_inv in Hs as [_ Hr]. split; [cbn; by rewrite <- !app_assoc| | |done].
  - apply Forall_app. split; [done|]. apply Forall_forall. intros a Ha. apply (order_lt_le compare _ (key e)); [|lia].
    apply Hl; [done|left].
  - apply Forall_app. split; [|done]. eapply Forall_impl; [exact Hr|]. intros a Ha. cbn in Ha. apply order_anti.
    apply (order_le_lt compare _ (key e)); [|done]. apply order_eq_sym in Hf. lia.
Qed.

(** ** The result of an operation is well-formed *)

Lemma wf_update t k A m B r e els alloc n : wf t -> located k (inorder (root t)) A m B ->
  rb BLACK n r -> inorder r = A ++ e :: B -> compare (key e) k = 0 -> 1 <= count e < 2 ^ 31 -> addr e ∉ addr <$> A ++ B ->
  els = Z.of_nat (length (A ++ e :: B)) -> els < 2 ^ 32 - 1 -> wf (set_root t r els alloc).
Proof.
  intros [_ Hs Ha Hc _ _] [El HA HB _] Hrb Hin Hk Hcount Haddr -> Hroom. rewrite El in *.
  split; cbn; rewrite ?Hin; [by exists n| | | |done..].
  - apply StronglySorted_app in Hs as (H1 & H2 & Hs). apply StronglySorted_app_1_r in Hs as H3.
    apply StronglySorted_app. split_and!; [|done|].
    + intros a b HaA [->|Hb]%elem_of_cons; [|by apply H1; [|set_solver]]. rewrite Forall_forall in HA.
      apply (order_lt_le compare _ k); [by apply HA|]. apply order_eq_sym in Hk. lia.
    + constructor; [done|]. eapply Forall_impl; [exact HB|]. intros b Hb. cbn in Hb. apply order_anti in Hb.
      apply (order_le_lt compare _ k); [lia|done].
  - rewrite fmap_app in *. cbn. rewrite NoDup_app in *. rewrite NoDup_cons.
    rewrite !fmap_app, NoDup_app in Ha. set_solver.
  - rewrite !Forall_app in *. rewrite Forall_cons. naive_solver.
Qed.

Lemma wf_remove t k A m B r els alloc n : wf t -> located k (inorder (root t)) A m B ->
  rb BLACK n r -> inorder r = A ++ B -> els = Z.of_nat (length (A ++ B)) -> wf (set_root t r els alloc).
Proof.
  intros [_ Hs Ha Hc _ Hroom] [El _ _ _] Hrb Hin ->. rewrite El in *.
  split; cbn; rewrite ?Hin; [by exists n| | | |done|].
  - apply StronglySorted_app in Hs as (H1 & H2 & Hs). apply StronglySorted_app_1_r in Hs as H3.
    apply StronglySorted_app. split_and!; [|done..]. intros a b HaA Hb. apply H1; set_solver.
  - rewrite !fmap_app, !NoDup_app in *. set_solver.
  - rewrite !Forall_app in *. naive_solver.
  - rewrite !length_app in *. lia.
Qed.

(** ** The operations *)

(** The element with an address. *)
Definition element_at (t : TREE K) (a : Z) : option (K * Z) :=
  entry <$> head (filter (fun e => addr e = a) (inorder (root t))).

Lemma element_at_in t A e B : NoDup (addr <$> inorder (root t)) -> inorder (root t) = A ++ e :: B -> element_at t (addr e) = Some (entry e).
Proof.
  intros Hnd E. unfold element_at. rewrite E in *. rewrite filter_app.
  rewrite fmap_app, NoDup_app in Hnd. destruct Hnd as (_ & Hnd & _). cbn in Hnd.
  rewrite filter_none, filter_cons_True; [done|done|].
  apply Forall_forall. intros a Ha Heq. apply (Hnd (addr a)); [by apply list_elem_of_fmap_2|]. rewrite Heq. left.
Qed.

Lemma incr_count_min c : 1 <= c < 2 ^ 31 -> incr_count c = Z.min (c + 1) (2 ^ 31 - 1).
Proof. intros Hc. unfold incr_count. destruct (Z.eq_dec c (2 ^ 31 - 1)) as [->|]; [done|]. rewrite Z.mod_small by lia. case_if; lia. Qed.

Lemma incr_count_range c : 1 <= c < 2 ^ 31 -> 1 <= incr_count c < 2 ^ 31.
Proof. intros Hc. rewrite incr_count_min by done. lia. Qed.

Definition fresh (t : TREE K) (alloc : option Z) : Prop := if alloc is Some a then a ∉ addr <$> inorder (root t) else True.

#[export] Instance fresh_dec t alloc : Decision (fresh t alloc).
Proof. destruct alloc; apply _. Defined.

(** A key that is in the tree. *)
Lemma insert_found t k key_size alloc path l r c e : wf t ->
  descend (fun x => compare x k) [] (root t) = Some (path, element l r c e) -> zip path (element l r c e) = root t ->
  located k (inorder (root t)) (before path ++ inorder l) (Some e) (inorder r ++ after path) ->
  exists t' a, insert_once compare t k key_size alloc = Some (inr (t', a)) /\ wf t' /\ config_of t' = config_of t /\
    (contents t', allocated t', a ≫= element_at t') = spec_tree_insert (config_of t) (contents t) (allocated t) k key_size (bool_decide (is_Some alloc)).
Proof.
  intros Hwf E Hz Hloc. unfold insert_once, spec_tree_insert. rewrite E. cbn [mbind option_bind config_of c_no_dups].
  unfold contents at 2. rewrite (spec_find_located _ _ _ _ _ Hloc). cbn [fmap option_fmap option_map].
  destruct (negb (Z.land (flag t) TREE_NO_DUPS =? 0)); [by exists t, None|].
  set (e' := mkCell (addr e) (key e) (incr_count (count e))). set (A := before path ++ inorder l) in *. set (B := inorder r ++ after path) in *.
  pose proof (loc_eq _ _ _ _ _ Hloc) as El. cbn in El. pose proof Hwf as [[n Hrb] Hs Ha Hc Hel Hroom]. rewrite <- Hz in Hrb.
  apply (rb_zip_cell _ _ _ _ _ e') in Hrb. assert (1 <= count e < 2 ^ 31) as Hce by (rewrite El, Forall_app, Forall_cons in Hc; apply Hc).
  assert (inorder (zip path (element l r c e')) = A ++ e' :: B) as Hin by (rewrite inorder_zip; unfold A, B; cbn [inorder]; by flat_app).
  set (t' := set_root t (zip path (element l r c e')) (elements_in_tree t) (allocated t)).
  assert (wf t') as Hwf'.
  { eapply wf_update; [done|exact Hloc|exact Hrb|exact Hin|by apply (loc_found _ _ _ _ _ Hloc)|by apply incr_count_range| | |].
    - rewrite El, fmap_app in Ha. cbn in Ha. rewrite NoDup_app, NoDup_cons in Ha. rewrite fmap_app. cbn. set_solver.
    - rewrite Hel, El, !length_app. cbn. lia.
    - rewrite Hel. done. }
  assert (located k (inorder (root t')) A (Some e') B) as Hloc' by (destruct Hloc; split; [exact Hin|done..]).
  exists t', (Some (addr e')). split_and!; [done..|]. cbn [mbind option_bind]. rewrite (element_at_in t' A e' B (wf_addr _ Hwf') Hin).
  assert (contents t' = spec_insert k (contents t)) as Hct.
  { unfold contents. rewrite (spec_insert_located _ _ _ _ _ Hloc). cbn [root t' set_root]. rewrite Hin, fmap_app. cbn. unfold entry at 2. cbn.
    by rewrite incr_count_min. }
  rewrite <- Hct. unfold contents. by rewrite (spec_find_located _ _ _ _ _ Hloc').
Qed.

Lemma empty_iff t : wf t -> (elements_in_tree t =? 0) = bool_decide (contents t = []).
Proof.
  intros Hwf. rewrite (wf_elements _ Hwf). unfold contents. destruct (inorder (root t)); [done|].
  rewrite bool_decide_eq_false_2 by done. apply Z.eqb_neq. cbn. lia.
Qed.

(** A new key, in a tree that does not get too large. *)
Lemma insert_new t k key_size alloc path : wf t -> fresh t alloc -> Z.of_nat (length (contents t)) + 1 < 2 ^ 32 - 1 ->
  zip path null_element = root t -> located k (inorder (root t)) (before path) None (after path) ->
  let total := u32 (allocated t + u32 (sizeof_TREE_ELEMENT + key_size + size_of_element t)) in
  exists t' a,
    match alloc with
    | None => Some (inr (set_root t (root t) (elements_in_tree t) total, None))
    | Some a =>
        r ← rb_insert path (element null_element null_element RED (mkCell a k 1));
        Some (inr (set_root t r (u32 (elements_in_tree t + 1)) total, Some a))
    end = Some (inr (t', a) : TREE K + TREE K * option Z) /\ wf t' /\ config_of t' = config_of t /\
    (contents t', allocated t', a ≫= element_at t') =
      if bool_decide (is_Some alloc) then (spec_insert k (contents t), total, Some (k, 1)) else (contents t, total, None).
Proof.
  intros Hwf Hfresh Hroom Hz Hloc total. destruct alloc as [a|]; cbn [fresh] in Hfresh; last first.
  { eexists _, None. split; [done|]. split; [|done]. by destruct Hwf. }
  pose proof (loc_eq _ _ _ _ _ Hloc) as El. cbn in El. pose proof (wf_rb _ Hwf) as [n Hrb]. rewrite <- Hz in Hrb.
  destruct (unzip_rb _ _ _ Hrb) as (m & c & Hp & Hnull & _). inversion Hnull; subst.
  set (e := mkCell a k 1). destruct (rb_insert_spec path 0 (element null_element null_element RED e) Hp) as (r & n' & -> & Hr & Hin);
    [repeat constructor|]. cbn [inorder app] in Hin.
  set (t' := set_root t r (u32 (elements_in_tree t + 1)) total). unfold contents in Hroom. rewrite length_fmap in Hroom.
  assert (wf t') as Hwf'.
  { eapply wf_update; [done|exact Hloc|exact Hr|exact Hin|by apply order_refl|done|by rewrite <- El| |];
      rewrite (wf_elements _ Hwf), u32_small by lia; [|lia]. rewrite El, !length_app. cbn. lia. }
  exists t', (Some (addr e)). split_and!; [done..|]. cbn [mbind option_bind]. rewrite bool_decide_eq_true_2 by done.
  rewrite (element_at_in t' (before path) e (after path) (wf_addr _ Hwf') Hin). repeat f_equal.
  unfold contents. rewrite (spec_insert_located _ _ _ _ _ Hloc). cbn [root t' set_root]. by rewrite Hin, fmap_app.
Qed.

Lemma tree_wf_empty t alloc : wf (set_root t null_element 0 alloc).
Proof. split; cbn; try constructor; try done. exists O. constructor. Qed.

Lemma insert_once_new t k key_size alloc path : descend (fun x => compare x k) [] (root t) = Some (path, null_element) ->
  let total := u32 (allocated t + u32 (sizeof_TREE_ELEMENT + key_size + size_of_element t)) in
  insert_once compare t k key_size alloc =
    if negb (memory_limit t =? 0) && negb (elements_in_tree t =? 0) && (memory_limit t <? total) then
      Some (inl (set_root t (root t) (elements_in_tree t) total))
    else
      match alloc with
      | None => Some (inr (set_root t (root t) (elements_in_tree t) total, None))
      | Some a =>
          r ← rb_insert path (element null_element null_element RED (mkCell a k 1));
          Some (inr (set_root t r (u32 (elements_in_tree t + 1)) total, Some a))
      end.
Proof. intros E. unfold insert_once. by rewrite E. Qed.

Lemma tree_insert_spec t k key_size alloc : wf t -> fresh t alloc -> Z.of_nat (length (contents t)) + 1 < 2 ^ 32 - 1 ->
  exists t' a ev, tree_insert compare t k key_size alloc = Some (t', a, ev) /\ wf t' /\ config_of t' = config_of t /\
    (contents t', allocated t', a ≫= element_at t') = spec_tree_insert (config_of t) (contents t) (allocated t) k key_size (bool_decide (is_Some alloc)).
Proof.
  intros Hwf Hfresh Hroom. unfold tree_insert. destruct (locate t k Hwf) as (path & [|l r c e] & E & Hz & Hloc); last first.
  { destruct (insert_found t k key_size alloc path l r c e Hwf E Hz Hloc) as (t' & a & -> & H). by exists t', a, []. }
  rewrite (insert_once_new _ _ _ _ _ E). unfold spec_tree_insert, contents at 2. cbv zeta.
  rewrite (spec_find_located _ _ _ _ _ Hloc). cbn [fmap option_fmap option_map config_of c_limit c_size]. rewrite <- (empty_iff t Hwf).
  destruct (negb (memory_limit t =? 0) && negb (elements_in_tree t =? 0) && _); last first.
  { destruct (insert_new t k key_size alloc path Hwf Hfresh Hroom Hz Hloc) as (t' & a & -> & H). by exists t', a, []. }
  cbn [mbind option_bind]. set (t0 := set_root t (root t) (elements_in_tree t) _). destruct (reset_tree t0) as [t1 ev] eqn:Er.
  injection Er as <- _. set (t1 := set_root t0 null_element 0 0).
  rewrite (insert_once_new t1 k key_size alloc []) by done.
  replace (negb (elements_in_tree t1 =? 0)) with false by done. rewrite andb_false_r, andb_false_l.
  destruct (insert_new t1 k key_size alloc []) as (t' & a & -> & Hwf' & Hc & Hr); [apply tree_wf_empty|by destruct alloc; [apply not_elem_of_nil|]|done|done|by split|].
  exists t', a, ev. split_and!; [done..|]. rewrite Hr. cbn. by rewrite u32_small by apply u32_range.
Qed.

Lemma tree_delete_spec t k : wf t ->
  exists t' z ev, tree_delete compare t k = Some (t', z, ev) /\ wf t' /\ config_of t' = config_of t /\
    (contents t', allocated t', z) = spec_tree_delete (config_of t) (contents t) (allocated t) k.
Proof.
  intros Hwf. unfold tree_delete, spec_tree_delete. destruct (locate t k Hwf) as (path & s & E & Hz & Hloc).
  unfold contents at 2. destruct (with_delete t) eqn:Ed; cbn [negb]; last first.
  { eexists t, 1, []. split_and!; [done..|]. unfold config_of. cbn [c_delete]. rewrite Ed. by destruct (spec_find k _). }
  rewrite E. cbn [mbind option_bind]. destruct s as [|l r c e].
  { exists t, 1, []. by rewrite (spec_find_located _ _ _ _ _ Hloc). }
  rewrite (spec_find_located _ _ _ _ _ Hloc). cbn [fmap option_fmap option_map config_of c_delete c_size]. rewrite Ed.
  pose proof Hwf as [[n Hrb] _ _ _ Hel Hroom]. pose proof (height_bound _ _ Hrb Hroom) as Hh. rewrite <- Hz in Hrb, Hh.
  destruct (tree_unlink_spec path n l r c e Hrb) as (path' & x & rc & -> & Htaken & Hlen & Hin); [unfold MAX_TREE_HEIGHT; cbn; lia|].
  cbn [mbind option_bind]. assert (exists r' n', (if decide (rc = BLACK) then rb_delete_fixup path' x else Some (zip path' x)) = Some r' /\
    rb BLACK n' r' /\ inorder r' = before path' ++ inorder x ++ after path') as (r' & n' & -> & Hr & Hinr).
  { case_decide as Hrc; [subst rc; by apply rb_delete_fixup_spec|]. destruct rc; [|done]. destruct Htaken as (m & cx & Hx & Hp & ->).
    destruct (zip_rb path' m BLACK x Hp Hx) as (c' & n' & Hr & Hc); [done|]. exists (zip path' x), n'. split; [done|].
    split; [|apply inorder_zip]. destruct path'; [|by rewrite Hc in Hr]. cbn [zip] in *.
    pose proof (rb_colour _ _ _ Hr) as Ec. rewrite (rb_colour _ _ _ Hx) in Ec. by subst c'. }
  cbn [mbind option_bind]. set (t' := set_root t r' _ _). eexists t', 0, _. split; [done|]. rewrite Hin in Hinr.
  replace (before path ++ (inorder l ++ inorder r) ++ after path) with ((before path ++ inorder l) ++ inorder r ++ after path) in Hinr by (by flat_app).
  assert (contents t' = spec_delete k (contents t)) as Hct.
  { unfold contents. rewrite (spec_delete_located _ _ _ _ _ Hloc). cbn [root t' set_root]. by rewrite Hinr. }
  split_and!; [|done|by rewrite Hct]. pose proof (loc_eq _ _ _ _ _ Hloc) as El. cbn in El.
  eapply wf_remove; [done|exact Hloc|exact Hr|exact Hinr|]. rewrite Hel. clear Hinr Hct Hin. rewrite El in *.
  rewrite u32_small; rewrite !length_app in *; cbn [length] in *; rewrite ?length_app in *; lia.
Qed.

Lemma search_loop_descend (cmp : K -> Z) (s : TREE_ELEMENT K) : forall path path' s', descend cmp path s = Some (path', s') ->
  search_loop cmp s = match s' with null_element => None | element _ _ _ e => Some e end.
Proof.
  induction s as [|l IHl r IHr c e]; intros path path' s'; cbn; [by intros [= <- <-]|].
  destruct (cmp (key e) =? 0); [by intros [= <- <-]|]. unfold push.
  destruct (cmp (key e) <? 0); (case_if; [|done]); cbn; eauto.
Qed.

Lemma tree_search_spec t k : wf t -> tree_search compare t k = fst <$> spec_find k (contents t).
Proof.
  intros Hwf. unfold tree_search, contents. destruct (locate t k Hwf) as (path & s & E & _ & Hloc).
  rewrite (search_loop_descend _ _ _ _ _ E). destruct s; by rewrite (spec_find_located _ _ _ _ _ Hloc).
Qed.

(** ** Sequences of calls *)

Inductive call := Insert (k : K) (key_size : Z) (alloc : option Z) | Delete (k : K) | Search (k : K) | Reset_tree | Delete_tree.

(** The element that is returned as its key and count. *)
Inductive answer := Element (e : option (K * Z)) | Result (z : Z) | Key (k : option K) | Done.

Definition do_call (t : TREE K) (c : call) : option (TREE K * answer) :=
  match c with
  | Insert k key_size alloc => '(t, a, _) ← tree_insert compare t k key_size alloc; Some (t, Element (a ≫= element_at t))
  | Delete k => '(t, z, _) ← tree_delete compare t k; Some (t, Result z)
  | Search k => Some (t, Key (tree_search compare t k))
  | Reset_tree => Some ((reset_tree t).1, Done)
  | Delete_tree => Some ((delete_tree t).1, Done)
  end.

Definition spec_call (cfg : config) (st : list (K * Z) * Z) (c : call) : list (K * Z) * Z * answer :=
  let '(l, alloc) := st in
  match c with
  | Insert k key_size a =>
      let '(l, alloc, e) := spec_tree_insert cfg l alloc k key_size (bool_decide (is_Some a)) in (l, alloc, Element e)
  | Delete k => let '(l, alloc, z) := spec_tree_delete cfg l alloc k in (l, alloc, Result z)
  | Search k => (l, alloc, Key (fst <$> spec_find k l))
  | Reset_tree | Delete_tree => ([], 0, Done)
  end.

Fixpoint run (t : TREE K) (cs : list call) : option (TREE K * list answer) :=
  match cs with
  | [] => Some (t, [])
  | c :: cs => '(t, a) ← do_call t c; '(t, l) ← run t cs; Some (t, a :: l)
  end.

Fixpoint spec_run (cfg : config) (st : list (K * Z) * Z) (cs : list call) : list (K * Z) * Z * list answer :=
  match cs with
  | [] => (st, [])
  | c :: cs => let '(st, a) := spec_call cfg st c in let '(st, l) := spec_run cfg st cs in (st, a :: l)
  end.

(** The allocator never gives the address of an element of the tree. *)
Fixpoint allocs_ok (t : TREE K) (cs : list call) : bool :=
  match cs with
  | [] => true
  | c :: cs =>
      (if c is Insert _ _ alloc then bool_decide (fresh t alloc) else true) &&
      (if do_call t c is Some (t, _) then allocs_ok t cs else true)
  end.

Lemma length_spec_insert k l : (length (spec_insert k l) <= S (length l))%nat.
Proof. induction l as [|[k' c] l IH]; cbn; [lia|]. repeat case_if; cbn; lia. Qed.

Lemma length_spec_call cfg st c : (length (spec_call cfg st c).1.1 <= S (length st.1))%nat.
Proof.
  destruct st as [l alloc], c as [k ks a|k|k| |]; cbn; try lia.
  - unfold spec_tree_insert. pose proof (length_spec_insert k l). repeat case_match; simplify_eq/=; lia.
  - unfold spec_tree_delete, spec_delete. pose proof (length_filter (fun p => compare p.1 k <> 0) l).
    repeat case_match; simplify_eq/=; lia.
Qed.

Lemma tree_call_spec t c : wf t -> (if c is Insert _ _ alloc then fresh t alloc else True) -> Z.of_nat (length (contents t)) + 1 < 2 ^ 32 - 1 ->
  exists t' a, do_call t c = Some (t', a) /\ wf t' /\ config_of t' = config_of t /\
    (contents t', allocated t', a) = spec_call (config_of t) (contents t, allocated t) c.
Proof.
  intros Hwf Hfresh Hroom. destruct c as [k key_size alloc|k|k| |]; cbn.
  - destruct (tree_insert_spec t k key_size alloc Hwf Hfresh Hroom) as (t' & a & ev & -> & Hwf' & Hc & <-). eexists t', _. by split_and!.
  - destruct (tree_delete_spec t k Hwf) as (t' & z & ev & -> & Hwf' & Hc & <-). eexists t', _. by split_and!.
  - rewrite tree_search_spec by done. eexists t, _. by split_and!.
  - eexists _, _. split; [done|]. split; [apply tree_wf_empty|done].
  - eexists _, _. split; [done|]. split; [apply tree_wf_empty|done].
Qed.

Lemma run_spec cs : forall t, wf t -> allocs_ok t cs = true -> Z.of_nat (length (contents t)) + Z.of_nat (length cs) < 2 ^ 32 - 1 ->
  exists t' l, run t cs = Some (t', l) /\ wf t' /\
    (contents t', allocated t', l) = spec_run (config_of t) (contents t, allocated t) cs.
Proof.
  induction cs as [|c cs IH]; intros t Hwf Hok Hlen; [by exists t, []|]. apply andb_true_iff in Hok as [Hfresh Hok]. cbn [length] in Hlen.
  destruct (tree_call_spec t c Hwf) as (t1 & a & E & Hwf1 & Hc & Hs); [destruct c; [by apply bool_decide_eq_true in Hfresh|done..]|lia|]. cbn [run spec_run].
  rewrite E in *. cbn [mbind option_bind]. rewrite <- Hs.
  pose proof (length_spec_call (config_of t) (contents t, allocated t) c) as Hle. rewrite <- Hs in Hle. cbn in Hle.
  destruct (IH t1 Hwf1 Hok) as (t' & l & -> & Hwf' & Hr); [lia|]. cbn [mbind option_bind]. rewrite <- Hc, <- Hr. eexists t', _. by split_and!.
Qed.

(** ** Walking *)

(** The action on the entries of a list, up to the first error. *)
Fixpoint visit_all {S} (action : K -> Z -> S -> Z * S) (l : list (K * Z)) (s : S) : Z * S :=
  match l with
  | [] => (0, s)
  | (k, c) :: l => let '(error, s) := action k c s in if error =? 0 then visit_all action l s else (error, s)
  end.

Lemma visit_all_app {S} (action : K -> Z -> S -> Z * S) l l' : forall s, visit_all action (l ++ l') s =
  let '(error, s) := visit_all action l s in if error =? 0 then visit_all action l' s else (error, s).
Proof.
  induction l as [|[k c] l IH]; intros s; cbn; [done|]. destruct (action k c s) as [error s']. destruct (error =? 0) eqn:E; [apply IH|].
  by rewrite E.
Qed.

Lemma walk_left_root_right {S} (action : K -> Z -> S -> Z * S) el : forall s,
  tree_walk_left_root_right action el s = visit_all action (entry <$> inorder el) s.
Proof.
  induction el as [|l IHl r IHr c e]; intros s; cbn; [done|]. rewrite fmap_app, visit_all_app, IHl. cbn.
  destruct (visit_all action _ s) as [error s']. case_if; [|done]. destruct (action _ _ s') as [error' s'']. by case_if.
Qed.

Lemma walk_right_root_left {S} (action : K -> Z -> S -> Z * S) el : forall s,
  tree_walk_right_root_left action el s = visit_all action (reverse (entry <$> inorder el)) s.
Proof.
  induction el as [|l IHl r IHr c e]; intros s; [done|]. cbn [tree_walk_right_root_left inorder].
  rewrite fmap_app, fmap_cons, reverse_app, reverse_cons, <- app_assoc, visit_all_app, IHr. cbn [app].
  destruct (visit_all action _ s) as [error s']. case_if; [|done]. cbn. destruct (action _ _ s') as [error' s'']. by case_if.
Qed.

(** ** Balance *)

Lemma test_rb_tree_rb c n (el : TREE_ELEMENT K) : rb c n el -> test_rb_tree el = Z.of_nat n.
Proof.
  induction 1 as [|l r e n Hl IHl Hr IHr|l r e cl cr n Hl IHl Hr IHr]; [done|..]; cbn [test_rb_tree]; rewrite IHl, IHr.
  - rewrite decide_False by (rewrite (rb_colour _ _ _ Hl), (rb_colour _ _ _ Hr); naive_solver).
    rewrite (proj2 (Z.leb_le _ _)), Z.eqb_refl by lia. cbn [andb]. rewrite decide_False by done. lia.
  - rewrite decide_False by naive_solver. rewrite (proj2 (Z.leb_le _ _)), Z.eqb_refl by lia. cbn [andb].
    rewrite decide_True by done. lia.
Qed.
End map.

Definition with_flag {K} (t : TREE K) (fl : Z) : TREE K :=
  mkTree (root t) (offset_to_key t) (elements_in_tree t) (size_of_element t) (memory_limit t) (allocated t) (mem_root t)
    (with_delete t) (has_free t) fl.

Lemma init_wf {K} (compare : K -> K -> Z) alloc_size limit size with_delete has_free fl :
  let t0 := with_flag (init_tree alloc_size limit size with_delete has_free) fl in
  wf compare t0 /\ contents t0 = [] /\ allocated t0 = 0.
Proof.
  intros t0. assert (root t0 = null_element /\ elements_in_tree t0 = 0 /\ allocated t0 = 0) as (Hr & He & Ha)
    by (unfold t0, init_tree; cbn; by repeat case_match).
  unfold contents. split_and!; [|by rewrite Hr|done]. split; rewrite ?Hr, ?He; cbn; try constructor; try done. exists O. constructor.
Qed.

(** C4: A tree does what a sorted list of keys and counts does: after any
    sequence of insertions, deletions, searches and resets the elements in order,
    the bytes counted and every answer are those of the list, with or without a
    memory limit, duplicates and memory; the stack of 64 pointers is enough. *)
Theorem tree_refines_sorted_list {K} (compare : K -> K -> Z) `{!Preordered compare} alloc_size limit size with_delete has_free fl cs :
  let t0 := with_flag (init_tree alloc_size limit size with_delete has_free) fl in
  allocs_ok compare t0 cs = true -> Z.of_nat (length cs) < 2 ^ 32 - 1 ->
  exists t l, run compare t0 cs = Some (t, l) /\ (contents t, allocated t, l) = spec_run compare (config_of t0) ([], 0) cs.
Proof.
  intros t0 Hok Hlen. destruct (init_wf compare alloc_size limit size with_delete has_free fl) as (Hwf & Hc & Ha).
  destruct (run_spec compare cs t0 Hwf Hok) as (t & l & E & _ & Hs); [unfold t0; rewrite Hc; cbn; lia|].
  exists t, l. split; [done|]. rewrite Hs. unfold t0 at 2 3. by rewrite Hc, Ha.
Qed.

Lemma tree_refines_sorted_list_witness :
  let t0 := with_flag (init_tree 0 0 8 true false) 0 in
  exists t l, run Z.sub t0 [Insert 5 0 (Some 100); Insert 3 0 (Some 200); Insert 5 0 (Some 300); Search 3; Delete 3; Search 3] = Some (t, l) /\
    (contents t, allocated t, l) =
      ([(5, 2)], 32, [Element (Some (5, 1)); Element (Some (3, 1)); Element (Some (5, 2)); Key (Some 3); Result 0; Key None]).
Proof. apply (tree_refines_sorted_list Z.sub 0 0 8 true false 0); [vm_compute; reflexivity|cbn; lia]. Defined.

(** C8: The tree stays balanced: after any sequence of calls the check of the
    debugging build passes, no branch is longer than twice the logarithm of the
    number of elements, and the keys are in strict order. *)
Theorem tree_stays_balanced {K} (compare : K -> K -> Z) `{!Preordered compare} alloc_size limit size with_delete has_free fl cs :
  let t0 := with_flag (init_tree alloc_size limit size with_delete has_free) fl in
  allocs_ok compare t0 cs = true -> Z.of_nat (length cs) < 2 ^ 32 - 1 ->
  exists t l, run compare t0 cs = Some (t, l) /\ 0 <= test_rb_tree (root t) /\
    (height (root t) <= 2 * Nat.log2 (S (length (contents t))))%nat /\
    StronglySorted (fun p q => compare p.1 q.1 < 0) (contents t).
Proof.
  intros t0 Hok Hlen. destruct (init_wf compare alloc_size limit size with_delete has_free fl) as (Hwf & Hc & _).
  destruct (run_spec compare cs t0 Hwf Hok) as (t & l & E & [[n Hrb] Hs _ _ _ _] & _); [unfold t0; rewrite Hc; cbn; lia|].
  exists t, l. split; [done|]. rewrite (test_rb_tree_rb _ _ _ Hrb). split; [lia|]. unfold contents. rewrite length_fmap. split.
  - pose proof (rb_height _ _ _ Hrb) as Hh. pose proof (rb_size _ _ _ Hrb) as Hn. cbn in Hh. apply Nat.log2_le_pow2 in Hn; lia.
  - clear -Hs. induction Hs; constructor; [done|]. by apply Forall_fmap.
Qed.

Lemma tree_stays_balanced_witness :
  let t0 := with_flag (init_tree 0 0 8 true false) 0 in
  exists t l, run Z.sub t0 [Insert 5 0 (Some 100); Insert 3 0 (Some 200); Insert 1 0 (Some 300); Delete 5] = Some (t, l) /\
    0 <= test_rb_tree (root t) /\ (height (root t) <= 2 * Nat.log2 (S (length (contents t))))%nat /\
    StronglySorted (fun p q => p.1 - q.1 < 0) (contents t).
Proof. apply (tree_stays_balanced Z.sub 0 0 8 true false 0); [vm_compute; reflexivity|cbn; lia]. Defined.

(** [tree_walk] calls the action for the keys and counts in ascending or in
    descending order, up to the first call that returns an error, which is its
    result. *)
Theorem tree_walk_in_order {K S} (action : K -> Z -> S -> Z * S) (t : TREE K) s :
  tree_walk action t left_root_right s = visit_all action (contents t) s /\
  tree_walk action t right_root_left s = visit_all action (reverse (contents t)) s.
Proof. split; [apply walk_left_root_right|apply walk_right_root_left]. Qed.
