(* ===== verification/TreeScan.v ===== *)
(** * Reading the trees of mysys/tree.c in order

    [tree_search_edge] and [tree_search_key] leave a stack of elements that
    [tree_search_next] moves along, in one direction or the other: this is how an
    index is read.  The stacks are those of the frames of Tree.v; the elements
    found are those of the sorted list of TreeMap.v. *)

From stdpp Require Import base numbers list sets sorting.
From Stdlib Require Import ZArith Lia.
From S2P Require Import Prelude Tree TreeRB TreeMap.

Local Open Scope Z_scope.

Section scan.
Context {K : Type}.
Notation tree := (TREE_ELEMENT K).
Notation frame := (frame K).

Implicit Types (f : frame) (t : tree) (path : list frame).

(** ** Stacks of elements *)

(** The elements from [t] up to the root and [null_element]. *)
Fixpoint stack_of (path : list frame) (t : tree) : list tree :=
  t :: match path with [] => [null_element] | f :: up => stack_of up (fill f t) end.

(** The stack above [t]. *)
Definition above (path : list frame) (t : tree) : list tree := tail (stack_of path t).

Lemma stack_of_above path t : stack_of path t = t :: above path t.
Proof. by destruct path. Qed.

Lemma above_cons f up t : above (f :: up) t = stack_of up (fill f t).
Proof. done. Qed.

(** ** Order in a direction *)

Definition before_d (d : side) (path : list frame) : list (cell K) :=
  match d with Left => before path | Right => reverse (after path) end.

Definition after_d (d : side) (path : list frame) : list (cell K) :=
  match d with Left => after path | Right => reverse (before path) end.

Lemma along_nil d : along d ([] : list (cell K)) = [].
Proof. by destruct d. Qed.

Lemma length_along d (l : list (cell K)) : length (along d l) = length l.
Proof. destruct d; cbn [along]; [done|apply length_reverse]. Qed.

Lemma inorder_zip_d d path t :
  along d (inorder (zip path t)) = before_d d path ++ along d (inorder t) ++ after_d d path.
Proof. rewrite inorder_zip. destruct d; cbn [along before_d after_d]; [done|]. by rewrite !reverse_app, <- app_assoc. Qed.

Lemma after_d_cons d f up : after_d d (f :: up) =
  if decide (fside f = d) then fcell f :: along d (inorder (fother f)) ++ after_d d up else after_d d up.
Proof.
  destruct f as [s c e o]. case_decide as E; destruct d, s; try done; cbn [after_d before after fside fcell fother along]; rewrite ?app_nil_r; try done.
  by rewrite !reverse_app, reverse_singleton.
Qed.

Lemma before_d_cons d f up : before_d d (f :: up) =
  before_d d up ++ if decide (fside f = d) then [] else along d (inorder (fother f)) ++ [fcell f].
Proof.
  destruct f as [s c e o]. case_decide as E; destruct d, s; try done; cbn [before_d before after fside fcell fother along app]; rewrite ?app_nil_r; try done.
  by rewrite reverse_cons, reverse_app, <- app_assoc.
Qed.

(** A stack that is at the element [e] of the tree: [A] comes before it in the
    direction [d], [B] after it. *)
Definition points (d : side) (root : tree) (A : list (cell K)) (e : cell K) (B : list (cell K)) (st : list tree) : Prop :=
  exists path c near far, st = stack_of path (node d c e near far) /\ zip path (node d c e near far) = root /\
    A = before_d d path ++ along d (inorder near) /\ B = along d (inorder far) ++ after_d d path.

Lemma points_order d root A e B st : points d root A e B st -> along d (inorder root) = A ++ e :: B.
Proof.
  intros (path & c & near & far & _ & <- & -> & ->). rewrite inorder_zip_d, inorder_node. by flat_app.
Qed.

Lemma points_position d root A e B st : points d root A e B st -> position st = Some e.
Proof. intros (path & c & near & far & -> & _). rewrite stack_of_above. by destruct d. Qed.

(** ** Going down to an edge *)

Lemma to_edge_spec d t : forall path, t <> null_element ->
  exists inner c e far, to_edge d (above path t) t = stack_of (inner ++ path) (node d c e null_element far) /\
    zip inner (node d c e null_element far) = t /\ before_d d inner = [].
Proof.
  induction t as [|l IHl r IHr c e]; intros path Ht; [done|]. cbn [to_edge].
  set (x := element l r c e) in *. rewrite <- stack_of_above.
  assert (exists near far, x = node d c e near far /\ (match d with Left => l | Right => r end) = near) as (near & far & Ex & ->)
    by (destruct d; eauto).
  destruct near as [|nl nr nc ne] eqn:En.
  { exists [], c, e, far. cbn. rewrite Ex. split; [done|]. split; [done|]. by destruct d. }
  rewrite <- En in *. set (f := mkFrame d c e far).
  assert (exists inner c' e' far', to_edge d (above (f :: path) near) near = stack_of (inner ++ f :: path) (node d c' e' null_element far') /\
    zip inner (node d c' e' null_element far') = near /\ before_d d inner = []) as (inner & c' & e' & far' & E & Hz & Hb).
  { assert (near <> null_element) as Hn by (by rewrite En). destruct d; injection Ex as -> ->; [by apply IHl|by apply IHr]. }
  exists (inner ++ [f]), c', e', far'. rewrite <- app_assoc. cbn [app]. rewrite <- E. split_and!.
  - by rewrite above_cons, Ex.
  - by rewrite zip_app, Hz, Ex.
  - destruct d; cbn in *; [by rewrite before_app, Hb|]. by rewrite after_app, reverse_app, Hb.
Qed.

(** [before_d] and [after_d] of two stacks, one on the other. *)
Lemma before_d_app d p q : before_d d (p ++ q) = before_d d q ++ before_d d p.
Proof. destruct d; cbn; [apply before_app|]. by rewrite after_app, reverse_app. Qed.

Lemma after_d_app d p q : after_d d (p ++ q) = after_d d p ++ after_d d q.
Proof. destruct d; cbn; [apply after_app|]. by rewrite before_app, reverse_app. Qed.

Lemma edge_points d root path t : t <> null_element -> zip path t = root ->
  exists e B, points d root (before_d d path) e B (to_edge d (above path t) t) /\ along d (inorder t) ++ after_d d path = e :: B.
Proof.
  intros Ht Hz. destruct (to_edge_spec d t path Ht) as (inner & c & e & far & E & Hi & Hb).
  exists e, (along d (inorder far) ++ after_d d (inner ++ path)). split.
  - exists (inner ++ path), c, null_element, far. split_and!; [done|by rewrite zip_app, Hi| |done].
    rewrite before_d_app, Hb. by destruct d; rewrite ?app_nil_r.
  - rewrite <- Hi, inorder_zip_d, Hb, inorder_node, after_d_app. cbn [app]. destruct d; cbn [inorder along reverse app]; by flat_app.
Qed.

(** ** Going up *)

Lemma same_element_refl d c e (a b : tree) : same_element (node d c e a b) (node d c e a b) = true.
Proof. destruct d; cbn; apply Z.eqb_refl. Qed.

(** A subtree is not the one beside it. *)
Lemma same_element_other f (x : tree) : NoDup (addr <$> inorder (fill f x)) -> x <> null_element -> same_element x (fother f) = false.
Proof.
  intros Hnd Hx. destruct x as [|l r c e], (fother f) as [|l' r' c' e'] eqn:Eo; try done. cbn. apply Z.eqb_neq. intros Heq.
  rewrite wrap_fill in Hnd. unfold wrap in Hnd. rewrite Eo in Hnd. destruct (fside f); rewrite fmap_app, NoDup_app in Hnd;
    destruct Hnd as (_ & Hnd & _); apply (Hnd (addr e)); cbn; rewrite ?fmap_app, Heq; set_solver.
Qed.

Lemma nodup_zip path (t : tree) : NoDup (addr <$> inorder (zip path t)) -> NoDup (addr <$> inorder t).
Proof. rewrite inorder_zip, !fmap_app, !NoDup_app. naive_solver. Qed.

Lemma child_fill_other f x : ELEMENT_CHILD (fill f x) (opposite (fside f)) = Some (fother f).
Proof. unfold fill. by destruct (fside f). Qed.

Lemma child_fill_side f x : ELEMENT_CHILD (fill f x) (fside f) = Some x.
Proof. unfold fill. by destruct (fside f). Qed.

(** The stack at the innermost frame on side [d]. *)
Fixpoint nearest (d : side) (path : list frame) (t : tree) : option (list tree) :=
  match path with
  | [] => None
  | f :: up => if decide (fside f = d) then Some (stack_of up (fill f t)) else nearest d up (fill f t)
  end.

Lemma nearest_spec d root path : forall t, zip path t = root ->
  match after_d d path with
  | [] => nearest d path t = None
  | e :: B => exists st, nearest d path t = Some st /\ points d root (before_d d path ++ along d (inorder t)) e B st
  end.
Proof.
  induction path as [|f up IH]; intros t Hz; [by destruct d|]. rewrite after_d_cons, before_d_cons. cbn [nearest zip] in *.
  case_decide as E.
  - eexists. split; [done|]. exists up, (fcolour f), t, (fother f). unfold fill in *. rewrite E, app_nil_r in *. by split_and!.
  - specialize (IH (fill f t) Hz). destruct (after_d d up) as [|e B]; [done|]. destruct IH as (st & -> & Hst). exists st. split; [done|].
    unfold fill in Hst. assert (fside f = opposite d) as Ef by (by destruct d, (fside f)). rewrite Ef, node_opposite, inorder_node in Hst.
    by rewrite <- !app_assoc in *.
Qed.

Lemma step_up_nearest d path : forall x, x <> null_element -> NoDup (addr <$> inorder (zip path x)) ->
  step_up (opposite d) x (above path x) = Some (default [null_element] (nearest d path x)).
Proof.
  induction path as [|f up IH]; intros x Hx Hnd; [by destruct d|].
  rewrite above_cons, stack_of_above. cbn [step_up nearest zip] in *. case_decide as E.
  - rewrite <- E, child_fill_other, (same_element_other f x (nodup_zip _ _ Hnd) Hx). by rewrite <- stack_of_above.
  - assert (ELEMENT_CHILD (fill f x) (opposite d) = Some x) as ->
      by (assert (opposite d = fside f) as -> by (by destruct d, (fside f)); apply child_fill_side).
    assert (same_element x x = true) as -> by (destruct x; [done|apply Z.eqb_refl]).
    apply IH; [unfold fill; by destruct (fside f)|done].
Qed.

(** ** One step *)

Lemma next_spec d root A e B st : NoDup (addr <$> inorder root) -> points d root A e B st ->
  exists st', tree_search_next st d (opposite d) = Some st' /\
    match B with
    | [] => position st' = None
    | e' :: B' => points d root (A ++ [e]) e' B' st'
    end.
Proof.
  intros Hnd (path & c & near & far & -> & Hz & -> & ->). rewrite stack_of_above. cbn [tree_search_next].
  replace (ELEMENT_CHILD (node d c e near far) (opposite d)) with (Some far) by (by destruct d). cbn [mbind option_bind].
  rewrite <- stack_of_above. destruct far as [|fl fr fc fe] eqn:Ef.
  - cbn [is_null]. rewrite step_up_nearest; [|by destruct d|by rewrite Hz]. eexists. split; [done|].
    pose proof (nearest_spec d root path _ Hz) as Hst. rewrite inorder_node in Hst. cbn [inorder] in *. rewrite along_nil in *. cbn [app].
    destruct (after_d d path); [by rewrite Hst|]. destruct Hst as (st & -> & Hst). by rewrite <- app_assoc.
  - rewrite <- Ef in *. replace (is_null far) with false by (by rewrite Ef). set (f := mkFrame (opposite d) c e near).
    assert (stack_of path (node d c e near far) = above (f :: path) far) as ->
      by (rewrite above_cons; unfold fill; cbn; by rewrite node_opposite).
    destruct (edge_points d root (f :: path) far) as (e' & B' & Hp & E); [by rewrite Ef|cbn; unfold fill; cbn; by rewrite node_opposite|].
    eexists. split; [done|]. rewrite after_d_cons, before_d_cons in *. cbn [fside fother fcell f] in *.
    rewrite decide_False in * by (by destruct d). rewrite E. by rewrite <- app_assoc.
Qed.

(** ** Reading on to the end *)

(** The elements from a position on. *)
Fixpoint read_on (fuel : nat) (d : side) (st : list tree) : option (list (cell K)) :=
  match fuel with
  | O => None
  | S fuel =>
      match position st with
      | None => Some []
      | Some e => st ← tree_search_next st d (opposite d); l ← read_on fuel d st; Some (e :: l)
      end
  end.

Lemma read_on_spec d root B : forall A e st fuel, NoDup (addr <$> inorder root) -> points d root A e B st -> (S (length B) < fuel)%nat ->
  read_on fuel d st = Some (e :: B).
Proof.
  induction B as [|e' B IH]; intros A e st fuel Hnd Hp Hf; (destruct fuel as [|fuel]; [lia|]); cbn [read_on length] in *;
    rewrite (points_position _ _ _ _ _ _ Hp); destruct (next_spec _ _ _ _ _ _ Hnd Hp) as (st' & -> & Hst); cbn [mbind option_bind].
  - destruct fuel; [lia|]. cbn. by rewrite Hst.
  - by rewrite (IH _ _ _ _ Hnd Hst) by lia.
Qed.

Lemma read_edge d (t : TREE K) : NoDup (addr <$> inorder (root t)) ->
  read_on (S (S (length (inorder (root t))))) d (tree_search_edge t d) = Some (along d (inorder (root t))).
Proof.
  intros Hnd. unfold tree_search_edge. destruct (root t) as [|l r c e] eqn:E; [by destruct d|]. rewrite <- E in *.
  destruct (edge_points d (root t) [] (root t)) as (e' & B & Hp & Hb); [by rewrite E|done|].
  replace (along d (inorder (root t))) with (e' :: B) by (rewrite <- Hb; destruct d; cbn; by rewrite app_nil_r).
  replace [null_element] with (above [] (root t)) by done. apply (read_on_spec _ _ _ _ _ _ _ Hnd Hp).
  apply points_order, (f_equal length) in Hp. rewrite length_app in Hp. cbn in Hp.
  rewrite length_along in Hp. lia.
Qed.

(** ** Searching for a key *)

Section key.
Context (cmp : K -> Z) (fl : ha_rkey_function).

(** The side to which an equal element sends the search, and whether it is
    remembered. *)
Definition zero_side : side :=
  match fl with HA_READ_KEY_EXACT | HA_READ_KEY_OR_NEXT | HA_READ_BEFORE_KEY => Left | _ => Right end.

Definition remembers : bool := match fl with HA_READ_AFTER_KEY => false | _ => true end.

Definition supported : bool :=
  match fl with
  | HA_READ_KEY_EXACT | HA_READ_KEY_OR_NEXT | HA_READ_AFTER_KEY | HA_READ_BEFORE_KEY
  | HA_READ_PREFIX_LAST | HA_READ_PREFIX_LAST_OR_PREV => true
  | _ => false
  end.

(** The side of an element on which the place sought is. *)
Definition goes (e : cell K) : side :=
  if cmp (key e) =? 0 then zero_side else if cmp (key e) <? 0 then Right else Left.

Definition equal (path : list frame) (t : tree) : option (list tree) :=
  if remembers then
    st ← nearest zero_side path t; e ← position st; if cmp (key e) =? 0 then Some st else None
  else None.

(** What has been remembered is still right when the search goes past an element
    that is not equal. *)
Lemma equal_none path t : mono cmp (before path ++ inorder t ++ after path) ->
  (exists e, e ∈ inorder t /\ cmp (key e) <> 0 /\ goes e = zero_side) -> equal path t = None.
Proof.
  intros Hm (e & He & Hne & Hgo). unfold equal. destruct remembers; [|done].
  pose proof (nearest_spec zero_side _ path t eq_refl) as Hn. destruct (after_d zero_side path) as [|z B] eqn:Ea; [by rewrite Hn|].
  destruct Hn as (st & -> & Hst). cbn. rewrite (points_position _ _ _ _ _ _ Hst). cbn.
  destruct (Z.eqb_spec (cmp (key z)) 0) as [Ez|]; [|done]. exfalso. unfold mono in Hm.
  rewrite StronglySorted_app in Hm. destruct Hm as (H1 & _ & Hm). rewrite StronglySorted_app in Hm. destruct Hm as (H2 & _ & _).
  unfold goes in Hgo. rewrite (proj2 (Z.eqb_neq _ _) Hne) in Hgo. destruct zero_side; cbn in Ea.
  - destruct (Z.ltb_spec (cmp (key e)) 0); [done|]. destruct (H2 e z He) as [_ Hgt]; [rewrite Ea; left|]. lia.
  - destruct (Z.ltb_spec (cmp (key e)) 0); [|done]. assert (z ∈ before path) as Hz by (rewrite <- elem_of_reverse, Ea; left).
    destruct (H1 z e Hz) as [H' _]; [set_solver|]. lia.
Qed.

(** Going on past an element on the stack. *)
Lemma equal_other d c e near far path : d <> zero_side ->
  equal (mkFrame d c e far :: path) near = equal path (node d c e near far).
Proof. intros Hd. unfold equal. cbn [nearest fside]. by rewrite decide_False by done. Qed.

Lemma equal_same c e near far path :
  equal (mkFrame zero_side c e far :: path) near =
    if remembers && (cmp (key e) =? 0) then Some (stack_of path (node zero_side c e near far)) else None.
Proof.
  assert (position (stack_of path (node zero_side c e near far)) = Some e) as E by (rewrite stack_of_above; by destruct zero_side).
  unfold equal. cbn [nearest fside]. rewrite decide_True by done. destruct remembers; [|done]. cbn [mbind option_bind andb].
  unfold fill. cbn [fside fcolour fcell fother]. by rewrite E.
Qed.

Definition key_order (path : list frame) : Prop :=
  Forall (fun e => goes e = Right) (before path) /\ Forall (fun e => goes e = Left) (after path).

Lemma goes_before a e : (cmp (key e) < 0 -> cmp (key a) < 0) /\ (0 < cmp (key a) -> 0 < cmp (key e)) -> goes e = Right -> goes a = Right.
Proof.
  intros [H1 H2]. unfold goes. destruct (Z.eqb_spec (cmp (key e)) 0), (Z.eqb_spec (cmp (key a)) 0),
    (Z.ltb_spec (cmp (key e)) 0), (Z.ltb_spec (cmp (key a)) 0); intros ?; try done; lia.
Qed.

Lemma goes_after a e : (cmp (key a) < 0 -> cmp (key e) < 0) /\ (0 < cmp (key e) -> 0 < cmp (key a)) -> goes e = Left -> goes a = Left.
Proof.
  intros [H1 H2]. unfold goes. destruct (Z.eqb_spec (cmp (key e)) 0), (Z.eqb_spec (cmp (key a)) 0),
    (Z.ltb_spec (cmp (key e)) 0), (Z.ltb_spec (cmp (key a)) 0); intros ?; try done; lia.
Qed.

(** The decision at an element. *)
Lemma key_step e (parents : list tree) (le : option (list tree)) : supported = true -> exists v,
  (if cmp (key e) =? 0 then
     match fl with
     | HA_READ_KEY_EXACT | HA_READ_KEY_OR_NEXT | HA_READ_BEFORE_KEY => Some (1, Some parents)
     | HA_READ_AFTER_KEY => Some (-1, le)
     | HA_READ_PREFIX_LAST | HA_READ_PREFIX_LAST_OR_PREV => Some (-1, Some parents)
     | _ => None
     end
   else Some (cmp (key e), le)) = Some (v, if remembers && (cmp (key e) =? 0) then Some parents else le) /\
  (v <? 0) = bool_decide (goes e = Right).
Proof.
  unfold supported. intros Hs. unfold goes, remembers, zero_side. destruct (Z.eqb_spec (cmp (key e)) 0) as [E|E].
  - destruct fl; try done; eexists; (split; [reflexivity|done]).
  - eexists. split; [by rewrite andb_false_r|]. by destruct (cmp (key e) <? 0).
Qed.

Lemma equal_step c e near far path : let d := goes e in mono cmp (inorder (zip path (node d c e near far))) ->
  equal (mkFrame d c e far :: path) near =
    if remembers && (cmp (key e) =? 0) then Some (stack_of path (node d c e near far)) else equal path (node d c e near far).
Proof.
  intros d Hm. destruct (decide (d = zero_side)) as [E|Hd].
  - rewrite E, equal_same. destruct (remembers && (cmp (key e) =? 0)) eqn:Er; [done|]. symmetry.
    apply andb_false_iff in Er as [Er|Er]; [unfold equal; by rewrite Er|]. rewrite <- E.
    apply equal_none; [by rewrite <- inorder_zip|]. exists e. split; [|by apply Z.eqb_neq in Er].
    apply (elem_of_reverse e). assert (e ∈ along d (inorder (node d c e near far))) as He by (rewrite inorder_node; set_solver).
    destruct d; cbn [along] in He; by rewrite ?elem_of_reverse in *.
  - rewrite equal_other by done. destruct (Z.eqb_spec (cmp (key e)) 0) as [Ez|]; [|by rewrite andb_false_r].
    destruct Hd. unfold d, goes. by rewrite Ez.
Qed.

Lemma search_key_loop_spec t : forall path, supported = true -> mono cmp (inorder (zip path t)) -> key_order path ->
  exists path', zip path' null_element = zip path t /\ key_order path' /\
    search_key_loop cmp fl (above path t) t (nearest Left path t) (nearest Right path t) (equal path t) =
      Some (nearest Left path' null_element, nearest Right path' null_element, equal path' null_element).
Proof.
  induction t as [|l IHl r IHr c e]; intros path Hs Hm [Hb Ha]; [by exists path|]. cbn [search_key_loop].
  set (t := element l r c e) in *. rewrite <- stack_of_above.
  destruct (key_step e (stack_of path t) (equal path t) Hs) as (v & -> & Hv). cbn [mbind option_bind]. rewrite Hv.
  pose proof (equal_step c e) as He. cbv zeta in He. pose proof Hm as Hm'. rewrite inorder_zip in Hm'. unfold mono in Hm'.
  rewrite !StronglySorted_app in Hm'. destruct Hm' as (_ & _ & _ & Hm' & _). cbn [inorder t] in Hm'. rewrite StronglySorted_app in Hm'.
  destruct Hm' as (Hl & _ & [_ Hr]%StronglySorted_inv). destruct (goes e) eqn:Eg; cbn [node] in He.
  - rewrite bool_decide_eq_false_2 by done. specialize (He l r path Hm). fold t in He. rewrite <- He.
    destruct (IHl (mkFrame Left c e r :: path)) as (path' & Hz & Ho & E); [done..| |by exists path']. split; cbn; rewrite ?app_nil_r; [done|].
    constructor; [done|]. apply Forall_app. split; [|done]. eapply Forall_impl; [exact Hr|]. intros a Hae. exact (goes_after _ _ Hae Eg).
  - rewrite bool_decide_eq_true_2 by done. specialize (He r l path Hm). fold t in He. rewrite <- He.
    destruct (IHr (mkFrame Right c e l :: path)) as (path' & Hz & Ho & E); [done..| |by exists path']. split; cbn; [|done].
    rewrite !Forall_app, Forall_singleton. split_and!; [done| |done]. apply Forall_forall. intros a Hin.
    eapply goes_before; [|exact Eg]. apply Hl; [done|left].
Qed.
End key.

(** ** What a search finds *)

Definition scan_direction (fl : ha_rkey_function) : side :=
  match fl with HA_READ_KEY_EXACT | HA_READ_KEY_OR_NEXT | HA_READ_AFTER_KEY => Left | _ => Right end.

Definition wanted (fl : ha_rkey_function) (v : Z) : bool :=
  match fl with
  | HA_READ_KEY_EXACT | HA_READ_KEY_OR_NEXT => 0 <=? v
  | HA_READ_AFTER_KEY => 0 <? v
  | HA_READ_BEFORE_KEY => v <? 0
  | _ => v <=? 0
  end.

Definition exact_only (fl : ha_rkey_function) : bool :=
  match fl with HA_READ_KEY_EXACT | HA_READ_PREFIX_LAST => true | _ => false end.

(** The entries that are read from the position of a search on. *)
Definition spec_scan (cmp : K -> Z) (fl : ha_rkey_function) (l : list (K * Z)) : list (K * Z) :=
  let hits := filter (fun p => wanted fl (cmp p.1) = true) l in
  let hits := match scan_direction fl with Left => hits | Right => reverse hits end in
  match hits with
  | p :: _ => if exact_only fl && negb (cmp p.1 =? 0) then [] else hits
  | [] => []
  end.

Lemma wanted_goes cmp fl e : supported fl = true -> wanted fl (cmp (key e)) = bool_decide (goes cmp fl e = scan_direction fl).
Proof.
  intros Hs. unfold goes. destruct (Z.eqb_spec (cmp (key e)) 0) as [->|]; [by destruct fl|].
  destruct (Z.ltb_spec (cmp (key e)) 0), fl; try done; cbn; repeat case_bool_decide; try done; lia.
Qed.

Lemma hits_key_order cmp fl path : supported fl = true -> key_order cmp fl path ->
  let hits := filter (fun p => wanted fl (cmp p.1) = true) (entry <$> before path ++ after path) in
  match scan_direction fl with Left => hits | Right => reverse hits end = entry <$> after_d (scan_direction fl) path.
Proof.
  intros Hs [Hb Ha] hits. unfold hits. rewrite fmap_app, filter_app.
  destruct (scan_direction fl) eqn:Ed; cbn [after_d].
  - rewrite filter_none, filter_all; [done| |]; apply Forall_fmap; (eapply Forall_impl; [eassumption|]); intros e He; cbn;
      rewrite wanted_goes, Ed, He by done; done.
  - rewrite filter_all, filter_none; [by rewrite app_nil_r, fmap_reverse| |]; apply Forall_fmap; (eapply Forall_impl; [eassumption|]);
      intros e He; cbn; rewrite wanted_goes, Ed, He by done; done.
Qed.

Lemma equal_nearest cmp fl path t : if equal cmp fl path t is Some _ then equal cmp fl path t = nearest (zero_side fl) path t else True.
Proof.
  unfold equal. destruct (remembers fl); [|done]. destruct (nearest (zero_side fl) path t) as [st|]; [|done]. cbn.
  destruct (position st); [|done]. cbn. by case_if.
Qed.

Lemma search_key_result (compare : K -> K -> Z) (t : TREE K) (k : K) fl : supported fl = true -> mono (fun x => compare x k) (inorder (root t)) ->
  exists path, zip path null_element = root t /\ key_order (fun x => compare x k) fl path /\
    tree_search_key compare t k fl =
      if exact_only fl then equal (fun x => compare x k) fl path null_element else nearest (scan_direction fl) path null_element.
Proof.
  intros Hs Hm. destruct (search_key_loop_spec (fun x => compare x k) fl (root t) [] Hs Hm) as (path & Hz & Ho & E); [by split|].
  exists path. split; [done|]. split; [done|]. unfold tree_search_key.
  assert (equal (fun x => compare x k) fl [] (root t) = None) as En by (unfold equal; by destruct (remembers fl)).
  rewrite En in E. change [null_element] with (above [] (root t)). cbn [nearest] in E. rewrite E. cbn [mbind option_bind].
  pose proof (equal_nearest (fun x => compare x k) fl path null_element) as Heq.
  destruct fl; try done; cbn [exact_only scan_direction zero_side] in *; by destruct (equal _ _ path null_element).
Qed.

Lemma scan_spec (compare : K -> K -> Z) (t : TREE K) (k : K) fl : supported fl = true ->
  NoDup (addr <$> inorder (root t)) -> mono (fun x => compare x k) (inorder (root t)) ->
  match tree_search_key compare t k fl with
  | None => spec_scan (fun x => compare x k) fl (contents t) = []
  | Some st => exists l, read_on (S (S (length (inorder (root t))))) (scan_direction fl) st = Some l /\
      spec_scan (fun x => compare x k) fl (contents t) = entry <$> l
  end.
Proof.
  intros Hs Hnd Hm. destruct (search_key_result compare t k fl Hs Hm) as (path & Hz & Ho & ->).
  pose proof (hits_key_order _ _ _ Hs Ho) as Hh. cbv zeta in Hh. unfold spec_scan, contents. cbv zeta.
  replace (inorder (root t)) with (before path ++ after path) by (by rewrite <- Hz, inorder_zip). rewrite Hh.
  pose proof (nearest_spec (scan_direction fl) (root t) path null_element Hz) as Hn.
  destruct (after_d (scan_direction fl) path) as [|e B] eqn:Ea.
  - destruct (exact_only fl) eqn:Ex; [|by rewrite Hn]. unfold equal.
    replace (zero_side fl) with (scan_direction fl) by (by destruct fl). rewrite Hn. by destruct (remembers fl).
  - destruct Hn as (st & Hn & Hp). cbn [fmap list_fmap]. change (entry e).1 with (key e).
    assert (exists l, read_on (S (S (length (before path ++ after path)))) (scan_direction fl) st = Some l /\ entry <$> (e :: B) = entry <$> l) as Hread.
    { exists (e :: B). split; [|done]. eapply read_on_spec; [done|exact Hp|]. apply points_order, (f_equal length) in Hp.
      rewrite length_app in Hp. cbn [length] in Hp. replace (before path ++ after path) with (inorder (root t)) by (by rewrite <- Hz, inorder_zip).
      rewrite length_along in Hp. lia. }
    destruct (exact_only fl) eqn:Ex; cbn [andb]; [|by rewrite Hn]. unfold equal.
    replace (zero_side fl) with (scan_direction fl) by (by destruct fl). replace (remembers fl) with true by (by destruct fl).
    rewrite Hn. cbn [mbind option_bind]. rewrite (points_position _ _ _ _ _ _ Hp). cbn [mbind option_bind].
    by destruct (compare (key e) k =? 0).
Qed.
End scan.

Definition entries {K} (l : option (list (cell K))) : option (list (K * Z)) :=
  match l with Some l => Some (map entry l) | None => None end.

(** The entries that are read from a search on to the end. *)
Definition scan_from {K} (compare : K -> K -> Z) (t : TREE K) (k : K) (fl : ha_rkey_function) : option (list (K * Z)) :=
  match tree_search_key compare t k fl with
  | None => Some []
  | Some st => entries (read_on (S (S (length (inorder (root t))))) (scan_direction fl) st)
  end.

(** C7: A search for a key and the steps from there on read exactly the entries
    the search mode asks for, in its direction: those from the key on, those
    behind it, those before it, and nothing if an exact match is asked for and
    there is none.  The key may be a part of a key that several elements equal. *)
Theorem tree_search_key_scans {K} (compare : K -> K -> Z) (t : TREE K) k fl :
  wf compare t -> supported fl = true -> mono (fun x => compare x k) (inorder (root t)) ->
  scan_from compare t k fl = Some (spec_scan (fun x => compare x k) fl (contents t)).
Proof.
  intros Hwf Hs Hm. unfold scan_from. pose proof (scan_spec compare t k fl Hs (wf_addr _ _ Hwf) Hm) as H.
  destruct (tree_search_key compare t k fl); [|by rewrite H]. by destruct H as (r & -> & ->).
Qed.

Lemma tree_search_key_scans_witness :
  exists t l, run Z.sub (with_flag (init_tree 0 0 8 true false) 0)
      [Insert 5 0 (Some 100); Insert 3 0 (Some 200); Insert 9 0 (Some 300); Insert 7 0 (Some 400)] = Some (t, l) /\
    scan_from Z.sub t 4 HA_READ_KEY_OR_NEXT = Some [(5, 1); (7, 1); (9, 1)] /\
    scan_from Z.sub t 7 HA_READ_BEFORE_KEY = Some [(5, 1); (3, 1)].
Proof.
  destruct (init_wf Z.sub 0 0 8 true false 0) as (Hwf & _ & _).
  destruct (run_spec Z.sub [Insert 5 0 (Some 100); Insert 3 0 (Some 200); Insert 9 0 (Some 300); Insert 7 0 (Some 400)] _ Hwf)
    as (t & l & E & Hwf' & _); [vm_compute; reflexivity|vm_compute; reflexivity|].
  exists t, l. split; [exact E|]. vm_compute in E. injection E as <- <-.
  pose proof (wf_sorted _ _ Hwf') as Hs. split.
  - exact (tree_search_key_scans Z.sub _ 4 HA_READ_KEY_OR_NEXT Hwf' eq_refl (sorted_mono Z.sub 4 _ Hs)).
  - exact (tree_search_key_scans Z.sub _ 7 HA_READ_BEFORE_KEY Hwf' eq_refl (sorted_mono Z.sub 7 _ Hs)).
Defined.

(** From either edge the steps read all entries, in order or in reverse
    order. *)
Theorem tree_search_edge_scans {K} (compare : K -> K -> Z) (t : TREE K) : wf compare t ->
  let n := S (S (length (inorder (root t)))) in
  entries (read_on n Left (tree_search_edge t Left)) = Some (contents t) /\
  entries (read_on n Right (tree_search_edge t Right)) = Some (reverse (contents t)).
Proof.
  intros Hwf n. unfold n. rewrite !read_edge by apply (wf_addr _ _ Hwf). cbn [entries mbind option_bind along]. split; [done|].
  unfold contents. by rewrite fmap_reverse.
Qed.

Lemma tree_search_edge_scans_witness :
  let t : TREE Z := init_tree 0 0 8 true false in
  entries (read_on 2 Left (tree_search_edge t Left)) = Some [] /\ entries (read_on 2 Right (tree_search_edge t Right)) = Some [].
Proof. apply (tree_search_edge_scans Z.sub (init_tree 0 0 8 true false)). apply (init_wf Z.sub 0 0 8 true false 0). Defined.
