(* ===== verification/QSort.v ===== *)
(** * Sorting (mysys/mf_qsort.c, mysys/mf_qsort2.c) and [queue_fix]

    The quicksort of mysys with an explicit stack, a median pivot and an insert
    sort for small ranges.  The array is a list, a pointer the index of the
    element it points to; the elements are of any type (the code moves [size]
    bytes) and the comparison is a function.  [qsort] and [qsort2] are the same
    text and differ in the extra argument of the comparison. *)

From stdpp Require Import base numbers list sorting relations.
From Stdlib Require Import ZArith Lia.
From S2P Require Import Prelude Queues.

Local Open Scope Z_scope.

Definition STACK_SIZE : Z := 8 * 8.
Definition THRESHOLD_FOR_INSERT_SORT : Z := 10.

Section QSort.

Context {A : Type} (cmp : A -> A -> Z).

(** [*ptr]: [None] outside the array. *)
Definition at_ (l : list A) (i : Z) : option A := if 0 <=? i then l !! Z.to_nat i else None.

Definition SWAP (l : list A) (a b : Z) : option (list A) :=
  x ← at_ l a; y ← at_ l b;
  Some (<[Z.to_nat b := x]> (<[Z.to_nat a := y]> l)).

(** [CMP(p, q)] of two positions. *)
Definition CMP (l : list A) (p q : Z) : option Z := x ← at_ l p; y ← at_ l q; Some (cmp x y).

Definition MEDIAN (l : list A) (low mid high : Z) : option (list A) :=
  c ← CMP l high low;
  l ← (if c <? 0 then SWAP l high low else Some l);
  c ← CMP l mid low;
  if c <? 0 then SWAP l mid low
  else
    c ← CMP l high mid;
    if c <? 0 then SWAP l mid high else Some l.

(** The inner loop of the insert sort. *)
Fixpoint shift_down (fuel : nat) (l : list A) (low ptr : Z) : option (list A) :=
  match fuel with
  | O => None
  | S fuel =>
      if low <? ptr then
        c ← CMP l (ptr - 1) ptr;
        if 0 <? c then l ← SWAP l ptr (ptr - 1); shift_down fuel l low (ptr - 1) else Some l
      else Some l
  end.

Fixpoint insert_sort (fuel : nat) (l : list A) (low high low_ptr : Z) : option (list A) :=
  match fuel with
  | O => None
  | S fuel =>
      if low_ptr <=? high then
        l ← shift_down (S (length l)) l low low_ptr;
        insert_sort fuel l low high (low_ptr + 1)
      else Some l
  end.

(** The pivot element is put at [mid]; where the partition starts. *)
Definition find_pivot (l : list A) (low high count : Z) : option (list A * Z * Z * Z) :=
  let mid := low + Z.shiftr count 1 in
  if 40 <? count then
    let step := count / 8 in
    l ← MEDIAN l low (low + step) (low + step * 2);
    l ← MEDIAN l (mid - step) mid (mid + step);
    l ← MEDIAN l (high - 2 * step) (high - step) high;
    l ← MEDIAN l (low + step) mid (high - step);
    Some (l, mid, low, high)
  else
    l ← MEDIAN l low mid high;
    Some (l, mid, low + 1, high - 1).

Fixpoint scan_up (fuel : nat) (l : list A) (pivot : A) (p : Z) : option Z :=
  match fuel with
  | O => None
  | S fuel => x ← at_ l p; if cmp x pivot <? 0 then scan_up fuel l pivot (p + 1) else Some p
  end.

Fixpoint scan_down (fuel : nat) (l : list A) (pivot : A) (p : Z) : option Z :=
  match fuel with
  | O => None
  | S fuel => x ← at_ l p; if cmp pivot x <? 0 then scan_down fuel l pivot (p - 1) else Some p
  end.

(** The [do ... while (low_ptr <= high_ptr)] around the two scans. *)
Fixpoint partition (fuel : nat) (l : list A) (pivot : A) (low_ptr high_ptr : Z) : option (list A * Z * Z) :=
  match fuel with
  | O => None
  | S fuel =>
      low_ptr ← scan_up (S (length l)) l pivot low_ptr;
      high_ptr ← scan_down (S (length l)) l pivot high_ptr;
      if low_ptr <? high_ptr then
        l ← SWAP l low_ptr high_ptr;
        let low_ptr := low_ptr + 1 in
        let high_ptr := high_ptr - 1 in
        if low_ptr <=? high_ptr then partition fuel l pivot low_ptr high_ptr
        else Some (l, low_ptr, high_ptr)
      else if low_ptr =? high_ptr then Some (l, low_ptr + 1, high_ptr - 1)
      else Some (l, low_ptr, high_ptr)
  end.

(** The array, the range being sorted and the stack, its top first. *)
Record sort_state := mkSort {
  s_array : list A;
  s_low : Z;
  s_high : Z;
  s_stack : list (Z * Z)
}.

Definition POP (l : list A) (stack : list (Z * Z)) : option sort_state :=
  match stack with
  | [] => None
  | (low, high) :: stack => Some (mkSort l low high stack)
  end.

(** [PUSH(low, high)] and the new range. *)
Definition PUSH (l : list A) (pushed : Z * Z) (low high : Z) (stack : list (Z * Z)) : option sort_state :=
  if Z.of_nat (length stack) <? STACK_SIZE then Some (mkSort l low high (pushed :: stack)) else None.

(** The part behind the partition; [size * (p - q)] is the difference of two
    pointers. *)
Definition next_range (size : Z) (l : list A) (low high low_ptr high_ptr : Z) (stack : list (Z * Z))
  : option sort_state :=
  if s32 (size * (high_ptr - low)) <=? 0 then
    if s32 (size * (high - low_ptr)) <=? 0 then POP l stack
    else Some (mkSort l low_ptr high stack)
  else if s32 (size * (high - low_ptr)) <=? 0 then Some (mkSort l low high_ptr stack)
  else if size * (high - low_ptr) <? size * (high_ptr - low) then PUSH l (low, high_ptr) low_ptr high stack
  else PUSH l (low_ptr, high) low high_ptr stack.

(** One round of the main loop. *)
Definition sort_step (size : Z) (s : sort_state) : option sort_state :=
  let '(mkSort l low high stack) := s in
  let count := high - low + 1 in
  if count <? THRESHOLD_FOR_INSERT_SORT then
    l ← insert_sort (S (length l)) l low high (low + 1);
    POP l stack
  else
    '(l, mid, low_ptr, high_ptr) ← find_pivot l low high count;
    pivot ← at_ l mid;
    '(l, low_ptr, high_ptr) ← partition (S (length l)) l pivot low_ptr high_ptr;
    next_range size l low high low_ptr high_ptr stack.

Fixpoint sort_loop (fuel : nat) (size : Z) (s : sort_state) : option (list A) :=
  match fuel with
  | O => None
  | S fuel =>
      s ← sort_step size s;
      match s_stack s with
      | [] => Some (s_array s)
      | _ => sort_loop fuel size s
      end
  end.

(** [garbage] is what the first stack node holds, which is never written. *)
Definition qsort2 (size : Z) (garbage : Z * Z) (base : list A) : option (list A) :=
  let count := Z.of_nat (length base) in
  if count <=? 1 then Some base
  else sort_loop (2 * length base) size (mkSort base 0 (count - 1) [garbage]).

End QSort.

Arguments mkSort {A}.
Arguments s_array {A}.
Arguments s_low {A}.
Arguments s_high {A}.
Arguments s_stack {A}.

(** ** queues.c *)

Definition queue_fix_cmp (compare : Z -> Z -> Z -> Z) (q : QUEUE) (a b : Z) : Z :=
  compare (first_cmp_arg q) (a + offset_to_key q) (b + offset_to_key q).

(** The elements [root[1] .. root[elements]] are sorted in place. *)
Definition queue_fix (compare : Z -> Z -> Z -> Z) (garbage : Z * Z) (q : QUEUE) : option QUEUE :=
  r ← root q;
  let n := Z.to_nat (elements q) in
  if (length r <? S n)%nat then None
  else
    s ← qsort2 (queue_fix_cmp compare q) 8 garbage (take n (drop 1 r));
    Some (with_heap q (take 1 r ++ s ++ drop (S n) r) (elements q)).

Example qsort_small : qsort2 Z.sub 4 (7, 7) [3; 1; 2] = Some [1; 2; 3].
Proof. reflexivity. Qed.

Example qsort_large : qsort2 Z.sub 4 (7, 7) (rev (seqZ 0 50) ++ seqZ 10 20) =
  Some (merge_sort Z.le (seqZ 0 50 ++ seqZ 10 20)).
Proof. vm_compute. reflexivity. Qed.

Section Proofs.

Context {A : Type} `{!Inhabited A} (cmp : A -> A -> Z) `{!Preordered cmp}.

Definition le_ (a b : A) : Prop := cmp a b <= 0.

#[local] Instance le_preorder : PreOrder le_.
Proof.
  split; [|exact order_trans]. intros a. unfold le_. pose proof (order_anti a a). lia.
Qed.

Lemma cmp_le a b : ~ cmp b a < 0 -> le_ a b.
Proof. rewrite order_anti. unfold le_. lia. Qed.

Lemma cmp_lt a b : cmp a b < 0 -> le_ a b.
Proof. unfold le_. lia. Qed.

(** The element at a position inside the array. *)
Definition elt (l : list A) (i : Z) : A := l !!! Z.to_nat i.

Abbreviation inside l i := (0 <= i < Z.of_nat (length l)) (only parsing).

Lemma at_elt l i : inside l i -> at_ l i = Some (elt l i).
Proof.
  intros Hi. unfold at_, elt. destruct (Z.leb_spec 0 i); [|lia].
  apply list_lookup_lookup_total_lt. lia.
Qed.

Lemma CMP_elt l i j : inside l i -> inside l j -> CMP cmp l i j = Some (cmp (elt l i) (elt l j)).
Proof. intros Hi Hj. unfold CMP. by rewrite (at_elt l i), (at_elt l j) by done. Qed.

(** Exchange of two elements, and the list it gives. *)
Definition exchanged (l : list A) (i j : Z) : list A :=
  <[Z.to_nat j := elt l i]> (<[Z.to_nat i := elt l j]> l).

Lemma SWAP_spec l i j : inside l i -> inside l j -> SWAP l i j = Some (exchanged l i j).
Proof. intros Hi Hj. unfold SWAP. by rewrite (at_elt l i), (at_elt l j) by done. Qed.

Lemma length_exchanged l i j : length (exchanged l i j) = length l.
Proof. unfold exchanged. by rewrite !length_insert. Qed.

Lemma elt_exchanged l i j k : inside l i -> inside l j -> 0 <= k ->
  elt (exchanged l i j) k = if decide (k = j) then elt l i else if decide (k = i) then elt l j else elt l k.
Proof.
  intros Hi Hj Hk. unfold exchanged, elt.
  repeat case_decide; subst; rewrite ?list_lookup_total_insert_eq by (rewrite ?length_insert; lia); auto;
    rewrite list_lookup_total_insert_ne by lia; [by rewrite list_lookup_total_insert_eq by lia|].
  by rewrite list_lookup_total_insert_ne by lia.
Qed.

Lemma exchanged_perm l i j : inside l i -> inside l j -> exchanged l i j ≡ₚ l.
Proof.
  intros Hi Hj. unfold exchanged. apply Permutation_insert_swap; unfold elt; apply list_lookup_lookup_total_lt; lia.
Qed.

(** A list that comes from another by exchanges within a range. *)
Definition exchange (lo hi : Z) (l l' : list A) : Prop :=
  exists i j, lo <= i <= hi /\ lo <= j <= hi /\ inside l i /\ inside l j /\ l' = exchanged l i j.

Abbreviation moves lo hi := (rtc (exchange lo hi)).

Lemma moves_one lo hi l i j : lo <= i <= hi -> lo <= j <= hi -> inside l i -> inside l j ->
  moves lo hi l (exchanged l i j).
Proof. intros. apply rtc_once. by exists i, j. Qed.

Lemma moves_length lo hi l l' : moves lo hi l l' -> length l' = length l.
Proof. induction 1 as [|l l1 l2 (i & j & _ & _ & _ & _ & ->) _ IH]; [done|]. by rewrite IH, length_exchanged. Qed.

Lemma moves_perm lo hi l l' : moves lo hi l l' -> l' ≡ₚ l.
Proof.
  induction 1 as [|l l1 l2 (i & j & _ & _ & Hi & Hj & ->) _ IH]; [done|]. by rewrite IH, exchanged_perm.
Qed.

Lemma moves_outside lo hi l l' k : moves lo hi l l' -> 0 <= k -> k < lo \/ hi < k -> elt l' k = elt l k.
Proof.
  intros H Hk Ho. induction H as [|l l1 l2 (i & j & Hi & Hj & Hil & Hjl & ->) _ IH]; [done|].
  rewrite IH, elt_exchanged by lia. repeat case_decide; auto; lia.
Qed.

Lemma moves_inside lo hi l l' (P : A -> Prop) : moves lo hi l l' -> 0 <= lo ->
  (forall k, lo <= k <= hi -> P (elt l k)) -> forall k, lo <= k <= hi -> P (elt l' k).
Proof.
  intros H Hlo. induction H as [|l l1 l2 (i & j & Hi & Hj & Hil & Hjl & ->) _ IH]; [done|].
  intros HP. apply IH. intros k Hk. rewrite elt_exchanged by lia. repeat case_decide; auto.
Qed.

Lemma moves_mono lo hi lo' hi' l l' : lo' <= lo -> hi <= hi' -> moves lo hi l l' -> moves lo' hi' l l'.
Proof.
  intros ? ? H. induction H as [|l l1 l2 (i & j & Hi & Hj & Hil & Hjl & ->) _ IH]; [done|].
  eapply rtc_l; [|exact IH]. exists i, j. repeat split; auto; lia.
Qed.

(** *** The insert sort *)

(** The range is sorted, but for the pairs whose second element is at [ptr]. *)
Definition sorted_but (l : list A) (lo hi ptr : Z) : Prop :=
  forall i j, lo <= i -> i < j -> j <= hi -> j <> ptr -> le_ (elt l i) (elt l j).

Definition sorted_on (l : list A) (lo hi : Z) : Prop :=
  forall i j, lo <= i -> i < j -> j <= hi -> le_ (elt l i) (elt l j).

Lemma shift_down_spec fuel l lo hi ptr : 0 <= lo -> lo <= ptr <= hi -> hi < Z.of_nat (length l) ->
  ptr - lo < Z.of_nat fuel -> sorted_but l lo hi ptr ->
  exists l', shift_down cmp fuel l lo ptr = Some l' /\ moves lo hi l l' /\ sorted_on l' lo hi.
Proof.
  revert l ptr. induction fuel as [|fuel IH]; intros l ptr Hlo Hptr Hhi Hf Hs; [lia|]. cbn [shift_down].
  destruct (Z.ltb_spec lo ptr) as [Hlt|Hge].
  - rewrite CMP_elt, bind_Some_eq by lia. destruct (Z.ltb_spec 0 (cmp (elt l (ptr - 1)) (elt l ptr))) as [Hc|Hc].
    + rewrite SWAP_spec, bind_Some_eq by lia.
      apply order_anti, cmp_lt in Hc.
      destruct (IH (exchanged l ptr (ptr - 1)) (ptr - 1)) as (l' & E & Hm & Hs');
        rewrite ?length_exchanged; try lia.
      { intros i j Hi Hij Hj Hne. rewrite !elt_exchanged by lia.
        repeat case_decide; subst; solve [lia | exact Hc | apply Hs; lia]. }
      exists l'. split; [done|]. split; [|done]. etrans; [|exact Hm]. apply moves_one; lia.
    + exists l. split; [done|]. split; [done|]. intros i j Hi Hij Hj. destruct (decide (j = ptr)) as [->|]; [|by apply Hs].
      destruct (decide (i = ptr - 1)) as [->|]; [done|]. transitivity (elt l (ptr - 1)); [apply Hs; lia|done].
  - exists l. split; [done|]. split; [done|]. intros i j Hi Hij Hj. apply Hs; lia.
Qed.

Lemma insert_sort_spec fuel l lo hi p : 0 <= lo -> lo < p -> hi < Z.of_nat (length l) ->
  hi + 1 - p < Z.of_nat fuel -> sorted_on l lo (p - 1) -> p <= hi + 1 ->
  exists l', insert_sort cmp fuel l lo hi p = Some l' /\ moves lo hi l l' /\ sorted_on l' lo hi.
Proof.
  revert l p. induction fuel as [|fuel IH]; intros l p Hlo Hp Hhi Hf Hs Hle; [lia|]. cbn [insert_sort].
  destruct (Z.leb_spec p hi) as [H|H].
  - destruct (shift_down_spec (S (length l)) l lo p p) as (l1 & -> & Hm1 & Hs1); [lia..| |].
    { intros i j ? ? ? ?. apply Hs; lia. }
    rewrite bind_Some_eq. pose proof (moves_length _ _ _ _ Hm1).
    destruct (IH l1 (p + 1)) as (l' & -> & Hm & Hs'); [lia..| |lia|].
    { by replace (p + 1 - 1) with p by lia. }
    exists l'. split; [done|]. split; [|done]. etrans; [|exact Hm]. eapply moves_mono; [..|exact Hm1]; lia.
  - exists l. split; [done|]. split; [done|]. by replace hi with (p - 1) by lia.
Qed.

(** *** The pivot *)

(** [MEDIAN] orders three positions; with others between them it still only
    exchanges. *)
Lemma MEDIAN_spec l lo hi a b c : 0 <= lo -> hi < Z.of_nat (length l) -> lo <= a -> a < b -> b < c -> c <= hi ->
  exists l', MEDIAN cmp l a b c = Some l' /\ moves lo hi l l' /\
    le_ (elt l' a) (elt l' b) /\ le_ (elt l' b) (elt l' c).
Proof.
  intros Hlo Hhi Ha Hab Hbc Hc. unfold MEDIAN. rewrite CMP_elt, bind_Some_eq by lia.
  assert (exists l1, (if cmp (elt l c) (elt l a) <? 0 then SWAP l c a else Some l) = Some l1 /\
    moves lo hi l l1 /\ length l1 = length l /\ le_ (elt l1 a) (elt l1 c)) as (l1 & -> & Hm1 & Hl1 & Hac).
  { destruct (Z.ltb_spec (cmp (elt l c) (elt l a)) 0) as [Hx|Hx].
    - rewrite SWAP_spec by lia. eexists. split; [reflexivity|]. split; [apply moves_one; lia|].
      split; [apply length_exchanged|]. rewrite !elt_exchanged by lia. repeat case_decide; try lia. by apply cmp_lt.
    - exists l. repeat (split; [done|]). apply cmp_le. lia. }
  rewrite bind_Some_eq, (CMP_elt l1 b a), bind_Some_eq by lia. destruct (Z.ltb_spec (cmp (elt l1 b) (elt l1 a)) 0) as [Hx|Hx].
  - rewrite SWAP_spec by lia. eexists. split; [reflexivity|]. split; [etrans; [exact Hm1|apply moves_one; lia]|].
    rewrite !elt_exchanged by lia. repeat case_decide; try lia. split; [by apply cmp_lt|done].
  - apply Z.le_ngt in Hx. apply cmp_le in Hx. rewrite CMP_elt, bind_Some_eq by lia.
    destruct (Z.ltb_spec (cmp (elt l1 c) (elt l1 b)) 0) as [Hy|Hy].
    + rewrite SWAP_spec by lia. eexists. split; [reflexivity|]. split; [etrans; [exact Hm1|apply moves_one; lia]|].
      rewrite !elt_exchanged by lia. repeat case_decide; try lia. split; [done|by apply cmp_lt].
    + exists l1. repeat (split; [done|]). apply cmp_le. lia.
Qed.

(** Where the partition may start: everything outside the two pointers is on
    the right side of the pivot. *)
Definition parted (l : list A) (pivot : A) (lo hi low_ptr high_ptr : Z) : Prop :=
  (forall k, lo <= k < low_ptr -> le_ (elt l k) pivot) /\
  (forall k, high_ptr < k <= hi -> le_ pivot (elt l k)).

Lemma find_pivot_spec l lo hi : 0 <= lo -> hi < Z.of_nat (length l) -> 10 <= hi - lo + 1 ->
  exists l' mid low_ptr high_ptr, find_pivot cmp l lo hi (hi - lo + 1) = Some (l', mid, low_ptr, high_ptr) /\
    moves lo hi l l' /\ lo <= low_ptr /\ low_ptr <= mid <= high_ptr /\ high_ptr <= hi /\
    parted l' (elt l' mid) lo hi low_ptr high_ptr.
Proof.
  intros Hlo Hhi Hc. unfold find_pivot. rewrite Z.shiftr_div_pow2 by lia. change (2 ^ 1) with 2.
  set (count := hi - lo + 1) in *. set (mid := lo + count / 2). set (st := count / 8).
  destruct (Z.ltb_spec 40 count) as [H|H].
  - assert (5 <= st /\ 2 * st < count / 2 - 1 /\ count / 2 + 2 * st < count - 1) as (? & ? & ?) by (unfold st; dlia).
    assert (lo < mid < hi) by (unfold mid, count in *; dlia). unfold mid, count in *.
    destruct (MEDIAN_spec l lo hi lo (lo + st) (lo + st * 2)) as (l1 & -> & M1 & _); [lia..|].
    rewrite bind_Some_eq. pose proof (moves_length _ _ _ _ M1).
    destruct (MEDIAN_spec l1 lo hi (lo + (hi - lo + 1) / 2 - st) (lo + (hi - lo + 1) / 2) (lo + (hi - lo + 1) / 2 + st))
      as (l2 & -> & M2 & _); [lia..|].
    rewrite bind_Some_eq. pose proof (moves_length _ _ _ _ M2).
    destruct (MEDIAN_spec l2 lo hi (hi - 2 * st) (hi - st) hi) as (l3 & -> & M3 & _); [lia..|].
    rewrite bind_Some_eq. pose proof (moves_length _ _ _ _ M3).
    destruct (MEDIAN_spec l3 lo hi (lo + st) (lo + (hi - lo + 1) / 2) (hi - st)) as (l4 & -> & M4 & _); [lia..|].
    rewrite bind_Some_eq. eexists _, _, _, _. split; [reflexivity|].
    split; [by rewrite M1, M2, M3|]. repeat (split; [lia|]). intros k Hk; lia.
  - assert (lo < mid < hi) by (unfold mid, count in *; dlia).
    destruct (MEDIAN_spec l lo hi lo mid hi) as (l1 & -> & M1 & Ha & Hb); [lia..|].
    rewrite bind_Some_eq. eexists _, _, _, _. split; [reflexivity|]. split; [done|]. repeat (split; [lia|]).
    split; intros k Hk; [replace k with lo by lia|replace k with hi by lia]; done.
Qed.

Lemma scan_up_spec fuel l pivot p s : 0 <= p -> p <= s -> s < Z.of_nat (length l) -> le_ pivot (elt l s) ->
  s - p < Z.of_nat fuel ->
  exists p', scan_up cmp fuel l pivot p = Some p' /\ p <= p' <= s /\ le_ pivot (elt l p') /\
    forall k, p <= k < p' -> le_ (elt l k) pivot.
Proof.
  revert p. induction fuel as [|fuel IH]; intros p Hp Hps Hs Hle Hf; [lia|]. cbn [scan_up].
  rewrite at_elt, bind_Some_eq by lia. destruct (Z.ltb_spec (cmp (elt l p) pivot) 0) as [H|H].
  - assert (p <> s) as Hne. { intros ->. apply order_anti in H. unfold le_ in Hle. lia. }
    destruct (IH (p + 1)) as (p' & E & Hp' & Hle' & Hk); [lia..|done|lia|].
    exists p'. split; [done|]. split; [lia|]. split; [done|]. intros k Hkp.
    destruct (decide (k = p)) as [->|]; [by apply cmp_lt|apply Hk; lia].
  - exists p. split; [done|]. split; [lia|]. split; [apply cmp_le; lia|]. intros k Hk. lia.
Qed.

Lemma scan_down_spec fuel l pivot p s : 0 <= s -> s <= p -> p < Z.of_nat (length l) -> le_ (elt l s) pivot ->
  p - s < Z.of_nat fuel ->
  exists p', scan_down cmp fuel l pivot p = Some p' /\ s <= p' <= p /\ le_ (elt l p') pivot /\
    forall k, p' < k <= p -> le_ pivot (elt l k).
Proof.
  revert p. induction fuel as [|fuel IH]; intros p Hs Hps Hp Hle Hf; [lia|]. cbn [scan_down].
  rewrite at_elt, bind_Some_eq by lia. destruct (Z.ltb_spec (cmp pivot (elt l p)) 0) as [H|H].
  - assert (p <> s) as Hne. { intros ->. apply order_anti in H. unfold le_ in Hle. lia. }
    destruct (IH (p - 1)) as (p' & E & Hp' & Hle' & Hk); [lia..|done|lia|].
    exists p'. split; [done|]. split; [lia|]. split; [done|]. intros k Hkp.
    destruct (decide (k = p)) as [->|]; [by apply cmp_lt|apply Hk; lia].
  - exists p. split; [done|]. split; [lia|]. split; [apply cmp_le; lia|]. intros k Hk. lia.
Qed.

(** What keeps the scans inside the range: an element equal to the pivot
    between the pointers at first, the elements just exchanged later. *)
Definition guarded (l : list A) (pivot : A) (lo hi low_ptr high_ptr : Z) : Prop :=
  (exists s, low_ptr <= s <= high_ptr /\ le_ (elt l s) pivot /\ le_ pivot (elt l s)) \/
  (lo < low_ptr /\ high_ptr < hi).

Lemma scans_spec l pivot lo hi lp hp : 0 <= lo -> hi < Z.of_nat (length l) ->
  lo <= lp -> lp <= hp -> hp <= hi -> parted l pivot lo hi lp hp -> guarded l pivot lo hi lp hp ->
  exists p q, scan_up cmp (S (length l)) l pivot lp = Some p /\ scan_down cmp (S (length l)) l pivot hp = Some q /\
    lp <= p <= hi /\ lo <= q <= hp /\ (p <= q \/ lo < lp /\ hp < hi) /\
    le_ pivot (elt l p) /\ le_ (elt l q) pivot /\ parted l pivot lo hi p q.
Proof.
  intros Hlo Hhi Hlp Hlt Hhp [HL HR] HG.
  assert (exists s1 s2, lp <= s1 <= hi /\ lo <= s2 <= hp /\ le_ pivot (elt l s1) /\ le_ (elt l s2) pivot /\
    (s1 = s2 \/ lo < lp /\ hp < hi)) as (s1 & s2 & H1 & H2 & Hg1 & Hg2 & Hg).
  { destruct HG as [(s & ? & ? & ?)|[? ?]].
    - exists s, s. repeat (split; [done || lia|]). auto.
    - exists (hp + 1), (lp - 1). repeat (split; [lia|]). split; [apply HR; lia|]. split; [apply HL; lia|auto]. }
  destruct (scan_up_spec (S (length l)) l pivot lp s1) as (p & Ep & Hp & Hle1 & Hk1); [lia..|done|lia|].
  destruct (scan_down_spec (S (length l)) l pivot hp s2) as (q & Eq & Hq & Hle2 & Hk2); [lia..|done|lia|].
  exists p, q. split_and!; try done; try lia.
  split; intros k Hk; [destruct (decide (k < lp))|destruct (decide (hp < k))];
    [apply HL|apply Hk1|apply HR|apply Hk2]; lia.
Qed.

Lemma partition_spec fuel l pivot lo hi lp hp : 0 <= lo -> hi < Z.of_nat (length l) ->
  lo <= lp -> lp <= hp -> hp <= hi -> hp - lp < 2 * Z.of_nat fuel ->
  parted l pivot lo hi lp hp -> guarded l pivot lo hi lp hp ->
  exists l' lp' hp', partition cmp fuel l pivot lp hp = Some (l', lp', hp') /\ moves lo hi l l' /\
    hp' < lp' /\ lo < lp' <= hi + 1 /\ lo - 1 <= hp' < hi /\ parted l' pivot lo hi lp' hp'.
Proof.
  revert l lp hp. induction fuel as [|fuel IH]; intros l lp hp Hlo Hhi Hlp Hlt Hhp Hf Hpt HG; [lia|]. cbn [partition].
  destruct (scans_spec l pivot lo hi lp hp) as (p & q & -> & -> & Hp & Hq & Hpq & Hle1 & Hle2 & [HL HR]); [done..|].
  rewrite !bind_Some_eq. destruct (Z.ltb_spec p q) as [Hlt'|Hge].
  - rewrite SWAP_spec, bind_Some_eq by lia.
    assert (parted (exchanged l p q) pivot lo hi (p + 1) (q - 1)) as Hpt'.
    { split; intros k Hk; rewrite elt_exchanged by lia; repeat case_decide; subst; auto; try lia; [apply HL|apply HR]; lia. }
    assert (moves lo hi l (exchanged l p q)) as Hm by (apply moves_one; lia).
    destruct (Z.leb_spec (p + 1) (q - 1)).
    + destruct (IH (exchanged l p q) (p + 1) (q - 1)) as (l' & lp' & hp' & E & Hm' & Hrest);
        [rewrite ?length_exchanged; lia..|done|right; lia|].
      exists l', lp', hp'. split; [done|]. split; [by rewrite Hm|done].
    + eexists _, _, _. split; [reflexivity|]. split; [done|]. repeat (split; [lia|]). done.
  - destruct (Z.eqb_spec p q) as [->|Hne].
    + eexists _, _, _. split; [reflexivity|]. split; [done|]. repeat (split; [lia|]).
      split; intros k Hk; (destruct (decide (k = q)) as [->|]; [done|]); [apply HL|apply HR]; lia.
    + eexists _, _, _. split; [reflexivity|]. split; [done|]. repeat (split; [lia|]). done.
Qed.

(** *** The main loop *)

(** The ranges still to be sorted (the current one first, then the stack) are
    disjoint, and two elements out of order are in one of them. *)
Record sort_inv (l0 l : list A) (pend : list (Z * Z)) : Prop := {
  si_perm : l ≡ₚ l0;
  si_order : forall i j, 0 <= i -> i < j -> j < Z.of_nat (length l) ->
    le_ (elt l i) (elt l j) \/ exists s, s ∈ pend /\ s.1 <= i /\ j <= s.2;
  si_ranges : Forall (fun s => 0 <= s.1 < s.2 /\ s.2 < Z.of_nat (length l)) pend;
  si_disjoint : ForallOrdPairs (fun s t => s.2 < t.1 \/ t.2 < s.1) pend
}.

(** Two elements of which one is outside the current range are in order if not
    both are in another range. *)
Lemma inv_across l0 l lo hi rest i j : sort_inv l0 l ((lo, hi) :: rest) ->
  0 <= i -> i < j -> j < Z.of_nat (length l) ->
  (lo <= i <= hi /\ hi < j) \/ (i < lo /\ lo <= j <= hi) -> le_ (elt l i) (elt l j).
Proof.
  intros [_ Ho _ Hd] Hi Hij Hj Hc. destruct (Ho i j Hi Hij Hj) as [H|(s & Hs & H1 & H2)]; [done|].
  apply elem_of_cons in Hs as [->|Hs]; simpl in *; [lia|].
  inversion_clear Hd as [|? ? HF _]. rewrite Forall_forall in HF. specialize (HF s Hs). simpl in HF. lia.
Qed.

Lemma inv_step l0 l l' lo hi rest new : sort_inv l0 l ((lo, hi) :: rest) -> moves lo hi l l' ->
  (forall i j, lo <= i -> i < j -> j <= hi ->
     le_ (elt l' i) (elt l' j) \/ exists s, s ∈ new /\ s.1 <= i /\ j <= s.2) ->
  Forall (fun s => lo <= s.1 < s.2 /\ s.2 <= hi) new ->
  ForallOrdPairs (fun s t : Z * Z => s.2 < t.1 \/ t.2 < s.1) new ->
  sort_inv l0 l' (new ++ rest).
Proof.
  intros Hinv Hm Hin Hnew Hdn. pose proof Hinv as [Hp Ho Hr Hd]. pose proof (moves_length _ _ _ _ Hm) as Hlen.
  inversion_clear Hr as [|? ? [Hlo Hhi] Hr']. inversion_clear Hd as [|? ? Hd1 Hd']. simpl in *.
  split.
  - by rewrite (moves_perm _ _ _ _ Hm).
  - rewrite Hlen. intros i j Hi Hij Hj. setoid_rewrite elem_of_app.
    destruct (decide (lo <= i <= hi)) as [Hi1|Hi1], (decide (lo <= j <= hi)) as [Hj1|Hj1].
    + destruct (Hin i j) as [?|(s & ? & ? & ?)]; [lia..|auto|eauto 10].
    + left. rewrite (moves_outside lo hi l l' j) by (done || lia).
      apply (moves_inside lo hi l l' (fun x => le_ x (elt l j))); [done|lia| |done].
      intros k Hk. eapply inv_across; [done|lia..].
    + left. rewrite (moves_outside lo hi l l' i) by (done || lia).
      apply (moves_inside lo hi l l' (fun x => le_ (elt l i) x)); [done|lia| |done].
      intros k Hk. eapply inv_across; [done|lia..].
    + rewrite !(moves_outside lo hi l l') by (done || lia). destruct (Ho i j Hi Hij Hj) as [?|(s & Hs & ? & ?)]; [auto|].
      apply elem_of_cons in Hs as [->|Hs]; simpl in *; [lia|]. right. eauto 10.
  - rewrite Hlen. apply Forall_app. split; [|done]. eapply Forall_impl; [exact Hnew|]. simpl. lia.
  - clear Hin. induction new as [|s new IH]; [done|]. inversion_clear Hnew as [|? ? Hs Hnew']. inversion_clear Hdn.
    constructor; [|by apply IH]. apply Forall_app. split; [done|]. eapply Forall_impl; [exact Hd1|]. simpl. lia.
Qed.

(** The sizes of the ranges at least halve with each node on the stack. *)
Fixpoint halving (n : Z) (pend : list (Z * Z)) : Prop :=
  match pend with
  | [] => True
  | (lo, hi) :: rest => (hi - lo + 1) * 2 ^ Z.of_nat (length rest) <= n /\ halving n rest
  end.

(** Bounds the number of rounds. *)
Fixpoint work (pend : list (Z * Z)) : Z :=
  match pend with
  | [] => 0
  | (lo, hi) :: rest => 2 * (hi - lo + 1) - 1 + work rest
  end.

Lemma halving_depth n lo hi rest : lo < hi -> n < 2 ^ 31 -> halving n ((lo, hi) :: rest) -> Z.of_nat (length rest) < 31.
Proof.
  intros Hlt Hn [H _]. destruct (decide (Z.of_nat (length rest) < 31)); [done|exfalso].
  assert (2 ^ 31 <= 2 ^ Z.of_nat (length rest)) by (apply Z.pow_le_mono_r; lia). nia.
Qed.

(** The state of the loop for the ranges [pend]. *)
Definition state_of (garbage : Z * Z) (l : list A) (pend : list (Z * Z)) : sort_state :=
  match pend with
  | [] => mkSort l garbage.1 garbage.2 []
  | (lo, hi) :: rest => mkSort l lo hi (rest ++ [garbage])
  end.

Lemma POP_state g l rest : POP l (rest ++ [g]) = Some (state_of g l rest).
Proof. by destruct g, rest as [|[? ?] ?]. Qed.

(** The two parts that are left, the smaller one first. *)
Definition parts_of (lo hi lp hp : Z) : list (Z * Z) :=
  if hp - lo <=? 0 then if hi - lp <=? 0 then [] else [(lp, hi)]
  else if hi - lp <=? 0 then [(lo, hp)]
  else if hi - lp <? hp - lo then [(lp, hi); (lo, hp)] else [(lo, hp); (lp, hi)].

Lemma ptr_diff size n d : 0 < size -> 1 <= n -> size * n <= 2 ^ 31 -> -1 <= d < n -> (s32 (size * d) <=? 0) = (d <=? 0).
Proof.
  intros Hs Hn1 Hn Hd. assert (size * 1 <= size * n) by nia. assert (size * (d + 1) <= size * n) by nia.
  assert (size * -1 <= size * d) by nia. rewrite s32_small by lia. destruct (Z.leb_spec d 0), (Z.leb_spec (size * d) 0); auto; nia.
Qed.

Lemma ptr_ltb size a b : 0 < size -> (size * a <? size * b) = (a <? b).
Proof. intros Hs. destruct (Z.ltb_spec a b), (Z.ltb_spec (size * a) (size * b)); auto; nia. Qed.

Lemma next_range_spec size g l lo hi lp hp rest n : 0 < size -> size * n <= 2 ^ 31 -> n < 2 ^ 31 ->
  0 <= lo -> lo < hi -> hi < n -> hp < lp -> lo < lp <= hi + 1 -> lo - 1 <= hp < hi -> halving n ((lo, hi) :: rest) ->
  next_range size l lo hi lp hp (rest ++ [g]) = Some (state_of g l (parts_of lo hi lp hp ++ rest)).
Proof.
  intros Hs Hsn Hn Hlo Hlt Hhi Hc Hlp Hhp Hh. unfold next_range, parts_of, PUSH.
  rewrite (ptr_diff size n (hp - lo)), (ptr_diff size n (hi - lp)), ptr_ltb by lia. pose proof (halving_depth _ _ _ _ Hlt Hn Hh) as Hd.
  assert ((Z.of_nat (length (rest ++ [g])) <? STACK_SIZE) = true) as ->.
  { apply Z.ltb_lt. rewrite length_app. simpl. unfold STACK_SIZE. lia. }
  repeat case_if; simpl; auto using POP_state.
Qed.

Lemma parts_halving n lo hi lp hp rest : lo < hi -> hp < lp -> lo < lp <= hi + 1 -> lo - 1 <= hp < hi ->
  halving n ((lo, hi) :: rest) -> halving n (parts_of lo hi lp hp ++ rest).
Proof.
  intros Hlt Hc Hlp Hhp [Hn Hr]. assert (0 < 2 ^ Z.of_nat (length rest)) by lia.
  assert (forall x y : Z, 0 <= x -> x <= y -> x * 2 ^ Z.of_nat (length rest) <= y * 2 ^ Z.of_nat (length rest)) as Hmono by (intros; nia).
  unfold parts_of. repeat case_if; b2p; cbn [app halving length]; auto; repeat split; auto;
    rewrite ?Nat2Z.inj_succ, ?Z.pow_succ_r, ?(Z.mul_comm 2), ?Z.mul_assoc by lia;
    (etrans; [|exact Hn]); rewrite <- ?(Z.mul_assoc _ _ 2), <- ?(Z.mul_comm 2), ?Z.mul_assoc; apply Hmono; lia.
Qed.

Lemma parts_work lo hi lp hp rest : lo < hi -> hp < lp -> lo < lp <= hi + 1 -> lo - 1 <= hp < hi ->
  work (parts_of lo hi lp hp ++ rest) < work ((lo, hi) :: rest).
Proof. intros. unfold parts_of. repeat case_if; b2p; simpl; lia. Qed.

Lemma parts_ranges l pivot lo hi lp hp : hp < lp -> lo < lp <= hi + 1 -> lo - 1 <= hp < hi ->
  parted l pivot lo hi lp hp ->
  (forall i j, lo <= i -> i < j -> j <= hi ->
     le_ (elt l i) (elt l j) \/ exists s, s ∈ parts_of lo hi lp hp /\ s.1 <= i /\ j <= s.2) /\
  Forall (fun s => lo <= s.1 < s.2 /\ s.2 <= hi) (parts_of lo hi lp hp) /\
  ForallOrdPairs (fun s t : Z * Z => s.2 < t.1 \/ t.2 < s.1) (parts_of lo hi lp hp).
Proof.
  intros Hc Hlp Hhp [HL HR]. split_and!.
  - intros i j Hi Hij Hj. destruct (decide (j <= hp)) as [H1|H1]; [|destruct (decide (lp <= i)) as [H2|H2]].
    + right. exists (lo, hp). split; [|simpl; lia]. unfold parts_of. repeat case_if; b2p; try lia; rewrite ?elem_of_cons; auto.
    + right. exists (lp, hi). split; [|simpl; lia]. unfold parts_of. repeat case_if; b2p; try lia; rewrite ?elem_of_cons; auto.
    + left. transitivity pivot; [apply HL|apply HR]; lia.
  - unfold parts_of. repeat case_if; b2p; repeat constructor; simpl; lia.
  - unfold parts_of. repeat case_if; b2p; repeat constructor; simpl; lia.
Qed.

(** One round sorts the current range or splits it. *)
Lemma sort_step_spec size g l0 l lo hi rest n : 0 < size -> size * n <= 2 ^ 31 -> n < 2 ^ 31 ->
  Z.of_nat (length l) = n -> sort_inv l0 l ((lo, hi) :: rest) -> halving n ((lo, hi) :: rest) ->
  exists l' pend, sort_step cmp size (mkSort l lo hi (rest ++ [g])) = Some (state_of g l' pend) /\
    sort_inv l0 l' pend /\ halving n pend /\ length l' = length l /\ work pend < work ((lo, hi) :: rest).
Proof.
  intros Hs Hsn Hn Hl Hinv Hh. pose proof (si_ranges _ _ _ Hinv) as [[Hlo Hhi] _]%Forall_cons. simpl in Hlo, Hhi.
  unfold sort_step. unfold THRESHOLD_FOR_INSERT_SORT. destruct (Z.ltb_spec (hi - lo + 1) 10) as [Hc|Hc].
  - destruct (insert_sort_spec (S (length l)) l lo hi (lo + 1)) as (l' & -> & Hm & Hso); [lia..| |lia|].
    { intros i j ? ? ?. lia. }
    rewrite bind_Some_eq, POP_state. exists l', rest. split; [done|].
    split; [|split; [by destruct Hh|split; [by eapply moves_length|simpl; lia]]].
    eapply (inv_step _ _ _ _ _ _ [] Hinv Hm); [|constructor..]. intros i j ? ? ?. left. by apply Hso.
  - destruct (find_pivot_spec l lo hi) as (l1 & mid & lp & hp & -> & Hm1 & Hlp & Hmid & Hhp & Hpt); [lia..|].
    pose proof (moves_length _ _ _ _ Hm1) as Hl1. rewrite bind_Some_eq, at_elt, bind_Some_eq by lia.
    destruct (partition_spec (S (length l1)) l1 (elt l1 mid) lo hi lp hp)
      as (l' & lp' & hp' & -> & Hm2 & Hc' & Hlp' & Hhp' & Hpt'); [lia..|done| |].
    { left. exists mid. split; [lia|]. split; reflexivity. }
    pose proof (moves_length _ _ _ _ Hm2) as Hl2.
    rewrite bind_Some_eq, (next_range_spec size g l' lo hi lp' hp' rest n) by (done || lia).
    destruct (parts_ranges l' (elt l1 mid) lo hi lp' hp') as (Hin & HF & HO); [done..|].
    eexists l', _. split; [reflexivity|]. split; [|split; [by apply parts_halving; try lia|split; [lia|apply parts_work; lia]]].
    eapply inv_step; [exact Hinv| |done..]. by rewrite Hm1.
Qed.

Lemma sort_loop_spec fuel size g l0 l lo hi rest n : 0 < size -> size * n <= 2 ^ 31 -> n < 2 ^ 31 ->
  Z.of_nat (length l) = n -> sort_inv l0 l ((lo, hi) :: rest) -> halving n ((lo, hi) :: rest) ->
  work ((lo, hi) :: rest) < Z.of_nat fuel ->
  exists l', sort_loop cmp fuel size (mkSort l lo hi (rest ++ [g])) = Some l' /\ sort_inv l0 l' [].
Proof.
  intros Hs Hsn Hn. revert l lo hi rest. induction fuel as [|fuel IH]; intros l lo hi rest Hl Hinv Hh Hw.
  { pose proof (si_ranges _ _ _ Hinv) as HF. exfalso.
    assert (0 <= work ((lo, hi) :: rest)); [|lia]. clear -HF. induction HF as [|[a b] ? [H _] _ IH]; simpl in *; lia. }
  cbn [sort_loop]. destruct (sort_step_spec size g l0 l lo hi rest n) as (l' & pend & -> & Hi' & Hh' & Hl' & Hw'); [done..|].
  rewrite bind_Some_eq. destruct pend as [|[a b] r]; [by exists l'|]. cbn [state_of s_stack].
  destruct (r ++ [g]) as [|t r'] eqn:E; [by apply app_eq_nil in E as [_ ?]|]. rewrite <- E.
  apply IH; [lia|done..|lia].
Qed.

(** An array without a range to sort is sorted. *)
Lemma inv_sorted l0 l : sort_inv l0 l [] -> StronglySorted le_ l.
Proof.
  intros [_ Ho _ _]. apply sorted_pairs. intros i j x y Hij Hx Hy.
  pose proof (lookup_lt_Some _ _ _ Hy) as Hlt. destruct (Ho (Z.of_nat i) (Z.of_nat j)) as [H|(s & Hs & _)]; [lia..| |].
  - unfold elt in H. by rewrite !Nat2Z.id, (list_lookup_total_correct _ _ _ Hx), (list_lookup_total_correct _ _ _ Hy) in H.
  - by apply elem_of_nil in Hs.
Qed.

Lemma qsort_spec size g l : 0 < size -> size * Z.of_nat (length l) <= 2 ^ 31 -> Z.of_nat (length l) < 2 ^ 31 ->
  exists l', qsort2 cmp size g l = Some l' /\ l' ≡ₚ l /\ StronglySorted le_ l'.
Proof.
  intros Hs Hsn Hn. unfold qsort2. destruct (Z.leb_spec (Z.of_nat (length l)) 1) as [H|H].
  - exists l. split; [done|]. split; [done|]. destruct l as [|x [|y l]]; simpl in H; [repeat constructor..|lia].
  - destruct (sort_loop_spec (2 * length l) size g l l 0 (Z.of_nat (length l) - 1) [] (Z.of_nat (length l)))
      as (l' & E & Hi); [done|done|done|done| | | |].
    + split; [done| | |].
      * intros i j ? ? ?. right. eexists. split; [left|simpl; lia].
      * repeat constructor; simpl; lia.
      * repeat constructor.
    + simpl. lia.
    + simpl. lia.
    + exists l'. split; [exact E|]. split; [apply Hi|by eapply inv_sorted].
Qed.

End Proofs.

(** C6: the quicksort is right: for a comparison that is a total preorder and an
    array of less than 2^31 bytes it ends, reads and writes only inside the
    array, never overflows its stack of 64 nodes, and leaves the elements of
    the array in order, whatever the uninitialised stack node holds. *)
Theorem qsort_sorts {A} `{!Inhabited A} (cmp : A -> A -> Z) `{!Preordered cmp} size garbage (base : list A) :
  0 < size -> size * Z.of_nat (length base) < 2 ^ 31 ->
  exists l, qsort2 cmp size garbage base = Some l /\ l ≡ₚ base /\ StronglySorted (fun a b => cmp a b <= 0) l.
Proof. intros Hs Hn. apply (qsort_spec cmp); [done|lia|nia]. Qed.

Lemma qsort_sorts_witness :
  exists l, qsort2 Z.sub 8 (0, 0) (rev (seqZ 0 60)) = Some l /\ l ≡ₚ rev (seqZ 0 60) /\
    StronglySorted (fun a b => a - b <= 0) l.
Proof. apply (qsort_sorts Z.sub 8 (0, 0)); vm_compute; reflexivity. Defined.

(** ** [queue_fix] *)

Lemma queue_fix_preordered compare q : Comparison compare q -> Preordered (queue_fix_cmp compare q).
Proof.
  intros [Hr Hs Ht _]. split; [|exact Ht]. intros a b. specialize (Hs a b). unfold cmpq in Hs. unfold queue_fix_cmp. lia.
Qed.

(** The array after the sort. *)
Lemma live_fixed n r s : 0 <= n < Z.of_nat (length r) -> length s = Z.to_nat n ->
  live n (take 1 r ++ s ++ drop (S (Z.to_nat n)) r) = s /\
  length (take 1 r ++ s ++ drop (S (Z.to_nat n)) r) = length r.
Proof.
  intros Hn Hs. destruct r as [|x r]; [simpl in Hn; lia|]. simpl in Hn |- *. split.
  - unfold live. simpl. rewrite drop_0. by rewrite take_app_length'.
  - rewrite length_app, length_drop. simpl. lia.
Qed.

(** [queue_fix] makes a heap out of any array: when every element may have
    changed it restores the order of a queue with the smallest element at the
    top, and keeps the elements. *)
Theorem queue_fix_correct compare garbage q r : Comparison compare q -> max_at_top q = 0 ->
  root q = Some r -> 0 <= elements q <= max_elements q -> max_elements q < Z.of_nat (length r) ->
  max_elements q < 2 ^ 28 ->
  exists q' r', queue_fix compare garbage q = Some q' /\ queue_wf compare q' r' /\
    elements q' = elements q /\ contents q' r' ≡ₚ live (elements q) r.
Proof.
  intros HC Hm Hr He Hroom Hmax. unfold queue_fix. rewrite Hr, bind_Some_eq.
  destruct (Nat.ltb_spec (length r) (S (Z.to_nat (elements q)))); [lia|]. fold (live (elements q) r).
  pose proof (queue_fix_preordered compare q HC) as HP.
  destruct (qsort_spec (queue_fix_cmp compare q) 8 garbage (live (elements q) r)) as (s & -> & Hp & Hs);
    [done|rewrite length_live; lia..|].
  assert (length s = Z.to_nat (elements q)) as Hl by (rewrite Hp, length_live; lia).
  destruct (live_fixed (elements q) r s) as [El Hlen]; [lia|done|].
  set (r' := take 1 r ++ s ++ drop (S (Z.to_nat (elements q))) r) in *.
  rewrite bind_Some_eq. exists (with_heap q r' (elements q)), r'. split; [done|].
  split; [|split; [done|unfold contents; simpl; by rewrite El]].
  constructor; simpl; [done|lia|lia|lia|]. intros i Hi. unfold above, dir. simpl. rewrite Hm. simpl.
  pose proof (live_get (elements q) r' (Z.to_nat (i / 2 - 1)) ltac:(lia) ltac:(dlia)) as G1.
  pose proof (live_get (elements q) r' (Z.to_nat (i - 1)) ltac:(lia) ltac:(lia)) as G2.
  rewrite El in G1, G2. replace (Z.of_nat (Z.to_nat (i / 2 - 1)) + 1) with (i / 2) in G1 by dlia.
  replace (Z.of_nat (Z.to_nat (i - 1)) + 1) with i in G2 by lia.
  apply (sorted_lookup (le_ (queue_fix_cmp compare q)) s (Z.to_nat (i / 2 - 1)) (Z.to_nat (i - 1))); [done|dlia|done|done].
Qed.

Lemma queue_fix_correct_witness :
  exists q' r', queue_fix cmp_diff (0, 0) (queue_of (rev heap15) 0) = Some q' /\ queue_wf cmp_diff q' r' /\
    elements q' = 15 /\ contents q' r' ≡ₚ rev heap15.
Proof.
  apply (queue_fix_correct cmp_diff (0, 0) (queue_of (rev heap15) 0) (0 :: rev heap15 ++ [0; 0]));
    [apply cmp_diff_ok|reflexivity|reflexivity|simpl; lia|simpl; lia|simpl; lia].
Defined.

(** With the largest element at the top [queue_fix] sorts the wrong way round:
    its comparison leaves [max_at_top] out, and the smallest element becomes
    the top. *)
Lemma queue_fix_ignores_max_at_top : exists q',
  queue_fix cmp_sgn (0, 0) (queue_of [3; 2; 1] (-2)) = Some q' /\ queue_top q' = Some 1 /\
  queue_wf cmp_sgn (queue_of [3; 2; 1] (-2)) [0; 3; 2; 1; 0; 0].
Proof.
  eexists. split; [vm_compute; reflexivity|]. split; [reflexivity|].
  apply (queue_of_wf cmp_sgn [3; 2; 1] (-2)); [reflexivity|simpl; lia].
Qed.
