(* ===== verification/Uni8.v ===== *)
(** * Unicode values of the 8-bit characters (strings/ctype-simple.c,
      strings/ctype-latin1.c, strings/ctype-bin.c)

    Characters are converted to Unicode with a table, and back with tables that
    [create_fromuni] builds when a character set is loaded: one for each plane
    of 256 characters, the fullest plane first, sorted with the quicksort of
    mysys.  latin1 has its own tables for both directions. *)

From stdpp Require Import base numbers list.
From Stdlib Require Import ZArith Lia.
From S2P Require Import Prelude Latin1 Utf8 CtypeSimple QSort.

Local Open Scope Z_scope.

(** ** latin1 and binary *)

Definition my_mb_wc_latin1 (str : list Z) : Z * Z :=
  match str with
  | [] => (MY_CS_TOOFEW 0, 0)
  | c :: _ => let wc := tab cs_to_uni c in (if (wc =? 0) && negb (c =? 0) then MY_CS_ILSEQ else 1, wc)
  end.

(** The result and the byte written; [room] is [end - str]. *)
Definition my_wc_mb_latin1 (wc room : Z) : Z * list Z :=
  if room <=? 0 then (MY_CS_TOOSMALL, [])
  else
    let c := match uni_to_cs (Z.land (Z.shiftr wc 8) 0xFF) with Some pl => tab pl (Z.land wc 0xFF) | None => 0 end in
    (if (c =? 0) && negb (wc =? 0) then MY_CS_ILUNI else 1, [c]).

Definition my_mb_wc_bin (str : list Z) : Z * Z :=
  match str with
  | [] => (MY_CS_TOOFEW 0, 0)
  | c :: _ => (1, c)
  end.

Definition my_wc_mb_bin (wc room : Z) : Z * list Z :=
  if room <=? 0 then (MY_CS_TOOSMALL, [])
  else if wc <? 256 then (1, [u8 wc]) else (MY_CS_ILUNI, []).

(** ** The other 8-bit character sets *)

Record MY_UNI_IDX := mkIdx { from : Z; to : Z; idx_tab : list Z }.

(** A plane and the number of its characters. *)
Record uni_idx := mkUni { nchars : Z; uidx : MY_UNI_IDX }.

#[export] Instance uni_idx_inhabited : Inhabited uni_idx := populate (mkUni 0 (mkIdx 0 0 [])).

Definition PLANE_NUM : nat := 256.
Definition PLANE_NUMBER (x : Z) : Z := Z.shiftr x 8 mod 256.

Definition pcmp (F S : uni_idx) : Z :=
  let res := nchars S - nchars F in
  if res =? 0 then from (uidx F) - to (uidx S) else res.

(** One round of the loop that counts the characters of each plane. *)
Definition count_plane (tab_to_uni : list Z) (idx : list uni_idx) (i : Z) : list uni_idx :=
  let wc := tab tab_to_uni i in
  let pl := Z.to_nat (PLANE_NUMBER wc) in
  if negb (wc =? 0) || (i =? 0) then
    alter (fun u =>
      let r := if nchars u =? 0 then mkIdx wc wc []
               else mkIdx (if wc <? from (uidx u) then wc else from (uidx u)) (if to (uidx u) <? wc then wc else to (uidx u)) [] in
      mkUni (nchars u + 1) r) pl idx
  else idx.

(** The table of a plane, filled with the characters that are in its range. *)
Definition fill_plane (tab_to_uni : list Z) (u : MY_UNI_IDX) : MY_UNI_IDX :=
  let numchars := Z.to_nat (to u - from u + 1) in
  mkIdx (from u) (to u)
    (foldl (fun t ch =>
       let wc := tab tab_to_uni ch in
       if (from u <=? wc) && (wc <=? to u) && negb (wc =? 0) then <[Z.to_nat (wc - from u) := ch]> t else t)
     (replicate numchars 0) (seqZ 1 255)).

(** The planes up to the first empty one; [alloc] tells for each allocation
    whether it succeeds. *)
Fixpoint fill_planes (alloc : nat -> bool) (k : nat) (tab_to_uni : list Z) (idx : list uni_idx) : option (list MY_UNI_IDX * nat) :=
  match idx with
  | [] => Some ([], k)
  | u :: idx =>
      if nchars u =? 0 then Some ([], k)
      else if alloc k then
        '(l, k) ← fill_planes alloc (S k) tab_to_uni idx; Some (fill_plane tab_to_uni (uidx u) :: l, k)
      else None
  end.

(** [None] is the result TRUE, else the new [tab_from_uni] up to its end marker;
    [garbage] is the stack node that the quicksort does not set. *)
Definition create_fromuni (alloc : nat -> bool) (garbage : Z * Z) (tab_to_uni : option (list Z)) : option (list MY_UNI_IDX) :=
  tab_to_uni ← tab_to_uni;
  let idx := foldl (count_plane tab_to_uni) (replicate PLANE_NUM (mkUni 0 (mkIdx 0 0 []))) (seqZ 0 256) in
  idx ← qsort2 pcmp 24 garbage idx;
  '(l, k) ← fill_planes alloc 0 tab_to_uni idx;
  if alloc k then Some l else None.

Definition my_mb_wc_8bit (tab_to_uni : list Z) (str : list Z) : Z * Z :=
  match str with
  | [] => (MY_CS_TOOFEW 0, 0)
  | c :: _ => let wc := tab tab_to_uni c in (if (wc =? 0) && negb (c =? 0) then MY_CS_ILSEQ else 1, wc)
  end.

Fixpoint wc_mb_loop (tab_from_uni : list MY_UNI_IDX) (wc : Z) : Z * list Z :=
  match tab_from_uni with
  | [] => (MY_CS_ILUNI, [])
  | idx :: rest =>
      if (from idx <=? wc) && (wc <=? to idx) then
        let c := tab (idx_tab idx) (wc - from idx) in
        (if (c =? 0) && negb (wc =? 0) then MY_CS_ILUNI else 1, [c])
      else wc_mb_loop rest wc
  end.

Definition my_wc_mb_8bit (tab_from_uni : list MY_UNI_IDX) (wc room : Z) : Z * list Z :=
  if room <=? 0 then (MY_CS_TOOSMALL, []) else wc_mb_loop tab_from_uni wc.

(** ** The results *)

(** The results agree, and the bytes where a character is found. *)
Definition same_wc_mb (r1 r2 : Z * list Z) : bool :=
  (r1.1 =? r2.1) && (negb (r1.1 =? 1) || bool_decide (r1.2 = r2.2)).

(** A property of the characters of the planes of latin1. *)
Definition latin1_planes (P : Z -> bool) : bool :=
  forallb (fun p => forallb (fun i => P (256 * p + i)) (seqZ 0 256)) [0; 1; 2; 0x20; 0x21].

Lemma latin1_planes_spec P : latin1_planes P = true -> forall wc, 0 <= wc < 0x10000 ->
  P wc = true \/ uni_to_cs (wc / 256) = None /\ ~ wc / 256 ∈ [0; 1; 2; 0x20; 0x21].
Proof.
  unfold latin1_planes. rewrite forallb_forall. intros Hall wc Hwc.
  destruct (decide (wc / 256 ∈ [0; 1; 2; 0x20; 0x21])) as [Hin|Hout].
  - left. apply list_elem_of_In in Hin. specialize (Hall _ Hin). rewrite forallb_forall in Hall.
    specialize (Hall (wc mod 256)). replace (256 * (wc / 256) + wc mod 256) with wc in Hall by dlia. apply Hall.
    apply list_elem_of_In, elem_of_seqZ. dlia.
  - right. split; [|done]. rewrite !not_elem_of_cons in Hout. destruct Hout as (? & ? & ? & ? & ? & _).
    generalize dependent (wc / 256). intros p. unfold uni_to_cs. repeat case_match; done.
Qed.

(** A plane without characters. *)
Lemma wc_mb_latin1_outside wc : 0 <= wc < 0x10000 -> uni_to_cs (wc / 256) = None -> ~ wc / 256 ∈ [0; 1; 2; 0x20; 0x21] ->
  my_wc_mb_latin1 wc 1 = (MY_CS_ILUNI, [0]).
Proof.
  intros Hwc Hn Hp. unfold my_wc_mb_latin1. change 0xFF with (Z.ones 8). rewrite Z.shiftr_div_pow2, !Z.land_ones by lia.
  change (2 ^ 8) with 256. rewrite (Z.mod_small (wc / 256)), Hn by dlia.
  destruct (Z.eqb_spec wc 0) as [->|]; [|done]. by destruct Hp; left.
Qed.

(** The Unicode tables of latin1 are inverse to each other: every byte has
    a character and comes back from it, and every character that has a byte
    is the one of this byte. *)
Theorem latin1_unicode_roundtrip :
  (forall c, 0 <= c < 256 -> exists wc, my_mb_wc_latin1 [c] = (1, wc) /\ my_wc_mb_latin1 wc 1 = (1, [c])) /\
  (forall wc c, 0 <= wc < 0x10000 -> my_wc_mb_latin1 wc 1 = (1, [c]) -> my_mb_wc_latin1 [c] = (1, wc)).
Proof.
  split.
  - intros c Hc. exists (tab cs_to_uni c).
    pose (ok c := bool_decide (my_mb_wc_latin1 [c] = (1, tab cs_to_uni c)) && bool_decide (my_wc_mb_latin1 (tab cs_to_uni c) 1 = (1, [c]))).
    assert (ok c = true) as Hok by (revert c Hc; apply bytes_all; by vm_compute).
    unfold ok in Hok. by rewrite andb_true_iff, !bool_decide_eq_true in Hok.
  - intros wc c Hwc E.
    pose (ok wc := match my_wc_mb_latin1 wc 1 with (1, [c]) => bool_decide (my_mb_wc_latin1 [c] = (1, wc)) | _ => true end).
    destruct (latin1_planes_spec ok ltac:(by vm_compute) wc Hwc) as [Hok|[Hn Hp]].
    + unfold ok in Hok. rewrite E in Hok. by apply bool_decide_eq_true in Hok.
    + by rewrite (wc_mb_latin1_outside wc Hwc Hn Hp) in E.
Qed.

(** The tables of latin1 as [create_fromuni] builds them. *)
Definition latin1_from_uni : list MY_UNI_IDX :=
  Eval vm_compute in default [] (create_fromuni (fun _ => true) (0, 0) (Some cs_to_uni)).

Lemma from_uni_built garbage : create_fromuni (fun _ => true) garbage (Some cs_to_uni) = Some latin1_from_uni.
Proof. destruct garbage as [low high]. by vm_compute. Qed.

(** A character of another plane is in none of the ranges. *)
Lemma from_uni_outside wc : 0 <= wc < 0x10000 -> ~ wc / 256 ∈ [0; 1; 2; 0x20; 0x21] -> wc_mb_loop latin1_from_uni wc = (MY_CS_ILUNI, []).
Proof.
  intros Hwc Hp. rewrite !not_elem_of_cons in Hp. destruct Hp as (? & ? & ? & ? & ? & _).
  assert (Forall (fun r => ~ from r <= wc <= to r) latin1_from_uni) as Hall
    by (unfold latin1_from_uni; repeat constructor; cbn [from to]; dlia).
  induction Hall as [|r l Hr _ IH]; [done|]. cbn [wc_mb_loop].
  destruct (Z.leb_spec (from r) wc), (Z.leb_spec wc (to r)); try exact IH. tauto.
Qed.

(** The tables that [create_fromuni] builds from the Unicode values of
    latin1, planes sorted by the quicksort of mysys, convert every character as
    the tables written by hand do. *)
Theorem create_fromuni_latin1 garbage :
  exists l, create_fromuni (fun _ => true) garbage (Some cs_to_uni) = Some l /\
    forall wc, 0 <= wc < 0x10000 -> same_wc_mb (my_wc_mb_8bit l wc 1) (my_wc_mb_latin1 wc 1) = true.
Proof.
  exists latin1_from_uni. split; [apply from_uni_built|]. intros wc Hwc.
  destruct (latin1_planes_spec (fun wc => same_wc_mb (my_wc_mb_8bit latin1_from_uni wc 1) (my_wc_mb_latin1 wc 1)) ltac:(by vm_compute) wc Hwc)
    as [Hok|[Hn Hp]]; [done|].
  rewrite (wc_mb_latin1_outside wc Hwc Hn Hp). unfold my_wc_mb_8bit. change (1 <=? 0) with false. cbv iota.
  by rewrite (from_uni_outside wc Hwc Hp).
Qed.
