(* ===== verification/Decimal.v ===== *)
(** * Exact decimals (strings/decimal.c, include/decimal.h): the functions

    A number is an array of words, each of nine decimal digits: first those in
    front of the point, the first of which may be incomplete, then those behind
    it, the last of which may be.  [intg] and [frac] count decimal digits.  The
    functions walk through the arrays from their ends with pointers that are
    decremented before each access; here a stretch of an array is read as a list
    with its last word first.  [None] is an access outside an array. *)

From stdpp Require Import base numbers list.
From Stdlib Require Import ZArith Lia.
From S2P Require Import Prelude.

Local Open Scope Z_scope.

(** ** Numbers *)

Definition DIG_PER_DEC1 : Z := 9.
Definition DIG_BASE : Z := 1000000000.
Definition DIG_MAX : Z := DIG_BASE - 1.
Definition ROUND_UP (X : Z) : Z := Z.quot (X + DIG_PER_DEC1 - 1) DIG_PER_DEC1.

Definition powers10 : list Z := [1; 10; 100; 1000; 10000; 100000; 1000000; 10000000; 100000000; 1000000000].

Definition frac_max : list Z := [900000000; 990000000; 999000000; 999900000; 999990000; 999999000; 999999900; 999999990].

Definition E_DEC_OK : Z := 0.
Definition E_DEC_TRUNCATED : Z := 1.
Definition E_DEC_OVERFLOW : Z := 2.

(** [len] is the length of [buf]. *)
Record decimal_t := mkDec { intg : Z; frac : Z; sign : bool; buf : list Z }.

Definition len (d : decimal_t) : Z := Z.of_nat (length (buf d)).

(** The words from index [a] to [b], the last one first. *)
Definition back (buf : list Z) (a b : Z) : option (list Z) :=
  if (0 <=? a) && (a <=? b) && (b <=? Z.of_nat (length buf)) then
    Some (reverse (take (Z.to_nat (b - a)) (drop (Z.to_nat a) buf)))
  else None.

(** The words [out] written up to index [k]. *)
Definition store (buf : list Z) (k : Z) (out : list Z) : option (list Z) :=
  let n := Z.of_nat (length out) in
  if (n <=? k) && (k <=? Z.of_nat (length buf)) then
    Some (take (Z.to_nat (k - n)) buf ++ out ++ drop (Z.to_nat k) buf)
  else None.

Definition FIX_INTG_FRAC_ERROR (len intg1 frac1 : Z) : Z * Z * Z :=
  if len <? intg1 + frac1 then
    if len <? intg1 then (len, 0, E_DEC_OVERFLOW) else (intg1, len - intg1, E_DEC_TRUNCATED)
  else (intg1, frac1, E_DEC_OK).

(** The word and the new carry. *)
Definition ADD (from1 from2 carry : Z) : Z * Z :=
  let a := s32 (from1 + from2 + carry) in
  if DIG_BASE <=? a then (a - DIG_BASE, 1) else (a, 0).

Definition ADD2 (from1 from2 carry : Z) : Z * Z :=
  let a := s32 (from1 + from2 + carry) in
  let '(a, carry) := if DIG_BASE <=? a then (a - DIG_BASE, 1) else (a, 0) in
  if DIG_BASE <=? a then (a - DIG_BASE, carry + 1) else (a, carry).

Definition SUB (from1 from2 carry : Z) : Z * Z :=
  let a := s32 (from1 - from2 - carry) in
  if a <? 0 then (a + DIG_BASE, 1) else (a, 0).

(** ** Constants *)

Definition decimal_make_zero (d : decimal_t) : decimal_t := mkDec 1 0 false (<[O := 0]> (buf d)).

(** The words of 99..9 with [precision - frac] digits before the point. *)
Definition max_words (precision frac : Z) : list Z :=
  let intpart := precision - frac in
  let firstdigits := Z.rem intpart DIG_PER_DEC1 in
  let lastdigits := Z.rem frac DIG_PER_DEC1 in
  (if firstdigits =? 0 then [] else [nth (Z.to_nat firstdigits) powers10 0 - 1]) ++
  replicate (Z.to_nat (Z.quot intpart DIG_PER_DEC1)) DIG_MAX ++
  replicate (Z.to_nat (Z.quot frac DIG_PER_DEC1)) DIG_MAX ++
  (if lastdigits =? 0 then [] else [nth (Z.to_nat (lastdigits - 1)) frac_max 0]).

Definition max_decimal (precision frac : Z) (to : decimal_t) : option decimal_t :=
  _ ← assert_that (negb (precision =? 0) && (frac <=? precision));
  let w := max_words precision frac in
  buf ← store (buf to) (Z.of_nat (length w)) w;
  Some (mkDec (precision - frac) frac false buf).

Definition decimal_is_zero (from : decimal_t) : option bool :=
  w ← back (buf from) 0 (ROUND_UP (intg from) + ROUND_UP (frac from));
  Some (forallb (fun x => x =? 0) w).

(** ** Addition *)

Definition set_if_smaller (a b : Z) : Z := if b <? a then b else a.

(** Part 2: both numbers have words. *)
Fixpoint add_loop (buf1 buf2 : list Z) (carry : Z) (buf0 : list Z) : option (list Z * Z) :=
  match buf1, buf2 with
  | [], _ => Some (buf0, carry)
  | x :: buf1, y :: buf2 => let '(a, carry) := ADD x y carry in add_loop buf1 buf2 carry (a :: buf0)
  | _ :: _, [] => None
  end.

(** Part 3: the carry goes on through the words of the longer number. *)
Fixpoint carry_loop (buf1 : list Z) (carry : Z) (buf0 : list Z) : list Z * Z :=
  match buf1 with
  | [] => (buf0, carry)
  | x :: buf1 => let '(a, carry) := ADD x 0 carry in carry_loop buf1 carry (a :: buf0)
  end.

(** The words of the sum; the first number has more words behind the point, and
    [top] are the words of one number that are in front of the other. *)
Definition add_words (bufA : list Z) (intgA fracA : Z) (bufB : list Z) (intgB fracB : Z) (top : option (list Z)) : option (list Z) :=
  (* part 1 - max(frac) ... min (frac) *)
  part1 ← back bufA (intgA + fracB) (intgA + fracA);
  (* part 2 - min(frac) ... min(intg) *)
  buf1 ← back bufA (if intgB <? intgA then intgA - intgB else 0) (intgA + fracB);
  buf2 ← back bufB 0 (intgB + fracB);
  '(buf0, carry) ← add_loop buf1 buf2 0 (reverse part1);
  (* part 3 - min(intg) ... max(intg) *)
  buf1 ← top;
  let '(buf0, carry) := carry_loop buf1 carry buf0 in
  Some (if negb (carry =? 0) then 1 :: buf0 else buf0).

(** Whether the sum may have one more word. *)
Definition extra_word (intg1 intg2 first1 first2 : Z) : bool :=
  DIG_MAX - 1 <? (if intg2 <? intg1 then first1 else if intg1 <? intg2 then first2 else first1 + first2).

Definition do_add (from1 from2 to : decimal_t) : option (decimal_t * Z) :=
  let intg1 := ROUND_UP (intg from1) in
  let intg2 := ROUND_UP (intg from2) in
  let frac1 := ROUND_UP (frac from1) in
  let frac2 := ROUND_UP (frac from2) in
  let frac0 := Z.max frac1 frac2 in
  let intg0 := Z.max intg1 intg2 in
  first1 ← head (buf from1);
  first2 ← head (buf from2);
  let '(intg0, to) :=
    if extra_word intg1 intg2 first1 first2 then (intg0 + 1, mkDec (intg to) (frac to) (sign to) (<[O := 0]> (buf to))) else (intg0, to) in
  let '(intg0, frac0, error) := FIX_INTG_FRAC_ERROR (len to) intg0 frac0 in
  if error =? E_DEC_OVERFLOW then
    to ← max_decimal (len to * DIG_PER_DEC1) 0 to; Some (to, error)
  else
    let to_frac := Z.max (frac from1) (frac from2) in
    let '(to_frac, frac1, frac2, intg1, intg2) :=
      if negb (error =? 0) then
        (set_if_smaller to_frac (frac0 * DIG_PER_DEC1), set_if_smaller frac1 frac0, set_if_smaller frac2 frac0,
         set_if_smaller intg1 intg0, set_if_smaller intg2 intg0)
      else (to_frac, frac1, frac2, intg1, intg2) in
    let top := if intg2 <? intg1 then back (buf from1) 0 (intg1 - intg2) else back (buf from2) 0 (intg2 - intg1) in
    buf0 ←
      (if frac2 <? frac1 then add_words (buf from1) intg1 frac1 (buf from2) intg2 frac2 top
       else add_words (buf from2) intg2 frac2 (buf from1) intg1 frac1 top);
    _ ← assert_that (intg0 + frac0 - Z.of_nat (length buf0) <=? 1);
    buf ← store (buf to) (intg0 + frac0) buf0;
    Some (mkDec (intg0 * DIG_PER_DEC1) to_frac (sign from1) buf, error).

(** ** Subtraction *)

Fixpoint zero_words (l : list Z) : Z :=
  match l with
  | w :: l => if w =? 0 then 1 + zero_words l else 0
  | [] => 0
  end.

(** [while (buf1 <= end1 && buf2 <= end2 && *buf1 == *buf2)] and the tests behind
    it: whether the second number is larger, or [None] if they are equal. *)
Fixpoint first_diff (buf1 buf2 : list Z) : option bool :=
  match buf1, buf2 with
  | x :: buf1, y :: buf2 => if x =? y then first_diff buf1 buf2 else Some (x <? y)
  | _ :: _, [] => Some false
  | [], _ :: _ => Some true
  | [], [] => None
  end.

(** A number without its leading zeros: where it starts, and the words before
    and behind the point. *)
Record operand := mkOp { o_buf : list Z; o_start : Z; o_intg : Z; o_frac : Z }.

Definition operand_of (from : decimal_t) : option operand :=
  let i := ROUND_UP (intg from) in
  w ← back (buf from) 0 i;
  _ ← head (buf from);
  let start := zero_words (reverse w) in
  Some (mkOp (buf from) start (i - start) (ROUND_UP (frac from))).

(** The zeros at the end go too. *)
Definition trim_end (o : operand) : option operand :=
  w ← back (o_buf o) (o_start o) (o_start o + o_intg o + o_frac o);
  Some (mkOp (o_buf o) (o_start o) (o_intg o) (o_frac o - zero_words w)).

(** The first part of [do_sub]: the operands, and whether the second is larger;
    [None] if the numbers are equal. *)
Definition sub_compare (from1 from2 : decimal_t) : option (operand * operand * option bool) :=
  o1 ← operand_of from1;
  o2 ← operand_of from2;
  if o_intg o1 <? o_intg o2 then Some (o1, o2, Some true)
  else if o_intg o2 =? o_intg o1 then
    o1 ← trim_end o1;
    o2 ← trim_end o2;
    w1 ← back (o_buf o1) (o_start o1) (o_start o1 + o_intg o1 + o_frac o1);
    w2 ← back (o_buf o2) (o_start o2) (o_start o2 + o_intg o2 + o_frac o2);
    Some (o1, o2, first_diff (reverse w1) (reverse w2))
  else Some (o1, o2, Some false).

(** Part 1 where the second number has more words: it is taken from 0. *)
Fixpoint neg_loop (buf2 : list Z) (carry : Z) (buf0 : list Z) : list Z * Z :=
  match buf2 with
  | [] => (buf0, carry)
  | y :: buf2 => let '(a, carry) := SUB 0 y carry in neg_loop buf2 carry (a :: buf0)
  end.

(** Part 2; what is left of the first number. *)
Fixpoint sub_loop (buf1 buf2 : list Z) (carry : Z) (buf0 : list Z) : option (list Z * list Z * Z) :=
  match buf1, buf2 with
  | _, [] => Some (buf0, buf1, carry)
  | x :: buf1, y :: buf2 => let '(a, carry) := SUB x y carry in sub_loop buf1 buf2 carry (a :: buf0)
  | [], _ :: _ => None
  end.

(** Part 3: [while (carry && buf1 > start1)], then the rest is copied. *)
Fixpoint borrow_loop (buf1 : list Z) (carry : Z) (buf0 : list Z) : list Z :=
  match buf1 with
  | [] => buf0
  | x :: buf1 =>
      if carry =? 0 then borrow_loop buf1 0 (x :: buf0)
      else let '(a, carry) := SUB x 0 carry in borrow_loop buf1 carry (a :: buf0)
  end.

(** The second part of [do_sub], with the larger number first. *)
Definition sub_words (o1 o2 : operand) (frac0 to_frac : Z) (to_sign : bool) (to : decimal_t) : option (decimal_t * Z) :=
  let '(intg1, frac0, error) := FIX_INTG_FRAC_ERROR (len to) (o_intg o1) frac0 in
  let '(to_frac, frac1, frac2, intg2) :=
    if negb (error =? 0) then
      (set_if_smaller to_frac (frac0 * DIG_PER_DEC1), set_if_smaller (o_frac o1) frac0, set_if_smaller (o_frac o2) frac0,
       set_if_smaller (o_intg o2) intg1)
    else (to_frac, o_frac o1, o_frac o2, o_intg o2) in
  let start1 := o_start o1 in
  let start2 := o_start o2 in
  (* part 1 - max(frac) ... min (frac) *)
  '(buf0, carry, common) ←
    (if frac2 <? frac1 then
       w ← back (o_buf o1) (start1 + intg1 + frac2) (start1 + intg1 + frac1);
       Some (reverse w ++ replicate (Z.to_nat (frac0 - frac1)) 0, 0, frac2)
     else
       w ← back (o_buf o2) (start2 + intg2 + frac1) (start2 + intg2 + frac2);
       let '(buf0, carry) := neg_loop w 0 (replicate (Z.to_nat (frac0 - frac2)) 0) in Some (buf0, carry, frac1));
  (* part 2 - min(frac) ... intg2 *)
  buf1 ← back (o_buf o1) start1 (start1 + intg1 + common);
  buf2 ← back (o_buf o2) start2 (start2 + intg2 + common);
  '(buf0, buf1, carry) ← sub_loop buf1 buf2 carry buf0;
  (* part 3 - intg2 ... intg1 *)
  let buf0 := borrow_loop buf1 carry buf0 in
  let n := intg1 + frac0 - Z.of_nat (length buf0) in
  buf ← store (buf to) (intg1 + frac0) (replicate (Z.to_nat n) 0 ++ buf0);
  Some (mkDec (intg1 * DIG_PER_DEC1) to_frac to_sign buf, error).

Definition do_sub (from1 from2 to : decimal_t) : option (decimal_t * Z) :=
  let frac0 := Z.max (ROUND_UP (frac from1)) (ROUND_UP (frac from2)) in
  let to_frac := Z.max (frac from1) (frac from2) in
  '(o1, o2, larger) ← sub_compare from1 from2;
  match larger with
  | None => Some (decimal_make_zero to, E_DEC_OK)
  | Some false => sub_words o1 o2 frac0 to_frac (sign from1) to
  | Some true => sub_words o2 o1 frac0 to_frac (negb (sign from1)) to
  end.

(** [do_sub] with a null pointer for the result. *)
Definition sub_cmp (from1 from2 : decimal_t) : option Z :=
  '(_, _, larger) ← sub_compare from1 from2;
  match larger with
  | None => Some 0
  | Some carry => Some (if eqb carry (sign from1) then 1 else -1)
  end.

Definition decimal_add (from1 from2 to : decimal_t) : option (decimal_t * Z) :=
  if eqb (sign from1) (sign from2) then do_add from1 from2 to else do_sub from1 from2 to.

Definition decimal_sub (from1 from2 to : decimal_t) : option (decimal_t * Z) :=
  if eqb (sign from1) (sign from2) then do_sub from1 from2 to else do_add from1 from2 to.

Definition decimal_cmp (from1 from2 : decimal_t) : option Z :=
  if eqb (sign from1) (sign from2) then sub_cmp from1 from2
  else Some (if sign from1 && negb (sign from2) then -1 else 1).

(** ** Multiplication *)

(** [for (; carry; buf0--)]; the words of the result from the end. *)
Fixpoint carry_row (carry : Z) (buf0 : list Z) : option (list Z) :=
  if carry =? 0 then Some buf0
  else
    match buf0 with
    | [] => None
    | r :: buf0 => let '(a, carry) := ADD r 0 carry in l ← carry_row carry buf0; Some (a :: l)
    end.

(** The words of the second number times the word [x], added to the result. *)
Fixpoint mul_row (x : Z) (buf2 : list Z) (carry : Z) (buf0 : list Z) : option (list Z) :=
  match buf2, buf0 with
  | [], _ => carry_row carry buf0
  | y :: buf2, r :: buf0 =>
      let p := x * y in
      let hi := p / DIG_BASE in
      let lo := p - hi * DIG_BASE in
      let '(a, carry) := ADD2 r lo carry in
      l ← mul_row x buf2 (carry + hi) buf0;
      Some (a :: l)
  | _ :: _, [] => None
  end.

Fixpoint mul_rows (buf1 buf2 buf0 : list Z) : option (list Z) :=
  match buf1 with
  | [] => Some buf0
  | x :: buf1 =>
      l ← mul_row x buf2 0 buf0;
      match l with
      | [] => match buf1 with [] => Some [] | _ => None end
      | r :: l => l ← mul_rows buf1 buf2 l; Some (r :: l)
      end
  end.

(** [while (!*buf1 && (to->intg > DIG_PER_DEC1))]: the words to leave out. *)
Fixpoint skip_words (l : list Z) (intg : Z) : Z :=
  match l with
  | w :: l => if (w =? 0) && (DIG_PER_DEC1 <? intg) then 1 + skip_words l (intg - DIG_PER_DEC1) else 0
  | [] => 0
  end.

(** The end of [decimal_mul]: the words that are zero in front are taken away. *)
Definition strip (d : decimal_t) (move : Z) : option decimal_t :=
  let k := skip_words (buf d) (intg d) in
  if 0 <? k then
    l ← back (buf d) k move;
    b ← store (buf d) (move - k) (reverse l);
    Some (mkDec (intg d - k * DIG_PER_DEC1) (frac d) (sign d) b)
  else Some d.

Definition decimal_mul (from1 from2 to : decimal_t) : option (decimal_t * Z) :=
  let intg1 := ROUND_UP (intg from1) in
  let intg2 := ROUND_UP (intg from2) in
  let frac1 := ROUND_UP (frac from1) in
  let frac2 := ROUND_UP (frac from2) in
  let i := ROUND_UP (intg from1 + intg from2) in
  let j := frac1 + frac2 in
  let '(intg0, frac0, error) := FIX_INTG_FRAC_ERROR (len to) i j in
  let to_frac := frac from1 + frac from2 in
  (* the words of the factors that are used *)
  let '(to_frac, n1, frac1, n2, frac2) :=
    if negb (error =? 0) then
      let to_frac := set_if_smaller to_frac (frac0 * DIG_PER_DEC1) in
      if intg0 <? i then
        let i := i - intg0 in
        let j := Z.shiftr i 1 in (to_frac, intg1 - j, 0, intg2 - (i - j), 0)
      else
        let j := j - frac0 in
        let i := Z.shiftr j 1 in (to_frac, intg1, frac1 - i, intg2, frac2 - (j - i))
    else (to_frac, intg1, frac1, intg2, frac2) in
  buf1 ← back (buf from1) (intg1 - n1) (intg1 + frac1);
  buf2 ← back (buf from2) (intg2 - n2) (intg2 + frac2);
  w ← mul_rows buf1 buf2 (replicate (Z.to_nat (intg0 + frac0)) 0);
  b ← store (buf to) (intg0 + frac0) (reverse w);
  let d := mkDec (intg0 * DIG_PER_DEC1) to_frac (negb (eqb (sign from1) (sign from2))) b in
  (* -0.000 *)
  let d := if sign d && forallb (fun x => x =? 0) w then decimal_make_zero d else d in
  let move := intg0 + ROUND_UP (frac d) in
  d ← strip d move;
  Some (d, error).

Definition decimal_result_size (from1 from2 : decimal_t) (op param : Z) : option Z :=
  if op =? 45 then Some (ROUND_UP (Z.max (intg from1) (intg from2)) + ROUND_UP (Z.max (frac from1) (frac from2)))
  else if op =? 43 then Some (ROUND_UP (Z.max (intg from1) (intg from2) + 1) + ROUND_UP (Z.max (frac from1) (frac from2)))
  else if op =? 42 then Some (ROUND_UP (intg from1 + intg from2) + ROUND_UP (frac from1) + ROUND_UP (frac from2))
  else if op =? 47 then Some (ROUND_UP (intg from1 + intg from2 + 1 + frac from1 + frac from2 + param))
  else None.
