(* ===== verification/DecimalArith.v ===== *)
(** * The arithmetic of strings/decimal.c is exact

    The words of a number are the digits of an integer in base 10^9, with the
    point after some of them.  The sum, difference and product that the
    functions of Decimal.v store are those of these integers, and the comparison
    is their order. *)

From stdpp Require Import base numbers list.
From Stdlib Require Import ZArith Lia.
From S2P Require Import Prelude Decimal.

Local Open Scope Z_scope.

(** ** Lists of words, the last one first *)

Notation B := DIG_BASE.
Notation digit w := (0 <= w < DIG_BASE).

Fixpoint rval (l : list Z) : Z :=
  match l with
  | [] => 0
  | w :: l => w + B * rval l
  end.

Lemma B_pos : 0 < B.
Proof. done. Qed.

Lemma Bpow_pos n : 0 < B ^ Z.of_nat n.
Proof. apply Z.pow_pos_nonneg; [done|lia]. Qed.

Lemma Bpow_S n : B ^ Z.of_nat (S n) = B * B ^ Z.of_nat n.
Proof. rewrite Nat2Z.inj_succ. apply Z.pow_succ_r. lia. Qed.

Lemma Bpow_add n m : B ^ Z.of_nat (n + m) = B ^ Z.of_nat n * B ^ Z.of_nat m.
Proof. rewrite Nat2Z.inj_add. apply Z.pow_add_r; lia. Qed.

Lemma rval_app l l' : rval (l ++ l') = rval l + B ^ Z.of_nat (length l) * rval l'.
Proof. induction l as [|w l IH]; cbn [app rval length]; [lia|]. rewrite IH, Bpow_S. lia. Qed.

Lemma rval_replicate n : rval (replicate n 0) = 0.
Proof. induction n as [|n IH]; cbn; [done|]. by rewrite IH. Qed.

Lemma rval_bound l : Forall (fun w => digit w) l -> 0 <= rval l < B ^ Z.of_nat (length l).
Proof.
  induction 1 as [|w l Hw _ IH]; cbn [rval length]; [by change (B ^ Z.of_nat 0) with 1|]. rewrite Bpow_S. nia.
Qed.

(** ** One word *)

Lemma ADD_spec x y c : 0 <= x -> 0 <= y -> 0 <= c -> x + y + c < 2 * B ->
  exists a c', ADD x y c = (a, c') /\ digit a /\ 0 <= c' <= 1 /\ a + B * c' = x + y + c.
Proof.
  intros Hx Hy Hc Hs. unfold ADD. rewrite s32_small by (unfold DIG_BASE in *; lia).
  destruct (Z.leb_spec B (x + y + c)); eexists _, _; (split; [done|]); lia.
Qed.

Lemma SUB_spec x y c : digit x -> digit y -> 0 <= c <= 1 ->
  exists a c', SUB x y c = (a, c') /\ digit a /\ 0 <= c' <= 1 /\ a - B * c' = x - y - c.
Proof.
  intros Hx Hy Hc. unfold SUB. rewrite s32_small by (unfold DIG_BASE in *; lia).
  destruct (Z.ltb_spec (x - y - c) 0); eexists _, _; (split; [done|]); lia.
Qed.

(** ** The loops of addition *)

Lemma add_loop_spec r1 : forall r2 c acc, Forall (fun w => digit w) r1 -> Forall (fun w => digit w) r2 -> (length r1 <= length r2)%nat -> 0 <= c <= 1 ->
  exists out c', add_loop r1 r2 c acc = Some (reverse out ++ acc, c') /\ length out = length r1 /\
    Forall (fun w => digit w) out /\ 0 <= c' <= 1 /\
    rval out + B ^ Z.of_nat (length r1) * c' = rval r1 + rval (take (length r1) r2) + c.
Proof.
  induction r1 as [|x r1 IH]; intros r2 c acc H1 H2 Hl Hc.
  { exists [], c. split_and!; try done; try lia. cbn [length Z.of_nat]. rewrite Z.pow_0_r, ?take_0. cbn [rval]. lia. }
  destruct r2 as [|y r2]; [cbn in Hl; lia|]. apply Forall_cons in H1 as [Hx H1]. apply Forall_cons in H2 as [Hy H2].
  cbn [add_loop]. destruct (ADD_spec x y c) as (a & c1 & -> & Ha & Hc1 & E); [lia..|].
  destruct (IH r2 c1 (a :: acc)) as (out & c' & -> & Hlen & Hd & Hc' & Ev); [done|done|cbn in Hl; lia|done|].
  exists (a :: out), c'. rewrite reverse_cons, <- app_assoc. split_and!; [done|cbn; lia|by constructor|lia|lia|].
  cbn [length]. rewrite firstn_cons. cbn [rval]. rewrite Bpow_S. lia.
Qed.

Lemma carry_loop_spec r1 : forall c acc, Forall (fun w => digit w) r1 -> 0 <= c <= 1 ->
  exists out c', carry_loop r1 c acc = (reverse out ++ acc, c') /\ length out = length r1 /\
    Forall (fun w => digit w) out /\ 0 <= c' <= 1 /\ rval out + B ^ Z.of_nat (length r1) * c' = rval r1 + c.
Proof.
  induction r1 as [|x r1 IH]; intros c acc H1 Hc.
  { exists [], c. split_and!; try done; try lia. cbn [length Z.of_nat]. rewrite Z.pow_0_r, ?take_0. cbn [rval]. lia. }
  apply Forall_cons in H1 as [Hx H1]. cbn [carry_loop]. destruct (ADD_spec x 0 c) as (a & c1 & -> & Ha & Hc1 & E); [lia..|].
  destruct (IH c1 (a :: acc)) as (out & c' & -> & Hlen & Hd & Hc' & Ev); [done|done|].
  exists (a :: out), c'. rewrite reverse_cons, <- app_assoc. split_and!; [done|cbn; lia|by constructor|lia|lia|].
  cbn [rval length]. rewrite Bpow_S. lia.
Qed.

(** ** Numbers *)

Definition iw (d : decimal_t) : nat := Z.to_nat (ROUND_UP (intg d)).
Definition fw (d : decimal_t) : nat := Z.to_nat (ROUND_UP (frac d)).

(** The words of a number, the last one first. *)
Definition words (d : decimal_t) : list Z := reverse (take (iw d + fw d) (buf d)).

Record valid (d : decimal_t) : Prop := {
  v_intg : 0 <= intg d;
  v_frac : 0 <= frac d;
  v_some : 1 <= intg d + frac d;
  v_room : (iw d + fw d <= length (buf d))%nat;
  v_words : Forall (fun w => digit w) (words d)
}.

Lemma round_up_spec x : 0 <= x -> 9 * ROUND_UP x - 9 < x <= 9 * ROUND_UP x.
Proof. intros Hx. unfold ROUND_UP, DIG_PER_DEC1. rewrite Z.quot_div_nonneg by lia. dlia. Qed.

Lemma iw_Z d : valid d -> ROUND_UP (intg d) = Z.of_nat (iw d).
Proof. intros [H _ _ _ _]. pose proof (round_up_spec _ H). unfold iw. lia. Qed.

Lemma fw_Z d : valid d -> ROUND_UP (frac d) = Z.of_nat (fw d).
Proof. intros [_ H _ _ _]. pose proof (round_up_spec _ H). unfold fw. lia. Qed.

Lemma some_word d : valid d -> (1 <= iw d + fw d)%nat.
Proof. intros Hv. pose proof Hv as [? ? ? _ _]. pose proof (round_up_spec (intg d)). pose proof (round_up_spec (frac d)). pose proof (iw_Z d Hv). pose proof (fw_Z d Hv). lia. Qed.

Lemma length_words d : valid d -> length (words d) = (iw d + fw d)%nat.
Proof. intros [_ _ _ H _]. unfold words. rewrite length_reverse, length_take. lia. Qed.

(** A stretch of the array as a stretch of the words. *)
Lemma back_words d (a b : nat) : valid d -> (a <= b)%nat -> (b <= iw d + fw d)%nat ->
  back (buf d) (Z.of_nat a) (Z.of_nat b) = Some (take (b - a) (drop (iw d + fw d - b) (words d))).
Proof.
  intros Hv Hab Hb. pose proof (v_room _ Hv) as Hr. unfold back.
  rewrite (proj2 (Z.leb_le 0 _)), (proj2 (Z.leb_le _ (Z.of_nat b))), (proj2 (Z.leb_le _ (Z.of_nat (length _)))) by lia. cbn [andb]. f_equal.
  unfold words. set (n := (iw d + fw d)%nat) in *. rewrite <- (take_drop b (take n (buf d))). rewrite take_take, reverse_app.
  rewrite drop_app_length' by (rewrite length_reverse, length_drop, length_take; lia).
  replace (b `min` n)%nat with b by lia. rewrite <- (take_drop a (take b (buf d))), reverse_app, take_take.
  rewrite take_app_length' by (rewrite length_reverse, length_drop, length_take; lia).
  replace (Z.to_nat (Z.of_nat b - Z.of_nat a)) with (b - a)%nat by lia. rewrite Nat2Z.id. by rewrite skipn_firstn_comm.
Qed.

(** ** Addition *)

(** The words of a number above the first [n]. *)
Lemma rval_split n l : (n <= length l)%nat -> rval l = rval (take n l) + B ^ Z.of_nat n * rval (drop n l).
Proof. intros Hn. rewrite <- (take_drop n l) at 1. rewrite rval_app, length_take, Nat.min_l by done. done. Qed.

Lemma back_words0 d (b : nat) : valid d -> (b <= iw d + fw d)%nat ->
  back (buf d) 0 (Z.of_nat b) = Some (drop (iw d + fw d - b) (words d)).
Proof.
  intros Hv Hb. change 0 with (Z.of_nat 0). rewrite back_words by (done || lia).
  rewrite take_ge; [done|]. rewrite length_drop, length_words by done. lia.
Qed.

(** The sum of [P ++ Q ++ R] and [Q'], [R] being of either number. *)
Lemma add_parts P Q Q' R : Forall (fun w => digit w) P -> Forall (fun w => digit w) Q -> Forall (fun w => digit w) Q' -> Forall (fun w => digit w) R ->
  (length Q <= length Q')%nat ->
  let n := (length P + length Q + length R)%nat in
  exists out, ('(buf0, carry) ← add_loop Q Q' 0 (reverse P);
               let '(buf0, carry) := carry_loop R carry buf0 in
               Some (if negb (carry =? 0) then 1 :: buf0 else buf0)) = Some (reverse out) /\
    Forall (fun w => digit w) out /\
    rval out = rval P + B ^ Z.of_nat (length P) * (rval Q + rval (take (length Q) Q') + B ^ Z.of_nat (length Q) * rval R) /\
    (length out = n \/ length out = S n /\ B ^ Z.of_nat n <= rval out).
Proof.
  intros HP HQ HQ' HR Hl n. destruct (add_loop_spec Q Q' 0 (reverse P)) as (o2 & c & -> & L2 & D2 & C2 & E2); [done..|lia|].
  cbn [mbind option_bind]. destruct (carry_loop_spec R c (reverse o2 ++ reverse P)) as (o3 & c' & -> & L3 & D3 & C3 & E3); [done..|].
  rewrite <- !reverse_app, <- app_assoc. pose proof (Bpow_pos (length P)). pose proof (Bpow_pos (length Q)).
  assert (rval (P ++ o2 ++ o3) + B ^ Z.of_nat n * c' =
    rval P + B ^ Z.of_nat (length P) * (rval Q + rval (take (length Q) Q') + B ^ Z.of_nat (length Q) * rval R)) as E.
  { unfold n. rewrite !rval_app, L2, !Bpow_add. assert (B ^ Z.of_nat (length R) * c' = rval R + c - rval o3) by lia.
    rewrite <- !Z.mul_assoc, H1. lia. }
  assert (length (P ++ o2 ++ o3) = n) as Ln by (unfold n; rewrite !length_app; lia).
  destruct (Z.eqb_spec c' 0) as [-> |Hc]; cbn [negb].
  - exists (P ++ o2 ++ o3). split_and!; [done|by rewrite !Forall_app|lia|by left].
  - assert (c' = 1) as -> by lia. exists ((P ++ o2 ++ o3) ++ [1]).
    rewrite (reverse_app (P ++ o2 ++ o3) [1]). split_and!; [done| | |right].
    + rewrite !Forall_app, Forall_singleton. split_and!; done || lia.
    + rewrite rval_app, Ln. cbn [rval]. lia.
    + rewrite rval_app, !length_app in *. cbn [length rval] in *. rewrite Ln.
      pose proof (rval_bound (P ++ o2 ++ o3)) as Hb. rewrite !Forall_app in Hb. destruct Hb as [Hb _]; [done|]. lia.
Qed.

Lemma add_words_spec dA dB top : valid dA -> valid dB -> (fw dB <= fw dA)%nat ->
  top = (if (iw dB <? iw dA)%nat then Some (drop (fw dA + iw dB) (words dA)) else Some (drop (fw dB + iw dA) (words dB))) ->
  exists out, add_words (buf dA) (Z.of_nat (iw dA)) (Z.of_nat (fw dA)) (buf dB) (Z.of_nat (iw dB)) (Z.of_nat (fw dB)) top = Some (reverse out) /\
    Forall (fun w => digit w) out /\ rval out = rval (words dA) + B ^ Z.of_nat (fw dA - fw dB) * rval (words dB) /\
    let n := (fw dA + Nat.max (iw dA) (iw dB))%nat in
    (length out = n \/ length out = S n /\ B ^ Z.of_nat n <= rval out).
Proof.
  intros HA HB Hf ->. pose proof (length_words _ HA) as LA. pose proof (length_words _ HB) as LB. unfold add_words.
  pose proof (v_words _ HA) as DA. pose proof (v_words _ HB) as DB.
  rewrite <- !Nat2Z.inj_add, back_words, back_words0 by (done || lia).
  replace (if Z.of_nat (iw dB) <? Z.of_nat (iw dA) then Z.of_nat (iw dA) - Z.of_nat (iw dB) else 0) with (Z.of_nat (iw dA - iw dB))
    by (destruct (Z.ltb_spec (Z.of_nat (iw dB)) (Z.of_nat (iw dA))); lia).
  rewrite back_words by (done || lia). cbn [mbind option_bind].
  replace (iw dA + fw dB - (iw dA - iw dB))%nat with (fw dB + Nat.min (iw dA) (iw dB))%nat by lia.
  replace (iw dA + fw dA - (iw dA + fw dB))%nat with (fw dA - fw dB)%nat by lia. rewrite !Nat.sub_diag, !drop_0.
  set (f := (fw dA - fw dB)%nat). set (m := (fw dB + Nat.min (iw dA) (iw dB))%nat).
  set (R := if (iw dB <? iw dA)%nat then drop (fw dA + iw dB) (words dA) else drop (fw dB + iw dA) (words dB)).
  replace (if (iw dB <? iw dA)%nat then Some (drop (fw dA + iw dB) (words dA)) else Some (drop (fw dB + iw dA) (words dB))) with (Some R)
    by (unfold R; by destruct (iw dB <? iw dA)%nat).
  cbn [mbind option_bind].
  destruct (add_parts (take f (words dA)) (take m (drop f (words dA))) (words dB) R) as (out & E & Hd & Hv & Hl);
    [by apply Forall_take|by apply Forall_take, Forall_drop|done|unfold R; by case_match; apply Forall_drop|rewrite length_take, length_drop; lia|].
  exists out. split; [exact E|]. split; [done|]. rewrite !length_take, !length_drop, LA in *. rewrite (Nat.min_l f), (Nat.min_l m) in * by lia.
  unfold R in *. clear E R. destruct (Nat.ltb_spec (iw dB) (iw dA)) as [Hi|Hi].
  - rewrite (take_ge (words dB)) in Hv by lia. rewrite length_drop in Hl. split.
    + rewrite Hv, (rval_split f (words dA)), (rval_split m (drop f (words dA))), drop_drop by (rewrite ?length_drop; lia).
      replace (f + m)%nat with (fw dA + iw dB)%nat by lia. lia.
    + replace (f + m + _)%nat with (fw dA + Nat.max (iw dA) (iw dB))%nat in Hl by lia. exact Hl.
  - rewrite (take_ge (drop f (words dA))) in Hv by (rewrite length_drop; lia). rewrite length_drop in Hl. split.
    + rewrite Hv, (rval_split f (words dA)), (rval_split m (words dB)) by lia. replace (fw dB + iw dA)%nat with m by lia. lia.
    + replace (f + m + _)%nat with (fw dA + Nat.max (iw dA) (iw dB))%nat in Hl by lia. exact Hl.
Qed.

(** *** The stored number *)

Lemma round_up_words n : 0 <= n -> ROUND_UP (n * DIG_PER_DEC1) = n.
Proof. intros Hn. unfold ROUND_UP, DIG_PER_DEC1. rewrite Z.quot_div_nonneg by lia. dlia. Qed.

Lemma round_up_max x y : 0 <= x -> 0 <= y -> ROUND_UP (Z.max x y) = Z.max (ROUND_UP x) (ROUND_UP y).
Proof. intros Hx Hy. pose proof (round_up_spec x Hx). pose proof (round_up_spec y Hy). pose proof (round_up_spec (Z.max x y)). lia. Qed.

Lemma store_spec b k out : (length out <= k)%nat -> (k <= length b)%nat ->
  store b (Z.of_nat k) out = Some (take (k - length out) b ++ out ++ drop k b).
Proof.
  intros H1 H2. unfold store. rewrite (proj2 (Z.leb_le _ _)), (proj2 (Z.leb_le (Z.of_nat k) _)) by lia. cbn [andb].
  by rewrite <- Nat2Z.inj_sub, !Nat2Z.id by lia.
Qed.

(** A number whose words are all given. *)
Lemma valid_stored i f s out rest : 0 <= i -> 0 <= f -> 1 <= i + f -> Forall (fun w => digit w) out ->
  ROUND_UP i + ROUND_UP f = Z.of_nat (length out) ->
  let d := mkDec i f s (reverse out ++ rest) in valid d /\ words d = out.
Proof.
  intros Hi Hf Hs Hd Hl d. pose proof (round_up_spec i Hi). pose proof (round_up_spec f Hf).
  assert (words d = out) as Hw.
  { unfold words, iw, fw. cbn [intg frac buf d]. rewrite take_app_length' by (rewrite length_reverse; lia). apply reverse_involutive. }
  split; [|done]. split; [done..| |by rewrite Hw]. unfold iw, fw. cbn. rewrite length_app, length_reverse. lia.
Qed.

(** The top words decide whether there is a carry. *)
Lemma words_top d : valid d -> exists l w, words d = l ++ [w] /\ head (buf d) = Some w /\ digit w /\ S (length l) = (iw d + fw d)%nat /\
  Forall (fun w => digit w) l.
Proof.
  intros Hv. pose proof (length_words d Hv) as Hl. pose proof (some_word d Hv) as Hs. pose proof (v_words d Hv) as Hd.
  unfold words in *. destruct (buf d) as [|w b] eqn:Eb; [rewrite take_nil in Hl; cbn in Hl; lia|].
  destruct (iw d + fw d)%nat as [|n]; [lia|]. rewrite firstn_cons, reverse_cons in *. exists (reverse (take n b)), w.
  rewrite Forall_app, Forall_singleton in Hd. rewrite length_app in Hl. cbn in Hl. split_and!; try done; try lia; apply Hd.
Qed.

Lemma no_extra_word dA dB firstA firstB : valid dA -> valid dB -> (fw dB <= fw dA)%nat ->
  head (buf dA) = Some firstA -> head (buf dB) = Some firstB ->
  extra_word (Z.of_nat (iw dA)) (Z.of_nat (iw dB)) firstA firstB = false ->
  rval (words dA) + B ^ Z.of_nat (fw dA - fw dB) * rval (words dB) < B ^ Z.of_nat (fw dA + Nat.max (iw dA) (iw dB)).
Proof.
  intros HA HB Hf EA EB Hx.
  destruct (words_top dA HA) as (lA & wA & EwA & EhA & DwA & LA & DA). destruct (words_top dB HB) as (lB & wB & EwB & EhB & DwB & LB & DB).
  rewrite EhA in EA. rewrite EhB in EB. injection EA as <-. injection EB as <-.
  rewrite EwA, EwB, !rval_app. cbn [rval]. rewrite !Z.mul_0_r, !Z.add_0_r.
  pose proof (rval_bound lA DA) as BA. pose proof (rval_bound lB DB) as BB.
  pose proof (Bpow_pos (length lA)) as PA. pose proof (Bpow_pos (length lB)) as PB. pose proof (Bpow_pos (fw dA - fw dB)) as PF.
  set (a := B ^ Z.of_nat (length lA)) in *. set (b := B ^ Z.of_nat (length lB)) in *. set (f := B ^ Z.of_nat (fw dA - fw dB)) in *.
  unfold extra_word, DIG_MAX in Hx. apply Z.ltb_ge in Hx.
  destruct (Z.ltb_spec (Z.of_nat (iw dB)) (Z.of_nat (iw dA))) as [Hi|Hi]; [|destruct (Z.ltb_spec (Z.of_nat (iw dA)) (Z.of_nat (iw dB))) as [Hi'|Hi']].
  - replace (fw dA + Nat.max (iw dA) (iw dB))%nat with (S (length lA)) by lia. rewrite Bpow_S. fold a.
    assert (f * (B * b) <= a) as Hfb.
    { unfold f, a, b. rewrite <- Bpow_S, <- Bpow_add. apply Z.pow_le_mono_r; [done|lia]. }
    assert (rval lB + b * wB < B * b) by nia. nia.
  - replace (fw dA + Nat.max (iw dA) (iw dB))%nat with ((fw dA - fw dB) + S (length lB))%nat by lia. rewrite Bpow_add, Bpow_S. fold f b.
    assert (a * B <= f * b) as Hfa.
    { unfold f, a, b. rewrite Z.mul_comm, <- Bpow_S, <- Bpow_add. apply Z.pow_le_mono_r; [done|lia]. }
    assert (rval lA + a * wA < a * B) by nia. nia.
  - replace (fw dA + Nat.max (iw dA) (iw dB))%nat with (S (length lA)) by lia. rewrite Bpow_S. fold a.
    assert (f * b = a) as Hfa by (unfold f, a, b; rewrite <- Bpow_add; do 2 f_equal; lia). nia.
Qed.

(** The word that was cleared for a carry which did not come is part of the
    number. *)
Lemma store_sum (extra : bool) b out n : ((if extra then S n else n) <= length b)%nat -> Forall (fun w => digit w) out ->
  (length out = n \/ length out = S n /\ extra = true) ->
  let k := (if extra then S n else n) in
  exists out' rest, store (if extra then <[O := 0]> b else b) (Z.of_nat k) (reverse out) = Some (reverse out' ++ rest) /\
    (k - length out <= 1)%nat /\ Forall (fun w => digit w) out' /\ rval out' = rval out /\ length out' = k.
Proof.
  intros Hb Hd Hl k. assert (length out <= k <= length b)%nat as Hk by (unfold k; destruct extra; destruct Hl as [Hl|[Hl ?]]; done || lia).
  rewrite store_spec; [|rewrite length_reverse; lia|destruct extra; rewrite ?length_insert; lia].
  rewrite length_reverse. unfold k in *. clear k. destruct Hl as [Hl|[Hl ->]]; [destruct extra|].
  - exists (out ++ [0]), (drop (S n) (<[O := 0]> b)). rewrite reverse_app, Forall_app, Forall_singleton, rval_app, length_app. cbn [rval length].
    rewrite Hl. split_and!; try lia; try done. replace (S n - n)%nat with 1%nat by lia.
    destruct b as [|w b]; [cbn in Hb; lia|]. by rewrite <- app_assoc.
  - exists out, (drop n b). rewrite Hl, Nat.sub_diag. split_and!; done || lia.
  - exists out, (drop (S n) (<[O := 0]> b)). rewrite Hl, Nat.sub_diag. split_and!; done || lia.
Qed.

Lemma top_words d1 d2 : valid d1 -> valid d2 ->
  (if Z.of_nat (iw d2) <? Z.of_nat (iw d1) then back (buf d1) 0 (Z.of_nat (iw d1) - Z.of_nat (iw d2))
   else back (buf d2) 0 (Z.of_nat (iw d2) - Z.of_nat (iw d1))) =
  (if (iw d2 <? iw d1)%nat then Some (drop (fw d1 + iw d2) (words d1)) else Some (drop (fw d2 + iw d1) (words d2))).
Proof.
  intros H1 H2. destruct (Z.ltb_spec (Z.of_nat (iw d2)) (Z.of_nat (iw d1))), (Nat.ltb_spec (iw d2) (iw d1)); try lia;
    rewrite <- Nat2Z.inj_sub, back_words0 by (done || lia); do 2 f_equal; lia.
Qed.

Lemma extra_word_comm i1 i2 x y : extra_word i1 i2 x y = extra_word i2 i1 y x.
Proof. unfold extra_word. destruct (Z.ltb_spec i2 i1), (Z.ltb_spec i1 i2); f_equal; lia. Qed.

(** The words of the sum of any two numbers. *)
Lemma add_both d1 d2 w1 w2 : valid d1 -> valid d2 -> head (buf d1) = Some w1 -> head (buf d2) = Some w2 ->
  let F := Nat.max (fw d1) (fw d2) in
  let n := (F + Nat.max (iw d1) (iw d2))%nat in
  let top := if (iw d2 <? iw d1)%nat then Some (drop (fw d1 + iw d2) (words d1)) else Some (drop (fw d2 + iw d1) (words d2)) in
  exists out, (if Z.of_nat (fw d2) <? Z.of_nat (fw d1)
      then add_words (buf d1) (Z.of_nat (iw d1)) (Z.of_nat (fw d1)) (buf d2) (Z.of_nat (iw d2)) (Z.of_nat (fw d2)) top
      else add_words (buf d2) (Z.of_nat (iw d2)) (Z.of_nat (fw d2)) (buf d1) (Z.of_nat (iw d1)) (Z.of_nat (fw d1)) top) = Some (reverse out) /\
    Forall (fun w => digit w) out /\
    rval out = B ^ Z.of_nat (F - fw d1) * rval (words d1) + B ^ Z.of_nat (F - fw d2) * rval (words d2) /\
    (length out = n \/ length out = S n /\ extra_word (Z.of_nat (iw d1)) (Z.of_nat (iw d2)) w1 w2 = true).
Proof.
  intros H1 H2 E1 E2 F n top. destruct (Z.ltb_spec (Z.of_nat (fw d2)) (Z.of_nat (fw d1))) as [Hf|Hf].
  - destruct (add_words_spec d1 d2 top H1 H2 ltac:(lia) eq_refl) as (out & -> & Dout & Vout & Lout). exists out. split; [done|]. split; [done|].
    unfold F. rewrite (Nat.max_l (fw d1)), Nat.sub_diag, Z.pow_0_r, Z.mul_1_l by lia. split; [done|].
    replace (fw d1 + Nat.max (iw d1) (iw d2))%nat with n in Lout by lia. destruct Lout as [|[Hl Hv]]; [by left|right]. split; [done|].
    apply not_false_iff_true. intros Hx. pose proof (no_extra_word d1 d2 w1 w2 H1 H2 ltac:(lia) E1 E2 Hx) as Hlt.
    replace (fw d1 + Nat.max (iw d1) (iw d2))%nat with n in Hlt by lia. lia.
  - destruct (add_words_spec d2 d1 top H2 H1 ltac:(lia)) as (out & -> & Dout & Vout & Lout).
    { unfold top. destruct (Nat.ltb_spec (iw d2) (iw d1)), (Nat.ltb_spec (iw d1) (iw d2)); try done; try lia.
      rewrite !drop_ge; [done|rewrite length_words by done; lia..]. }
    exists out. split; [done|]. split; [done|]. unfold F. rewrite (Nat.max_r (fw d1)), Nat.sub_diag, Z.pow_0_r, Z.mul_1_l by lia. split; [lia|].
    replace (fw d2 + Nat.max (iw d2) (iw d1))%nat with n in Lout by lia. destruct Lout as [|[Hl Hv]]; [by left|right]. split; [done|].
    apply not_false_iff_true. rewrite extra_word_comm. intros Hx. pose proof (no_extra_word d2 d1 w2 w1 H2 H1 ltac:(lia) E2 E1 Hx) as Hlt.
    replace (fw d2 + Nat.max (iw d2) (iw d1))%nat with n in Hlt by lia. lia.
Qed.

Lemma fix_ok l i f : i + f <= l -> FIX_INTG_FRAC_ERROR l i f = (i, f, E_DEC_OK).
Proof. intros H. unfold FIX_INTG_FRAC_ERROR. by rewrite (proj2 (Z.ltb_ge _ _) H). Qed.

Lemma do_add_spec d1 d2 w1 w2 to : valid d1 -> valid d2 -> head (buf d1) = Some w1 -> head (buf d2) = Some w2 ->
  ((if extra_word (Z.of_nat (iw d1)) (Z.of_nat (iw d2)) w1 w2 then S (Nat.max (iw d1) (iw d2)) else Nat.max (iw d1) (iw d2)) +
   Nat.max (fw d1) (fw d2) <= length (buf to))%nat ->
  exists to', do_add d1 d2 to = Some (to', E_DEC_OK) /\ valid to' /\ sign to' = sign d1 /\ fw to' = Nat.max (fw d1) (fw d2) /\
    (exists i : nat, intg to' = Z.of_nat i * DIG_PER_DEC1) /\ frac to' = Z.max (frac d1) (frac d2) /\
    rval (words to') = B ^ Z.of_nat (fw to' - fw d1) * rval (words d1) + B ^ Z.of_nat (fw to' - fw d2) * rval (words d2).
Proof.
  intros H1 H2 E1 E2 Hroom.
  destruct (add_both d1 d2 w1 w2 H1 H2 E1 E2) as (out & Eout & Dout & Vout & Lout).
  unfold do_add. rewrite !iw_Z, !fw_Z, E1, E2 by done. cbn [mbind option_bind].
  set (F := Nat.max (fw d1) (fw d2)) in *. set (I := Nat.max (iw d1) (iw d2)) in *.
  set (extra := extra_word _ _ w1 w2) in *. destruct (store_sum extra (buf to) out (F + I)) as (out' & rest & Est & Ha & Do & Vo & Lo); [destruct extra; lia|done|done|].
  assert (exists to1, (if extra then (Z.max (Z.of_nat (iw d1)) (Z.of_nat (iw d2)) + 1, mkDec (intg to) (frac to) (sign to) (<[O := 0]> (buf to)))
    else (Z.max (Z.of_nat (iw d1)) (Z.of_nat (iw d2)), to)) = (Z.of_nat (if extra then S I else I), to1) /\
    buf to1 = (if extra then <[O := 0]> (buf to) else buf to)) as (to1 & -> & Eb) by (destruct extra; eexists; (split; [f_equal; lia|done])).
  replace (Z.max (Z.of_nat (fw d1)) (Z.of_nat (fw d2))) with (Z.of_nat F) by lia.
  assert (length (buf to1) = length (buf to)) as Lb by (rewrite Eb; destruct extra; by rewrite ?length_insert).
  rewrite fix_ok by (unfold len; rewrite Lb; destruct extra; lia). cbn [Z.eqb negb E_DEC_OK E_DEC_OVERFLOW].
  rewrite (top_words d1 d2 H1 H2), Eout. cbn [mbind option_bind]. rewrite length_reverse.
  replace (Z.of_nat (if extra then S I else I) + Z.of_nat F) with (Z.of_nat (if extra then S (F + I) else F + I)) by (destruct extra; lia).
  rewrite bind_assert by (apply Z.leb_le; lia). rewrite Eb, Est. cbn [mbind option_bind].
  pose proof (v_frac _ H1). pose proof (v_frac _ H2). pose proof (v_intg _ H1). pose proof (v_some _ H1).
  pose proof (iw_Z d1 H1). pose proof (round_up_spec (intg d1)). set (I' := if extra then S I else I) in *.
  assert (I <= I')%nat by (unfold I'; destruct extra; lia). assert (length out' = F + I')%nat as Lo' by (unfold I'; destruct extra; lia).
  assert (ROUND_UP (Z.max (frac d1) (frac d2)) = Z.of_nat F) as EF by (rewrite round_up_max, !fw_Z by done; lia).
  destruct (valid_stored (Z.of_nat I' * DIG_PER_DEC1) (Z.max (frac d1) (frac d2)) (sign d1) out' rest) as [Hv Hw];
    [unfold DIG_PER_DEC1; lia|lia|unfold DIG_PER_DEC1; lia|done|rewrite round_up_words, EF by lia; lia|].
  eexists. split; [done|]. split; [done|]. split; [done|]. rewrite Hw, Vo.
  assert (fw (mkDec (Z.of_nat I' * DIG_PER_DEC1) (Z.max (frac d1) (frac d2)) (sign d1) (reverse out' ++ rest)) = F) as -> by (unfold fw; cbn; lia).
  split; [done|]. split; [by exists I'|]. done.
Qed.
