(* ===== verification/DecimalSub.v ===== *)
(** * Subtraction and comparison in strings/decimal.c

    [do_sub] first leaves out the zeros at the ends of the numbers and finds the
    larger one, then takes the smaller one from it. *)

From stdpp Require Import base numbers list.
From Stdlib Require Import ZArith Lia.
From S2P Require Import Prelude Decimal DecimalArith.

Local Open Scope Z_scope.

(** ** The loops *)

Lemma neg_loop_spec r : forall c acc, Forall (fun w => digit w) r -> 0 <= c <= 1 ->
  exists out c', neg_loop r c acc = (reverse out ++ acc, c') /\ length out = length r /\ Forall (fun w => digit w) out /\ 0 <= c' <= 1 /\
    rval out - B ^ Z.of_nat (length r) * c' = - rval r - c.
Proof.
  induction r as [|y r IH]; intros c acc Hr Hc.
  { exists [], c. split_and!; try done; try lia. cbn [length Z.of_nat]. rewrite Z.pow_0_r. cbn [rval]. lia. }
  apply Forall_cons in Hr as [Hy Hr]. cbn [neg_loop]. destruct (SUB_spec 0 y c) as (a & c1 & -> & Ha & Hc1 & E); [done|lia..|].
  destruct (IH c1 (a :: acc) Hr Hc1) as (out & c' & -> & Hl & Hd & Hc' & Ev). exists (a :: out), c'.
  rewrite reverse_cons, <- app_assoc. split_and!; [done|cbn; lia|by constructor|lia|lia|]. cbn [rval length]. rewrite Bpow_S. lia.
Qed.

Lemma sub_loop_spec r2 : forall r1 c acc, Forall (fun w => digit w) r1 -> Forall (fun w => digit w) r2 -> (length r2 <= length r1)%nat -> 0 <= c <= 1 ->
  exists out c', sub_loop r1 r2 c acc = Some (reverse out ++ acc, drop (length r2) r1, c') /\ length out = length r2 /\
    Forall (fun w => digit w) out /\ 0 <= c' <= 1 /\
    rval out - B ^ Z.of_nat (length r2) * c' = rval (take (length r2) r1) - rval r2 - c.
Proof.
  induction r2 as [|y r2 IH]; intros r1 c acc H1 H2 Hl Hc.
  { exists [], c. cbn [length]. rewrite drop_0, take_0. split_and!; try done; try lia; [by destruct r1|].
    cbn [rval Z.of_nat]. rewrite Z.pow_0_r. lia. }
  destruct r1 as [|x r1]; [cbn in Hl; lia|]. apply Forall_cons in H1 as [Hx H1]. apply Forall_cons in H2 as [Hy H2].
  cbn [sub_loop]. destruct (SUB_spec x y c) as (a & c1 & -> & Ha & Hc1 & E); [done..|].
  destruct (IH r1 c1 (a :: acc)) as (out & c' & -> & Hlen & Hd & Hc' & Ev); [done|done|cbn in Hl; lia|done|].
  exists (a :: out), c'. rewrite reverse_cons, <- app_assoc. split_and!; [done|cbn; lia|by constructor|lia|lia|].
  cbn [length]. rewrite firstn_cons. cbn [rval]. rewrite Bpow_S. lia.
Qed.

Lemma borrow_loop_spec r : forall c acc, Forall (fun w => digit w) r -> 0 <= c <= 1 ->
  exists out c', borrow_loop r c acc = reverse out ++ acc /\ length out = length r /\ Forall (fun w => digit w) out /\ 0 <= c' <= 1 /\
    rval out - B ^ Z.of_nat (length r) * c' = rval r - c.
Proof.
  induction r as [|x r IH]; intros c acc Hr Hc.
  { exists [], c. split_and!; try done; try lia. cbn [length Z.of_nat]. rewrite Z.pow_0_r. cbn [rval]. lia. }
  apply Forall_cons in Hr as [Hx Hr]. cbn [borrow_loop].
  assert (exists a c1, (if c =? 0 then borrow_loop r 0 (x :: acc) else let '(a, carry) := SUB x 0 c in borrow_loop r carry (a :: acc)) =
    borrow_loop r c1 (a :: acc) /\ digit a /\ 0 <= c1 <= 1 /\ a - B * c1 = x - c) as (a & c1 & -> & Ha & Hc1 & E).
  { destruct (Z.eqb_spec c 0) as [-> |Hne]; [exists x, 0; split_and!; done || lia|].
    destruct (SUB_spec x 0 c) as (a & c1 & -> & Ha & Hc1 & E); [done|done|lia|]. exists a, c1. split_and!; done || lia. }
  destruct (IH c1 (a :: acc) Hr Hc1) as (out & c' & -> & Hl & Hd & Hc' & Ev). exists (a :: out), c'.
  rewrite reverse_cons, <- app_assoc. split_and!; [done|cbn; lia|by constructor|lia|lia|]. cbn [rval length]. rewrite Bpow_S. lia.
Qed.

(** ** Operands *)

(** [W] are the words of the operand, the last one first. *)
Record holds (o : operand) (W : list Z) : Prop := {
  h_length : o_intg o + o_frac o = Z.of_nat (length W);
  h_digits : Forall (fun w => digit w) W;
  h_back : forall a b : nat, (a <= b)%nat -> (b <= length W)%nat ->
    back (o_buf o) (o_start o + Z.of_nat a) (o_start o + Z.of_nat b) = Some (take (b - a) (drop (length W - b) W))
}.

Lemma h_back_Z o W a b : holds o W -> o_start o <= a -> a <= b -> b <= o_start o + Z.of_nat (length W) ->
  back (o_buf o) a b = Some (take (Z.to_nat (b - a)) (drop (length W - Z.to_nat (b - o_start o)) W)).
Proof.
  intros H Ha Hab Hb. pose proof (h_back o W H (Z.to_nat (a - o_start o)) (Z.to_nat (b - o_start o))) as E.
  replace (o_start o + Z.of_nat (Z.to_nat (a - o_start o))) with a in E by lia.
  replace (o_start o + Z.of_nat (Z.to_nat (b - o_start o))) with b in E by lia. rewrite E by lia. do 2 f_equal. lia.
Qed.

(** The number [d] without [z] words at its start and [t] at its end. *)
Definition trimmed (d : decimal_t) (z t : nat) : operand :=
  mkOp (buf d) (Z.of_nat z) (Z.of_nat (iw d) - Z.of_nat z) (Z.of_nat (fw d) - Z.of_nat t).

Definition trimmed_words (d : decimal_t) (z t : nat) : list Z := take (iw d + fw d - z - t) (drop t (words d)).

Lemma trimmed_holds d z t : valid d -> (z + t <= iw d + fw d)%nat -> holds (trimmed d z t) (trimmed_words d z t).
Proof.
  intros Hv Hz. pose proof (length_words d Hv) as Hl.
  assert (length (trimmed_words d z t) = iw d + fw d - z - t)%nat as Hlen by (unfold trimmed_words; rewrite length_take, length_drop; lia).
  split; [rewrite Hlen; cbn; lia|by apply Forall_take, Forall_drop, (v_words d Hv)|]. intros a b Hab Hb. rewrite Hlen in *.
  cbn [o_buf o_start trimmed]. rewrite <- !Nat2Z.inj_add, back_words by (done || lia). f_equal. unfold trimmed_words.
  rewrite skipn_firstn_comm, drop_drop, take_take. f_equal; [lia|]. f_equal. lia.
Qed.

(** ** The difference *)

(** [P] is the part with more words behind the point, after which the borrow is
    [c]; the rest of the second number is taken from the rest of the first. *)
Lemma sub_parts P c Q R v : Forall (fun w => digit w) P -> Forall (fun w => digit w) Q -> Forall (fun w => digit w) R -> 0 <= c <= 1 ->
  (length R <= length Q)%nat -> rval P - B ^ Z.of_nat (length P) * c = v -> 0 <= v + B ^ Z.of_nat (length P) * (rval Q - rval R) ->
  exists out buf0 buf1 carry, sub_loop Q R c (reverse P) = Some (buf0, buf1, carry) /\ borrow_loop buf1 carry buf0 = reverse out /\
    Forall (fun w => digit w) out /\ length out = (length P + length Q)%nat /\
    rval out = v + B ^ Z.of_nat (length P) * (rval Q - rval R).
Proof.
  intros HP HQ HR Hc Hl Ev Hpos. destruct (sub_loop_spec R Q c (reverse P)) as (o2 & c2 & -> & L2 & D2 & C2 & E2); [done..|].
  destruct (borrow_loop_spec (drop (length R) Q) c2 (reverse o2 ++ reverse P)) as (o3 & c3 & Eb & L3 & D3 & C3 & E3); [by apply Forall_drop|done|].
  rewrite <- !reverse_app, <- app_assoc in Eb. exists (P ++ o2 ++ o3). do 3 eexists. split; [done|]. split; [by rewrite <- reverse_app|].
  assert (Forall (fun w => digit w) (P ++ o2 ++ o3)) as HD by (by rewrite !Forall_app).
  assert (length (P ++ o2 ++ o3) = length P + length Q)%nat as HL by (rewrite !length_app, L3, length_drop; lia).
  split; [done|]. split; [done|]. pose proof (rval_bound _ HD) as Hb. rewrite HL in Hb.
  assert (rval (P ++ o2 ++ o3) - B ^ Z.of_nat (length P + length Q) * c3 = v + B ^ Z.of_nat (length P) * (rval Q - rval R)) as E.
  { rewrite !rval_app, L2, Bpow_add, (rval_split (length R) Q) by done.
    replace (B ^ Z.of_nat (length Q)) with (B ^ Z.of_nat (length R) * B ^ Z.of_nat (length Q - length R)) by (rewrite <- Bpow_add; do 2 f_equal; lia).
    rewrite length_drop in E3. nia. }
  assert (c3 = 0 \/ c3 = 1) as [-> | ->] by lia; lia.
Qed.

Lemma Bpow_Z x y : 0 <= y -> y <= x -> B ^ x = B ^ y * B ^ (x - y).
Proof. intros Hy Hx. rewrite <- Z.pow_add_r by lia. f_equal. lia. Qed.

(** The words of the operands behind the [common] ones and the rest of them. *)
Lemma part1_spec o1 o2 W1 W2 F : holds o1 W1 -> holds o2 W2 -> 0 <= o_intg o2 <= o_intg o1 -> 0 <= o_intg o2 + o_frac o1 ->
  o_frac o1 <= F -> o_frac o2 <= F -> B ^ (F - o_frac o2) * rval W2 <= B ^ (F - o_frac o1) * rval W1 ->
  exists P c common Q R,
    (if o_frac o2 <? o_frac o1 then
       w ← back (o_buf o1) (o_start o1 + o_intg o1 + o_frac o2) (o_start o1 + o_intg o1 + o_frac o1);
       Some (reverse w ++ replicate (Z.to_nat (F - o_frac o1)) 0, 0, o_frac o2)
     else
       w ← back (o_buf o2) (o_start o2 + o_intg o2 + o_frac o1) (o_start o2 + o_intg o2 + o_frac o2);
       let '(buf0, carry) := neg_loop w 0 (replicate (Z.to_nat (F - o_frac o2)) 0) in Some (buf0, carry, o_frac o1)) = Some (reverse P, c, common) /\
    back (o_buf o1) (o_start o1) (o_start o1 + o_intg o1 + common) = Some Q /\
    back (o_buf o2) (o_start o2) (o_start o2 + o_intg o2 + common) = Some R /\
    Forall (fun w => digit w) P /\ Forall (fun w => digit w) Q /\ Forall (fun w => digit w) R /\ 0 <= c <= 1 /\
    (length R <= length Q)%nat /\ Z.of_nat (length P + length Q) = o_intg o1 + F /\
    rval P - B ^ Z.of_nat (length P) * c + B ^ Z.of_nat (length P) * (rval Q - rval R) = B ^ (F - o_frac o1) * rval W1 - B ^ (F - o_frac o2) * rval W2.
Proof.
  intros H1 H2 Hi Hif HF1 HF2 Hle. pose proof (h_length _ _ H1) as L1. pose proof (h_length _ _ H2) as L2.
  pose proof (h_digits _ _ H1) as D1. pose proof (h_digits _ _ H2) as D2.
  destruct (Z.ltb_spec (o_frac o2) (o_frac o1)) as [Hf|Hf].
  - rewrite (h_back_Z o1 W1) by (done || lia). cbn [mbind option_bind].
    rewrite (proj2 (Nat.sub_0_le _ _)), drop_0 by lia. set (k := Z.to_nat (o_frac o1 - o_frac o2)).
    replace (Z.to_nat (o_start o1 + o_intg o1 + o_frac o1 - (o_start o1 + o_intg o1 + o_frac o2))) with k by lia.
    set (z := Z.to_nat (F - o_frac o1)). exists (replicate z 0 ++ take k W1), 0, (o_frac o2), (drop k W1), W2.
    split; [by rewrite reverse_app, reverse_replicate|].
    split; [rewrite (h_back_Z o1 W1) by (done || lia); f_equal; rewrite take_ge; [f_equal; lia|rewrite length_drop; lia]|].
    split; [rewrite (h_back_Z o2 W2) by (done || lia); f_equal; rewrite take_ge; [|rewrite length_drop; lia]; rewrite (proj2 (Nat.sub_0_le _ _)), drop_0 by lia; done|].
    split; [apply Forall_app; split; [by apply Forall_replicate|by apply Forall_take]|].
    split; [by apply Forall_drop|]. split; [done|]. split; [lia|].
    rewrite !length_app, length_replicate, length_take, length_drop, Nat.min_l by lia. split; [lia|]. split; [lia|].
    rewrite rval_app, rval_replicate, length_replicate. rewrite (rval_split k W1) by lia.
    rewrite (Bpow_Z (F - o_frac o2) (F - o_frac o1)) by lia. replace (F - o_frac o1) with (Z.of_nat z) by lia.
    replace (F - o_frac o2 - Z.of_nat z) with (Z.of_nat k) by lia. rewrite Bpow_add. lia.
  - rewrite (h_back_Z o2 W2) by (done || lia). cbn [mbind option_bind].
    rewrite (proj2 (Nat.sub_0_le _ _)), drop_0 by lia. set (k := Z.to_nat (o_frac o2 - o_frac o1)).
    replace (Z.to_nat (o_start o2 + o_intg o2 + o_frac o2 - (o_start o2 + o_intg o2 + o_frac o1))) with k by lia.
    set (z := Z.to_nat (F - o_frac o2)).
    destruct (neg_loop_spec (take k W2) 0 (replicate z 0)) as (out & c & -> & Lo & Do & Hc & Eo); [by apply Forall_take|lia|].
    exists (replicate z 0 ++ out), c, (o_frac o1), W1, (drop k W2).
    split; [by rewrite reverse_app, reverse_replicate|].
    split; [rewrite (h_back_Z o1 W1) by (done || lia); f_equal; rewrite take_ge; [|rewrite length_drop; lia]; rewrite (proj2 (Nat.sub_0_le _ _)), drop_0 by lia; done|].
    split; [rewrite (h_back_Z o2 W2) by (done || lia); f_equal; rewrite take_ge; [f_equal; lia|rewrite length_drop; lia]|].
    split; [apply Forall_app; split; [by apply Forall_replicate|done]|].
    split; [done|]. split; [by apply Forall_drop|]. split; [lia|]. rewrite length_take, Nat.min_l in * by lia.
    rewrite !length_app, length_replicate, length_drop. split; [lia|]. split; [lia|].
    rewrite rval_app, rval_replicate, length_replicate. rewrite (rval_split k W2) by lia.
    rewrite (Bpow_Z (F - o_frac o1) (F - o_frac o2)) by lia. replace (F - o_frac o2) with (Z.of_nat z) by lia.
    replace (F - o_frac o1 - Z.of_nat z) with (Z.of_nat k) by lia. rewrite Lo, Bpow_add. nia.
Qed.

(** The larger operand first, and room for all words. *)
Lemma sub_words_spec o1 o2 W1 W2 (F : nat) f s to : holds o1 W1 -> holds o2 W2 -> 0 <= o_intg o2 <= o_intg o1 -> 0 <= o_intg o2 + o_frac o1 ->
  o_frac o1 <= Z.of_nat F -> o_frac o2 <= Z.of_nat F ->
  B ^ (Z.of_nat F - o_frac o2) * rval W2 <= B ^ (Z.of_nat F - o_frac o1) * rval W1 ->
  0 <= f -> ROUND_UP f = Z.of_nat F -> 1 <= o_intg o1 + f -> o_intg o1 + Z.of_nat F <= len to ->
  exists to', sub_words o1 o2 (Z.of_nat F) f s to = Some (to', E_DEC_OK) /\ valid to' /\ sign to' = s /\ fw to' = F /\
    intg to' = o_intg o1 * DIG_PER_DEC1 /\ frac to' = f /\
    rval (words to') = B ^ (Z.of_nat F - o_frac o1) * rval W1 - B ^ (Z.of_nat F - o_frac o2) * rval W2.
Proof.
  intros H1 H2 Hi Hif HF1 HF2 Hle Hf HfF Hs Hroom. unfold sub_words. rewrite fix_ok by done. cbn [negb Z.eqb E_DEC_OK].
  destruct (part1_spec o1 o2 W1 W2 (Z.of_nat F)) as (P & c & common & Q & R & E & E1 & E2 & DP & DQ & DR & Hc & Hl & HL & Ev); [done..|].
  rewrite E. cbn [mbind option_bind]. rewrite E1. cbn [mbind option_bind]. rewrite E2. cbn [mbind option_bind].
  destruct (sub_parts P c Q R _ DP DQ DR Hc Hl eq_refl ltac:(lia)) as (out & b0 & b1 & carry & -> & Eb & Do & Lo & Vo).
  cbn [mbind option_bind]. rewrite Eb, length_reverse, Lo, HL, Z.sub_diag. change (replicate (Z.to_nat 0) 0 ++ reverse out) with (reverse out).
  rewrite <- HL, store_spec by (rewrite ?length_reverse; unfold len in Hroom; lia). rewrite length_reverse, Lo, Nat.sub_diag, take_0.
  cbn [app mbind option_bind].
  destruct (valid_stored (o_intg o1 * DIG_PER_DEC1) f s out (drop (length P + length Q) (buf to))) as [Hv Hw];
    [unfold DIG_PER_DEC1; lia|done|unfold DIG_PER_DEC1; lia|done|rewrite round_up_words by lia; lia|].
  eexists. split; [done|]. split; [done|]. split; [done|]. split; [unfold fw; cbn; lia|]. do 2 (split; [done|]). rewrite Hw, Vo. exact Ev.
Qed.

(** ** Leaving out zeros *)

Lemma zero_words_spec l : exists n : nat, zero_words l = Z.of_nat n /\ (n <= length l)%nat /\ take n l = replicate n 0 /\
  forall w, l !! n = Some w -> w <> 0.
Proof.
  induction l as [|w l IH]; cbn [zero_words].
  { exists O. split_and!; done || (cbn; lia). }
  destruct (Z.eqb_spec w 0) as [-> |Hw].
  - destruct IH as (n & -> & Hn & Et & Hne). exists (S n). cbn [length]. rewrite firstn_cons, Et. split_and!; [lia|lia|done|].
    intros w Hw. by apply (Hne w).
  - exists O. cbn [length]. split_and!; [done|lia|done|]. intros ? [= <-]. done.
Qed.

Lemma rval_zero_top W z : (z <= length W)%nat -> take z (reverse W) = replicate z 0 -> rval (take (length W - z) W) = rval W.
Proof.
  intros Hz Et. assert (W = reverse (drop z (reverse W)) ++ replicate z 0) as E.
  { rewrite <- (reverse_involutive W) at 1. rewrite <- (take_drop z (reverse W)) at 1. by rewrite Et, reverse_app, reverse_replicate. }
  rewrite E at 2 3. rewrite rval_app, rval_replicate, take_app_length'; [lia|].
  rewrite length_reverse, length_drop, length_reverse. done.
Qed.

Lemma rval_zero_end W t : (t <= length W)%nat -> take t W = replicate t 0 -> rval W = B ^ Z.of_nat t * rval (drop t W).
Proof. intros Ht Et. rewrite (rval_split t W), Et, rval_replicate by done. lia. Qed.

Lemma rval_ge W n w : Forall (fun w => digit w) W -> W !! n = Some w -> w <> 0 -> B ^ Z.of_nat n <= rval W.
Proof.
  intros HD Hn Hw. pose proof (lookup_lt_Some _ _ _ Hn) as Hlt. rewrite (rval_split n W) by lia.
  pose proof (rval_bound (take n W) ltac:(by apply Forall_take)). pose proof (Bpow_pos n).
  rewrite (drop_S W w n Hn). cbn [rval]. rewrite Forall_lookup in HD. pose proof (HD _ _ Hn).
  pose proof (rval_bound (drop (S n) W) ltac:(apply Forall_drop; by apply Forall_lookup)). unfold DIG_BASE in *. nia.
Qed.

(** The operand without the [z] zero words in front. *)
Lemma operand_of_spec d : valid d -> exists z, operand_of d = Some (trimmed d z 0) /\ (z <= iw d)%nat /\
  rval (trimmed_words d z 0) = rval (words d) /\
  ((z < iw d)%nat -> B ^ Z.of_nat (iw d - z - 1 + fw d) <= rval (words d)).
Proof.
  intros Hv. pose proof (length_words d Hv) as Hl. destruct (words_top d Hv) as (_ & w & _ & Eh & _).
  unfold operand_of. rewrite iw_Z, fw_Z, back_words0, Eh by (done || lia). cbn [mbind option_bind].
  replace (reverse (drop (iw d + fw d - iw d) (words d))) with (take (iw d) (reverse (words d))).
  2: { rewrite <- (take_drop (iw d + fw d - iw d) (words d)) at 1. rewrite reverse_app.
       apply take_app_length'. rewrite length_reverse, length_drop. lia. }
  destruct (zero_words_spec (take (iw d) (reverse (words d)))) as (z & -> & Hz & Et & Hne).
  rewrite length_take, length_reverse, Hl in Hz. rewrite take_take, Nat.min_l in Et by lia. exists z.
  split; [unfold trimmed; do 2 f_equal; lia|]. split; [lia|]. split.
  - unfold trimmed_words. rewrite drop_0, Nat.sub_0_r, <- Hl. apply rval_zero_top; [lia|done].
  - intros Hlt. destruct (lookup_lt_is_Some_2 (words d) (iw d - z - 1 + fw d)) as [x Hx]; [lia|].
    apply (rval_ge (words d) _ x); [apply (v_words d Hv)|done|]. apply Hne. rewrite lookup_take_lt by lia.
    rewrite reverse_lookup by lia. rewrite <- Hx. f_equal. lia.
Qed.

Lemma trimmed_words_drop d z t : trimmed_words d z t = drop t (trimmed_words d z 0).
Proof. unfold trimmed_words. rewrite drop_0, skipn_firstn_comm. f_equal. lia. Qed.

(** And without the [t] zero words at the end. *)
Lemma trim_end_spec d z : valid d -> (z <= iw d)%nat -> exists t, trim_end (trimmed d z 0) = Some (trimmed d z t) /\ (z + t <= iw d + fw d)%nat /\
  rval (trimmed_words d z 0) = B ^ Z.of_nat t * rval (trimmed_words d z t) /\
  forall w, head (trimmed_words d z t) = Some w -> w <> 0.
Proof.
  intros Hv Hz. pose proof (trimmed_holds d z 0 Hv ltac:(lia)) as H. unfold trim_end.
  pose proof (h_length _ _ H) as Hl. rewrite (h_back_Z _ _ _ _ H) by (cbn [trimmed o_intg o_frac] in *; lia).
  rewrite (proj2 (Nat.sub_0_le _ _)), drop_0, take_ge by lia. cbn [mbind option_bind].
  destruct (zero_words_spec (trimmed_words d z 0)) as (t & -> & Ht & Et & Hne). exists t.
  cbn [trimmed o_intg o_frac] in Hl. split; [unfold trimmed; cbn; do 2 f_equal; lia|]. split; [lia|].
  rewrite (trimmed_words_drop d z t). split; [by apply rval_zero_end|]. intros w Hw. apply Hne.
  rewrite <- Hw, head_lookup, lookup_drop. f_equal. lia.
Qed.

(** ** The first words that differ *)

(** The value of the words [l], the first one first, of [n] places. *)
Fixpoint pval (n : nat) (l : list Z) : Z :=
  match n, l with
  | S n, w :: l => w * B ^ Z.of_nat n + pval n l
  | _, _ => 0
  end.

Lemma pval_nil n : pval n [] = 0.
Proof. by destruct n. Qed.

Lemma pval_reverse l : forall n, (length l <= n)%nat -> pval n l = B ^ (Z.of_nat n - Z.of_nat (length l)) * rval (reverse l).
Proof.
  induction l as [|w l IH]; intros n Hn; [rewrite pval_nil; cbn; lia|]. destruct n as [|n]; [cbn in Hn; lia|]. cbn [pval length] in *.
  rewrite IH, reverse_cons, rval_app, length_reverse by lia. cbn [rval].
  replace (Z.of_nat (S n) - Z.of_nat (S (length l))) with (Z.of_nat n - Z.of_nat (length l)) by lia.
  rewrite (Bpow_Z (Z.of_nat n) (Z.of_nat (length l))) by lia. lia.
Qed.

Lemma pval_bound l : forall n, Forall (fun w => digit w) l -> 0 <= pval n l < B ^ Z.of_nat n.
Proof.
  induction l as [|w l IH]; intros n Hl; [rewrite pval_nil; pose proof (Bpow_pos n); lia|].
  apply Forall_cons in Hl as [Hw Hl]. destruct n as [|n]; [done|]. cbn [pval]. rewrite Bpow_S. pose proof (IH n Hl). nia.
Qed.

Lemma pval_pos l : forall n w, Forall (fun w => digit w) l -> (length l <= n)%nat -> last l = Some w -> w <> 0 -> 0 < pval n l.
Proof.
  induction l as [|x l IH]; intros n w Hl Hn Hlast Hw; [done|]. apply Forall_cons in Hl as [Hx Hl].
  destruct n as [|n]; [cbn in Hn; lia|]. cbn [pval length] in *. pose proof (Bpow_pos n). pose proof (pval_bound l n Hl).
  destruct l as [|y l]; [injection Hlast as ->; rewrite pval_nil; nia|]. pose proof (IH n w Hl ltac:(lia) Hlast Hw). nia.
Qed.

(** Neither list ends with zeros. *)
Lemma first_diff_spec l1 : forall l2 n, Forall (fun w => digit w) l1 -> Forall (fun w => digit w) l2 -> (length l1 <= n)%nat -> (length l2 <= n)%nat ->
  (forall w, last l1 = Some w -> w <> 0) -> (forall w, last l2 = Some w -> w <> 0) ->
  match first_diff l1 l2 with
  | Some true => pval n l1 < pval n l2
  | Some false => pval n l2 < pval n l1
  | None => pval n l1 = pval n l2
  end.
Proof.
  induction l1 as [|x l1 IH]; intros l2 n D1 D2 L1 L2 E1 E2.
  - destruct l2 as [|y l2]; cbn [first_diff]; [done|]. rewrite pval_nil.
    destruct (last_is_Some (y :: l2)) as [_ [w Hw]]; [done|]. apply (pval_pos _ n w); [done|done|done|by apply E2].
  - destruct l2 as [|y l2]; cbn [first_diff].
    { rewrite pval_nil. destruct (last_is_Some (x :: l1)) as [_ [w Hw]]; [done|]. apply (pval_pos _ n w); [done|done|done|by apply E1]. }
    apply Forall_cons in D1 as [Hx D1]. apply Forall_cons in D2 as [Hy D2]. destruct n as [|n]; [cbn in L1; lia|]. cbn [pval length] in *.
    destruct (Z.eqb_spec x y) as [-> |Hne].
    + specialize (IH l2 n D1 D2 ltac:(lia) ltac:(lia)).
      assert (forall (a : Z) l, (forall w, last (a :: l) = Some w -> w <> 0) -> forall w, last l = Some w -> w <> 0) as Hlast
        by (intros a l Hl w Hw; apply Hl; by destruct l).
      specialize (IH (Hlast _ _ E1) (Hlast _ _ E2)). destruct (first_diff l1 l2) as [[]|]; lia.
    + pose proof (pval_bound l1 n D1). pose proof (pval_bound l2 n D2). destruct (Z.ltb_spec x y); nia.
Qed.

(** ** Comparison *)

(** The number as an integer, with [F] words behind the point. *)
Definition scaled (F : nat) (d : decimal_t) : Z := B ^ Z.of_nat (F - fw d) * rval (words d).

(** [o] is the number [d] without some of the zeros at its ends. *)
Record stands_for (d : decimal_t) (o : operand) (W : list Z) : Prop := {
  sf_holds : holds o W;
  sf_intg : 0 <= o_intg o <= Z.of_nat (iw d);
  sf_frac : o_frac o <= Z.of_nat (fw d);
  sf_value : forall F, (fw d <= F)%nat -> B ^ (Z.of_nat F - o_frac o) * rval W = scaled F d
}.

Lemma stands_for_trimmed d z t : valid d -> (z <= iw d)%nat -> (z + t <= iw d + fw d)%nat ->
  rval (words d) = B ^ Z.of_nat t * rval (trimmed_words d z t) -> stands_for d (trimmed d z t) (trimmed_words d z t).
Proof.
  intros Hv Hz Ht Ev. split; [by apply trimmed_holds|cbn; lia|cbn; lia|]. intros F HF. cbn [trimmed o_frac]. unfold scaled.
  rewrite Ev, Z.mul_assoc, <- Bpow_add. do 2 f_equal. lia.
Qed.

Lemma scaled_bound d o W F : valid d -> stands_for d o W -> (fw d <= F)%nat -> 0 <= scaled F d < B ^ (o_intg o + Z.of_nat F).
Proof.
  intros Hv H HF. rewrite <- (sf_value _ _ _ H F HF). pose proof (sf_frac _ _ _ H). pose proof (h_length _ _ (sf_holds _ _ _ H)) as Hl.
  pose proof (rval_bound W (h_digits _ _ (sf_holds _ _ _ H))) as Hb.
  assert (0 < B ^ (Z.of_nat F - o_frac o)) by (apply Z.pow_pos_nonneg; [done|lia]).
  replace (o_intg o + Z.of_nat F) with ((Z.of_nat F - o_frac o) + Z.of_nat (length W)) by lia. rewrite Z.pow_add_r by lia. nia.
Qed.

(** With the points at the same place, the words from the first one on decide. *)
Lemma first_diff_scaled d1 o1 W1 d2 o2 W2 F : stands_for d1 o1 W1 -> stands_for d2 o2 W2 -> (fw d1 <= F)%nat -> (fw d2 <= F)%nat ->
  o_intg o2 = o_intg o1 -> (forall w, head W1 = Some w -> w <> 0) -> (forall w, head W2 = Some w -> w <> 0) ->
  match first_diff (reverse W1) (reverse W2) with
  | Some true => scaled F d1 < scaled F d2
  | Some false => scaled F d2 < scaled F d1
  | None => scaled F d1 = scaled F d2
  end.
Proof.
  intros S1 S2 HF1 HF2 Hi L1 L2. pose proof (sf_holds _ _ _ S1) as H1. pose proof (sf_holds _ _ _ S2) as H2.
  pose proof (h_length _ _ H1) as N1. pose proof (h_length _ _ H2) as N2.
  pose proof (sf_intg _ _ _ S1). pose proof (sf_frac _ _ _ S1). pose proof (sf_frac _ _ _ S2).
  set (n := Z.to_nat (o_intg o1 + Z.of_nat F)).
  assert (forall d o W, stands_for d o W -> o_intg o = o_intg o1 -> (fw d <= F)%nat -> scaled F d = pval n (reverse W)) as E.
  { intros d o W S Ho HF. pose proof (h_length _ _ (sf_holds _ _ _ S)). pose proof (sf_frac _ _ _ S).
    rewrite <- (sf_value _ _ _ S F HF), pval_reverse, length_reverse, reverse_involutive by (rewrite length_reverse; lia). do 2 f_equal. lia. }
  rewrite (E d1 o1 W1), (E d2 o2 W2) by done.
  apply first_diff_spec; rewrite ?length_reverse; try lia;
    [by apply Forall_reverse, (h_digits _ _ H1)|by apply Forall_reverse, (h_digits _ _ H2)|by rewrite last_reverse|by rewrite last_reverse].
Qed.

(** The number with more words in front of the point, after the zeros, is larger. *)
Lemma longer_larger d1 z1 d2 z2 F : valid d1 -> stands_for d1 (trimmed d1 z1 0) (trimmed_words d1 z1 0) -> (fw d1 <= F)%nat -> (fw d2 <= F)%nat ->
  B ^ Z.of_nat (iw d2 - z2 - 1 + fw d2) <= rval (words d2) -> (iw d1 - z1 < iw d2 - z2)%nat ->
  scaled F d1 < scaled F d2.
Proof.
  intros H1 S1 HF1 HF2 T2 Hlt. pose proof (scaled_bound _ _ _ F H1 S1 HF1) as Hb. pose proof (sf_intg _ _ _ S1) as Hi.
  cbn [trimmed o_intg] in Hb, Hi. assert (B ^ (Z.of_nat (iw d1) - Z.of_nat z1 + Z.of_nat F) <= scaled F d2); [|lia]. unfold scaled.
  transitivity (B ^ Z.of_nat (F - fw d2) * B ^ Z.of_nat (iw d2 - z2 - 1 + fw d2)); [|pose proof (Bpow_pos (F - fw d2)); nia].
  rewrite <- Bpow_add. apply Z.pow_le_mono_r; [done|lia].
Qed.

(** What [sub_compare] finds: the order of the numbers, and that the smaller one
    starts within the larger one. *)
Lemma sub_compare_spec d1 d2 : valid d1 -> valid d2 ->
  exists o1 o2 W1 W2 larger, sub_compare d1 d2 = Some (o1, o2, larger) /\ stands_for d1 o1 W1 /\ stands_for d2 o2 W2 /\
    forall F, (fw d1 <= F)%nat -> (fw d2 <= F)%nat ->
      match larger with
      | None => scaled F d1 = scaled F d2
      | Some true => scaled F d1 < scaled F d2 /\ o_intg o1 <= o_intg o2 /\ 0 <= o_intg o1 + o_frac o2
      | Some false => scaled F d2 < scaled F d1 /\ o_intg o2 <= o_intg o1 /\ 0 <= o_intg o2 + o_frac o1
      end.
Proof.
  intros H1 H2. destruct (operand_of_spec d1 H1) as (z1 & E1 & Hz1 & V1 & T1). destruct (operand_of_spec d2 H2) as (z2 & E2 & Hz2 & V2 & T2).
  pose proof (stands_for_trimmed d1 z1 0 H1 Hz1 ltac:(lia) ltac:(rewrite V1; lia)) as S1.
  pose proof (stands_for_trimmed d2 z2 0 H2 Hz2 ltac:(lia) ltac:(rewrite V2; lia)) as S2.
  unfold sub_compare. rewrite E1, E2. cbn [mbind option_bind].
  destruct (Z.ltb_spec (o_intg (trimmed d1 z1 0)) (o_intg (trimmed d2 z2 0))) as [Hlt|Hge];
    [|destruct (Z.eqb_spec (o_intg (trimmed d2 z2 0)) (o_intg (trimmed d1 z1 0))) as [Heq|Hne]].
  - do 5 eexists. split; [done|]. split; [exact S1|]. split; [exact S2|]. intros F HF1 HF2. cbn [trimmed o_intg o_frac] in *.
    split; [|lia]. apply (longer_larger d1 z1 d2 z2); [done|done|done|done|apply T2; lia|lia].
  - destruct (trim_end_spec d1 z1 H1 Hz1) as (t1 & -> & Ht1 & R1 & L1). destruct (trim_end_spec d2 z2 H2 Hz2) as (t2 & -> & Ht2 & R2 & L2).
    cbn [mbind option_bind].
    pose proof (stands_for_trimmed d1 z1 t1 H1 Hz1 ltac:(lia) ltac:(rewrite <- V1; exact R1)) as S1'.
    pose proof (stands_for_trimmed d2 z2 t2 H2 Hz2 ltac:(lia) ltac:(rewrite <- V2; exact R2)) as S2'.
    pose proof (h_length _ _ (sf_holds _ _ _ S1')) as N1. pose proof (h_length _ _ (sf_holds _ _ _ S2')) as N2.
    rewrite (h_back_Z _ _ _ _ (sf_holds _ _ _ S1')), (h_back_Z _ _ _ _ (sf_holds _ _ _ S2')) by (cbn [trimmed o_intg o_frac o_start] in *; lia).
    rewrite !(proj2 (Nat.sub_0_le _ _)), !drop_0, !take_ge by lia. cbn [mbind option_bind].
    do 5 eexists. split; [done|]. split; [exact S1'|]. split; [exact S2'|]. intros F HF1 HF2.
    pose proof (first_diff_scaled _ _ _ _ _ _ F S1' S2' HF1 HF2 Heq L1 L2) as Hd. cbn [trimmed o_intg o_frac] in *.
    destruct (first_diff _ _) as [[]|]; [split; [done|lia]..|done].
  - do 5 eexists. split; [done|]. split; [exact S1|]. split; [exact S2|]. intros F HF1 HF2. cbn [trimmed o_intg o_frac] in *.
    split; [|lia]. apply (longer_larger d2 z2 d1 z1); [done|done|done|done|apply T1; lia|lia].
Qed.

(** ** Signed numbers *)

Definition signed (s : bool) (x : Z) : Z := if s then - x else x.

(** The number as an integer with [F] words behind the point. *)
Definition sval (F : nat) (d : decimal_t) : Z := signed (sign d) (scaled F d).

(** The number has no more digits than [intg] says. *)
Definition whole (d : decimal_t) : Prop := rval (words d) < 10 ^ intg d * B ^ Z.of_nat (fw d).

(** The digits behind the first [frac] ones are zeros. *)
Definition precise (f : Z) (F : nat) (v : Z) : Prop := (10 ^ (9 * Z.of_nat F - f) | v).

Record number (d : decimal_t) : Prop := {
  n_valid : valid d;
  n_whole : whole d;
  n_frac : precise (frac d) (fw d) (rval (words d));
  n_zero : rval (words d) = 0 -> sign d = false
}.

Lemma pow10_words n : 0 <= n -> 10 ^ (n * DIG_PER_DEC1) = B ^ n.
Proof. intros Hn. rewrite Z.mul_comm. rewrite Z.pow_mul_r by (unfold DIG_PER_DEC1; lia). done. Qed.

Lemma whole_words d n : valid d -> intg d = n * DIG_PER_DEC1 -> 0 <= n -> whole d.
Proof.
  intros Hv Hi Hn. unfold whole. rewrite Hi, pow10_words by done. pose proof (rval_bound _ (v_words d Hv)) as Hb.
  rewrite (length_words d Hv) in Hb. assert (iw d = Z.to_nat n) as E by (unfold iw; rewrite Hi, round_up_words by done; done).
  rewrite Bpow_add, E, Z2Nat.id in Hb by done. lia.
Qed.

Lemma scaled_self d : scaled (fw d) d = rval (words d).
Proof. unfold scaled. rewrite Nat.sub_diag. lia. Qed.

Lemma scaled_grow F G d : (fw d <= F)%nat -> (F <= G)%nat -> scaled G d = B ^ Z.of_nat (G - F) * scaled F d.
Proof. intros H1 H2. unfold scaled. rewrite Z.mul_assoc, <- Bpow_add. do 2 f_equal. lia. Qed.

(** More words behind the point, and fewer digits in the last one. *)
Lemma precise_scaled d f F : number d -> (fw d <= F)%nat -> frac d <= f -> f <= 9 * Z.of_nat F -> precise f F (scaled F d).
Proof.
  intros H HF Hf HfF. pose proof (n_frac d H) as Hd. pose proof (fw_Z d (n_valid d H)) as Efw. pose proof (v_frac d (n_valid d H)) as H0.
  pose proof (round_up_spec (frac d) H0). unfold precise in *.
  transitivity (10 ^ (9 * Z.of_nat F - frac d)); [exists (10 ^ (f - frac d)); rewrite <- Z.pow_add_r by lia; f_equal; lia|].
  unfold scaled. replace (9 * Z.of_nat F - frac d) with (Z.of_nat (F - fw d) * DIG_PER_DEC1 + (9 * Z.of_nat (fw d) - frac d)) by (unfold DIG_PER_DEC1; lia).
  rewrite Z.pow_add_r, pow10_words by (unfold DIG_PER_DEC1; lia). by apply Z.mul_divide_mono_l.
Qed.

Lemma precise_zero f F : precise f F 0.
Proof. apply Z.divide_0_r. Qed.

Lemma valid_zero to : (1 <= length (buf to))%nat -> valid (decimal_make_zero to) /\ words (decimal_make_zero to) = [0].
Proof.
  intros Hl. destruct (buf to) as [|w b] eqn:E; [cbn in Hl; lia|]. unfold decimal_make_zero. rewrite E.
  apply (valid_stored 1 0 false [0] b); done || lia || (repeat constructor; done || lia).
Qed.

Lemma sub_larger d1 d2 o1 o2 W1 W2 s to : valid d1 -> valid d2 -> stands_for d1 o1 W1 -> stands_for d2 o2 W2 ->
  let F := Nat.max (fw d1) (fw d2) in
  scaled F d2 < scaled F d1 -> o_intg o2 <= o_intg o1 -> 0 <= o_intg o2 + o_frac o1 -> (Nat.max (iw d1) (iw d2) + F <= length (buf to))%nat ->
  exists to', sub_words o1 o2 (Z.of_nat F) (Z.max (frac d1) (frac d2)) s to = Some (to', E_DEC_OK) /\ valid to' /\ whole to' /\ sign to' = s /\
    frac to' = Z.max (frac d1) (frac d2) /\ fw to' = F /\ rval (words to') = scaled F d1 - scaled F d2.
Proof.
  intros H1 H2 S1 S2 F Hlt Hi Hf Hroom. pose proof (v_frac _ H1). pose proof (v_frac _ H2).
  pose proof (sf_intg _ _ _ S1). pose proof (sf_intg _ _ _ S2). pose proof (sf_frac _ _ _ S1). pose proof (sf_frac _ _ _ S2).
  pose proof (scaled_bound _ _ _ F H1 S1 ltac:(lia)) as B1. pose proof (scaled_bound _ _ _ F H2 S2 ltac:(lia)) as B2.
  assert (ROUND_UP (Z.max (frac d1) (frac d2)) = Z.of_nat F) as EF by (rewrite round_up_max, !fw_Z by done; lia).
  assert (1 <= o_intg o1 + Z.max (frac d1) (frac d2)).
  { destruct (Z.le_gt_cases 1 (o_intg o1 + Z.max (frac d1) (frac d2))) as [|Hn]; [done|].
    assert (Z.max (frac d1) (frac d2) = 0) as E0 by lia. rewrite E0 in EF. change (ROUND_UP 0) with 0 in EF.
    replace (o_intg o1 + Z.of_nat F) with 0 in B1 by lia. rewrite Z.pow_0_r in B1. lia. }
  destruct (sub_words_spec o1 o2 W1 W2 F (Z.max (frac d1) (frac d2)) s to (sf_holds _ _ _ S1) (sf_holds _ _ _ S2))
    as (to' & E & Hv & Hs & HF & HI & Hfr & Hval); try lia; [|unfold len; lia|].
  { rewrite (sf_value _ _ _ S1), (sf_value _ _ _ S2) by lia. lia. }
  exists to'. split; [done|]. split; [done|]. split; [by apply (whole_words to' (o_intg o1)); [|done|lia]|]. split; [done|]. split; [done|]. split; [done|].
  by rewrite Hval, (sf_value _ _ _ S1), (sf_value _ _ _ S2) by lia.
Qed.

(** From the widest scale to any other one. *)
Lemma sval_from d1 d2 to (s : bool) : let F := Nat.max (fw d1) (fw d2) in fw to = F -> sval F to = signed s (scaled F d1 - scaled F d2) ->
  forall G, (fw d1 <= G)%nat -> (fw d2 <= G)%nat -> sval G to = signed s (scaled G d1 - scaled G d2).
Proof.
  intros F Hto E G H1 H2. unfold sval in *. rewrite (scaled_grow F G d1), (scaled_grow F G d2), (scaled_grow F G to) by lia.
  destruct (sign to), s; cbn [signed] in *; nia.
Qed.

(** The difference of the magnitudes, with the sign of the first number. *)
Lemma do_sub_spec d1 d2 to : valid d1 -> valid d2 ->
  (Nat.max (iw d1) (iw d2) + Nat.max (fw d1) (fw d2) <= length (buf to))%nat ->
  exists to', do_sub d1 d2 to = Some (to', E_DEC_OK) /\ valid to' /\ whole to' /\ (rval (words to') = 0 -> sign to' = false) /\
    (rval (words to') = 0 \/ frac to' = Z.max (frac d1) (frac d2) /\ fw to' = Nat.max (fw d1) (fw d2)) /\ (fw to' <= Nat.max (fw d1) (fw d2))%nat /\
    forall F, (fw d1 <= F)%nat -> (fw d2 <= F)%nat -> sval F to' = signed (sign d1) (scaled F d1 - scaled F d2).
Proof.
  intros H1 H2 Hroom. destruct (sub_compare_spec d1 d2 H1 H2) as (o1 & o2 & W1 & W2 & larger & E & S1 & S2 & Hc).
  unfold do_sub. rewrite E, !fw_Z by done. cbn [mbind option_bind]. rewrite <- Nat2Z.inj_max. pose proof (some_word d1 H1).
  destruct larger as [[]|].
  - destruct (Hc (Nat.max (fw d1) (fw d2))) as (Hlt & Hi & Hf); [lia..|]. rewrite (Nat.max_comm (fw d1)), (Nat.max_comm (iw d1)) in *. rewrite (Z.max_comm (frac d1)).
    destruct (sub_larger d2 d1 o2 o1 W2 W1 (negb (sign d1)) to H2 H1 S2 S1 Hlt Hi Hf Hroom) as (to' & -> & Hv & Hw & Hs & Hfr & HF & Hval).
    exists to'. split; [done|]. split; [done|]. split; [done|]. split; [lia|]. split; [by right|]. split; [lia|].
    intros G HG1 HG2. transitivity (signed (negb (sign d1)) (scaled G d2 - scaled G d1)); [|destruct (sign d1); cbn; lia].
    apply sval_from; [done| |done|done]. unfold sval. rewrite Hs. f_equal. rewrite <- Hval, <- HF. apply scaled_self.
  - destruct (Hc (Nat.max (fw d1) (fw d2))) as (Hlt & Hi & Hf); [lia..|].
    destruct (sub_larger d1 d2 o1 o2 W1 W2 (sign d1) to H1 H2 S1 S2 Hlt Hi Hf Hroom) as (to' & -> & Hv & Hw & Hs & Hfr & HF & Hval).
    exists to'. split; [done|]. split; [done|]. split; [done|]. split; [lia|]. split; [by right|]. split; [lia|].
    apply sval_from; [done|]. unfold sval. rewrite Hs. f_equal. rewrite <- Hval, <- HF. apply scaled_self.
  - destruct (valid_zero to) as [Hv Hw]; [lia|]. exists (decimal_make_zero to).
    split; [done|]. split; [done|]. split; [unfold whole; rewrite Hw; done|]. rewrite Hw. split; [done|]. split; [by left|]. split; [change (fw (decimal_make_zero to)) with O; lia|].
    intros F HF1 HF2. rewrite (Hc F HF1 HF2), Z.sub_diag. unfold sval, scaled. rewrite Hw. cbn [rval sign decimal_make_zero]. destruct (sign d1); cbn [signed]; lia.
Qed.

(** ** Addition, subtraction and comparison of signed numbers *)

(** The sum or difference has the digits of the terms behind the point. *)
Lemma precise_sum d1 d2 to x : number d1 -> number d2 -> frac to = Z.max (frac d1) (frac d2) -> fw to = Nat.max (fw d1) (fw d2) ->
  (x = 1 \/ x = -1) -> (rval (words to) = scaled (fw to) d1 + x * scaled (fw to) d2 \/ rval (words to) = - (scaled (fw to) d1 + x * scaled (fw to) d2)) ->
  precise (frac to) (fw to) (rval (words to)).
Proof.
  intros H1 H2 Hfr HF Hx Hv. pose proof (n_valid d1 H1) as V1. pose proof (n_valid d2 H2) as V2.
  pose proof (round_up_spec _ (v_frac _ V1)). pose proof (round_up_spec _ (v_frac _ V2)). pose proof (fw_Z _ V1). pose proof (fw_Z _ V2).
  pose proof (precise_scaled d1 (frac to) (fw to) H1 ltac:(lia) ltac:(lia) ltac:(lia)) as P1.
  pose proof (precise_scaled d2 (frac to) (fw to) H2 ltac:(lia) ltac:(lia) ltac:(lia)) as P2. unfold precise in *.
  assert (10 ^ (9 * Z.of_nat (fw to) - frac to) | scaled (fw to) d1 + x * scaled (fw to) d2)%Z as P
    by (apply Z.divide_add_r; [done|by apply Z.divide_mul_r]).
  destruct Hv as [-> | ->]; [done|by apply Z.divide_opp_r].
Qed.

Lemma do_sub_number d1 d2 to : number d1 -> number d2 -> (Nat.max (iw d1) (iw d2) + Nat.max (fw d1) (fw d2) <= length (buf to))%nat ->
  exists to', do_sub d1 d2 to = Some (to', E_DEC_OK) /\ number to' /\ (fw to' <= Nat.max (fw d1) (fw d2))%nat /\
    forall F, (fw d1 <= F)%nat -> (fw d2 <= F)%nat -> sval F to' = signed (sign d1) (scaled F d1 - scaled F d2).
Proof.
  intros H1 H2 Hroom. destruct (do_sub_spec d1 d2 to (n_valid _ H1) (n_valid _ H2) Hroom) as (to' & E & Hv & Hw & Hz & Hfr & HF & Hval).
  exists to'. split; [done|]. split; [|done]. split; [done|done| |done]. destruct Hfr as [-> |[Hfr HF']]; [apply precise_zero|].
  apply (precise_sum d1 d2 to' (-1)); [done..|by right|]. specialize (Hval (fw to') ltac:(lia) ltac:(lia)).
  unfold sval in Hval. rewrite scaled_self in Hval. destruct (sign to'), (sign d1); cbn [signed] in Hval; lia.
Qed.

Lemma rval_nonneg d : valid d -> 0 <= rval (words d).
Proof. intros Hv. apply (rval_bound _ (v_words d Hv)). Qed.

Lemma scaled_nonneg F d : valid d -> 0 <= scaled F d.
Proof. intros Hv. unfold scaled. pose proof (rval_nonneg d Hv). pose proof (Bpow_pos (F - fw d)). nia. Qed.

Lemma scaled_zero F d : scaled F d = 0 -> rval (words d) = 0.
Proof. unfold scaled. pose proof (Bpow_pos (F - fw d)). nia. Qed.

(** A top word of nine digits. *)
Lemma top_word_full d w : number d -> head (buf d) = Some w -> (1 <= iw d)%nat -> 100000000 <= w -> 9 * Z.of_nat (iw d) <= intg d.
Proof.
  intros Hn Hh Hi Hw. pose proof (n_valid d Hn) as Hv. destruct (words_top d Hv) as (l & w' & Ew & Eh & Dw & Ll & Dl). rewrite Hh in Eh. injection Eh as <-.
  pose proof (n_whole d Hn) as Hwh. unfold whole in Hwh. rewrite Ew, rval_app in Hwh. cbn [rval] in Hwh. pose proof (rval_bound l Dl).
  destruct (Z.le_gt_cases (9 * Z.of_nat (iw d)) (intg d)) as [|Hlt]; [done|]. exfalso. pose proof (v_intg d Hv).
  assert (10 ^ intg d <= 10 ^ 8 * B ^ Z.of_nat (iw d - 1)) as Hp.
  { rewrite <- pow10_words, <- Z.pow_add_r by (unfold DIG_PER_DEC1; lia). apply Z.pow_le_mono_r; unfold DIG_PER_DEC1; lia. }
  replace (length l) with ((iw d - 1) + fw d)%nat in * by lia. rewrite Bpow_add in *. pose proof (Bpow_pos (iw d - 1)). pose proof (Bpow_pos (fw d)).
  set (p := B ^ Z.of_nat (iw d - 1)) in *. set (q := B ^ Z.of_nat (fw d)) in *. change (10 ^ 8) with 100000000 in Hp.
  assert (10 ^ intg d * q <= 100000000 * p * q) by (apply Z.mul_le_mono_nonneg_r; lia).
  assert (100000000 * p * q <= w * p * q) by (apply Z.mul_le_mono_nonneg_r; [lia|]; apply Z.mul_le_mono_nonneg_r; lia). lia.
Qed.

(** [decimal_result_size] has room for the word that a carry may need. *)
Lemma extra_word_room d1 d2 w1 w2 : number d1 -> number d2 -> head (buf d1) = Some w1 -> head (buf d2) = Some w2 ->
  extra_word (Z.of_nat (iw d1)) (Z.of_nat (iw d2)) w1 w2 = true ->
  Z.of_nat (S (Nat.max (iw d1) (iw d2))) <= ROUND_UP (Z.max (intg d1) (intg d2) + 1).
Proof.
  intros H1 H2 E1 E2 Hx. unfold extra_word, DIG_MAX in Hx. apply Z.ltb_lt in Hx. pose proof (n_valid _ H1) as V1. pose proof (n_valid _ H2) as V2.
  pose proof (v_intg _ V1). pose proof (v_intg _ V2). pose proof (round_up_spec (Z.max (intg d1) (intg d2) + 1) ltac:(lia)).
  pose proof (round_up_spec _ (v_intg _ V1)). pose proof (round_up_spec _ (v_intg _ V2)). pose proof (iw_Z _ V1). pose proof (iw_Z _ V2).
  pose proof (top_word_full d1 w1 H1 E1) as T1. pose proof (top_word_full d2 w2 H2 E2) as T2. unfold DIG_BASE in Hx.
  destruct (Z.ltb_spec (Z.of_nat (iw d2)) (Z.of_nat (iw d1))); [specialize (T1 ltac:(lia) ltac:(lia)); lia|].
  destruct (Z.ltb_spec (Z.of_nat (iw d1)) (Z.of_nat (iw d2))); [specialize (T2 ltac:(lia) ltac:(lia)); lia|].
  destruct (decide (1 <= iw d1)%nat); [|lia]. destruct (Z.le_gt_cases 100000000 w1); [specialize (T1 ltac:(lia) ltac:(lia)); lia|].
  specialize (T2 ltac:(lia) ltac:(lia)). lia.
Qed.

(** The characters '+' and '*' for [decimal_result_size]. *)
Definition op_plus : Z := 43.
Definition op_times : Z := 42.

Lemma result_size_plus d1 d2 size : valid d1 -> valid d2 -> decimal_result_size d1 d2 op_plus 0 = Some size ->
  size = ROUND_UP (Z.max (intg d1) (intg d2) + 1) + Z.of_nat (Nat.max (fw d1) (fw d2)) /\
  Z.of_nat (Nat.max (iw d1) (iw d2) + Nat.max (fw d1) (fw d2)) <= size.
Proof.
  intros V1 V2 [= <-]. pose proof (v_intg _ V1). pose proof (v_intg _ V2). pose proof (round_up_max (intg d1) (intg d2) ltac:(done) ltac:(done)) as Em.
  rewrite (round_up_max (frac d1)) by (apply v_frac; done). rewrite !fw_Z, !iw_Z in * by done.
  pose proof (round_up_spec (Z.max (intg d1) (intg d2) + 1) ltac:(lia)). pose proof (round_up_spec (Z.max (intg d1) (intg d2)) ltac:(lia)). lia.
Qed.

Lemma do_add_number d1 d2 to size : number d1 -> number d2 -> decimal_result_size d1 d2 op_plus 0 = Some size -> size <= len to ->
  exists to', do_add d1 d2 to = Some (to', E_DEC_OK) /\ number to' /\ (fw to' <= Nat.max (fw d1) (fw d2))%nat /\
    forall F, (fw d1 <= F)%nat -> (fw d2 <= F)%nat -> sval F to' = signed (sign d1) (scaled F d1 + scaled F d2).
Proof.
  intros H1 H2 Hsize Hroom. pose proof (n_valid _ H1) as V1. pose proof (n_valid _ H2) as V2. destruct (result_size_plus d1 d2 size V1 V2 Hsize) as [Es Hs].
  destruct (words_top d1 V1) as (_ & w1 & _ & E1 & _). destruct (words_top d2 V2) as (_ & w2 & _ & E2 & _).
  destruct (do_add_spec d1 d2 w1 w2 to V1 V2 E1 E2) as (to' & E & Hv & Hsg & HF & [i Hi] & Hfr & Hval).
  { unfold len in Hroom. destruct (extra_word _ _ w1 w2) eqn:Ex; [|lia]. pose proof (extra_word_room d1 d2 w1 w2 H1 H2 E1 E2 Ex). lia. }
  assert (rval (words to') = scaled (fw to') d1 + scaled (fw to') d2) as Hval' by exact Hval.
  pose proof (scaled_nonneg (fw to') d1 V1). pose proof (scaled_nonneg (fw to') d2 V2).
  exists to'. split; [done|]. split; [|split; [lia|]].
  - split; [done|by apply (whole_words to' (Z.of_nat i)); [|done|lia]| |].
    + apply (precise_sum d1 d2 to' 1); [done..|by left|]. left. lia.
    + intros Hz. rewrite Hsg. apply (n_zero _ H1). apply (scaled_zero (fw to')). lia.
  - intros F HF1 HF2. unfold sval. rewrite Hsg. f_equal.
    rewrite (scaled_grow (fw to') F d1), (scaled_grow (fw to') F d2), (scaled_grow (fw to') F to') by lia. rewrite scaled_self, Hval'. lia.
Qed.

(** C13: [decimal_add] is exact: for numbers of any length and sign and a result
    with the room that [decimal_result_size] asks for, it stores their sum,
    without an error; the result is a number again (its words have nine digits,
    those beyond [intg] and [frac] are zeros, and zero has no sign). *)
Theorem decimal_add_exact d1 d2 to size : number d1 -> number d2 -> decimal_result_size d1 d2 op_plus 0 = Some size -> size <= len to ->
  exists to', decimal_add d1 d2 to = Some (to', E_DEC_OK) /\ number to' /\ (fw to' <= Nat.max (fw d1) (fw d2))%nat /\
    forall F, (fw d1 <= F)%nat -> (fw d2 <= F)%nat -> sval F to' = sval F d1 + sval F d2.
Proof.
  intros H1 H2 Hsize Hroom. destruct (result_size_plus d1 d2 size (n_valid _ H1) (n_valid _ H2) Hsize) as [_ Hs']. unfold decimal_add, sval at 2 3. destruct (eqb_spec (sign d1) (sign d2)) as [Hs|Hs].
  - destruct (do_add_number d1 d2 to size H1 H2 Hsize Hroom) as (to' & E & Hn & HF & Hv). exists to'. split_and!; [done..|].
    intros F HF1 HF2. rewrite (Hv F HF1 HF2), <- Hs. destruct (sign d1); cbn [signed]; lia.
  - destruct (do_sub_number d1 d2 to H1 H2 ltac:(unfold len in Hroom; lia)) as (to' & E & Hn & HF & Hv). exists to'. split_and!; [done..|].
    intros F HF1 HF2. rewrite (Hv F HF1 HF2). destruct (sign d1), (sign d2); try done; cbn [signed]; lia.
Qed.

(** C14: [decimal_sub] is exact: for numbers of any length and sign and a result
    with the room that [decimal_result_size] asks for their sum, it stores the
    difference, without an error, and the result is a number again. *)
Theorem decimal_sub_exact d1 d2 to size : number d1 -> number d2 -> decimal_result_size d1 d2 op_plus 0 = Some size -> size <= len to ->
  exists to', decimal_sub d1 d2 to = Some (to', E_DEC_OK) /\ number to' /\ (fw to' <= Nat.max (fw d1) (fw d2))%nat /\
    forall F, (fw d1 <= F)%nat -> (fw d2 <= F)%nat -> sval F to' = sval F d1 - sval F d2.
Proof.
  intros H1 H2 Hsize Hroom. destruct (result_size_plus d1 d2 size (n_valid _ H1) (n_valid _ H2) Hsize) as [_ Hs']. unfold decimal_sub, sval at 2 3. destruct (eqb_spec (sign d1) (sign d2)) as [Hs|Hs].
  - destruct (do_sub_number d1 d2 to H1 H2 ltac:(unfold len in Hroom; lia)) as (to' & E & Hn & HF & Hv). exists to'. split_and!; [done..|].
    intros F HF1 HF2. rewrite (Hv F HF1 HF2), <- Hs. destruct (sign d1); cbn [signed]; lia.
  - destruct (do_add_number d1 d2 to size H1 H2 Hsize Hroom) as (to' & E & Hn & HF & Hv). exists to'. split_and!; [done..|].
    intros F HF1 HF2. rewrite (Hv F HF1 HF2). destruct (sign d1), (sign d2); try done; cbn [signed]; lia.
Qed.

(** C22: [decimal_cmp] is the order of the values: it returns -1, 0 or 1 as the
    first number is less than, equal to or greater than the second, whatever
    zeros either has in front or at its end. *)
Theorem decimal_cmp_order d1 d2 F : number d1 -> number d2 -> (fw d1 <= F)%nat -> (fw d2 <= F)%nat ->
  decimal_cmp d1 d2 = Some (Z.sgn (sval F d1 - sval F d2)).
Proof.
  intros H1 H2 HF1 HF2. unfold decimal_cmp, sval. pose proof (n_valid _ H1) as V1. pose proof (n_valid _ H2) as V2.
  destruct (eqb_spec (sign d1) (sign d2)) as [Hs|Hs].
  - destruct (sub_compare_spec d1 d2 V1 V2) as (o1 & o2 & W1 & W2 & larger & E & _ & _ & Hc). specialize (Hc F HF1 HF2).
    unfold sub_cmp. rewrite E, <- Hs. cbn [mbind option_bind]. destruct larger as [[]|], (sign d1); cbn [eqb signed]; f_equal; lia.
  - pose proof (scaled_nonneg F d1 V1). pose proof (scaled_nonneg F d2 V2). pose proof (n_zero _ H1). pose proof (n_zero _ H2).
    pose proof (scaled_zero F d1). pose proof (scaled_zero F d2).
    destruct (sign d1), (sign d2); try done; cbn [andb negb signed]; f_equal; lia.
Qed.

(** 12.5 and -0.000000001 *)
Definition dec_a : decimal_t := mkDec 2 1 false [12; 500000000].
Definition dec_b : decimal_t := mkDec 1 9 true [0; 1].
Definition dec_to : decimal_t := mkDec 0 0 false [7; 7; 7; 7].

Lemma number_of d : 0 <= intg d -> 0 <= frac d -> 1 <= intg d + frac d -> (iw d + fw d <= length (buf d))%nat ->
  forallb (fun w => (0 <=? w) && (w <? B)) (words d) = true -> (rval (words d) <? 10 ^ intg d * B ^ Z.of_nat (fw d)) = true ->
  (rval (words d) mod 10 ^ (9 * Z.of_nat (fw d) - frac d) =? 0) = true -> implb (rval (words d) =? 0) (negb (sign d)) = true -> number d.
Proof.
  intros Hi Hf Hs Hr Hd Hw Hp Hz. split.
  - split; [done..|]. apply Forall_forall. intros w Hin. apply forallb_forall with (x := w) in Hd; [|by apply list_elem_of_In].
    apply andb_true_iff in Hd as [H1 H2]. apply Z.leb_le in H1. apply Z.ltb_lt in H2. lia.
  - by apply Z.ltb_lt.
  - apply Z.mod_divide; [|by apply Z.eqb_eq]. pose proof (round_up_spec _ Hf). unfold fw in *.
    assert (0 < 10 ^ (9 * Z.of_nat (Z.to_nat (ROUND_UP (frac d))) - frac d)); [|lia]. apply Z.pow_pos_nonneg; lia.
  - intros E. rewrite E in Hz. by destruct (sign d).
Qed.

Lemma number_a : number dec_a.
Proof. apply number_of; vm_compute; first [done | lia]. Qed.

Lemma number_b : number dec_b.
Proof. apply number_of; vm_compute; first [done | lia]. Qed.

Lemma decimal_add_exact_witness : exists to', decimal_add dec_a dec_b dec_to = Some (to', E_DEC_OK) /\ sval 1 to' = 12499999999.
Proof.
  destruct (decimal_add_exact dec_a dec_b dec_to 2 number_a number_b) as (to' & E & _ & _ & Hv); [vm_compute; reflexivity|vm_compute; discriminate|].
  exists to'. split; [exact E|]. rewrite Hv by (vm_compute; lia). vm_compute. reflexivity.
Defined.

Lemma decimal_sub_exact_witness : exists to', decimal_sub dec_a dec_b dec_to = Some (to', E_DEC_OK) /\ sval 1 to' = 12500000001.
Proof.
  destruct (decimal_sub_exact dec_a dec_b dec_to 2 number_a number_b) as (to' & E & _ & _ & Hv); [vm_compute; reflexivity|vm_compute; discriminate|].
  exists to'. split; [exact E|]. rewrite Hv by (vm_compute; lia). vm_compute. reflexivity.
Defined.

Lemma decimal_cmp_order_witness : decimal_cmp dec_b dec_a = Some (-1).
Proof. rewrite (decimal_cmp_order dec_b dec_a 1 number_b number_a) by (vm_compute; lia). vm_compute. reflexivity. Defined.
