(* ===== verification/DecimalMul.v ===== *)
(** * Multiplication in strings/decimal.c

    [decimal_mul] adds the rows of the schoolbook method to the result.  The sum
    of three words in [ADD2] is computed in 32 bits: the product is exact as long
    as the upper halves of the products of words stay below 147483648, and wrong
    for some longer numbers. *)

From stdpp Require Import base numbers list.
From Stdlib Require Import ZArith Lia.
From S2P Require Import Prelude Decimal DecimalArith DecimalSub.

Local Open Scope Z_scope.

(** ** The rows *)

(** [2^31 - 2 * (DIG_BASE - 1) - 2] *)
Definition HI_MAX : Z := 147483648.

Definition fits (x y : Z) : Prop := x * y / B < HI_MAX.

Lemma ADD2_spec x y c : digit x -> digit y -> 0 <= c <= HI_MAX + 1 ->
  exists a c', ADD2 x y c = (a, c') /\ digit a /\ 0 <= c' <= 2 /\ a + B * c' = x + y + c.
Proof.
  intros Hx Hy Hc. unfold ADD2, HI_MAX in *. rewrite s32_small by (unfold DIG_BASE in *; lia).
  destruct (Z.leb_spec B (x + y + c)); [destruct (Z.leb_spec B (x + y + c - B))|rewrite (proj2 (Z.leb_gt _ _)) by done];
    eexists _, _; (split; [done|]); unfold DIG_BASE in *; lia.
Qed.

Lemma carry_row_spec l : forall c, Forall (fun w => digit w) l -> 0 <= c <= B -> rval l + c < B ^ Z.of_nat (length l) ->
  exists out, carry_row c l = Some out /\ Forall (fun w => digit w) out /\ length out = length l /\ rval out = rval l + c.
Proof.
  induction l as [|r l IH]; intros c Hl Hc Hlt.
  { cbn [length Z.of_nat rval] in Hlt. rewrite Z.pow_0_r in Hlt. assert (c = 0) as -> by lia. by exists []. }
  apply Forall_cons in Hl as [Hr Hl]. cbn [carry_row]. destruct (Z.eqb_spec c 0) as [-> |Hne].
  { exists (r :: l). split_and!; [done|by constructor|done|lia]. }
  destruct (ADD_spec r 0 c) as (a & c1 & -> & Ha & Hc1 & E); [lia..|]. cbn [rval length] in *. rewrite Bpow_S in Hlt.
  destruct (IH c1 Hl ltac:(unfold DIG_BASE; lia)) as (out & -> & Do & Lo & Vo); [nia|].
  exists (a :: out). cbn [mbind option_bind length rval]. split_and!; [done|by constructor|lia|lia].
Qed.

Lemma mul_row_spec x R : forall c l, digit x -> Forall (fun w => digit w) R -> Forall (fits x) R -> Forall (fun w => digit w) l ->
  0 <= c <= HI_MAX + 1 -> (length R <= length l)%nat -> rval l + x * rval R + c < B ^ Z.of_nat (length l) ->
  exists out, mul_row x R c l = Some out /\ Forall (fun w => digit w) out /\ length out = length l /\ rval out = rval l + x * rval R + c.
Proof.
  induction R as [|y R IH]; intros c l Hx HR Hfit Hl Hc Hlen Hlt.
  { cbn [mul_row rval] in *. rewrite Z.mul_0_r, Z.add_0_r in *. apply carry_row_spec; [by destruct l|unfold HI_MAX, DIG_BASE in *; lia|done]. }
  destruct l as [|r l]; [cbn in Hlen; lia|]. apply Forall_cons in HR as [Hy HR]. apply Forall_cons in Hfit as [Hf Hfit].
  apply Forall_cons in Hl as [Hr Hl]. cbn [mul_row]. unfold fits in Hf. set (hi := x * y / B) in *.
  pose proof (Z.div_mod (x * y) B ltac:(done)) as Edm. pose proof (Z.mod_pos_bound (x * y) B ltac:(done)) as Hm. fold hi in Edm.
  assert (0 <= hi) by (apply Z.div_pos; [nia|done]). set (lo := x * y - hi * B). assert (lo = (x * y) mod B) as Elo by lia.
  destruct (ADD2_spec r lo c Hr ltac:(lia) Hc) as (a & c1 & -> & Ha & Hc1 & E). cbn [rval length] in *. rewrite Bpow_S in Hlt.
  destruct (IH (c1 + hi) l Hx HR Hfit Hl ltac:(unfold HI_MAX in *; lia) ltac:(lia)) as (out & -> & Do & Lo & Vo); [nia|].
  exists (a :: out). cbn [mbind option_bind length rval]. split_and!; [done|by constructor|lia|nia].
Qed.

Lemma mul_rows_spec R2 R1 : forall l, Forall (fun w => digit w) R1 -> Forall (fun w => digit w) R2 -> Forall (fun x => Forall (fits x) R2) R1 ->
  Forall (fun w => digit w) l -> (length R1 + length R2 <= S (length l))%nat -> (1 <= length R2)%nat ->
  rval l + rval R1 * rval R2 < B ^ Z.of_nat (length l) ->
  exists out, mul_rows R1 R2 l = Some out /\ Forall (fun w => digit w) out /\ length out = length l /\ rval out = rval l + rval R1 * rval R2.
Proof.
  induction R1 as [|x R1 IH]; intros l H1 H2 Hfit Hl Hlen Hone Hlt.
  { exists l. split_and!; done || (cbn; lia). }
  apply Forall_cons in H1 as [Hx H1]. apply Forall_cons in Hfit as [Hf Hfit]. cbn [mul_rows rval length] in *.
  pose proof (rval_bound R1 H1). pose proof (rval_bound R2 H2). pose proof (Bpow_pos (length R1)).
  destruct (mul_row_spec x R2 0 l Hx H2 Hf Hl ltac:(unfold HI_MAX; lia) ltac:(lia)) as (row & -> & Dr & Lr & Vr); [unfold DIG_BASE in *; nia|].
  cbn [mbind option_bind]. destruct l as [|r0 l]; [cbn in Hlen; lia|]. destruct row as [|r row]; [done|].
  apply Forall_cons in Dr as [Hr Dr]. cbn [rval length] in *. rewrite Bpow_S in Hlt. injection Lr as Lr.
  destruct (IH row H1 H2 Hfit Dr ltac:(lia) Hone) as (out & -> & Do & Lo & Vo); [rewrite Lr; unfold DIG_BASE in *; nia|].
  exists (r :: out). cbn [mbind option_bind length rval]. split_and!; [done|by constructor|lia|lia].
Qed.

(** ** The end of the product *)

(** The words at the end that are left out are zeros. *)
Lemma rval_low_zero w k : Forall (fun x => digit x) w -> (k <= length w)%nat -> (B ^ Z.of_nat k | rval w) -> rval w = B ^ Z.of_nat k * rval (drop k w).
Proof.
  intros Hd Hk [q Hq]. rewrite (rval_split k w) in Hq |- * by done.
  pose proof (rval_bound (take k w) ltac:(by apply Forall_take)) as Hb. rewrite length_take, Nat.min_l in Hb by done.
  assert (rval (take k w) = 0); [|lia]. pose proof (Bpow_pos k). set (p := B ^ Z.of_nat k) in *. 
  assert (rval (take k w) = p * (q - rval (drop k w))) as E by lia. destruct (Z.lt_trichotomy (q - rval (drop k w)) 0) as [?|[E0|?]]; [nia|rewrite E, E0; lia|nia].
Qed.

(** A number stored with more words than [frac] needs. *)
Lemma valid_stored_low i f s w rest (k : nat) : 0 <= i -> 0 <= f -> 1 <= i + f -> Forall (fun x => digit x) w ->
  (k <= length w)%nat -> ROUND_UP i + ROUND_UP f = Z.of_nat (length w - k) ->
  let d := mkDec i f s (reverse w ++ rest) in valid d /\ words d = drop k w.
Proof.
  intros Hi Hf Hs Hd Hk Hl d. destruct (valid_stored i f s (drop k w) (reverse (take k w) ++ rest)) as [Hv Hw];
    [done..|by apply Forall_drop|by rewrite length_drop|].
  rewrite app_assoc, <- reverse_app, take_drop in Hv, Hw. done.
Qed.

Lemma skip_words_spec l : forall i, exists k : nat, skip_words l i = Z.of_nat k /\ (k <= length l)%nat /\ take k l = replicate k 0 /\
  (k = O \/ Z.of_nat k * DIG_PER_DEC1 < i).
Proof.
  induction l as [|w l IH]; intros i; cbn [skip_words]; [exists O; split_and!; [done|cbn; lia|done|by left]|].
  destruct (Z.eqb_spec w 0) as [-> |Hw]; cbn [andb]; [|exists O; split_and!; [done|cbn; lia|done|by left]].
  destruct (Z.ltb_spec DIG_PER_DEC1 i) as [Hi|Hi]; [|exists O; split_and!; [done|cbn; lia|done|by left]].
  destruct (IH (i - DIG_PER_DEC1)) as (k & -> & Hk & Et & Hlt). exists (S k). rewrite firstn_cons, Et. cbn [length].
  unfold DIG_PER_DEC1 in *. split_and!; [lia|lia|done|right; lia].
Qed.

Lemma strip_spec d (I : nat) : valid d -> intg d = Z.of_nat I * DIG_PER_DEC1 ->
  exists d' i, strip d (Z.of_nat I + ROUND_UP (frac d)) = Some d' /\ valid d' /\ intg d' = Z.of_nat i * DIG_PER_DEC1 /\ frac d' = frac d /\
    sign d' = sign d /\ rval (words d') = rval (words d).
Proof.
  intros Hv Hi. unfold strip. destruct (skip_words_spec (buf d) (intg d)) as (k & -> & Hk & Et & Hlt).
  destruct (Z.ltb_spec 0 (Z.of_nat k)) as [Hpos|]; [|by exists d, I].
  pose proof (length_words d Hv) as Hl. pose proof (v_room d Hv) as Hr.
  assert (iw d = I) as EI by (unfold iw; rewrite Hi, round_up_words by lia; lia).
  assert (k < I)%nat as HkI by (unfold DIG_PER_DEC1 in *; lia). rewrite fw_Z by done. rewrite <- Nat2Z.inj_add, back_words by (done || lia).
  cbn [mbind option_bind]. rewrite EI, Nat.sub_diag, drop_0. rewrite <- Nat2Z.inj_sub by lia.
  set (w := take (I + fw d - k) (words d)). assert (length w = I + fw d - k)%nat as Lw by (unfold w; rewrite length_take; lia).
  rewrite store_spec by (rewrite ?length_reverse; lia). rewrite length_reverse, Lw, Nat.sub_diag, take_0. cbn [app mbind option_bind].
  pose proof (v_frac d Hv). destruct (valid_stored (intg d - Z.of_nat k * DIG_PER_DEC1) (frac d) (sign d) w (drop (I + fw d - k) (buf d))) as [Hv' Hw'].
  1-3: unfold DIG_PER_DEC1 in *; lia.
  1: by apply Forall_take, (v_words d Hv).
  1: { rewrite Hi, <- Z.mul_sub_distr_r, round_up_words, fw_Z by (done || lia). lia. }
  eexists _, (I - k)%nat. split; [done|]. split; [done|]. split; [cbn; lia|]. do 2 (split; [done|]). rewrite Hw'.
  unfold w. rewrite <- EI, <- Hl. apply rval_zero_top; [lia|]. unfold words. rewrite reverse_involutive, take_take, Nat.min_l by lia. done.
Qed.

(** ** The product *)

(** The words that the product has in front of the point. *)
Definition mul_intg (d1 d2 : decimal_t) : nat := Z.to_nat (ROUND_UP (intg d1 + intg d2)).

(** All products of a word of one number and a word of the other are small. *)
Definition words_fit (d1 d2 : decimal_t) : Prop := Forall (fun x => Forall (fits x) (words d2)) (words d1).

Lemma mul_intg_spec d1 d2 : valid d1 -> valid d2 ->
  ROUND_UP (intg d1 + intg d2) = Z.of_nat (mul_intg d1 d2) /\ (iw d1 + iw d2 <= S (mul_intg d1 d2))%nat /\
  intg d1 + intg d2 <= Z.of_nat (mul_intg d1 d2) * DIG_PER_DEC1.
Proof.
  intros H1 H2. pose proof (v_intg _ H1). pose proof (v_intg _ H2). pose proof (iw_Z _ H1). pose proof (iw_Z _ H2).
  pose proof (round_up_spec (intg d1)). pose proof (round_up_spec (intg d2)). pose proof (round_up_spec (intg d1 + intg d2)).
  unfold mul_intg, DIG_PER_DEC1. lia.
Qed.

Lemma mul_bound d1 d2 : number d1 -> number d2 -> rval (words d1) * rval (words d2) < B ^ Z.of_nat (mul_intg d1 d2 + (fw d1 + fw d2)).
Proof.
  intros H1 H2. pose proof (n_valid _ H1) as V1. pose proof (n_valid _ H2) as V2. destruct (mul_intg_spec d1 d2 V1 V2) as (_ & _ & Hi).
  pose proof (n_whole _ H1) as W1. pose proof (n_whole _ H2) as W2. unfold whole in *. pose proof (rval_nonneg _ V1). pose proof (rval_nonneg _ V2).
  pose proof (v_intg _ V1). pose proof (v_intg _ V2). apply Z.lt_le_trans with ((10 ^ intg d1 * B ^ Z.of_nat (fw d1)) * (10 ^ intg d2 * B ^ Z.of_nat (fw d2))); [nia|].
  replace (10 ^ intg d1 * B ^ Z.of_nat (fw d1) * (10 ^ intg d2 * B ^ Z.of_nat (fw d2))) with (10 ^ (intg d1 + intg d2) * B ^ Z.of_nat (fw d1 + fw d2))
    by (rewrite Bpow_add, Z.pow_add_r by done; lia).
  rewrite (Bpow_add (mul_intg d1 d2)). apply Z.mul_le_mono_nonneg_r; [pose proof (Bpow_pos (fw d1 + fw d2)); lia|].
  rewrite <- pow10_words by lia. apply Z.pow_le_mono_r; lia.
Qed.

Lemma mul_precise d1 d2 : number d1 -> number d2 -> precise (frac d1 + frac d2) (fw d1 + fw d2) (rval (words d1) * rval (words d2)).
Proof.
  intros H1 H2. pose proof (n_valid _ H1) as V1. pose proof (n_valid _ H2) as V2. unfold precise.
  pose proof (round_up_spec _ (v_frac _ V1)). pose proof (round_up_spec _ (v_frac _ V2)). pose proof (fw_Z _ V1). pose proof (fw_Z _ V2).
  replace (9 * Z.of_nat (fw d1 + fw d2) - (frac d1 + frac d2)) with ((9 * Z.of_nat (fw d1) - frac d1) + (9 * Z.of_nat (fw d2) - frac d2)) by lia.
  rewrite Z.pow_add_r by lia. destruct (n_frac _ H1) as [p Hp], (n_frac _ H2) as [q Hq]. exists (p * q). rewrite Hp, Hq. lia.
Qed.

(** The words of the product, before anything is left out. *)
Lemma mul_stored d1 d2 s to : number d1 -> number d2 -> words_fit d1 d2 -> (mul_intg d1 d2 + (fw d1 + fw d2) <= length (buf to))%nat ->
  let n := (mul_intg d1 d2 + (fw d1 + fw d2))%nat in
  exists w, mul_rows (words d1) (words d2) (replicate n 0) = Some w /\ length w = n /\ Forall (fun x => digit x) w /\
    rval w = rval (words d1) * rval (words d2) /\
    let d := mkDec (Z.of_nat (mul_intg d1 d2) * DIG_PER_DEC1) (frac d1 + frac d2) s (reverse w ++ drop n (buf to)) in
    valid d /\ (fw d <= fw d1 + fw d2)%nat /\ scaled (fw d1 + fw d2) d = rval w /\ precise (frac d) (fw d) (rval (words d)).
Proof.
  intros H1 H2 Hfit Hroom n. pose proof (n_valid _ H1) as V1. pose proof (n_valid _ H2) as V2. destruct (mul_intg_spec d1 d2 V1 V2) as (_ & Hi & Hi9).
  destruct (mul_rows_spec (words d2) (words d1) (replicate n 0)) as (w & -> & Dw & Lw & Vw);
    [apply (v_words _ V1)|apply (v_words _ V2)|done|by apply Forall_replicate|rewrite length_replicate, !length_words by done; lia|
     rewrite length_words by done; pose proof (some_word _ V2); lia|rewrite rval_replicate, length_replicate; by apply mul_bound|].
  rewrite length_replicate in Lw. rewrite rval_replicate, Z.add_0_l in Vw. exists w. do 4 (split; [done|]). intros d.
  pose proof (v_frac _ V1). pose proof (v_frac _ V2). pose proof (round_up_spec _ (v_frac _ V1)). pose proof (round_up_spec _ (v_frac _ V2)).
  pose proof (fw_Z _ V1). pose proof (fw_Z _ V2). pose proof (round_up_spec (frac d1 + frac d2)). pose proof (v_some _ V1). pose proof (v_intg _ V1). pose proof (v_intg _ V2).
  assert (fw d = Z.to_nat (ROUND_UP (frac d1 + frac d2))) as HF by done. set (k := (fw d1 + fw d2 - fw d)%nat).
  destruct (valid_stored_low (Z.of_nat (mul_intg d1 d2) * DIG_PER_DEC1) (frac d1 + frac d2) s w (drop n (buf to)) k) as [Hv Hw];
    [unfold DIG_PER_DEC1; lia|lia|lia|done|lia|rewrite round_up_words by lia; lia|].
  fold d in Hv, Hw. split; [done|]. split; [lia|]. pose proof (mul_precise d1 d2 H1 H2) as Hp. rewrite <- Vw in Hp. unfold precise in *.
  assert (10 ^ (9 * Z.of_nat (fw d1 + fw d2) - (frac d1 + frac d2)) = B ^ Z.of_nat k * 10 ^ (9 * Z.of_nat (fw d) - (frac d1 + frac d2))) as E.
  { rewrite <- pow10_words by lia. rewrite <- Z.pow_add_r by (unfold DIG_PER_DEC1; lia). f_equal. unfold DIG_PER_DEC1. lia. }
  rewrite E in Hp. assert (rval w = B ^ Z.of_nat k * rval (drop k w)) as Ew.
  { apply rval_low_zero; [done|lia|]. etransitivity; [|exact Hp]. apply Z.divide_factor_l. }
  split; [unfold scaled; rewrite Hw; symmetry; exact Ew|]. rewrite Hw. rewrite Ew in Hp. apply Z.mul_divide_cancel_l in Hp; [exact Hp|].
  pose proof (Bpow_pos k). lia.
Qed.

Lemma rval_is_zero w : Forall (fun x => digit x) w -> forallb (fun x => x =? 0) w = (rval w =? 0).
Proof.
  induction 1 as [|x w Hx Hw IH]; [done|]. cbn [forallb rval]. rewrite IH. pose proof (rval_bound w Hw).
  destruct (Z.eqb_spec x 0), (Z.eqb_spec (rval w) 0), (Z.eqb_spec (x + B * rval w) 0); unfold DIG_BASE in *; done || lia.
Qed.

Lemma words_all d : valid d -> back (buf d) 0 (Z.of_nat (iw d) + Z.of_nat (fw d)) = Some (words d).
Proof. intros Hv. rewrite <- Nat2Z.inj_add, back_words0, Nat.sub_diag, drop_0 by (done || lia). done. Qed.

(** [decimal_mul] with room for all words. *)
Lemma decimal_mul_unfold d1 d2 to w : valid d1 -> valid d2 -> let n := (mul_intg d1 d2 + (fw d1 + fw d2))%nat in
  (n <= length (buf to))%nat -> mul_rows (words d1) (words d2) (replicate n 0) = Some w -> length w = n ->
  decimal_mul d1 d2 to =
    (let d := mkDec (Z.of_nat (mul_intg d1 d2) * DIG_PER_DEC1) (frac d1 + frac d2) (negb (eqb (sign d1) (sign d2))) (reverse w ++ drop n (buf to)) in
     let d := if sign d && forallb (fun x => x =? 0) w then decimal_make_zero d else d in
     d ← strip d (Z.of_nat (mul_intg d1 d2) + ROUND_UP (frac d)); Some (d, E_DEC_OK)).
Proof.
  intros V1 V2 n Hroom Ew Lw. unfold decimal_mul. destruct (mul_intg_spec d1 d2 V1 V2) as (EI & _ & _).
  rewrite EI, !iw_Z, !fw_Z, fix_ok by (done || (unfold len; lia)). cbn [negb Z.eqb E_DEC_OK]. rewrite !Z.sub_diag, !words_all by done.
  cbn [mbind option_bind].
  replace (Z.of_nat (mul_intg d1 d2) + (Z.of_nat (fw d1) + Z.of_nat (fw d2))) with (Z.of_nat n) by lia. rewrite Nat2Z.id, Ew.
  cbn [mbind option_bind]. rewrite store_spec by (rewrite ?length_reverse; lia). rewrite length_reverse, Lw, Nat.sub_diag, take_0. done.
Qed.

(** C15: [decimal_mul] is exact where the 32-bit sums of [ADD2] cannot overflow:
    if the upper half of no product of two words reaches 147483648 (for instance
    if one of the numbers has words below that), and the result has the room that
    [decimal_result_size] asks for, the product of the numbers is stored, without
    an error, with the zero words in front taken away; the result is a number
    again, zero having no sign. *)
Theorem decimal_mul_exact d1 d2 to size : number d1 -> number d2 -> words_fit d1 d2 ->
  decimal_result_size d1 d2 op_times 0 = Some size -> size <= len to ->
  exists to', decimal_mul d1 d2 to = Some (to', E_DEC_OK) /\ number to' /\ (fw to' <= fw d1 + fw d2)%nat /\
    sval (fw d1 + fw d2) to' = sval (fw d1) d1 * sval (fw d2) d2.
Proof.
  intros H1 H2 Hfit Hsize Hroom'. pose proof (n_valid _ H1) as V1. pose proof (n_valid _ H2) as V2.
  assert (mul_intg d1 d2 + (fw d1 + fw d2) <= length (buf to))%nat as Hroom.
  { injection Hsize as <-. destruct (mul_intg_spec d1 d2 V1 V2) as (EI & _ & _). rewrite EI, !fw_Z in Hroom' by done. unfold len in Hroom'. lia. }
  set (s := negb (eqb (sign d1) (sign d2))).
  destruct (mul_stored d1 d2 s to H1 H2 Hfit Hroom) as (w & Ew & Lw & Dw & Vw & Hd). rewrite (decimal_mul_unfold d1 d2 to w V1 V2 Hroom Ew Lw).
  cbv zeta. fold s. cbv zeta in Hd. set (d := mkDec _ _ s _) in *. destruct Hd as (Hv & HF & Hsc & Hp).
  change (sign d) with s. rewrite rval_is_zero by done. assert (sval (fw d1) d1 * sval (fw d2) d2 = signed s (rval w)) as ->.
  { unfold sval. rewrite !scaled_self, Vw. unfold s. destruct (sign d1), (sign d2); cbn [signed eqb negb]; lia. }
  destruct (s && (rval w =? 0)) eqn:Ez.
  - apply andb_true_iff in Ez as [Es Ez]. apply Z.eqb_eq in Ez. destruct (valid_zero d) as [Hvz Hwz]; [apply (v_room d) in Hv as Hr; pose proof (some_word d Hv); lia|].
    exists (decimal_make_zero d). split.
    { unfold strip. destruct (skip_words_spec (buf (decimal_make_zero d)) 1) as (k & Ek & _ & _ & Hk). cbn [intg decimal_make_zero] in *. rewrite Ek.
      assert (k = O) as -> by (unfold DIG_PER_DEC1 in Hk; lia). done. }
    split; [split; [done|unfold whole; rewrite Hwz; done|rewrite Hwz; apply precise_zero|done]|]. split; [change (fw (decimal_make_zero d)) with O; lia|].
    unfold sval, scaled. rewrite Hwz, Ez, Es. cbn [rval sign decimal_make_zero signed]. lia.
  - destruct (strip_spec d (mul_intg d1 d2) Hv eq_refl) as (d' & i & -> & Hv' & Hi & Hfr & Hs & Hval). cbn [mbind option_bind].
    assert (fw d' = fw d) as Hfw by (unfold fw; by rewrite Hfr). exists d'. split; [done|]. split; [split|].
    + done.
    + apply (whole_words d' (Z.of_nat i)); [done|done|lia].
    + by rewrite Hfr, Hfw, Hval.
    + intros E0. rewrite Hval in E0. rewrite Hs. change (sign d) with s. destruct s; [|done]. unfold scaled in Hsc. rewrite E0, Z.mul_0_r in Hsc.
      rewrite <- Hsc in Ez. done.
    + split; [lia|]. unfold sval, scaled. rewrite Hs, Hval, Hfw. change (sign d) with s. rewrite <- Hsc. done.
Qed.

(** -0.5 and 12000000000.25 *)
Definition mul_a : decimal_t := mkDec 1 1 true [0; 500000000].
Definition mul_b : decimal_t := mkDec 11 2 false [12; 0; 250000000].

Lemma decimal_mul_exact_witness : exists to', decimal_mul mul_a mul_b (mkDec 0 0 false [7; 7; 7; 7; 7]) = Some (to', E_DEC_OK) /\
  sval 2 to' = - 6000000000125000000000000000.
Proof.
  destruct (decimal_mul_exact mul_a mul_b (mkDec 0 0 false [7; 7; 7; 7; 7]) 4) as (to' & E & _ & _ & Hv).
  1-2: apply number_of; vm_compute; first [done | lia].
  1: repeat constructor; vm_compute; done.
  1: vm_compute; reflexivity.
  1: vm_compute; discriminate.
  exists to'. split; [exact E|]. etransitivity; [exact Hv|]. vm_compute. reflexivity.
Defined.

(** 999999998999999999 and 500000001999999999 *)
Definition mul_c : decimal_t := mkDec 18 0 false [999999998; 999999999].
Definition mul_d : decimal_t := mkDec 18 0 false [500000001; 999999999].

(** The product of two 18-digit numbers can be wrong: the sum of three words
    in [ADD2] passes 2^31, and with sums that wrap around the result has a
    negative word and another value than the product, without an error. *)
Theorem decimal_mul_wraps : number mul_c /\ number mul_d /\
  exists to', decimal_mul mul_c mul_d (mkDec 0 0 false [0; 0; 0; 0]) = Some (to', E_DEC_OK) /\
    sval 0 mul_c * sval 0 mul_d = 500000001499999996499999999000000001 /\
    buf to' = [499999999; -1794967300; 499999999; 1] /\ sval 0 to' <> sval 0 mul_c * sval 0 mul_d.
Proof.
  split; [apply number_of; vm_compute; first [done | lia]|]. split; [apply number_of; vm_compute; first [done | lia]|].
  eexists. split; [vm_compute; reflexivity|]. split; [vm_compute; reflexivity|]. split; [reflexivity|]. vm_compute. done.
Qed.

(** The sum of two negative numbers that does not fit is stored as the largest
    positive number. *)
Lemma do_add_overflow_sign : exists to', do_add (mkDec 9 0 true [999999999]) (mkDec 9 0 true [999999999]) (mkDec 0 0 false [0]) = Some (to', E_DEC_OVERFLOW) /\
  sign to' = false /\ buf to' = [999999999].
Proof. eexists. split; [vm_compute; reflexivity|]. done. Qed.
