(* ===== verification/DecimalInt.v ===== *)
(** * Exact decimals and 64-bit integers (strings/decimal.c)

    [ulonglong2decimal], [longlong2decimal] and back.  The conversions of a
    decimal read its words from the first one on, with tests for an overflow
    after each step. *)

From stdpp Require Import base numbers list.
From Stdlib Require Import ZArith Lia.
From S2P Require Import Prelude Decimal DecimalArith DecimalSub.

Local Open Scope Z_scope.

Definition ULONGLONG_MAX : Z := 2 ^ 64 - 1.
Definition LONGLONG_MIN : Z := - 2 ^ 63.

(** ** The functions *)

(** [for (intg1 = 1; from >= DIG_BASE; intg1++, from /= DIG_BASE)] *)
Fixpoint ull_words (fuel : nat) (from : Z) : nat :=
  match fuel with
  | O => 1
  | S fuel => if DIG_BASE <=? from then S (ull_words fuel (from / DIG_BASE)) else 1
  end.

(** The last [intg1] words of [x], the last one first. *)
Fixpoint ull_digits (intg1 : nat) (x : Z) : list Z :=
  match intg1 with
  | O => []
  | S intg1 => let y := x / DIG_BASE in (x - y * DIG_BASE) :: ull_digits intg1 y
  end.

Definition ull2dec (from : Z) (to : decimal_t) : option (decimal_t * Z) :=
  let intg1 := Z.of_nat (ull_words 64 from) in
  let '(intg1, error) := if len to <? intg1 then (len to, E_DEC_OVERFLOW) else (intg1, E_DEC_OK) in
  b ← store (buf to) intg1 (reverse (ull_digits (Z.to_nat intg1) from));
  Some (mkDec (intg1 * DIG_PER_DEC1) 0 (sign to) b, error).

Definition ulonglong2decimal (from : Z) (to : decimal_t) : option (decimal_t * Z) :=
  ull2dec from (mkDec (intg to) (frac to) false (buf to)).

Definition longlong2decimal (from : Z) (to : decimal_t) : option (decimal_t * Z) :=
  let to := mkDec (intg to) (frac to) (from <? 0) (buf to) in
  if from <? 0 then ull2dec (u64 (- from)) to else ull2dec (u64 from) to.

(** The loop over the words in front of the point: an overflow, with the value so
    far, or the value and the words behind it. *)
Fixpoint ull_loop (buf : list Z) (intg x : Z) : option (Z + Z * list Z) :=
  if intg <=? 0 then Some (inr (x, buf))
  else
    match buf with
    | [] => None
    | w :: buf =>
        let y := x in
        let x := u64 (x * DIG_BASE + w) in
        if (ULONGLONG_MAX / DIG_BASE <? y) || (x <? y) then Some (inl y)
        else ull_loop buf (intg - DIG_PER_DEC1) x
    end.

Fixpoint ll_loop (buf : list Z) (intg x : Z) : option (Z + Z * list Z) :=
  if intg <=? 0 then Some (inr (x, buf))
  else
    match buf with
    | [] => None
    | w :: buf =>
        let y := x in
        let x := s64 (x * DIG_BASE - w) in
        if (y <? Z.quot LONGLONG_MIN DIG_BASE) || (y <? x) then Some (inl y)
        else ll_loop buf (intg - DIG_PER_DEC1) x
    end.

(** [for (frac = from->frac; frac > 0; frac -= DIG_PER_DEC1)] *)
Fixpoint frac_loop (buf : list Z) (frac : Z) : option Z :=
  if frac <=? 0 then Some E_DEC_OK
  else
    match buf with
    | [] => None
    | w :: buf => if negb (w =? 0) then Some E_DEC_TRUNCATED else frac_loop buf (frac - DIG_PER_DEC1)
    end.

Definition decimal2ulonglong (from : decimal_t) : option (Z * Z) :=
  if sign from then Some (0, E_DEC_OVERFLOW)
  else
    r ← ull_loop (buf from) (intg from) 0;
    match r with
    | inl y => Some (y, E_DEC_OVERFLOW)
    | inr (x, rest) => e ← frac_loop rest (frac from); Some (x, e)
    end.

Definition decimal2longlong (from : decimal_t) : option (Z * Z) :=
  r ← ll_loop (buf from) (intg from) 0;
  match r with
  | inl y => Some (if sign from then y else s64 (- y), E_DEC_OVERFLOW)
  | inr (x, rest) =>
      (* boundary case: 9223372036854775808 *)
      if negb (sign from) && (x <? 0) && (s64 (- x) <? 0) then Some (s64 (-1 - x), E_DEC_OVERFLOW)
      else
        e ← frac_loop rest (frac from);
        Some (if sign from then x else s64 (- x), e)
  end.

(** ** The loops *)

(** The value of words, the first one first, after [x]. *)
Definition shifted (x : Z) (l : list Z) : Z := x * B ^ Z.of_nat (length l) + rval (reverse l).

Lemma shifted_cons x w l : shifted x (w :: l) = shifted (x * B + w) l.
Proof. unfold shifted. rewrite reverse_cons, rval_app, length_reverse. cbn [length rval]. rewrite Bpow_S. lia. Qed.

Lemma shifted_bound x l : Forall (fun w => digit w) l -> x * B ^ Z.of_nat (length l) <= shifted x l < (x + 1) * B ^ Z.of_nat (length l).
Proof. intros Hl. unfold shifted. pose proof (rval_bound (reverse l) ltac:(by apply Forall_reverse)) as Hb. rewrite length_reverse in Hb. lia. Qed.

Lemma shifted_ge x l : Forall (fun w => digit w) l -> 0 <= x -> x <= shifted x l.
Proof. intros Hl Hx. pose proof (shifted_bound x l Hl). pose proof (Bpow_pos (length l)). nia. Qed.

Lemma round_up_step i : 0 < i -> ROUND_UP i = 1 + ROUND_UP (Z.max 0 (i - DIG_PER_DEC1)).
Proof.
  intros Hi. pose proof (round_up_spec i ltac:(lia)). pose proof (round_up_spec (Z.max 0 (i - DIG_PER_DEC1)) ltac:(lia)).
  unfold DIG_PER_DEC1 in *. lia.
Qed.

(** Words in front of the point: [l], then [rest]. *)
Lemma words_ull_loop l : forall rest i x, Forall (fun w => digit w) l -> i <= Z.of_nat (length l) * DIG_PER_DEC1 ->
  Z.of_nat (length l) * DIG_PER_DEC1 < i + DIG_PER_DEC1 -> 0 <= x <= ULONGLONG_MAX ->
  if shifted x l <=? ULONGLONG_MAX then ull_loop (l ++ rest) i x = Some (inr (shifted x l, rest))
  else exists y, ull_loop (l ++ rest) i x = Some (inl y).
Proof.
  induction l as [|w l IH]; intros rest i x Hl Hi1 Hi2 Hx; unfold DIG_PER_DEC1 in *.
  { assert (shifted x [] = x) as -> by (unfold shifted; cbn; lia). rewrite (proj2 (Z.leb_le _ _)) by lia. cbn [length] in *. cbn [app].
    destruct rest; cbn [ull_loop]; by rewrite (proj2 (Z.leb_le _ _)) by lia. }
  apply Forall_cons in Hl as [Hw Hl]. cbn [app ull_loop length] in *. rewrite (proj2 (Z.leb_gt i 0)) by lia. rewrite shifted_cons.
  unfold ULONGLONG_MAX, DIG_PER_DEC1 in *. change ((2 ^ 64 - 1) / B) with 18446744073. destruct (Z.ltb_spec 18446744073 x) as [Hbig|Hbig]; cbn [orb].
  - pose proof (shifted_ge (x * B + w) l Hl ltac:(unfold DIG_BASE in *; lia)). rewrite (proj2 (Z.leb_gt _ _)) by (unfold DIG_BASE in *; lia). by eexists.
  - destruct (Z.le_gt_cases (x * B + w) (2 ^ 64 - 1)) as [Hok|Hov].
    + rewrite u64_small by (unfold DIG_BASE in *; lia). rewrite (proj2 (Z.ltb_ge _ _)) by (unfold DIG_BASE in *; lia).
      apply IH; [done|lia|lia|unfold DIG_BASE in *; lia].
    + pose proof (shifted_ge (x * B + w) l Hl ltac:(unfold DIG_BASE in *; lia)). rewrite (proj2 (Z.leb_gt _ _)) by lia.
      assert (u64 (x * B + w) < x) as Hlt by (unfold u64, DIG_BASE in *; dlia). rewrite (proj2 (Z.ltb_lt _ _) Hlt). by eexists.
Qed.

(** The same with the value below zero, down to -2^63. *)
Lemma words_ll_loop l : forall rest i x, Forall (fun w => digit w) l -> i <= Z.of_nat (length l) * DIG_PER_DEC1 ->
  Z.of_nat (length l) * DIG_PER_DEC1 < i + DIG_PER_DEC1 -> 0 <= x <= 2 ^ 63 ->
  if shifted x l <=? 2 ^ 63 then ll_loop (l ++ rest) i (- x) = Some (inr (- shifted x l, rest))
  else exists y, ll_loop (l ++ rest) i (- x) = Some (inl y).
Proof.
  induction l as [|w l IH]; intros rest i x Hl Hi1 Hi2 Hx; unfold DIG_PER_DEC1 in *.
  { assert (shifted x [] = x) as -> by (unfold shifted; cbn; lia). rewrite (proj2 (Z.leb_le _ _)) by lia. cbn [length] in *. cbn [app].
    destruct rest; cbn [ll_loop]; by rewrite (proj2 (Z.leb_le _ _)) by lia. }
  apply Forall_cons in Hl as [Hw Hl]. cbn [app ll_loop length] in *. rewrite (proj2 (Z.leb_gt i 0)) by lia. rewrite shifted_cons.
  unfold DIG_PER_DEC1 in *. change (Z.quot LONGLONG_MIN B) with (-9223372036).
  destruct (Z.ltb_spec (- x) (-9223372036)) as [Hbig|Hbig]; cbn [orb].
  - pose proof (shifted_ge (x * B + w) l Hl ltac:(unfold DIG_BASE in *; lia)). rewrite (proj2 (Z.leb_gt _ _)) by (unfold DIG_BASE in *; lia). by eexists.
  - destruct (Z.le_gt_cases (x * B + w) (2 ^ 63)) as [Hok|Hov].
    + rewrite s64_small by (unfold DIG_BASE in *; lia). rewrite (proj2 (Z.ltb_ge _ _)) by (unfold DIG_BASE in *; lia).
      replace (- x * B - w) with (- (x * B + w)) by lia. apply IH; [done|lia|lia|unfold DIG_BASE in *; lia].
    + pose proof (shifted_ge (x * B + w) l Hl ltac:(unfold DIG_BASE in *; lia)). rewrite (proj2 (Z.leb_gt _ _)) by lia.
      assert (- x < s64 (- x * B - w)) as Hlt by (unfold s64, DIG_BASE in *; dlia). rewrite (proj2 (Z.ltb_lt _ _) Hlt). by eexists.
Qed.

Lemma frac_loop_spec l : forall rest f, Forall (fun w => digit w) l -> f <= Z.of_nat (length l) * DIG_PER_DEC1 ->
  Z.of_nat (length l) * DIG_PER_DEC1 < f + DIG_PER_DEC1 ->
  frac_loop (l ++ rest) f = Some (if rval (reverse l) =? 0 then E_DEC_OK else E_DEC_TRUNCATED).
Proof.
  induction l as [|w l IH]; intros rest f Hl Hf1 Hf2; unfold DIG_PER_DEC1 in *.
  { cbn [length app reverse rval] in *. destruct rest; cbn [frac_loop]; by rewrite (proj2 (Z.leb_le _ _)) by lia. }
  apply Forall_cons in Hl as [Hw Hl]. cbn [app frac_loop length] in *. rewrite (proj2 (Z.leb_gt f 0)) by lia.
  rewrite reverse_cons, rval_app, length_reverse. cbn [rval]. pose proof (rval_bound (reverse l) ltac:(by apply Forall_reverse)).
  pose proof (Bpow_pos (length l)). destruct (Z.eqb_spec w 0) as [-> |Hne]; cbn [negb].
  - rewrite IH by (done || unfold DIG_PER_DEC1; lia). rewrite !Z.mul_0_r, Z.add_0_r. done.
  - rewrite (proj2 (Z.eqb_neq _ _)) by nia. done.
Qed.

(** ** The words of a number, the first one first *)

(** The value in front of the point. *)
Definition whole_part (d : decimal_t) : Z := rval (words d) / B ^ Z.of_nat (fw d).

(** What is behind it is zero. *)
Definition integral (d : decimal_t) : bool := rval (words d) mod B ^ Z.of_nat (fw d) =? 0.

Lemma buf_parts d : valid d -> exists l1 l2 rest, buf d = l1 ++ l2 ++ rest /\ length l1 = iw d /\ length l2 = fw d /\
  Forall (fun w => digit w) l1 /\ Forall (fun w => digit w) l2 /\ shifted 0 l1 = whole_part d /\ (rval (reverse l2) =? 0) = integral d.
Proof.
  intros Hv. pose proof (v_room d Hv) as Hr. pose proof (v_words d Hv) as Hd. unfold words in Hd. apply Forall_reverse in Hd. rewrite reverse_involutive in Hd.
  set (w := take (iw d + fw d) (buf d)) in *. assert (length w = iw d + fw d)%nat as Lw by (unfold w; rewrite length_take; lia).
  exists (take (iw d) w), (drop (iw d) w), (drop (iw d + fw d) (buf d)). rewrite app_assoc, take_drop.
  split; [symmetry; apply take_drop|]. rewrite length_take, length_drop. split; [lia|]. split; [lia|].
  assert (Forall (fun x => digit x) (drop (iw d) w)) as D2 by (by apply Forall_drop).
  split; [by apply Forall_take|]. split; [done|].
  assert (rval (words d) = rval (reverse (drop (iw d) w)) + B ^ Z.of_nat (fw d) * rval (reverse (take (iw d) w))) as E.
  { unfold words. fold w. rewrite <- (take_drop (iw d) w) at 1. rewrite reverse_app, rval_app, length_reverse, length_drop, Lw. do 4 f_equal. lia. }
  pose proof (rval_bound (reverse (drop (iw d) w)) ltac:(by apply Forall_reverse)) as Hb. rewrite length_reverse, length_drop, Lw in Hb.
  replace (iw d + fw d - iw d)%nat with (fw d) in Hb by lia. unfold shifted, whole_part, integral. rewrite Z.mul_0_l, Z.add_0_l. split.
  - apply (Z.div_unique_pos _ _ _ (rval (reverse (drop (iw d) w)))); lia.
  - f_equal. apply (Z.mod_unique_pos _ _ (rval (reverse (take (iw d) w)))); lia.
Qed.

Lemma words_counted d : valid d -> intg d <= Z.of_nat (iw d) * DIG_PER_DEC1 < intg d + DIG_PER_DEC1 /\ frac d <= Z.of_nat (fw d) * DIG_PER_DEC1 < frac d + DIG_PER_DEC1.
Proof.
  intros Hv. pose proof (round_up_spec _ (v_intg d Hv)). pose proof (round_up_spec _ (v_frac d Hv)). rewrite <- iw_Z, <- fw_Z by done.
  unfold DIG_PER_DEC1. lia.
Qed.

Lemma whole_part_nonneg d : valid d -> 0 <= whole_part d.
Proof. intros Hv. apply Z.div_pos; [by apply rval_nonneg|apply Bpow_pos]. Qed.

(** ** Decimals to integers *)

Lemma decimal2ulonglong_spec d : valid d -> sign d = false ->
  if whole_part d <=? ULONGLONG_MAX then decimal2ulonglong d = Some (whole_part d, if integral d then E_DEC_OK else E_DEC_TRUNCATED)
  else exists y, decimal2ulonglong d = Some (y, E_DEC_OVERFLOW).
Proof.
  intros Hv Hs. destruct (buf_parts d Hv) as (l1 & l2 & rest & Eb & L1 & L2 & D1 & D2 & V1 & V2). destruct (words_counted d Hv) as [Ci Cf].
  unfold decimal2ulonglong. rewrite Hs, Eb. pose proof (words_ull_loop l1 (l2 ++ rest) (intg d) 0 D1) as H. rewrite L1, V1 in H.
  specialize (H ltac:(lia) ltac:(lia) ltac:(done)). destruct (whole_part d <=? ULONGLONG_MAX).
  - rewrite H. cbn [mbind option_bind]. rewrite (frac_loop_spec l2 rest) by (rewrite ?L2; done || lia). by rewrite V2.
  - destruct H as [y ->]. by exists y.
Qed.

Lemma decimal2longlong_spec d : valid d ->
  let v := signed (sign d) (whole_part d) in
  if (- 2 ^ 63 <=? v) && (v <? 2 ^ 63) then decimal2longlong d = Some (v, if integral d then E_DEC_OK else E_DEC_TRUNCATED)
  else exists y, decimal2longlong d = Some (y, E_DEC_OVERFLOW).
Proof.
  intros Hv v. destruct (buf_parts d Hv) as (l1 & l2 & rest & Eb & L1 & L2 & D1 & D2 & V1 & V2). destruct (words_counted d Hv) as [Ci Cf].
  unfold decimal2longlong. rewrite Eb. pose proof (words_ll_loop l1 (l2 ++ rest) (intg d) 0 D1) as H. rewrite L1, V1 in H.
  specialize (H ltac:(lia) ltac:(lia) ltac:(done)). change (- 0) with 0 in H. pose proof (whole_part_nonneg d Hv) as H0.
  pose proof (frac_loop_spec l2 rest (frac d) D2) as Hf. rewrite L2, V2 in Hf. specialize (Hf ltac:(lia) ltac:(lia)).
  destruct (Z.leb_spec (whole_part d) (2 ^ 63)) as [Hle|Hgt].
  - rewrite H. cbn [mbind option_bind]. rewrite Hf. cbn [mbind option_bind]. subst v. destruct (sign d); cbn [signed negb andb].
    + by rewrite (proj2 (Z.leb_le _ _)), (proj2 (Z.ltb_lt _ _)) by lia.
    + rewrite (proj2 (Z.leb_le _ _)) by lia. cbn [andb]. destruct (Z.ltb_spec (whole_part d) (2 ^ 63)) as [Hlt|Hge].
      * rewrite Z.opp_involutive, s64_small by lia. rewrite (proj2 (Z.ltb_ge (whole_part d) 0)) by lia. by rewrite andb_false_r.
      * assert (whole_part d = 2 ^ 63) as -> by lia. by eexists.
  - destruct H as [y ->]. cbn [mbind option_bind]. assert ((- 2 ^ 63 <=? v) && (v <? 2 ^ 63) = false) as ->.
    { subst v. apply andb_false_iff. destruct (sign d); cbn [signed]; [left; apply Z.leb_gt|right; apply Z.ltb_ge]; lia. }
    by eexists.
Qed.

(** ** Integers to decimals *)

Lemma ull_words_spec fuel : forall x, 0 <= x < B ^ Z.of_nat fuel -> (1 <= fuel)%nat ->
  let n := ull_words fuel x in (1 <= n <= fuel)%nat /\ x < B ^ Z.of_nat n.
Proof.
  induction fuel as [|fuel IH]; intros x Hx Hf; [lia|]. cbn [ull_words]. destruct (Z.leb_spec B x) as [Hb|Hb]; cbv zeta; [|rewrite Z.pow_1_r; lia].
  rewrite Bpow_S in Hx. assert (1 <= fuel)%nat as Hf' by (destruct fuel; [rewrite Z.pow_0_r in Hx; lia|lia]).
  assert (0 <= x / B < B ^ Z.of_nat fuel) as Hq by (split; [apply Z.div_pos; unfold DIG_BASE; lia|apply Z.div_lt_upper_bound; [done|lia]]).
  destruct (IH (x / B) Hq Hf') as [Hn Hlt]. split; [lia|]. rewrite Bpow_S. pose proof (Z.div_mod x B ltac:(done)). pose proof (Z.mod_pos_bound x B ltac:(done)). nia.
Qed.

Lemma ull_digits_spec n : forall x, 0 <= x < B ^ Z.of_nat n ->
  Forall (fun w => digit w) (ull_digits n x) /\ length (ull_digits n x) = n /\ rval (ull_digits n x) = x.
Proof.
  induction n as [|n IH]; intros x Hx; cbn [ull_digits rval length]; [split_and!; [by constructor|done|]; rewrite Z.pow_0_r in Hx; lia|].
  rewrite Bpow_S in Hx. pose proof (Z.div_mod x B ltac:(done)) as E. pose proof (Z.mod_pos_bound x B ltac:(done)).
  destruct (IH (x / B)) as (D & L & V); [split; [apply Z.div_pos; unfold DIG_BASE; lia|apply Z.div_lt_upper_bound; lia]|].
  split_and!; [constructor; [lia|done]|by rewrite L|rewrite V; lia].
Qed.

(** Three words are enough for 64 bits. *)
Lemma ull2dec_spec x to : is_u64 x -> (3 <= length (buf to))%nat ->
  exists d, ull2dec x to = Some (d, E_DEC_OK) /\ valid d /\ whole d /\ fw d = O /\ frac d = 0 /\ sign d = sign to /\ rval (words d) = x.
Proof.
  intros Hx Hroom. assert (ull_words 64 x = ull_words 3 x) as E3.
  { assert (x / B / B < B) by (rewrite Z.div_div by done; apply Z.div_lt_upper_bound; unfold DIG_BASE; lia).
    cbn [ull_words]. rewrite (proj2 (Z.leb_gt B (x / B / B))) by lia. done. }
  destruct (ull_words_spec 3 x) as [Hn Hlt]; [change (B ^ Z.of_nat 3) with (10 ^ 27); lia|lia|]. rewrite <- E3 in *.
  unfold ull2dec. set (n := ull_words 64 x) in *. rewrite (proj2 (Z.ltb_ge _ _)) by (unfold len; lia). rewrite Nat2Z.id.
  destruct (ull_digits_spec n x ltac:(lia)) as (D & L & V). rewrite store_spec by (rewrite ?length_reverse; lia).
  rewrite length_reverse, L, Nat.sub_diag, take_0. cbn [app mbind option_bind].
  destruct (valid_stored (Z.of_nat n * DIG_PER_DEC1) 0 (sign to) (ull_digits n x) (drop n (buf to))) as [Hv Hw];
    [unfold DIG_PER_DEC1; lia|lia|unfold DIG_PER_DEC1; lia|done|rewrite round_up_words by lia; rewrite L; change (ROUND_UP 0) with 0; lia|].
  eexists. split; [done|]. split; [done|]. split; [by apply (whole_words _ (Z.of_nat n)); [|done|lia]|]. do 3 (split; [done|]). by rewrite Hw.
Qed.

Lemma integer_parts d : fw d = O -> whole_part d = rval (words d) /\ integral d = true.
Proof. intros HF. unfold whole_part, integral. rewrite HF, Z.pow_0_r, Z.div_1_r, Z.mod_1_r. done. Qed.

Lemma integer_number d : valid d -> whole d -> fw d = O -> frac d = 0 -> (rval (words d) = 0 -> sign d = false) -> number d.
Proof. intros Hv Hw HF Hf Hz. split; [done|done| |done]. unfold precise. rewrite HF, Hf. apply Z.divide_1_l. Qed.

(** C31: Every 64-bit integer goes through a decimal unchanged:
    [longlong2decimal] and [ulonglong2decimal] store a number with that value in
    any decimal with at least three words, and [decimal2longlong] and
    [decimal2ulonglong] give the integer back without an error, the least signed
    integer included. *)
Theorem decimal_integers_roundtrip x to : (3 <= length (buf to))%nat ->
  (is_s64 x -> exists d, longlong2decimal x to = Some (d, E_DEC_OK) /\ number d /\ sval 0 d = x /\ decimal2longlong d = Some (x, E_DEC_OK)) /\
  (is_u64 x -> exists d, ulonglong2decimal x to = Some (d, E_DEC_OK) /\ number d /\ sval 0 d = x /\ decimal2ulonglong d = Some (x, E_DEC_OK)).
Proof.
  intros Hroom. split; intros Hx.
  - unfold longlong2decimal. destruct (ull2dec_spec (Z.abs x) (mkDec (intg to) (frac to) (x <? 0) (buf to))) as (d & E & Hv & Hw & HF & Hf & Hs & Hval); [lia|done|].
    exists d. split. { destruct (Z.ltb_spec x 0); rewrite u64_small by lia; [rewrite Z.abs_neq in E by lia|rewrite Z.abs_eq in E by lia]; done. }
    cbn [sign] in Hs. assert (signed (sign d) (rval (words d)) = x) as Ex by (rewrite Hs, Hval; destruct (Z.ltb_spec x 0); cbn [signed]; lia).
    split; [apply integer_number; [done..|]; intros E0; rewrite Hs; apply Z.ltb_ge; lia|]. destruct (integer_parts d HF) as [Ep Ei].
    split; [unfold sval; by rewrite <- HF, scaled_self|]. pose proof (decimal2longlong_spec d Hv) as H. cbv zeta in H. rewrite Ep, Ex, Ei in H.
    by rewrite (proj2 (Z.leb_le _ _)), (proj2 (Z.ltb_lt _ _)) in H by lia.
  - unfold ulonglong2decimal. destruct (ull2dec_spec x (mkDec (intg to) (frac to) false (buf to))) as (d & E & Hv & Hw & HF & Hf & Hs & Hval); [done|done|].
    cbn [sign] in Hs. exists d. split; [done|]. split; [by apply integer_number|]. destruct (integer_parts d HF) as [Ep Ei].
    split; [unfold sval; rewrite Hs, <- HF, scaled_self; done|]. pose proof (decimal2ulonglong_spec d Hv Hs) as H.
    rewrite Ep, Ei, Hval, (proj2 (Z.leb_le _ _)) in H by (unfold ULONGLONG_MAX; lia). done.
Qed.

Lemma decimal_integers_roundtrip_witness : exists d, longlong2decimal (- 2 ^ 63) (mkDec 0 0 false [0; 0; 0]) = Some (d, E_DEC_OK) /\
  decimal2longlong d = Some (- 2 ^ 63, E_DEC_OK).
Proof.
  destruct (decimal_integers_roundtrip (- 2 ^ 63) (mkDec 0 0 false [0; 0; 0])) as [H _]; [vm_compute; lia|].
  destruct H as (d & E & _ & _ & E'); [lia|]. exists d. split; assumption.
Defined.

(** C30: [decimal2longlong] is right for every decimal: it stores the part in
    front of the point, with its sign, whenever this is a 64-bit integer, and
    says [E_DEC_TRUNCATED] just if there is something behind the point;
    otherwise it says [E_DEC_OVERFLOW].  The tests for an overflow in its loop
    miss none and report none that is not there. *)
Theorem decimal2longlong_total d : valid d ->
  exists y e, decimal2longlong d = Some (y, e) /\
    let v := signed (sign d) (whole_part d) in
    (e = E_DEC_OVERFLOW <-> v < - 2 ^ 63 \/ 2 ^ 63 <= v) /\ (e <> E_DEC_OVERFLOW -> y = v) /\
    (e = E_DEC_TRUNCATED -> integral d = false) /\ (e = E_DEC_OK -> integral d = true).
Proof.
  intros Hv. pose proof (decimal2longlong_spec d Hv) as H. cbv zeta in *.
  destruct (Z.leb_spec (- 2 ^ 63) (signed (sign d) (whole_part d))), (Z.ltb_spec (signed (sign d) (whole_part d)) (2 ^ 63)); cbn [andb] in H.
  2-4: destruct H as [y H]; exists y, E_DEC_OVERFLOW; (split; [done|]); (split; [split; [lia|done]|]); (split; [done|]); (split; [done|done]).
  eexists _, _. split; [exact H|]. destruct (integral d); (split; [split; [done|lia]|]); done.
Qed.

Lemma decimal2longlong_total_witness : exists y, decimal2longlong (mkDec 19 3 false [9; 223372036; 854775808; 500000000]) = Some (y, E_DEC_OVERFLOW).
Proof.
  destruct (decimal2longlong_total (mkDec 19 3 false [9; 223372036; 854775808; 500000000])) as (y & e & E & Ho & _).
  { split; [vm_compute; done|vm_compute; done|vm_compute; done|vm_compute; lia|]. repeat constructor; vm_compute; done. }
  exists y. rewrite E. do 2 f_equal. apply Ho. right. vm_compute. discriminate.
Defined.
