(* ===== verification/DecimalBin.v ===== *)
(** * The stored form of exact decimals (strings/decimal.c)

    [decimal2bin] writes a number with a fixed number of digits before and behind
    the point as a row of big-endian integers, whose bytes are inverted for a
    negative number; [bin2decimal] reads it.  The bytes depend only on the value,
    can be compared with [memcmp], and give the value back. *)

From stdpp Require Import base numbers list.
From Stdlib Require Import ZArith Lia.
From S2P Require Import Prelude Decimal DecimalArith DecimalSub.

Local Open Scope Z_scope.

(** ** Sizes *)

Definition dig2bytes_tab : list Z := [0; 1; 1; 2; 2; 3; 3; 4; 4; 4].
Definition dig2bytes (n : Z) : Z := nth (Z.to_nat n) dig2bytes_tab 0.
Definition power10 (n : Z) : Z := nth (Z.to_nat n) powers10 0.

Definition decimal_size (precision scale : Z) : option Z :=
  _ ← assert_that ((0 <=? scale) && (0 <? precision) && (scale <=? precision));
  Some (ROUND_UP (precision - scale) + ROUND_UP scale).

Definition decimal_bin_size (precision scale : Z) : option Z :=
  let intg := precision - scale in
  let intg0 := Z.quot intg DIG_PER_DEC1 in
  let frac0 := Z.quot scale DIG_PER_DEC1 in
  let intg0x := intg - intg0 * DIG_PER_DEC1 in
  let frac0x := scale - frac0 * DIG_PER_DEC1 in
  _ ← assert_that ((0 <=? scale) && (0 <? precision) && (scale <=? precision));
  Some (intg0 * 4 + dig2bytes intg0x + frac0 * 4 + dig2bytes frac0x).

(** ** Leading zeros *)

(** [while (intg > 0 && *buf0 == 0)]; the words that are left. *)
Fixpoint skip_zeroes (buf0 : list Z) (intg i : Z) : option (list Z * Z) :=
  if intg <=? 0 then Some (buf0, intg)
  else
    match buf0 with
    | [] => None
    | w :: buf => if w =? 0 then skip_zeroes buf (intg - i) DIG_PER_DEC1 else Some (buf0, intg)
    end.

(** [for (i = (intg - 1) % DIG_PER_DEC1; *buf0 < powers10[i--]; intg--)] *)
Fixpoint count_digits (i : nat) (w intg : Z) : option Z :=
  if w <? power10 (Z.of_nat i) then match i with O => None | S i => count_digits i w (intg - 1) end
  else Some intg.

Definition remove_leading_zeroes (from : decimal_t) : option (list Z * Z) :=
  '(buf0, intg) ← skip_zeroes (buf from) (intg from) (Z.rem (intg from - 1) DIG_PER_DEC1 + 1);
  if 0 <? intg then
    w ← head buf0;
    intg ← count_digits (Z.to_nat (Z.rem (intg - 1) DIG_PER_DEC1)) w intg;
    _ ← assert_that (0 <? intg);
    Some (buf0, intg)
  else Some (buf0, 0).

(** ** Writing *)

(** [mi_int1store] .. [mi_int4store] *)
Definition mi_store (i x : Z) : list Z := reverse (le_bytes (Z.to_nat i) x).

(** [mi_sint1korr] .. [mi_sint4korr] *)
Definition mi_sint (l : list Z) : Z :=
  let n := 8 * Z.of_nat (length l) in (le_val (reverse l) + 2 ^ (n - 1)) mod 2 ^ n - 2 ^ (n - 1).

(** [while (frac1x < lim && dig2bytes[frac1x] == i) frac1x++] *)
Fixpoint widen (fuel : nat) (frac1x lim i : Z) : Z :=
  match fuel with
  | O => frac1x
  | S fuel => if (frac1x <? lim) && (dig2bytes frac1x =? i) then widen fuel (frac1x + 1) lim i else frac1x
  end.

(** [orig_to[0] ^= 0x80] *)
Definition flip_first (l : list Z) : list Z :=
  match l with
  | [] => []
  | b :: l => Z.lxor b 128 :: l
  end.

(** The words and digits to write behind the point, and the size that is filled. *)
Definition frac_sizes (frac0 frac0x fsize0 frac1 frac1x fsize1 error : Z) : Z * Z * Z * Z :=
  if fsize0 <? fsize1 then (frac0, frac0x, fsize0, E_DEC_TRUNCATED)
  else if (fsize1 <? fsize0) && negb (frac1x =? 0) then
    if frac0 =? frac1 then (frac1, frac0x, fsize1, error) else (frac1 + 1, 0, fsize0, error)
  else (frac1, frac1x, fsize0, error).

(** intg1x part *)
Definition put_intg (to buf1 : list Z) (intg1x mask : Z) : option (list Z * list Z) :=
  if intg1x =? 0 then Some (to, buf1)
  else
    match buf1 with
    | [] => None
    | w :: buf1 => Some (to ++ mi_store (dig2bytes intg1x) (Z.lxor (Z.rem w (power10 intg1x)) mask), buf1)
    end.

(** frac1x part *)
Definition put_frac (to buf1 : list Z) (frac1 frac1x frac0 frac0x mask : Z) : option (list Z) :=
  if frac1x =? 0 then Some to
  else
    let i := dig2bytes frac1x in
    let lim := if frac1 <? frac0 then DIG_PER_DEC1 else frac0x in
    let frac1x := widen 9 frac1x lim i in
    w ← head buf1;
    Some (to ++ mi_store i (Z.lxor (Z.quot w (power10 (DIG_PER_DEC1 - frac1x))) mask)).

(** [while (fsize0-- > fsize1 && to < to_end) *to++ = (uchar)mask] *)
Definition fill_end (to : list Z) (fsize0 fsize1 to_end mask : Z) : list Z :=
  if fsize1 <? fsize0 then to ++ replicate (Z.to_nat (Z.min (fsize0 - fsize1) (to_end - Z.of_nat (length to)))) (u8 mask) else to.

Definition decimal2bin (from : decimal_t) (precision frac_ : Z) : option (list Z * Z) :=
  let mask := if sign from then -1 else 0 in
  let intg := precision - frac_ in
  let intg0 := Z.quot intg DIG_PER_DEC1 in
  let frac0 := Z.quot frac_ DIG_PER_DEC1 in
  let intg0x := intg - intg0 * DIG_PER_DEC1 in
  let frac0x := frac_ - frac0 * DIG_PER_DEC1 in
  let frac1 := Z.quot (frac from) DIG_PER_DEC1 in
  let frac1x := frac from - frac1 * DIG_PER_DEC1 in
  let isize0 := intg0 * 4 + dig2bytes intg0x in
  let orig_fsize0 := frac0 * 4 + dig2bytes frac0x in
  let fsize1 := frac1 * 4 + dig2bytes frac1x in
  '(buf1, from_intg) ← remove_leading_zeroes from;
  let '(mask, intg, buf1) := if from_intg + fsize1 =? 0 then (0, 1, [0]) else (mask, intg, buf1) in
  let intg1 := Z.quot from_intg DIG_PER_DEC1 in
  let intg1x := from_intg - intg1 * DIG_PER_DEC1 in
  let isize1 := intg1 * 4 + dig2bytes intg1x in
  (* the words to pass over and the bytes to fill *)
  let '(skip, fill, intg1, intg1x, error) :=
    if intg <? from_intg then (intg1 - intg0 + b2z (0 <? intg1x) - b2z (0 <? intg0x), 0, intg0, intg0x, E_DEC_OVERFLOW)
    else (0, Z.max 0 (isize0 - isize1), intg1, intg1x, E_DEC_OK) in
  _ ← assert_that ((0 <=? skip) && (skip <=? Z.of_nat (length buf1)));
  let '(frac1, frac1x, fsize0, error) := frac_sizes frac0 frac0x orig_fsize0 frac1 frac1x fsize1 error in
  '(to, buf1) ← put_intg (replicate (Z.to_nat fill) (u8 mask)) (drop (Z.to_nat skip) buf1) intg1x mask;
  (* intg1+frac1 part *)
  let n := Z.to_nat (intg1 + frac1) in
  _ ← assert_that (Z.of_nat n <=? Z.of_nat (length buf1));
  let to := to ++ concat (map (fun w => mi_store 4 (Z.lxor w mask)) (take n buf1)) in
  to ← put_frac to (drop n buf1) frac1 frac1x frac0 frac0x mask;
  let to := fill_end to fsize0 fsize1 (isize0 + orig_fsize0) mask in
  _ ← assert_that (Z.of_nat (length to) =? isize0 + orig_fsize0);
  Some (flip_first to, error).

(** ** Reading *)

(** [*buf = x]; [if (buf > to->buf || *buf != 0) buf++; else to->intg -= digits] *)
Definition read_word (st : list Z * nat * Z) (x digits : Z) : option (list Z * nat * Z) :=
  let '(b, buf, intg) := st in
  _ ← assert_that (Z.of_nat buf <? Z.of_nat (length b));
  let b := <[buf := x]> b in
  Some (if (0 <? Z.of_nat buf) || negb (x =? 0) then (b, S buf, intg) else (b, buf, intg - digits)).

(** The next [i] bytes and the rest. *)
Definition get_bytes (from : list Z) (i : Z) : option (list Z * list Z) :=
  _ ← assert_that (i <=? Z.of_nat (length from));
  Some (take (Z.to_nat i) from, drop (Z.to_nat i) from).

Fixpoint read_intg (n : nat) (from : list Z) (mask : Z) (st : list Z * nat * Z) : option (list Z * (list Z * nat * Z)) :=
  match n with
  | O => Some (from, st)
  | S n =>
      '(w, from) ← get_bytes from 4;
      st ← read_word st (Z.lxor (mi_sint w) mask) DIG_PER_DEC1;
      read_intg n from mask st
  end.

(** [*buf = x; buf++] *)
Definition put_word (b : list Z) (buf : nat) (x : Z) : option (list Z) :=
  _ ← assert_that (Z.of_nat buf <? Z.of_nat (length b));
  Some (<[buf := x]> b).

Fixpoint read_frac (n : nat) (from : list Z) (mask : Z) (b : list Z) (buf : nat) : option (list Z * list Z * nat) :=
  match n with
  | O => Some (from, b, buf)
  | S n =>
      '(w, from) ← get_bytes from 4;
      b ← put_word b buf (Z.lxor (mi_sint w) mask);
      read_frac n from mask b (S buf)
  end.

(** The [intg0x] digits in front. *)
Definition read_first (from : list Z) (st : list Z * nat * Z) (intg0x mask : Z) : option (list Z * (list Z * nat * Z)) :=
  if intg0x =? 0 then Some (from, st)
  else
    '(w, from) ← get_bytes from (dig2bytes intg0x);
    st ← read_word st (Z.lxor (mi_sint w) mask) intg0x;
    Some (from, st).

(** The [frac0x] digits at the end. *)
Definition read_last (from b : list Z) (buf : nat) (frac0x mask : Z) : option (list Z) :=
  if frac0x =? 0 then Some b
  else
    '(w, _) ← get_bytes from (dig2bytes frac0x);
    put_word b buf (s32 (Z.lxor (mi_sint w) mask * power10 (DIG_PER_DEC1 - frac0x))).

Definition bin2decimal (from : list Z) (to : decimal_t) (precision scale : Z) : option (decimal_t * Z) :=
  let intg := precision - scale in
  let intg0 := Z.quot intg DIG_PER_DEC1 in
  let frac0 := Z.quot scale DIG_PER_DEC1 in
  let intg0x := intg - intg0 * DIG_PER_DEC1 in
  let frac0x := scale - frac0 * DIG_PER_DEC1 in
  let intg1 := intg0 + b2z (0 <? intg0x) in
  let frac1 := frac0 + b2z (0 <? frac0x) in
  b0 ← head from;
  let mask := if Z.testbit b0 7 then 0 else -1 in
  bin_size ← decimal_bin_size precision scale;
  '(d_copy, _) ← get_bytes from bin_size;
  let from := flip_first d_copy in
  let '(intg1', frac1, error) := FIX_INTG_FRAC_ERROR (len to) intg1 frac1 in
  let '(skip, intg0, intg0x, frac0, frac0x) :=
    if negb (error =? 0) then
      if intg1' <? intg1 then (dig2bytes intg0x + 4 * (intg0 - intg1'), intg1', 0, 0, 0) else (0, intg0, intg0x, frac1, 0)
    else (0, intg0, intg0x, frac0, frac0x) in
  '(_, from) ← get_bytes from skip;
  let to_frac := frac0 * DIG_PER_DEC1 + frac0x in
  let st := (buf to, O, intg0 * DIG_PER_DEC1 + intg0x) in
  '(from, st) ← read_first from st intg0x mask;
  '(from, (b, pos, to_intg)) ← read_intg (Z.to_nat intg0) from mask st;
  _ ← assert_that (0 <=? to_intg);
  '(from, b, pos) ← read_frac (Z.to_nat frac0) from mask b pos;
  b ← read_last from b pos frac0x mask;
  Some (mkDec to_intg to_frac (negb (mask =? 0)) b, error).

(** ** Groups of bytes *)

(** A number is stored as a list of groups, each of a number of bytes and a
    divisor of the word it holds. *)
Definition body (mask : Z) (sh : list (Z * Z)) (C : list Z) : list Z :=
  concat (zip_with (fun g c => mi_store (fst g) (Z.lxor (c / snd g) mask)) sh C).

Definition size (sh : list (Z * Z)) : Z := foldr Z.add 0 (map fst sh).

(** A word that a group can hold. *)
Definition fits_group (g : Z * Z) (c : Z) : Prop :=
  1 <= fst g <= 4 /\ 0 < snd g /\ digit c /\ (snd g | c) /\ c / snd g < 2 ^ (8 * fst g - 1).

Definition is_mask (m : Z) : Prop := m = 0 \/ m = -1.

Lemma lxor_is_mask x m : is_mask m -> Z.lxor x m = if m =? 0 then x else - x - 1.
Proof. intros [-> | ->]; cbn [Z.eqb]; [apply Z.lxor_0_r|]. rewrite Z.lxor_m1_r. unfold Z.lnot. lia. Qed.

Lemma length_mi_store n x : 0 <= n -> Z.of_nat (length (mi_store n x)) = n.
Proof. intros Hn. unfold mi_store. rewrite length_reverse, length_le_bytes. lia. Qed.

Lemma body_app m s1 s2 c1 c2 : length s1 = length c1 -> body m (s1 ++ s2) (c1 ++ c2) = body m s1 c1 ++ body m s2 c2.
Proof. intros Hl. unfold body. by rewrite zip_with_app, concat_app. Qed.

Lemma body_cons m g sh c C : body m (g :: sh) (c :: C) = mi_store (fst g) (Z.lxor (c / snd g) m) ++ body m sh C.
Proof. done. Qed.

Lemma body_words m W : body m (replicate (length W) (4, 1)) W = concat (map (fun w => mi_store 4 (Z.lxor w m)) W).
Proof. unfold body. f_equal. induction W as [|w W IH]; cbn; [done|]. by rewrite IH, Z.div_1_r. Qed.

Lemma length_body m sh C : Forall2 fits_group sh C -> Z.of_nat (length (body m sh C)) = size sh.
Proof.
  induction 1 as [|g c sh C [Hg _] _ IH]; [done|]. rewrite body_cons, length_app, Nat2Z.inj_add, IH, length_mi_store by lia. done.
Qed.

Lemma size_app s1 s2 : size (s1 ++ s2) = size s1 + size s2.
Proof. unfold size. induction s1 as [|g s1 IH]; cbn [app map foldr]; [done|]. rewrite IH. lia. Qed.

Lemma size_words n : size (replicate n (4, 1)) = 4 * Z.of_nat n.
Proof. induction n as [|n IH]; [done|]. cbn [replicate]. unfold size in *. cbn [map foldr fst]. rewrite IH. lia. Qed.

Lemma le_bytes_mask n m : is_mask m -> le_bytes n m = replicate n (u8 m).
Proof. intros Hm. induction n as [|n IH]; [done|]. cbn [le_bytes replicate]. f_equal. rewrite <- IH. f_equal. by destruct Hm as [-> | ->]. Qed.

Lemma mi_store_zero n m : is_mask m -> mi_store n (Z.lxor 0 m) = replicate (Z.to_nat n) (u8 m).
Proof. intros Hm. rewrite Z.lxor_0_l. unfold mi_store. rewrite le_bytes_mask by done. apply reverse_replicate. Qed.

Lemma size_nonneg sh : Forall (fun g => 0 <= fst g) sh -> 0 <= size sh.
Proof. induction 1 as [|g sh Hg _ IH]; [done|]. change (size (g :: sh)) with (fst g + size sh). lia. Qed.

Lemma body_zeros m sh : is_mask m -> Forall (fun g => 0 <= fst g) sh -> body m sh (replicate (length sh) 0) = replicate (Z.to_nat (size sh)) (u8 m).
Proof.
  intros Hm. induction 1 as [|g sh Hg Hsh IH]; [done|]. cbn [length replicate]. rewrite body_cons, Zdiv_0_l, mi_store_zero, IH by done.
  rewrite <- replicate_add. f_equal. change (size (g :: sh)) with (fst g + size sh).
  pose proof (size_nonneg sh Hsh). lia.
Qed.

Lemma le_bytes_add n m x : le_bytes (n + m) x = le_bytes n x ++ le_bytes m (x / 2 ^ (8 * Z.of_nat n)).
Proof.
  revert x. induction n as [|n IH]; intros x; cbn [Nat.add le_bytes app]; [by rewrite Z.div_1_r|]. rewrite IH. do 3 f_equal.
  rewrite Z.div_div by lia. f_equal. replace (8 * Z.of_nat (S n)) with (8 + 8 * Z.of_nat n) by lia. rewrite Z.pow_add_r by lia. lia.
Qed.

(** A value that fits fewer bytes. *)
Lemma mi_store_pad n k x m : is_mask m -> 0 <= k <= n -> 0 <= x < 2 ^ (8 * k) ->
  mi_store n (Z.lxor x m) = replicate (Z.to_nat (n - k)) (u8 m) ++ mi_store k (Z.lxor x m).
Proof.
  intros Hm Hk Hx. unfold mi_store. replace (Z.to_nat n) with (Z.to_nat k + Z.to_nat (n - k))%nat by lia.
  rewrite le_bytes_add, reverse_app. f_equal. rewrite Z2Nat.id by lia.
  assert (Z.lxor x m / 2 ^ (8 * k) = m) as ->; [|by rewrite le_bytes_mask, reverse_replicate].
  rewrite lxor_is_mask by done. destruct Hm as [-> | ->]; cbn [Z.eqb]; [by apply Z.div_small|].
  symmetry. apply (Z.div_unique_pos _ _ _ (2 ^ (8 * k) - x - 1)); lia.
Qed.

(** What [mi_sint] reads is what was written. *)
Lemma mi_sint_store n x m : is_mask m -> 1 <= n -> 0 <= x < 2 ^ (8 * n - 1) -> mi_sint (mi_store n (Z.lxor x m)) = Z.lxor x m.
Proof.
  intros Hm Hn Hx. unfold mi_sint. rewrite length_mi_store by lia. unfold mi_store. rewrite reverse_involutive, le_val_le_bytes, Z2Nat.id by lia.
  assert (2 ^ (8 * n) = 2 * 2 ^ (8 * n - 1)) as E by (rewrite <- Z.pow_succ_r by lia; f_equal; lia).
  rewrite lxor_is_mask by done. set (p := 2 ^ (8 * n - 1)) in *. rewrite Zplus_mod_idemp_l, E.
  destruct (m =? 0); rewrite Z.mod_small by lia; lia.
Qed.

Lemma lxor_twice x m : Z.lxor (Z.lxor x m) m = x.
Proof. by rewrite Z.lxor_assoc, Z.lxor_nilpotent, Z.lxor_0_r. Qed.
