(* ===== verification/DecimalPack.v ===== *)
(** * What [decimal2bin] writes

    The bytes are a function of the value: the words of the number, with zero
    words added at both ends, each in its group of bytes. *)

From stdpp Require Import base numbers list.
From Stdlib Require Import ZArith Lia.
From S2P Require Import Prelude Decimal DecimalArith DecimalSub DecimalInt DecimalBin.

Local Open Scope Z_scope.

(** ** Leading zeros *)

Lemma skip_zeroes_spec l : forall tl intg i, 1 <= i <= 9 -> intg = match l with [] => 0 | _ :: l => i + 9 * Z.of_nat (length l) end ->
  exists z, (z <= length l)%nat /\ take z l = replicate z 0 /\
    skip_zeroes (l ++ tl) intg i = Some (drop z l ++ tl, if (z =? 0)%nat then intg else 9 * Z.of_nat (length l - z)) /\
    forall w, head (drop z l) = Some w -> w <> 0.
Proof.
  induction l as [|w l IH]; intros tl intg i Hi Hn.
  { exists O. subst. split; [done|]. split; [done|]. split; [by destruct tl|done]. }
  cbn [app skip_zeroes]. rewrite (proj2 (Z.leb_gt _ _)) by lia. destruct (Z.eqb_spec w 0) as [-> |Hw].
  - destruct (IH tl (intg - i) 9) as (z & Hz & Et & Es & Hne); [lia|destruct l; cbn [length] in *; lia|].
    exists (S z). change DIG_PER_DEC1 with 9. cbn [length drop]. rewrite firstn_cons, Et, Es. split; [lia|]. split; [done|]. split; [|done].
    do 2 f_equal. cbn [Nat.eqb Nat.sub]. destruct (Nat.eqb_spec z 0) as [-> |_]; [|done]. rewrite Nat.sub_0_r. destruct l; cbn [length] in *; lia.
  - exists O. split; [cbn; lia|]. split; [done|]. split; [done|]. by intros ? [= <-].
Qed.

Lemma power10_pow n : 0 <= n <= 9 -> power10 n = 10 ^ n.
Proof.
  intros Hn. assert (forallb (fun k => power10 k =? 10 ^ k) (seqZ 0 10) = true) as H by (vm_compute; done).
  rewrite forallb_forall in H. apply Z.eqb_eq, H, list_elem_of_In, elem_of_seqZ. lia.
Qed.

Lemma count_digits_spec i : forall w n, (i <= 8)%nat -> 1 <= w < 10 ^ (Z.of_nat i + 1) ->
  exists k : nat, (k <= i)%nat /\ count_digits i w n = Some (n - Z.of_nat (i - k)) /\ 10 ^ Z.of_nat k <= w < 10 ^ (Z.of_nat k + 1).
Proof.
  induction i as [|i IH]; intros w n Hi Hw; cbn [count_digits]; rewrite power10_pow by lia.
  - exists O. rewrite (proj2 (Z.ltb_ge _ _)) by (cbn; lia). split_and!; [done|f_equal; lia|lia|lia].
  - destruct (Z.ltb_spec w (10 ^ Z.of_nat (S i))) as [Hlt|Hge].
    + destruct (IH w (n - 1)) as (k & Hk & E & Hb); [lia|replace (Z.of_nat i + 1) with (Z.of_nat (S i)) by lia; lia|].
      exists k. split; [lia|]. split; [rewrite E; f_equal; lia|done].
    + exists (S i). rewrite Nat.sub_diag. split_and!; [done|f_equal; lia|done|lia].
Qed.

(** The words of the whole part, from the first that is not zero on, and the
    number of their digits. *)
Definition stripped (d : decimal_t) (W : list Z) (n : Z) : Prop :=
  Forall (fun w => digit w) W /\ rval (reverse W) = whole_part d /\
  (W = [] /\ n = 0 \/ exists w W' (k : nat), W = w :: W' /\ n = 9 * Z.of_nat (length W') + Z.of_nat k + 1 /\ (k <= 8)%nat /\ 10 ^ Z.of_nat k <= w < 10 ^ (Z.of_nat k + 1)).

Lemma whole_part_bound d : valid d -> whole d -> whole_part d < 10 ^ intg d.
Proof. intros Hv Hw. unfold whole_part. apply Z.div_lt_upper_bound; [apply Bpow_pos|]. unfold whole in Hw. lia. Qed.

(** The leading zeros of [intg] digits. *)
Lemma leading_digits l1 tl intg : Forall (fun w => digit w) l1 -> 0 <= intg -> 9 * Z.of_nat (length l1) - 9 < intg <= 9 * Z.of_nat (length l1) -> rval (reverse l1) < 10 ^ intg ->
  exists W n, skip_zeroes (l1 ++ tl) intg (Z.rem (intg - 1) DIG_PER_DEC1 + 1) = Some (W ++ tl, n) /\ Forall (fun w => digit w) W /\ rval (reverse W) = rval (reverse l1) /\
    (exists z, l1 = replicate z 0 ++ W) /\
    match W with
    | [] => n = 0
    | w :: W' => 0 < n /\ exists k : nat, count_digits (Z.to_nat (Z.rem (n - 1) DIG_PER_DEC1)) w n = Some (9 * Z.of_nat (length W') + Z.of_nat k + 1) /\
        (k <= 8)%nat /\ 10 ^ Z.of_nat k <= w < 10 ^ (Z.of_nat k + 1)
    end.
Proof.
  intros D1 Hi Ci Hwb. destruct (skip_zeroes_spec l1 tl intg (if intg =? 0 then 9 else (intg - 1) mod 9 + 1)) as (z & Hz & Et & Es & Hne).
  { destruct (intg =? 0); [lia|]. dlia. }
  { destruct (Z.eqb_spec intg 0) as [E0|E0]; destruct l1; cbn [length] in *; dlia. }
  assert (skip_zeroes (l1 ++ tl) intg (Z.rem (intg - 1) DIG_PER_DEC1 + 1) = skip_zeroes (l1 ++ tl) intg (if intg =? 0 then 9 else (intg - 1) mod 9 + 1)) as ->.
  { destruct (Z.eqb_spec intg 0) as [E0|E0]; [rewrite E0; by destruct (l1 ++ tl)|]. by rewrite Z.rem_mod_nonneg by (unfold DIG_PER_DEC1; lia). }
  rewrite Es. clear Es. assert (l1 = replicate z 0 ++ drop z l1) as El by (by rewrite <- Et, take_drop). set (W := drop z l1) in *. set (n := if (z =? 0)%nat then _ else _).
  assert (Forall (fun w => digit w) W) as DW by (by apply Forall_drop). assert (length W = length l1 - z)%nat as LW by (unfold W; rewrite length_drop; lia).
  assert (rval (reverse W) = rval (reverse l1)) as VW by (rewrite El at 1; rewrite reverse_app, rval_app, reverse_replicate, rval_replicate; lia).
  exists W, n. do 3 (split; [done|]). split; [by exists z|]. destruct W as [|w W'] eqn:EW.
  { unfold n; cbn [length] in LW; destruct (Nat.eqb_spec z 0); lia. }
  specialize (Hne w eq_refl). apply Forall_cons in DW as [Dw DW']. assert (0 < n) as Hn by (unfold n; cbn [length] in LW; destruct (Nat.eqb_spec z 0); lia). split; [done|].
  assert (n = 9 * Z.of_nat (length W') + (n - 1) mod 9 + 1) as En by (unfold n in *; cbn [length] in LW; destruct (Nat.eqb_spec z 0); dlia).
  rewrite Z.rem_mod_nonneg by (unfold DIG_PER_DEC1; lia). change DIG_PER_DEC1 with 9. set (i := (n - 1) mod 9) in *. assert (0 <= i <= 8) as Hi8 by (unfold i; dlia).
  destruct (count_digits_spec (Z.to_nat i) w n) as (k & Hk & -> & Hb); [lia| |exists k; split; [f_equal; lia|split; [lia|done]]].
  split; [lia|]. rewrite Z2Nat.id by lia. unfold n in *. destruct (Nat.eqb_spec z 0) as [-> |Hz0].
  - rewrite <- VW, reverse_cons, rval_app, length_reverse in Hwb. cbn [rval] in Hwb.
    rewrite En in Hwb. rewrite <- Z.add_assoc, (Z.mul_comm 9), Z.pow_add_r, pow10_words in Hwb by lia.
    pose proof (rval_bound (reverse W') ltac:(by apply Forall_reverse)). pose proof (Bpow_pos (length W')). nia.
  - replace i with 8 by (unfold i; dlia). unfold DIG_BASE in Dw. lia.
Qed.

Lemma remove_leading_zeroes_spec d l1 tl : valid d -> whole d -> buf d = l1 ++ tl -> length l1 = iw d -> Forall (fun w => digit w) l1 -> shifted 0 l1 = whole_part d ->
  exists W n, remove_leading_zeroes d = Some (W ++ tl, n) /\ stripped d W n.
Proof.
  intros Hv Hwh Eb L1 D1 V1. pose proof (v_intg d Hv) as Hi. destruct (words_counted d Hv) as [Ci _]. unfold DIG_PER_DEC1 in Ci.
  assert (rval (reverse l1) = whole_part d) as Vl by (rewrite <- V1; unfold shifted; lia). unfold remove_leading_zeroes. rewrite Eb.
  destruct (leading_digits l1 tl (intg d) D1 Hi) as (W & n & -> & DW & VW & _ & HW); [lia|rewrite Vl; by apply whole_part_bound|]. cbn [mbind option_bind].
  destruct W as [|w W'].
  - rewrite HW. exists [], 0. split; [done|]. split; [done|]. split; [by rewrite VW|by left].
  - destruct HW as (Hn & k & Ek & Hk & Hb). rewrite (proj2 (Z.ltb_lt _ _) Hn). cbn [app head mbind option_bind]. rewrite Ek. cbn [mbind option_bind]. rewrite bind_assert by (apply Z.ltb_lt; lia).
    eexists (w :: W'), _. split; [done|]. split; [done|]. split; [by rewrite VW|]. right. exists w, W', k. done.
Qed.

(** ** The words in front of the point *)

(** The bytes of [n] digits. *)
Definition isz (n : Z) : Z := n / 9 * 4 + dig2bytes (n mod 9).

Definition ishape (intg : Z) : list (Z * Z) :=
  (if intg mod 9 =? 0 then [] else [(dig2bytes (intg mod 9), 1)]) ++ replicate (Z.to_nat (intg / 9)) (4, 1).

Lemma dig2bytes_table : forallb (fun a => (0 <=? dig2bytes a) && (dig2bytes a <=? 4) && ((a =? 0) || (1 <=? dig2bytes a)) &&
    ((a =? 0) || (10 ^ a <=? 2 ^ (8 * dig2bytes a - 1))) && forallb (fun b => (b <? a) || (dig2bytes a <=? dig2bytes b)) (seqZ 0 10)) (seqZ 0 10) = true.
Proof. vm_compute. done. Qed.

Lemma dig2bytes_spec a : 0 <= a <= 9 -> 0 <= dig2bytes a <= 4 /\ (1 <= a -> 1 <= dig2bytes a /\ 10 ^ a <= 2 ^ (8 * dig2bytes a - 1)) /\
  forall b, a <= b <= 9 -> dig2bytes a <= dig2bytes b.
Proof.
  intros Ha. pose proof dig2bytes_table as H. rewrite forallb_forall in H. specialize (H a ltac:(apply list_elem_of_In, elem_of_seqZ; lia)).
  repeat (apply andb_true_iff in H as [H ?]). repeat match goal with H : _ = true |- _ => progress (rewrite ?orb_true_iff, ?Z.leb_le, ?Z.eqb_eq in H) end.
  split; [lia|]. split; [intros; split; lia|]. intros b Hb. rewrite forallb_forall in H0. specialize (H0 b ltac:(apply list_elem_of_In, elem_of_seqZ; lia)).
  rewrite orb_true_iff, Z.ltb_lt, Z.leb_le in H0. lia.
Qed.

Lemma isz_digits m k : 0 <= m -> 1 <= k <= 9 -> isz (9 * m + k) = 4 * m + dig2bytes k.
Proof.
  intros Hm Hk. unfold isz. destruct (Z.eq_dec k 9) as [-> |Hk9].
  - replace ((9 * m + 9) / 9) with (m + 1) by dlia. replace ((9 * m + 9) mod 9) with 0 by dlia. change (dig2bytes 0) with 0. change (dig2bytes 9) with 4. lia.
  - replace ((9 * m + k) / 9) with m by dlia. replace ((9 * m + k) mod 9) with k by dlia. lia.
Qed.

Lemma size_ishape n : 0 <= n -> size (ishape n) = isz n.
Proof.
  intros Hn. unfold ishape, isz. rewrite size_app, size_words, Z2Nat.id by dlia. destruct (Z.eqb_spec (n mod 9) 0) as [E|E]; [rewrite E; change (dig2bytes 0) with 0; change (size []) with 0; lia|].
  unfold size. cbn [map foldr fst]. lia.
Qed.

Lemma length_ishape n : 0 <= n -> Z.of_nat (length (ishape n)) = ROUND_UP n.
Proof.
  intros Hn. pose proof (round_up_spec n Hn). unfold ishape. rewrite length_app, length_replicate. destruct (Z.eqb_spec (n mod 9) 0); cbn [length]; dlia.
Qed.

(** The bytes that are written for the words [W] of [n] digits. *)
Definition code_bytes (m : Z) (W : list Z) (n : Z) : list Z :=
  match W with
  | [] => []
  | w :: W => mi_store (isz n - 4 * Z.of_nat (length W)) (Z.lxor w m) ++ concat (map (fun w => mi_store 4 (Z.lxor w m)) W)
  end.

(** The part with [intg1x] digits, and the words behind it. *)
Lemma intg_part d m W n tl to : stripped d W n -> let intg1x := n mod 9 in
  exists A R, put_intg to (W ++ tl) intg1x m = Some (to ++ A, R ++ tl) /\
    Z.of_nat (length R) = n / 9 /\ A ++ concat (map (fun w => mi_store 4 (Z.lxor w m)) R) = code_bytes m W n.
Proof.
  intros (DW & _ & [[-> ->]|(w & W' & k & -> & -> & Hk & Hw)]); cbv zeta; unfold put_intg.
  { exists [], []. by rewrite app_nil_r. }
  cbn [code_bytes]. rewrite <- (Z.add_assoc (9 * _)). set (N := 9 * Z.of_nat (length W') + (Z.of_nat k + 1)) in *. destruct (decide (k = 8%nat)) as [-> |Hk8].
  - exists [], (w :: W'). assert (N mod 9 = 0) as -> by (unfold N; dlia). split; [cbn; by rewrite app_nil_r|]. split; [unfold N; cbn [length]; dlia|].
    unfold N. rewrite isz_digits by lia. change (dig2bytes (Z.of_nat 8 + 1)) with 4. cbn [map concat app]. do 2 f_equal. lia.
  - exists (mi_store (dig2bytes (N mod 9)) (Z.lxor w m)), W'. assert (N mod 9 = Z.of_nat k + 1) as E by (unfold N; dlia). rewrite E.
    rewrite (proj2 (Z.eqb_neq _ _)) by lia. cbn [app]. rewrite power10_pow by lia. rewrite Z.rem_small by lia. split; [done|].
    split; [unfold N; dlia|]. unfold N. rewrite isz_digits by lia. do 2 f_equal. lia.
Qed.

(** The groups that the words go to. *)
Lemma ishape_split intg (r : nat) k : 0 <= intg -> (k <= 8)%nat -> 9 * Z.of_nat r + Z.of_nat k + 1 <= intg ->
  exists S n0, ishape intg = S ++ (n0, 1) :: replicate r (4, 1) /\ dig2bytes (Z.of_nat k + 1) <= n0 <= 4 /\ 10 ^ (Z.of_nat k + 1) <= 2 ^ (8 * n0 - 1) /\
    Forall (fun g => 1 <= fst g <= 4 /\ snd g = 1) S.
Proof.
  intros Hi Hk Hle. destruct (dig2bytes_spec (Z.of_nat k + 1)) as (Hr & Hp & Hmono); [lia|]. destruct Hp as [Hp1 Hp2]; [lia|].
  assert (forall n0, dig2bytes (Z.of_nat k + 1) <= n0 -> 10 ^ (Z.of_nat k + 1) <= 2 ^ (8 * n0 - 1)) as Hpow.
  { intros n0 Hn0. etransitivity; [exact Hp2|]. apply Z.pow_le_mono_r; lia. }
  destruct (dig2bytes_spec (intg mod 9)) as (Hr0 & Hp0 & _); [dlia|].
  unfold ishape. set (a := Z.to_nat (intg / 9)). destruct (decide (r < a)%nat) as [Hlt|Hge].
  - exists ((if intg mod 9 =? 0 then [] else [(dig2bytes (intg mod 9), 1)]) ++ replicate (a - S r) (4, 1)), 4.
    split; [rewrite <- app_assoc; f_equal; change ((4, 1) :: replicate r (4, 1)) with (replicate (S r) (4, 1)); rewrite <- replicate_add; f_equal; lia|].
    split; [lia|]. split; [apply Hpow; lia|]. apply Forall_app. split; [|by apply Forall_replicate].
    destruct (Z.eqb_spec (intg mod 9) 0); [done|]. apply Forall_singleton. split; [cbn [fst]; split; [apply Hp0; dlia|lia]|done].
  - assert (r = a) as -> by (unfold a in *; dlia). rewrite (proj2 (Z.eqb_neq _ _)) by (unfold a in *; dlia).
    exists [], (dig2bytes (intg mod 9)). split; [done|]. assert (dig2bytes (Z.of_nat k + 1) <= dig2bytes (intg mod 9)) by (apply Hmono; unfold a in *; dlia).
    split; [lia|]. split; [by apply Hpow|done].
Qed.

Lemma ishape_groups n : 0 <= n -> Forall (fun g => 1 <= fst g <= 4 /\ snd g = 1) (ishape n).
Proof.
  intros Hn. destruct (dig2bytes_spec (n mod 9)) as (Hr & Hp & _); [dlia|]. unfold ishape. apply Forall_app. split; [|by apply Forall_replicate].
  destruct (Z.eqb_spec (n mod 9) 0); [done|]. apply Forall_singleton. cbn [fst snd]. split; [split; [apply Hp; dlia|lia]|done].
Qed.

Lemma fits_zeros S : Forall (fun g => 1 <= fst g <= 4 /\ 0 < snd g) S -> Forall2 fits_group S (replicate (length S) 0).
Proof.
  induction 1 as [|g S Hg _ IH]; [constructor|]. cbn [length replicate]. constructor; [|done]. unfold fits_group. rewrite Zdiv_0_l.
  split; [lia|]. split; [lia|]. split; [done|]. split; [apply Z.divide_0_r|apply Z.pow_pos_nonneg; lia].
Qed.

Lemma fits_word w : digit w -> fits_group (4, 1) w.
Proof. intros Hw. unfold fits_group. cbn [fst snd]. rewrite Z.div_1_r. split; [lia|]. split; [lia|]. split; [done|]. split; [apply Z.divide_1_l|unfold DIG_BASE in Hw; lia]. Qed.

Lemma fits_words W : Forall (fun w => digit w) W -> Forall2 fits_group (replicate (length W) (4, 1)) W.
Proof. induction 1; cbn; constructor; [by apply fits_word|done]. Qed.

(** The bytes in front of the point. *)
Lemma intg_bytes d m W n intg : is_mask m -> stripped d W n -> 0 <= intg -> n <= intg ->
  let C := replicate (length (ishape intg) - length W) 0 ++ W in
  (length W <= length (ishape intg))%nat /\ 0 <= isz n <= isz intg /\
  replicate (Z.to_nat (isz intg - isz n)) (u8 m) ++ code_bytes m W n = body m (ishape intg) C /\ Forall2 fits_group (ishape intg) C.
Proof.
  intros Hm (DW & _ & HW) Hi Hn C. pose proof (ishape_groups intg Hi) as HG. destruct HW as [[-> ->]|(w & W' & k & -> & -> & Hk & Hw)].
  - unfold C. rewrite app_nil_r, Nat.sub_0_r. change (isz 0) with 0. rewrite Z.sub_0_r, <- size_ishape by done. split; [cbn; lia|].
    split; [split; [done|]; apply size_nonneg; eapply Forall_impl; [exact HG|]; cbn; lia|]. split.
    + cbn [code_bytes]. rewrite app_nil_r. rewrite body_zeros; [done|done|]. eapply Forall_impl; [exact HG|]. cbn. lia.
    + rewrite ?app_nil_r. apply fits_zeros. eapply Forall_impl; [exact HG|]. cbn. lia.
  - destruct (ishape_split intg (length W') k Hi Hk Hn) as (S & n0 & E & Hn0 & Hp & HS).
    apply Forall_cons in DW as [Dw DW]. rewrite <- (Z.add_assoc (9 * _)) in *. rewrite isz_digits by lia.
    assert (isz intg = size S + n0 + 4 * Z.of_nat (length W')) as Es.
    { rewrite <- size_ishape, E, size_app by done. change (size ((n0, 1) :: replicate (length W') (4, 1))) with (n0 + size (replicate (length W') (4, 1))).
      rewrite size_words. lia. }
    assert (0 <= size S) by (apply size_nonneg; eapply Forall_impl; [exact HS|]; cbn; lia).
    destruct (dig2bytes_spec (Z.of_nat k + 1)) as (Hr & Hp1 & _); [lia|]. destruct Hp1 as [Hp1 Hp2]; [lia|].
    assert (C = replicate (length S) 0 ++ w :: W') as -> by (unfold C; do 2 f_equal; rewrite E, length_app; cbn [length]; rewrite length_replicate; lia).
    split; [rewrite E, length_app; cbn [length]; rewrite length_replicate; lia|]. split; [lia|]. split.
    + rewrite E, body_app by (by rewrite length_replicate). rewrite body_cons, body_words, body_zeros; [|done|eapply Forall_impl; [exact HS|]; cbn; lia].
      cbn [fst snd code_bytes]. rewrite Z.div_1_r, isz_digits by lia.
      replace (4 * Z.of_nat (length W') + dig2bytes (Z.of_nat k + 1) - 4 * Z.of_nat (length W')) with (dig2bytes (Z.of_nat k + 1)) by lia.
      rewrite (mi_store_pad n0 (dig2bytes (Z.of_nat k + 1)) w m) by (done || lia || (split; [lia|]; eapply Z.lt_le_trans; [apply Hw|]; etransitivity; [exact Hp2|]; apply Z.pow_le_mono_r; lia)).
      rewrite <- app_assoc, (app_assoc (replicate (Z.to_nat (size S)) _)), <- replicate_add. do 2 f_equal. lia.
    + rewrite E. apply Forall2_app; [apply fits_zeros; eapply Forall_impl; [exact HS|]; cbn; lia|]. constructor; [|by apply fits_words].
      unfold fits_group. cbn [fst snd]. rewrite Z.div_1_r. split; [lia|]. split; [lia|]. split; [done|]. split; [apply Z.divide_1_l|lia].
Qed.

(** ** The words behind the point *)

Definition fshape (scale : Z) : list (Z * Z) :=
  replicate (Z.to_nat (scale / 9)) (4, 1) ++ (if scale mod 9 =? 0 then [] else [(dig2bytes (scale mod 9), 10 ^ (9 - scale mod 9))]).

Lemma size_fshape n : 0 <= n -> size (fshape n) = isz n.
Proof.
  intros Hn. unfold fshape, isz. rewrite size_app, size_words, Z2Nat.id by dlia. destruct (Z.eqb_spec (n mod 9) 0) as [E|E].
  - rewrite E. change (dig2bytes 0) with 0. change (size []) with 0. lia.
  - unfold size. cbn [map foldr fst]. lia.
Qed.

Lemma length_fshape n : 0 <= n -> Z.of_nat (length (fshape n)) = ROUND_UP n.
Proof.
  intros Hn. pose proof (round_up_spec n Hn). unfold fshape. rewrite length_app, length_replicate. destruct (Z.eqb_spec (n mod 9) 0); cbn [length]; dlia.
Qed.

(** Full words, then the other groups. *)
Lemma fshape_split scale (r : nat) : 0 <= scale -> Z.of_nat r <= scale / 9 ->
  exists S, fshape scale = replicate r (4, 1) ++ S /\ Forall (fun g => 1 <= fst g <= 4 /\ 0 < snd g) S.
Proof.
  intros Hs Hr. unfold fshape. replace (Z.to_nat (scale / 9)) with (r + (Z.to_nat (scale / 9) - r))%nat by lia. rewrite replicate_add, <- app_assoc.
  eexists. split; [done|]. apply Forall_app. split; [by apply Forall_replicate|]. destruct (dig2bytes_spec (scale mod 9)) as (Hd & Hp & _); [dlia|].
  destruct (Z.eqb_spec (scale mod 9) 0); [done|]. apply Forall_singleton. cbn [fst snd]. split; [split; [apply Hp; dlia|lia]|apply Z.pow_pos_nonneg; dlia].
Qed.

(** All words are written in full, and the rest is filled. *)
Lemma words_filled m l2 scale fsize1 (to : list Z) isize0 : is_mask m -> Forall (fun w => digit w) l2 -> 0 <= scale -> Z.of_nat (length l2) <= scale / 9 ->
  Z.of_nat (length to) = isize0 -> fsize1 <= 4 * Z.of_nat (length l2) -> (fsize1 <? isz scale = false -> isz scale = 4 * Z.of_nat (length l2)) ->
  let C := l2 ++ replicate (length (fshape scale) - length l2) 0 in
  fill_end (to ++ concat (map (fun w => mi_store 4 (Z.lxor w m)) l2)) (isz scale) fsize1 (isize0 + isz scale) m = to ++ body m (fshape scale) C /\
  Forall2 fits_group (fshape scale) C.
Proof.
  intros Hm Hd Hs Hl Hto Hf1 Hf2 C. destruct (fshape_split scale (length l2) Hs Hl) as (S & E & HS). unfold C. rewrite E, length_app, length_replicate, Nat.add_comm, Nat.add_sub.
  assert (size S = isz scale - 4 * Z.of_nat (length l2)) as ES by (rewrite <- size_fshape, E, size_app, size_words by done; lia).
  split; [|apply Forall2_app; [by apply fits_words|by apply fits_zeros]].
  rewrite body_app by (by rewrite length_replicate). rewrite body_words, body_zeros, ES; [|done|eapply Forall_impl; [exact HS|]; cbn; lia].
  rewrite app_assoc. set (P := to ++ concat _). unfold fill_end. destruct (fsize1 <? isz scale).
  - f_equal. f_equal. assert (Z.of_nat (length P) = isize0 + 4 * Z.of_nat (length l2)) as ->; [|lia].
    unfold P. rewrite <- body_words, length_app, Nat2Z.inj_add, Hto. f_equal. rewrite length_body by (by apply fits_words). apply size_words.
  - rewrite (Hf2 eq_refl), Z.sub_diag. cbn. by rewrite app_nil_r.
Qed.

Lemma widen_table : forallb (fun a => (widen 9 a a (dig2bytes a) =? a) && ((a =? 0) || negb (dig2bytes a =? 4) || (widen 9 a 9 4 =? 9)) &&
  forallb (fun b => (b <? a) || negb (dig2bytes a =? dig2bytes b) || (widen 9 a b (dig2bytes a) =? b)) (seqZ 0 9)) (seqZ 0 9) = true.
Proof. vm_compute. done. Qed.

Lemma widen_spec a : 0 <= a <= 8 -> (1 <= a -> dig2bytes a = 4 -> widen 9 a 9 4 = 9) /\
  forall b, a <= b <= 8 -> dig2bytes a = dig2bytes b -> widen 9 a b (dig2bytes a) = b.
Proof.
  intros Ha. pose proof widen_table as H. rewrite forallb_forall in H. specialize (H a ltac:(apply list_elem_of_In, elem_of_seqZ; lia)).
  apply andb_true_iff in H as [H H2]. apply andb_true_iff in H as [H H1]. split.
  - intros Ha1 Hd. rewrite Hd, (proj2 (Z.eqb_neq a 0)) in H1 by lia. cbn in H1. by apply Z.eqb_eq in H1.
  - intros b Hb Hd. rewrite forallb_forall in H2. specialize (H2 b ltac:(apply list_elem_of_In, elem_of_seqZ; lia)).
    rewrite (proj2 (Z.ltb_ge _ _)), Hd, Z.eqb_refl in H2 by lia. rewrite Hd. cbn in H2. by apply Z.eqb_eq in H2.
Qed.

Lemma quot_power10 w n : digit w -> 0 <= n <= 9 -> Z.quot w (power10 n) = w / 10 ^ n.
Proof. intros Hw Hn. rewrite power10_pow by done. apply Z.quot_div_nonneg; [lia|apply Z.pow_pos_nonneg; lia]. Qed.

Lemma isz_mono f scale : 0 <= f <= scale -> 0 <= isz f <= isz scale.
Proof.
  intros Hf. unfold isz. destruct (dig2bytes_spec (f mod 9)) as (H1 & _ & Hm); [dlia|]. destruct (dig2bytes_spec (scale mod 9)) as (H2 & _ & _); [dlia|].
  assert (f / 9 <= scale / 9) by (apply Z.div_le_mono; lia). assert (0 <= f / 9) by dlia.
  destruct (Z.eq_dec (f / 9) (scale / 9)) as [E|E]; [|lia]. specialize (Hm (scale mod 9) ltac:(dlia)). lia.
Qed.

(** The last words of both have the same place. *)
Lemma last_group m W wl scale : is_mask m -> Forall (fun w => digit w) (W ++ [wl]) -> 0 <= scale -> Z.of_nat (length W) = scale / 9 -> 1 <= scale mod 9 ->
  (10 ^ (9 - scale mod 9) | wl) ->
  concat (map (fun w => mi_store 4 (Z.lxor w m)) W) ++ mi_store (dig2bytes (scale mod 9)) (Z.lxor (wl / 10 ^ (9 - scale mod 9)) m) = body m (fshape scale) (W ++ [wl]) /\
  Forall2 fits_group (fshape scale) (W ++ [wl]).
Proof.
  intros Hm HD Hs Hl Hy Hdiv. rewrite Forall_app, Forall_singleton in HD. destruct HD as [DW Dl]. set (y := scale mod 9) in *. assert (y <= 8) by (unfold y; dlia).
  assert (fshape scale = replicate (length W) (4, 1) ++ [(dig2bytes y, 10 ^ (9 - y))]) as ->.
  { unfold fshape. fold y. rewrite (proj2 (Z.eqb_neq y 0)) by lia. do 3 f_equal. lia. }
  destruct (dig2bytes_spec y) as (Hd & Hp & _); [lia|]. destruct Hp as [Hp1 Hp2]; [done|]. split.
  - rewrite body_app by (by rewrite length_replicate). rewrite body_words, body_cons. cbn [fst snd]. by rewrite app_nil_r.
  - apply Forall2_app; [by apply fits_words|]. constructor; [|constructor]. unfold fits_group. cbn [fst snd]. split; [lia|].
    split; [apply Z.pow_pos_nonneg; lia|]. split; [exact Dl|]. split; [exact Hdiv|]. eapply Z.lt_le_trans; [|exact Hp2].
    apply Z.div_lt_upper_bound; [apply Z.pow_pos_nonneg; lia|]. rewrite <- Z.pow_add_r by lia. replace (9 - y + y) with 9 by lia. apply Dl.
Qed.

(** With [frac1] words in full, [frac1x] digits and [fsize0] bytes to fill, the
    bytes of the words [C] are written behind [to]. *)
Definition writes_frac (m : Z) (l2 : list Z) (f scale : Z) (C : list Z) (frac1 frac1x fsize0 : Z) : Prop :=
  0 <= frac1 <= Z.of_nat (length l2) /\ Forall2 fits_group (fshape scale) C /\
  forall to rest isize0, Z.of_nat (length to) = isize0 ->
    exists X, put_frac (to ++ concat (map (fun w => mi_store 4 (Z.lxor w m)) (take (Z.to_nat frac1) l2))) (drop (Z.to_nat frac1) l2 ++ rest)
      frac1 frac1x (scale / 9) (scale mod 9) m = Some X /\
    fill_end X fsize0 (isz f) (isize0 + isz scale) m = to ++ body m (fshape scale) C.

(** All words are written in full. *)
Lemma writes_words m l2 f scale : is_mask m -> Forall (fun w => digit w) l2 -> 0 <= f <= scale -> Z.of_nat (length l2) <= scale / 9 ->
  isz f <= 4 * Z.of_nat (length l2) -> (isz scale <= isz f -> isz scale = 4 * Z.of_nat (length l2)) ->
  writes_frac m l2 f scale (l2 ++ replicate (length (fshape scale) - length l2) 0) (Z.of_nat (length l2)) 0 (isz scale).
Proof.
  intros Hm HD Hf Hl Hz Hz2. split; [lia|].
  assert (forall to isize0, Z.of_nat (length to) = isize0 -> fill_end (to ++ concat (map (fun w => mi_store 4 (Z.lxor w m)) l2)) (isz scale) (isz f) (isize0 + isz scale) m =
    to ++ body m (fshape scale) (l2 ++ replicate (length (fshape scale) - length l2) 0) /\
    Forall2 fits_group (fshape scale) (l2 ++ replicate (length (fshape scale) - length l2) 0)) as HW.
  { intros to isize0 Hto. apply words_filled; [done|done|lia|done|done|done|]. intros Hlt. apply Z.ltb_ge in Hlt. by apply Hz2. }
  split; [by apply (HW [] 0)|]. intros to rest isize0 Hto. rewrite take_ge by lia. eexists. split; [done|by apply HW].
Qed.

(** The last word and the last group have the same place; what is written has
    the digits of the group. *)
Lemma writes_last m W wl f scale frac1x fsize0 : is_mask m -> Forall (fun w => digit w) (W ++ [wl]) -> 0 <= scale -> Z.of_nat (length W) = scale / 9 ->
  1 <= scale mod 9 -> (10 ^ (9 - scale mod 9) | wl) -> 1 <= frac1x <= scale mod 9 -> dig2bytes frac1x = dig2bytes (scale mod 9) -> fsize0 <= isz f ->
  writes_frac m (W ++ [wl]) f scale (W ++ [wl]) (scale / 9) frac1x fsize0.
Proof.
  intros Hm HD Hs Hl Hy Hdiv Hx Hdg Hfz. destruct (last_group m W wl scale Hm HD Hs Hl Hy Hdiv) as [Hbody Hfits].
  assert (scale mod 9 <= 8) by dlia. assert (digit wl) as Dl by (rewrite Forall_app, Forall_singleton in HD; apply HD).
  assert (widen 9 frac1x (scale mod 9) (dig2bytes frac1x) = scale mod 9) as Hwd by (apply widen_spec; [lia|lia|done]).
  split; [rewrite length_app; cbn [length]; lia|]. split; [done|]. intros to rest isize0 Hto.
  rewrite take_app_length', drop_app_length' by lia. unfold put_frac. rewrite (proj2 (Z.eqb_neq _ _)), Z.ltb_irrefl, Hwd, Hdg by lia. cbn [app head mbind option_bind].
  rewrite quot_power10 by (done || (unfold DIG_PER_DEC1; lia)). eexists. split; [done|]. unfold fill_end. rewrite (proj2 (Z.ltb_ge _ _)) by lia.
  rewrite <- app_assoc. f_equal. exact Hbody.
Qed.

(** The group is a full word, and the word has digits for as many bytes. *)
Lemma writes_whole_word m W wl f scale : is_mask m -> Forall (fun w => digit w) (W ++ [wl]) -> 0 <= scale -> Z.of_nat (length W) + 1 = scale / 9 ->
  scale mod 9 = 0 -> 1 <= f mod 9 -> dig2bytes (f mod 9) = 4 -> isz scale <= isz f ->
  writes_frac m (W ++ [wl]) f scale (W ++ [wl]) (Z.of_nat (length W)) (f mod 9) (isz scale).
Proof.
  intros Hm HD Hs Hl Hy Hx Hd4 Hz. assert (digit wl) as Dl by (rewrite Forall_app, Forall_singleton in HD; apply HD). assert (f mod 9 <= 8) by dlia.
  assert (fshape scale = replicate (length (W ++ [wl])) (4, 1)) as EF.
  { unfold fshape. rewrite Hy. cbn [Z.eqb]. rewrite app_nil_r. f_equal. rewrite length_app. cbn [length]. lia. }
  split; [rewrite length_app; cbn [length]; lia|]. rewrite EF. split; [by apply fits_words|]. intros to rest isize0 Hto.
  rewrite take_app_length', drop_app_length' by lia. unfold put_frac. rewrite (proj2 (Z.eqb_neq _ _)), (proj2 (Z.ltb_lt (Z.of_nat (length W)) _)), Hd4 by lia.
  unfold DIG_PER_DEC1. rewrite (proj1 (widen_spec (f mod 9) ltac:(lia))) by (done || lia). cbn [app head mbind option_bind].
  rewrite quot_power10 by (done || lia). rewrite Z.pow_0_r, Z.div_1_r. eexists. split; [done|].
  unfold fill_end. rewrite (proj2 (Z.ltb_ge _ _)) by lia. rewrite body_words, map_app, concat_app, <- app_assoc. cbn [map concat]. by rewrite app_nil_r.
Qed.

(** The bytes behind the point. *)
Lemma frac_bytes m l2 f scale error : is_mask m -> Forall (fun w => digit w) l2 -> 0 <= f <= scale -> Z.of_nat (length l2) = ROUND_UP f ->
  (forall wl, last l2 = Some wl -> (10 ^ (9 * ROUND_UP f - f) | wl)) ->
  exists frac1 frac1x fsize0, frac_sizes (scale / 9) (scale mod 9) (isz scale) (f / 9) (f mod 9) (isz f) error = (frac1, frac1x, fsize0, error) /\
    writes_frac m l2 f scale (l2 ++ replicate (length (fshape scale) - length l2) 0) frac1 frac1x fsize0.
Proof.
  intros Hm HD Hf Hl Hlast. pose proof (round_up_spec f ltac:(lia)) as Hru. pose proof (isz_mono f scale Hf) as Hz.
  assert (0 <= f mod 9 <= 8 /\ f = 9 * (f / 9) + f mod 9) as [Hx Ef] by dlia. assert (0 <= scale mod 9 <= 8 /\ scale = 9 * (scale / 9) + scale mod 9) as [Hy Es] by dlia.
  assert (isz f = f / 9 * 4 + dig2bytes (f mod 9)) as Zf by done. assert (isz scale = scale / 9 * 4 + dig2bytes (scale mod 9)) as Zs by done.
  destruct (dig2bytes_spec (f mod 9) ltac:(lia)) as (Hdx & Hpx & _). destruct (dig2bytes_spec (scale mod 9) ltac:(lia)) as (Hdy & Hpy & _).
  unfold frac_sizes. rewrite (proj2 (Z.ltb_ge (isz scale) (isz f))) by lia.
  destruct (Z.eqb_spec (f mod 9) 0) as [Ex|Ex]; cbn [negb]; [rewrite andb_false_r|rewrite andb_true_r].
  - (* full words *)
    rewrite Ex in *. change (dig2bytes 0) with 0 in *. eexists _, _, _. split; [done|]. replace (f / 9) with (Z.of_nat (length l2)) by lia.
    apply writes_words; done || lia.
  - (* the last word has fewer digits *)
    assert (ROUND_UP f = f / 9 + 1) as Er by lia. specialize (Hpx ltac:(lia)).
    destruct l2 as [|wl W _] using rev_ind; [cbn in Hl; lia|]. specialize (Hlast wl (last_snoc _ _)). rewrite Er in Hlast.
    replace (9 * (f / 9 + 1) - f) with (9 - f mod 9) in Hlast by lia. assert (length (W ++ [wl]) = S (length W)) as HlW by (rewrite length_app; cbn; lia).
    pose proof (length_fshape scale ltac:(lia)). pose proof (round_up_spec scale ltac:(lia)).
    destruct (Z.eqb_spec (scale / 9) (f / 9)) as [EA|EA]; [|destruct (Z.ltb_spec (isz f) (isz scale)) as [Hlt|Hge]].
    + specialize (Hpy ltac:(lia)). rewrite (proj2 (Nat.sub_0_le _ _)), app_nil_r by lia.
      assert ((10 ^ (9 - scale mod 9) | wl)) as Hdiv.
      { etransitivity; [|exact Hlast]. exists (10 ^ (scale mod 9 - f mod 9)). rewrite <- Z.pow_add_r by lia. f_equal. lia. }
      rewrite <- EA. destruct (Z.ltb_spec (isz f) (isz scale)); eexists _, _, _; (split; [done|]); apply writes_last; done || lia.
    + eexists _, _, _. split; [done|]. replace (f / 9 + 1) with (Z.of_nat (length (W ++ [wl]))) by lia. apply writes_words; done || lia.
    + assert (scale / 9 = f / 9 + 1 /\ dig2bytes (f mod 9) = 4) as [EA1 Hd4] by lia. assert (scale mod 9 = 0) as Ey by (destruct (Z.eq_dec (scale mod 9) 0); [done|lia]).
      rewrite (proj2 (Nat.sub_0_le _ _)), app_nil_r by lia. eexists _, _, _. split; [done|]. replace (f / 9) with (Z.of_nat (length W)) by lia.
      apply writes_whole_word; done || lia.
Qed.

(** ** The whole number *)

(** [d] has at most [precision - scale] digits in front of the point and at most
    [scale] behind it. *)
Record storable (d : decimal_t) (precision scale : Z) : Prop := {
  s_number : number d;
  s_scale : 0 <= scale <= precision;
  s_precision : 0 < precision;
  s_frac : frac d <= scale;
  s_whole : whole_part d < 10 ^ (precision - scale)
}.

Definition mask_of (s : bool) : Z := if s then -1 else 0.

Lemma is_mask_of s : is_mask (mask_of s).
Proof. destruct s; [by right|by left]. Qed.

Definition full_shape (precision scale : Z) : list (Z * Z) := ishape (precision - scale) ++ fshape scale.

Lemma quot9 x : 0 <= x -> Z.quot x DIG_PER_DEC1 = x / 9 /\ x - x / 9 * DIG_PER_DEC1 = x mod 9.
Proof. intros Hx. unfold DIG_PER_DEC1. rewrite Z.quot_div_nonneg by lia. dlia. Qed.

Lemma stripped_digits d W n intg : stripped d W n -> 0 <= intg -> whole_part d < 10 ^ intg -> 0 <= n <= intg.
Proof.
  intros (DW & VW & [[-> ->]|(w & W' & k & -> & -> & Hk & Hw)]) Hi Hlt; [lia|]. split; [lia|]. apply Forall_cons in DW as [_ DW].
  pose proof (rval_bound (reverse W') ltac:(by apply Forall_reverse)) as Hb. rewrite reverse_cons, rval_app, length_reverse in VW. cbn [rval] in VW.
  assert (10 ^ (Z.of_nat (length W') * DIG_PER_DEC1 + Z.of_nat k) < 10 ^ intg) as Hp.
  { rewrite Z.pow_add_r, pow10_words by (unfold DIG_PER_DEC1; lia). pose proof (Bpow_pos (length W')). nia. }
  apply Z.pow_lt_mono_r_iff in Hp; unfold DIG_PER_DEC1 in *; lia.
Qed.

(** The words of a number in order, and what is behind them in the buffer. *)
Lemma number_parts d : number d -> exists l1 l2 rest, buf d = l1 ++ l2 ++ rest /\ length l1 = iw d /\ length l2 = fw d /\
  Forall (fun w => digit w) l1 /\ Forall (fun w => digit w) l2 /\ shifted 0 l1 = whole_part d /\
  rval (words d) = rval (reverse l2) + B ^ Z.of_nat (fw d) * whole_part d /\
  forall wl, last l2 = Some wl -> (10 ^ (9 * ROUND_UP (frac d) - frac d) | wl).
Proof.
  intros Hn. pose proof (n_valid d Hn) as Hv. destruct (buf_parts d Hv) as (l1 & l2 & rest & Eb & L1 & L2 & D1 & D2 & V1 & _). exists l1, l2, rest.
  assert (words d = reverse l2 ++ reverse l1) as Ew.
  { unfold words. rewrite Eb, app_assoc, take_app_length' by (rewrite length_app; lia). by rewrite reverse_app. }
  assert (rval (words d) = rval (reverse l2) + B ^ Z.of_nat (fw d) * whole_part d) as Er.
  { rewrite Ew, rval_app, length_reverse, L2, <- V1. unfold shifted. lia. }
  do 7 (split; [done|]). intros wl Hl. pose proof (n_frac d Hn) as Hp. unfold precise in Hp. rewrite <- fw_Z in Hp by done.
  pose proof (round_up_spec (frac d) (v_frac d Hv)). destruct l2 as [|w' l2 _] using rev_ind; [done|]. rewrite last_snoc in Hl. injection Hl as ->.
  rewrite Er, reverse_app in Hp. cbn [reverse rev_append app rval] in Hp. rewrite length_app in L2. cbn [length] in L2.
  replace (fw d) with (S (length l2)) in Hp by lia. rewrite Bpow_S, <- Z.add_assoc, <- Z.mul_assoc, <- Z.mul_add_distr_l in Hp.
  apply Z.divide_add_cancel_r with (m := B * (rval (reverse l2) + B ^ Z.of_nat (length l2) * whole_part d)); [|rewrite Z.add_comm; exact Hp].
  apply Z.divide_mul_l. change B with (10 ^ 9). exists (10 ^ (9 - (9 * ROUND_UP (frac d) - frac d))). rewrite <- Z.pow_add_r by lia. f_equal. lia.
Qed.

Lemma isz_zero f : 0 <= f -> isz f = 0 -> f = 0.
Proof.
  intros Hf Hz. unfold isz in Hz. destruct (dig2bytes_spec (f mod 9)) as (H1 & H2 & _); [dlia|].
  assert (f / 9 = 0) by dlia. destruct (Z.eq_dec (f mod 9) 0); [dlia|]. specialize (H2 ltac:(dlia)). lia.
Qed.

(** The value of the words with the zeros that are added. *)
Lemma rval_padded d W l2 (z1 z2 : nat) : rval (reverse W) = whole_part d -> length l2 = fw d ->
  rval (words d) = rval (reverse l2) + B ^ Z.of_nat (fw d) * whole_part d ->
  rval (reverse ((replicate z1 0 ++ W) ++ l2 ++ replicate z2 0)) = B ^ Z.of_nat z2 * rval (words d).
Proof.
  intros VW L2 Ev. rewrite !reverse_app, !reverse_replicate, !rval_app, !rval_replicate, !length_reverse, length_app, !length_reverse, length_replicate, VW, L2, Ev, Bpow_add. lia.
Qed.

(** A number that fits is stored without an error, in groups that hold its words. *)
Lemma decimal2bin_spec d precision scale : storable d precision scale ->
  exists C, decimal2bin d precision scale = Some (flip_first (body (mask_of (sign d)) (full_shape precision scale) C), E_DEC_OK) /\
    Forall2 fits_group (full_shape precision scale) C /\ rval (reverse C) = scaled (Z.to_nat (ROUND_UP scale)) d.
Proof.
  intros [Hn Hs Hp Hf Hw]. pose proof (n_valid d Hn) as Hv. pose proof (v_frac d Hv) as Hf0. pose proof (is_mask_of (sign d)) as Hm.
  destruct (number_parts d Hn) as (l1 & l2 & rest & Eb & L1 & L2 & D1 & D2 & V1 & Er & Hlast).
  destruct (remove_leading_zeroes_spec d l1 (l2 ++ rest) Hv (n_whole d Hn) Eb L1 D1 V1) as (W & n & Erm & HW).
  pose proof (stripped_digits d W n (precision - scale) HW ltac:(lia) Hw) as Hnr.
  set (m := mask_of (sign d)) in *. set (intg_ := precision - scale) in *.
  destruct (intg_bytes d m W n intg_ Hm HW ltac:(lia) ltac:(lia)) as (HlW & Hzn & Ebody & Hfit1).
  destruct (frac_bytes m l2 (frac d) scale E_DEC_OK Hm D2 ltac:(lia) ltac:(rewrite L2; symmetry; by apply fw_Z) Hlast) as (frac1 & frac1x & fsize0 & Efs & Hfr & Hfit2 & Hput).
  set (C1 := replicate _ 0 ++ W) in *. set (C2 := l2 ++ replicate _ 0) in *. exists (C1 ++ C2).
  assert (length C1 = length (ishape intg_)) as LC1 by (unfold C1; rewrite length_app, length_replicate; lia).
  split; [|split; [by apply Forall2_app|]].
  2: { unfold C1, C2. rewrite rval_padded with (d := d) by (done || apply HW). unfold scaled. do 3 f_equal. pose proof (length_fshape scale ltac:(lia)). lia. }
  unfold decimal2bin. fold (mask_of (sign d)). fold m. fold intg_.
  destruct (quot9 intg_ ltac:(lia)) as [-> ->]. destruct (quot9 scale ltac:(lia)) as [-> ->]. destruct (quot9 (frac d) Hf0) as [-> ->].
  fold (isz intg_). fold (isz scale). fold (isz (frac d)). rewrite Erm. cbn [mbind option_bind].
  assert (exists intg' rest', (if n + isz (frac d) =? 0 then (0, 1, [0]) else (m, intg_, W ++ l2 ++ rest)) = (m, intg', W ++ l2 ++ rest') /\ n <= intg') as (intg' & rest' & -> & Hn').
  { destruct (Z.eqb_spec (n + isz (frac d)) 0) as [E0|]; [|eexists _, _; split; [done|lia]]. pose proof (isz_mono (frac d) (frac d) ltac:(lia)).
    assert (n = 0) as -> by lia. assert (frac d = 0) as Ef0 by (apply isz_zero; lia).
    destruct HW as (_ & VW & [[-> _]|(w & W' & k & _ & ? & _)]); [|lia]. cbn [reverse rev_append rval] in VW.
    assert (fw d = O) as EF by (unfold fw; rewrite Ef0; done). rewrite EF in *. destruct l2; [|done]. exists 1, [0]. split; [|lia].
    assert (sign d = false) as Es by (apply (n_zero d Hn); rewrite Er, <- VW; cbn; lia). unfold m. rewrite Es. done. }
  destruct (quot9 n ltac:(lia)) as [-> ->]. fold (isz n). rewrite (proj2 (Z.ltb_ge intg' n)) by lia. rewrite bind_assert by (apply andb_true_iff; split; apply Z.leb_le; lia).
  rewrite Efs. change (Z.to_nat 0) with O. rewrite drop_0. rewrite Z.max_r by lia.
  destruct (intg_part d m W n (l2 ++ rest') (replicate (Z.to_nat (isz intg_ - isz n)) (u8 m)) HW) as (A & R & -> & LR & EA). cbn [mbind option_bind].
  replace (Z.to_nat (n / 9 + frac1)) with (length R + Z.to_nat frac1)%nat by lia.
  rewrite bind_assert by (apply Z.leb_le; rewrite !length_app; lia). rewrite take_app_add, drop_app_add, (take_app_le l2), drop_app_le by lia.
  rewrite map_app, concat_app, !app_assoc, <- (app_assoc _ A), EA, Ebody.
  assert (Z.of_nat (length (body m (ishape intg_) C1)) = isz intg_) as LB by (rewrite length_body by done; apply size_ishape; lia).
  destruct (Hput (body m (ishape intg_) C1) rest' (isz intg_) LB) as (X & -> & EX). cbn [mbind option_bind]. rewrite EX, <- body_app by done.
  rewrite bind_assert by (apply Z.eqb_eq; rewrite length_body by (by apply Forall2_app); rewrite size_app, size_ishape, size_fshape by lia; done). done.
Qed.
