(* ===== verification/DecimalUnpack.v ===== *)
(** * Reading and comparing the stored form of exact decimals

    [bin2decimal] gives back the value that [decimal2bin] stored, and [memcmp]
    orders the stored forms like the values. *)

From stdpp Require Import base numbers list.
From Stdlib Require Import ZArith Lia.
From S2P Require Import Prelude Collate Decimal DecimalArith DecimalSub DecimalInt DecimalBin DecimalPack.

Local Open Scope Z_scope.

(** ** The first bit *)

Lemma byte_table : forallb (fun b => Bool.eqb (Z.testbit b 7) (128 <=? b) && (Z.lxor b 128 =? if 128 <=? b then b - 128 else b + 128)) (seqZ 0 256) = true.
Proof. vm_compute. done. Qed.

Lemma byte_spec b : 0 <= b < 256 -> Z.testbit b 7 = (128 <=? b) /\ Z.lxor b 128 = if 128 <=? b then b - 128 else b + 128.
Proof.
  intros Hb. pose proof byte_table as H. rewrite forallb_forall in H. specialize (H b ltac:(apply list_elem_of_In, elem_of_seqZ; lia)).
  apply andb_true_iff in H as [H1 H2]. split; [by apply eqb_prop|by apply Z.eqb_eq].
Qed.

Lemma flip_flip l : flip_first (flip_first l) = l.
Proof. destruct l as [|b l]; [done|]. cbn [flip_first]. by rewrite lxor_twice. Qed.

Lemma bytes_mi_store n x : bytes (mi_store n x).
Proof. apply Forall_reverse, bytes_le_bytes. Qed.

Lemma bytes_body m sh C : bytes (body m sh C).
Proof. unfold body. revert C. induction sh as [|g sh IH]; intros [|c C]; cbn [zip_with concat]; try done. apply Forall_app. split; [apply bytes_mi_store|apply IH]. Qed.

(** The first bit is the sign. *)
Lemma mi_store_head n x m : is_mask m -> 1 <= n -> 0 <= x < 2 ^ (8 * n - 1) ->
  exists b l, mi_store n (Z.lxor x m) = b :: l /\ 0 <= b < 256 /\ (128 <=? b) = negb (m =? 0).
Proof.
  intros Hm Hn Hx. unfold mi_store. replace (Z.to_nat n) with (Z.to_nat (n - 1) + 1)%nat by lia. rewrite le_bytes_add, reverse_app. cbn [le_bytes reverse rev_append app].
  eexists _, _. split; [done|]. split; [apply u8_range|]. rewrite Z2Nat.id by lia. rewrite lxor_is_mask by done.
  assert (2 ^ (8 * n - 1) = 128 * 2 ^ (8 * (n - 1))) as E by (change 128 with (2 ^ 7); rewrite <- Z.pow_add_r by lia; f_equal; lia).
  set (p := 2 ^ (8 * (n - 1))) in *. assert (0 < p) by (apply Z.pow_pos_nonneg; lia). unfold u8. change (2 ^ 8) with 256.
  destruct Hm as [-> | ->]; cbn [Z.eqb negb].
  - assert (0 <= x / p < 128) by (split; [apply Z.div_pos; lia|apply Z.div_lt_upper_bound; lia]). rewrite Z.mod_small by lia. apply Z.leb_gt. lia.
  - assert (-128 <= (- x - 1) / p <= -1) as Hq.
    { split; [apply Z.div_le_lower_bound; lia|]. assert ((- x - 1) / p < 0); [|lia]. apply Z.div_lt_upper_bound; lia. }
    rewrite <- (Z.mod_add _ 1) by lia. rewrite Z.mod_small by lia. apply Z.leb_le. lia.
Qed.

Lemma body_head m sh C : is_mask m -> Forall2 fits_group sh C -> sh <> [] ->
  exists b l, body m sh C = b :: l /\ 0 <= b < 256 /\ (128 <=? b) = negb (m =? 0).
Proof.
  intros Hm Hf Hne. destruct Hf as [|g c sh C (Hg & Hq & Hc & Hd & Hb) _]; [done|]. rewrite body_cons.
  destruct (mi_store_head (fst g) (c / snd g) m Hm) as (b & l & -> & Hb1 & Hb2); [lia|split; [apply Z.div_pos; lia|done]|].
  exists b, (l ++ body m sh C). done.
Qed.

(** ** Reading *)

Lemma get_store n x rest : 0 <= n -> get_bytes (mi_store n x ++ rest) n = Some (mi_store n x, rest).
Proof.
  intros Hn. pose proof (length_mi_store n x Hn) as Hl. unfold get_bytes. rewrite bind_assert by (apply Z.leb_le; rewrite length_app; lia).
  rewrite take_app_length', drop_app_length' by lia. done.
Qed.

Lemma get_all l n : Z.of_nat (length l) = n -> get_bytes l n = Some (l, []).
Proof. intros Hl. unfold get_bytes. rewrite bind_assert by (apply Z.leb_le; lia). rewrite take_ge, drop_ge by lia. done. Qed.

Lemma get_none l : get_bytes l 0 = Some ([], l).
Proof. unfold get_bytes. rewrite bind_assert by (apply Z.leb_le; lia). done. Qed.

(** Reading one group gives back the word, divided. *)
Lemma read_group g c m rest : is_mask m -> fits_group g c ->
  exists w, get_bytes (mi_store (fst g) (Z.lxor (c / snd g) m) ++ rest) (fst g) = Some (w, rest) /\ Z.lxor (mi_sint w) m = c / snd g.
Proof.
  intros Hm (Hg & Hq & Hc & Hd & Hb). eexists. split; [apply get_store; lia|]. rewrite mi_sint_store; [apply lxor_twice|done|lia|].
  split; [apply Z.div_pos; lia|done].
Qed.

Lemma take_put (b : list Z) pos x : (pos < length b)%nat -> take (S pos) (<[pos := x]> b) = take pos b ++ [x].
Proof.
  intros Hp. rewrite (take_S_r _ _ x) by (by apply list_lookup_insert_eq). f_equal. apply take_insert_ge. lia.
Qed.

(** Words in front of the point: zeros are left out until there is another one. *)
Lemma read_word_spec b pos intg x digits : (pos < length b)%nat ->
  exists b' (z : bool), read_word (b, pos, intg) x digits = Some (b', if z then pos else S pos, if z then intg - digits else intg) /\ length b' = length b /\
    (z = true -> x = 0 /\ pos = O) /\ take (if z then pos else S pos) b' = take pos b ++ if z then [] else [x].
Proof.
  intros Hp. unfold read_word. rewrite bind_assert by (apply Z.ltb_lt; lia). exists (<[pos := x]> b).
  destruct (Z.ltb_spec 0 (Z.of_nat pos)) as [H0|H0]; cbn [orb]; [|destruct (Z.eqb_spec x 0) as [-> |Hx]; cbn [negb]].
  - exists false. split; [done|]. split; [apply length_insert|]. split; [done|by apply take_put].
  - exists true. split; [done|]. split; [apply length_insert|]. split; [intros _; split; [done|lia]|]. rewrite app_nil_r. apply take_insert_ge. lia.
  - exists false. split; [done|]. split; [apply length_insert|]. split; [done|by apply take_put].
Qed.

Lemma read_intg_spec m W rest : is_mask m -> forall b pos intg, Forall (fun w => digit w) W -> (pos + length W <= length b)%nat ->
  exists b' (z : nat), read_intg (length W) (body m (replicate (length W) (4, 1)) W ++ rest) m (b, pos, intg) =
      Some (rest, (b', (pos + (length W - z))%nat, intg - 9 * Z.of_nat z)) /\
    length b' = length b /\ (z <= length W)%nat /\ take z W = replicate z 0 /\ (z <> O -> pos = O) /\
    take (pos + (length W - z)) b' = take pos b ++ drop z W.
Proof.
  intros Hm. induction W as [|w W IH]; intros b pos intg HD Hl.
  { exists b, O. cbn [length read_intg body replicate zip_with concat app]. rewrite Nat.add_0_r, app_nil_r. split_and!; try done. do 3 f_equal. lia. }
  apply Forall_cons in HD as [Hw HD]. cbn [length replicate read_intg] in *. rewrite body_cons, <- app_assoc.
  destruct (read_group (4, 1) w m (body m (replicate (length W) (4, 1)) W ++ rest) Hm (fits_word w Hw)) as (v & E & Ev). cbn [fst snd] in *. rewrite Z.div_1_r in *.
  rewrite E. cbn [mbind option_bind]. rewrite Ev. destruct (read_word_spec b pos intg w DIG_PER_DEC1) as (b1 & z1 & -> & L1 & Hz1 & T1); [lia|].
  cbn [mbind option_bind]. destruct (IH b1 (if z1 then pos else S pos) (if z1 then intg - DIG_PER_DEC1 else intg) HD) as (b' & z & -> & L' & Hz & Tz & Hp & T'); [destruct z1; lia|].
  destruct z1.
  - destruct (Hz1 eq_refl) as [-> ->]. exists b', (S z). cbn [Nat.sub]. unfold DIG_PER_DEC1. split; [do 3 f_equal; lia|]. split; [lia|]. split; [lia|].
    split; [by rewrite firstn_cons, Tz|]. split; [done|]. rewrite T'. by rewrite T1, app_nil_r.
  - assert (z = O) as -> by (destruct z; [done|lia]). exists b', O. replace (pos + (S (length W) - 0))%nat with (S pos + (length W - 0))%nat by lia.
    split; [done|]. split; [lia|]. split; [lia|]. split; [done|]. split; [done|]. rewrite T', T1, <- app_assoc. done.
Qed.

Lemma read_frac_spec m W rest : is_mask m -> forall b pos, Forall (fun w => digit w) W -> (pos + length W <= length b)%nat ->
  exists b', read_frac (length W) (body m (replicate (length W) (4, 1)) W ++ rest) m b pos = Some (rest, b', (pos + length W)%nat) /\
    length b' = length b /\ take (pos + length W) b' = take pos b ++ W.
Proof.
  intros Hm. induction W as [|w W IH]; intros b pos HD Hl.
  { exists b. cbn [length read_frac body replicate zip_with concat app]. by rewrite Nat.add_0_r, app_nil_r. }
  apply Forall_cons in HD as [Hw HD]. cbn [length replicate read_frac] in *. rewrite body_cons, <- app_assoc.
  destruct (read_group (4, 1) w m (body m (replicate (length W) (4, 1)) W ++ rest) Hm (fits_word w Hw)) as (v & E & Ev). cbn [fst snd] in *. rewrite Z.div_1_r in *.
  rewrite E. cbn [mbind option_bind]. rewrite Ev. unfold put_word. rewrite bind_assert by (apply Z.ltb_lt; lia). cbn [mbind option_bind].
  destruct (IH (<[pos := w]> b) (S pos) HD) as (b' & -> & L' & T'); [rewrite length_insert; lia|]. rewrite length_insert in L'.
  exists b'. replace (pos + S (length W))%nat with (S pos + length W)%nat by lia. split; [done|]. split; [done|]. rewrite T', take_put, <- app_assoc by lia. done.
Qed.

(** The words in front of the point, without the [z] zero words. *)
Lemma read_whole m intg C1 b rest : is_mask m -> 0 <= intg -> Forall2 fits_group (ishape intg) C1 -> (length C1 <= length b)%nat ->
  exists from1 st1 b' (z : nat), read_first (body m (ishape intg) C1 ++ rest) (b, O, intg) (intg mod 9) m = Some (from1, st1) /\
    read_intg (Z.to_nat (intg / 9)) from1 m st1 =
      Some (rest, (b', (length C1 - z)%nat, if (z =? 0)%nat then intg else 9 * Z.of_nat (length C1 - z))) /\
    length b' = length b /\ (z <= length C1)%nat /\ take z C1 = replicate z 0 /\ take (length C1 - z) b' = drop z C1.
Proof.
  intros Hm Hi HF Hl. unfold read_first, ishape in *. set (x := intg mod 9) in *. set (a := intg / 9) in *.
  assert (intg = 9 * a + x /\ 0 <= x <= 8) as [Ei Hx] by (unfold a, x; dlia). assert (0 <= a) by (unfold a; dlia).
  assert (forall W, Forall2 fits_group (replicate (Z.to_nat a) (4, 1)) W -> Z.to_nat a = length W /\ Forall (fun w => digit w) W) as HW.
  { intros W H2. pose proof (Forall2_length _ _ _ H2) as Hlen. rewrite length_replicate in Hlen. split; [done|]. clear -H2. remember (replicate _ _) as R.
    clear HeqR. induction H2 as [|g c R W (_ & _ & Hc & _) _ IH]; by constructor. }
  destruct (Z.eqb_spec x 0) as [E0|E0].
  - destruct (HW C1 HF) as [Ea HD]. cbn [app] in *. rewrite Ea. destruct (read_intg_spec m C1 rest Hm b O intg HD Hl) as (b' & z & E & Lb & Hz & Tz & _ & T).
    eexists _, _, b', z. split; [done|]. rewrite E. cbn [Nat.add] in T. split; [|split; [done|]; split; [done|]; split; [done|exact T]].
    do 3 f_equal. destruct (Nat.eqb_spec z 0); [subst z|]; lia.
  - destruct C1 as [|c C1]; [by inversion HF|]. apply Forall2_cons in HF as [Hc HF]. destruct (HW C1 HF) as [Ea HD]. cbn [app length] in *. rewrite body_cons, <- app_assoc.
    destruct (read_group _ c m (body m (replicate (Z.to_nat a) (4, 1)) C1 ++ rest) Hm Hc) as (v & E & Ev). cbn [fst snd] in *. rewrite Z.div_1_r in Ev. rewrite E. cbn [mbind option_bind].
    rewrite Ev. destruct (read_word_spec b O intg c x) as (b1 & z1 & -> & L1 & Hz1 & T1); [lia|]. cbn [mbind option_bind]. rewrite Ea.
    destruct (read_intg_spec m C1 rest Hm b1 (if z1 then O else 1%nat) (if z1 then intg - x else intg) HD) as (b' & z & E' & Lb & Hz & Tz & Hp & T); [destruct z1; lia|].
    destruct z1.
    + destruct (Hz1 eq_refl) as [-> _]. eexists _, _, b', (S z). split; [done|]. rewrite E'. cbn [Nat.add Nat.eqb Nat.sub] in *.
      split; [do 3 f_equal; lia|]. split; [lia|]. split; [lia|]. split; [by rewrite firstn_cons, Tz|]. rewrite T, T1. done.
    + assert (z = O) as -> by (destruct z; [done|lia]). eexists _, _, b', O. split; [done|]. rewrite E'. cbn [Nat.eqb]. rewrite !Nat.sub_0_r in *.
      split; [do 3 f_equal; lia|]. split; [lia|]. split; [lia|]. split; [done|]. cbn [Nat.add] in T. rewrite T, T1. done.
Qed.

(** The words behind the point. *)
Lemma read_fraction m scale C2 b pos : is_mask m -> 0 <= scale -> Forall2 fits_group (fshape scale) C2 -> (pos + length C2 <= length b)%nat ->
  exists from1 b1 pos1 b', read_frac (Z.to_nat (scale / 9)) (body m (fshape scale) C2) m b pos = Some (from1, b1, pos1) /\
    read_last from1 b1 pos1 (scale mod 9) m = Some b' /\ length b' = length b /\ take (pos + length C2) b' = take pos b ++ C2.
Proof.
  intros Hm Hs HF Hl. unfold read_last, fshape in *. set (y := scale mod 9) in *. set (a := scale / 9) in *.
  assert (0 <= y <= 8) as Hy by (unfold y; dlia). apply Forall2_app_inv_l in HF as (W & L & HW & HL & ->).
  assert (Z.to_nat a = length W /\ Forall (fun w => digit w) W) as [Ea HD].
  { pose proof (Forall2_length _ _ _ HW) as Hlen. rewrite length_replicate in Hlen. split; [done|]. clear -HW. remember (replicate _ _) as R.
    clear HeqR. induction HW as [|g c R W (_ & _ & Hc & _) _ IH]; by constructor. }
  rewrite length_app in *. rewrite body_app by (by rewrite length_replicate). rewrite Ea.
  destruct (read_frac_spec m W (body m (if y =? 0 then [] else [(dig2bytes y, 10 ^ (9 - y))]) L) Hm b pos HD ltac:(lia)) as (b1 & -> & L1 & T1).
  destruct (Z.eqb_spec y 0) as [E0|E0].
  - apply Forall2_nil_inv_l in HL as ->. eexists _, b1, _, b1. split; [done|]. split; [done|]. split; [done|]. cbn [length]. by rewrite Nat.add_0_r, app_nil_r.
  - destruct L as [|c L]; [by inversion HL|]. apply Forall2_cons in HL as [Hc HL]. apply Forall2_nil_inv_l in HL as ->. cbn [length] in *.
    eexists _, b1, _, (<[(pos + length W)%nat := c]> b1). split; [done|]. rewrite body_cons. destruct (read_group _ c m (body m [] []) Hm Hc) as (v & E & Ev). cbn [fst snd] in *. rewrite E.
    cbn [mbind option_bind]. rewrite Ev. destruct Hc as (_ & Hq & Hc & Hdiv & _). cbn [fst snd] in *. unfold DIG_PER_DEC1. rewrite power10_pow by lia.
    rewrite Z.mul_comm, <- Z.divide_div_mul_exact, Z.mul_comm, Z.div_mul, s32_small by (done || lia || (unfold DIG_BASE in *; lia)).
    unfold put_word. rewrite bind_assert by (apply Z.ltb_lt; lia). split; [done|]. split; [by rewrite length_insert|].
    replace (pos + (length W + 1))%nat with (S (pos + length W)) by lia. rewrite take_put, T1, <- app_assoc by lia. done.
Qed.

(** ** The number that is read *)

Lemma bin_size_spec precision scale : 0 <= scale <= precision -> 0 < precision ->
  decimal_bin_size precision scale = Some (isz (precision - scale) + isz scale).
Proof.
  intros Hs Hp. unfold decimal_bin_size. destruct (quot9 (precision - scale) ltac:(lia)) as [-> ->]. destruct (quot9 scale ltac:(lia)) as [-> ->].
  rewrite bind_assert by (rewrite !andb_true_iff; split_and!; [apply Z.leb_le|apply Z.ltb_lt|apply Z.leb_le]; lia). unfold isz. f_equal. lia.
Qed.

Lemma full_shape_ne precision scale : 0 <= scale <= precision -> 0 < precision -> full_shape precision scale <> [].
Proof.
  intros Hs Hp E. pose proof (length_ishape (precision - scale) ltac:(lia)) as Hi. pose proof (length_fshape scale ltac:(lia)) as Hf.
  pose proof (round_up_spec (precision - scale) ltac:(lia)). pose proof (round_up_spec scale ltac:(lia)).
  apply (f_equal length) in E. unfold full_shape in E. rewrite length_app in E. cbn in E. lia.
Qed.

Lemma words_count x : 0 <= x -> x / 9 + b2z (0 <? x mod 9) = ROUND_UP x.
Proof. intros Hx. pose proof (round_up_spec x Hx). unfold b2z. destruct (Z.ltb_spec 0 (x mod 9)); dlia. Qed.

(** The sign, and the bytes without the change of the first bit. *)
Lemma stored_head s sh C : Forall2 fits_group sh C -> sh <> [] ->
  exists b l, flip_first (body (mask_of s) sh C) = b :: l /\ (if Z.testbit b 7 then 0 else -1) = mask_of s.
Proof.
  intros HF Hne. destruct (body_head (mask_of s) sh C (is_mask_of s) HF Hne) as (b & l & -> & Hb & Hs). exists (Z.lxor b 128), l. split; [done|].
  destruct (byte_spec b Hb) as [_ Ex]. destruct (byte_spec (Z.lxor b 128)) as [-> _]; [rewrite Ex; destruct (Z.leb_spec 128 b); lia|].
  rewrite Ex. destruct s; cbn [mask_of Z.eqb negb] in *; rewrite Hs; [apply Z.leb_le in Hs|apply Z.leb_gt in Hs]; destruct (Z.leb_spec 128 (b - 128)), (Z.leb_spec 128 (b + 128)); done || lia.
Qed.

Lemma bin2decimal_unfold s precision scale C1 C2 to : 0 <= scale <= precision -> 0 < precision ->
  Forall2 fits_group (ishape (precision - scale)) C1 -> Forall2 fits_group (fshape scale) C2 -> (length C1 + length C2 <= length (buf to))%nat ->
  exists b' (z : nat), bin2decimal (flip_first (body (mask_of s) (full_shape precision scale) (C1 ++ C2))) to precision scale =
      Some (mkDec (if (z =? 0)%nat then precision - scale else 9 * Z.of_nat (length C1 - z)) scale s b', E_DEC_OK) /\
    length b' = length (buf to) /\ (z <= length C1)%nat /\ take z C1 = replicate z 0 /\ take (length C1 - z + length C2) b' = drop z C1 ++ C2.
Proof.
  intros Hs Hp F1 F2 Hroom. pose proof (is_mask_of s) as Hm. set (m := mask_of s) in *. set (intg_ := precision - scale) in *.
  assert (Forall2 fits_group (full_shape precision scale) (C1 ++ C2)) as HF by (by apply Forall2_app).
  pose proof (Forall2_length _ _ _ F1) as L1. pose proof (Forall2_length _ _ _ F2) as L2.
  pose proof (length_ishape intg_ ltac:(lia)) as Li. pose proof (length_fshape scale ltac:(lia)) as Lf.
  destruct (stored_head s _ _ HF (full_shape_ne _ _ Hs Hp)) as (b0 & l & Eh & Emask). fold m in Eh, Emask. unfold bin2decimal. rewrite Eh. cbn [head mbind option_bind].
  rewrite Emask, <- Eh, bin_size_spec by done. fold intg_. cbn [mbind option_bind].
  assert (Z.of_nat (length (flip_first (body m (full_shape precision scale) (C1 ++ C2)))) = isz intg_ + isz scale) as Hlen.
  { transitivity (Z.of_nat (length (body m (full_shape precision scale) (C1 ++ C2)))); [destruct (body _ _ _); done|].
    rewrite length_body by done. unfold full_shape. rewrite size_app, size_ishape, size_fshape by lia. done. }
  rewrite (get_all _ _ Hlen). cbn [mbind option_bind]. rewrite flip_flip.
  destruct (quot9 intg_ ltac:(lia)) as [-> ->]. destruct (quot9 scale ltac:(lia)) as [-> ->]. rewrite !words_count, fix_ok by (unfold len; lia).
  cbn [negb Z.eqb E_DEC_OK]. rewrite get_none. cbn [mbind option_bind].
  unfold full_shape. fold intg_. rewrite body_app by done. replace (intg_ / 9 * DIG_PER_DEC1 + intg_ mod 9) with intg_ by (unfold DIG_PER_DEC1; dlia).
  replace (scale / 9 * DIG_PER_DEC1 + scale mod 9) with scale by (unfold DIG_PER_DEC1; dlia).
  destruct (read_whole m intg_ C1 (buf to) (body m (fshape scale) C2) Hm ltac:(lia) F1 ltac:(lia)) as (from1 & st1 & b1 & z & E1 & E2 & Lb1 & Hz & Tz & T1).
  rewrite E1. cbn [mbind option_bind]. rewrite E2. cbn [mbind option_bind]. rewrite bind_assert by (apply Z.leb_le; destruct (Nat.eqb_spec z 0); lia).
  destruct (read_fraction m scale C2 b1 (length C1 - z) Hm ltac:(lia) F2 ltac:(lia)) as (from2 & b2 & pos2 & b' & E3 & E4 & Lb' & T').
  rewrite E3. cbn [mbind option_bind]. rewrite E4. cbn [mbind option_bind]. exists b', z. split; [do 3 f_equal; unfold m; by destruct s|].
  split; [lia|]. split; [done|]. split; [done|]. by rewrite T', T1.
Qed.

Lemma fits_digits sh C : Forall2 fits_group sh C -> Forall (fun w => digit w) C.
Proof. induction 1 as [|g c sh C (_ & _ & Hc & _) _ IH]; by constructor. Qed.

(** The value that is read is that of the words. *)
Lemma bin2decimal_spec s precision scale C to : 0 <= scale <= precision -> 0 < precision ->
  Forall2 fits_group (full_shape precision scale) C -> ROUND_UP (precision - scale) + ROUND_UP scale <= len to ->
  rval (reverse C) < 10 ^ (precision - scale) * B ^ ROUND_UP scale ->
  exists d, bin2decimal (flip_first (body (mask_of s) (full_shape precision scale) C)) to precision scale = Some (d, E_DEC_OK) /\
    frac d = scale /\ sign d = s /\ rval (words d) = rval (reverse C) /\ whole d /\ (1 <= intg d + frac d -> valid d).
Proof.
  intros Hs Hp HF Hroom Hlt. unfold full_shape in HF. apply Forall2_app_inv_l in HF as (C1 & C2 & F1 & F2 & ->).
  pose proof (Forall2_length _ _ _ F1) as L1. pose proof (Forall2_length _ _ _ F2) as L2.
  pose proof (length_ishape (precision - scale) ltac:(lia)) as Li. pose proof (length_fshape scale ltac:(lia)) as Lf.
  pose proof (round_up_spec (precision - scale) ltac:(lia)) as Ri. pose proof (round_up_spec scale ltac:(lia)) as Rf.
  destruct (bin2decimal_unfold s precision scale C1 C2 to Hs Hp F1 F2) as (b' & z & -> & Lb & Hz & Tz & T); [unfold len in Hroom; lia|].
  eexists. split; [done|]. split; [done|]. split; [done|]. set (d := mkDec _ scale s b').
  assert (iw d = length C1 - z)%nat as EI.
  { unfold iw. cbn [intg d]. destruct (Nat.eqb_spec z 0); [lia|]. rewrite Z.mul_comm. change 9 with DIG_PER_DEC1. rewrite round_up_words by lia. lia. }
  assert (fw d = length C2) as EF by (unfold fw; cbn [frac d]; lia).
  assert (words d = reverse (drop z C1 ++ C2)) as Ew by (unfold words; rewrite EI, EF; cbn [buf d]; by rewrite T).
  assert (rval (words d) = rval (reverse (C1 ++ C2))) as Ev.
  { rewrite Ew. rewrite <- (take_drop z C1) at 2. rewrite <- app_assoc, (reverse_app (take z C1)), Tz, reverse_replicate, rval_app, rval_replicate. lia. }
  assert (Forall (fun w => digit w) (words d)) as HD.
  { rewrite Ew. apply Forall_reverse, Forall_app. split; [apply Forall_drop; by apply (fits_digits _ _ F1)|by apply (fits_digits _ _ F2)]. }
  split; [done|]. split.
  - unfold whole. rewrite EF. cbn [intg d]. destruct (Nat.eqb_spec z 0) as [E0|Hz0].
    + rewrite Ev. replace (Z.of_nat (length C2)) with (ROUND_UP scale) by lia. done.
    + pose proof (rval_bound _ HD) as Hb.
      replace (length (words d)) with (length C1 - z + length C2)%nat in Hb by (rewrite Ew, length_reverse, length_app, length_drop; done). rewrite Bpow_add in Hb.
      rewrite (Z.mul_comm 9). change 9 with DIG_PER_DEC1. rewrite pow10_words by lia. lia.
  - intros Hone. split; [cbn [intg d]; destruct (Nat.eqb_spec z 0); lia|cbn; lia|done| |done]. cbn [buf d]. unfold len in Hroom. lia.
Qed.

(** ** The round trip *)

Lemma scaled_lt d intg_ F : valid d -> (fw d <= F)%nat -> 0 <= intg_ -> whole_part d < 10 ^ intg_ -> scaled F d < 10 ^ intg_ * B ^ Z.of_nat F.
Proof.
  intros Hv HF Hi Hlt. unfold whole_part in Hlt. pose proof (Bpow_pos (fw d)). pose proof (Bpow_pos (F - fw d)).
  assert (rval (words d) < 10 ^ intg_ * B ^ Z.of_nat (fw d)) as Hr.
  { pose proof (Z.div_mod (rval (words d)) (B ^ Z.of_nat (fw d)) ltac:(lia)). pose proof (Z.mod_pos_bound (rval (words d)) (B ^ Z.of_nat (fw d)) ltac:(lia)). nia. }
  unfold scaled. replace (B ^ Z.of_nat F) with (B ^ Z.of_nat (F - fw d) * B ^ Z.of_nat (fw d)) by (rewrite <- Bpow_add; do 2 f_equal; lia). nia.
Qed.

(** C12: What [decimal2bin] stores, [bin2decimal] gives back: a number of any
    length and sign with at most [precision - scale] digits in front of the point
    and at most [scale] behind it is stored without an error in
    [decimal_bin_size] bytes, and what is read from these has the same value; it
    has [scale] digits behind the point and is a number again (unless it has no
    digits at all, when zero is read with [scale] 0). *)
Theorem decimal_bin_roundtrip d precision scale to : storable d precision scale -> ROUND_UP (precision - scale) + ROUND_UP scale <= len to ->
  exists bin size d', decimal2bin d precision scale = Some (bin, E_DEC_OK) /\
    decimal_bin_size precision scale = Some size /\ Z.of_nat (length bin) = size /\
    bin2decimal bin to precision scale = Some (d', E_DEC_OK) /\ frac d' = scale /\
    (forall F, (fw d <= F)%nat -> (fw d' <= F)%nat -> sval F d' = sval F d) /\ (1 <= intg d' + frac d' -> number d').
Proof.
  intros Hst Hroom. destruct (decimal2bin_spec d precision scale Hst) as (C & E & HF & Hval). destruct Hst as [Hn Hs Hp Hf Hw].
  pose proof (n_valid d Hn) as Hv. pose proof (round_up_spec scale ltac:(lia)). pose proof (round_up_spec (frac d) (v_frac d Hv)). pose proof (fw_Z d Hv).
  set (F := Z.to_nat (ROUND_UP scale)) in *.
  destruct (bin2decimal_spec (sign d) precision scale C to Hs Hp HF Hroom) as (d' & E' & Hfr & Hsg & Hr & Hwh & Hvd).
  { rewrite Hval. replace (ROUND_UP scale) with (Z.of_nat F) by lia. apply scaled_lt; [done|lia|lia|done]. }
  assert (fw d' = F) as HF' by (unfold fw, F; by rewrite Hfr).
  eexists _, _, d'. split; [exact E|]. split; [by apply bin_size_spec|]. split.
  { transitivity (Z.of_nat (length (body (mask_of (sign d)) (full_shape precision scale) C))); [by destruct (body _ _ _)|].
    rewrite length_body by done. unfold full_shape. rewrite size_app, size_ishape, size_fshape by lia. done. }
  split; [exact E'|]. split; [done|]. split.
  - intros G HG HG'. unfold sval. rewrite Hsg. f_equal. rewrite (scaled_grow F G d') by lia. rewrite <- HF' at 2. rewrite scaled_self, Hr, Hval.
    symmetry. apply scaled_grow; lia.
  - intros Hone. split; [by apply Hvd|done| |].
    + rewrite Hfr, HF', Hr, Hval. apply precise_scaled; [done|lia|lia|lia].
    + intros E0. rewrite Hsg. apply (n_zero d Hn), (scaled_zero F). lia.
Qed.

(** 1234567890.1234, as DECIMAL(14,4) *)
Definition dec_stored : decimal_t := mkDec 10 4 false [1; 234567890; 123400000].

Lemma storable_a : storable dec_stored 14 4.
Proof. split; [apply number_of; vm_compute; first [done | lia]|lia|lia|cbn; lia|vm_compute; done]. Qed.

Lemma decimal_bin_roundtrip_witness : exists bin d', decimal2bin dec_stored 14 4 = Some (bin, E_DEC_OK) /\
  bin2decimal bin (mkDec 0 0 false [0; 0; 0]) 14 4 = Some (d', E_DEC_OK).
Proof.
  destruct (decimal_bin_roundtrip dec_stored 14 4 (mkDec 0 0 false [0; 0; 0]) storable_a) as (bin & size & d' & E & _ & _ & E' & _); [vm_compute; discriminate|].
  exists bin, d'. split; [exact E|exact E'].
Defined.

(** ** Order *)

(** The value of a byte string, the first byte first. *)
Fixpoint bval (l : list Z) : Z :=
  match l with
  | [] => 0
  | b :: l => b * 256 ^ Z.of_nat (length l) + bval l
  end.

Lemma pow256_pos n : 0 < 256 ^ Z.of_nat n.
Proof. apply Z.pow_pos_nonneg; lia. Qed.

Lemma pow256_S n : 256 ^ Z.of_nat (S n) = 256 * 256 ^ Z.of_nat n.
Proof. rewrite Nat2Z.inj_succ. apply Z.pow_succ_r. lia. Qed.

Lemma bval_bound l : bytes l -> 0 <= bval l < 256 ^ Z.of_nat (length l).
Proof. induction 1 as [|b l Hb _ IH]; cbn [bval length]; [cbn; lia|]. rewrite pow256_S. nia. Qed.

Lemma bval_app a b : bval (a ++ b) = bval a * 256 ^ Z.of_nat (length b) + bval b.
Proof.
  induction a as [|x a IH]; cbn [app bval]; [lia|]. rewrite IH, length_app, Nat2Z.inj_add, Z.pow_add_r by lia. lia.
Qed.

Lemma bval_reverse l : bval (reverse l) = le_val l.
Proof. induction l as [|x l IH]; [done|]. rewrite reverse_cons, bval_app, IH. cbn [bval length le_val]. rewrite Z.pow_0_r. change (256 ^ Z.of_nat 1) with 256. lia. Qed.

Lemma compare_lex a a' r r' R : 0 <= r < R -> 0 <= r' < R -> (a * R + r ?= a' * R + r') = match a ?= a' with Eq => r ?= r' | c => c end.
Proof.
  intros Hr Hr'. destruct (Z.compare_spec a a') as [-> |H|H].
  - destruct (Z.compare_spec r r'); [apply Z.compare_eq_iff|apply Z.compare_lt_iff|apply Z.compare_gt_iff]; lia.
  - apply Z.compare_lt_iff. nia.
  - apply Z.compare_gt_iff. nia.
Qed.

Lemma memcmp_bval a : forall b, length a = length b -> bytes a -> bytes b -> Collate.sign (memcmp (length a) a b) = (bval a ?= bval b).
Proof.
  induction a as [|x a IH]; intros [|y b] Hl Ha Hb; try done. apply Forall_cons in Ha as [Hx Ha]. apply Forall_cons in Hb as [Hy Hb].
  cbn [length] in Hl. injection Hl as Hl. cbn [memcmp length bval]. pose proof (bval_bound a Ha) as Ba. pose proof (bval_bound b Hb) as Bb. rewrite Hl in *.
  rewrite compare_lex by done. rewrite <- (IH b), <- Hl by done. unfold Collate.sign. destruct (Z.eqb_spec x y) as [-> |Hne]; [by rewrite Z.compare_refl|].
  rewrite (Z.compare_sub x y). destruct (x - y ?= 0) eqn:E; [|done|done]. apply Z.compare_eq_iff in E. lia.
Qed.

(** The stored forms of two positive numbers. *)
Lemma body_compare sh C : forall C', Forall2 fits_group sh C -> Forall2 fits_group sh C' ->
  (bval (body 0 sh C) ?= bval (body 0 sh C')) = (rval (reverse C) ?= rval (reverse C')).
Proof.
  revert C. induction sh as [|g sh IH]; intros C C' HC HC'; [by inversion HC; inversion HC'|].
  inversion HC as [|? c ? C0 Hc HC0]; subst. inversion HC' as [|? c' ? C0' Hc' HC0']; subst.
  rewrite !body_cons, !bval_app, !reverse_cons, !rval_app. cbn [rval]. rewrite !Z.mul_0_r, !Z.add_0_r, !length_reverse, !Z.lxor_0_r.
  rewrite <- (Forall2_length _ _ _ HC0), <- (Forall2_length _ _ _ HC0').
  assert (forall C1, Forall2 fits_group sh C1 -> 0 <= rval (reverse C1) < B ^ Z.of_nat (length sh)) as HR.
  { intros C1 H1. rewrite (Forall2_length _ _ _ H1), <- length_reverse. apply rval_bound, Forall_reverse. by apply (fits_digits _ _ H1). }
  assert (forall C1, Forall2 fits_group sh C1 -> length (body 0 sh C1) = Z.to_nat (size sh)) as HL by (intros C1 H1; pose proof (length_body 0 _ _ H1); lia).
  assert (forall c1, fits_group g c1 -> bval (mi_store (fst g) (c1 / snd g)) = c1 / snd g) as HV.
  { intros c1 (Hg & Hq & Hd & _ & Hb). unfold mi_store. rewrite bval_reverse, le_val_le_bytes, Z2Nat.id by lia. apply Z.mod_small.
    split; [apply Z.div_pos; lia|]. eapply Z.lt_le_trans; [exact Hb|]. apply Z.pow_le_mono_r; lia. }
  rewrite !HV, (HL C0), (HL C0') by done. rewrite compare_lex.
  2: rewrite <- (HL _ HC0); apply bval_bound, bytes_body.
  2: rewrite <- (HL _ HC0'); apply bval_bound, bytes_body.
  rewrite (Z.add_comm (rval (reverse C0))), (Z.add_comm (rval (reverse C0'))), (Z.mul_comm _ c), (Z.mul_comm _ c'), compare_lex by auto.
  rewrite IH by done. destruct Hc as (_ & Hq & _ & [k ->] & _), Hc' as (_ & _ & _ & [k' ->] & _). rewrite !Z.div_mul by lia.
  replace (k * snd g ?= k' * snd g) with (k ?= k'); [done|]. destruct (Z.compare_spec k k') as [-> |?|?]; symmetry;
    [apply Z.compare_eq_iff|apply Z.compare_lt_iff|apply Z.compare_gt_iff]; nia.
Qed.

Lemma le_bytes_lnot n : forall x, le_bytes n (- x - 1) = map (fun b => 255 - b) (le_bytes n x).
Proof.
  induction n as [|n IH]; intros x; [done|]. cbn [le_bytes map]. f_equal; [unfold u8; dlia|]. rewrite <- IH. f_equal. dlia.
Qed.

Lemma body_inverted sh : forall C, body (-1) sh C = map (fun b => 255 - b) (body 0 sh C).
Proof.
  induction sh as [|g sh IH]; intros [|c C]; try done. rewrite !body_cons, map_app, IH. f_equal. rewrite !lxor_is_mask by (by (left + right)). cbn [Z.eqb].
  unfold mi_store. rewrite le_bytes_lnot. symmetry. apply (fmap_reverse (fun b => 255 - b)).
Qed.

Lemma bval_inverted l : bval (map (fun b => 255 - b) l) = 256 ^ Z.of_nat (length l) - 1 - bval l.
Proof. induction l as [|b l IH]; [done|]. cbn [map bval length]. rewrite IH, length_map, pow256_S. lia. Qed.

(** The stored form as a number: half of all values are for negative numbers. *)
Lemma stored_value s sh C : Forall2 fits_group sh C -> sh <> [] ->
  exists h, 2 * h = 256 ^ size sh /\ 0 <= bval (body 0 sh C) < h /\
    bval (flip_first (body (mask_of s) sh C)) = if s then h - 1 - bval (body 0 sh C) else h + bval (body 0 sh C).
Proof.
  intros HF Hne. destruct (body_head 0 sh C (or_introl eq_refl) HF Hne) as (b & l & E & Hb & Hs). cbn [Z.eqb negb] in Hs. apply Z.leb_gt in Hs.
  pose proof (length_body 0 sh C HF) as Hl. rewrite E in Hl. cbn [length] in Hl. exists (128 * 256 ^ Z.of_nat (length l)).
  pose proof (bytes_body 0 sh C) as Hby. rewrite E in Hby. apply Forall_cons in Hby as [_ Hby]. pose proof (bval_bound l Hby) as Bl.
  pose proof (pow256_pos (length l)). split; [rewrite <- Hl, pow256_S; lia|]. rewrite E. cbn [bval]. split; [nia|].
  destruct s; cbn [mask_of].
  - rewrite body_inverted, E. cbn [map flip_first bval]. rewrite length_map, bval_inverted. destruct (byte_spec (255 - b)) as [_ ->]; [lia|].
    rewrite (proj2 (Z.leb_le _ _)) by lia. lia.
  - rewrite E. cbn [flip_first bval]. destruct (byte_spec b) as [_ ->]; [lia|]. rewrite (proj2 (Z.leb_gt _ _)) by lia. lia.
Qed.

(** Numbers with a sign, zero having none. *)
Lemma signed_compare (s1 s2 : bool) h x1 x2 y1 y2 : 0 <= x1 < h -> 0 <= x2 < h -> 0 <= y1 -> 0 <= y2 -> (y1 = 0 -> s1 = false) -> (y2 = 0 -> s2 = false) ->
  (x1 ?= x2) = (y1 ?= y2) ->
  ((if s1 then h - 1 - x1 else h + x1) ?= (if s2 then h - 1 - x2 else h + x2)) = (signed s1 y1 ?= signed s2 y2).
Proof.
  intros H1 H2 P1 P2 Z1 Z2 Hc. destruct s1, s2; cbn [signed].
    destruct (Z.compare_spec x1 x2), (Z.compare_spec y1 y2); try done; [transitivity Eq|transitivity Gt|transitivity Lt];
      [apply Z.compare_eq_iff|symmetry; apply Z.compare_eq_iff|apply Z.compare_gt_iff|symmetry; apply Z.compare_gt_iff|apply Z.compare_lt_iff|symmetry; apply Z.compare_lt_iff]; lia.
  - assert (y1 <> 0) by (intros ->; by specialize (Z1 eq_refl)). transitivity Lt; [apply Z.compare_lt_iff|symmetry; apply Z.compare_lt_iff]; lia.
  - assert (y2 <> 0) by (intros ->; by specialize (Z2 eq_refl)). transitivity Gt; [apply Z.compare_gt_iff|symmetry; apply Z.compare_gt_iff]; lia.
  - rewrite <- Hc. destruct (Z.compare_spec x1 x2); [apply Z.compare_eq_iff|apply Z.compare_lt_iff|apply Z.compare_gt_iff]; lia.
Qed.

(** Two numbers compare alike at every scale. *)
Lemma scaled_compare d1 d2 F G : (fw d1 <= F)%nat -> (fw d2 <= F)%nat -> (fw d1 <= G)%nat -> (fw d2 <= G)%nat ->
  (scaled F d1 ?= scaled F d2) = (scaled G d1 ?= scaled G d2).
Proof.
  assert (forall F G, (fw d1 <= F)%nat -> (fw d2 <= F)%nat -> (F <= G)%nat -> (scaled F d1 ?= scaled F d2) = (scaled G d1 ?= scaled G d2)) as Hle.
  { clear. intros F G H1 H2 HFG. rewrite (scaled_grow F G d1), (scaled_grow F G d2) by done. pose proof (Bpow_pos (G - F)).
    destruct (Z.compare_spec (scaled F d1) (scaled F d2)) as [-> |?|?]; symmetry; [apply Z.compare_eq_iff|apply Z.compare_lt_iff|apply Z.compare_gt_iff]; nia. }
  intros H1 H2 H3 H4. rewrite (Hle F (Nat.max F G)), (Hle G (Nat.max F G)) by lia. done.
Qed.

(** C11: The stored forms are ordered like the numbers.  For two numbers that
    both fit [precision] and [scale] ([storable]: no more digits before and
    behind the point than these allow, so that nothing is cut off), [memcmp] of
    what [decimal2bin] writes for them has the sign of their difference, for
    either sign and any number of digits in use; so two such numbers have the
    same bytes when they are equal, and only then. *)
Theorem decimal_bin_memcmp d1 d2 precision scale F : storable d1 precision scale -> storable d2 precision scale ->
  (fw d1 <= F)%nat -> (fw d2 <= F)%nat ->
  exists bin1 bin2, decimal2bin d1 precision scale = Some (bin1, E_DEC_OK) /\ decimal2bin d2 precision scale = Some (bin2, E_DEC_OK) /\
    length bin1 = length bin2 /\ Collate.sign (memcmp (length bin1) bin1 bin2) = (sval F d1 ?= sval F d2).
Proof.
  intros S1 S2 HF1 HF2. destruct (decimal2bin_spec d1 precision scale S1) as (C1 & E1 & G1 & V1). destruct (decimal2bin_spec d2 precision scale S2) as (C2 & E2 & G2 & V2).
  eexists _, _. split; [exact E1|]. split; [exact E2|]. destruct S1 as [N1 Hs Hp Hf1 _], S2 as [N2 _ _ Hf2 _].
  set (sh := full_shape precision scale) in *. pose proof (full_shape_ne precision scale Hs Hp) as Hne. fold sh in Hne.
  assert (forall s C, Forall2 fits_group sh C -> length (flip_first (body (mask_of s) sh C)) = Z.to_nat (size sh) /\ bytes (flip_first (body (mask_of s) sh C))) as HB.
  { intros s C H. pose proof (length_body (mask_of s) sh C H) as Hl. pose proof (bytes_body (mask_of s) sh C) as Hb. destruct (body _ sh C) as [|b l]; cbn [flip_first length] in *; [by split; [lia|]|].
    split; [lia|]. apply Forall_cons in Hb as [Hb Hbl]. constructor; [|done]. destruct (byte_spec b Hb) as [_ ->]. destruct (Z.leb_spec 128 b); lia. }
  destruct (HB (sign d1) C1 G1) as [L1 B1]. destruct (HB (sign d2) C2 G2) as [L2 B2]. split; [lia|]. rewrite memcmp_bval by (done || lia).
  destruct (stored_value (sign d1) sh C1 G1 Hne) as (h & Hh & Hb1 & ->). destruct (stored_value (sign d2) sh C2 G2 Hne) as (h' & Hh' & Hb2 & ->). assert (h' = h) as -> by lia.
  pose proof (n_valid _ N1) as W1. pose proof (n_valid _ N2) as W2.
  assert (forall d, valid d -> number d -> frac d <= scale -> (fw d <= Z.to_nat (ROUND_UP scale))%nat) as Hfw.
  { intros d Hv _ Hf. pose proof (v_frac d Hv). pose proof (round_up_max (frac d) scale ltac:(done) ltac:(lia)) as Hm. rewrite Z.max_r in Hm by lia. unfold fw. lia. }
  apply signed_compare; [done|done|by apply scaled_nonneg|by apply scaled_nonneg|intros E; by apply (n_zero _ N1), (scaled_zero F)|intros E; by apply (n_zero _ N2), (scaled_zero F)|].
  rewrite (body_compare sh C1 C2 G1 G2), V1, V2. apply scaled_compare; auto.
Qed.

Lemma decimal_bin_memcmp_witness : exists bin1 bin2, decimal2bin dec_stored 14 4 = Some (bin1, E_DEC_OK) /\
  decimal2bin (mkDec 1 4 true [0; 123400000]) 14 4 = Some (bin2, E_DEC_OK) /\ Collate.sign (memcmp (length bin1) bin1 bin2) = Gt.
Proof.
  destruct (decimal_bin_memcmp dec_stored (mkDec 1 4 true [0; 123400000]) 14 4 1 storable_a) as (bin1 & bin2 & E1 & E2 & _ & Hc).
  - split; [apply number_of; vm_compute; first [done | lia]|lia|lia|cbn; lia|vm_compute; done].
  - vm_compute. lia.
  - vm_compute. lia.
  - exists bin1, bin2. split; [exact E1|]. split; [exact E2|]. etransitivity; [exact Hc|]. vm_compute. reflexivity.
Defined.

(** The example of the source: -1234567890.1234 as DECIMAL(14,4). *)
Lemma decimal2bin_example : decimal2bin (mkDec 10 4 true [1; 234567890; 123400000]) 14 4 = Some ([0x7E; 0xF2; 0x04; 0xC7; 0x2D; 0xFB; 0x2D], E_DEC_OK).
Proof. vm_compute. reflexivity. Qed.

(** 12.3456 has more digits than DECIMAL(5,3) and as many bytes: it is stored
    without an error, and read back as no number. *)
Lemma decimal2bin_same_bytes : exists bin d', decimal2bin (mkDec 2 4 false [12; 345600000]) 5 3 = Some (bin, E_DEC_OK) /\
  bin2decimal bin (mkDec 0 0 false [0; 0]) 5 3 = Some (d', E_DEC_OK) /\ buf d' = [12; -838967296].
Proof. eexists _, _. split; [vm_compute; reflexivity|]. split; [vm_compute; reflexivity|]. done. Qed.
