(* ===== verification/DecimalRound.v ===== *)
(** * Rounding of exact decimals (strings/decimal.c: [decimal_round]) *)

From stdpp Require Import base numbers list.
From Stdlib Require Import ZArith Lia.
From S2P Require Import Prelude Decimal DecimalArith DecimalSub DecimalMul DecimalInt DecimalBin DecimalPack.

Local Open Scope Z_scope.

(** ** The function *)

Inductive decimal_round_mode := TRUNCATE | HALF_EVEN | HALF_UP | CEILING | FLOOR.

Definition DIG_MASK : Z := 100000000.

(** Access to an array of words. *)
Definition word (b : list Z) (i : Z) : option Z := if 0 <=? i then b !! Z.to_nat i else None.

Definition set_word (b : list Z) (i x : Z) : option (list Z) :=
  _ ← word b i; Some (<[Z.to_nat i := x]> b).

Definition round_digit_of (mode : decimal_round_mode) (sign : bool) : Z :=
  match mode with
  | HALF_UP | HALF_EVEN => 5
  | CEILING => if sign then 10 else 0
  | FLOOR => if sign then 0 else 10
  | TRUNCATE => 10
  end.

Definition is_half_up (mode : decimal_round_mode) : bool := match mode with HALF_UP => true | _ => false end.

(** [while (carry && --buf1 >= to->buf) ADD( *buf1, *buf1, 0, carry)]: [l] are the
    words before [buf1], the last one first; the words, the carry, and how far
    [buf1] went. *)
Fixpoint round_carry (l : list Z) : list Z * Z * Z :=
  match l with
  | [] => ([], 1, 0)
  | w :: l =>
      let '(a, carry) := ADD w 0 1 in
      if carry =? 0 then (a :: l, 0, 1) else let '(l, carry, n) := round_carry l in (a :: l, carry, n + 1)
  end.

(** Rounding between two words: whether the word [buf0] is incremented. *)
Definition round_between (b : list Z) (buf0 frac0 frac1 intg0 round_digit : Z) (mode : decimal_round_mode) : option bool :=
  if round_digit =? 0 then
    l ← back b (buf0 + 1) (buf0 + 1 + (frac1 - frac0));
    Some (negb (forallb (fun w => w =? 0) l))
  else if round_digit =? 5 then
    w ← word b (buf0 + 1);
    let x := Z.quot w DIG_MASK in
    if 5 <? x then Some true
    else if x =? 5 then
      if is_half_up mode then Some true
      else if 0 <? frac0 + intg0 then w0 ← word b buf0; Some (Z.odd w0) else Some false
    else Some false
  else Some false.

(** Rounding within the word [w]. *)
Definition round_within (w pos round_digit : Z) (mode : decimal_round_mode) : Z :=
  let x := Z.quot w (power10 pos) in
  let y := Z.rem x 10 in
  let x := if (round_digit <? y) || ((round_digit =? 5) && (y =? 5) && (is_half_up mode || Z.odd (Z.quot x 10))) then x + 10 else x in
  s32 (power10 pos * (x - y)).

(** [for (;;) { if ( *buf1) break; if (buf1-- == to->buf) ..}]: where it stops,
    or [None] if all words are zeros; [l] are the words up to [buf1], the last one
    first. *)
Fixpoint find_nonzero (l : list Z) (buf1 : Z) : option Z :=
  match l with
  | [] => None
  | w :: l => if w =? 0 then find_nonzero l (buf1 - 1) else Some buf1
  end.

(** The end of the function: a carry from the word [buf1], or a test for zero. *)
Definition round_finish (b : list Z) (intg : Z) (sg : bool) (buf1 intg0 frac0 scale error : Z) : option (decimal_t * Z) :=
  let finish b intg buf1 scale error :=
    (* 999.9 -> 1000 *)
    w ← word b buf1;
    let first_dig := Z.rem intg DIG_PER_DEC1 in
    let intg := if negb (first_dig =? 0) && (power10 first_dig <=? w) then intg + 1 else intg in
    Some (mkDec intg (if scale <? 0 then 0 else scale) sg b, error) in
  w ← word b buf1;
  if DIG_BASE <=? w then
    b ← set_word b buf1 (w - DIG_BASE);
    l ← back b 0 buf1;
    let '(l, carry, n) := round_carry l in
    b ← store b buf1 (reverse l);
    if negb (carry =? 0) then
      (* shifting the number to create space for new digit *)
      let '(frac0, scale, error) :=
        if Z.of_nat (length b) <=? frac0 + intg0 then (frac0 - 1, (frac0 - 1) * DIG_PER_DEC1, E_DEC_TRUNCATED) else (frac0, scale, error) in
      l ← back b 0 (intg0 + Z.max frac0 0);
      b ← store b (intg0 + Z.max frac0 0 + 1) (1 :: reverse l);
      finish b (intg + 1) 0 scale error
    else finish b intg (buf1 - n) scale error
  else
    l ← back b 0 (buf1 + 1);
    match find_nonzero l buf1 with
    | Some buf1 => finish b intg buf1 scale error
    | None =>
        (* making 'zero' with the proper scale *)
        b ← (if 0 <? frac0 + 1 then store b (frac0 + 1) (replicate (Z.to_nat (frac0 + 1)) 0) else Some b);
        Some (mkDec 1 (Z.max scale 0) false b, E_DEC_OK)
    end.

(** The rounding of the words that were copied to [b]. *)
Definition round_words (b : list Z) (to_intg : Z) (sg : bool) (intg0 frac0 frac1 scale error : Z) (mode : decimal_round_mode) : option (decimal_t * Z) :=
  let round_digit := round_digit_of mode sg in
  let buf1 := intg0 + frac0 - 1 in
  r ←
    (if scale =? frac0 * DIG_PER_DEC1 then
       _ ← assert_that (0 <=? frac0 + intg0);
       do_inc ← round_between b buf1 frac0 frac1 intg0 round_digit mode;
       if do_inc : bool then
         if 0 <? frac0 + intg0 then w ← word b buf1; b ← set_word b buf1 (w + 1); Some (Some (b, buf1))
         else b ← set_word b (buf1 + 1) DIG_BASE; Some (Some (b, buf1 + 1))
       else if frac0 + intg0 =? 0 then Some None
       else Some (Some (b, buf1))
     else
       _ ← assert_that (0 <? frac0 + intg0);
       w ← word b buf1;
       b ← set_word b buf1 (round_within w (frac0 * DIG_PER_DEC1 - scale - 1) round_digit mode);
       Some (Some (b, buf1)));
  match r with
  | None => Some (decimal_make_zero (mkDec 0 0 false b), E_DEC_OK)
  | Some (b, buf1) =>
      b ← (if (frac0 <? 0) && (buf1 + 1 <? intg0) then store b intg0 (replicate (Z.to_nat (intg0 - (buf1 + 1))) 0) else Some b);
      round_finish b to_intg sg buf1 intg0 frac0 scale error
  end.

(** [to] is [None] if the result goes to [from]. *)
Definition decimal_round (from : decimal_t) (to : option decimal_t) (scale : Z) (mode : decimal_round_mode) : option (decimal_t * Z) :=
  let b := match to with Some to => buf to | None => buf from end in
  let len := Z.of_nat (length b) in
  let frac0 := if 0 <? scale then ROUND_UP scale else Z.quot scale DIG_PER_DEC1 in
  let frac1 := ROUND_UP (frac from) in
  let intg0 := ROUND_UP (intg from) in
  first ← head (buf from);
  let intg1 := ROUND_UP (intg from + b2z ((0 <? intg0 + frac0) && (first =? DIG_MAX))) in
  let '(frac0, scale, error) :=
    if len <? frac0 + intg0 then (len - intg0, (len - intg0) * DIG_PER_DEC1, E_DEC_TRUNCATED) else (frac0, scale, E_DEC_OK) in
  if scale + intg from <? 0 then Some (decimal_make_zero (mkDec 0 0 false b), E_DEC_OK)
  else
    '(b, to_intg, intg0) ←
      (if match to with Some _ => true | None => false end || (intg0 <? intg1) then
         let m := Z.max frac1 frac0 in
         b ← set_word b 0 0;
         l ← back (match to with Some _ => buf from | None => b end) 0 (intg0 + m);
         b ← store b (intg1 + m) (reverse l);
         Some (b, Z.min intg1 len * DIG_PER_DEC1, intg1)
       else Some (b, intg from, intg0));
    if frac1 <? frac0 then
      b ← store b (intg0 + frac0) (replicate (Z.to_nat (frac0 - frac1)) 0);
      Some (mkDec to_intg scale (sign from) b, error)
    else if frac from <=? scale then Some (mkDec to_intg scale (sign from) b, error)
    else round_words b to_intg (sign from) intg0 frac0 frac1 scale error mode.

(** ** Access to parts of an array *)

Lemma word_at P w T : word (P ++ w :: T) (Z.of_nat (length P)) = Some w.
Proof. unfold word. rewrite (proj2 (Z.leb_le _ _)), Nat2Z.id by lia. by rewrite list_lookup_middle. Qed.

Lemma set_word_at P w T x : set_word (P ++ w :: T) (Z.of_nat (length P)) x = Some (P ++ x :: T).
Proof. unfold set_word. rewrite word_at. cbn [mbind option_bind]. rewrite Nat2Z.id. f_equal. rewrite insert_app_r_alt, Nat.sub_diag by lia. done. Qed.

Lemma back_prefix P T : back (P ++ T) 0 (Z.of_nat (length P)) = Some (reverse P).
Proof.
  unfold back. rewrite (proj2 (Z.leb_le 0 0)), (proj2 (Z.leb_le 0 (Z.of_nat (length P)))), (proj2 (Z.leb_le (Z.of_nat (length P)) _)) by (rewrite ?length_app; lia).
  cbn [andb]. rewrite Z.sub_0_r, Nat2Z.id. change (Z.to_nat 0) with O. by rewrite drop_0, take_app_length.
Qed.

Lemma store_prefix P T l : length l = length P -> store (P ++ T) (Z.of_nat (length P)) l = Some (l ++ T).
Proof. intros Hl. rewrite store_spec by (rewrite ?length_app; lia). by rewrite Hl, Nat.sub_diag, take_0, drop_app_length. Qed.

(** ** The end of the function *)

Lemma round_carry_spec l : Forall (fun w => digit w) l -> rval l + 1 < B ^ Z.of_nat (length l) ->
  exists l' n, round_carry l = (l', 0, Z.of_nat n) /\ (1 <= n <= length l)%nat /\ Forall (fun w => digit w) l' /\ length l' = length l /\ rval l' = rval l + 1.
Proof.
  induction l as [|w l IH]; intros HD Hlt; [cbn in Hlt; lia|]. apply Forall_cons in HD as [Hw HD]. cbn [round_carry rval length] in *. rewrite Bpow_S in Hlt.
  destruct (ADD_spec w 0 1) as (a & c & -> & Ha & Hc & E); [lia..|]. destruct (Z.eqb_spec c 0) as [-> |Hc0].
  - exists (a :: l), 1%nat. split; [done|]. split; [cbn; lia|]. split; [by constructor|]. split; [done|]. cbn [rval]. lia.
  - assert (c = 1) as -> by lia. destruct (IH HD) as (l' & n & -> & Hn & HD' & Hl' & Hv); [nia|].
    exists (a :: l'), (S n). split; [f_equal; lia|]. split; [lia|]. split; [by constructor|]. cbn [length rval]. split; lia.
Qed.

Lemma find_nonzero_spec l : forall i, Forall (fun w => 0 <= w) l ->
  match find_nonzero l i with
  | None => rval l = 0
  | Some j => 0 < rval l /\ i - Z.of_nat (length l) < j <= i
  end.
Proof.
  induction l as [|w l IH]; intros i HD; cbn [find_nonzero]; [done|]. apply Forall_cons in HD as [Hw HD]. cbn [rval length].
  assert (0 <= rval l) by (clear -HD; induction HD; cbn [rval]; unfold DIG_BASE; lia).
  destruct (Z.eqb_spec w 0) as [-> |Hne]; [|unfold DIG_BASE; lia]. specialize (IH (i - 1) HD). destruct (find_nonzero l (i - 1)); unfold DIG_BASE in *; lia.
Qed.

Lemma word_inside b i : 0 <= i < Z.of_nat (length b) -> exists w, word b i = Some w.
Proof. intros Hi. unfold word. rewrite (proj2 (Z.leb_le _ _)) by lia. apply lookup_lt_is_Some_2. lia. Qed.

(** The words [w1 :: K], the last one first, are the result; [w1] may be one too
    large for a word. *)
Lemma round_finish_spec K w1 T (i f : nat) sg scale error : Forall (fun w => digit w) K -> 0 <= w1 <= B -> rval (w1 :: K) < B ^ Z.of_nat (S (length K)) ->
  0 <= scale -> (f + 1 <= S (length K) + length T)%nat ->
  exists to', round_finish (reverse K ++ w1 :: T) (Z.of_nat i * DIG_PER_DEC1) sg (Z.of_nat (length K)) (Z.of_nat i) (Z.of_nat f) scale error =
      Some (to', if rval (w1 :: K) =? 0 then E_DEC_OK else error) /\
    if rval (w1 :: K) =? 0 then exists rest, to' = mkDec 1 scale false (replicate (f + 1) 0 ++ rest)
    else exists K', to' = mkDec (Z.of_nat i * DIG_PER_DEC1) scale sg (reverse K' ++ T) /\
      Forall (fun w => digit w) K' /\ length K' = S (length K) /\ rval K' = rval (w1 :: K).
Proof.
  intros HD Hw Hlt Hs Hroom. unfold round_finish. set (P := reverse K). assert (length P = length K) as LP by apply length_reverse. rewrite <- LP, word_at.
  cbn [mbind option_bind]. assert (forall b j, 0 <= j < Z.of_nat (length b) ->
    (w ← word b j; Some (mkDec (if negb (Z.rem (Z.of_nat i * DIG_PER_DEC1) DIG_PER_DEC1 =? 0) && (power10 (Z.rem (Z.of_nat i * DIG_PER_DEC1) DIG_PER_DEC1) <=? w)
      then Z.of_nat i * DIG_PER_DEC1 + 1 else Z.of_nat i * DIG_PER_DEC1) (if scale <? 0 then 0 else scale) sg b, error)) =
    Some (mkDec (Z.of_nat i * DIG_PER_DEC1) scale sg b, error)) as Hfin.
  { intros b j Hj. destruct (word_inside b j Hj) as [w ->]. cbn [mbind option_bind]. rewrite Z.rem_mul by done. cbn [Z.eqb negb andb]. by rewrite (proj2 (Z.ltb_ge _ _)) by lia. }
  destruct (Z.leb_spec B w1) as [Hb|Hb].
  - assert (w1 = B) as -> by lia. rewrite set_word_at. cbn [mbind option_bind]. rewrite back_prefix. cbn [mbind option_bind]. unfold P at 1. rewrite reverse_involutive.
    cbn [rval] in *. rewrite Bpow_S in Hlt. destruct (round_carry_spec K HD) as (K' & n & -> & Hn & HD' & Lk & Vk); [apply (Z.mul_lt_mono_pos_l B); [done|lia]|].
    rewrite store_prefix by (rewrite length_reverse; lia). cbn [mbind option_bind Z.eqb negb].
    pose proof (rval_bound K HD). rewrite (proj2 (Z.eqb_neq (B + B * rval K) 0)) by (unfold DIG_BASE in *; lia). rewrite Z.sub_diag, Hfin by (rewrite length_app, length_reverse; cbn [length]; lia).
    eexists. split; [done|]. exists (0 :: K'). split; [f_equal; by rewrite reverse_cons, <- app_assoc|]. split; [constructor; [done|done]|]. cbn [length rval]. split; lia.
  - replace (Z.of_nat (length P) + 1) with (Z.of_nat (length (P ++ [w1]))) by (rewrite length_app; cbn; lia).
    replace (P ++ w1 :: T) with ((P ++ [w1]) ++ T) by (by rewrite <- app_assoc). rewrite back_prefix, reverse_snoc. cbn [mbind option_bind]. unfold P at 1. rewrite reverse_involutive.
    assert (Forall (fun w => digit w) (w1 :: K)) as HD1 by (constructor; [lia|done]).
    pose proof (find_nonzero_spec (w1 :: K) (Z.of_nat (length P)) ltac:(eapply Forall_impl; [exact HD1|]; cbn; lia)) as Hf.
    destruct (find_nonzero (w1 :: K) (Z.of_nat (length P))) as [j|].
    + destruct Hf as [Hpos Hj]. cbn [length] in Hj. rewrite (proj2 (Z.eqb_neq (rval (w1 :: K)) 0)) by lia. rewrite Hfin by (rewrite !length_app; cbn [length]; lia).
      eexists. split; [done|]. exists (w1 :: K). split; [by rewrite reverse_cons|]. split; [exact HD1|]. split; [cbn; by rewrite LP|done].
    + rewrite Hf. cbn [Z.eqb]. rewrite (proj2 (Z.ltb_lt _ _)) by lia. replace (Z.of_nat f + 1) with (Z.of_nat (f + 1)) by lia. rewrite Nat2Z.id.
      rewrite store_spec by (rewrite ?length_replicate, ?length_app; cbn [length]; lia). rewrite length_replicate, Nat.sub_diag, take_0. cbn [app mbind option_bind].
      rewrite Z.max_l by lia. eexists. split; [done|]. by eexists.
Qed.

(** ** The rounded value *)

(** The number as an integer in units of [10^-scale], rounded up from the half on
    or cut off. *)
Definition rounded_value (d : decimal_t) (scale : Z) (up : bool) : Z :=
  let u := 10 ^ (9 * Z.of_nat (fw d) - scale) in
  rval (words d) / u + b2z (up && (u <=? 2 * (rval (words d) mod u))).

(** [D] are the words that are left out, and [u] one unit in the last word. *)
Lemma rounded_value_split d scale up D K u : rval (words d) = rval D + B ^ Z.of_nat (length D) * rval K -> Forall (fun w => digit w) D -> 0 < u ->
  10 ^ (9 * Z.of_nat (fw d) - scale) = B ^ Z.of_nat (length D) * u ->
  rounded_value d scale up = rval K / u + b2z (up && (B ^ Z.of_nat (length D) * u <=? 2 * (rval D + B ^ Z.of_nat (length D) * (rval K mod u)))).
Proof.
  intros Ev HD Hu E. unfold rounded_value. rewrite E, Ev. pose proof (rval_bound D HD) as Hb. set (p := B ^ Z.of_nat (length D)) in *.
  pose proof (Z.div_mod (rval K) u ltac:(lia)) as Hdm. pose proof (Z.mod_pos_bound (rval K) u Hu).
  assert ((rval D + p * rval K) / (p * u) = rval K / u) as Eq by (symmetry; apply (Z.div_unique_pos _ _ _ (rval D + p * (rval K mod u))); nia).
  assert ((rval D + p * rval K) mod (p * u) = rval D + p * (rval K mod u)) as Em by (symmetry; apply (Z.mod_unique_pos _ _ (rval K / u)); nia).
  by rewrite Eq, Em.
Qed.

(** Half of a word decides by its first digit. *)
Lemma half_of_words D wd : Forall (fun w => digit w) (D ++ [wd]) ->
  (B ^ Z.of_nat (length (D ++ [wd])) <=? 2 * rval (D ++ [wd])) = (5 <=? Z.quot wd DIG_MASK).
Proof.
  intros HD. rewrite Forall_app, Forall_singleton in HD. destruct HD as [HD Hw]. rewrite rval_app, length_app, Nat.add_comm. cbn [length Nat.add rval]. rewrite Bpow_S.
  pose proof (rval_bound D HD) as Hb. set (p := B ^ Z.of_nat (length D)) in *. unfold DIG_MASK. rewrite Z.quot_div_nonneg by lia.
  assert (wd = 100000000 * (wd / 100000000) + wd mod 100000000 /\ 0 <= wd mod 100000000 < 100000000) as [E Hm] by dlia.
  destruct (Z.leb_spec 5 (wd / 100000000)); [apply Z.leb_le|apply Z.leb_gt]; unfold DIG_BASE in *; nia.
Qed.

(** The words with the point that is kept, rounded between two words. *)
Lemma round_between_spec P w D wd rest f0 f1 i0 mode sg : mode = TRUNCATE \/ mode = HALF_UP -> Forall (fun w => digit w) (D ++ [wd]) ->
  round_between (P ++ wd :: reverse D ++ rest) (Z.of_nat (length P) - 1) f0 f1 i0 (round_digit_of mode sg) mode =
  Some (is_half_up mode && (B ^ Z.of_nat (length (D ++ [wd])) * 1 <=? 2 * (rval (D ++ [wd]) + B ^ Z.of_nat (length (D ++ [wd])) * (w mod 1)))).
Proof.
  intros Hm HD. rewrite Z.mod_1_r, Z.mul_0_r, Z.add_0_r, Z.mul_1_r, half_of_words by done. unfold round_between. destruct Hm as [-> | ->]; cbn [round_digit_of Z.eqb is_half_up andb]; [done|].
  replace (Z.of_nat (length P) - 1 + 1) with (Z.of_nat (length P)) by lia. rewrite word_at. cbn [mbind option_bind]. f_equal.
  destruct (Z.ltb_spec 5 (Z.quot wd DIG_MASK)), (Z.eqb_spec (Z.quot wd DIG_MASK) 5), (Z.leb_spec 5 (Z.quot wd DIG_MASK)); done || lia.
Qed.

(** Rounding within a word. *)
Lemma round_within_spec w pos mode sg : mode = TRUNCATE \/ mode = HALF_UP -> digit w -> 0 <= pos <= 7 ->
  let u := 10 ^ (pos + 1) in
  round_within w pos (round_digit_of mode sg) mode = u * (w / u + b2z (is_half_up mode && (u <=? 2 * (w mod u)))).
Proof.
  intros Hm Hw Hp u. unfold round_within. rewrite quot_power10, power10_pow by (done || lia). assert (0 < 10 ^ pos) as H10 by (apply Z.pow_pos_nonneg; lia).
  assert (u = 10 ^ pos * 10) as Eu by (unfold u; rewrite Z.pow_add_r by lia; lia). assert (10 ^ pos <= 10 ^ 7) by (apply Z.pow_le_mono_r; lia).
  assert (10 ^ 9 = 10 ^ (8 - pos) * u) as E9 by (unfold u; rewrite <- Z.pow_add_r by lia; f_equal; lia).
  set (p := 10 ^ pos) in *. set (x := w / p). assert (0 <= x) by (apply Z.div_pos; lia). rewrite Z.rem_mod_nonneg, Z.quot_div_nonneg by lia.
  assert (x / 10 = w / u) as Ex by (rewrite Eu; unfold x; apply Z.div_div; lia).
  assert (x mod 10 = (w mod u) / p) as Ey.
  { unfold x. rewrite Eu, Z.rem_mul_r, Z.mul_comm, Z.div_add by lia. rewrite (Z.div_small (w mod p)) by (apply Z.mod_pos_bound; lia). lia. }
  assert (u <=? 2 * (w mod u) = (5 <=? x mod 10)) as Eh.
  { rewrite Ey. pose proof (Z.div_mod (w mod u) p ltac:(lia)). pose proof (Z.mod_pos_bound (w mod u) p H10). destruct (Z.leb_spec 5 ((w mod u) / p)); [apply Z.leb_le|apply Z.leb_gt]; nia. }
  rewrite Eh. assert (x - x mod 10 = 10 * (w / u)) as Ed by (rewrite <- Ex; pose proof (Z.div_mod x 10 ltac:(lia)); lia).
  assert (0 <= x mod 10 <= 9) as Hy by (pose proof (Z.mod_pos_bound x 10 ltac:(lia)); lia). set (y := x mod 10) in *.
  assert (w / u < 10 ^ (8 - pos)) by (apply Z.div_lt_upper_bound; [lia|]; unfold DIG_BASE in Hw; lia).
  assert (0 <= w / u) by (apply Z.div_pos; lia).
  assert (forall c : bool, s32 (p * ((if c then x + 10 else x) - y)) = u * (w / u + b2z c)) as Hc.
  { intros c. assert (p * ((if c then x + 10 else x) - y) = u * (w / u + b2z c)) as ->.
    { rewrite Eu. destruct c; cbn [b2z]; [replace (x + 10 - y) with (10 * (w / (p * 10)) + 10) by (rewrite <- Eu; lia)|replace (x - y) with (10 * (w / (p * 10))) by (rewrite <- Eu; lia)]; lia. }
    assert (0 <= u * (w / u + b2z c) <= u * 10 ^ (8 - pos)) by (split; [|apply Z.mul_le_mono_nonneg_l; [lia|]]; destruct c; cbn [b2z]; nia || lia).
    apply s32_small. lia. }
  destruct Hm as [-> | ->]; cbn [round_digit_of is_half_up Z.eqb andb orb].
  - rewrite (proj2 (Z.ltb_ge 10 y)) by lia. apply (Hc false).
  - rewrite andb_true_r, <- Hc. do 4 f_equal. destruct (Z.ltb_spec 5 y), (Z.eqb_spec y 5), (Z.leb_spec 5 y); done || lia.
Qed.

(** ** Copying *)

(** The words that the result has in front of the point: one more if the first
    word is full. *)
Definition round_intg (d : decimal_t) (f0 : nat) : nat :=
  if (0 <? Z.of_nat (iw d + f0)) && (default 0 (head (buf d)) =? DIG_MAX) then Z.to_nat (ROUND_UP (intg d + 1)) else iw d.

Lemma round_intg_bounds d f0 : valid d -> (iw d <= round_intg d f0 <= S (iw d))%nat /\ (round_intg d f0 <= Z.to_nat (ROUND_UP (intg d + 1)))%nat.
Proof.
  intros Hv. pose proof (v_intg d Hv). pose proof (iw_Z d Hv). pose proof (round_up_spec (intg d) ltac:(done)). pose proof (round_up_spec (intg d + 1) ltac:(lia)).
  unfold round_intg. destruct (_ && _); lia.
Qed.

Lemma copy_words b (i1 n : nat) l : (n <= i1 <= S n)%nat -> (i1 <= length b)%nat -> (1 <= length b)%nat -> length l = n ->
  exists rest b0, set_word b 0 0 = Some b0 /\ store b0 (Z.of_nat i1) l = Some (replicate (i1 - n) 0 ++ l ++ rest) /\ (i1 + length rest = length b)%nat.
Proof.
  intros Hi Hb Hb1 Hl. destruct b as [|w b]; [cbn in Hb1; lia|]. exists (drop i1 (0 :: b)), (0 :: b). split; [done|].
  rewrite store_spec by (cbn [length] in *; lia). rewrite length_drop. cbn [length] in *. split; [|lia]. do 2 f_equal. rewrite Hl.
  destruct (decide (i1 = n)) as [-> |]; [by rewrite Nat.sub_diag|]. replace (i1 - n)%nat with 1%nat by lia. done.
Qed.

Lemma decimal_round_copied d to scale mode : number d -> 0 <= scale < frac d -> ROUND_UP (intg d + 1) + ROUND_UP (frac d) <= len to ->
  let f0 := Z.to_nat (ROUND_UP scale) in
  let i1 := round_intg d f0 in
  exists rest, (i1 + fw d + length rest = length (buf to))%nat /\
    decimal_round d (Some to) scale mode =
    round_words (reverse (words d ++ replicate (i1 - iw d) 0) ++ rest) (Z.of_nat i1 * DIG_PER_DEC1) (sign d) (Z.of_nat i1) (Z.of_nat f0) (Z.of_nat (fw d)) scale E_DEC_OK mode.
Proof.
  intros Hn Hs Hroom f0 i1. pose proof (n_valid d Hn) as Hv. pose proof (v_intg d Hv). pose proof (iw_Z d Hv) as Ei. pose proof (fw_Z d Hv) as Ef.
  destruct (round_intg_bounds d f0 Hv) as [Hi1 Hi2]. fold i1 in Hi1, Hi2. pose proof (round_up_spec (intg d + 1) ltac:(lia)). pose proof (round_up_spec scale ltac:(lia)).
  pose proof (round_up_spec (frac d) ltac:(lia)). pose proof (round_up_spec (intg d) ltac:(lia)). destruct (words_top d Hv) as (_ & first & _ & Eh & _). unfold len in Hroom.
  destruct (copy_words (buf to) (i1 + fw d) (iw d + fw d) (reverse (words d))) as (rest & b0 & Eb & Est & Hl); [lia|lia|lia|rewrite length_reverse; by apply length_words|].
  exists rest. split; [lia|]. unfold decimal_round. rewrite Eh. cbn [mbind option_bind].
  assert ((if 0 <? scale then ROUND_UP scale else Z.quot scale DIG_PER_DEC1) = Z.of_nat f0) as ->.
  { destruct (Z.ltb_spec 0 scale); [unfold f0; lia|]. assert (scale = 0) as -> by lia. done. }
  rewrite Ei, Ef. assert (ROUND_UP (intg d + b2z ((0 <? Z.of_nat (iw d) + Z.of_nat f0) && (first =? DIG_MAX))) = Z.of_nat i1) as ->.
  { unfold i1, round_intg. rewrite Eh, Nat2Z.inj_add. cbn [default from_option id]. destruct (_ && _); cbn [b2z]; [lia|]. by rewrite Z.add_0_r. }
  rewrite (proj2 (Z.ltb_ge (Z.of_nat (length (buf to))) _)) by lia. rewrite (proj2 (Z.ltb_ge (scale + intg d) 0)) by lia. cbn [orb].
  rewrite Eb. cbn [mbind option_bind]. rewrite Z.max_l by lia. rewrite words_all by done. cbn [mbind option_bind]. rewrite <- Nat2Z.inj_add, Est. cbn [mbind option_bind].
  rewrite (proj2 (Z.ltb_ge (Z.of_nat (fw d)) _)) by lia. rewrite (proj2 (Z.leb_gt (frac d) scale)) by lia. rewrite Z.min_l by lia. f_equal.
  rewrite reverse_app, reverse_replicate, <- app_assoc. do 2 f_equal. lia.
Qed.

(** ** The result *)

(** [to'] is [d] rounded. *)
Definition is_rounded (d : decimal_t) (scale : Z) (up : bool) (to' : decimal_t) : Prop :=
  number to' /\ frac to' = scale /\ rval (words to') = 10 ^ (9 * Z.of_nat (fw to') - scale) * rounded_value d scale up /\
  sign to' = sign d && negb (rounded_value d scale up =? 0).

Lemma pow10_unit_pos f0 scale : 0 <= scale -> f0 = Z.to_nat (ROUND_UP scale) -> 0 <= 9 * Z.of_nat f0 - scale <= 8 /\ 0 < 10 ^ (9 * Z.of_nat f0 - scale).
Proof. intros Hs ->. pose proof (round_up_spec scale Hs). split; [lia|apply Z.pow_pos_nonneg; lia]. Qed.

Lemma rounded_zero d scale up (f0 : nat) rest : 0 <= scale -> f0 = Z.to_nat (ROUND_UP scale) -> rounded_value d scale up = 0 ->
  is_rounded d scale up (mkDec 1 scale false (replicate (f0 + 1) 0 ++ rest)).
Proof.
  intros Hs Hf E0. pose proof (round_up_spec scale Hs). destruct (valid_stored 1 scale false (replicate (f0 + 1) 0) rest) as [Hv Hw];
    [lia|done|lia|by apply Forall_replicate|rewrite length_replicate; change (ROUND_UP 1) with 1; lia|]. rewrite reverse_replicate in Hv, Hw. set (d' := mkDec _ _ _ _) in *.
  assert (rval (words d') = 0) as Er by (rewrite Hw; apply rval_replicate). unfold is_rounded. rewrite E0, Er. split; [|split; [done|split; [lia|by rewrite andb_false_r]]].
  split; [done| |rewrite Er; apply precise_zero|done]. unfold whole. rewrite Er. pose proof (Bpow_pos (fw d')). cbn [intg d']. lia.
Qed.

Lemma rounded_nonzero d scale up (f0 : nat) i K T : 0 <= scale -> f0 = Z.to_nat (ROUND_UP scale) -> 0 <= i -> 1 <= i + scale -> Forall (fun w => digit w) K ->
  ROUND_UP i + Z.of_nat f0 = Z.of_nat (length K) -> (exists n, i = n * DIG_PER_DEC1 /\ 0 <= n) \/ rval K < 10 ^ i * B ^ Z.of_nat f0 ->
  rval K = 10 ^ (9 * Z.of_nat f0 - scale) * rounded_value d scale up -> rounded_value d scale up <> 0 ->
  is_rounded d scale up (mkDec i scale (sign d) (reverse K ++ T)).
Proof.
  intros Hs Hf Hi Hone HD Hl Hwh Hv Hne. pose proof (round_up_spec scale Hs). destruct (valid_stored i scale (sign d) K T) as [Hvd Hw]; [done|done|lia|done|lia|].
  set (d' := mkDec _ _ _ _) in *. assert (fw d' = f0) as EF by (unfold fw; cbn; lia). unfold is_rounded. rewrite EF, Hw.
  destruct (pow10_unit_pos f0 scale Hs Hf). split; [|split; [done|split; [done|]]].
  - split; [done| | |].
    + destruct Hwh as [(n & En & Hn)|Hlt]; [by apply (whole_words d' n)|]. unfold whole. by rewrite EF, Hw.
    + rewrite EF, Hw, Hv. apply Z.divide_factor_l.
    + rewrite Hw, Hv. nia.
  - cbn. rewrite (proj2 (Z.eqb_neq _ _)) by done. by rewrite andb_true_r.
Qed.

(** A carry out of the first word. *)
Lemma round_finish_out (f : nat) T sg scale error : (f <= 1)%nat -> 0 <= scale -> (f <= length T)%nat -> (f < length (B :: T))%nat ->
  exists rest, round_finish (B :: T) 0 sg 0 0 (Z.of_nat f) scale error = Some (mkDec 1 scale sg (reverse (replicate f 0 ++ [1]) ++ rest), error).
Proof.
  intros Hf Hs Hl Hlt. unfold round_finish. cbn [length] in Hlt. change (word (B :: T) 0) with (Some B). cbn [mbind option_bind]. rewrite Z.leb_refl.
  change (set_word (B :: T) 0 (B - B)) with (Some (0 :: T)). cbn [mbind option_bind]. 
  rewrite (back_prefix [] (0 :: T) : back (0 :: T) 0 0 = Some []). cbn [mbind option_bind round_carry].
  rewrite (store_prefix [] (0 :: T) [] eq_refl : store (0 :: T) 0 (reverse []) = Some (0 :: T)). cbn [mbind option_bind app Z.eqb negb length]. rewrite (proj2 (Z.leb_gt _ _)) by lia. rewrite Z.max_l by lia. change (0 + Z.of_nat f) with (Z.of_nat f).
  destruct (decide (f = O)) as [-> |Hf1].
  - rewrite (back_prefix [] (0 :: T) : back (0 :: T) 0 (Z.of_nat 0) = Some []). cbn [mbind option_bind].
    rewrite (store_prefix [0] T [1] eq_refl : store (0 :: T) (Z.of_nat 0 + 1) (1 :: reverse []) = Some (1 :: T)). cbn [mbind option_bind app]. exists T.
    change (word (1 :: T) 0) with (Some 1). cbn [mbind option_bind]. change (Z.rem (0 + 1) DIG_PER_DEC1) with 1. cbn [Z.eqb negb andb]. change (power10 1) with 10.
    rewrite (proj2 (Z.leb_gt 10 1)), (proj2 (Z.ltb_ge scale 0)) by lia. done.
  - assert (f = 1%nat) as -> by lia. destruct T as [|t T]; [cbn in Hl; lia|]. 
    rewrite (back_prefix [0] (t :: T) : back (0 :: t :: T) 0 (Z.of_nat 1) = Some [0]). cbn [mbind option_bind].
    rewrite (store_prefix [0; t] T [1; 0] eq_refl : store (0 :: t :: T) (Z.of_nat 1 + 1) (1 :: reverse [0]) = Some (1 :: 0 :: T)). cbn [mbind option_bind app]. exists T.
    change (word (1 :: 0 :: T) 0) with (Some 1). cbn [mbind option_bind]. change (Z.rem (0 + 1) DIG_PER_DEC1) with 1. cbn [Z.eqb negb andb]. change (power10 1) with 10.
    rewrite (proj2 (Z.leb_gt 10 1)), (proj2 (Z.ltb_ge scale 0)) by lia. done.
Qed.

(** No carry out if the first word is not full. *)
Lemma round_no_carry Kl t u v : Forall (fun w => digit w) Kl -> 0 <= t < B - 1 -> 0 < u -> (u | B ^ Z.of_nat (length Kl)) ->
  v <= rval (Kl ++ [t]) / u + 1 -> u * v < B ^ Z.of_nat (length (Kl ++ [t])).
Proof.
  intros HD Ht Hu [k Hk] Hv. rewrite length_app, Nat.add_comm. cbn [length Nat.add]. rewrite Bpow_S. pose proof (rval_bound Kl HD) as Hb.
  rewrite rval_app in Hv. cbn [rval] in Hv. set (p := B ^ Z.of_nat (length Kl)) in *.
  assert ((rval Kl + p * (t + B * 0)) / u < (t + 1) * k) by (apply Z.div_lt_upper_bound; nia). nia.
Qed.

(** The words [K] that are kept, the last one [w] replaced by [w1]. *)
Lemma round_kept d scale mode (i1 f0 : nat) K w1 T : Forall (fun w => digit w) K -> 0 <= w1 <= B -> S (length K) = (i1 + f0)%nat ->
  0 <= scale -> f0 = Z.to_nat (ROUND_UP scale) -> (f0 + 1 <= S (length K) + length T)%nat ->
  rval (w1 :: K) = 10 ^ (9 * Z.of_nat f0 - scale) * rounded_value d scale (is_half_up mode) -> 0 <= rounded_value d scale (is_half_up mode) ->
  rval (w1 :: K) < B ^ Z.of_nat (S (length K)) \/ K = [] /\ i1 = O /\ w1 = B ->
  exists to', round_finish (reverse K ++ w1 :: T) (Z.of_nat i1 * DIG_PER_DEC1) (sign d) (Z.of_nat (length K)) (Z.of_nat i1) (Z.of_nat f0) scale E_DEC_OK = Some (to', E_DEC_OK) /\
    is_rounded d scale (is_half_up mode) to'.
Proof.
  intros HD Hw Hl Hs Hf Hroom Hv Hv0 Hcase. pose proof (round_up_spec scale Hs). destruct (pow10_unit_pos f0 scale Hs Hf) as [_ Hu].
  destruct Hcase as [Hlt|(-> & -> & ->)].
  - destruct (round_finish_spec K w1 T i1 f0 (sign d) scale E_DEC_OK HD Hw Hlt Hs Hroom) as (to' & E & Hto). exists to'.
    split; [rewrite E; by destruct (rval (w1 :: K) =? 0)|]. destruct (Z.eqb_spec (rval (w1 :: K)) 0) as [E0|E0].
    + destruct Hto as [rest ->]. apply rounded_zero; [done|done|]. nia.
    + destruct Hto as (K2 & -> & HD2 & HL2 & HV2). apply (rounded_nonzero d scale _ f0); [done|done|unfold DIG_PER_DEC1; lia|unfold DIG_PER_DEC1; lia|done| | |lia|intros E1; rewrite E1 in Hv; lia].
      * rewrite round_up_words by lia. lia.
      * left. exists (Z.of_nat i1). split; [done|lia].
  - cbn [length] in Hl, Hroom. assert (f0 = 1%nat) as Ef0 by lia. 
    destruct (round_finish_out f0 T (sign d) scale E_DEC_OK) as [rest E]; [lia|done|lia|cbn; lia|]. eexists. split; [exact E|].
    cbn [rval] in Hv. rewrite Ef0 in *. assert (rval (replicate 1 0 ++ [1]) = B) as ER by done.
    apply (rounded_nonzero d scale _ 1 1 (replicate 1 0 ++ [1]) rest); [done|done|lia|lia|repeat (constructor; [done|]); constructor| | |lia|intros E1; rewrite E1 in Hv; unfold DIG_BASE in Hv; lia].
    + change (ROUND_UP 1) with 1. cbn. lia.
    + right. rewrite ER. change (10 ^ 1 * B ^ Z.of_nat 1) with (10 * B). unfold DIG_BASE. lia.
Qed.

(** The first word that is kept is not full. *)
Lemma kept_top d f0 (z : nat) : number d -> z = (round_intg d f0 - iw d)%nat -> (f0 <= fw d)%nat -> (1 <= round_intg d f0 + f0)%nat ->
  exists Kl t, drop (fw d - f0) (words d ++ replicate z 0) = Kl ++ [t] /\ 0 <= t < B - 1 /\ S (length Kl) = (round_intg d f0 + f0)%nat /\ Forall (fun w => digit w) Kl.
Proof.
  intros Hn Hz Hf Hone. pose proof (n_valid d Hn) as Hv. destruct (round_intg_bounds d f0 Hv) as [Hi _]. pose proof (length_words d Hv) as Lw.
  destruct (words_top d Hv) as (l & w & Ew & Eh & Dw & Ll & Dl). unfold round_intg in *. rewrite Eh in *. cbn [default from_option id] in *.
  destruct (decide (z = O)) as [Ez|Ez].
  - rewrite Ez. cbn [replicate]. rewrite app_nil_r, Ew, drop_app_le by (destruct (_ && _); lia). exists (drop (fw d - f0) l), w. split; [done|]. rewrite length_drop.
    split; [|split; [destruct (_ && _); lia|by apply Forall_drop]]. split; [lia|]. destruct (Z.ltb_spec 0 (Z.of_nat (iw d + f0))); cbn [andb] in *; [|lia].
    destruct (Z.eqb_spec w DIG_MAX) as [E|E]; [|unfold DIG_MAX in E; lia]. pose proof (v_intg d Hv). pose proof (round_up_spec (intg d) ltac:(done)). pose proof (iw_Z d Hv).
    pose proof (round_up_spec (intg d + 1) ltac:(lia)). assert (intg d < 9 * Z.of_nat (iw d)) as Hlt by lia.
    destruct (decide (1 <= iw d)%nat) as [Hi1|Hi1]; [|lia]. pose proof (top_word_full d w Hn Eh Hi1 ltac:(rewrite E; done)). lia.
  - assert (z = 1%nat) as -> by (destruct (_ && _); lia). cbn [replicate]. exists (drop (fw d - f0) (words d)), 0. rewrite drop_app_le by (destruct (_ && _); lia).
    split; [done|]. split; [done|]. rewrite length_drop. split; [destruct (_ && _); lia|apply Forall_drop, (v_words d Hv)].
Qed.

(** The words of [d] as [D], which are left out, and [K], which are kept. *)
Lemma split_words d f0 (z : nat) : number d -> (f0 <= fw d)%nat -> let N := words d ++ replicate z 0 in
  let D := take (fw d - f0) N in let K := drop (fw d - f0) N in
  N = D ++ K /\ Forall (fun w => digit w) D /\ length D = (fw d - f0)%nat /\ rval (words d) = rval D + B ^ Z.of_nat (length D) * rval K /\
  forall scale, scale <= 9 * Z.of_nat f0 -> 10 ^ (9 * Z.of_nat (fw d) - scale) = B ^ Z.of_nat (length D) * 10 ^ (9 * Z.of_nat f0 - scale).
Proof.
  intros Hn Hf N D K. pose proof (n_valid d Hn) as Hv. pose proof (length_words d Hv) as Lw.
  assert (length D = fw d - f0)%nat as LD by (unfold D, N; rewrite length_take, length_app; lia).
  assert (Forall (fun w => digit w) N) as DN by (apply Forall_app; split; [apply (v_words d Hv)|by apply Forall_replicate]).
  split; [symmetry; apply take_drop|]. split; [by apply Forall_take|]. split; [done|]. split.
  - transitivity (rval N); [unfold N; rewrite rval_app, rval_replicate; lia|]. rewrite LD. apply rval_split. unfold N. rewrite length_app. lia.
  - intros scale Hs. rewrite LD, <- pow10_words by lia. rewrite <- Z.pow_add_r by (unfold DIG_PER_DEC1; lia). f_equal. unfold DIG_PER_DEC1. lia.
Qed.

Lemma rounded_value_nonneg d scale up : valid d -> scale <= 9 * Z.of_nat (fw d) -> 0 <= rounded_value d scale up.
Proof.
  intros Hv Hs. unfold rounded_value. pose proof (rval_nonneg d Hv). assert (0 < 10 ^ (9 * Z.of_nat (fw d) - scale)) by (apply Z.pow_pos_nonneg; lia).
  pose proof (Z.div_pos (rval (words d)) (10 ^ (9 * Z.of_nat (fw d) - scale)) ltac:(lia) ltac:(lia)). destruct (_ && _); cbn [b2z]; lia.
Qed.

(** Rounding within the last word that is kept. *)
Lemma round_inner d scale mode (i1 f0 : nat) rest : number d -> mode = TRUNCATE \/ mode = HALF_UP -> 0 <= scale < frac d -> f0 = Z.to_nat (ROUND_UP scale) ->
  i1 = round_intg d f0 -> scale <> 9 * Z.of_nat f0 -> (1 <= i1 + length rest)%nat ->
  exists to', round_words (reverse (words d ++ replicate (i1 - iw d) 0) ++ rest) (Z.of_nat i1 * DIG_PER_DEC1) (sign d) (Z.of_nat i1) (Z.of_nat f0) (Z.of_nat (fw d)) scale E_DEC_OK mode =
    Some (to', E_DEC_OK) /\ is_rounded d scale (is_half_up mode) to'.
Proof.
  intros Hn Hmode Hs Hf0 Hi1 Hne Hroom. pose proof (n_valid d Hn) as Hv. pose proof (round_up_spec scale ltac:(lia)). pose proof (round_up_spec (frac d) ltac:(lia)). pose proof (fw_Z d Hv).
  destruct (split_words d f0 (i1 - iw d) Hn ltac:(lia)) as (EN & HD & LD & Ev & Eu). destruct (kept_top d f0 (i1 - iw d) Hn ltac:(lia) ltac:(lia) ltac:(lia)) as (Kl & t & EK & Ht & LK & HK).
  set (D := take _ _) in *. rewrite EK in *. destruct (pow10_unit_pos f0 scale ltac:(lia) Hf0) as [Hj Hu]. specialize (Eu scale ltac:(lia)). set (u := 10 ^ (9 * Z.of_nat f0 - scale)) in *.
  assert (B = 10 ^ (9 - (9 * Z.of_nat f0 - scale)) * u) as EB by (unfold u; rewrite <- Z.pow_add_r by lia; change B with (10 ^ 9); f_equal; lia). set (k := 10 ^ (9 - (9 * Z.of_nat f0 - scale))) in *.
  destruct (Kl ++ [t]) as [|w K'] eqn:EKw; [by destruct Kl|]. assert (Forall (fun w => digit w) (w :: K')) as DK by (rewrite <- EKw; apply Forall_app; split; [done|constructor; [lia|constructor]]).
  apply Forall_cons in DK as DK'. destruct DK' as [Dw DK']. assert (length (Kl ++ [t]) = length (w :: K')) as LKw by (by rewrite EKw). rewrite length_app in LKw. cbn [length] in LKw.
  assert (rval (w :: K') mod u = w mod u) as Em by (cbn [rval]; rewrite EB at 1; replace (w + k * u * rval K') with (w + (k * rval K') * u) by lia; by rewrite Z.mod_add by lia).
  assert (rval (w :: K') / u = w / u + k * rval K') as Eq by (cbn [rval]; rewrite EB at 1; replace (w + k * u * rval K') with (w + (k * rval K') * u) by lia; by rewrite Z.div_add by lia).
  pose proof (rounded_value_split d scale (is_half_up mode) D (w :: K') u Ev HD Hu Eu) as ER. rewrite Em, Eq in ER.
  set (w1 := u * (w / u + b2z (is_half_up mode && (u <=? 2 * (w mod u))))).
  assert ((B ^ Z.of_nat (length D) * u <=? 2 * (rval D + B ^ Z.of_nat (length D) * (w mod u))) = (u <=? 2 * (w mod u))) as Eh.
  { pose proof (rval_bound D HD) as HbD. pose proof (Bpow_pos (length D)) as Hp. set (p := B ^ Z.of_nat (length D)) in *. assert (exists h, u = 2 * h) as [h Eh2].
    { exists (5 * 10 ^ (9 * Z.of_nat f0 - scale - 1)). unfold u. replace (9 * Z.of_nat f0 - scale) with (1 + (9 * Z.of_nat f0 - scale - 1)) at 1 by lia. rewrite Z.pow_add_r by lia. lia. }
    clear -Eh2 HbD Hp. rewrite Eh2. set (m := w mod (2 * h)). clearbody m p. destruct (Z.leb_spec (2 * h) (2 * m)) as [Hc|Hc]; [apply Z.leb_le|apply Z.leb_gt].
    - pose proof (Z.mul_le_mono_nonneg_l h m p ltac:(lia) ltac:(lia)). lia.
    - pose proof (Z.mul_le_mono_nonneg_l (m + 1) h p ltac:(lia) ltac:(lia)). lia. }
  rewrite Eh in ER. assert (rval (w1 :: K') = u * rounded_value d scale (is_half_up mode)) as EV by (rewrite ER; unfold w1; cbn [rval]; rewrite EB at 1; lia).
  unfold round_words. change DIG_PER_DEC1 with 9. rewrite (proj2 (Z.eqb_neq scale _)) by lia. rewrite bind_assert by (apply Z.ltb_lt; lia).
  rewrite EN, reverse_app, reverse_cons, <- !app_assoc. cbn [app]. set (P := reverse K'). assert (Z.of_nat i1 + Z.of_nat f0 - 1 = Z.of_nat (length P)) as -> by (unfold P; rewrite length_reverse; lia).
  rewrite word_at. cbn [mbind option_bind]. rewrite set_word_at. cbn [mbind option_bind]. rewrite (proj2 (Z.ltb_ge (Z.of_nat f0) 0)) by lia. cbn [andb mbind option_bind].
  rewrite (round_within_spec w (Z.of_nat f0 * 9 - scale - 1) mode (sign d)) by (done || lia). replace (Z.of_nat f0 * 9 - scale - 1 + 1) with (9 * Z.of_nat f0 - scale) by lia. fold u. fold w1.
  unfold P. rewrite length_reverse. change 9 with DIG_PER_DEC1 at 1.
  assert (0 <= b2z (is_half_up mode && (u <=? 2 * (w mod u))) <= 1) as Hb01 by (destruct (_ && _); cbn; lia). set (bb := b2z (is_half_up mode && _)) in *.
  assert (0 <= w / u <= k - 1) as Hwu by (split; [apply Z.div_pos; lia|]; enough (w / u < k) by lia; apply Z.div_lt_upper_bound; lia).
  assert (0 <= w1 <= B) as Hw1 by (unfold w1; rewrite EB; clear -Hb01 Hwu Hu; split; [apply Z.mul_nonneg_nonneg; lia|]; rewrite (Z.mul_comm k u); apply Z.mul_le_mono_nonneg_l; lia).
  apply round_kept; [done|done|lia|lia|done|rewrite length_app; lia|done|apply rounded_value_nonneg; [done|lia]|].
  destruct Kl as [|w' Kl'].
  - cbn [length app] in *. injection EKw as -> <-. destruct (decide (w1 = B)) as [E|E]; [right; repeat split; lia|left]. cbn [rval length] in *. rewrite Bpow_S. change (B ^ Z.of_nat 0) with 1. lia.
  - left. rewrite EV. replace (S (length K')) with (length ((w' :: Kl') ++ [t])) by (rewrite length_app; cbn [length] in *; lia). apply round_no_carry; [done|done|done| |rewrite EKw, Eq, ER; lia].
    cbn [length]. rewrite Bpow_S, EB. exists (k * (k * u) ^ Z.of_nat (length Kl')). lia.
Qed.

(** Rounding between two words, where none is kept. *)
Lemma round_outer_none d mode D wd (f1 : Z) rest : Forall (fun w => digit w) (D ++ [wd]) -> mode = TRUNCATE \/ mode = HALF_UP ->
  rounded_value d 0 (is_half_up mode) = b2z (is_half_up mode && (B ^ Z.of_nat (length (D ++ [wd])) * 1 <=? 2 * (rval (D ++ [wd]) + B ^ Z.of_nat (length (D ++ [wd])) * (0 mod 1)))) ->
  exists to', round_words (wd :: reverse D ++ rest) 0 (sign d) 0 0 f1 0 E_DEC_OK mode = Some (to', E_DEC_OK) /\ is_rounded d 0 (is_half_up mode) to'.
Proof.
  intros HD Hm ER. unfold round_words. change (0 =? 0 * DIG_PER_DEC1) with true. rewrite bind_assert by done. change (0 + 0 - 1) with (-1).
  rewrite (round_between_spec [] 0 D wd rest 0 f1 0 mode (sign d) Hm HD : round_between (wd :: reverse D ++ rest) (-1) 0 f1 0 _ mode = _). cbn [mbind option_bind].
  destruct (is_half_up mode && _); cbn [b2z Z.ltb Z.eqb Z.compare Z.add Z.opp mbind option_bind andb] in *.
  - change (set_word (wd :: reverse D ++ rest) 0 B) with (Some (B :: reverse D ++ rest)). cbn [mbind option_bind Z.ltb Z.compare andb].
    destruct (round_finish_out 0 (reverse D ++ rest) (sign d) 0 E_DEC_OK) as [rest' E]; [lia|lia|lia|cbn; lia|]. eexists. split; [exact E|]. cbn [replicate app].
    apply (rounded_nonzero d 0 _ 0 1 [1] rest'); [done|done|done|done|by repeat constructor|done|right; done|by rewrite ER|by rewrite ER].
  - eexists. split; [done|]. unfold decimal_make_zero. cbn [buf]. apply (rounded_zero d 0 _ 0 (reverse D ++ rest)); [done|done|exact ER].
Qed.

(** Rounding between two words. *)
Lemma round_outer d scale mode (i1 f0 : nat) rest : number d -> mode = TRUNCATE \/ mode = HALF_UP -> 0 <= scale < frac d -> f0 = Z.to_nat (ROUND_UP scale) ->
  i1 = round_intg d f0 -> scale = 9 * Z.of_nat f0 ->
  exists to', round_words (reverse (words d ++ replicate (i1 - iw d) 0) ++ rest) (Z.of_nat i1 * DIG_PER_DEC1) (sign d) (Z.of_nat i1) (Z.of_nat f0) (Z.of_nat (fw d)) scale E_DEC_OK mode =
    Some (to', E_DEC_OK) /\ is_rounded d scale (is_half_up mode) to'.
Proof.
  intros Hn Hmode Hs Hf0 Hi1 Es. pose proof (n_valid d Hn) as Hv. pose proof (round_up_spec scale ltac:(lia)). pose proof (round_up_spec (frac d) ltac:(lia)). pose proof (fw_Z d Hv).
  destruct (split_words d f0 (i1 - iw d) Hn ltac:(lia)) as (EN & HD & LD & Ev & Eu). specialize (Eu scale ltac:(lia)).
  replace (9 * Z.of_nat f0 - scale) with 0 in Eu by lia. change (10 ^ 0) with 1 in Eu. destruct (round_intg_bounds d f0 Hv) as [Hib _].
  set (K := drop (fw d - f0) _) in *. set (D := take _ _) in *. pose proof (rounded_value_split d scale (is_half_up mode) D K 1 Ev HD ltac:(lia) Eu) as ER. rewrite Z.div_1_r in ER.
  assert (length K = i1 + f0)%nat as LK by (unfold K; rewrite length_drop, length_app, length_replicate, length_words by done; lia).
  destruct (exists_last (l := D)) as (D' & wd & ED); [intros E; rewrite E in LD; cbn in LD; lia|]. rewrite ED in *. clear D ED. rewrite EN, reverse_app, reverse_snoc, <- app_assoc. cbn [app].
  destruct (decide (i1 + f0 = 0)%nat) as [E0|E0].
  - assert (K = []) as EK by (apply nil_length_inv; lia). rewrite EK in *. assert (i1 = O /\ f0 = O) as [-> ->] by lia. rewrite Es in *. apply round_outer_none; [done|done|exact ER].
  - destruct (kept_top d f0 (i1 - iw d) Hn ltac:(lia) ltac:(lia) ltac:(lia)) as (Kl & t & EK & Ht & LKl & HK). fold K in EK.
    pose proof (round_between_spec (reverse K) (rval K) D' wd rest (Z.of_nat f0) (Z.of_nat (fw d)) (Z.of_nat i1) mode (sign d) Hmode HD) as ERB.
    set (inc := is_half_up mode && _) in *. rewrite length_reverse, LK in ERB. unfold round_words. change DIG_PER_DEC1 with 9. rewrite (proj2 (Z.eqb_eq scale _)) by lia.
    rewrite bind_assert by (apply Z.leb_le; lia). rewrite (Z.add_comm (Z.of_nat f0)), <- !Nat2Z.inj_add, ERB. cbn [mbind option_bind].
    assert (Forall (fun w => digit w) K) as DK by (rewrite EK; apply Forall_app; split; [done|constructor; [lia|constructor]]).
    destruct K as [|w K'] eqn:EKw; [cbn in LK; lia|]. apply Forall_cons in DK as [Dw DK']. cbn [length] in LK. rewrite reverse_cons, <- app_assoc. cbn [app].
    assert (Z.of_nat (i1 + f0) - 1 = Z.of_nat (length (reverse K'))) as -> by (rewrite length_reverse; lia).
    set (w1 := w + b2z inc). match goal with |- context [mbind _ ?r] => assert (r = Some (Some (reverse K' ++ w1 :: wd :: reverse D' ++ rest, Z.of_nat (length (reverse K'))))) as -> end.
    { unfold w1. destruct inc; cbn [b2z].
      - rewrite (proj2 (Z.ltb_lt _ _)) by lia. rewrite word_at. cbn [mbind option_bind]. by rewrite set_word_at.
      - rewrite (proj2 (Z.eqb_neq _ _)) by lia. by rewrite Z.add_0_r. }
    cbn [mbind option_bind]. rewrite (proj2 (Z.ltb_ge (Z.of_nat f0) 0)) by lia. cbn [andb mbind option_bind]. rewrite length_reverse.
    assert (0 <= b2z inc <= 1) as Hb by (destruct inc; cbn; lia).
    assert (rval (w1 :: K') = 10 ^ (9 * Z.of_nat f0 - scale) * rounded_value d scale (is_half_up mode)) as EV
      by (rewrite ER; replace (9 * Z.of_nat f0 - scale) with 0 by lia; change (10 ^ 0) with 1; unfold w1; cbn [rval]; lia).
    apply round_kept; [done|unfold w1; lia|lia|lia|done|cbn [length]; lia|exact EV|apply rounded_value_nonneg; [done|lia]|]. left.
    rewrite EV. replace (9 * Z.of_nat f0 - scale) with 0 by lia. change (10 ^ 0) with 1.
    replace (S (length K')) with (length (Kl ++ [t])) by (by rewrite <- EK). apply round_no_carry; [done|done|lia|apply Z.divide_1_l|]. rewrite ER, <- EK, Z.div_1_r. lia.
Qed.

(** ** The theorem *)

(** C18: [decimal_round] with [TRUNCATE] or [HALF_UP] of a number to fewer digits
    after the point, into another decimal with room for the words of the number
    and one more digit: no error, and the result is exactly the number cut off
    or rounded half away from zero at that digit, through every carry, with its
    sign unless it is zero, and is itself a number with exactly [scale] digits
    after the point. *)
Theorem decimal_round_exact d to scale mode : number d -> mode = TRUNCATE \/ mode = HALF_UP -> 0 <= scale < frac d ->
  ROUND_UP (intg d + 1) + ROUND_UP (frac d) <= len to ->
  exists to', decimal_round d (Some to) scale mode = Some (to', E_DEC_OK) /\ is_rounded d scale (is_half_up mode) to'.
Proof.
  intros Hn Hm Hs Hroom. destruct (decimal_round_copied d to scale mode Hn Hs Hroom) as (rest & Hl & ->). pose proof (n_valid d Hn) as Hv. pose proof (v_intg d Hv).
  pose proof (round_up_spec (intg d + 1) ltac:(lia)). pose proof (round_up_spec scale ltac:(lia)). pose proof (round_up_spec (frac d) ltac:(lia)). pose proof (fw_Z d Hv).
  destruct (decide (scale = 9 * Z.of_nat (Z.to_nat (ROUND_UP scale)))) as [E|E]; [by apply round_outer|]. apply round_inner; [done|done|done|done|done|done|].
  destruct (round_intg_bounds d (Z.to_nat (ROUND_UP scale)) Hv) as [_ Hb]. unfold len in Hroom. lia.
Qed.

Lemma decimal_round_exact_witness :
  number (mkDec 9 3 true [999999999; 995000000]) /\
  decimal_round (mkDec 9 3 true [999999999; 995000000]) (Some (mkDec 0 0 false [7; 7; 7])) 2 HALF_UP = Some (mkDec 18 2 true [1; 0; 0], E_DEC_OK) /\
  exists to', decimal_round (mkDec 9 3 true [999999999; 995000000]) (Some (mkDec 0 0 false [7; 7; 7])) 2 HALF_UP = Some (to', E_DEC_OK) /\
    is_rounded (mkDec 9 3 true [999999999; 995000000]) 2 true to'.
Proof.
  assert (number (mkDec 9 3 true [999999999; 995000000])) as Hn.
  { split; [split; cbn; try lia; repeat (constructor; [unfold DIG_BASE; lia|]); constructor|vm_compute; congruence| |discriminate]. exists 999999999995. reflexivity. }
  split; [exact Hn|]. split; [vm_compute; reflexivity|]. apply (decimal_round_exact _ _ 2 HALF_UP Hn); [by right|cbn; lia|vm_compute; congruence].
Defined.

(** More digits after the point: the number is copied, and zeros are appended. *)
Lemma decimal_round_widened d to scale mode : number d -> frac d <= scale -> ROUND_UP (intg d + 1) + ROUND_UP scale <= len to ->
  Z.of_nat (iw d) + ROUND_UP scale <= len d -> let f0 := Z.to_nat (ROUND_UP scale) in let i1 := round_intg d f0 in
  exists rest, decimal_round d (Some to) scale mode =
    Some (mkDec (Z.of_nat i1 * DIG_PER_DEC1) scale (sign d) (reverse (replicate (f0 - fw d) 0 ++ words d ++ replicate (i1 - iw d) 0) ++ rest), E_DEC_OK).
Proof.
  intros Hn Hs Hroom Hd f0 i1. pose proof (n_valid d Hn) as Hv. pose proof (v_intg d Hv). pose proof (v_frac d Hv). pose proof (v_room d Hv). pose proof (iw_Z d Hv) as Ei. pose proof (fw_Z d Hv) as Ef.
  destruct (round_intg_bounds d f0 Hv) as [Hi1 Hi2]. fold i1 in Hi1, Hi2. pose proof (round_up_spec (intg d + 1) ltac:(lia)). pose proof (round_up_spec scale ltac:(lia)).
  pose proof (round_up_spec (frac d) ltac:(lia)). pose proof (round_up_spec (intg d) ltac:(lia)). destruct (words_top d Hv) as (_ & first & _ & Eh & _). unfold len in Hroom, Hd.
  assert (ROUND_UP scale = Z.of_nat f0) as Es by (unfold f0; lia).
  destruct (copy_words (buf to) (i1 + f0) (iw d + f0) (take (iw d + f0) (buf d))) as (rest & b0 & Eb & Est & Hl); [lia|lia|lia|rewrite length_take; lia|].
  exists rest. unfold decimal_round. rewrite Eh. cbn [mbind option_bind].
  assert ((if 0 <? scale then ROUND_UP scale else Z.quot scale DIG_PER_DEC1) = Z.of_nat f0) as ->.
  { destruct (Z.ltb_spec 0 scale); [done|]. assert (scale = 0) as -> by lia. done. }
  rewrite Ei, Ef. assert (ROUND_UP (intg d + b2z ((0 <? Z.of_nat (iw d) + Z.of_nat f0) && (first =? DIG_MAX))) = Z.of_nat i1) as ->.
  { unfold i1, round_intg. rewrite Eh, Nat2Z.inj_add. cbn [default from_option id]. destruct (_ && _); cbn [b2z]; [lia|]. by rewrite Z.add_0_r. }
  rewrite (proj2 (Z.ltb_ge (Z.of_nat (length (buf to))) _)) by lia. rewrite (proj2 (Z.ltb_ge (scale + intg d) 0)) by lia. cbn [orb].
  rewrite Eb. cbn [mbind option_bind]. rewrite Z.max_r by lia.
  rewrite <- !Nat2Z.inj_add. unfold back. rewrite (proj2 (Z.leb_le 0 0)), (proj2 (Z.leb_le 0 (Z.of_nat _))), (proj2 (Z.leb_le (Z.of_nat _) _)) by lia. cbn [andb mbind option_bind].
  change (Z.to_nat 0) with O. rewrite drop_0, Z.sub_0_r, Nat2Z.id, reverse_involutive, Est. cbn [mbind option_bind]. rewrite Z.min_l by lia.
  assert (take (iw d + f0) (buf d) = reverse (words d) ++ take (f0 - fw d) (drop (iw d + fw d) (buf d))) as Et.
  { unfold words. rewrite reverse_involutive. replace (iw d + f0)%nat with ((iw d + fw d) + (f0 - fw d))%nat by lia. symmetry. apply take_take_drop. }
  pose proof (length_words d Hv) as Lw. rewrite !reverse_app, !reverse_replicate.
  destruct (Z.ltb_spec (Z.of_nat (fw d)) (Z.of_nat f0)).
  - rewrite <- Nat2Z.inj_sub, <- Nat2Z.inj_add, Nat2Z.id by lia. rewrite store_spec by (rewrite ?length_replicate, ?length_app, ?length_replicate, ?length_take; lia). cbn [mbind option_bind].
    apply (f_equal Some), (f_equal (fun l => (mkDec _ _ _ l, E_DEC_OK))). rewrite length_replicate, Et. set (X := take (f0 - fw d) _). assert (length X = f0 - fw d)%nat as LX by (unfold X; rewrite length_take, length_drop; lia).
    replace (replicate (i1 - iw d + (iw d + f0 - (iw d + f0))) 0) with (replicate (i1 - iw d) 0) by (f_equal; lia).
    replace (replicate (i1 + f0 - (iw d + f0)) 0) with (replicate (i1 - iw d) 0) by (f_equal; lia). rewrite <- !app_assoc, !(app_assoc (replicate _ 0) (reverse (words d))).
    set (Y := replicate (i1 - iw d) 0 ++ reverse (words d)). assert (length Y = i1 + fw d)%nat as LY by (unfold Y; rewrite length_app, length_replicate, length_reverse; lia).
    rewrite take_app_le, take_ge by lia. rewrite drop_app_ge, drop_app_ge by lia. rewrite LX, LY. replace (i1 + f0 - (i1 + fw d) - (f0 - fw d))%nat with O by lia. by rewrite drop_0.
  - assert (f0 = fw d) as Ef0 by lia. rewrite (proj2 (Z.leb_le (frac d) scale)) by lia. apply (f_equal Some), (f_equal (fun l => (mkDec _ _ _ l, E_DEC_OK))). rewrite Et, Ef0, Nat.sub_diag, take_0, !app_nil_r, <- app_assoc. f_equal. f_equal. lia.
Qed.

(** [decimal_round] to at least as many digits after the point keeps the value. *)
Theorem decimal_round_widens d to scale mode : number d -> frac d <= scale -> ROUND_UP (intg d + 1) + ROUND_UP scale <= len to ->
  Z.of_nat (iw d) + ROUND_UP scale <= len d ->
  exists to', decimal_round d (Some to) scale mode = Some (to', E_DEC_OK) /\ number to' /\ frac to' = scale /\ sign to' = sign d /\ (fw d <= fw to')%nat /\
    rval (words to') = B ^ Z.of_nat (fw to' - fw d) * rval (words d).
Proof.
  intros Hn Hs Hroom Hd. destruct (decimal_round_widened d to scale mode Hn Hs Hroom Hd) as (rest & E). eexists. split; [exact E|]. clear E. pose proof (n_valid d Hn) as Hv.
  pose proof (v_intg d Hv). pose proof (v_frac d Hv). pose proof (round_up_spec scale ltac:(lia)). pose proof (round_up_spec (frac d) ltac:(lia)). pose proof (fw_Z d Hv).
  set (f0 := Z.to_nat (ROUND_UP scale)). destruct (round_intg_bounds d f0 Hv) as [Hi _]. set (i1 := round_intg d f0) in *. set (N := replicate (f0 - fw d) 0 ++ words d ++ replicate (i1 - iw d) 0).
  assert (Forall (fun w => digit w) N) as DN by (unfold N; rewrite !Forall_app; split; [by apply Forall_replicate|split; [apply (v_words d Hv)|by apply Forall_replicate]]).
  assert (rval N = B ^ Z.of_nat (f0 - fw d) * rval (words d)) as VN by (unfold N; rewrite !rval_app, !rval_replicate, length_replicate; lia).
  pose proof (length_words d Hv) as Lw. pose proof (v_some d Hv). pose proof (iw_Z d Hv). pose proof (round_up_spec (intg d) ltac:(lia)).
  assert (length N = i1 + f0)%nat as LN by (unfold N; rewrite !length_app, !length_replicate; lia).
  destruct (valid_stored (Z.of_nat i1 * DIG_PER_DEC1) scale (sign d) N rest) as [Hvd Hw]; [unfold DIG_PER_DEC1; lia|lia|unfold DIG_PER_DEC1; lia|done|rewrite round_up_words by lia; lia|].
  set (d' := mkDec _ _ _ _) in *. assert (fw d' = f0) as EF by done. rewrite EF. split; [|split; [done|split; [done|split; [lia|by rewrite Hw]]]].
  split; [done|apply (whole_words d' (Z.of_nat i1)); [done|done|lia]| |].
  - rewrite EF, Hw, VN. destruct (n_frac d Hn) as [q Eq]. unfold precise. rewrite Eq, <- pow10_words by lia. exists (q * 10 ^ (scale - frac d)). cbn [frac d'].
    replace (10 ^ (Z.of_nat (f0 - fw d) * DIG_PER_DEC1) * (q * 10 ^ (9 * Z.of_nat (fw d) - frac d))) with (q * (10 ^ (Z.of_nat (f0 - fw d) * DIG_PER_DEC1) * 10 ^ (9 * Z.of_nat (fw d) - frac d))) by lia.
    rewrite <- Z.mul_assoc, <- !Z.pow_add_r by (unfold DIG_PER_DEC1; lia). do 2 f_equal. unfold DIG_PER_DEC1. lia.
  - rewrite Hw, VN. intros E0. apply (n_zero d Hn). pose proof (Bpow_pos (f0 - fw d)). nia.
Qed.

(** Where the function does not do what it says. *)

(** Rounding in place loses the first word if it is 999999999. *)
Lemma decimal_round_in_place_loses : decimal_round (mkDec 9 1 false [999999999; 500000000; 0]) None 0 HALF_UP = Some (mkDec 18 0 false [0; 1; 500000000], E_DEC_OK).
Proof. vm_compute. reflexivity. Qed.

(** [HALF_EVEN] looks at one digit only: 2.51 becomes 2. *)
Lemma decimal_round_half_even_digit : decimal_round (mkDec 1 2 false [2; 510000000]) (Some (mkDec 0 0 false [0; 0; 0])) 0 HALF_EVEN = Some (mkDec 9 0 false [2; 510000000; 0], E_DEC_OK).
Proof. vm_compute. reflexivity. Qed.

(** [CEILING] looks at one digit only within a word: 0.001 becomes 0.0. *)
Lemma decimal_round_ceiling_digit : decimal_round (mkDec 1 3 false [0; 1000000]) (Some (mkDec 0 0 false [0; 0; 0])) 1 CEILING = Some (mkDec 1 1 false [0; 0; 0], E_DEC_OK).
Proof. vm_compute. reflexivity. Qed.

(** The room for a carry is not checked before the words are copied. *)
Lemma decimal_round_overflow : decimal_round (mkDec 9 1 false [999999999; 500000000]) (Some (mkDec 0 0 false [0; 0])) 0 HALF_UP = None.
Proof. vm_compute. reflexivity. Qed.

(** With more words after the point than the number has, words behind its end are
    read. *)
Lemma decimal_round_reads_behind : decimal_round (mkDec 1 1 false [1; 500000000]) (Some (mkDec 0 0 false [0; 0; 0])) 18 HALF_UP = None.
Proof. vm_compute. reflexivity. Qed.
