(* ===== verification/DecimalDiv.v ===== *)
(** * Division of exact decimals (strings/decimal.c: [do_div_mod])

    Long division of the words with a guess for each word of the quotient from
    the first words of the remainder and the divisor (Knuth's Algorithm D), and
    the remainder that is left when only the words before the point of the
    quotient are computed. *)

From stdpp Require Import base numbers list.
From Stdlib Require Import ZArith Lia.
From S2P Require Import Prelude Decimal DecimalArith DecimalSub DecimalMul DecimalInt DecimalBin DecimalPack.

Local Open Scope Z_scope.

(** ** The functions *)

Definition E_DEC_DIV_ZERO : Z := 4.

Definition SUB2 (from1 from2 carry : Z) : Z * Z :=
  let a := s32 (from1 - from2 - carry) in
  let '(a, carry) := if a <? 0 then (a + DIG_BASE, 1) else (a, 0) in
  if a <? 0 then (a + DIG_BASE, carry + 1) else (a, carry).

(** [guess] times the divisor, taken from the remainder; the words from the end. *)
Fixpoint mul_sub (guess : Z) (buf2 buf1 : list Z) (carry : Z) : option (list Z * Z) :=
  match buf2, buf1 with
  | [], _ => Some (buf1, carry)
  | y :: buf2, r :: buf1 =>
      let x := guess * y in
      let hi := Z.quot x DIG_BASE in
      let lo := x - hi * DIG_BASE in
      let '(a, carry) := SUB2 r lo carry in
      '(l, carry) ← mul_sub guess buf2 buf1 (carry + hi);
      Some (a :: l, carry)
  | _ :: _, [] => None
  end.

(** The divisor added back; the last carry is dropped. *)
Fixpoint add_back (buf2 buf1 : list Z) (carry : Z) : option (list Z) :=
  match buf2, buf1 with
  | [], _ => Some buf1
  | y :: buf2, r :: buf1 => let '(a, carry) := ADD r y carry in l ← add_back buf2 buf1 carry; Some (a :: l)
  | _ :: _, [] => None
  end.

(** [if (start2[1] * guess > (x - guess * start2[0]) * DIG_BASE + y)] *)
Definition too_large (start2_0 start2_1 guess x y : Z) : bool := s64 ((x - guess * start2_0) * DIG_BASE + y) <? start2_1 * guess.

(** D3: make a guess *)
Definition make_guess (start2 : list Z) (norm_factor norm2 dcarry s0 y : Z) : option Z :=
  start2_0 ← head start2;
  let x := s0 + dcarry * DIG_BASE in
  let guess := Z.quot (s64 (norm_factor * x + Z.quot (norm_factor * y) DIG_BASE)) norm2 in
  let guess := if DIG_BASE <=? guess then DIG_BASE - 1 else guess in
  match start2 !! 1%nat with
  | None => Some guess
  | Some start2_1 =>
      let guess := if too_large start2_0 start2_1 guess x y then guess - 1 else guess in
      let guess := if too_large start2_0 start2_1 guess x y then guess - 1 else guess in
      _ ← assert_that (negb (too_large start2_0 start2_1 guess x y));
      Some guess
  end.

(** The body of the main loop: the word of the quotient, and what is left from
    [start1] on.  [start2] are the words of the divisor. *)
Definition div_step (start2 : list Z) (norm_factor norm2 dcarry : Z) (start1 : list Z) : option (Z * list Z) :=
  start2_0 ← head start2;
  s0 ← head start1;
  if (dcarry =? 0) && (s0 <? start2_0) then Some (0, start1)
  else
    y ← start1 !! 1%nat;
    guess ← make_guess start2 norm_factor norm2 dcarry s0 y;
    let n := length start2 in
    _ ← assert_that (n <=? length start1)%nat;
    (* D4: multiply and subtract *)
    '(w, carry) ← mul_sub guess (reverse start2) (reverse (take n start1)) 0;
    (* D5: check the remainder *)
    if dcarry <? carry then
      (* D6: correct the guess *)
      w ← add_back (reverse start2) w 0;
      Some (guess - 1, reverse w ++ drop n start1)
    else Some (guess, reverse w ++ drop n start1).

(** The main loop, [n] times: the words of the quotient, [dcarry] and what is left
    from [start1] on. *)
Fixpoint div_loop (n : nat) (start2 : list Z) (norm_factor norm2 dcarry : Z) (start1 : list Z) : option (list Z * Z * list Z) :=
  match n with
  | O => Some ([], dcarry, start1)
  | S n =>
      '(guess, start1) ← div_step start2 norm_factor norm2 dcarry start1;
      match start1 with
      | [] => None
      | dcarry :: start1 =>
          '(q, dcarry, start1) ← div_loop n start2 norm_factor norm2 dcarry start1;
          Some (guess :: q, dcarry, start1)
      end
  end.

(** The words of a number without the leading zeros, and its digits; [None] for
    the number if it is zero. *)
Definition div_operand (from : decimal_t) : option (option (list Z * Z)) :=
  let prec := intg from + ROUND_UP (frac from) * DIG_PER_DEC1 in
  '(buf0, prec) ← skip_zeroes (buf from) prec (Z.rem (prec - 1) DIG_PER_DEC1 + 1);
  if prec <=? 0 then Some None
  else
    w ← head buf0;
    prec ← count_digits (Z.to_nat (Z.rem (prec - 1) DIG_PER_DEC1)) w prec;
    _ ← assert_that (0 <? prec);
    Some (Some (buf0, prec)).

(** The first [n] words. *)
Definition first_words (b : list Z) (n : Z) : option (list Z) := w ← back b 0 n; Some (reverse w).

(** The end of [do_div_mod] for the remainder: [start1] is what is left, [pos] the
    words in front of it. *)
Definition mod_result (to : decimal_t) (from2_intg prec1 frac1 dcarry : Z) (start1 : list Z) (pos : Z) : option (decimal_t * Z) :=
  let '(start1, pos) := if dcarry =? 0 then (start1, pos) else (dcarry :: start1, pos - 1) in
  let intg0 := ROUND_UP (prec1 - frac1) - pos in
  let frac0 := ROUND_UP (frac to) in
  let len := len to in
  if (frac0 =? 0) && (intg0 =? 0) then Some (decimal_make_zero to, E_DEC_OK)
  else
    let copy b to_intg zeros n intg0 frac0 :=
      let '(n, to_frac, error) :=
        if len <? intg0 + frac0 then (n - (len - frac0 - intg0), (len - intg0) * DIG_PER_DEC1, E_DEC_TRUNCATED) else (n, frac to, E_DEC_OK) in
      w ← first_words start1 (Z.max n 0);
      b ← store b (zeros + Z.of_nat (length w)) w;
      Some (mkDec to_intg to_frac (sign to) b, error) in
    if intg0 <=? 0 then
      if len <=? - intg0 then Some (decimal_make_zero to, E_DEC_TRUNCATED)
      else
        b ← store (buf to) (- intg0) (replicate (Z.to_nat (- intg0)) 0);
        (* the loop leaves 1 in intg0 *)
        copy b 0 (- intg0) frac0 1 (frac0 + intg0)
    else if len <? intg0 then Some (to, E_DEC_OVERFLOW)
    else
      _ ← assert_that (intg0 <=? ROUND_UP from2_intg);
      copy (buf to) (Z.min (intg0 * DIG_PER_DEC1) from2_intg) 0 (frac0 + intg0) intg0 frac0.

(** [modulo] is whether the remainder is wanted; [to] is where the result goes. *)
Definition do_div_mod (from1 from2 to : decimal_t) (modulo : bool) (scale_incr : Z) : option (decimal_t * Z) :=
  let frac1 := ROUND_UP (frac from1) * DIG_PER_DEC1 in
  let frac2 := ROUND_UP (frac from2) * DIG_PER_DEC1 in
  _ ← assert_that (0 <? len to);
  o2 ← div_operand from2;
  match o2 with
  | None => Some (to, E_DEC_DIV_ZERO)
  | Some (buf2, prec2) =>
      o1 ← div_operand from1;
      match o1 with
      | None => Some (decimal_make_zero to, E_DEC_OK)
      | Some (buf1, prec1) =>
          buf1_0 ← head buf1;
          buf2_0 ← head buf2;
          let scale_incr := Z.max 0 (scale_incr - (frac1 - frac from1 + frac2 - frac from2)) in
          let dintg := (prec1 - frac1) - (prec2 - frac2) + b2z (buf2_0 <=? buf1_0) in
          let '(dintg, intg0) := if dintg <? 0 then (Z.quot dintg DIG_PER_DEC1, 0) else (dintg, ROUND_UP dintg) in
          let '(intg0, frac0, error, to) :=
            if modulo then (intg0, 0, E_DEC_OK, mkDec (intg to) (Z.max (frac from1) (frac from2)) (sign from1) (buf to))
            else
              let '(intg0, frac0, error) := FIX_INTG_FRAC_ERROR (len to) intg0 (ROUND_UP (frac1 + frac2 + scale_incr)) in
              (intg0, frac0, error, mkDec (intg0 * DIG_PER_DEC1) (frac0 * DIG_PER_DEC1) (negb (eqb (sign from1) (sign from2))) (buf to)) in
          (* the words of the quotient that are known to be zero *)
          let zeros := if modulo then 0 else Z.max 0 (- dintg) in
          b ← store (buf to) zeros (replicate (Z.to_nat zeros) 0);
          let i := ROUND_UP prec1 in
          let len1 := Z.max 3 (i + ROUND_UP (2 * frac2 + scale_incr + 1) + 1) in
          w1 ← first_words buf1 i;
          let tmp1 := w1 ++ replicate (Z.to_nat (len1 - i)) 0 in
          w2 ← back buf2 0 (ROUND_UP prec2);
          (* removing end zeroes *)
          let start2 := reverse (drop (Z.to_nat (zero_words w2)) w2) in
          start2_0 ← head start2;
          let norm_factor := Z.quot DIG_BASE (start2_0 + 1) in
          let norm2 := s32 (norm_factor * start2_0) + match start2 !! 1%nat with Some y => s32 (Z.quot (norm_factor * y) DIG_BASE) | None => 0 end in
          start1_0 ← head tmp1;
          let '(dcarry, start1, pos) := if start1_0 <? start2_0 then (start1_0, drop 1 tmp1, 1) else (0, tmp1, 0) in
          let n := Z.to_nat (intg0 + frac0 - zeros) in
          '(q, dcarry, start1) ← div_loop n start2 norm_factor norm2 dcarry start1;
          if modulo then mod_result to (intg from2) prec1 frac1 dcarry start1 (pos + Z.of_nat n)
          else
            b ← store b (zeros + Z.of_nat n) q;
            Some (mkDec (intg to) (frac to) (sign to) b, error)
      end
  end.

Definition decimal_div (from1 from2 to : decimal_t) (scale_incr : Z) : option (decimal_t * Z) := do_div_mod from1 from2 to false scale_incr.

Definition decimal_mod (from1 from2 to : decimal_t) : option (decimal_t * Z) := do_div_mod from1 from2 to true 0.

(** ** One word of the quotient *)

Lemma SUB2_spec x y c : digit x -> digit y -> 0 <= c < B ->
  exists a c', SUB2 x y c = (a, c') /\ digit a /\ 0 <= c' <= 2 /\ a - B * c' = x - y - c.
Proof.
  intros Hx Hy Hc. unfold SUB2. rewrite s32_small by (unfold DIG_BASE in *; lia).
  destruct (Z.ltb_spec (x - y - c) 0); [destruct (Z.ltb_spec (x - y - c + B) 0)|rewrite (proj2 (Z.ltb_ge (x - y - c) 0)) by lia]; eexists _, _; (split; [done|]); lia.
Qed.

Lemma mul_sub_spec g l2 : forall l1 c, Forall (fun w => digit w) l2 -> Forall (fun w => digit w) l1 -> length l1 = length l2 -> digit g -> 0 <= c < B ->
  exists l c', mul_sub g l2 l1 c = Some (l, c') /\ length l = length l2 /\ Forall (fun w => digit w) l /\ 0 <= c' < B /\
    rval l - B ^ Z.of_nat (length l2) * c' = rval l1 - g * rval l2 - c.
Proof.
  induction l2 as [|y l2 IH]; intros l1 c H2 H1 Hl Hg Hc.
  { destruct l1; [|done]. exists [], c. split_and!; try done; try lia. cbn [length rval]. change (B ^ Z.of_nat 0) with 1. lia. }
  destruct l1 as [|r l1]; [done|]. apply Forall_cons in H2 as [Hy H2]. apply Forall_cons in H1 as [Hr H1]. cbn [mul_sub]. injection Hl as Hl.
  assert (0 <= g * y <= (B - 1) * (B - 1)) as Hp by nia. rewrite Z.quot_div_nonneg by lia. set (hi := g * y / B).
  pose proof (Z.div_mod (g * y) B ltac:(done)) as Hdm. pose proof (Z.mod_pos_bound (g * y) B ltac:(done)) as Hm. fold hi in Hdm.
  assert (0 <= hi) by (apply Z.div_pos; [lia|done]).
  destruct (SUB2_spec r (g * y - hi * B) c) as (a & c1 & -> & Ha & Hc1 & E); [done|lia|done|].
  destruct (IH l1 (c1 + hi)) as (l & c' & -> & Ll & Dl & Hc' & Ev); [done..|unfold DIG_BASE in *; lia|].
  exists (a :: l), c'. cbn [mbind option_bind length rval]. split_and!; [done|lia|by constructor|lia|lia|]. rewrite Bpow_S. lia.
Qed.

Lemma add_back_spec l2 : forall l1 c, Forall (fun w => digit w) l2 -> Forall (fun w => digit w) l1 -> length l1 = length l2 -> 0 <= c <= 1 ->
  exists l c', add_back l2 l1 c = Some l /\ length l = length l2 /\ Forall (fun w => digit w) l /\ rval l + B ^ Z.of_nat (length l2) * c' = rval l1 + rval l2 + c.
Proof.
  induction l2 as [|y l2 IH]; intros l1 c H2 H1 Hl Hc.
  { destruct l1; [|done]. exists [], c. split_and!; try done. cbn [length rval]. change (B ^ Z.of_nat 0) with 1. lia. }
  destruct l1 as [|r l1]; [done|]. apply Forall_cons in H2 as [Hy H2]. apply Forall_cons in H1 as [Hr H1]. cbn [add_back]. injection Hl as Hl.
  destruct (ADD_spec r y c) as (a & c1 & -> & Ha & Hc1 & E); [lia..|].
  destruct (IH l1 c1) as (l & c' & -> & Ll & Dl & Ev); [done..|]. exists (a :: l), c'. cbn [mbind option_bind length rval]. split_and!; [done|lia|by constructor|]. rewrite Bpow_S. lia.
Qed.

(** *** The guess *)

(** The first two words of the divisor are [d0] and [d1], the first words of the
    remainder [x], which is two words, and [y]. *)
Section guess.
Context (d0 d1 x y : Z).
Hypothesis Hd0 : 1 <= d0 < B.
Hypothesis Hd1 : digit d1.
Hypothesis Hx : 0 <= x.
Hypothesis Hy : digit y.

Let Y := d0 * B + d1.
Let X := x * B + y.
Let nf := B / (d0 + 1).

Hypothesis HX : X < (Y + 1) * B.

Lemma norm_factor_spec : 1 <= nf /\ nf * (d0 + 1) <= B /\ B <= 2 * (nf * d0).
Proof using Hd0.
  clear -Hd0.
  pose proof (Z.div_mod B (d0 + 1) ltac:(lia)) as Hdm. pose proof (Z.mod_pos_bound B (d0 + 1) ltac:(lia)). fold nf in Hdm.
  assert (1 <= nf) by (apply Z.div_le_lower_bound; lia). split; [done|]. split; [lia|].
  assert (0 <= (nf - 1) * (d0 - 1)) by (apply Z.mul_nonneg_nonneg; lia).
  assert (B < 2 * (nf * d0) + 2) by lia. change B with (2 * 500000000) in *. lia.
Qed.

(** The normalized divisor and remainder. *)
Let n2 := nf * Y / B.
Let n1 := nf * X / B.

Lemma norm2_spec : n2 = nf * d0 + nf * d1 / B.
Proof using Type. clear. unfold n2, Y. replace (nf * (d0 * B + d1)) with (nf * d1 + nf * d0 * B) by lia. rewrite Z.div_add by done. lia. Qed.

Lemma norm1_spec : n1 = nf * x + nf * y / B.
Proof using Type. clear. unfold n1, X. replace (nf * (x * B + y)) with (nf * y + nf * x * B) by lia. rewrite Z.div_add by done. lia. Qed.

Lemma norm2_bounds : B <= 2 * n2 /\ n2 < B.
Proof using Hd0 Hd1.
  clear -Hd0 Hd1.
  destruct norm_factor_spec as (H1 & H2 & H3). rewrite norm2_spec. assert (0 <= nf * d1 / B) by (apply Z.div_pos; [nia|done]).
  assert (nf * d1 / B < nf) by (apply Z.div_lt_upper_bound; [done|nia]). lia.
Qed.

Lemma norm1_bounds : 0 <= n1 <= B * B + B.
Proof using Hd0 Hd1 Hx Hy HX.
  destruct norm_factor_spec as (H1 & H2 & H3). rewrite norm1_spec. assert (0 <= nf * y / B) by (apply Z.div_pos; [nia|done]).
  assert (nf * y / B < nf) by (apply Z.div_lt_upper_bound; [done|nia]). assert (x <= (d0 + 1) * B) by (unfold X, Y in HX; nia).
  assert (nf * x <= nf * ((d0 + 1) * B)) by (apply Z.mul_le_mono_nonneg_l; lia). nia.
Qed.

(** The guess is not too small.. *)
Lemma guess_ge q : 0 <= q -> q * Y <= X -> q <= n1 / n2.
Proof using Hd0 Hd1.
  clear -Hd0 Hd1.
  intros Hq Hle. destruct norm2_bounds. apply Z.div_le_lower_bound; [lia|]. unfold n1. apply Z.div_le_lower_bound; [done|].
  pose proof (Z.mul_div_le (nf * Y) B ltac:(done)). fold n2 in H1. destruct norm_factor_spec. nia.
Qed.

(** .. and at most two too large. *)
Lemma guess_le g : 0 <= g < B -> g <= n1 / n2 -> (g - 2) * Y <= X.
Proof using Hd0 Hd1 Hx Hy.
  clear HX.
  intros Hg Hle. destruct norm2_bounds as [H1 H2]. destruct norm_factor_spec as (N1 & N2 & _).
  assert (n2 * g <= n1) by (pose proof (Z.mul_div_le n1 n2 ltac:(lia)); nia).
  pose proof (Z.mul_div_le (nf * X) B ltac:(done)) as Hf1. fold n1 in Hf1. pose proof (Z.mul_succ_div_gt (nf * Y) B ltac:(done)) as Hf2. fold n2 in Hf2.
  destruct (Z.le_gt_cases ((g - 2) * Y) X) as [|Hgt]; [done|]. exfalso. assert (0 < Y) by (unfold Y; nia).
  assert (0 <= X) by (unfold X; nia). assert (0 < g - 2) by nia.
  assert (nf * X <= nf * ((g - 2) * Y)) by (apply Z.mul_le_mono_nonneg_l; lia).
  assert ((g - 2) * (nf * Y) < (g - 2) * (B * Z.succ n2)) by (apply Z.mul_lt_mono_pos_l; lia).
  assert (B * (n2 * g) <= B * n1) by (apply Z.mul_le_mono_nonneg_l; lia).
  assert (B * (n2 * g) < B * ((g - 2) * Z.succ n2)) by nia. apply Z.mul_lt_mono_pos_l in H6; [|done]. nia.
Qed.

Lemma too_large_spec g : 0 <= g < B -> (g - 2) * Y <= X -> X / Y <= g \/ g = B - 1 -> too_large d0 d1 g x y = (X / Y <? g).
Proof using Hd0 Hd1 Hx Hy HX.
  intros Hg Hlo Hhi. unfold too_large. assert (0 < Y <= B * B) as HY by (unfold Y; unfold DIG_BASE in *; nia).
  pose proof (Z.div_mod X Y ltac:(lia)) as Hdm. pose proof (Z.mod_pos_bound X Y ltac:(lia)) as Hm.
  assert (X - g * Y < Y + B) by (destruct Hhi as [Hhi| ->]; [assert (X / Y * Y <= g * Y) by (apply Z.mul_le_mono_nonneg_r; lia); lia|lia]).
  assert ((x - g * d0) * B + y = X - g * Y + d1 * g) as -> by (unfold X, Y; lia).
  assert (0 <= d1 * g <= B * B) by nia. rewrite s64_small by (unfold DIG_BASE in *; lia).
  destruct (Z.ltb_spec (X / Y) g) as [Hlt|Hge]; [apply Z.ltb_lt|apply Z.ltb_ge].
  - assert ((X / Y + 1) * Y <= g * Y) by (apply Z.mul_le_mono_nonneg_r; lia). lia.
  - assert (g * Y <= X / Y * Y) by (apply Z.mul_le_mono_nonneg_r; lia). lia.
Qed.
End guess.

(** The factors of the code. *)
Definition norm_factor_of (start2 : list Z) : Z := match start2 with d0 :: _ => Z.quot B (d0 + 1) | [] => 0 end.
Definition norm2_of (start2 : list Z) : Z :=
  match start2 with
  | [] => 0
  | d0 :: _ => let nf := norm_factor_of start2 in s32 (nf * d0) + match start2 !! 1%nat with Some y => s32 (Z.quot (nf * y) B) | None => 0 end
  end.

Lemma norm_factor_one d0 : 1 <= d0 < B -> 1 <= B / (d0 + 1) /\ B / (d0 + 1) * (d0 + 1) <= B.
Proof. intros Hd. pose proof (Z.mul_div_le B (d0 + 1) ltac:(lia)). split; [apply Z.div_le_lower_bound; lia|lia]. Qed.

Lemma make_guess_one d0 dcarry s0 y : 1 <= d0 < B -> digit s0 -> digit y -> 0 <= dcarry -> s0 + dcarry * B < d0 * B ->
  make_guess [d0] (norm_factor_of [d0]) (norm2_of [d0]) dcarry s0 y = Some ((s0 + dcarry * B) / d0) /\ digit ((s0 + dcarry * B) / d0).
Proof.
  intros Hd Hs Hy Hc Hlt. destruct (norm_factor_one d0 Hd) as [H1 H2]. unfold make_guess, norm2_of, norm_factor_of. cbn [head mbind option_bind lookup list_lookup].
  rewrite (Z.quot_div_nonneg B (d0 + 1)) by lia. set (nf := B / (d0 + 1)) in *. rewrite (Z.quot_div_nonneg (nf * y)) by (done || nia).
  set (x := s0 + dcarry * B) in *. assert (0 <= x) by (unfold x; nia).
  assert (0 <= nf * y / B < nf) as Hr by (split; [apply Z.div_pos; [nia|done]|apply Z.div_lt_upper_bound; [done|nia]]). set (r := nf * y / B) in *.
  assert (0 < nf * d0 < B) by nia. assert (0 <= nf * x <= B * B) by nia. rewrite (s32_small (nf * d0)), s64_small by (unfold DIG_BASE in *; lia). rewrite Z.add_0_r, Z.quot_div_nonneg by lia.
  assert ((nf * x + r) / (nf * d0) = x / d0) as ->.
  { rewrite <- Z.div_div by lia. f_equal. rewrite Z.mul_comm, Z.div_add_l by lia. rewrite (Z.div_small r) by lia. lia. }
  assert (x / d0 < B) by (apply Z.div_lt_upper_bound; lia). assert (0 <= x / d0) by (apply Z.div_pos; lia). rewrite (proj2 (Z.leb_gt B _)) by lia. done.
Qed.

Lemma make_guess_two d0 d1 ds dcarry s0 y : 1 <= d0 < B -> digit d1 -> digit s0 -> digit y -> 0 <= dcarry ->
  let Y := d0 * B + d1 in let X := (s0 + dcarry * B) * B + y in X < (Y + 1) * B ->
  exists g, make_guess (d0 :: d1 :: ds) (norm_factor_of (d0 :: d1 :: ds)) (norm2_of (d0 :: d1 :: ds)) dcarry s0 y = Some g /\
    digit g /\ g * Y <= X /\ forall q, digit q -> q * Y <= X -> q <= g.
Proof.
  intros Hd0 Hd1 Hs Hy Hc Y X HX. unfold make_guess, norm2_of, norm_factor_of. cbn [head mbind option_bind lookup list_lookup].
  set (x := s0 + dcarry * B) in *. assert (0 <= x) as Hx by (unfold x; nia). destruct (norm_factor_one d0 Hd0) as [H1 H2].
  pose proof (norm2_spec d0 d1) as En2. pose proof (norm1_spec d0 x y) as En1. destruct (norm2_bounds d0 d1 Hd0 Hd1) as [Hn2 Hn2']. pose proof (norm1_bounds d0 d1 x y Hd0 Hd1 Hx Hy HX) as Hn1.
  pose proof (guess_ge d0 d1 x y Hd0 Hd1 : forall q, 0 <= q -> q * Y <= X -> _) as Hge. pose proof (guess_le d0 d1 x y Hd0 Hd1 Hx Hy : forall g, _ -> _ -> (g - 2) * Y <= X) as Hle.
  pose proof (too_large_spec d0 d1 x y Hd0 Hd1 Hx Hy HX : forall g, _ -> (g - 2) * Y <= X -> X / Y <= g \/ _ -> _ = (X / Y <? g)) as Htl.
  rewrite (Z.quot_div_nonneg B (d0 + 1)) by lia. set (nf := B / (d0 + 1)) in *. rewrite !(Z.quot_div_nonneg (nf * _)) by (done || nia).
  assert (0 <= nf * d1 / B < B) by (split; [apply Z.div_pos; [nia|done]|apply Z.div_lt_upper_bound; [done|unfold DIG_BASE in *; nia]]).
  assert (0 <= nf * d0 <= B) by nia. rewrite (s32_small (nf * d0)), (s32_small (nf * d1 / B)) by (unfold DIG_BASE in *; lia). rewrite <- En2, <- En1.
  fold Y in En2, Hn2, Hn2', Hge, Hle |- *. fold X in En1, Hn1, Hge, Hle |- *. set (n1 := nf * X / B) in *. set (n2 := nf * Y / B) in *. rewrite s64_small by (unfold DIG_BASE in *; lia).
  rewrite Z.quot_div_nonneg by (unfold DIG_BASE in *; lia). assert (0 < Y) by (unfold Y; nia). assert (0 <= X) by (unfold X; nia).
  assert (0 <= X / Y) by (apply Z.div_pos; lia). assert (X / Y * Y <= X) by (pose proof (Z.mul_div_le X Y ltac:(lia)); lia).
  assert (forall q, q * Y <= X -> q <= X / Y) as Hq by (intros q Hq; apply Z.div_le_lower_bound; lia).
  set (g := if B <=? n1 / n2 then B - 1 else n1 / n2).
  assert (0 <= g < B /\ g <= n1 / n2 /\ (X / Y <= g \/ g = B - 1)) as (Hg & Hgle & Hgge).
  { pose proof (Hge (X / Y) ltac:(lia) ltac:(lia)). assert (0 <= n1 / n2) by lia. unfold g. destruct (Z.leb_spec B (n1 / n2)); unfold DIG_BASE in *; lia. }
  pose proof (Hle g Hg Hgle) as Hg2. pose proof (Hq _ Hg2) as Hg2'.
  assert (forall g1, 0 <= g1 < B -> g1 <= g -> (g1 <= X / Y -> g1 = X / Y \/ g1 = B - 1) -> too_large d0 d1 g1 x y = (X / Y <? g1)) as Htl'.
  { intros g1 R1 R2 R3. apply Htl; [done| |lia]. assert ((g1 - 2) * Y <= (g - 2) * Y) by (apply Z.mul_le_mono_nonneg_r; lia). lia. }
  rewrite (Htl' g) by lia. set (g1 := if X / Y <? g then g - 1 else g). assert (g1 = if X / Y <? g then g - 1 else g) as E1 by done. 
  destruct (Z.ltb_spec (X / Y) g); (rewrite (Htl' g1) by lia); set (g2 := if X / Y <? g1 then g1 - 1 else g1); assert (g2 = if X / Y <? g1 then g1 - 1 else g1) as E2 by done;
    destruct (Z.ltb_spec (X / Y) g1); try lia; rewrite (Htl' g2) by lia; rewrite (proj2 (Z.ltb_ge (X / Y) g2)) by lia; cbn [negb assert_that mbind option_bind];
    (eexists; split; [done|]; split; [lia|]; split; [assert (g2 * Y <= X / Y * Y) by (apply Z.mul_le_mono_nonneg_r; lia); lia|intros q Hqd Hqx; apply Hq in Hqx; lia]).
Qed.

(** *** The step *)

(** A list of words, the first one first. *)
Abbreviation fval l := (rval (reverse l)).

Lemma fval_cons w l : fval (w :: l) = w * B ^ Z.of_nat (length l) + fval l.
Proof. rewrite reverse_cons, rval_app, length_reverse. cbn [rval]. lia. Qed.

Lemma fval_app l l' : fval (l ++ l') = fval l * B ^ Z.of_nat (length l') + fval l'.
Proof. rewrite reverse_app, rval_app, length_reverse. lia. Qed.

Lemma fval_bound l : Forall (fun w => digit w) l -> 0 <= fval l < B ^ Z.of_nat (length l).
Proof. intros HD. pose proof (rval_bound (reverse l) ltac:(by apply Forall_reverse)) as Hb. by rewrite length_reverse in Hb. Qed.

(** A guess that is right or one too large. *)
Lemma step_guess start2 win dcarry g rest : Forall (fun w => digit w) start2 -> Forall (fun w => digit w) win -> length win = length start2 -> 0 < fval start2 ->
  0 <= dcarry -> digit g -> let D := fval start2 in let W := fval win + B ^ Z.of_nat (length start2) * dcarry in W / D <= g <= W / D + 1 ->
  exists win', ('(w, carry) ← mul_sub g (reverse start2) (reverse (take (length start2) (win ++ rest))) 0;
    if dcarry <? carry then w ← add_back (reverse start2) w 0; Some (g - 1, reverse w ++ drop (length start2) (win ++ rest))
    else Some (g, reverse w ++ drop (length start2) (win ++ rest))) = Some (W / D, win' ++ rest) /\
    length win' = length start2 /\ Forall (fun w => digit w) win' /\ fval win' = W mod D.
Proof.
  intros D2 D1 Hl HD Hc Hg D W Hq. rewrite take_app_length', drop_app_length' by done.
  destruct (mul_sub_spec g (reverse start2) (reverse win) 0) as (l & c & -> & Ll & Dl & Hcr & Ev); [by apply Forall_reverse|by apply Forall_reverse|by rewrite !length_reverse|done|lia|].
  cbn [mbind option_bind]. rewrite length_reverse in *. fold D in Ev. pose proof (fval_bound start2 D2) as HbD. fold D in HD, HbD. pose proof (rval_bound l Dl) as Hbl. rewrite Ll in Hbl.
  set (p := B ^ Z.of_nat (length start2)) in *. pose proof (Z.div_mod W D ltac:(lia)) as Hdm. pose proof (Z.mod_pos_bound W D ltac:(lia)) as Hm.
  assert (rval l + p * (dcarry - c) = W - g * D) as E by (unfold W; lia). destruct (Z.ltb_spec dcarry c) as [Hlt|Hge].
  - assert (g = W / D + 1) as Eg by (destruct (Z.eq_dec g (W / D)) as [Eg|]; [exfalso; rewrite Eg in E; nia|lia]).
    destruct (add_back_spec (reverse start2) l 0) as (l' & c' & -> & Ll' & Dl' & Ev'); [by apply Forall_reverse|done|by rewrite length_reverse|lia|]. cbn [mbind option_bind].
    rewrite length_reverse in *. fold p D in Ev'. pose proof (rval_bound l' Dl') as Hbl'. rewrite Ll' in Hbl'. fold p in Hbl'.
    exists (reverse l'). split; [by rewrite Eg, Z.add_simpl_r|]. split; [by rewrite length_reverse|]. split; [by apply Forall_reverse|]. rewrite reverse_involutive.
    assert (rval l' + p * (c' + dcarry - c) = W mod D) by nia. assert (c' + dcarry - c = 0) by nia. lia.
  - assert (g = W / D) as Eg by (destruct (Z.eq_dec g (W / D)); [done|exfalso; assert (g = W / D + 1) as Eg by lia; rewrite Eg in E; nia]).
    exists (reverse l). split; [by rewrite Eg|]. split; [by rewrite length_reverse|]. split; [by apply Forall_reverse|]. rewrite reverse_involutive.
    assert (rval l + p * (dcarry - c) = W mod D) by (rewrite E, Eg; lia). assert (dcarry - c = 0) by nia. lia.
Qed.

(** The first two words of the divisor and three of the remainder decide. *)
Lemma two_words D W Y X p f1 f2 : D = Y * p + f1 -> W = X * p + f2 -> 0 <= f1 < p -> 0 <= f2 < p -> B <= Y -> 0 <= X -> W < D * B ->
  X < (Y + 1) * B /\ forall g, digit g -> g * Y <= X -> (forall q, digit q -> q * Y <= X -> q <= g) -> W / D <= g <= W / D + 1.
Proof.
  intros ED EW H1 H2 HY HX HW. assert (0 < p) as Hp by lia. assert (B * p <= Y * p) as HYp by (apply Z.mul_le_mono_nonneg_r; lia).
  assert (0 < D) as HD by (unfold DIG_BASE in *; lia). assert (0 <= X * p) by (apply Z.mul_nonneg_nonneg; lia). assert (0 <= W) as HW0 by lia.
  split.
  - apply (Z.mul_lt_mono_pos_r p); [done|]. assert (D * B <= (Y + 1) * p * B) by (apply Z.mul_le_mono_nonneg_r; unfold DIG_BASE; lia). lia.
  - intros g Hg Hle Hmax. pose proof (Z.mul_div_le W D HD) as Hdm. split.
    + apply Hmax; [split; [apply Z.div_pos; lia|apply Z.div_lt_upper_bound; lia]|]. assert (0 <= W / D) by (apply Z.div_pos; lia).
      assert (W / D * (Y * p) <= W / D * D) by (apply Z.mul_le_mono_nonneg_l; lia). assert (W / D * Y < X + 1); [|lia]. apply (Z.mul_lt_mono_pos_r p); [done|]. lia.
    + enough (g - 1 <= W / D) by lia. apply Z.div_le_lower_bound; [done|]. assert (g * Y * p <= X * p) by (apply Z.mul_le_mono_nonneg_r; lia).
      assert (g * f1 <= B * p) by (apply Z.mul_le_mono_nonneg; lia). assert (D * (g - 1) = g * Y * p + g * f1 - D) as -> by (rewrite ED; ring). lia.
Qed.

(** One step of the long division. *)
Lemma div_step_spec start2 d0 ds win dcarry rest : start2 = d0 :: ds -> 1 <= d0 -> Forall (fun w => digit w) start2 -> Forall (fun w => digit w) (win ++ rest) ->
  length win = length start2 -> (2 <= length (win ++ rest))%nat -> 0 <= dcarry ->
  let D := fval start2 in let W := fval win + B ^ Z.of_nat (length start2) * dcarry in W < D * B ->
  exists win', div_step start2 (norm_factor_of start2) (norm2_of start2) dcarry (win ++ rest) = Some (W / D, win' ++ rest) /\
    digit (W / D) /\ length win' = length start2 /\ Forall (fun w => digit w) win' /\ fval win' = W mod D.
Proof.
  intros E2 H0 D2 D1 Hl Hlen Hc D W HW. assert (0 < D) as HD.
  { unfold D. rewrite E2, fval_cons. rewrite E2 in D2. apply Forall_cons in D2 as [_ D2]. pose proof (fval_bound ds D2). pose proof (Bpow_pos (length ds)). nia. }
  apply Forall_app in D1 as [D1 Dr]. assert (0 <= W / D < B) as Hq by (pose proof (fval_bound win D1); pose proof (Bpow_pos (length start2)); split; [apply Z.div_pos; [unfold W; nia|done]|apply Z.div_lt_upper_bound; lia]).
  destruct win as [|s0 win1] eqn:Ew; [rewrite E2 in Hl; done|]. assert (length win1 = length ds) as Hl1 by (rewrite E2 in Hl; cbn in Hl; lia).
  apply Forall_cons in D1 as D1'. destruct D1' as [Ds0 D1']. rewrite E2 in D2. apply Forall_cons in D2 as D2'. destruct D2' as [Dd0 D2']. rewrite <- E2 in D2.
  pose proof (fval_bound win1 D1') as Hbw. pose proof (fval_bound ds D2') as Hbd. pose proof (Bpow_pos (length ds)) as Hp.
  assert (D = d0 * B ^ Z.of_nat (length ds) + fval ds) as ED by (unfold D; by rewrite E2, fval_cons).
  assert (W = (s0 + dcarry * B) * B ^ Z.of_nat (length ds) + fval win1) as EW by (unfold W; rewrite fval_cons, Hl1, E2; cbn [length]; rewrite Bpow_S; lia).
  unfold div_step. assert (head start2 = Some d0) as -> by (by rewrite E2). cbn [head mbind option_bind app].
  destruct ((dcarry =? 0) && (s0 <? d0)) eqn:Esh.
  - apply andb_true_iff in Esh as [Ec Es]. apply Z.eqb_eq in Ec. apply Z.ltb_lt in Es. rewrite Ec in EW. assert (W < D) by (rewrite Hl1 in Hbw; nia). assert (0 <= W) by (rewrite EW; nia).
    exists (s0 :: win1). rewrite Z.div_small, Z.mod_small by lia. split_and!; try done; try lia.
  - clear Esh. assert (exists y, (s0 :: win1 ++ rest) !! 1%nat = Some y /\ digit y) as (y & Ey & Dy).
    { destruct (win1 ++ rest) as [|y l] eqn:El; [cbn [app length] in Hlen; rewrite El in Hlen; cbn in Hlen; lia|]. exists y. split; [done|].
      assert (Forall (fun w => digit w) (win1 ++ rest)) as Hf by (by apply Forall_app). rewrite El in Hf. by apply Forall_cons in Hf as [? _]. }
    rewrite Ey. cbn [mbind option_bind].
    assert (exists g, make_guess start2 (norm_factor_of start2) (norm2_of start2) dcarry s0 y = Some g /\ digit g /\ W / D <= g <= W / D + 1) as (g & -> & Dg & Hg).
    { rewrite E2. destruct ds as [|d1 ds'].
      - destruct win1; [|done]. change (fval []) with 0 in EW, ED. cbn [length] in EW, ED. change (B ^ Z.of_nat 0) with 1 in EW, ED. rewrite Z.mul_1_r, Z.add_0_r in EW, ED.
        destruct (make_guess_one d0 dcarry s0 y) as [Eg Dg]; [lia|done|done|done|nia|]. rewrite <- EW, <- ED in Dg. rewrite Eg, <- EW, <- ED. eexists. split; [done|]. split; [done|lia].
      - destruct win1 as [|y' win2]; [done|]. injection Ey as ->. cbn [length] in Hl1, EW, ED, Hp. assert (length win2 = length ds') as Hl2 by lia. rewrite fval_cons, Bpow_S in EW, ED. rewrite Hl2 in EW.
        apply Forall_cons in D2' as [Dd1 D2']. apply Forall_cons in D1' as [_ D1']. pose proof (fval_bound ds' D2') as Hbd'. pose proof (fval_bound win2 D1') as Hbw'. rewrite Hl2 in Hbw'.
        pose proof (Bpow_pos (length ds')) as Hp'. set (p := B ^ Z.of_nat (length ds')) in *. assert (D = (d0 * B + d1) * p + fval ds') as ED' by (rewrite ED; ring). assert (W = ((s0 + dcarry * B) * B + y) * p + fval win2) as EW' by (rewrite EW; ring).
        assert (B <= d0 * B + d1) as HYB by (unfold DIG_BASE in *; lia). pose proof (make_guess_two d0 d1 ds' dcarry s0 y ltac:(lia) Dd1 Ds0 Dy Hc) as Hmk. cbv zeta in Hmk.
        set (YY := d0 * B + d1) in *. set (XX := (s0 + dcarry * B) * B + y) in *. assert (0 <= XX) as HXX by (unfold XX; clear -Ds0 Hc Dy; nia). clear EW ED.
        destruct (two_words D W YY XX p (fval ds') (fval win2)) as [HXY Hqb]; [done..|]. destruct Hmk as (g & -> & Dg & Hle & Hmax); [done|].
        exists g. split; [done|]. split; [done|by apply Hqb]. }
    cbn [mbind option_bind]. rewrite bind_assert by (apply Nat.leb_le; cbn [app length] in *; rewrite length_app; lia).
    destruct (step_guess start2 (s0 :: win1) dcarry g rest D2 D1 Hl HD Hc Dg Hg) as (win' & E & Lw & Dw & Vw). exists win'. split; [exact E|]. done.
Qed.

(** ** The loop *)

(** What is left, [dcarry] and the words from [start1] on, before a word of the
    quotient is computed. *)
Definition div_left (start2 : list Z) (dcarry : Z) (start1 : list Z) : Prop :=
  digit dcarry /\ Forall (fun w => digit w) start1 /\ (length start2 <= length start1)%nat /\
  fval (take (length start2) start1) + B ^ Z.of_nat (length start2) * dcarry < fval start2 * B.

Lemma div_loop_spec start2 d0 ds n : start2 = d0 :: ds -> 1 <= d0 -> Forall (fun w => digit w) start2 -> forall dcarry start1,
  div_left start2 dcarry start1 -> (n + length start2 <= length start1)%nat ->
  exists q dcarry' start1', div_loop n start2 (norm_factor_of start2) (norm2_of start2) dcarry start1 = Some (q, dcarry', start1') /\
    length q = n /\ Forall (fun w => digit w) q /\ div_left start2 dcarry' start1' /\ (length start1' + n = length start1)%nat /\
    drop (length start2) start1' = drop (length start2 + n) start1 /\
    dcarry * B ^ Z.of_nat (length start1) + fval start1 =
      fval q * fval start2 * B ^ Z.of_nat (length start1' + 1 - length start2) + (dcarry' * B ^ Z.of_nat (length start1') + fval start1').
Proof.
  intros E2 H0 D2. set (m := length start2). set (D := fval start2). induction n as [|n IH]; intros dcarry start1 (Dc & D1 & Hm & HW) Hn.
  { exists [], dcarry, start1. rewrite !Nat.add_0_r. do 2 (split; [done|]). split; [by constructor|]. split; [exact (conj Dc (conj D1 (conj Hm HW)))|]. do 2 (split; [done|]). change (fval []) with 0. lia. }
  fold m D in Hm, HW. assert (m = S (length ds)) as Em by (unfold m; by rewrite E2). assert (exists z rest, drop m start1 = z :: rest) as (z & rest & Er).
  { destruct (drop m start1) as [|z rest] eqn:E; [|by eauto]. assert (length (drop m start1) = O) as Hl by (by rewrite E). rewrite length_drop in Hl. lia. }
  assert (start1 = take m start1 ++ z :: rest) as Es by (by rewrite <- Er, take_drop). set (win := take m start1) in *.
  assert (length win = m) as Lw by (unfold win; rewrite length_take; lia). assert (length start1 = (m + S (length rest))%nat) as Ls by (rewrite Es, length_app, Lw; done).
  rewrite Es in D1. cbn [div_loop]. destruct (div_step_spec start2 d0 ds win dcarry (z :: rest) E2 H0 D2 D1 Lw) as (win' & Ed & Dg & Lw' & Dw' & Vw); [rewrite <- Es; lia|lia|exact HW|].
  rewrite <- Es in Ed. rewrite Ed. cbn [mbind option_bind]. fold m D in Lw', Vw, Dg |- *. set (W := fval win + B ^ Z.of_nat m * dcarry) in *.
  destruct win' as [|w wt]; [cbn in Lw'; lia|]. cbn [length] in Lw'. cbn [app]. apply Forall_cons in Dw' as [Dw Dwt]. apply Forall_app in D1 as [Dwin Dr]. apply Forall_cons in Dr as Dr'. destruct Dr' as [Dz _].
  assert (0 < D) as HD by (unfold D; rewrite E2, fval_cons; rewrite E2 in D2; apply Forall_cons in D2 as [_ D2]; pose proof (fval_bound ds D2); pose proof (Bpow_pos (length ds)); nia).
  assert (take m (wt ++ z :: rest) = wt ++ [z] /\ drop m (wt ++ z :: rest) = rest) as [Et Edr].
  { replace (wt ++ z :: rest) with ((wt ++ [z]) ++ rest) by (by rewrite <- app_assoc). rewrite take_app_length', drop_app_length' by (rewrite length_app; cbn; lia). done. }
  destruct (IH w (wt ++ z :: rest)) as (q & dc & s & -> & Lq & Dq & Hleft & Ll & Edrop & Ev).
  { split; [done|]. split; [by apply Forall_app|]. fold m D. split; [rewrite length_app; cbn; lia|]. rewrite Et, fval_app. change (fval [z]) with (z + B * 0). cbn [length]. change (B ^ Z.of_nat 1) with B.
    pose proof (Z.mod_pos_bound W D HD) as Hmod. rewrite <- Vw, fval_cons in Hmod. rewrite Em, Bpow_S. replace (length ds) with (length wt) by lia. set (p := B ^ Z.of_nat (length wt)) in *.
    assert ((w * p + fval wt) * B <= (D - 1) * B) by (apply Z.mul_le_mono_nonneg_r; unfold DIG_BASE; lia). lia. }
  { rewrite length_app. cbn [length]. lia. }
  exists (W / D :: q), dc, s. cbn [mbind option_bind length]. split; [done|]. split; [lia|]. split; [by constructor|]. split; [done|]. rewrite length_app in Ll, Ev. cbn [length] in Ll, Ev. split; [lia|]. split.
  - rewrite Edrop. replace (m + n)%nat with (m + n)%nat by lia. rewrite <- drop_drop, Edr. rewrite (Nat.add_comm m), Nat.add_succ_l, <- Nat.add_succ_r, (Nat.add_comm n), Nat.add_succ_l, <- Nat.add_succ_r, <- drop_drop, Er. done.
  - rewrite fval_cons. fold D. rewrite Lq. rewrite Es at 2. rewrite fval_app, Ls. cbn [length]. rewrite Bpow_add.
    assert (W = D * (W / D) + (w * B ^ Z.of_nat (length wt) + fval wt)) as EW by (rewrite <- fval_cons, Vw; apply Z.div_mod; lia).
    rewrite fval_app, Bpow_add in Ev. cbn [length] in Ev. fold D in Ev. set (P := B ^ Z.of_nat (S (length rest))) in *. set (k := B ^ Z.of_nat (length s + 1 - m)) in *.
    assert (P = B ^ Z.of_nat n * k) as EP by (unfold P, k; rewrite <- Bpow_add; do 2 f_equal; lia).
    set (R := dc * B ^ Z.of_nat (length s) + fval s) in *. set (r := fval (z :: rest)) in *.
    transitivity (W * P + r); [unfold W; ring|]. rewrite EW at 1.
    transitivity (D * (W / D) * P + (w * (B ^ Z.of_nat (length wt) * P) + (fval wt * P + r))); [ring|]. rewrite Ev, EP. ring.
Qed.

(** ** The operands *)

Lemma first_words_spec l tl : first_words (l ++ tl) (Z.of_nat (length l)) = Some l.
Proof.
  unfold first_words, back. rewrite (proj2 (Z.leb_le 0 0)), (proj2 (Z.leb_le 0 _)), (proj2 (Z.leb_le _ (Z.of_nat (length (l ++ tl))))) by (rewrite ?length_app; lia).
  cbn [andb mbind option_bind]. change (Z.to_nat 0) with O. by rewrite drop_0, Z.sub_0_r, Nat2Z.id, take_app_length, reverse_involutive.
Qed.

Lemma div_operand_spec d : number d ->
  rval (words d) = 0 /\ div_operand d = Some None \/
  exists w W (k : nat) tl, div_operand d = Some (Some ((w :: W) ++ tl, 9 * Z.of_nat (length W) + Z.of_nat k + 1)) /\ Forall (fun w => digit w) (w :: W) /\
    fval (w :: W) = rval (words d) /\ (k <= 8)%nat /\ 10 ^ Z.of_nat k <= w < 10 ^ (Z.of_nat k + 1) /\ (length (w :: W) <= iw d + fw d)%nat /\ rval (words d) <> 0.
Proof.
  intros Hn. pose proof (n_valid d Hn) as Hv. pose proof (v_intg d Hv). pose proof (v_frac d Hv). destruct (words_counted d Hv) as [Ci Cf]. unfold DIG_PER_DEC1 in Ci, Cf.
  unfold div_operand. rewrite fw_Z by done. set (prec := intg d + Z.of_nat (fw d) * DIG_PER_DEC1). pose proof (length_words d Hv) as Lw.
  assert (buf d = reverse (words d) ++ drop (iw d + fw d) (buf d)) as Eb by (unfold words; by rewrite reverse_involutive, take_drop). rewrite Eb.
  destruct (leading_digits (reverse (words d)) (drop (iw d + fw d) (buf d)) prec) as (W & n & -> & DW & VW & [z Ez] & HW);
    [apply Forall_reverse, (v_words d Hv)|unfold prec, DIG_PER_DEC1; lia|rewrite length_reverse, Lw; unfold prec, DIG_PER_DEC1; lia| |].
  { rewrite reverse_involutive. unfold prec. rewrite Z.pow_add_r, pow10_words by (unfold DIG_PER_DEC1; lia). apply (n_whole d Hn). }
  cbn [mbind option_bind]. rewrite reverse_involutive in VW. destruct W as [|w W].
  - rewrite HW. left. by rewrite <- VW.
  - destruct HW as (Hn0 & k & Ek & Hk & Hb). rewrite (proj2 (Z.leb_gt _ _) Hn0). cbn [app head mbind option_bind]. rewrite Ek. cbn [mbind option_bind]. rewrite bind_assert by (apply Z.ltb_lt; lia).
    right. exists w, W, k, (drop (iw d + fw d) (buf d)). do 5 (split; [done|]). split.
    + rewrite <- Lw, <- (length_reverse (words d)), Ez, length_app. lia.
    + rewrite <- VW, fval_cons. apply Forall_cons in DW as [_ DW]. pose proof (fval_bound W DW). pose proof (Bpow_pos (length W)). assert (0 < 10 ^ Z.of_nat k) by (apply Z.pow_pos_nonneg; lia). nia.
Qed.

(** The zeros at the end of the divisor go. *)
Lemma strip_divisor w W : w <> 0 -> exists ds j, reverse (drop (Z.to_nat (zero_words (reverse (w :: W)))) (reverse (w :: W))) = w :: ds /\ w :: W = (w :: ds) ++ replicate j 0.
Proof.
  intros Hw. destruct (zero_words_spec (reverse (w :: W))) as (n & -> & Hn & Et & Hne). rewrite Nat2Z.id. set (l := reverse (w :: W)) in *.
  assert (w :: W = reverse (drop n l) ++ replicate n 0) as E by (rewrite <- reverse_replicate, <- Et, <- reverse_app, take_drop; unfold l; by rewrite reverse_involutive).
  destruct (reverse (drop n l)) as [|w' ds] eqn:Er.
  - exfalso. destruct n; [done|]. cbn in E. injection E as -> _. done.
  - injection E as <- E. exists ds, n. split; [done|]. by rewrite E.
Qed.

(** The words in front of the point of the quotient. *)
Lemma quotient_intg (e k1 k2 : Z) (w1 w2 : Z) : 0 <= k1 <= 8 -> 0 <= k2 <= 8 -> 10 ^ k1 <= w1 < 10 ^ (k1 + 1) -> 10 ^ k2 <= w2 < 10 ^ (k2 + 1) ->
  let dintg := 9 * e + k1 - k2 + b2z (w2 <=? w1) in let x := e + b2z (w2 <=? w1) in
  exists dintg', (if dintg <? 0 then (Z.quot dintg DIG_PER_DEC1, 0) else (dintg, ROUND_UP dintg)) = (dintg', Z.max 0 x) /\ Z.max 0 (- dintg') = Z.max 0 (- x).
Proof.
  intros H1 H2 Hw1 Hw2 dintg x. assert (w2 <= w1 -> k2 <= k1) as Hle.
  { intros Hw. destruct (Z.le_gt_cases k2 k1) as [|Hk]; [done|]. assert (10 ^ (k1 + 1) <= 10 ^ k2) by (apply Z.pow_le_mono_r; lia). lia. }
  assert (w1 < w2 -> k1 <= k2) as Hlt.
  { intros Hw. destruct (Z.le_gt_cases k1 k2) as [|Hk]; [done|]. assert (10 ^ (k2 + 1) <= 10 ^ k1) by (apply Z.pow_le_mono_r; lia). lia. }
  unfold dintg, x, DIG_PER_DEC1. clear dintg x Hw1 Hw2. assert (forall a, a < 0 -> Z.quot a 9 = - ((- a) / 9)) as Hquot.
  { intros a Ha. rewrite <- (Z.opp_involutive a) at 1. rewrite Z.quot_opp_l, Z.quot_div_nonneg by lia. done. }
  destruct (Z.leb_spec w2 w1) as [Hw|Hw]; cbn [b2z]; [specialize (Hle Hw)|specialize (Hlt Hw)].
  - destruct (Z.ltb_spec (9 * e + k1 - k2 + 1) 0) as [Hd|Hd]; eexists; (split; [f_equal|]).
    + lia.
    + rewrite Hquot by done. dlia.
    + pose proof (round_up_spec (9 * e + k1 - k2 + 1) Hd). lia.
    + lia.
  - destruct (Z.ltb_spec (9 * e + k1 - k2 + 0) 0) as [Hd|Hd]; eexists; (split; [f_equal|]).
    + lia.
    + rewrite Hquot by done. dlia.
    + pose proof (round_up_spec (9 * e + k1 - k2 + 0) Hd). lia.
    + lia.
Qed.

(** ** The long division *)

(** [w1 :: W1] with [pad] zeros is divided by [w2 :: W2], whose zeros at the end are
    left out as [start2]. *)
Lemma long_division w1 W1 w2 W2 ds j (pad n : nat) : Forall (fun w => digit w) (w1 :: W1) -> Forall (fun w => digit w) (w2 :: W2) -> 1 <= w2 ->
  w2 :: W2 = (w2 :: ds) ++ replicate j 0 ->
  let o := if w1 <? w2 then 1%nat else O in let tmp1 := (w1 :: W1) ++ replicate pad 0 in (n + o + length (w2 :: W2) <= length tmp1)%nat ->
  let '(dcarry, start1) := if w1 <? w2 then (w1, drop 1 tmp1) else (0, tmp1) in
  let y := (length tmp1 - o - n + 1 - length (w2 :: W2))%nat in
  exists q dcarry' start1', div_loop n (w2 :: ds) (norm_factor_of (w2 :: ds)) (norm2_of (w2 :: ds)) dcarry start1 = Some (q, dcarry', start1') /\
    length q = n /\ Forall (fun w => digit w) q /\ digit dcarry' /\ Forall (fun w => digit w) start1' /\ (length start1' + n + o = length tmp1)%nat /\
    drop (length (w2 :: ds)) start1' = drop (length (w2 :: ds) + n + o) tmp1 /\
    fval (w1 :: W1) * B ^ Z.of_nat pad = fval q * (fval (w2 :: W2) * B ^ Z.of_nat y) + fval (dcarry' :: start1') /\
    0 <= fval (dcarry' :: start1') < fval (w2 :: W2) * B ^ Z.of_nat y.
Proof.
  intros D1 D2 H2 E2 o tmp1 Hn. set (p2 := length (w2 :: W2)) in *. set (D := fval (w2 :: ds)). set (m := length (w2 :: ds)).
  assert (p2 = m + j)%nat as Ep2 by (unfold p2; by rewrite E2, length_app, length_replicate).
  assert (fval (w2 :: W2) = D * B ^ Z.of_nat j) as EV2 by (by rewrite E2, fval_app, length_replicate, reverse_replicate, rval_replicate, Z.add_0_r).
  rewrite E2 in D2. apply Forall_app in D2 as [D2 _]. apply Forall_cons in D2 as D2'. destruct D2' as [Dw2 Dds]. apply Forall_cons in D1 as D1'. destruct D1' as [Dw1 DW1].
  assert (Forall (fun w => digit w) tmp1) as Dt by (apply Forall_app; split; [done|by apply Forall_replicate]).
  assert (fval tmp1 = fval (w1 :: W1) * B ^ Z.of_nat pad) as Et by (unfold tmp1; by rewrite fval_app, length_replicate, reverse_replicate, rval_replicate, Z.add_0_r).
  assert (w2 * B ^ Z.of_nat (length ds) <= D) as HD by (unfold D; rewrite fval_cons; pose proof (fval_bound ds Dds); lia). pose proof (Bpow_pos (length ds)) as Hp.
  assert (B ^ Z.of_nat m = B * B ^ Z.of_nat (length ds)) as Em by (unfold m; cbn [length]; apply Bpow_S).
  destruct (if w1 <? w2 then (w1, drop 1 tmp1) else (0, tmp1)) as [dcarry start1] eqn:Est.
  assert (div_left (w2 :: ds) dcarry start1 /\ (length start1 + o = length tmp1)%nat /\ dcarry * B ^ Z.of_nat (length start1) + fval start1 = fval tmp1 /\ drop o tmp1 = start1) as (Hleft & Hls & Hval & Hdo).
  { unfold o in *. destruct (Z.ltb_spec w1 w2) as [Hlt|Hge]; injection Est as <- <-.
    - unfold tmp1. cbn [app drop]. rewrite drop_0. set (t := W1 ++ replicate pad 0) in *. change tmp1 with (w1 :: t) in *. apply Forall_cons in Dt as [_ Dt]. cbn [length] in Hn.
      split; [|split; [cbn; lia|split; [by rewrite fval_cons|done]]]. split; [done|]. split; [done|]. fold m. split; [lia|]. fold D.
      pose proof (fval_bound (take m t) ltac:(by apply Forall_take)) as Hb. rewrite length_take, Nat.min_l in Hb by lia.
      assert ((w1 + 1) * B ^ Z.of_nat (length ds) <= D) by (etransitivity; [|exact HD]; apply Z.mul_le_mono_nonneg_r; lia). rewrite Em in Hb |- *.
      assert ((w1 + 1) * B ^ Z.of_nat (length ds) * B <= D * B) by (apply Z.mul_le_mono_nonneg_r; [done|lia]). lia.
    - split; [|split; [lia|split; [lia|by rewrite drop_0]]]. split; [done|]. split; [done|]. fold m. split; [lia|]. fold D.
      pose proof (fval_bound (take m tmp1) ltac:(by apply Forall_take)) as Hb. rewrite length_take, Nat.min_l in Hb by lia. rewrite Em in Hb |- *.
      assert (1 * B ^ Z.of_nat (length ds) <= w2 * B ^ Z.of_nat (length ds)) by (apply Z.mul_le_mono_nonneg_r; lia).
      assert (B ^ Z.of_nat (length ds) * B <= D * B) by (apply Z.mul_le_mono_nonneg_r; [done|lia]). lia. }
  destruct (div_loop_spec (w2 :: ds) w2 ds n eq_refl H2 D2 dcarry start1 Hleft) as (q & dc & s & E & Lq & Dq & (Ddc & Ds & Hms & Hr) & Ll & Edrop & Ev); [fold m; lia|].
  fold m D in Hms, Hr, Edrop, Ev. exists q, dc, s. split; [exact E|]. do 4 (split; [done|]). split; [lia|]. split.
  { rewrite Edrop, <- Hdo, drop_drop. f_equal. lia. }
  assert (fval (w2 :: W2) * B ^ Z.of_nat (length tmp1 - o - n + 1 - p2) = D * B ^ Z.of_nat (length s + 1 - m)) as Ey.
  { assert (j + (length tmp1 - o - n + 1 - p2) = length s + 1 - m)%nat as Ex by (clear -Ll Hls Ep2 Hn Hms; lia). by rewrite EV2, <- Z.mul_assoc, <- Bpow_add, Ex. }
  rewrite Ey, (fval_cons dc). split; [rewrite <- Et, <- Hval, Ev; clear; by rewrite !Z.mul_assoc|]. pose proof (fval_bound s Ds) as Hbs. pose proof (Bpow_pos (length s)) as Hps.
  split; [apply Z.add_nonneg_nonneg; [apply Z.mul_nonneg_nonneg; [exact (proj1 Ddc)|apply Z.lt_le_incl, Hps]|exact (proj1 Hbs)]|].
  rewrite <- (take_drop m s) at 2. rewrite fval_app, length_drop. pose proof (fval_bound (drop m s) ltac:(by apply Forall_drop)) as Hbd. rewrite length_drop in Hbd.
  assert (length s = m + (length s - m))%nat as E1 by (clear -Hms; lia). assert (length s + 1 - m = 1 + (length s - m))%nat as E3 by (clear -Hms; lia).
  rewrite E1 at 1. rewrite E3, !Bpow_add. change (B ^ Z.of_nat 1) with B. clear -Hr Hbd.
  set (r := B ^ Z.of_nat (length s - m)) in *. set (pm := B ^ Z.of_nat m) in *. set (f := fval (take m s)) in *. set (f2 := fval (drop m s)) in *. clearbody r pm f f2.
  assert ((f + pm * dc + 1) * r <= D * B * r) by (apply Z.mul_le_mono_nonneg_r; lia). lia.
Qed.

(** ** The function *)

(** The words behind the point of the quotient. *)
Definition quotient_frac (d1 d2 : decimal_t) (scale_incr : Z) : Z :=
  let frac1 := Z.of_nat (fw d1) * DIG_PER_DEC1 in
  let frac2 := Z.of_nat (fw d2) * DIG_PER_DEC1 in
  ROUND_UP (frac1 + frac2 + Z.max 0 (scale_incr - (frac1 - frac d1 + frac2 - frac d2))).

(** The function from the main loop on, for operands that are not zero. *)
Lemma do_div_mod_loop d1 d2 to modulo scale_incr w1 W1 (k1 : nat) tl1 w2 W2 (k2 : nat) tl2 : valid d1 -> valid d2 -> 0 < len to ->
  div_operand d1 = Some (Some ((w1 :: W1) ++ tl1, 9 * Z.of_nat (length W1) + Z.of_nat k1 + 1)) ->
  div_operand d2 = Some (Some ((w2 :: W2) ++ tl2, 9 * Z.of_nat (length W2) + Z.of_nat k2 + 1)) ->
  (k1 <= 8)%nat -> 10 ^ Z.of_nat k1 <= w1 < 10 ^ (Z.of_nat k1 + 1) -> (k2 <= 8)%nat -> 10 ^ Z.of_nat k2 <= w2 < 10 ^ (Z.of_nat k2 + 1) ->
  let x := (Z.of_nat (length W1) - Z.of_nat (fw d1)) - (Z.of_nat (length W2) - Z.of_nat (fw d2)) + b2z (w2 <=? w1) in
  let F := if modulo : bool then 0 else quotient_frac d1 d2 scale_incr in
  let zeros := if modulo then 0 else Z.max 0 (- x) in
  modulo = true \/ Z.max 0 x + F <= len to ->
  exists ds j pad, w2 :: W2 = (w2 :: ds) ++ replicate j 0 /\
    Z.of_nat (length W1) + F + Z.of_nat (fw d2) - Z.of_nat (fw d1) + 2 <= Z.of_nat (length ((w1 :: W1) ++ replicate pad 0)) /\
    Z.of_nat (length W1) + 2 * Z.of_nat (fw d2) + 3 <= Z.of_nat (length ((w1 :: W1) ++ replicate pad 0)) /\
    let tmp1 := (w1 :: W1) ++ replicate pad 0 in
    let n := Z.to_nat (Z.max 0 x + F - zeros) in
    let '(dcarry, start1) := if w1 <? w2 then (w1, drop 1 tmp1) else (0, tmp1) in
    do_div_mod d1 d2 to modulo scale_incr =
      (b ← store (buf to) zeros (replicate (Z.to_nat zeros) 0);
       '(q, dcarry, start1) ← div_loop n (w2 :: ds) (norm_factor_of (w2 :: ds)) (norm2_of (w2 :: ds)) dcarry start1;
       if modulo then
         mod_result (mkDec (intg to) (Z.max (frac d1) (frac d2)) (sign d1) (buf to)) (intg d2) (9 * Z.of_nat (length W1) + Z.of_nat k1 + 1) (Z.of_nat (fw d1) * DIG_PER_DEC1)
           dcarry start1 ((if w1 <? w2 then 1 else 0) + Z.of_nat n)
       else
         b ← store b (zeros + Z.of_nat n) q;
         Some (mkDec (Z.max 0 x * DIG_PER_DEC1) (F * DIG_PER_DEC1) (negb (eqb (sign d1) (sign d2))) b, E_DEC_OK)).
Proof.
  intros V1 V2 Hlen E1 E2 Hk1 Hw1 Hk2 Hw2 x F zeros Hroom.
  assert (0 < 10 ^ Z.of_nat k2) as Hp2 by (apply Z.pow_pos_nonneg; lia). destruct (strip_divisor w2 W2) as (ds & j & Eds & Ew2); [lia|].
  unfold do_div_mod. rewrite bind_assert by (by apply Z.ltb_lt). rewrite E2. cbn [mbind option_bind]. rewrite E1. cbn [mbind option_bind app head].
  rewrite !fw_Z by done. set (f1 := Z.of_nat (fw d1) * DIG_PER_DEC1) in *. set (f2 := Z.of_nat (fw d2) * DIG_PER_DEC1) in *. 
  set (si := Z.max 0 (scale_incr - (f1 - frac d1 + f2 - frac d2))) in *. assert (0 <= si) as Hsi by (unfold si; lia). set (c := b2z (w2 <=? w1)) in *.
  destruct (quotient_intg (Z.of_nat (length W1) - Z.of_nat (fw d1) - (Z.of_nat (length W2) - Z.of_nat (fw d2))) (Z.of_nat k1) (Z.of_nat k2) w1 w2) as (dintg & Ed & Ez); [lia|lia|done|done|]. fold c x in Ed, Ez.
  match goal with |- context [if ?a <? 0 then (Z.quot ?a _, 0) else _] =>
    replace a with (9 * (Z.of_nat (length W1) - Z.of_nat (fw d1) - (Z.of_nat (length W2) - Z.of_nat (fw d2))) + Z.of_nat k1 - Z.of_nat k2 + c) by (unfold f1, f2, DIG_PER_DEC1; lia) end.
  rewrite Ed, Ez. clear Ed Ez dintg.
  assert (ROUND_UP (9 * Z.of_nat (length W1) + Z.of_nat k1 + 1) = Z.of_nat (length (w1 :: W1))) as R1 by (cbn [length]; pose proof (round_up_spec (9 * Z.of_nat (length W1) + Z.of_nat k1 + 1) ltac:(lia)); lia).
  assert (ROUND_UP (9 * Z.of_nat (length W2) + Z.of_nat k2 + 1) = Z.of_nat (length (w2 :: W2))) as R2 by (cbn [length]; pose proof (round_up_spec (9 * Z.of_nat (length W2) + Z.of_nat k2 + 1) ltac:(lia)); lia).
  rewrite R1, R2. pose proof (round_up_spec (2 * f2 + si + 1) ltac:(unfold f2, DIG_PER_DEC1; lia)) as Hr. set (L := Z.max 3 _).
  assert (Z.of_nat (length ((w1 :: W1) ++ replicate (Z.to_nat (L - Z.of_nat (length (w1 :: W1)))) 0)) = L) as HL by (rewrite length_app, length_replicate; unfold L; cbn [length]; unfold f2, DIG_PER_DEC1 in *; lia). cbn [app] in HL.
  exists ds, j, (Z.to_nat (L - Z.of_nat (length (w1 :: W1)))). split; [done|]. rewrite HL. split.
  { assert (F <= Z.of_nat (fw d1) + Z.of_nat (fw d2) + ROUND_UP (2 * f2 + si + 1) - 2 * Z.of_nat (fw d2)).
    { unfold F, quotient_frac. fold f1 f2 si. destruct modulo; [unfold f2, DIG_PER_DEC1 in *; lia|]. pose proof (round_up_spec (f1 + f2 + si) ltac:(unfold f1, f2, DIG_PER_DEC1; lia)). unfold f1, f2, DIG_PER_DEC1 in *. lia. }
    unfold L. cbn [length]. unfold f2, DIG_PER_DEC1 in *. lia. }
  split; [unfold L; cbn [length]; unfold f2, DIG_PER_DEC1 in *; lia|].
  cbv zeta. destruct (if w1 <? w2 then (w1, _) else _) as [dcarry start1] eqn:Est.
  assert (first_words (w1 :: W1 ++ tl1) (Z.of_nat (length (w1 :: W1))) = Some (w1 :: W1)) as Ef1 by (apply (first_words_spec (w1 :: W1))).
  assert (back (w2 :: W2 ++ tl2) 0 (Z.of_nat (length (w2 :: W2))) = Some (reverse (w2 :: W2))) as Ef2.
  { pose proof (first_words_spec (w2 :: W2) tl2) as Ef. unfold first_words in Ef. cbn [app] in Ef. destruct (back _ _ _) as [l|]; cbn in Ef; [|done]. injection Ef as <-. by rewrite reverse_involutive. }
  destruct modulo.
  - cbn [mbind option_bind buf]. unfold zeros. destruct (store (buf to) 0 _); [|done]. cbn [mbind option_bind]. rewrite Ef1, Ef2. cbn [mbind option_bind]. rewrite Eds.
    cbn [head mbind option_bind app]. unfold F. destruct (w1 <? w2); injection Est as <- <-; reflexivity.
  - assert (FIX_INTG_FRAC_ERROR (len to) (Z.max 0 x) (ROUND_UP (f1 + f2 + si)) = (Z.max 0 x, F, E_DEC_OK)) as ->.
    { unfold FIX_INTG_FRAC_ERROR. destruct Hroom as [|Hroom]; [done|]. change (ROUND_UP (f1 + f2 + si)) with F. rewrite (proj2 (Z.ltb_ge _ _)) by lia. done. }
    cbn [mbind option_bind buf]. fold zeros. destruct (store (buf to) _ _); [|done]. cbn [mbind option_bind]. rewrite Ef1, Ef2. cbn [mbind option_bind]. rewrite Eds.
    cbn [head mbind option_bind app]. destruct (w1 <? w2); injection Est as <- <-; reflexivity.
Qed.

(** The first words bound the quotient. *)
Lemma first_words_ratio w1 W1 w2 W2 : Forall (fun w => digit w) (w1 :: W1) -> Forall (fun w => digit w) (w2 :: W2) -> 1 <= w2 ->
  fval (w1 :: W1) * B ^ Z.of_nat (length W2) < fval (w2 :: W2) * B ^ Z.of_nat (length W1 + (if w1 <? w2 then 0 else 1)).
Proof.
  intros D1 D2 H2. apply Forall_cons in D1 as [Dw1 D1]. apply Forall_cons in D2 as [Dw2 D2]. rewrite !fval_cons. pose proof (fval_bound W1 D1) as H1. pose proof (fval_bound W2 D2) as H3.
  pose proof (Bpow_pos (length W1)) as P1. pose proof (Bpow_pos (length W2)) as P2. rewrite Bpow_add.
  set (p := B ^ Z.of_nat (length W1)) in *. set (q := B ^ Z.of_nat (length W2)) in *. set (v1 := fval W1) in *. set (v2 := fval W2) in *. clearbody p q v1 v2.
  assert (w2 * q * p <= (w2 * q + v2) * p) as Hq by (apply Z.mul_le_mono_nonneg_r; lia).
  destruct (Z.ltb_spec w1 w2) as [Hlt|Hge].
  - change (B ^ Z.of_nat 0) with 1. rewrite Z.mul_1_r. assert ((w1 * p + v1) * q < w2 * p * q); [|lia]. apply Z.mul_lt_mono_pos_r; [done|].
    assert ((w1 + 1) * p <= w2 * p) by (apply Z.mul_le_mono_nonneg_r; lia). lia.
  - change (B ^ Z.of_nat 1) with B. assert ((w1 * p + v1) * q < p * B * q).
    { apply Z.mul_lt_mono_pos_r; [done|]. assert ((w1 + 1) * p <= B * p) by (apply Z.mul_le_mono_nonneg_r; lia). lia. }
    assert (1 * (q * p * B) <= w2 * (q * p * B)) by (apply Z.mul_le_mono_nonneg_r; [unfold DIG_BASE; lia|lia]).
    assert (w2 * q * p * B <= (w2 * q + v2) * p * B) by (apply Z.mul_le_mono_nonneg_r; [unfold DIG_BASE; lia|done]). lia.
Qed.

Lemma quotient_zero V1 V2 (t p1 p2 : nat) : 0 <= V1 -> V1 * B ^ Z.of_nat p2 < V2 * B ^ Z.of_nat p1 -> (t + p1 <= p2)%nat -> V1 * B ^ Z.of_nat t / V2 = 0.
Proof.
  intros H1 Hlt Ht. pose proof (Bpow_pos p1) as P1. pose proof (Bpow_pos t) as Pt. pose proof (Bpow_pos (p2 - t - p1)) as Pr.
  apply Z.div_small. split; [apply Z.mul_nonneg_nonneg; lia|]. apply (Z.mul_lt_mono_pos_r (B ^ Z.of_nat p1)); [done|].
  replace p2 with (t + p1 + (p2 - t - p1))%nat in Hlt by lia. rewrite !Bpow_add in Hlt. set (r := B ^ Z.of_nat (p2 - t - p1)) in *. set (a := V1 * B ^ Z.of_nat t * B ^ Z.of_nat p1) in *.
  assert (0 <= a) by (unfold a; repeat apply Z.mul_nonneg_nonneg; lia). assert (a * 1 <= a * r) by (apply Z.mul_le_mono_nonneg_l; lia). lia.
Qed.

(** The quotient of numbers that are not zero. *)
Lemma store_parts b k q : (k + length q <= length b)%nat -> exists rest,
  (b ← store b (Z.of_nat k) (replicate k 0); store b (Z.of_nat (k + length q)) q) = Some (replicate k 0 ++ q ++ rest).
Proof.
  intros Hl. rewrite store_spec by (rewrite ?length_replicate; lia). rewrite length_replicate, Nat.sub_diag, take_0. cbn [app mbind option_bind].
  rewrite store_spec by (rewrite ?length_app, ?length_replicate, ?length_drop; lia). rewrite Nat.add_sub, take_app_length' by (by rewrite length_replicate).
  by eexists.
Qed.

Lemma quotient_frac_ge d1 d2 scale_incr : Z.of_nat (fw d1) + Z.of_nat (fw d2) <= quotient_frac d1 d2 scale_incr.
Proof.
  unfold quotient_frac. set (si := Z.max 0 _). assert (0 <= si) by (unfold si; lia). clearbody si. unfold DIG_PER_DEC1.
  pose proof (round_up_spec (Z.of_nat (fw d1) * 9 + Z.of_nat (fw d2) * 9 + si) ltac:(lia)). lia.
Qed.

(** From the remainder to the quotient. *)
Lemma quotient_of V1 V2 q r (pad y t : nat) : V1 * B ^ Z.of_nat pad = q * (V2 * B ^ Z.of_nat y) + r -> 0 <= r < V2 * B ^ Z.of_nat y -> (pad = t + y)%nat -> 0 < V2 ->
  q = V1 * B ^ Z.of_nat t / V2.
Proof.
  intros E Hr -> HV. rewrite Bpow_add in E. pose proof (Bpow_pos y). symmetry. rewrite <- (Z.div_mul_cancel_r _ _ (B ^ Z.of_nat y)) by lia.
  symmetry. apply (Z.div_unique_pos _ _ _ r); [done|]. lia.
Qed.

(** C16: [decimal_div] of numbers that are not zero.  F is the number of words
    behind the point that the scales of the numbers and [scale_incr] ask for; it
    is at least one, and the result has room for the words of the dividend
    before the point, those of the divisor behind it and F more, and for the
    words of the divisor before the point with those of the dividend behind it
    (the zeros of a small quotient may take as many,
    [decimal_div_zeros_overflow]).  Then there is no error, and the result is
    the quotient of the values cut off behind F words, negative exactly when the
    signs of the numbers differ (even if nothing but zeros is left of it). *)
Theorem decimal_div_exact d1 d2 to scale_incr : number d1 -> number d2 -> rval (words d1) <> 0 -> rval (words d2) <> 0 ->
  let F := quotient_frac d1 d2 scale_incr in 1 <= F -> Z.of_nat (iw d1 + fw d2) + F <= len to -> Z.of_nat (iw d2 + fw d1) <= len to ->
  exists to', decimal_div d1 d2 to scale_incr = Some (to', E_DEC_OK) /\ valid to' /\ frac to' = F * DIG_PER_DEC1 /\ sign to' = negb (eqb (sign d1) (sign d2)) /\
    rval (words to') = rval (words d1) * B ^ (F + Z.of_nat (fw d2) - Z.of_nat (fw d1)) / rval (words d2).
Proof.
  intros N1 N2 Hv1 Hv2 F HF Hr1 Hr2. pose proof (n_valid d1 N1) as V1. pose proof (n_valid d2 N2) as V2. pose proof (quotient_frac_ge d1 d2 scale_incr) as HFge. fold F in HFge.
  destruct (div_operand_spec d1 N1) as [[E _]|(w1 & W1 & k1 & tl1 & E1 & D1 & Vw1 & Hk1 & Hw1 & L1 & _)]; [done|].
  destruct (div_operand_spec d2 N2) as [[E _]|(w2 & W2 & k2 & tl2 & E2 & D2 & Vw2 & Hk2 & Hw2 & L2 & _)]; [done|]. cbn [length] in L1, L2.
  destruct (do_div_mod_loop d1 d2 to false scale_incr w1 W1 k1 tl1 w2 W2 k2 tl2 V1 V2) as (ds & j & pad & Ew2 & Hlen1 & _ & Hmain); [lia|done..| |].
  { right. fold F. destruct (w2 <=? w1); cbn [b2z]; lia. }
  fold F in Hlen1, Hmain. cbv zeta in Hmain. set (x := _ - _ + b2z _) in Hmain. assert (b2z (w2 <=? w1) = if w1 <? w2 then 0 else 1) as Ec by (rewrite Z.leb_antisym; by destruct (w1 <? w2)).
  assert (1 <= w2) as Hw2' by (assert (0 < 10 ^ Z.of_nat k2) by (apply Z.pow_pos_nonneg; lia); lia).
  assert (0 < rval (words d2)) as HV2 by (pose proof (rval_nonneg d2 V2); lia). pose proof (rval_nonneg d1 V1) as HV1. rewrite <- Vw1, <- Vw2 in *.
  set (t := Z.to_nat (F + Z.of_nat (fw d2) - Z.of_nat (fw d1))). replace (F + Z.of_nat (fw d2) - Z.of_nat (fw d1)) with (Z.of_nat t) by lia.
  set (zs := Z.to_nat (Z.max 0 (- x))). assert (Z.max 0 (- x) = Z.of_nat zs) as Ez by lia. rewrite Ez, Nat2Z.id in Hmain.
  set (n := Z.to_nat (Z.max 0 x + F - Z.of_nat zs)) in *. destruct (if w1 <? w2 then (w1, _) else _) as [dcarry start1] eqn:Est.
  assert (exists q dc s, div_loop n (w2 :: ds) (norm_factor_of (w2 :: ds)) (norm2_of (w2 :: ds)) dcarry start1 = Some (q, dc, s) /\ length q = n /\ Forall (fun w => digit w) q /\
    fval q = fval (w1 :: W1) * B ^ Z.of_nat t / fval (w2 :: W2)) as (q & dc & s & Eq & Lq & Dq & Vq).
  { destruct (decide (n = O)) as [En|En].
    - rewrite En. exists [], dcarry, start1. do 2 (split; [done|]). split; [by constructor|]. symmetry. change (fval []) with 0. apply (quotient_zero _ _ t (length W1 + (if w1 <? w2 then 0 else 1)) (length W2)); [done|by apply first_words_ratio|].
      assert (x + F <= 0) by lia. unfold x in *. rewrite Ec in *. destruct (w1 <? w2); lia.
    - pose proof (long_division w1 W1 w2 W2 ds j pad n D1 D2 Hw2' Ew2) as Hld. cbv zeta in Hld. rewrite Est in Hld. cbn [length] in Hld. set (T := length ((w1 :: W1) ++ replicate pad 0)) in *.
      assert (T = S (length W1) + pad)%nat as ET by (unfold T; by rewrite length_app, length_replicate).
      assert (Z.of_nat n = x + F) as EN by lia. unfold x in EN. rewrite Ec in EN.
      destruct Hld as (q & dc & s & Eq & Lq & Dq & _ & _ & _ & _ & Ev & Hb); [destruct (w1 <? w2); lia|]. exists q, dc, s. do 3 (split; [done|]).
      apply (quotient_of _ _ _ _ pad _ t Ev Hb); [destruct (w1 <? w2); lia|done]. }
  unfold decimal_div. rewrite Hmain. destruct (store_parts (buf to) zs q) as (rest & Est'); [rewrite Lq; unfold len in *; unfold x in *; rewrite Ec in *; destruct (w1 <? w2); lia|].
  rewrite Lq in Est'. destruct (store (buf to) (Z.of_nat zs) _) as [b|]; [|done]. cbn [mbind option_bind] in Est' |- *. rewrite Eq. cbn [mbind option_bind]. rewrite <- Nat2Z.inj_add, Est'. cbn [mbind option_bind].
  eexists. split; [done|].
  assert (exists out rest', replicate zs 0 ++ q ++ rest = reverse out ++ rest' /\ Forall (fun w => digit w) out /\ rval out = fval q /\ Z.max 0 x + F = Z.of_nat (length out)) as (out & rest' & Eout & Dout & Vout & Lout).
  { destruct (decide (n = O)) as [En|En].
    - assert (q = []) as -> by (apply nil_length_inv; lia). exists (replicate (Z.to_nat F) 0), (replicate (zs - Z.to_nat F) 0 ++ rest). rewrite reverse_replicate, (app_assoc (replicate (Z.to_nat F) 0)), <- replicate_add. cbn [app].
      replace (Z.to_nat F + (zs - Z.to_nat F))%nat with zs by lia. split; [done|]. split; [by apply Forall_replicate|]. rewrite rval_replicate, length_replicate. split; [done|lia].
    - exists (reverse (replicate zs 0 ++ q)), rest. rewrite reverse_involutive, <- app_assoc. split; [done|]. split; [apply Forall_reverse, Forall_app; split; [by apply Forall_replicate|done]|].
      rewrite reverse_app, rval_app, reverse_replicate, rval_replicate, length_app, !length_reverse, length_replicate, Lq. split; lia. }
  rewrite Eout. destruct (valid_stored (Z.max 0 x * DIG_PER_DEC1) (F * DIG_PER_DEC1) (negb (eqb (sign d1) (sign d2))) out rest') as [Hvd Hw];
    [unfold DIG_PER_DEC1; lia|unfold DIG_PER_DEC1; lia|unfold DIG_PER_DEC1; lia|done|rewrite !round_up_words by lia; lia|].
  split; [done|]. split; [done|]. split; [done|]. by rewrite Hw, Vout, Vq.
Qed.


Lemma decimal_div_exact_witness :
  number (mkDec 18 0 false [123456789; 987654321]) /\ number (mkDec 10 1 true [3; 0; 500000000]) /\
  exists to', decimal_div (mkDec 18 0 false [123456789; 987654321]) (mkDec 10 1 true [3; 0; 500000000]) (mkDec 0 0 false (replicate 6 7)) 4 = Some (to', E_DEC_OK) /\ valid to' /\
    frac to' = 1 * DIG_PER_DEC1 /\ sign to' = true /\ rval (words to') = rval (words (mkDec 18 0 false [123456789; 987654321])) * B ^ 2 / rval (words (mkDec 10 1 true [3; 0; 500000000])).
Proof.
  assert (number (mkDec 18 0 false [123456789; 987654321])) as N1.
  { split; [split; cbn; try lia; repeat (constructor; [unfold DIG_BASE; lia|]); constructor|vm_compute; congruence|exists 123456789987654321; reflexivity|discriminate]. }
  assert (number (mkDec 10 1 true [3; 0; 500000000])) as N2.
  { split; [split; cbn; try lia; repeat (constructor; [unfold DIG_BASE; lia|]); constructor|vm_compute; congruence|exists 30000000005; reflexivity|vm_compute; discriminate]. }
  split; [exact N1|]. split; [exact N2|].
  apply (decimal_div_exact _ _ (mkDec 0 0 false (replicate 6 7)) 4 N1 N2); vm_compute; congruence.
Defined.

(** The quotient of zero, and by zero. *)
Lemma decimal_div_by_zero d1 d2 to scale_incr : number d2 -> 0 < len to -> rval (words d2) = 0 -> decimal_div d1 d2 to scale_incr = Some (to, E_DEC_DIV_ZERO).
Proof.
  intros N2 Hl E. unfold decimal_div, do_div_mod. rewrite bind_assert by (by apply Z.ltb_lt).
  destruct (div_operand_spec d2 N2) as [[_ ->]|(w & W & k & tl & _ & _ & _ & _ & _ & _ & Hne)]; [done|]. congruence.
Qed.

(** The zeros of a small quotient are written without a test against the length of
    the result: 10^-30 divided by 10^63 needs ten words. *)
Lemma decimal_div_zeros_overflow : decimal_div (mkDec 1 30 false [0; 0; 0; 0; 1000000]) (mkDec 64 0 false [1; 0; 0; 0; 0; 0; 0; 0]) (mkDec 0 0 false (replicate 9 0)) 4 = None.
Proof. vm_compute. reflexivity. Qed.

(** A quotient can be -0. *)
Lemma decimal_div_negative_zero : decimal_div (mkDec 1 1 true [0; 500000000]) (mkDec 19 0 false [1; 0; 0]) (mkDec 0 0 false (replicate 9 7)) 0 = Some (mkDec 0 9 true ([0; 0] ++ replicate 7 7), E_DEC_OK).
Proof. vm_compute. reflexivity. Qed.
