(* ===== verification/DecimalMod.v ===== *)
(** * The remainder of exact decimals (strings/decimal.c: [decimal_mod])

    What the long division of DecimalDiv.v leaves is the remainder of the values,
    and [mod_result] stores it with the point in the right place when the
    divisor is at least one and the dividend has a digit in front of the tenth
    behind the point. *)

From stdpp Require Import base numbers list.
From Stdlib Require Import ZArith Lia.
From S2P Require Import Prelude Decimal DecimalArith DecimalSub DecimalMul DecimalInt DecimalBin DecimalPack DecimalDiv.

Local Open Scope Z_scope.

(** ** Storing the remainder *)

(** Zeros at the end of a value. *)
Lemma fval_take l (k z : nat) r : Forall (fun w => digit w) l -> length l = (k + z)%nat -> fval l = r * B ^ Z.of_nat z -> fval (take k l) = r.
Proof.
  intros HD Hl E. rewrite <- (take_drop k l), fval_app, length_drop in E. replace (length l - k)%nat with z in E by lia.
  pose proof (fval_bound (drop k l) ltac:(by apply Forall_drop)) as Hb. rewrite length_drop in Hb. replace (length l - k)%nat with z in Hb by lia. pose proof (Bpow_pos z). nia.
Qed.

(** The remainder of the words, copied to the result. *)
Lemma mod_result_spec to intg2 (w1d : Z) (k1 f1 : nat) dcarry start1 (pos : Z) (F i0 : nat) rem : let e1 := w1d + 1 - Z.of_nat f1 in 0 <= e1 -> (k1 <= 8)%nat ->
  Forall (fun w => digit w) (dcarry :: start1) -> ROUND_UP (frac to) = Z.of_nat F -> 0 <= frac to ->
  let S := if dcarry =? 0 then start1 else dcarry :: start1 in
  e1 - (if dcarry =? 0 then pos else pos - 1) = Z.of_nat i0 -> (i0 + F <= length S)%nat -> fval (take (i0 + F) S) = rem ->
  Z.of_nat i0 <= ROUND_UP intg2 -> 0 <= intg2 -> Z.of_nat (i0 + F) <= len to -> Z.of_nat F < len to ->
  exists to', mod_result to intg2 (9 * w1d + Z.of_nat k1 + 1) (Z.of_nat f1 * DIG_PER_DEC1) dcarry start1 pos = Some (to', E_DEC_OK) /\ valid to' /\
    (rem = 0 /\ rval (words to') = 0 /\ fw to' = O /\ frac to' = 0 /\ frac to = 0 /\ intg to' = 1 \/
     rval (words to') = rem /\ fw to' = F /\ frac to' = frac to /\ sign to' = sign to /\ intg to' = Z.min (Z.of_nat i0 * DIG_PER_DEC1) intg2).
Proof.
  intros e1 He1 Hk1 HD HF Hfr S Hi0 HlS Hrem Hi2 Hi2' Hroom Hroom2. unfold mod_result.
  assert (ROUND_UP (9 * w1d + Z.of_nat k1 + 1 - Z.of_nat f1 * DIG_PER_DEC1) = e1) as ->.
  { unfold e1, DIG_PER_DEC1 in *. destruct (Z.eq_dec (w1d + 1 - Z.of_nat f1) 0) as [E|E].
    - rewrite E. unfold ROUND_UP, DIG_PER_DEC1. replace (9 * w1d + Z.of_nat k1 + 1 - Z.of_nat f1 * 9 + 9 - 1) with (Z.of_nat k1) by lia. rewrite Z.quot_div_nonneg by lia. apply Z.div_small. lia.
    - pose proof (round_up_spec (9 * w1d + Z.of_nat k1 + 1 - Z.of_nat f1 * 9) ltac:(lia)). lia. }
  rewrite HF. assert (Forall (fun w => digit w) S) as DS by (unfold S; destruct (dcarry =? 0); [by apply Forall_cons in HD as [_ HD]|done]).
  replace (if dcarry =? 0 then (start1, pos) else (dcarry :: start1, pos - 1)) with (S, if dcarry =? 0 then pos else pos - 1) by (unfold S; by destruct (dcarry =? 0)).
  rewrite Hi0. clear Hi0. pose proof (round_up_spec intg2 Hi2') as Hru. clearbody S. unfold len in *.
  destruct ((Z.of_nat F =? 0) && (Z.of_nat i0 =? 0)) eqn:E0.
  { apply andb_true_iff in E0 as [EF Ei]. apply Z.eqb_eq in EF, Ei. assert (F = O /\ i0 = O) as [-> ->] by lia. rewrite take_0 in Hrem. change (fval []) with 0 in Hrem.
    destruct (buf to) as [|b0 b] eqn:Eb; [cbn [length] in Hroom2; lia|]. exists (decimal_make_zero to). split; [done|]. unfold decimal_make_zero. rewrite Eb. cbn [insert list_insert].
    destruct (valid_stored 1 0 false [0] b) as [Hv Hw]; [done|done|done|by repeat constructor|done|]. change (reverse [0] ++ b) with (0 :: b) in Hv, Hw. split; [done|]. left. rewrite Hw.
    pose proof (round_up_spec (frac to) Hfr). do 4 (split; [done|]). split; [unfold DIG_PER_DEC1 in *; lia|done]. }
  assert (1 <= i0 + F)%nat as Hone by (destruct (Z.eqb_spec (Z.of_nat F) 0), (Z.eqb_spec (Z.of_nat i0) 0); cbn in E0; lia). clear E0.
  assert (forall n b, n = Z.of_nat (i0 + F) -> b = buf to -> exists rest, (w ← first_words S (Z.max n 0); store b (0 + Z.of_nat (length w)) w) = Some (take (i0 + F) S ++ rest)) as Hcopy.
  { intros n b -> ->. rewrite Z.max_l by lia. pose proof (first_words_spec (take (i0 + F) S) (drop (i0 + F) S)) as Ef. rewrite take_drop, length_take, Nat.min_l in Ef by lia. rewrite Ef. cbn [mbind option_bind].
    rewrite Z.add_0_l, store_spec by (rewrite ?length_take; lia). rewrite Nat.sub_diag, take_0. by eexists. }
  assert (forall i rest, ROUND_UP i = Z.of_nat i0 -> 0 <= i -> i = Z.min (Z.of_nat i0 * DIG_PER_DEC1) intg2 -> let to' := mkDec i (frac to) (sign to) (take (i0 + F) S ++ rest) in
    valid to' /\ (rem = 0 /\ rval (words to') = 0 /\ fw to' = O /\ frac to' = 0 /\ frac to = 0 /\ intg to' = 1 \/
     rval (words to') = rem /\ fw to' = F /\ frac to' = frac to /\ sign to' = sign to /\ intg to' = Z.min (Z.of_nat i0 * DIG_PER_DEC1) intg2)) as Hfin.
  { intros i rest Ei Hi Em. pose proof (round_up_spec i Hi). pose proof (round_up_spec (frac to) Hfr). destruct (valid_stored i (frac to) (sign to) (reverse (take (i0 + F) S)) rest) as [Hv Hw];
      [lia|lia|unfold DIG_PER_DEC1 in *; lia|by apply Forall_reverse, Forall_take|rewrite length_reverse, length_take; lia|]. rewrite reverse_involutive in Hv, Hw. split; [done|]. right. rewrite Hw.
    split; [done|]. split; [unfold fw; cbn; lia|done]. }
  destruct (Z.leb_spec (Z.of_nat i0) 0) as [Hi|Hi].
  - assert (i0 = O) as -> by lia. rewrite (proj2 (Z.leb_gt _ _)) by lia. change (- Z.of_nat 0) with 0. rewrite (store_spec (buf to) 0 [] ltac:(cbn; lia) ltac:(lia) : store (buf to) 0 (replicate (Z.to_nat 0) 0) = _).
    cbn [take drop app Nat.sub length mbind option_bind]. rewrite (proj2 (Z.ltb_ge _ (1 + _))) by lia. destruct (Hcopy (Z.of_nat F) (buf to)) as (rest & E); [done|done|]. rewrite ?drop_0, ?take_0. cbn [app].
    destruct (first_words S _) as [w|]; [|done]. cbn [mbind option_bind] in E |- *. rewrite E. cbn [mbind option_bind]. eexists. split; [done|]. apply Hfin; [done|done|]. unfold DIG_PER_DEC1. lia.
  - rewrite (proj2 (Z.ltb_ge _ (Z.of_nat i0))) by lia. rewrite bind_assert by (apply Z.leb_le; lia). rewrite (proj2 (Z.ltb_ge _ (Z.of_nat i0 + _))) by lia.
    destruct (Hcopy (Z.of_nat F + Z.of_nat i0) (buf to)) as (rest & E); [lia|done|]. destruct (first_words S _) as [w|]; [|done]. cbn [mbind option_bind] in E |- *. rewrite E. cbn [mbind option_bind].
    eexists. split; [done|]. apply Hfin; [|unfold DIG_PER_DEC1; lia|done]. pose proof (round_up_spec (Z.min (Z.of_nat i0 * DIG_PER_DEC1) intg2) ltac:(unfold DIG_PER_DEC1; lia)). unfold DIG_PER_DEC1 in *. lia.
Qed.

(** ** The value *)

Lemma rem_of S1 S2 q R z : 0 < z -> S1 * z = q * (S2 * z) + R -> 0 <= R < S2 * z -> R = (S1 mod S2) * z.
Proof.
  intros Hz E HR. assert (R = (S1 - q * S2) * z) as ER by lia. rewrite ER in HR. assert (0 <= S1 - q * S2 < S2) by nia.
  rewrite ER. f_equal. apply (Z.mod_unique_pos _ _ q); [done|lia].
Qed.

(** The divisor is larger. *)
Lemma divisor_larger w1 W1 w2 W2 (f1 f2 F : nat) : Forall (fun w => digit w) (w1 :: W1) -> Forall (fun w => digit w) (w2 :: W2) -> 1 <= w2 -> (f1 <= F)%nat -> (f2 <= F)%nat ->
  (length W1 + (if (w1 <? w2)%Z then 0 else 1) + f2 <= length W2 + f1)%nat ->
  0 <= B ^ Z.of_nat (F - f1) * fval (w1 :: W1) < B ^ Z.of_nat (F - f2) * fval (w2 :: W2).
Proof.
  intros D1 D2 H2 Hf1 Hf2 Hle. pose proof (fval_bound (w1 :: W1) D1) as Hb. pose proof (Bpow_pos (F - f1)) as Pf. split; [apply Z.mul_nonneg_nonneg; lia|]. clear Hb.
  pose proof (first_words_ratio w1 W1 w2 W2 D1 D2 H2) as Hr. set (a := (length W1 + (if (w1 <? w2)%Z then 0 else 1))%nat) in *.
  set (r := (F - f2 + length W2 - (a + (F - f1)))%nat). assert (F - f2 + length W2 = a + (F - f1) + r)%nat as Er by (unfold r; lia). clearbody r a.
  pose proof (Bpow_pos (length W2)) as P2. pose proof (Bpow_pos r) as Pr. apply (Z.mul_lt_mono_pos_r (B ^ Z.of_nat (length W2))); [done|].
  assert (B ^ Z.of_nat (F - f2) * B ^ Z.of_nat (length W2) = B ^ Z.of_nat a * B ^ Z.of_nat (F - f1) * B ^ Z.of_nat r) as Eb by (by rewrite <- !Bpow_add, Er).
  pose proof (Bpow_pos a) as Pa. set (v1 := fval (w1 :: W1)) in *. set (v2 := fval (w2 :: W2)) in *. set (ba := B ^ Z.of_nat a) in *. set (bf := B ^ Z.of_nat (F - f1)) in *. set (br := B ^ Z.of_nat r) in *.
  set (b2 := B ^ Z.of_nat (length W2)) in *. set (bg := B ^ Z.of_nat (F - f2)) in *. assert (0 <= v2) by (apply fval_bound, D2). clearbody v1 v2 ba bf br b2 bg.
  assert (bg * v2 * b2 = v2 * ba * bf * br) as -> by (transitivity (v2 * (bg * b2)); [ring|]; rewrite Eb; ring).
  assert (v1 * b2 * bf < v2 * ba * bf) as Hlt by (apply Z.mul_lt_mono_pos_r; lia).
  assert (v2 * ba * bf * 1 <= v2 * ba * bf * br) by (apply Z.mul_le_mono_nonneg_l; [repeat apply Z.mul_nonneg_nonneg; lia|lia]). lia.
Qed.

(** What the main loop leaves. *)
Lemma remainder_left w1 W1 w2 W2 ds j (pad f1 f2 F : nat) : Forall (fun w => digit w) (w1 :: W1) -> Forall (fun w => digit w) (w2 :: W2) -> 1 <= w1 -> 1 <= w2 ->
  w2 :: W2 = (w2 :: ds) ++ replicate j 0 -> F = Nat.max f1 f2 ->
  let x := (Z.of_nat (length W1) - Z.of_nat f1) - (Z.of_nat (length W2) - Z.of_nat f2) + b2z (w2 <=? w1) in let n := Z.to_nat x in
  let tmp1 := (w1 :: W1) ++ replicate pad 0 in let o := if w1 <? w2 then 1 else 0 in
  Z.of_nat (length W1) + Z.of_nat f2 - Z.of_nat f1 + 2 <= Z.of_nat (length tmp1) -> (F <= pad + f1)%nat ->
  0 <= Z.of_nat (length W1) + 1 - Z.of_nat f1 -> (f2 <= length W2)%nat ->
  let '(dcarry, start1) := if w1 <? w2 then (w1, drop 1 tmp1) else (0, tmp1) in
  let S1 := B ^ Z.of_nat (F - f1) * fval (w1 :: W1) in let S2 := B ^ Z.of_nat (F - f2) * fval (w2 :: W2) in
  exists q dcarry' start1', div_loop n (w2 :: ds) (norm_factor_of (w2 :: ds)) (norm2_of (w2 :: ds)) dcarry start1 = Some (q, dcarry', start1') /\
    Forall (fun w => digit w) (dcarry' :: start1') /\ Z.of_nat (length start1') + Z.of_nat n + o = Z.of_nat (length tmp1) /\
    fval (dcarry' :: start1') = (S1 mod S2) * B ^ Z.of_nat (pad + f1 - F) /\
    0 <= Z.of_nat (length W1) + 1 - Z.of_nat f1 - (if dcarry' =? 0 then o + Z.of_nat n else o + Z.of_nat n - 1) <= Z.of_nat (length W2) + 1 - Z.of_nat f2.
Proof.
  intros D1 D2 H1 H2 Ew2 HF x n tmp1 o Hlen Hpad He1 He2. destruct (if w1 <? w2 then (w1, drop 1 tmp1) else _) as [dcarry start1] eqn:Est. intros S1 S2.
  assert (length tmp1 = S (length W1) + pad)%nat as ET by (unfold tmp1; by rewrite length_app, length_replicate).
  assert (x = Z.of_nat (length W1) - Z.of_nat f1 - (Z.of_nat (length W2) - Z.of_nat f2) + 1 - o) as Ex by (unfold x, o; rewrite Z.leb_antisym; destruct (w1 <? w2); cbn [negb b2z]; lia). clearbody x.
  pose proof (Bpow_pos (pad + f1 - F)) as Pz. assert (fval (w1 :: W1) * B ^ Z.of_nat pad = S1 * B ^ Z.of_nat (pad + f1 - F)) as EV1.
  { unfold S1. assert (pad = (F - f1) + (pad + f1 - F))%nat as Ep by lia. rewrite Ep at 1. rewrite Bpow_add. lia. }
  destruct (Z.ltb_spec x 0) as [Hx|Hx].
  - assert (n = O) as En by lia. rewrite En. exists [], dcarry, start1. split; [done|]. assert (Forall (fun w => digit w) tmp1) as Dt by (apply Forall_app; split; [done|by apply Forall_replicate]).
    rewrite (Z.mod_small S1 S2) by (apply divisor_larger; [done|done|done|lia|lia|unfold o in *; destruct (w1 <? w2); lia]). rewrite <- EV1.
    assert (fval tmp1 = fval (w1 :: W1) * B ^ Z.of_nat pad) as Et by (unfold tmp1; by rewrite fval_app, length_replicate, reverse_replicate, rval_replicate, Z.add_0_r). rewrite <- Et.
    unfold o in *. destruct (w1 <? w2) eqn:Ew; injection Est as <- <-.
    + unfold tmp1 in *. cbn [app drop] in *. rewrite drop_0. split; [done|]. cbn [length] in *. split; [lia|]. split; [done|]. rewrite (proj2 (Z.eqb_neq w1 0)) by lia. lia.
    + split; [constructor; [done|done]|]. split; [lia|]. split; [rewrite fval_cons; lia|]. cbn [Z.eqb]. lia.
  - pose proof (long_division w1 W1 w2 W2 ds j pad n D1 D2 H2 Ew2) as Hld. cbv zeta in Hld. fold tmp1 in Hld. rewrite Est in Hld. cbn [length] in Hld.
    assert (Z.of_nat n + o + Z.of_nat (length W2) = Z.of_nat (length W1) - Z.of_nat f1 + Z.of_nat f2 + 1) as En by (clear -Ex Hx; unfold n; lia).
    set (on := if w1 <? w2 then 1%nat else O) in *. assert (o = Z.of_nat on) as Eo by (unfold o, on; by destruct (w1 <? w2)). clearbody o on.
    destruct Hld as (q & dc & s & Eq & Lq & _ & Ddc & Ds & Ls & _ & Ev & Hb); [clear -En Eo Hlen; lia|]. exists q, dc, s. split; [done|]. split; [by constructor|].
    split; [clear -Ls Eo; lia|]. split; [|clear -En He2; destruct (dc =? 0); lia]. clear Est Eq Ew2 D1 D2.
    match type of Hb with _ <= _ < _ * B ^ Z.of_nat ?y => assert (y = (F - f2) + (pad + f1 - F))%nat as Ey by (clear -En Eo ET HF Hpad He2; lia) end. rewrite Ey, Bpow_add in Ev, Hb. rewrite EV1 in Ev.
    set (bz := B ^ Z.of_nat (pad + f1 - F)) in *. assert (fval (w2 :: W2) * (B ^ Z.of_nat (F - f2) * bz) = S2 * bz) as ES2 by (unfold S2; ring). rewrite ES2 in Ev, Hb. apply (rem_of S1 S2 (fval q)); done.
Qed.

(** The value as a number of the divisor's shape. *)
Lemma remainder_shape d1 d2 to' (F : nat) : number d1 -> number d2 -> rval (words d2) <> 0 -> F = Nat.max (fw d1) (fw d2) -> valid to' ->
  rval (words to') = scaled F d1 mod scaled F d2 -> fw to' = F -> frac to' = Z.max (frac d1) (frac d2) ->
  (exists n, intg to' = n * DIG_PER_DEC1 /\ 0 <= n) \/ intg to' = intg d2 -> whole to' /\ precise (frac to') (fw to') (rval (words to')).
Proof.
  intros N1 N2 Hne HF Hv Ew Ef Efr Hi. pose proof (n_valid d1 N1) as V1. pose proof (n_valid d2 N2) as V2. pose proof (v_frac d1 V1). pose proof (v_frac d2 V2).
  pose proof (round_up_spec (frac d1) ltac:(done)). pose proof (round_up_spec (frac d2) ltac:(done)). pose proof (fw_Z d1 V1). pose proof (fw_Z d2 V2).
  assert (0 < scaled F d2) as Hs2 by (unfold scaled; pose proof (rval_nonneg d2 V2); apply Z.mul_pos_pos; [apply Bpow_pos|lia]). split.
  - destruct Hi as [(n & En & Hn)|Ei]; [by apply (whole_words to' n)|]. unfold whole. rewrite Ew, Ef, Ei. pose proof (Z.mod_pos_bound (scaled F d1) _ Hs2).
    assert (scaled F d2 < 10 ^ intg d2 * B ^ Z.of_nat F); [|lia]. unfold scaled. pose proof (n_whole d2 N2) as Hw. unfold whole in Hw. pose proof (Bpow_pos (F - fw d2)) as Pf.
    assert (F = (fw d2 + (F - fw d2))%nat) as EF by lia. rewrite EF at 2. rewrite Bpow_add, Z.mul_assoc, (Z.mul_comm (B ^ Z.of_nat (F - fw d2))). by apply Z.mul_lt_mono_pos_r.
  - rewrite Ew, Ef, Efr. pose proof (precise_scaled d1 (Z.max (frac d1) (frac d2)) F N1 ltac:(lia) ltac:(lia) ltac:(lia)) as P1. pose proof (precise_scaled d2 (Z.max (frac d1) (frac d2)) F N2 ltac:(lia) ltac:(lia) ltac:(lia)) as P2.
    unfold precise in *. rewrite Z.mod_eq by lia. apply Z.divide_sub_r; [done|]. by apply Z.divide_mul_l.
Qed.

(** C17: [decimal_mod] of a dividend that is not zero and at least 10^-9 in
    absolute value by a divisor that is at least one, into a decimal with room for
    the words of the divisor before the point and those of the longer operand
    behind it: no error, and the result is exactly the remainder of the absolute
    values, in valid words with no digits beyond the digits and the scale it
    announces; its scale is that of the longer operand, and its sign, unless it is
    zero, that of the dividend (a zero may keep a minus sign,
    [decimal_mod_negative_zero]). *)
Theorem decimal_mod_exact d1 d2 to : number d1 -> number d2 -> rval (words d1) <> 0 ->
  B ^ Z.of_nat (fw d2) <= rval (words d2) -> B ^ Z.of_nat (fw d1) <= B * rval (words d1) -> let F := Nat.max (fw d1) (fw d2) in Z.of_nat (iw d2 + F) <= len to ->
  exists to', decimal_mod d1 d2 to = Some (to', E_DEC_OK) /\ valid to' /\ whole to' /\ precise (frac to') (fw to') (rval (words to')) /\ frac to' = Z.max (frac d1) (frac d2) /\ (fw to' <= F)%nat /\
    scaled F to' = scaled F d1 mod scaled F d2 /\ (rval (words to') <> 0 -> sign to' = sign d1).
Proof.
  intros N1 N2 Hv1 Hge2 Hge1 F Hroom. pose proof (n_valid d1 N1) as V1. pose proof (n_valid d2 N2) as V2. pose proof (Bpow_pos (fw d2)) as Pf2.
  destruct (div_operand_spec d1 N1) as [[E _]|(w1 & W1 & k1 & tl1 & E1 & D1 & Vw1 & Hk1 & Hw1 & L1 & _)]; [done|].
  destruct (div_operand_spec d2 N2) as [[E _]|(w2 & W2 & k2 & tl2 & E2 & D2 & Vw2 & Hk2 & Hw2 & L2 & Hv2)]; [lia|]. cbn [length] in L1, L2.
  assert (fw d2 <= length W2)%nat as He2.
  { pose proof (fval_bound (w2 :: W2) D2) as [_ Hb]. rewrite Vw2 in Hb. assert (Z.of_nat (fw d2) < Z.of_nat (length (w2 :: W2))) as Hlt by (apply (Z.pow_lt_mono_r_iff B); [done|lia|lia]). cbn [length] in Hlt. lia. }
  assert (fw d1 <= S (length W1))%nat as He1.
  { pose proof (fval_bound (w1 :: W1) D1) as [_ Hb]. rewrite Vw1 in Hb. assert (B * rval (words d1) < B ^ Z.of_nat (S (length (w1 :: W1)))) by (rewrite Bpow_S; apply Z.mul_lt_mono_pos_l; [done|lia]).
    assert (Z.of_nat (fw d1) < Z.of_nat (S (length (w1 :: W1)))) as Hlt by (apply (Z.pow_lt_mono_r_iff B); [done|lia|lia]). cbn [length] in Hlt. lia. }
  destruct (do_div_mod_loop d1 d2 to true 0 w1 W1 k1 tl1 w2 W2 k2 tl2 V1 V2) as (ds & j & pad & Ew2 & Hlen1 & Hlen2 & Hmain); [lia|done..|by left|]. cbv zeta in Hmain.
  assert (1 <= w1 /\ 1 <= w2) as [Hw1' Hw2'] by (assert (0 < 10 ^ Z.of_nat k1) by (apply Z.pow_pos_nonneg; lia); assert (0 < 10 ^ Z.of_nat k2) by (apply Z.pow_pos_nonneg; lia); lia).
  assert (length ((w1 :: W1) ++ replicate pad 0%Z) = S (length W1) + pad)%nat as ET by (by rewrite length_app, length_replicate).
  pose proof (remainder_left w1 W1 w2 W2 ds j pad (fw d1) (fw d2) F D1 D2 Hw1' Hw2' Ew2 eq_refl) as Hrem. cbv zeta in Hrem. specialize (Hrem ltac:(lia) ltac:(lia) ltac:(lia) He2).
  set (x := _ - _ + b2z _) in *. rewrite Z.sub_0_r, Z.add_0_r in Hmain. replace (Z.to_nat (Z.max 0 x)) with (Z.to_nat x) in Hmain by lia.
  destruct (if w1 <? w2 then (w1, _) else _) as [dcarry start1]. destruct Hrem as (q & dc & s & Eq & Ds & Ls & Vs & Hi0). set (o := if w1 <? w2 then 1 else 0) in *.
  change (B ^ Z.of_nat (F - fw d1) * fval (w1 :: W1)) with (B ^ Z.of_nat (F - fw d1) * fval (w1 :: W1)) in Vs. rewrite Vw1, Vw2 in Vs. fold (scaled F d1) (scaled F d2) in Vs.
  unfold decimal_mod. rewrite Hmain. rewrite (store_spec (buf to) 0 [] ltac:(cbn; lia) ltac:(lia) : store (buf to) 0 (replicate (Z.to_nat 0) 0) = _). cbn [mbind option_bind]. rewrite Eq. cbn [mbind option_bind].
  clear Hmain Eq Hge1 Hge2 Hw1 Hw2 E1 E2 Pf2 Hv1 Ew2 Hlen1 Hw1' Hw2' D1 D2. pose proof (v_frac d1 V1). pose proof (v_frac d2 V2). set (S := if dc =? 0 then s else dc :: s).
  assert (Forall (fun w => digit w) S) as DS by (unfold S; destruct (dc =? 0); [by apply Forall_cons in Ds as [_ Ds]|done]).
  assert (fval S = fval (dc :: s)) as VS by (unfold S; destruct (Z.eqb_spec dc 0) as [E|]; [rewrite fval_cons, E; lia|done]).
  set (pos := if dc =? 0 then o + Z.of_nat (Z.to_nat x) else o + Z.of_nat (Z.to_nat x) - 1) in *. assert (Z.of_nat (length S) + pos = Z.of_nat (length W1) + 1 + Z.of_nat pad) as LS by (clear -Ls ET; unfold S, pos; destruct (dc =? 0); cbn [length]; lia).
  set (i0 := Z.to_nat (Z.of_nat (length W1) + 1 - Z.of_nat (fw d1) - pos)). assert (Z.of_nat (length W1) + 1 - Z.of_nat (fw d1) - pos = Z.of_nat i0) as Ei0 by (clear -Hi0; lia).
  assert (0 < F + 1)%nat as HF1 by lia. set (z := (pad + fw d1 - F)%nat) in *.
  destruct (mod_result_spec (mkDec (intg to) (Z.max (frac d1) (frac d2)) (sign d1) (buf to)) (intg d2) (Z.of_nat (length W1)) k1 (fw d1) dc s (o + Z.of_nat (Z.to_nat x)) F i0 (scaled F d1 mod scaled F d2))
    as (to' & E & Hv & Hcase); [lia|done|done| |cbn; lia|exact Ei0|fold S; lia| | |apply (v_intg d2 V2)|unfold len in *; cbn; lia|unfold len in *; cbn; lia|].
  { cbn [frac]. rewrite round_up_max, !fw_Z by done. lia. }
  { fold S. apply (fval_take S (i0 + F) z); [done|lia|]. by rewrite VS. }
  { rewrite iw_Z by done. lia. }
  exists to'. split; [exact E|]. split; [exact Hv|]. clear E Ei0 Hi0 LS. cbn [frac sign] in Hcase. destruct Hcase as [(E0 & Er & Ef & Efr & Emax & Ein)|(Er & Ef & Efr & Esg & Ein)].
  - rewrite Er, Efr, E0. split; [unfold whole; rewrite Er, Ein, Ef; done|]. split; [apply precise_zero|]. split; [by rewrite Emax|]. split; [rewrite Ef; apply Nat.le_0_l|]. split; [unfold scaled; rewrite Er; lia|done].
  - destruct (remainder_shape d1 d2 to' F N1 N2 Hv2 eq_refl Hv Er Ef Efr) as [Hwh Hpr].
    { rewrite Ein. destruct (Z.min_spec (Z.of_nat i0 * DIG_PER_DEC1) (intg d2)) as [[_ ->]|[_ ->]]; [left; exists (Z.of_nat i0); split; [done|lia]|by right]. }
    split; [exact Hwh|]. split; [exact Hpr|]. split; [exact Efr|]. split; [by rewrite Ef|]. split; [unfold scaled at 1; rewrite Ef, Er, Nat.sub_diag; change (B ^ Z.of_nat 0) with 1; lia|done].
Qed.

Lemma decimal_mod_exact_witness :
  number (mkDec 10 1 true [1; 234567890; 500000000]) /\ number (mkDec 1 1 false [7; 300000000]) /\
  exists to', decimal_mod (mkDec 10 1 true [1; 234567890; 500000000]) (mkDec 1 1 false [7; 300000000]) (mkDec 0 0 false (replicate 3 7)) = Some (to', E_DEC_OK) /\
    valid to' /\ whole to' /\ precise (frac to') (fw to') (rval (words to')) /\ frac to' = 1 /\ (fw to' <= 1)%nat /\
    scaled 1 to' = 1234567890500000000 mod 7300000000 /\ (rval (words to') <> 0 -> sign to' = true).
Proof.
  assert (number (mkDec 10 1 true [1; 234567890; 500000000])) as N1.
  { split; [split; cbn; try lia; repeat (constructor; [unfold DIG_BASE; lia|]); constructor|vm_compute; congruence|exists 12345678905; reflexivity|vm_compute; discriminate]. }
  assert (number (mkDec 1 1 false [7; 300000000])) as N2.
  { split; [split; cbn; try lia; repeat (constructor; [unfold DIG_BASE; lia|]); constructor|vm_compute; congruence|exists 73; reflexivity|discriminate]. }
  split; [exact N1|]. split; [exact N2|].
  apply (decimal_mod_exact _ _ (mkDec 0 0 false (replicate 3 7)) N1 N2); vm_compute; congruence.
Defined.

(** Where the function does not do what it says. *)

(** The words of the dividend that are zero behind the point are forgotten:
    0.0000000005 modulo 1 gives 0.5. *)
Lemma decimal_mod_forgets_zeros : decimal_mod (mkDec 1 10 false [0; 0; 500000000]) (mkDec 1 0 false [1]) (mkDec 0 0 false (replicate 4 7)) = Some (mkDec 0 10 false [500000000; 0; 7; 7], E_DEC_OK).
Proof. vm_compute. reflexivity. Qed.

(** With too little room more words are copied, not fewer. *)
Lemma decimal_mod_truncation_overflow : decimal_mod (mkDec 1 1 false [1; 500000000]) (mkDec 1 0 false [3]) (mkDec 0 0 false [7]) = None.
Proof. vm_compute. reflexivity. Qed.

(** A remainder can be -0. *)
Lemma decimal_mod_negative_zero : decimal_mod (mkDec 1 1 true [6; 0]) (mkDec 1 0 false [3]) (mkDec 0 0 false [7; 7]) = Some (mkDec 0 1 true [0; 7], E_DEC_OK).
Proof. vm_compute. reflexivity. Qed.
