(* ===== verification/DecimalShift.v ===== *)
(** * Shifting of exact decimals (strings/decimal.c: [decimal_shift])

    The digits of the array are counted from 0; [beg] and [last] are the bounds of
    those that are not zero.  The digits are first moved within the words, so that
    the new point lies between two words, then by whole words. *)

From stdpp Require Import base numbers list.
From Stdlib Require Import ZArith Lia.
From S2P Require Import Prelude Decimal DecimalArith DecimalSub DecimalMul DecimalInt DecimalBin DecimalPack DecimalRound DecimalDiv DecimalMod.

Local Open Scope Z_scope.

(** ** The functions *)

(** The words from index [a] to [b]. *)
Definition segment (b : list Z) (i j : Z) : option (list Z) := l ← back b i j; Some (reverse l).

(** [for (; *buf_beg < powers10[i--]; start++)] *)
Fixpoint lead_digits (i : nat) (w start : Z) : option Z :=
  if w <? power10 (Z.of_nat i) then match i with O => None | S i => lead_digits i w (start + 1) end
  else Some start.

(** [for (; *buf_end % powers10[i++] == 0; stop--)] *)
Fixpoint trail_digits (fuel : nat) (i w stop : Z) : option Z :=
  match fuel with
  | O => None
  | S fuel => if Z.rem w (power10 i) =? 0 then trail_digits fuel (i + 1) w (stop - 1) else Some stop
  end.

Definition digits_bounds (from : decimal_t) : option (Z * Z) :=
  let n := ROUND_UP (intg from) + ROUND_UP (frac from) in
  l ← segment (buf from) 0 n;
  let buf_beg := zero_words l in
  if n <=? buf_beg then Some (0, 0)
  else
    w ← word l buf_beg;
    let '(start, i) :=
      if (buf_beg =? 0) && negb (intg from =? 0) then
        let i := Z.rem (intg from - 1) DIG_PER_DEC1 + 1 in (DIG_PER_DEC1 - i, i - 1)
      else (buf_beg * DIG_PER_DEC1, DIG_PER_DEC1 - 1) in
    start ← lead_digits (Z.to_nat i) w start;
    let buf_end := Z.max buf_beg (n - 1 - zero_words (reverse l)) in
    w ← word l buf_end;
    let '(stop, i) :=
      if (buf_end =? n - 1) && negb (frac from =? 0) then
        let i := Z.rem (frac from - 1) DIG_PER_DEC1 + 1 in (buf_end * DIG_PER_DEC1 + i, DIG_PER_DEC1 - i + 1)
      else ((buf_end + 1) * DIG_PER_DEC1, 1) in
    stop ← trail_digits 10 i w stop;
    Some (start, stop).

(** The words with each digit moved to the left, [c_shift] digits of a word staying. *)
Fixpoint left_words (shift c_shift : Z) (l : list Z) : list Z :=
  match l with
  | [] => []
  | w :: l => Z.rem w (power10 c_shift) * power10 shift + match l with w' :: _ => Z.quot w' (power10 c_shift) | [] => 0 end :: left_words shift c_shift l
  end.

Definition do_mini_left_shift (b : list Z) (shift beg last : Z) : option (list Z) :=
  let from := ROUND_UP (beg + 1) - 1 in
  let end_ := ROUND_UP last - 1 in
  let c_shift := DIG_PER_DEC1 - shift in
  _ ← assert_that ((0 <=? from) && (end_ <? Z.of_nat (length b)));
  l ← segment b from (end_ + 1);
  w ← head l;
  b ← (if Z.rem beg DIG_PER_DEC1 <? shift then set_word b (from - 1) (Z.quot w (power10 c_shift)) else Some b);
  store b (end_ + 1) (left_words shift c_shift l).

(** To the right; the last word first. *)
Fixpoint right_words (shift c_shift : Z) (l : list Z) : list Z :=
  match l with
  | [] => []
  | w :: l => Z.quot w (power10 shift) + match l with w' :: _ => Z.rem w' (power10 shift) * power10 c_shift | [] => 0 end :: right_words shift c_shift l
  end.

Definition do_mini_right_shift (b : list Z) (shift beg last : Z) : option (list Z) :=
  let from := ROUND_UP last - 1 in
  let end_ := ROUND_UP (beg + 1) - 1 in
  let c_shift := DIG_PER_DEC1 - shift in
  _ ← assert_that ((from <? Z.of_nat (length b)) && (0 <=? end_));
  l ← back b end_ (from + 1);
  w ← head l;
  b ← (if DIG_PER_DEC1 - (Z.rem (last - 1) DIG_PER_DEC1 + 1) <? shift then set_word b (from + 1) (Z.rem w (power10 shift) * power10 c_shift) else Some b);
  store b (from + 1) (reverse (right_words shift c_shift l)).

(** The words of the digits are moved by [d_shift] words, to the left if it is
    positive, and zeros take their place. *)
Definition move_words (b : list Z) (beg last d_shift : Z) : option (list Z) :=
  let wbeg := ROUND_UP (beg + 1) - 1 in
  let wend := ROUND_UP last - 1 in
  _ ← assert_that ((0 <=? wbeg - d_shift) && (wend - d_shift <? Z.of_nat (length b)));
  l ← segment b wbeg (wend + 1);
  if 0 <? d_shift then store b (wend + 1) (l ++ replicate (Z.to_nat d_shift) 0)
  else store b (wend - d_shift + 1) (replicate (Z.to_nat (- d_shift)) 0 ++ l).

(** The gap between the digits and the point is filled with zeros. *)
Definition fill_gap (b : list Z) (beg last new_point : Z) : option (list Z) :=
  let beg := ROUND_UP (beg + 1) - 1 in
  let last := ROUND_UP last - 1 in
  _ ← assert_that (0 <=? new_point);
  let new_point := if new_point =? 0 then 0 else ROUND_UP new_point - 1 in
  if last <? new_point then store b (new_point + 1) (replicate (Z.to_nat (new_point - last)) 0)
  else if new_point <? beg then store b beg (replicate (Z.to_nat (beg - new_point)) 0) else Some b.

(** The digits are shifted within the words, so that the new point is between two
    words; also the distance. *)
Definition align_digits (b : list Z) (shift beg last : Z) : option (list Z * Z) :=
  let room := Z.of_nat (length b) * DIG_PER_DEC1 - last in
  if 0 <? shift then
    let l_mini_shift := Z.rem shift DIG_PER_DEC1 in
    let r_mini_shift := DIG_PER_DEC1 - l_mini_shift in
    let do_left := l_mini_shift <=? beg in
    _ ← assert_that (do_left || (r_mini_shift <=? room));
    if do_left then b ← do_mini_left_shift b l_mini_shift beg last; Some (b, - l_mini_shift)
    else b ← do_mini_right_shift b r_mini_shift beg last; Some (b, r_mini_shift)
  else
    let r_mini_shift := Z.rem (- shift) DIG_PER_DEC1 in
    let l_mini_shift := DIG_PER_DEC1 - r_mini_shift in
    let do_left := negb (r_mini_shift <=? room) in
    _ ← assert_that (negb do_left || (l_mini_shift <=? beg));
    if do_left then b ← do_mini_left_shift b l_mini_shift beg last; Some (b, - l_mini_shift)
    else b ← do_mini_right_shift b r_mini_shift beg last; Some (b, r_mini_shift).

(** The words are moved if the first digit of the result is not in the first one,
    and the gap is filled. *)
Definition move_digits (b : list Z) (beg last new_point digits_int : Z) : option (list Z) :=
  (* if new 'decimal front' is in first digit, we do not need move digits *)
  let new_front := new_point - digits_int in
  if (DIG_PER_DEC1 <=? new_front) || (new_front <? 0) then
    let d_shift := if 0 <? new_front then Z.quot new_front DIG_PER_DEC1 else - Z.quot (1 - new_front) DIG_PER_DEC1 in
    b ← move_words b beg last d_shift;
    fill_gap b (beg - d_shift * DIG_PER_DEC1) (last - d_shift * DIG_PER_DEC1) (new_point - d_shift * DIG_PER_DEC1)
  else fill_gap b beg last new_point.

(** The end of [decimal_shift], from the alignment of the digits on. *)
Definition shift_digits (dec : decimal_t) (shift beg last new_point digits_int digits_frac err : Z) : option (decimal_t * Z) :=
  let result b := Some (mkDec digits_int digits_frac (sign dec) b, err) in
  if negb (Z.rem shift DIG_PER_DEC1 =? 0) then
    '(b, mini_shift) ← align_digits (buf dec) shift beg last;
    let new_point := new_point + mini_shift in
    if (shift + mini_shift =? 0) && (new_point - digits_int <? DIG_PER_DEC1) then result b (* already shifted as it should be *)
    else b ← move_digits b (beg + mini_shift) (last + mini_shift) new_point digits_int; result b
  else b ← move_digits (buf dec) beg last new_point digits_int; result b.

Definition decimal_shift (dec : decimal_t) (shift : Z) : option (decimal_t * Z) :=
  let point := ROUND_UP (intg dec) * DIG_PER_DEC1 in
  let new_point := point + shift in
  if shift =? 0 then Some (dec, E_DEC_OK)
  else
    '(beg, last) ← digits_bounds dec;
    if beg =? last then Some (decimal_make_zero dec, E_DEC_OK)
    else
      let digits_int := Z.max (new_point - beg) 0 in
      let digits_frac := Z.max (last - new_point) 0 in
      let new_frac_len := ROUND_UP digits_frac in
      let new_len := ROUND_UP digits_int + new_frac_len in
      if len dec <? new_len then
        let lack := new_len - len dec in
        if new_frac_len <? lack then Some (dec, E_DEC_OVERFLOW)
        else
          (* cut off fraction part to allow new number to fit in our buffer *)
          let new_frac_len := new_frac_len - lack in
          let diff := digits_frac - new_frac_len * DIG_PER_DEC1 in
          '(dec, _) ← decimal_round dec None (last - point - diff) HALF_UP;
          let last := last - diff in
          if last <=? beg then Some (decimal_make_zero dec, E_DEC_TRUNCATED)
          else shift_digits dec shift beg last new_point digits_int (new_frac_len * DIG_PER_DEC1) E_DEC_TRUNCATED
      else shift_digits dec shift beg last new_point digits_int digits_frac E_DEC_OK.

(** ** Parts of an array *)

Lemma segment_mid P L T : segment (P ++ L ++ T) (Z.of_nat (length P)) (Z.of_nat (length P + length L)) = Some L.
Proof.
  unfold segment, back. rewrite (proj2 (Z.leb_le 0 _)), (proj2 (Z.leb_le (Z.of_nat (length P)) _)), (proj2 (Z.leb_le (Z.of_nat (length P + _)) _)) by (rewrite ?length_app; lia).
  cbn [andb mbind option_bind]. replace (Z.to_nat (_ - _)) with (length L) by lia. by rewrite Nat2Z.id, drop_app_length, take_app_length, reverse_involutive.
Qed.

Lemma store_mid P L L' T : length L' = length L -> store (P ++ L ++ T) (Z.of_nat (length P + length L)) L' = Some (P ++ L' ++ T).
Proof.
  intros Hl. rewrite store_spec by (rewrite ?length_app; lia). replace (length P + length L - length L')%nat with (length P) by lia.
  rewrite take_app_length. replace (P ++ L ++ T) with ((P ++ L) ++ T) by (by rewrite <- app_assoc). rewrite <- length_app, drop_app_length. done.
Qed.

(** The index of the word of a digit. *)
Lemma word_of_first beg (p : nat) : 9 * Z.of_nat p <= beg < 9 * Z.of_nat p + 9 -> ROUND_UP (beg + 1) - 1 = Z.of_nat p.
Proof. intros H. pose proof (round_up_spec (beg + 1) ltac:(lia)). lia. Qed.

Lemma word_of_last last (q : nat) : 9 * Z.of_nat q - 9 < last <= 9 * Z.of_nat q -> ROUND_UP last - 1 = Z.of_nat q - 1.
Proof.
  intros H. destruct q as [|q]; [|pose proof (round_up_spec last ltac:(lia)); lia].
  unfold ROUND_UP, DIG_PER_DEC1. rewrite Z.quot_small by lia. done.
Qed.

(** ** The shifts within the words *)

Lemma B_split s : 0 <= s <= 9 -> B = 10 ^ s * 10 ^ (9 - s) /\ 0 < 10 ^ s /\ 0 < 10 ^ (9 - s).
Proof. intros Hs. rewrite <- Z.pow_add_r by lia. replace (s + (9 - s)) with 9 by lia. split; [done|]. split; apply Z.pow_pos_nonneg; lia. Qed.

Lemma quot_rem_power10 w n : digit w -> 0 <= n <= 9 -> Z.quot w (power10 n) = w / 10 ^ n /\ Z.rem w (power10 n) = w mod 10 ^ n.
Proof.
  intros Hw Hn. rewrite power10_pow by done. assert (0 < 10 ^ n) by (apply Z.pow_pos_nonneg; lia).
  rewrite Z.quot_div_nonneg, Z.rem_mod_nonneg by lia. done.
Qed.

Definition shifted_out (s : Z) (l : list Z) : Z := match l with w :: _ => Z.quot w (power10 (9 - s)) | [] => 0 end.

Lemma left_words_spec s l : 1 <= s <= 8 -> Forall (fun w => digit w) l ->
  Forall (fun w => digit w) (left_words s (9 - s) l) /\ length (left_words s (9 - s) l) = length l /\ digit (shifted_out s l) /\
  fval (shifted_out s l :: left_words s (9 - s) l) = fval l * 10 ^ s.
Proof.
  intros Hs. destruct (B_split s ltac:(lia)) as (EB & Hp & Hc). induction l as [|w l IH]; intros HD; [by cbn|].
  apply Forall_cons in HD as [Hw HD]. destruct (IH HD) as (HD' & Hl & Ho & Hv). clear IH.
  cbn [left_words]. change (match l with [] => 0 | w' :: _ => Z.quot w' (power10 (9 - s)) end) with (shifted_out s l).
  destruct (quot_rem_power10 w (9 - s) Hw ltac:(lia)) as [Eq Er]. rewrite Er, (power10_pow s) by lia.
  assert (0 <= shifted_out s l < 10 ^ s) as Hs0.
  { destruct l as [|w' l']; cbn [shifted_out]; [lia|]. apply Forall_cons in HD as [Hw' _]. destruct (quot_rem_power10 w' (9 - s) Hw' ltac:(lia)) as [-> _].
    split; [apply Z.div_pos; lia|apply Z.div_lt_upper_bound; lia]. }
  pose proof (Z.div_mod w (10 ^ (9 - s)) ltac:(lia)) as Ew. pose proof (Z.mod_pos_bound w (10 ^ (9 - s)) Hc) as Hm.
  assert (0 <= w / 10 ^ (9 - s) < 10 ^ s) as Hq by (split; [apply Z.div_pos; lia|apply Z.div_lt_upper_bound; lia]).
  rewrite !fval_cons in *. rewrite Hl in *. cbn [length]. rewrite Hl, Bpow_S. pose proof (Bpow_pos (length l)).
  set (x := shifted_out s l) in *. clearbody x. set (q := w / 10 ^ (9 - s)) in *. clearbody q. set (m := w mod 10 ^ (9 - s)) in *. clearbody m.
  set (F := fval l) in *. set (F' := fval (left_words s (9 - s) l)) in *. clearbody F F'. set (n := B ^ Z.of_nat (length l)) in *. clearbody n.
  set (t := 10 ^ s) in *. set (c := 10 ^ (9 - s)) in *. clearbody t c. rewrite EB in *.
  split; [constructor; [nia|done]|]. split; [done|]. change (shifted_out s (w :: l)) with (Z.quot w (power10 (9 - s))). rewrite Eq. split; [nia|]. rewrite Ew. nia.
Qed.

Lemma right_words_spec s l : 1 <= s <= 8 -> Forall (fun w => digit w) l ->
  Forall (fun w => digit w) (right_words s (9 - s) l) /\ length (right_words s (9 - s) l) = length l /\
  10 ^ s * rval (right_words s (9 - s) l) + match l with w :: _ => w mod 10 ^ s | [] => 0 end = rval l.
Proof.
  intros Hs. destruct (B_split s ltac:(lia)) as (EB & Hp & Hc). induction l as [|w l IH]; intros HD; [cbn; split_and!; [constructor|done|lia]|].
  apply Forall_cons in HD as [Hw HD]. destruct (IH HD) as (HD' & Hl & Hv). clear IH. cbn [right_words rval length]. rewrite Hl.
  destruct (quot_rem_power10 w s Hw ltac:(lia)) as [-> _]. rewrite (power10_pow (9 - s)) by lia.
  assert (match l with [] => 0 | w' :: _ => Z.rem w' (power10 s) * 10 ^ (9 - s) end = match l with [] => 0 | w' :: _ => w' mod 10 ^ s end * 10 ^ (9 - s)) as ->.
  { destruct l as [|w' l']; [done|]. apply Forall_cons in HD as [Hw' _]. by destruct (quot_rem_power10 w' s Hw' ltac:(lia)) as [_ ->]. }
  assert (0 <= match l with [] => 0 | w' :: _ => w' mod 10 ^ s end < 10 ^ s) as Hm by (destruct l; [lia|by apply Z.mod_pos_bound]).
  pose proof (Z.div_mod w (10 ^ s) ltac:(lia)) as Ew. pose proof (Z.mod_pos_bound w (10 ^ s) Hp) as Hmw.
  assert (0 <= w / 10 ^ s < 10 ^ (9 - s)) as Hq by (split; [apply Z.div_pos; lia|apply Z.div_lt_upper_bound; lia]).
  set (x := match l with [] => 0 | w' :: _ => w' mod 10 ^ s end) in *. clearbody x. set (q := w / 10 ^ s) in *. set (m := w mod 10 ^ s) in *. clearbody q m.
  set (r := rval (right_words s (9 - s) l)) in *. clearbody r. rewrite <- Hv. set (t := 10 ^ s) in *. set (c := 10 ^ (9 - s)) in *. clearbody t c. rewrite EB in *.
  split; [constructor; [nia|done]|]. split; [done|]. rewrite Ew. ring.
Qed.

Lemma pow10_nat (n : nat) : 10 ^ (9 * Z.of_nat n) = B ^ Z.of_nat n.
Proof. rewrite <- pow10_words by lia. unfold DIG_PER_DEC1. f_equal. lia. Qed.

(** [L] are the words of the digits from [beg] to [last]. *)
Record digits_at (P L : list Z) (beg last : Z) : Prop := {
  da_digits : Forall (fun w => digit w) L;
  da_beg : 9 * Z.of_nat (length P) <= beg < 9 * Z.of_nat (length P) + 9;
  da_last : 9 * Z.of_nat (length P + length L) - 9 < last <= 9 * Z.of_nat (length P + length L);
  da_order : beg < last;
  da_bound : fval L < 10 ^ (9 * Z.of_nat (length P + length L) - beg);
  da_zeros : (10 ^ (9 * Z.of_nat (length P + length L) - last) | fval L)
}.

Lemma digits_at_words P L beg last : digits_at P L beg last -> ROUND_UP (beg + 1) - 1 = Z.of_nat (length P) /\ ROUND_UP last - 1 + 1 = Z.of_nat (length P + length L) /\
  exists w l, L = w :: l /\ digit w /\ w < 10 ^ (9 * Z.of_nat (length P) + 9 - beg).
Proof.
  intros [HD Hb Hl Ho Hv _]. split; [by apply word_of_first|]. split; [rewrite (word_of_last _ _ Hl); lia|].
  destruct L as [|w l]; [cbn [length] in *; lia|]. exists w, l. apply Forall_cons in HD as [Hw HD]. split; [done|]. split; [done|].
  rewrite fval_cons in Hv. pose proof (fval_bound l HD). apply (Z.mul_lt_mono_pos_r (B ^ Z.of_nat (length l))); [apply Bpow_pos|].
  rewrite <- pow10_nat, <- Z.pow_add_r by lia.
  replace (9 * Z.of_nat (length P) + 9 - beg + 9 * Z.of_nat (length l)) with (9 * Z.of_nat (length P + length (w :: l)) - beg) by (cbn [length]; lia).
  rewrite pow10_nat. lia.
Qed.

Lemma mini_left_spec P L T s beg last : digits_at P L beg last -> 1 <= s <= 8 -> s <= beg ->
  exists k L', do_mini_left_shift (P ++ L ++ T) s beg last = Some (take k P ++ L' ++ T) /\ Forall (fun w => digit w) L' /\
    (k <= length P)%nat /\ (k + length L' = length P + length L)%nat /\ 9 * Z.of_nat k <= beg - s /\ fval L' = fval L * 10 ^ s.
Proof.
  intros H Hs Hb. destruct (digits_at_words P L beg last H) as (Ef & El & w & l & EL & Hw & Hwb). pose proof (da_beg _ _ _ _ H) as Hbeg.
  destruct (left_words_spec s L Hs (da_digits _ _ _ _ H)) as (HD' & Hl & Ho & Hv). unfold do_mini_left_shift. rewrite Ef, El.
  rewrite bind_assert by (apply andb_true_intro; split; [apply Z.leb_le; lia|apply Z.ltb_lt; rewrite !length_app; lia]). rewrite segment_mid. cbn [mbind option_bind].
  assert (head L = Some w) as -> by (by rewrite EL). cbn [mbind option_bind]. change (Z.quot w (power10 (DIG_PER_DEC1 - s))) with (Z.quot w (power10 (9 - s))).
  assert (Z.rem beg DIG_PER_DEC1 = beg - 9 * Z.of_nat (length P)) as -> by (unfold DIG_PER_DEC1; dlia).
  assert (shifted_out s L = Z.quot w (power10 (9 - s))) as Es by (by rewrite EL). rewrite <- Es. set (x := shifted_out s L) in *.
  change (left_words s (DIG_PER_DEC1 - s) L) with (left_words s (9 - s) L). set (L' := left_words s (9 - s) L) in *.
  destruct (Z.ltb_spec (beg - 9 * Z.of_nat (length P)) s) as [Hlt|Hge].
  - destruct P as [|y P1 _] using rev_ind; [cbn [length] in *; lia|]. exists (length P1), (x :: L').
    rewrite length_app in *. cbn [length] in *. replace (Z.of_nat (length P1 + 1) - 1) with (Z.of_nat (length P1)) by lia.
    rewrite <- app_assoc. cbn [app]. rewrite set_word_at. cbn [mbind option_bind].
    replace (P1 ++ x :: L ++ T) with ((P1 ++ [x]) ++ L ++ T) by (by rewrite <- app_assoc).
    replace (length P1 + 1 + length L)%nat with (length (P1 ++ [x]) + length L)%nat by (rewrite length_app; cbn; lia). rewrite store_mid by done.
    rewrite take_app_length, <- app_assoc. split; [done|]. split; [by constructor|]. split; [rewrite ?length_app; lia|]. split; [rewrite ?length_app; cbn [length]; lia|]. split; [lia|done].
  - exists (length P), L'. cbn [mbind option_bind]. rewrite store_mid by done. rewrite take_ge by done. split; [done|]. split; [done|]. split; [lia|]. split; [lia|].
    split; [lia|]. rewrite <- Hv, fval_cons. assert (x = 0) as ->; [|lia]. rewrite Es. destruct (quot_rem_power10 w (9 - s) Hw ltac:(lia)) as [-> _].
    apply Z.div_small. split; [lia|]. eapply Z.lt_le_trans; [exact Hwb|]. apply Z.pow_le_mono_r; lia.
Qed.

Lemma back_mid P L T : back (P ++ L ++ T) (Z.of_nat (length P)) (Z.of_nat (length P + length L)) = Some (reverse L).
Proof.
  pose proof (segment_mid P L T) as H. unfold segment in H. destruct (back _ _ _) as [l|]; [|done]. cbn in H. injection H as H. by rewrite <- H, reverse_involutive.
Qed.

Lemma mini_right_spec P L T s beg last : digits_at P L beg last -> 1 <= s <= 8 -> last + s <= 9 * Z.of_nat (length (P ++ L ++ T)) ->
  exists k L', do_mini_right_shift (P ++ L ++ T) s beg last = Some (P ++ L' ++ drop k T) /\ Forall (fun w => digit w) L' /\
    (k <= length T)%nat /\ (length L' = k + length L)%nat /\ last + s <= 9 * Z.of_nat (length P + length L') /\ fval L' * 10 ^ s = fval L * B ^ Z.of_nat k.
Proof.
  intros H Hs Hroom. destruct (digits_at_words P L beg last H) as (Ef & El & w0 & l0 & EL & _). pose proof (da_last _ _ _ _ H) as Hlast. pose proof (da_digits _ _ _ _ H) as HD.
  pose proof (right_words_spec s (reverse L) Hs ltac:(by apply Forall_reverse)) as (HD' & Hl & Hv). unfold do_mini_right_shift. rewrite Ef, El. rewrite length_reverse in Hl.
  rewrite bind_assert by (apply andb_true_intro; split; [apply Z.ltb_lt; rewrite !length_app; rewrite EL; cbn [length]; rewrite EL in El; cbn [length] in El; lia|apply Z.leb_le; lia]).
  rewrite back_mid. cbn [mbind option_bind]. destruct (reverse L) as [|w l] eqn:ER; [apply (f_equal length) in ER; rewrite length_reverse, EL in ER; done|].
  cbn [head mbind option_bind]. assert (digit w) as Hw.
  { assert (Forall (fun w => digit w) (w :: l)) as Hwl by (rewrite <- ER; by apply Forall_reverse). by apply Forall_cons in Hwl as [Hw _]. }
  change (right_words s (DIG_PER_DEC1 - s) (w :: l)) with (right_words s (9 - s) (w :: l)). set (R := right_words s (9 - s) (w :: l)) in *.
  assert (DIG_PER_DEC1 - (Z.rem (last - 1) DIG_PER_DEC1 + 1) = 9 * Z.of_nat (length P + length L) - last) as ->.
  { pose proof (da_beg _ _ _ _ H). pose proof (da_order _ _ _ _ H). clear -Hlast H0 H1. unfold DIG_PER_DEC1. dlia. }
  destruct (quot_rem_power10 w s Hw ltac:(lia)) as [_ ->]. rewrite (power10_pow (DIG_PER_DEC1 - s)) by (unfold DIG_PER_DEC1; lia).
  destruct (B_split s ltac:(lia)) as (EB & Hp & Hc). pose proof (Z.mod_pos_bound w (10 ^ s) Hp) as Hm.
  change (10 ^ (DIG_PER_DEC1 - s)) with (10 ^ (9 - s)).
  destruct (Z.ltb_spec (9 * Z.of_nat (length P + length L) - last) s) as [Hlt|Hge].
  - destruct T as [|y T]; [rewrite !length_app in Hroom; cbn [length] in Hroom; lia|].
    rewrite <- length_app, app_assoc, set_word_at. cbn [mbind option_bind].
    set (x := w mod 10 ^ s * 10 ^ (9 - s)). rewrite <- app_assoc, length_app. rewrite store_mid by (rewrite length_reverse; lia).
    exists 1%nat, (reverse R ++ [x]). split; [cbn [drop]; by rewrite <- app_assoc|].
    split; [apply Forall_app; split; [by apply Forall_reverse|repeat constructor; unfold x; nia]|]. split; [cbn [length]; lia|]. rewrite length_app, length_reverse. cbn [length].
    split; [lia|]. split; [lia|]. rewrite reverse_snoc, reverse_involutive. cbn [rval]. change (B ^ Z.of_nat 1) with B. unfold x. cbn [rval] in Hv. rewrite <- Hv, EB. ring.
  - cbn [mbind option_bind]. rewrite store_mid by (rewrite length_reverse; lia).
    exists O, (reverse R). split; [done|]. split; [by apply Forall_reverse|]. split; [lia|]. rewrite length_reverse. split; [lia|]. split; [lia|].
    rewrite reverse_involutive. change (B ^ Z.of_nat 0) with 1. rewrite <- Hv. assert (w mod 10 ^ s = 0) as ->; [|lia].
    destruct (da_zeros _ _ _ _ H) as [z Ez]. rewrite ER in Ez. cbn [rval] in Ez.
    replace (9 * Z.of_nat (length P + length L) - last) with (s + (9 * Z.of_nat (length P + length L) - last - s)) in Ez by lia. rewrite Z.pow_add_r in Ez by lia.
    replace w with ((z * 10 ^ (9 * Z.of_nat (length P + length L) - last - s) - 10 ^ (9 - s) * rval l) * 10 ^ s); [apply Z.mod_mul; lia|].
    set (t := 10 ^ s) in *. set (c := 10 ^ (9 - s)) in *. set (e := 10 ^ (_ - s)) in *. clearbody t c e. rewrite EB in Ez. lia.
Qed.

(** The same with the number [X] that the digits make; there may be more words. *)
Record digits_in (P L : list Z) (beg last X : Z) : Prop := {
  di_digits : Forall (fun w => digit w) L;
  di_beg : 9 * Z.of_nat (length P) <= beg;
  di_last : last <= 9 * Z.of_nat (length P + length L);
  di_order : beg < last;
  di_value : fval L = X * 10 ^ (9 * Z.of_nat (length P + length L) - last);
  di_bound : 0 <= X < 10 ^ (last - beg)
}.

Definition in_words (P L : list Z) (beg last : Z) : Prop :=
  beg < 9 * Z.of_nat (length P) + 9 /\ 9 * Z.of_nat (length P + length L) - 9 < last.

Lemma digits_in_at P L beg last X : digits_in P L beg last X -> in_words P L beg last -> digits_at P L beg last.
Proof.
  intros [HD Hb Hl Ho Hv HX] [H1 H2]. constructor; [done|lia|lia|done| |by exists X].
  rewrite Hv. replace (9 * _ - beg) with (last - beg + (9 * Z.of_nat (length P + length L) - last)) by lia. rewrite Z.pow_add_r by lia.
  apply Z.mul_lt_mono_pos_r; [apply Z.pow_pos_nonneg; lia|lia].
Qed.

Lemma mini_left P L T s beg last X : digits_in P L beg last X -> in_words P L beg last -> 1 <= s <= 8 -> s <= beg ->
  exists k L', do_mini_left_shift (P ++ L ++ T) s beg last = Some (take k P ++ L' ++ T) /\ (k <= length P)%nat /\ (k + length L' = length P + length L)%nat /\
    digits_in (take k P) L' (beg - s) (last - s) X.
Proof.
  intros H Hw Hs Hb. destruct (mini_left_spec P L T s beg last (digits_in_at _ _ _ _ _ H Hw) Hs Hb) as (k & L' & E & HD & Hk & Hl & Hk9 & Hv).
  exists k, L'. split; [done|]. split; [done|]. split; [done|]. destruct H as [_ H1 H2 H3 H4 H5].
  constructor; rewrite ?length_take, ?Nat.min_l, ?Hl by done; [done|lia|lia|lia| |by replace (last - s - (beg - s)) with (last - beg) by lia].
  rewrite Hv, H4, <- Z.mul_assoc, <- Z.pow_add_r by lia. do 2 f_equal. lia.
Qed.

Lemma mini_right P L T s beg last X : digits_in P L beg last X -> in_words P L beg last -> 1 <= s <= 8 -> last + s <= 9 * Z.of_nat (length (P ++ L ++ T)) ->
  exists k L', do_mini_right_shift (P ++ L ++ T) s beg last = Some (P ++ L' ++ drop k T) /\ (k <= length T)%nat /\ (length L' = k + length L)%nat /\
    digits_in P L' (beg + s) (last + s) X.
Proof.
  intros H Hw Hs Hr. destruct (mini_right_spec P L T s beg last (digits_in_at _ _ _ _ _ H Hw) Hs Hr) as (k & L' & E & HD & Hk & Hl & Hk9 & Hv).
  exists k, L'. split; [done|]. split; [done|]. split; [done|]. destruct H as [_ H1 H2 H3 H4 H5].
  constructor; [done|lia|lia|lia| |by replace (last + s - (beg + s)) with (last - beg) by lia].
  assert (0 < 10 ^ s) by (apply Z.pow_pos_nonneg; lia). apply (Z.mul_reg_r _ _ (10 ^ s)); [lia|].
  rewrite Hv, H4, <- pow10_nat, <- !Z.mul_assoc, <- !Z.pow_add_r by lia. do 2 f_equal. lia.
Qed.

(** ** The words of the digits *)

Lemma rval_zero l : Forall (fun w => digit w) l -> rval l = 0 -> l = replicate (length l) 0.
Proof.
  induction l as [|w l IH]; intros HD H0; [done|]. apply Forall_cons in HD as [Hw HD]. cbn [rval] in H0. pose proof (rval_bound l HD).
  assert (w = 0 /\ rval l = 0) as [-> Hl] by (unfold DIG_BASE in *; lia). cbn [length replicate]. f_equal. by apply IH.
Qed.

Lemma fval_zero l : Forall (fun w => digit w) l -> fval l = 0 -> l = replicate (length l) 0.
Proof.
  intros HD H0. rewrite <- (reverse_involutive l), (rval_zero (reverse l)) by (done || by apply Forall_reverse). by rewrite reverse_replicate, !length_replicate.
Qed.

Lemma lead_zeros l (m : nat) : Forall (fun w => digit w) l -> fval l < B ^ Z.of_nat m -> (m <= length l)%nat -> take (length l - m) l = replicate (length l - m) 0.
Proof.
  intros HD Hlt Hm. rewrite <- (take_drop (length l - m) l), fval_app, length_drop in Hlt. replace (length l - (length l - m))%nat with m in Hlt by lia.
  pose proof (fval_bound (take (length l - m) l) ltac:(by apply Forall_take)). pose proof (fval_bound (drop (length l - m) l) ltac:(by apply Forall_drop)).
  pose proof (Bpow_pos m). rewrite (fval_zero (take (length l - m) l)) at 1; [by rewrite length_take, Nat.min_l by lia|by apply Forall_take|nia].
Qed.

Lemma trail_zeros l (m : nat) : Forall (fun w => digit w) l -> (B ^ Z.of_nat m | fval l) -> (m <= length l)%nat -> drop (length l - m) l = replicate m 0.
Proof.
  intros HD [z Hz] Hm. rewrite <- (take_drop (length l - m) l), fval_app, length_drop in Hz. replace (length l - (length l - m))%nat with m in Hz by lia.
  pose proof (fval_bound (drop (length l - m) l) ltac:(by apply Forall_drop)) as Hb. rewrite length_drop in Hb. replace (length l - (length l - m))%nat with m in Hb by lia.
  rewrite (fval_zero (drop (length l - m) l)); [rewrite length_drop; f_equal; lia|by apply Forall_drop|].
  set (p := B ^ Z.of_nat m) in *. set (y := fval (drop (length l - m) l)) in *. set (x := fval (take (length l - m) l)) in *. clearbody p x y.
  assert (z = x) as -> by nia. lia.
Qed.

Lemma fval_zeros n : fval (replicate n 0) = 0.
Proof. rewrite reverse_replicate. apply rval_replicate. Qed.

(** The words that have no digits are zeros. *)
Lemma tighten P L beg last X : digits_in P L beg last X ->
  exists a L1 c, L = replicate a 0 ++ L1 ++ replicate c 0 /\ digits_in (P ++ replicate a 0) L1 beg last X /\ in_words (P ++ replicate a 0) L1 beg last.
Proof.
  intros [HD Hb Hl Ho Hv HX]. set (a := Z.to_nat (beg / 9 - Z.of_nat (length P))). set (c := Z.to_nat (Z.of_nat (length P + length L) - (last + 8) / 9)).
  assert (9 * Z.of_nat (length P + a) <= beg < 9 * Z.of_nat (length P + a) + 9) as Ha by (unfold a; dlia).
  assert (9 * Z.of_nat (length P + length L) - 9 - 9 * Z.of_nat c < last <= 9 * Z.of_nat (length P + length L) - 9 * Z.of_nat c) as Hc by (unfold c; dlia).
  clearbody a c. assert (a + c <= length L)%nat as Hac by lia. set (n := (length P + length L)%nat) in *.
  assert (take a L = replicate a 0) as E1.
  { pose proof (lead_zeros L (length L - a) HD) as H. replace (length L - (length L - a))%nat with a in H by lia. apply H; [|lia].
    rewrite Hv, <- pow10_nat. apply Z.lt_le_trans with (10 ^ (last - beg) * 10 ^ (9 * Z.of_nat n - last)); [apply Z.mul_lt_mono_pos_r; [apply Z.pow_pos_nonneg|]; lia|].
    rewrite <- Z.pow_add_r by lia. apply Z.pow_le_mono_r; lia. }
  assert (drop (length L - c) L = replicate c 0) as E2.
  { apply trail_zeros; [done| |lia]. exists (X * 10 ^ (9 * Z.of_nat n - last - 9 * Z.of_nat c)). rewrite Hv, <- pow10_nat, <- Z.mul_assoc, <- Z.pow_add_r by lia. do 2 f_equal. lia. }
  set (L1 := take (length L - c - a) (drop a L)). assert (L = replicate a 0 ++ L1 ++ replicate c 0) as EL.
  { rewrite <- E1, <- E2 at 1. unfold L1. rewrite <- (take_drop a L) at 1. f_equal. rewrite <- (take_drop (length L - c - a) (drop a L)) at 1. f_equal. rewrite drop_drop. f_equal. lia. }
  assert (length L1 = (length L - c - a)%nat) as HL1 by (unfold L1; rewrite length_take, length_drop; lia). clearbody L1. exists a, L1, c. split; [done|].
  unfold in_words. rewrite length_app, length_replicate. split; [|lia]. constructor; rewrite ?length_app, ?length_replicate; [|lia|lia|done| |done].
  - rewrite EL, !Forall_app in HD. tauto.
  - rewrite EL, !fval_app, fval_zeros, fval_zeros, length_app, length_replicate in Hv. pose proof (Bpow_pos c).
    apply (Z.mul_reg_r _ _ (B ^ Z.of_nat c)); [lia|]. rewrite <- Z.mul_assoc, <- (pow10_nat c), <- Z.pow_add_r, (pow10_nat c) by lia.
    replace (9 * Z.of_nat (length P + a + length L1) - last + 9 * Z.of_nat c) with (9 * Z.of_nat n - last) by lia. lia.
Qed.

(** ** The moves of whole words *)

Lemma move_words_spec P L T beg last d X : digits_in P L beg last X -> in_words P L beg last ->
  0 <= Z.of_nat (length P) - d -> Z.of_nat (length P + length L) - d <= Z.of_nat (length (P ++ L ++ T)) ->
  exists P' T', move_words (P ++ L ++ T) beg last d = Some (P' ++ L ++ T') /\ Z.of_nat (length P') = Z.of_nat (length P) - d /\
    length (P' ++ L ++ T') = length (P ++ L ++ T) /\ digits_in P' L (beg - d * DIG_PER_DEC1) (last - d * DIG_PER_DEC1) X.
Proof.
  intros H Hw H1 H2. destruct (digits_at_words P L beg last (digits_in_at _ _ _ _ _ H Hw)) as (Ef & El & _).
  assert (forall P', Z.of_nat (length P') = Z.of_nat (length P) - d -> digits_in P' L (beg - d * DIG_PER_DEC1) (last - d * DIG_PER_DEC1) X) as Hin.
  { intros P' HP'. destruct H as [HD Hb Hl Ho Hv HX]. unfold DIG_PER_DEC1. constructor; [done|lia|lia|lia| |by replace (_ - _ - _) with (last - beg) by lia].
    rewrite Hv. do 2 f_equal. lia. }
  unfold move_words. rewrite Ef, El. rewrite bind_assert by (apply andb_true_intro; split; [apply Z.leb_le; lia|apply Z.ltb_lt; lia]). rewrite segment_mid. cbn [mbind option_bind].
  rewrite !length_app in *. destruct (Z.ltb_spec 0 d) as [Hd|Hd].
  - rewrite <- (take_drop (length P - Z.to_nat d) P). set (P' := take (length P - Z.to_nat d) P). set (Q := drop (length P - Z.to_nat d) P).
    assert (length P' = (length P - Z.to_nat d)%nat /\ length Q = Z.to_nat d) as [LP LQ] by (unfold P', Q; rewrite length_take, length_drop; lia).
    exists P', (replicate (Z.to_nat d) 0 ++ T). rewrite <- app_assoc. replace (Q ++ L ++ T) with ((Q ++ L) ++ T) by (by rewrite <- app_assoc).
    replace (length (P' ++ Q) + length L)%nat with (length P' + length (Q ++ L))%nat by (rewrite !length_app; lia).
    replace (length P + length L)%nat with (length P' + length (Q ++ L))%nat by (rewrite !length_app; lia).
    rewrite store_mid by (rewrite !length_app, length_replicate; lia). split; [by rewrite <- app_assoc|]. split; [rewrite ?length_app; lia|].
    split; [rewrite !length_app, length_replicate; lia|]. apply Hin. lia.
  - set (n := Z.to_nat (- d)). rewrite <- (take_drop n T). set (Q := take n T). set (T' := drop n T). assert (length Q = n) as LQ by (unfold Q; rewrite length_take; lia).
    exists (P ++ replicate n 0), T'. replace (L ++ Q ++ T') with ((L ++ Q) ++ T') by (by rewrite <- app_assoc).
    replace (ROUND_UP last - 1 - d + 1) with (Z.of_nat (length P + length (L ++ Q))) by (rewrite length_app; lia).
    rewrite store_mid by (rewrite !length_app, length_replicate; lia). split; [by rewrite <- !app_assoc|]. rewrite !length_app, length_replicate.
    split; [lia|]. split; [lia|]. apply Hin. rewrite length_app, length_replicate. lia.
Qed.

Lemma fill_gap_spec P L T beg last X (n : nat) : digits_in P L beg last X -> in_words P L beg last -> (n <= length (P ++ L ++ T))%nat -> n = O \/ P = [] ->
  fill_gap (P ++ L ++ T) beg last (9 * Z.of_nat n) =
  Some (replicate (length P) 0 ++ L ++ replicate (n - (length P + length L)) 0 ++ drop (n - (length P + length L)) T).
Proof.
  intros H Hw Hn Hor. destruct (digits_at_words P L beg last (digits_in_at _ _ _ _ _ H Hw)) as (Ef & El & w & l & EL & _).
  unfold fill_gap. rewrite bind_assert by (apply Z.leb_le; lia). rewrite Ef. replace (ROUND_UP last - 1) with (Z.of_nat (length P + length L) - 1) by lia.
  assert (1 <= length L)%nat as HL by (rewrite EL; cbn; lia). clear El Ef EL w l.
  assert ((if 9 * Z.of_nat n =? 0 then 0 else ROUND_UP (9 * Z.of_nat n) - 1) = Z.max 0 (Z.of_nat n - 1)) as ->.
  { destruct (Z.eqb_spec (9 * Z.of_nat n) 0); [lia|]. pose proof (round_up_spec (9 * Z.of_nat n) ltac:(lia)). lia. }
  destruct (Z.ltb_spec (Z.of_nat (length P + length L) - 1) (Z.max 0 (Z.of_nat n - 1))) as [Hlt|Hge].
  - destruct Hor as [-> | ->]; [lia|]. cbn [length Nat.add app replicate] in *. set (m := (n - length L)%nat).
    replace (Z.max 0 (Z.of_nat n - 1) + 1) with (Z.of_nat (length L + m)) by lia. replace (Z.to_nat _) with m by lia.
    rewrite store_spec by (rewrite ?length_replicate, ?length_app in *; lia). rewrite length_replicate. replace (length L + m - m)%nat with (length L) by lia.
    rewrite take_app_length, drop_app_ge by lia. do 4 f_equal. lia.
  - replace (n - (length P + length L))%nat with O by lia. cbn [replicate app drop]. destruct (Z.ltb_spec (Z.max 0 (Z.of_nat n - 1)) (Z.of_nat (length P))) as [Hp|Hp].
    + destruct Hor as [-> | ->]; [|cbn [length] in *; lia]. change (Z.max 0 (Z.of_nat 0 - 1)) with 0. rewrite Z.sub_0_r, Nat2Z.id.
      rewrite store_spec by (rewrite ?length_replicate, ?length_app in *; lia). by rewrite length_replicate, Nat.sub_diag, take_0, drop_app_length.
    + destruct Hor as [-> | ->]; [|done]. destruct P; [done|cbn [length] in *; lia].
Qed.

(** ** The bounds of the digits *)

Lemma lead_digits_spec i w : forall start, 1 <= w < 10 ^ (Z.of_nat i + 1) -> (i <= 8)%nat ->
  exists j, lead_digits i w start = Some (start + j) /\ 0 <= j <= Z.of_nat i /\ w < 10 ^ (Z.of_nat i + 1 - j).
Proof.
  induction i as [|i IH]; intros start Hw Hi; cbn [lead_digits]; rewrite power10_pow by lia.
  - rewrite (proj2 (Z.ltb_ge w (10 ^ Z.of_nat 0))) by (change (10 ^ Z.of_nat 0) with 1; lia). exists 0. split; [by rewrite Z.add_0_r|]. split; [lia|]. rewrite Z.sub_0_r; apply Hw.
  - destruct (Z.ltb_spec w (10 ^ Z.of_nat (S i))) as [Hlt|Hge].
    + replace (Z.of_nat (S i)) with (Z.of_nat i + 1) in * by lia. destruct (IH (start + 1)) as (j & -> & Hj & Hwj); [lia|lia|].
      exists (j + 1). split; [f_equal; lia|]. split; [lia|]. by replace (Z.of_nat i + 1 + 1 - (j + 1)) with (Z.of_nat i + 1 - j) by lia.
    + exists 0. split; [by rewrite Z.add_0_r|]. split; [lia|]. rewrite Z.sub_0_r; apply Hw.
Qed.

Lemma trail_digits_spec fuel w : digit w -> w <> 0 -> forall i stop, 1 <= i <= 9 -> 9 - i < Z.of_nat fuel -> (10 ^ (i - 1) | w) ->
  exists e, trail_digits fuel i w stop = Some (stop - (e - (i - 1))) /\ i - 1 <= e <= 8 /\ (10 ^ e | w).
Proof.
  intros Hw H0. induction fuel as [|fuel IH]; intros i stop Hi Hf Hd; [lia|]. cbn [trail_digits].
  destruct (quot_rem_power10 w i Hw ltac:(lia)) as [_ ->]. assert (0 < 10 ^ i) as Hp by (apply Z.pow_pos_nonneg; lia). destruct (Z.eqb_spec (w mod 10 ^ i) 0) as [E|Hne].
  - apply Z.mod_divide in E; [|lia]. assert (i < 9) as Hi9 by (destruct (decide (i = 9)) as [-> |]; [apply Z.divide_pos_le in E; unfold DIG_BASE in Hw; lia|lia]).
    destruct (IH (i + 1) (stop - 1)) as (e & -> & He & Hde); [lia|lia|by replace (i + 1 - 1) with i by lia|]. exists e. split; [f_equal; lia|]. split; [lia|done].
  - exists (i - 1). split; [f_equal; lia|]. split; [lia|done].
Qed.

(** The first digit, in the word [w] after [a] words of zeros. *)
Lemma first_digit d (a : nat) w l tl : number d -> take (iw d + fw d) (buf d) = replicate a 0 ++ w :: l -> tl = (if (Z.of_nat a =? 0) && negb (intg d =? 0) then
    let i := Z.rem (intg d - 1) DIG_PER_DEC1 + 1 in (DIG_PER_DEC1 - i, i - 1)
    else (Z.of_nat a * DIG_PER_DEC1, DIG_PER_DEC1 - 1)) -> digit w -> w <> 0 ->
  exists beg, (let '(start, i) := tl in lead_digits (Z.to_nat i) w start) = Some beg /\ 9 * Z.of_nat a <= beg < 9 * Z.of_nat a + 9 /\ w < 10 ^ (9 * Z.of_nat a + 9 - beg).
Proof.
  intros Hn EL -> Hw H0. pose proof (n_valid d Hn) as Hv. unfold DIG_PER_DEC1. destruct (Z.eqb_spec (Z.of_nat a) 0) as [Ha|Ha]; [destruct (Z.eqb_spec (intg d) 0) as [Hi|Hi]|].
  2: { cbn [negb andb]. pose proof (v_intg d Hv). pose proof (iw_Z d Hv) as Ei. pose proof (round_up_spec (intg d) ltac:(lia)) as Hr. set (i := Z.rem (intg d - 1) 9 + 1).
    assert (intg d = 9 * (Z.of_nat (iw d) - 1) + i /\ 1 <= i <= 9) as [Ed Hi9] by (unfold i; clear -Hr Ei H Hi; dlia). clearbody i.
    assert (a = O) as -> by lia. cbn [replicate app] in EL. pose proof (n_whole d Hn) as Hwh. unfold whole in Hwh. unfold words in Hwh. rewrite EL in Hwh.
    pose proof (length_words d Hv) as Hlw. pose proof (v_words d Hv) as HDw. unfold words in Hlw, HDw. rewrite EL in *. rewrite length_reverse in Hlw. cbn [length] in Hlw.
    assert (Forall (fun w => digit w) l) as HDl.
    { apply Forall_reverse in HDw. rewrite reverse_involutive in HDw. by apply Forall_cons in HDw as [_ HDw]. }
    destruct (lead_digits_spec (Z.to_nat (i - 1)) w (9 - i)) as (j & -> & Hj & Hlt); [|lia|].
    - replace (Z.of_nat (Z.to_nat (i - 1)) + 1) with i by lia. split; [lia|]. rewrite fval_cons in Hwh. pose proof (fval_bound l HDl).
      apply (Z.mul_lt_mono_pos_r (B ^ Z.of_nat (length l))); [apply Bpow_pos|].
      replace (10 ^ i * B ^ Z.of_nat (length l)) with (10 ^ intg d * B ^ Z.of_nat (fw d)); [lia|].
      rewrite Ed, <- !pow10_nat, <- !Z.pow_add_r by lia. f_equal. lia.
    - exists (9 - i + j). split; [done|]. split; [lia|]. by replace (9 * Z.of_nat 0 + 9 - (9 - i + j)) with (Z.of_nat (Z.to_nat (i - 1)) + 1 - j) by lia. }
  all: cbn [negb andb]; destruct (lead_digits_spec (Z.to_nat (9 - 1)) w (Z.of_nat a * 9)) as (j & -> & Hj & Hlt); [change (10 ^ (Z.of_nat (Z.to_nat (9 - 1)) + 1)) with B; lia|lia|];
    change (Z.of_nat (Z.to_nat (9 - 1))) with 8 in *; exists (Z.of_nat a * 9 + j); split; [done|]; split; [lia|]; by replace (9 * Z.of_nat a + 9 - (Z.of_nat a * 9 + j)) with (8 + 1 - j) by lia.
Qed.

(** The end of the digits, in the word [w] before [c] words of zeros. *)
Lemma last_digit d (c : nat) w l : number d -> take (iw d + fw d) (buf d) = l ++ w :: replicate c 0 -> digit w -> w <> 0 ->
  exists e, (let '(stop, i) :=
      if (Z.of_nat (length l) =? Z.of_nat (iw d + fw d) - 1) && negb (frac d =? 0) then
        let i := Z.rem (frac d - 1) DIG_PER_DEC1 + 1 in (Z.of_nat (length l) * DIG_PER_DEC1 + i, DIG_PER_DEC1 - i + 1)
      else ((Z.of_nat (length l) + 1) * DIG_PER_DEC1, 1) in trail_digits 10 i w stop) = Some (9 * Z.of_nat (length l) + 9 - e) /\ 0 <= e <= 8 /\ (10 ^ e | w).
Proof.
  intros Hn EL Hw H0. pose proof (n_valid d Hn) as Hv. pose proof (length_words d Hv) as Hlw. unfold words in Hlw. rewrite length_reverse, EL, length_app in Hlw. cbn [length] in Hlw.
  rewrite length_replicate in Hlw. unfold DIG_PER_DEC1.
  destruct (Z.eqb_spec (Z.of_nat (length l)) (Z.of_nat (iw d + fw d) - 1)) as [Hc|Hc]; [destruct (Z.eqb_spec (frac d) 0) as [Hf|Hf]|]; cbn [negb andb].
  2: { pose proof (v_frac d Hv). pose proof (fw_Z d Hv) as Ef. pose proof (round_up_spec (frac d) ltac:(lia)) as Hr. set (i := Z.rem (frac d - 1) 9 + 1).
    assert (frac d = 9 * (Z.of_nat (fw d) - 1) + i /\ 1 <= i <= 9) as [Ed Hi9] by (unfold i; clear -Hr Ef H Hf; dlia). clearbody i.
    destruct (trail_digits_spec 10 w Hw H0 (9 - i + 1) (Z.of_nat (length l) * 9 + i)) as (e & -> & He & Hde); [lia|lia| |].
    - pose proof (n_frac d Hn) as Hp. unfold precise, words in Hp. rewrite EL in Hp. assert (c = O) as -> by lia. cbn [replicate] in Hp. rewrite fval_app in Hp.
      replace (9 - i + 1 - 1) with (9 - i) by lia. replace (9 * Z.of_nat (fw d) - frac d) with (9 - i) in Hp by lia. cbn [length] in Hp. change (B ^ Z.of_nat 1) with B in Hp.
      change (fval [w]) with (w + B * 0) in Hp. destruct (B_split i ltac:(lia)) as (EB & _ & _).
      apply (Z.divide_add_cancel_r _ (fval l * B)); [rewrite EB; exists (fval l * 10 ^ i); ring|]. by replace (fval l * B + w) with (fval l * B + (w + B * 0)) by lia.
    - exists e. split; [f_equal; lia|]. split; [lia|done]. }
  all: destruct (trail_digits_spec 10 w Hw H0 1 ((Z.of_nat (length l) + 1) * 9)) as (e & -> & He & Hde); [lia|lia|apply Z.divide_1_l|]; exists e; split; [f_equal; lia|]; split; [lia|done].
Qed.

Lemma zero_words_split l : exists n, zero_words l = Z.of_nat n /\ (l = replicate n 0 \/ exists w l', l = replicate n 0 ++ w :: l' /\ w <> 0).
Proof.
  destruct (zero_words_spec l) as (n & E & Hn & Et & Hne). exists n. split; [done|]. assert (l = replicate n 0 ++ drop n l) as El by (by rewrite <- Et, take_drop).
  destruct (drop n l) as [|w l'] eqn:Ed; [left; by rewrite app_nil_r in El|right]. exists w, l'. split; [done|]. apply Hne.
  rewrite <- (Nat.add_0_r n), <- lookup_drop, Ed. done.
Qed.

Lemma nonzero_order (a : nat) L l3 w2 l4 : replicate a 0 ++ L = l3 ++ w2 :: l4 -> w2 <> 0 -> (a <= length l3)%nat.
Proof.
  intros E Hw. destruct (decide (a <= length l3)%nat) as [|Hgt]; [done|exfalso]. apply Hw.
  assert ((replicate a 0 ++ L) !! length l3 = Some w2) as E2 by (rewrite E; by apply list_lookup_middle).
  rewrite lookup_app_l in E2 by (rewrite length_replicate; lia). by apply lookup_replicate in E2 as [-> _].
Qed.

(** The words from the first one that is not zero, [w], to the last one, [w2]. *)
Lemma digits_between (a c : nat) w l w2 l3 beg e : replicate a 0 ++ w :: l = l3 ++ w2 :: replicate c 0 -> w <> 0 -> w2 <> 0 -> Forall (fun w => digit w) (w :: l) ->
  9 * Z.of_nat a <= beg < 9 * Z.of_nat a + 9 -> w < 10 ^ (9 * Z.of_nat a + 9 - beg) -> 0 <= e <= 8 -> (10 ^ e | w2) ->
  let last := 9 * Z.of_nat (length l3) + 9 - e in
  exists L X, w :: l = L ++ replicate c 0 /\ digits_in (replicate a 0) L beg last X /\ in_words (replicate a 0) L beg last /\ 0 < X.
Proof.
  intros EL Hw0 Hw20 HD Hb Hwb He [y Hy] last. pose proof (nonzero_order _ _ _ _ _ EL Hw20) as Hal.
  assert (w :: l = (drop a l3 ++ [w2]) ++ replicate c 0) as EL'.
  { apply (f_equal (drop a)) in EL. rewrite drop_app_le, drop_ge, drop_app_le in EL by (rewrite ?length_replicate; lia). by rewrite <- app_assoc. }
  set (k := drop a l3) in *. assert (length k = (length l3 - a)%nat) as Hk by apply length_drop. clearbody k. rewrite EL' in HD. apply Forall_app in HD as [HDL _].
  pose proof HDL as HD2. apply Forall_app in HD2 as [HDk HD2]. rewrite Forall_singleton in HD2.
  assert (9 * Z.of_nat (length (replicate a 0) + length (k ++ [w2])) - last = e) as Ee by (unfold last; rewrite length_app, length_replicate; cbn [length]; lia).
  assert (0 < 10 ^ e) as Hp by (apply Z.pow_pos_nonneg; lia).
  assert (fval (k ++ [w2]) = (fval k * 10 ^ (9 - e) + y) * 10 ^ e) as Ev.
  { rewrite fval_app. change (fval [w2]) with (w2 + B * 0). change (B ^ Z.of_nat (length [w2])) with B. destruct (B_split e ltac:(lia)) as (EB & _ & _). rewrite EB, Hy. ring. }
  set (X := fval k * 10 ^ (9 - e) + y) in *. pose proof (fval_bound k HDk). assert (0 < 10 ^ (9 - e)) by (apply Z.pow_pos_nonneg; lia).
  assert (0 < y) as Hy0 by nia. assert (0 < X) as HX by (unfold X; nia).
  assert (fval (k ++ [w2]) < 10 ^ (9 * Z.of_nat a + 9 - beg) * B ^ Z.of_nat (length k)) as Hlt.
  { destruct k as [|w' k]; cbn [app] in *; injection EL' as <- EL'.
    - change (fval [w]) with (w + B * 0). cbn [length]. change (B ^ Z.of_nat 0) with 1. lia.
    - rewrite fval_cons. apply Forall_cons in HDL as [_ HDL]. pose proof (fval_bound _ HDL) as Hb2. rewrite length_app in *. cbn [length] in *.
      replace (length k + 1)%nat with (S (length k)) in * by lia. nia. }
  rewrite <- pow10_nat, <- Z.pow_add_r, Ev in Hlt by lia.
  assert (beg < last) as Hbl.
  { assert (10 ^ e < 10 ^ (9 * Z.of_nat a + 9 - beg + 9 * Z.of_nat (length k))) by nia. pose proof (Z.pow_lt_mono_r_iff 10 e (9 * Z.of_nat a + 9 - beg + 9 * Z.of_nat (length k)) ltac:(lia) ltac:(lia)). unfold last. lia. }
  exists (k ++ [w2]), X. split; [done|]. split; [|split; [|done]].
  - constructor; [done|rewrite length_replicate; lia|lia|done|by rewrite Ee|]. split; [lia|]. apply (Z.mul_lt_mono_pos_r (10 ^ e)); [done|].
    rewrite <- Z.pow_add_r by lia. by replace (last - beg + e) with (9 * Z.of_nat a + 9 - beg + 9 * Z.of_nat (length k)) by (unfold last; lia).
  - split; [rewrite length_replicate; lia|lia].
Qed.

Lemma segment_prefix P T : segment (P ++ T) 0 (Z.of_nat (length P)) = Some P.
Proof. unfold segment. rewrite back_prefix. cbn [mbind option_bind]. by rewrite reverse_involutive. Qed.

(** The words before the first digit and after the last one are zeros. *)
Lemma digits_bounds_spec d : number d ->
  rval (words d) = 0 /\ digits_bounds d = Some (0, 0) \/
  exists (a c : nat) L rest beg last X, digits_bounds d = Some (beg, last) /\ buf d = replicate a 0 ++ L ++ replicate c 0 ++ rest /\ (a + length L + c = iw d + fw d)%nat /\
    digits_in (replicate a 0) L beg last X /\ in_words (replicate a 0) L beg last /\ 0 < X /\ rval (words d) = fval L * B ^ Z.of_nat c.
Proof.
  intros Hn. pose proof (n_valid d Hn) as Hv. pose proof (length_words d Hv) as Hlw. pose proof (v_words d Hv) as HD. unfold words in Hlw, HD. rewrite length_reverse in Hlw.
  apply Forall_reverse in HD. rewrite reverse_involutive in HD.
  unfold digits_bounds. rewrite (iw_Z d Hv), (fw_Z d Hv), <- Nat2Z.inj_add. unfold words. remember (take (iw d + fw d) (buf d)) as L0 eqn:EL0.
  assert (buf d = L0 ++ drop (iw d + fw d) (buf d)) as Eb by (rewrite EL0; by rewrite take_drop). set (rest := drop (iw d + fw d) (buf d)) in *. clearbody rest.
  assert (segment (buf d) 0 (Z.of_nat (iw d + fw d)) = Some L0) as -> by (rewrite <- Hlw, Eb; apply segment_prefix). cbn [mbind option_bind].
  destruct (zero_words_split L0) as (a & Ea & [E0|(w & l & EL & Hw0)]); rewrite Ea.
  { left. apply (f_equal length) in E0 as Hl0. rewrite length_replicate in Hl0. rewrite (proj2 (Z.leb_le _ _)) by lia. split; [rewrite E0; apply fval_zeros|done]. }
  right. pose proof HD as HDw. rewrite EL in HDw. apply Forall_app in HDw as [_ HDw]. pose proof (HDw) as HDw'. apply Forall_cons in HDw' as [Hw HDl].
  assert (length L0 = (a + S (length l))%nat) as Hl0 by (rewrite EL, length_app, length_replicate; done). rewrite (proj2 (Z.leb_gt _ _)) by lia.
  assert (word L0 (Z.of_nat a) = Some w) as -> by (rewrite EL; replace (Z.of_nat a) with (Z.of_nat (length (replicate a 0))) by (by rewrite length_replicate); apply word_at). cbn [mbind option_bind].
  destruct (first_digit d a w l _ Hn ltac:(rewrite <- EL0; exact EL) eq_refl Hw Hw0) as (beg & Hbeg & Hb & Hwb).
  destruct (zero_words_split (reverse L0)) as (c & Ec & [E0|(w2 & l2 & EL2 & Hw20)]).
  { exfalso. apply (f_equal reverse) in E0. rewrite reverse_involutive, reverse_replicate, EL in E0. apply (f_equal (fun l => l !! a)) in E0.
    rewrite list_lookup_middle in E0 by (by rewrite length_replicate). symmetry in E0. by apply lookup_replicate in E0 as [-> _]. }
  apply (f_equal reverse) in EL2. rewrite reverse_involutive, reverse_app, reverse_cons, reverse_replicate, <- app_assoc in EL2. cbn [app] in EL2. set (l3 := reverse l2) in *. clearbody l3.
  rewrite Ec. assert (length L0 = (length l3 + S c)%nat) as Hl3 by (rewrite EL2, length_app; cbn [length]; by rewrite length_replicate).
  assert (word L0 (Z.of_nat (length l3)) = Some w2) as Hw2 by (rewrite EL2; apply word_at).
  pose proof (nonzero_order a (w :: l) l3 w2 (replicate c 0) ltac:(by rewrite <- EL) Hw20) as Hal.
  replace (Z.max (Z.of_nat a) (Z.of_nat (iw d + fw d) - 1 - Z.of_nat c)) with (Z.of_nat (length l3)) by lia. rewrite Hw2.
  assert (digit w2) as Hd2 by (rewrite EL2 in HD; apply Forall_app in HD as [_ HD2]; by apply Forall_cons in HD2 as [HD2 _]).
  destruct (last_digit d c w2 l3 Hn ltac:(rewrite <- EL0; exact EL2) Hd2 Hw20) as (e & He & Hee & Hde).
  set (tl := if (Z.of_nat a =? 0) && negb (intg d =? 0) then _ else _) in *. destruct tl as [start i]. rewrite Hbeg. cbn [mbind option_bind]. clear Hbeg.
  set (tl := if (Z.of_nat (length l3) =? _) && negb (frac d =? 0) then _ else _) in *. destruct tl as [stop i2]. rewrite He. cbn [mbind option_bind]. clear He.
  destruct (digits_between a c w l w2 l3 beg e ltac:(by rewrite <- EL) Hw0 Hw20 HDw Hb Hwb Hee Hde) as (L & X & EL' & Hin & Hiw & HX).
  exists a, c, L, rest. do 3 eexists. split; [done|]. rewrite EL, EL' in Eb. split; [by rewrite Eb, <- !app_assoc|].
  split; [apply (f_equal length) in EL'; rewrite length_app, length_replicate in EL'; cbn [length] in EL'; lia|]. split; [exact Hin|]. split; [exact Hiw|]. split; [done|].
  rewrite EL, EL', !fval_app, !fval_zeros, length_replicate. lia.
Qed.

(** ** The result *)

Lemma digits_in_zeros P L beg last X : digits_in P L beg last X -> digits_in (replicate (length P) 0) L beg last X.
Proof. intros [HD Hb Hl Ho Hv HX]. constructor; rewrite ?length_replicate; done. Qed.

(** The point is behind [n] words, and either the first digit is in the first word
    or there are no words in front of the point. *)
Lemma result_spec (a c n : nat) L rest beg last X sg :
  let digits_int := Z.max (9 * Z.of_nat n - beg) 0 in
  let digits_frac := Z.max (last - 9 * Z.of_nat n) 0 in
  let d := mkDec digits_int digits_frac sg (replicate a 0 ++ L ++ replicate c 0 ++ rest) in
  digits_in (replicate a 0) L beg last X -> 0 < X -> beg < 9 /\ beg < 9 * Z.of_nat n \/ n = O ->
  Z.of_nat n + ROUND_UP digits_frac <= Z.of_nat (a + length L + c) ->
  number d /\ last <= 9 * Z.of_nat (n + fw d) /\ rval (words d) = X * 10 ^ (9 * Z.of_nat (n + fw d) - last).
Proof.
  intros di df d [HD Hb Hl Ho Hv HX] HX0 Hf Hroom. rewrite length_replicate in *. pose proof (round_up_spec df ltac:(lia)) as Hdf.
  assert (iw d = n) as Ei by (unfold iw, d; cbn [intg]; pose proof (round_up_spec di ltac:(lia)); lia).
  assert (Z.of_nat (fw d) = ROUND_UP df) as Ef by (unfold fw, d; cbn [frac]; lia).
  set (W := replicate a 0 ++ L ++ replicate c 0). assert (length W = (a + length L + c)%nat) as LW by (unfold W; rewrite !length_app, !length_replicate; lia).
  assert (Forall (fun w => digit w) W) as HDW by (unfold W; rewrite !Forall_app; split_and!; [|done|]; apply Forall_replicate; done).
  assert (fval W = X * 10 ^ (9 * Z.of_nat (length W) - last)) as EW.
  { unfold W at 1. rewrite !fval_app, !fval_zeros, Z.mul_0_l, Z.add_0_l, Z.add_0_r, length_replicate, Hv, <- pow10_nat, <- Z.mul_assoc, <- Z.pow_add_r by lia. do 2 f_equal. lia. }
  assert (words d = reverse (take (iw d + fw d) W)) as Ew.
  { unfold words, d at 3. cbn [buf]. f_equal. replace (replicate a 0 ++ L ++ replicate c 0 ++ rest) with (W ++ rest) by (unfold W; by rewrite <- !app_assoc). by rewrite take_app_le by lia. }
  assert (rval (words d) = X * 10 ^ (9 * Z.of_nat (n + fw d) - last)) as Er.
  { rewrite Ew, Ei. apply (fval_take W (n + fw d) (length W - (n + fw d))); [done|lia|]. rewrite EW, <- pow10_nat, <- Z.mul_assoc, <- Z.pow_add_r by lia. do 2 f_equal. lia. }
  split; [|split; [lia|done]]. assert (0 < rval (words d)) as Hpos by (rewrite Er; pose proof (Z.pow_pos_nonneg 10 (9 * Z.of_nat (n + fw d) - last)); nia). constructor.
  - constructor; [cbn; lia|cbn; lia|cbn; lia|unfold d at 3; cbn [buf]; rewrite !length_app, !length_replicate; lia|]. rewrite Ew. apply Forall_reverse. by apply Forall_take.
  - unfold whole. rewrite Er, <- pow10_nat, <- Z.pow_add_r by (cbn; lia).
    apply Z.lt_le_trans with (10 ^ (last - beg) * 10 ^ (9 * Z.of_nat (n + fw d) - last)); [apply Z.mul_lt_mono_pos_r; [apply Z.pow_pos_nonneg|]; lia|].
    rewrite <- Z.pow_add_r by lia. apply Z.pow_le_mono_r; [lia|]. change (intg d) with di. lia.
  - unfold precise. rewrite Er. apply Z.divide_mul_r. change (frac d) with df. exists (10 ^ (df - (last - 9 * Z.of_nat n))). rewrite <- Z.pow_add_r by lia. f_equal. lia.
  - lia.
Qed.

(** What an array must hold for [result_spec]; [beg] and [last] count from the point. *)
Definition placed (b : list Z) (beg last X : Z) : Prop := exists (a c n : nat) L rest,
  b = replicate a 0 ++ L ++ replicate c 0 ++ rest /\ digits_in (replicate a 0) L (beg + 9 * Z.of_nat n) (last + 9 * Z.of_nat n) X /\
  (beg + 9 * Z.of_nat n < 9 /\ beg < 0 \/ n = O) /\ Z.of_nat n + ROUND_UP (Z.max last 0) <= Z.of_nat (a + length L + c).

Lemma placed_result b beg last X sg : placed b beg last X -> 0 < X ->
  let d := mkDec (Z.max (- beg) 0) (Z.max last 0) sg b in
  number d /\ last <= 9 * Z.of_nat (fw d) /\ rval (words d) = X * 10 ^ (9 * Z.of_nat (fw d) - last).
Proof.
  intros (a & c & n & L & rest & -> & Hin & Hf & Hroom) HX d. pose proof (result_spec a c n L rest _ _ X sg Hin HX) as H.
  replace (9 * Z.of_nat n - (beg + 9 * Z.of_nat n)) with (- beg) in H by lia. replace (last + 9 * Z.of_nat n - 9 * Z.of_nat n) with last in H by lia.
  destruct H as (Hn & Hle & Hv); [lia|done|]. split; [done|]. split; [change (fw d) with (fw (mkDec (Z.max (- beg) 0) (Z.max last 0) sg (replicate a 0 ++ L ++ replicate c 0 ++ rest))); lia|].
  unfold d. rewrite Hv. do 2 f_equal. lia.
Qed.

Lemma fill_placed P L T beg last X (n : nat) : digits_in P L beg last X -> in_words P L beg last -> (n <= length (P ++ L ++ T))%nat ->
  n = O \/ P = [] /\ beg < 9 * Z.of_nat n ->
  exists b, fill_gap (P ++ L ++ T) beg last (9 * Z.of_nat n) = Some b /\ placed b (beg - 9 * Z.of_nat n) (last - 9 * Z.of_nat n) X.
Proof.
  intros Hin Hw Hn Hor. rewrite (fill_gap_spec P L T beg last X n) by (done || destruct Hor as [|[? _]]; by auto). eexists. split; [done|].
  exists (length P), (n - (length P + length L))%nat, n, L, (drop (n - (length P + length L)) T). split; [done|].
  rewrite !Z.sub_add. split; [by apply digits_in_zeros|]. destruct Hw as [Hw1 Hw2]. destruct Hin as [_ H1 H2 H3 _ _]. split.
  - destruct Hor as [-> |[-> Hlt]]; [by right|left]. cbn [length] in *. lia.
  - pose proof (round_up_spec (Z.max (last - 9 * Z.of_nat n) 0) ltac:(lia)). destruct (Z.le_gt_cases last (9 * Z.of_nat n)); [|lia].
    rewrite Z.max_r by lia. change (ROUND_UP 0) with 0. lia.
Qed.

Lemma move_digits_spec P L T beg last X m : digits_in P L beg last X ->
  let np := 9 * m in
  ROUND_UP (Z.max (np - beg) 0) + ROUND_UP (Z.max (last - np) 0) <= Z.of_nat (length (P ++ L ++ T)) ->
  exists b, move_digits (P ++ L ++ T) beg last np (Z.max (np - beg) 0) = Some b /\ placed b (beg - np) (last - np) X.
Proof.
  intros Hin np Hroom. destruct (tighten P L beg last X Hin) as (a & L1 & c & EL & Hin1 & Hw1).
  replace (P ++ L ++ T) with ((P ++ replicate a 0) ++ L1 ++ (replicate c 0 ++ T)) in * by (by rewrite EL, <- !app_assoc). clear Hin EL.
  set (P1 := P ++ replicate a 0) in *. set (T1 := replicate c 0 ++ T) in *. clearbody P1 T1. clear P L T a c. unfold move_digits, DIG_PER_DEC1.
  pose proof Hw1 as [Hb1 Hb2]. pose proof (di_beg _ _ _ _ _ Hin1) as Hb3. pose proof (di_last _ _ _ _ _ Hin1) as Hb4. pose proof (di_order _ _ _ _ _ Hin1) as Hb5.
  set (di := Z.max (np - beg) 0) in *. set (df := Z.max (last - np) 0) in *. pose proof (round_up_spec di ltac:(lia)) as Hdi. pose proof (round_up_spec df ltac:(lia)) as Hdf.
  assert (forall d, (d = (if 0 <? np - di then Z.quot (np - di) 9 else - Z.quot (1 - (np - di)) 9)) -> 0 <= Z.of_nat (length P1) - d -> 0 <= m - d ->
    Z.of_nat (length P1 + length L1) - d <= Z.of_nat (length (P1 ++ L1 ++ T1)) -> m - d <= Z.of_nat (length (P1 ++ L1 ++ T1)) ->
    m - d = 0 \/ Z.of_nat (length P1) = d /\ beg < np ->
    exists b, (b ← move_words (P1 ++ L1 ++ T1) beg last d; fill_gap b (beg - d * 9) (last - d * 9) (np - d * 9)) = Some b /\ placed b (beg - np) (last - np) X) as Hmove.
  { intros d _ Hd1 Hd2 Hd3 Hd4 Hd5. destruct (move_words_spec P1 L1 T1 beg last d X Hin1 Hw1 Hd1 Hd3) as (P' & T' & -> & HP' & Hl' & Hin'). cbn [mbind option_bind].
    unfold DIG_PER_DEC1 in Hin'. destruct (fill_placed P' L1 T' _ _ X (Z.to_nat (m - d)) Hin') as (b & Hb & Hp).
    - unfold in_words. rewrite !Nat2Z.inj_add in *. lia.
    - lia.
    - destruct Hd5 as [|[Hd5 ?]]; [left; lia|right]. split; [destruct P'; [done|cbn [length] in HP'; lia]|lia].
    - exists b. replace (9 * Z.of_nat (Z.to_nat (m - d))) with (np - d * 9) in Hb, Hp by lia. split; [exact Hb|].
      replace (beg - d * 9 - (np - d * 9)) with (beg - np) in Hp by lia. replace (last - d * 9 - (np - d * 9)) with (last - np) in Hp by lia. done. }
  destruct (Z.leb_spec 9 (np - di)) as [Hnf|Hnf]; [|destruct (Z.ltb_spec (np - di) 0) as [Hneg|Hneg]]; cbn [orb].
  - apply Hmove; [done|..]; rewrite (proj2 (Z.ltb_lt 0 (np - di))) by lia; rewrite Z.quot_div_nonneg by lia.
    all: assert (9 * ((np - di) / 9) <= np - di < 9 * ((np - di) / 9) + 9) by dlia; rewrite ?length_app in *; lia.
  - apply Hmove; [done|..]; rewrite (proj2 (Z.ltb_ge 0 (np - di))) by lia; rewrite Z.quot_div_nonneg by lia.
    all: assert ((1 - (np - di)) / 9 = - m) as -> by (assert (di = 0) as -> by lia; unfold np; dlia); rewrite ?length_app in *; lia.
  - destruct (fill_placed P1 L1 T1 beg last X (Z.to_nat m) Hin1 Hw1) as (b & Hb & Hp); [lia| |].
    + destruct (decide (m <= 0)); [left; lia|right]. split; [destruct P1; [done|cbn [length] in *; lia]|lia].
    + replace (9 * Z.of_nat (Z.to_nat m)) with np in Hb, Hp by lia. by exists b.
Qed.

Lemma drop_zeros (k c : nat) (rest : list Z) : drop k (replicate c 0 ++ rest) = replicate (c - k) 0 ++ drop (k - c) rest.
Proof. rewrite drop_app, length_replicate. f_equal. destruct (decide (k <= c)%nat); [by rewrite drop_replicate|]. rewrite drop_ge by (rewrite length_replicate; lia). by replace (c - k)%nat with O by lia. Qed.

Lemma take_zeros (k a : nat) : (k <= a)%nat -> take k (replicate a 0) = replicate k 0.
Proof. intros H. by rewrite take_replicate, Nat.min_l. Qed.

(** The number [d] has its digits in [L]; the shifted ones fit. *)
Lemma align_digits_spec (a c p : nat) L rest shift beg last X : let b := replicate a 0 ++ L ++ replicate c 0 ++ rest in
  digits_in (replicate a 0) L beg last X -> in_words (replicate a 0) L beg last -> Z.rem shift DIG_PER_DEC1 <> 0 ->
  ROUND_UP (Z.max (9 * Z.of_nat p + shift - beg) 0) + ROUND_UP (Z.max (last - (9 * Z.of_nat p + shift)) 0) <= Z.of_nat (length b) ->
  exists a' c' L' rest' mini m, align_digits b shift beg last = Some (replicate a' 0 ++ L' ++ replicate c' 0 ++ rest', mini) /\ shift + mini = 9 * m /\
    length (replicate a' 0 ++ L' ++ replicate c' 0 ++ rest') = length b /\ (a + length L + c <= a' + length L' + c')%nat /\
    digits_in (replicate a' 0) L' (beg + mini) (last + mini) X.
Proof.
  intros b Hin Hw Hrem Hroom.
  assert (forall l, 1 <= l <= 8 -> l <= beg -> exists a' c' L' rest', (b ← do_mini_left_shift b l beg last; Some (b, - l)) = Some (replicate a' 0 ++ L' ++ replicate c' 0 ++ rest', - l) /\
    length (replicate a' 0 ++ L' ++ replicate c' 0 ++ rest') = length b /\ (a + length L + c <= a' + length L' + c')%nat /\ digits_in (replicate a' 0) L' (beg + - l) (last + - l) X) as Hleft.
  { intros l Hl Hlb. destruct (mini_left _ L (replicate c 0 ++ rest) l beg last X Hin Hw Hl Hlb) as (k & L' & E & Hk & HL & Hin'). rewrite length_replicate in Hk, HL. rewrite take_zeros in E, Hin' by done.
    exists k, c, L', rest. unfold b. rewrite E. split; [done|]. rewrite !length_app, !length_replicate. split; [lia|]. split; [lia|done]. }
  assert (forall r, 1 <= r <= 8 -> r <= Z.of_nat (length b) * DIG_PER_DEC1 - last -> exists a' c' L' rest', (b ← do_mini_right_shift b r beg last; Some (b, r)) = Some (replicate a' 0 ++ L' ++ replicate c' 0 ++ rest', r) /\
    length (replicate a' 0 ++ L' ++ replicate c' 0 ++ rest') = length b /\ (a + length L + c <= a' + length L' + c')%nat /\ digits_in (replicate a' 0) L' (beg + r) (last + r) X) as Hright.
  { intros r Hr Hrb. unfold DIG_PER_DEC1 in Hrb. destruct (mini_right _ L (replicate c 0 ++ rest) r beg last X Hin Hw Hr ltac:(fold b; lia)) as (k & L' & E & Hk & HL & Hin'). rewrite drop_zeros in E.
    exists a, (c - k)%nat, L', (drop (k - c) rest). unfold b. rewrite E. split; [done|]. split; [|split; [lia|done]].
    rewrite !length_app, !length_drop, !length_replicate in *. lia. }
  pose proof (di_order _ _ _ _ _ Hin) as Hord. pose proof (di_beg _ _ _ _ _ Hin) as Hbeg. unfold align_digits, DIG_PER_DEC1 in *. set (np := 9 * Z.of_nat p + shift) in *.
  pose proof (round_up_spec (Z.max (np - beg) 0) ltac:(lia)) as Hi. pose proof (round_up_spec (Z.max (last - np) 0) ltac:(lia)) as Hf.
  destruct (Z.ltb_spec 0 shift) as [Hs|Hs].
  - assert (exists t, shift = 9 * t + Z.rem shift 9 /\ 0 <= t) as (t & Et & Ht) by (exists (Z.quot shift 9); clear -Hs; dlia).
    assert (1 <= Z.rem shift 9 <= 8) as Hl by (clear -Hs Hrem; dlia). set (l := Z.rem shift 9) in *. clearbody l.
    destruct (Z.leb_spec l beg) as [Hlb|Hlb]; cbn [orb].
    + destruct (Hleft l Hl Hlb) as (a' & c' & L' & rest' & E & Hr). exists a', c', L', rest', (- l), t. cbn [assert_that mbind option_bind]. split; [exact E|]. split; [lia|exact Hr].
    + rewrite (proj2 (Z.leb_le _ _)) by lia. destruct (Hright (9 - l) ltac:(lia) ltac:(lia)) as (a' & c' & L' & rest' & E & Hr).
      exists a', c', L', rest', (9 - l), (t + 1). cbn [assert_that mbind option_bind]. split; [exact E|]. split; [lia|exact Hr].
  - assert (exists t, shift = - (9 * t + Z.rem (- shift) 9) /\ 0 <= t) as (t & Et & Ht) by (exists (Z.quot (- shift) 9); clear -Hs; dlia).
    assert (1 <= Z.rem (- shift) 9 <= 8) as Hl by (clear -Hs Hrem; dlia). set (r := Z.rem (- shift) 9) in *. clearbody r.
    destruct (Z.leb_spec r (Z.of_nat (length b) * 9 - last)) as [Hrb|Hrb]; cbn [negb orb].
    + destruct (Hright r Hl Hrb) as (a' & c' & L' & rest' & E & Hr). exists a', c', L', rest', r, (- t). cbn [assert_that mbind option_bind]. split; [exact E|]. split; [lia|exact Hr].
    + rewrite (proj2 (Z.leb_le _ _)) by lia. destruct (Hleft (9 - r) ltac:(lia) ltac:(lia)) as (a' & c' & L' & rest' & E & Hr).
      exists a', c', L', rest', (- (9 - r)), (- t - 1). cbn [assert_that mbind option_bind]. split; [exact E|]. split; [lia|exact Hr].
Qed.

(** ** The theorems *)

Lemma shift_digits_spec d (a c : nat) L rest shift beg last X : valid d -> shift <> 0 ->
  buf d = replicate a 0 ++ L ++ replicate c 0 ++ rest -> (a + length L + c = iw d + fw d)%nat ->
  digits_in (replicate a 0) L beg last X -> in_words (replicate a 0) L beg last ->
  let np := 9 * Z.of_nat (iw d) + shift in
  ROUND_UP (Z.max (np - beg) 0) + ROUND_UP (Z.max (last - np) 0) <= len d ->
  exists b, shift_digits d shift beg last np (Z.max (np - beg) 0) (Z.max (last - np) 0) E_DEC_OK = Some (mkDec (Z.max (np - beg) 0) (Z.max (last - np) 0) (sign d) b, E_DEC_OK) /\
    placed b (beg - np) (last - np) X.
Proof.
  intros Hv Hs Eb EN Hin Hw np Hroom. unfold shift_digits. unfold len in Hroom. rewrite Eb in *. destruct (Z.eqb_spec (Z.rem shift DIG_PER_DEC1) 0) as [Hr|Hr]; cbn [negb].
  - destruct (move_digits_spec _ L (replicate c 0 ++ rest) beg last X (Z.of_nat (iw d) + Z.quot shift 9) Hin) as (b & E & Hp);
      replace (9 * (Z.of_nat (iw d) + Z.quot shift 9)) with np in * by (unfold np; clear -Hr; unfold DIG_PER_DEC1 in Hr; dlia); [done|].
    rewrite E. cbn [mbind option_bind]. by exists b.
  - destruct (align_digits_spec a c (iw d) L rest shift beg last X Hin Hw Hr Hroom) as (a' & c' & L' & rest' & mini & m & -> & Hm & Hl & HN & Hin'). cbn [mbind option_bind].
    replace (np + mini) with (9 * (Z.of_nat (iw d) + m)) by lia.
    replace (Z.max (np - beg) 0) with (Z.max (9 * (Z.of_nat (iw d) + m) - (beg + mini)) 0) in * by lia.
    replace (Z.max (last - np) 0) with (Z.max (last + mini - 9 * (Z.of_nat (iw d) + m)) 0) in * by lia.
    replace (beg - np) with (beg + mini - 9 * (Z.of_nat (iw d) + m)) by lia. replace (last - np) with (last + mini - 9 * (Z.of_nat (iw d) + m)) by lia.
    destruct ((shift + mini =? 0) && _) eqn:Ee.
    + apply andb_prop in Ee as [E1 E2]. apply Z.eqb_eq in E1. apply Z.ltb_lt in E2. unfold DIG_PER_DEC1 in E2. eexists. split; [done|].
      assert (m = 0) as -> by lia. rewrite Z.add_0_r in *. set (beg' := beg + mini) in *. set (last' := last + mini) in *. clearbody beg' last'.
      pose proof (di_beg _ _ _ _ _ Hin') as Hb'. pose proof (di_last _ _ _ _ _ Hin') as Hl'. rewrite length_replicate in Hb', Hl'.
      exists a', c', (if decide (beg' < 9 * Z.of_nat (iw d)) then iw d else O), L', rest'. split; [done|].
      pose proof (round_up_spec (Z.max (last' - 9 * Z.of_nat (iw d)) 0) ltac:(lia)) as Hrl. destruct (decide (beg' < 9 * Z.of_nat (iw d))).
      * rewrite !Z.sub_add. split; [done|]. split; [left; lia|]. destruct (Z.le_gt_cases last' (9 * Z.of_nat (iw d))); [|lia].
        rewrite Z.max_r by lia. change (ROUND_UP 0) with 0. lia.
      * assert (iw d = O) as E0 by lia. rewrite E0 in *. cbn [Z.of_nat] in *. rewrite !Z.mul_0_r, !Z.sub_0_r, !Z.add_0_r in *. split; [done|]. split; [by right|lia].
    + destruct (move_digits_spec _ L' (replicate c' 0 ++ rest') _ _ X (Z.of_nat (iw d) + m) Hin') as (b & E & Hp); [by rewrite Hl|]. rewrite E. cbn [mbind option_bind]. by exists b.
Qed.

(** The digits of the shifted number fit into the array. *)
Definition shift_fits (d : decimal_t) (shift : Z) : Prop := forall beg last, digits_bounds d = Some (beg, last) ->
  let new_point := ROUND_UP (intg d) * DIG_PER_DEC1 + shift in
  ROUND_UP (Z.max (new_point - beg) 0) + ROUND_UP (Z.max (last - new_point) 0) <= len d.

(** The words in front of the point of the shifted number. *)
Definition shift_front (d : decimal_t) (shift : Z) : Z :=
  match digits_bounds d with
  | Some (beg, _) => ROUND_UP (Z.max (ROUND_UP (intg d) * DIG_PER_DEC1 + shift - beg) 0)
  | None => 0
  end.

(** All digits fit. *)
Lemma decimal_shift_value d shift : number d -> shift_fits d shift -> rval (words d) <> 0 ->
  exists d', decimal_shift d shift = Some (d', E_DEC_OK) /\ number d' /\ sign d' = sign d /\
    rval (words d') * 10 ^ (9 * Z.of_nat (fw d) + Z.max (- shift) 0) = rval (words d) * 10 ^ (9 * Z.of_nat (fw d') + Z.max shift 0).
Proof.
  intros Hn Hfit Hnz. pose proof (n_valid d Hn) as Hv. unfold decimal_shift. destruct (Z.eqb_spec shift 0) as [->|Hs].
  { exists d. split; [done|]. split; [done|]. done. }
  destruct (digits_bounds_spec d Hn) as [[H0 _]|(a & c & L & rest & beg & last & X & Eb & EL & EN & Hin & Hw & HX & Er)]; [done|].
  specialize (Hfit _ _ Eb). rewrite Eb. rewrite (iw_Z d Hv) in *. cbn [mbind option_bind]. pose proof (di_order _ _ _ _ _ Hin). rewrite (proj2 (Z.eqb_neq beg last)) by lia.
  replace (Z.of_nat (iw d) * DIG_PER_DEC1 + shift) with (9 * Z.of_nat (iw d) + shift) in * by (unfold DIG_PER_DEC1; lia). cbn zeta in Hfit. rewrite (proj2 (Z.ltb_ge _ _)) by exact Hfit.
  destruct (shift_digits_spec d a c L rest shift beg last X Hv Hs EL EN Hin Hw Hfit) as (b & -> & Hp). set (np := 9 * Z.of_nat (iw d) + shift) in *.
  destruct (placed_result b _ _ X (sign d) Hp HX) as (Hn' & Hle & Hr'). replace (- (beg - np)) with (np - beg) in * by lia. eexists. split; [done|]. split; [done|]. split; [done|].
  rewrite Hr', Er, (di_value _ _ _ _ _ Hin). pose proof (di_last _ _ _ _ _ Hin). rewrite length_replicate in *. rewrite <- !pow10_nat, <- !Z.mul_assoc, <- !Z.pow_add_r by lia. do 2 f_equal. lia.
Qed.

Lemma decimal_shift_zero d shift : number d -> shift <> 0 -> rval (words d) = 0 -> decimal_shift d shift = Some (decimal_make_zero d, E_DEC_OK).
Proof.
  intros Hn Hs H0. unfold decimal_shift. rewrite (proj2 (Z.eqb_neq _ _)) by done.
  destruct (digits_bounds_spec d Hn) as [[_ ->]|(a & c & L & rest & beg & last & X & _ & _ & _ & Hin & _ & HX & Er)]; [done|exfalso].
  pose proof (di_value _ _ _ _ _ Hin) as Hv. pose proof (di_last _ _ _ _ _ Hin). pose proof (Bpow_pos c). rewrite Er, Hv in H0.
  pose proof (Z.pow_pos_nonneg 10 (9 * Z.of_nat (length (replicate a 0) + length L) - last)). nia.
Qed.

(** The digits in front of the new point do not fit: the number is untouched. *)
Lemma decimal_shift_overflow d shift beg last : shift <> 0 -> digits_bounds d = Some (beg, last) -> beg <> last ->
  len d < ROUND_UP (Z.max (ROUND_UP (intg d) * DIG_PER_DEC1 + shift - beg) 0) -> decimal_shift d shift = Some (d, E_DEC_OVERFLOW).
Proof.
  intros Hs E Hne Hlt. unfold decimal_shift. rewrite (proj2 (Z.eqb_neq shift 0)) by done. rewrite E. cbn [mbind option_bind]. rewrite (proj2 (Z.eqb_neq beg last)) by done.
  pose proof (round_up_spec (Z.max (last - (ROUND_UP (intg d) * DIG_PER_DEC1 + shift)) 0) ltac:(lia)).
  rewrite (proj2 (Z.ltb_lt _ _)) by lia. rewrite (proj2 (Z.ltb_lt _ _)) by lia. done.
Qed.

(** C19: [decimal_shift] by a distance other than zero.  Zero becomes plain zero.  When
    the digits in front of the new point do not fit, the number is untouched, with
    the error [E_DEC_OVERFLOW].  When all digits fit, the number is multiplied by the
    power of ten exactly: no assertion fails and no access is outside of the array,
    whether the digits are aligned to the left or to the right, moved by whole words
    or not at all, and the gap up to the point is filled. *)
Theorem decimal_shift_exact d shift : number d -> shift <> 0 ->
  (rval (words d) = 0 -> decimal_shift d shift = Some (decimal_make_zero d, E_DEC_OK)) /\
  (rval (words d) <> 0 -> shift_front d shift > len d -> decimal_shift d shift = Some (d, E_DEC_OVERFLOW)) /\
  (rval (words d) <> 0 -> shift_fits d shift ->
    exists d', decimal_shift d shift = Some (d', E_DEC_OK) /\ number d' /\ sign d' = sign d /\
      rval (words d') * 10 ^ (9 * Z.of_nat (fw d) + Z.max (- shift) 0) = rval (words d) * 10 ^ (9 * Z.of_nat (fw d') + Z.max shift 0)).
Proof.
  intros Hn Hs. split; [by apply decimal_shift_zero|]. split; [|by intros; apply decimal_shift_value].
  intros H0 Hf. unfold shift_front in Hf. destruct (digits_bounds_spec d Hn) as [[? _]|(a & c & L & rest & beg & last & X & E & _ & _ & Hin & _)]; [done|].
  rewrite E in Hf. pose proof (di_order _ _ _ _ _ Hin). apply (decimal_shift_overflow d shift beg last); [done|done|lia|lia].
Qed.

(** 1234567890.12 is shifted to the left and to the right. *)
Lemma decimal_shift_exact_witness :
  number (mkDec 10 2 true [1; 234567890; 120000000]) /\ shift_fits (mkDec 10 2 true [1; 234567890; 120000000]) 5 /\ shift_fits (mkDec 10 2 true [1; 234567890; 120000000]) (-11) /\
  (exists d', decimal_shift (mkDec 10 2 true [1; 234567890; 120000000]) 5 = Some (d', E_DEC_OK) /\ number d' /\ sign d' = true /\
    rval (words d') * 10 ^ 9 = 1234567890120000000 * 10 ^ (9 * Z.of_nat (fw d') + 5)) /\
  (exists d', decimal_shift (mkDec 10 2 true [1; 234567890; 120000000]) (-11) = Some (d', E_DEC_OK) /\ number d' /\ sign d' = true /\
    rval (words d') * 10 ^ 20 = 1234567890120000000 * 10 ^ (9 * Z.of_nat (fw d') + 0)).
Proof.
  assert (number (mkDec 10 2 true [1; 234567890; 120000000])) as N by (apply number_of; vm_compute; first [done | lia]).
  assert (shift_fits (mkDec 10 2 true [1; 234567890; 120000000]) 5) as F1 by (intros beg last E; vm_compute in E; injection E as <- <-; vm_compute; discriminate).
  assert (shift_fits (mkDec 10 2 true [1; 234567890; 120000000]) (-11)) as F2 by (intros beg last E; vm_compute in E; injection E as <- <-; vm_compute; discriminate).
  split; [exact N|]. split; [exact F1|]. split; [exact F2|].
  split; [apply (decimal_shift_exact _ 5 N)|apply (decimal_shift_exact _ (-11) N)]; first [assumption|vm_compute; discriminate].
Defined.

(** Digits are cut off with a carry: the bounds of the digits are those from before
    the rounding.  0.999999999999999996 becomes zero, not [10^-10], and 10.0 has
    one digit in front of the point. *)
Lemma decimal_shift_loses_carry : decimal_shift (mkDec 2 18 false [0; 999999999; 999999996]) (-10) = Some (mkDec 0 27 false [0; 0; 0], E_DEC_TRUNCATED).
Proof. vm_compute. reflexivity. Qed.

Lemma decimal_shift_carry_intg : decimal_shift (mkDec 2 9 false [99; 999999996]) (-1) = Some (mkDec 1 9 false [10; 0], E_DEC_TRUNCATED).
Proof. vm_compute. reflexivity. Qed.

(** The rounding writes a word more than there is. *)
Lemma decimal_shift_round_overflow : decimal_shift (mkDec 9 9 false [999999999; 999999999]) (-1) = None.
Proof. vm_compute. reflexivity. Qed.
