(* ===== verification/DecimalStr.v ===== *)
(** * Decimals and strings (strings/decimal.c: [decimal2string], [internal_str2dec],
    [decimal_actual_fraction])

    A string is the list of its bytes.  A buffer for a string is a list of the bytes
    that it has; [store] fails outside of it. *)

From stdpp Require Import base numbers list.
From Stdlib Require Import ZArith Lia.
From S2P Require Import Prelude IntStr StrToLL StrTime Decimal DecimalArith DecimalSub DecimalMul DecimalInt DecimalBin DecimalPack DecimalRound DecimalDiv DecimalMod DecimalShift.

Local Open Scope Z_scope.

Definition E_DEC_BAD_NUM : Z := 8.
Definition E_DEC_OOM : Z := 16.

Definition decimal_neg (dec : decimal_t) : decimal_t := mkDec (intg dec) (frac dec) (negb (sign dec)) (buf dec).

(** ** The digits behind the point that count *)

(** [while (frac > 0 && *buf0 == 0)]: the words, the last one first. *)
Fixpoint drop_zero_words (l : list Z) (frac i : Z) : option (list Z * Z) :=
  if 0 <? frac then
    match l with
    | [] => None
    | w :: l' => if w =? 0 then drop_zero_words l' (frac - i) DIG_PER_DEC1 else Some (l, frac)
    end
  else Some (l, frac).

Definition decimal_actual_fraction (from : decimal_t) : option Z :=
  let frac := frac from in
  if frac =? 0 then Some 0
  else
    let n := ROUND_UP (intg from) + ROUND_UP frac in
    l ← back (buf from) 0 n;
    '(l, frac) ← drop_zero_words l frac (Z.rem (frac - 1) DIG_PER_DEC1 + 1);
    if 0 <? frac then
      w ← head l;
      trail_digits 10 (DIG_PER_DEC1 - Z.rem (frac - 1) DIG_PER_DEC1) w frac
    else Some frac.

(** ** Printing *)

Definition decimal_string_size (dec : decimal_t) : Z :=
  (if intg dec =? 0 then 1 else intg dec) + frac dec + b2z (0 <? frac dec) + 2.

(** The first [n] digits of a word. *)
Fixpoint word_digits (n : nat) (x : Z) : list Z :=
  match n with
  | O => []
  | S n => let y := Z.quot x DIG_MASK in (48 + u8 y) :: word_digits n (s32 ((x - y * DIG_MASK) * 10))
  end.

Fixpoint frac_digits (buf : list Z) (frac : Z) : option (list Z) :=
  if 0 <? frac then
    match buf with
    | [] => None
    | x :: buf => l ← frac_digits buf (frac - DIG_PER_DEC1); Some (word_digits (Z.to_nat (Z.min frac DIG_PER_DEC1)) x ++ l)
    end
  else Some [].

(** The last [n] digits of a word, put before [s]. *)
Fixpoint last_word_digits (n : nat) (x : Z) (s : list Z) : list Z :=
  match n with
  | O => s
  | S n => let y := Z.quot x 10 in last_word_digits n y ((48 + u8 (x - y * 10)) :: s)
  end.

(** The words, the last one first. *)
Fixpoint intg_digits (buf : list Z) (intg : Z) (s : list Z) : option (list Z) :=
  if 0 <? intg then
    match buf with
    | [] => None
    | x :: buf => intg_digits buf (intg - DIG_PER_DEC1) (last_word_digits (Z.to_nat (Z.min intg DIG_PER_DEC1)) x s)
    end
  else Some s.

(** What is left of the digits: those in front of the point and behind it, the
    length, and the error. *)
Definition string_limits (intg frac intg_len frac_len sg to_len fixed_precision fixed_decimals : Z) : Z * Z * Z * Z :=
  let len := sg + intg_len + b2z (negb (frac =? 0)) + frac_len in
  if negb (fixed_precision =? 0) then
    let '(frac, error) := if fixed_decimals <? frac then (fixed_decimals, E_DEC_TRUNCATED) else (frac, E_DEC_OK) in
    let fixed_intg := fixed_precision - fixed_decimals in
    let '(intg, error) := if fixed_intg <? intg then (fixed_intg, E_DEC_OVERFLOW) else (intg, error) in
    (intg, frac, len, error)
  else
    let to_len := to_len - 1 in (* reserve one byte for \0 *)
    if to_len <? len then
      let i := len - to_len in
      let error := if negb (frac =? 0) && (i <=? frac + 1) then E_DEC_TRUNCATED else E_DEC_OVERFLOW in
      let i := if negb (frac =? 0) && (frac + 1 <=? i) then i - 1 else i in
      let '(intg, frac) := if frac <? i then (intg - (i - frac), 0) else (intg, frac - i) in
      (intg, frac, sg + intg_len + b2z (negb (frac =? 0)) + frac_len, error)
    else (intg, frac, len, E_DEC_OK).

(** The buffer, the length and the error. *)
Definition decimal2string (from : decimal_t) (to : list Z) (fixed_precision fixed_decimals filler : Z) : option (list Z * Z * Z) :=
  let to_len := Z.of_nat (length to) in
  let sg := b2z (sign from) in
  let frac := frac from in
  let fixed_intg := if negb (fixed_precision =? 0) then fixed_precision - fixed_decimals else 0 in
  _ ← assert_that (2 + sg <=? to_len);
  '(buf0, intg) ← remove_leading_zeroes from;
  let '(buf0, intg) := if intg + frac =? 0 then ([0], 1) else (buf0, intg) in
  let intg_len := if negb (fixed_precision =? 0) then fixed_intg else intg in
  let intg_len := if intg_len =? 0 then 1 else intg_len in
  let frac_len := if negb (fixed_precision =? 0) then fixed_decimals else frac in
  let '(intg, frac, len, error) := string_limits intg frac intg_len frac_len sg to_len fixed_precision fixed_decimals in
  to ← store to (len + 1) [0];
  to ← (if sign from then store to 1 [45] else Some to);
  to ←
    (if negb (frac =? 0) then
       let fill := frac_len - frac in
       _ ← assert_that (0 <=? fill);
       l ← frac_digits (drop (Z.to_nat (ROUND_UP intg)) buf0) frac;
       store to (sg + intg_len + 1 + Z.of_nat (length l) + fill) (46 :: l ++ replicate (Z.to_nat fill) filler)
     else Some to);
  let fill := intg_len - intg - b2z (intg =? 0) in
  _ ← assert_that (0 <=? fill);
  to ← store to (sg + fill) (replicate (Z.to_nat fill) filler);
  to ←
    (if negb (intg =? 0) then
       l ← back buf0 0 (ROUND_UP intg);
       s ← intg_digits l intg [];
       store to (sg + fill + intg) s
     else store to (sg + fill + 1) [48]);
  Some (to, len, error).

(** ** Reading *)

(** [while (s < end_of_string && my_isdigit( *s)) s++]: the digits and the rest. *)
Fixpoint scan_digits (s : list Z) : list Z * list Z :=
  match s with
  | c :: s' => if my_isdigit c then let '(ds, r) := scan_digits s' in (c :: ds, r) else ([], s)
  | [] => ([], [])
  end.

(** The words in front of the point; [ds] are the digits, and the result the words,
    the last one first. *)
Fixpoint intg_words (ds : list Z) (x i : Z) : list Z :=
  match ds with
  | [] => if i =? 0 then [] else [x]
  | c :: ds =>
      let x := s32 (x + (c - 48) * power10 i) in
      if i + 1 =? DIG_PER_DEC1 then x :: intg_words ds 0 0 else intg_words ds x (i + 1)
  end.

Fixpoint frac_words (ds : list Z) (x i : Z) : list Z :=
  match ds with
  | [] => if i =? 0 then [] else [s32 (x * power10 (DIG_PER_DEC1 - i))]
  | c :: ds =>
      let x := s32 (c - 48 + x * 10) in
      if i + 1 =? DIG_PER_DEC1 then x :: frac_words ds 0 0 else frac_words ds x (i + 1)
  end.

(** The digits that are kept: how many in front of the point and behind it, the
    words in front of it, and the error. *)
Definition str_limits (to : decimal_t) (intg0 frac0 : Z) (fixed : bool) : Z * Z * Z * Z :=
  if fixed then
    let '(frac0, error) := if frac to <? frac0 then (frac to, E_DEC_TRUNCATED) else (frac0, E_DEC_OK) in
    let '(intg0, error) := if intg to <? intg0 then (intg to, E_DEC_OVERFLOW) else (intg0, error) in
    let error := if len to <? ROUND_UP intg0 + ROUND_UP frac0 then E_DEC_OOM else error in
    (intg0, frac0, ROUND_UP intg0, error)
  else
    let '(intg1, frac1, error) := FIX_INTG_FRAC_ERROR (len to) (ROUND_UP intg0) (ROUND_UP frac0) in
    if negb (error =? 0) then
      (if error =? E_DEC_OVERFLOW then intg1 * DIG_PER_DEC1 else intg0, frac1 * DIG_PER_DEC1, intg1, error)
    else (intg0, frac0, intg1, error).

Definition INT_MAX : Z := 2 ^ 31 - 1.
Definition INT_MIN : Z := - 2 ^ 31.

(** The exponent: [s] is what comes behind the digits, from the index [pos] on. *)
Definition str_exponent (s : list Z) (pos : Z) (to : decimal_t) (error : Z) : option (decimal_t * Z * Z) :=
  match s with
  | c :: ((_ :: _) as s') =>
      if (c =? 101) || (c =? 69) then
        '(exp, n, str_error) ← my_strtoll10 s' (Some (Z.of_nat (length s')));
        if n =? 0 then Some (to, pos, error)
        else
          let pos := pos + 1 + n in
          if 0 <? str_error then Some (decimal_make_zero to, pos, E_DEC_BAD_NUM)
          else if (Z.quot INT_MAX 2 <? exp) || ((str_error =? 0) && (exp <? 0)) then Some (decimal_make_zero to, pos, E_DEC_OVERFLOW)
          else if (exp <? Z.quot INT_MIN 2) && negb (error =? E_DEC_OVERFLOW) then Some (decimal_make_zero to, pos, E_DEC_TRUNCATED)
          else if negb (error =? E_DEC_OVERFLOW) then '(to, error) ← decimal_shift to exp; Some (to, pos, error)
          else Some (to, pos, error)
      else Some (to, pos, error)
  | _ => Some (to, pos, error)
  end.

(** The number, the index behind the last character used, and the error. *)
Definition internal_str2dec (from : list Z) (to : decimal_t) (fixed : bool) : option (decimal_t * Z * Z) :=
  let s := skip_space from in
  match s with
  | [] => Some (decimal_make_zero to, Z.of_nat (length from), E_DEC_BAD_NUM)
  | c :: s' =>
      let sg := c =? 45 in
      let s := if sg || (c =? 43) then s' else s in
      let '(ds, s) := scan_digits s in
      let '(fs, endp) := match s with c :: s' => if c =? 46 then scan_digits s' else ([], s) | [] => ([], s) end in
      let pos := Z.of_nat (length from) - Z.of_nat (length endp) in
      let to := mkDec (intg to) (frac to) sg (buf to) in
      if (length fs + length ds =? 0)%nat then Some (decimal_make_zero to, pos, E_DEC_BAD_NUM)
      else
        let '(intg0, frac0, intg1, error) := str_limits to (Z.of_nat (length ds)) (Z.of_nat (length fs)) fixed in
        if error =? E_DEC_OOM then Some (decimal_make_zero to, pos, E_DEC_OOM)
        else
          b ← store (buf to) intg1 (reverse (intg_words (take (Z.to_nat intg0) (reverse ds)) 0 0));
          let l := frac_words (take (Z.to_nat frac0) fs) 0 0 in
          b ← store b (intg1 + Z.of_nat (length l)) l;
          str_exponent endp pos (mkDec intg0 frac0 sg b) error
  end.

Definition string2decimal (from : list Z) (to : decimal_t) : option (decimal_t * Z * Z) := internal_str2dec from to false.
Definition string2decimal_fixed (from : list Z) (to : decimal_t) : option (decimal_t * Z * Z) := internal_str2dec from to true.

(** ** Digits and words *)

Abbreviation chars ds := (Z.add 48 <$> ds).

Definition digit_free (s : list Z) : Prop := match s with c :: _ => my_isdigit c = false | [] => True end.

Lemma scan_digits_spec ds s : Forall is_digit ds -> digit_free s -> scan_digits (chars ds ++ s) = (chars ds, s).
Proof.
  intros HD Hs. induction HD as [|d ds Hd _ IH]; cbn [fmap list_fmap app scan_digits].
  - destruct s as [|c s]; [done|]. cbn [scan_digits]. by rewrite Hs.
  - destruct (digit_classes d ltac:(unfold is_digit in Hd; lia)) as (-> & _). by rewrite IH.
Qed.

Lemma pow10_S i : 0 <= i -> 10 ^ (i + 1) = 10 * 10 ^ i.
Proof. intros Hi. rewrite Z.pow_add_r by lia. lia. Qed.

Lemma pow10_9 i : 0 <= i <= 9 -> 0 < 10 ^ i <= B.
Proof. intros Hi. split; [apply Z.pow_pos_nonneg; lia|]. change B with (10 ^ 9). apply Z.pow_le_mono_r; lia. Qed.

Lemma s32_word x : 0 <= x < B -> s32 x = x.
Proof. intros Hx. apply s32_small. unfold DIG_BASE in Hx. lia. Qed.

Lemma round_up_9 n : 0 <= n -> Z.succ (ROUND_UP n) = ROUND_UP (n + 9).
Proof. intros Hn. pose proof (round_up_spec n Hn). pose proof (round_up_spec (n + 9) ltac:(lia)). lia. Qed.

(** The digits are taken from the last one on. *)
Lemma intg_words_spec ds : forall x i, Forall is_digit ds -> 0 <= i <= 8 -> 0 <= x < 10 ^ i ->
  let W := intg_words (chars (reverse ds)) x i in
  Forall (fun w => digit w) W /\ Z.of_nat (length W) = ROUND_UP (i + Z.of_nat (length ds)) /\ rval W = x + 10 ^ i * value 10 ds.
Proof.
  induction ds as [|d ds IH] using rev_ind; intros x i HD Hi Hx; cbn zeta.
  - pose proof (pow10_9 i ltac:(lia)). cbn [reverse rev_append fmap list_fmap intg_words length]. rewrite Z.add_0_r. change (value 10 []) with 0. destruct (Z.eqb_spec i 0) as [-> |Hi0].
    + change (10 ^ 0) with 1 in *. split; [constructor|]. split; [done|]. cbn [rval]. lia.
    + split; [repeat constructor; lia|]. split; [pose proof (round_up_spec i ltac:(lia)); cbn [length]; lia|]. cbn [rval]. lia.
  - apply Forall_app in HD as [HD Hd]. rewrite Forall_singleton in Hd. unfold is_digit in Hd. rewrite reverse_snoc. cbn [fmap list_fmap intg_words].
    rewrite power10_pow by lia. replace (48 + d - 48) with d by lia. pose proof (pow10_S i ltac:(lia)) as E10. pose proof (pow10_9 (i + 1) ltac:(lia)). pose proof (pow10_9 i ltac:(lia)).
    rewrite s32_word by nia. unfold DIG_PER_DEC1 in *. rewrite value_app, length_app. cbn [length]. destruct (Z.eqb_spec (i + 1) 9) as [E|E].
    + destruct (IH 0 0 HD ltac:(lia) ltac:(change (10 ^ 0) with 1; lia)) as (DW & LW & VW). replace i with 8 in * by lia.
      split; [constructor; [change B with (10 ^ (8 + 1)); nia|done]|]. cbn [length rval]. rewrite VW. rewrite Z.add_0_l in LW. split.
      * rewrite Nat2Z.inj_succ, LW. replace (8 + Z.of_nat (length ds + 1)) with (Z.of_nat (length ds) + 9) by lia. apply round_up_9. lia.
      * change (10 ^ 0) with 1. change B with (10 * 10 ^ 8). ring.
    + destruct (IH (x + d * 10 ^ i) (i + 1) HD ltac:(lia) ltac:(nia)) as (DW & LW & VW). split; [done|]. split; [rewrite LW; f_equal; lia|]. rewrite VW, E10. ring.
Qed.

Lemma frac_words_spec ds : forall x i, Forall is_digit ds -> 0 <= i <= 8 -> 0 <= x < 10 ^ i ->
  let W := frac_words (chars ds) x i in
  Forall (fun w => digit w) W /\ Z.of_nat (length W) = ROUND_UP (i + Z.of_nat (length ds)) /\
  fval W = (x * 10 ^ Z.of_nat (length ds) + value 10 ds) * 10 ^ (9 * Z.of_nat (length W) - i - Z.of_nat (length ds)).
Proof.
  induction ds as [|d ds IH]; intros x i HD Hi Hx; cbn zeta.
  - pose proof (pow10_9 i ltac:(lia)). cbn [fmap list_fmap frac_words length]. rewrite Z.add_0_r, Z.sub_0_r. change (10 ^ Z.of_nat 0) with 1. change (value 10 []) with 0.
    destruct (Z.eqb_spec i 0) as [-> |Hi0].
    + change (10 ^ 0) with 1 in *. split; [constructor|]. split; [done|]. change (fval []) with 0. lia.
    + rewrite power10_pow by (unfold DIG_PER_DEC1; lia). unfold DIG_PER_DEC1. destruct (B_split i ltac:(lia)) as (EB & _ & Hc). rewrite s32_word by nia. split; [repeat constructor; nia|].
      split; [pose proof (round_up_spec i ltac:(lia)); cbn [length]; lia|]. change (fval [x * 10 ^ (9 - i)]) with (x * 10 ^ (9 - i) + B * 0). cbn [length]. replace (9 * Z.of_nat 1 - i) with (9 - i) by lia. ring.
  - apply Forall_cons in HD as [Hd HD]. unfold is_digit in Hd. cbn [fmap list_fmap frac_words]. replace (48 + d - 48) with d by lia.
    pose proof (pow10_S i ltac:(lia)) as E10. pose proof (pow10_9 (i + 1) ltac:(lia)). pose proof (pow10_9 i ltac:(lia)). rewrite s32_word by nia. unfold DIG_PER_DEC1 in *.
    assert (value 10 (d :: ds) = d * 10 ^ Z.of_nat (length ds) + value 10 ds) as Ev by (change (d :: ds) with ([d] ++ ds); rewrite value_split; done).
    cbn [length]. rewrite Ev. clear Ev. rewrite Nat2Z.inj_succ, <- Z.add_1_r, (pow10_S (Z.of_nat (length ds))) by lia. destruct (Z.eqb_spec (i + 1) 9) as [E|E].
    + destruct (IH 0 0 HD ltac:(lia) ltac:(change (10 ^ 0) with 1; lia)) as (DW & LW & VW). replace i with 8 in * by lia. set (W := frac_words (chars ds) 0 0) in *.
      split; [constructor; [change B with (10 ^ (8 + 1)); nia|done]|]. cbn [length]. rewrite Z.add_0_l in LW. rewrite Nat2Z.inj_succ. split.
      * rewrite LW. replace (8 + (Z.of_nat (length ds) + 1)) with (Z.of_nat (length ds) + 9) by lia. apply round_up_9. lia.
      * pose proof (round_up_spec (Z.of_nat (length ds)) ltac:(lia)). rewrite fval_cons, VW, <- pow10_nat. replace (9 * Z.succ (Z.of_nat (length W)) - 8 - (Z.of_nat (length ds) + 1)) with (9 * Z.of_nat (length W) - 0 - Z.of_nat (length ds)) by lia.
        replace (10 ^ (9 * Z.of_nat (length W))) with (10 ^ Z.of_nat (length ds) * 10 ^ (9 * Z.of_nat (length W) - 0 - Z.of_nat (length ds))) by (rewrite <- Z.pow_add_r by lia; f_equal; lia). ring.
    + destruct (IH (d + x * 10) (i + 1) HD ltac:(lia) ltac:(nia)) as (DW & LW & VW). set (W := frac_words (chars ds) (d + x * 10) (i + 1)) in *.
      split; [done|]. split; [rewrite LW; f_equal; lia|]. rewrite VW. replace (9 * Z.of_nat (length W) - i - (Z.of_nat (length ds) + 1)) with (9 * Z.of_nat (length W) - (i + 1) - Z.of_nat (length ds)) by lia. ring.
Qed.

(** ** Reading a number *)

(** Blanks, a sign, digits, and perhaps a point with more digits. *)
Definition mantissa (blanks : list Z) (sg : StrToLL.sign) (ds : list Z) (fs : option (list Z)) : list Z :=
  blanks ++ sign_chars sg ++ chars ds ++ match fs with Some fs => 46 :: chars fs | None => [] end.

Record mantissa_ok (blanks ds : list Z) (fs : option (list Z)) : Prop := {
  mo_blanks : Forall (fun c => my_isspace c = true) blanks;
  mo_intg : Forall is_digit ds;
  mo_frac : Forall is_digit (default [] fs);
  mo_some : (1 <= length ds + length (default [] fs))%nat
}.

(** What may follow. *)
Definition tail_ok (fs : option (list Z)) (t : list Z) : Prop := digit_free t /\ (fs = None -> head t <> Some 46).

Lemma skip_space_blanks blanks s : Forall (fun c => my_isspace c = true) blanks -> skip_space (blanks ++ s) = skip_space s.
Proof. induction 1 as [|c l Hc _ IH]; [done|]. cbn [app skip_space]. by rewrite Hc. Qed.

(** The scan stops at the end of the number. *)
Lemma scan_number ds fs t : mantissa_ok [] ds fs -> tail_ok fs t ->
  exists s, scan_digits (chars ds ++ match fs with Some fs => 46 :: chars fs | None => [] end ++ t) = (chars ds, s) /\
   match s with c :: s' => if c =? 46 then scan_digits s' else ([], s) | [] => ([], s) end = (chars (default [] fs), t).
Proof.
  intros [_ HD HF _] [Ht Hp]. destruct fs as [fs|]; cbn [default] in *; eexists.
  - split; [by apply scan_digits_spec|]. cbn [app]. by rewrite Z.eqb_refl, scan_digits_spec.
  - split; [by apply scan_digits_spec|]. destruct t as [|c t]; [done|]. cbn [app]. destruct (Z.eqb_spec c 46) as [-> |]; [by destruct (Hp eq_refl)|done].
Qed.

Lemma sign_scan sg ds fs t : mantissa_ok [] ds fs ->
  let s0 := sign_chars sg ++ chars ds ++ match fs with Some fs => 46 :: chars fs | None => [] end ++ t in
  exists c s', s0 = c :: s' /\ my_isspace c = false /\ (c =? 45) = is_minus sg /\
    (if (c =? 45) || (c =? 43) then s' else s0) = chars ds ++ match fs with Some fs => 46 :: chars fs | None => [] end ++ t.
Proof.
  intros [_ HD HF Hs]. destruct sg; cbn [sign_chars app is_minus]; [|by eexists _, _..].
  destruct ds as [|d ds].
  - destruct fs as [fs|]; [|cbn in Hs; lia]. by eexists _, _.
  - cbn [fmap list_fmap app]. apply Forall_cons in HD as [Hd _]. unfold is_digit in Hd. destruct (digit_classes d ltac:(lia)) as (_ & Hsp & _). eexists _, _. split; [done|]. split; [done|].
    rewrite (proj2 (Z.eqb_neq (48 + d) 45)), (proj2 (Z.eqb_neq (48 + d) 43)) by lia. done.
Qed.

(** The words of the number, in front of what the array held. *)
Lemma store_number b W1 W2 : (length W1 + length W2 <= length b)%nat ->
  exists rest, (b1 ← store b (Z.of_nat (length W1)) (reverse W1); store b1 (Z.of_nat (length W1) + Z.of_nat (length W2)) W2) = Some (reverse (reverse W2 ++ W1) ++ rest) /\
    (length W1 + length W2 + length rest = length b)%nat.
Proof.
  intros Hb. exists (drop (length W1 + length W2) b). split; [|rewrite length_drop; lia]. rewrite store_spec by (rewrite ?length_reverse; lia). rewrite length_reverse, Nat.sub_diag, take_0. cbn [app mbind option_bind].
  rewrite <- Nat2Z.inj_add, store_spec by (rewrite ?length_app, ?length_reverse, ?length_drop; lia). f_equal. replace (length W1 + length W2 - length W2)%nat with (length (reverse W1)) by (rewrite length_reverse; lia).
  rewrite take_app_length, reverse_app, reverse_involutive, <- app_assoc. do 2 f_equal. rewrite drop_app_ge by (rewrite length_reverse; lia). rewrite drop_drop, length_reverse. f_equal. lia.
Qed.

(** The number that is read. *)
Record reads (sg : StrToLL.sign) (ds F : list Z) (d : decimal_t) : Prop := {
  rd_valid : valid d;
  rd_sign : sign d = is_minus sg;
  rd_intg : intg d = Z.of_nat (length ds);
  rd_frac : frac d = Z.of_nat (length F);
  rd_value : rval (words d) = value 10 (ds ++ F) * 10 ^ (9 * Z.of_nat (fw d) - Z.of_nat (length F))
}.

Lemma reads_number sg ds F d : reads sg ds F d -> Forall is_digit ds -> Forall is_digit F -> (is_minus sg = true -> value 10 (ds ++ F) <> 0) -> number d.
Proof.
  intros [Hv Hs Hi Hf Hr] HD HF H0. pose proof (fw_Z d Hv) as Ef. pose proof (round_up_spec (frac d) (v_frac d Hv)).
  assert (Forall is_digit (ds ++ F)) as HDF by (by apply Forall_app). pose proof (value_bound _ HDF) as Hb. rewrite length_app in Hb. split; [done|..].
  - unfold whole. rewrite Hr, Hi, <- pow10_nat. replace (9 * Z.of_nat (fw d)) with (Z.of_nat (length F) + (9 * Z.of_nat (fw d) - Z.of_nat (length F))) at 2 by lia.
    rewrite Z.pow_add_r, Z.mul_assoc, <- Z.pow_add_r by lia. apply Z.mul_lt_mono_pos_r; [apply Z.pow_pos_nonneg; lia|]. rewrite <- Nat2Z.inj_add. lia.
  - unfold precise. rewrite Hr, Hf. apply Z.divide_factor_r.
  - intros E. rewrite Hr in E. rewrite Hs. destruct (is_minus sg); [|done]. pose proof (Z.pow_pos_nonneg 10 (9 * Z.of_nat (fw d) - Z.of_nat (length F))). specialize (H0 eq_refl). nia.
Qed.

Lemma str2dec_mantissa blanks sg ds fs to : mantissa_ok blanks ds fs -> ROUND_UP (Z.of_nat (length ds)) + ROUND_UP (Z.of_nat (length (default [] fs))) <= len to ->
  exists d, reads sg ds (default [] fs) d /\ len d = len to /\ forall t, tail_ok fs t ->
    string2decimal (mantissa blanks sg ds fs ++ t) to = str_exponent t (Z.of_nat (length (mantissa blanks sg ds fs))) d E_DEC_OK.
Proof.
  intros [HB HD HF Hs] Hroom. set (F := default [] fs) in *.
  destruct (intg_words_spec ds 0 0 HD ltac:(lia) ltac:(change (10 ^ 0) with 1; lia)) as (D1 & L1 & V1). destruct (frac_words_spec F 0 0 HF ltac:(lia) ltac:(change (10 ^ 0) with 1; lia)) as (D2 & L2 & V2).
  set (W1 := intg_words _ 0 0) in *. set (W2 := frac_words _ 0 0) in *. rewrite Z.add_0_l in L1, L2. unfold len in *.
  destruct (store_number (buf to) W1 W2) as (rest & Est & Lr); [lia|]. set (d := mkDec (Z.of_nat (length ds)) (Z.of_nat (length F)) (is_minus sg) (reverse (reverse W2 ++ W1) ++ rest)).
  destruct (valid_stored (Z.of_nat (length ds)) (Z.of_nat (length F)) (is_minus sg) (reverse W2 ++ W1) rest) as (Hv & Ew);
    [lia|lia|lia|apply Forall_app; split; [by apply Forall_reverse|done]|rewrite length_app, length_reverse; lia|]. fold d in Hv, Ew.
  assert (fw d = length W2) as Efw by (unfold fw, d; cbn [frac]; lia).
  exists d. split; [|split].
  - split; [done..|]. rewrite Ew, Efw, rval_app, length_reverse, V1, V2, value_split. change (10 ^ 0) with 1. rewrite Z.sub_0_r.
    pose proof (round_up_spec (Z.of_nat (length F)) ltac:(lia)). rewrite <- pow10_nat. replace (9 * Z.of_nat (length W2)) with (Z.of_nat (length F) + (9 * Z.of_nat (length W2) - Z.of_nat (length F))) at 2 by lia.
    rewrite Z.pow_add_r by lia. ring.
  - unfold d. cbn [buf]. rewrite length_app, length_reverse, length_app, length_reverse. lia.
  - intros t Ht. unfold string2decimal, internal_str2dec, mantissa. rewrite <- !app_assoc. rewrite skip_space_blanks by done.
    assert (mantissa_ok [] ds fs) as Hok by (split; done). destruct (sign_scan sg ds fs t Hok) as (c & s' & E0 & Hc & E45 & Es). cbn zeta in E0, Es.
    set (s0 := sign_chars sg ++ _) in *. assert (skip_space s0 = c :: s') as -> by (rewrite E0; cbn [skip_space]; by rewrite Hc). rewrite <- E0, Es.
    destruct (scan_number ds fs t Hok Ht) as (s & -> & ->). fold F. cbn [intg frac buf]. rewrite !length_fmap, (proj2 (Nat.eqb_neq _ _)) by lia. unfold str_limits, FIX_INTG_FRAC_ERROR, len. cbn [buf].
    rewrite (proj2 (Z.ltb_ge (Z.of_nat (length (buf to))) _)) by lia. cbn [Z.eqb negb E_DEC_OK E_DEC_OOM]. rewrite !Nat2Z.id, <- fmap_reverse, (take_ge (chars (reverse ds))), (take_ge (chars F)) by (by rewrite length_fmap, ?length_reverse).
    fold W1. fold W2. rewrite <- L1.
    destruct (store (buf to) _ _) as [b1|]; [|done]. cbn [mbind option_bind] in Est |- *. rewrite Est. cbn [mbind option_bind]. rewrite E45. fold d. f_equal.
    unfold s0. rewrite !length_app. lia.
Qed.

(** The exponent: a letter and a numeral. *)
Definition signed_value (sg : StrToLL.sign) (es : list Z) : Z := if is_minus sg then - value 10 es else value 10 es.

Definition exponent (letter : Z) (sg : StrToLL.sign) (es : list Z) : list Z := letter :: numeral [] sg es.

Record exponent_ok (letter : Z) (sg : StrToLL.sign) (es : list Z) : Prop := {
  eo_letter : letter = 101 \/ letter = 69;
  eo_digits : Forall is_digit es;
  eo_some : es <> [];
  eo_range : - 2 ^ 30 <= signed_value sg es < 2 ^ 30
}.

Lemma exponent_tail letter sg es fs : exponent_ok letter sg es -> tail_ok fs (exponent letter sg es).
Proof. intros [[-> | ->] _ _ _]; split; [vm_compute; reflexivity|intros _; discriminate|vm_compute; reflexivity|intros _; discriminate]. Qed.

Lemma str_exponent_shift letter sg es pos d : exponent_ok letter sg es ->
  str_exponent (exponent letter sg es) pos d E_DEC_OK =
  ('(d, error) ← decimal_shift d (signed_value sg es); Some (d, pos + Z.of_nat (length (exponent letter sg es)), error)).
Proof.
  intros [Hl HD Hne Hr]. unfold exponent, str_exponent. set (s := numeral [] sg es). assert (exists c s', s = c :: s') as (c & s' & Es).
  { unfold s, numeral. destruct es as [|e es]; [done|]. destruct sg; by eexists _, _. }
  rewrite Es. assert ((letter =? 101) || (letter =? 69) = true) as -> by (by destruct Hl as [-> | ->]). rewrite <- Es.
  assert (well_formed [] sg es [] (Some (Z.of_nat (length s)))) as Hwf by (repeat split; [constructor|done|done|by left]).
  assert (my_strtoll10 s (Some (Z.of_nat (length s))) = Some (signed_value sg es, Z.of_nat (length s), if is_minus sg then -1 else 0)) as ->.
  { destruct (strtoll10_numeral _ _ _ _ _ Hwf) as (sig & Hd & Hh & Hv & E). rewrite app_nil_r in E. fold s in E. rewrite E. unfold signed_value in *. rewrite rest_result_fits; rewrite ?Hv; [|done|done|].
    - do 3 f_equal. apply s64_small. lia.
    - destruct (is_minus sg); lia. }
  cbn [mbind option_bind]. assert (0 < Z.of_nat (length s)) by (rewrite Es; cbn [length]; lia). rewrite (proj2 (Z.eqb_neq (Z.of_nat (length s)) 0)) by lia.
  assert (0 <? (if is_minus sg then -1 else 0) = false) as -> by (by destruct (is_minus sg)).
  rewrite (proj2 (Z.ltb_ge (Z.quot INT_MAX 2) _)) by (change (Z.quot INT_MAX 2) with 1073741823; lia).
  rewrite (proj2 (Z.ltb_ge _ (Z.quot INT_MIN 2))) by (change (Z.quot INT_MIN 2) with (-1073741824); lia).
  assert ((((if is_minus sg then -1 else 0) =? 0) && (signed_value sg es <? 0)) = false) as ->.
  { unfold signed_value. pose proof (value_bound es HD). destruct (is_minus sg); [done|]. cbn [Z.eqb andb]. apply Z.ltb_ge. lia. }
  cbn [orb andb negb Z.eqb E_DEC_OK E_DEC_OVERFLOW]. replace (pos + Z.of_nat (length (letter :: s))) with (pos + 1 + Z.of_nat (length s)) by (cbn [length]; lia). done.
Qed.

(** C21: [internal_str2dec] reads a number: blanks, a sign, digits and perhaps a
    point and digits (at least one digit in all), as long as the words have
    room; a minus sign stands only before a number that is not zero ("-0" gives
    a negative zero, [str2dec_negative_zero]).  Behind it comes the end of the
    text, or a byte that is no digit and starts no exponent or fraction.  Then
    there is no error, the result is a well-formed number with all the digits,
    and the end is behind the last one.
    With an exponent (either letter, a sign, digits) whose value e is
    -2^30 <= e < 2^30, a number that is not zero is shifted by e, exactly, when
    the shifted digits fit the words ([shift_fits]), and the end is behind the
    exponent. *)
Theorem str2dec_exact blanks sg ds fs to : mantissa_ok blanks ds fs -> (is_minus sg = true -> value 10 (ds ++ default [] fs) <> 0) ->
  ROUND_UP (Z.of_nat (length ds)) + ROUND_UP (Z.of_nat (length (default [] fs))) <= len to ->
  let m := mantissa blanks sg ds fs in
  exists d, number d /\ sign d = is_minus sg /\ intg d = Z.of_nat (length ds) /\ frac d = Z.of_nat (length (default [] fs)) /\
    rval (words d) = value 10 (ds ++ default [] fs) * 10 ^ (9 * Z.of_nat (fw d) - frac d) /\
    (forall t, digit_free t -> match t with c :: _ => c <> 101 /\ c <> 69 /\ (fs = None -> c <> 46) | [] => True end ->
      string2decimal (m ++ t) to = Some (d, Z.of_nat (length m), E_DEC_OK)) /\
    (forall letter esg es, exponent_ok letter esg es -> value 10 (ds ++ default [] fs) <> 0 ->
      let e := signed_value esg es in shift_fits d e ->
      exists d', string2decimal (m ++ exponent letter esg es) to = Some (d', Z.of_nat (length (m ++ exponent letter esg es)), E_DEC_OK) /\
        number d' /\ sign d' = is_minus sg /\
        rval (words d') * 10 ^ (frac d + Z.max (- e) 0) = value 10 (ds ++ default [] fs) * 10 ^ (9 * Z.of_nat (fw d') + Z.max e 0)).
Proof.
  intros Hm H0 Hroom m. pose proof (mo_intg _ _ _ Hm) as HD. pose proof (mo_frac _ _ _ Hm) as HF. destruct (str2dec_mantissa blanks sg ds fs to Hm Hroom) as (d & Hd & _ & Hread). fold m in Hread.
  pose proof (reads_number _ _ _ _ Hd HD HF H0) as Hn. destruct Hd as [Hv Hs Hi Hf Hr]. exists d. rewrite Hf in *. do 5 (split; [done|]). split.
  - intros t Ht Hc. rewrite Hread.
    + destruct t as [|c [|c' t]]; [done..|]. destruct Hc as (H1 & H2 & _). unfold str_exponent. by rewrite (proj2 (Z.eqb_neq c 101)), (proj2 (Z.eqb_neq c 69)).
    + split; [done|]. intros E. destruct t as [|c t]; [done|]. destruct Hc as (_ & _ & Hc). cbn [head]. intros [= ->]. by apply Hc.
  - intros letter esg es He Hnz e Hfit. rewrite Hread by (by apply exponent_tail). rewrite str_exponent_shift by done. fold e.
    pose proof (fw_Z d Hv) as Ef. pose proof (round_up_spec (frac d) (v_frac d Hv)). rewrite Hf in *.
    destruct (decimal_shift_value d e Hn Hfit) as (d' & -> & Hn' & Hs' & Hr'); [rewrite Hr; pose proof (Z.pow_pos_nonneg 10 (9 * Z.of_nat (fw d) - Z.of_nat (length (default [] fs)))); nia|].
    cbn [mbind option_bind]. exists d'. split; [do 3 f_equal; rewrite length_app; lia|]. split; [done|]. split; [by rewrite Hs'|].
    rewrite Hr in Hr'. set (f := Z.of_nat (length (default [] fs))) in *. set (p := 9 * Z.of_nat (fw d) - f) in *.
    replace (9 * Z.of_nat (fw d) + Z.max (- e) 0) with (p + (f + Z.max (- e) 0)) in Hr' by lia. rewrite Z.pow_add_r in Hr' by lia.
    assert (0 < 10 ^ p) by (apply Z.pow_pos_nonneg; lia). apply (Z.mul_reg_r _ _ (10 ^ p)); [lia|]. clear -Hr'. lia.
Qed.

(** ** Printing a number *)

Lemma word_digits_spec n : forall x, 0 <= x < B -> (n <= 9)%nat ->
  exists ds, word_digits n x = chars ds /\ length ds = n /\ Forall is_digit ds /\ value 10 ds = x / 10 ^ (9 - Z.of_nat n).
Proof.
  induction n as [|n IH]; intros x Hx Hn.
  - exists []. split; [done|]. split; [done|]. split; [constructor|]. change (9 - Z.of_nat 0) with 9. symmetry. apply Z.div_small. done.
  - cbn [word_digits]. assert (Z.quot x DIG_MASK = x / 100000000) as -> by (apply Z.quot_div_nonneg; unfold DIG_MASK; lia). set (y := x / 100000000).
    assert (0 <= y <= 9 /\ 0 <= x - y * 100000000 < 100000000) as [Hy Hr] by (unfold y, DIG_BASE in *; dlia). unfold DIG_MASK. rewrite s32_word by (unfold DIG_BASE; lia).
    destruct (IH ((x - y * 100000000) * 10)) as (ds & -> & Hl & HD & Hv); [unfold DIG_BASE; lia|lia|]. exists (y :: ds). rewrite u8_small by lia.
    split; [done|]. split; [cbn [length]; lia|]. split; [constructor; [unfold is_digit; lia|done]|]. change (y :: ds) with ([y] ++ ds). rewrite value_split, Hv, Hl. change (value 10 [y]) with y.
    assert (0 < 10 ^ (9 - Z.of_nat (S n))) as Hp by (apply Z.pow_pos_nonneg; lia).
    replace (10 ^ (9 - Z.of_nat n)) with (10 ^ (9 - Z.of_nat (S n)) * 10) by (rewrite Z.mul_comm, <- pow10_S by lia; f_equal; lia). rewrite Z.div_mul_cancel_r by lia.
    assert (100000000 = 10 ^ Z.of_nat n * 10 ^ (9 - Z.of_nat (S n))) as E8 by (rewrite <- Z.pow_add_r by lia; replace (Z.of_nat n + (9 - Z.of_nat (S n))) with 8 by lia; done).
    replace x with ((x - y * 100000000) + y * 10 ^ Z.of_nat n * 10 ^ (9 - Z.of_nat (S n))) at 2 by (rewrite <- Z.mul_assoc, <- E8; lia). rewrite Z.div_add by lia. lia.
Qed.

Lemma frac_digits_spec W : forall tl frac, Forall (fun w => digit w) W -> Z.of_nat (length W) = ROUND_UP frac -> 0 <= frac ->
  exists ds, frac_digits (W ++ tl) frac = Some (chars ds) /\ Z.of_nat (length ds) = frac /\ Forall is_digit ds /\ value 10 ds = fval W / 10 ^ (9 * Z.of_nat (length W) - frac).
Proof.
  induction W as [|x W IH]; intros tl frac HD Hl Hf; pose proof (round_up_spec frac Hf) as Hr; cbn [length] in *.
  - assert (frac = 0) as -> by lia. exists []. cbn [app]. split; [by destruct tl|]. split; [done|]. split; [constructor|done].
  - apply Forall_cons in HD as [Hx HD]. cbn [app frac_digits]. rewrite (proj2 (Z.ltb_lt 0 frac)) by lia. unfold DIG_PER_DEC1.
    destruct (word_digits_spec (Z.to_nat (Z.min frac 9)) x Hx ltac:(lia)) as (ds & -> & Ld & Dd & Vd). destruct (Z.le_gt_cases frac 9) as [H9|H9].
    + assert (W = []) as -> by (destruct W; [done|cbn [length] in *; lia]). exists ds. cbn [app]. destruct tl as [|z tl]; cbn [frac_digits]; rewrite (proj2 (Z.ltb_ge 0 (frac - 9))) by lia; cbn [mbind option_bind];
        (split; [by rewrite app_nil_r|]; split; [lia|]; split; [done|]; rewrite Vd; change (fval [x]) with (x + B * 0); rewrite Z.mul_0_r, Z.add_0_r; do 2 f_equal; cbn [length]; lia).
    + destruct (IH tl (frac - 9) HD) as (ds2 & -> & L2 & D2 & V2); [pose proof (round_up_spec (frac - 9)); lia|lia|]. cbn [mbind option_bind]. exists (ds ++ ds2).
      split; [by rewrite fmap_app|]. split; [rewrite length_app; lia|]. split; [by apply Forall_app|]. rewrite value_split, Vd, V2, fval_cons. rewrite Z.min_r, Z2Nat.id by lia. change (10 ^ (9 - 9)) with 1. rewrite Z.div_1_r.
      pose proof (round_up_spec (frac - 9) ltac:(lia)). replace (9 * Z.of_nat (S (length W)) - frac) with (9 * Z.of_nat (length W) - (frac - 9)) by lia. set (e := 9 * Z.of_nat (length W) - (frac - 9)).
      assert (0 < 10 ^ e) by (apply Z.pow_pos_nonneg; lia). replace (B ^ Z.of_nat (length W)) with (10 ^ Z.of_nat (length ds2) * 10 ^ e) by (rewrite <- pow10_nat, <- Z.pow_add_r by lia; f_equal; lia).
      rewrite Z.mul_assoc, Z.div_add_l by lia. done.
Qed.

Lemma last_word_digits_spec n : forall x s, 0 <= x < B -> exists ds, last_word_digits n x s = chars ds ++ s /\ length ds = n /\ Forall is_digit ds /\ value 10 ds = x mod 10 ^ Z.of_nat n.
Proof.
  induction n as [|n IH]; intros x s Hx; cbn [last_word_digits].
  - exists []. split; [done|]. split; [done|]. split; [constructor|]. change (10 ^ Z.of_nat 0) with 1. by rewrite Z.mod_1_r.
  - rewrite Z.quot_div_nonneg by lia. assert (0 <= x - x / 10 * 10 <= 9 /\ 0 <= x / 10 < B) as [Hd Hq] by (unfold DIG_BASE in *; dlia).
    destruct (IH (x / 10) ((48 + u8 (x - x / 10 * 10)) :: s) Hq) as (ds & -> & Hl & HD & Hv). exists (ds ++ [x - x / 10 * 10]). rewrite u8_small by lia.
    split; [by rewrite fmap_app, <- app_assoc|]. split; [rewrite length_app; cbn [length]; lia|]. split; [apply Forall_app; split; [done|]; constructor; [unfold is_digit; lia|constructor]|].
    rewrite value_app, Hv. assert (0 < 10 ^ Z.of_nat n) by (apply Z.pow_pos_nonneg; lia). replace (10 ^ Z.of_nat (S n)) with (10 * 10 ^ Z.of_nat n) by (rewrite Nat2Z.inj_succ, Z.pow_succ_r; lia).
    rewrite Z.rem_mul_r by lia. rewrite (Z.mod_eq x 10) by lia. lia.
Qed.

(** The words, the last one first. *)
Lemma intg_digits_spec L : forall tl n s, Forall (fun w => digit w) L -> Z.of_nat (length L) = ROUND_UP n -> 0 <= n ->
  exists ds, intg_digits (L ++ tl) n s = Some (chars ds ++ s) /\ Z.of_nat (length ds) = n /\ Forall is_digit ds /\ value 10 ds = rval L mod 10 ^ n.
Proof.
  induction L as [|x L IH]; intros tl n s HD Hl Hn; pose proof (round_up_spec n Hn) as Hr; cbn [length] in *.
  - assert (n = 0) as -> by lia. exists []. cbn [app]. split; [by destruct tl|]. split; [done|]. split; [constructor|done].
  - apply Forall_cons in HD as [Hx HD]. cbn [app intg_digits]. rewrite (proj2 (Z.ltb_lt 0 n)) by lia. unfold DIG_PER_DEC1.
    destruct (last_word_digits_spec (Z.to_nat (Z.min n 9)) x s Hx) as (ds & -> & Ld & Dd & Vd). destruct (Z.le_gt_cases n 9) as [H9|H9].
    + assert (L = []) as -> by (destruct L; [done|cbn [length] in *; lia]). exists ds. cbn [app]. rewrite Z.min_l, Z2Nat.id in Vd by lia.
      destruct tl as [|z tl]; cbn [intg_digits]; rewrite (proj2 (Z.ltb_ge 0 (n - 9))) by lia; (split; [done|]; split; [lia|]; split; [done|]; rewrite Vd; cbn [rval]; f_equal; lia).
    + rewrite Z.min_r in Vd by lia. change (Z.of_nat (Z.to_nat 9)) with 9 in Vd. change (10 ^ 9) with B in Vd. rewrite Z.mod_small in Vd by done.
      destruct (IH tl (n - 9) (chars ds ++ s) HD) as (ds2 & -> & L2 & D2 & V2); [pose proof (round_up_spec (n - 9)); lia|lia|]. exists (ds2 ++ ds).
      split; [by rewrite fmap_app, <- app_assoc|]. split; [rewrite length_app; lia|]. split; [by apply Forall_app|]. rewrite value_split, Vd, V2, Ld. rewrite Z.min_r by lia. change (10 ^ Z.of_nat (Z.to_nat 9)) with B.
      cbn [rval]. assert (0 < 10 ^ (n - 9)) by (apply Z.pow_pos_nonneg; lia). replace (10 ^ n) with (B * 10 ^ (n - 9)) by (change B with (10 ^ 9); rewrite <- Z.pow_add_r by lia; f_equal; lia).
      rewrite Z.rem_mul_r by lia. rewrite (Z.mul_comm B (rval L)), Z.mod_add, Z.div_add, (Z.div_small x B), (Z.mod_small x B), Z.add_0_l by (done || lia). lia.
Qed.

(** The words and the number of digits in front of the point, without zeros in
    front; one word for zero. *)
Lemma printed_words d : number d -> exists buf0 n, remove_leading_zeroes d = Some (buf0, n) /\
  exists W tl m, (if n + frac d =? 0 then ([0], 1) else (buf0, n)) = (W ++ tl, m) /\
    Forall (fun w => digit w) W /\ Z.of_nat (length W) = ROUND_UP m /\ 0 <= m <= Z.max 1 (intg d) /\ rval (reverse W) < 10 ^ m /\ (1 < m -> 10 ^ (m - 1) <= rval (reverse W)) /\
    exists l2 rest, (frac d <> 0 -> tl = l2 ++ rest) /\ length l2 = fw d /\ Forall (fun w => digit w) l2 /\
      rval (words d) = fval l2 + B ^ Z.of_nat (fw d) * rval (reverse W).
Proof.
  intros Hn. pose proof (n_valid d Hn) as Hv. destruct (number_parts d Hn) as (l1 & l2 & rest & Eb & L1 & L2 & D1 & D2 & V1 & Er & _).
  destruct (remove_leading_zeroes_spec d l1 (l2 ++ rest) Hv (n_whole d Hn) Eb L1 D1 V1) as (W & n & Erl & DW & VW & HW). exists (W ++ l2 ++ rest), n. split; [exact Erl|]. clear Erl.
  pose proof (v_intg d Hv). pose proof (v_frac d Hv) as Hf. rewrite <- VW in Er. assert (0 <= n) as Hn0 by (destruct HW as [[_ ->]|(w & W' & k & _ & -> & _)]; lia).
  destruct (Z.eqb_spec (n + frac d) 0) as [E0|E0].
  - assert (n = 0 /\ frac d = 0) as [-> Ef] by lia. assert (W = []) as -> by (destruct HW as [[-> _]|(w & W' & k & _ & Hk & _)]; [done|lia]).
    exists [0], [], 1. split; [done|]. split; [repeat constructor; done|]. split; [done|]. split; [lia|]. split; [done|]. split; [lia|].
    exists l2, rest. split; [done|]. split; [done|]. split; [done|]. exact Er.
  - exists W, (l2 ++ rest), n. split; [done|]. split; [done|]. pose proof (whole_part_bound d Hv (n_whole d Hn)) as Hwb. rewrite <- VW in Hwb. destruct HW as [[-> ->]|(w & W' & k & -> & -> & Hk & Hw)].
    + split; [done|]. split; [lia|]. split; [done|]. split; [lia|]. exists l2, rest. by repeat split.
    + apply Forall_cons in DW as [_ DW']. pose proof (fval_bound W' DW') as HbW.
      assert (10 ^ (9 * Z.of_nat (length W') + Z.of_nat k) <= fval (w :: W') < 10 ^ (9 * Z.of_nat (length W') + Z.of_nat k + 1)) as Hbv.
      { rewrite fval_cons. replace (9 * Z.of_nat (length W') + Z.of_nat k + 1) with (9 * Z.of_nat (length W') + (Z.of_nat k + 1)) by lia. rewrite !Z.pow_add_r in * by lia. rewrite pow10_nat. nia. }
      split; [cbn [length]; pose proof (round_up_spec (9 * Z.of_nat (length W') + Z.of_nat k + 1)); lia|]. split.
      { split; [lia|]. assert (9 * Z.of_nat (length W') + Z.of_nat k < intg d); [|lia]. apply (Z.pow_lt_mono_r_iff 10); lia. }
      split; [apply Hbv|]. split; [intros _; rewrite Z.add_simpl_r; apply Hbv|]. exists l2, rest. by repeat split.
Qed.

Lemma store_nil b k : 0 <= k <= Z.of_nat (length b) -> store b k [] = Some b.
Proof.
  intros Hk. rewrite <- (Z2Nat.id k), store_spec by (cbn [length]; lia). cbn [length app]. by rewrite Nat.sub_0_r, take_drop.
Qed.

Lemma store_inv b k out r : store b k out = Some r -> Z.of_nat (length out) <= k <= Z.of_nat (length b).
Proof. unfold store. destruct ((_ <=? k) && _) eqn:E; [|done]. intros _. apply andb_prop in E as [E1 E2]. lia. Qed.

Lemma split_at (b : list Z) n : (n <= length b)%nat -> exists l r, b = l ++ r /\ length l = n.
Proof. intros Hn. exists (take n b), (drop n b). rewrite take_drop, length_take. split; [done|lia]. Qed.

(** The parts of the string are written from the end on, the sign first. *)
Lemma store_string to (S F I : list Z) : (length S + length I + length F + 1 <= length to)%nat -> (length S <= 1)%nat ->
  exists rest, (b ← store to (Z.of_nat (length S + length I + length F) + 1) [0];
    b ← (if negb (length S =? 0)%nat then store b 1 S else Some b);
    b ← (if negb (length F =? 0)%nat then store b (Z.of_nat (length S + length I + length F)) F else Some b);
    store b (Z.of_nat (length S + length I)) I) = Some (S ++ I ++ F ++ 0 :: rest).
Proof.
  intros Hl HS. destruct (split_at to (length S)) as (tS & r1 & -> & LS); [lia|]. rewrite length_app in Hl. destruct (split_at r1 (length I)) as (tI & r2 & -> & LI); [lia|].
  rewrite length_app in Hl. destruct (split_at r2 (length F)) as (tF & r3 & -> & LF); [lia|]. rewrite length_app in Hl. destruct r3 as [|z rest]; [cbn in Hl; lia|]. exists rest.
  pose proof (store_mid (tS ++ tI ++ tF) [z] [0] rest eq_refl) as E1. rewrite !length_app, LS, LI, LF in E1. cbn [length] in E1. rewrite <- !app_assoc in E1.
  replace (Z.of_nat (length S + length I + length F) + 1) with (Z.of_nat (length S + (length I + length F) + 1)) by lia. cbn [app] in E1. rewrite E1. cbn [mbind option_bind]. clear E1.
  assert ((if negb (length S =? 0)%nat then store (tS ++ tI ++ tF ++ 0 :: rest) 1 S else Some (tS ++ tI ++ tF ++ 0 :: rest)) = Some (S ++ tI ++ tF ++ 0 :: rest)) as ->.
  { destruct (Nat.eqb_spec (length S) 0) as [E|E]; cbn [negb]; [by rewrite (nil_length_inv S E), (nil_length_inv tS) by lia|].
    pose proof (store_mid [] tS S (tI ++ tF ++ 0 :: rest) ltac:(lia)) as E2. cbn [app length Nat.add] in E2. by replace 1 with (Z.of_nat (length tS)) by lia. }
  cbn [mbind option_bind]. assert ((if negb (length F =? 0)%nat then store (S ++ tI ++ tF ++ 0 :: rest) (Z.of_nat (length S + length I + length F)) F else Some (S ++ tI ++ tF ++ 0 :: rest)) = Some (S ++ tI ++ F ++ 0 :: rest)) as ->.
  { destruct (Nat.eqb_spec (length F) 0) as [E|E]; cbn [negb]; [by rewrite (nil_length_inv F E), (nil_length_inv tF) by lia|].
    pose proof (store_mid (S ++ tI) tF F (0 :: rest) ltac:(lia)) as E2. rewrite length_app, LI, LF, <- !app_assoc in E2. exact E2. }
  cbn [mbind option_bind]. pose proof (store_mid S tI I (F ++ 0 :: rest) ltac:(lia)) as E2. by rewrite LI in E2.
Qed.

(** The digits of a number, as it is printed. *)
Record printed (d : decimal_t) (ds : list Z) (fs : option (list Z)) : Prop := {
  pr_intg : Forall is_digit ds;
  pr_frac : Forall is_digit (default [] fs);
  pr_count : (1 <= length ds)%nat /\ Z.of_nat (length ds) <= Z.max 1 (intg d);
  pr_lead : (1 < length ds)%nat -> head ds <> Some 0;
  pr_scale : Z.of_nat (length (default [] fs)) = frac d;
  pr_point : fs = None <-> frac d = 0;
  pr_value : rval (words d) = value 10 (ds ++ default [] fs) * 10 ^ (9 * Z.of_nat (fw d) - frac d)
}.

Definition sign_of (b : bool) : StrToLL.sign := if b then MinusSign else NoSign.

Lemma no_lead_zero ds : Forall is_digit ds -> 10 ^ (Z.of_nat (length ds) - 1) <= value 10 ds -> (1 <= length ds)%nat -> head ds <> Some 0.
Proof.
  intros HD Hv Hl. destruct ds as [|d ds]; [cbn in Hl; lia|]. cbn [head]. intros [= ->]. apply Forall_cons in HD as [_ HD].
  change (0 :: ds) with ([0] ++ ds) in Hv. rewrite value_split in Hv. change (value 10 [0]) with 0 in Hv. pose proof (value_bound ds HD). rewrite length_app in Hv. cbn [length] in Hv.
  replace (Z.of_nat (1 + length ds) - 1) with (Z.of_nat (length ds)) in Hv by lia. lia.
Qed.

(** The digits in front of the point: a zero if there are none. *)
Lemma printed_intg W tl m : Forall (fun w => digit w) W -> Z.of_nat (length W) = ROUND_UP m -> 0 <= m -> fval W < 10 ^ m -> (1 < m -> 10 ^ (m - 1) <= fval W) ->
  exists ds, (if negb (m =? 0) then l ← back (W ++ tl) 0 (ROUND_UP m); s ← intg_digits l m []; Some s else Some [48]) = Some (chars ds) /\
    Z.of_nat (length ds) = (if m =? 0 then 1 else m) /\ Forall is_digit ds /\ value 10 ds = fval W /\ ((1 < length ds)%nat -> head ds <> Some 0).
Proof.
  intros HD HL Hm Hlt Hge. destruct (Z.eqb_spec m 0) as [-> |Hm0]; cbn [negb].
  - exists [0]. split; [done|]. split; [done|]. split; [repeat constructor; done|]. destruct W; [split; [done|cbn; lia]|]. change (ROUND_UP 0) with 0 in HL. cbn [length] in HL. lia.
  - rewrite <- HL, back_prefix. cbn [mbind option_bind]. destruct (intg_digits_spec (reverse W) [] m [] ltac:(by apply Forall_reverse) ltac:(by rewrite length_reverse) Hm) as (ds & E & Ld & Dd & Vd).
    rewrite !app_nil_r in E. rewrite E. cbn [mbind option_bind]. assert (0 <= fval W) by (pose proof (fval_bound W HD); lia). rewrite Z.mod_small in Vd by lia.
    exists ds. split; [done|]. split; [done|]. split; [done|]. split; [done|]. intros Hl. apply no_lead_zero; [done| |lia]. rewrite Vd, Ld. apply Hge. lia.
Qed.

Lemma precise_div d : number d -> rval (words d) = rval (words d) / 10 ^ (9 * Z.of_nat (fw d) - frac d) * 10 ^ (9 * Z.of_nat (fw d) - frac d).
Proof.
  intros Hn. destruct (n_frac d Hn) as [z Hz]. pose proof (n_valid d Hn) as Hv. pose proof (fw_Z d Hv). pose proof (round_up_spec (frac d) (v_frac d Hv)).
  rewrite Hz at 2. rewrite Z.div_mul; [done|]. assert (0 < 10 ^ (9 * Z.of_nat (fw d) - frac d)) by (apply Z.pow_pos_nonneg; lia). lia.
Qed.

Lemma decimal2string_spec d to filler : number d -> decimal_string_size d <= Z.of_nat (length to) ->
  exists ds fs rest, printed d ds fs /\ let m := mantissa [] (sign_of (sign d)) ds fs in
    decimal2string d to 0 0 filler = Some (m ++ 0 :: rest, Z.of_nat (length m), E_DEC_OK).
Proof.
  intros Hn Hsize. pose proof (n_valid d Hn) as Hv. pose proof (v_intg d Hv) as Hi. pose proof (v_frac d Hv) as Hf. pose proof (fw_Z d Hv) as Efw. pose proof (round_up_spec (frac d) Hf) as Hru.
  destruct (printed_words d Hn) as (buf0 & n & Erl & W & tl & m & EW & DW & LW & Hm & Hlt & Hge & l2 & rest2 & Etl & L2 & D2 & Er).
  destruct (printed_intg W tl m DW LW ltac:(lia) Hlt Hge) as (ds & Eds & Lds & Dds & Vds & Hlead).
  destruct (frac_digits_spec l2 rest2 (frac d) D2 ltac:(lia) Hf) as (F & EF & LF & DF & VF).
  set (fs := if frac d =? 0 then None else Some F). assert (default [] fs = F) as EfsF by (unfold fs; destruct (Z.eqb_spec (frac d) 0); [destruct F; [done|cbn [length] in *; lia]|done]).
  set (Fs := match fs with Some fs => 46 :: chars fs | None => [] end). set (Sg := sign_chars (sign_of (sign d))).
  assert (Z.of_nat (length Sg) = b2z (sign d)) as LS by (unfold Sg; by destruct (sign d)).
  assert (Z.of_nat (length Fs) = b2z (negb (frac d =? 0)) + frac d) as LFs by (unfold Fs, fs; destruct (Z.eqb_spec (frac d) 0); cbn [length negb b2z]; rewrite ?length_fmap; lia).
  assert (Z.of_nat (length (chars ds)) = if m =? 0 then 1 else m) as Lc by (by rewrite length_fmap).
  assert (b2z (0 <? frac d) = b2z (negb (frac d =? 0))) as Eb by (f_equal; destruct (Z.ltb_spec 0 (frac d)), (Z.eqb_spec (frac d) 0); done || lia).
  assert (Z.of_nat (length Sg + length (chars ds) + length Fs + 1) <= Z.of_nat (length to)) as Hroom.
  { unfold decimal_string_size in Hsize. rewrite Eb in Hsize. destruct (Z.eqb_spec m 0), (Z.eqb_spec (intg d) 0); destruct (sign d); cbn [b2z] in *; lia. }
  destruct (store_string to Sg Fs (chars ds)) as (rest & Est); [lia|destruct (sign d); cbn [b2z] in *; lia|].
  exists ds, fs, rest. split.
  { split; [done|by rewrite EfsF|split; destruct (Z.eqb_spec m 0); lia|done|by rewrite EfsF| |].
    - unfold fs. destruct (Z.eqb_spec (frac d) 0); done.
    - rewrite EfsF, value_split, Vds, VF, L2, LF. set (p := 10 ^ (9 * Z.of_nat (fw d) - frac d)). assert (0 < p) by (apply Z.pow_pos_nonneg; lia).
      rewrite (precise_div d Hn) at 1. fold p. f_equal. rewrite Er. replace (B ^ Z.of_nat (fw d)) with (10 ^ frac d * p) by (unfold p; rewrite <- pow10_nat, <- Z.pow_add_r by lia; f_equal; lia).
      replace (fval l2 + 10 ^ frac d * p * fval W) with (fval W * 10 ^ frac d * p + fval l2) by ring. rewrite Z.div_add_l by lia. done. }
  intros M. assert (M ++ 0 :: rest = Sg ++ chars ds ++ Fs ++ 0 :: rest) as EM by (unfold M, mantissa; fold Sg Fs; by rewrite <- !app_assoc).
  assert (Z.of_nat (length M) = Z.of_nat (length Sg + length (chars ds) + length Fs)) as LM by (unfold M, mantissa; fold Sg Fs; rewrite app_nil_l, !length_app; lia).
  rewrite EM, LM. unfold decimal2string. change (negb (0 =? 0)) with false. cbn iota.
  rewrite bind_assert by (apply Z.leb_le; destruct (Z.eqb_spec m 0); lia). rewrite Erl. cbn [mbind option_bind]. rewrite EW.
  unfold string_limits. change (negb (0 =? 0)) with false. cbn iota.
  set (il := if m =? 0 then 1 else m) in *. rewrite (proj2 (Z.ltb_ge (Z.of_nat (length to) - 1) _)) by lia.
  replace (b2z (sign d) + il + b2z (negb (frac d =? 0)) + frac d) with (Z.of_nat (length Sg + length (chars ds) + length Fs)) by lia.
  destruct (store to _ [0]) as [b1|]; [|done]. cbn [mbind option_bind] in Est |- *.
  assert ((if sign d then store b1 1 [45] else Some b1) = (if negb (length Sg =? 0)%nat then store b1 1 Sg else Some b1)) as -> by (unfold Sg; by destruct (sign d)).
  destruct (if negb (length Sg =? 0)%nat then _ else _) as [b2|]; [|done]. cbn [mbind option_bind] in Est |- *. rewrite Z.sub_diag.
  match goal with |- context [mbind _ (if negb (frac d =? 0) then ?X else Some b2)] =>
    assert ((if negb (frac d =? 0) then X else Some b2) = (if negb (length Fs =? 0)%nat then store b2 (Z.of_nat (length Sg + length (chars ds) + length Fs)) Fs else Some b2)) as -> end.
  { unfold Fs, fs in *. destruct (Z.eqb_spec (frac d) 0) as [E0|E0]; cbn [negb]; [done|]. cbn [length Nat.eqb negb]. cbn [mbind option_bind assert_that Z.leb Z.compare].
    rewrite (Etl E0), drop_app_ge by lia. replace (Z.to_nat (ROUND_UP m) - length W)%nat with O by lia. rewrite drop_0, EF. cbn [mbind option_bind]. change (Z.to_nat 0) with O. cbn [replicate]. rewrite app_nil_r, Z.add_0_r.
    f_equal. cbn [length b2z negb] in *. rewrite ?length_fmap in *. rewrite ?length_fmap. lia. }
  destruct (if negb (length Fs =? 0)%nat then _ else _) as [b3|]; [|done]. cbn [mbind option_bind] in Est |- *.
  assert (il - m - b2z (m =? 0) = 0) as -> by (unfold il; destruct (Z.eqb_spec m 0); cbn [b2z]; lia). cbn [mbind option_bind assert_that Z.leb Z.compare]. change (Z.to_nat 0) with O. cbn [replicate].
  pose proof (store_inv _ _ _ _ Est) as Hb3. rewrite store_nil by lia. cbn [mbind option_bind]. rewrite !Z.add_0_r.
  replace (Z.of_nat (length Sg + length (chars ds))) with (b2z (sign d) + il) in Est by lia. unfold il in Est. destruct (Z.eqb_spec m 0) as [E0|E0]; cbn [negb] in *.
  - injection Eds as Eds. rewrite Eds, Est. done.
  - destruct (back (W ++ tl) 0 (ROUND_UP m)) as [l|]; [|done]. cbn [mbind option_bind] in Eds |- *. destruct (intg_digits l m []) as [s|]; [|done]. cbn [mbind option_bind] in Eds |- *.
    injection Eds as Eds. rewrite Eds, Est. done.
Qed.

(** C20: printing and reading a number gives it back.  [decimal2string] without a
    fixed precision, into a buffer of [decimal_string_size] bytes, writes nothing
    outside of it and prints the sign, the digits in front of the point without
    zeros in front (at least one digit) and all digits behind it; reading the
    string, up to its zero byte, gives a number with the same sign, scale and
    value. *)
Theorem decimal_string_roundtrip d to filler to2 : number d -> decimal_string_size d <= Z.of_nat (length to) ->
  ROUND_UP (Z.max 1 (intg d)) + ROUND_UP (frac d) <= len to2 ->
  exists ds fs rest d', printed d ds fs /\ let m := mantissa [] (sign_of (sign d)) ds fs in
    decimal2string d to 0 0 filler = Some (m ++ 0 :: rest, Z.of_nat (length m), E_DEC_OK) /\
    string2decimal m to2 = Some (d', Z.of_nat (length m), E_DEC_OK) /\
    number d' /\ sign d' = sign d /\ frac d' = frac d /\ fw d' = fw d /\ rval (words d') = rval (words d).
Proof.
  intros Hn Hsize Hroom. destruct (decimal2string_spec d to filler Hn Hsize) as (ds & fs & rest & Hp & Hprint). cbn zeta in Hprint. pose proof Hp as [HD HF [Hc1 Hc2] _ Hsc _ Hval].
  pose proof (v_frac d (n_valid d Hn)) as Hf. pose proof (fw_Z d (n_valid d Hn)) as Efw. pose proof (round_up_spec (frac d) Hf).
  assert (mantissa_ok [] ds fs) as Hm by (split; [constructor|done|done|lia]).
  destruct (str2dec_mantissa [] (sign_of (sign d)) ds fs to2 Hm) as (d' & Hd' & _ & Hread).
  { rewrite Hsc. pose proof (round_up_spec (Z.of_nat (length ds)) ltac:(lia)). pose proof (round_up_spec (Z.max 1 (intg d)) ltac:(lia)). lia. }
  assert (is_minus (sign_of (sign d)) = sign d) as Es by (by destruct (sign d)).
  assert (is_minus (sign_of (sign d)) = true -> value 10 (ds ++ default [] fs) <> 0) as H0.
  { rewrite Es. intros Hs E. rewrite E in Hval. by rewrite (n_zero d Hn Hval) in Hs. }
  pose proof (reads_number _ _ _ _ Hd' HD HF H0) as Hn'. destruct Hd' as [Hv' Hs' Hi' Hf' Hr']. rewrite Hsc in *.
  assert (fw d' = fw d) as Ef by (unfold fw; by rewrite Hf'). exists ds, fs, rest, d'. split; [done|]. split; [exact Hprint|].
  rewrite <- (app_nil_r (mantissa _ _ _ _)) at 1. rewrite Hread by (by split). split; [done|]. split; [done|]. split; [by rewrite Hs'|]. split; [done|]. split; [done|].
  by rewrite Hr', Hval, Ef.
Qed.

(** ** The digits behind the point that count *)

Lemma trail_digits_max fuel w : digit w -> forall i stop r, 1 <= i <= 9 -> trail_digits fuel i w stop = Some r -> ~ (10 ^ (i + (stop - r)) | w) \/ w = 0.
Proof.
  intros Hw. induction fuel as [|fuel IH]; intros i stop r Hi E; [done|]. cbn [trail_digits] in E. destruct (quot_rem_power10 w i Hw ltac:(lia)) as [_ Er]. rewrite Er in E.
  assert (0 < 10 ^ i) by (apply Z.pow_pos_nonneg; lia). destruct (Z.eqb_spec (w mod 10 ^ i) 0) as [E0|Hne].
  - destruct (decide (i = 9)) as [-> |]; [right; change (10 ^ 9) with B in E0; rewrite Z.mod_small in E0 by done; done|].
    destruct (IH (i + 1) (stop - 1) r ltac:(lia) E) as [Hn| ->]; [left|by right]. by replace (i + (stop - r)) with (i + 1 + (stop - 1 - r)) by lia.
  - injection E as <-. left. rewrite Z.sub_diag, Z.add_0_r. intros Hd. apply Hne. by apply Z.mod_divide; [lia|].
Qed.

(** The zeros at the end are dropped; [z] counts the words. *)
Lemma drop_zero_words_spec l : forall frac i (F : nat), 1 <= i <= 9 -> frac = 9 * Z.of_nat F - 9 + i \/ F = O /\ frac = 0 -> (F <= length l)%nat -> 0 <= frac ->
  exists z l' f, drop_zero_words l frac i = Some (l', f) /\ l = replicate z 0 ++ l' /\ (z <= F)%nat /\ f = (if (z =? 0)%nat then frac else 9 * Z.of_nat (F - z)) /\
    (f <> 0 -> exists w l'', l' = w :: l'' /\ w <> 0).
Proof.
  induction l as [|w l IH]; intros frac i F Hi Hf HF H0; cbn [length] in HF.
  - assert (frac = 0) as -> by lia. exists O, [], 0. repeat split; [lia|done].
  - cbn [drop_zero_words]. destruct (Z.ltb_spec 0 frac) as [Hp|Hp].
    + destruct (Z.eqb_spec w 0) as [-> |Hw].
      * destruct (IH (frac - i) 9 (F - 1)%nat) as (z & l' & f & E & -> & Hz & Ef & Hw); [lia|lia|lia|lia|]. unfold DIG_PER_DEC1. rewrite E. exists (S z), l', f. split; [done|]. split; [done|]. split; [lia|]. split; [|done].
        cbn [Nat.eqb]. rewrite Ef. destruct (Nat.eqb_spec z 0) as [-> |]; f_equal; lia.
      * exists O, (w :: l), frac. split; [done|]. split; [done|]. split; [lia|]. split; [done|]. intros _. by exists w, l.
    + exists O, (w :: l), frac. split; [done|]. split; [done|]. split; [lia|]. split; [done|]. lia.
Qed.

(** The last digits of a number divide like those of its first word that is not zero. *)
Lemma precise_words z w l e : 0 <= e <= 9 -> (10 ^ (9 * Z.of_nat z + e) | rval (replicate z 0 ++ w :: l)) <-> (10 ^ e | w).
Proof.
  intros He. rewrite rval_app, rval_replicate, length_replicate, Z.add_0_l. cbn [rval]. rewrite Z.pow_add_r, pow10_nat, (Z.mul_divide_cancel_l _ _ (B ^ Z.of_nat z)) by (pose proof (Bpow_pos z); lia).
  destruct (B_split e He) as (EB & _). split.
  - intros H. apply (Z.divide_add_cancel_r _ (B * rval l)); [rewrite EB; exists (10 ^ (9 - e) * rval l); ring|]. by rewrite Z.add_comm.
  - intros H. apply Z.divide_add_r; [done|]. rewrite EB. exists (10 ^ (9 - e) * rval l). ring.
Qed.

(** [decimal_actual_fraction] is the least number of digits behind the point that
    the value needs. *)
Lemma decimal_actual_fraction_spec d : number d -> exists f, decimal_actual_fraction d = Some f /\ 0 <= f <= frac d /\
  precise f (fw d) (rval (words d)) /\ (0 < f -> ~ precise (f - 1) (fw d) (rval (words d))).
Proof.
  intros Hn. pose proof (n_valid d Hn) as Hv. pose proof (v_frac d Hv) as Hf. pose proof (fw_Z d Hv) as Efw. pose proof (round_up_spec (frac d) Hf) as Hr. pose proof (n_frac d Hn) as Hp.
  unfold decimal_actual_fraction. destruct (Z.eqb_spec (frac d) 0) as [E0|E0]; [exists 0; rewrite E0 in *; split; [done|]; split; [lia|]; split; [done|lia]|].
  rewrite (iw_Z d Hv), Efw, <- Nat2Z.inj_add, (back_words0 d (iw d + fw d) Hv) by lia. rewrite Nat.sub_diag, drop_0. cbn [mbind option_bind]. unfold DIG_PER_DEC1. set (i := Z.rem (frac d - 1) 9 + 1).
  pose proof (length_words d Hv) as Lw. pose proof (v_words d Hv) as DW.
  destruct (drop_zero_words_spec (words d) (frac d) i (fw d)) as (z & l' & f & -> & Ew & Hz & Ef & Hne); [unfold i; clear -Hr E0 Hf; dlia|left; unfold i; clear -Hr E0 Hf Efw; dlia|lia|lia|].
  cbn [mbind option_bind]. unfold precise in *. rewrite Ew in *. destruct (Z.ltb_spec 0 f) as [Hf0|Hf0].
  - destruct (Hne ltac:(lia)) as (w & l2 & -> & Hw0). cbn [head mbind option_bind]. apply Forall_app in DW as [_ DW]. apply Forall_cons in DW as [Hw _].
    set (i2 := 9 - Z.rem (f - 1) 9). assert (i2 = 9 * Z.of_nat (fw d - z) - f + 1 /\ 1 <= i2 <= 9) as [Ei2 Hi2].
    { unfold i2. destruct (Nat.eqb_spec z 0) as [-> |]; subst f; clear -Hr E0 Hf Efw Hf0 Hz; dlia. }
    assert (10 ^ (i2 - 1) | w) as Hd2.
    { destruct (Nat.eqb_spec z 0) as [-> |Hz0].
      - apply (precise_words 0 w l2); [lia|]. by replace (9 * Z.of_nat 0 + (i2 - 1)) with (9 * Z.of_nat (fw d) - frac d) by lia.
      - replace (i2 - 1) with 0 by lia. apply Z.divide_1_l. }
    destruct (trail_digits_spec 10 w Hw Hw0 i2 f Hi2 ltac:(lia) Hd2) as (e & Et & He & Hde). rewrite Et. apply trail_digits_max in Et as [Hmax|]; [|done..].
    assert (f - (e - (i2 - 1)) = 9 * Z.of_nat (fw d - z) - e) as Er by lia. rewrite Er in *. eexists. split; [done|].
    assert (z < fw d)%nat by (destruct (Nat.eqb_spec z 0); lia). split; [destruct (Nat.eqb_spec z 0); lia|]. split.
    + replace (9 * Z.of_nat (fw d) - (9 * Z.of_nat (fw d - z) - e)) with (9 * Z.of_nat z + e) by lia. apply precise_words; [lia|done].
    + intros _ Hd. apply Hmax. replace (i2 + (f - (9 * Z.of_nat (fw d - z) - e))) with (e + 1) by lia. apply (precise_words z w l2); [lia|].
      by replace (9 * Z.of_nat z + (e + 1)) with (9 * Z.of_nat (fw d) - (9 * Z.of_nat (fw d - z) - e - 1)) by lia.
  - exists f. assert (z = fw d /\ f = 0) as [-> ->] by (destruct (Nat.eqb_spec z 0); lia). split; [done|]. split; [lia|]. split; [|lia].
    rewrite Z.sub_0_r, rval_app, rval_replicate, length_replicate, pow10_nat, Z.add_0_l. apply Z.divide_factor_l.
Qed.

(** ** Witnesses *)

(** -1234567890.125, and the same with an exponent. *)
Lemma str2dec_exact_witness : mantissa_ok [32] [1; 2; 3; 4; 5; 6; 7; 8; 9; 0] (Some [1; 2; 5]) /\ exponent_ok 101 MinusSign [1; 2] /\
  exists d, number d /\ sign d = true /\ rval (words d) = 1234567890125 * 10 ^ (9 * Z.of_nat (fw d) - frac d) /\
    string2decimal (mantissa [32] MinusSign [1; 2; 3; 4; 5; 6; 7; 8; 9; 0] (Some [1; 2; 5]) ++ [44]) (mkDec 0 0 false (replicate 4 7)) = Some (d, 16, E_DEC_OK).
Proof.
  assert (mantissa_ok [32] [1; 2; 3; 4; 5; 6; 7; 8; 9; 0] (Some [1; 2; 5])) as Hm by (split; cbn; [repeat constructor|repeat constructor; lia|repeat constructor; lia|lia]).
  assert (exponent_ok 101 MinusSign [1; 2]) as He by (split; [by left|repeat constructor; lia|done|vm_compute; split; congruence]).
  split; [exact Hm|]. split; [exact He|].
  destruct (str2dec_exact [32] MinusSign _ _ (mkDec 0 0 false (replicate 4 7)) Hm) as (d & Hn & Hs & Hi & Hf & Hv & Hr & _); [vm_compute; congruence|vm_compute; congruence|].
  exists d. split; [exact Hn|]. split; [exact Hs|]. split; [exact Hv|]. apply Hr; [vm_compute; reflexivity|vm_compute; split; [congruence|split; congruence]].
Defined.

Lemma decimal_string_roundtrip_witness : number (mkDec 18 3 true [1; 234567890; 125000000]) /\
  exists ds fs rest d', printed (mkDec 18 3 true [1; 234567890; 125000000]) ds fs /\ let m := mantissa [] MinusSign ds fs in
    decimal2string (mkDec 18 3 true [1; 234567890; 125000000]) (replicate 24 35) 0 0 48 = Some (m ++ 0 :: rest, Z.of_nat (length m), E_DEC_OK) /\
    string2decimal m (mkDec 0 0 false (replicate 3 7)) = Some (d', Z.of_nat (length m), E_DEC_OK) /\
    number d' /\ sign d' = true /\ frac d' = 3 /\ fw d' = 1%nat /\ rval (words d') = 1234567890125000000.
Proof.
  assert (number (mkDec 18 3 true [1; 234567890; 125000000])) as N by (apply number_of; vm_compute; first [done | lia]).
  split; [exact N|]. apply (decimal_string_roundtrip _ (replicate 24 35) 48 (mkDec 0 0 false (replicate 3 7)) N); vm_compute; congruence.
Defined.

(** ** Where the code does something else *)

(** 123.456 is cut to what fits into six bytes, but the length is computed from the
    digits of the whole number: the zero byte is written behind the buffer. *)
Lemma decimal2string_cut_overruns : decimal2string (mkDec 3 3 false [123; 456000000]) (replicate 6 35) 0 0 48 = None.
Proof. vm_compute. reflexivity. Qed.

(** 1.000000000123 is cut, with the error [E_DEC_TRUNCATED]; with the exponent 'e0' the
    error is lost. *)
Lemma str2dec_exponent_hides_truncation :
  let s := [49; 46; 48; 48; 48; 48; 48; 48; 48; 48; 48; 49; 50; 51] in let to := mkDec 0 0 false [7; 7] in
  string2decimal s to = Some (mkDec 1 9 false [1; 0], 14, E_DEC_TRUNCATED) /\ string2decimal (s ++ [101; 48]) to = Some (mkDec 1 9 false [1; 0], 16, E_DEC_OK).
Proof. vm_compute. done. Qed.

(** "-0" is a negative zero, which [decimal_cmp] puts before zero. *)
Lemma str2dec_negative_zero : string2decimal [45; 48] (mkDec 0 0 false [7]) = Some (mkDec 1 0 true [0], 2, E_DEC_OK) /\
  decimal_cmp (mkDec 1 0 true [0]) (mkDec 1 0 false [0]) = Some (-1).
Proof. vm_compute. done. Qed.

(** With a fixed precision that is too small, the digits behind the point come from
    the wrong word: 1234567890.5 in five digits, one of them behind the point, is
    0001.2. *)
Lemma decimal2string_fixed_overflow : decimal2string (mkDec 10 1 false [1; 234567890; 500000000]) (replicate 7 35) 5 1 48 =
  Some ([48; 48; 48; 49; 46; 50; 0], 6, E_DEC_OVERFLOW).
Proof. vm_compute. reflexivity. Qed.
