(* ===== verification/MemRoot.v ===== *)
(** * Memory roots (mysys/my_alloc.c, include/my_alloc.h) and memory that is
      allocated once (mysys/my_once.c)

    A memory root cuts blocks from [my_malloc] into pieces that are freed
    together.  A pointer is an address, and the heap is the list of the blocks
    that [my_malloc] has given out; what [my_malloc] answers is an argument, an
    address or [None] without memory.  [my_free] of an address that was not given
    out is [None], and so is an access to a block that has been freed. *)

From stdpp Require Import base numbers list sets.
From Stdlib Require Import ZArith Lia.
From S2P Require Import Prelude DynArray.

Local Open Scope Z_scope.

(** ** The heap *)

(** Address and size. *)
Definition heap : Type := list (Z * Z).

(** The address, and the heap with it. *)
Definition my_malloc (size : Z) (answer : option Z) (h : heap) : option Z * heap :=
  let size := if size =? 0 then 1 else size in
  match answer with
  | Some a => (Some a, (a, size) :: h)
  | None => (None, h)
  end.

Fixpoint my_free (ptr : Z) (h : heap) : option heap :=
  match h with
  | [] => None
  | (a, n) :: h => if a =? ptr then Some h else h ← my_free ptr h; Some ((a, n) :: h)
  end.

(** ** Memory roots *)

Definition ALLOC_MAX_BLOCK_TO_DROP : Z := 4096.
Definition ALLOC_MAX_BLOCK_USAGE_BEFORE_DROP : Z := 10.
Definition MY_KEEP_PREALLOC : Z := 1.
Definition MY_MARK_BLOCKS_FREE : Z := 2.

(** [sizeof(USED_MEM)] *)
Definition sizeof_USED_MEM : Z := 16.

Definition ALIGN_SIZE (A : Z) : Z := Z.land (u64 (A + 7)) (2 ^ 64 - 8).

Definition ALLOC_ROOT_MIN_BLOCK_SIZE : Z := MALLOC_OVERHEAD + sizeof_USED_MEM + 8.

(** A block at [addr]; the first bytes are its header. *)
Record USED_MEM := mkBlock { addr : Z; left : Z; size : Z }.

Record MEM_ROOT := mkRoot {
  free : list USED_MEM;
  used : list USED_MEM;
  pre_alloc : option Z;
  min_malloc : Z;
  block_size : Z;
  block_num : Z;
  first_block_usage : Z }.

Definition alloc_root_inited (r : MEM_ROOT) : bool := negb (min_malloc r =? 0).

Definition with_lists (r : MEM_ROOT) (f u : list USED_MEM) (usage : Z) : MEM_ROOT :=
  mkRoot f u (pre_alloc r) (min_malloc r) (block_size r) (block_num r) usage.

Definition with_pre_alloc (r : MEM_ROOT) (p : option Z) : MEM_ROOT :=
  mkRoot (free r) (used r) p (min_malloc r) (block_size r) (block_num r) (first_block_usage r).

Definition with_left (b : USED_MEM) (l : Z) : USED_MEM := mkBlock (addr b) l (size b).

(** A pointer to a block. *)
Definition block_at (r : MEM_ROOT) (a : Z) : option USED_MEM := list_find (fun b => addr b = a) (used r ++ free r) ≫= fun '(_, b) => Some b.

Definition init_alloc_root (block_size pre_alloc_size : Z) (answer : option Z) (h : heap) : MEM_ROOT * heap :=
  let r := mkRoot [] [] None 32 (u32 (block_size - ALLOC_ROOT_MIN_BLOCK_SIZE)) 4 0 in
  if negb (pre_alloc_size =? 0) then
    let n := u32 (pre_alloc_size + ALIGN_SIZE sizeof_USED_MEM) in
    match my_malloc n answer h with
    | (Some a, h) => (with_pre_alloc (with_lists r [mkBlock a pre_alloc_size n] [] 0) (Some a), h)
    | (None, h) => (r, h)
    end
  else (r, h).

(** [for (next = *prev; next && next->left < Size; next = next->next)] *)
Fixpoint find_block (Size : Z) (l : list USED_MEM) : option (list USED_MEM * USED_MEM * list USED_MEM) :=
  match l with
  | [] => None
  | b :: l => if left b <? Size then '(pre, b', post) ← find_block Size l; Some (b :: pre, b', post) else Some ([], b, l)
  end.

(** The first block is given up after some failures. *)
Definition drop_first (r : MEM_ROOT) (Size : Z) : MEM_ROOT :=
  match free r with
  | [] => r
  | b :: rest =>
      if left b <? Size then
        let usage := first_block_usage r in
        if (ALLOC_MAX_BLOCK_USAGE_BEFORE_DROP <=? usage) && (left b <? ALLOC_MAX_BLOCK_TO_DROP) then with_lists r rest (b :: used r) 0
        else with_lists r (free r) (used r) (u32 (usage + 1))
      else r
  end.

(** The end of [alloc_root]: [Size] bytes of the block [next] between [pre] and
    [post]. *)
Definition take_from (r : MEM_ROOT) (Size : Z) (pre : list USED_MEM) (next : USED_MEM) (post : list USED_MEM) : MEM_ROOT * Z :=
  let point := addr next + u32 (size next - left next) in
  let next := with_left next (u32 (left next - Size)) in
  (if left next <? min_malloc r then with_lists r (pre ++ post) (next :: used r) 0
   else with_lists r (pre ++ next :: post) (used r) (first_block_usage r), point).

(** The root, the heap and the pointer. *)
Definition alloc_root (r : MEM_ROOT) (Size : Z) (answer : option Z) (h : heap) : option (MEM_ROOT * heap * option Z) :=
  _ ← assert_that (alloc_root_inited r);
  let Size := u32 (ALIGN_SIZE Size) in
  let r := drop_first r Size in
  match find_block Size (free r) with
  | Some (pre, next, post) => let '(r, point) := take_from r Size pre next post in Some (r, h, Some point)
  | None =>
      (* time to alloc new block *)
      let bs := u32 (block_size r * Z.shiftr (block_num r) 2) in
      let get_size := Z.max (u32 (Size + ALIGN_SIZE sizeof_USED_MEM)) bs in
      match my_malloc get_size answer h with
      | (None, h) => Some (r, h, None)
      | (Some a, h) =>
          let r := mkRoot (free r) (used r) (pre_alloc r) (min_malloc r) (block_size r) (u32 (block_num r + 1)) (first_block_usage r) in
          let '(r, point) := take_from r Size (free r) (mkBlock a (u32 (get_size - ALIGN_SIZE sizeof_USED_MEM)) get_size) [] in Some (r, h, Some point)
      end
  end.

(** The pointers to objects of the given lengths, from [res] on. *)
Fixpoint multi_pointers (res : Z) (lengths : list Z) : list Z :=
  match lengths with
  | [] => []
  | length :: lengths => res :: multi_pointers (res + ALIGN_SIZE length) lengths
  end.

Definition multi_alloc_root (r : MEM_ROOT) (lengths : list Z) (answer : option Z) (h : heap) : option (MEM_ROOT * heap * option (Z * list Z)) :=
  let tot_length := fold_left (fun t length => u32 (t + ALIGN_SIZE length)) lengths 0 in
  '(r, h, start) ← alloc_root r tot_length answer h;
  Some (r, h, start ← start; Some (start, multi_pointers start lengths)).

Definition mark_free (b : USED_MEM) : USED_MEM := with_left b (u32 (size b - ALIGN_SIZE sizeof_USED_MEM)).

Definition mark_blocks_free (r : MEM_ROOT) : MEM_ROOT := with_lists r (map mark_free (free r) ++ map mark_free (used r)) [] 0.

(** [my_free] of all blocks but [keep]. *)
Fixpoint free_blocks (l : list USED_MEM) (keep : option Z) (h : heap) : option heap :=
  match l with
  | [] => Some h
  | old :: l =>
      h ← (if decide (keep = Some (addr old)) then Some h else my_free (addr old) h);
      free_blocks l keep h
  end.

Definition free_root (r : MEM_ROOT) (MyFlags : Z) (h : heap) : option (MEM_ROOT * heap) :=
  if negb (Z.land MyFlags MY_MARK_BLOCKS_FREE =? 0) then Some (mark_blocks_free r, h)
  else
    let r := if Z.land MyFlags MY_KEEP_PREALLOC =? 0 then with_pre_alloc r None else r in
    h ← free_blocks (used r) (pre_alloc r) h;
    h ← free_blocks (free r) (pre_alloc r) h;
    f ← match pre_alloc r with
        | Some a => b ← block_at r a; Some [mark_free b]
        | None => Some []
        end;
    Some (mkRoot f [] (pre_alloc r) (min_malloc r) (block_size r) 4 0, h).

(** The loop of [reset_root_defaults] over the free blocks: a block of the given
    size, if there is one, or all of the list without the unused blocks. *)
Fixpoint reuse_block (l : list USED_MEM) (n : Z) (h : heap) : option (list USED_MEM * option Z * heap) :=
  match l with
  | [] => Some ([], None, h)
  | mem :: l =>
      if size mem =? n then Some (mem :: l, Some (addr mem), h)
      else if left mem + ALIGN_SIZE sizeof_USED_MEM =? size mem then
        h ← my_free (addr mem) h; reuse_block l n h
      else '(l, p, h) ← reuse_block l n h; Some (mem :: l, p, h)
  end.

Definition reset_root_defaults (r : MEM_ROOT) (bs pre_alloc_size : Z) (answer : option Z) (h : heap) : option (MEM_ROOT * heap) :=
  _ ← assert_that (alloc_root_inited r);
  let r := mkRoot (free r) (used r) (pre_alloc r) (min_malloc r) (u32 (bs - ALLOC_ROOT_MIN_BLOCK_SIZE)) (block_num r) (first_block_usage r) in
  if negb (pre_alloc_size =? 0) then
    let n := u32 (pre_alloc_size + ALIGN_SIZE sizeof_USED_MEM) in
    fits ← match pre_alloc r with Some a => b ← block_at r a; Some (size b =? n) | None => Some false end;
    if fits : bool then Some (r, h)
    else
      '(l, p, h) ← reuse_block (free r) n h;
      match p with
      | Some a => Some (with_pre_alloc (with_lists r l (used r) (first_block_usage r)) (Some a), h)
      | None =>
          (* allocate new prealloc block and add it to the end of free list *)
          match my_malloc n answer h with
          | (Some a, h) => Some (with_pre_alloc (with_lists r (l ++ [mkBlock a pre_alloc_size n]) (used r) (first_block_usage r)) (Some a), h)
          | (None, h) => Some (with_lists r l (used r) (first_block_usage r), h)
          end
      end
  else Some (with_pre_alloc r None, h).

(** The block that contains an object is kept from then on. *)
Definition set_prealloc_root (r : MEM_ROOT) (ptr : Z) : MEM_ROOT :=
  match list_find (fun b => addr b <= ptr /\ ptr < addr b + size b) (used r ++ free r) with
  | Some (_, b) => with_pre_alloc r (Some (addr b))
  | None => r
  end.

(** The bytes that are written at the pointer. *)
Definition strmake_root (r : MEM_ROOT) (str : list Z) (len : Z) (answer : option Z) (h : heap) : option (MEM_ROOT * heap * option (Z * list Z)) :=
  '(r, h, pos) ← alloc_root r (u32 (len + 1)) answer h;
  Some (r, h, pos ← pos; Some (pos, take (Z.to_nat len) str ++ [0])).

Definition memdup_root (r : MEM_ROOT) (str : list Z) (len : Z) (answer : option Z) (h : heap) : option (MEM_ROOT * heap * option (Z * list Z)) :=
  '(r, h, pos) ← alloc_root r len answer h;
  Some (r, h, pos ← pos; Some (pos, take (Z.to_nat len) str)).

(** [str] without its zero byte. *)
Definition strdup_root (r : MEM_ROOT) (str : list Z) (answer : option Z) (h : heap) : option (MEM_ROOT * heap * option (Z * list Z)) :=
  strmake_root r str (u32 (Z.of_nat (length str))) answer h.

(** ** Regions *)

(** A region is an address and a length. *)
Definition disjoint (x y : Z * Z) : Prop := x.1 + x.2 <= y.1 \/ y.1 + y.2 <= x.1.

(** Regions that do not overlap. *)
Fixpoint all_disjoint (l : list (Z * Z)) : Prop :=
  match l with
  | [] => True
  | x :: l => Forall (disjoint x) l /\ all_disjoint l
  end.

Lemma disjoint_sym x y : disjoint x y -> disjoint y x.
Proof. unfold disjoint. lia. Qed.

Lemma disjoint_inside x y p n : disjoint x y -> x.1 <= p -> p + n <= x.1 + x.2 -> disjoint (p, n) y.
Proof. unfold disjoint. cbn. lia. Qed.

Lemma all_disjoint_perm l l' : l ≡ₚ l' -> all_disjoint l -> all_disjoint l'.
Proof.
  induction 1 as [|x l l' Hp IH|x y l|l l' l'' _ IH1 _ IH2]; cbn; [done| | |by auto].
  - intros [H1 H2]. split; [by rewrite <- Hp|by apply IH].
  - intros [H1 [H2 H3]]. apply Forall_cons in H1 as [H0 H1]. split; [constructor; [by apply disjoint_sym|done]|done].
Qed.

#[export] Instance all_disjoint_proper : Proper ((≡ₚ) ==> iff) all_disjoint.
Proof. intros l l' Hp. split; apply all_disjoint_perm; [done|by symmetry]. Qed.

Lemma all_disjoint_in l x y : all_disjoint l -> x ∈ l -> y ∈ l -> x = y \/ disjoint x y.
Proof.
  induction l as [|z l IH]; [by intros _ Hx%not_elem_of_nil|]. intros [Hz Hl] Hx Hy. rewrite Forall_forall in Hz. apply elem_of_cons in Hx as [-> |Hx], Hy as [-> |Hy];
    [by left|right; by apply Hz|right; by apply disjoint_sym, Hz|by apply IH].
Qed.

(** ** The invariant *)

Definition region (b : USED_MEM) : Z * Z := (addr b, size b).
Definition owned (r : MEM_ROOT) : list USED_MEM := free r ++ used r.

Record block_ok (b : USED_MEM) : Prop := {
  b_addr : (8 | addr b);
  b_size : 16 <= size b < 2 ^ 32;
  b_left : 0 <= left b <= size b - 16;
  b_used : (8 | size b - left b)
}.

(** A region that was given out of a block: behind the header, before what is left. *)
Definition given_from (x : Z * Z) (b : USED_MEM) : Prop := addr b + 16 <= x.1 /\ 0 < x.2 /\ x.1 + x.2 <= addr b + (size b - left b) /\ (8 | x.1).

(** A region of no bytes is not used. *)
Definition give (p n : Z) (live : list (Z * Z)) : list (Z * Z) := if 0 <? n then (p, n) :: live else live.

(** [live] are the regions that were given out since the last [free_root]. *)
Record root_ok (r : MEM_ROOT) (h : heap) (live : list (Z * Z)) : Prop := {
  r_heap : h ≡ₚ map region (owned r);
  r_blocks : Forall block_ok (owned r);
  r_disjoint : all_disjoint h;
  r_live : Forall (fun x => Exists (given_from x) (owned r)) live;
  r_live_disjoint : all_disjoint live;
  r_pre_alloc : forall a, pre_alloc r = Some a -> a ∈ h.*1;
  r_inited : alloc_root_inited r = true
}.

(** What malloc promises of a new block of [n] bytes. *)
Definition fresh (h : heap) (a n : Z) : Prop := (8 | a) /\ Forall (disjoint (a, n)) h.

Lemma ALIGN_SIZE_spec A : 0 <= A < 2 ^ 64 - 7 -> A <= ALIGN_SIZE A < A + 8 /\ (8 | ALIGN_SIZE A).
Proof.
  intros HA. unfold ALIGN_SIZE. rewrite u64_small by lia. assert (2 ^ 64 - 8 = Z.ldiff (Z.ones 64) (Z.ones 3)) as -> by done.
  assert (Z.land (A + 7) (Z.ldiff (Z.ones 64) (Z.ones 3)) = Z.ldiff (A + 7) (Z.ones 3)) as ->.
  { apply Z.bits_inj'. intros i Hi. rewrite Z.land_spec, !Z.ldiff_spec, !Z.testbit_ones_nonneg by lia. destruct (Z.ltb_spec i 64) as [|Hi64]; [done|].
    assert (Z.testbit (A + 7) i = false) as -> by (rewrite <- (Z.mod_small (A + 7) (2 ^ 64)) by lia; apply Z.mod_pow2_bits_high; lia). done. }
  rewrite Z.ldiff_ones_r, Z.shiftr_div_pow2, Z.shiftl_mul_pow2 by lia. change (2 ^ 3) with 8. split; [|apply Z.divide_factor_r]. dlia.
Qed.

Lemma ALIGN_SIZE_header : ALIGN_SIZE sizeof_USED_MEM = 16.
Proof. done. Qed.

Lemma owned_addr_unique r h live b b' : root_ok r h live -> b ∈ owned r -> b' ∈ owned r -> region b = region b' \/ disjoint (region b) (region b').
Proof.
  intros H Hb Hb'. apply (all_disjoint_in h); [apply (r_disjoint _ _ _ H)| |]; rewrite (r_heap _ _ _ H); apply list_elem_of_fmap; eauto.
Qed.

(** Blocks that change their list only. *)
Lemma root_ok_moved r r' h live : root_ok r h live -> owned r ≡ₚ owned r' -> pre_alloc r' = pre_alloc r -> min_malloc r' = min_malloc r -> root_ok r' h live.
Proof.
  intros [H1 H2 H3 H4 H5 H6 H7] Ho Hp Hm. split; [by rewrite <- Ho|by rewrite <- Ho|done| |done|by rewrite Hp|].
  - eapply Forall_impl; [exact H4|]. intros x Hx. by rewrite <- Ho.
  - unfold alloc_root_inited in *. by rewrite Hm.
Qed.

(** ** Allocation *)

Lemma find_block_spec n l :
  match find_block n l with
  | Some (pre, b, post) => l = pre ++ b :: post /\ n <= left b
  | None => Forall (fun b => left b < n) l
  end.
Proof.
  induction l as [|b l IH]; cbn [find_block]; [done|]. destruct (Z.ltb_spec (left b) n) as [Hlt|Hge]; [|done].
  destruct (find_block n l) as [[[pre b'] post]|]; cbn [mbind option_bind]; [|by constructor]. destruct IH as [-> Hl]. done.
Qed.

Lemma drop_first_owned r n : owned r ≡ₚ owned (drop_first r n).
Proof.
  unfold drop_first, owned. destruct (free r) as [|b l] eqn:E; [by rewrite E|]. destruct (left b <? n); [|by rewrite E].
  destruct (_ && _); cbn [with_lists free used]; [by rewrite <- Permutation_middle|done].
Qed.

Lemma drop_first_fields r n : pre_alloc (drop_first r n) = pre_alloc r /\ min_malloc (drop_first r n) = min_malloc r /\ block_size (drop_first r n) = block_size r /\
  block_num (drop_first r n) = block_num r.
Proof. unfold drop_first. destruct (free r); [done|]. destruct (_ <? _); [|done]. by destruct (_ && _). Qed.

Lemma given_from_grows x b l : given_from x b -> l <= left b -> given_from x (with_left b l).
Proof. intros (H1 & H2 & H3 & H4) Hl. unfold given_from. cbn. split_and!; [lia|lia|lia|done]. Qed.

(** [Size] bytes are cut off a block. *)
Lemma take_from_ok r n m pre b post usage h live : root_ok (with_lists r (pre ++ b :: post) (used r) usage) h live -> 0 <= m <= n -> n <= left b -> (8 | n) ->
  let '(r', p) := take_from r n pre b post in root_ok r' h (give p m live) /\ (8 | p).
Proof.
  intros H Hm Hn H8. unfold take_from. assert (block_ok b) as Hb.
  { pose proof (r_blocks _ _ _ H) as Hb. unfold owned in Hb. cbn in Hb. rewrite !Forall_app, Forall_cons in Hb. by destruct Hb as [(_ & Hb & _) _]. }
  destruct Hb as [B1 B2 B3 B4]. rewrite (u32_small (size b - left b)), (u32_small (left b - n)) by lia. set (b' := with_left b (left b - n)). set (p := addr b + (size b - left b)).
  assert (8 | p) as Hp by (by apply Z.divide_add_r). match goal with |- context [if ?c then ?x else ?y] => set (r' := if c then x else y) end.
  assert (owned r' ≡ₚ b' :: (pre ++ post) ++ used r) as Ho.
  { unfold r', owned. destruct (_ <? _); cbn [with_lists free used]; [by rewrite <- Permutation_middle|]. rewrite <- !app_assoc. cbn [app]. by rewrite <- Permutation_middle. }
  assert (owned (with_lists r (pre ++ b :: post) (used r) usage) ≡ₚ b :: (pre ++ post) ++ used r) as Ho0.
  { unfold owned. cbn [with_lists free used]. rewrite <- !app_assoc. cbn [app]. by rewrite <- Permutation_middle. }
  set (l := (pre ++ post) ++ used r) in *. destruct H as [H1 H2 H3 H4 H5 H6 H7]. rewrite Ho0 in H1, H2. cbn [map] in H1. apply Forall_cons in H2 as [_ H2].
  split; [|done]. split.
  - rewrite Ho. exact H1.
  - rewrite Ho. constructor; [|done]. split; [done|done|cbn; lia|]. cbn. replace (size b - (left b - n)) with (size b - left b + n) by lia. by apply Z.divide_add_r.
  - done.
  - assert (Forall (fun x => Exists (given_from x) (owned r')) live) as Hl.
    { eapply Forall_impl; [exact H4|]. intros x Hx. cbn beta in Hx |- *. rewrite Ho. rewrite Ho0 in Hx. apply Exists_cons in Hx as [Hx|Hx]; apply Exists_cons; [left|by right]. apply given_from_grows; [done|cbn; lia]. }
    unfold give. destruct (Z.ltb_spec 0 m); [|done]. constructor; [|done]. rewrite Ho. constructor. unfold given_from, p. cbn. split_and!; [lia|lia|lia|done].
  - unfold give. destruct (Z.ltb_spec 0 m); [|done]. split; [|done]. rewrite Forall_forall in H4 |- *. intros x Hx. specialize (H4 x Hx). cbn beta in H4. rewrite Ho0 in H4. apply Exists_cons in H4 as [Hx'|Hx'].
    + right. destruct Hx' as (_ & _ & Hx' & _). unfold p. cbn in *. lia.
    + apply Exists_exists in Hx' as (c & Hc & Hx'). rewrite H1 in H3. destruct H3 as [H3 _]. rewrite Forall_forall in H3. specialize (H3 (region c) ltac:(apply list_elem_of_fmap; eauto)).
      rewrite Forall_forall in H2. destruct (H2 c Hc) as [_ Hs Hl _]. destruct Hx' as (X1 & X2 & X3 & _). unfold disjoint, p in *. cbn in *. lia.
  - intros a Ha. apply H6. unfold r' in Ha. destruct (_ <? _); exact Ha.
  - unfold r', alloc_root_inited in *. by destruct (_ <? _).
Qed.

(** What is asked of malloc if no block has room. *)
Definition alloc_request (r : MEM_ROOT) (Size : Z) : Z := Z.max (u32 (u32 (ALIGN_SIZE Size) + 16)) (u32 (block_size r * Z.shiftr (block_num r) 2)).

(** A new block at the end of the free ones. *)
Lemma root_ok_new_block r r' h live a n l : root_ok r h live -> fresh h a n -> 16 <= n < 2 ^ 32 -> 0 <= l <= n - 16 -> (8 | n - l) ->
  owned r' ≡ₚ mkBlock a l n :: owned r -> min_malloc r' = min_malloc r -> (pre_alloc r' = pre_alloc r \/ pre_alloc r' = Some a) -> root_ok r' ((a, n) :: h) live.
Proof.
  intros [H1 H2 H3 H4 H5 H6 H7] [F1 F2] Hn Hl H8 Ho Hm Hp. split.
  - rewrite Ho. cbn [map]. by constructor.
  - rewrite Ho. constructor; [by split|done].
  - by split.
  - eapply Forall_impl; [exact H4|]. intros x Hx. rewrite Ho. by apply Exists_cons_tl.
  - done.
  - intros a' Ha'. rewrite fmap_cons. apply elem_of_cons. destruct Hp as [Hp|Hp]; [right; apply H6; congruence|left; cbn; congruence].
  - unfold alloc_root_inited in *. by rewrite Hm.
Qed.

Lemma alloc_root_ok r n answer h live : root_ok r h live -> 0 <= n < 2 ^ 32 - 24 -> (forall a, answer = Some a -> fresh h a (alloc_request r n)) ->
  exists r' h' p, alloc_root r n answer h = Some (r', h', p) /\
    match p with
    | Some p => root_ok r' h' (give p n live) /\ (8 | p)
    | None => answer = None /\ h' = h /\ root_ok r' h live
    end.
Proof.
  intros H Hn Hans. unfold alloc_root. rewrite bind_assert by apply (r_inited _ _ _ H). destruct (ALIGN_SIZE_spec n ltac:(lia)) as [Ha H8].
  unfold alloc_request in Hans. rewrite ALIGN_SIZE_header. rewrite (u32_small (ALIGN_SIZE n)) in * by lia. set (m := ALIGN_SIZE n) in *.
  destruct (drop_first_fields r m) as (Ep & Em & Ebs & Ebn). pose proof (root_ok_moved r (drop_first r m) h live H (drop_first_owned r m) Ep Em) as H'. rewrite Ebs, Ebn.
  set (r1 := drop_first r m) in *. pose proof (find_block_spec m (free r1)) as Hfind. destruct (find_block m (free r1)) as [[[pre b] post]|].
  - destruct Hfind as [Ef Hl]. pose proof (take_from_ok r1 m n pre b post (first_block_usage r1) h live) as Ht. destruct (take_from r1 m pre b post) as [r' p].
    exists r', h, (Some p). split; [done|]. apply Ht; [|lia|done|done]. rewrite <- Ef. apply (root_ok_moved r1); done.
  - set (bs := u32 (block_size r * Z.shiftr (block_num r) 2)) in *. assert (is_u32 bs) as Hbs by apply u32_range. rewrite (u32_small (m + 16)) in * by lia. set (gs := Z.max (m + 16) bs) in *.
    unfold my_malloc. rewrite (proj2 (Z.eqb_neq gs 0)) by lia. destruct answer as [a|]; [|exists r1, h, None; done]. specialize (Hans a eq_refl).
    rewrite (u32_small (gs - 16)) by lia. set (r2 := mkRoot _ _ _ _ _ _ _). pose proof (take_from_ok r2 m n (free r1) (mkBlock a (gs - 16) gs) [] (first_block_usage r1) ((a, gs) :: h) live) as Ht.
    change (free r2) with (free r1). destruct (take_from r2 m (free r1) _ []) as [r' p]. eexists _, _, (Some p). split; [done|]. apply Ht; [|lia|cbn; lia|done].
    apply (root_ok_new_block r1 _ h live a gs (gs - 16)); [done|done|lia|lia|by replace (gs - (gs - 16)) with (2 * 8) by lia; apply Z.divide_factor_r| |done|by left].
    unfold owned. cbn [with_lists free used r2]. rewrite <- app_assoc. cbn [app]. by rewrite <- Permutation_middle.
Qed.

(** ** Freeing *)

Lemma heap_addresses l : all_disjoint (map region l) -> Forall block_ok l -> NoDup (map region l).*1.
Proof.
  induction l as [|b l IH]; cbn; [constructor|]. intros [Hb Hl] [Hok Hoks]%Forall_cons. constructor; [|by apply IH]. rewrite list_elem_of_fmap. intros (x & Ex & Hx).
  rewrite Forall_forall in Hb. specialize (Hb x Hx). apply list_elem_of_fmap in Hx as (c & -> & Hc). rewrite Forall_forall in Hoks. pose proof (b_size c (Hoks c Hc)). pose proof (b_size b Hok).
  unfold disjoint in Hb. cbn in *. lia.
Qed.

Lemma root_addresses r h live : root_ok r h live -> NoDup h.*1.
Proof.
  intros [H1 H2 H3 _ _ _ _]. rewrite H1. apply heap_addresses; [by rewrite <- H1|done].
Qed.

Lemma my_free_spec a n h : NoDup h.*1 -> (a, n) ∈ h -> exists h', my_free a h = Some h' /\ h ≡ₚ (a, n) :: h'.
Proof.
  induction h as [|[a' n'] h IH]; [by intros _ ?%not_elem_of_nil|]. cbn. intros [Hni Hnd]%NoDup_cons Hin. destruct (Z.eqb_spec a' a) as [-> |Hne].
  - apply elem_of_cons in Hin as [E|Hin]; [injection E as ->; by exists h|]. exfalso. apply Hni. change a with ((a, n).1). by apply list_elem_of_fmap_2.
  - apply elem_of_cons in Hin as [E|Hin]; [congruence|]. destruct (IH Hnd Hin) as (h' & -> & Hp). exists ((a', n') :: h'). split; [done|]. rewrite Hp. constructor.
Qed.

Lemma free_blocks_app l l' keep h : free_blocks (l ++ l') keep h = (h ← free_blocks l keep h; free_blocks l' keep h).
Proof. revert h. induction l as [|b l IH]; intros h; cbn; [done|]. destruct (if decide _ then _ else _); cbn; [apply IH|done]. Qed.

Lemma free_blocks_spec keep l : forall h rest, h ≡ₚ map region l ++ rest -> NoDup h.*1 ->
  exists h', free_blocks l keep h = Some h' /\ h' ≡ₚ map region (filter (fun b => keep = Some (addr b)) l) ++ rest.
Proof.
  induction l as [|b l IH]; intros h rest Hp Hnd; cbn [free_blocks]; [by exists h|]. rewrite filter_cons. cbn [map] in Hp. destruct (decide (keep = Some (addr b))) as [E|E].
  - cbn [mbind option_bind]. destruct (IH h (region b :: rest)) as (h' & -> & Hp'); [by rewrite Hp, <- Permutation_middle|done|]. exists h'. split; [done|]. rewrite Hp'. cbn. by rewrite <- Permutation_middle.
  - destruct (my_free_spec (addr b) (size b) h Hnd) as (h1 & -> & Hp1); [rewrite Hp; by left|]. cbn [mbind option_bind]. rewrite Hp1 in Hp, Hnd. apply NoDup_cons in Hnd as [_ Hnd].
    apply (IH h1 rest); [|done]. by apply Permutation_cons_inv in Hp.
Qed.

Lemma filter_no_address a l : a ∉ map addr l -> filter (fun c => Some a = Some (addr c)) l = [].
Proof.
  induction l as [|c l IH]; [done|]. cbn [map]. rewrite not_elem_of_cons, filter_cons. intros [Hne Hni]. destruct (decide _) as [E|_]; [congruence|by apply IH].
Qed.

Lemma filter_address b l : NoDup (map addr l) -> b ∈ l -> filter (fun c => Some (addr b) = Some (addr c)) l = [b].
Proof.
  induction l as [|c l IH]; [by intros _ ?%not_elem_of_nil|]. cbn [map]. intros [Hni Hnd]%NoDup_cons [-> |Hin]%elem_of_cons; rewrite filter_cons.
  - destruct (decide _) as [_|]; [|done]. by rewrite filter_no_address.
  - destruct (decide _) as [E|_]; [|by apply IH]. injection E as E. exfalso. apply Hni. rewrite <- E. by apply list_elem_of_fmap_2.
Qed.

Lemma filter_keep_none (keep : option Z) l : keep = None -> filter (fun b => keep = Some (addr b)) l = [].
Proof. intros ->. induction l as [|c l IH]; [done|]. rewrite filter_cons. by destruct (decide _). Qed.

Lemma mark_free_ok b : block_ok b -> block_ok (mark_free b) /\ region (mark_free b) = region b.
Proof.
  intros [B1 B2 B3 B4]. unfold mark_free. rewrite ALIGN_SIZE_header, u32_small by lia. split; [|done]. split; cbn; [done|lia|lia|].
  replace (size b - (size b - 16)) with (2 * 8) by lia. apply Z.divide_factor_r.
Qed.

Lemma mark_free_all l : Forall block_ok l -> Forall block_ok (map mark_free l) /\ map region (map mark_free l) = map region l.
Proof.
  induction 1 as [|b l Hb _ [IH1 IH2]]; cbn; [done|]. destruct (mark_free_ok b Hb) as [H1 H2]. split; [by constructor|by rewrite H2, IH2].
Qed.

Lemma mark_blocks_free_ok r h live : root_ok r h live -> root_ok (mark_blocks_free r) h [].
Proof.
  intros [H1 H2 H3 _ _ H6 H7]. unfold mark_blocks_free. assert (owned (with_lists r (map mark_free (free r) ++ map mark_free (used r)) [] 0) = map mark_free (owned r)) as Eo.
  { unfold owned. cbn. by rewrite app_nil_r, map_app. }
  destruct (mark_free_all _ H2) as [M1 M2]. split; [by rewrite Eo, M2|by rewrite Eo|done|constructor|done|exact H6|exact H7].
Qed.

Lemma block_at_spec r a : a ∈ map addr (owned r) -> exists b, block_at r a = Some b /\ b ∈ used r ++ free r /\ addr b = a.
Proof.
  intros Ha. apply list_elem_of_fmap in Ha as (b & -> & Hb). unfold block_at. assert (is_Some (list_find (fun c => addr c = addr b) (used r ++ free r))) as [[i c] E].
  { apply list_find_elem_of with b; [|done]. unfold owned in Hb. set_solver. }
  rewrite E. apply list_find_Some in E as (E & Ec & _). exists c. split; [done|]. split; [by eapply list_elem_of_lookup_2|done].
Qed.

(** Everything is freed but a block that is kept. *)
Lemma free_root_ok r flags h live : root_ok r h live -> exists r' h', free_root r flags h = Some (r', h') /\ root_ok r' h' [] /\
  (Z.land flags MY_MARK_BLOCKS_FREE = 0 -> (length h' <= 1)%nat /\ (Z.land flags MY_KEEP_PREALLOC = 0 -> h' = [])) /\
  (Z.land flags MY_MARK_BLOCKS_FREE <> 0 -> h' = h).
Proof.
  intros H. unfold free_root. destruct (Z.eqb_spec (Z.land flags MY_MARK_BLOCKS_FREE) 0) as [Em|Em]; cbn [negb].
  2: { eexists _, _. split; [done|]. split; [by eapply mark_blocks_free_ok|]. done. }
  pose proof (root_addresses _ _ _ H) as Hnd. set (r1 := if Z.land flags MY_KEEP_PREALLOC =? 0 then with_pre_alloc r None else r).
  assert (used r1 = used r /\ free r1 = free r /\ min_malloc r1 = min_malloc r /\ (pre_alloc r1 = None \/ pre_alloc r1 = pre_alloc r) /\ (Z.land flags MY_KEEP_PREALLOC = 0 -> pre_alloc r1 = None)) as (Eu & Ef & Emm & Ep & Ek).
  { unfold r1. destruct (Z.eqb_spec (Z.land flags MY_KEEP_PREALLOC) 0); cbn; split_and!; auto; done. }
  assert (h ≡ₚ map region (used r1 ++ free r1) ++ []) as Hh by (rewrite app_nil_r, Eu, Ef, (r_heap _ _ _ H); unfold owned; by rewrite (Permutation_app_comm (free r))).
  destruct (free_blocks_spec (pre_alloc r1) _ h [] Hh Hnd) as (h' & Efree & Hh'). rewrite free_blocks_app in Efree. rewrite app_nil_r in Hh'.
  destruct (free_blocks (used r1) (pre_alloc r1) h) as [h1|]; [|done]. cbn [mbind option_bind] in Efree |- *. rewrite Efree. cbn [mbind option_bind].
  assert (root_ok r1 h live) as H1 by (destruct H as [G1 G2 G3 G4 G5 G6 G7]; split; unfold owned; rewrite ?Eu, ?Ef; try done; [intros a Ha; apply G6; destruct Ep as [Ep|Ep]; congruence|unfold alloc_root_inited in *; by rewrite Emm]).
  destruct (pre_alloc r1) as [a|] eqn:Ea.
  - assert (a ∈ map addr (owned r1)) as Ha.
    { pose proof (r_pre_alloc _ _ _ H1 a Ea) as Ha. rewrite (r_heap _ _ _ H1) in Ha. apply list_elem_of_fmap in Ha as (x & -> & Hx). apply list_elem_of_fmap in Hx as (b & -> & Hb). change (addr b ∈ map addr (owned r1)). by apply list_elem_of_fmap_2. }
    destruct (block_at_spec r1 a Ha) as (b & -> & Hb & <-). cbn [mbind option_bind]. assert (NoDup (map addr (used r1 ++ free r1))) as Hnd'.
    { assert (h.*1 ≡ₚ map addr (used r1 ++ free r1)) as <-; [|done]. rewrite Hh, app_nil_r, <- list_fmap_compose. done. }
    rewrite (filter_address b _ Hnd' Hb) in Hh'. cbn in Hh'. apply Permutation_singleton_r in Hh' as ->.
    assert (block_ok b) as Hok by (pose proof (r_blocks _ _ _ H1) as Hbs; rewrite Forall_forall in Hbs; apply Hbs; unfold owned; set_solver). destruct (mark_free_ok b Hok) as [M1 M2].
    eexists _, _. split; [done|]. split; [|split; [intros _; split; [cbn; lia|intros Hk; specialize (Ek Hk); congruence]|done]].
    split; cbn; [by rewrite M2|by constructor|done|constructor|done|intros a [= <-]; by left|apply (r_inited _ _ _ H1)].
  - rewrite (filter_keep_none None _ eq_refl) in Hh'. cbn in Hh'. apply Permutation_nil_r in Hh' as ->. cbn [mbind option_bind]. eexists _, _. split; [done|]. split; [|split; [intros _; split; [cbn; lia|done]|done]].
    split; cbn; try done; try constructor. apply (r_inited _ _ _ H1).
Qed.

(** ** Other operations *)

Lemma set_prealloc_root_ok r ptr h live : root_ok r h live -> root_ok (set_prealloc_root r ptr) h live.
Proof.
  intros H. unfold set_prealloc_root. destruct (list_find _ _) as [[i b]|] eqn:E; [|done]. apply list_find_Some in E as (E & _ & _). apply list_elem_of_lookup_2 in E.
  destruct H as [H1 H2 H3 H4 H5 H6 H7]. split; try done. cbn. intros a [= <-]. rewrite H1. change (addr b) with ((region b).1). do 2 apply list_elem_of_fmap_2. unfold owned. set_solver.
Qed.

(** Blocks of which nothing is used are taken away. *)
Lemma root_ok_without r r' h h' live gone : root_ok r h live -> owned r ≡ₚ gone ++ owned r' -> h ≡ₚ map region gone ++ h' -> Forall (fun b => left b + 16 = size b) gone ->
  min_malloc r' = min_malloc r -> (forall a, pre_alloc r' = Some a -> a ∈ h'.*1) -> root_ok r' h' live.
Proof.
  intros [H1 H2 H3 H4 H5 _ H7] Ho Hh Hg Hm Hp. rewrite Ho in H2. apply Forall_app in H2 as [_ H2]. split; [|done| | |done|done|unfold alloc_root_inited in *; by rewrite Hm].
  - apply (Permutation_app_inv_l (map region gone)). by rewrite <- Hh, H1, Ho, map_app.
  - rewrite Hh in H3. clear -H3. induction (map region gone) as [|x l IH]; [done|]. destruct H3 as [_ H3]. by apply IH.
  - eapply Forall_impl; [exact H4|]. intros x Hx. cbn beta in Hx |- *. rewrite Ho, Exists_app in Hx. destruct Hx as [Hx|]; [|done]. exfalso. apply Exists_exists in Hx as (b & Hb & X1 & X2 & X3 & _).
    rewrite Forall_forall in Hg. specialize (Hg b Hb). cbn beta in Hg. lia.
Qed.

Lemma reuse_block_spec n l : forall h rest, h ≡ₚ map region l ++ rest -> NoDup h.*1 ->
  exists l' p h' gone, reuse_block l n h = Some (l', p, h') /\ l ≡ₚ gone ++ l' /\ h ≡ₚ map region gone ++ h' /\ Forall (fun b => left b + 16 = size b) gone /\
    forall a, p = Some a -> a ∈ map addr l'.
Proof.
  induction l as [|b l IH]; intros h rest Hp Hnd; cbn [reuse_block]; [by exists [], None, h, []|]. cbn [map] in Hp. destruct (size b =? n).
  { exists (b :: l), (Some (addr b)), h, []. do 3 (split; [done|]). split; [constructor|]. intros a [= <-]. cbn. by left. }
  rewrite ALIGN_SIZE_header. destruct (Z.eqb_spec (left b + 16) (size b)) as [El|El].
  - destruct (my_free_spec (addr b) (size b) h Hnd) as (h1 & -> & Hp1); [rewrite Hp; by left|]. cbn [mbind option_bind]. rewrite Hp1 in Hnd. apply NoDup_cons in Hnd as [_ Hnd].
    assert (h1 ≡ₚ map region l ++ rest) as Hp2 by (rewrite Hp1 in Hp; by apply Permutation_cons_inv in Hp). destruct (IH h1 rest Hp2 Hnd) as (l' & p & h' & gone & -> & Hl & Hh & Hg & Ha).
    exists l', p, h', (b :: gone). split; [done|]. split; [cbn; by rewrite Hl|]. split; [cbn; by rewrite Hp1, Hh|]. split; [by constructor|done].
  - destruct (IH h (region b :: rest)) as (l' & p & h' & gone & -> & Hl & Hh & Hg & Ha); [by rewrite Hp, <- Permutation_middle|done|]. cbn [mbind option_bind].
    exists (b :: l'), p, h', gone. split; [done|]. split; [by rewrite <- Permutation_middle, <- Hl|]. do 2 (split; [done|]). intros a Ea. cbn. right. by apply Ha.
Qed.

Lemma reset_root_defaults_ok r bs n a h live : root_ok r h live -> 0 <= n < 2 ^ 32 - 16 ->
  (forall l p h', reuse_block (free r) (n + 16) h = Some (l, p, h') -> fresh h' a (n + 16)) ->
  exists r' h', reset_root_defaults r bs n (Some a) h = Some (r', h') /\ root_ok r' h' live.
Proof.
  intros H Hn Hans. unfold reset_root_defaults. rewrite bind_assert by apply (r_inited _ _ _ H). set (r1 := mkRoot _ _ _ _ _ _ _).
  assert (root_ok r1 h live) as H1 by (by destruct H; split). destruct (Z.eqb_spec n 0) as [-> |Hn0]; cbn [negb].
  { eexists _, _. split; [done|]. destruct H1 as [G1 G2 G3 G4 G5 G6 G7]. by split. }
  rewrite ALIGN_SIZE_header, u32_small by lia. pose proof (root_addresses _ _ _ H1) as Hnd.
  assert (exists fits, match pre_alloc r1 with Some a => b ← block_at r1 a; Some (size b =? n + 16) | None => Some false end = Some fits) as [fits ->].
  { destruct (pre_alloc r1) as [a'|] eqn:Ea; [|by eexists]. pose proof (r_pre_alloc _ _ _ H1 a' Ea) as Ha. rewrite (r_heap _ _ _ H1), <- list_fmap_compose in Ha.
    destruct (block_at_spec r1 a' Ha) as (b & -> & _). by eexists. }
  cbn [mbind option_bind]. destruct fits; [eexists _, _; by split|].
  destruct (reuse_block_spec (n + 16) (free r1) h (map region (used r1))) as (l & p & h' & gone & E & Hl & Hh & Hg & Hp); [by rewrite (r_heap _ _ _ H1), <- map_app|done|]. rewrite E. cbn [mbind option_bind].
  specialize (Hans l p h' E). assert (owned r1 ≡ₚ gone ++ l ++ used r1) as Ho by (unfold owned; by rewrite Hl, <- app_assoc). destruct p as [a'|].
  - eexists _, _. split; [done|]. apply (root_ok_without r1 _ h h' live gone H1); [exact Ho|done|done|done|]. cbn. intros a'' [= <-]. specialize (Hp a' eq_refl).
    assert (h' ≡ₚ map region (l ++ used r1)) as -> by (apply (Permutation_app_inv_l (map region gone)); by rewrite <- Hh, <- map_app, <- Ho, (r_heap _ _ _ H1)).
    rewrite map_app, fmap_app, elem_of_app. left. rewrite <- list_fmap_compose. exact Hp.
  - unfold my_malloc. rewrite (proj2 (Z.eqb_neq (n + 16) 0)) by lia. eexists _, _. split; [done|].
    assert (root_ok (with_pre_alloc (with_lists r1 l (used r1) (first_block_usage r1)) None) h' live) as H2 by (apply (root_ok_without r1 _ h h' live gone H1); [exact Ho|done..]).
    apply (root_ok_new_block _ _ h' live a (n + 16) n H2); [done|lia|lia|by replace (n + 16 - n) with (2 * 8) by lia; apply Z.divide_factor_r| |done|by right].
    unfold owned. cbn. rewrite <- app_assoc. cbn [app]. by rewrite <- Permutation_middle.
Qed.

(** ** Several objects at once *)

Definition aligned_sum (lengths : list Z) : Z := fold_right (fun n t => ALIGN_SIZE n + t) 0 lengths.

Lemma aligned_sum_spec lengths : Forall (fun n => 0 <= n < 2 ^ 32) lengths -> 0 <= aligned_sum lengths.
Proof.
  induction 1 as [|n l Hn _ IH]; [done|]. change (aligned_sum (n :: l)) with (ALIGN_SIZE n + aligned_sum l). destruct (ALIGN_SIZE_spec n ltac:(lia)). lia.
Qed.

Lemma multi_length lengths : forall t, Forall (fun n => 0 <= n < 2 ^ 32) lengths -> 0 <= t -> t + aligned_sum lengths < 2 ^ 32 ->
  fold_left (fun t length => u32 (t + ALIGN_SIZE length)) lengths t = t + aligned_sum lengths.
Proof.
  induction lengths as [|n l IH]; intros t Hl Ht Hb; [cbn; lia|]. change (aligned_sum (n :: l)) with (ALIGN_SIZE n + aligned_sum l) in *. cbn [fold_left]. apply Forall_cons in Hl as [Hn Hl]. destruct (ALIGN_SIZE_spec n ltac:(lia)). pose proof (aligned_sum_spec l Hl).
  rewrite u32_small, IH by (done || lia). lia.
Qed.

(** The objects are apart and within the memory that was asked for. *)
Lemma multi_pointers_spec lengths : forall start, Forall (fun n => 0 <= n < 2 ^ 32) lengths ->
  all_disjoint (zip (multi_pointers start lengths) lengths) /\
  Forall (fun x => start <= x.1 /\ x.1 + x.2 <= start + aligned_sum lengths /\ 0 <= x.2) (zip (multi_pointers start lengths) lengths).
Proof.
  induction lengths as [|n l IH]; intros start Hl; cbn [multi_pointers zip_with aligned_sum fold_right]; [by split|]. apply Forall_cons in Hl as [Hn Hl].
  destruct (ALIGN_SIZE_spec n ltac:(lia)) as [Ha _]. destruct (IH (start + ALIGN_SIZE n) Hl) as [I1 I2]. pose proof (aligned_sum_spec l Hl) as Hs. fold (aligned_sum l). split.
  - cbn. split; [|done]. eapply Forall_impl; [exact I2|]. intros x Hx. cbn beta in Hx. unfold disjoint. cbn. lia.
  - constructor; [cbn; lia|]. eapply Forall_impl; [exact I2|]. intros x Hx. cbn beta in *. lia.
Qed.

Lemma multi_pointers_aligned lengths : forall start, Forall (fun n => 0 <= n < 2 ^ 32) lengths -> (8 | start) -> Forall (fun p => (8 | p)) (multi_pointers start lengths).
Proof.
  induction lengths as [|n l IH]; intros start Hl Hs; cbn [multi_pointers]; [constructor|]. apply Forall_cons in Hl as [Hn Hl]. destruct (ALIGN_SIZE_spec n ltac:(lia)) as [_ Ha].
  constructor; [done|]. apply IH; [done|by apply Z.divide_add_r].
Qed.

(** A region that was given out, cut into several. *)
Lemma root_ok_split r h p n l live : root_ok r h ((p, n) :: live) -> Forall (fun x => p <= x.1 /\ x.1 + x.2 <= p + n /\ 0 < x.2 /\ (8 | x.1)) l -> all_disjoint l -> root_ok r h (l ++ live).
Proof.
  intros [H1 H2 H3 [H4x H4]%Forall_cons [H5x H5] H6 H7] Hl Hd. split; try done.
  - apply Forall_app. split; [|done]. eapply Forall_impl; [exact Hl|]. intros x (X1 & X2 & X3 & X4). cbn beta. eapply Exists_impl; [exact H4x|]. intros b (B1 & B2 & B3 & B4). unfold given_from. cbn in *. split_and!; [lia|lia|lia|done].
  - clear H4x H4 H2 H1. induction l as [|x l IH]; [done|]. apply Forall_cons in Hl as [(X1 & X2 & X3 & _) Hl]. destruct Hd as [Hx Hd]. cbn [app all_disjoint]. split; [|by apply IH].
    apply Forall_app. split; [done|]. eapply Forall_impl; [exact H5x|]. intros y Hy. unfold disjoint in *. cbn in *. lia.
Qed.

(** ** Sequences of calls *)

Inductive mem_op :=
  | Alloc (Size : Z)
  | MultiAlloc (lengths : list Z)
  | FreeRoot (flags : Z)
  | Reset (bs pre_alloc_size : Z)
  | SetPrealloc (ptr : Z).

(** The root, the heap and the regions that may be used. *)
Record mem_state := mkState { s_root : MEM_ROOT; s_heap : heap; s_live : list (Z * Z) }.

Definition positive (x : Z * Z) : Prop := 0 < x.2.

Definition mem_step (s : mem_state) (op : mem_op) (answer : option Z) : option mem_state :=
  match op with
  | Alloc n =>
      '(r, h, p) ← alloc_root (s_root s) n answer (s_heap s);
      Some (mkState r h (match p with Some p => give p n (s_live s) | None => s_live s end))
  | MultiAlloc ls =>
      '(r, h, p) ← multi_alloc_root (s_root s) ls answer (s_heap s);
      Some (mkState r h (match p with Some (_, ps) => filter positive (zip ps ls) ++ s_live s | None => s_live s end))
  | FreeRoot flags => '(r, h) ← free_root (s_root s) flags (s_heap s); Some (mkState r h [])
  | Reset bs n => '(r, h) ← reset_root_defaults (s_root s) bs n answer (s_heap s); Some (mkState r h (s_live s))
  | SetPrealloc ptr => Some (mkState (set_prealloc_root (s_root s) ptr) (s_heap s) (s_live s))
  end.

(** The sizes do not wrap, malloc answers with fresh memory, and it does answer when
    the defaults are reset. *)
Definition op_ok (s : mem_state) (op : mem_op) (answer : option Z) : Prop :=
  match op with
  | Alloc n => 0 <= n < 2 ^ 32 - 24 /\ forall a, answer = Some a -> fresh (s_heap s) a (alloc_request (s_root s) n)
  | MultiAlloc ls => Forall (fun n => 0 <= n < 2 ^ 32) ls /\ aligned_sum ls < 2 ^ 32 - 24 /\ forall a, answer = Some a -> fresh (s_heap s) a (alloc_request (s_root s) (aligned_sum ls))
  | FreeRoot _ | SetPrealloc _ => True
  | Reset bs n => 0 <= n < 2 ^ 32 - 16 /\ exists a, answer = Some a /\ forall l p h, reuse_block (free (s_root s)) (n + 16) (s_heap s) = Some (l, p, h) -> fresh h a (n + 16)
  end.

Definition state_ok (s : mem_state) : Prop := root_ok (s_root s) (s_heap s) (s_live s).

Lemma mem_step_ok s op answer : state_ok s -> op_ok s op answer -> exists s', mem_step s op answer = Some s' /\ state_ok s'.
Proof.
  unfold state_ok. destruct s as [r h live]. cbn [s_root s_heap s_live]. intros H Hop. destruct op as [n|ls|flags|bs n|ptr]; cbn [mem_step op_ok s_root s_heap s_live] in *.
  - destruct Hop as [Hn Hf]. destruct (alloc_root_ok r n answer h live H Hn Hf) as (r' & h' & p & -> & Hp). cbn [mbind option_bind]. eexists. split; [done|]. cbn. destruct p as [p|]; [apply Hp|].
    by destruct Hp as (_ & -> & Hp).
  - destruct Hop as (Hls & Hsum & Hf). pose proof (aligned_sum_spec ls Hls). unfold multi_alloc_root. rewrite multi_length by (done || lia). rewrite Z.add_0_l.
    destruct (alloc_root_ok r (aligned_sum ls) answer h live H ltac:(lia) Hf) as (r' & h' & p & -> & Hp). cbn [mbind option_bind]. eexists. split; [done|]. cbn.
    destruct p as [p|]; cbn [mbind option_bind]; [|by destruct Hp as (_ & -> & Hp)]. destruct Hp as [Hp H8]. destruct (multi_pointers_spec ls p Hls) as [M1 M2]. pose proof (multi_pointers_aligned ls p Hls H8) as M3.
    assert (Forall (fun x => p <= x.1 /\ x.1 + x.2 <= p + aligned_sum ls /\ 0 < x.2 /\ (8 | x.1)) (filter positive (zip (multi_pointers p ls) ls))) as M4.
    { apply Forall_forall. intros x [Hx Hin]%list_elem_of_filter. rewrite Forall_forall in M2. destruct (M2 x Hin) as (X1 & X2 & X3). split_and!; [done|done|done|].
      rewrite Forall_forall in M3. apply M3. destruct x. by eapply elem_of_zip_l. }
    assert (all_disjoint (filter positive (zip (multi_pointers p ls) ls))) as M5.
    { clear -M1. induction (zip (multi_pointers p ls) ls) as [|x l IH]; [done|]. destruct M1 as [Hx Hl]. rewrite filter_cons. destruct (decide (positive x)); [|by apply IH]. split; [|by apply IH]. apply Forall_forall. intros y [_ Hy]%list_elem_of_filter. rewrite Forall_forall in Hx. by apply Hx. }
    unfold give in Hp. destruct (Z.ltb_spec 0 (aligned_sum ls)) as [Hs|Hs]; [by eapply root_ok_split|].
    destruct (filter positive _) as [|x l]; [done|]. apply Forall_cons in M4 as [(X1 & X2 & X3 & _) _]. lia.
  - destruct (free_root_ok r flags h live H) as (r' & h' & -> & Hr & _). cbn [mbind option_bind]. eexists. by split.
  - destruct Hop as (Hn & a & -> & Hf). destruct (reset_root_defaults_ok r bs n a h live H Hn Hf) as (r' & h' & -> & Hr). cbn [mbind option_bind]. eexists. by split.
  - eexists. split; [done|]. cbn. by apply set_prealloc_root_ok.
Qed.

Fixpoint mem_run (s : mem_state) (ops : list (mem_op * option Z)) : option mem_state :=
  match ops with
  | [] => Some s
  | (op, answer) :: ops => s ← mem_step s op answer; mem_run s ops
  end.

Fixpoint ops_ok (s : mem_state) (ops : list (mem_op * option Z)) : Prop :=
  match ops with
  | [] => True
  | (op, answer) :: ops => op_ok s op answer /\ forall s', mem_step s op answer = Some s' -> ops_ok s' ops
  end.

Lemma mem_run_ok ops : forall s, state_ok s -> ops_ok s ops -> exists s', mem_run s ops = Some s' /\ state_ok s'.
Proof.
  induction ops as [|[op answer] ops IH]; intros s Hs Hops; cbn [mem_run]; [by exists s|]. destruct Hops as [Hop Hops]. destruct (mem_step_ok s op answer Hs Hop) as (s1 & E & Hs1).
  rewrite E. cbn [mbind option_bind]. apply IH; [done|by apply Hops].
Qed.

Definition init_state (bs pre_alloc_size : Z) (answer : option Z) : mem_state :=
  let '(r, h) := init_alloc_root bs pre_alloc_size answer [] in mkState r h [].

Lemma init_state_ok bs n answer : 0 <= n < 2 ^ 32 - 16 -> (forall a, answer = Some a -> (8 | a)) -> state_ok (init_state bs n answer).
Proof.
  intros Hn Ha. unfold init_state, init_alloc_root. set (r := mkRoot [] [] None _ _ _ _). assert (root_ok r [] []) as H by (split; cbn; try done; by constructor).
  destruct (Z.eqb_spec n 0) as [-> |Hn0]; cbn [negb]; [exact H|]. rewrite ALIGN_SIZE_header, u32_small by lia. unfold my_malloc. rewrite (proj2 (Z.eqb_neq (n + 16) 0)) by lia.
  destruct answer as [a|]; [|exact H]. unfold state_ok. cbn [s_root s_heap s_live].
  apply (root_ok_new_block r _ [] [] a (n + 16) n H); [split; [by apply Ha|constructor]|lia|lia|by replace (n + 16 - n) with (2 * 8) by lia; apply Z.divide_factor_r|done|done|by right].
Qed.

(** C9: a memory root under a sequence of calls of [alloc_root],
    [multi_alloc_root], [free_root], [reset_root_defaults] and
    [set_prealloc_root] that keeps these conditions ([op_ok] for each call in
    the state it meets): the sizes asked for (for [multi_alloc_root] the sum of
    the aligned sizes) are small enough that adding the header and the
    alignment does not wrap 32 bits; where malloc answers, it gives an aligned
    block apart from the blocks it has given out; and it does answer when
    [reset_root_defaults] asks it for a new first block.  The block that
    [init_alloc_root] may ask for is bounded and aligned in the same way.
    (Without these the code fails: [alloc_root_wraps],
    [reset_root_defaults_dangling].)
    Then no call reads or frees a block that is not there, and the regions that
    were given out since the last [free_root] do not overlap, are aligned, and
    lie in blocks that malloc has given out, behind their header; the blocks of
    the root are exactly those that malloc has given out. *)
Theorem mem_root_safe bs n answer ops : 0 <= n < 2 ^ 32 - 16 -> (forall a, answer = Some a -> (8 | a)) -> ops_ok (init_state bs n answer) ops ->
  exists s, mem_run (init_state bs n answer) ops = Some s /\ s_heap s ≡ₚ map region (owned (s_root s)) /\ all_disjoint (s_heap s) /\ all_disjoint (s_live s) /\
    Forall (fun x => (8 | x.1) /\ Exists (fun b => b.1 + 16 <= x.1 /\ x.1 + x.2 <= b.1 + b.2) (s_heap s)) (s_live s).
Proof.
  intros Hn Ha Hops. destruct (mem_run_ok ops _ (init_state_ok bs n answer Hn Ha) Hops) as (s & E & [H1 H2 H3 H4 H5 _ _]). exists s. split; [done|]. split; [done|]. do 2 (split; [done|]).
  apply Forall_forall. intros x Hx. rewrite Forall_forall in H4. specialize (H4 x Hx). apply Exists_exists in H4 as (b & Hb & X1 & X2 & X3 & X4). split; [done|]. apply Exists_exists. exists (region b).
  rewrite H1. split; [by apply list_elem_of_fmap_2|]. rewrite Forall_forall in H2. destruct (H2 b Hb) as [_ _ Hl _]. cbn. lia.
Qed.

(** Three allocations, the last of which takes a new block, a second use of the
    blocks, and a new preallocated block. *)
Definition some_calls : list (mem_op * option Z) :=
  [(Alloc 100, None); (MultiAlloc [3; 0; 20], None); (Alloc 5000, Some 8192); (SetPrealloc 8300, None); (FreeRoot MY_MARK_BLOCKS_FREE, None); (Alloc 7, None); (Reset 1024 512, Some 65536);
   (Alloc 500, None)].

Ltac next_call := intros s E; vm_compute in E; injection E as <-.

Lemma some_calls_ok : ops_ok (init_state 1024 200 (Some 4096)) some_calls.
Proof.
  unfold some_calls. split; [split; [lia|discriminate]|]. next_call.
  split; [split; [repeat constructor; lia|split; [vm_compute; reflexivity|discriminate]]|]. next_call.
  split; [split; [lia|intros a [= <-]; split; [by exists 1024|repeat constructor; vm_compute; intuition discriminate]]|]. next_call.
  split; [done|]. next_call. split; [done|]. next_call. split; [split; [lia|discriminate]|]. next_call.
  split; [split; [lia|exists 65536; split; [done|intros l p h E; vm_compute in E; injection E as <- <- <-; split; [by exists 8192|repeat constructor; vm_compute; intuition discriminate]]]|]. next_call.
  split; [split; [lia|discriminate]|]. next_call. done.
Qed.

Lemma mem_root_safe_witness :
  mem_run (init_state 1024 200 (Some 4096)) some_calls =
    Some (mkState (mkRoot [mkBlock 4096 192 216] [mkBlock 65536 8 528] (Some 65536) 32 992 5 0) [(65536, 528); (4096, 216)] [(65552, 500); (4112, 7)]) /\
  exists s, mem_run (init_state 1024 200 (Some 4096)) some_calls = Some s /\ s_heap s ≡ₚ map region (owned (s_root s)) /\ all_disjoint (s_heap s) /\ all_disjoint (s_live s) /\
    Forall (fun x => (8 | x.1) /\ Exists (fun b => b.1 + 16 <= x.1 /\ x.1 + x.2 <= b.1 + b.2) (s_heap s)) (s_live s).
Proof. split; [vm_compute; reflexivity|]. apply (mem_root_safe 1024 200 (Some 4096) some_calls); [lia|intros a [= <-]; by exists 512|apply some_calls_ok]. Defined.

(** C10: after a sequence of calls that keeps the conditions [op_ok] (no size
    wraps 32 bits, malloc gives aligned blocks apart from those it has given out,
    and it answers when [reset_root_defaults] asks it for a first block),
    [free_root] without flags gives every block back to malloc, each exactly once,
    and with [MY_KEEP_PREALLOC] all but at most one; the root can be used again. *)
Theorem free_root_no_leak bs n answer ops flags : 0 <= n < 2 ^ 32 - 16 -> (forall a, answer = Some a -> (8 | a)) -> ops_ok (init_state bs n answer) ops ->
  Z.land flags MY_MARK_BLOCKS_FREE = 0 ->
  exists s r h, mem_run (init_state bs n answer) ops = Some s /\ free_root (s_root s) flags (s_heap s) = Some (r, h) /\ root_ok r h [] /\ (length h <= 1)%nat /\
    (Z.land flags MY_KEEP_PREALLOC = 0 -> h = [] /\ owned r = []).
Proof.
  intros Hn Ha Hops Hf. destruct (mem_run_ok ops _ (init_state_ok bs n answer Hn Ha) Hops) as (s & E & Hs). destruct (free_root_ok _ flags _ _ Hs) as (r & h & Ef & Hr & Hh & _).
  exists s, r, h. do 3 (split; [done|]). destruct (Hh Hf) as [Hl Hk]. split; [done|]. intros Hkeep. specialize (Hk Hkeep). split; [done|].
  pose proof (r_heap _ _ _ Hr) as Hp. rewrite Hk in Hp. apply Permutation_nil_l in Hp. by destruct (owned r).
Qed.

Lemma free_root_no_leak_witness :
  exists s r h, mem_run (init_state 1024 200 (Some 4096)) some_calls = Some s /\ free_root (s_root s) 0 (s_heap s) = Some (r, h) /\ root_ok r h [] /\ (length h <= 1)%nat /\
    (Z.land 0 MY_KEEP_PREALLOC = 0 -> h = [] /\ owned r = []).
Proof. apply (free_root_no_leak 1024 200 (Some 4096) some_calls 0); [lia|intros a [= <-]; by exists 512|apply some_calls_ok|reflexivity]. Defined.

(** Strings are copied with their zero byte into memory that is long enough. *)
Lemma strmake_root_ok r str len answer h live : root_ok r h live -> 0 <= len < 2 ^ 32 - 25 -> len <= Z.of_nat (length str) ->
  (forall a, answer = Some a -> fresh h a (alloc_request r (len + 1))) ->
  exists r' h' p, strmake_root r str len answer h = Some (r', h', p) /\
    match p with
    | Some (p, bytes) => root_ok r' h' ((p, len + 1) :: live) /\ Z.of_nat (length bytes) = len + 1 /\ bytes = take (Z.to_nat len) str ++ [0]
    | None => answer = None /\ root_ok r' h' live
    end.
Proof.
  intros H Hl Hs Ha. unfold strmake_root. rewrite u32_small by lia. destruct (alloc_root_ok r (len + 1) answer h live H ltac:(lia) Ha) as (r' & h' & p & -> & Hp). cbn [mbind option_bind].
  destruct p as [p|]; cbn [mbind option_bind]; eexists _, _, _; (split; [done|]); cbn.
  - destruct Hp as [Hp _]. unfold give in Hp. rewrite (proj2 (Z.ltb_lt _ _)) in Hp by lia. split; [done|]. rewrite length_app, length_take. cbn. split; [lia|done].
  - by destruct Hp as (? & -> & ?).
Qed.

(** ** Where the code does not do what it means to *)

(** The size of a large request wraps around: no bytes are given out. *)
Lemma alloc_root_wraps : alloc_root (s_root (init_state 1024 0 None)) 4294967295 (Some 4096) [] = Some (mkRoot [mkBlock 4096 976 992] [] None 32 992 5 0, [(4096, 992)], Some 4112).
Proof. vm_compute. reflexivity. Qed.

(** Without memory for the new block, the root keeps a pointer to the preallocated
    block that was freed; the next [free_root] uses it. *)
Lemma reset_root_defaults_dangling : let s := init_state 1024 200 (Some 4096) in
  exists r h, reset_root_defaults (s_root s) 1024 512 None (s_heap s) = Some (r, h) /\ h = [] /\ pre_alloc r = Some 4096 /\ free_root r MY_KEEP_PREALLOC h = None.
Proof. eexists _, _. split; [vm_compute; reflexivity|]. vm_compute. done. Qed.

(** ** Memory that is allocated once *)

Section once.
(** [my_once_extra] *)
Context (extra : Z).

(** The loop over the blocks: the block with room between the others, or the largest
    room. *)
Fixpoint once_find (Size max_left : Z) (l : list USED_MEM) : list USED_MEM * option USED_MEM * list USED_MEM * Z :=
  match l with
  | [] => ([], None, [], max_left)
  | b :: l =>
      if left b <? Size then
        let '(pre, next, post, m) := once_find Size (if max_left <? left b then left b else max_left) l in (b :: pre, next, post, m)
      else ([], Some b, l, max_left)
  end.

Definition my_once_alloc (root_block : list USED_MEM) (Size : Z) (answer : option Z) (h : heap) : list USED_MEM * heap * option Z :=
  let Size := u32 (ALIGN_SIZE Size) in
  let '(pre, next, post, max_left) := once_find Size 0 root_block in
  let '(next, h) :=
    match next with
    | Some b => (Some b, h)
    | None =>
        let get_size := u32 (Size + ALIGN_SIZE sizeof_USED_MEM) in
        let get_size := if (u32 (max_left * 4) <? extra) && (get_size <? extra) then extra else get_size in
        match answer with
        | Some a => (Some (mkBlock a (u32 (get_size - ALIGN_SIZE sizeof_USED_MEM)) get_size), (a, get_size) :: h)
        | None => (None, h)
        end
    end in
  match next with
  | None => (root_block, h, None)
  | Some b => (pre ++ with_left b (u32 (left b - Size)) :: post, h, Some (addr b + u32 (size b - left b)))
  end.

Definition my_once_memdup (root_block : list USED_MEM) (src : list Z) (len : Z) (answer : option Z) (h : heap) : list USED_MEM * heap * option (Z * list Z) :=
  let '(l, h, dst) := my_once_alloc root_block len answer h in (l, h, dst ← dst; Some (dst, take (Z.to_nat len) src)).

Definition my_once_strdup (root_block : list USED_MEM) (src : list Z) (answer : option Z) (h : heap) : list USED_MEM * heap * option (Z * list Z) :=
  let len := u32 (u32 (Z.of_nat (length src)) + 1) in
  let '(l, h, dst) := my_once_alloc root_block len answer h in (l, h, dst ← dst; Some (dst, take (Z.to_nat len) (src ++ [0]))).

Definition my_once_free (root_block : list USED_MEM) (h : heap) : option (list USED_MEM * heap) := h ← free_blocks root_block None h; Some ([], h).

(** The blocks as those of a root that never gives up a block. *)
Definition once_root (l : list USED_MEM) : MEM_ROOT := mkRoot l [] None (-1) 0 4 0.

Lemma once_find_spec n l : forall m, 0 <= m -> let '(pre, next, post, m') := once_find n m l in
  match next with Some b => l = pre ++ b :: post /\ n <= left b | None => l = pre /\ post = [] end.
Proof.
  induction l as [|b l IH]; intros m Hm; cbn [once_find]; [done|]. destruct (Z.ltb_spec (left b) n) as [Hlt|Hge]; [|done].
  specialize (IH (if m <? left b then left b else m) ltac:(destruct (Z.ltb_spec m (left b)); lia)). destruct (once_find n _ l) as [[[pre next] post] m'].
  destruct next; destruct IH as [-> IH]; done.
Qed.

Lemma take_from_once l n pre b post : 0 <= n <= left b -> block_ok b ->
  take_from (once_root l) n pre b post = (once_root (pre ++ with_left b (u32 (left b - n)) :: post), addr b + u32 (size b - left b)).
Proof. intros Hn [_ B2 B3 _]. unfold take_from. cbn [with_left left]. rewrite (proj2 (Z.ltb_ge _ _)); [done|]. cbn. rewrite u32_small by lia. lia. Qed.

(** What is given out once does not overlap, either. *)
Lemma my_once_alloc_ok l n answer h live : root_ok (once_root l) h live -> 0 <= n < 2 ^ 32 - 24 -> 0 <= extra < 2 ^ 32 ->
  (forall a m, answer = Some a -> n + 16 <= m < 2 ^ 32 -> fresh h a m) ->
  let '(l', h', p) := my_once_alloc l n answer h in
  match p with
  | Some p => root_ok (once_root l') h' (give p n live) /\ (8 | p)
  | None => answer = None /\ l' = l /\ h' = h
  end.
Proof.
  intros H Hn Hx Ha. unfold my_once_alloc. destruct (ALIGN_SIZE_spec n ltac:(lia)) as [Hm H8]. rewrite (u32_small (ALIGN_SIZE n)) by lia. set (m := ALIGN_SIZE n) in *.
  pose proof (once_find_spec m l 0 ltac:(lia)) as Hf. destruct (once_find m 0 l) as [[[pre next] post] max_left]. destruct next as [b|].
  - destruct Hf as [El Hb]. assert (block_ok b) as Hok by (pose proof (r_blocks _ _ _ H) as Hbs; rewrite Forall_forall in Hbs; apply Hbs; unfold owned; cbn; rewrite El; set_solver).
    pose proof (take_from_ok (once_root l) m n pre b post 0 h live) as Ht. rewrite take_from_once in Ht by (done || lia). apply Ht; [|lia|done|done].
    apply (root_ok_moved (once_root l) _ h live H); [unfold owned; cbn; by rewrite El|done|done].
  - destruct Hf as [El ->]. rewrite ALIGN_SIZE_header, (u32_small (m + 16)) by lia. set (gs := if _ && _ then extra else m + 16).
    assert (m + 16 <= gs < 2 ^ 32) as Hgs by (unfold gs; destruct (_ && _) eqn:E; [apply andb_true_iff in E as [_ E]; apply Z.ltb_lt in E|]; lia).
    destruct answer as [a|]; [|done]. rewrite (u32_small (gs - 16)) by lia. set (b := mkBlock a (gs - 16) gs). assert (block_ok b) as Hok.
    { split; cbn; [apply (Ha a gs eq_refl); lia|lia|lia|replace (gs - (gs - 16)) with (2 * 8) by lia; apply Z.divide_factor_r]. }
    pose proof (take_from_ok (once_root l) m n pre b [] 0 ((a, gs) :: h) live) as Ht. rewrite take_from_once in Ht by (done || (cbn; lia)). apply Ht; [|lia|cbn; lia|done].
    apply (root_ok_new_block (once_root l) _ h live a gs (gs - 16) H); [apply Ha; [done|lia]|lia|lia|replace (gs - (gs - 16)) with (2 * 8) by lia; apply Z.divide_factor_r| |done|by left].
    unfold owned. cbn. rewrite El, !app_nil_r. by rewrite <- Permutation_middle, app_nil_r.
Qed.

End once.
